(* ===== verification/_CoqProject ===== *)
-Q . S2P
Prelude.v
Job.v
ResourceLedger.v
TokenBucket.v
Bandwidth.v
Scheduler.v
SchedulerFacts.v
CacheRecords.v
CacheFacts.v
CacheLease.v
CacheQuota.v
CacheQuotaFacts.v
Frame.v
FrameFacts.v
Handshake.v
Domain.v
Utf8.v
Keymap.v
Preview.v
Lexer.v
GoPath.v
Edit.v
EditFacts.v
Provider.v
DirectProtocol.v
Plan.v
Admission.v
PlanRecord.v
JobTables.v
JobStore.v
JobRetention.v
JobStoreFacts.v
JobRuns.v
JobStoreTheorems.v
JobRequests.v
JobRecovery.v
Checkpoint.v
Effects.v
Logic.v
Mutation.v
NameFacts.v
MutationFacts.v
DeleteTree.v
Planner.v
Stream.v
Worker.v
Move.v
Commit.v
Execute.v
DirectoryCopy.v
DirectoryStreams.v
Manager.v
ManagerRequests.v
StreamFacts.v
StreamTotal.v
MoveFacts.v
DirectoryFacts.v
DirectoryRuns.v
DirectoryTheorems.v
ManagerFacts.v
Evidence.v
JobJournal.v
TransferFacts.v
WorkerFacts.v
RecoveryFacts.v
CommitFacts.v
ExecuteFacts.v
History.v
PlanReady.v
PlannerFacts.v
PlannerTheorems.v
TuiModel.v
TuiReducer.v
TuiKeys.v
TuiFacts.v
TuiTheorems.v
TransferDemo.v
MoveDemo.v
PlannerDemo.v
ManagerDemo.v
