(* ===== verification/Prelude.v ===== *)
(** AMSFTP: a verification development for the Go program under src/.

    AMSFTP is a two-pane terminal file manager for local and SSH endpoints.  A
    daemon owns the durable state: transfer Jobs, the content cache, edit
    sessions.  Clients talk to it over framed messages.  A client's request is
    frozen into a plan, the plan is written to the store of jobs, and the manager
    of the daemon runs it: copies, moves and deletions go through providers (local
    files, SFTP), within the limits of a resource ledger and at the pace of a
    bandwidth scheduler, with their progress in a journal from which an
    interrupted run is resumed.  This library models the parts whose correctness
    protects the user's data and the daemon's promises, and proves what they
    promise.

    * Files

    Each file models the Go files named in its own header; a [...Facts] or
    [...Theorems] file holds theorems about definitions of other files, a [...Demo]
    file the concrete runs on which hypotheses are shown to hold.

    - Prelude.v (this file): Go's results and loops over them, machine
      integers, time, bytes, record update, and the lemmas and tactics shared
      by all components.
    Values and texts:
    - Domain.v: internal/domain, identifiers, capability snapshots, operation
      errors, fingerprints, locations and entries.
    - GoPath.v: package path, and the confinement checks of
      internal/transfer/plan.go and directory.go; NameFacts.v: names made by
      planning.
    - Utf8.v, Lexer.v: internal/externalprocess/lexer.go, the lexer of external
      commands, on a model of unicode/utf8; Keymap.v: internal/keymap, the key map
      and the effective bindings.
    - Preview.v: internal/preview/planner.go, the bounded reads of a preview.
    - Frame.v, FrameFacts.v, Handshake.v: internal/ipc/frame.go, handshake.go and
      version.go, the frame codec over any reader and writer, and negotiation.
    Limits:
    - ResourceLedger.v: internal/transfer/resource_ledger.go; Admission.v: what an
      execution asks of it (manager.go, stream_budget.go).
    - TokenBucket.v, Bandwidth.v, Scheduler.v, SchedulerFacts.v:
      internal/transfer/scheduler.go.
    The cache and edit sessions:
    - CacheRecords.v, CacheFacts.v, CacheLease.v, CacheQuota.v, CacheQuotaFacts.v:
      internal/cache.
    - Edit.v, EditFacts.v: internal/edit/session.go.
    Plans:
    - DirectProtocol.v: internal/directprotocol; Plan.v: the frozen plan
      and [validateExecution]; PlanRecord.v: its JSON text and what it keeps;
      Planner.v: how it is frozen (internal/transfer/plan.go, completion.go,
      server_copy.go, same_host.go, level2.go); PlanReady.v, PlannerFacts.v,
      PlannerTheorems.v, which ends with planner and store together.
    The store of jobs:
    - Job.v: internal/job/state.go, the states of a job.
    - JobTables.v, JobStore.v, JobRetention.v: internal/state/jobstore on the
      schema of internal/state/migration; JobStoreFacts.v, JobRuns.v,
      JobStoreTheorems.v, JobRequests.v, JobRecovery.v; JobJournal.v: the journal
      of a transfer in the store.
    Handlers:
    - Effects.v: the monad of handlers, generic in their events, and the calls of
      providers and journals; Logic.v: rules on histories.
    - Provider.v: internal/provider, requests, pages, validate.go, and the
      provider interface as a record of operations on a world.
    - Mutation.v, MutationFacts.v, DeleteTree.v: internal/transfer/delete.go and
      the atomic half of move.go; Move.v, MoveFacts.v: the walk of a
      directory and the other half of move.go.
    - Checkpoint.v, Stream.v, Worker.v, Commit.v, Execute.v: the execution of a
      file plan (internal/transfer/worker.go, stream.go, stream_recovery.go,
      verification.go, server_copy.go, same_host.go); Evidence.v, StreamFacts.v, StreamTotal.v, TransferFacts.v, WorkerFacts.v,
      RecoveryFacts.v, CommitFacts.v, ExecuteFacts.v, History.v.
    - DirectoryCopy.v: internal/transfer/directory.go, a directory copied item by
      item; DirectoryStreams.v: directory_stream.go, files copied side by side;
      DirectoryFacts.v, DirectoryRuns.v, DirectoryTheorems.v.
    The manager:
    - Manager.v, ManagerRequests.v: internal/transfer/manager.go and
      progress.go; ManagerFacts.v.
    The terminal interface:
    - TuiModel.v, TuiReducer.v, TuiKeys.v: internal/tui, model.go with picker.go
      and sanitize.go, the actions of reducer.go and its keys and dialogs, with
      the translation of events in keymap.go and tcell.go; TuiFacts.v,
      TuiTheorems.v.
    - TransferDemo.v, MoveDemo.v, PlannerDemo.v, ManagerDemo.v: the runs.

    * How the code is modelled

    A Go function is a function of the same name; a method takes its receiver
    first and carries a prefix when two types share a method name.  A function
    that returns an error returns a [result]; error messages are constructors
    or, for operation errors, the values of Domain.v.  Integers are [Z] with
    their wrap-around written out ([u32], [u64], [i64]).  Maps are [gmap],
    structs are records.  A method that runs under a mutex is one step; a method
    that waits is split at its waits (Acquire and Wait into entering, polling
    and cancelling), and the components' runs are the closure of a step relation
    over all callers, so every theorem about runs holds for every interleaving
    and every clock.

    The tables of the store of jobs are finite maps.  A transaction is a function
    of the database that fails or takes effect as a whole; its [fate] says whether
    the disk and the write-ahead log let it commit, and whether the caller hears
    of it.  Runs of the store are the closure of all operations under all fates.

    Handlers run in the monad [ME Ev W] of Effects.v: a world [W] of any type,
    events [Ev] that record each call with its answer, and an outcome (returned,
    failed, panicked, still running).  Any functions of the world are a provider, a
    journal or a store of jobs, and other goroutines are part of it, so a theorem
    about traces holds for every provider, the hostile ones included, and for every
    interleaving, unless it names a contract.  A rule (Logic.v) says of each event
    what the history before it must hold.  The manager's events are those of its
    calls of the store and, embedded, those of the handlers it runs.

    Goroutines that one handler starts, and the variables they share with it, are
    a step relation of their own (DirectoryStreams.v): a step is one action of the
    loop, of the walk or of a file's run, and what it finds in the world is any
    world's answer, so its runs are all interleavings.

    * What the theorems show

    Transfers (History.v, ExecuteFacts.v): over all runs of a job's file together,
    whatever was interrupted, every checkpoint saved is true, a part is written
    only as the record allows, nothing but the job's own locations is written, a
    file is published only when its verified content is on record, and a copy that
    is reported complete is the source that was read: by the digest of the final
    file where one is asked for, else by the confirmed publication.  Streams, loops and recovery
    end (StreamTotal.v).
    Directories (DirectoryTheorems.v): a directory is recorded
    as committed only when everything under the source's root has been listed and
    all of it is there, within the limits of files and requests at once, and what
    is saved of it never goes back.
    Deletion and moves: nothing is destroyed that was not confirmed by its frozen
    fingerprint, a move deletes its source only where the destination is proved to
    hold it, and recursive deletion ends and removes exactly the tree.
    Plans: what is frozen is accepted by the worker, is what was seen and
    confirmed, asks the ledger for what the ledger can grant, and is read back as
    it was - if its strings are UTF-8, and otherwise not.
    Job states and their store: completed states are reached only through
    verification, terminal states are final; logs have no gaps, histories are
    legal, a request takes effect once however often it is sent, checkpoints only
    advance, recovery settles every interrupted job, retention keeps what is
    referenced, a sync-back and its edit session complete together; the journal
    loads only what was saved.
    The manager: a turn of a worker does nothing to files before the store has the
    job as running, and asks for its completion only with the proof of it; the
    observer of its progress, whose calls are a history of their own, asks only for
    the job it runs for; clients' requests ask only for legal transitions, of the
    job named and from the version answered; and one kind of conflict is lost.
    Edit sessions: what is sent back was authorised by the observations, and a
    session is restored as it was.
    Limits: ledger totals are the exact sums over outstanding leases, ceilings
    hold, nothing leaks; the bucket's arithmetic is exact, granted bytes respect
    the bandwidth, no class is overtaken more often than its weight.
    Cache: validation is referential integrity, classification fails closed,
    eviction plans are safe, maximal and always found.
    Protocol and texts: frames round-trip over every stream, negotiation is
    symmetric; the lexer accepts exactly the lines of a grammar; identifiers parse
    exactly when well formed; a validated entry is confined to its root; overrides
    of the key map are obeyed and leave every action its input; a preview shows the
    file's own bytes.
    The interface (TuiTheorems.v): from what it opens with, over all actions in any
    order, an effect is asked for only by the dialog that shows it, a deletion only
    after two confirmations of one list; rows, cursors and anchors of the panes stay
    consistent, and a listing shows exactly the pages that arrived.

    * Contracts of what is outside

    SHA-256 is a parameter; [HashLaws] (Stream.v): what is written in pieces is
    hashed as a whole, and a marshalled state is restored.  Readers and writers
    (FrameFacts.v) honour io.Reader and io.Writer.  [StatLaw] and [honest]
    (MutationFacts.v): the answer to a Stat is about the location asked for.
    [TreeStore] (DeleteTree.v): a provider that implements a tree of files.
    [SchedulerLaw] (StreamFacts.v): the scheduler's errors are not the end of a
    file; [handle_stops] (TransferFacts.v): a destination that takes a stream ends
    when its source fails.  [journalled] (Evidence.v): a journal loads what was
    saved; JobJournal.v proves it of the journal in the store.  [Texts],
    [TextsLaws] (JobTables.v) and [CheckpointTexts] (JobJournal.v): what the store
    reads from its own JSON texts.  [production] (PlannerFacts.v): the planner is
    the program's, and a resolver answers with the endpoint asked for.  [StoreLaw]
    (Manager.v): a snapshot answered is that of the job asked for.  [Unicode]
    (TuiModel.v) is the lower case of a rune beyond ASCII, of which nothing is
    assumed.  [RangeLaw]
    (Keymap.v): an iteration over a map visits each of its pairs once.  Each has a
    concrete instance on which the theorems' witnesses run.

    * Fuel

    Loops of the source without an obvious measure take fuel, and a theorem
    shows how much is enough: [readFull_turns] turns for reading (at most a
    hundred empty reads per byte), the payload's length for writing,
    [MaxCandidates] trials for planning evictions, the number of entries for a
    recursive deletion, the bytes of the source for [copyStream]
    (copyStream_terminates), the interrupted jobs for [recover_loop]
    (recovery_settles).  The loops of a walk and of a wait ([take_items],
    [move_loop], [waitUntil]) end when another goroutine lets them; a handler that
    runs out of fuel ([w_fuel], [mg_fuel]) is [Running], and its trace is still
    covered by the safety theorems, which hold for every fuel.

    * Not modelled

    How the manager's handler drives a directory's streams ([mg_streams]): the
    streams are a step relation, and what a turn of the manager is told of them is
    a parameter of it.
    The manager's construction, its worker loop, and what it only displays; the
    opening of databases; performance counters; the Level 2 data plane, which only
    tests attach; the text of a conflict view of an edit.  The stores of the cache, of
    edit sessions and of workspaces repeat the patterns of the store of jobs on
    other tables and have not been modelled; nor have the IPC envelope and wire
    types (JSON), the coordination of the interface's intents with the daemon, and
    its drawing.  Providers, the helper
    agent, SQL, file-system publication, process control and rendering are
    outside: they are system calls, remote processes, databases and output, of
    which only the interface is code of the program.  Release and test tooling is
    not part of the program. *)
From stdpp Require Export base decidable option list sorting gmap strings
  numbers relations.
From Stdlib Require Export Ascii ZArith Lia Strings.Byte.

#[export] Set Default Goal Selector "!".

(** * Fallible code

    Go's [(T, error)] results.  A function that returns a zero value together
    with a non-nil error is modelled by [Err]. *)
Inductive result (E A : Type) : Type :=
| Ok (a : A)
| Err (e : E).
Arguments Ok {E A} a.
Arguments Err {E A} e.

#[export] Instance result_ret E : MRet (result E) := λ A a, Ok a.
#[export] Instance result_bind E : MBind (result E) := λ A B f m,
  match m with Ok a => f a | Err e => Err e end.
#[export] Instance result_fmap E : FMap (result E) := λ A B f m,
  match m with Ok a => Ok (f a) | Err e => Err e end.

#[export] Instance result_eq_dec {E A} `{EqDecision E, EqDecision A} :
  EqDecision (result E A).
Proof. solve_decision. Defined.

(** [is_ok r] is Go's [err == nil]. *)
Definition is_ok {E A} (r : result E A) : bool :=
  match r with Ok _ => true | Err _ => false end.

(** [map_err] is wrapping with [fmt.Errorf("...: %w", err)]. *)
Definition map_err {E F A} (f : E → F) (r : result E A) : result F A :=
  match r with Ok a => Ok a | Err e => Err (f e) end.

(** [check b e] is the guard [if !b { return e }]. *)
Definition check {E} (b : bool) (e : E) : result E () :=
  if b then Ok tt else Err e.

Lemma bind_ok {E A B} (m : result E A) (f : A → result E B) b :
  m ≫= f = Ok b ↔ ∃ a, m = Ok a ∧ f a = Ok b.
Proof. destruct m; cbn; naive_solver. Qed.

Lemma check_ok {E} b (e : E) u : check b e = Ok u ↔ b = true.
Proof. destruct b, u; cbn; naive_solver. Qed.

Lemma check_bind_ok {E A} b (e : E) (k : () → result E A) a :
  check b e ≫= k = Ok a ↔ b = true ∧ k tt = Ok a.
Proof. destruct b; cbn; naive_solver. Qed.

Lemma map_err_ok {E F A} (f : E → F) (r : result E A) a :
  map_err f r = Ok a ↔ r = Ok a.
Proof. destruct r; cbn; naive_solver. Qed.

Lemma is_ok_true {E A} (r : result E A) : is_ok r = true ↔ ∃ a, r = Ok a.
Proof. destruct r; cbn; naive_solver. Qed.

(** The value of a call that is known to succeed (for concrete runs). *)
Definition unwrap {E A} (r : result E A) : is_ok r = true → A :=
  match r with
  | Ok a => λ _, a
  | Err _ => λ H, match Bool.diff_false_true H with end
  end.

(** [for_each f l] runs the error-returning body [f] over [l], stopping at the
    first error: the loop [for _, x := range l { if err := f(x) ... }]. *)
Fixpoint for_each {E A S} (f : S → A → result E S) (s : S) (l : list A) :
    result E S :=
  match l with
  | [] => Ok s
  | x :: l' => match f s x with Ok s' => for_each f s' l' | Err e => Err e end
  end.

Lemma for_each_app {E A S} (f : S → A → result E S) s l1 l2 :
  for_each f s (l1 ++ l2) = for_each f s l1 ≫= λ s', for_each f s' l2.
Proof.
  revert s; induction l1 as [|x l1 IH]; intros s; cbn; [done|].
  destruct (f s x); cbn; [apply IH|done].
Qed.

(** [each f l] is the same loop when the body keeps no state. *)
Definition each {E A} (f : A → result E ()) (l : list A) : result E () :=
  for_each (λ _, f) tt l.

Lemma each_ok {E A} (f : A → result E ()) l u :
  each f l = Ok u ↔ ∀ x, x ∈ l → f x = Ok tt.
Proof.
  destruct u. unfold each. induction l as [|x l IH]; cbn.
  { split; [by intros _ x ?%elem_of_nil|done]. }
  destruct (f x) as [[]|e] eqn:E0.
  - rewrite IH. set_solver.
  - split; [done|]. intros H. rewrite H in E0 by left. done.
Qed.

(** * Machine integers

    A w-bit unsigned integer is a [Z]; every operation of the source that can
    leave the range reduces modulo [2^w].  Go's [int] is 64 bits wide and is
    used for lengths only, which cannot overflow it. *)
Open Scope Z_scope.

Definition u16 (x : Z) : Z := x `mod` 2 ^ 16.
Definition u32 (x : Z) : Z := x `mod` 2 ^ 32.
Definition u64 (x : Z) : Z := x `mod` 2 ^ 64.
(** Two's complement int64. *)
Definition i64 (x : Z) : Z := (x + 2 ^ 63) `mod` 2 ^ 64 - 2 ^ 63.

Definition MaxUint64 : Z := 2 ^ 64 - 1.
Definition MaxUint32 : Z := 2 ^ 32 - 1.
Definition MaxInt64 : Z := 2 ^ 63 - 1.
Definition MinInt64 : Z := - 2 ^ 63.

Definition in_u16 (x : Z) : Prop := 0 ≤ x < 2 ^ 16.
Definition in_u32 (x : Z) : Prop := 0 ≤ x < 2 ^ 32.
Definition in_u64 (x : Z) : Prop := 0 ≤ x < 2 ^ 64.
Definition in_i64 (x : Z) : Prop := - 2 ^ 63 ≤ x < 2 ^ 63.

Lemma u32_small x : 0 ≤ x < 2 ^ 32 → u32 x = x.
Proof. apply Z.mod_small. Qed.
Lemma u64_small x : 0 ≤ x < 2 ^ 64 → u64 x = x.
Proof. apply Z.mod_small. Qed.
Lemma u32_range x : 0 ≤ u32 x < 2 ^ 32.
Proof. by apply Z.mod_pos_bound. Qed.
Lemma u64_range x : 0 ≤ u64 x < 2 ^ 64.
Proof. by apply Z.mod_pos_bound. Qed.
Lemma u32_add_l a b : u32 (u32 a + b) = u32 (a + b).
Proof. apply Zplus_mod_idemp_l. Qed.
Lemma u64_add_l a b : u64 (u64 a + b) = u64 (a + b).
Proof. apply Zplus_mod_idemp_l. Qed.
Lemma i64_small x : - 2 ^ 63 ≤ x < 2 ^ 63 → i64 x = x.
Proof. intros ?. unfold i64. rewrite Z.mod_small; lia. Qed.
Lemma i64_range x : - 2 ^ 63 ≤ i64 x < 2 ^ 63.
Proof. unfold i64. pose proof (Z.mod_pos_bound (x + 2 ^ 63) (2 ^ 64)). lia. Qed.

Create HintDb word.
Create Rewrite HintDb word.
#[export] Hint Rewrite u32_small u64_small i64_small using lia : word.
#[export] Hint Unfold in_u16 in_u32 in_u64 in_i64 MaxUint64 MaxUint32 MaxInt64
  MinInt64 : word.

(** [word] removes wrap-arounds that the context shows cannot happen, then
    calls [lia]. *)
Ltac word_simpl := autounfold with word in *; autorewrite with word in *.
Ltac word := autounfold with word in *; autorewrite with word; lia.

(** * Boolean reflection

    [bdestruct_all] turns boolean comparisons of the context and the goal into
    propositions. *)
Lemma negb_decide_true (P : Prop) `{Decision P} :
  negb (bool_decide P) = true ↔ ¬ P.
Proof. rewrite negb_true_iff. apply bool_decide_eq_false. Qed.

Ltac breflect :=
  repeat match goal with
  | H : (_ && _)%bool = true |- _ => apply andb_true_iff in H as [??]
  | H : (_ || _)%bool = false |- _ => apply orb_false_iff in H as [??]
  | H : (_ || _)%bool = true |- _ => apply orb_true_iff in H
  | H : (_ && _)%bool = false |- _ => apply andb_false_iff in H
  | H : negb _ = true |- _ => apply negb_true_iff in H
  | H : negb _ = false |- _ => apply negb_false_iff in H
  | H : (_ <? _) = true |- _ => apply Z.ltb_lt in H
  | H : (_ <? _) = false |- _ => apply Z.ltb_ge in H
  | H : (_ <=? _) = true |- _ => apply Z.leb_le in H
  | H : (_ <=? _) = false |- _ => apply Z.leb_gt in H
  | H : (_ =? _) = true |- _ => apply Z.eqb_eq in H
  | H : (_ =? _) = false |- _ => apply Z.eqb_neq in H
  | H : (_ >? _) = _ |- _ => rewrite Z.gtb_ltb in H
  | H : bool_decide _ = true |- _ => apply bool_decide_eq_true in H
  | H : bool_decide _ = false |- _ => apply bool_decide_eq_false in H
  end.

(** * Steps

    Runs of a component are the reflexive transitive closure [rtc] of its step
    relation; an invariant that holds initially and is kept by every step
    holds in every reachable state. *)
Lemma rtc_invariant {S} (step : relation S) (I : S → Prop) s s' :
  (∀ x y, I x → step x y → I y) → I s → rtc step s s' → I s'.
Proof. intros Hstep Hs. induction 1; eauto. Qed.

(** * Time

    A [time.Time] is the number of nanoseconds since the zero time, so the
    zero [time.Time] is [0]; a [time.Duration] is an int64 number of
    nanoseconds. *)
Abbreviation Time := Z (only parsing).
Abbreviation Duration := Z (only parsing).
Definition Nanosecond : Duration := 1.
Definition Second : Duration := 1000000000.
Definition Minute : Duration := 60 * Second.
Definition Hour : Duration := 60 * Minute.

(** [Time.Sub] saturates at the ends of the int64 range. *)
Definition time_sub (t u : Time) : Duration :=
  Z.max MinInt64 (Z.min MaxInt64 (t - u)).
Definition time_is_zero (t : Time) : bool := t =? 0.

(** * Lists *)
Lemma Forall_filter {A} (P : A → Prop) (Q : A → Prop) `{∀ x, Decision (Q x)} l :
  Forall P l → Forall P (filter Q l).
Proof. rewrite !Forall_forall. intros HP x ?%list_elem_of_filter. naive_solver. Qed.

Lemma NoDup_fmap_filter {A B} (f : A → B) (Q : A → Prop)
    `{∀ x, Decision (Q x)} l :
  NoDup (f <$> l) → NoDup (f <$> filter Q l).
Proof.
  induction l as [|x l IH]; [done|]. rewrite fmap_cons, NoDup_cons. intros [Hx Hl].
  rewrite filter_cons. case_decide; [|by apply IH].
  rewrite fmap_cons, NoDup_cons. split; [|by apply IH].
  intros Hin; apply Hx. apply list_elem_of_fmap in Hin as (y&->&Hy).
  apply list_elem_of_fmap. apply list_elem_of_filter in Hy. naive_solver.
Qed.

Lemma filter_all {A} (P : A → Prop) `{∀ x, Decision (P x)} (l : list A) :
  (∀ x, P x) → filter P l = l.
Proof.
  intros HP. induction l as [|x l IH]; [done|].
  rewrite filter_cons. case_decide as Hx; [by rewrite IH|by destruct Hx].
Qed.

Lemma Forall_sublist {A} (P : A → Prop) l k :
  k `sublist_of` l → Forall P l → Forall P k.
Proof. induction 1; inversion_clear 1; try constructor; auto. Qed.

Lemma fmap_sublist {A B} (f : A → B) l k :
  k `sublist_of` l → (f <$> k) `sublist_of` (f <$> l).
Proof. induction 1; cbn; by constructor. Qed.

Lemma last_cons_default {A} (x : A) l d : List.last (x :: l) d = List.last l x.
Proof.
  revert x d; induction l as [|y l IH]; intros x d; [done|].
  change (List.last (y :: l) d = List.last (y :: l) x). by rewrite !IH.
Qed.

(** Distinct elements are either in a finite set or outside it. *)
Lemma length_split_by_set `{Countable A} (X : gset A) (l : list A) :
  NoDup l → (length l ≤ size X + length (filter (λ x, x ∉ X) l))%nat.
Proof.
  intros Hl. rewrite <-(size_list_to_set (C := gset A) l Hl).
  rewrite <-(size_list_to_set (C := gset A) (filter (λ x, x ∉ X) l))
    by by apply NoDup_filter.
  transitivity (size (X ∪ list_to_set (filter (λ x, x ∉ X) l))).
  - apply subseteq_size. intros x Hx%elem_of_list_to_set.
    destruct (decide (x ∈ X)); [set_solver|].
    apply elem_of_union_r, elem_of_list_to_set, list_elem_of_filter. done.
  - rewrite size_union_alt. apply Nat.add_le_mono_l, subseteq_size. set_solver.
Qed.

(** A loop that collects the keys it has seen and refuses a second one. *)
Lemma for_each_keys {A E} (key : A → string)
    (f : gset string → A → result E (gset string)) (P : A → Prop) l s s' :
  (∀ s x s', f s x = Ok s' ↔ P x ∧ (key x ∉ s) ∧ s' = {[key x]} ∪ s) →
  for_each f s l = Ok s' ↔
  Forall P l ∧ NoDup (key <$> l) ∧ (∀ x, x ∈ l → key x ∉ s) ∧
  s' = list_to_set (key <$> l) ∪ s.
Proof.
  intros Hf. revert s; induction l as [|x l IH]; intros s; cbn.
  { rewrite NoDup_nil, Forall_nil, (left_id_L ∅ (∪)). split.
    - intros [= ->]. split_and!; try done. by intros x ?%elem_of_nil.
    - by intros (_ & _ & _ & ->). }
  destruct (f s x) as [s1|e] eqn:E1.
  - apply Hf in E1 as (HP & Hx & ->). rewrite IH, Forall_cons, NoDup_cons.
    rewrite list_elem_of_fmap. split.
    + intros (? & ? & Hl & ->). split_and!; try done.
      * intros (y & Hy & Hin). apply (Hl y Hin). set_solver.
      * intros y [->|Hin]%elem_of_cons; [done|]. specialize (Hl y Hin). set_solver.
      * set_solver.
    + intros ([??] & [Hni ?] & Hl & ->). split_and!; try done; [|set_solver].
      intros y Hin Hk. apply elem_of_union in Hk as [Hk%elem_of_singleton|Hk].
      * apply Hni. eauto.
      * eapply Hl; [by right|done].
  - split; [done|]. intros ([HP _]%Forall_cons & _ & Hl & _).
    assert (f s x = Ok ({[key x]} ∪ s)) as E2
      by (apply Hf; split_and!; [done|apply Hl; by left|done]).
    congruence.
Qed.

(** * Bytes *)
#[export] Instance byte_eq_dec : EqDecision byte := Byte.byte_eq_dec.
Definition len (s : string) : Z := Z.of_nat (String.length s).
Definition blen (s : list byte) : Z := Z.of_nat (length s).
Lemma blen_nonneg (s : list byte) : 0 ≤ blen s.
Proof. unfold blen. lia. Qed.
Lemma blen_app (s t : list byte) : blen (s ++ t) = blen s + blen t.
Proof. unfold blen. rewrite length_app. lia. Qed.

Definition byte_of_Z (z : Z) : byte :=
  default x00 (Byte.of_N (Z.to_N (z `mod` 256))).
Definition Z_of_byte (b : byte) : Z := Z.of_N (Byte.to_N b).

(** [binary.BigEndian]: [PutUint16], [PutUint32], [PutUint64] and back. *)
Fixpoint be_bytes (width : nat) (z : Z) : list byte :=
  match width with
  | O => []
  | S w => be_bytes w (Z.shiftr z 8) ++ [byte_of_Z z]
  end.
Definition be_val (bs : list byte) : Z :=
  foldl (λ acc b, acc * 256 + Z_of_byte b) 0 bs.

Lemma Z_of_byte_range b : 0 ≤ Z_of_byte b < 256.
Proof. unfold Z_of_byte. pose proof (Byte.to_N_bounded b). lia. Qed.

Lemma Z_of_byte_of_Z z : Z_of_byte (byte_of_Z z) = z `mod` 256.
Proof.
  unfold Z_of_byte, byte_of_Z.
  pose proof (Z.mod_pos_bound z 256 ltac:(done)) as Hb.
  destruct (Byte.of_N (Z.to_N (z `mod` 256))) as [b|] eqn:E; cbn.
  - apply Byte.to_of_N in E. rewrite E. lia.
  - apply Byte.of_N_None_iff in E. lia.
Qed.

Lemma byte_of_Z_of_byte b : byte_of_Z (Z_of_byte b) = b.
Proof.
  unfold byte_of_Z. pose proof (Z_of_byte_range b).
  rewrite Z.mod_small by done. unfold Z_of_byte. rewrite N2Z.id.
  by rewrite Byte.of_to_N.
Qed.

Lemma length_be_bytes w z : length (be_bytes w z) = w.
Proof.
  revert z; induction w as [|w IH]; intros z; cbn; [done|].
  rewrite length_app, IH. cbn. lia.
Qed.

Lemma be_val_bytes w z : be_val (be_bytes w z) = z `mod` 256 ^ Z.of_nat w.
Proof.
  revert z; induction w as [|w IH]; intros z; cbn [be_bytes].
  { change (256 ^ Z.of_nat 0) with 1. by rewrite Z.mod_1_r. }
  unfold be_val in *. rewrite foldl_app, IH. cbn [foldl].
  rewrite Z_of_byte_of_Z, Z.shiftr_div_pow2 by done. change (2 ^ 8) with 256.
  rewrite Nat2Z.inj_succ, Z.pow_succ_r by lia.
  rewrite (Z.rem_mul_r z 256) by lia. lia.
Qed.

Lemma be_bytes_inj w x y :
  0 ≤ x < 256 ^ Z.of_nat w → 0 ≤ y < 256 ^ Z.of_nat w →
  be_bytes w x = be_bytes w y → x = y.
Proof.
  intros Hx Hy E. apply (f_equal be_val) in E. rewrite !be_val_bytes in E.
  by rewrite !Z.mod_small in E.
Qed.

(** * Record update

    [s <| f := v |>] is the struct [s] after the assignment [s.f = v].  A record
    type opts in with a [Settable] instance, its eta expansion; the setter of a
    field is read off it. *)
Class Settable (R : Type) := eta_expand : R → R.
Class Setter {R T : Type} (field : R → T) := over : (T → T) → R → R.

Ltac solve_setter :=
  match goal with
  | |- @Setter ?R ?T ?field =>
    let inst := constr:(_ : Settable R) in
    let e := eval red in inst in
    let p := eval pattern field in e in
    match p with
    | ?f field =>
      let g := eval cbv beta in
        (λ (u : T → T) (s : R), f (λ s' : R, u (field s')) s) in
      exact g
    end
  end.
#[export] Hint Extern 1 (Setter _) => solve_setter : typeclass_instances.

Notation "s <| field := v |>" := (over (field := field) (λ _, v) s)
  (at level 1, left associativity, format "s  <| field  :=  v |>").
