(* ===== verification/Job.v ===== *)
(** Durable Job states and their transition rules (src/internal/job/state.go). *)
From S2P Require Import Prelude.

Definition State := string.

Definition StateDraft : State := "draft".
Definition StateAwaitingConfirmation : State := "awaiting_confirmation".
Definition StateQueued : State := "queued".
Definition StateRunning : State := "running".
Definition StateVerifying : State := "verifying".
Definition StatePaused : State := "paused".
Definition StateWaitingAuth : State := "waiting_auth".
Definition StateWaitingConflict : State := "waiting_conflict".
Definition StateRetryWait : State := "retry_wait".
Definition StateCompleted : State := "completed".
Definition StateCompletedWithSourceRetained : State :=
  "completed_with_source_retained".
Definition StateFailed : State := "failed".
Definition StateCanceled : State := "canceled".

Definition states : list State :=
  [StateDraft; StateAwaitingConfirmation; StateQueued; StateRunning;
   StateVerifying; StatePaused; StateWaitingAuth; StateWaitingConflict;
   StateRetryWait; StateCompleted; StateCompletedWithSourceRetained;
   StateFailed; StateCanceled].

(** [set] builds a Go map with empty-struct values. *)
Definition set (l : list State) : gset State := list_to_set l.

Definition transitions : gmap State (gset State) := list_to_map
  [(StateDraft, set [StateAwaitingConfirmation; StateQueued; StateCanceled]);
   (StateAwaitingConfirmation, set [StateQueued; StateCanceled]);
   (StateQueued, set [StateRunning; StatePaused; StateFailed; StateCanceled]);
   (StateRunning, set [StateVerifying; StatePaused; StateWaitingAuth;
      StateWaitingConflict; StateRetryWait; StateFailed; StateCanceled]);
   (StateVerifying, set [StateCompleted; StateCompletedWithSourceRetained;
      StatePaused; StateWaitingAuth; StateWaitingConflict; StateRetryWait;
      StateFailed; StateCanceled]);
   (StatePaused, set [StateQueued; StateCanceled]);
   (StateWaitingAuth, set [StateQueued; StateCanceled]);
   (StateWaitingConflict, set [StateQueued; StateCanceled]);
   (StateRetryWait, set [StateQueued; StateCanceled])].

Definition AllStates : list State := states.

(** A missing row of [transitions] reads as the nil map. *)
Definition CanTransition (from to : State) : bool :=
  bool_decide (to ∈ default ∅ (transitions !! from)).

Definition State_Valid (state : State) : bool := existsb (String.eqb state) states.

Definition State_Terminal (state : State) : bool :=
  String.eqb state StateCompleted
  || String.eqb state StateCompletedWithSourceRetained
  || String.eqb state StateFailed
  || String.eqb state StateCanceled.

Definition ConservativeRestartState (state : State) : State * bool :=
  if String.eqb state StateRunning || String.eqb state StateVerifying
  then (StatePaused, true) else (state, false).

(** * The transition system *)

Definition job_step (from to : State) : Prop := CanTransition from to = true.

(** All edges of a transition table, as a list. *)
Definition table_edges (m : gmap State (gset State)) : list (State * State) :=
  map_to_list m ≫= λ '(from, tos), (from,.) <$> elements tos.

Lemma table_edges_spec m from to :
  to ∈ default ∅ (m !! from) ↔ (from, to) ∈ table_edges m.
Proof.
  unfold table_edges. rewrite list_elem_of_bind. split.
  - destruct (m !! from) as [tos|] eqn:E; cbn; [|by intros ?%elem_of_empty].
    intros Hto. exists (from, tos). rewrite elem_of_map_to_list. split; [|done].
    apply list_elem_of_fmap. exists to. by rewrite elem_of_elements.
  - intros ([f tos] & Hin & E). apply elem_of_map_to_list in E.
    apply list_elem_of_fmap in Hin as (t & [= -> ->] & Ht).
    rewrite E. cbn. by apply elem_of_elements.
Qed.

Definition edges : list (State * State) := table_edges transitions.

Lemma CanTransition_edges from to :
  CanTransition from to = true ↔ (from, to) ∈ edges.
Proof.
  unfold CanTransition, edges. by rewrite bool_decide_eq_true, table_edges_spec.
Qed.

(** A boolean property of all edges is checked by evaluation. *)
Lemma edges_forall (p : State → State → bool) :
  forallb (λ e, p e.1 e.2) edges = true →
  ∀ from to, CanTransition from to = true → p from to = true.
Proof.
  rewrite forallb_forall. intros Hp from to Hft%CanTransition_edges.
  exact (Hp (from, to) (proj1 (list_elem_of_In _ _) Hft)).
Qed.

(** [by_edges H p] adds to the hypothesis [H] that an edge exists the fact that
    [p] holds of it. *)
Ltac by_edges H p :=
  let C := fresh "C" in let E := fresh "E" in
  assert (forallb (λ e, p e.1 e.2) edges = true) as C
    by (vm_compute; reflexivity);
  pose proof (edges_forall p C _ _ H) as E; clear C; cbn beta in E.

Lemma transition_valid from to :
  CanTransition from to = true →
  State_Valid from = true ∧ State_Valid to = true.
Proof.
  intros H. by_edges H (λ f t, State_Valid f && State_Valid t)%bool.
  by apply andb_true_iff in E.
Qed.

Lemma transition_not_terminal from to :
  CanTransition from to = true → State_Terminal from = false.
Proof.
  intros H. by_edges H (λ f _ : State, negb (State_Terminal f)).
  by apply negb_true_iff.
Qed.

(** The only predecessor of the completed states is [StateVerifying], the only
    one of that is [StateRunning], and the only one of that is [StateQueued]. *)
Definition only_predecessor (to from : State) : Prop :=
  ∀ s, CanTransition s to = true → s = from.

Lemma only_predecessor_check to from :
  forallb (λ e, implb (String.eqb e.2 to) (String.eqb e.1 from)) edges = true →
  only_predecessor to from.
Proof.
  intros Hp s H.
  pose proof (edges_forall
    (λ f t, implb (String.eqb t to) (String.eqb f from)) Hp _ _ H) as E.
  cbn beta in E. rewrite String.eqb_refl in E. by apply String.eqb_eq.
Qed.

Ltac by_predecessor := apply only_predecessor_check; vm_compute; reflexivity.

Lemma completed_predecessor : only_predecessor StateCompleted StateVerifying.
Proof. by_predecessor. Qed.
Lemma retained_predecessor :
  only_predecessor StateCompletedWithSourceRetained StateVerifying.
Proof. by_predecessor. Qed.
Lemma verifying_predecessor : only_predecessor StateVerifying StateRunning.
Proof. by_predecessor. Qed.
Lemma running_predecessor : only_predecessor StateRunning StateQueued.
Proof. by_predecessor. Qed.

Lemma State_Valid_states state : State_Valid state = true ↔ state ∈ states.
Proof.
  unfold State_Valid. rewrite existsb_exists, list_elem_of_In.
  split; [intros (x & Hx & <-%String.eqb_eq); done|].
  intros Hx; exists state. by rewrite String.eqb_refl.
Qed.

Lemma states_forall (P : State → Prop) `{∀ s, Decision (P s)} :
  bool_decide (Forall P states) = true →
  ∀ state, State_Valid state = true → P state.
Proof.
  intros HP%bool_decide_eq_true state Hs%State_Valid_states.
  rewrite Forall_forall in HP. by apply HP.
Qed.

(** A path is the sequence of states a Job goes through. *)
Fixpoint job_path (from : State) (path : list State) : Prop :=
  match path with
  | [] => True
  | to :: path' => CanTransition from to = true ∧ job_path to path'
  end.

Lemma job_path_rtc from path :
  job_path from path → rtc job_step from (List.last path from).
Proof.
  revert from; induction path as [|to path IH]; intros from; [by constructor|].
  intros [Hft Hp]. eapply rtc_l; [exact Hft|].
  rewrite last_cons_default. by apply IH.
Qed.

(** Entering a state with a unique predecessor goes through it. *)
Lemma through_predecessor to pred start path :
  only_predecessor to pred → job_path start path → to ∈ path →
  pred ∈ start :: path.
Proof.
  intros Hpred. revert start.
  induction path as [|s path IH]; intros start; [by intros _ ?%elem_of_nil|].
  intros [Hs Hp] [->|Hin]%elem_of_cons.
  - rewrite (Hpred _ Hs). left.
  - right. by apply IH.
Qed.

(** * Properties *)

(** A Job reaches a completed state only through the whole pipeline: on
    every path of legal transitions that ends up completed (with or without a
    retained source), and that did not start in or after the running phase, the
    Job was queued, then ran, then was verified. *)
Theorem completed_only_through_verifying start path final :
  start ∉ [StateRunning; StateVerifying; StateCompleted;
           StateCompletedWithSourceRetained] →
  final ∈ [StateCompleted; StateCompletedWithSourceRetained] →
  job_path start path → final ∈ path →
  StateQueued ∈ start :: path ∧ StateRunning ∈ path ∧ StateVerifying ∈ path.
Proof.
  intros Hstart Hfinal Hp Hin.
  assert (StateVerifying ∈ path) as Hv.
  { assert (StateVerifying ∈ start :: path) as [<-|?]%elem_of_cons; [| |done].
    - apply (through_predecessor final); [|done..].
      rewrite !elem_of_cons in Hfinal.
      destruct Hfinal as [->|[->|?%elem_of_nil]];
        [apply completed_predecessor|apply retained_predecessor|done].
    - by destruct Hstart; do 1 right; left. }
  assert (StateRunning ∈ path) as Hr.
  { assert (StateRunning ∈ start :: path) as [<-|?]%elem_of_cons; [| |done].
    - by apply (through_predecessor StateVerifying _ _ _ verifying_predecessor).
    - by destruct Hstart; left. }
  split; [|done].
  by apply (through_predecessor StateRunning _ _ _ running_predecessor).
Qed.

Lemma completed_only_through_verifying_witness :
  StateQueued ∈ [StateDraft; StateQueued; StateRunning; StateVerifying;
                 StateCompleted] ∧
  StateRunning ∈ [StateQueued; StateRunning; StateVerifying; StateCompleted] ∧
  StateVerifying ∈ [StateQueued; StateRunning; StateVerifying; StateCompleted].
Proof.
  apply (completed_only_through_verifying StateDraft
    [StateQueued; StateRunning; StateVerifying; StateCompleted] StateCompleted).
  - apply (bool_decide_unpack _). vm_compute. exact I.
  - left.
  - repeat split.
  - apply (bool_decide_unpack _). vm_compute. exact I.
Defined.

(** The valid states split into the terminal ones, from which no transition
    leaves, and the others, from each of which the Job can be canceled in one
    step: a terminal state is reachable from every valid state and is never
    left. *)
Theorem terminal_iff_final state :
  State_Valid state = true →
  if State_Terminal state
  then ∀ to, CanTransition state to = false
  else CanTransition state StateCanceled = true.
Proof.
  intros Hv. destruct (State_Terminal state) eqn:Ht.
  - intros to. destruct (CanTransition state to) eqn:E; [|done].
    apply transition_not_terminal in E. congruence.
  - revert state Hv Ht. apply (states_forall
      (λ s, State_Terminal s = false → CanTransition s StateCanceled = true)).
    vm_compute. reflexivity.
Qed.

Lemma terminal_iff_final_witness :
  CanTransition StatePaused StateCanceled = true.
Proof. apply (terminal_iff_final StatePaused). vm_compute. reflexivity. Defined.

(** Restart recovery is conservative.  It leaves no Job in a phase with an
    in-flight external effect, it moves a Job only along a legal transition (and
    then reports it), it is idempotent, and a Job it moved can run again only
    after having been queued again. *)
Theorem restart_conservative state state' changed :
  ConservativeRestartState state = (state', changed) →
  state' ≠ StateRunning ∧ state' ≠ StateVerifying ∧
  (changed = true → CanTransition state state' = true) ∧
  (changed = false → state' = state) ∧
  ConservativeRestartState state' = (state', false) ∧
  (changed = true → ∀ path, job_path state' path → StateRunning ∈ path →
   StateQueued ∈ path).
Proof.
  unfold ConservativeRestartState. intros H.
  destruct (_ || _)%bool eqn:E; injection H as <- <-.
  - do 2 (split; [done|]). split.
    { intros _. apply orb_true_iff in E as [->%String.eqb_eq| ->%String.eqb_eq];
        vm_compute; reflexivity. }
    do 2 (split; [done|]). intros _ path Hp Hr.
    assert (StateQueued ∈ StatePaused :: path) as [?|?]%elem_of_cons; [|done..].
    by apply (through_predecessor StateRunning _ _ _ running_predecessor).
  - apply orb_false_iff in E as E'.
    destruct E' as [?%String.eqb_neq ?%String.eqb_neq].
    by rewrite E.
Qed.

Lemma restart_conservative_witness :
  CanTransition StateRunning StatePaused = true.
Proof.
  eapply (restart_conservative StateRunning StatePaused true); reflexivity.
Defined.
