(* ===== verification/ResourceLedger.v ===== *)
(** Resource admission (src/internal/transfer/resource_ledger.go and the
    ceilings of src/internal/transfer/scheduler.go).

    The ledger counts what admitted work holds, in total, per Job and per
    endpoint; a lease is admitted only when every ceiling still holds after it,
    and gives back exactly what it took when it is released.  All methods run
    under the ledger's mutex, so each critical section is one function here;
    the wake channel, which is closed and replaced, is a generation number. *)
From S2P Require Import Prelude.

Abbreviation EndpointID := string (only parsing).
Abbreviation JobID := string (only parsing).

(** * Ceilings *)
Record ResourceLimits := mkResourceLimits {
  lim_ActiveJobs : Z;             (* uint32 *)
  lim_ActiveJobsPerEndpoint : Z;  (* uint32 *)
  lim_QueuedJobs : Z;             (* uint32 *)
  lim_Endpoints : Z;              (* uint32 *)
  lim_Connections : Z;            (* uint32 *)
  lim_ConnectionsPerEndpoint : Z; (* uint32 *)
  lim_SSHProcesses : Z;           (* uint32 *)
  lim_HelperProcesses : Z;        (* uint32 *)
  lim_FileDescriptors : Z;        (* uint32 *)
  lim_Goroutines : Z;             (* uint32 *)
  lim_MemoryBytes : Z;            (* uint64 *)
  lim_EventBytes : Z;             (* uint64 *)
  lim_LogBytes : Z;               (* uint64 *)
}.

#[export] Instance ResourceLimits_eq_dec : EqDecision ResourceLimits.
Proof. solve_decision. Defined.

(** [ResourceLimits{}] *)
Definition ResourceLimits_zero : ResourceLimits :=
  mkResourceLimits 0 0 0 0 0 0 0 0 0 0 0 0 0.

Definition HardResourceCeilings : ResourceLimits := {|
  lim_ActiveJobs := 16;
  lim_ActiveJobsPerEndpoint := 8;
  lim_QueuedJobs := 512;
  lim_Endpoints := 64;
  lim_Connections := 32;
  lim_ConnectionsPerEndpoint := 4;
  lim_SSHProcesses := 32;
  lim_HelperProcesses := 4;
  lim_FileDescriptors := 512;
  lim_Goroutines := 256;
  lim_MemoryBytes := Z.shiftl 64 20;
  lim_EventBytes := Z.shiftl 32 10;
  lim_LogBytes := Z.shiftl 32 10;
|}.

(** The errors of this file: [ErrResourceLimitExpansion], the wrappings of
    [ErrResourceExhausted] and the request errors.  Where the Go message names
    one endpoint of a map whose iteration order is unspecified, the model does
    not say which. *)
Inductive LedgerError :=
| ErrResourceLimitExpansion
| ErrEndpointCeiling (limit : Z)
| ErrUsageCeiling (name : string) (limit : Z)
| ErrEndpointJobCeiling (endpointID : EndpointID) (limit : Z)
| ErrEndpointConnectionCeiling (endpointID : EndpointID) (limit : Z)
| ErrRequestJobIDRequired
| ErrRequestEndpointIDEmpty
| ErrRequestCombinesUsage
| ErrRequestUnknownEndpoint.

(** [errors.Is(err, ErrResourceExhausted)] *)
Definition IsResourceExhausted (e : LedgerError) : bool :=
  match e with
  | ErrEndpointCeiling _ | ErrUsageCeiling _ _
  | ErrEndpointJobCeiling _ _ | ErrEndpointConnectionCeiling _ _ => true
  | _ => false
  end.

Definition TightenResourceLimits (limits : ResourceLimits) :
    result LedgerError ResourceLimits :=
  let hard := HardResourceCeilings in
  if (lim_ActiveJobs limits >? lim_ActiveJobs hard)
  || (lim_ActiveJobsPerEndpoint limits >? lim_ActiveJobsPerEndpoint hard)
  || (lim_QueuedJobs limits >? lim_QueuedJobs hard)
  || (lim_Endpoints limits >? lim_Endpoints hard)
  || (lim_Connections limits >? lim_Connections hard)
  || (lim_ConnectionsPerEndpoint limits >? lim_ConnectionsPerEndpoint hard)
  || (lim_SSHProcesses limits >? lim_SSHProcesses hard)
  || (lim_HelperProcesses limits >? lim_HelperProcesses hard)
  || (lim_FileDescriptors limits >? lim_FileDescriptors hard)
  || (lim_Goroutines limits >? lim_Goroutines hard)
  || (lim_MemoryBytes limits >? lim_MemoryBytes hard)
  || (lim_EventBytes limits >? lim_EventBytes hard)
  || (lim_LogBytes limits >? lim_LogBytes hard)
  then Err ErrResourceLimitExpansion
  else Ok limits.

(** * Usage *)
Record ResourceUsage := mkResourceUsage {
  ActiveJobs : Z;      (* uint32 *)
  QueuedJobs : Z;      (* uint32 *)
  Connections : Z;     (* uint32 *)
  SSHProcesses : Z;    (* uint32 *)
  HelperProcesses : Z; (* uint32 *)
  FileDescriptors : Z; (* uint32 *)
  Goroutines : Z;      (* uint32 *)
  MemoryBytes : Z;     (* uint64 *)
  EventBytes : Z;      (* uint64 *)
  LogBytes : Z;        (* uint64 *)
}.

#[export] Instance ResourceUsage_eq_dec : EqDecision ResourceUsage.
Proof. solve_decision. Defined.

(** [ResourceUsage{}] *)
Definition usage0 : ResourceUsage := mkResourceUsage 0 0 0 0 0 0 0 0 0 0.

(** [m[k]] of a Go map of usages: the zero value for a missing key. *)
Definition usage_at (m : gmap string ResourceUsage) (k : string) :
    ResourceUsage := default usage0 (m !! k).

Record ResourceRequest := mkResourceRequest {
  req_JobID : JobID;
  req_EndpointIDs : list EndpointID;
  req_Usage : ResourceUsage;
  req_PerEndpointUsage : ResourceUsage;
  (* [None] is the nil map *)
  req_EndpointUsage : option (gmap EndpointID ResourceUsage);
}.

Record ResourceLedger := mkResourceLedger {
  led_limits : ResourceLimits;
  led_total : ResourceUsage;
  led_perEndpoint : gmap EndpointID ResourceUsage;
  led_perJob : gmap JobID ResourceUsage;
  led_waiters : Z;  (* int *)
  led_wake : nat;   (* generation of the wake channel *)
}.

(** [released] is whether the lease's [sync.Once] has fired. *)
Record ResourceLease := mkResourceLease {
  lease_request : ResourceRequest;
  lease_released : bool;
}.

Record ResourceSnapshot := mkResourceSnapshot {
  snap_Limits : ResourceLimits;
  snap_Total : ResourceUsage;
  snap_PerEndpoint : gmap EndpointID ResourceUsage;
  snap_PerJob : gmap JobID ResourceUsage;
  snap_Waiters : Z;
}.

Definition NewResourceLedger (limits : ResourceLimits) :
    result LedgerError ResourceLedger :=
  let limits := if decide (limits = ResourceLimits_zero)
                then HardResourceCeilings else limits in
  validated ← TightenResourceLimits limits;
  Ok (mkResourceLedger validated usage0 ∅ ∅ 0 0).

Definition exceeds32 (current request limit : Z) : bool :=
  (request >? limit) || (current >? u32 (limit - request)).

Definition exceeds64 (current request limit : Z) : bool :=
  (request >? limit) || (current >? u64 (limit - request)).

Definition addUsage (left right : ResourceUsage) : ResourceUsage := {|
  ActiveJobs := u32 (ActiveJobs left + ActiveJobs right);
  QueuedJobs := u32 (QueuedJobs left + QueuedJobs right);
  Connections := u32 (Connections left + Connections right);
  SSHProcesses := u32 (SSHProcesses left + SSHProcesses right);
  HelperProcesses := u32 (HelperProcesses left + HelperProcesses right);
  FileDescriptors := u32 (FileDescriptors left + FileDescriptors right);
  Goroutines := u32 (Goroutines left + Goroutines right);
  MemoryBytes := u64 (MemoryBytes left + MemoryBytes right);
  EventBytes := u64 (EventBytes left + EventBytes right);
  LogBytes := u64 (LogBytes left + LogBytes right);
|}.

Definition subtractUsage (left right : ResourceUsage) : ResourceUsage := {|
  ActiveJobs := u32 (ActiveJobs left - ActiveJobs right);
  QueuedJobs := u32 (QueuedJobs left - QueuedJobs right);
  Connections := u32 (Connections left - Connections right);
  SSHProcesses := u32 (SSHProcesses left - SSHProcesses right);
  HelperProcesses := u32 (HelperProcesses left - HelperProcesses right);
  FileDescriptors := u32 (FileDescriptors left - FileDescriptors right);
  Goroutines := u32 (Goroutines left - Goroutines right);
  MemoryBytes := u64 (MemoryBytes left - MemoryBytes right);
  EventBytes := u64 (EventBytes left - EventBytes right);
  LogBytes := u64 (LogBytes left - LogBytes right);
|}.

(** The two tables of checks, then the loops over them. *)
Definition checks32 (current requested : ResourceUsage)
    (limits : ResourceLimits) : list (string * Z * Z * Z) :=
  [("active Jobs", ActiveJobs current, ActiveJobs requested,
      lim_ActiveJobs limits);
   ("queued Jobs", QueuedJobs current, QueuedJobs requested,
      lim_QueuedJobs limits);
   ("connections", Connections current, Connections requested,
      lim_Connections limits);
   ("SSH processes", SSHProcesses current, SSHProcesses requested,
      lim_SSHProcesses limits);
   ("Helper processes", HelperProcesses current, HelperProcesses requested,
      lim_HelperProcesses limits);
   ("file descriptors", FileDescriptors current, FileDescriptors requested,
      lim_FileDescriptors limits);
   ("goroutines", Goroutines current, Goroutines requested,
      lim_Goroutines limits)].

Definition checks64 (current requested : ResourceUsage)
    (limits : ResourceLimits) : list (string * Z * Z * Z) :=
  [("memory bytes", MemoryBytes current, MemoryBytes requested,
      lim_MemoryBytes limits);
   ("event bytes", EventBytes current, EventBytes requested,
      lim_EventBytes limits);
   ("log bytes", LogBytes current, LogBytes requested,
      lim_LogBytes limits)].

Definition run_checks (exceeds : Z → Z → Z → bool)
    (checks : list (string * Z * Z * Z)) : result LedgerError () :=
  each (λ '(name, current, request, limit),
    check (negb (exceeds current request limit)) (ErrUsageCeiling name limit))
    checks.

Definition usageFits (current requested : ResourceUsage)
    (limits : ResourceLimits) : result LedgerError () :=
  _ ← run_checks exceeds32 (checks32 current requested limits);
  run_checks exceeds64 (checks64 current requested limits).

Definition endpointUsage (request : ResourceRequest)
    (endpointID : EndpointID) : ResourceUsage :=
  match req_EndpointUsage request with
  | Some m => usage_at m endpointID
  | None =>
    if decide (req_PerEndpointUsage request = usage0)
    then req_Usage request else req_PerEndpointUsage request
  end.

Definition newEndpointCountLocked (ledger : ResourceLedger)
    (endpointIDs : list EndpointID) : Z :=
  foldl (λ count endpointID,
    match led_perEndpoint ledger !! endpointID with
    | None => u32 (count + 1)
    | Some _ => count
    end) 0 endpointIDs.

(** * Requests *)

(** The deduplicating loop of [normalizeResourceRequest]: the accumulator is
    the [seen] set and the [endpoints] collected so far. *)
Definition normalizeEndpoints (ids : list EndpointID) :
    result LedgerError (gset EndpointID * list EndpointID) :=
  for_each (λ '(seen, endpoints) endpointID,
    if String.eqb endpointID "" then Err ErrRequestEndpointIDEmpty
    else if decide (endpointID ∈ seen) then Ok (seen, endpoints)
    else Ok ({[endpointID]} ∪ seen, endpoints ++ [endpointID]))
    ((∅ : gset EndpointID), []) ids.

Definition normalizeResourceRequest (request : ResourceRequest) :
    result LedgerError ResourceRequest :=
  _ ← check (negb (String.eqb (req_JobID request) "")) ErrRequestJobIDRequired;
  '(seen, endpoints) ← normalizeEndpoints (req_EndpointIDs request);
  let usages := default ∅ (req_EndpointUsage request) in
  _ ← check (bool_decide (usages = ∅) ||
             bool_decide (req_PerEndpointUsage request = usage0))
            ErrRequestCombinesUsage;
  if decide (usages = ∅) then
    Ok (mkResourceRequest (req_JobID request) endpoints (req_Usage request)
      (if bool_decide (endpoints ≠ []) &&
          bool_decide (req_PerEndpointUsage request = usage0)
       then req_Usage request else req_PerEndpointUsage request)
      (req_EndpointUsage request))
  else
    _ ← check (bool_decide (dom usages ⊆ seen)) ErrRequestUnknownEndpoint;
    Ok (mkResourceRequest (req_JobID request) endpoints (req_Usage request)
      (req_PerEndpointUsage request) (Some usages)).

(** * Admission

    The bodies of the two loops over the request's endpoints. *)
Definition checkEndpointEver (limits : ResourceLimits)
    (request : ResourceRequest) (endpointID : EndpointID) :
    result LedgerError () :=
  let perEndpoint := endpointUsage request endpointID in
  _ ← check (negb (ActiveJobs perEndpoint >? lim_ActiveJobsPerEndpoint limits))
    (ErrEndpointJobCeiling endpointID (lim_ActiveJobsPerEndpoint limits));
  check (negb (Connections perEndpoint >? lim_ConnectionsPerEndpoint limits))
    (ErrEndpointConnectionCeiling endpointID
       (lim_ConnectionsPerEndpoint limits)).

Definition checkEndpointNow (ledger : ResourceLedger)
    (request : ResourceRequest) (endpointID : EndpointID) :
    result LedgerError () :=
  let limits := led_limits ledger in
  let perEndpoint := endpointUsage request endpointID in
  let current := usage_at (led_perEndpoint ledger) endpointID in
  _ ← check (negb (exceeds32 (ActiveJobs current) (ActiveJobs perEndpoint)
                     (lim_ActiveJobsPerEndpoint limits)))
    (ErrEndpointJobCeiling endpointID (lim_ActiveJobsPerEndpoint limits));
  check (negb (exceeds32 (Connections current) (Connections perEndpoint)
                 (lim_ConnectionsPerEndpoint limits)))
    (ErrEndpointConnectionCeiling endpointID
       (lim_ConnectionsPerEndpoint limits)).

Definition canEverAcquireLocked (ledger : ResourceLedger)
    (request : ResourceRequest) : result LedgerError () :=
  let limits := led_limits ledger in
  _ ← check (negb (u32 (Z.of_nat (length (req_EndpointIDs request)))
                     >? lim_Endpoints limits))
            (ErrEndpointCeiling (lim_Endpoints limits));
  _ ← usageFits usage0 (req_Usage request) limits;
  each (checkEndpointEver limits request) (req_EndpointIDs request).

Definition canAcquireLocked (ledger : ResourceLedger)
    (request : ResourceRequest) : result LedgerError () :=
  let limits := led_limits ledger in
  _ ← check (negb (u32 (u32 (Z.of_nat (size (led_perEndpoint ledger))) +
                        newEndpointCountLocked ledger (req_EndpointIDs request))
                     >? lim_Endpoints limits))
            (ErrEndpointCeiling (lim_Endpoints limits));
  _ ← usageFits (led_total ledger) (req_Usage request) limits;
  each (checkEndpointNow ledger request) (req_EndpointIDs request).

Definition acquireLocked (ledger : ResourceLedger)
    (request : ResourceRequest) : ResourceLedger :=
  mkResourceLedger (led_limits ledger)
    (addUsage (led_total ledger) (req_Usage request))
    (foldl (λ perEndpoint endpointID,
       <[endpointID := addUsage (usage_at perEndpoint endpointID)
                         (endpointUsage request endpointID)]> perEndpoint)
       (led_perEndpoint ledger) (req_EndpointIDs request))
    (<[req_JobID request := addUsage
         (usage_at (led_perJob ledger) (req_JobID request))
         (req_Usage request)]> (led_perJob ledger))
    (led_waiters ledger) (led_wake ledger).

(** [m[k] = v], or [delete(m, k)] when [v] is the zero usage. *)
Definition store_or_delete (m : gmap string ResourceUsage) (k : string)
    (v : ResourceUsage) : gmap string ResourceUsage :=
  if decide (v = usage0) then delete k m else <[k := v]> m.

Definition ledger_release (ledger : ResourceLedger)
    (request : ResourceRequest) : ResourceLedger :=
  mkResourceLedger (led_limits ledger)
    (subtractUsage (led_total ledger) (req_Usage request))
    (foldl (λ perEndpoint endpointID,
       store_or_delete perEndpoint endpointID
         (subtractUsage (usage_at perEndpoint endpointID)
            (endpointUsage request endpointID)))
       (led_perEndpoint ledger) (req_EndpointIDs request))
    (store_or_delete (led_perJob ledger) (req_JobID request)
       (subtractUsage (usage_at (led_perJob ledger) (req_JobID request))
          (req_Usage request)))
    (led_waiters ledger) (S (led_wake ledger)).

(** * Operations *)
Definition TryAcquire (ledger : ResourceLedger) (request : ResourceRequest) :
    result LedgerError (ResourceLedger * ResourceLease) :=
  request ← normalizeResourceRequest request;
  _ ← canAcquireLocked ledger request;
  Ok (acquireLocked ledger request, mkResourceLease request false).

Definition set_waiters (ledger : ResourceLedger) (waiters : Z) :
    ResourceLedger :=
  mkResourceLedger (led_limits ledger) (led_total ledger)
    (led_perEndpoint ledger) (led_perJob ledger) waiters (led_wake ledger).

(** [Acquire] up to its loop: the caller becomes a waiter for the normalized
    request. *)
Definition Acquire_enter (ledger : ResourceLedger) (request : ResourceRequest) :
    result LedgerError (ResourceLedger * ResourceRequest) :=
  request ← normalizeResourceRequest request;
  _ ← canEverAcquireLocked ledger request;
  Ok (set_waiters ledger (led_waiters ledger + 1), request).

(** One iteration of [Acquire]'s loop with a live context: the waiter takes the
    lease, or sleeps ([None]) until the wake channel it saw is closed. *)
Definition Acquire_poll (ledger : ResourceLedger) (request : ResourceRequest) :
    ResourceLedger * option ResourceLease :=
  if is_ok (canAcquireLocked ledger request) then
    let ledger := acquireLocked ledger request in
    (set_waiters ledger (led_waiters ledger - 1),
     Some (mkResourceLease request false))
  else (ledger, None).

(** The context of a waiter ends: it leaves without a lease. *)
Definition Acquire_cancel (ledger : ResourceLedger) : ResourceLedger :=
  set_waiters ledger (led_waiters ledger - 1).

Definition Lease_Release (ledger : ResourceLedger) (lease : ResourceLease) :
    ResourceLedger * ResourceLease :=
  if lease_released lease then (ledger, lease)
  else (ledger_release ledger (lease_request lease),
        mkResourceLease (lease_request lease) true).

Definition Ledger_Snapshot (ledger : ResourceLedger) : ResourceSnapshot :=
  mkResourceSnapshot (led_limits ledger) (led_total ledger)
    (led_perEndpoint ledger) (led_perJob ledger) (led_waiters ledger).

(** * Usage arithmetic

    [usage_plus] is exact; [usage_wrap] reduces each counter to its width. *)
Definition usage_plus (a b : ResourceUsage) : ResourceUsage :=
  mkResourceUsage (ActiveJobs a + ActiveJobs b) (QueuedJobs a + QueuedJobs b)
    (Connections a + Connections b) (SSHProcesses a + SSHProcesses b)
    (HelperProcesses a + HelperProcesses b)
    (FileDescriptors a + FileDescriptors b) (Goroutines a + Goroutines b)
    (MemoryBytes a + MemoryBytes b) (EventBytes a + EventBytes b)
    (LogBytes a + LogBytes b).

Definition usage_wrap (a : ResourceUsage) : ResourceUsage :=
  mkResourceUsage (u32 (ActiveJobs a)) (u32 (QueuedJobs a))
    (u32 (Connections a)) (u32 (SSHProcesses a)) (u32 (HelperProcesses a))
    (u32 (FileDescriptors a)) (u32 (Goroutines a)) (u64 (MemoryBytes a))
    (u64 (EventBytes a)) (u64 (LogBytes a)).

Definition usage_nonneg (a : ResourceUsage) : Prop :=
  0 ≤ ActiveJobs a ∧ 0 ≤ QueuedJobs a ∧ 0 ≤ Connections a ∧
  0 ≤ SSHProcesses a ∧ 0 ≤ HelperProcesses a ∧ 0 ≤ FileDescriptors a ∧
  0 ≤ Goroutines a ∧ 0 ≤ MemoryBytes a ∧ 0 ≤ EventBytes a ∧ 0 ≤ LogBytes a.

Definition usage_le (a b : ResourceUsage) : Prop :=
  ActiveJobs a ≤ ActiveJobs b ∧ QueuedJobs a ≤ QueuedJobs b ∧
  Connections a ≤ Connections b ∧ SSHProcesses a ≤ SSHProcesses b ∧
  HelperProcesses a ≤ HelperProcesses b ∧
  FileDescriptors a ≤ FileDescriptors b ∧ Goroutines a ≤ Goroutines b ∧
  MemoryBytes a ≤ MemoryBytes b ∧ EventBytes a ≤ EventBytes b ∧
  LogBytes a ≤ LogBytes b.

(** Every counter of [a] is at most the ceiling the total is checked against. *)
Definition usage_within (a : ResourceUsage) (l : ResourceLimits) : Prop :=
  ActiveJobs a ≤ lim_ActiveJobs l ∧ QueuedJobs a ≤ lim_QueuedJobs l ∧
  Connections a ≤ lim_Connections l ∧ SSHProcesses a ≤ lim_SSHProcesses l ∧
  HelperProcesses a ≤ lim_HelperProcesses l ∧
  FileDescriptors a ≤ lim_FileDescriptors l ∧ Goroutines a ≤ lim_Goroutines l ∧
  MemoryBytes a ≤ lim_MemoryBytes l ∧ EventBytes a ≤ lim_EventBytes l ∧
  LogBytes a ≤ lim_LogBytes l.

(** The limits are uint32 and uint64 values at most the hard ceilings. *)
Definition limits_ok (l : ResourceLimits) : Prop :=
  0 ≤ lim_ActiveJobs l ≤ 16 ∧ 0 ≤ lim_ActiveJobsPerEndpoint l ≤ 8 ∧
  0 ≤ lim_QueuedJobs l ≤ 512 ∧ 0 ≤ lim_Endpoints l ≤ 64 ∧
  0 ≤ lim_Connections l ≤ 32 ∧ 0 ≤ lim_ConnectionsPerEndpoint l ≤ 4 ∧
  0 ≤ lim_SSHProcesses l ≤ 32 ∧ 0 ≤ lim_HelperProcesses l ≤ 4 ∧
  0 ≤ lim_FileDescriptors l ≤ 512 ∧ 0 ≤ lim_Goroutines l ≤ 256 ∧
  0 ≤ lim_MemoryBytes l ≤ 2 ^ 26 ∧ 0 ≤ lim_EventBytes l ≤ 2 ^ 15 ∧
  0 ≤ lim_LogBytes l ≤ 2 ^ 15.

Definition limits_nonneg (l : ResourceLimits) : Prop :=
  0 ≤ lim_ActiveJobs l ∧ 0 ≤ lim_ActiveJobsPerEndpoint l ∧
  0 ≤ lim_QueuedJobs l ∧ 0 ≤ lim_Endpoints l ∧ 0 ≤ lim_Connections l ∧
  0 ≤ lim_ConnectionsPerEndpoint l ∧ 0 ≤ lim_SSHProcesses l ∧
  0 ≤ lim_HelperProcesses l ∧ 0 ≤ lim_FileDescriptors l ∧
  0 ≤ lim_Goroutines l ∧ 0 ≤ lim_MemoryBytes l ∧ 0 ≤ lim_EventBytes l ∧
  0 ≤ lim_LogBytes l.


(** [usage_lia]: linear reasoning on every counter. *)
Ltac usage_cbn := cbn [ActiveJobs QueuedJobs Connections SSHProcesses
  HelperProcesses FileDescriptors Goroutines MemoryBytes EventBytes LogBytes] in *.
Ltac usage_lia :=
  unfold usage_nonneg, usage_within, usage_le, limits_ok, usage_plus, usage0 in *;
  usage_cbn; lia.

Lemma u32_sub_l a b : u32 (u32 (a + b) - b) = u32 a.
Proof. unfold u32. rewrite Zminus_mod_idemp_l. f_equal; lia. Qed.
Lemma u64_sub_l a b : u64 (u64 (a + b) - b) = u64 a.
Proof. unfold u64. rewrite Zminus_mod_idemp_l. f_equal; lia. Qed.

Lemma addUsage_wrap a b : addUsage (usage_wrap a) b = usage_wrap (usage_plus a b).
Proof. unfold addUsage, usage_wrap; cbn. by rewrite !u32_add_l, !u64_add_l. Qed.

Lemma subtractUsage_wrap a b :
  subtractUsage (usage_wrap (usage_plus a b)) b = usage_wrap a.
Proof.
  unfold subtractUsage, usage_wrap; cbn. by rewrite !u32_sub_l, !u64_sub_l.
Qed.

Lemma usage_le_refl a : usage_le a a.
Proof. usage_lia. Qed.

Lemma usage_plus_comm a b : usage_plus a b = usage_plus b a.
Proof. unfold usage_plus. f_equal; lia. Qed.
Lemma usage_plus_assoc a b c :
  usage_plus a (usage_plus b c) = usage_plus (usage_plus a b) c.
Proof. unfold usage_plus; cbn. f_equal; lia. Qed.
Lemma usage_plus_0_l a : usage_plus usage0 a = a.
Proof. by destruct a. Qed.

Lemma usage_plus_nonneg a b :
  usage_nonneg a → usage_nonneg b → usage_nonneg (usage_plus a b).
Proof. usage_lia. Qed.

Lemma usage_wrap_within a l :
  usage_nonneg a → usage_within a l → limits_ok l → usage_wrap a = a.
Proof.
  unfold usage_nonneg, usage_within, limits_ok, usage_wrap. intros ???.
  destruct a; cbn in *. f_equal; (apply u32_small || apply u64_small); lia.
Qed.

Lemma exceeds32_false c r l :
  in_u32 l → 0 ≤ r → exceeds32 c r l = false ↔ r ≤ l ∧ c + r ≤ l.
Proof.
  unfold exceeds32, in_u32. intros ??.
  rewrite orb_false_iff, !Z.gtb_ltb, !Z.ltb_ge. split; intros [??].
  - rewrite u32_small in * by lia. lia.
  - rewrite u32_small by lia. lia.
Qed.

Lemma exceeds64_false c r l :
  in_u64 l → 0 ≤ r → exceeds64 c r l = false ↔ r ≤ l ∧ c + r ≤ l.
Proof.
  unfold exceeds64, in_u64. intros ??.
  rewrite orb_false_iff, !Z.gtb_ltb, !Z.ltb_ge. split; intros [??].
  - rewrite u64_small in * by lia. lia.
  - rewrite u64_small by lia. lia.
Qed.

Lemma run_checks_ok exceeds checks u :
  run_checks exceeds checks = Ok u ↔
  Forall (λ '(_, c, r, l), exceeds c r l = false) checks.
Proof.
  destruct u. unfold run_checks.
  induction checks as [|[[[n c] r] l] checks IH]; cbn; [done|].
  rewrite Forall_cons. destruct (exceeds c r l); cbn; [naive_solver|].
  rewrite IH. naive_solver.
Qed.

Lemma usageFits_forall c r l u :
  usageFits c r l = Ok u ↔
  Forall (λ '(_, c, r, l), exceeds32 c r l = false) (checks32 c r l) ∧
  Forall (λ '(_, c, r, l), exceeds64 c r l = false) (checks64 c r l).
Proof.
  unfold usageFits. rewrite bind_ok. split.
  - intros (u' & H1%run_checks_ok & H2%run_checks_ok). done.
  - intros [H1 H2]. exists tt. by rewrite !run_checks_ok.
Qed.

Lemma usageFits_ok c r l u :
  limits_ok l → usage_nonneg c → usage_nonneg r →
  usageFits c r l = Ok u ↔ usage_within (usage_plus c r) l.
Proof.
  intros Hl Hc Hr. rewrite usageFits_forall. unfold checks32, checks64.
  unfold limits_ok, usage_nonneg, usage_within, usage_plus in *; cbn [
    ActiveJobs QueuedJobs Connections SSHProcesses HelperProcesses
    FileDescriptors Goroutines MemoryBytes EventBytes LogBytes].
  rewrite !Forall_cons, !Forall_nil.
  rewrite !exceeds32_false, !exceeds64_false by (unfold in_u32, in_u64; lia).
  split; intros; lia.
Qed.

(** * Outstanding leases *)
Definition usage_sum (l : list ResourceUsage) : ResourceUsage :=
  foldr usage_plus usage0 l.

Definition held_total (rs : list ResourceRequest) : ResourceUsage :=
  usage_sum (req_Usage <$> rs).
Definition held_job (rs : list ResourceRequest) (j : JobID) : ResourceUsage :=
  usage_sum (req_Usage <$> filter (λ r, req_JobID r = j) rs).
Definition held_endpoint (rs : list ResourceRequest) (e : EndpointID) :
    ResourceUsage :=
  usage_sum ((λ r, endpointUsage r e) <$>
             filter (λ r, e ∈ req_EndpointIDs r) rs).

Lemma usage_sum_middle f (l1 : list ResourceRequest) r l2 :
  usage_sum (f <$> l1 ++ r :: l2) =
  usage_plus (usage_sum (f <$> l1 ++ l2)) (f r).
Proof.
  induction l1 as [|x l1 IH]; cbn; [apply usage_plus_comm|].
  unfold usage_sum in IH. rewrite IH. apply usage_plus_assoc.
Qed.

Lemma held_total_middle l1 r l2 :
  held_total (l1 ++ r :: l2) =
  usage_plus (held_total (l1 ++ l2)) (req_Usage r).
Proof. apply usage_sum_middle. Qed.

Lemma held_job_middle l1 r l2 j :
  held_job (l1 ++ r :: l2) j =
  if decide (req_JobID r = j)
  then usage_plus (held_job (l1 ++ l2) j) (req_Usage r)
  else held_job (l1 ++ l2) j.
Proof.
  unfold held_job. rewrite !filter_app, filter_cons.
  case_decide; [apply usage_sum_middle|done].
Qed.

Lemma held_endpoint_middle l1 r l2 e :
  held_endpoint (l1 ++ r :: l2) e =
  if decide (e ∈ req_EndpointIDs r)
  then usage_plus (held_endpoint (l1 ++ l2) e) (endpointUsage r e)
  else held_endpoint (l1 ++ l2) e.
Proof.
  unfold held_endpoint. rewrite !filter_app, filter_cons. case_decide; [|done].
  apply (usage_sum_middle (λ r, endpointUsage r e)).
Qed.

Lemma usage_sum_nonneg l : Forall usage_nonneg l → usage_nonneg (usage_sum l).
Proof.
  induction 1; cbn; [unfold usage_nonneg; cbn; lia|by apply usage_plus_nonneg].
Qed.

(** * Pointwise updates of a usage map *)
Section pointwise.
Context (upd : gmap string ResourceUsage → string → ResourceUsage →
               gmap string ResourceUsage).
Context (upd_at : ∀ m k v k',
  usage_at (upd m k v) k' = if decide (k = k') then v else usage_at m k').
Context (g : ResourceUsage → string → ResourceUsage).

Lemma fold_upd_at ids m e :
  NoDup ids →
  usage_at (foldl (λ m k, upd m k (g (usage_at m k) k)) m ids) e =
  if decide (e ∈ ids) then g (usage_at m e) e else usage_at m e.
Proof using upd_at.
  intros Hnd. revert m. induction Hnd as [|k ids Hk Hnd IH]; intros m; cbn.
  { rewrite decide_False; [done|apply not_elem_of_nil]. }
  rewrite IH, !upd_at. destruct (decide (k = e)) as [->|Hke].
  - by rewrite (decide_False (P := e ∈ ids)), decide_True by set_solver.
  - destruct (decide (e ∈ ids)) as [Hin|Hin];
      [rewrite decide_True by set_solver|rewrite decide_False by set_solver];
      done.
Qed.
End pointwise.

Lemma usage_at_insert m k v k' :
  usage_at (<[k:=v]> m) k' = if decide (k = k') then v else usage_at m k'.
Proof. unfold usage_at. rewrite lookup_insert. by case_decide. Qed.

Lemma usage_at_store_or_delete m k v k' :
  usage_at (store_or_delete m k v) k' =
  if decide (k = k') then v else usage_at m k'.
Proof.
  unfold store_or_delete, usage_at. destruct (decide (v = usage0)) as [->|].
  - rewrite lookup_delete. by case_decide.
  - rewrite lookup_insert. by case_decide.
Qed.

Lemma acquire_endpoint_at ledger r e :
  NoDup (req_EndpointIDs r) →
  usage_at (led_perEndpoint (acquireLocked ledger r)) e =
  if decide (e ∈ req_EndpointIDs r)
  then addUsage (usage_at (led_perEndpoint ledger) e) (endpointUsage r e)
  else usage_at (led_perEndpoint ledger) e.
Proof.
  apply (fold_upd_at (λ m k v, <[k:=v]> m) usage_at_insert
           (λ u k, addUsage u (endpointUsage r k))).
Qed.

Lemma release_endpoint_at ledger r e :
  NoDup (req_EndpointIDs r) →
  usage_at (led_perEndpoint (ledger_release ledger r)) e =
  if decide (e ∈ req_EndpointIDs r)
  then subtractUsage (usage_at (led_perEndpoint ledger) e) (endpointUsage r e)
  else usage_at (led_perEndpoint ledger) e.
Proof.
  apply (fold_upd_at store_or_delete usage_at_store_or_delete
           (λ u k, subtractUsage u (endpointUsage r k))).
Qed.

(** Keys: an acquisition adds at most the request's endpoints, and a release
    leaves a key of the request only with a non-zero usage. *)
Lemma acquire_endpoint_key ledger r e :
  is_Some (led_perEndpoint (acquireLocked ledger r) !! e) →
  is_Some (led_perEndpoint ledger !! e) ∨ e ∈ req_EndpointIDs r.
Proof.
  cbn. generalize (led_perEndpoint ledger) as m.
  generalize (req_EndpointIDs r) as ids.
  induction ids as [|k ids IH]; intros m; cbn; [by left|].
  intros [[v Hv]|?]%IH; [|by right; right].
  rewrite lookup_insert in Hv. case_decide; [subst; right; left|].
  left; eauto.
Qed.

Lemma release_endpoint_key ledger r e :
  is_Some (led_perEndpoint (ledger_release ledger r) !! e) →
  is_Some (led_perEndpoint ledger !! e) ∧
  e ∉ req_EndpointIDs r ∨
  usage_at (led_perEndpoint (ledger_release ledger r)) e ≠ usage0.
Proof.
  cbn. generalize (led_perEndpoint ledger) as m.
  generalize (req_EndpointIDs r) as ids.
  induction ids as [|k ids IH] using rev_ind; intros m; cbn.
  { intros ?; left; split; [done|apply not_elem_of_nil]. }
  specialize (IH m). rewrite !foldl_app. cbn.
  match goal with H : context [foldl ?f m ids] |- _ =>
    set (m' := foldl f m ids) in * end.
  set (v := subtractUsage (usage_at m' k) (endpointUsage r k)).
  rewrite usage_at_store_or_delete.
  unfold store_or_delete. destruct (decide (v = usage0)) as [Hv|Hv].
  - rewrite lookup_delete. case_decide; [by intros [??]|].
    intros [[??]|?]%IH; [left|by right].
    rewrite elem_of_app, list_elem_of_singleton. naive_solver.
  - rewrite lookup_insert. repeat case_decide; [intros _; by right|done..|].
    intros [[??]|?]%IH; [left|by right].
    rewrite elem_of_app, list_elem_of_singleton. naive_solver.
Qed.

(** The number of endpoints with an entry. *)
Lemma newEndpointCount_spec ledger ids :
  newEndpointCountLocked ledger ids =
  u32 (Z.of_nat (length (filter (λ e, led_perEndpoint ledger !! e = None) ids))).
Proof.
  unfold newEndpointCountLocked.
  induction ids as [|e ids IH] using rev_ind; [done|].
  rewrite foldl_app, filter_app, length_app, filter_cons, filter_nil.
  cbn [foldl]. rewrite IH. destruct (led_perEndpoint ledger !! e) eqn:E.
  - rewrite decide_False by done. by rewrite Nat.add_0_r.
  - rewrite decide_True, u32_add_l by done. f_equal. cbn [length]. lia.
Qed.

Lemma acquire_endpoint_size ledger r :
  (size (led_perEndpoint (acquireLocked ledger r)) ≤
   size (led_perEndpoint ledger) +
   length (filter (λ e, led_perEndpoint ledger !! e = None)
             (req_EndpointIDs r)))%nat.
Proof.
  cbn. generalize (led_perEndpoint ledger) as m.
  generalize (req_EndpointIDs r) as ids. intros ids m.
  assert (∀ m', dom m ⊆ dom m' →
    (size (foldl (λ p e, <[e:=addUsage (usage_at p e) (endpointUsage r e)]> p)
       m' ids) ≤ size m' + length (filter (λ e, m !! e = None) ids))%nat)
    as H; [|by apply H].
  induction ids as [|e ids IH]; intros m' Hm; [cbn; lia|].
  rewrite filter_cons. cbn [foldl].
  etrans; [apply IH; rewrite dom_insert; set_solver|].
  destruct (m' !! e) eqn:E.
  - rewrite map_size_insert_Some by eauto. case_decide; cbn; lia.
  - rewrite map_size_insert_None by done. rewrite decide_True; [cbn; lia|].
    apply not_elem_of_dom. apply not_elem_of_dom in E. set_solver.
Qed.

(** * Normalized requests *)

(** What a caller guarantees: unsigned counters, a slice of endpoint IDs that
    fits in memory, and endpoint shares that are part of the total. *)
Definition request_wf (r : ResourceRequest) : Prop :=
  usage_nonneg (req_Usage r) ∧
  (usage_nonneg (req_PerEndpointUsage r) ∧
   usage_le (req_PerEndpointUsage r) (req_Usage r)) ∧
  map_Forall (λ _ u, usage_nonneg u ∧ usage_le u (req_Usage r))
    (default ∅ (req_EndpointUsage r)) ∧
  Z.of_nat (length (req_EndpointIDs r)) < 2 ^ 31.

Definition request_normal (r : ResourceRequest) : Prop :=
  request_wf r ∧ NoDup (req_EndpointIDs r).

Lemma normalizeEndpoints_loop ids acc seen endpoints :
  for_each (λ '(seen, endpoints) endpointID,
    if String.eqb endpointID "" then Err ErrRequestEndpointIDEmpty
    else if decide (endpointID ∈ seen) then Ok (seen, endpoints)
    else Ok ({[endpointID]} ∪ seen, endpoints ++ [endpointID]))
    ((list_to_set acc : gset EndpointID), acc) ids = Ok (seen, endpoints) →
  NoDup acc →
  NoDup endpoints ∧ seen = list_to_set endpoints ∧
  (length endpoints ≤ length acc + length ids)%nat.
Proof.
  revert acc. induction ids as [|e ids IH]; intros acc; cbn.
  { intros [= <- <-] ?. split_and!; [done..|lia]. }
  destruct (String.eqb e ""); [done|].
  destruct (decide (e ∈ _)) as [Hin|Hin].
  { intros H Hacc. apply IH in H as (?&?&?); [|done].
    split_and!; [done..|lia]. }
  rewrite elem_of_list_to_set in Hin. intros H Hacc.
  replace ({[e]} ∪ list_to_set acc : gset EndpointID)
    with (list_to_set (acc ++ [e]) : gset EndpointID) in H.
  - apply IH in H as (?&?&Hlen).
    + split_and!; [done..|]. rewrite length_app in Hlen. cbn in Hlen. lia.
    + apply NoDup_app. split_and!; [done| |apply NoDup_singleton].
      intros x ? ->%list_elem_of_singleton. done.
  - rewrite list_to_set_app_L. cbn. set_solver.
Qed.

Lemma normalizeResourceRequest_normal r r' :
  request_wf r → normalizeResourceRequest r = Ok r' → request_normal r'.
Proof.
  intros (Hu & Hp & He & Hlen) H. unfold normalizeResourceRequest in H.
  apply check_bind_ok in H as [_ H].
  apply bind_ok in H as ([seen endpoints] & Hn & H).
  apply (normalizeEndpoints_loop _ []) in Hn as (Hnd & _ & Hl); [|constructor].
  cbn in Hl. apply check_bind_ok in H as [_ H]. unfold request_normal, request_wf.
  destruct (decide (default ∅ (req_EndpointUsage r) = ∅)).
  - injection H as <-. cbn. split; [|done]. split; [done|].
    split; [|split; [done|lia]].
    destruct (_ && _)%bool; [|done]. split; [done|apply usage_le_refl].
  - apply check_bind_ok in H as [_ [= <-]]. cbn. split; [|done].
    split; [done|]. split; [done|split; [done|lia]].
Qed.

Lemma usage0_le a : usage_nonneg a → usage_le usage0 a.
Proof. usage_lia. Qed.

Lemma usage0_nonneg : usage_nonneg usage0.
Proof. usage_lia. Qed.

Lemma endpointUsage_share r e :
  request_wf r →
  usage_nonneg (endpointUsage r e) ∧ usage_le (endpointUsage r e) (req_Usage r).
Proof.
  intros (Hu & Hp & He & _). unfold endpointUsage.
  destruct (req_EndpointUsage r) as [m|].
  - unfold usage_at. destruct (m !! e) eqn:E; cbn; [by apply (He e)|].
    split; [apply usage0_nonneg|by apply usage0_le].
  - case_decide; [|done]. split; [done|apply usage_le_refl].
Qed.

Lemma endpointUsage_nonneg r e :
  request_wf r → usage_nonneg (endpointUsage r e).
Proof. apply endpointUsage_share. Qed.

Lemma held_endpoint_le_total rs e :
  Forall request_normal rs → usage_le (held_endpoint rs e) (held_total rs).
Proof.
  induction 1 as [|r rs [Hr _] _ IH]; [apply usage_le_refl|].
  unfold held_endpoint, held_total, usage_sum in *.
  rewrite filter_cons, fmap_cons.
  pose proof (endpointUsage_share r e Hr) as [_ Hs]. destruct Hr as [Hu _].
  case_decide; rewrite ?fmap_cons; cbn [foldr]; usage_lia.
Qed.

Lemma held_total_nonneg rs :
  Forall request_normal rs → usage_nonneg (held_total rs).
Proof.
  intros H. apply usage_sum_nonneg, Forall_fmap.
  eapply Forall_impl; [exact H|]. intros r [Hr _]. apply Hr.
Qed.

Lemma held_endpoint_nonneg rs e :
  Forall request_normal rs → usage_nonneg (held_endpoint rs e).
Proof.
  intros H. apply usage_sum_nonneg, Forall_fmap, Forall_filter.
  eapply Forall_impl; [exact H|]. intros r [Hr _].
  by apply endpointUsage_nonneg.
Qed.

(** * The ledger as an abstract account

    [ledger_holds l rs] says that the ledger [l] accounts for exactly the
    requests [rs]: its counters are the sums over them, no ceiling is exceeded,
    and every map entry stands for an outstanding request. *)
Record ledger_holds (l : ResourceLedger) (rs : list ResourceRequest) : Prop := {
  lh_limits : limits_ok (led_limits l);
  lh_normal : Forall request_normal rs;
  lh_total : led_total l = held_total rs;
  lh_within : usage_within (held_total rs) (led_limits l);
  lh_job : ∀ j, usage_at (led_perJob l) j = usage_wrap (held_job rs j);
  lh_endpoint : ∀ e,
    usage_at (led_perEndpoint l) e = usage_wrap (held_endpoint rs e);
  lh_endpoint_within : ∀ e,
    ActiveJobs (held_endpoint rs e) ≤ lim_ActiveJobsPerEndpoint (led_limits l) ∧
    Connections (held_endpoint rs e)
      ≤ lim_ConnectionsPerEndpoint (led_limits l);
  lh_job_key : ∀ j, is_Some (led_perJob l !! j) →
    ∃ r, r ∈ rs ∧ req_JobID r = j;
  lh_endpoint_key : ∀ e, is_Some (led_perEndpoint l !! e) →
    ∃ r, r ∈ rs ∧ e ∈ req_EndpointIDs r;
  lh_endpoint_count :
    Z.of_nat (size (led_perEndpoint l)) ≤ lim_Endpoints (led_limits l);
}.

Lemma held_total_wrap l rs :
  ledger_holds l rs → usage_wrap (held_total rs) = held_total rs.
Proof.
  intros H. eapply usage_wrap_within; [|apply (lh_within _ _ H)|apply H].
  apply held_total_nonneg, H.
Qed.

(** The counters read by the endpoint checks are exact. *)
Lemma endpoint_counters l rs e :
  ledger_holds l rs →
  ActiveJobs (usage_at (led_perEndpoint l) e) = ActiveJobs (held_endpoint rs e) ∧
  Connections (usage_at (led_perEndpoint l) e) = Connections (held_endpoint rs e).
Proof.
  intros H. rewrite (lh_endpoint _ _ H).
  pose proof (lh_endpoint_within _ _ H e) as [HA HC].
  pose proof (held_endpoint_nonneg rs e (lh_normal _ _ H)) as Hn.
  pose proof (lh_limits _ _ H) as Hl.
  unfold usage_nonneg, limits_ok in *. cbn.
  split; apply u32_small; lia.
Qed.

Lemma held_endpoint_wrap rs l e :
  Forall request_normal rs → usage_within (held_total rs) l → limits_ok l →
  usage_wrap (held_endpoint rs e) = held_endpoint rs e.
Proof.
  intros Hn Hw Hl. apply (usage_wrap_within _ l); [|..|done].
  - by apply held_endpoint_nonneg.
  - pose proof (held_endpoint_le_total rs e Hn).
    usage_lia.
Qed.

Lemma usage_plus_eq_0 a b :
  usage_nonneg a → usage_nonneg b → usage_plus a b = usage0 → a = usage0.
Proof.
  unfold usage_nonneg, usage_plus, usage0. destruct a; cbn.
  intros ?? [=]. f_equal; lia.
Qed.

(** A request fits next to the outstanding ones. *)
Definition request_fits (l : ResourceLedger) (rs : list ResourceRequest)
    (r : ResourceRequest) : Prop :=
  Z.of_nat (size (led_perEndpoint l)) +
    Z.of_nat (length (filter (λ e, led_perEndpoint l !! e = None)
                        (req_EndpointIDs r))) ≤ lim_Endpoints (led_limits l) ∧
  usage_within (usage_plus (held_total rs) (req_Usage r)) (led_limits l) ∧
  ∀ e, e ∈ req_EndpointIDs r →
    ActiveJobs (held_endpoint rs e) + ActiveJobs (endpointUsage r e)
      ≤ lim_ActiveJobsPerEndpoint (led_limits l) ∧
    Connections (held_endpoint rs e) + Connections (endpointUsage r e)
      ≤ lim_ConnectionsPerEndpoint (led_limits l).

Lemma usageFits_each_ok {A} c u l (f : A → result LedgerError ()) xs v :
  (usageFits c u l ≫= λ _, each f xs) = Ok v ↔
  usageFits c u l = Ok tt ∧ ∀ x, x ∈ xs → f x = Ok tt.
Proof.
  rewrite bind_ok. split.
  - intros ([] & ? & H). by rewrite each_ok in H.
  - intros [? ?]. exists tt. by rewrite each_ok.
Qed.

Lemma checkEndpointNow_ok l rs r e :
  ledger_holds l rs → request_wf r →
  checkEndpointNow l r e = Ok tt ↔
  ActiveJobs (held_endpoint rs e) + ActiveJobs (endpointUsage r e)
    ≤ lim_ActiveJobsPerEndpoint (led_limits l) ∧
  Connections (held_endpoint rs e) + Connections (endpointUsage r e)
    ≤ lim_ConnectionsPerEndpoint (led_limits l).
Proof.
  intros H Hwf. unfold checkEndpointNow.
  rewrite check_bind_ok, check_ok, !negb_true_iff.
  pose proof (endpointUsage_nonneg r e Hwf) as He.
  destruct (endpoint_counters l rs e H) as [-> ->].
  pose proof (held_endpoint_nonneg rs e (lh_normal _ _ H)).
  pose proof (lh_limits _ _ H). unfold usage_nonneg, limits_ok in *.
  rewrite !exceeds32_false by (unfold in_u32; lia). lia.
Qed.

Lemma canAcquireLocked_spec l rs r u :
  ledger_holds l rs → request_normal r →
  canAcquireLocked l r = Ok u ↔ request_fits l rs r.
Proof.
  intros H [Hwf Hnd]. pose proof Hwf as (Hu & _ & _ & Hlen).
  pose proof (lh_limits _ _ H) as Hl. pose proof (lh_endpoint_count _ _ H) as Hc.
  pose proof (held_total_nonneg rs (lh_normal _ _ H)) as Ht.
  pose proof (length_filter (λ e, led_perEndpoint l !! e = None)
                (req_EndpointIDs r)) as Hf.
  unfold canAcquireLocked, request_fits. rewrite newEndpointCount_spec.
  rewrite check_bind_ok, negb_true_iff, Z.gtb_ltb, Z.ltb_ge, usageFits_each_ok.
  rewrite !u32_small by (unfold limits_ok in Hl; rewrite ?u32_small; lia).
  rewrite (lh_total _ _ H), usageFits_ok by done.
  do 2 apply and_iff_compat_l. apply forall_proper; intros e.
  apply imp_iff_compat_l. by apply checkEndpointNow_ok.
Qed.

Lemma held_job_nonzero rs j :
  held_job rs j ≠ usage0 → ∃ r, r ∈ rs ∧ req_JobID r = j.
Proof.
  unfold held_job. intros Hne.
  destruct (filter _ rs) as [|r l] eqn:E; [done|].
  assert (r ∈ filter (λ r, req_JobID r = j) rs) as Hr by (rewrite E; left).
  apply list_elem_of_filter in Hr as [??]. eauto.
Qed.

Lemma held_endpoint_nonzero rs e :
  held_endpoint rs e ≠ usage0 → ∃ r, r ∈ rs ∧ e ∈ req_EndpointIDs r.
Proof.
  unfold held_endpoint. intros Hne.
  destruct (filter _ rs) as [|r l] eqn:E; [done|].
  assert (r ∈ filter (λ r, e ∈ req_EndpointIDs r) rs) as Hr by (rewrite E; left).
  apply list_elem_of_filter in Hr as [??]. eauto.
Qed.

(** * Preservation *)
Lemma acquire_holds l rs r :
  ledger_holds l rs → request_normal r → request_fits l rs r →
  ledger_holds (acquireLocked l r) (rs ++ [r]).
Proof.
  intros H Hr (Hcount & Htot & Hend). pose proof Hr as [Hwf Hnd].
  assert (∀ e, held_endpoint (rs ++ [r]) e =
    if decide (e ∈ req_EndpointIDs r)
    then usage_plus (held_endpoint rs e) (endpointUsage r e)
    else held_endpoint rs e) as He.
  { intros e. by rewrite held_endpoint_middle, app_nil_r. }
  assert (held_total (rs ++ [r]) = usage_plus (held_total rs) (req_Usage r))
    as Ht by by rewrite held_total_middle, app_nil_r.
  split; [apply H|..]; rewrite ?Ht.
  - apply Forall_app. split; [apply H|by apply Forall_singleton].
  - cbn. rewrite (lh_total _ _ H), <-(held_total_wrap l rs H) at 1.
    rewrite addUsage_wrap.
    apply (usage_wrap_within _ (led_limits l)); [|done|apply H].
    apply usage_plus_nonneg; [apply held_total_nonneg, H|apply Hwf].
  - done.
  - intros j. cbn. rewrite usage_at_insert, held_job_middle, app_nil_r.
    case_decide as Hj; [|apply H]. subst j.
    by rewrite (lh_job _ _ H), addUsage_wrap.
  - intros e. rewrite acquire_endpoint_at, He by done.
    case_decide; [|apply H]. by rewrite (lh_endpoint _ _ H), addUsage_wrap.
  - intros e. rewrite He. case_decide; [by apply Hend|apply H].
  - intros j [v Hv]. cbn in Hv. rewrite lookup_insert in Hv.
    case_decide; [exists r; set_solver|].
    destruct (lh_job_key _ _ H j) as (r' & ? & ?); [by eexists|]. set_solver.
  - intros e [He'|He']%acquire_endpoint_key; [|exists r; set_solver].
    destruct (lh_endpoint_key _ _ H e He') as (r' & ? & ?). set_solver.
  - pose proof (acquire_endpoint_size l r). cbn [acquireLocked led_limits]. lia.
Qed.

Lemma release_holds l l1 r l2 :
  ledger_holds l (l1 ++ r :: l2) → ledger_holds (ledger_release l r) (l1 ++ l2).
Proof.
  intros H. assert (request_normal r) as [Hwf Hnd].
  { pose proof (lh_normal _ _ H) as Hn. apply Forall_app in Hn as [_ Hn].
    by apply Forall_cons in Hn as [? _]. }
  assert (Forall request_normal (l1 ++ l2)) as Hn.
  { pose proof (lh_normal _ _ H) as Hn. apply Forall_app in Hn as [? Hn].
    apply Forall_cons in Hn as [_ ?]. by apply Forall_app. }
  assert (∀ e, usage_at (led_perEndpoint (ledger_release l r)) e =
               usage_wrap (held_endpoint (l1 ++ l2) e)) as He.
  { intros e. rewrite release_endpoint_at, (lh_endpoint _ _ H),
      held_endpoint_middle by done.
    case_decide; [apply subtractUsage_wrap|done]. }
  assert (usage_within (held_total (l1 ++ l2)) (led_limits l)) as Hw.
  { pose proof (lh_within _ _ H) as Hw. rewrite held_total_middle in Hw.
    destruct Hwf as [Hu _]. usage_lia. }
  split; [apply H|done|..].
  - cbn. rewrite (lh_total _ _ H), <-(held_total_wrap _ _ H), held_total_middle,
      subtractUsage_wrap.
    apply (usage_wrap_within _ (led_limits l)); [|done|apply H].
    by apply held_total_nonneg.
  - done.
  - intros j. cbn. rewrite usage_at_store_or_delete, !(lh_job _ _ H),
      !held_job_middle. case_decide; [|done].
    rewrite decide_True by done. subst j. apply subtractUsage_wrap.
  - done.
  - intros e. pose proof (lh_endpoint_within _ _ H e) as Hb.
    pose proof (endpointUsage_nonneg r e Hwf) as Hu.
    rewrite held_endpoint_middle in Hb.
    case_decide; [|done]. cbn [ledger_release led_limits]. usage_lia.
  - intros j [v Hv]. cbn in Hv. unfold store_or_delete in Hv.
    assert (is_Some (led_perJob l !! j) ∧ j ≠ req_JobID r ∨
            held_job (l1 ++ l2) j ≠ usage0) as [[Hj Hne]|Hne].
    { rewrite (lh_job _ _ H), held_job_middle,
        (decide_True (P := req_JobID r = req_JobID r)),
        subtractUsage_wrap in Hv by done.
      destruct (decide (j = req_JobID r)) as [->|Hne]; [right|left].
      - intros E. rewrite E, decide_True, lookup_delete_eq in Hv by done. done.
      - split; [|done]. case_decide;
          [rewrite lookup_delete_ne in Hv by done
          |rewrite lookup_insert_ne in Hv by done]; by eexists. }
    + destruct (lh_job_key _ _ H j Hj) as (r' & Hr' & <-). exists r'.
      set_solver.
    + by apply held_job_nonzero.
  - intros e [[He' Hne]|Hne]%release_endpoint_key.
    + destruct (lh_endpoint_key _ _ H e He') as (r' & ? & ?). exists r'.
      set_solver.
    + apply held_endpoint_nonzero. intros E. by rewrite He, E in Hne.
  - etrans; [|apply (lh_endpoint_count _ _ H)].
    rewrite <-!(size_dom (D:=gset string)). apply Nat2Z.inj_le, subseteq_size.
    intros e [[He' Hne]|Hne]%elem_of_dom%release_endpoint_key;
      [by apply elem_of_dom|].
    apply elem_of_dom. destruct (led_perEndpoint l !! e) eqn:E; [done|].
    destruct Hne. rewrite He.
    assert (usage_at (led_perEndpoint l) e = usage0) as E0
      by (unfold usage_at; by rewrite E).
    rewrite (lh_endpoint _ _ H), (held_endpoint_wrap _ (led_limits l)),
      held_endpoint_middle in E0 by apply H.
    case_decide; [|by rewrite E0].
    apply usage_plus_eq_0 in E0; [by rewrite E0| |].
    + by apply held_endpoint_nonneg.
    + by apply endpointUsage_nonneg.
Qed.

(** * The ledger and its callers

    A state of the system is the ledger, the leases handed out so far and the
    normalized requests of the callers inside [Acquire].  A step is one critical
    section. *)
Record system := mkSystem {
  sys_ledger : ResourceLedger;
  sys_leases : list ResourceLease;
  sys_waiting : list ResourceRequest;
}.

Inductive ledger_step : system → system → Prop :=
| step_TryAcquire l ls ws r l' lease :
    request_wf r → TryAcquire l r = Ok (l', lease) →
    ledger_step (mkSystem l ls ws) (mkSystem l' (ls ++ [lease]) ws)
| step_Acquire_enter l ls ws r l' r' :
    request_wf r → Acquire_enter l r = Ok (l', r') →
    ledger_step (mkSystem l ls ws) (mkSystem l' ls (ws ++ [r']))
| step_Acquire_poll l ls ws1 r ws2 l' lease :
    Acquire_poll l r = (l', Some lease) →
    ledger_step (mkSystem l ls (ws1 ++ r :: ws2))
      (mkSystem l' (ls ++ [lease]) (ws1 ++ ws2))
| step_Acquire_cancel l ls ws1 r ws2 :
    ledger_step (mkSystem l ls (ws1 ++ r :: ws2))
      (mkSystem (Acquire_cancel l) ls (ws1 ++ ws2))
| step_Release l ls1 lease ls2 ws l' lease' :
    Lease_Release l lease = (l', lease') →
    ledger_step (mkSystem l (ls1 ++ lease :: ls2) ws)
      (mkSystem l' (ls1 ++ lease' :: ls2) ws).

(** The requests of the leases not yet released. *)
Definition outstanding (ls : list ResourceLease) : list ResourceRequest :=
  lease_request <$> filter (λ lease, lease_released lease = false) ls.

Definition system_inv (s : system) : Prop :=
  ledger_holds (sys_ledger s) (outstanding (sys_leases s)) ∧
  Forall request_normal (sys_waiting s) ∧
  led_waiters (sys_ledger s) = Z.of_nat (length (sys_waiting s)).

Lemma outstanding_snoc ls r :
  outstanding (ls ++ [mkResourceLease r false]) = outstanding ls ++ [r].
Proof. unfold outstanding. by rewrite filter_app, fmap_app. Qed.

Lemma outstanding_released ls :
  Forall (λ lease, lease_released lease = true) ls → outstanding ls = [].
Proof.
  unfold outstanding. induction 1 as [|lease ls Hl _ IH]; [done|].
  rewrite filter_cons_False; [done|congruence].
Qed.

(** Only the limits and the counters matter to [ledger_holds]. *)
Lemma set_waiters_holds l w rs :
  ledger_holds l rs → ledger_holds (set_waiters l w) rs.
Proof. intros []; by split. Qed.

Lemma TightenResourceLimits_ok limits limits' :
  limits_nonneg limits → TightenResourceLimits limits = Ok limits' →
  limits' = limits ∧ limits_ok limits.
Proof.
  unfold TightenResourceLimits, limits_nonneg, limits_ok. intros Hn.
  destruct (_ || _)%bool eqn:E; [done|]. intros [= <-]. split; [done|].
  rewrite !orb_false_iff, !Z.gtb_ltb, !Z.ltb_ge in E. cbn in E.
  change (Z.shiftl 64 20) with (2 ^ 26) in E.
  change (Z.shiftl 32 10) with (2 ^ 15) in E. lia.
Qed.

Lemma NewResourceLedger_ok limits l :
  limits_nonneg limits → NewResourceLedger limits = Ok l →
  limits_ok (led_limits l) ∧ l = mkResourceLedger (led_limits l) usage0 ∅ ∅ 0 0.
Proof.
  intros Hn H. unfold NewResourceLedger in H.
  apply bind_ok in H as (v & Hv & [= <-]). split; [|done]. cbn.
  apply TightenResourceLimits_ok in Hv as [-> ?]; [done|].
  case_decide; [|done]. split_and!; by vm_compute.
Qed.

Lemma initial_holds limits :
  limits_ok limits → ledger_holds (mkResourceLedger limits usage0 ∅ ∅ 0 0) [].
Proof.
  intros Hl. split; cbn; try done.
  - usage_lia.
  - unfold limits_ok in Hl; lia.
  - intros j [v Hv]. by rewrite lookup_empty in Hv.
  - intros e [v Hv]. by rewrite lookup_empty in Hv.
  - rewrite map_size_empty. unfold limits_ok in Hl; lia.
Qed.

Lemma TryAcquire_ok l rs r l' lease :
  ledger_holds l rs → request_wf r → TryAcquire l r = Ok (l', lease) →
  ∃ r', lease = mkResourceLease r' false ∧ l' = acquireLocked l r' ∧
        request_normal r' ∧ request_fits l rs r'.
Proof.
  intros H Hwf Hok. unfold TryAcquire in Hok.
  apply bind_ok in Hok as (r' & Hr' & Hok).
  apply normalizeResourceRequest_normal in Hr'; [|done].
  apply bind_ok in Hok as (u & Hc & [= <- <-]).
  apply (canAcquireLocked_spec _ rs) in Hc; eauto.
Qed.

Lemma Acquire_poll_ok l rs r l' lease :
  ledger_holds l rs → request_normal r → Acquire_poll l r = (l', Some lease) →
  lease = mkResourceLease r false ∧
  l' = set_waiters (acquireLocked l r) (led_waiters l - 1) ∧
  request_fits l rs r.
Proof.
  intros H Hr. unfold Acquire_poll.
  destruct (canAcquireLocked l r) as [u|] eqn:E; cbn; [|done].
  intros [= <- <-]. by apply (canAcquireLocked_spec _ rs) in E.
Qed.

Lemma ledger_step_inv s s' :
  system_inv s → ledger_step s s' →
  system_inv s' ∧ led_limits (sys_ledger s') = led_limits (sys_ledger s).
Proof.
  intros (H & Hws & Hw) Hstep. unfold system_inv.
  destruct Hstep as [l ls ws r l' lease Hr Hok|l ls ws r l' r' Hr Hok
    |l ls ws1 r ws2 l' lease Hok|l ls ws1 r ws2
    |l ls1 lease ls2 ws l' lease' Hok];
    cbn [sys_ledger sys_leases sys_waiting] in *.
  - apply (TryAcquire_ok _ (outstanding ls)) in Hok
      as (r' & -> & -> & Hr' & Hf); [|done..].
    rewrite outstanding_snoc. by split_and!; [apply acquire_holds|..].
  - unfold Acquire_enter in Hok. apply bind_ok in Hok as (r2 & Hr2 & Hok).
    apply bind_ok in Hok as (u & _ & [= <- <-]).
    apply normalizeResourceRequest_normal in Hr2; [|done].
    split_and!; [by apply set_waiters_holds| | |done].
    + apply Forall_app; split; [done|by apply Forall_singleton].
    + cbn. rewrite length_app, Hw. cbn. lia.
  - apply Forall_app in Hws as [? [??]%Forall_cons].
    apply (Acquire_poll_ok _ (outstanding ls)) in Hok as (-> & -> & Hf); [|done..].
    rewrite outstanding_snoc. split_and!; [| | |done].
    + by apply set_waiters_holds, acquire_holds.
    + by apply Forall_app.
    + cbn. rewrite Hw, !length_app. cbn. lia.
  - apply Forall_app in Hws as [? [??]%Forall_cons].
    split_and!; [by apply set_waiters_holds|by apply Forall_app| |done].
    cbn. rewrite Hw, !length_app. cbn. lia.
  - unfold Lease_Release in Hok.
    destruct (lease_released lease) eqn:E; injection Hok as <- <-; [done|].
    split_and!; [|done..]. unfold outstanding in *.
    rewrite filter_app, filter_cons_False, fmap_app by done.
    apply release_holds.
    by rewrite filter_app, filter_cons_True, fmap_app in H by done.
Qed.

Lemma reachable_inv limits l s :
  limits_nonneg limits → NewResourceLedger limits = Ok l →
  rtc ledger_step (mkSystem l [] []) s →
  system_inv s ∧ led_limits (sys_ledger s) = led_limits l.
Proof.
  intros Hn [Hl E]%NewResourceLedger_ok; [|done].
  apply (rtc_invariant ledger_step
    (λ s, system_inv s ∧ led_limits (sys_ledger s) = led_limits l)).
  - intros x y [Hx <-] Hxy. by apply ledger_step_inv.
  - split; [|done]. rewrite E. by split; [apply initial_holds|].
Qed.

(** * The static check of [Acquire] *)
Lemma canEverAcquireLocked_spec l r u :
  limits_ok (led_limits l) → request_normal r →
  canEverAcquireLocked l r = Ok u ↔
  Z.of_nat (length (req_EndpointIDs r)) ≤ lim_Endpoints (led_limits l) ∧
  usage_within (req_Usage r) (led_limits l) ∧
  ∀ e, e ∈ req_EndpointIDs r →
    ActiveJobs (endpointUsage r e) ≤ lim_ActiveJobsPerEndpoint (led_limits l) ∧
    Connections (endpointUsage r e) ≤ lim_ConnectionsPerEndpoint (led_limits l).
Proof.
  intros Hl [(Hu & _ & _ & Hlen) Hnd]. unfold canEverAcquireLocked.
  rewrite check_bind_ok, negb_true_iff, Z.gtb_ltb, Z.ltb_ge, usageFits_each_ok.
  rewrite u32_small, usageFits_ok, usage_plus_0_l
    by (done || apply usage0_nonneg || lia).
  do 2 apply and_iff_compat_l. apply forall_proper; intros e.
  apply imp_iff_compat_l. unfold checkEndpointEver.
  by rewrite check_bind_ok, check_ok, !negb_true_iff, !Z.gtb_ltb, !Z.ltb_ge.
Qed.

Lemma request_fits_canEver l rs r u :
  ledger_holds l rs → request_normal r → request_fits l rs r →
  canEverAcquireLocked l r = Ok u.
Proof.
  intros H Hr (Hc & Hu & He). pose proof (lh_limits _ _ H) as Hl.
  pose proof (held_total_nonneg rs (lh_normal _ _ H)) as Ht.
  apply canEverAcquireLocked_spec; [done..|]. split_and!.
  - destruct Hr as [_ Hnd].
    pose proof (length_split_by_set (dom (led_perEndpoint l)) _ Hnd) as Hlen.
    rewrite size_dom in Hlen.
    rewrite (list_filter_iff (λ e, e ∉ dom (led_perEndpoint l))
      (λ e, led_perEndpoint l !! e = None)) in Hlen
      by (intros; apply not_elem_of_dom).
    lia.
  - clear He Hc. usage_lia.
  - intros e Hin. destruct (He e Hin) as [??].
    pose proof (held_endpoint_nonneg rs e (lh_normal _ _ H)).
    unfold usage_nonneg in *. lia.
Qed.

Lemma drained_fits l r u :
  ledger_holds l [] → request_normal r → canEverAcquireLocked l r = Ok u →
  request_fits l [] r.
Proof.
  intros H Hr (Hlen & Hu & He)%canEverAcquireLocked_spec; [|apply H|done].
  assert (led_perEndpoint l = ∅) as Hempty.
  { apply map_empty. intros e. apply eq_None_not_Some.
    intros (r' & ?%elem_of_nil & _)%(lh_endpoint_key _ _ H). done. }
  split_and!.
  - rewrite Hempty, map_size_empty. etrans; [|exact Hlen].
    rewrite Z.add_0_l. apply Nat2Z.inj_le, length_filter.
  - unfold held_total. cbn. by rewrite usage_plus_0_l.
  - intros e Hin. by apply He.
Qed.

(** * Properties *)
Section reachable.
Context (limits : ResourceLimits) (l : ResourceLedger) (s : system).
Context (Hlimits : limits_nonneg limits) (Hnew : NewResourceLedger limits = Ok l).
Context (Hreach : rtc ledger_step (mkSystem l [] []) s).

Abbreviation rs := (outstanding (sys_leases s)).

(** C27: The ledger refines an account of the outstanding leases.  Whatever the
    interleaving of admissions, waits, cancellations and releases, the totals
    are the exact sums over the leases not yet released (no uint32 or uint64
    wrap-around), per Job and per endpoint as well; every ceiling holds, none of
    them above the hard ceilings; and the waiter count is the number of waiting
    callers. *)
Theorem ledger_accounts :
  led_total (sys_ledger s) = held_total rs ∧
  usage_within (led_total (sys_ledger s)) (led_limits l) ∧
  limits_ok (led_limits l) ∧
  (∀ e, usage_at (led_perEndpoint (sys_ledger s)) e = held_endpoint rs e ∧
        ActiveJobs (held_endpoint rs e)
          ≤ lim_ActiveJobsPerEndpoint (led_limits l) ∧
        Connections (held_endpoint rs e)
          ≤ lim_ConnectionsPerEndpoint (led_limits l)) ∧
  (∀ j, usage_at (led_perJob (sys_ledger s)) j = usage_wrap (held_job rs j)) ∧
  Z.of_nat (size (led_perEndpoint (sys_ledger s)))
    ≤ lim_Endpoints (led_limits l) ∧
  led_waiters (sys_ledger s) = Z.of_nat (length (sys_waiting s)).
Proof using Hlimits Hnew Hreach.
  destruct (reachable_inv _ _ _ Hlimits Hnew Hreach) as [(H & _ & Hw) Hl].
  rewrite <-Hl. split_and!; try apply H; try done.
  - rewrite (lh_total _ _ H). apply H.
  - intros e. rewrite (lh_endpoint _ _ H),
      (held_endpoint_wrap _ (led_limits (sys_ledger s))) by apply H.
    split; [done|]. apply H.
Qed.

(** Nothing leaks: once every lease has been released, the ledger is back to
    zero with no per-Job and no per-endpoint entry left, and it admits at once
    any request that [Acquire] lets wait. *)
Theorem ledger_drains :
  Forall (λ lease, lease_released lease = true) (sys_leases s) →
  led_total (sys_ledger s) = usage0 ∧
  led_perJob (sys_ledger s) = ∅ ∧ led_perEndpoint (sys_ledger s) = ∅ ∧
  ∀ r l' r', request_wf r → Acquire_enter (sys_ledger s) r = Ok (l', r') →
    ∃ l'', Acquire_poll l' r' = (l'', Some (mkResourceLease r' false)).
Proof using Hlimits Hnew Hreach.
  intros Hall.
  destruct (reachable_inv _ _ _ Hlimits Hnew Hreach) as [(H & _ & _) _].
  rewrite outstanding_released in H by done. split_and!.
  - apply (lh_total _ _ H).
  - apply map_empty. intros j. apply eq_None_not_Some.
    by intros (r' & ?%elem_of_nil & _)%(lh_job_key _ _ H).
  - apply map_empty. intros e. apply eq_None_not_Some.
    by intros (r' & ?%elem_of_nil & _)%(lh_endpoint_key _ _ H).
  - intros r l' r' Hwf Henter. unfold Acquire_enter in Henter.
    apply bind_ok in Henter as (r2 & Hr2 & Henter).
    apply bind_ok in Henter as (u & Hc & [= <- <-]).
    apply normalizeResourceRequest_normal in Hr2; [|done].
    apply drained_fits in Hc; [|done..].
    apply (canAcquireLocked_spec (set_waiters (sys_ledger s)
      (led_waiters (sys_ledger s) + 1)) [] _ tt) in Hc;
      [|by apply set_waiters_holds|done].
    unfold Acquire_poll. rewrite Hc. by eexists.
Qed.

(** The static check of [Acquire] is exact in the other direction too: a
    request it refuses outright could not have been admitted in any reachable
    state, so waiting for it would have been forever. *)
Theorem refused_never_admitted r r' e :
  request_wf r → normalizeResourceRequest r = Ok r' →
  canEverAcquireLocked (sys_ledger s) r' = Err e →
  is_ok (canAcquireLocked (sys_ledger s) r') = false ∧
  is_ok (TryAcquire (sys_ledger s) r) = false.
Proof using Hlimits Hnew Hreach.
  intros Hwf Hr' He.
  destruct (reachable_inv _ _ _ Hlimits Hnew Hreach) as [(H & _ & _) _].
  pose proof (normalizeResourceRequest_normal _ _ Hwf Hr') as Hn.
  assert (is_ok (canAcquireLocked (sys_ledger s) r') = false) as Hno.
  { destruct (canAcquireLocked (sys_ledger s) r') as [u|] eqn:E; [|done].
    apply (canAcquireLocked_spec _ _ _ _ H Hn) in E.
    apply (request_fits_canEver _ _ _ tt H Hn) in E. congruence. }
  split; [done|]. unfold TryAcquire. rewrite Hr'. cbn.
  by destruct (canAcquireLocked (sys_ledger s) r').
Qed.
End reachable.

(** A concrete run: one SSH Job is admitted, then its lease is released. *)
Module LedgerDemo.
Definition request : ResourceRequest := {|
  req_JobID := "job_a"; req_EndpointIDs := ["ep_src"; "ep_dst"; "ep_src"];
  req_Usage := mkResourceUsage 1 0 2 2 0 8 40 (2 ^ 20) 0 0;
  req_PerEndpointUsage := usage0;
  req_EndpointUsage := Some (list_to_map
    [("ep_src", mkResourceUsage 1 0 1 0 0 0 0 0 0 0);
     ("ep_dst", mkResourceUsage 1 0 1 0 0 0 0 0 0 0)]) |}.

(** Too many connections for any ledger with the hard ceilings. *)
Definition greedy : ResourceRequest := {|
  req_JobID := "job_b"; req_EndpointIDs := ["ep_src"];
  req_Usage := mkResourceUsage 1 0 33 0 0 0 0 0 0 0;
  req_PerEndpointUsage := usage0; req_EndpointUsage := None |}.

Definition empty : ResourceLedger :=
  mkResourceLedger HardResourceCeilings usage0 ∅ ∅ 0 0.

Definition normal : ResourceRequest :=
  match normalizeResourceRequest request with Ok r => r | Err _ => request end.

Definition admitted : system :=
  mkSystem (acquireLocked empty normal) [mkResourceLease normal false] [].

Definition released : system :=
  mkSystem (ledger_release (acquireLocked empty normal) normal)
    [mkResourceLease normal true] [].

Lemma limits_hard : limits_nonneg HardResourceCeilings.
Proof. split_and!; by vm_compute. Defined.

Lemma request_ok : request_wf request.
Proof.
  split_and!; try usage_lia; try done.
  intros e u Hu%elem_of_list_to_map_2.
  repeat (apply elem_of_cons in Hu as [[= -> ->]|Hu]; [cbn; usage_lia|]).
  by apply elem_of_nil in Hu.
Defined.

Lemma greedy_ok : request_wf greedy.
Proof. split_and!; try usage_lia; try done. Defined.

Lemma reach_admitted : rtc ledger_step (mkSystem empty [] []) admitted.
Proof.
  apply rtc_once.
  apply (step_TryAcquire empty [] [] request); [apply request_ok|].
  vm_compute. reflexivity.
Defined.

Lemma reach_released : rtc ledger_step (mkSystem empty [] []) released.
Proof.
  eapply rtc_r; [apply reach_admitted|].
  apply (step_Release _ [] (mkResourceLease normal false) []). reflexivity.
Defined.
End LedgerDemo.

Lemma ledger_accounts_witness :
  led_total (sys_ledger LedgerDemo.admitted) =
    held_total [LedgerDemo.normal] ∧
  MemoryBytes (held_total [LedgerDemo.normal]) = 2 ^ 20.
Proof.
  split; [|reflexivity].
  apply (ledger_accounts HardResourceCeilings LedgerDemo.empty
    LedgerDemo.admitted LedgerDemo.limits_hard).
  - reflexivity.
  - apply LedgerDemo.reach_admitted.
Defined.

Lemma ledger_drains_witness :
  led_perEndpoint (sys_ledger LedgerDemo.released) = ∅.
Proof.
  apply (ledger_drains HardResourceCeilings LedgerDemo.empty
    LedgerDemo.released LedgerDemo.limits_hard).
  - reflexivity.
  - apply LedgerDemo.reach_released.
  - repeat constructor.
Defined.

Lemma refused_never_admitted_witness :
  is_ok (TryAcquire (sys_ledger LedgerDemo.admitted) LedgerDemo.greedy) = false.
Proof.
  eapply (refused_never_admitted HardResourceCeilings LedgerDemo.empty
    LedgerDemo.admitted LedgerDemo.limits_hard eq_refl
    LedgerDemo.reach_admitted LedgerDemo.greedy).
  - apply LedgerDemo.greedy_ok.
  - vm_compute. reflexivity.
  - vm_compute. reflexivity.
Defined.
