(* ===== verification/TokenBucket.v ===== *)
(** The integer token bucket of the bandwidth scheduler
    (src/internal/transfer/scheduler.go, from [bucketCapacity] on).

    A bucket earns [rate] bytes per second up to [capacity]; what it has earned
    of the next byte is kept in [remainder], in units of a nanosecond's share.
    The code works in uint64 with saturation and splits products to stay in
    range; [refill_spec] shows that it computes the exact rational quantity. *)
From S2P Require Import Prelude.

Record integerTokenBucket := mkBucket {
  rate : Z;       (* uint64, bytes per second; 0 is unlimited *)
  capacity : Z;   (* uint64 *)
  tokens : Z;     (* uint64 *)
  remainder : Z;  (* uint64 *)
  last : Time;
}.

#[export] Instance eta_bucket : Settable integerTokenBucket := λ b,
  mkBucket (rate b) (capacity b) (tokens b) (remainder b) (last b).

#[export] Instance integerTokenBucket_eq_dec : EqDecision integerTokenBucket.
Proof. solve_decision. Defined.

Definition saturatingMultiply (left right ceiling : Z) : Z :=
  if (left =? 0) || (right =? 0) then 0
  else if left >? ceiling `div` right then ceiling
  else
    let product := u64 (left * right) in
    if product >? ceiling then ceiling else product.

Definition saturatingAdd (left right ceiling : Z) : Z :=
  if (left >=? ceiling) || (right >=? u64 (ceiling - left)) then ceiling
  else u64 (left + right).

Definition bucketCapacity (_ : Z) (burst : Z) : Z := burst.

Definition initialBucketTokens (rate capacity : Z) : Z :=
  if (rate >? 0) && (rate <? capacity) then rate else capacity.

Definition newIntegerTokenBucket (rate capacity initial : Z) (now : Time) :
    integerTokenBucket :=
  let initial := if initial >? capacity then capacity else initial in
  mkBucket rate capacity initial 0 now.

Definition bucket_update (bucket : integerTokenBucket) (rate' capacity' : Z)
    (now : Time) : integerTokenBucket :=
  let bucket := bucket <| rate := rate' |> <| capacity := capacity' |> in
  let bucket := if tokens bucket >? capacity'
                then bucket <| tokens := capacity' |> else bucket in
  bucket <| last := now |>.

(** [elapsed / time.Second] and [elapsed % time.Second] of a positive
    duration. *)
Definition bucket_refill (bucket : integerTokenBucket) (now : Time) :
    integerTokenBucket :=
  if negb (now >? last bucket) then bucket else
  let elapsed := time_sub now (last bucket) in
  let bucket := bucket <| last := now |> in
  if (rate bucket =? 0) || (tokens bucket >=? capacity bucket)
  then bucket <| remainder := 0 |> else
  let seconds := elapsed `div` Second in
  let nanoseconds := elapsed `mod` Second in
  let room := u64 (capacity bucket - tokens bucket) in
  let added := saturatingMultiply seconds (rate bucket) room in
  let fractional :=
    u64 (u64 ((rate bucket `mod` Second) * nanoseconds) + remainder bucket) in
  let added :=
    saturatingAdd added (u64 ((rate bucket `div` Second) * nanoseconds)) room in
  let added := saturatingAdd added (fractional `div` Second) room in
  let bucket := bucket <| remainder := fractional `mod` Second |> in
  let bucket :=
    bucket <| tokens := saturatingAdd (tokens bucket) added (capacity bucket) |> in
  if tokens bucket =? capacity bucket then bucket <| remainder := 0 |>
  else bucket.

Definition bucket_available (bucket : integerTokenBucket) (bytes : Z) : bool :=
  (rate bucket =? 0) || (tokens bucket >=? bytes).

Definition bucket_consume (bucket : integerTokenBucket) (bytes : Z) :
    integerTokenBucket :=
  if negb (rate bucket =? 0)
  then bucket <| tokens := u64 (tokens bucket - bytes) |> else bucket.

Definition bucket_waitDuration (bucket : integerTokenBucket) (bytes : Z) :
    Duration :=
  if (rate bucket =? 0) || (tokens bucket >=? bytes) then 0 else
  let missing := u64 (bytes - tokens bucket) in
  let numerator := u64 (missing * Second) in
  let numerator := if numerator >? remainder bucket
                   then u64 (numerator - remainder bucket) else 1 in
  let nanoseconds := numerator `div` rate bucket in
  let nanoseconds := if negb (numerator `mod` rate bucket =? 0)
                     then u64 (nanoseconds + 1) else nanoseconds in
  if nanoseconds >? MaxInt64 then MaxInt64 else nanoseconds.

(** * Well-formed buckets

    The bounds are those of [normalizeSchedulerPolicy] and [validateRequest]:
    rates at most [MaxBandwidthBytesPerSecond], bursts at most
    [HardRecoveryBufferBytes]. *)
Definition HardTransferBufferBytes : Z := Z.shiftl 4 20.
Definition HardRecoveryBufferBytes : Z := Z.shiftl 512 10.
Definition TransferScheduleQuantum : Z := Z.shiftl 256 10.
Definition MaxBandwidthBytesPerSecond : Z := Z.shiftl 1 40.

Record bucket_wf (b : integerTokenBucket) : Prop := {
  bw_rate : 0 ≤ rate b ≤ MaxBandwidthBytesPerSecond;
  bw_capacity : 0 ≤ capacity b ≤ HardRecoveryBufferBytes;
  bw_tokens : 0 ≤ tokens b ≤ capacity b;
  bw_remainder : 0 ≤ remainder b < Second;
}.

(** The credit of a bucket in byte-nanoseconds: what it may still grant. *)
Definition credit (b : integerTokenBucket) : Z :=
  tokens b * Second + remainder b.

(** What a bucket has earned at [now], in the same unit. *)
Definition earned (b : integerTokenBucket) (now : Time) : Z :=
  time_sub now (last b) * rate b + remainder b.

Lemma constants :
  Second = 1000000000 ∧ MaxBandwidthBytesPerSecond = 1099511627776 ∧
  HardRecoveryBufferBytes = 524288 ∧ TransferScheduleQuantum = 262144 ∧
  MaxInt64 = 9223372036854775807 ∧ MinInt64 = -9223372036854775808 ∧
  MaxUint64 = 18446744073709551615.
Proof. done. Qed.

(** [bucket_lia]: linear arithmetic with the constants and the bounds. *)
Ltac bucket_lia :=
  pose proof constants as (? & ? & ? & ? & ? & ? & ?); lia.

(** [bucket_unfold] shows the seconds-to-nanoseconds factor to [nia]. *)
Ltac bucket_unfold :=
  change Second with 1000000000 in *.

Lemma saturatingAdd_spec left right ceiling :
  0 ≤ left → 0 ≤ right → 0 ≤ ceiling < 2 ^ 64 →
  saturatingAdd left right ceiling = Z.min (left + right) ceiling.
Proof.
  intros ???. unfold saturatingAdd.
  destruct (Z.geb_spec left ceiling); cbn; [lia|].
  rewrite u64_small by lia.
  destruct (Z.geb_spec right (ceiling - left)); [lia|].
  rewrite u64_small by lia. lia.
Qed.

Lemma saturatingMultiply_spec left right ceiling :
  0 ≤ left → 0 ≤ right → 0 ≤ ceiling < 2 ^ 64 →
  saturatingMultiply left right ceiling = Z.min (left * right) ceiling.
Proof.
  intros ???. unfold saturatingMultiply.
  destruct (Z.eqb_spec left 0); cbn; [lia|].
  destruct (Z.eqb_spec right 0); cbn; [lia|].
  rewrite !Z.gtb_ltb. destruct (Z.ltb_spec (ceiling `div` right) left) as [Hlt|Hge].
  - pose proof (Z.mul_succ_div_gt ceiling right ltac:(lia)). nia.
  - pose proof (Z.mul_div_le ceiling right ltac:(lia)).
    assert (left * right ≤ ceiling) by nia.
    rewrite u64_small by nia.
    destruct (Z.ltb_spec ceiling (left * right)); lia.
Qed.

(** Splitting [elapsed * rate] at the second, as the code does. *)
Lemma earned_split e r m :
  0 ≤ e → 0 ≤ r → 0 ≤ m < Second →
  let s := e `div` Second in let n := e `mod` Second in
  let f := (r `mod` Second) * n + m in
  (e * r + m) `div` Second = s * r + (r `div` Second) * n + f `div` Second ∧
  (e * r + m) `mod` Second = f `mod` Second.
Proof.
  intros He Hr Hm s n f.
  assert (e * r + m = (s * r + (r `div` Second) * n) * Second + f) as ->.
  { pose proof (Z.div_mod e Second ltac:(done)) as E1.
    pose proof (Z.div_mod r Second ltac:(done)) as E2. fold s n in E1.
    unfold f. nia. }
  split; [rewrite Z.div_add_l by done; lia|].
  by rewrite Z.add_comm, Z.mod_add by done.
Qed.

(** * Refilling is exact *)
Lemma bucket_refill_earned b now :
  bucket_wf b → last b < now → 0 < rate b → tokens b < capacity b →
  bucket_refill b now =
  let t := tokens b + earned b now `div` Second in
  if capacity b <=? t
  then mkBucket (rate b) (capacity b) (capacity b) 0 now
  else mkBucket (rate b) (capacity b) t (earned b now `mod` Second) now.
Proof.
  intros [Hr Hc Ht Hm] Hlast Hrate Hroom. unfold bucket_refill, earned.
  rewrite Z.gtb_ltb, (proj2 (Z.ltb_lt _ _)) by done. cbn [negb].
  cbn [over rate capacity tokens remainder last].
  destruct (Z.eqb_spec (rate b) 0) as [?|_]; [lia|].
  destruct (Z.geb_spec (tokens b) (capacity b)) as [?|_]; [lia|]. cbn [orb].
  set (e := time_sub now (last b)).
  assert (0 ≤ e ≤ MaxInt64) as He by (unfold e, time_sub; bucket_lia).
  destruct (earned_split e (rate b) (remainder b)) as [Hdiv Hmod]; [bucket_lia..|].
  rewrite Hdiv, Hmod.
  pose proof (Z.mod_pos_bound e Second ltac:(done)) as Hn.
  pose proof (Z.mod_pos_bound (rate b) Second ltac:(done)) as Hp.
  pose proof (Z.div_pos e Second ltac:(lia) ltac:(done)) as Hs.
  pose proof (Z.div_pos (rate b) Second ltac:(lia) ltac:(done)) as Hq.
  assert (rate b `div` Second ≤ 1099) as Hq'.
  { apply Z.lt_succ_r, Z.div_lt_upper_bound; [done|]. bucket_lia. }
  set (q := rate b `div` Second) in *. set (p := rate b `mod` Second) in *.
  set (n := e `mod` Second) in *. set (s := e `div` Second) in *.
  assert (0 ≤ q * n < 2 ^ 62) by (revert Hn Hq'; bucket_unfold; nia).
  assert (0 ≤ p * n < 2 ^ 62) by (revert Hn Hp; bucket_unfold; nia).
  assert (0 ≤ s * rate b) by nia.
  rewrite (u64_small (q * n)), (u64_small (p * n)) by lia.
  rewrite (u64_small (p * n + _)) by bucket_lia.
  rewrite (u64_small (capacity b - tokens b)) by bucket_lia.
  set (f := p * n + remainder b).
  pose proof (Z.div_pos f Second ltac:(unfold f; lia) ltac:(done)) as Hf.
  set (g := f `div` Second) in *. clearbody f g q p n s e.
  rewrite saturatingMultiply_spec by bucket_lia.
  rewrite (saturatingAdd_spec (Z.min _ _) (q * n)) by bucket_lia.
  rewrite (saturatingAdd_spec (Z.min _ _) g) by bucket_lia.
  rewrite (saturatingAdd_spec (tokens b)) by bucket_lia.
  set (A := s * rate b) in *. set (B := q * n) in *. clearbody A B.
  set (k := capacity b - tokens b).
  assert (Z.min (tokens b + Z.min (Z.min (Z.min A k + B) k + g) k) (capacity b)
    = Z.min (tokens b + (A + B + g)) (capacity b)) as -> by (unfold k; lia).
  cbn [over rate capacity tokens remainder last].
  destruct (Z.leb_spec (capacity b) (tokens b + (A + B + g))).
  - by rewrite Z.min_r, Z.eqb_refl by lia.
  - rewrite Z.min_l by lia. by rewrite (proj2 (Z.eqb_neq _ _)) by lia.
Qed.

Lemma earned_pos b now : bucket_wf b → last b ≤ now → 0 ≤ earned b now.
Proof.
  intros [Hr _ _ Hm] Hl. unfold earned.
  assert (0 ≤ time_sub now (last b)) by (unfold time_sub; bucket_lia). nia.
Qed.

(** Refilling in closed form, in byte-nanoseconds. *)
Definition refill_exact (b : integerTokenBucket) (now : Time) :
    integerTokenBucket :=
  if now <=? last b then b else
  if rate b =? 0 then b <| last := now |> <| remainder := 0 |> else
  let c := tokens b * Second + earned b now in
  if capacity b * Second <=? c
  then mkBucket (rate b) (capacity b) (capacity b) 0 now
  else mkBucket (rate b) (capacity b) (c `div` Second) (c `mod` Second) now.

Lemma refill_exact_ok b now : bucket_wf b → bucket_refill b now = refill_exact b now.
Proof.
  intros Hb. unfold refill_exact. destruct (Z.leb_spec now (last b)) as [Hn|Hn].
  { unfold bucket_refill. rewrite Z.gtb_ltb, (proj2 (Z.ltb_ge _ _)) by lia. done. }
  pose proof (earned_pos b now Hb ltac:(lia)) as He.
  destruct (Z.eqb_spec (rate b) 0) as [Hr|Hr].
  { unfold bucket_refill. rewrite Z.gtb_ltb, (proj2 (Z.ltb_lt _ _)) by lia.
    cbn [over rate negb last]. by rewrite Hr. }
  destruct (Z.leb_spec (capacity b) (tokens b)) as [Hc|Hc].
  - destruct Hb as [?? Ht ?]. rewrite (proj2 (Z.leb_le _ _)) by nia.
    unfold bucket_refill. rewrite Z.gtb_ltb, (proj2 (Z.ltb_lt _ _)) by lia.
    cbn [over rate negb last tokens capacity remainder].
    rewrite (proj2 (Z.geb_le _ _)), orb_true_r by lia.
    by transitivity (mkBucket (rate b) (capacity b) (tokens b) 0 now);
      [done|f_equal; lia].
  - rewrite bucket_refill_earned by (try destruct Hb; done || lia). cbn zeta.
    pose proof (Z.div_mod (earned b now) Second ltac:(done)) as E1.
    pose proof (Z.mod_pos_bound (earned b now) Second ltac:(done)) as E2.
    rewrite (Z.add_comm (_ * _)), Z.div_add, Z.mod_add, (Z.add_comm _ (tokens b))
      by done.
    destruct (Z.leb_spec (capacity b) (tokens b + earned b now `div` Second));
      destruct (Z.leb_spec (capacity b * Second) (earned b now + tokens b * Second));
      try done; bucket_unfold; lia.
Qed.

Lemma bucket_refill_frame b now :
  rate (bucket_refill b now) = rate b ∧
  capacity (bucket_refill b now) = capacity b ∧
  last (bucket_refill b now) = Z.max now (last b).
Proof.
  unfold bucket_refill. rewrite Z.gtb_ltb.
  destruct (Z.ltb_spec (last b) now); cbn; [|lia].
  repeat case_match; cbn; lia.
Qed.

Lemma bucket_refill_wf b now : bucket_wf b → bucket_wf (bucket_refill b now).
Proof.
  intros Hb. rewrite refill_exact_ok by done. unfold refill_exact.
  destruct (Z.leb_spec now (last b)) as [?|?]; [done|].
  pose proof (earned_pos b now Hb ltac:(lia)) as He. destruct Hb as [? ? ? ?].
  destruct (Z.eqb_spec (rate b) 0); [by split; cbn; bucket_unfold; lia|].
  pose proof (Z.div_mod (tokens b * Second + earned b now) Second ltac:(done)).
  pose proof (Z.mod_pos_bound (tokens b * Second + earned b now) Second ltac:(done)).
  destruct (Z.leb_spec (capacity b * Second) (tokens b * Second + earned b now));
    split; cbn; bucket_unfold; bucket_lia.
Qed.

(** A refill adds at most the rate times the elapsed time. *)
Lemma bucket_refill_credit b now :
  bucket_wf b → 0 < rate b →
  credit (bucket_refill b now) ≤ credit b + rate b * Z.max 0 (now - last b).
Proof.
  intros Hb Hr. rewrite refill_exact_ok by done. unfold refill_exact.
  destruct (Z.leb_spec now (last b)) as [?|?]; [lia|].
  rewrite (proj2 (Z.eqb_neq _ _)) by lia.
  assert (earned b now ≤ rate b * (now - last b) + remainder b) as He.
  { unfold earned, time_sub. destruct constants as (_&_&_&_&?&?&_).
    assert (MinInt64 `max` (MaxInt64 `min` (now - last b)) ≤ now - last b) by lia.
    nia. }
  pose proof (Z.div_mod (tokens b * Second + earned b now) Second ltac:(done)).
  destruct (Z.leb_spec (capacity b * Second) (tokens b * Second + earned b now));
    unfold credit; cbn; bucket_unfold; lia.
Qed.

(** A refill never takes tokens away. *)
Lemma bucket_refill_tokens b now :
  bucket_wf b → tokens b ≤ tokens (bucket_refill b now).
Proof.
  intros Hb. rewrite refill_exact_ok by done. unfold refill_exact.
  destruct (Z.leb_spec now (last b)) as [?|?]; [done|].
  pose proof (earned_pos b now Hb ltac:(lia)). destruct Hb.
  destruct (Z.eqb_spec (rate b) 0); [done|].
  destruct (Z.leb_spec (capacity b * Second) (tokens b * Second + earned b now));
    cbn; [lia|].
  rewrite Z.add_comm, Z.div_add by done.
  pose proof (Z.div_pos (earned b now) Second). bucket_unfold. lia.
Qed.

Lemma bucket_consume_wf b bytes :
  bucket_wf b → 0 ≤ bytes → bucket_available b bytes = true →
  bucket_wf (bucket_consume b bytes).
Proof.
  intros [????] Hb. unfold bucket_available, bucket_consume.
  destruct (Z.eqb_spec (rate b) 0); cbn [negb orb]; [done|]. rewrite Z.geb_le. intros ?.
  split; cbn; rewrite ?u64_small; bucket_lia.
Qed.

Lemma bucket_consume_credit b bytes :
  bucket_wf b → 0 ≤ bytes → bucket_available b bytes = true → 0 < rate b →
  credit (bucket_consume b bytes) = credit b - bytes * Second.
Proof.
  intros [????] Hb. unfold bucket_available, bucket_consume, credit.
  destruct (Z.eqb_spec (rate b) 0); cbn [negb orb]; [lia|].
  rewrite Z.geb_le. intros ??. cbn. rewrite u64_small; bucket_lia.
Qed.

Lemma bucket_update_wf b r c now :
  bucket_wf b → 0 ≤ r ≤ MaxBandwidthBytesPerSecond →
  0 ≤ c ≤ HardRecoveryBufferBytes → bucket_wf (bucket_update b r c now).
Proof.
  intros [????] ??. unfold bucket_update. rewrite Z.gtb_ltb. cbn.
  destruct (Z.ltb_spec c (tokens b)); split; cbn; bucket_lia.
Qed.

Lemma newIntegerTokenBucket_wf r c i now :
  0 ≤ r ≤ MaxBandwidthBytesPerSecond → 0 ≤ c ≤ HardRecoveryBufferBytes →
  0 ≤ i → bucket_wf (newIntegerTokenBucket r c i now).
Proof.
  intros ???. unfold newIntegerTokenBucket. rewrite Z.gtb_ltb. bucket_unfold.
  destruct (Z.ltb_spec c i); split; cbn; bucket_unfold; bucket_lia.
Qed.

Lemma initialBucketTokens_range r c :
  0 ≤ r → 0 ≤ c → 0 ≤ initialBucketTokens r c ≤ c.
Proof.
  intros. unfold initialBucketTokens. rewrite Z.gtb_ltb.
  destruct (Z.ltb_spec 0 r), (Z.ltb_spec r c); cbn; lia.
Qed.

(** * Refills compose

    How often a waiter polls does not change what a bucket grants: two refills
    are one refill at the later time. *)

(** refilling a bucket at [t1] and again at [t2] leaves exactly the bucket
    that one refill at [t2] leaves, as long as the whole span fits a
    [time.Duration]: no fraction of a byte is lost or gained by polling. *)
Theorem refill_compose b t1 t2 :
  bucket_wf b → last b ≤ t1 ≤ t2 → t2 - last b ≤ MaxInt64 →
  bucket_refill (bucket_refill b t1) t2 = bucket_refill b t2.
Proof.
  intros Hb Ht Hm. rewrite !refill_exact_ok by auto using bucket_refill_wf.
  unfold refill_exact at 2.
  destruct (Z.leb_spec t1 (last b)) as [?|?]; [done|].
  assert (∀ u v, 0 ≤ u - v ≤ MaxInt64 → time_sub u v = u - v) as Hsub
    by (unfold time_sub; intros; bucket_lia).
  pose proof (earned_pos b t1 Hb ltac:(lia)) as He1.
  pose proof (earned_pos b t2 Hb ltac:(lia)) as He2.
  assert (earned b t2 = earned b t1 + (t2 - t1) * rate b) as HE
    by (unfold earned; rewrite !Hsub by lia; lia).
  destruct Hb as [Hr Hc Htk Hrm]. unfold refill_exact.
  rewrite (proj2 (Z.leb_gt t2 (last b))) by lia.
  destruct (Z.eqb_spec (rate b) 0) as [Hz|Hz].
  { cbn. rewrite Hz, Z.eqb_refl. destruct (Z.leb_spec t2 t1); [|done].
    by replace t2 with t1 by lia. }
  assert (0 ≤ (t2 - t1) * rate b) by nia.
  set (c1 := tokens b * Second + earned b t1) in *.
  destruct (Z.leb_spec (capacity b * Second) c1) as [Hfull|Hfull]; cbn.
  - rewrite (proj2 (Z.leb_le (capacity b * Second) (tokens b * Second + _)))
      by (unfold c1 in *; lia).
    destruct (Z.leb_spec t2 t1); [by replace t2 with t1 by lia|].
    rewrite (proj2 (Z.eqb_neq _ _)) by done. cbn [capacity tokens rate].
    rewrite (proj2 (Z.leb_le _ _)); [done|].
    unfold earned; cbn. rewrite Hsub by lia. nia.
  - pose proof (Z.div_mod c1 Second ltac:(done)) as Hd.
    pose proof (Z.mod_pos_bound c1 Second ltac:(done)) as Hmb.
    destruct (Z.leb_spec t2 t1).
    { replace t2 with t1 by lia. fold c1.
      by rewrite (proj2 (Z.leb_gt _ _)) by done. }
    rewrite (proj2 (Z.eqb_neq _ _)) by done. cbn [capacity tokens rate].
    assert (c1 `div` Second * Second +
      earned (mkBucket (rate b) (capacity b) (c1 `div` Second) (c1 `mod` Second) t1) t2
      = tokens b * Second + earned b t2) as ->; [|done].
    unfold earned at 1; cbn. rewrite Hsub by lia. unfold c1 in *. lia.
Qed.

Example refill_compose_witness :
  let b := mkBucket 3 10 2 500000000 7 in
  bucket_wf b ∧ bucket_refill (bucket_refill b 400000007) 900000007
              = bucket_refill b 900000007.
Proof.
  split; [by split; vm_compute; intuition congruence|].
  apply refill_compose; [by split; vm_compute; intuition congruence|..];
    vm_compute; intuition congruence.
Defined.

(** * Waiting is exact *)

(** the timer a waiter sets is exactly right.  While a bucket lacks tokens
    for a request that fits its capacity, the request becomes available at
    [now] if and only if at least [waitDuration] has passed since the last
    refill: a waiter woken by its timer succeeds, and no earlier wake-up
    would have. *)
Theorem waitDuration_exact b bytes now :
  bucket_wf b → rate b ≠ 0 → tokens b < bytes ≤ capacity b →
  last b ≤ now ≤ last b + MaxInt64 →
  bucket_available (bucket_refill b now) bytes = true ↔
  bucket_waitDuration b bytes ≤ now - last b.
Proof.
  intros Hb Hr Hbytes Hnow. rewrite refill_exact_ok by done.
  pose proof (earned_pos b now Hb ltac:(lia)) as He. destruct Hb as [Hrb Hc Ht Hm].
  assert (time_sub now (last b) = now - last b) as Hsub
    by (unfold time_sub; bucket_lia).
  pose proof constants as (HS & _).
  set (need := (bytes - tokens b) * Second - remainder b).
  assert (0 < need < 2 ^ 60) as Hneed
    by (unfold need; bucket_unfold; bucket_lia).
  assert (bucket_waitDuration b bytes =
          need `div` rate b + (if need `mod` rate b =? 0 then 0 else 1)) as ->.
  { unfold bucket_waitDuration. rewrite (proj2 (Z.eqb_neq _ _)) by done.
    rewrite Z.geb_leb, (proj2 (Z.leb_gt _ _)) by lia. cbn [orb].
    rewrite (u64_small (bytes - _)) by bucket_lia.
    rewrite (u64_small (_ * _)) by (bucket_unfold; bucket_lia).
    rewrite !Z.gtb_ltb, (proj2 (Z.ltb_lt (remainder b) _))
      by (unfold need in *; lia).
    fold need. rewrite (u64_small need) by (unfold need in *; lia).
    pose proof (Z.div_pos need (rate b) ltac:(lia) ltac:(lia)).
    assert (need `div` rate b ≤ need) by (apply Z.div_le_upper_bound; nia).
    destruct (need `mod` rate b =? 0); cbn [negb]; rewrite ?u64_small by lia.
    all: rewrite (proj2 (Z.ltb_ge MaxInt64 _)) by bucket_lia; lia. }
  trans (need ≤ rate b * (now - last b)).
  - unfold refill_exact.
    destruct (Z.leb_spec now (last b)) as [Hl|Hl].
    { unfold bucket_available. rewrite orb_true_iff, Z.eqb_eq, Z.geb_le.
      replace (now - last b) with 0 by lia. lia. }
    rewrite (proj2 (Z.eqb_neq _ _)) by done.
    set (c := tokens b * Second + earned b now).
    assert (need ≤ rate b * (now - last b) ↔ bytes * Second ≤ c) as ->
      by (unfold need, c, earned; rewrite Hsub; lia).
    destruct (Z.leb_spec (capacity b * Second) c) as [Hf|Hf];
      unfold bucket_available; cbn;
      rewrite orb_true_iff, Z.eqb_eq, Z.geb_le; bucket_unfold; [lia|].
    pose proof (Z.div_mod c 1000000000 ltac:(done)).
    pose proof (Z.mod_pos_bound c 1000000000 ltac:(done)). lia.
  - pose proof (Z.div_mod need (rate b) ltac:(lia)) as Hd.
    pose proof (Z.mod_pos_bound need (rate b) ltac:(lia)) as Hmb.
    destruct (Z.eqb_spec (need `mod` rate b) 0); nia.
Qed.

Example waitDuration_exact_witness :
  let b := mkBucket 3 10 2 500000000 7 in
  bucket_waitDuration b 4 = 500000000 ∧
  (bucket_available (bucket_refill b 500000007) 4 = true ↔
   bucket_waitDuration b 4 ≤ 500000007 - last b).
Proof.
  split; [reflexivity|].
  apply waitDuration_exact; [by split; vm_compute; intuition congruence|..];
    vm_compute; intuition congruence.
Defined.
