(* ===== verification/Bandwidth.v ===== *)
(** Requests for bandwidth (src/internal/transfer/scheduler.go): what a transfer
    asks of the scheduler before it sends or receives a packet. *)
From S2P Require Import Prelude.

Definition ScheduleInteractive : string := "interactive".
Definition ScheduleBulk : string := "bulk".

Record BandwidthRequest := mkRequest {
  JobID : string;
  EndpointID : string;
  PeerEndpointID : string;
  JobBytesPerSecond : Z;  (* uint64 *)
  Class : string;
  Bytes : Z;              (* uint32 *)
}.

#[export] Instance BandwidthRequest_eq_dec : EqDecision BandwidthRequest.
Proof. solve_decision. Defined.
