(* ===== verification/Scheduler.v ===== *)
(** The bandwidth scheduler (src/internal/transfer/scheduler.go).

    A [TransferScheduler] grants byte quanta to waiting packets.  A request is
    charged to the global bucket, to its job's bucket and to the bucket of each
    distinct endpoint it names; two FIFO queues, one per class, share the
    grants by a weighted cycle.

    The mutex makes every locked region one step.  [Wait] is therefore split
    at its lock boundaries: [Wait_enter] (up to the enqueue), [Wait_poll] (one
    turn of the loop) and [Wait_cancel] (the context ends).  Waiters are
    compared by pointer in the code; here they carry an identity [wid].

    The injected clock is the argument [Now]: [Now n] is its [n]-th reading,
    and the state counts the readings taken ([reads]).  Nothing is assumed of
    the clock: the theorems hold for clocks that jump. *)
From S2P Require Import Prelude ResourceLedger TokenBucket Bandwidth.

Definition DefaultInteractiveWeight : Z := 4.
Definition DefaultBulkWeight : Z := 1.

Record SchedulerPolicy := mkPolicy {
  GlobalBytesPerSecond : Z;    (* uint64 *)
  EndpointBytesPerSecond : Z;  (* uint64 *)
  PolicyJobBytesPerSecond : Z; (* uint64, JobBytesPerSecond *)
  BurstBytes : Z;              (* uint64 *)
  QuantumBytes : Z;            (* uint32 *)
  InteractiveWeight : Z;       (* uint8 *)
  BulkWeight : Z;              (* uint8 *)
}.
#[export] Instance eta_policy : Settable SchedulerPolicy := λ p,
  mkPolicy (GlobalBytesPerSecond p) (EndpointBytesPerSecond p)
    (PolicyJobBytesPerSecond p) (BurstBytes p) (QuantumBytes p)
    (InteractiveWeight p) (BulkWeight p).

Record bandwidthWaiter := mkWaiter {
  wid : nat;
  request : BandwidthRequest;
}.
#[export] Instance bandwidthWaiter_eq_dec : EqDecision bandwidthWaiter.
Proof. solve_decision. Defined.

Record TransferScheduler := mkScheduler {
  policy : SchedulerPolicy;
  global : integerTokenBucket;
  endpoints : gmap string integerTokenBucket;
  jobs : gmap string integerTokenBucket;
  jobRates : gmap string Z;
  jobEndpoints : gmap string (list string);
  resources : ResourceLedger;
  interactive : list bandwidthWaiter;
  bulk : list bandwidthWaiter;
  cycle : list string;
  cycleIndex : nat;
  wake : nat;             (* generation of the wake channel *)
  grantedBytes : Z;       (* uint64 *)
  reads : nat;            (* readings of the clock so far *)
}.
#[export] Instance eta_scheduler : Settable TransferScheduler := λ s,
  mkScheduler (policy s) (global s) (endpoints s) (jobs s) (jobRates s)
    (jobEndpoints s) (resources s) (interactive s) (bulk s) (cycle s)
    (cycleIndex s) (wake s) (grantedBytes s) (reads s).

Record SchedulerSnapshot := mkSchedulerSnapshot {
  Waiters : Z;
  GrantedBytes : Z;
  Policy : SchedulerPolicy;
  Resources : ResourceSnapshot;
}.

(** One constructor per error message of the file. *)
Inductive SchedulerError :=
| ErrQuantumAboveCeiling (q : Z)
| ErrBurstAboveCeiling (b : Z)
| ErrBurstBelowQuantum (b q : Z)
| ErrRateAboveCeiling
| ErrWeightsAboveCeiling
| ErrResources (e : LedgerError)
| ErrBytesNotPositive
| ErrRequestAboveQuantum (b q : Z)
| ErrJobIDRequired
| ErrJobRateAboveCeiling (r : Z)
| ErrUnsupportedClass (c : string)
| ErrSchedulerUpdateStrandsWaiter (job : string) (queued burst : Z).

Definition normalizeSchedulerPolicy (policy : SchedulerPolicy) :
    result SchedulerError SchedulerPolicy :=
  let policy := if QuantumBytes policy =? 0
    then policy <| QuantumBytes := TransferScheduleQuantum |> else policy in
  if QuantumBytes policy >? TransferScheduleQuantum
  then Err (ErrQuantumAboveCeiling (QuantumBytes policy)) else
  let policy := if BurstBytes policy =? 0
    then policy <| BurstBytes := QuantumBytes policy |> else policy in
  if BurstBytes policy >? HardRecoveryBufferBytes
  then Err (ErrBurstAboveCeiling (BurstBytes policy)) else
  if BurstBytes policy <? QuantumBytes policy
  then Err (ErrBurstBelowQuantum (BurstBytes policy) (QuantumBytes policy)) else
  if (GlobalBytesPerSecond policy >? MaxBandwidthBytesPerSecond) ||
     (EndpointBytesPerSecond policy >? MaxBandwidthBytesPerSecond) ||
     (PolicyJobBytesPerSecond policy >? MaxBandwidthBytesPerSecond)
  then Err ErrRateAboveCeiling else
  let policy := if InteractiveWeight policy =? 0
    then policy <| InteractiveWeight := DefaultInteractiveWeight |> else policy in
  let policy := if BulkWeight policy =? 0
    then policy <| BulkWeight := DefaultBulkWeight |> else policy in
  if (InteractiveWeight policy >? 16) || (BulkWeight policy >? 16)
  then Err ErrWeightsAboveCeiling else
  Ok policy.

Definition uniqueEndpointIDs (request : BandwidthRequest) : list string :=
  let endpointIDs := [] in
  let endpointIDs := if bool_decide (EndpointID request ≠ "")
    then endpointIDs ++ [EndpointID request] else endpointIDs in
  if bool_decide (PeerEndpointID request ≠ "") &&
     bool_decide (PeerEndpointID request ≠ EndpointID request)
  then endpointIDs ++ [PeerEndpointID request] else endpointIDs.

Definition validateRequest (scheduler : TransferScheduler)
    (request : BandwidthRequest) : result SchedulerError () :=
  let quantum := QuantumBytes (policy scheduler) in
  if Bytes request =? 0 then Err ErrBytesNotPositive else
  if Bytes request >? quantum
  then Err (ErrRequestAboveQuantum (Bytes request) quantum) else
  if bool_decide (JobID request = "") then Err ErrJobIDRequired else
  if JobBytesPerSecond request >? MaxBandwidthBytesPerSecond
  then Err (ErrJobRateAboveCeiling (JobBytesPerSecond request)) else
  if bool_decide (Class request ≠ ScheduleInteractive) &&
     bool_decide (Class request ≠ ScheduleBulk)
  then Err (ErrUnsupportedClass (Class request)) else
  Ok tt.

Definition broadcastLocked (s : TransferScheduler) : TransferScheduler :=
  s <| wake := S (wake s) |>.

(** The two loops appending [ScheduleInteractive] and [ScheduleBulk]. *)
Definition rebuildCycle (s : TransferScheduler) : TransferScheduler :=
  let s := s <| cycle :=
    replicate (Z.to_nat (InteractiveWeight (policy s))) ScheduleInteractive ++
    replicate (Z.to_nat (BulkWeight (policy s))) ScheduleBulk |> in
  if bool_decide (length (cycle s) ≤ cycleIndex s)%nat
  then s <| cycleIndex := O |> else s.

Definition queue (s : TransferScheduler) (class : string) : list bandwidthWaiter :=
  if bool_decide (class = ScheduleInteractive) then interactive s else bulk s.

Definition enqueue (s : TransferScheduler) (waiter : bandwidthWaiter) :
    TransferScheduler :=
  if bool_decide (Class (request waiter) = ScheduleInteractive)
  then s <| interactive := interactive s ++ [waiter] |>
  else s <| bulk := bulk s ++ [waiter] |>.

(** [removeWaiter queue target] deletes the first entry that is [target]; the
    result says whether there was one. *)
Fixpoint removeWaiter (queue : list bandwidthWaiter) (target : nat) :
    option (list bandwidthWaiter) :=
  match queue with
  | [] => None
  | waiter :: rest =>
    if bool_decide (wid waiter = target) then Some rest
    else cons waiter <$> removeWaiter rest target
  end.

Definition remove (s : TransferScheduler) (waiter : nat) : TransferScheduler :=
  match removeWaiter (interactive s) waiter with
  | Some q => broadcastLocked (s <| interactive := q |>)
  | None =>
    match removeWaiter (bulk s) waiter with
    | Some q => broadcastLocked (s <| bulk := q |>)
    | None => s
    end
  end.

Definition dequeueSelectedLocked (s : TransferScheduler) : TransferScheduler :=
  let class := default "" (cycle s !! cycleIndex s) in
  let s := if bool_decide (class = ScheduleInteractive)
    then s <| interactive := tail (interactive s) |>
    else s <| bulk := tail (bulk s) |> in
  s <| cycleIndex := (S (cycleIndex s) `mod` length (cycle s))%nat |>.

Definition isClassHeadLocked (s : TransferScheduler) (waiter : bandwidthWaiter) :
    bool :=
  match queue s (Class (request waiter)) with
  | w :: _ => bool_decide (wid w = wid waiter)
  | [] => false
  end.

Definition refillLocked (s : TransferScheduler) (now : Time) : TransferScheduler :=
  s <| global := bucket_refill (global s) now |>
    <| endpoints := (λ b, bucket_refill b now) <$> endpoints s |>
    <| jobs := (λ b, bucket_refill b now) <$> jobs s |>.

Definition rememberJobEndpointsLocked (s : TransferScheduler)
    (request : BandwidthRequest) : TransferScheduler :=
  let known := default [] (jobEndpoints s !! JobID request) in
  let known := foldl (λ known endpointID,
    if bool_decide (endpointID ∈ known) then known else known ++ [endpointID])
    known (uniqueEndpointIDs request) in
  s <| jobEndpoints := <[JobID request := known]> (jobEndpoints s) |>.

Definition hasWaiterForJobLocked (s : TransferScheduler) (jobID : string) : bool :=
  existsb (λ w, bool_decide (JobID (request w) = jobID)) (interactive s) ||
  existsb (λ w, bool_decide (JobID (request w) = jobID)) (bulk s).

Definition endpointReferencedLocked (s : TransferScheduler) (endpointID : string) :
    bool :=
  existsb (λ '(_, known), bool_decide (endpointID ∈ known))
    (map_to_list (jobEndpoints s)).

(** The effective rate of a job: its own, or the policy's when it has none. *)
Definition effectiveJobRate (p : SchedulerPolicy) (rate : Z) : Z :=
  if rate =? 0 then PolicyJobBytesPerSecond p else rate.

Section WithClock.
Context (Now : nat → Time).

Definition clock_Now (s : TransferScheduler) : Time * TransferScheduler :=
  (Now (reads s), s <| reads := S (reads s) |>).

(** The bucket accessors return the bucket and the scheduler in which it
    exists: a missing bucket is created. *)
Definition endpointBucketLocked (s : TransferScheduler) (endpointID : string) :
    integerTokenBucket * TransferScheduler :=
  match endpoints s !! endpointID with
  | Some bucket => (bucket, s)
  | None =>
    let '(now, s) := clock_Now s in
    let rate := EndpointBytesPerSecond (policy s) in
    let capacity := bucketCapacity rate (BurstBytes (policy s)) in
    let initial := initialBucketTokens rate capacity in
    let bucket := newIntegerTokenBucket rate capacity initial now in
    (bucket, s <| endpoints := <[endpointID := bucket]> (endpoints s) |>)
  end.

Definition jobBucketLocked (s : TransferScheduler) (request : BandwidthRequest) :
    integerTokenBucket * TransferScheduler :=
  let s := rememberJobEndpointsLocked s request in
  match jobs s !! JobID request with
  | Some bucket => (bucket, s)
  | None =>
    let '(now, s) := clock_Now s in
    let rate := effectiveJobRate (policy s) (JobBytesPerSecond request) in
    let capacity := bucketCapacity rate (BurstBytes (policy s)) in
    let bucket :=
      newIntegerTokenBucket rate capacity (initialBucketTokens rate capacity) now in
    (bucket,
     s <| jobs := <[JobID request := bucket]> (jobs s) |>
       <| jobRates := <[JobID request := JobBytesPerSecond request]> (jobRates s) |>)
  end.

(** The loop over the endpoints of [canGrantLocked]. *)
Fixpoint endpointsAvailable (s : TransferScheduler) (ids : list string)
    (bytes : Z) : bool * TransferScheduler :=
  match ids with
  | [] => (true, s)
  | endpointID :: ids =>
    let '(bucket, s) := endpointBucketLocked s endpointID in
    if negb (bucket_available bucket bytes) then (false, s)
    else endpointsAvailable s ids bytes
  end.

Definition canGrantLocked (s : TransferScheduler) (request : BandwidthRequest) :
    bool * TransferScheduler :=
  let bytes := Bytes request in
  if negb (bucket_available (global s) bytes) then (false, s) else
  let '(job, s) := jobBucketLocked s request in
  if negb (bucket_available job bytes) then (false, s) else
  endpointsAvailable s (uniqueEndpointIDs request) bytes.

(** The loop over the endpoints of [consumeLocked]. *)
Fixpoint endpointsConsume (s : TransferScheduler) (ids : list string)
    (bytes : Z) : TransferScheduler :=
  match ids with
  | [] => s
  | endpointID :: ids =>
    let '(bucket, s) := endpointBucketLocked s endpointID in
    endpointsConsume
      (s <| endpoints := <[endpointID := bucket_consume bucket bytes]> (endpoints s) |>)
      ids bytes
  end.

Definition consumeLocked (s : TransferScheduler) (request : BandwidthRequest) :
    TransferScheduler :=
  let bytes := Bytes request in
  let s := s <| global := bucket_consume (global s) bytes |> in
  let s := endpointsConsume s (uniqueEndpointIDs request) bytes in
  let '(job, s) := jobBucketLocked s request in
  s <| jobs := <[JobID request := bucket_consume job bytes]> (jobs s) |>.

Fixpoint endpointsWait (s : TransferScheduler) (ids : list string) (bytes : Z)
    (waitFor : Duration) : Duration * TransferScheduler :=
  match ids with
  | [] => (waitFor, s)
  | endpointID :: ids =>
    let '(bucket, s) := endpointBucketLocked s endpointID in
    let endpointWait := bucket_waitDuration bucket bytes in
    endpointsWait s ids bytes
      (if endpointWait >? waitFor then endpointWait else waitFor)
  end.

Definition waitDurationLocked (s : TransferScheduler) (request : BandwidthRequest) :
    Duration * TransferScheduler :=
  let bytes := Bytes request in
  let waitFor := bucket_waitDuration (global s) bytes in
  let '(waitFor, s) := endpointsWait s (uniqueEndpointIDs request) bytes waitFor in
  let '(job, s) := jobBucketLocked s request in
  let jobWait := bucket_waitDuration job bytes in
  let waitFor := if jobWait >? waitFor then jobWait else waitFor in
  (if waitFor <=? 0 then Nanosecond else waitFor, s).

(** [selectFrom s attempts n] is the loop of [selectedLocked] with [n] turns
    left. *)
Fixpoint selectFrom (s : TransferScheduler) (attempts n : nat) :
    option bandwidthWaiter * TransferScheduler :=
  match n with
  | O => (None, s)
  | S n =>
    let index := ((cycleIndex s + attempts) `mod` length (cycle s))%nat in
    let class := default "" (cycle s !! index) in
    match queue s class with
    | head :: _ =>
      let '(ok, s) := canGrantLocked s (request head) in
      if ok : bool then (Some head, s <| cycleIndex := index |>)
      else selectFrom s (S attempts) n
    | [] => selectFrom s (S attempts) n
    end
  end.

Definition selectedLocked (s : TransferScheduler) :
    option bandwidthWaiter * TransferScheduler :=
  selectFrom s 0 (length (cycle s)).

(** [for cycle[cycleIndex] != class { cycleIndex = (cycleIndex + 1) % len }]:
    [n] bounds the turns; [skipTo_class] shows that the length of the cycle is
    enough. *)
Fixpoint skipTo (cyc : list string) (index : nat) (class : string) (n : nat) : nat :=
  match n with
  | O => index
  | S n =>
    if bool_decide (cyc !! index = Some class) then index
    else skipTo cyc (S index `mod` length cyc)%nat class n
  end.

Inductive wait_state :=
| WaitGranted
| WaitQueued (waiter : bandwidthWaiter).

Definition noWaiters (s : TransferScheduler) : bool :=
  bool_decide (interactive s = []) && bool_decide (bulk s = []).

Definition grantFast (s : TransferScheduler) (request : BandwidthRequest) :
    TransferScheduler :=
  let s := consumeLocked s request in
  let index := skipTo (cycle s) (cycleIndex s) (Class request) (length (cycle s)) in
  s <| cycleIndex := (S index `mod` length (cycle s))%nat |>
    <| grantedBytes := u64 (grantedBytes s + Bytes request) |>.

Definition enqueueNew (s : TransferScheduler) (fresh : nat)
    (request : BandwidthRequest) : wait_state * TransferScheduler :=
  let waiter := mkWaiter fresh request in
  (WaitQueued waiter, broadcastLocked (enqueue s waiter)).

(** [Wait] up to the end of its first locked region; [fresh] is the identity
    of the waiter it may allocate. *)
Definition Wait_enter (s : TransferScheduler) (fresh : nat)
    (request : BandwidthRequest) :
    result SchedulerError (wait_state * TransferScheduler) :=
  _ ← validateRequest s request;
  if noWaiters s then
    let '(now, s) := clock_Now s in
    let s := refillLocked s now in
    let '(ok, s) := canGrantLocked s request in
    if ok : bool then Ok (WaitGranted, grantFast s request)
    else Ok (enqueueNew s fresh request)
  else Ok (enqueueNew s fresh request).

Inductive poll_result :=
| PollGranted
| PollBlocked (waitFor : Duration).

(** One turn of the loop of [Wait], for a context that is not done: the
    waiter is granted, or it sleeps on the wake channel and a timer. *)
Definition Wait_poll (s : TransferScheduler) (waiter : bandwidthWaiter) :
    poll_result * TransferScheduler :=
  let '(now, s) := clock_Now s in
  let s := refillLocked s now in
  let '(selected, s) := selectedLocked s in
  if bool_decide (wid <$> selected = Some (wid waiter)) then
    let s := consumeLocked s (request waiter) in
    let s := dequeueSelectedLocked s in
    let s := s <| grantedBytes := u64 (grantedBytes s + Bytes (request waiter)) |> in
    (PollGranted, broadcastLocked s)
  else if bool_decide (selected = None) && isClassHeadLocked s waiter then
    let '(waitFor, s) := waitDurationLocked s (request waiter) in
    (PollBlocked waitFor, s)
  else (PollBlocked Hour, s).

Definition Wait_cancel (s : TransferScheduler) (waiter : bandwidthWaiter) :
    TransferScheduler :=
  remove s (wid waiter).

(** The check of one queued waiter in [Update]. *)
Definition updateStrands (normalized : SchedulerPolicy) (waiter : bandwidthWaiter) :
    result SchedulerError () :=
  let request := request waiter in
  if Bytes request <=? BurstBytes normalized then Ok tt else
  let jobRate := effectiveJobRate normalized (JobBytesPerSecond request) in
  if negb (GlobalBytesPerSecond normalized =? 0) ||
     (negb (EndpointBytesPerSecond normalized =? 0) &&
      negb (bool_decide (length (uniqueEndpointIDs request) = O))) ||
     negb (jobRate =? 0)
  then Err (ErrSchedulerUpdateStrandsWaiter (JobID request) (Bytes request)
              (BurstBytes normalized))
  else Ok tt.

Definition Update (s : TransferScheduler) (policy : SchedulerPolicy) :
    result SchedulerError TransferScheduler :=
  normalized ← normalizeSchedulerPolicy policy;
  _ ← each (updateStrands normalized) (interactive s ++ bulk s);
  let '(now, s) := clock_Now s in
  let s := refillLocked s now in
  let s := s <| global := bucket_update (global s)
                  (GlobalBytesPerSecond normalized) (BurstBytes normalized) now |> in
  let erate := EndpointBytesPerSecond normalized in
  let s := s <| endpoints := (λ b, bucket_update b erate
                  (bucketCapacity erate (BurstBytes normalized)) now) <$> endpoints s |> in
  let s := s <| jobs := map_imap (λ jobID b,
      let rate := effectiveJobRate normalized (default 0 (jobRates s !! jobID)) in
      Some (bucket_update b rate (bucketCapacity rate (BurstBytes normalized)) now))
      (jobs s) |> in
  let s := s <| Scheduler.policy := normalized |> in
  Ok (broadcastLocked (rebuildCycle s)).

Definition ReleaseJob (s : TransferScheduler) (jobID : string) : TransferScheduler :=
  if bool_decide (jobID = "") then s else
  if hasWaiterForJobLocked s jobID then s else
  let released := default [] (jobEndpoints s !! jobID) in
  let s := s <| jobs := delete jobID (jobs s) |>
             <| jobRates := delete jobID (jobRates s) |>
             <| jobEndpoints := delete jobID (jobEndpoints s) |> in
  foldl (λ s endpointID,
    if endpointReferencedLocked s endpointID then s
    else s <| endpoints := delete endpointID (endpoints s) |>) s released.

Definition Scheduler_Snapshot (s : TransferScheduler) : SchedulerSnapshot :=
  mkSchedulerSnapshot (Z.of_nat (length (interactive s) + length (bulk s)))
    (grantedBytes s) (policy s) (Ledger_Snapshot (resources s)).

Definition AllowsReadAhead (s : TransferScheduler) (request : BandwidthRequest) : bool :=
  let jobRate := effectiveJobRate (policy s) (JobBytesPerSecond request) in
  (GlobalBytesPerSecond (policy s) =? 0) &&
  (EndpointBytesPerSecond (policy s) =? 0) && (jobRate =? 0).

Definition NewTransferSchedulerWithLimits (policy : SchedulerPolicy)
    (limits : ResourceLimits) : result SchedulerError TransferScheduler :=
  normalized ← normalizeSchedulerPolicy policy;
  resources ← map_err ErrResources (NewResourceLedger limits);
  let now := Now 0 in
  Ok (rebuildCycle (mkScheduler normalized
    (newIntegerTokenBucket (GlobalBytesPerSecond normalized)
       (BurstBytes normalized) (BurstBytes normalized) now)
    ∅ ∅ ∅ ∅ resources [] [] [] 0 0 0 1)).

Definition NewTransferScheduler (policy : SchedulerPolicy) :
    result SchedulerError TransferScheduler :=
  NewTransferSchedulerWithLimits policy HardResourceCeilings.

End WithClock.
