(* ===== verification/SchedulerFacts.v ===== *)
(** Theorems of the bandwidth scheduler: its invariant, the bandwidth bound,
    the sufficiency of the timers it sets and the fairness of its cycle. *)
From S2P Require Import Prelude ResourceLedger TokenBucket.
From S2P Require Import Bandwidth Scheduler.

(** * Policies *)
Record policy_typed (p : SchedulerPolicy) : Prop := {
  pt_global : in_u64 (GlobalBytesPerSecond p);
  pt_endpoint : in_u64 (EndpointBytesPerSecond p);
  pt_job : in_u64 (PolicyJobBytesPerSecond p);
  pt_burst : in_u64 (BurstBytes p);
  pt_quantum : in_u32 (QuantumBytes p);
  pt_interactive : 0 ≤ InteractiveWeight p < 2 ^ 8;
  pt_bulk : 0 ≤ BulkWeight p < 2 ^ 8;
}.

Record policy_ok (p : SchedulerPolicy) : Prop := {
  po_global : 0 ≤ GlobalBytesPerSecond p ≤ MaxBandwidthBytesPerSecond;
  po_endpoint : 0 ≤ EndpointBytesPerSecond p ≤ MaxBandwidthBytesPerSecond;
  po_job : 0 ≤ PolicyJobBytesPerSecond p ≤ MaxBandwidthBytesPerSecond;
  po_quantum : 0 < QuantumBytes p ≤ TransferScheduleQuantum;
  po_burst : QuantumBytes p ≤ BurstBytes p ≤ HardRecoveryBufferBytes;
  po_interactive : 0 < InteractiveWeight p ≤ 16;
  po_bulk : 0 < BulkWeight p ≤ 16;
}.

Ltac policy_tac :=
  repeat match goal with
  | |- context [if ?b then _ else _] => destruct b eqn:?; cbn [over policy
      GlobalBytesPerSecond EndpointBytesPerSecond PolicyJobBytesPerSecond
      BurstBytes QuantumBytes InteractiveWeight BulkWeight] in *
  end.

Lemma normalizeSchedulerPolicy_ok p q :
  policy_typed p → normalizeSchedulerPolicy p = Ok q → policy_ok q.
Proof.
  intros [Hg He Hj Hb Hq Hi Hk]. unfold in_u64, in_u32 in *.
  pose proof constants as (_ & ? & ? & ? & _).
  destruct p as [g e j b n i k]; cbn in *. unfold normalizeSchedulerPolicy.
  policy_tac; intros [= <-]; breflect; split; cbn;
    unfold DefaultInteractiveWeight, DefaultBulkWeight; lia.
Qed.

Lemma normalizeSchedulerPolicy_id p :
  policy_ok p → normalizeSchedulerPolicy p = Ok p.
Proof.
  intros [Hg He Hj Hq Hb Hi Hk]. destruct p as [g e j b n i k]; cbn in *.
  unfold normalizeSchedulerPolicy; cbn.
  assert ((n =? 0) = false) as -> by lia; cbn.
  assert ((n >? TransferScheduleQuantum) = false) as -> by lia; cbn.
  assert ((b =? 0) = false) as -> by lia; cbn.
  assert ((b >? HardRecoveryBufferBytes) = false) as -> by lia.
  assert ((b <? n) = false) as -> by lia.
  assert ((g >? MaxBandwidthBytesPerSecond) = false) as -> by lia.
  assert ((e >? MaxBandwidthBytesPerSecond) = false) as -> by lia.
  assert ((j >? MaxBandwidthBytesPerSecond) = false) as -> by lia; cbn.
  assert ((i =? 0) = false) as -> by lia; cbn.
  assert ((k =? 0) = false) as -> by lia; cbn.
  assert ((i >? 16) = false) as -> by lia.
  by assert ((k >? 16) = false) as -> by lia.
Qed.

(** * The invariant

    [job_rate] is the bandwidth rate of each job: a caller passes the same
    [JobBytesPerSecond] with every request of a job (it is a field of the
    job's durable plan). *)
Section Facts.
Context (Now : nat → Time) (job_rate : string → Z).
Context (job_rate_ok : ∀ j, 0 ≤ job_rate j ≤ MaxBandwidthBytesPerSecond).

Definition coherent (r : BandwidthRequest) : Prop :=
  JobBytesPerSecond r = job_rate (JobID r).

(** The buckets the requests are charged to, whether they exist yet or not. *)
Definition freshBucket (p : SchedulerPolicy) (r : Z) (now : Time) :=
  newIntegerTokenBucket r (BurstBytes p) (initialBucketTokens r (BurstBytes p)) now.

Definition jobRate (p : SchedulerPolicy) (j : string) : Z :=
  effectiveJobRate p (job_rate j).

Definition view_endpoint (s : TransferScheduler) (e : string) : integerTokenBucket :=
  default (freshBucket (policy s) (EndpointBytesPerSecond (policy s)) 0)
    (endpoints s !! e).
Definition view_job (s : TransferScheduler) (j : string) : integerTokenBucket :=
  default (freshBucket (policy s) (jobRate (policy s) j) 0) (jobs s !! j).

(** Every bucket the request is charged to holds enough tokens. *)
Definition grantable (s : TransferScheduler) (r : BandwidthRequest) : bool :=
  bucket_available (global s) (Bytes r) &&
  bucket_available (view_job s (JobID r)) (Bytes r) &&
  forallb (λ e, bucket_available (view_endpoint s e) (Bytes r)) (uniqueEndpointIDs r).

Record bucket_ok (p : SchedulerPolicy) (r : Z) (b : integerTokenBucket) : Prop := {
  bo_wf : bucket_wf b;
  bo_rate : rate b = r;
  bo_capacity : capacity b = BurstBytes p;
}.

Record buckets_inv (s : TransferScheduler) : Prop := {
  bi_policy : policy_ok (policy s);
  bi_global : bucket_ok (policy s) (GlobalBytesPerSecond (policy s)) (global s);
  bi_endpoints : map_Forall (λ _, bucket_ok (policy s)
                   (EndpointBytesPerSecond (policy s))) (endpoints s);
  bi_jobs : map_Forall (λ j, bucket_ok (policy s) (jobRate (policy s) j)) (jobs s);
  bi_rates : ∀ j b, jobs s !! j = Some b → jobRates s !! j = Some (job_rate j);
}.

(** [keeps s s']: only buckets and bookkeeping of buckets differ. *)
Record keeps (s s' : TransferScheduler) : Prop := {
  kp_policy : policy s' = policy s;
  kp_interactive : interactive s' = interactive s;
  kp_bulk : bulk s' = bulk s;
  kp_cycle : cycle s' = cycle s;
  kp_index : cycleIndex s' = cycleIndex s;
  kp_granted : grantedBytes s' = grantedBytes s;
}.

(** [settles s s']: [s'] is [s] after buckets were created on demand.  Only
    the buckets' existence, the remembered endpoints and the clock differ. *)
Record settles (s s' : TransferScheduler) : Prop := {
  st_keeps : keeps s s';
  st_global : global s' = global s;
  st_endpoints : ∀ e b, endpoints s !! e = Some b → endpoints s' !! e = Some b;
  st_jobs : ∀ j b, jobs s !! j = Some b → jobs s' !! j = Some b;
  st_endpoint : ∀ e bytes, bucket_available (view_endpoint s' e) bytes =
                           bucket_available (view_endpoint s e) bytes;
  st_job : ∀ j bytes, bucket_available (view_job s' j) bytes =
                      bucket_available (view_job s j) bytes;
}.

#[local] Instance keeps_preorder : PreOrder keeps.
Proof.
  split; [by intros s; split|]. intros s1 s2 s3 [] []; split; congruence.
Qed.
#[local] Instance settles_preorder : PreOrder settles.
Proof.
  split; [by intros s; split|]. intros s1 s2 s3 [] [].
  split; [by trans s2|congruence|by eauto|by eauto|intros; etrans; eauto..].
Qed.

Lemma settles_grantable s s' r : settles s s' → grantable s' r = grantable s r.
Proof.
  intros []. unfold grantable. rewrite st_global0, st_job0. f_equal.
  induction (uniqueEndpointIDs r) as [|e l IH]; cbn; [done|]. by rewrite st_endpoint0, IH.
Qed.

Lemma jobRate_ok p j : policy_ok p → 0 ≤ jobRate p j ≤ MaxBandwidthBytesPerSecond.
Proof.
  intros []. unfold jobRate, effectiveJobRate. specialize (job_rate_ok j).
  destruct (_ =? _); lia.
Qed.

Lemma freshBucket_ok p r now :
  policy_ok p → 0 ≤ r ≤ MaxBandwidthBytesPerSecond →
  bucket_ok p r (freshBucket p r now).
Proof.
  intros [] ?. pose proof (initialBucketTokens_range r (BurstBytes p)).
  split; [apply newIntegerTokenBucket_wf; lia|done..].
Qed.

Lemma freshBucket_available p r now now' bytes :
  bucket_available (freshBucket p r now) bytes =
  bucket_available (freshBucket p r now') bytes.
Proof. done. Qed.

Lemma endpointBucketLocked_ok s e b s' :
  buckets_inv s → endpointBucketLocked Now s e = (b, s') →
  buckets_inv s' ∧ settles s s' ∧ endpoints s' !! e = Some b.
Proof.
  intros Hs. unfold endpointBucketLocked. destruct (endpoints s !! e) eqn:He.
  { by intros [= <- <-]. }
  intros [= <- <-]. destruct Hs as [Hp Hg Hes Hj Hr].
  assert (bucket_ok (policy s) (EndpointBytesPerSecond (policy s))
    (freshBucket (policy s) (EndpointBytesPerSecond (policy s)) (Now (reads s)))).
  { apply freshBucket_ok; [done|]. by destruct Hp. }
  split_and!; [|split; try done; try by split|apply lookup_insert_eq].
  - split; try done. by apply map_Forall_insert_2.
  - intros e' b' ?; cbn. rewrite lookup_insert_ne; [done|congruence].
  - intros e' bytes. unfold view_endpoint; cbn.
    destruct (decide (e = e')) as [->|?];
      [by rewrite lookup_insert_eq, He|by rewrite lookup_insert_ne].
Qed.

Lemma remember_ok s r :
  buckets_inv s →
  buckets_inv (rememberJobEndpointsLocked s r) ∧
  settles s (rememberJobEndpointsLocked s r).
Proof. intros []. split; split; done. Qed.

Lemma jobBucketLocked_ok s r b s' :
  buckets_inv s → coherent r → jobBucketLocked Now s r = (b, s') →
  buckets_inv s' ∧ settles s s' ∧ jobs s' !! JobID r = Some b.
Proof.
  intros Hs Hr. unfold jobBucketLocked.
  destruct (remember_ok s r Hs) as [Hs1 Hset]. revert Hs1 Hset.
  generalize (rememberJobEndpointsLocked s r) as s1. intros s1 Hs1 Hset.
  destruct (jobs s1 !! JobID r) eqn:He; [by intros [= <- <-]|].
  cbn. rewrite Hr. intros [= <- <-].
  destruct Hs1 as [Hp Hg Hes Hj Hrt].
  assert (bucket_ok (policy s1) (jobRate (policy s1) (JobID r))
    (freshBucket (policy s1) (jobRate (policy s1) (JobID r)) (Now (reads s1)))).
  { apply freshBucket_ok; [done|]. by apply jobRate_ok. }
  split_and!; [|trans s1; [exact Hset|split; try done; try by split]|apply lookup_insert_eq].
  - split; try done; [by apply map_Forall_insert_2|]. cbn. intros j b.
    destruct (decide (JobID r = j)) as [->|?];
      [by rewrite !lookup_insert_eq|rewrite !lookup_insert_ne by done; apply Hrt].
  - intros j b ?; cbn. rewrite lookup_insert_ne; [done|congruence].
  - intros j bytes. unfold view_job; cbn.
    destruct (decide (JobID r = j)) as [<-|?];
      [by rewrite lookup_insert_eq, He|by rewrite lookup_insert_ne].
Qed.

Lemma view_endpoint_Some s e b : endpoints s !! e = Some b → view_endpoint s e = b.
Proof. unfold view_endpoint. by intros ->. Qed.
Lemma view_job_Some s j b : jobs s !! j = Some b → view_job s j = b.
Proof. unfold view_job. by intros ->. Qed.

Lemma endpointsAvailable_ok ids s bytes ok s' :
  buckets_inv s → endpointsAvailable Now s ids bytes = (ok, s') →
  buckets_inv s' ∧ settles s s' ∧
  ok = forallb (λ e, bucket_available (view_endpoint s e) bytes) ids.
Proof.
  revert s; induction ids as [|e ids IH]; intros s Hs; cbn; [by intros [= <- <-]|].
  destruct (endpointBucketLocked Now s e) as [b s1] eqn:E.
  apply endpointBucketLocked_ok in E as (Hs1 & Hset & Hb%view_endpoint_Some); [|done].
  rewrite <-(st_endpoint _ _ Hset e), Hb.
  destruct (bucket_available b bytes); cbn; [|by intros [= <- <-]].
  intros (Hs' & Hset' & ->)%IH; [|done].
  split_and!; [done|by trans s1|].
  clear -Hset. induction ids as [|e' l IHl]; cbn; [done|].
  by rewrite (st_endpoint _ _ Hset), IHl.
Qed.

Lemma canGrantLocked_ok s r ok s' :
  buckets_inv s → coherent r → canGrantLocked Now s r = (ok, s') →
  buckets_inv s' ∧ settles s s' ∧ ok = grantable s r.
Proof.
  intros Hs Hr. unfold canGrantLocked, grantable.
  destruct (bucket_available (global s) (Bytes r)); cbn; [|by intros [= <- <-]].
  destruct (jobBucketLocked Now s r) as [b s1] eqn:E.
  apply jobBucketLocked_ok in E as (Hs1 & Hset & Hb%view_job_Some); [|done..].
  rewrite <-(st_job _ _ Hset), Hb.
  destruct (bucket_available b (Bytes r)); cbn; [|by intros [= <- <-]].
  intros (Hs' & Hset' & ->)%endpointsAvailable_ok; [|done].
  split_and!; [done|by trans s1|].
  induction (uniqueEndpointIDs r) as [|e' l IHl]; cbn; [done|].
  by rewrite (st_endpoint _ _ Hset), IHl.
Qed.

Lemma uniqueEndpointIDs_NoDup r : NoDup (uniqueEndpointIDs r).
Proof.
  unfold uniqueEndpointIDs. repeat case_bool_decide; cbn;
    repeat (apply NoDup_cons; split); try apply NoDup_nil_2; set_solver.
Qed.

Lemma bucket_consume_ok p r b bytes :
  bucket_ok p r b → 0 ≤ bytes → bucket_available b bytes = true →
  bucket_ok p r (bucket_consume b bytes).
Proof.
  intros [Hwf Hr Hc] ??. split; [by apply bucket_consume_wf|..];
    unfold bucket_consume; destruct (negb _); done.
Qed.

Lemma endpointsConsume_ok ids s bytes :
  NoDup ids → buckets_inv s → 0 ≤ bytes →
  forallb (λ e, bucket_available (view_endpoint s e) bytes) ids = true →
  let s' := endpointsConsume Now s ids bytes in
  buckets_inv s' ∧ keeps s s' ∧ global s' = global s ∧
  ∀ j b, bucket_available (view_job s' j) b = bucket_available (view_job s j) b.
Proof.
  revert s; induction ids as [|e ids IH]; intros s Hn Hs Hb Hall; [done|].
  apply NoDup_cons in Hn as [He Hn]. cbn in Hall |- *.
  destruct (endpointBucketLocked Now s e) as [b s1] eqn:E.
  apply endpointBucketLocked_ok in E as (Hs1 & Hset & Hbk); [|done].
  apply andb_true_iff in Hall as [Ha Hall].
  rewrite <-(st_endpoint _ _ Hset e), (view_endpoint_Some _ _ _ Hbk) in Ha.
  set (s2 := s1 <| endpoints := <[e := bucket_consume b bytes]> (endpoints s1) |>).
  assert (buckets_inv s2) as Hs2.
  { destruct Hs1 as [Hp Hg Hes Hj Hr]. split; try done.
    apply map_Forall_insert_2; [|done]. apply bucket_consume_ok; [|done..].
    by apply (Hes e). }
  destruct (IH s2) as (Hs' & Hk & Hg & Hj); [done..| |].
  { rewrite !forallb_forall in Hall |- *. intros e' Hin.
    rewrite <-(Hall e') by done. rewrite <-(st_endpoint _ _ Hset).
    unfold view_endpoint; cbn. rewrite lookup_insert_ne; [done|].
    intros <-. by apply He, list_elem_of_In. }
  split_and!; [done|..].
  - trans s1; [apply Hset|]. trans s2; [by split|done].
  - rewrite Hg. apply Hset.
  - intros j k. rewrite Hj. apply Hset.
Qed.

Lemma consumeLocked_ok s r :
  buckets_inv s → coherent r → 0 ≤ Bytes r → grantable s r = true →
  let s' := consumeLocked Now s r in
  buckets_inv s' ∧ keeps s s' ∧ global s' = bucket_consume (global s) (Bytes r).
Proof.
  intros Hs Hr Hb. unfold grantable, consumeLocked.
  rewrite !andb_true_iff. intros [[Hg Hj] He]. cbn zeta.
  set (s1 := s <| global := bucket_consume (global s) (Bytes r) |>).
  assert (buckets_inv s1) as Hs1.
  { destruct Hs. split; try done. by apply bucket_consume_ok. }
  destruct (endpointsConsume_ok (uniqueEndpointIDs r) s1 (Bytes r))
    as (Hs2 & Hk & Hg2 & Hj2); [apply uniqueEndpointIDs_NoDup|done..|].
  set (s2 := endpointsConsume Now s1 (uniqueEndpointIDs r) (Bytes r)) in *.
  destruct (jobBucketLocked Now s2 r) as [b s3] eqn:E.
  apply jobBucketLocked_ok in E as (Hs3 & Hset & Hjb); [|done..].
  assert (bucket_available b (Bytes r) = true) as Hav.
  { by rewrite <-(view_job_Some _ _ _ Hjb), (st_job _ _ Hset), Hj2. }
  split_and!.
  - destruct Hs3 as [Hp Hgl Hes Hjs Hrt]. split; try done; cbn.
    + apply map_Forall_insert_2; [|done]. apply bucket_consume_ok; [|done..].
      by apply Hjs.
    + intros j b'. destruct (decide (JobID r = j)) as [<-|?];
        [intros _; by apply (Hrt (JobID r) b)|rewrite lookup_insert_ne by done; apply Hrt].
  - trans s1; [by split|]. trans s2; [done|]. trans s3; [apply Hset|by split].
  - cbn. by rewrite (st_global _ _ Hset), Hg2.
Qed.

Lemma bucket_refill_ok p r b now :
  bucket_ok p r b → bucket_ok p r (bucket_refill b now).
Proof.
  intros [Hwf Hr Hc]. destruct (bucket_refill_frame b now) as (Hr' & Hc' & _).
  split; [by apply bucket_refill_wf|congruence..].
Qed.

Lemma refillLocked_ok s now :
  buckets_inv s → buckets_inv (refillLocked s now) ∧ keeps s (refillLocked s now).
Proof.
  intros [Hp Hg Hes Hj Hr]. split; [|by split]. split; cbn; [done|..].
  - by apply bucket_refill_ok.
  - apply map_Forall_fmap. eapply map_Forall_impl; [exact Hes|]. cbn.
    intros. by apply bucket_refill_ok.
  - apply map_Forall_fmap. eapply map_Forall_impl; [exact Hj|]. cbn.
    intros. by apply bucket_refill_ok.
  - intros j b. rewrite lookup_fmap. destruct (jobs s !! j) eqn:E; [|done].
    intros _. by eapply Hr.
Qed.

(** * Queues *)
Definition fits (p : SchedulerPolicy) (r : BandwidthRequest) : Prop :=
  Bytes r ≤ BurstBytes p ∨
  (GlobalBytesPerSecond p = 0 ∧
   (EndpointBytesPerSecond p = 0 ∨ uniqueEndpointIDs r = []) ∧
   effectiveJobRate p (JobBytesPerSecond r) = 0).

Record request_ok (p : SchedulerPolicy) (r : BandwidthRequest) : Prop := {
  ro_coherent : coherent r;
  ro_bytes : 0 < Bytes r;
  ro_fits : fits p r;
}.

Definition waiting (s : TransferScheduler) : list bandwidthWaiter :=
  interactive s ++ bulk s.

Record queues_inv (s : TransferScheduler) : Prop := {
  qi_interactive : Forall (λ w, Class (request w) = ScheduleInteractive) (interactive s);
  qi_bulk : Forall (λ w, Class (request w) = ScheduleBulk) (bulk s);
  qi_requests : Forall (λ w, request_ok (policy s) (request w)) (waiting s);
  qi_cycle : cycle s =
    replicate (Z.to_nat (InteractiveWeight (policy s))) ScheduleInteractive ++
    replicate (Z.to_nat (BulkWeight (policy s))) ScheduleBulk;
  qi_index : (cycleIndex s < length (cycle s))%nat;
}.

Lemma queues_inv_keeps s s' : keeps s s' → queues_inv s → queues_inv s'.
Proof.
  intros [Hp Hi Hb Hc Hx _] [].
  split; unfold waiting in *; rewrite ?Hi, ?Hb, ?Hc, ?Hx, ?Hp; done.
Qed.

(** The head of a class is ready when every bucket it needs has the tokens. *)
Definition ready (s : TransferScheduler) (class : string) : bool :=
  match queue s class with
  | w :: _ => grantable s (request w)
  | [] => false
  end.

(** The class served [k] turns from now. *)
Definition slot (s : TransferScheduler) (k : nat) : string :=
  default "" (cycle s !! ((cycleIndex s + k) `mod` length (cycle s))%nat).

Lemma queue_waiting s class w rest :
  queue s class = w :: rest → w ∈ waiting s.
Proof.
  unfold queue, waiting. case_bool_decide; intros ->; set_solver.
Qed.

Lemma settles_ready s s' class : settles s s' → ready s' class = ready s class.
Proof.
  intros Hset. unfold ready, queue. destruct (st_keeps _ _ Hset) as [_ -> -> _ _ _].
  destruct (if bool_decide _ then _ else _); [done|]. by apply settles_grantable.
Qed.

Lemma settles_slot s s' k : settles s s' → slot s' k = slot s k.
Proof. intros [[_ _ _ Hc Hi _] _]. unfold slot. by rewrite Hc, Hi. Qed.

(** What the selection loop returns. *)
Inductive selection (s : TransferScheduler) (from to : nat) :
    option bandwidthWaiter → TransferScheduler → Prop :=
| selection_none s' :
    settles s s' →
    (∀ k, (from ≤ k < to)%nat → ready s (slot s k) = false) →
    selection s from to None s'
| selection_some k w rest s1 :
    settles s s1 → (from ≤ k < to)%nat →
    queue s (slot s k) = w :: rest →
    grantable s (request w) = true →
    (∀ k', (from ≤ k' < k)%nat → ready s (slot s k') = false) →
    selection s from to (Some w)
      (s1 <| cycleIndex := ((cycleIndex s + k) `mod` length (cycle s))%nat |>).

Lemma selection_settles s s1 from to o s' :
  settles s s1 → selection s1 from to o s' → selection s from to o s'.
Proof.
  intros Hset. destruct 1 as [s' Hs' Hr|k w rest s' Hs' Hk Hq Hg Hr].
  - apply selection_none; [by trans s1|]. intros k Hk.
    by rewrite <-(settles_ready _ _ _ Hset), <-(settles_slot _ _ _ Hset), Hr.
  - destruct (st_keeps _ _ Hset) as [_ Hi Hb Hc Hx _]. rewrite Hc, Hx.
    apply selection_some with rest; [by trans s1|done|..].
    + rewrite <-(settles_slot _ _ _ Hset), <-Hq. unfold queue. by rewrite Hi, Hb.
    + by rewrite <-(settles_grantable _ _ _ Hset).
    + intros k' Hk'.
      by rewrite <-(settles_ready _ _ _ Hset), <-(settles_slot _ _ _ Hset), Hr.
Qed.

Lemma selectFrom_ok n from s o s' :
  buckets_inv s → Forall (λ w, coherent (request w)) (waiting s) →
  selectFrom Now s from n = (o, s') →
  buckets_inv s' ∧ selection s from (from + n) o s'.
Proof.
  revert from s; induction n as [|n IH]; intros from s Hs Hw; cbn.
  { intros [= <- <-]. split; [done|]. apply selection_none; [done|lia]. }
  fold (slot s from).
  assert (∀ s1, settles s s1 → buckets_inv s1 → ready s (slot s from) = false →
    selectFrom Now s1 (S from) n = (o, s') →
    buckets_inv s' ∧ selection s from (from + S n) o s') as Hskip.
  { intros s1 Hset Hs1 Hr Hsel. apply IH in Hsel as [Hs' Hsel]; [|done|].
    2: { unfold waiting. by destruct (st_keeps _ _ Hset) as [_ -> -> _ _ _]. }
    split; [done|]. apply (selection_settles _ _ _ _ _ _ Hset) in Hsel.
    assert (∀ k, (from ≤ k)%nat → (k < S from)%nat → ready s (slot s k) = false) as H1.
    { intros k ??. by replace k with from by lia. }
    destruct Hsel as [s' Hs0 Hno|k w rest s2 Hs0 Hk Hq Hg Hno].
    - apply selection_none; [done|]. intros k ?.
      destruct (decide (k < S from)%nat); [apply H1; lia|apply Hno; lia].
    - eapply selection_some; [done|lia|done..|]. intros k' ?.
      destruct (decide (k' < S from)%nat); [apply H1; lia|apply Hno; lia]. }
  destruct (queue s (slot s from)) as [|w rest] eqn:Eq.
  { apply Hskip; [done..|]. unfold ready. by rewrite Eq. }
  destruct (canGrantLocked Now s (request w)) as [ok s1] eqn:Eg.
  apply canGrantLocked_ok in Eg as (Hs1 & Hset & Hok); [|done|].
  2: { rewrite Forall_forall in Hw. by eapply Hw, queue_waiting. }
  destruct ok.
  - intros [= <- <-]. split; [by destruct Hs1; split|].
    eapply selection_some; [done|lia|done..|]. intros; lia.
  - apply Hskip; [done..|]. unfold ready. by rewrite Eq.
Qed.

(** * The weighted cycle *)

(** Turns until the cycle next serves a class, and the weight of the other. *)
Definition turns (s : TransferScheduler) (class : string) : nat :=
  let iw := Z.to_nat (InteractiveWeight (policy s)) in
  let bw := Z.to_nat (BulkWeight (policy s)) in
  let i := cycleIndex s in
  if bool_decide (class = ScheduleInteractive)
  then (if decide (i < iw) then 0 else iw + bw - i)%nat
  else (if decide (i < iw) then iw - i else 0)%nat.

Definition otherWeight (p : SchedulerPolicy) (class : string) : Z :=
  if bool_decide (class = ScheduleInteractive) then BulkWeight p
  else InteractiveWeight p.

Lemma cycle_lookup (a b i : nat) :
  (i < a + b)%nat →
  default "" ((replicate a ScheduleInteractive ++ replicate b ScheduleBulk) !! i)
  = if decide (i < a)%nat then ScheduleInteractive else ScheduleBulk.
Proof.
  intros Hi. destruct (decide (i < a)%nat).
  - rewrite lookup_app_l by by rewrite length_replicate.
    by rewrite lookup_replicate_2.
  - rewrite lookup_app_r by (rewrite length_replicate; lia).
    rewrite length_replicate, lookup_replicate_2; [done|lia].
Qed.

Lemma mod_wrap (n len : nat) :
  (0 < len)%nat → (n < 2 * len)%nat →
  (n `mod` len = if decide (n < len) then n else n - len)%nat.
Proof.
  intros. destruct (decide _).
  - by apply Nat.mod_small.
  - symmetry. apply Nat.mod_unique with 1%nat; lia.
Qed.

Lemma slot_spec s k :
  queues_inv s → policy_ok (policy s) → (k < length (cycle s))%nat →
  let j := ((cycleIndex s + k) `mod` length (cycle s))%nat in
  slot s k = (if decide (j < Z.to_nat (InteractiveWeight (policy s)))%nat
              then ScheduleInteractive else ScheduleBulk) ∧
  (j < length (cycle s))%nat.
Proof.
  intros [_ _ _ Hc Hi] [] Hk j. unfold slot. fold j.
  assert (j < length (cycle s))%nat by (apply Nat.mod_upper_bound; lia).
  split; [|done]. rewrite Hc. apply cycle_lookup.
  rewrite Hc, length_app, !length_replicate in *. lia.
Qed.

(** Arithmetic on a state's cycle: [i] its index, [a] and [b] the weights. *)
Lemma cycle_length s :
  queues_inv s → policy_ok (policy s) →
  length (cycle s) = (Z.to_nat (InteractiveWeight (policy s)) +
                      Z.to_nat (BulkWeight (policy s)))%nat.
Proof. intros [] _. by rewrite qi_cycle0, length_app, !length_replicate. Qed.

Lemma class_eq_interactive :
  bool_decide (ScheduleInteractive = ScheduleInteractive) = true.
Proof. done. Qed.
Lemma class_eq_bulk : bool_decide (ScheduleBulk = ScheduleInteractive) = false.
Proof. done. Qed.

Ltac turns_tac s :=
  match goal with
  | Hq : queues_inv s, Hp : policy_ok (policy s) |- _ =>
    pose proof (cycle_length s Hq Hp); pose proof (qi_index s Hq);
    pose proof (po_interactive _ Hp); pose proof (po_bulk _ Hp)
  end.

Lemma turns_length s c :
  queues_inv s → policy_ok (policy s) →
  (turns s c < length (cycle s))%nat ∧
  Z.of_nat (turns s c) ≤ otherWeight (policy s) c.
Proof.
  intros Hq Hp. turns_tac s. unfold turns, otherWeight.
  case_bool_decide; destruct (decide _); lia.
Qed.

Lemma slot_turns s c :
  queues_inv s → policy_ok (policy s) →
  c = ScheduleInteractive ∨ c = ScheduleBulk →
  slot s (turns s c) = c.
Proof.
  intros Hq Hp Hc. destruct (turns_length s c) as [Hl _]; [done..|].
  destruct (slot_spec s (turns s c)) as [-> _]; [done..|].
  turns_tac s. rewrite mod_wrap by lia. unfold turns in *.
  destruct Hc as [-> | ->]; rewrite ?class_eq_interactive, ?class_eq_bulk in *;
    repeat destruct (decide _); done || lia.
Qed.

Lemma slot_before_turns s c k :
  queues_inv s → policy_ok (policy s) →
  c = ScheduleInteractive ∨ c = ScheduleBulk →
  (k < turns s c)%nat → slot s k ≠ c.
Proof.
  intros Hq Hp Hc Hk. destruct (turns_length s c) as [Hl _]; [done..|].
  destruct (slot_spec s k) as [-> _]; [done|done|lia|].
  turns_tac s. rewrite mod_wrap by lia. unfold turns in *.
  destruct Hc as [-> | ->]; rewrite ?class_eq_interactive, ?class_eq_bulk in *;
    repeat destruct (decide _); done || lia.
Qed.

Lemma turns_advance s s' c k :
  queues_inv s → policy_ok (policy s) → policy s' = policy s →
  (k ≤ turns s c)%nat →
  cycleIndex s' = ((cycleIndex s + k) `mod` length (cycle s))%nat →
  turns s' c = (turns s c - k)%nat.
Proof.
  intros Hq Hp Hpol Hk Hi. destruct (turns_length s c) as [Hl _]; [done..|].
  turns_tac s. rewrite mod_wrap in Hi by lia.
  unfold turns in *. rewrite Hi, Hpol.
  case_bool_decide; repeat destruct (decide _); lia.
Qed.

(** * Preservation *)
Definition sched_inv (s : TransferScheduler) : Prop := buckets_inv s ∧ queues_inv s.

Lemma waiting_keeps s s' : keeps s s' → waiting s' = waiting s.
Proof. unfold waiting. by intros [_ -> -> _ _ _]. Qed.

Lemma queues_coherent s :
  queues_inv s → Forall (λ w, coherent (request w)) (waiting s).
Proof. intros [_ _ Hr _ _]. eapply Forall_impl; [exact Hr|]. by intros ? []. Qed.

Lemma clock_Now_ok s : keeps s (clock_Now Now s).2.
Proof. by split. Qed.

(** Reading the clock and refilling, the start of every attempt. *)
Definition refreshed (s : TransferScheduler) : TransferScheduler :=
  refillLocked (clock_Now Now s).2 (Now (reads s)).

Lemma refreshed_ok s : sched_inv s → sched_inv (refreshed s) ∧ keeps s (refreshed s).
Proof.
  intros [Hb Hq]. unfold refreshed.
  destruct (refillLocked_ok (clock_Now Now s).2 (Now (reads s))) as [Hb' Hk].
  { by destruct Hb. }
  assert (keeps s (refillLocked (clock_Now Now s).2 (Now (reads s)))) as Hk'
    by by (trans (clock_Now Now s).2; [apply clock_Now_ok|]).
  split; [|done]. split; [done|]. by apply (queues_inv_keeps s).
Qed.

Lemma selectedLocked_ok s o s' :
  sched_inv s → selectedLocked Now s = (o, s') →
  buckets_inv s' ∧ selection s 0 (length (cycle s)) o s'.
Proof.
  intros [Hb Hq] H. apply selectFrom_ok in H; [done..|]. by apply queues_coherent.
Qed.

(** The waiters of a scheduler: which are queued, and that [w] is the head of
    its class. *)
Lemma queue_class s w :
  queues_inv s → w ∈ waiting s →
  (w ∈ interactive s ∧ Class (request w) = ScheduleInteractive) ∨
  (w ∈ bulk s ∧ Class (request w) = ScheduleBulk).
Proof.
  intros [Hi Hb _ _ _] Hw. rewrite Forall_forall in Hi, Hb.
  unfold waiting in Hw. apply elem_of_app in Hw. naive_solver.
Qed.

Lemma queue_head_class s c w rest :
  queues_inv s → c = ScheduleInteractive ∨ c = ScheduleBulk →
  queue s c = w :: rest → Class (request w) = c.
Proof.
  intros [Hi Hb _ _ _] Hc Hq. rewrite Forall_forall in Hi, Hb.
  unfold queue in Hq. case_bool_decide; subst.
  - rewrite Hq in Hi. apply Hi. left.
  - destruct Hc as [-> | ->]; [done|]. rewrite Hq in Hb. apply Hb. left.
Qed.

Lemma slot_class s k :
  queues_inv s → policy_ok (policy s) → (k < length (cycle s))%nat →
  slot s k = ScheduleInteractive ∨ slot s k = ScheduleBulk.
Proof.
  intros Hq Hp Hk. destruct (slot_spec s k) as [-> _]; [done..|].
  destruct (decide _); auto.
Qed.

(** The grant of the head of the class the cycle points to. *)
Lemma dequeue_ok s w rest :
  sched_inv s →
  queue s (default "" (cycle s !! cycleIndex s)) = w :: rest →
  let s' := dequeueSelectedLocked s in
  sched_inv s' ∧ waiting s ≡ₚ w :: waiting s' ∧
  cycleIndex s' = (S (cycleIndex s) `mod` length (cycle s))%nat ∧
  policy s' = policy s ∧ global s' = global s.
Proof.
  intros [Hb Hq] Hqueue. cbn zeta.
  unfold dequeueSelectedLocked. unfold queue in Hqueue.
  destruct Hb as [Hp Hg He Hj Hr].
  destruct Hq as [Hqi Hqb Hqr Hc Hx]. unfold waiting in *.
  assert (S (cycleIndex s) `mod` length (cycle s) < length (cycle s))%nat
    by (apply Nat.mod_upper_bound; lia).
  case_bool_decide; rewrite Hqueue in *; cbn; rewrite ?Hqueue; cbn.
  - split_and!; try done.
    split; [by split|]. split; unfold waiting; cbn; rewrite ?Hqueue; try done.
    + by inversion_clear Hqi.
    + by inversion_clear Hqr.
  - split_and!; try done; [|by rewrite Permutation_middle].
    split; [by split|]. split; unfold waiting; cbn; rewrite ?Hqueue; try done.
    + by inversion_clear Hqb.
    + apply Forall_app in Hqr as [? Hqr]. apply Forall_app. split; [done|].
      by inversion_clear Hqr.
Qed.

Lemma slot_ok s k :
  buckets_inv s → queues_inv s → (0 ≤ k < 0 + length (cycle s))%nat →
  (slot s k = ScheduleInteractive ∨ slot s k = ScheduleBulk) ∧
  ((cycleIndex s + k) `mod` length (cycle s) < length (cycle s))%nat.
Proof.
  intros [] ??. split; [apply slot_class; done || lia|apply Nat.mod_upper_bound; lia].
Qed.

(** Queued waiters have distinct identities. *)
Definition ids (s : TransferScheduler) : list nat := wid <$> waiting s.

Lemma ids_inj s w w' :
  NoDup (ids s) → w ∈ waiting s → w' ∈ waiting s → wid w = wid w' → w = w'.
Proof.
  intros Hn Hw Hw' E. apply list_elem_of_lookup in Hw as [i Hi].
  apply list_elem_of_lookup in Hw' as [j Hj].
  assert (i = j) as <-; [|congruence].
  eapply NoDup_lookup; [exact Hn|..]; unfold ids; rewrite list_lookup_fmap.
  - by rewrite Hi.
  - by rewrite Hj, E.
Qed.

Lemma sched_inv_broadcast s g :
  sched_inv s → sched_inv (broadcastLocked (s <| grantedBytes := g |>)).
Proof. intros [[] []]. split; split; done. Qed.

(** Everything a granting poll does. *)
Lemma Wait_poll_granted s w s' :
  sched_inv s → NoDup (ids s) → w ∈ waiting s →
  Wait_poll Now s w = (PollGranted, s') →
  sched_inv s' ∧ waiting s ≡ₚ w :: waiting s' ∧
  policy s' = policy s ∧
  global s' = bucket_consume (global (refreshed s)) (Bytes (request w)) ∧
  grantable (refreshed s) (request w) = true ∧
  grantedBytes s' = u64 (grantedBytes s + Bytes (request w)) ∧
  ∃ k, (k < length (cycle s))%nat ∧ slot s k = Class (request w) ∧
    (∀ k', (k' < k)%nat → ready (refreshed s) (slot s k') = false) ∧
    cycleIndex s' = (S ((cycleIndex s + k) `mod` length (cycle s)) `mod` length (cycle s))%nat.
Proof.
  intros Hs Hn Hw. unfold Wait_poll. cbn [clock_Now].
  change (refillLocked _ _) with (refreshed s). destruct (refreshed_ok s Hs) as [Hs1 Hk1].
  destruct (selectedLocked Now (refreshed s)) as [o s2] eqn:Esel.
  apply selectedLocked_ok in Esel as [Hb2 Hsel]; [|done]. cbn beta iota.
  case_bool_decide as Ho.
  2: { destruct (_ && _); [destruct (waitDurationLocked _ _ _)|]; by intros [= ]. }
  destruct Hsel as [|k w' rest s3 Hset Hk Hq Hg Hno]; [done|].
  cbn in Ho. injection Ho as Ho.
  assert (w' = w) as ->.
  { apply (ids_inj s); [done| |done..]. rewrite <-(waiting_keeps _ _ Hk1).
    by eapply queue_waiting. }
  set (s4 := s3 <| cycleIndex := _ |>) in *.
  destruct Hs1 as [Hb1 Hq1]. destruct (slot_ok _ _ Hb1 Hq1 Hk) as [Hc Hi].
  assert (queues_inv s4) as Hq4.
  { apply (queues_inv_keeps _ s3) in Hq1 as []; [|apply Hset].
    split; try done. cbn. by rewrite (kp_cycle _ _ (st_keeps _ _ Hset)). }
  assert (grantable s4 (request w) = true) as Hg4
    by by rewrite <-Hg, <-(settles_grantable _ _ _ Hset).
  assert (request_ok (policy s) (request w)) as [Hco Hby _].
  { destruct Hs as [_ []]. rewrite Forall_forall in qi_requests0. by apply qi_requests0. }
  destruct (consumeLocked_ok s4 (request w)) as (Hb5 & Hk5 & Hg5); [done..|lia|done|].
  set (s5 := consumeLocked Now s4 (request w)) in *.
  assert (keeps s s3) as Hk3 by (trans (refreshed s); [done|apply Hset]).
  pose proof (st_keeps _ _ Hset) as Hk13.
  assert (cycle s5 = cycle s) as Hcy
    by (rewrite (kp_cycle _ _ Hk5); apply (kp_cycle _ _ Hk3)).
  assert (cycleIndex s5 = (cycleIndex s + k) `mod` length (cycle s))%nat as Hix.
  { by rewrite (kp_index _ _ Hk5). }
  assert (∀ k, slot (refreshed s) k = slot s k) as Hslot.
  { done. }
  destruct (dequeue_ok s5 w rest) as (Hs6 & Hp6 & Hi6 & Hpo6 & Hgl6).
  { split; [done|]. by apply (queues_inv_keeps s4). }
  { rewrite Hcy, Hix. fold (slot s k). rewrite <-Hslot, <-Hq. unfold queue.
    rewrite (kp_interactive _ _ Hk5), (kp_bulk _ _ Hk5). cbn.
    by rewrite (kp_interactive _ _ Hk13), (kp_bulk _ _ Hk13). }
  intros [= <-].
  assert (waiting s5 = waiting s) as Hw5.
  { by rewrite (waiting_keeps s4), <-(waiting_keeps s s3). }
  split_and!.
  - exact (sched_inv_broadcast _ _ Hs6).
  - change (waiting s ≡ₚ w :: waiting (dequeueSelectedLocked s5)). by rewrite <-Hw5.
  - trans (policy s5); [exact Hpo6|]. rewrite (kp_policy _ _ Hk5).
    apply (kp_policy _ _ Hk3).
  - trans (global s5); [exact Hgl6|]. rewrite Hg5.
    change (global s4) with (global s3). by rewrite (st_global _ _ Hset).
  - done.
  - change (u64 (grantedBytes (dequeueSelectedLocked s5) + Bytes (request w)) =
            u64 (grantedBytes s + Bytes (request w))).
    f_equal. f_equal. trans (grantedBytes s5).
    { unfold dequeueSelectedLocked. by case_bool_decide. }
    rewrite (kp_granted _ _ Hk5). apply (kp_granted _ _ Hk3).
  - exists k. rewrite <-(kp_cycle _ _ Hk1) at 1. split_and!; [lia|..].
    + rewrite <-Hslot. symmetry.
      eapply queue_head_class; [exact Hq1|exact Hc|exact Hq].
    + intros k' ?. rewrite <-Hslot. apply Hno. lia.
    + trans (S (cycleIndex s5) `mod` length (cycle s5))%nat; [exact Hi6|].
      by rewrite Hix, Hcy.
Qed.

(** * Waiting *)
Lemma endpointsWait_ok ids s bytes d d' s' :
  buckets_inv s → endpointsWait Now s ids bytes d = (d', s') →
  buckets_inv s' ∧ settles s s' ∧ d ≤ d' ∧
  ∀ e, e ∈ ids → ∃ b, endpoints s' !! e = Some b ∧ bucket_waitDuration b bytes ≤ d'.
Proof.
  revert s d; induction ids as [|e ids IH]; intros s d Hs; cbn [endpointsWait].
  { intros [= <- <-]. split_and!; [done..|lia|by intros e ?%elem_of_nil]. }
  destruct (endpointBucketLocked Now s e) as [b s1] eqn:E.
  apply endpointBucketLocked_ok in E as (Hs1 & Hset & Hb); [|done].
  rewrite Z.gtb_ltb. destruct (Z.ltb_spec d (bucket_waitDuration b bytes));
    intros (Hs' & Hset' & Hd & Hall)%IH; try done.
  all: split_and!; [done|by trans s1|lia|].
  all: intros e' [->|?]%elem_of_cons; [exists b; split; [by apply Hset'|lia]|by apply Hall].
Qed.

Record waits_for (s : TransferScheduler) (r : BandwidthRequest) (d : Duration) : Prop := {
  wf_global : bucket_waitDuration (global s) (Bytes r) ≤ d;
  wf_endpoints : ∀ e, e ∈ uniqueEndpointIDs r →
    ∃ b, endpoints s !! e = Some b ∧ bucket_waitDuration b (Bytes r) ≤ d;
  wf_job : ∃ b, jobs s !! JobID r = Some b ∧ bucket_waitDuration b (Bytes r) ≤ d;
  wf_positive : 0 < d;
}.

Lemma waitDurationLocked_ok s r d s' :
  buckets_inv s → coherent r → waitDurationLocked Now s r = (d, s') →
  buckets_inv s' ∧ settles s s' ∧ waits_for s' r d.
Proof.
  intros Hs Hr. unfold waitDurationLocked.
  destruct (endpointsWait _ _ _ _ _) as [d1 s1] eqn:E1.
  apply endpointsWait_ok in E1 as (Hs1 & Hset1 & Hd1 & Hall); [|done].
  destruct (jobBucketLocked Now s1 r) as [b s2] eqn:E2.
  apply jobBucketLocked_ok in E2 as (Hs2 & Hset2 & Hb); [|done..].
  intros [= <- <-]. split_and!; [done|by trans s1|].
  rewrite Z.gtb_ltb. set (w := bucket_waitDuration b (Bytes r)).
  assert (Z.max w (Z.max d1 1) =
    if (if d1 <? w then w else d1) <=? 0 then Nanosecond
    else if d1 <? w then w else d1) as <-.
  { unfold Nanosecond. destruct (Z.ltb_spec d1 w).
    - destruct (Z.leb_spec w 0); lia.
    - destruct (Z.leb_spec d1 0); lia. }
  split.
  - rewrite (st_global _ _ Hset2), (st_global _ _ Hset1). lia.
  - intros e (b' & Hb' & ?)%Hall. exists b'. split; [by apply Hset2|lia].
  - exists b. split; [done|lia].
  - lia.
Qed.

(** Every outcome of a poll that does not grant. *)
Lemma Wait_poll_blocked s w d s' :
  sched_inv s → w ∈ waiting s →
  Wait_poll Now s w = (PollBlocked d, s') →
  sched_inv s' ∧ interactive s' = interactive s ∧ bulk s' = bulk s ∧
  policy s' = policy s ∧ global s' = global (refreshed s) ∧
  grantedBytes s' = grantedBytes s ∧
  (∃ k, (k < length (cycle s))%nat ∧
    (∀ k', (k' < k)%nat → ready (refreshed s) (slot s k') = false) ∧
    cycleIndex s' = ((cycleIndex s + k) `mod` length (cycle s))%nat) ∧
  (d = Hour ∨ waits_for s' (request w) d).
Proof.
  intros Hs Hw. unfold Wait_poll. cbn [clock_Now].
  change (refillLocked _ _) with (refreshed s). destruct (refreshed_ok s Hs) as [Hs1 Hk1].
  destruct (selectedLocked Now (refreshed s)) as [o s2] eqn:Esel.
  apply selectedLocked_ok in Esel as [Hb2 Hsel]; [|done]. cbn beta iota.
  case_bool_decide as Ho; [by intros [= ]|].
  assert (sched_inv s2 ∧ interactive s2 = interactive s ∧ bulk s2 = bulk s ∧
    policy s2 = policy s ∧ global s2 = global (refreshed s) ∧
    grantedBytes s2 = grantedBytes s ∧
    (∃ k, (k < length (cycle s))%nat ∧
     (∀ k', (k' < k)%nat → ready (refreshed s) (slot s k') = false) ∧
     cycleIndex s2 = ((cycleIndex s + k) `mod` length (cycle s))%nat)) as Hgoal.
  { destruct Hs1 as [Hb1 Hq1]. clear Ho.
    destruct Hsel as [s2 Hset Hno|k w' rest s3 Hset Hk Hq Hg Hno].
    - assert (keeps s s2) as Hk2 by (trans (refreshed s); [done|apply Hset]).
      destruct Hk2. split_and!; try done; [split; [done|]| |].
      + apply (queues_inv_keeps (refreshed s)); [apply Hset|done].
      + apply Hset.
      + exists 0%nat. pose proof (qi_index s (proj2 Hs)). split_and!; [lia|lia|].
        by rewrite Nat.add_0_r, Nat.mod_small.
    - assert (keeps s s3) as Hk3 by (trans (refreshed s); [done|apply Hset]).
      destruct (slot_ok _ _ Hb1 Hq1 Hk) as [_ Hi]. destruct Hk3.
      split_and!; try done; [split; [done|]| |].
      + apply (queues_inv_keeps _ s3) in Hq1 as []; [|apply Hset].
        split; try done. cbn. by rewrite (kp_cycle _ _ (st_keeps _ _ Hset)).
      + apply (st_global _ _ Hset).
      + exists k. change (cycle (refreshed s)) with (cycle s) in Hk.
        split_and!; [lia| |done]. intros k' ?. apply (Hno k'). lia. }
  destruct (bool_decide (o = None) && isClassHeadLocked s2 w).
  2: { intros [= <- <-]. naive_solver. }
  destruct (waitDurationLocked Now s2 (request w)) as [d' s3] eqn:Ew.
  intros [= <- <-]. destruct Hgoal as ([_ Hq2] & Hi2 & Hbk2 & Hp2 & Hg2 & Hgr2 & Hk2).
  apply waitDurationLocked_ok in Ew as (Hb3 & Hset & Hwf); [|done|].
  2: { pose proof (queues_coherent _ (proj2 Hs)) as Hc. rewrite Forall_forall in Hc.
       by apply Hc. }
  pose proof (queues_inv_keeps _ _ (st_keeps _ _ Hset) Hq2).
  pose proof (st_global _ _ Hset). destruct (st_keeps _ _ Hset).
  split_and!; [done|congruence..| |by right].
  destruct Hk2 as (k & ? & ? & ?). exists k. split_and!; [done..|congruence].
Qed.

(** * Entering, cancelling *)
Record typed (r : BandwidthRequest) : Prop := {
  ty_bytes : in_u32 (Bytes r);
  ty_rate : in_u64 (JobBytesPerSecond r);
}.

Lemma validateRequest_ok s r :
  typed r → validateRequest s r = Ok tt →
  0 < Bytes r ≤ QuantumBytes (policy s) ∧ JobID r ≠ "" ∧
  JobBytesPerSecond r ≤ MaxBandwidthBytesPerSecond ∧
  (Class r = ScheduleInteractive ∨ Class r = ScheduleBulk).
Proof.
  intros [[? _] _]. unfold validateRequest.
  destruct (Z.eqb_spec (Bytes r) 0); [done|]. rewrite !Z.gtb_ltb.
  destruct (Z.ltb_spec (QuantumBytes (policy s)) (Bytes r)); [done|].
  case_bool_decide; [done|].
  destruct (Z.ltb_spec MaxBandwidthBytesPerSecond (JobBytesPerSecond r)); [done|].
  repeat case_bool_decide; cbn; try done; intros _; split_and!; try lia; try done;
    destruct (decide (Class r = ScheduleInteractive)); tauto.
Qed.

Lemma queues_inv_enqueue s w :
  queues_inv s → request_ok (policy s) (request w) →
  Class (request w) = ScheduleInteractive ∨ Class (request w) = ScheduleBulk →
  queues_inv (broadcastLocked (enqueue s w)) ∧
  waiting (broadcastLocked (enqueue s w)) ≡ₚ w :: waiting s.
Proof.
  intros [Hqi Hqb Hqr Hc Hx] Hw Hcl. unfold enqueue, waiting in *.
  case_bool_decide as Hcls; cbn.
  - split; [split; unfold waiting; cbn; try done|].
    + by apply Forall_app_2, Forall_singleton.
    + apply Forall_app in Hqr as [? ?]. rewrite !Forall_app. by rewrite Forall_singleton.
    + rewrite <-app_assoc; cbn. by rewrite <-Permutation_middle.
  - destruct Hcl; [done|]. split; [split; unfold waiting; cbn; try done|].
    + by apply Forall_app_2, Forall_singleton.
    + by rewrite app_assoc, Forall_app, Forall_singleton.
    + by rewrite app_assoc, Permutation_app_comm.
Qed.

Lemma skipTo_lt cyc i c n :
  (i < length cyc)%nat → (skipTo cyc i c n < length cyc)%nat.
Proof.
  revert i; induction n as [|n IH]; intros i Hi; cbn [skipTo]; [done|].
  case_bool_decide; [done|]. apply IH, Nat.mod_upper_bound. lia.
Qed.

Lemma grantFast_ok s r :
  sched_inv s → coherent r → 0 ≤ Bytes r → grantable s r = true →
  let s' := grantFast Now s r in
  sched_inv s' ∧ waiting s' = waiting s ∧ policy s' = policy s ∧
  global s' = bucket_consume (global s) (Bytes r) ∧
  grantedBytes s' = u64 (grantedBytes s + Bytes r).
Proof.
  intros [Hb Hq] Hr Hby Hg. cbn zeta. unfold grantFast.
  destruct (consumeLocked_ok s r) as (Hb' & Hk & Hgl); [done..|].
  pose proof (queues_inv_keeps _ _ Hk Hq) as Hq'. pose proof (waiting_keeps _ _ Hk).
  revert Hb' Hk Hgl Hq' H. generalize (consumeLocked Now s r) as s1.
  intros s1 Hb1 [] Hgl Hq1 Hw. split_and!; try exact Hw; try (cbn; congruence).
  split; [by destruct Hb1; split|]. destruct Hq1. split; try done. cbn.
  apply Nat.mod_upper_bound. lia.
Qed.

(** The outcome of entering [Wait]. *)
Lemma Wait_enter_ok s fresh r o s' :
  sched_inv s → typed r → coherent r →
  Wait_enter Now s fresh r = Ok (o, s') →
  sched_inv s' ∧ policy s' = policy s ∧
  match o with
  | WaitGranted =>
    waiting s = [] ∧ waiting s' = [] ∧ grantable (refreshed s) r = true ∧
    global s' = bucket_consume (global (refreshed s)) (Bytes r) ∧
    grantedBytes s' = u64 (grantedBytes s + Bytes r)
  | WaitQueued w =>
    w = mkWaiter fresh r ∧ waiting s' ≡ₚ w :: waiting s ∧
    (global s' = global s ∨ global s' = global (refreshed s)) ∧
    cycleIndex s' = cycleIndex s ∧ grantedBytes s' = grantedBytes s
  end.
Proof.
  intros Hs Hty Hr. unfold Wait_enter.
  destruct (validateRequest s r) as [[]|] eqn:Ev; cbn [mbind result_bind]; [|done].
  apply validateRequest_ok in Ev as (Hby & Hj & Hrt & Hcl); [|done].
  assert (∀ s1, sched_inv s1 → policy s1 = policy s → waiting s1 = waiting s →
    cycleIndex s1 = cycleIndex s → grantedBytes s1 = grantedBytes s →
    (global s1 = global s ∨ global s1 = global (refreshed s)) →
    enqueueNew s1 fresh r = (o, s') → 
    sched_inv s' ∧ policy s' = policy s ∧
    ∃ w, o = WaitQueued w ∧ w = mkWaiter fresh r ∧ waiting s' ≡ₚ w :: waiting s ∧
    (global s' = global s ∨ global s' = global (refreshed s)) ∧
    cycleIndex s' = cycleIndex s ∧ grantedBytes s' = grantedBytes s) as Hnew.
  { intros s1 [Hb1 Hq1] Hp Hw Hi Hg Hgl. unfold enqueueNew.
    intros [= <- <-]. destruct (queues_inv_enqueue s1 (mkWaiter fresh r)) as [Hq Hpm];
      [done| |done|].
    { rewrite Hp. split; [done|cbn; lia|left; cbn].
      pose proof (po_burst _ (bi_policy _ (proj1 Hs))). lia. }
    rewrite Hw in Hpm. split; [split; [|done]|].
    - destruct Hb1. unfold enqueue. by case_bool_decide; split.
    - unfold enqueue in *. case_bool_decide; cbn; split_and!; try done;
        exists (mkWaiter fresh r); split_and!; done. }
  destruct (noWaiters s) eqn:Enw.
  2: { intros E. assert (enqueueNew s fresh r = (o, s')) as E' by congruence.
       apply (Hnew s) in E' as (? & ? & w & -> & ?); auto. }
  apply andb_true_iff in Enw as [Hni Hnb]. apply bool_decide_eq_true in Hni, Hnb.
  cbn [clock_Now]. change (refillLocked _ _) with (refreshed s).
  destruct (refreshed_ok s Hs) as [Hs1 Hk1].
  destruct (canGrantLocked Now (refreshed s) r) as [ok s2] eqn:Eg.
  apply canGrantLocked_ok in Eg as (Hb2 & Hset & Hok); [|apply Hs1|done].
  assert (sched_inv s2) as Hs2.
  { split; [done|]. apply (queues_inv_keeps (refreshed s)); [apply Hset|apply Hs1]. }
  assert (keeps s s2) as Hk2 by (trans (refreshed s); [done|apply Hset]).
  pose proof (waiting_keeps _ _ Hk2) as Hw2.
  destruct ok; intros E.
  - injection E as Eo Es. rewrite <-(settles_grantable _ _ _ Hset) in Hok. symmetry in Hok.
    destruct (grantFast_ok s2 r Hs2 Hr) as (? & Hw & Hp & Hgl & Hgr); [lia|done|].
    assert (waiting s = []) as Hw0 by (unfold waiting; by rewrite Hni, Hnb).
    subst o. rewrite Es, (st_global _ _ Hset) in *. destruct Hk2.
    split_and!; try congruence. by rewrite <-(settles_grantable _ _ _ Hset).
  - assert (enqueueNew s2 fresh r = (o, s')) as E' by congruence.
    apply (Hnew s2) in E' as (? & ? & w & -> & ?); [done|done|by destruct Hk2..|].
    right. apply (st_global _ _ Hset).
Qed.

Lemma removeWaiter_sublist q t q' :
  removeWaiter q t = Some q' → sublist q' q.
Proof.
  revert q'; induction q as [|w q IH]; intros q'; cbn; [done|].
  case_bool_decide; [intros [= <-]; by constructor|].
  destruct (removeWaiter q t) as [r|]; cbn; [|done].
  intros [= <-]. apply sublist_skip. by apply IH.
Qed.

Lemma remove_ok s t :
  sched_inv s →
  let s' := remove s t in
  sched_inv s' ∧ sublist (waiting s') (waiting s) ∧ policy s' = policy s ∧
  global s' = global s ∧ cycleIndex s' = cycleIndex s ∧
  grantedBytes s' = grantedBytes s.
Proof.
  intros [Hb [Hqi Hqb Hqr Hc Hx]]. cbn zeta. unfold remove, waiting in *.
  destruct (removeWaiter (interactive s) t) as [q|] eqn:Ei.
  { apply removeWaiter_sublist in Ei.
    assert (sublist (q ++ bulk s) (interactive s ++ bulk s)) by by apply sublist_app.
    split_and!; try done. split; [by destruct Hb; split|].
    split; unfold waiting; cbn; try done; by eapply Forall_sublist. }
  destruct (removeWaiter (bulk s) t) as [q|] eqn:Eb; [|by split_and!].
  apply removeWaiter_sublist in Eb.
  assert (sublist (interactive s ++ q) (interactive s ++ bulk s)) by by apply sublist_app.
  split_and!; try done. split; [by destruct Hb; split|].
  split; unfold waiting; cbn; try done; by eapply Forall_sublist.
Qed.

(** * Reconfiguring, releasing *)
Lemma bucket_update_ok p r b now :
  policy_ok p → 0 ≤ r ≤ MaxBandwidthBytesPerSecond → bucket_wf b →
  bucket_ok p r (bucket_update b r (BurstBytes p) now).
Proof.
  intros [] ? Hb. split.
  - apply bucket_update_wf; [done|done|lia].
  - unfold bucket_update. cbn. by destruct (_ >? _).
  - unfold bucket_update. cbn. by destruct (_ >? _).
Qed.

Lemma updateStrands_ok p w :
  updateStrands p w = Ok tt ↔ fits p (request w).
Proof.
  unfold updateStrands, fits.
  destruct (Z.leb_spec (Bytes (request w)) (BurstBytes p)); [by split; auto|].
  split.
  - destruct (_ || negb (effectiveJobRate _ _ =? 0)) eqn:E; [done|intros _].
    apply orb_false_iff in E as [E Hj]. apply orb_false_iff in E as [Hg He].
    apply negb_false_iff, Z.eqb_eq in Hj, Hg. right. split_and!; [done| |done].
    apply andb_false_iff in He as [He|He]; apply negb_false_iff in He.
    + left. by apply Z.eqb_eq.
    + right. by apply bool_decide_eq_true, nil_length_inv in He.
  - intros [?|(Hg & He & Hj)]; [lia|]. rewrite Hg, Hj; cbn.
    by destruct He as [-> | ->]; cbn; rewrite ?andb_false_r.
Qed.

Lemma rebuildCycle_ok s :
  policy_ok (policy s) →
  let s' := rebuildCycle s in
  cycle s' = replicate (Z.to_nat (InteractiveWeight (policy s))) ScheduleInteractive ++
             replicate (Z.to_nat (BulkWeight (policy s))) ScheduleBulk ∧
  (cycleIndex s' < length (cycle s'))%nat ∧
  policy s' = policy s ∧ global s' = global s ∧ endpoints s' = endpoints s ∧
  jobs s' = jobs s ∧ jobRates s' = jobRates s ∧ interactive s' = interactive s ∧
  bulk s' = bulk s ∧ grantedBytes s' = grantedBytes s.
Proof.
  intros []. cbn zeta. unfold rebuildCycle. cbn.
  case_bool_decide as Hi; cbn; split_and!; try done.
  - rewrite length_app, !length_replicate. lia.
  - lia.
Qed.

Lemma Update_ok s p s' :
  sched_inv s → policy_typed p → Update Now s p = Ok s' →
  sched_inv s' ∧ waiting s' = waiting s ∧
  normalizeSchedulerPolicy p = Ok (policy s') ∧ grantedBytes s' = grantedBytes s.
Proof.
  intros Hs Ht. unfold Update.
  destruct (normalizeSchedulerPolicy p) as [q|] eqn:En; cbn [mbind result_bind]; [|done].
  pose proof (normalizeSchedulerPolicy_ok _ _ Ht En) as Hq. clear En Ht.
  destruct (each (updateStrands q) _) as [u|] eqn:Ee; cbn [mbind result_bind]; [|done].
  rewrite each_ok in Ee. cbn [clock_Now].
  change (refillLocked _ _) with (refreshed s).
  destruct (refreshed_ok s Hs) as [[Hb1 Hq1] Hk1]. revert Hb1 Hq1 Hk1.
  generalize (refreshed s) as s1. intros s1 Hb1 Hq1 Hk1.
  match goal with |- Ok (broadcastLocked (rebuildCycle ?x)) = _ → _ => set (s2 := x) end.
  destruct (rebuildCycle_ok s2) as (Hc & Hi & Hp & Hg & He & Hj & Hr & Hin & Hbk & Hgr);
    [done|].
  intros [= <-]. revert Hc Hi Hp Hg He Hj Hr Hin Hbk Hgr.
  generalize (rebuildCycle s2) as s3; unfold s2; cbn.
  intros s3 Hc Hi Hp Hg He Hj Hr Hin Hbk Hgr.
  assert (waiting s3 = waiting s) as Hw.
  { unfold waiting. rewrite Hin, Hbk. apply (waiting_keeps _ _ Hk1). }
  split_and!; [split|done|by rewrite Hp|].
  - destruct Hb1 as [Hp1 Hg1 He1 Hj1 Hr1]. split; cbn; rewrite ?Hp; [done|..].
    + rewrite Hg. apply bucket_update_ok; [done|apply Hq|apply Hg1].
    + rewrite He. apply map_Forall_fmap. eapply map_Forall_impl; [exact He1|].
      cbn. intros e b Hb. apply bucket_update_ok; [done|apply Hq|apply Hb].
    + rewrite Hj. intros j b. rewrite map_lookup_imap.
      destruct (jobs s1 !! j) as [b1|] eqn:Ej; cbn; [|done]. intros [= <-].
      rewrite (Hr1 _ _ Ej). apply bucket_update_ok; [done|by apply jobRate_ok|].
      apply (Hj1 j b1 Ej).
    + intros j b. rewrite Hj, Hr, map_lookup_imap.
      destruct (jobs s1 !! j) as [b1|] eqn:Ej; cbn; [|done]. intros _. by eapply Hr1.
  - destruct Hq1 as [Hqi Hqb Hqr _ _]. split; unfold waiting; cbn; rewrite ?Hp, ?Hin, ?Hbk;
      try done.
    apply Forall_forall. intros w Hin'.
    unfold waiting in Hqr. rewrite Forall_forall in Hqr.
    destruct (Hqr w Hin') as [Hco Hby _]. split; [done..|].
    apply updateStrands_ok, Ee. revert Hin'. fold (waiting s).
    rewrite <-(waiting_keeps _ _ Hk1). done.
  - rewrite Hgr. cbn. apply Hk1.
Qed.

Lemma ReleaseJob_ok s j :
  sched_inv s →
  let s' := ReleaseJob s j in
  sched_inv s' ∧ waiting s' = waiting s ∧ policy s' = policy s ∧
  global s' = global s ∧ cycleIndex s' = cycleIndex s ∧
  grantedBytes s' = grantedBytes s.
Proof.
  intros Hs. cbn zeta. unfold ReleaseJob.
  case_bool_decide; [done|]. destruct (hasWaiterForJobLocked s j); [done|].
  generalize (default [] (jobEndpoints s !! j)) as l.
  match goal with |- context [foldl _ ?x _] => set (s1 := x) end.
  assert (sched_inv s1 ∧ waiting s1 = waiting s ∧ policy s1 = policy s ∧
    global s1 = global s ∧ cycleIndex s1 = cycleIndex s ∧
    grantedBytes s1 = grantedBytes s) as H1.
  { unfold s1. destruct Hs as [[Hp Hg He Hj Hr] []]. split; [split|done].
    - split; try done; cbn; [by apply map_Forall_delete|].
      intros j' b. rewrite !lookup_delete_Some. intros [? ?%Hr]. done.
    - by split. }
  clearbody s1. intros l. revert s1 H1. induction l as [|e l IH]; intros s1 H1; [done|].
  cbn. apply IH. destruct (endpointReferencedLocked s1 e); [done|].
  destruct H1 as ([[Hp Hg He Hj Hr] []] & ?). split; [split|done].
  - split; try done; cbn. by apply map_Forall_delete.
  - by split.
Qed.

(** * The system *)

(** The scheduler, the identities given out and the requests granted. *)
Record system := mkSystem {
  sched : TransferScheduler;
  nextWid : nat;
  granted : list BandwidthRequest;
}.

Inductive event :=
| EvGrant (r : BandwidthRequest)
| EvQuiet
| EvUpdate.

(** The interleavings of every goroutine's calls. *)
Inductive sched_step : event → system → system → Prop :=
| step_enter_granted s n g r s' :
    typed r → coherent r →
    Wait_enter Now s n r = Ok (WaitGranted, s') →
    sched_step (EvGrant r) (mkSystem s n g) (mkSystem s' n (g ++ [r]))
| step_enter_queued s n g r w s' :
    typed r → coherent r →
    Wait_enter Now s n r = Ok (WaitQueued w, s') →
    sched_step EvQuiet (mkSystem s n g) (mkSystem s' (S n) g)
| step_poll_granted s n g w s' :
    w ∈ waiting s → Wait_poll Now s w = (PollGranted, s') →
    sched_step (EvGrant (request w)) (mkSystem s n g) (mkSystem s' n (g ++ [request w]))
| step_poll_blocked s n g w d s' :
    w ∈ waiting s → Wait_poll Now s w = (PollBlocked d, s') →
    sched_step EvQuiet (mkSystem s n g) (mkSystem s' n g)
| step_cancel s n g w :
    w ∈ waiting s →
    sched_step EvQuiet (mkSystem s n g) (mkSystem (Wait_cancel s w) n g)
| step_release s n g j :
    sched_step EvQuiet (mkSystem s n g) (mkSystem (ReleaseJob s j) n g)
| step_update s n g p s' :
    policy_typed p → Update Now s p = Ok s' →
    sched_step EvUpdate (mkSystem s n g) (mkSystem s' n g).

Definition step (x y : system) : Prop := ∃ e, sched_step e x y.

(** Bytes granted so far. *)
Definition total (g : list BandwidthRequest) : Z := foldr Z.add 0 (Bytes <$> g).

Record sys_inv (x : system) : Prop := {
  sy_inv : sched_inv (sched x);
  sy_ids : NoDup (ids (sched x));
  sy_fresh : Forall (λ i, i < nextWid x)%nat (ids (sched x));
  sy_granted : grantedBytes (sched x) = u64 (total (granted x));
}.

Lemma total_app g h : total (g ++ h) = total g + total h.
Proof. unfold total. rewrite fmap_app. induction (Bytes <$> g); cbn; lia. Qed.

Lemma total_snoc g r : total (g ++ [r]) - total g = Bytes r.
Proof. rewrite total_app. unfold total at 2; cbn. lia. Qed.

Lemma u64_add x y : u64 (u64 x + y) = u64 (x + y).
Proof. unfold u64. by rewrite Zplus_mod_idemp_l. Qed.

Lemma total_grant s g r n :
  grantedBytes s = u64 (total g) → n = u64 (grantedBytes s + Bytes r) →
  n = u64 (total (g ++ [r])).
Proof. intros -> ->. rewrite u64_add, total_app. unfold total; cbn. f_equal. lia. Qed.

Lemma sched_step_inv e x y : sched_step e x y → sys_inv x → sys_inv y.
Proof.
  destruct 1 as [s n g r s' Ht Hr H|s n g r w s' Ht Hr H|s n g w s' Hw H
    |s n g w d s' Hw H|s n g w Hw|s n g j|s n g p s' Hp H];
    intros [Hs Hn Hf Hg]; cbn in *.
  - apply Wait_enter_ok in H as (Hs' & _ & Hw & Hw' & _ & _ & Hgr); [|done..].
    unfold ids in *. split; cbn; unfold ids; rewrite ?Hw' ; try done; [by constructor|].
    by eapply total_grant.
  - apply Wait_enter_ok in H as (Hs' & _ & -> & Hpm & _ & _ & Hgr); [|done..].
    assert (ids s' ≡ₚ n :: ids s) as Hids by (unfold ids; by rewrite Hpm).
    split; cbn; [done|..|congruence]; rewrite Hids.
    + apply NoDup_cons. split; [|done]. rewrite Forall_forall in Hf.
      intros Hin%Hf. lia.
    + constructor; [lia|]. eapply Forall_impl; [exact Hf|]. cbn. lia.
  - apply Wait_poll_granted in H as (Hs' & Hpm & _ & _ & _ & Hgr & _); [|done..].
    assert (ids s ≡ₚ wid w :: ids s') as Hids by (unfold ids; by rewrite Hpm).
    rewrite Hids in Hn, Hf. apply NoDup_cons in Hn as [_ Hn].
    apply Forall_cons in Hf as [_ Hf]. split; try done. cbn. by eapply total_grant.
  - apply Wait_poll_blocked in H as (Hs' & Hi & Hb & _ & _ & Hgr & _); [|done..].
    split; cbn; unfold ids, waiting in *; try rewrite Hi, Hb; try done. congruence.
  - destruct (remove_ok s (wid w) Hs) as (Hs' & Hsub & _ & _ & _ & Hgr).
    assert (sublist (ids (remove s (wid w))) (ids s)) as Hids
      by by apply fmap_sublist.
    split; cbn; try done; [by eapply sublist_NoDup|by eapply Forall_sublist|].
    unfold Wait_cancel. congruence.
  - destruct (ReleaseJob_ok s j Hs) as (Hs' & Hw & _ & _ & _ & Hgr).
    split; cbn; unfold ids in *; rewrite ?Hw; try done. congruence.
  - apply Update_ok in H as (Hs' & Hw & _ & Hgr); [|done..].
    split; cbn; unfold ids in *; rewrite ?Hw; try done. congruence.
Qed.

(** * Bandwidth *)

(** [spends g g' n]: going from [g] to [g'], [n] bytes were taken from what the
    bucket held and earned. *)
Record spends (g g' : integerTokenBucket) (n : Z) : Prop := {
  sp_last : last g ≤ last g';
  sp_rate : rate g' = rate g;
  sp_credit : 0 < rate g →
    credit g' + n * Second ≤ credit g + rate g * (last g' - last g);
}.

Lemma spends_refl g : spends g g 0.
Proof. split; [done|done|lia]. Qed.

Lemma spends_trans g1 g2 g3 m n :
  spends g1 g2 m → spends g2 g3 n → spends g1 g3 (m + n).
Proof.
  intros [? Hr Hm] [? Hr' Hn]. split; [lia|congruence|]. intros Hp.
  specialize (Hm Hp). rewrite Hr in Hn. specialize (Hn Hp). lia.
Qed.

Lemma spends_refill g now : bucket_wf g → spends g (bucket_refill g now) 0.
Proof.
  intros Hg. destruct (bucket_refill_frame g now) as (Hr & _ & Hl).
  split; [lia|done|]. intros Hp. pose proof (bucket_refill_credit g now Hg Hp) as H.
  rewrite Hl. replace (Z.max now (last g) - last g) with (Z.max 0 (now - last g)) by lia.
  lia.
Qed.

Lemma spends_consume g n :
  bucket_wf g → 0 ≤ n → bucket_available g n = true → spends g (bucket_consume g n) n.
Proof.
  intros Hg Hn Ha. split.
  - unfold bucket_consume. by destruct (negb _).
  - unfold bucket_consume. by destruct (negb _).
  - intros Hp. rewrite bucket_consume_credit by done.
    unfold bucket_consume. destruct (negb _); cbn; lia.
Qed.

Lemma spends_refreshed s : sched_inv s → spends (global s) (global (refreshed s)) 0.
Proof. intros [[_ [] _ _ _] _]. by apply spends_refill. Qed.

Lemma spends_grant s r :
  sched_inv s → 0 ≤ Bytes r → grantable (refreshed s) r = true →
  spends (global s) (bucket_consume (global (refreshed s)) (Bytes r)) (Bytes r).
Proof.
  intros Hs Hb Hg. apply andb_true_iff in Hg as [Hg _].
  apply andb_true_iff in Hg as [Hg _].
  replace (Bytes r) with (0 + Bytes r) at 2 by lia.
  eapply spends_trans; [by apply spends_refreshed|]. apply spends_consume; [|done..].
  by destruct (refreshed_ok s Hs) as [[[_ [] _ _ _] _] _].
Qed.

Lemma sched_step_spends e x y :
  sched_step e x y → e ≠ EvUpdate → sys_inv x →
  policy (sched y) = policy (sched x) ∧
  spends (global (sched x)) (global (sched y)) (total (granted y) - total (granted x)).
Proof.
  destruct 1 as [s n g r s' Ht Hr H|s n g r w s' Ht Hr H|s n g w s' Hw H
    |s n g w d s' Hw H|s n g w Hw|s n g j|s n g p s' Hp H];
    intros He [Hs Hn Hf Hg]; cbn [sched nextWid granted] in *;
    rewrite ?total_snoc, ?Z.sub_diag.
  - pose proof (proj1 (ty_bytes _ Ht)).
    apply Wait_enter_ok in H as (_ & -> & _ & _ & Hgr & -> & _); [|done..].
    split; [done|]. by apply spends_grant.
  - apply Wait_enter_ok in H as (_ & -> & _ & _ & [-> | ->] & _); [| |done..];
      eauto using spends_refl, spends_refreshed.
  - apply Wait_poll_granted in H as (_ & _ & -> & -> & Hgr & _); [|done..].
    split; [done|]. apply spends_grant; [done| |done].
    destruct Hs as [_ [_ _ Hq _ _]]. rewrite Forall_forall in Hq.
    destruct (Hq w Hw). lia.
  - apply Wait_poll_blocked in H as (_ & _ & _ & -> & -> & _); [|done..].
    eauto using spends_refreshed.
  - destruct (remove_ok s (wid w) Hs) as (_ & _ & Hp & Hgl & _).
    unfold Wait_cancel. rewrite Hp, Hgl. eauto using spends_refl.
  - destruct (ReleaseJob_ok s j Hs) as (_ & _ & -> & -> & _). eauto using spends_refl.
  - done.
Qed.

(** Steps that do not reconfigure the scheduler. *)
Definition steady_step (x y : system) : Prop :=
  ∃ e, sched_step e x y ∧ e ≠ EvUpdate.

Lemma steady_spends x y :
  rtc steady_step x y → sys_inv x →
  spends (global (sched x)) (global (sched y)) (total (granted y) - total (granted x)).
Proof.
  induction 1 as [x|x y z (e & Hstep & He) _ IH]; intros Hx.
  { rewrite Z.sub_diag. apply spends_refl. }
  destruct (sched_step_spends _ _ _ Hstep He Hx) as [_ Hsp].
  specialize (IH (sched_step_inv _ _ _ Hstep Hx)).
  replace (total (granted z) - total (granted x)) with
    (total (granted y) - total (granted x) + (total (granted z) - total (granted y)))
    by lia.
  by eapply spends_trans.
Qed.

Lemma rtc_step_inv x y : rtc step x y → sys_inv x → sys_inv y.
Proof. induction 1 as [|x y z [e ?] _ IH]; eauto using sched_step_inv. Qed.

Lemma rtc_steady_inv x y : rtc steady_step x y → sys_inv x → sys_inv y.
Proof. induction 1 as [|x y z (e & ? & _) _ IH]; eauto using sched_step_inv. Qed.

Lemma steady_rtc_step x y : rtc steady_step x y → rtc step x y.
Proof. intros H. apply (rtc_subrel steady_step); [|done]. intros u v (e & ? & _). by exists e. Qed.

(** * Timers *)
Lemma bucket_wait_available p r b bytes d now :
  bucket_ok p r b → 0 < d → bytes ≤ BurstBytes p ∨ r = 0 →
  bucket_waitDuration b bytes ≤ d → last b + d ≤ now ≤ last b + MaxInt64 →
  bucket_available (bucket_refill b now) bytes = true.
Proof.
  intros [Hwf Hr Hc] Hd Hfit Hw Hnow.
  destruct (decide (rate b = 0)) as [Hz|Hz].
  { destruct (bucket_refill_frame b now) as (Hr' & _ & _).
    unfold bucket_available. by rewrite Hr', Hz. }
  destruct (decide (bytes ≤ tokens b)).
  { pose proof (bucket_refill_tokens b now Hwf). unfold bucket_available.
    rewrite orb_true_iff, Z.geb_le. lia. }
  apply waitDuration_exact; [done|done|lia|lia|lia].
Qed.

(** * Bounded overtaking *)

(** The head of [class] is ready at the moment the next poll would look. *)
Definition ready_now (x : system) (class : string) : Prop :=
  ready (refreshed (sched x)) class = true.

(** [contention class n x y]: a run from [x] to [y], without reconfiguration,
    in which the head of [class] was ready at every step, [n] grants went to
    the other class and none to [class]. *)
Inductive contention (class : string) : nat → system → system → Prop :=
| contention_refl x : contention class 0 x x
| contention_quiet n x y z :
    ready_now x class → sched_step EvQuiet x y →
    contention class n y z → contention class n x z
| contention_grant n x y z r :
    ready_now x class → sched_step (EvGrant r) x y → Class r ≠ class →
    contention class n y z → contention class (S n) x z.

Lemma ready_waiting s class :
  ready s class = true → waiting s ≠ [].
Proof.
  unfold ready, queue, waiting. intros H E. apply app_eq_nil in E as [Hi Hb].
  rewrite Hi, Hb in H. by destruct (bool_decide _).
Qed.

Lemma ready_slots s class k :
  sched_inv s → class = ScheduleInteractive ∨ class = ScheduleBulk →
  ready (refreshed s) class = true →
  (∀ k', (k' < k)%nat → ready (refreshed s) (slot s k') = false) →
  (k ≤ turns s class)%nat.
Proof.
  intros [Hb Hq] Hc Hr Hno. destruct (decide (k ≤ turns s class)%nat); [done|].
  specialize (Hno (turns s class) ltac:(lia)).
  rewrite slot_turns in Hno; [congruence|done|apply Hb|done].
Qed.

Lemma contention_step_quiet class x y :
  sys_inv x → class = ScheduleInteractive ∨ class = ScheduleBulk →
  ready_now x class → sched_step EvQuiet x y →
  policy (sched y) = policy (sched x) ∧
  (turns (sched y) class ≤ turns (sched x) class)%nat.
Proof.
  intros [Hs Hn Hf Hg] Hc Hrd Hstep. unfold ready_now in Hrd. pose proof Hs as [Hb Hq].
  assert (∀ s', policy s' = policy (sched x) → cycleIndex s' = cycleIndex (sched x) →
    turns s' class = turns (sched x) class) as Hsame.
  { intros s' Hp Hi. unfold turns. by rewrite Hp, Hi. }
  inversion Hstep as [|s n g r w s' Ht Hr H| |s n g w d s' Hw H|s n g w Hw|s n g j|];
    subst; cbn [sched] in *.
  - apply Wait_enter_ok in H as (_ & Hp & _ & _ & _ & Hi & _); [|done..].
    split; [done|]. by rewrite Hsame.
  - apply Wait_poll_blocked in H as (_ & _ & _ & Hp & _ & _ & (k & Hk & Hno & Hi) & _);
      [|done..].
    split; [done|]. rewrite (turns_advance s s' class k); [lia|done|apply Hb|done| |done].
    by apply ready_slots.
  - destruct (remove_ok s (wid w) Hs) as (_ & _ & Hp & _ & Hi & _).
    split; [done|]. unfold Wait_cancel. by rewrite Hsame.
  - destruct (ReleaseJob_ok s j Hs) as (_ & _ & Hp & _ & Hi & _).
    split; [done|]. by rewrite Hsame.
Qed.

Lemma contention_step_grant class x y r :
  sys_inv x → class = ScheduleInteractive ∨ class = ScheduleBulk →
  ready_now x class → sched_step (EvGrant r) x y → Class r ≠ class →
  policy (sched y) = policy (sched x) ∧
  (S (turns (sched y) class) ≤ turns (sched x) class)%nat.
Proof.
  intros [Hs Hn Hf Hg] Hc Hrd Hstep Hr. unfold ready_now in Hrd.
  pose proof Hs as [Hb Hq].
  inversion Hstep as [s n g r' s' Ht Hco H| |s n g w s' Hw H| | | |];
    subst; cbn [sched] in *.
  - apply Wait_enter_ok in H as (_ & Hp & Hw & _); [|done..].
    apply ready_waiting in Hrd. by rewrite (waiting_keeps s) in Hrd
      by apply (refreshed_ok s Hs).
  - apply Wait_poll_granted in H as (_ & _ & Hp & _ & _ & _ & k & Hk & Hsl & Hno & Hi);
      [|done..].
    split; [done|].
    assert (k ≤ turns s class)%nat as Hkt by by apply ready_slots.
    assert (k ≠ turns s class) as Hne.
    { intros ->. rewrite slot_turns in Hsl; [done|done|apply Hb|done]. }
    rewrite (turns_advance s s' class (S k)); [lia|done|apply Hb|done|lia|].
    rewrite Hi. destruct (turns_length s class) as [? _]; [done|apply Hb|].
    pose proof (qi_index s Hq).
    rewrite <-Nat.add_1_r, Nat.Div0.add_mod_idemp_l. f_equal. lia.
Qed.

(** C26: starvation freedom of the weighted cycle.  While the head of one class
    could be served at once, the other class is granted at most its weight in
    quanta before it (InteractiveWeight for the bulk class, BulkWeight for the
    interactive class), whatever enqueues, polls, cancellations and releases
    happen in between. *)
Theorem bounded_overtaking class n x y :
  sys_inv x → class = ScheduleInteractive ∨ class = ScheduleBulk →
  contention class n x y →
  Z.of_nat n ≤ otherWeight (policy (sched x)) class.
Proof.
  intros Hx Hc H.
  assert (n ≤ turns (sched x) class)%nat as Hn.
  { clear -H Hx Hc job_rate_ok. induction H as [x|n x y z Hr Hst _ IH|n x y z r Hr Hst Hcl _ IH]; [lia|..].
    - destruct (contention_step_quiet class x y) as [_ Ht]; [done..|].
      specialize (IH (sched_step_inv _ _ _ Hst Hx)). lia.
    - destruct (contention_step_grant class x y r) as [_ Ht]; [done..|].
      specialize (IH (sched_step_inv _ _ _ Hst Hx)). lia. }
  destruct Hx as [[Hb Hq] _ _ _].
  pose proof (turns_length _ class Hq (bi_policy _ Hb)). lia.
Qed.

(** C31: the bandwidth ceiling.  Over any run that does not reconfigure the
    scheduler, the bytes granted are at most one burst (and the fraction of a
    byte in flight) plus the global rate times the time the run took, measured
    between the refills that started and ended it, whatever the number of jobs
    and endpoints and however the calls interleave. *)
Theorem bandwidth_bound x y :
  sys_inv x → rtc steady_step x y →
  0 < GlobalBytesPerSecond (policy (sched x)) →
  (total (granted y) - total (granted x)) * Second <
    (BurstBytes (policy (sched x)) + 1) * Second +
    GlobalBytesPerSecond (policy (sched x)) *
      (last (global (sched y)) - last (global (sched x))).
Proof.
  intros Hx Hxy Hr.
  destruct (steady_spends x y Hxy Hx) as [_ _ Hc].
  pose proof (rtc_steady_inv _ _ Hxy Hx) as Hy.
  destruct Hx as [[[Hp [Hwf Hrt Hcap] _ _ _] _] _ _ _]. rewrite Hrt in Hc.
  specialize (Hc Hr).
  assert (0 ≤ credit (global (sched y))) as H0.
  { destruct Hy as [[[_ [[]] _ _ _] _] _ _ _]. unfold credit. bucket_unfold. lia. }
  assert (credit (global (sched x)) < (BurstBytes (policy (sched x)) + 1) * Second).
  { destruct Hwf. unfold credit. rewrite <-Hcap. bucket_unfold. lia. }
  lia.
Qed.

(** timers suffice.  When a waiter goes to sleep for a computed duration,
    then at any time at least that long after the buckets it is charged to
    were last refilled, its request can be granted, unless some other grant or
    reconfiguration intervenes: no queued request is ever stranded, not even
    one queued before a reconfiguration lowered the burst below its size. *)
Theorem timer_suffices s w d s' now :
  sched_inv s → w ∈ waiting s →
  Wait_poll Now s w = (PollBlocked d, s') → d ≠ Hour →
  (∀ b, b = global s' ∨ jobs s' !! JobID (request w) = Some b ∨
        (∃ e, e ∈ uniqueEndpointIDs (request w) ∧ endpoints s' !! e = Some b) →
        last b + d ≤ now ≤ last b + MaxInt64) →
  (canGrantLocked Now (refillLocked s' now) (request w)).1 = true.
Proof.
  intros Hs Hw Hpoll Hd Hlast.
  apply Wait_poll_blocked in Hpoll as
    ([Hb Hq] & Hi & Hbk & _ & _ & _ & _ & [?|[Hwg Hwe Hwj Hpos]]); [done| |done..].
  destruct (refillLocked_ok s' now Hb) as [Hb' _].
  assert (request_ok (policy s') (request w)) as [Hco Hby Hfit].
  { destruct Hq as [_ _ Hr _ _]. rewrite Forall_forall in Hr. apply Hr.
    unfold waiting. by rewrite Hi, Hbk. }
  destruct (canGrantLocked Now (refillLocked s' now) (request w)) as [ok s2] eqn:Eg.
  apply canGrantLocked_ok in Eg as (_ & _ & ->); [|done..]. cbn [fst].
  destruct Hb as [_ Hg Hes Hj _]. destruct Hwj as (bj & Hbj & Hwj).
  unfold grantable. rewrite !andb_true_iff, forallb_forall. split_and!.
  - eapply (bucket_wait_available _ _ _ _ d); [exact Hg|done| |done|apply Hlast; by left].
    destruct Hfit; tauto.
  - rewrite (view_job_Some _ _ (bucket_refill bj now))
      by (cbn; by rewrite lookup_fmap, Hbj).
    eapply (bucket_wait_available _ _ _ _ d); [exact (Hj _ _ Hbj)|done| |done|apply Hlast; eauto].
    unfold jobRate. rewrite <-Hco. destruct Hfit; tauto.
  - intros e He%list_elem_of_In. destruct (Hwe e He) as (b & Hbe & Hwb).
    rewrite (view_endpoint_Some _ _ (bucket_refill b now))
      by (cbn; by rewrite lookup_fmap, Hbe).
    eapply (bucket_wait_available _ _ _ _ d); [exact (Hes _ _ Hbe)|done| |done|apply Hlast; eauto].
    destruct Hfit as [?|(_ & [?|Hn] & _)]; [tauto..|]. rewrite Hn in He. set_solver.
Qed.

(** * The invariant of every run *)
Lemma NewTransferScheduler_inv p limits s :
  policy_typed p → NewTransferSchedulerWithLimits Now p limits = Ok s →
  sys_inv (mkSystem s 0 []).
Proof.
  intros Ht. unfold NewTransferSchedulerWithLimits.
  destruct (normalizeSchedulerPolicy p) as [q|] eqn:En; cbn [mbind result_bind]; [|done].
  pose proof (normalizeSchedulerPolicy_ok _ _ Ht En) as Hq.
  destruct (map_err _ _) as [res|]; cbn [mbind result_bind]; [|done].
  match goal with |- Ok (rebuildCycle ?x) = _ → _ => set (s0 := x) end.
  destruct (rebuildCycle_ok s0 Hq) as (Hc & Hi & Hp & Hg & He & Hj & Hr & Hin & Hbk & Hgr).
  intros [= <-]. revert Hc Hi Hp Hg He Hj Hr Hin Hbk Hgr.
  generalize (rebuildCycle s0); unfold s0; cbn [policy global endpoints jobs jobRates
    interactive bulk grantedBytes]. intros s Hc Hi Hp Hg He Hj Hr Hin Hbk Hgr.
  split; cbn [sched nextWid granted]; unfold ids, waiting; rewrite ?Hin, ?Hbk; try done;
    [|constructor].
  split; split; unfold waiting; rewrite ?Hp, ?He, ?Hj, ?Hr, ?Hin, ?Hbk, ?Hg; try done.
  split; [|done..]. destruct Hq. apply newIntegerTokenBucket_wf; lia.
Qed.

(** the scheduler's invariant, for every interleaving of calls and every
    clock: the policy in force respects the hard ceilings, every bucket holds
    at most one burst and has the rate its policy gives it, every queued
    request waits in its class's queue under an identity of its own and fits
    the current burst (or meets no limit at all), the cycle index is inside a
    cycle of the policy's weights, and the byte counter is the sum of the
    grants modulo 2^64. *)
Theorem scheduler_invariant p limits s x :
  policy_typed p → NewTransferSchedulerWithLimits Now p limits = Ok s →
  rtc step (mkSystem s 0 []) x → sys_inv x.
Proof. intros Hp Hs Hx. by eapply rtc_step_inv, NewTransferScheduler_inv. Qed.

End Facts.

(** * A concrete run

    Three packets use up a burst of 300 bytes at 1000 bytes per second; one
    packet of each class then queues, the interactive one polls and sleeps,
    and is granted when the clock has advanced. *)
Module SchedulerDemo.
Definition policy0 := mkPolicy 1000 0 0 300 100 2 1.
Definition clock (n : nat) : Time :=
  if bool_decide (n < 8)%nat then Second else 100 * Second.
Definition rate0 (_ : string) : Z := 0.
Definition req (c : string) := mkRequest "job" "endpoint" "" 0 c 100.
Definition s0 : TransferScheduler :=
  unwrap (NewTransferSchedulerWithLimits clock policy0 HardResourceCeilings) eq_refl.
Definition enter (n : nat) (c : string) (s : TransferScheduler) : TransferScheduler :=
  match Wait_enter clock s n (req c) with Ok (_, s') => s' | Err _ => s end.
Definition w_i := mkWaiter 0 (req ScheduleInteractive).
Definition w_b := mkWaiter 1 (req ScheduleBulk).
Definition s1 := enter 0 ScheduleInteractive s0.
Definition s2 := enter 0 ScheduleInteractive s1.
Definition s3 := enter 0 ScheduleBulk s2.
Definition s4 := enter 0 ScheduleInteractive s3.
Definition s5 := enter 1 ScheduleBulk s4.
Definition s6 := (Wait_poll clock s5 w_i).2.
Definition s7 := (Wait_poll clock s6 w_i).2.
Definition i_ := req ScheduleInteractive.
Definition b_ := req ScheduleBulk.
Definition x0 := mkSystem s0 0 [].
Definition x5 := mkSystem s5 2 [i_; i_; b_].
Definition x6 := mkSystem s6 2 [i_; i_; b_].
Definition x7 := mkSystem s7 2 [i_; i_; b_; i_].

Lemma rate0_ok j : 0 ≤ rate0 j ≤ MaxBandwidthBytesPerSecond.
Proof. done. Qed.
Lemma policy0_typed : policy_typed policy0.
Proof. by split; vm_compute. Qed.
Lemma req_typed c : typed (req c).
Proof. by split; vm_compute. Qed.
Lemma new_s0 : NewTransferSchedulerWithLimits clock policy0 HardResourceCeilings = Ok s0.
Proof. vm_compute. reflexivity. Qed.

Lemma steps_x5 : rtc (steady_step clock rate0) x0 x5.
Proof.
  eapply rtc_l; [exists (EvGrant i_); split; [|done];
    apply (step_enter_granted _ _ s0 0 [] i_ s1); [apply req_typed|done|vm_compute; done]|].
  eapply rtc_l; [exists (EvGrant i_); split; [|done];
    apply (step_enter_granted _ _ s1 0 [i_] i_ s2); [apply req_typed|done|vm_compute; done]|].
  eapply rtc_l; [exists (EvGrant b_); split; [|done];
    apply (step_enter_granted _ _ s2 0 [i_; i_] b_ s3);
    [apply req_typed|done|vm_compute; done]|].
  eapply rtc_l; [exists EvQuiet; split; [|done];
    apply (step_enter_queued _ _ s3 0 _ i_ w_i s4); [apply req_typed|done|vm_compute; done]|].
  eapply rtc_once. exists EvQuiet; split; [|done].
  apply (step_enter_queued _ _ s4 1 _ b_ w_b s5); [apply req_typed|done|vm_compute; done].
Qed.

Lemma step_x6 : sched_step clock rate0 EvQuiet x5 x6.
Proof.
  apply (step_poll_blocked _ _ s5 2 _ w_i 100000000);
    [by apply (bool_decide_unpack _); vm_compute|vm_compute; done].
Qed.

Lemma step_x7 : sched_step clock rate0 (EvGrant i_) x6 x7.
Proof.
  apply (step_poll_granted _ _ s6 2 [i_; i_; b_] w_i s7);
    [by apply (bool_decide_unpack _); vm_compute|vm_compute; done].
Qed.

Lemma x0_inv : sys_inv rate0 x0.
Proof. apply (NewTransferScheduler_inv clock _ policy0 HardResourceCeilings); [apply policy0_typed|apply new_s0]. Qed.
Lemma x5_inv : sys_inv rate0 x5.
Proof. apply (rtc_steady_inv clock _ rate0_ok x0); [apply steps_x5|apply x0_inv]. Qed.
Lemma x6_inv : sys_inv rate0 x6.
Proof. apply (sched_step_inv clock _ rate0_ok _ _ _ step_x6), x5_inv. Qed.

(** The bulk head is ready when the interactive packet overtakes it. *)
Lemma bounded_overtaking_witness :
  contention clock rate0 ScheduleBulk 1 x6 x7 ∧
  Z.of_nat 1 ≤ otherWeight (policy (sched x6)) ScheduleBulk.
Proof.
  assert (contention clock rate0 ScheduleBulk 1 x6 x7) as H.
  { eapply contention_grant; [vm_compute; done|apply step_x7|done|apply contention_refl]. }
  split; [exact H|].
  apply (bounded_overtaking clock rate0 rate0_ok ScheduleBulk 1 x6 x7);
    [apply x6_inv|by right|exact H].
Defined.

Lemma bandwidth_bound_witness :
  (total (granted x5) - total (granted x0)) * Second <
    (BurstBytes (policy (sched x0)) + 1) * Second +
    GlobalBytesPerSecond (policy (sched x0)) *
      (last (global (sched x5)) - last (global (sched x0))).
Proof.
  apply (bandwidth_bound clock rate0 rate0_ok x0 x5);
    [apply x0_inv|apply steps_x5|vm_compute; done].
Defined.

Lemma timer_suffices_witness :
  (canGrantLocked clock (refillLocked s6 (Second + 100000000)) (request w_i)).1 = true.
Proof.
  apply (timer_suffices clock rate0 rate0_ok (sched x5) w_i 100000000 s6 (Second + 100000000)).
  - exact (sy_inv _ _ x5_inv).
  - by apply (bool_decide_unpack _); vm_compute.
  - vm_compute; done.
  - done.
  - intros b [->|[Hb|(e & He & Hb)]].
    + vm_compute; split; discriminate.
    + vm_compute in Hb. injection Hb as <-. vm_compute; split; discriminate.
    + apply list_elem_of_singleton in He as ->. vm_compute in Hb.
      injection Hb as <-. vm_compute; split; discriminate.
Defined.

Lemma scheduler_invariant_witness : sys_inv rate0 x7.
Proof.
  apply (scheduler_invariant clock rate0 rate0_ok policy0 HardResourceCeilings s0);
    [apply policy0_typed|apply new_s0|].
  etrans; [exact (steady_rtc_step clock rate0 _ _ steps_x5)|].
  eapply rtc_l; [exists EvQuiet; apply step_x6|].
  apply rtc_once. exists (EvGrant i_). apply step_x7.
Defined.
End SchedulerDemo.
