(* ===== verification/CacheRecords.v ===== *)
(** The cache's identifiers and durable records
    (src/internal/cache/ids.go and records.go).

    Identifiers are lowercase hexadecimal strings.  Records are validated one by
    one and as a [Snapshot], whose validation is the referential integrity of
    the catalog. *)
From S2P Require Import Prelude.

(** * Identifiers *)
Definition contentIDHexLength : Z := 64.
Definition randomIDHexLength : Z := 32.
Definition maxEndpointIDBytes : Z := Z.shiftl 4 10.
Definition maxCanonicalPathBytes : Z := Z.shiftl 1 20.
Definition maxCanonicalFingerprint : Z := Z.shiftl 64 10.

(** One constructor per error message of the two files; [ErrIn] is the
    wrapping that names the record. *)
Inductive CacheError :=
| ErrParseID (kind : string) (width : Z)
| ErrDeriveEndpointID
| ErrDeriveCanonicalPath
| ErrDeriveFingerprint
| ErrFingerprintStrength (s : string)
| ErrFingerprintLength
| ErrNegativeSize (kind id : string)
| ErrUnknownState (kind id s : string)
| ErrAccessTimes (kind id : string)
| ErrEntryEndpointID (id : string)
| ErrEntryPath (id : string)
| ErrEntryFreshness (id s : string)
| ErrEntryPolicy (id s : string)
| ErrEntryPinnedOffline (id : string)
| ErrEntryWorkspace (id : string)
| ErrIn (kind id : string) (e : CacheError)
| ErrTargetExactlyOne
| ErrOwnerKind (kind id s : string)
| ErrOwnerID (kind id : string)
| ErrZeroCreation (id : string)
| ErrProcessPID
| ErrProcessBirth
| ErrActiveReleased (id : string)
| ErrReleasedNoTime (id : string)
| ErrLeaseOrdering (id : string)
| ErrDuplicate (kind id : string)
| ErrMissing (kind id what : string).

Definition is_lower_hex (c : ascii) : bool :=
  let n := N_of_ascii c in
  ((48 <=? n) && (n <=? 57) || (97 <=? n) && (n <=? 102))%N.

(** The code's loop ranges over runes and looks at their first byte: the first
    byte that is not ASCII starts a rune, so every byte is looked at until one
    is refused. *)
Definition validateLowerHexID (kind value : string) (width : Z) :
    result CacheError () :=
  if negb (len value =? width) then Err (ErrParseID kind width) else
  if forallb is_lower_hex (String.list_ascii_of_string value) then Ok tt
  else Err (ErrParseID kind width).

Definition ParseBlobID (value : string) : result CacheError string :=
  _ ← validateLowerHexID "blob" value contentIDHexLength; Ok value.
Definition ParseEntryID (value : string) : result CacheError string :=
  _ ← validateLowerHexID "entry" value contentIDHexLength; Ok value.
Definition ParseMaterializationID (value : string) : result CacheError string :=
  _ ← validateLowerHexID "materialization" value randomIDHexLength; Ok value.
Definition ParseReferenceID (value : string) : result CacheError string :=
  _ ← validateLowerHexID "reference" value randomIDHexLength; Ok value.
Definition ParseLeaseID (value : string) : result CacheError string :=
  _ ← validateLowerHexID "lease" value randomIDHexLength; Ok value.

(** [hex.EncodeToString]. *)
Definition hex_digit (n : N) : ascii :=
  ascii_of_N (if n <? 10 then 48 + n else 87 + n)%N.
Definition hex_byte (b : byte) : list ascii :=
  let n := Byte.to_N b in [hex_digit (n / 16); hex_digit (n mod 16)]%N.
Definition hex_EncodeToString (bs : list byte) : string :=
  String.string_of_list_ascii (concat (hex_byte <$> bs)).

Definition BlobIDFromDigest (digest : list byte) : string := hex_EncodeToString digest.

Definition writeLengthValue (value : list byte) : list byte :=
  be_bytes 8 (blen value) ++ value.

Definition entry_id_domain : list byte :=
  String.list_byte_of_string "amsftp-cache-entry-v1" ++ [x00].

(** The bytes written to the digest. *)
Definition entry_preimage (endpointID : string)
    (canonicalRawPath canonicalFingerprint : list byte) : list byte :=
  entry_id_domain ++ writeLengthValue (String.list_byte_of_string endpointID) ++
  writeLengthValue canonicalRawPath ++ writeLengthValue canonicalFingerprint.

(** [sha256] is the standard library's hash. *)
Definition DeriveEntryID (sha256 : list byte → list byte) (endpointID : string)
    (canonicalRawPath canonicalFingerprint : list byte) : result CacheError string :=
  if bool_decide (endpointID = "") || (len endpointID >? maxEndpointIDBytes)
  then Err ErrDeriveEndpointID else
  if (blen canonicalRawPath =? 0) || (blen canonicalRawPath >? maxCanonicalPathBytes)
  then Err ErrDeriveCanonicalPath else
  if (blen canonicalFingerprint =? 0) ||
     (blen canonicalFingerprint >? maxCanonicalFingerprint)
  then Err ErrDeriveFingerprint else
  Ok (hex_EncodeToString
        (sha256 (entry_preimage endpointID canonicalRawPath canonicalFingerprint))).

(** * Records *)
Definition PolicyLRU := "lru".
Definition PolicyEphemeral := "ephemeral".
Definition PolicyPinnedOffline := "pinned_offline".
Definition BlobPublished := "published".
Definition BlobDeleting := "deleting".
Definition FingerprintWeak := "weak".
Definition FingerprintStrong := "strong".
Definition EntryFresh := "fresh".
Definition EntryStale := "stale".
Definition EntryUnknown := "unknown".
Definition MaterializationClean := "clean".
Definition MaterializationDirty := "dirty".
Definition MaterializationOrphaned := "orphaned".
Definition MaterializationDeleting := "deleting".
Definition reference_owner_kinds : list string :=
  ["workspace"; "preview"; "edit"; "open"; "upload"; "stage2_part"].
Definition lease_owner_kinds : list string :=
  ["preview"; "editor"; "opener"; "upload"].
Definition LeaseActive := "active".
Definition LeaseReleased := "released".

Record Fingerprint := mkFingerprint {
  fp_Strength : string;
  fp_Canonical : list byte;
}.

Record Blob := mkBlob {
  blob_ID : string;
  blob_Size : Z;  (* int64 *)
  blob_State : string;
  blob_CreatedAt : Time;
  blob_LastAccessAt : Time;
}.

Record Entry := mkEntry {
  entry_ID : string;
  entry_EndpointID : string;
  entry_CanonicalPath : list byte;
  entry_Fingerprint : Fingerprint;
  entry_Freshness : string;
  entry_Policy : string;
  entry_WorkspaceID : string;
  entry_Pinned : bool;
  entry_BlobID : string;
  entry_CreatedAt : Time;
  entry_LastAccessAt : Time;
}.
#[export] Instance eta_Entry : Settable Entry := λ e,
  mkEntry (entry_ID e) (entry_EndpointID e) (entry_CanonicalPath e)
    (entry_Fingerprint e) (entry_Freshness e) (entry_Policy e)
    (entry_WorkspaceID e) (entry_Pinned e) (entry_BlobID e) (entry_CreatedAt e)
    (entry_LastAccessAt e).

Record Materialization := mkMaterialization {
  mat_ID : string;
  mat_EntryID : string;
  mat_BaselineBlobID : string;
  mat_CurrentBlobID : string;
  mat_Size : Z;  (* int64 *)
  mat_State : string;
  mat_Pinned : bool;
  mat_CreatedAt : Time;
  mat_LastAccessAt : Time;
}.
#[export] Instance eta_Materialization : Settable Materialization := λ m,
  mkMaterialization (mat_ID m) (mat_EntryID m) (mat_BaselineBlobID m)
    (mat_CurrentBlobID m) (mat_Size m) (mat_State m) (mat_Pinned m)
    (mat_CreatedAt m) (mat_LastAccessAt m).

Record Target := mkTarget {
  target_BlobID : string;
  target_MaterializationID : string;
}.
Definition BlobTarget (id : string) : Target := mkTarget id "".
Definition MaterializationTarget (id : string) : Target := mkTarget "" id.

Record Reference := mkReference {
  ref_ID : string;
  ref_OwnerKind : string;
  ref_OwnerID : string;
  ref_Target : Target;
  ref_CreatedAt : Time;
}.

Record ProcessIdentity := mkProcessIdentity {
  PID : Z;
  BirthID : string;
}.

Record Lease := mkLease {
  lease_ID : string;
  lease_OwnerKind : string;
  lease_OwnerID : string;
  lease_DaemonInstanceID : string;
  lease_Target : Target;
  lease_State : string;
  lease_HeartbeatAt : Time;
  lease_ExpiresAt : Time;
  lease_GraceUntil : Time;
  lease_ReleasedAt : Time;
  lease_Process : option ProcessIdentity;
}.
#[export] Instance eta_Lease : Settable Lease := λ l,
  mkLease (lease_ID l) (lease_OwnerKind l) (lease_OwnerID l)
    (lease_DaemonInstanceID l) (lease_Target l) (lease_State l)
    (lease_HeartbeatAt l) (lease_ExpiresAt l) (lease_GraceUntil l)
    (lease_ReleasedAt l) (lease_Process l).

Record Snapshot := mkSnapshot {
  Blobs : list Blob;
  Entries : list Entry;
  Materializations : list Materialization;
  References : list Reference;
  Leases : list Lease;
}.
#[export] Instance eta_Snapshot : Settable Snapshot := λ s,
  mkSnapshot (Blobs s) (Entries s) (Materializations s) (References s) (Leases s).

(** * Validation of one record *)
Definition Fingerprint_Validate (f : Fingerprint) : result CacheError () :=
  _ ← check (bool_decide (fp_Strength f ∈ [FingerprintWeak; FingerprintStrong]))
        (ErrFingerprintStrength (fp_Strength f));
  check (negb ((blen (fp_Canonical f) =? 0) ||
               (blen (fp_Canonical f) >? maxCanonicalFingerprint)))
    ErrFingerprintLength.

Definition validateAccessTimes (kind id : string) (createdAt lastAccessAt : Time) :
    result CacheError () :=
  check (negb (time_is_zero createdAt || time_is_zero lastAccessAt ||
               (lastAccessAt <? createdAt))) (ErrAccessTimes kind id).

Definition Blob_Validate (b : Blob) : result CacheError () :=
  _ ← ParseBlobID (blob_ID b);
  _ ← check (negb (blob_Size b <? 0)) (ErrNegativeSize "blob" (blob_ID b));
  _ ← check (bool_decide (blob_State b ∈ [BlobPublished; BlobDeleting]))
        (ErrUnknownState "blob" (blob_ID b) (blob_State b));
  validateAccessTimes "blob" (blob_ID b) (blob_CreatedAt b) (blob_LastAccessAt b).

Definition Entry_Validate (e : Entry) : result CacheError () :=
  let id := entry_ID e in
  _ ← ParseEntryID id;
  _ ← check (negb (bool_decide (entry_EndpointID e = "") ||
                   (len (entry_EndpointID e) >? maxEndpointIDBytes)))
        (ErrEntryEndpointID id);
  _ ← check (negb ((blen (entry_CanonicalPath e) =? 0) ||
                   (blen (entry_CanonicalPath e) >? maxCanonicalPathBytes)))
        (ErrEntryPath id);
  _ ← map_err (ErrIn "entry" id) (Fingerprint_Validate (entry_Fingerprint e));
  _ ← check (bool_decide (entry_Freshness e ∈ [EntryFresh; EntryStale; EntryUnknown]))
        (ErrEntryFreshness id (entry_Freshness e));
  _ ← check (bool_decide
               (entry_Policy e ∈ [PolicyLRU; PolicyEphemeral; PolicyPinnedOffline]))
        (ErrEntryPolicy id (entry_Policy e));
  _ ← check (negb (bool_decide (entry_Policy e = PolicyPinnedOffline) &&
                   negb (entry_Pinned e)))
        (ErrEntryPinnedOffline id);
  _ ← check (negb (bool_decide (entry_WorkspaceID e = ""))) (ErrEntryWorkspace id);
  _ ← map_err (ErrIn "entry" id) (ParseBlobID (entry_BlobID e));
  validateAccessTimes "entry" id (entry_CreatedAt e) (entry_LastAccessAt e).

Definition Materialization_Validate (m : Materialization) : result CacheError () :=
  let id := mat_ID m in
  _ ← ParseMaterializationID id;
  _ ← map_err (ErrIn "materialization" id) (ParseEntryID (mat_EntryID m));
  _ ← map_err (ErrIn "materialization" id) (ParseBlobID (mat_BaselineBlobID m));
  _ ← map_err (ErrIn "materialization" id) (ParseBlobID (mat_CurrentBlobID m));
  _ ← check (negb (mat_Size m <? 0)) (ErrNegativeSize "materialization" id);
  _ ← check (bool_decide (mat_State m ∈ [MaterializationClean; MaterializationDirty;
                                         MaterializationOrphaned;
                                         MaterializationDeleting]))
        (ErrUnknownState "materialization" id (mat_State m));
  validateAccessTimes "materialization" id (mat_CreatedAt m) (mat_LastAccessAt m).

Definition Target_Validate (t : Target) : result CacheError () :=
  let hasBlob := negb (bool_decide (target_BlobID t = "")) in
  let hasMaterialization := negb (bool_decide (target_MaterializationID t = "")) in
  if Bool.eqb hasBlob hasMaterialization then Err ErrTargetExactlyOne else
  if hasBlob then _ ← ParseBlobID (target_BlobID t); Ok tt
  else _ ← ParseMaterializationID (target_MaterializationID t); Ok tt.

Definition Reference_Validate (r : Reference) : result CacheError () :=
  let id := ref_ID r in
  _ ← ParseReferenceID id;
  _ ← check (bool_decide (ref_OwnerKind r ∈ reference_owner_kinds))
        (ErrOwnerKind "reference" id (ref_OwnerKind r));
  _ ← check (negb (bool_decide (ref_OwnerID r = ""))) (ErrOwnerID "reference" id);
  _ ← map_err (ErrIn "reference" id) (Target_Validate (ref_Target r));
  check (negb (time_is_zero (ref_CreatedAt r))) (ErrZeroCreation id).

Definition ProcessIdentity_Validate (p : ProcessIdentity) : result CacheError () :=
  _ ← check (negb (PID p <=? 0)) ErrProcessPID;
  check (negb (bool_decide (BirthID p = ""))) ErrProcessBirth.

Definition Lease_Validate (l : Lease) : result CacheError () :=
  let id := lease_ID l in
  _ ← ParseLeaseID id;
  _ ← check (bool_decide (lease_OwnerKind l ∈ lease_owner_kinds))
        (ErrOwnerKind "lease" id (lease_OwnerKind l));
  _ ← check (negb (bool_decide (lease_OwnerID l = "") ||
                   bool_decide (lease_DaemonInstanceID l = "")))
        (ErrOwnerID "lease" id);
  _ ← map_err (ErrIn "lease" id) (Target_Validate (lease_Target l));
  _ ← (if bool_decide (lease_State l = LeaseActive) then
         check (time_is_zero (lease_ReleasedAt l)) (ErrActiveReleased id)
       else if bool_decide (lease_State l = LeaseReleased) then
         check (negb (time_is_zero (lease_ReleasedAt l))) (ErrReleasedNoTime id)
       else Err (ErrUnknownState "lease" id (lease_State l)));
  _ ← check (negb (time_is_zero (lease_HeartbeatAt l) ||
                   (lease_ExpiresAt l <? lease_HeartbeatAt l) ||
                   (lease_GraceUntil l <? lease_ExpiresAt l)))
        (ErrLeaseOrdering id);
  match lease_Process l with
  | Some p => map_err (ErrIn "lease" id) (ProcessIdentity_Validate p)
  | None => Ok tt
  end.

(** * Validation of a snapshot

    Each loop of [Snapshot.Validate] collects the identifiers it has seen. *)
Definition targetExists (t : Target) (blobs materializations : gset string) : bool :=
  if negb (bool_decide (target_BlobID t = ""))
  then bool_decide (target_BlobID t ∈ blobs)
  else bool_decide (target_MaterializationID t ∈ materializations).

Definition validate_blob (blobs : gset string) (b : Blob) :
    result CacheError (gset string) :=
  _ ← Blob_Validate b;
  _ ← check (bool_decide (blob_ID b ∉ blobs)) (ErrDuplicate "blob" (blob_ID b));
  Ok ({[blob_ID b]} ∪ blobs).

Definition validate_entry (blobs entries : gset string) (e : Entry) :
    result CacheError (gset string) :=
  _ ← Entry_Validate e;
  _ ← check (bool_decide (entry_ID e ∉ entries)) (ErrDuplicate "entry" (entry_ID e));
  _ ← check (bool_decide (entry_BlobID e ∈ blobs))
        (ErrMissing "entry" (entry_ID e) (entry_BlobID e));
  Ok ({[entry_ID e]} ∪ entries).

Definition validate_materialization (blobs entries mats : gset string)
    (m : Materialization) : result CacheError (gset string) :=
  _ ← Materialization_Validate m;
  _ ← check (bool_decide (mat_ID m ∉ mats)) (ErrDuplicate "materialization" (mat_ID m));
  _ ← check (bool_decide (mat_EntryID m ∈ entries))
        (ErrMissing "materialization" (mat_ID m) (mat_EntryID m));
  _ ← check (bool_decide (mat_BaselineBlobID m ∈ blobs))
        (ErrMissing "materialization" (mat_ID m) (mat_BaselineBlobID m));
  Ok ({[mat_ID m]} ∪ mats).

Definition validate_reference (blobs mats references : gset string)
    (r : Reference) : result CacheError (gset string) :=
  _ ← Reference_Validate r;
  _ ← check (bool_decide (ref_ID r ∉ references)) (ErrDuplicate "reference" (ref_ID r));
  _ ← check (targetExists (ref_Target r) blobs mats)
        (ErrMissing "reference" (ref_ID r) "target");
  Ok ({[ref_ID r]} ∪ references).

Definition validate_lease (blobs mats leases : gset string) (l : Lease) :
    result CacheError (gset string) :=
  _ ← Lease_Validate l;
  _ ← check (bool_decide (lease_ID l ∉ leases)) (ErrDuplicate "lease" (lease_ID l));
  _ ← check (targetExists (lease_Target l) blobs mats)
        (ErrMissing "lease" (lease_ID l) "target");
  Ok ({[lease_ID l]} ∪ leases).

Definition Snapshot_Validate (s : Snapshot) : result CacheError () :=
  blobs ← for_each validate_blob ∅ (Blobs s);
  entries ← for_each (validate_entry blobs) ∅ (Entries s);
  mats ← for_each (validate_materialization blobs entries) ∅ (Materializations s);
  _ ← for_each (validate_reference blobs mats) ∅ (References s);
  _ ← for_each (validate_lease blobs mats) ∅ (Leases s);
  Ok tt.
