(* ===== verification/CacheFacts.v ===== *)
(** Theorems of the cache's identifiers and snapshots. *)
From S2P Require Import Prelude CacheRecords.

(** * Identifiers *)
Lemma validateLowerHexID_ok kind value width u :
  validateLowerHexID kind value width = Ok u ↔
  len value = width ∧ forallb is_lower_hex (String.list_ascii_of_string value) = true.
Proof.
  unfold validateLowerHexID. destruct (Z.eqb_spec (len value) width); cbn; [|naive_solver].
  destruct u. destruct (forallb _ _); naive_solver.
Qed.

Lemma hex_digit_lower n : (n < 16)%N → is_lower_hex (hex_digit n) = true.
Proof.
  intros Hn. unfold hex_digit.
  assert (n ∈ (N.of_nat <$> seq 0 16)) as Hin.
  { apply list_elem_of_fmap. exists (N.to_nat n). rewrite N2Nat.id, elem_of_seq. lia. }
  repeat (apply elem_of_cons in Hin as [->|Hin]; [reflexivity|]).
  by apply elem_of_nil in Hin.
Qed.

Lemma hex_byte_lower b : forallb is_lower_hex (hex_byte b) = true.
Proof. destruct b; reflexivity. Qed.

Lemma hex_byte_inj b1 b2 : hex_byte b1 = hex_byte b2 → b1 = b2.
Proof.
  intros H. assert (∀ b, Byte.to_N b =
    (let d c := let n := N_of_ascii c in if n <? 97 then n - 48 else n - 87 in
     d (nth 0 (hex_byte b) "0"%char) * 16 + d (nth 1 (hex_byte b) "0"%char))%N) as Hd
    by (intros []; reflexivity).
  assert (Byte.to_N b1 = Byte.to_N b2) as E by (rewrite (Hd b1), (Hd b2), H; done).
  assert (Byte.of_N (Byte.to_N b1) = Byte.of_N (Byte.to_N b2)) as E' by by rewrite E.
  rewrite !Byte.of_to_N in E'. congruence.
Qed.

Lemma hex_concat_inj bs1 bs2 :
  concat (hex_byte <$> bs1) = concat (hex_byte <$> bs2) → bs1 = bs2.
Proof.
  revert bs2; induction bs1 as [|b1 bs1 IH]; intros [|b2 bs2]; try done.
  cbn [fmap list_fmap concat]. intros E.
  apply app_inj_1 in E as [Hb%hex_byte_inj E]; [|done].
  f_equal; [done|]. by apply IH.
Qed.

Lemma hex_EncodeToString_inj bs1 bs2 :
  hex_EncodeToString bs1 = hex_EncodeToString bs2 → bs1 = bs2.
Proof.
  unfold hex_EncodeToString. intros E. apply hex_concat_inj.
  apply (f_equal String.list_ascii_of_string) in E.
  by rewrite !String.list_ascii_of_string_of_list_ascii in E.
Qed.

Lemma string_length_list s : String.length s = length (String.list_ascii_of_string s).
Proof. induction s; cbn; congruence. Qed.

Lemma hex_EncodeToString_lower bs :
  len (hex_EncodeToString bs) = 2 * blen bs ∧
  forallb is_lower_hex (String.list_ascii_of_string (hex_EncodeToString bs)) = true.
Proof.
  unfold len, blen, hex_EncodeToString.
  rewrite string_length_list, String.list_ascii_of_string_of_list_ascii.
  induction bs as [|b bs [IHl IHf]]; cbn [fmap list_fmap concat length]; [done|].
  split; [rewrite length_app; cbn; unfold fmap in *; lia|].
  by rewrite forallb_app, hex_byte_lower, IHf.
Qed.

Lemma length_list_byte s :
  Z.of_nat (length (String.list_byte_of_string s)) = len s.
Proof.
  unfold len, String.list_byte_of_string. by rewrite length_map, string_length_list.
Qed.

Lemma writeLengthValue_inj v1 v2 r1 r2 :
  blen v1 < 2 ^ 64 → blen v2 < 2 ^ 64 →
  writeLengthValue v1 ++ r1 = writeLengthValue v2 ++ r2 → v1 = v2 ∧ r1 = r2.
Proof.
  intros H1 H2. unfold writeLengthValue. rewrite <-!app_assoc. intros E.
  apply app_inj_1 in E as [Hl E]; [|by rewrite !length_be_bytes].
  apply be_bytes_inj in Hl; [|unfold blen in *; lia..].
  apply app_inj_1 in E; [done|]. unfold blen in Hl. lia.
Qed.

Lemma entry_preimage_inj e1 p1 f1 e2 p2 f2 :
  len e1 < 2 ^ 64 → len e2 < 2 ^ 64 → blen p1 < 2 ^ 64 → blen p2 < 2 ^ 64 →
  blen f1 < 2 ^ 64 → blen f2 < 2 ^ 64 →
  entry_preimage e1 p1 f1 = entry_preimage e2 p2 f2 → e1 = e2 ∧ p1 = p2 ∧ f1 = f2.
Proof.
  intros ??????. unfold entry_preimage. intros E%app_inv_head.
  apply writeLengthValue_inj in E as [He E]; [|unfold blen; by rewrite length_list_byte..].
  apply writeLengthValue_inj in E as [-> E]; [|done..].
  rewrite <-(app_nil_r (writeLengthValue f1)), <-(app_nil_r (writeLengthValue f2)) in E.
  apply writeLengthValue_inj in E as [-> _]; [|done..].
  apply (f_equal String.string_of_list_byte) in He.
  by rewrite !String.string_of_list_byte_of_string in He.
Qed.

Lemma DeriveEntryID_ok sha256 e p f id :
  DeriveEntryID sha256 e p f = Ok id →
  0 < len e ≤ maxEndpointIDBytes ∧ 0 < blen p ≤ maxCanonicalPathBytes ∧
  0 < blen f ≤ maxCanonicalFingerprint ∧
  id = hex_EncodeToString (sha256 (entry_preimage e p f)).
Proof.
  unfold DeriveEntryID. rewrite !Z.gtb_ltb.
  case_bool_decide; cbn; [done|].
  destruct (Z.ltb_spec maxEndpointIDBytes (len e)); [done|].
  destruct (Z.eqb_spec (blen p) 0); cbn; [done|].
  destruct (Z.ltb_spec maxCanonicalPathBytes (blen p)); [done|].
  destruct (Z.eqb_spec (blen f) 0); cbn; [done|].
  destruct (Z.ltb_spec maxCanonicalFingerprint (blen f)); [done|].
  intros [= <-]. assert (0 < len e) by (destruct e; [done|]; unfold len; cbn; lia).
  unfold blen in *. split_and!; done || lia.
Qed.

(** a cache entry identifier names one location and one version of it.
    Two derivations that give the same identifier are of the same endpoint,
    the same path bytes and the same fingerprint, or exhibit two different
    inputs on which SHA-256 collides: no choice of raw path bytes can imitate
    the boundaries between the three fields. *)
Theorem DeriveEntryID_injective sha256 e1 p1 f1 e2 p2 f2 id :
  DeriveEntryID sha256 e1 p1 f1 = Ok id → DeriveEntryID sha256 e2 p2 f2 = Ok id →
  (e1 = e2 ∧ p1 = p2 ∧ f1 = f2) ∨ (∃ x y, x ≠ y ∧ sha256 x = sha256 y).
Proof.
  intros (He1 & Hp1 & Hf1 & ->)%DeriveEntryID_ok (He2 & Hp2 & Hf2 & E)%DeriveEntryID_ok.
  apply hex_EncodeToString_inj in E.
  destruct (decide (entry_preimage e1 p1 f1 = entry_preimage e2 p2 f2)) as [Heq|Hne].
  - left. apply entry_preimage_inj in Heq; [done|..].
    all: eapply Z.le_lt_trans; [apply He1 || apply He2 || apply Hp1 || apply Hp2
      || apply Hf1 || apply Hf2|done].
  - right. eauto.
Qed.

Lemma DeriveEntryID_injective_witness :
  let h := λ bs : list byte, bs in
  DeriveEntryID h "e" [x01] [x02] = DeriveEntryID h "e" [x01] [x02] ∧
  (("e" = "e" ∧ [x01] = [x01] ∧ [x02] = [x02]) ∨
   (∃ x y, x ≠ y ∧ h x = h y)).
Proof.
  split; [reflexivity|].
  apply (DeriveEntryID_injective (λ bs : list byte, bs) "e" [x01] [x02] "e" [x01] [x02]
    (hex_EncodeToString (entry_preimage "e" [x01] [x02]))); reflexivity.
Defined.

(** A derived identifier is a well-formed entry identifier. *)
Lemma DeriveEntryID_parses sha256 e p f id :
  (∀ bs, length (sha256 bs) = 32%nat) →
  DeriveEntryID sha256 e p f = Ok id → ParseEntryID id = Ok id.
Proof.
  intros Hsha (_ & _ & _ & ->)%DeriveEntryID_ok. unfold ParseEntryID.
  set (h := sha256 _). destruct (hex_EncodeToString_lower h) as [Hl Hh].
  destruct (validateLowerHexID "entry" (hex_EncodeToString h) contentIDHexLength)
    as [u|e0] eqn:E; [done|].
  assert (validateLowerHexID "entry" (hex_EncodeToString h) contentIDHexLength = Ok tt)
    as E1; [|congruence].
  apply validateLowerHexID_ok. split; [|done]. rewrite Hl. unfold blen, h. by rewrite Hsha.
Qed.

(** * Snapshots *)
Definition blob_ids (s : Snapshot) : gset string := list_to_set (blob_ID <$> Blobs s).
Definition entry_ids (s : Snapshot) : gset string := list_to_set (entry_ID <$> Entries s).
Definition mat_ids (s : Snapshot) : gset string :=
  list_to_set (mat_ID <$> Materializations s).

Definition target_in (s : Snapshot) (t : Target) : Prop :=
  targetExists t (blob_ids s) (mat_ids s) = true.

(** The referential integrity that validation promises. *)
Record snapshot_ok (s : Snapshot) : Prop := {
  so_blob : ∀ b, b ∈ Blobs s → Blob_Validate b = Ok tt;
  so_blob_nodup : NoDup (blob_ID <$> Blobs s);
  so_entry : ∀ e, e ∈ Entries s → Entry_Validate e = Ok tt ∧ entry_BlobID e ∈ blob_ids s;
  so_entry_nodup : NoDup (entry_ID <$> Entries s);
  so_mat : ∀ m, m ∈ Materializations s → Materialization_Validate m = Ok tt ∧
    mat_EntryID m ∈ entry_ids s ∧ mat_BaselineBlobID m ∈ blob_ids s;
  so_mat_nodup : NoDup (mat_ID <$> Materializations s);
  so_ref : ∀ r, r ∈ References s → Reference_Validate r = Ok tt ∧ target_in s (ref_Target r);
  so_ref_nodup : NoDup (ref_ID <$> References s);
  so_lease : ∀ l, l ∈ Leases s → Lease_Validate l = Ok tt ∧ target_in s (lease_Target l);
  so_lease_nodup : NoDup (lease_ID <$> Leases s);
}.

(** [loop_body v] solves the specification of one turn of a validation loop
    whose record validation is [v]. *)
Ltac loop_body v :=
  destruct v as [[]|]; unfold check; cbn [mbind result_bind];
  repeat (case_bool_decide; cbn [mbind result_bind]); split; intuition congruence.

Lemma validate_blob_ok s b s' :
  validate_blob s b = Ok s' ↔
  Blob_Validate b = Ok tt ∧ (blob_ID b ∉ s) ∧ s' = {[blob_ID b]} ∪ s.
Proof. unfold validate_blob. loop_body (Blob_Validate b). Qed.

Lemma validate_entry_ok bs s e s' :
  validate_entry bs s e = Ok s' ↔
  (Entry_Validate e = Ok tt ∧ entry_BlobID e ∈ bs) ∧
  (entry_ID e ∉ s) ∧ s' = {[entry_ID e]} ∪ s.
Proof. unfold validate_entry. loop_body (Entry_Validate e). Qed.

Lemma validate_materialization_ok bs es s m s' :
  validate_materialization bs es s m = Ok s' ↔
  (Materialization_Validate m = Ok tt ∧ (mat_EntryID m ∈ es) ∧
   mat_BaselineBlobID m ∈ bs) ∧
  (mat_ID m ∉ s) ∧ s' = {[mat_ID m]} ∪ s.
Proof. unfold validate_materialization. loop_body (Materialization_Validate m). Qed.

Lemma validate_reference_ok bs ms s r s' :
  validate_reference bs ms s r = Ok s' ↔
  (Reference_Validate r = Ok tt ∧ targetExists (ref_Target r) bs ms = true) ∧
  (ref_ID r ∉ s) ∧ s' = {[ref_ID r]} ∪ s.
Proof.
  unfold validate_reference.
  destruct (targetExists (ref_Target r) bs ms); loop_body (Reference_Validate r).
Qed.

Lemma validate_lease_ok bs ms s l s' :
  validate_lease bs ms s l = Ok s' ↔
  (Lease_Validate l = Ok tt ∧ targetExists (lease_Target l) bs ms = true) ∧
  (lease_ID l ∉ s) ∧ s' = {[lease_ID l]} ∪ s.
Proof.
  unfold validate_lease.
  destruct (targetExists (lease_Target l) bs ms); loop_body (Lease_Validate l).
Qed.

(** [keys_tac H] runs a validation loop with the specification [H] of its turns. *)
Ltac keys_tac H :=
  apply (for_each_keys _ _ _ _ _ _ H); split_and!;
  [by apply Forall_forall|done|by intros ? _ ?%elem_of_empty
  |first [done|by rewrite (right_id_L ∅ (∪))|reflexivity]].

(** C36: validating a snapshot is exactly checking its referential integrity:
    it succeeds when every record is valid, identifiers are unique in their
    kind, entries and materializations name blobs and entries of the snapshot
    and every reference and lease has its target, and it refuses every other
    snapshot. *)
Theorem Snapshot_Validate_ok s : Snapshot_Validate s = Ok tt ↔ snapshot_ok s.
Proof.
  unfold Snapshot_Validate. split.
  - intros (bs & Hb & H)%bind_ok.
    apply (for_each_keys _ _ _ _ _ _ validate_blob_ok) in Hb as (Hb & Hbn & _ & ->).
    rewrite (right_id_L ∅ (∪)) in H. apply bind_ok in H as (es & He & H).
    apply (for_each_keys _ _ _ _ _ _ (validate_entry_ok _)) in He as (He & Hen & _ & ->).
    rewrite (right_id_L ∅ (∪)) in H. apply bind_ok in H as (ms & Hm & H).
    apply (for_each_keys _ _ _ _ _ _ (validate_materialization_ok _ _))
      in Hm as (Hm & Hmn & _ & ->).
    rewrite (right_id_L ∅ (∪)) in H. apply bind_ok in H as (rs & Hr & H).
    apply (for_each_keys _ _ _ _ _ _ (validate_reference_ok _ _))
      in Hr as (Hr & Hrn & _ & ->).
    apply bind_ok in H as (ls & Hl & _).
    apply (for_each_keys _ _ _ _ _ _ (validate_lease_ok _ _)) in Hl as (Hl & Hln & _ & ->).
    split; first [done|by apply Forall_forall].
  - intros [].
    apply bind_ok; exists (blob_ids s); split; [keys_tac validate_blob_ok|].
    apply bind_ok; exists (entry_ids s); split; [keys_tac (validate_entry_ok (blob_ids s))|].
    apply bind_ok; exists (mat_ids s); split;
      [keys_tac (validate_materialization_ok (blob_ids s) (entry_ids s))|].
    apply bind_ok; eexists; split;
      [keys_tac (validate_reference_ok (blob_ids s) (mat_ids s))|].
    apply bind_ok; eexists; split; [keys_tac (validate_lease_ok (blob_ids s) (mat_ids s))|done].
Qed.
