(* ===== verification/CacheLease.v ===== *)
(** The cache's lease manager (src/internal/cache/lease.go).

    The injected clock and process classifier are functions of a counter of
    clock readings, so that successive calls may answer differently; the
    counter is threaded through the calls.  A nil interface is [None]. *)
From S2P Require Import Prelude CacheRecords.

Definition DefaultLeaseHeartbeat : Duration := 30 * Second.
Definition DefaultLeaseExpiry : Duration := 2 * Minute.
Definition DefaultOpenerGrace : Duration := 15 * Minute.

Definition ProcessMatches := "matches".
Definition ProcessGone := "gone".
Definition ProcessBirthMismatch := "birth_mismatch".
Definition ProcessUncertain := "uncertain".

Definition LeaseProtectedActive := "active".
Definition LeaseProtectedGrace := "grace".
Definition LeaseProtectedLiveProcess := "live_process".
Definition LeaseProtectedUncertain := "uncertain".
Definition LeaseReclaimable := "reclaimable".

Record LeaseManager := mkLeaseManager {
  lm_clock : option (nat → Time);
  lm_processes : option (nat → ProcessIdentity → string);
  lm_expiry : Duration;
  lm_grace : Duration;
}.

Inductive LeaseError :=
| ErrNilClock
| ErrExpiryGrace
| ErrNilManager
| ErrInvalidLease (e : CacheError)
| ErrNotActive (id : string).

Definition NewLeaseManager (clock : option (nat → Time))
    (processes : option (nat → ProcessIdentity → string)) (expiry grace : Duration) :
    result LeaseError LeaseManager :=
  match clock with
  | None => Err ErrNilClock
  | Some _ =>
    if (expiry <=? 0) || (grace <? 0) then Err ErrExpiryGrace
    else Ok (mkLeaseManager clock processes expiry grace)
  end.

(** The manager and its clock, or the nil error. *)
Definition manager_clock (manager : option LeaseManager) :
    result LeaseError (LeaseManager * (nat → Time)) :=
  match manager with
  | Some m => match lm_clock m with Some c => Ok (m, c) | None => Err ErrNilManager end
  | None => Err ErrNilManager
  end.

Definition Heartbeat (manager : option LeaseManager) (n : nat) (lease : Lease) :
    result LeaseError (Lease * nat) :=
  '(manager, clock) ← manager_clock manager;
  _ ← map_err ErrInvalidLease (Lease_Validate lease);
  if bool_decide (lease_State lease ≠ LeaseActive)
  then Err (ErrNotActive (lease_ID lease)) else
  let grace := time_sub (lease_GraceUntil lease) (lease_ExpiresAt lease) in
  let grace := if grace <? 0 then 0 else grace in
  let grace := if grace >? lm_grace manager then lm_grace manager else grace in
  let now := clock n in
  let lease := lease <| lease_HeartbeatAt := now |>
                     <| lease_ExpiresAt := now + lm_expiry manager |> in
  let lease := lease <| lease_GraceUntil := lease_ExpiresAt lease + grace |> in
  Ok (lease, S n).

Definition Release (manager : option LeaseManager) (n : nat) (lease : Lease) :
    result LeaseError (Lease * nat) :=
  '(manager, clock) ← manager_clock manager;
  _ ← map_err ErrInvalidLease (Lease_Validate lease);
  if bool_decide (lease_State lease ≠ LeaseActive)
  then Err (ErrNotActive (lease_ID lease)) else
  Ok (lease <| lease_State := LeaseReleased |> <| lease_ReleasedAt := clock n |>, S n).

(** The switch on the answer of the process classifier. *)
Definition process_protection (status : string) : string :=
  if bool_decide (status = ProcessMatches) then LeaseProtectedLiveProcess else
  if bool_decide (status = ProcessGone) || bool_decide (status = ProcessBirthMismatch)
  then LeaseReclaimable else LeaseProtectedUncertain.

Definition Classify (manager : option LeaseManager) (n : nat) (lease : Lease) :
    string * nat :=
  if bool_decide (lease_State lease = LeaseReleased) then (LeaseReclaimable, n) else
  match manager_clock manager, Lease_Validate lease with
  | Ok (manager, clock), Ok _ =>
    let now := clock n in
    if now <? lease_ExpiresAt lease then (LeaseProtectedActive, S n) else
    if now <? lease_GraceUntil lease then (LeaseProtectedGrace, S n) else
    match lease_Process lease, lm_processes manager with
    | Some p, Some processes => (process_protection (processes n p), S n)
    | _, _ => (LeaseProtectedUncertain, S n)
    end
  | _, _ => (LeaseProtectedUncertain, n)
  end.

Definition ClassifyProcess (manager : option LeaseManager) (n : nat) (lease : Lease) :
    string :=
  match manager_clock manager, Lease_Validate lease with
  | Ok (manager, _), Ok _ =>
    match lm_processes manager, lease_Process lease with
    | Some processes, Some p =>
      if bool_decide (lease_State lease ≠ LeaseActive) then LeaseProtectedUncertain
      else process_protection (processes n p)
    | _, _ => LeaseProtectedUncertain
    end
  | _, _ => LeaseProtectedUncertain
  end.

(** * When a lease stops protecting *)

(** The process that holds a lease is known to be gone. *)
Definition process_gone (manager : LeaseManager) (n : nat) (lease : Lease) : Prop :=
  ∃ p processes, lease_Process lease = Some p ∧ lm_processes manager = Some processes ∧
    processes n p ∈ [ProcessGone; ProcessBirthMismatch].

Lemma process_protection_reclaimable status :
  process_protection status = LeaseReclaimable ↔
  status ∈ [ProcessGone; ProcessBirthMismatch].
Proof.
  unfold process_protection. rewrite !elem_of_cons, elem_of_nil.
  repeat case_bool_decide; cbn; subst; naive_solver.
Qed.

Lemma manager_clock_ok manager m clock :
  manager_clock manager = Ok (m, clock) ↔ manager = Some m ∧ lm_clock m = Some clock.
Proof.
  destruct manager as [m'|]; cbn; [|naive_solver].
  destruct (lm_clock m') eqn:E; naive_solver.
Qed.

(** classification is fail-closed.  A lease that was not released is
    reclaimable only when its record is valid, its grace has passed and the
    process that holds it is known to be gone or to be another process; every
    doubt (nil manager, malformed record, no process, an answer the code does
    not know) protects it. *)
Theorem Classify_reclaimable manager n lease :
  (Classify manager n lease).1 = LeaseReclaimable ↔
  lease_State lease = LeaseReleased ∨
  ∃ m clock, manager = Some m ∧ lm_clock m = Some clock ∧
    Lease_Validate lease = Ok tt ∧
    lease_ExpiresAt lease ≤ clock n ∧ lease_GraceUntil lease ≤ clock n ∧
    process_gone m n lease.
Proof.
  unfold Classify, process_gone. case_bool_decide as Hr; [naive_solver|].
  destruct (manager_clock manager) as [[m clock]|e] eqn:Em.
  2: { split; [done|]. intros [?|(m & c & -> & Hc & _)]; [done|].
       cbn in Em. by rewrite Hc in Em. }
  apply manager_clock_ok in Em as [-> Hc].
  destruct (Lease_Validate lease) as [[]|e]; [|naive_solver].
  destruct (Z.ltb_spec (clock n) (lease_ExpiresAt lease)) as [He|He].
  { split; [done|]. intros [?|(m' & c & [= <-] & Hc' & _ & Hx & _)]; [done|].
    rewrite Hc in Hc'. injection Hc' as <-. lia. }
  destruct (Z.ltb_spec (clock n) (lease_GraceUntil lease)) as [Hg|Hg].
  { split; [done|]. intros [?|(m' & c & [= <-] & Hc' & _ & _ & Hx & _)]; [done|].
    rewrite Hc in Hc'. injection Hc' as <-. lia. }
  destruct (lease_Process lease) as [p|]; [|naive_solver].
  destruct (lm_processes m) as [processes|] eqn:Ep; [|naive_solver].
  cbn [fst]. rewrite process_protection_reclaimable. split; [naive_solver|].
  intros [?|(m' & c & [= <-] & _ & _ & _ & _ & p' & ps & [= <-] & Hps & Hin)]; [done|].
  rewrite Ep in Hps. by injection Hps as <-.
Qed.

(** What validation says of a lease's times. *)
Lemma Lease_Validate_times l :
  Lease_Validate l = Ok tt →
  lease_HeartbeatAt l ≤ lease_ExpiresAt l ≤ lease_GraceUntil l ∧
  lease_HeartbeatAt l ≠ 0.
Proof.
  unfold Lease_Validate, time_is_zero. rewrite !bind_ok. intros (? & _ & H).
  apply check_bind_ok in H as [_ H]. apply check_bind_ok in H as [_ H].
  apply bind_ok in H as (? & _ & H). apply bind_ok in H as (? & _ & H).
  apply check_bind_ok in H as [H _]. breflect. lia.
Qed.

(** Validation does not look at the times beyond their order. *)
Lemma Lease_Validate_retime l h x g :
  Lease_Validate l = Ok tt → lease_State l = LeaseActive →
  h ≠ 0 → h ≤ x ≤ g →
  Lease_Validate (l <| lease_HeartbeatAt := h |> <| lease_ExpiresAt := x |>
                    <| lease_GraceUntil := g |>) = Ok tt.
Proof.
  unfold Lease_Validate, time_is_zero. intros H Hs Hh Ho.
  apply bind_ok in H as (? & H1 & H). apply check_bind_ok in H as [H2 H].
  apply check_bind_ok in H as [H3 H]. apply bind_ok in H as (? & H4 & H).
  apply bind_ok in H as ([] & H5 & H). apply check_bind_ok in H as [_ H6].
  cbn. cbn in H1, H2, H3, H4, H5, H6. rewrite H1; cbn. rewrite H2; cbn. rewrite H3; cbn.
  rewrite H4; cbn. rewrite H5; cbn.
  rewrite (proj2 (Z.eqb_neq h 0)) by done.
  rewrite (proj2 (Z.ltb_ge x h)), (proj2 (Z.ltb_ge g x)) by lia. cbn. exact H6.
Qed.

(** a heartbeat keeps a lease alive.  It succeeds on every valid active
    lease, leaves a valid active lease on the same target with no more grace
    than it had, and until the new expiry every classification by the same
    manager finds it active. *)
Theorem Heartbeat_protects m clock n lease :
  lm_clock m = Some clock → 0 < lm_expiry m → 0 ≤ lm_grace m → clock n ≠ 0 →
  Lease_Validate lease = Ok tt → lease_State lease = LeaseActive →
  ∃ lease', Heartbeat (Some m) n lease = Ok (lease', S n) ∧
    Lease_Validate lease' = Ok tt ∧ lease_State lease' = LeaseActive ∧
    lease_Target lease' = lease_Target lease ∧
    lease_GraceUntil lease' - lease_ExpiresAt lease' ≤
      lease_GraceUntil lease - lease_ExpiresAt lease ∧
    ∀ k, clock k < clock n + lm_expiry m →
      (Classify (Some m) k lease').1 = LeaseProtectedActive.
Proof.
  intros Hc He Hg Hn Hv Hs. unfold Heartbeat. cbn. rewrite Hc. cbn.
  rewrite Hv; cbn. rewrite bool_decide_eq_false_2 by (intros []; done).
  rewrite Z.gtb_ltb.
  set (d := time_sub (lease_GraceUntil lease) (lease_ExpiresAt lease)).
  set (d' := if d <? 0 then 0 else d).
  set (grace := if lm_grace m <? d' then lm_grace m else d').
  destruct (Lease_Validate_times _ Hv) as [Ht _].
  assert (0 ≤ grace ≤ lease_GraceUntil lease - lease_ExpiresAt lease) as Hgr.
  { assert (0 ≤ d ≤ lease_GraceUntil lease - lease_ExpiresAt lease)
      by (unfold d, time_sub, MinInt64, MaxInt64; lia).
    unfold grace, d'. rewrite (proj2 (Z.ltb_ge d 0)) by lia.
    destruct (Z.ltb_spec (lm_grace m) d); lia. }
  clearbody grace. eexists. split; [reflexivity|].
  pose proof (Lease_Validate_retime lease (clock n) (clock n + lm_expiry m)
    (clock n + lm_expiry m + grace) Hv Hs Hn ltac:(lia)) as Hv'.
  split_and!; [exact Hv'|exact Hs|done|cbn; lia|].
  intros k Hk. unfold Classify. cbn [lease_State over].
  rewrite bool_decide_eq_false_2 by (cbn; rewrite Hs; done).
  cbn [manager_clock]. rewrite Hc.
  rewrite Hv'. cbn [lease_ExpiresAt over].
  rewrite (proj2 (Z.ltb_lt (clock k) _)); [done|]. by cbn.
Qed.

Module LeaseDemo.
Definition hex32 := "00112233445566778899aabbccddeeff".
Definition lease : Lease :=
  mkLease hex32 "editor" "owner" "daemon" (MaterializationTarget hex32) LeaseActive
    100 (100 + Minute) (100 + 2 * Minute) 0 (Some (mkProcessIdentity 7 "birth")).
Definition manager : LeaseManager :=
  mkLeaseManager (Some (λ n, 1000 + Z.of_nat n * Hour))
    (Some (λ _ _, ProcessGone)) DefaultLeaseExpiry DefaultOpenerGrace.
Definition renewed : Lease :=
  (unwrap (Heartbeat (Some manager) 0 lease) eq_refl).1.

Lemma Heartbeat_protects_witness :
  (Classify (Some manager) 0 renewed).1 = LeaseProtectedActive.
Proof.
  destruct (Heartbeat_protects manager (λ n, 1000 + Z.of_nat n * Hour) 0 lease)
    as (l & Hl & _ & _ & _ & _ & H);
    [reflexivity|reflexivity|vm_compute; discriminate|vm_compute; discriminate
    |reflexivity|reflexivity|].
  assert (l = renewed) as -> by (unfold renewed; vm_compute in Hl |- *; congruence).
  apply H. vm_compute. reflexivity.
Defined.
End LeaseDemo.
