(* ===== verification/CacheQuota.v ===== *)
(** The cache's quota accounting and eviction planner
    (src/internal/cache/quota.go).

    A Go slice of records is a list, a map keyed by identifiers a [gmap], a set
    of identifiers a [gset].  The code edits slices in place only on clones
    ([cloneSnapshot]), so no other holder sees the edits and the functional
    filter is the same operation. *)
From S2P Require Import Prelude CacheRecords CacheLease.

Definition DefaultGlobalBytes : Z := Z.shiftl 2 30.
Definition DefaultGlobalEntries : Z := 4096.
Definition DefaultWorkspaceBytes : Z := Z.shiftl 1 30.
Definition DefaultMaxCandidates : Z := 256.

Record Quantity := mkQuantity {
  Bytes : Z;    (* int64 *)
  Entries_ : Z; (* int, Entries *)
}.

Record Usage := mkUsage {
  Global : Quantity;
  Materializations_ : Z;          (* int *)
  Workspaces : gmap string Z;     (* int64 *)
  SharedBytes : Z;                (* int64 *)
}.
#[export] Instance eta_Usage : Settable Usage := λ u,
  mkUsage (Global u) (Materializations_ u) (Workspaces u) (SharedBytes u).

Record Limits := mkLimits {
  GlobalBytes : Z;
  GlobalEntries : Z;
  WorkspaceBytes : Z;
  MaxCandidates : Z;
}.

Definition DefaultLimits : Limits :=
  mkLimits DefaultGlobalBytes DefaultGlobalEntries DefaultWorkspaceBytes
    DefaultMaxCandidates.

Record EvictionTarget := mkEvictionTarget {
  evict_BlobID : string;
  evict_EntryID : string;
  evict_MaterializationID : string;
}.
#[export] Instance EvictionTarget_eq_dec : EqDecision EvictionTarget.
Proof. solve_decision. Defined.

Definition BlobEviction (id : string) := mkEvictionTarget id "" "".
Definition EntryEviction (id : string) := mkEvictionTarget "" id "".
Definition MaterializationEviction (id : string) := mkEvictionTarget "" "" id.

Record QuotaDiagnostic := mkQuotaDiagnostic {
  Required : Quantity;
  Releasable : Quantity;
  Pinned : Quantity;
  Dirty : Quantity;
  Leased : Quantity;
  Shared : Quantity;
  Referenced : Quantity;
}.
Definition Quantity0 : Quantity := mkQuantity 0 0.
Definition QuotaDiagnostic0 : QuotaDiagnostic :=
  mkQuotaDiagnostic Quantity0 Quantity0 Quantity0 Quantity0 Quantity0 Quantity0 Quantity0.

Record EvictionPlan := mkEvictionPlan {
  Before : Usage;
  After : Usage;
  Targets : list EvictionTarget;
  Satisfied : bool;
  Considered : Z;
  Diagnostic : QuotaDiagnostic;
}.

Record Admission := mkAdmission {
  adm_Blob : option Blob;
  adm_Entry : option Entry;
  adm_Materialization : option Materialization;
}.

Inductive QuotaError :=
| ErrAccountSnapshot (e : CacheError)
| ErrPlanSnapshot (e : CacheError)
| ErrLimits
| ErrLeasesNeedManager
| ErrOverflowBlob (id : string)
| ErrOverflowWorkspace (id : string)
| ErrOverflowShared
| ErrOverflowMaterialization (id : string)
| ErrAdmissionShape
| ErrPlanAdmission (e : QuotaError).

(** * Accounting *)
Definition addBytes (destination amount : Z) (e : QuotaError) : result QuotaError Z :=
  if amount >? MaxInt64 - destination then Err e else Ok (destination + amount).

Definition workspace_bytes (u : Usage) (w : string) : Z :=
  default 0 (Workspaces u !! w).

(** The workspaces of the entries that hold a blob. *)
Definition blob_workspaces (entries : list Entry) (blobID : string) : gset string :=
  list_to_set (entry_WorkspaceID <$>
    filter (λ e, entry_BlobID e = blobID) entries).

Definition add_global (u : Usage) (size : Z) (e : QuotaError) : result QuotaError Usage :=
  bytes ← addBytes (Bytes (Global u)) size e;
  Ok (u <| Global := mkQuantity bytes (Entries_ (Global u)) |>).

Definition add_workspace (u : Usage) (w : string) (size : Z) : result QuotaError Usage :=
  bytes ← addBytes (workspace_bytes u w) size (ErrOverflowWorkspace w);
  Ok (u <| Workspaces := <[w := bytes]> (Workspaces u) |>).

Definition account_blob (entries : list Entry) (u : Usage) (b : Blob) :
    result QuotaError Usage :=
  u ← add_global u (blob_Size b) (ErrOverflowBlob (blob_ID b));
  match elements (blob_workspaces entries (blob_ID b)) with
  | [] => Ok u
  | [w] => add_workspace u w (blob_Size b)
  | _ =>
    shared ← addBytes (SharedBytes u) (blob_Size b) ErrOverflowShared;
    Ok (u <| SharedBytes := shared |>)
  end.

Definition entries_by_id (entries : list Entry) : gmap string Entry :=
  foldl (λ m e, <[entry_ID e := e]> m) ∅ entries.

Definition account_materialization (byID : gmap string Entry) (u : Usage)
    (m : Materialization) : result QuotaError Usage :=
  u ← add_global u (mat_Size m) (ErrOverflowMaterialization (mat_ID m));
  (* a missing map entry is the zero Entry *)
  let w := default "" (entry_WorkspaceID <$> byID !! mat_EntryID m) in
  add_workspace u w (mat_Size m).

Definition initial_usage (s : Snapshot) : Usage :=
  mkUsage (mkQuantity 0 (Z.of_nat (length (Entries s))))
    (Z.of_nat (length (Materializations s)))
    (foldl (λ w e, <[entry_WorkspaceID e := default 0 (w !! entry_WorkspaceID e)]> w)
       ∅ (Entries s)) 0.

Definition accountValidated (s : Snapshot) : result QuotaError Usage :=
  u ← for_each (account_blob (Entries s)) (initial_usage s) (Blobs s);
  for_each (account_materialization (entries_by_id (Entries s))) u (Materializations s).

Definition Account (s : Snapshot) : result QuotaError Usage :=
  _ ← map_err ErrAccountSnapshot (Snapshot_Validate s);
  accountValidated s.

(** * Limits *)
Definition globalObjects (u : Usage) : Z := Entries_ (Global u) + Materializations_ u.

Definition withinByteLimits (u : Usage) (l : Limits) : bool :=
  if Bytes (Global u) >? GlobalBytes l then false
  else forallb (λ '(_, bytes), bytes <=? WorkspaceBytes l) (map_to_list (Workspaces u)).

Definition withinLimits (u : Usage) (l : Limits) : bool :=
  if (Bytes (Global u) >? GlobalBytes l) || (globalObjects u >? GlobalEntries l)
  then false
  else forallb (λ '(_, bytes), bytes <=? WorkspaceBytes l) (map_to_list (Workspaces u)).

Definition improvesViolation (before after : Usage) (l : Limits) : bool :=
  ((Bytes (Global before) >? GlobalBytes l) &&
   (Bytes (Global after) <? Bytes (Global before))) ||
  ((globalObjects before >? GlobalEntries l) &&
   (globalObjects after <? globalObjects before)) ||
  existsb (λ '(w, bytes), (bytes >? WorkspaceBytes l) &&
                          (workspace_bytes after w <? bytes))
    (map_to_list (Workspaces before)).

Definition Limits_validate (l : Limits) : result QuotaError () :=
  check (negb ((GlobalBytes l <? 0) || (GlobalEntries l <? 0) ||
               (WorkspaceBytes l <? 0) || (MaxCandidates l <=? 0))) ErrLimits.

(** * Protections *)
Record protectionIndex := mkProtectionIndex {
  leasedBlobs : gset string;
  leasedMaterializations : gset string;
  referencedBlobs : gset string;
  referencedMaterializations : gset string;
  materializationsByEntry : gset string;
  entriesByBlob : gmap string Z;
}.
#[export] Instance eta_protectionIndex : Settable protectionIndex := λ p,
  mkProtectionIndex (leasedBlobs p) (leasedMaterializations p) (referencedBlobs p)
    (referencedMaterializations p) (materializationsByEntry p) (entriesByBlob p).

Definition count_entry (m : gmap string Z) (e : Entry) : gmap string Z :=
  <[entry_BlobID e := default 0 (m !! entry_BlobID e) + 1]> m.

Definition index_reference (p : protectionIndex) (r : Reference) : protectionIndex :=
  let t := ref_Target r in
  if negb (bool_decide (target_BlobID t = ""))
  then p <| referencedBlobs := {[target_BlobID t]} ∪ referencedBlobs p |>
  else p <| referencedMaterializations :=
              {[target_MaterializationID t]} ∪ referencedMaterializations p |>.

Definition protect_leased (p : protectionIndex) (t : Target) : protectionIndex :=
  if negb (bool_decide (target_BlobID t = ""))
  then p <| leasedBlobs := {[target_BlobID t]} ∪ leasedBlobs p |>
  else p <| leasedMaterializations :=
              {[target_MaterializationID t]} ∪ leasedMaterializations p |>.

(** One lease; the counter is the clock's. *)
Definition index_lease (leases : option LeaseManager) (pn : protectionIndex * nat)
    (l : Lease) : protectionIndex * nat :=
  let '(p, n) := pn in
  let '(reclaimable, n) := match leases with
    | Some _ => let '(c, n) := Classify leases n l in
                (bool_decide (c = LeaseReclaimable), n)
    | None => (false, n)
    end in
  if reclaimable : bool then (p, n) else (protect_leased p (lease_Target l), n).

Definition inspectProtections (s : Snapshot) (leases : option LeaseManager) (n : nat) :
    protectionIndex * nat :=
  let p := mkProtectionIndex ∅ ∅ ∅ ∅
    (list_to_set (mat_EntryID <$> Materializations s))
    (foldl count_entry ∅ (Entries s)) in
  let p := foldl index_reference p (References s) in
  foldl (index_lease leases) (p, n) (Leases s).

Definition blob_count (p : protectionIndex) (blobID : string) : Z :=
  default 0 (entriesByBlob p !! blobID).

Definition targetBlobProtected (blobID : string) (p : protectionIndex) : bool :=
  bool_decide (blobID ∈ leasedBlobs p) || bool_decide (blobID ∈ referencedBlobs p).

(** * Candidates *)
Record evictionCandidate := mkCandidate {
  kind : string;
  id : string;
  lastAccess : Time;
  target : EvictionTarget;
}.

Definition blobReachableFromMaterialization (blobID : string)
    (ms : list Materialization) : bool :=
  existsb (λ m, bool_decide (mat_BaselineBlobID m = blobID)) ms.

Definition blobReachable (blobID : string) (s : Snapshot) : bool :=
  existsb (λ e, bool_decide (entry_BlobID e = blobID)) (Entries s) ||
  blobReachableFromMaterialization blobID (Materializations s).

Definition blobs_by_id (blobs : list Blob) : gmap string Blob :=
  foldl (λ m b, <[blob_ID b := b]> m) ∅ blobs.

Definition entry_candidate (byID : gmap string Blob) (p : protectionIndex)
    (allowSharedEntries : bool) (e : Entry) : option evictionCandidate :=
  if entry_Pinned e || ((blob_count p (entry_BlobID e) >? 1) && negb allowSharedEntries)
  then None else
  if bool_decide (entry_ID e ∈ materializationsByEntry p) then None else
  if targetBlobProtected (entry_BlobID e) p then None else
  let blobAccess := default 0 (blob_LastAccessAt <$> byID !! entry_BlobID e) in
  let access := if blobAccess >? entry_LastAccessAt e
                then blobAccess else entry_LastAccessAt e in
  Some (mkCandidate "entry" (entry_ID e) access (EntryEviction (entry_ID e))).

Definition materialization_candidate (p : protectionIndex) (m : Materialization) :
    option evictionCandidate :=
  if mat_Pinned m || bool_decide (mat_State m ≠ MaterializationClean) then None else
  if bool_decide (mat_ID m ∈ leasedMaterializations p) then None else
  if bool_decide (mat_ID m ∈ referencedMaterializations p) then None else
  Some (mkCandidate "materialization" (mat_ID m) (mat_LastAccessAt m)
          (MaterializationEviction (mat_ID m))).

Definition blob_candidate (ms : list Materialization) (p : protectionIndex) (b : Blob) :
    option evictionCandidate :=
  if bool_decide (blob_State b ≠ BlobPublished) || negb (blob_count p (blob_ID b) =? 0) ||
     blobReachableFromMaterialization (blob_ID b) ms ||
     targetBlobProtected (blob_ID b) p
  then None
  else Some (mkCandidate "blob" (blob_ID b) (blob_LastAccessAt b)
               (BlobEviction (blob_ID b))).

Definition enumerateCandidates (s : Snapshot) (p : protectionIndex)
    (allowSharedEntries : bool) : list evictionCandidate :=
  omap (entry_candidate (blobs_by_id (Blobs s)) p allowSharedEntries) (Entries s) ++
  omap (materialization_candidate p) (Materializations s) ++
  omap (blob_candidate (Materializations s) p) (Blobs s).

(** The less function of [sort.Slice]; identifiers are unique in their kind, so
    no two candidates are equivalent and the sorted slice is determined. *)
Definition candidate_less (l r : evictionCandidate) : bool :=
  if negb (lastAccess l =? lastAccess r) then lastAccess l <? lastAccess r else
  if negb (String.eqb (kind l) (kind r)) then String.ltb (kind l) (kind r) else
  String.ltb (id l) (id r).

Definition candidate_le (l r : evictionCandidate) : Prop := candidate_less r l = false.
#[export] Instance candidate_le_dec : RelDecision candidate_le :=
  λ l r, decide (candidate_less r l = false).
Definition sort_candidates : list evictionCandidate → list evictionCandidate :=
  merge_sort candidate_le.

(** * Applying a candidate *)
Definition removeBlob (s : Snapshot) (blobID : string) : Snapshot :=
  s <| Blobs := filter (λ b, blob_ID b ≠ blobID) (Blobs s) |>.

(** The blob of the entries with this identifier; the loop keeps the last. *)
Definition entry_blob (s : Snapshot) (entryID : string) : string :=
  foldl (λ blobID e, if bool_decide (entry_ID e = entryID) then entry_BlobID e else blobID)
    "" (Entries s).

Definition applyCandidate (s : Snapshot) (c : evictionCandidate) (p : protectionIndex) :
    Snapshot * list EvictionTarget :=
  let t := target c in
  if bool_decide (evict_EntryID t ≠ "") then
    let blobID := entry_blob s (evict_EntryID t) in
    let s := s <| Entries := filter (λ e, entry_ID e ≠ evict_EntryID t) (Entries s) |> in
    if bool_decide (blobID ≠ "") && negb (blobReachable blobID s) &&
       negb (targetBlobProtected blobID p)
    then (removeBlob s blobID, [t; BlobEviction blobID])
    else (s, [t])
  else if bool_decide (evict_MaterializationID t ≠ "") then
    (s <| Materializations :=
       filter (λ m, mat_ID m ≠ evict_MaterializationID t) (Materializations s) |>, [t])
  else (removeBlob s (evict_BlobID t), [t]).

(** * The diagnostic of an unsatisfied plan *)
Definition add64 (x y : Z) : Z := i64 (x + y).
Definition sum64 {A} (f : A → Z) (l : list A) : Z := foldl (λ acc x, add64 acc (f x)) 0 l.

Definition requiredQuantity (u : Usage) (l : Limits) : Quantity :=
  let bytes := if Bytes (Global u) >? GlobalBytes l
               then Bytes (Global u) - GlobalBytes l else 0 in
  let entries := if globalObjects u >? GlobalEntries l
                 then globalObjects u - GlobalEntries l else 0 in
  let workspaceRequired :=
    sum64 (λ '(_, b), if b >? WorkspaceBytes l then b - WorkspaceBytes l else 0)
      (map_to_list (Workspaces u)) in
  mkQuantity (if workspaceRequired >? bytes then workspaceRequired else bytes) entries.

Definition blob_size (s : Snapshot) (blobID : string) : Z :=
  default 0 (blob_Size <$> blobs_by_id (Blobs s) !! blobID).
Definition materialization_size (s : Snapshot) (matID : string) : Z :=
  default 0 (mat_Size <$>
    foldl (λ m x, <[mat_ID x := x]> m) (∅ : gmap string Materialization)
      (Materializations s) !! matID).
Definition entries_of_blob (s : Snapshot) (blobID : string) : Z :=
  Z.of_nat (length (filter (λ e, entry_BlobID e = blobID) (Entries s))).

Definition pinned_blobs (s : Snapshot) : gset string :=
  list_to_set (entry_BlobID <$> filter (λ e, entry_Pinned e = true) (Entries s)).

Definition releasable_bytes (s : Snapshot) (c : evictionCandidate) : Z :=
  let t := target c in
  if bool_decide (evict_EntryID t ≠ "") then
    match find (λ e, bool_decide (entry_ID e = evict_EntryID t)) (Entries s) with
    | Some e => blob_size s (entry_BlobID e)
    | None => 0
    end
  else if bool_decide (evict_MaterializationID t ≠ "")
  then materialization_size s (evict_MaterializationID t)
  else blob_size s (evict_BlobID t).

Definition buildDiagnostic (s : Snapshot) (u : Usage) (l : Limits)
    (p : protectionIndex) : QuotaDiagnostic :=
  let pinned_mats := filter (λ m, mat_Pinned m = true) (Materializations s) in
  let dirty_mats :=
    filter (λ m, mat_State m ∈ [MaterializationDirty; MaterializationOrphaned])
      (Materializations s) in
  let shared := filter (λ '(_, count), 1 < count) (map_to_list (entriesByBlob p)) in
  let candidates := enumerateCandidates s p false in
  mkQuotaDiagnostic (requiredQuantity u l)
    (mkQuantity (sum64 (releasable_bytes s) candidates)
       (Z.of_nat (length (filter (λ c, evict_EntryID (target c) ≠ "") candidates))))
    (mkQuantity (add64 (sum64 mat_Size pinned_mats)
                   (sum64 (blob_size s) (elements (pinned_blobs s))))
       (Z.of_nat (length (filter (λ e, entry_Pinned e = true) (Entries s)))))
    (mkQuantity (sum64 mat_Size dirty_mats) 0)
    (mkQuantity (add64 (sum64 (blob_size s) (elements (leasedBlobs p)))
                   (sum64 (materialization_size s) (elements (leasedMaterializations p))))
       (sum64 (entries_of_blob s) (elements (leasedBlobs p))))
    (mkQuantity (sum64 (λ '(b, _), blob_size s b) shared)
       (sum64 (λ '(_, count), count) shared))
    (mkQuantity (add64 (sum64 (blob_size s) (elements (referencedBlobs p)))
                   (sum64 (materialization_size s)
                      (elements (referencedMaterializations p))))
       (sum64 (entries_of_blob s) (elements (referencedBlobs p)))).

(** * Planning *)
Record plan_state := mkPlanState {
  ps_working : Snapshot;
  ps_after : Usage;
  ps_targets : list EvictionTarget;
  ps_considered : Z;
  ps_reads : nat;
}.

(** The inner loop: the first candidate whose removal helps. *)
Fixpoint try_candidates (limits : Limits) (p : protectionIndex) (working : Snapshot)
    (after : Usage) (considered : Z) (candidates : list evictionCandidate) :
    result QuotaError (Z * option (Snapshot * Usage * list EvictionTarget)) :=
  match candidates with
  | [] => Ok (considered, None)
  | candidate :: candidates =>
    if considered >=? MaxCandidates limits then Ok (considered, None) else
    let considered := considered + 1 in
    let '(trial, targets) := applyCandidate working candidate p in
    trialUsage ← accountValidated trial;
    if improvesViolation after trialUsage limits
    then Ok (considered, Some (trial, trialUsage, targets))
    else try_candidates limits p working after considered candidates
  end.

(** One turn of the outer loop; [None] when it breaks. *)
Definition plan_turn (limits : Limits) (leases : option LeaseManager) (st : plan_state) :
    result QuotaError (plan_state * bool) :=
  let '(p, reads) := inspectProtections (ps_working st) leases (ps_reads st) in
  let candidates := enumerateCandidates (ps_working st) p
                      (withinByteLimits (ps_after st) limits) in
  if bool_decide (candidates = []) then
    Ok (mkPlanState (ps_working st) (ps_after st) (ps_targets st) (ps_considered st)
          reads, false)
  else
  '(considered, selected) ← try_candidates limits p (ps_working st) (ps_after st)
                              (ps_considered st) (sort_candidates candidates);
  match selected with
  | Some (trial, trialUsage, targets) =>
    Ok (mkPlanState trial trialUsage (ps_targets st ++ targets) considered reads, true)
  | None =>
    Ok (mkPlanState (ps_working st) (ps_after st) (ps_targets st) considered reads, false)
  end.

(** The outer loop.  Every turn that goes on has considered a candidate, so
    [MaxCandidates] turns are enough ([plan_loop_done]). *)
Fixpoint plan_loop (limits : Limits) (leases : option LeaseManager) (fuel : nat)
    (st : plan_state) : result QuotaError plan_state :=
  if withinLimits (ps_after st) limits || negb (ps_considered st <? MaxCandidates limits)
  then Ok st else
  match fuel with
  | O => Ok st
  | S fuel =>
    '(st, continue) ← plan_turn limits leases st;
    if continue : bool then plan_loop limits leases fuel st else Ok st
  end.

Definition PlanEvictions (s : Snapshot) (limits : Limits) (leases : option LeaseManager)
    (n : nat) : result QuotaError EvictionPlan :=
  _ ← map_err ErrPlanSnapshot (Snapshot_Validate s);
  _ ← Limits_validate limits;
  _ ← check (bool_decide (Leases s = []) || bool_decide (is_Some leases))
        ErrLeasesNeedManager;
  before ← accountValidated s;
  st ← plan_loop limits leases (Z.to_nat (MaxCandidates limits))
         (mkPlanState s before [] 0 n);
  let satisfied := withinLimits (ps_after st) limits in
  let diagnostic := if satisfied then QuotaDiagnostic0 else
    let '(p, _) := inspectProtections (ps_working st) leases (ps_reads st) in
    buildDiagnostic (ps_working st) (ps_after st) limits p in
  Ok (mkEvictionPlan before (ps_after st) (ps_targets st) satisfied (ps_considered st)
        diagnostic).

(** A sole entry is its blob's ownership claim: an admission that reuses a blob
    pins the entries that hold it. *)
Definition pin_sharers (blobID : string) (e : Entry) : Entry :=
  if bool_decide (entry_BlobID e = blobID) then e <| entry_Pinned := true |> else e.

Definition PlanAdmission (s : Snapshot) (a : Admission) (limits : Limits)
    (leases : option LeaseManager) (n : nat) : result QuotaError EvictionPlan :=
  working ← match adm_Entry a, adm_Materialization a, adm_Blob a with
    | Some entry, None, blob =>
      let s := match blob with
        | Some b => s <| Blobs := Blobs s ++ [b] |>
        | None => s <| Entries := pin_sharers (entry_BlobID entry) <$> Entries s |>
        end in
      Ok (s <| Entries := Entries s ++ [entry <| entry_Pinned := true |>] |>)
    | None, Some m, None =>
      Ok (s <| Materializations := Materializations s ++ [m <| mat_Pinned := true |>] |>)
    | _, _, _ => Err ErrAdmissionShape
    end;
  map_err ErrPlanAdmission (PlanEvictions working limits leases n).
