(* ===== verification/CacheQuotaFacts.v ===== *)
(** Theorems of the cache's accounting and eviction planner. *)
From S2P Require Import Prelude CacheRecords CacheFacts CacheLease CacheQuota.

(** * Accounting in closed form *)
Fixpoint sumZ {A} (f : A → Z) (l : list A) : Z :=
  match l with [] => 0 | x :: l => f x + sumZ f l end.

Lemma sumZ_app {A} (f : A → Z) l k : sumZ f (l ++ k) = sumZ f l + sumZ f k.
Proof. induction l as [|x l IH]; cbn; [done|]. rewrite IH. lia. Qed.
Lemma sumZ_nonneg {A} (f : A → Z) l : (∀ x, x ∈ l → 0 ≤ f x) → 0 ≤ sumZ f l.
Proof.
  induction l as [|x l IH]; intros H; cbn; [lia|].
  pose proof (H x ltac:(left)). assert (0 ≤ sumZ f l) by (apply IH; intros; apply H; by right).
  lia.
Qed.
Lemma sumZ_zero {A} (l : list A) : sumZ (λ _, 0) l = 0.
Proof. induction l as [|x l IH]; cbn; [done|]. by rewrite IH. Qed.
Lemma sumZ_filter_le {A} (f : A → Z) (P : A → Prop) `{∀ x, Decision (P x)} l :
  (∀ x, x ∈ l → 0 ≤ f x) → sumZ f (filter P l) ≤ sumZ f l.
Proof.
  induction l as [|x l IH]; intros Hf; [done|].
  pose proof (Hf x ltac:(left)). rewrite filter_cons.
  assert (sumZ f (filter P l) ≤ sumZ f l) by (apply IH; intros; apply Hf; by right).
  case_decide; cbn; lia.
Qed.

(** A blob counts for a workspace when that workspace alone holds it, and is
    shared when several do. *)
Definition blob_share (es : list Entry) (w : string) (b : Blob) : Z :=
  if bool_decide (blob_workspaces es (blob_ID b) = {[w]}) then blob_Size b else 0.
Definition blob_shared (es : list Entry) (b : Blob) : Z :=
  if (2 <=? size (blob_workspaces es (blob_ID b)))%nat then blob_Size b else 0.
Definition mat_workspace (es : list Entry) (m : Materialization) : string :=
  default "" (entry_WorkspaceID <$> entries_by_id es !! mat_EntryID m).
Definition mat_share (es : list Entry) (w : string) (m : Materialization) : Z :=
  if bool_decide (mat_workspace es m = w) then mat_Size m else 0.

Definition total_bytes (s : Snapshot) : Z :=
  sumZ blob_Size (Blobs s) + sumZ mat_Size (Materializations s).

(** No component of a usage exceeds its global bytes. *)
Record dominated (u : Usage) : Prop := {
  dom_global : 0 ≤ Bytes (Global u) ≤ MaxInt64;
  dom_workspace : ∀ w, 0 ≤ workspace_bytes u w ≤ Bytes (Global u);
  dom_shared : 0 ≤ SharedBytes u ≤ Bytes (Global u);
}.

Lemma addBytes_ok d a e :
  d + a ≤ MaxInt64 → addBytes d a e = Ok (d + a).
Proof. intros. unfold addBytes. rewrite Z.gtb_ltb, (proj2 (Z.ltb_ge _ _)); [done|lia]. Qed.
Lemma addBytes_overflow d a e : MaxInt64 < d + a → addBytes d a e = Err e.
Proof. intros. unfold addBytes. rewrite Z.gtb_ltb, (proj2 (Z.ltb_lt _ _)); [done|lia]. Qed.

Lemma workspace_bytes_insert u w bytes w' g :
  workspace_bytes (u <| Global := g |> <| Workspaces := <[w := bytes]> (Workspaces u) |>) w' =
  if bool_decide (w = w') then bytes else workspace_bytes u w'.
Proof.
  unfold workspace_bytes; cbn. case_bool_decide; subst;
    [by rewrite lookup_insert_eq|by rewrite lookup_insert_ne].
Qed.

(** What one step of the accounting adds: [n] bytes, of which [ws w] to the
    workspace [w] and [sh] to the shared bytes. *)
Record adds (u u' : Usage) (n : Z) (ws : string → Z) (sh : Z) : Prop := {
  ad_dominated : dominated u';
  ad_bytes : Bytes (Global u') = Bytes (Global u) + n;
  ad_entries : Entries_ (Global u') = Entries_ (Global u);
  ad_mats : Materializations_ u' = Materializations_ u;
  ad_workspace : ∀ w, workspace_bytes u' w = workspace_bytes u w + ws w;
  ad_shared : SharedBytes u' = SharedBytes u + sh;
}.

Lemma add_both u w n e :
  dominated u → 0 ≤ n → Bytes (Global u) + n ≤ MaxInt64 →
  ∃ u', (u1 ← add_global u n e; add_workspace u1 w n) = Ok u' ∧
    adds u u' n (λ w', if bool_decide (w = w') then n else 0) 0.
Proof.
  intros [Hg Hw Hs] Hn Hb. unfold add_global. rewrite addBytes_ok by done. cbn.
  unfold add_workspace. change (workspace_bytes _ w) with (workspace_bytes u w).
  rewrite addBytes_ok by (specialize (Hw w); lia). cbn.
  eexists; split; [reflexivity|].
  assert (∀ w', workspace_bytes (u <| Global := mkQuantity (Bytes (Global u) + n)
      (Entries_ (Global u)) |> <| Workspaces := <[w := workspace_bytes u w + n]>
      (Workspaces u) |>) w' =
    workspace_bytes u w' + (if bool_decide (w = w') then n else 0)) as Hws.
  { intros w'. rewrite workspace_bytes_insert. case_bool_decide; subst; lia. }
  split; try done; [|cbn; lia].
  split; [cbn; lia| |cbn; lia]. intros w'. cbn [Global over Bytes].
  specialize (Hw w'). pose proof (Hws w') as E. cbn [over] in E |- *. rewrite E. cbn.
  case_bool_decide; lia.
Qed.

Lemma adds_trans u1 u2 u3 n n' ws ws' sh sh' :
  adds u1 u2 n ws sh → adds u2 u3 n' ws' sh' →
  adds u1 u3 (n + n') (λ w, ws w + ws' w) (sh + sh').
Proof.
  intros [? H1 H2 H3 H4 H5] [? K1 K2 K3 K4 K5].
  split; [done|lia|congruence|congruence|intros w; rewrite K4, H4; lia|lia].
Qed.

(** A step that adds [n x] bytes, or overflows. *)
Definition step_adds {A} (f : Usage → A → result QuotaError Usage) (n : A → Z)
    (ws : A → string → Z) (sh : A → Z) (x : A) : Prop :=
  ∀ u, dominated u →
  if bool_decide (Bytes (Global u) + n x ≤ MaxInt64)
  then ∃ u', f u x = Ok u' ∧ adds u u' (n x) (ws x) (sh x)
  else ∃ e, f u x = Err e.

Lemma for_each_adds {A} (f : Usage → A → result QuotaError Usage) n ws sh l u :
  (∀ x, x ∈ l → 0 ≤ n x) → (∀ x, x ∈ l → step_adds f n ws sh x) → dominated u →
  if bool_decide (Bytes (Global u) + sumZ n l ≤ MaxInt64)
  then ∃ u', for_each f u l = Ok u' ∧
         adds u u' (sumZ n l) (λ w, sumZ (λ x, ws x w) l) (sumZ sh l)
  else ∃ e, for_each f u l = Err e.
Proof.
  revert u; induction l as [|x l IH]; intros u Hn Hf Hu; cbn [for_each sumZ].
  { pose proof (proj2 (dom_global _ Hu)). rewrite bool_decide_eq_true_2 by lia.
    exists u. split; [done|]. split; done || (intros; lia). }
  assert (0 ≤ sumZ n l) by (apply sumZ_nonneg; intros; apply Hn; by right).
  pose proof (Hn x ltac:(left)). specialize (Hf x ltac:(left) u Hu) as Hx.
  destruct (decide (Bytes (Global u) + n x ≤ MaxInt64));
    [rewrite bool_decide_eq_true_2 in Hx by done
    |rewrite bool_decide_eq_false_2 in Hx by done].
  - destruct Hx as (u1 & -> & Ha).
    specialize (IH u1 ltac:(intros; apply Hn; by right) ltac:(intros; apply Hf; by right)
      (ad_dominated _ _ _ _ _ Ha)).
    rewrite (ad_bytes _ _ _ _ _ Ha) in IH. rewrite <-Z.add_assoc in IH.
    case_bool_decide; [|done]. destruct IH as (u' & -> & Ha'). exists u'. split; [done|].
    by apply (adds_trans _ _ _ _ _ _ _ _ _ Ha Ha').
  - destruct Hx as [e ->]. rewrite bool_decide_eq_false_2 by lia. by exists e.
Qed.

Lemma elements_cases `{Countable A} (X : gset A) :
  match elements X with
  | [] => X = ∅
  | [w] => X = {[w]}
  | _ => (2 ≤ size X)%nat
  end.
Proof.
  destruct (elements X) as [|w [|w' l]] eqn:E.
  - by apply elements_empty_inv, leibniz_equiv in E.
  - apply set_eq. intros x. rewrite <-elem_of_elements, E. set_solver.
  - change (size X) with (length (elements X)). rewrite E. cbn. lia.
Qed.

Lemma account_blob_adds es b :
  0 ≤ blob_Size b →
  step_adds (account_blob es) blob_Size (λ b w, blob_share es w b) (blob_shared es) b.
Proof.
  intros Hn u Hu. unfold account_blob.
  case_bool_decide as Hb.
  2: { unfold add_global. rewrite addBytes_overflow by lia. eauto. }
  pose proof (elements_cases (blob_workspaces es (blob_ID b))) as Hc.
  unfold blob_share, blob_shared.
  destruct (elements (blob_workspaces es (blob_ID b))) as [|w [|w' l]]; cbn [mbind].
  - destruct Hu as [Hg Hw Hs]. unfold add_global. rewrite addBytes_ok by done.
    eexists; split; [reflexivity|]. rewrite Hc, size_empty. cbn.
    assert (∀ w, bool_decide (∅ = {[w]} :> gset string) = false) as Hne
      by (intros w; apply bool_decide_eq_false; set_solver).
    split; cbn; try done; try lia.
    + split; cbn; [lia| |lia]. intros w. specialize (Hw w).
      unfold workspace_bytes in *; cbn in *. lia.
    + intros w. rewrite Hne. unfold workspace_bytes; cbn. lia.
  - destruct (add_both u w (blob_Size b) (ErrOverflowBlob (blob_ID b))) as (u' & E & Ha);
      [done..|].
    exists u'. split; [exact E|]. rewrite Hc, size_singleton. cbn.
    destruct Ha as [? ? ? ? Hws ?]. split; try done. intros w'. rewrite Hws. f_equal.
    repeat case_bool_decide; subst; done || set_solver.
  - rewrite (proj2 (Nat.leb_le 2 _)) by done.
    destruct Hu as [Hg Hw Hs]. unfold add_global. rewrite addBytes_ok by done. cbn.
    rewrite addBytes_ok by lia. eexists; split; [reflexivity|].
    assert (∀ w, bool_decide (blob_workspaces es (blob_ID b) = {[w]}) = false) as Hne.
    { intros w0. apply bool_decide_eq_false. intros E. rewrite E, size_singleton in Hc. lia. }
    split; cbn; try done; try lia.
    + split; cbn; [lia| |lia]. intros w0. specialize (Hw w0).
      unfold workspace_bytes in *; cbn in *. lia.
    + intros w0. rewrite Hne. unfold workspace_bytes; cbn. lia.
Qed.

Lemma account_materialization_adds es m :
  0 ≤ mat_Size m →
  step_adds (account_materialization (entries_by_id es)) mat_Size
    (λ m w, mat_share es w m) (λ _, 0) m.
Proof.
  intros Hn u Hu. unfold account_materialization. case_bool_decide as Hb.
  2: { unfold add_global. rewrite addBytes_overflow by lia. eauto. }
  fold (mat_workspace es m).
  destruct (add_both u (mat_workspace es m) (mat_Size m)
    (ErrOverflowMaterialization (mat_ID m))) as (u' & E & Ha); [done..|].
  exists u'. split; [exact E|done].
Qed.

(** The accounting of a snapshot. *)
Record accounts (s : Snapshot) (u : Usage) : Prop := {
  ac_bytes : Bytes (Global u) = total_bytes s;
  ac_entries : Entries_ (Global u) = Z.of_nat (length (Entries s));
  ac_mats : Materializations_ u = Z.of_nat (length (Materializations s));
  ac_workspace : ∀ w, workspace_bytes u w =
    sumZ (blob_share (Entries s) w) (Blobs s) +
    sumZ (mat_share (Entries s) w) (Materializations s);
  ac_shared : SharedBytes u = sumZ (blob_shared (Entries s)) (Blobs s);
}.

Lemma initial_workspaces es w :
  default 0 (foldl (λ (m : gmap string Z) e,
    <[entry_WorkspaceID e := default 0 (m !! entry_WorkspaceID e)]> m) ∅ es !! w) = 0.
Proof.
  assert (∀ m : gmap string Z, (∀ w, default 0 (m !! w) = 0) → ∀ w,
    default 0 (foldl (λ (m : gmap string Z) e,
      <[entry_WorkspaceID e := default 0 (m !! entry_WorkspaceID e)]> m) m es !! w) = 0)
    as H; [|by apply H].
  clear w. induction es as [|e es IH]; intros m Hm w; cbn; [done|].
  apply IH. intros w'. destruct (decide (entry_WorkspaceID e = w')) as [->|?].
  - rewrite lookup_insert_eq. cbn. apply Hm.
  - by rewrite lookup_insert_ne.
Qed.

(** accounting is exact and total up to overflow.  When sizes are not
    negative, it fails exactly when the bytes held do not fit an int64, and
    otherwise the global count is the sum of all sizes, a workspace counts the
    blobs that it alone holds and its materializations, and the bytes held by
    several workspaces are counted once as shared. *)
Theorem accountValidated_exact s :
  (∀ b, b ∈ Blobs s → 0 ≤ blob_Size b) →
  (∀ m, m ∈ Materializations s → 0 ≤ mat_Size m) →
  if bool_decide (total_bytes s ≤ MaxInt64)
  then ∃ u, accountValidated s = Ok u ∧ accounts s u
  else ∃ e, accountValidated s = Err e.
Proof.
  intros Hb Hm. unfold accountValidated, total_bytes.
  assert (∀ w, workspace_bytes (initial_usage s) w = 0) as Hw0
    by apply initial_workspaces.
  assert (dominated (initial_usage s)) as H0
    by (split; cbn; [done|intros w; rewrite Hw0; done|done]).
  pose proof (for_each_adds (account_blob (Entries s)) blob_Size
    (λ b w, blob_share (Entries s) w b) (blob_shared (Entries s)) (Blobs s)
    (initial_usage s) Hb ltac:(intros; apply account_blob_adds; auto) H0) as H1.
  assert (0 ≤ sumZ mat_Size (Materializations s)) by by apply sumZ_nonneg.
  change (Bytes (Global (initial_usage s))) with 0 in H1. rewrite Z.add_0_l in H1.
  destruct (decide (sumZ blob_Size (Blobs s) ≤ MaxInt64));
    [rewrite bool_decide_eq_true_2 in H1 by done
    |rewrite bool_decide_eq_false_2 in H1 by done].
  2: { destruct H1 as [e ->]. rewrite bool_decide_eq_false_2 by lia. by exists e. }
  destruct H1 as (u & -> & [Hd Hby He Hms Hws Hsh]). cbn [mbind result_bind].
  pose proof (for_each_adds (account_materialization (entries_by_id (Entries s)))
    mat_Size (λ m w, mat_share (Entries s) w m) (λ _, 0) (Materializations s) u Hm
    ltac:(intros; apply account_materialization_adds; auto) Hd) as H2.
  rewrite Hby in H2. change (Bytes (Global (initial_usage s))) with 0 in H2.
  rewrite Z.add_0_l in H2. case_bool_decide; [|done].
  destruct H2 as (u' & -> & [_ Kby Ke Kms Kws Ksh]). exists u'. split; [done|].
  split; unfold total_bytes.
  - rewrite Kby, Hby. done.
  - by rewrite Ke, He.
  - by rewrite Kms, Hms.
  - intros w. by rewrite Kws, Hws, Hw0, Z.add_0_l.
  - rewrite Ksh, Hsh. change (SharedBytes (initial_usage s)) with 0.
    rewrite Z.add_0_l, sumZ_zero. lia.
Qed.

(** * What a plan leaves behind *)
Definition remaining (s : Snapshot) (ts : list EvictionTarget) : Snapshot :=
  mkSnapshot
    (filter (λ b, BlobEviction (blob_ID b) ∉ ts) (Blobs s))
    (filter (λ e, EntryEviction (entry_ID e) ∉ ts) (Entries s))
    (filter (λ m, MaterializationEviction (mat_ID m) ∉ ts) (Materializations s))
    (References s) (Leases s).

Lemma remaining_nil s : remaining s [] = s.
Proof.
  destruct s. unfold remaining; cbn. f_equal; apply filter_all; intros x;
    apply not_elem_of_nil.
Qed.

Lemma remaining_app s ts ts' : remaining (remaining s ts) ts' = remaining s (ts ++ ts').
Proof.
  unfold remaining; cbn. rewrite !list_filter_filter.
  f_equal; apply list_filter_iff; intros x; rewrite not_elem_of_app; tauto.
Qed.

(** A lease that some classification found reclaimable. *)
Definition reclaimable (leases : option LeaseManager) (l : Lease) : Prop :=
  ∃ n, (Classify leases n l).1 = LeaseReclaimable.

Definition target_ok (s : Snapshot) (t : Target) : Prop :=
  (∃ b, b ≠ "" ∧ t = BlobTarget b ∧ b ∈ blob_ids s) ∨
  (∃ m, m ≠ "" ∧ t = MaterializationTarget m ∧ m ∈ mat_ids s).

(** Referential integrity, up to reclaimable leases. *)
Record catalog_ok (leases : option LeaseManager) (s : Snapshot) : Prop := {
  ca_blob_nodup : NoDup (blob_ID <$> Blobs s);
  ca_entry_nodup : NoDup (entry_ID <$> Entries s);
  ca_mat_nodup : NoDup (mat_ID <$> Materializations s);
  ca_blob : ∀ b, b ∈ Blobs s → blob_ID b ≠ "" ∧ 0 ≤ blob_Size b;
  ca_entry : ∀ e, e ∈ Entries s → entry_ID e ≠ "" ∧ entry_BlobID e ≠ "" ∧
    entry_BlobID e ∈ blob_ids s;
  ca_mat : ∀ m, m ∈ Materializations s → mat_ID m ≠ "" ∧ 0 ≤ mat_Size m ∧
    mat_EntryID m ∈ entry_ids s ∧ mat_BaselineBlobID m ∈ blob_ids s;
  ca_ref : ∀ r, r ∈ References s → target_ok s (ref_Target r);
  ca_lease : ∀ l, l ∈ Leases s →
    target_ok s (lease_Target l) ∨ reclaimable leases l;
}.

Lemma validateLowerHexID_nonempty kind v width u :
  0 < width → validateLowerHexID kind v width = Ok u → v ≠ "".
Proof. intros Hw [Hl _]%validateLowerHexID_ok ->. cbv in Hl. lia. Qed.

Lemma ParseBlobID_nonempty v w : ParseBlobID v = Ok w → v ≠ "".
Proof. unfold ParseBlobID. rewrite bind_ok. intros (u & H & _).
  revert H. by apply validateLowerHexID_nonempty. Qed.
Lemma ParseEntryID_nonempty v w : ParseEntryID v = Ok w → v ≠ "".
Proof. unfold ParseEntryID. rewrite bind_ok. intros (u & H & _).
  revert H. by apply validateLowerHexID_nonempty. Qed.
Lemma ParseMaterializationID_nonempty v w : ParseMaterializationID v = Ok w → v ≠ "".
Proof. unfold ParseMaterializationID. rewrite bind_ok. intros (u & H & _).
  revert H. by apply validateLowerHexID_nonempty. Qed.

Lemma Blob_Validate_facts b : Blob_Validate b = Ok tt → blob_ID b ≠ "" ∧ 0 ≤ blob_Size b.
Proof.
  unfold Blob_Validate. intros (i & Hi%ParseBlobID_nonempty & H)%bind_ok.
  apply check_bind_ok in H as [H _]. breflect. done.
Qed.
Lemma Entry_Validate_facts e :
  Entry_Validate e = Ok tt → entry_ID e ≠ "" ∧ entry_BlobID e ≠ "".
Proof.
  unfold Entry_Validate. intros (i & Hi%ParseEntryID_nonempty & H)%bind_ok.
  do 2 apply check_bind_ok in H as [_ H]. apply bind_ok in H as (? & _ & H).
  do 4 apply check_bind_ok in H as [_ H]. apply bind_ok in H as (? & H & _).
  apply map_err_ok, ParseBlobID_nonempty in H. done.
Qed.
Lemma Materialization_Validate_facts m :
  Materialization_Validate m = Ok tt → mat_ID m ≠ "" ∧ 0 ≤ mat_Size m.
Proof.
  unfold Materialization_Validate. intros (i & Hi%ParseMaterializationID_nonempty & H)%bind_ok.
  do 3 apply bind_ok in H as (? & _ & H). apply check_bind_ok in H as [H _].
  breflect. done.
Qed.

Lemma Target_Validate_ok s t : Target_Validate t = Ok tt → target_in s t → target_ok s t.
Proof.
  destruct t as [b m]. unfold Target_Validate, target_in, targetExists, target_ok; cbn.
  destruct (decide (b = "")) as [->|Hb], (decide (m = "")) as [->|Hm]; cbn.
  - done.
  - intros _ ?%bool_decide_eq_true. right; eauto.
  - rewrite (bool_decide_eq_false_2 (b = "")) by done. cbn.
    intros _ ?%bool_decide_eq_true. left; eauto.
  - by rewrite (bool_decide_eq_false_2 (b = "")), (bool_decide_eq_false_2 (m = "")).
Qed.

Lemma Reference_Validate_facts r :
  Reference_Validate r = Ok tt → Target_Validate (ref_Target r) = Ok tt.
Proof.
  unfold Reference_Validate. intros (i & _ & H)%bind_ok.
  do 2 apply check_bind_ok in H as [_ H]. apply bind_ok in H as ([] & H & _).
  by apply map_err_ok in H.
Qed.
Lemma Lease_Validate_facts l :
  Lease_Validate l = Ok tt → Target_Validate (lease_Target l) = Ok tt.
Proof.
  unfold Lease_Validate. intros (i & _ & H)%bind_ok.
  do 2 apply check_bind_ok in H as [_ H]. apply bind_ok in H as ([] & H & _).
  by apply map_err_ok in H.
Qed.

Lemma snapshot_ok_catalog leases s : snapshot_ok s → catalog_ok leases s.
Proof.
  intros []. split; try done.
  - intros b Hb. by apply Blob_Validate_facts, so_blob.
  - intros e He. destruct (so_entry e He) as [Hv ?].
    apply Entry_Validate_facts in Hv. naive_solver.
  - intros m Hm. destruct (so_mat m Hm) as [Hv ?].
    apply Materialization_Validate_facts in Hv. naive_solver.
  - intros r Hr. destruct (so_ref r Hr) as [Hv ?].
    by apply Target_Validate_ok; [apply Reference_Validate_facts|].
  - intros l Hl. left. destruct (so_lease l Hl) as [Hv ?].
    by apply Target_Validate_ok; [apply Lease_Validate_facts|].
Qed.

(** * Protections *)
Lemma Classify_reads leases n l : ∃ c, Classify leases n l = (c, (Classify leases n l).2).
Proof. eexists. apply surjective_pairing. Qed.

(** [protects p t]: the target's blob or materialization is in the leased sets. *)
Definition leased_in (p : protectionIndex) (t : Target) : Prop :=
  if bool_decide (target_BlobID t = "")
  then target_MaterializationID t ∈ leasedMaterializations p
  else target_BlobID t ∈ leasedBlobs p.
Definition referenced_in (p : protectionIndex) (t : Target) : Prop :=
  if bool_decide (target_BlobID t = "")
  then target_MaterializationID t ∈ referencedMaterializations p
  else target_BlobID t ∈ referencedBlobs p.

(** [extends p p']: the leased sets of [p'] are larger, the rest is equal. *)
Record extends (p p' : protectionIndex) : Prop := {
  ex_leasedBlobs : leasedBlobs p ⊆ leasedBlobs p';
  ex_leasedMats : leasedMaterializations p ⊆ leasedMaterializations p';
  ex_refBlobs : referencedBlobs p ⊆ referencedBlobs p';
  ex_refMats : referencedMaterializations p ⊆ referencedMaterializations p';
  ex_mats : materializationsByEntry p' = materializationsByEntry p;
  ex_counts : entriesByBlob p' = entriesByBlob p;
}.
#[local] Instance extends_preorder : PreOrder extends.
Proof.
  split; [by intros p; split|]. intros p1 p2 p3 [] [].
  split; (etrans; [|done]; done) || congruence.
Qed.

Lemma leased_extends p p' t : extends p p' → leased_in p t → leased_in p' t.
Proof. intros []. unfold leased_in. case_bool_decide; set_solver. Qed.
Lemma referenced_extends p p' t : extends p p' → referenced_in p t → referenced_in p' t.
Proof. intros []. unfold referenced_in. case_bool_decide; set_solver. Qed.

Lemma index_reference_ok p r :
  extends p (index_reference p r) ∧ referenced_in (index_reference p r) (ref_Target r).
Proof.
  unfold index_reference, referenced_in.
  case_bool_decide; cbn; (split; [split; cbn; set_solver|set_solver]).
Qed.

Lemma index_references_ok rs p :
  extends p (foldl index_reference p rs) ∧
  ∀ r, r ∈ rs → referenced_in (foldl index_reference p rs) (ref_Target r).
Proof.
  revert p; induction rs as [|r rs IH]; intros p; cbn.
  { split; [done|]. by intros r ?%elem_of_nil. }
  destruct (index_reference_ok p r) as [He Hr].
  destruct (IH (index_reference p r)) as [He' Hrs]. split; [by etrans|].
  intros r' [->|?]%elem_of_cons; [by eapply referenced_extends|by apply Hrs].
Qed.

Lemma protect_leased_ok p t :
  extends p (protect_leased p t) ∧ leased_in (protect_leased p t) t.
Proof.
  unfold protect_leased, leased_in.
  case_bool_decide; cbn; (split; [split; cbn; set_solver|set_solver]).
Qed.

Lemma index_lease_ok leases pn l :
  extends pn.1 (index_lease leases pn l).1 ∧
  (leased_in (index_lease leases pn l).1 (lease_Target l) ∨ reclaimable leases l).
Proof.
  destruct pn as [p n]. unfold index_lease.
  destruct leases as [lm|].
  - destruct (Classify (Some lm) n l) as [c n'] eqn:E.
    case_bool_decide as Hc.
    + split; [done|]. right. exists n. by rewrite E.
    + destruct (protect_leased_ok p (lease_Target l)). split; [done|by left].
  - destruct (protect_leased_ok p (lease_Target l)). split; [done|by left].
Qed.

Lemma index_leases_ok leases ls pn :
  extends pn.1 (foldl (index_lease leases) pn ls).1 ∧
  ∀ l, l ∈ ls → leased_in (foldl (index_lease leases) pn ls).1 (lease_Target l) ∨
                reclaimable leases l.
Proof.
  revert pn; induction ls as [|l ls IH]; intros pn; cbn.
  { split; [done|]. by intros l ?%elem_of_nil. }
  destruct (index_lease_ok leases pn l) as [He Hl].
  destruct (IH (index_lease leases pn l)) as [He' Hls]. split; [by etrans|].
  intros l' [->|?]%elem_of_cons; [|by apply Hls].
  destruct Hl; [left; by eapply leased_extends|by right].
Qed.

Lemma count_entries es m b :
  default 0 (foldl count_entry m es !! b) =
  default 0 (m !! b) + Z.of_nat (length (filter (λ e, entry_BlobID e = b) es)).
Proof.
  revert m; induction es as [|e es IH]; intros m; cbn [foldl].
  { change (filter _ []) with (@nil Entry). cbn. lia. }
  rewrite IH, filter_cons. unfold count_entry at 1.
  case_decide as Hb; subst.
  - rewrite lookup_insert_eq. cbn [length default]. cbn. lia.
  - by rewrite lookup_insert_ne.
Qed.

(** The protections of a snapshot. *)
Record protections_of (leases : option LeaseManager) (s : Snapshot)
    (p : protectionIndex) : Prop := {
  pr_ref : ∀ r, r ∈ References s → referenced_in p (ref_Target r);
  pr_lease : ∀ l, l ∈ Leases s → leased_in p (lease_Target l) ∨ reclaimable leases l;
  pr_mats : materializationsByEntry p = list_to_set (mat_EntryID <$> Materializations s);
  pr_count : ∀ b, blob_count p b =
    Z.of_nat (length (filter (λ e, entry_BlobID e = b) (Entries s)));
}.

Lemma inspectProtections_ok s leases n p n' :
  inspectProtections s leases n = (p, n') → protections_of leases s p.
Proof.
  unfold inspectProtections. intros E.
  set (p0 := mkProtectionIndex _ _ _ _ _ _) in E.
  destruct (index_references_ok (References s) p0) as [He Hr].
  destruct (index_leases_ok leases (Leases s) (foldl index_reference p0 (References s), n))
    as [He' Hl].
  rewrite E in He', Hl. cbn [fst] in *.
  assert (extends p0 p) as [_ _ _ _ Hm Hc] by by etrans.
  split.
  - intros r Hin. by eapply referenced_extends, Hr.
  - done.
  - by rewrite Hm.
  - intros b. unfold blob_count. rewrite Hc. apply count_entries.
Qed.

(** * Candidates *)

(** The target may go: nothing the user pinned, nothing dirty, nothing that a
    reference or a lease that still protects holds. *)
Definition unheld (leases : option LeaseManager) (s : Snapshot) (t : Target) : Prop :=
  (∀ r, r ∈ References s → ref_Target r ≠ t) ∧
  (∀ l, l ∈ Leases s → lease_Target l = t → reclaimable leases l).

Inductive safe_target (leases : option LeaseManager) (s : Snapshot) :
    EvictionTarget → Prop :=
| safe_entry e :
    e ∈ Entries s → entry_Pinned e = false →
    unheld leases s (BlobTarget (entry_BlobID e)) →
    safe_target leases s (EntryEviction (entry_ID e))
| safe_materialization m :
    m ∈ Materializations s → mat_Pinned m = false →
    mat_State m = MaterializationClean →
    unheld leases s (MaterializationTarget (mat_ID m)) →
    safe_target leases s (MaterializationEviction (mat_ID m))
| safe_blob b :
    b ∈ Blobs s → unheld leases s (BlobTarget (blob_ID b)) →
    safe_target leases s (BlobEviction (blob_ID b)).

(** What the enumeration guarantees of a candidate in a snapshot. *)
Inductive candidate_of (s : Snapshot) (p : protectionIndex) : evictionCandidate → Prop :=
| candidate_entry e access :
    e ∈ Entries s → entry_Pinned e = false →
    (∀ m, m ∈ Materializations s → mat_EntryID m ≠ entry_ID e) →
    targetBlobProtected (entry_BlobID e) p = false →
    candidate_of s p (mkCandidate "entry" (entry_ID e) access (EntryEviction (entry_ID e)))
| candidate_mat m access :
    m ∈ Materializations s → mat_Pinned m = false → mat_State m = MaterializationClean →
    (mat_ID m ∉ leasedMaterializations p) → (mat_ID m ∉ referencedMaterializations p) →
    candidate_of s p (mkCandidate "materialization" (mat_ID m) access
                        (MaterializationEviction (mat_ID m)))
| candidate_blob b access :
    b ∈ Blobs s → blobReachable (blob_ID b) s = false →
    targetBlobProtected (blob_ID b) p = false →
    candidate_of s p (mkCandidate "blob" (blob_ID b) access (BlobEviction (blob_ID b))).

Lemma enumerateCandidates_ok leases s p shared c :
  protections_of leases s p → c ∈ enumerateCandidates s p shared → candidate_of s p c.
Proof.
  intros [_ _ Hm Hc]. unfold enumerateCandidates.
  rewrite !elem_of_app, !list_elem_of_omap.
  intros [(e & He & E)|[(m & Hin & E)|(b & Hb & E)]].
  - unfold entry_candidate in E. destruct (entry_Pinned e) eqn:Ep; [done|].
    cbn [orb] in E. destruct (_ && _); [done|]. case_bool_decide as Hne; [done|].
    destruct (targetBlobProtected _ _) eqn:Et; [done|]. injection E as <-.
    apply candidate_entry; try done. intros m Hin Heq. apply Hne.
    rewrite Hm, <-Heq. apply elem_of_list_to_set, list_elem_of_fmap. eauto.
  - unfold materialization_candidate in E. destruct (mat_Pinned m) eqn:Ep; [done|].
    cbn [orb] in E. case_bool_decide as Hs; [done|].
    case_bool_decide; [done|]. case_bool_decide; [done|]. injection E as <-.
    by apply candidate_mat.
  - unfold blob_candidate in E. case_bool_decide; [done|]. cbn [orb] in E.
    destruct (blob_count p (blob_ID b) =? 0) eqn:En; [|done]. cbn [negb orb] in E.
    destruct (blobReachableFromMaterialization _ _) eqn:Er; [done|].
    destruct (targetBlobProtected _ _) eqn:Et; [done|]. injection E as <-.
    apply candidate_blob; try done. unfold blobReachable. rewrite Er, orb_false_r.
    apply Z.eqb_eq in En. rewrite Hc in En.
    apply not_true_iff_false. rewrite existsb_exists.
    intros (e & He%list_elem_of_In & Heq%bool_decide_eq_true).
    assert (e ∈ filter (λ e, entry_BlobID e = blob_ID b) (Entries s)) as Hin
      by by apply list_elem_of_filter.
    destruct (filter _ (Entries s)); [by apply elem_of_nil in Hin|]. cbn in En. lia.
Qed.

Lemma sort_candidates_in c l : c ∈ sort_candidates l ↔ c ∈ l.
Proof. unfold sort_candidates. by rewrite (merge_sort_Permutation candidate_le l). Qed.

Lemma unprotected_unheld leases s p b :
  protections_of leases s p → b ≠ "" →
  targetBlobProtected b p = false → unheld leases s (BlobTarget b).
Proof.
  intros [Hr Hl _ _] Hb Hp. unfold targetBlobProtected in Hp.
  apply orb_false_iff in Hp as [H1%bool_decide_eq_false H2%bool_decide_eq_false].
  split.
  - intros r Hin E. specialize (Hr r Hin). unfold referenced_in in Hr. rewrite E in Hr.
    cbn in Hr. rewrite bool_decide_eq_false_2 in Hr by done. done.
  - intros l Hin E. destruct (Hl l Hin) as [H|H]; [|done].
    unfold leased_in in H. rewrite E in H. cbn in H.
    rewrite bool_decide_eq_false_2 in H by done. done.
Qed.

Lemma unleased_mat_unheld leases s p m :
  protections_of leases s p →
  (m ∉ leasedMaterializations p) → (m ∉ referencedMaterializations p) →
  unheld leases s (MaterializationTarget m).
Proof.
  intros [Hr Hl _ _] H1 H2. split.
  - intros r Hin E. specialize (Hr r Hin). unfold referenced_in in Hr. by rewrite E in Hr.
  - intros l Hin E. destruct (Hl l Hin) as [H|H]; [|done].
    unfold leased_in in H. by rewrite E in H.
Qed.

(** * Applying a candidate removes exactly its targets *)
Lemma filter_ext {A} (P Q : A → Prop) `{∀ x, Decision (P x), ∀ x, Decision (Q x)}
    (l : list A) :
  (∀ x, x ∈ l → P x ↔ Q x) → filter P l = filter Q l.
Proof.
  induction l as [|x l IH]; intros HPQ; [done|].
  rewrite !filter_cons, IH by (intros; apply HPQ; by right).
  pose proof (HPQ x ltac:(left)). repeat case_decide; tauto.
Qed.

Ltac unfold_snapshot :=
  cbv beta iota delta [over Blobs Entries Materializations References Leases].

Lemma remaining_entry s e :
  e ≠ "" →
  remaining s [EntryEviction e] = s <| Entries := filter (λ x, entry_ID x ≠ e) (Entries s) |>.
Proof.
  intros He. destruct s as [bs es ms rs ls]. unfold remaining; unfold_snapshot.
  f_equal; try (apply filter_all; intros x; rewrite list_elem_of_singleton;
    intros [=]; congruence).
  apply filter_ext. intros x _. rewrite list_elem_of_singleton.
  split; [intros H E; apply H; by rewrite E|intros H [=]; done].
Qed.

Lemma remaining_mat s m :
  m ≠ "" →
  remaining s [MaterializationEviction m] =
  s <| Materializations := filter (λ x, mat_ID x ≠ m) (Materializations s) |>.
Proof.
  intros He. destruct s as [bs es ms rs ls]. unfold remaining; unfold_snapshot.
  f_equal; try (apply filter_all; intros x; rewrite list_elem_of_singleton;
    intros [=]; congruence).
  apply filter_ext. intros x _. rewrite list_elem_of_singleton.
  split; [intros H E; apply H; by rewrite E|intros H [=]; done].
Qed.

Lemma remaining_blob s b :
  b ≠ "" → remaining s [BlobEviction b] = removeBlob s b.
Proof.
  intros He. destruct s as [bs es ms rs ls]. unfold remaining, removeBlob; unfold_snapshot.
  f_equal; try (apply filter_all; intros x; rewrite list_elem_of_singleton;
    intros [=]; congruence).
  apply filter_ext. intros x _. rewrite list_elem_of_singleton.
  split; [intros H E; apply H; by rewrite E|intros H [=]; done].
Qed.

Lemma entry_blob_In s e :
  NoDup (entry_ID <$> Entries s) → e ∈ Entries s →
  entry_blob s (entry_ID e) = entry_BlobID e.
Proof.
  unfold entry_blob. generalize "" as acc. induction (Entries s) as [|x l IH];
    intros acc Hn He; [by apply elem_of_nil in He|].
  rewrite fmap_cons, NoDup_cons in Hn. destruct Hn as [Hx Hn]. cbn [foldl].
  apply elem_of_cons in He as [->|He]; [|by apply IH].
  rewrite bool_decide_eq_true_2 by done.
  assert (∀ acc, foldl (λ blobID e, if bool_decide (entry_ID e = entry_ID x)
    then entry_BlobID e else blobID) acc l = acc) as ->; [|done].
  clear IH Hn. induction l as [|y l IH]; intros acc'; [done|]. cbn.
  rewrite fmap_cons, not_elem_of_cons in Hx. destruct Hx as [Hxy Hx].
  rewrite bool_decide_eq_false_2 by congruence. by apply IH.
Qed.

(** The targets of a candidate: itself, and the blob its removal orphans. *)
Inductive applied (leases : option LeaseManager) (s : Snapshot) (p : protectionIndex) :
    list EvictionTarget → Prop :=
| applied_entry e :
    e ∈ Entries s → entry_Pinned e = false →
    (∀ m, m ∈ Materializations s → mat_EntryID m ≠ entry_ID e) →
    unheld leases s (BlobTarget (entry_BlobID e)) →
    applied leases s p [EntryEviction (entry_ID e)]
| applied_entry_blob e :
    e ∈ Entries s → entry_Pinned e = false →
    (∀ m, m ∈ Materializations s → mat_EntryID m ≠ entry_ID e) →
    unheld leases s (BlobTarget (entry_BlobID e)) →
    blobReachable (entry_BlobID e) (remaining s [EntryEviction (entry_ID e)]) = false →
    applied leases s p [EntryEviction (entry_ID e); BlobEviction (entry_BlobID e)]
| applied_mat m :
    m ∈ Materializations s → mat_Pinned m = false → mat_State m = MaterializationClean →
    unheld leases s (MaterializationTarget (mat_ID m)) →
    applied leases s p [MaterializationEviction (mat_ID m)]
| applied_blob b :
    b ∈ Blobs s → blobReachable (blob_ID b) s = false →
    unheld leases s (BlobTarget (blob_ID b)) →
    applied leases s p [BlobEviction (blob_ID b)].

Lemma applyCandidate_ok leases s p c s' ts :
  catalog_ok leases s → protections_of leases s p → candidate_of s p c →
  applyCandidate s c p = (s', ts) →
  s' = remaining s ts ∧ applied leases s p ts.
Proof.
  intros Hs Hp Hc. destruct Hc as [e acc He Hpin Hm Ht|m acc Hin Hpin Hst Hl Hr|b acc Hb Hre Ht];
    unfold applyCandidate; cbn.
  - destruct (ca_entry _ _ Hs e He) as (Hid & Hbid & _).
    rewrite bool_decide_eq_true_2 by done.
    rewrite (entry_blob_In s e (ca_entry_nodup _ _ Hs) He), Ht.
    rewrite (bool_decide_eq_true_2 (entry_BlobID e ≠ "")) by done.
    rewrite <-(remaining_entry s (entry_ID e) Hid).
    pose proof (unprotected_unheld _ _ _ _ Hp Hbid Ht) as Hu.
    destruct (blobReachable _ _) eqn:Er; cbn; intros [= <- <-].
    + split; [done|by apply applied_entry].
    + split; [|by apply applied_entry_blob].
      rewrite <-remaining_blob by done. apply remaining_app.
  - destruct (ca_mat _ _ Hs m Hin) as (Hid & _).
    rewrite (bool_decide_eq_true_2 (mat_ID m ≠ "")) by done. intros [= <- <-].
    split; [by rewrite remaining_mat|]. apply applied_mat; try done.
    by eapply unleased_mat_unheld.
  - destruct (ca_blob _ _ Hs b Hb) as (Hid & _). intros [= <- <-].
    split; [by rewrite remaining_blob|]. apply applied_blob; try done.
    by eapply unprotected_unheld.
Qed.

Lemma blob_ids_remaining s ts b :
  b ∈ blob_ids (remaining s ts) ↔ (BlobEviction b ∉ ts) ∧ b ∈ blob_ids s.
Proof.
  unfold blob_ids. rewrite !elem_of_list_to_set, !list_elem_of_fmap.
  setoid_rewrite list_elem_of_filter. naive_solver.
Qed.
Lemma entry_ids_remaining s ts b :
  b ∈ entry_ids (remaining s ts) ↔ (EntryEviction b ∉ ts) ∧ b ∈ entry_ids s.
Proof.
  unfold entry_ids. rewrite !elem_of_list_to_set, !list_elem_of_fmap.
  setoid_rewrite list_elem_of_filter. naive_solver.
Qed.
Lemma mat_ids_remaining s ts b :
  b ∈ mat_ids (remaining s ts) ↔ (MaterializationEviction b ∉ ts) ∧ b ∈ mat_ids s.
Proof.
  unfold mat_ids. rewrite !elem_of_list_to_set, !list_elem_of_fmap.
  setoid_rewrite list_elem_of_filter. naive_solver.
Qed.

(** What removing the targets [ts] must not break. *)
Record harmless (leases : option LeaseManager) (s : Snapshot)
    (ts : list EvictionTarget) : Prop := {
  ha_entry : ∀ e, e ∈ Entries (remaining s ts) → BlobEviction (entry_BlobID e) ∉ ts;
  ha_mat_entry : ∀ m, m ∈ Materializations (remaining s ts) →
    EntryEviction (mat_EntryID m) ∉ ts;
  ha_mat_blob : ∀ m, m ∈ Materializations (remaining s ts) →
    BlobEviction (mat_BaselineBlobID m) ∉ ts;
  ha_blob : ∀ b, b ≠ "" → BlobEviction b ∈ ts → unheld leases s (BlobTarget b);
  ha_mat : ∀ m, m ≠ "" → MaterializationEviction m ∈ ts →
    unheld leases s (MaterializationTarget m);
}.

Lemma remaining_ok leases s ts :
  catalog_ok leases s → harmless leases s ts → catalog_ok leases (remaining s ts).
Proof.
  intros [Hbn Hen Hmn Hb He Hm Hr Hl] [He1 Hm1 Hm2 Hub Hum].
  assert (∀ t, target_ok s t →
    (∀ b, t = BlobTarget b → BlobEviction b ∉ ts) →
    (∀ m, t = MaterializationTarget m → MaterializationEviction m ∉ ts) →
    target_ok (remaining s ts) t) as Htgt.
  { intros t [(b & Hb0 & -> & Hin)|(m & Hm0 & -> & Hin)] H1 H2; [left|right].
    - exists b. rewrite blob_ids_remaining. auto.
    - exists m. rewrite mat_ids_remaining. auto. }
  split; cbn [Blobs Entries Materializations References Leases remaining].
  - by apply NoDup_fmap_filter.
  - by apply NoDup_fmap_filter.
  - by apply NoDup_fmap_filter.
  - intros b [_ Hin]%list_elem_of_filter. by apply Hb.
  - intros e Hin. specialize (He1 e Hin). apply list_elem_of_filter in Hin as [_ Hin].
    rewrite blob_ids_remaining. destruct (He e Hin) as (? & ? & ?). done.
  - intros m Hin. specialize (Hm1 m Hin). specialize (Hm2 m Hin).
    apply list_elem_of_filter in Hin as [_ Hin].
    rewrite blob_ids_remaining, entry_ids_remaining.
    destruct (Hm m Hin) as (? & ? & ? & ?). done.
  - intros r Hin. apply Htgt; [by apply Hr|..].
    + intros b E Hev. destruct (Hr r Hin) as [(b' & ? & E' & _)|(m' & ? & E' & _)];
        rewrite E in E'; injection E'; [|congruence].
      intros ->. by apply (proj1 (Hub b' ltac:(done) Hev) r).
    + intros m E Hev. destruct (Hr r Hin) as [(b' & ? & E' & _)|(m' & ? & E' & _)];
        rewrite E in E'; injection E'; [congruence|].
      intros ->. by apply (proj1 (Hum m' ltac:(done) Hev) r).
  - intros l Hin. destruct (Hl l Hin) as [Ht|?]; [|by right].
    destruct Ht as [(b & Hb0 & E & Hbi)|(m & Hm0 & E & Hmi)].
    + destruct (decide (BlobEviction b ∈ ts)) as [Hev|Hev].
      * right. by apply (proj2 (Hub b Hb0 Hev) l).
      * left; left. exists b. by rewrite blob_ids_remaining.
    + destruct (decide (MaterializationEviction m ∈ ts)) as [Hev|Hev].
      * right. by apply (proj2 (Hum m Hm0 Hev) l).
      * left; right. exists m. by rewrite mat_ids_remaining.
Qed.

Lemma blobReachable_entry s e :
  e ∈ Entries s → blobReachable (entry_BlobID e) s = true.
Proof.
  intros He. unfold blobReachable. apply orb_true_iff. left.
  apply existsb_exists. exists e. split; [by apply list_elem_of_In|].
  by apply bool_decide_eq_true.
Qed.
Lemma blobReachable_mat s m :
  m ∈ Materializations s → blobReachable (mat_BaselineBlobID m) s = true.
Proof.
  intros Hm. unfold blobReachable, blobReachableFromMaterialization.
  apply orb_true_iff. right. apply existsb_exists. exists m.
  split; [by apply list_elem_of_In|]. by apply bool_decide_eq_true.
Qed.

Lemma not_elem_of_first {A} (x a b : A) : x ∉ [a; b] → x ∉ [a].
Proof. rewrite !not_elem_of_cons. tauto. Qed.

Lemma applied_harmless leases s p ts :
  catalog_ok leases s → applied leases s p ts → harmless leases s ts.
Proof.
  intros Hs Ha.
  destruct Ha as [e He Hpin Hm Hu|e He Hpin Hm Hu Hre|m Hin Hpin Hst Hu|b Hb Hre Hu].
  - destruct (ca_entry _ _ Hs e He) as (Hid & _). split.
    + intros e' _ [=]%list_elem_of_singleton. done.
    + intros m [_ Hin]%list_elem_of_filter [= E]%list_elem_of_singleton. by eapply Hm.
    + intros m _ [=]%list_elem_of_singleton. done.
    + intros b ? [=]%list_elem_of_singleton. done.
    + intros m ? [=]%list_elem_of_singleton. done.
  - destruct (ca_entry _ _ Hs e He) as (Hid & Hbid & _).
    assert (∀ e', e' ∈ Entries (remaining s [EntryEviction (entry_ID e);
      BlobEviction (entry_BlobID e)]) → e' ∈ Entries (remaining s [EntryEviction (entry_ID e)])) as Hsub.
    { intros e' [Hn Hin]%list_elem_of_filter. apply list_elem_of_filter. split; [|done].
      by eapply not_elem_of_first. }
    split.
    + intros e' He'%Hsub%blobReachable_entry Hev.
      apply elem_of_cons in Hev as [[=]|[= E]%list_elem_of_singleton]; [done|congruence].
    + intros m [_ Hin]%list_elem_of_filter Hev.
      apply elem_of_cons in Hev as [[= E]|[=]%list_elem_of_singleton]; [by eapply Hm|done].
    + intros m Hin Hev.
      apply elem_of_cons in Hev as [[=]|[= E]%list_elem_of_singleton]; [done|].
      apply list_elem_of_filter in Hin as [Hn Hin].
      assert (m ∈ Materializations (remaining s [EntryEviction (entry_ID e)])) as Hin'.
      { apply list_elem_of_filter. split; [|done]. by eapply not_elem_of_first. }
      apply blobReachable_mat in Hin'. congruence.
    + intros b ? Hev.
      apply elem_of_cons in Hev as [[=]|[= ->]%list_elem_of_singleton]; done.
    + intros m ? Hev. by apply elem_of_cons in Hev as [[=]|[=]%list_elem_of_singleton].
  - destruct (ca_mat _ _ Hs m Hin) as (Hid & _). split.
    + intros e' _ [=]%list_elem_of_singleton. done.
    + intros m' _ [=]%list_elem_of_singleton. done.
    + intros m' _ [=]%list_elem_of_singleton. done.
    + intros b ? [=]%list_elem_of_singleton. done.
    + intros m' ? [= ->]%list_elem_of_singleton. done.
  - destruct (ca_blob _ _ Hs b Hb) as (Hid & _). split.
    + intros e' [_ He]%list_elem_of_filter [= E]%list_elem_of_singleton.
      apply blobReachable_entry in He. congruence.
    + intros m' _ [=]%list_elem_of_singleton. done.
    + intros m' [_ Hin]%list_elem_of_filter [= E]%list_elem_of_singleton.
      apply blobReachable_mat in Hin. congruence.
    + intros b' ? [= ->]%list_elem_of_singleton. done.
    + intros m' ? [=]%list_elem_of_singleton. done.
Qed.

Lemma unheld_remaining leases s ts t : unheld leases (remaining s ts) t → unheld leases s t.
Proof. done. Qed.

Lemma applied_safe leases s0 ts0 p ts :
  catalog_ok leases (remaining s0 ts0) → applied leases (remaining s0 ts0) p ts →
  Forall (safe_target leases s0) ts ∧ (length ts ≤ 2)%nat ∧ ts ≠ [].
Proof.
  intros Hs Ha.
  destruct Ha as [e He Hpin Hm Hu|e He Hpin Hm Hu Hre|m Hin Hpin Hst Hu|b Hb Hre Hu].
  - apply list_elem_of_filter in He as [_ He]. split_and!; [|cbn; lia|done].
    apply Forall_singleton. by apply safe_entry.
  - destruct (ca_entry _ _ Hs e He) as (_ & _ & Hbin).
    apply list_elem_of_filter in He as [_ He]. split_and!; [|cbn; lia|done].
    apply blob_ids_remaining in Hbin as [_ Hbin].
    unfold blob_ids in Hbin. apply elem_of_list_to_set, list_elem_of_fmap in Hbin as (b & E & Hb).
    apply Forall_cons; split; [by apply safe_entry|].
    apply Forall_singleton. rewrite E in Hu |- *. by apply safe_blob.
  - apply list_elem_of_filter in Hin as [_ Hin]. split_and!; [|cbn; lia|done].
    apply Forall_singleton. by apply safe_materialization.
  - apply list_elem_of_filter in Hb as [_ Hb]. split_and!; [|cbn; lia|done].
    apply Forall_singleton. by apply safe_blob.
Qed.

(** * The planning loop *)

(** The state of the loop, for the snapshot [s0] planned for. *)
Record plan_inv (limits : Limits) (leases : option LeaseManager) (s0 : Snapshot)
    (st : plan_state) : Prop := {
  pi_working : ps_working st = remaining s0 (ps_targets st);
  pi_catalog : catalog_ok leases (ps_working st);
  pi_after : accountValidated (ps_working st) = Ok (ps_after st);
  pi_safe : Forall (safe_target leases s0) (ps_targets st);
  pi_considered : 0 ≤ ps_considered st ≤ MaxCandidates limits;
  pi_targets : Z.of_nat (length (ps_targets st)) ≤ 2 * ps_considered st;
}.

(** A candidate that would be selected. *)
Definition helps (limits : Limits) (p : protectionIndex) (working : Snapshot)
    (after : Usage) (c : evictionCandidate) : Prop :=
  ∃ u, accountValidated (applyCandidate working c p).1 = Ok u ∧
       improvesViolation after u limits = true.

(** The outcome of the inner loop. *)
Inductive tried (limits : Limits) (p : protectionIndex) (working : Snapshot)
    (after : Usage) (considered : Z) (cs : list evictionCandidate) :
    Z * option (Snapshot * Usage * list EvictionTarget) → Prop :=
| tried_none considered' :
    considered ≤ considered' ≤ MaxCandidates limits →
    (considered' = MaxCandidates limits ∨
     ∀ c, c ∈ cs → ¬ helps limits p working after c) →
    tried limits p working after considered cs (considered', None)
| tried_some considered' c trial u ts :
    considered < considered' ≤ MaxCandidates limits →
    c ∈ cs → applyCandidate working c p = (trial, ts) →
    accountValidated trial = Ok u → improvesViolation after u limits = true →
    tried limits p working after considered cs (considered', Some (trial, u, ts)).

Lemma try_candidates_ok limits p working after cs considered r :
  considered ≤ MaxCandidates limits →
  try_candidates limits p working after considered cs = Ok r →
  tried limits p working after considered cs r.
Proof.
  revert considered; induction cs as [|c cs IH]; intros considered Hc; cbn [try_candidates].
  { intros [= <-]. apply tried_none; [lia|]. right. by intros c ?%elem_of_nil. }
  rewrite Z.geb_leb. destruct (Z.leb_spec (MaxCandidates limits) considered).
  { intros [= <-]. apply tried_none; [lia|left; lia]. }
  destruct (applyCandidate working c p) as [trial ts] eqn:Ea.
  destruct (accountValidated trial) as [u|e] eqn:Eu; cbn [mbind result_bind]; [|done].
  destruct (improvesViolation after u limits) eqn:Ei.
  { intros [= <-]. eapply tried_some; [lia|by left|done..]. }
  intros [considered' Hr Hn|considered' c' trial' u' ts' Hr Hin Ha Hu Hi]%IH; [| |lia].
  - apply tried_none; [lia|]. destruct Hn as [?|Hn]; [by left|right].
    intros c' [->|Hin]%elem_of_cons; [|by apply Hn].
    intros (u' & Hu' & Hi'). rewrite Ea in Hu'. cbn in Hu'. congruence.
  - eapply tried_some; [lia|by right|done..].
Qed.

(** Nothing that may go would help: what is left over the limits is held. *)
Definition stuck (limits : Limits) (leases : option LeaseManager)
    (working : Snapshot) (after : Usage) : Prop :=
  ∃ n, let p := (inspectProtections working leases n).1 in
  ∀ c, c ∈ enumerateCandidates working p (withinByteLimits after limits) →
    ¬ helps limits p working after c.

Lemma plan_turn_ok limits leases s0 st st' go :
  plan_inv limits leases s0 st → ps_considered st < MaxCandidates limits →
  plan_turn limits leases st = Ok (st', go) →
  plan_inv limits leases s0 st' ∧
  (if go : bool then ps_considered st < ps_considered st'
   else ps_considered st' = MaxCandidates limits ∨
        stuck limits leases (ps_working st') (ps_after st')).
Proof.
  intros [Hw Hcat Hacc Hsafe Hcon Hlen] Hlt. unfold plan_turn.
  destruct (inspectProtections (ps_working st) leases (ps_reads st)) as [p n] eqn:Ep.
  pose proof (inspectProtections_ok _ _ _ _ _ Ep) as Hp.
  set (cs := enumerateCandidates (ps_working st) p (withinByteLimits (ps_after st) limits)).
  assert (∀ n', (n' = ps_reads st) → (inspectProtections (ps_working st) leases n').1 = p) as Hp1
    by (intros ? ->; by rewrite Ep).
  case_bool_decide as Hcs.
  { intros [= <- <-]. split; [by split|]. right. exists (ps_reads st). cbn.
    rewrite Hp1 by done. fold cs. rewrite Hcs. by intros c ?%elem_of_nil. }
  destruct (try_candidates _ _ _ _ _ _) as [[considered selected]|e] eqn:Et;
    cbn [mbind result_bind]; [|done].
  apply try_candidates_ok in Et; [|lia].
  inversion Et as [considered' Hr Hn Heq|considered' c trial u ts Hr Hin Ha Hu Hi Heq]; subst.
  - intros [= <- <-]. split; [split; cbn; done || lia|].
    destruct Hn as [?|Hn]; [by left|right]. exists (ps_reads st). cbn.
    rewrite Hp1 by done. intros c Hin. apply Hn. by rewrite sort_candidates_in.
  - intros [= <- <-]. cbn. split; [|lia].
    rewrite sort_candidates_in in Hin.
    pose proof (enumerateCandidates_ok _ _ _ _ _ Hp Hin) as Hc.
    destruct (applyCandidate_ok _ _ _ _ _ _ Hcat Hp Hc Ha) as [-> Hap].
    rewrite Hw in Hcat, Hap.
    destruct (applied_safe _ _ _ _ _ Hcat Hap) as (Hs & Hl & _).
    split; cbn.
    + by rewrite Hw, remaining_app.
    + rewrite Hw. apply remaining_ok; [done|]. by eapply applied_harmless.
    + done.
    + by apply Forall_app.
    + lia.
    + rewrite length_app. lia.
Qed.

(** How the loop may end. *)
Definition finished (limits : Limits) (leases : option LeaseManager)
    (st : plan_state) : Prop :=
  withinLimits (ps_after st) limits = true ∨
  ps_considered st = MaxCandidates limits ∨
  stuck limits leases (ps_working st) (ps_after st).

Lemma plan_loop_ok limits leases s0 fuel st st' :
  plan_inv limits leases s0 st →
  MaxCandidates limits - ps_considered st ≤ Z.of_nat fuel →
  plan_loop limits leases fuel st = Ok st' →
  plan_inv limits leases s0 st' ∧ finished limits leases st'.
Proof.
  revert st; induction fuel as [|fuel IH]; intros st Hi Hf; cbn [plan_loop].
  all: destruct (withinLimits (ps_after st) limits) eqn:Ew; cbn [orb].
  1, 3: intros [= <-]; split; [done|by left].
  all: destruct (Z.ltb_spec (ps_considered st) (MaxCandidates limits)); cbn [negb].
  - lia.
  - intros [= <-]. split; [done|]. right; left. pose proof (pi_considered _ _ _ _ Hi). lia.
  - destruct (plan_turn limits leases st) as [[st1 go]|e] eqn:Et; cbn [mbind result_bind];
      [|done].
    apply (plan_turn_ok _ _ s0) in Et as [Hi1 Hgo]; [|done|done].
    destruct go; [intros H1; apply (IH st1 Hi1); [lia|done]|].
    intros [= <-]. split; [done|]. right. done.
  - intros [= <-]. split; [done|]. right; left. pose proof (pi_considered _ _ _ _ Hi). lia.
Qed.

(** * Planning succeeds *)
Lemma remaining_total leases s ts :
  catalog_ok leases s → total_bytes (remaining s ts) ≤ total_bytes s.
Proof.
  intros Hs. unfold total_bytes; cbn.
  assert (sumZ blob_Size (filter (λ b, BlobEviction (blob_ID b) ∉ ts) (Blobs s)) ≤
          sumZ blob_Size (Blobs s))
    by (apply sumZ_filter_le; intros; by eapply ca_blob).
  assert (sumZ mat_Size (filter (λ m, MaterializationEviction (mat_ID m) ∉ ts)
            (Materializations s)) ≤ sumZ mat_Size (Materializations s))
    by (apply sumZ_filter_le; intros; by eapply ca_mat).
  lia.
Qed.

Lemma catalog_accounts leases s :
  catalog_ok leases s → total_bytes s ≤ MaxInt64 →
  ∃ u, accountValidated s = Ok u ∧ accounts s u.
Proof.
  intros Hs Ht. pose proof (accountValidated_exact s) as H.
  rewrite bool_decide_eq_true_2 in H by done. apply H; intros; by eapply Hs.
Qed.

Lemma try_candidates_total leases limits p working after cs considered :
  catalog_ok leases working → total_bytes working ≤ MaxInt64 →
  protections_of leases working p →
  (∀ c, c ∈ cs → candidate_of working p c) →
  ∃ r, try_candidates limits p working after considered cs = Ok r.
Proof.
  intros Hw Ht Hp. revert considered; induction cs as [|c cs IH]; intros considered Hcs;
    cbn [try_candidates]; [eauto|].
  destruct (considered >=? MaxCandidates limits); [eauto|].
  destruct (applyCandidate working c p) as [trial ts] eqn:Ea.
  destruct (applyCandidate_ok _ _ _ _ _ _ Hw Hp (Hcs c ltac:(left)) Ea) as [-> Hap].
  destruct (catalog_accounts leases (remaining working ts)) as (u & -> & _).
  { apply remaining_ok; [done|]. by eapply applied_harmless. }
  { pose proof (remaining_total leases working ts Hw). lia. }
  cbn [mbind result_bind]. destruct (improvesViolation after u limits); [eauto|].
  apply IH. intros; apply Hcs. by right.
Qed.

Lemma plan_turn_total limits leases s0 st :
  plan_inv limits leases s0 st → total_bytes (ps_working st) ≤ MaxInt64 →
  ∃ r, plan_turn limits leases st = Ok r.
Proof.
  intros [Hw Hcat _ _ _ _] Ht. unfold plan_turn.
  destruct (inspectProtections (ps_working st) leases (ps_reads st)) as [p n] eqn:Ep.
  pose proof (inspectProtections_ok _ _ _ _ _ Ep) as Hp.
  case_bool_decide; [eauto|].
  edestruct (try_candidates_total leases limits p (ps_working st) (ps_after st))
    as [[considered selected] ->]; [done..| |].
  { intros c Hin. rewrite sort_candidates_in in Hin. by eapply enumerateCandidates_ok. }
  cbn [mbind result_bind]. destruct selected as [[[trial u] ts]|]; eauto.
Qed.

Lemma plan_loop_total limits leases s0 fuel st :
  catalog_ok leases s0 → total_bytes s0 ≤ MaxInt64 →
  plan_inv limits leases s0 st → ∃ st', plan_loop limits leases fuel st = Ok st'.
Proof.
  intros H0 Ht. revert st; induction fuel as [|fuel IH]; intros st Hi; cbn [plan_loop].
  { destruct (_ || _); eauto. }
  destruct (withinLimits (ps_after st) limits); cbn [orb]; [eauto|].
  destruct (Z.ltb_spec (ps_considered st) (MaxCandidates limits)); cbn [negb]; [|eauto].
  destruct (plan_turn_total limits leases s0 st Hi) as [[st1 go] Et].
  { rewrite (pi_working _ _ _ _ Hi). pose proof (remaining_total leases s0 (ps_targets st) H0).
    lia. }
  rewrite Et. cbn [mbind result_bind].
  apply (plan_turn_ok _ _ s0) in Et as [Hi1 _]; [|done|done].
  destruct go; eauto.
Qed.

Lemma plan_start limits leases s before n :
  snapshot_ok s → 0 < MaxCandidates limits → accountValidated s = Ok before →
  plan_inv limits leases s (mkPlanState s before [] 0 n).
Proof.
  intros Hs Hm Ha. split; cbn; try done; [by rewrite remaining_nil| |lia].
  by apply snapshot_ok_catalog.
Qed.

(** Everything a plan is made of. *)
Lemma PlanEvictions_ok s limits leases n plan :
  PlanEvictions s limits leases n = Ok plan →
  snapshot_ok s ∧
  ∃ st, plan_inv limits leases s st ∧ finished limits leases st ∧
    accountValidated s = Ok (Before plan) ∧ After plan = ps_after st ∧
    Targets plan = ps_targets st ∧ Considered plan = ps_considered st ∧
    Satisfied plan = withinLimits (ps_after st) limits.
Proof.
  unfold PlanEvictions. intros ([] & Hv%map_err_ok%Snapshot_Validate_ok & H)%bind_ok.
  apply bind_ok in H as ([] & Hl & H). apply check_bind_ok in H as [_ H].
  apply bind_ok in H as (before & Hb & H). apply bind_ok in H as (st & Hst & H).
  unfold Limits_validate in Hl. apply check_ok in Hl. breflect.
  apply (plan_loop_ok _ _ s) in Hst as [Hi Hf];
    [|by apply plan_start|cbn; lia].
  split; [done|]. exists st.
  destruct (if withinLimits _ _ then _ else _); injection H as <-. by split_and!.
Qed.

Lemma key_unique {A} (key : A → string) l x y :
  NoDup (key <$> l) → x ∈ l → y ∈ l → key x = key y → x = y.
Proof.
  intros Hn Hx Hy E. apply list_elem_of_lookup in Hx as [i Hi].
  apply list_elem_of_lookup in Hy as [j Hj].
  assert (i = j) as <-; [|congruence].
  eapply NoDup_lookup; [exact Hn|..]; rewrite list_lookup_fmap.
  - by rewrite Hi.
  - by rewrite Hj, E.
Qed.

(** Pinned records stay, with everything they need. *)
Lemma PlanEvictions_pinned w limits leases n plan :
  PlanEvictions w limits leases n = Ok plan →
  (∀ e, e ∈ Entries w → entry_Pinned e = true →
    (EntryEviction (entry_ID e) ∉ Targets plan) ∧
    (BlobEviction (entry_BlobID e) ∉ Targets plan)) ∧
  (∀ m, m ∈ Materializations w → mat_Pinned m = true →
    (MaterializationEviction (mat_ID m) ∉ Targets plan) ∧
    (BlobEviction (mat_BaselineBlobID m) ∉ Targets plan) ∧
    (EntryEviction (mat_EntryID m) ∉ Targets plan)).
Proof.
  intros (Hok & st & [Hw Hc _ Hsafe _ _] & _ & _ & _ & Ht & _)%PlanEvictions_ok.
  rewrite Ht, Hw in *. rewrite Forall_forall in Hsafe.
  pose proof (snapshot_ok_catalog leases w Hok) as Hcat. split.
  - intros e He Hp. assert (EntryEviction (entry_ID e) ∉ ps_targets st) as Hne.
    { intros Hin%Hsafe. destruct (ca_entry _ _ Hcat e He) as (Hid & _).
      inversion Hin as [e' He' Hp' _ E| |]; try congruence.
      assert (e' = e) as -> by by eapply (key_unique entry_ID); [apply Hcat|..]. congruence. }
    split; [done|].
    assert (e ∈ Entries (remaining w (ps_targets st))) as Hin
      by (apply list_elem_of_filter; done).
    destruct (ca_entry _ _ Hc e Hin) as (_ & _ & Hb%blob_ids_remaining). apply Hb.
  - intros m Hm Hp. assert (MaterializationEviction (mat_ID m) ∉ ps_targets st) as Hne.
    { intros Hin%Hsafe. destruct (ca_mat _ _ Hcat m Hm) as (Hid & _).
      inversion Hin as [|m' Hm' Hp' _ _ E|]; try congruence.
      assert (m' = m) as -> by by eapply (key_unique mat_ID); [apply Hcat|..]. congruence. }
    split; [done|].
    assert (m ∈ Materializations (remaining w (ps_targets st))) as Hin
      by (apply list_elem_of_filter; done).
    destruct (ca_mat _ _ Hc m Hin) as (_ & _ & He%entry_ids_remaining & Hb%blob_ids_remaining).
    split; [apply Hb|apply He].
Qed.

(** C30: evictions are safe.  Whatever the limits, the clock and the state of
    other processes, a plan for a valid snapshot names only records of that
    snapshot that are not pinned; a materialization only if it is clean; and
    never one, or the blob of one, that a reference or a lease holds, unless
    the lease manager itself classified that lease as reclaimable. *)
Theorem PlanEvictions_safe s limits leases n plan t :
  PlanEvictions s limits leases n = Ok plan → t ∈ Targets plan →
  safe_target leases s t.
Proof.
  intros (_ & st & [_ _ _ Hs _ _] & _ & _ & _ & Ht & _)%PlanEvictions_ok Hin.
  rewrite Ht in Hin. rewrite Forall_forall in Hs. by apply Hs.
Qed.

(** a plan describes the catalog it leaves.  What remains after removing
    exactly the targets is referentially intact (every entry has its blob,
    every materialization its entry and baseline, every reference its target,
    and every lease that was not found reclaimable its target); [After] is the
    accounting of exactly that catalog, and [Satisfied] says whether it is
    within the limits. *)
Theorem PlanEvictions_describes s limits leases n plan :
  PlanEvictions s limits leases n = Ok plan →
  catalog_ok leases (remaining s (Targets plan)) ∧
  accountValidated s = Ok (Before plan) ∧
  accountValidated (remaining s (Targets plan)) = Ok (After plan) ∧
  Satisfied plan = withinLimits (After plan) limits.
Proof.
  intros (_ & st & [Hw Hc Ha _ _ _] & _ & Hb & Haf & Ht & _ & Hs)%PlanEvictions_ok.
  rewrite Ht, Haf, <-Hw. done.
Qed.

(** planning terminates with a maximal plan.  On a valid snapshot whose
    bytes fit an int64 and on valid limits it always returns a plan, after at
    most [MaxCandidates] trials; and a plan that is not satisfied has either
    used them all or reached a catalog in which no permitted removal would
    bring any count that is over its limit closer to it. *)
Theorem PlanEvictions_maximal s limits leases n :
  Snapshot_Validate s = Ok tt → Limits_validate limits = Ok tt →
  (Leases s = [] ∨ is_Some leases) → total_bytes s ≤ MaxInt64 →
  ∃ plan, PlanEvictions s limits leases n = Ok plan ∧
    0 ≤ Considered plan ≤ MaxCandidates limits ∧
    Z.of_nat (length (Targets plan)) ≤ 2 * Considered plan ∧
    (Satisfied plan = true ∨ Considered plan = MaxCandidates limits ∨
     stuck limits leases (remaining s (Targets plan)) (After plan)).
Proof.
  intros Hv Hl Hle Ht. assert (∃ plan, PlanEvictions s limits leases n = Ok plan) as [plan Hp].
  { unfold PlanEvictions. rewrite Hv, Hl. cbn [map_err mbind result_bind].
    pose proof Hv as Hok. rewrite Snapshot_Validate_ok in Hok.
    destruct (catalog_accounts leases s) as (u & Hu & _);
      [by apply snapshot_ok_catalog|done|].
    rewrite Hu. cbn [mbind result_bind].
    unfold check. rewrite (proj2 (orb_true_iff _ _))
      by (rewrite !bool_decide_eq_true; done).
    cbn [mbind result_bind].
    destruct (plan_loop_total limits leases s (Z.to_nat (MaxCandidates limits))
      (mkPlanState s u [] 0 n)) as [st ->];
      [by apply snapshot_ok_catalog|done| |].
    { apply plan_start; [done| |done]. unfold Limits_validate in Hl.
      apply check_ok in Hl. breflect. lia. }
    cbn [mbind result_bind].
    destruct (if withinLimits _ _ then _ else _); eauto. }
  exists plan. split; [done|].
  apply PlanEvictions_ok in Hp
    as (_ & st & [Hw _ _ _ Hc Hlen] & Hf & _ & Haf & Htg & Hco & Hsa).
  rewrite Htg, Hco, Hsa, Haf, <-Hw. done.
Qed.

(** an admission never evicts what it brings or what it needs.  The
    incoming entry or materialization, its blob and (for a materialization) its
    entry survive every plan made for it, as does every entry that shares the
    blob an incoming entry reuses. *)
Theorem PlanAdmission_protects s a limits leases n plan :
  PlanAdmission s a limits leases n = Ok plan →
  (∀ e, adm_Entry a = Some e →
    (EntryEviction (entry_ID e) ∉ Targets plan) ∧
    (BlobEviction (entry_BlobID e) ∉ Targets plan) ∧
    (adm_Blob a = None → ∀ e', e' ∈ Entries s → entry_BlobID e' = entry_BlobID e →
       EntryEviction (entry_ID e') ∉ Targets plan)) ∧
  (∀ m, adm_Materialization a = Some m →
    (MaterializationEviction (mat_ID m) ∉ Targets plan) ∧
    (BlobEviction (mat_BaselineBlobID m) ∉ Targets plan) ∧
    (EntryEviction (mat_EntryID m) ∉ Targets plan)).
Proof.
  unfold PlanAdmission. intros (w & Hw & H%map_err_ok)%bind_ok.
  destruct (PlanEvictions_pinned _ _ _ _ _ H) as [He Hm].
  destruct (adm_Entry a) as [e|], (adm_Materialization a) as [m|]; try done.
  - split; [|done]. intros e' [= <-].
    destruct (He (e <| entry_Pinned := true |>)) as [Hee Heb]; [|done|].
    { destruct (adm_Blob a); injection Hw as <-; cbn; apply elem_of_app; right;
        by apply list_elem_of_singleton. }
    split_and!; [exact Hee|exact Heb|]. intros Hb e' Hin Heq. rewrite Hb in Hw.
    injection Hw as <-. destruct (He (pin_sharers (entry_BlobID e) e')) as [Hp _].
    + cbn. apply elem_of_app; left. apply list_elem_of_fmap. eauto.
    + unfold pin_sharers. by rewrite bool_decide_eq_true_2.
    + unfold pin_sharers in Hp. by rewrite bool_decide_eq_true_2 in Hp.
  - destruct (adm_Blob a); [done|]. split; [done|]. intros m' [= <-].
    injection Hw as <-. destruct (Hm (m <| mat_Pinned := true |>)) as (H1 & H2 & H3);
      [|done|by split_and!].
    cbn. apply elem_of_app; right. by apply list_elem_of_singleton.
Qed.

(** * A concrete plan

    Two entries of one workspace, each with its blob, and a clean
    materialization of the first; the limits force two evictions. *)
Module QuotaDemo.
Fixpoint repeat_char (c : ascii) (n : nat) : string :=
  match n with O => EmptyString | S n => String c (repeat_char c n) end.
Definition id64 (c : ascii) : string := repeat_char c 64.
Definition id32 (c : ascii) : string := repeat_char c 32.
Definition blob (c : ascii) (size : Z) (t : Time) : Blob :=
  mkBlob (id64 c) size BlobPublished 1 t.
Definition entry (c b : ascii) (t : Time) : Entry :=
  mkEntry (id64 c) "endpoint" [x2f] (mkFingerprint FingerprintStrong [x01]) EntryFresh
    PolicyLRU "workspace" false (id64 b) 1 t.
Definition mat : Materialization :=
  mkMaterialization (id32 "d") (id64 "a") (id64 "1") (id64 "1") 30 MaterializationClean
    false 1 5.
Definition lease : Lease :=
  mkLease (id32 "e") "editor" "owner" "daemon" (MaterializationTarget (id32 "d"))
    LeaseReleased 2 3 4 5 None.
Definition snapshot : Snapshot :=
  mkSnapshot [blob "1" 100 10; blob "2" 50 20] [entry "a" "1" 10; entry "b" "2" 20] [mat]
    [] [lease].
Definition limits : Limits := mkLimits 60 10 1000 8.
Definition manager : option LeaseManager :=
  Some (mkLeaseManager (Some (λ _, 100)) None DefaultLeaseExpiry DefaultOpenerGrace).
Definition plan : EvictionPlan := unwrap (PlanEvictions snapshot limits manager 0) eq_refl.
Definition admission : Admission :=
  mkAdmission None (Some (entry "c" "2" 30)) None.
Definition admission_plan : EvictionPlan :=
  unwrap (PlanAdmission snapshot admission limits manager 0) eq_refl.

Example plan_targets : Targets plan =
  [MaterializationEviction (id32 "d"); EntryEviction (id64 "a"); BlobEviction (id64 "1")]
  ∧ Considered plan = 2 ∧ Satisfied plan = true.
Proof. vm_compute. done. Qed.

Lemma plan_eq : PlanEvictions snapshot limits manager 0 = Ok plan.
Proof. vm_compute. reflexivity. Qed.

Lemma accountValidated_exact_witness :
  ∃ u, accountValidated snapshot = Ok u ∧ accounts snapshot u.
Proof.
  pose proof (accountValidated_exact snapshot) as H.
  rewrite bool_decide_eq_true_2 in H by (vm_compute; discriminate).
  apply H.
  - intros b Hb. apply elem_of_cons in Hb as [->|Hb]; [by vm_compute|].
    apply list_elem_of_singleton in Hb as ->. by vm_compute.
  - intros m Hm. apply list_elem_of_singleton in Hm as ->. by vm_compute.
Defined.

Lemma PlanEvictions_safe_witness :
  MaterializationEviction (id32 "d") ∈ Targets plan ∧
  safe_target manager snapshot (MaterializationEviction (id32 "d")).
Proof.
  assert (MaterializationEviction (id32 "d") ∈ Targets plan) as H
    by (rewrite (proj1 plan_targets); left).
  split; [exact H|].
  apply (PlanEvictions_safe snapshot limits manager 0 plan); [apply plan_eq|exact H].
Defined.

Lemma PlanEvictions_describes_witness :
  catalog_ok manager (remaining snapshot (Targets plan)) ∧
  accountValidated snapshot = Ok (Before plan) ∧
  accountValidated (remaining snapshot (Targets plan)) = Ok (After plan) ∧
  Satisfied plan = withinLimits (After plan) limits.
Proof. apply (PlanEvictions_describes snapshot limits manager 0 plan), plan_eq. Defined.

Lemma PlanEvictions_maximal_witness :
  ∃ plan, PlanEvictions snapshot limits manager 0 = Ok plan ∧
    0 ≤ Considered plan ≤ MaxCandidates limits ∧
    Z.of_nat (length (Targets plan)) ≤ 2 * Considered plan ∧
    (Satisfied plan = true ∨ Considered plan = MaxCandidates limits ∨
     stuck limits manager (remaining snapshot (Targets plan)) (After plan)).
Proof.
  apply (PlanEvictions_maximal snapshot limits manager 0);
    [vm_compute; reflexivity|vm_compute; reflexivity|right; by eexists
    |vm_compute; discriminate].
Defined.

Lemma PlanAdmission_protects_witness :
  (BlobEviction (id64 "2") ∉ Targets admission_plan) ∧
  (EntryEviction (id64 "b") ∉ Targets admission_plan).
Proof.
  assert (PlanAdmission snapshot admission limits manager 0 = Ok admission_plan) as Hp
    by (vm_compute; reflexivity).
  destruct (PlanAdmission_protects snapshot admission limits manager 0 admission_plan Hp)
    as [He _].
  destruct (He (entry "c" "2" 30) eq_refl) as (_ & Hb & Hs).
  split; [exact Hb|].
  apply (Hs eq_refl (entry "b" "2" 20)); [right; left|reflexivity].
Defined.
End QuotaDemo.
