(* ===== verification/Frame.v ===== *)
(** The frame codec of the daemon protocol (src/internal/ipc/frame.go).

    A frame is a 32-bit big-endian length and that many payload bytes.  The
    codec sits on an [io.Reader] and an [io.Writer]: each is an interface, a
    type class of the operation the code calls and of the documented laws the
    theorems rely on. *)
From S2P Require Import Prelude.

Definition maxConsecutiveEmptyFrameReads : nat := 100.
Definition MaxFrameBytes : Z := 8 * 1024 * 1024.

(** The errors of package io that the code distinguishes; [IOOther] is any
    other error of the stream. *)
Inductive IOError :=
| EOF
| ErrUnexpectedEOF
| ErrNoProgress
| ErrShortWrite
| IOOther (e : string).

#[export] Instance IOError_eq_dec : EqDecision IOError.
Proof. solve_decision. Defined.

Inductive FrameError :=
| ErrNilStream
| ErrMaximumZero
| ErrMaximumAboveLimit
| ErrReadHeader (e : IOError)
| ErrReadPayload (e : IOError)
| ErrZeroLength
| ErrExceedsLimit
| ErrWriteHeader (e : IOError)
| ErrWritePayload (e : IOError).

(** [Read] on a buffer of [n] bytes: the bytes put into the buffer, the error
    and the reader afterwards.  [Write] of some bytes: the count it reports,
    the error and the writer afterwards. *)
Class Readable (R : Type) := Read : R → nat → list byte * option IOError * R.
Class Writable (W : Type) := Write : W → list byte → Z * option IOError * W.

Record Reader (R : Type) := mkReader { rd_r : R; rd_max : Z (* uint32 *) }.
Record Writer (W : Type) := mkWriter { wr_w : W; wr_max : Z (* uint32 *) }.
Arguments mkReader {R} _ _. Arguments rd_r {R} _. Arguments rd_max {R} _.
Arguments mkWriter {W} _ _. Arguments wr_w {W} _. Arguments wr_max {W} _.

Definition validateFrameMaximum (maximum : Z) : result FrameError () :=
  if maximum =? 0 then Err ErrMaximumZero else
  if maximum >? MaxFrameBytes then Err ErrMaximumAboveLimit else Ok tt.

Definition NewReader {R} (reader : option R) (maximum : Z) :
    result FrameError (Reader R) :=
  match reader with
  | None => Err ErrNilStream
  | Some reader => _ ← validateFrameMaximum maximum; Ok (mkReader reader maximum)
  end.

Definition NewWriter {W} (writer : option W) (maximum : Z) :
    result FrameError (Writer W) :=
  match writer with
  | None => Err ErrNilStream
  | Some writer => _ ← validateFrameMaximum maximum; Ok (mkWriter writer maximum)
  end.

Section Codec.
Context {R W : Type} `{Readable R, Writable W}.

(** The loop of [readFull] on a destination of [size] bytes, of which [acc]
    holds the first [total].  [None] is out of fuel, which [readFull_fuel]
    rules out. *)
Fixpoint readFull_loop (fuel : nat) (reader : R) (size : nat) (acc : list byte)
    (emptyReads : nat) : option (result IOError (list byte) * R) :=
  if (size <=? length acc)%nat then Some (Ok acc, reader) else
  match fuel with
  | O => None
  | S fuel =>
    let '(data, err, reader) := Read reader (size - length acc) in
    let acc := acc ++ data in
    if (length acc =? size)%nat then Some (Ok acc, reader) else
    let read := length data in
    let emptyReads :=
      if (0 <? read)%nat then 0%nat
      else if bool_decide (err = None) then S emptyReads else emptyReads in
    if negb (0 <? read)%nat && bool_decide (err = None) &&
       (maxConsecutiveEmptyFrameReads <=? emptyReads)%nat
    then Some (Err ErrNoProgress, reader) else
    match err with
    | Some e =>
      if bool_decide (e = EOF) && (0 <? length acc)%nat
      then Some (Err ErrUnexpectedEOF, reader) else Some (Err e, reader)
    | None => readFull_loop fuel reader size acc emptyReads
    end
  end.

(** Every turn that goes on has read a byte or counted an empty read. *)
Definition readFull_turns (size : nat) : nat :=
  (maxConsecutiveEmptyFrameReads * S size)%nat.

Definition readFull (reader : R) (size : nat) : option (result IOError (list byte) * R) :=
  readFull_loop (readFull_turns size) reader size [] 0.

Definition ReadFrame (r : Reader R) : option (result FrameError (list byte) * Reader R) :=
  '(header, reader) ← readFull (rd_r r) 4;
  let r := mkReader reader (rd_max r) in
  match header with
  | Err e => Some (Err (ErrReadHeader e), r)
  | Ok header =>
    let len := be_val header in
    if len =? 0 then Some (Err ErrZeroLength, r) else
    if len >? rd_max r then Some (Err ErrExceedsLimit, r) else
    '(payload, reader) ← readFull (rd_r r) (Z.to_nat len);
    Some (map_err ErrReadPayload payload, mkReader reader (rd_max r))
  end.

(** The loop of [writeAll]; every turn that goes on has shortened [value], so
    its length is enough fuel ([writeAll_fuel]). *)
Fixpoint writeAll_loop (fuel : nat) (writer : W) (value : list byte) :
    option (result IOError () * W) :=
  if (length value =? 0)%nat then Some (Ok tt, writer) else
  match fuel with
  | O => None
  | S fuel =>
    let '(written, err, writer) := Write writer value in
    if (written <? 0) || (written >? blen value) then Some (Err ErrShortWrite, writer) else
    let value := drop (Z.to_nat written) value in
    match err with
    | Some e => Some (Err e, writer)
    | None => if written =? 0 then Some (Err ErrShortWrite, writer)
              else writeAll_loop fuel writer value
    end
  end.

Definition writeAll (writer : W) (value : list byte) : option (result IOError () * W) :=
  writeAll_loop (length value) writer value.

Definition WriteFrame (w : Writer W) (payload : list byte) :
    option (result FrameError () * Writer W) :=
  if (length payload =? 0)%nat then Some (Err ErrZeroLength, w) else
  if blen payload >? MaxUint32 then Some (Err ErrExceedsLimit, w) else
  if blen payload >? wr_max w then Some (Err ErrExceedsLimit, w) else
  let header := be_bytes 4 (u32 (blen payload)) in
  '(res, writer) ← writeAll (wr_w w) header;
  let w := mkWriter writer (wr_max w) in
  match res with
  | Err e => Some (Err (ErrWriteHeader e), w)
  | Ok _ =>
    '(res, writer) ← writeAll (wr_w w) payload;
    Some (map_err ErrWritePayload res, mkWriter writer (wr_max w))
  end.

End Codec.
