(* ===== verification/FrameFacts.v ===== *)
(** Theorems of the frame codec: it terminates on every stream, reads exactly
    the frames a stream holds, and reading inverts writing. *)
From S2P Require Import Prelude Frame.

(** * The contracts of the streams *)

(** [io.Reader]: a call on [n] bytes fills at most [n] of them. *)
Class ReaderLaw (R : Type) `{Readable R} :=
  reader_bounded : ∀ (r : R) n data err r', Read r n = (data, err, r') →
    (length data ≤ n)%nat.

(** A reader of a finite stream: [pending r] is what it has yet to deliver.  It
    delivers it in order, in pieces of its choice, possibly with empty reads
    (at most [lag r] in a row, fewer than the code tolerates); it reports
    [io.EOF], with the last bytes or after them, when nothing is left, and no
    other error. *)
Class StreamReader (R : Type) `{Readable R} := {
  pending : R → list byte;
  lag : R → nat;
  stream_read : ∀ (r : R) n data err r', Read r n = (data, err, r') →
    (length data ≤ n)%nat ∧ pending r = data ++ pending r';
  stream_eof : ∀ (r : R) n data err r', Read r n = (data, err, r') →
    err = None ∨ (err = Some EOF ∧ pending r' = []);
  stream_lag : ∀ (r : R) n r', (0 < n)%nat → Read r n = ([], None, r') →
    (lag r' < lag r)%nat;
  stream_lag_bound : ∀ r : R, (lag r < maxConsecutiveEmptyFrameReads)%nat;
}.

#[export] Instance stream_reader_law (R : Type) `{StreamReader R} : ReaderLaw R.
Proof. intros r n data err r' E. by apply stream_read in E as [? _]. Qed.

(** [io.Writer]: a call reports how many bytes of its argument it has appended
    to what was written before. *)
Class StreamWriter (W : Type) `{Writable W} := {
  contents : W → list byte;
  stream_write : ∀ (w : W) v written err w', Write w v = (written, err, w') →
    0 ≤ written ≤ blen v ∧ contents w' = contents w ++ take (Z.to_nat written) v;
}.

(** * Termination *)
Section Termination.
Context {R : Type} `{ReaderLaw R}.

(** What is left to do, counted in empty reads. *)
Definition readFull_left (size : nat) (acc : list byte) (emptyReads : nat) : nat :=
  (100 * (size - length acc) + (100 - emptyReads))%nat.

Lemma readFull_loop_terminates fuel r size acc emptyReads :
  (emptyReads < 100)%nat → (readFull_left size acc emptyReads ≤ 100 + fuel)%nat →
  (length acc ≤ size)%nat →
  is_Some (readFull_loop fuel r size acc emptyReads).
Proof.
  unfold readFull_left.
  revert r acc emptyReads; induction fuel as [|fuel IH]; intros r acc emptyReads He Hf Hl;
    cbn [readFull_loop].
  all: destruct (Nat.leb_spec size (length acc)); [by eexists|].
  { exfalso. lia. }
  destruct (Read r (size - length acc)) as [[data err] r'] eqn:Er.
  apply reader_bounded in Er.
  destruct (Nat.eqb_spec (length (acc ++ data)) size) as [|Hne]; [by eexists|].
  rewrite length_app in Hne.
  destruct (Nat.ltb_spec 0 (length data)) as [Hd|Hd]; cbn [negb andb].
  - destruct err as [e|]; [destruct (_ && _); by eexists|].
    apply IH; [lia| |rewrite length_app; lia]. rewrite length_app. lia.
  - destruct err as [e|]; [cbn; destruct (_ && _); by eexists|]. cbn [andb].
    rewrite bool_decide_eq_true_2 by done. cbn [andb].
    destruct (Nat.leb_spec maxConsecutiveEmptyFrameReads (S emptyReads)) as [|Hs];
      [by eexists|].
    unfold maxConsecutiveEmptyFrameReads in Hs.
    apply IH; [lia| |rewrite length_app; lia]. rewrite length_app. lia.
Qed.

Lemma readFull_terminates r size : is_Some (readFull r size).
Proof.
  apply readFull_loop_terminates; [lia| |cbn; lia].
  unfold readFull_left, readFull_turns, maxConsecutiveEmptyFrameReads. cbn [length]. lia.
Qed.
End Termination.

(** * Reading a finite stream *)
Section Stream.
Context {R : Type} `{StreamReader R}.

(** What reading [size] bytes from a stream that holds [bs] returns, and what
    it leaves. *)
Definition full_read (bs : list byte) (size : nat) : result IOError (list byte) * list byte :=
  if (size <=? length bs)%nat then (Ok (take size bs), drop size bs)
  else (Err (if bool_decide (bs = []) then EOF else ErrUnexpectedEOF), []).

Lemma readFull_loop_stream fuel r size acc emptyReads res r' :
  readFull_loop fuel r size acc emptyReads = Some (res, r') →
  (emptyReads + lag r < 100)%nat → (length acc ≤ size)%nat →
  (res, pending r') =
  if (size <=? length acc + length (pending r))%nat
  then (Ok (acc ++ take (size - length acc) (pending r)),
        drop (size - length acc) (pending r))
  else (Err (if bool_decide (acc ++ pending r = []) then EOF else ErrUnexpectedEOF), []).
Proof.
  revert r acc emptyReads; induction fuel as [|fuel IH]; intros r acc emptyReads;
    cbn [readFull_loop].
  all: destruct (Nat.leb_spec size (length acc)) as [Hsz|Hsz]; [|try done].
  1, 2: intros [= <- <-] _ Hl; rewrite (proj2 (Nat.leb_le _ _)) by lia;
    replace (size - length acc)%nat with 0%nat by lia; by rewrite take_0, app_nil_r, drop_0.
  destruct (Read r (size - length acc)) as [[data err] r1] eqn:Er.
  destruct (stream_read _ _ _ _ _ Er) as [Hdl Hp].
  pose proof (stream_eof _ _ _ _ _ Er) as Heof. rewrite Hp, (length_app data (pending r1)).
  destruct (Nat.eqb_spec (length (acc ++ data)) size) as [Heq|Hne].
  { rewrite length_app in Heq. intros [= <- <-] _ _.
    rewrite (proj2 (Nat.leb_le _ _)) by lia.
    rewrite take_app_length' by lia. by rewrite drop_app_length' by lia. }
  rewrite length_app in Hne.
  destruct Heof as [->|[-> Hend]].
  - (* no error *)
    rewrite (bool_decide_eq_true_2 (None = None)) by done.
    destruct (Nat.ltb_spec 0 (length data)) as [Hd|Hd]; cbn [negb andb].
    + intros Hr _ Hl. pose proof (stream_lag_bound r1) as Hlag.
      unfold maxConsecutiveEmptyFrameReads in Hlag.
      apply IH in Hr; [|lia|rewrite length_app; lia].
      rewrite Hr, !length_app, <-!app_assoc, Nat.add_assoc.
      destruct (Nat.leb_spec size (length acc + length data + length (pending r1))); [|done].
      rewrite take_app_ge, drop_app_ge by lia.
      by replace (size - length acc - length data)%nat with
        (size - (length acc + length data))%nat by lia.
    + assert (data = []) as -> by (destruct data; [done|cbn in Hd; lia]).
      rewrite app_nil_r in *. cbn [app length] in *.
      apply stream_lag in Er; [|lia]. intros Hr He Hl.
      destruct (Nat.leb_spec maxConsecutiveEmptyFrameReads (S emptyReads)) as [Hm|Hm].
      { unfold maxConsecutiveEmptyFrameReads in Hm. lia. }
      apply IH in Hr; [done|lia|done].
  - (* the end of the stream *)
    rewrite (bool_decide_eq_false_2 (Some EOF = None)) by done. rewrite andb_false_r.
    rewrite (bool_decide_eq_true_2 (EOF = EOF)) by done. rewrite Hend. cbn [andb].
    rewrite app_nil_r. intros Hr _ Hl. cbn [length].
    rewrite (proj2 (Nat.leb_gt _ _)) by lia.
    destruct (Nat.ltb_spec 0 (length (acc ++ data))) as [Hd|Hd]; injection Hr as <- <-.
    + rewrite bool_decide_eq_false_2, Hend; [done|]. intros E. rewrite E in Hd. cbn in Hd. lia.
    + rewrite bool_decide_eq_true_2, Hend; [done|].
      by destruct (acc ++ data); [|cbn in Hd; lia].
Qed.

Lemma readFull_stream r size :
  ∃ res r', readFull r size = Some (res, r') ∧
    (res, pending r') = full_read (pending r) size.
Proof.
  destruct (readFull_terminates r size) as [[res r'] E]. exists res, r'. split; [done|].
  apply readFull_loop_stream in E; [|pose proof (stream_lag_bound r) as Hl;
    unfold maxConsecutiveEmptyFrameReads in Hl; lia|cbn; lia].
  rewrite E. unfold full_read. cbn [length app]. by rewrite Nat.sub_0_r.
Qed.

(** What reading a frame from a stream that holds [bs] returns, and what it
    leaves. *)
Definition frame_read (maximum : Z) (bs : list byte) :
    result FrameError (list byte) * list byte :=
  let '(header, bs) := full_read bs 4 in
  match header with
  | Err e => (Err (ErrReadHeader e), bs)
  | Ok header =>
    let len := be_val header in
    if len =? 0 then (Err ErrZeroLength, bs) else
    if len >? maximum then (Err ErrExceedsLimit, bs) else
    let '(payload, bs) := full_read bs (Z.to_nat len) in
    (map_err ErrReadPayload payload, bs)
  end.

(** reading a frame is a function of the bytes of the stream alone.  From
    every finite stream, however its reader splits it, delays it or reports
    its end, [ReadFrame] returns, and returns exactly what the frame format
    says of those bytes: the payload and the bytes after it, or the error for
    a clean end, a truncated header or payload, a zero or oversized length. *)
Theorem ReadFrame_stream (r : Reader R) :
  ∃ res r', ReadFrame r = Some (res, r') ∧ rd_max r' = rd_max r ∧
    (res, pending (rd_r r')) = frame_read (rd_max r) (pending (rd_r r)).
Proof.
  unfold ReadFrame, frame_read.
  destruct (readFull_stream (rd_r r) 4) as (h & r1 & -> & Eh). rewrite <-Eh.
  cbn [mbind option_bind rd_r rd_max].
  destruct h as [h|e]; [|by repeat eexists].
  destruct (be_val h =? 0); [by repeat eexists|].
  destruct (be_val h >? rd_max r); [by repeat eexists|].
  destruct (readFull_stream r1 (Z.to_nat (be_val h))) as (p & r2 & -> & Ep).
  rewrite <-Ep. cbn [mbind option_bind]. by repeat eexists.
Qed.
End Stream.

(** * Writing *)
Definition encode_frame (payload : list byte) : list byte :=
  be_bytes 4 (blen payload) ++ payload.

Section Writing.
Context {W : Type} `{StreamWriter W}.

Lemma writeAll_loop_ok fuel w v :
  (length v ≤ fuel)%nat →
  ∃ res w', writeAll_loop fuel w v = Some (res, w') ∧
    ∃ k, contents w' = contents w ++ take k v ∧ (res = Ok tt → take k v = v).
Proof.
  revert w v; induction fuel as [|fuel IH]; intros w v Hf; cbn [writeAll_loop].
  all: destruct (Nat.eqb_spec (length v) 0) as [Hv|Hv].
  1, 3: apply nil_length_inv in Hv as ->; eexists _, _; split; [done|]; exists 0%nat;
    by rewrite app_nil_r.
  - lia.
  - destruct (Write w v) as [[written err] w1] eqn:Ew.
    apply stream_write in Ew as [Hb Hc]. rewrite Z.gtb_ltb.
    rewrite (proj2 (Z.ltb_ge _ _)), (proj2 (Z.ltb_ge _ _)) by lia. cbn [orb].
    destruct err as [e|].
    { eexists _, _; split; [done|]. by exists (Z.to_nat written). }
    destruct (Z.eqb_spec written 0) as [->|Hw].
    { eexists _, _; split; [done|]. by exists 0%nat. }
    destruct (IH w1 (drop (Z.to_nat written) v)) as (res & w' & -> & k & Hk & Hok).
    { rewrite length_drop. lia. }
    eexists _, _; split; [done|]. exists (Z.to_nat written + k)%nat.
    rewrite Hk, Hc, <-app_assoc, take_take_drop. split; [done|].
    intros E. rewrite <-take_take_drop, (Hok E). apply take_drop.
Qed.

Lemma writeAll_ok w v :
  ∃ res w', writeAll w v = Some (res, w') ∧
    ∃ k, contents w' = contents w ++ take k v ∧ (res = Ok tt → take k v = v).
Proof. apply writeAll_loop_ok. lia. Qed.

(** writing a frame is all or an error.  On every writer that honours the
    [io.Writer] contract [WriteFrame] returns; when it succeeds the stream has
    grown by exactly the encoding of the payload; when it fails it has grown
    by a prefix of it; and it fails before writing anything on an empty or an
    oversized payload. *)
Theorem WriteFrame_appends (w : Writer W) payload :
  ∃ res w', WriteFrame w payload = Some (res, w') ∧ wr_max w' = wr_max w ∧
    (∃ k, contents (wr_w w') = contents (wr_w w) ++ take k (encode_frame payload) ∧
          (res = Ok tt → take k (encode_frame payload) = encode_frame payload)) ∧
    (payload = [] ∨ wr_max w < blen payload →
       is_ok res = false ∧ contents (wr_w w') = contents (wr_w w)) ∧
    (res = Ok tt → 0 < blen payload ≤ wr_max w ∧ blen payload ≤ MaxUint32).
Proof.
  unfold WriteFrame. rewrite !Z.gtb_ltb.
  destruct (Nat.eqb_spec (length payload) 0) as [Hn|Hn].
  { eexists _, _; split_and!; [done|done| |done|done].
    exists 0%nat. by rewrite app_nil_r. }
  destruct (Z.ltb_spec MaxUint32 (blen payload)) as [H1|H1].
  { eexists _, _; split_and!; [done|done| |done|done]. exists 0%nat. by rewrite app_nil_r. }
  destruct (Z.ltb_spec (wr_max w) (blen payload)) as [H2|H2].
  { eexists _, _; split_and!; [done|done| |done|done]. exists 0%nat. by rewrite app_nil_r. }
  assert (0 < blen payload) as Hpos by (unfold blen; lia).
  rewrite u32_small by (unfold MaxUint32 in *; lia).
  assert (¬ (payload = [] ∨ wr_max w < blen payload)) as Hno
    by (intros [->|?]; [done|lia]).
  destruct (writeAll_ok (wr_w w) (be_bytes 4 (blen payload)))
    as (res & w1 & -> & k & Hk & Hok). cbn [mbind option_bind].
  assert (length (be_bytes 4 (blen payload)) = 4%nat) as Hlen by apply length_be_bytes.
  destruct res as [[]|e].
  - specialize (Hok eq_refl). cbn [wr_w].
    destruct (writeAll_ok w1 payload) as (res & w2 & -> & k2 & Hk2 & Hok2).
    cbn [mbind option_bind]. eexists _, _; split_and!; [done|done| |done|done].
    exists (4 + k2)%nat. cbn [wr_w]. unfold encode_frame.
    rewrite take_app_add' by done. rewrite Hk2, Hk, Hok, <-app_assoc. split; [done|].
    intros E. rewrite Hok2; [done|]. by destruct res as [[]|].
  - eexists _, _; split_and!; [done|done| |done|done].
    exists (k `min` 4)%nat. cbn [wr_w]. rewrite Hk. unfold encode_frame.
    rewrite take_app_le by lia. split; [|done]. f_equal.
    destruct (decide (k ≤ 4)%nat); [by rewrite Nat.min_l by done|].
    rewrite Nat.min_r by lia. by rewrite !take_ge by lia.
Qed.
End Writing.

(** * Reading inverts writing *)
Lemma frame_read_encode maximum payload rest :
  0 < blen payload ≤ maximum → blen payload ≤ MaxUint32 →
  frame_read maximum (encode_frame payload ++ rest) = (Ok payload, rest).
Proof.
  intros Hp Hm. unfold frame_read, full_read, encode_frame.
  assert (length (be_bytes 4 (blen payload)) = 4%nat) as Hl by apply length_be_bytes.
  rewrite <-app_assoc, length_app, Hl. cbn [Nat.leb Nat.add].
  rewrite take_app_length' by done. rewrite drop_app_length' by done.
  rewrite be_val_bytes. change (256 ^ Z.of_nat 4) with (2 ^ 32).
  rewrite Z.mod_small by (unfold MaxUint32 in *; lia).
  rewrite (proj2 (Z.eqb_neq _ _)) by lia.
  rewrite Z.gtb_ltb, (proj2 (Z.ltb_ge _ _)) by lia.
  unfold blen. rewrite Nat2Z.id, length_app, (proj2 (Nat.leb_le _ _)) by lia.
  by rewrite take_app_length, drop_app_length.
Qed.

(** C34: the frame round trip.  Whatever writer took a frame and whatever
    reader delivers the bytes the frame added (followed by anything), as long
    as the reader's maximum admits it, [ReadFrame] gives back the payload that
    [WriteFrame] accepted and leaves exactly what follows. *)
Theorem frame_roundtrip {R W : Type} `{StreamReader R, StreamWriter W}
    (w w' : Writer W) (r : Reader R) payload rest :
  WriteFrame w payload = Some (Ok tt, w') →
  contents (wr_w w) ++ pending (rd_r r) = contents (wr_w w') ++ rest →
  blen payload ≤ rd_max r →
  ∃ r', ReadFrame r = Some (Ok payload, r') ∧ pending (rd_r r') = rest.
Proof.
  intros Hw Hp Hm.
  destruct (WriteFrame_appends w payload) as (res & w1 & E & _ & (k & Hk & Hok) & _ & Hb).
  rewrite Hw in E. injection E as <- <-.
  rewrite Hk, Hok, <-app_assoc in Hp by done. apply app_inv_head in Hp.
  destruct (ReadFrame_stream r) as (res & r' & Hr & _ & Hread).
  rewrite Hp, frame_read_encode in Hread by (destruct (Hb eq_refl); lia).
  injection Hread as -> <-. by exists r'.
Qed.

(** * Concrete streams

    A reader that delivers one byte at a time with an empty read before each,
    and a writer that takes at most three bytes a call. *)
Module FrameDemo.
Definition slow := (list byte * bool)%type.
#[export] Instance slow_read : Readable slow := λ r n,
  match r, n with
  | (bs, true), _ => ([], None, (bs, false))
  | (bs, false), O => ([], None, (bs, false))
  | ([], false), _ => ([], Some EOF, ([], false))
  | (b :: bs, false), _ => ([b], None, (bs, true))
  end.
#[export] Instance slow_stream : StreamReader slow.
Proof.
  refine {| pending := fst; lag := λ r : slow, if snd r then 1%nat else 0%nat |}.
  - intros [[|b bs] []] [|n] data err r'; cbn; intros [= <- <- <-]; cbn; split; done || lia.
  - intros [[|b bs] []] [|n] data err r'; cbn; intros [= <- <- <-]; auto.
  - intros [[|b bs] []] [|n] r'; cbn; intros ?; try lia; intros [=]; subst; cbn; lia.
  - intros [bs []]; cbn; unfold maxConsecutiveEmptyFrameReads; lia.
Defined.

Definition short := list byte.
#[export] Instance short_write : Writable short := λ w v,
  (Z.of_nat (min 3 (length v)), None, w ++ take (min 3 (length v)) v).
#[export] Instance short_stream : StreamWriter short.
Proof.
  refine {| contents := λ w : short, w |}.
  intros w v written err w'. unfold Write, short_write, blen.
  pose proof (Nat.le_min_r 3 (length v)). generalize dependent (min 3 (length v)).
  intros k Hk [= <- <- <-]. rewrite Nat2Z.id. split; [lia|done].
Defined.

Definition payload : list byte := [x68; x65; x6c; x6c; x6f].
Definition writer : Writer short := mkWriter [] 16.
Definition wire : list byte := [x00; x00; x00; x05] ++ payload.
Definition reader : Reader slow := mkReader (wire ++ [xff], true) 16.

Lemma frame_roundtrip_witness :
  WriteFrame writer payload = Some (Ok tt, mkWriter wire 16) ∧
  ∃ r', ReadFrame reader = Some (Ok payload, r') ∧ pending (rd_r r') = [xff].
Proof.
  split; [vm_compute; reflexivity|].
  apply (frame_roundtrip writer (mkWriter wire 16) reader payload [xff]);
    [vm_compute; reflexivity|reflexivity|vm_compute; discriminate].
Defined.
End FrameDemo.
