(* ===== verification/Handshake.v ===== *)
(** Protocol versions, event cursors and the handshake
    (src/internal/ipc/version.go and handshake.go). *)
From S2P Require Import Prelude.

Definition ProtocolMajor : Z := 1.
Definition ProtocolMinor : Z := 0.

Record ProtocolVersion := mkVersion { Major : Z; Minor : Z (* uint16 *) }.
#[export] Instance ProtocolVersion_eq_dec : EqDecision ProtocolVersion.
Proof. solve_decision. Defined.

Record EventCursor := mkCursor { Epoch : string; Sequence : Z (* uint64 *) }.

Definition CursorNext := "next".
Definition CursorDuplicate := "duplicate".
Definition CursorGap := "gap".
Definition CursorEpochChange := "epoch_change".

Definition CompareCursor (previous next : EventCursor) : string :=
  if bool_decide (Epoch previous ≠ Epoch next) then CursorEpochChange else
  if Sequence previous =? Sequence next then CursorDuplicate else
  if negb (Sequence previous =? MaxUint64) &&
     (Sequence next =? u64 (Sequence previous + 1))
  then CursorNext else CursorGap.

Record VersionRange := mkRange { RangeMajor : Z; MinMinor : Z; MaxMinor : Z }.
Record ProtocolFeature := mkFeature { Name : string; Version : Z (* uint16 *) }.

(** The one error of [Negotiate]: CodeProtocolIncompatible, never retried, no
    effect. *)
Inductive NegotiateError := ErrProtocolIncompatible.

(** The body of the inner loop of [highestSharedVersion]; [None] is [!found]. *)
Definition consider (best : option ProtocolVersion) (clientRange serverRange : VersionRange) :
    option ProtocolVersion :=
  if (MinMinor serverRange >? MaxMinor serverRange) ||
     negb (RangeMajor clientRange =? RangeMajor serverRange)
  then best else
  let minimum := Z.max (MinMinor clientRange) (MinMinor serverRange) in
  let maximum := Z.min (MaxMinor clientRange) (MaxMinor serverRange) in
  if minimum >? maximum then best else
  let candidate := mkVersion (RangeMajor clientRange) maximum in
  match best with
  | None => Some candidate
  | Some b =>
    if (Major candidate >? Major b) ||
       ((Major candidate =? Major b) && (Minor candidate >? Minor b))
    then Some candidate else best
  end.

Definition consider_client (server : list VersionRange) (best : option ProtocolVersion)
    (clientRange : VersionRange) : option ProtocolVersion :=
  if MinMinor clientRange >? MaxMinor clientRange then best
  else foldl (λ best, consider best clientRange) best server.

Definition highestSharedVersion (client server : list VersionRange) :
    option ProtocolVersion :=
  foldl (consider_client server) None client.

Definition highestFeatureVersions (features : list ProtocolFeature) : gmap string Z :=
  foldl (λ versions feature,
    if bool_decide (Name feature = "") then versions else
    match versions !! Name feature with
    | Some current => if Version feature >? current
                      then <[Name feature := Version feature]> versions else versions
    | None => <[Name feature := Version feature]> versions
    end) ∅ features.

(** [sort.Strings] on distinct names. *)
Definition string_le (a b : string) : Prop := String.leb a b = true.
#[export] Instance string_le_dec : RelDecision string_le :=
  λ a b, decide (String.leb a b = true).

Definition intersectFeatures (client server : list ProtocolFeature) :
    list ProtocolFeature :=
  let clientVersions := highestFeatureVersions client in
  let serverVersions := highestFeatureVersions server in
  let names := merge_sort string_le (elements (dom clientVersions ∩ dom serverVersions)) in
  (λ name, mkFeature name (Z.min (default 0 (clientVersions !! name))
                                 (default 0 (serverVersions !! name)))) <$> names.

Definition Negotiate (client server : list VersionRange)
    (clientFeatures serverFeatures : list ProtocolFeature) :
    result NegotiateError (ProtocolVersion * list ProtocolFeature) :=
  match highestSharedVersion client server with
  | None => Err ErrProtocolIncompatible
  | Some version => Ok (version, intersectFeatures clientFeatures serverFeatures)
  end.

(** * The negotiated version *)
Definition in_range (v : ProtocolVersion) (r : VersionRange) : Prop :=
  Major v = RangeMajor r ∧ MinMinor r ≤ Minor v ≤ MaxMinor r.

(** A side speaks the versions of its ranges. *)
Definition speaks (ranges : list VersionRange) (v : ProtocolVersion) : Prop :=
  ∃ r, r ∈ ranges ∧ in_range v r.

Definition version_le (v w : ProtocolVersion) : Prop :=
  Major v < Major w ∨ (Major v = Major w ∧ Minor v ≤ Minor w).

(** [covers P best]: [best] is the greatest version with [P], if there is one. *)
Definition covers (P : ProtocolVersion → Prop) (best : option ProtocolVersion) : Prop :=
  match best with
  | Some b => P b ∧ ∀ v, P v → version_le v b
  | None => ∀ v, ¬ P v
  end.

Lemma covers_ext P Q best : (∀ v, P v ↔ Q v) → covers P best → covers Q best.
Proof. intros H. destruct best; cbn; [|naive_solver]. intros [??]. naive_solver. Qed.

Lemma consider_covers P best c s :
  covers P best →
  covers (λ v, P v ∨ (in_range v c ∧ in_range v s)) (consider best c s).
Proof.
  intros Hb. unfold consider. rewrite !Z.gtb_ltb.
  destruct (Z.ltb_spec (MaxMinor s) (MinMinor s)) as [Hs|Hs]; cbn [orb].
  { eapply covers_ext; [|exact Hb]. unfold in_range. intuition lia. }
  destruct (Z.eqb_spec (RangeMajor c) (RangeMajor s)) as [Hm|Hm]; cbn [negb].
  2: { eapply covers_ext; [|exact Hb]. unfold in_range. intuition lia. }
  destruct (Z.ltb_spec (Z.min (MaxMinor c) (MaxMinor s)) (Z.max (MinMinor c) (MinMinor s))).
  { eapply covers_ext; [|exact Hb]. unfold in_range. intuition lia. }
  set (m := Z.min (MaxMinor c) (MaxMinor s)) in *.
  assert (in_range (mkVersion (RangeMajor c) m) c ∧
          in_range (mkVersion (RangeMajor c) m) s) as Hin
    by (unfold in_range, m; cbn; lia).
  assert (∀ v, in_range v c ∧ in_range v s → version_le v (mkVersion (RangeMajor c) m))
    as Hmax by (unfold in_range, version_le, m; cbn; intros; lia).
  destruct best as [b|]; cbn in Hb; cbn [Major Minor]; rewrite ?Z.gtb_ltb.
  2: { cbn. split; [by right|]. intros v [Hv|Hv]; [by apply Hb in Hv|by apply Hmax]. }
  destruct Hb as [HPb HP].
  destruct ((Major b <? RangeMajor c) || (RangeMajor c =? Major b) && (Minor b <? m)) eqn:E.
  - apply orb_true_iff in E. rewrite andb_true_iff, !Z.ltb_lt, Z.eqb_eq in E.
    cbn. split; [by right|]. intros v [Hv|Hv]; [|by apply Hmax].
    apply HP in Hv. unfold version_le in *; cbn in *. lia.
  - apply orb_false_iff in E. rewrite andb_false_iff, !Z.ltb_ge, Z.eqb_neq in E.
    cbn. split; [by left|]. intros v [Hv|Hv]; [by apply HP|].
    apply Hmax in Hv. unfold version_le in *; cbn in *. lia.
Qed.

Lemma consider_client_covers P best c server :
  covers P best →
  covers (λ v, P v ∨ (in_range v c ∧ speaks server v)) (consider_client server best c).
Proof.
  intros Hb. unfold consider_client. rewrite Z.gtb_ltb.
  destruct (Z.ltb_spec (MaxMinor c) (MinMinor c)) as [Hc|Hc].
  { eapply covers_ext; [|exact Hb]. unfold in_range. intuition lia. }
  clear Hc. revert P best Hb. induction server as [|s server IH]; intros P best Hb; cbn.
  { eapply covers_ext; [|exact Hb]. unfold speaks. intros v. split; [by left|].
    intros [?|(_ & r & ?%elem_of_nil & _)]; done. }
  eapply covers_ext; [|apply IH, consider_covers, Hb]. intros v; cbn.
  unfold speaks. setoid_rewrite elem_of_cons. naive_solver.
Qed.

Lemma highestSharedVersion_covers client server :
  covers (λ v, speaks client v ∧ speaks server v) (highestSharedVersion client server).
Proof.
  unfold highestSharedVersion.
  assert (∀ P best, covers P best →
    covers (λ v, P v ∨ (speaks client v ∧ speaks server v))
      (foldl (consider_client server) best client)) as H.
  { induction client as [|c client IH]; intros P best Hb; cbn.
    - eapply covers_ext; [|exact Hb]. unfold speaks. intros v. split; [by left|].
      intros [?|((r & ?%elem_of_nil & _) & _)]; done.
    - eapply covers_ext; [|apply IH, consider_client_covers, Hb]. intros v; cbn.
      unfold speaks. setoid_rewrite elem_of_cons. naive_solver. }
  eapply covers_ext; [|apply (H (λ _, False) None); cbn; tauto]. intros v; cbn. tauto.
Qed.

Lemma version_le_antisym v w : version_le v w → version_le w v → v = w.
Proof. destruct v, w; unfold version_le; cbn. intros. f_equal; lia. Qed.

Lemma covers_unique P o o' : covers P o → covers P o' → o = o'.
Proof.
  destruct o as [v|], o' as [w|]; cbn; try naive_solver.
  intros [??] [??]. f_equal. apply version_le_antisym; auto.
Qed.

(** * The negotiated features *)
Definition offers (features : list ProtocolFeature) (name : string) (v : Z) : Prop :=
  mkFeature name v ∈ features.

Lemma highestFeatureVersions_spec features name :
  match highestFeatureVersions features !! name with
  | Some v => name ≠ "" ∧ offers features name v ∧ ∀ w, offers features name w → w ≤ v
  | None => name = "" ∨ ∀ w, ¬ offers features name w
  end.
Proof.
  unfold highestFeatureVersions, offers. induction features as [|f l IH] using rev_ind.
  { cbn. rewrite lookup_empty. right. by intros w ?%elem_of_nil. }
  rewrite foldl_app. cbn [foldl].
  set (m := foldl _ ∅ l) in *. clearbody m. destruct f as [n v0]; cbn [Name Version].
  assert (∀ w, mkFeature name w ∈ l ++ [mkFeature n v0] ↔
    mkFeature name w ∈ l ∨ (name = n ∧ w = v0)) as Hin.
  { intros w. rewrite elem_of_app, list_elem_of_singleton. naive_solver. }
  assert (name ≠ n ∨ name = "" →
    match m !! name with
    | Some v => name ≠ "" ∧ mkFeature name v ∈ l ++ [mkFeature n v0] ∧
        ∀ w, mkFeature name w ∈ l ++ [mkFeature n v0] → w ≤ v
    | None => name = "" ∨ ∀ w, mkFeature name w ∉ l ++ [mkFeature n v0]
    end) as Hkeep.
  { intros Hor. destruct (m !! name) as [u|]; setoid_rewrite Hin.
    - destruct IH as (Hn & Ho & Hmax). split_and!; [done|by left|].
      intros w [Hw|[-> _]]; [by apply Hmax|]. by destruct Hor.
    - destruct IH as [?|IH]; [by left|]. destruct Hor as [Hor|?]; [right|by left].
      intros w [Hw|[-> _]]; [by eapply IH|done]. }
  case_bool_decide as Hn.
  { apply Hkeep. subst n. destruct (decide (name = "")); auto. }
  destruct (decide (n = name)) as [->|Hne].
  2: { assert (∀ m', m' = m ∨ m' = <[n := v0]> m → m' !! name = m !! name) as Hm
         by (intros m' [-> | ->]; [done|by rewrite lookup_insert_ne]).
       rewrite Hm by (repeat case_match; auto). apply Hkeep. left. congruence. }
  destruct (m !! name) as [u|] eqn:E.
  - rewrite Z.gtb_ltb. destruct (Z.ltb_spec u v0).
    + rewrite lookup_insert_eq. setoid_rewrite Hin. destruct IH as (? & ? & IH).
      split_and!; [done|by right|]. intros w [Hw|[_ ->]]; [|lia].
      specialize (IH w Hw). lia.
    + rewrite E. setoid_rewrite Hin. destruct IH as (? & ? & IH).
      split_and!; [done|by left|]. intros w [Hw|[_ ->]]; [by apply IH|lia].
  - rewrite lookup_insert_eq. setoid_rewrite Hin. destruct IH as [?|IH]; [done|].
    split_and!; [done|by right|]. intros w [Hw|[_ ->]]; [by apply IH in Hw|lia].
Qed.

#[local] Instance string_le_total : Total string_le.
Proof. intros a b. unfold string_le. destruct (String.leb_total a b); auto. Qed.

#[local] Instance string_le_trans : Transitive string_le.
Proof.
  unfold string_le, String.leb.
  intros a; induction a as [|a s IH]; intros [|b t] [|c u]; cbn; try done.
  unfold Ascii.compare. intros Hab Hbc. specialize (IH t u).
  destruct (N.compare_spec (N_of_ascii a) (N_of_ascii b)) as [E1|E1|E1],
    (N.compare_spec (N_of_ascii b) (N_of_ascii c)) as [E2|E2|E2],
    (N.compare_spec (N_of_ascii a) (N_of_ascii c)) as [E3|E3|E3]; try done; try lia.
  by apply IH.
Qed.

Lemma intersectFeatures_names client server :
  Name <$> intersectFeatures client server =
  merge_sort string_le (elements (dom (highestFeatureVersions client) ∩
                                  dom (highestFeatureVersions server))).
Proof. unfold intersectFeatures. rewrite <-list_fmap_compose. apply list_fmap_id. Qed.

(** negotiation picks the greatest version both sides speak, and fails
    exactly when there is none; with it come, sorted by name and each once,
    exactly the named features both sides offer, at the lower of the highest
    versions the two sides offer it at. *)
Theorem Negotiate_spec client server clientFeatures serverFeatures :
  match Negotiate client server clientFeatures serverFeatures with
  | Err _ => ∀ v, ¬ (speaks client v ∧ speaks server v)
  | Ok (version, features) =>
    (speaks client version ∧ speaks server version) ∧
    (∀ v, speaks client v ∧ speaks server v → version_le v version) ∧
    NoDup (Name <$> features) ∧ StronglySorted string_le (Name <$> features) ∧
    ∀ name v, mkFeature name v ∈ features ↔
      name ≠ "" ∧ ∃ c s, v = Z.min c s ∧
        (offers clientFeatures name c ∧ ∀ w, offers clientFeatures name w → w ≤ c) ∧
        (offers serverFeatures name s ∧ ∀ w, offers serverFeatures name w → w ≤ s)
  end.
Proof.
  unfold Negotiate. pose proof (highestSharedVersion_covers client server) as Hv.
  destruct (highestSharedVersion client server) as [version|]; [|exact Hv].
  cbn in Hv. destruct Hv as [Hv Hmax].
  split_and!; [apply Hv|apply Hv|exact Hmax|..].
  - rewrite intersectFeatures_names, merge_sort_Permutation. apply NoDup_elements.
  - rewrite intersectFeatures_names.
    apply (StronglySorted_merge_sort string_le).
  - intros name v. unfold intersectFeatures. rewrite list_elem_of_fmap.
    setoid_rewrite merge_sort_Permutation. setoid_rewrite elem_of_elements.
    setoid_rewrite elem_of_intersection. setoid_rewrite elem_of_dom.
    pose proof (highestFeatureVersions_spec clientFeatures name) as Hc.
    pose proof (highestFeatureVersions_spec serverFeatures name) as Hs.
    split.
    + intros (n & [= -> ->] & [c Ec] & [s Es]). rewrite Ec in Hc |- *.
      rewrite Es in Hs |- *. cbn. split; [apply Hc|].
      exists c, s. split_and!; [done|apply Hc..|apply Hs|apply Hs].
    + intros (Hn & c & s & -> & [Hoc Hmc] & [Hos Hms]).
      destruct (highestFeatureVersions clientFeatures !! name) as [c'|] eqn:Ec.
      2: { destruct Hc as [?|Hc]; [done|]. by apply Hc in Hoc. }
      destruct (highestFeatureVersions serverFeatures !! name) as [s'|] eqn:Es.
      2: { destruct Hs as [?|Hs]; [done|]. by apply Hs in Hos. }
      exists name. rewrite Ec, Es. cbn. split_and!; [|by eexists..].
      f_equal. destruct Hc as (_ & Hoc' & Hmc'), Hs as (_ & Hos' & Hms').
      specialize (Hmc _ Hoc'). specialize (Hmc' _ Hoc).
      specialize (Hms _ Hos'). specialize (Hms' _ Hos). lia.
Qed.

(** Negotiation does not depend on which side asks. *)
Lemma highestSharedVersion_comm client server :
  highestSharedVersion client server = highestSharedVersion server client.
Proof.
  eapply covers_unique; [apply highestSharedVersion_covers|].
  eapply covers_ext; [|apply highestSharedVersion_covers]. intros; cbn; tauto.
Qed.

Lemma intersectFeatures_comm client server :
  intersectFeatures client server = intersectFeatures server client.
Proof.
  unfold intersectFeatures. rewrite (comm_L (∩)). apply list_fmap_ext.
  intros i name _. by rewrite Z.min_comm.
Qed.

(** the handshake is symmetric: a client and a daemon that swap roles
    agree on the same version and the same features. *)
Theorem Negotiate_symmetric client server clientFeatures serverFeatures :
  Negotiate client server clientFeatures serverFeatures =
  Negotiate server client serverFeatures clientFeatures.
Proof.
  unfold Negotiate.
  by rewrite (highestSharedVersion_comm client server), (intersectFeatures_comm clientFeatures).
Qed.

(** * Cursors *)

(** a cursor is the next one exactly when it is its predecessor's
    successor: same epoch, sequence one larger and no wrap-around; in
    particular nothing follows the last sequence number, and among cursors of
    one epoch exactly one is [next]. *)
Theorem CompareCursor_next previous next :
  in_u64 (Sequence previous) → in_u64 (Sequence next) →
  CompareCursor previous next = CursorNext ↔
  Epoch previous = Epoch next ∧ Sequence next = Sequence previous + 1.
Proof.
  unfold in_u64, CompareCursor. intros Hp Hn. case_bool_decide as He.
  { split; [done|]. by intros [? _]. }
  destruct (Z.eqb_spec (Sequence previous) (Sequence next)).
  { split; [done|]. lia. }
  destruct (Z.eqb_spec (Sequence previous) MaxUint64) as [Hm|Hm]; cbn [negb andb].
  { split; [done|]. unfold MaxUint64 in Hm. lia. }
  rewrite u64_small by (unfold MaxUint64 in Hm; lia).
  destruct (Z.eqb_spec (Sequence next) (Sequence previous + 1)); [|split; [done|lia]].
  split; [|done]. intros _. split; [done|done].
Qed.

Lemma CompareCursor_next_witness :
  CompareCursor (mkCursor "e" 4) (mkCursor "e" 5) = CursorNext ↔
  Epoch (mkCursor "e" 4) = Epoch (mkCursor "e" 5) ∧ 5 = 4 + 1.
Proof. apply (CompareCursor_next (mkCursor "e" 4) (mkCursor "e" 5)); by vm_compute. Defined.
