(* ===== verification/Domain.v ===== *)
(** The domain values every component shares (src/internal/domain): identifiers,
    capability snapshots, operation errors, fingerprints, locations, endpoints
    and directory entries.

    A Go string is a [string] of bytes.  A pointer to a value that the code
    never changes is an [option]; [reflect.DeepEqual] of two values built of
    these types is their equality. *)
From S2P Require Import Prelude.

(** * Identifiers (id.go) *)
Definition endpointIDPrefix := "ep_".
Definition sessionIDPrefix := "sess_".
Definition requestIDPrefix := "req_".
Definition jobIDPrefix := "job_".
Definition eventIDPrefix := "evt_".
Definition idRandomBytes : nat := 16.
Definition idEncodedBytes : nat := 26.

Abbreviation EndpointID := string (only parsing).
Abbreviation SessionID := string (only parsing).
Abbreviation RequestID := string (only parsing).
Abbreviation JobID := string (only parsing).

(** [base32.NewEncoding(alphabet).WithPadding(NoPadding)]: eight letters carry
    five bytes; a last group of 1, 2, 3 or 4 bytes takes 2, 4, 5 or 7 letters. *)
Definition base32_letter (v : Z) : ascii :=
  ascii_of_N (Z.to_N (if v <? 26 then 97 + v else 24 + v)).
Definition base32_value (c : ascii) : option Z :=
  let n := Z.of_N (N_of_ascii c) in
  if (97 <=? n) && (n <=? 122) then Some (n - 97) else
  if (50 <=? n) && (n <=? 55) then Some (n - 24) else None.

(** The five-bit digits of one group, most significant first: the group's bytes
    padded on the right with zero bits. *)
Fixpoint digits32 (n : nat) (v : Z) : list Z :=
  match n with
  | O => []
  | S n => digits32 n (Z.shiftr v 5) ++ [v `mod` 32]
  end.
Definition base32_group (bs : list byte) : list Z :=
  match length bs with
  | 1%nat => digits32 2 (Z.shiftl (be_val bs) 2)
  | 2%nat => digits32 4 (Z.shiftl (be_val bs) 4)
  | 3%nat => digits32 5 (Z.shiftl (be_val bs) 1)
  | 4%nat => digits32 7 (Z.shiftl (be_val bs) 3)
  | _ => digits32 8 (be_val bs)
  end.
Fixpoint base32_encode (fuel : nat) (bs : list byte) : list Z :=
  match fuel, bs with
  | O, _ | _, [] => []
  | S fuel, _ => base32_group (take 5 bs) ++ base32_encode fuel (drop 5 bs)
  end.
Definition EncodeToString (bs : list byte) : string :=
  String.string_of_list_ascii (base32_letter <$> base32_encode (length bs) bs).

(** The decoder drops line breaks, then takes the letters eight by eight; a
    last group of 2, 4, 5 or 7 letters gives 1, 2, 3 or 4 bytes, whatever the
    unused low bits are, and one of 1, 3 or 6 letters gives none. *)
Definition undigits32 (ds : list Z) : Z := foldl (λ acc d, acc * 32 + d) 0 ds.
Definition base32_ungroup (ds : list Z) : list byte :=
  match length ds with
  | O | 1%nat | 3%nat | 6%nat => []
  | 2%nat => be_bytes 1 (Z.shiftr (undigits32 ds) 2)
  | 4%nat => be_bytes 2 (Z.shiftr (undigits32 ds) 4)
  | 5%nat => be_bytes 3 (Z.shiftr (undigits32 ds) 1)
  | 7%nat => be_bytes 4 (Z.shiftr (undigits32 ds) 3)
  | _ => be_bytes 5 (undigits32 ds)
  end.
Fixpoint base32_decode (fuel : nat) (ds : list Z) : list byte :=
  match fuel, ds with
  | O, _ | _, [] => []
  | S fuel, _ => base32_ungroup (take 8 ds) ++ base32_decode fuel (drop 8 ds)
  end.
Definition is_newline (c : ascii) : bool :=
  bool_decide (c = "010"%char) || bool_decide (c = "013"%char).
Definition DecodeString (s : string) : option (list byte) :=
  let src := filter (λ c, is_newline c = false) (String.list_ascii_of_string s) in
  ds ← mapM base32_value src;
  Some (base32_decode (length ds) ds).

Inductive IDError :=
| ErrIDShape (prefix : string)
| ErrIDPayload (prefix : string)
| ErrRandomness (prefix : string)
| ErrNilGenerator (prefix : string)
| ErrGenerate (prefix : string) (e : IDError).

(** [value[:len(prefix)]] when [value] is long enough. *)
Definition parseID (value prefix : string) : result IDError string :=
  if negb (bool_decide (String.length value = String.length prefix + idEncodedBytes)%nat) ||
     negb (String.eqb (String.substring 0 (String.length prefix) value) prefix)
  then Err (ErrIDShape prefix) else
  match DecodeString (String.substring (String.length prefix)
          (String.length value - String.length prefix) value) with
  | None => Err (ErrIDPayload prefix)
  | Some decoded =>
    if negb (bool_decide (length decoded = idRandomBytes)) then Err (ErrIDPayload prefix)
    else Ok value
  end.

Definition ParseEndpointID (value : string) := parseID value endpointIDPrefix.
Definition ParseSessionID (value : string) := parseID value sessionIDPrefix.
Definition ParseRequestID (value : string) := parseID value requestIDPrefix.
Definition ParseJobID (value : string) := parseID value jobIDPrefix.
Definition ParseEventID (value : string) := parseID value eventIDPrefix.

(** The interface [Generator]; the random generator is handed the outcome of
    [io.ReadFull] on a buffer of [idRandomBytes]. *)
Definition Generator := string → result IDError string.
Definition RandomGenerator_New (random : option (list byte)) : Generator := λ prefix,
  match random with
  | None => Err (ErrRandomness prefix)
  | Some random => Ok (prefix +:+ EncodeToString random)
  end.
Definition newID (generator : option Generator) (prefix : string) : result IDError string :=
  match generator with
  | None => Err (ErrNilGenerator prefix)
  | Some New =>
    match New prefix with
    | Err e => Err (ErrGenerate prefix e)
    | Ok value => parseID value prefix
    end
  end.
Definition NewEndpointID g := newID g endpointIDPrefix.
Definition NewSessionID g := newID g sessionIDPrefix.
Definition NewRequestID g := newID g requestIDPrefix.
Definition NewJobID g := newID g jobIDPrefix.
Definition NewEventID g := newID g eventIDPrefix.

(** * Capabilities (capability.go) *)
Record CapabilityConstraint := mkConstraint { con_Name : string; con_Value : string }.
Record Capability := mkCapability {
  cap_Name : string;
  cap_Version : Z; (* uint16 *)
  cap_Constraints : list CapabilityConstraint;
}.
Record CapabilityRevision := mkRevision {
  SessionIDOf : string;
  Generation : Z; (* uint64 *)
}.
Record CapabilitySnapshot := mkCapSnapshot {
  Revision : CapabilityRevision;
  Complete : bool;
  Items : list Capability;
}.
#[export] Instance CapabilityConstraint_eq_dec : EqDecision CapabilityConstraint.
Proof. solve_decision. Defined.
#[export] Instance Capability_eq_dec : EqDecision Capability.
Proof. solve_decision. Defined.
#[export] Instance CapabilityRevision_eq_dec : EqDecision CapabilityRevision.
Proof. solve_decision. Defined.

Inductive CapabilityError :=
| ErrEmptySession
| ErrZeroGeneration
| ErrDuplicateCapability (name : string).

(** [sort.Slice] by name.  It is not stable, but the result is used only when
    the names are distinct, and then it is determined. *)
Definition cap_le (l r : Capability) : Prop := String.le (cap_Name l) (cap_Name r).
#[export] Instance cap_le_dec : RelDecision cap_le :=
  λ l r, decide (String.le (cap_Name l) (cap_Name r)).

(** The loop over adjacent items. *)
Fixpoint adjacent_duplicate (items : list Capability) : option string :=
  match items with
  | c :: (d :: _) as rest =>
    if String.eqb (cap_Name c) (cap_Name d) then Some (cap_Name d)
    else adjacent_duplicate rest
  | _ => None
  end.

Definition NewCapabilitySnapshot (revision : CapabilityRevision) (complete : bool)
    (items : list Capability) : result CapabilityError CapabilitySnapshot :=
  if String.eqb (SessionIDOf revision) "" then Err ErrEmptySession else
  if Generation revision =? 0 then Err ErrZeroGeneration else
  let ownedItems := merge_sort cap_le items in
  match adjacent_duplicate ownedItems with
  | Some name => Err (ErrDuplicateCapability name)
  | None => Ok (mkCapSnapshot revision complete ownedItems)
  end.

(** [sort.Search]: the smallest index in [0, n) at which [f] holds, by binary
    search; [n] turns are enough. *)
Fixpoint search_loop (fuel : nat) (f : nat → bool) (i j : nat) : nat :=
  match fuel with
  | O => i
  | S fuel =>
    if (i <? j)%nat then
      let h := ((i + j) / 2)%nat in
      if negb (f h) then search_loop fuel f (S h) j else search_loop fuel f i h
    else i
  end.
Definition sort_Search (n : nat) (f : nat → bool) : nat := search_loop n f 0 n.

Definition Capability_Lookup (s : CapabilitySnapshot) (name : string) : option Capability :=
  let index := sort_Search (length (Items s)) (λ i,
    match Items s !! i with Some c => String.leb name (cap_Name c) | None => true end) in
  match Items s !! index with
  | Some c => if String.eqb (cap_Name c) name then Some c else None
  | None => None
  end.

(** * Locations, endpoints, entries *)
Record Location := mkLocation { loc_EndpointID : string; loc_Path : string }.
#[export] Instance Location_eq_dec : EqDecision Location.
Proof. solve_decision. Defined.
#[export] Instance Location_countable : Countable Location.
Proof.
  apply (inj_countable' (λ l, (loc_EndpointID l, loc_Path l)) (λ p, mkLocation p.1 p.2)).
  by intros [].
Defined.

Inductive LocationError := ErrEmptyEndpoint | ErrEmptyPath | ErrPathNUL.

(** [strings.IndexByte(s, 0) >= 0]. *)
Definition has_nul (s : string) : bool :=
  bool_decide ("000"%char ∈ String.list_ascii_of_string s).

Definition NewLocation (endpointID path : string) : result LocationError Location :=
  if String.eqb endpointID "" then Err ErrEmptyEndpoint else
  if String.eqb path "" then Err ErrEmptyPath else
  if has_nul path then Err ErrPathNUL else Ok (mkLocation endpointID path).

Definition EndpointLocal := "local".
Definition EndpointSSH := "ssh".
Record Endpoint := mkEndpoint {
  ep_ID : string; ep_Kind : string; ep_DisplayName : string; ep_SSHHostAlias : string
}.
Record EndpointSnapshot := mkEndpointSnapshot {
  es_EndpointID : string; es_SessionID : string; es_State : string;
  es_Capabilities : CapabilitySnapshot; es_ObservedAt : Time
}.

Definition EntryFile := "file".
Definition EntryDirectory := "directory".
Definition EntrySymlink := "symlink".
Definition EntryOther := "other".

Record Fingerprint := mkFingerprint {
  fp_Size : option Z; (* uint64 *)
  fp_ModifiedAt : option Time;
  fp_ModifiedPrecision : option string;
  fp_FileID : option string;
  fp_VersionID : option string;
  fp_HashAlgorithm : option string;
  fp_HashHex : option string;
}.
#[export] Instance Fingerprint_eq_dec : EqDecision Fingerprint.
Proof. solve_decision. Defined.
Definition Fingerprint_zero : Fingerprint := mkFingerprint None None None None None None None.

Record Metadata := mkMetadata {
  md_Size : option Z; md_Mode : option Z; md_UID : option Z; md_GID : option Z;
  md_ModifiedAt : option Time; md_ModifiedPrecision : option string;
  md_FileID : option string;
}.
Record SymlinkInfo := mkSymlinkInfo { RawTarget : string; ResolvedKind : option string }.
Record Entry := mkEntry {
  entry_Location : Location;
  entry_Name : string;
  entry_Kind : string;
  entry_Metadata : Metadata;
  entry_Fingerprint : Fingerprint;
  entry_Symlink : option SymlinkInfo;
}.

(** fingerprint.go *)
Definition FingerprintWeak := "weak".
Definition FingerprintStat := "stat".
Definition FingerprintIdentity := "identity".
Definition FingerprintStrong := "strong".
Definition nonEmpty (value : option string) : bool :=
  match value with Some s => negb (String.eqb s "") | None => false end.
Definition nonEmptyPrecision (value : option string) : bool :=
  match value with Some s => negb (String.eqb s "") | None => false end.
Definition Strength (f : Fingerprint) : string :=
  if nonEmpty (fp_VersionID f) || nonEmpty (fp_HashAlgorithm f) && nonEmpty (fp_HashHex f)
  then FingerprintStrong else
  let hasStat := bool_decide (is_Some (fp_Size f)) && bool_decide (is_Some (fp_ModifiedAt f)) &&
                 nonEmptyPrecision (fp_ModifiedPrecision f) in
  if hasStat && nonEmpty (fp_FileID f) then FingerprintIdentity else
  if hasStat then FingerprintStat else FingerprintWeak.

(** * Operation errors (error.go) *)
Definition CodeInvalidArgument := "invalid_argument".
Definition CodeNotFound := "not_found".
Definition CodeAlreadyExists := "already_exists".
Definition CodePermissionDenied := "permission_denied".
Definition CodeAuthRequired := "auth_required".
Definition CodeTransportInterrupted := "transport_interrupted".
Definition CodeTimeout := "timeout".
Definition CodeUnsupported := "unsupported".
Definition CodeCapabilityLost := "capability_lost".
Definition CodeConflict := "conflict".
Definition CodeResourceExhausted := "resource_exhausted".
Definition CodeIntegrityFailed := "integrity_failed".
Definition CodeCanceled := "canceled".
Definition CodeProtocolIncompatible := "protocol_incompatible".
Definition CodeInternal := "internal".

Definition RetryNever := "never".
Definition RetryImmediate := "immediate".
Definition RetryBackoff := "backoff".
Definition RetryAfterReconnect := "after_reconnect".
Definition RetryAfterAuth := "after_auth".
Definition RetryAfterConflict := "after_conflict".
Definition RetryAfterReplan := "after_replan".

Definition EffectNone := "none".
Definition EffectApplied := "applied".
Definition EffectUnknown := "unknown".

Record RetryAdvice := mkRetry { retry_Kind : string; retry_After : Duration }.

(** A Go [error]: an operation error, [context.Canceled],
    [context.DeadlineExceeded], a wrapping ([fmt.Errorf("...: %w", err)]), a
    package variable that callers compare with ([ESentinel]) or any other error.  A nil [error] is [None] where the code has one. *)
Inductive error :=
| EOp (Code Message Operation EndpointID : string) (Location : option Location)
    (Retry : RetryAdvice) (Effect : string) (Cause : option error)
| ECanceled
| EDeadlineExceeded
| EWrap (message : string) (err : error)
| EText (message : string)
| ESentinel (name : string).

(** [errors.As(err, &opError)]: the first operation error of the chain, as its
    code, location and effect are what callers read. *)
Fixpoint as_op (err : error) : option error :=
  match err with
  | EOp _ _ _ _ _ _ _ _ => Some err
  | EWrap _ err => as_op err
  | _ => None
  end.
(** [errors.Is(err, target)] for the two context sentinels and for others. *)
Fixpoint is_canceled (err : error) : bool :=
  match err with
  | ECanceled => true
  | EWrap _ err => is_canceled err
  | EOp _ _ _ _ _ _ _ (Some err) => is_canceled err
  | _ => false
  end.
Fixpoint is_deadline (err : error) : bool :=
  match err with
  | EDeadlineExceeded => true
  | EWrap _ err => is_deadline err
  | EOp _ _ _ _ _ _ _ (Some err) => is_deadline err
  | _ => false
  end.

Fixpoint is_sentinel (name : string) (err : error) : bool :=
  match err with
  | ESentinel n => String.eqb n name
  | EWrap _ err => is_sentinel name err
  | EOp _ _ _ _ _ _ _ (Some err) => is_sentinel name err
  | _ => false
  end.

Definition op_code (err : error) : option string :=
  match as_op err with Some (EOp code _ _ _ _ _ _ _) => Some code | _ => None end.
Definition op_effect (err : error) : option string :=
  match as_op err with Some (EOp _ _ _ _ _ _ effect _) => Some effect | _ => None end.

Definition IsCode (err : error) (code : string) : bool :=
  match op_code err with Some c => String.eqb c code | None => false end.

Definition Error_display (code message operation : string) : string :=
  let display := if String.eqb message "" then code else message in
  let display := if String.eqb display "" then "operation failed" else display in
  if negb (String.eqb operation "") then operation +:+ ": " +:+ display else display.

Definition FromContext (operation endpointID : string) (loc : option Location)
    (err : option error) : option error :=
  match err with
  | None => None
  | Some err =>
    match as_op err with
    | Some (EOp code message operation' endpointID' loc' retry effect cause) =>
      Some (EOp code message
        (if String.eqb operation' "" then operation else operation')
        (if String.eqb endpointID' "" then endpointID else endpointID')
        (match loc' with None => loc | Some l => Some l end) retry effect cause)
    | _ =>
      let opError code message retry :=
        Some (EOp code message operation endpointID loc (mkRetry retry 0) EffectUnknown
                (Some err)) in
      if is_canceled err then opError CodeCanceled "operation canceled" RetryNever else
      if is_deadline err then opError CodeTimeout "operation timed out" RetryBackoff else
      opError CodeInternal "operation failed" RetryNever
    end
  end.

(** * Facts on base 32 *)
Lemma be_val_snoc bs b : be_val (bs ++ [b]) = be_val bs * 256 + Z_of_byte b.
Proof. unfold be_val. by rewrite foldl_app. Qed.

Lemma be_bytes_val bs : be_bytes (length bs) (be_val bs) = bs.
Proof.
  induction bs as [|b bs IH] using rev_ind; [done|].
  rewrite length_app, Nat.add_comm. cbn [length Nat.add be_bytes].
  rewrite be_val_snoc, Z.shiftr_div_pow2 by done. change (2 ^ 8) with 256.
  pose proof (Z_of_byte_range b).
  rewrite Z.div_add_l, (Z.div_small (Z_of_byte b)), Z.add_0_r, IH by lia.
  f_equal. f_equal. unfold byte_of_Z.
  rewrite (Z.add_comm (_ * 256)), Z.mod_add by done. apply byte_of_Z_of_byte.
Qed.

Lemma be_val_range bs : 0 ≤ be_val bs < 256 ^ Z.of_nat (length bs).
Proof.
  rewrite <-(be_bytes_val bs). rewrite be_val_bytes, length_be_bytes.
  apply Z.mod_pos_bound. lia.
Qed.

Lemma undigits32_snoc ds d : undigits32 (ds ++ [d]) = undigits32 ds * 32 + d.
Proof. unfold undigits32. by rewrite foldl_app. Qed.

Lemma length_digits32 n v : length (digits32 n v) = n.
Proof.
  revert v; induction n as [|n IH]; intros v; cbn [digits32]; [done|].
  rewrite length_app, IH. cbn. lia.
Qed.

Lemma undigits32_digits n v : undigits32 (digits32 n v) = v `mod` 32 ^ Z.of_nat n.
Proof.
  revert v; induction n as [|n IH]; intros v; cbn [digits32].
  { change (32 ^ Z.of_nat 0) with 1. by rewrite Z.mod_1_r. }
  rewrite undigits32_snoc, IH, Z.shiftr_div_pow2 by done. change (2 ^ 5) with 32.
  rewrite Nat2Z.inj_succ, Z.pow_succ_r, (Z.rem_mul_r v 32) by lia. lia.
Qed.

Lemma digits32_range n v : Forall (λ d, 0 ≤ d < 32) (digits32 n v).
Proof.
  revert v; induction n as [|n IH]; intros v; cbn [digits32]; [done|].
  apply Forall_app_2; [done|]. apply Forall_singleton, Z.mod_pos_bound. lia.
Qed.

(** The bytes of a group survive their padding to [n] digits. *)
Lemma group_roundtrip bs n s :
  0 ≤ s → 2 ^ s * 256 ^ Z.of_nat (length bs) ≤ 32 ^ Z.of_nat n →
  be_bytes (length bs) (Z.shiftr (undigits32 (digits32 n (Z.shiftl (be_val bs) s))) s) = bs.
Proof.
  intros Hs Hn. pose proof (be_val_range bs). pose proof (Z.pow_pos_nonneg 2 s).
  rewrite undigits32_digits, Z.shiftl_mul_pow2, Z.mod_small by nia.
  rewrite Z.shiftr_div_pow2, Z.div_mul by lia. apply be_bytes_val.
Qed.

Lemma length_base32_group bs :
  (0 < length bs ≤ 5)%nat → length (base32_group bs) =
  nth (length bs) [0; 2; 4; 5; 7; 8]%nat 0%nat.
Proof.
  intros H. unfold base32_group.
  do 6 (destruct bs as [|? bs]; [cbn in *; by rewrite ?length_digits32 || lia|]).
  cbn in H. lia.
Qed.

Lemma base32_ungroup_group bs :
  (0 < length bs ≤ 5)%nat → base32_ungroup (base32_group bs) = bs.
Proof.
  intros H. unfold base32_ungroup. rewrite length_base32_group by done.
  unfold base32_group.
  assert (length bs = 1 ∨ length bs = 2 ∨ length bs = 3 ∨ length bs = 4 ∨ length bs = 5)%nat
    as Hl by lia.
  destruct Hl as [E|[E|[E|[E|E]]]]; rewrite E; cbn [nth]; rewrite <-E.
  1, 2, 3, 4: apply group_roundtrip; [done|rewrite E; vm_compute; discriminate].
  rewrite undigits32_digits. pose proof (be_val_range bs) as Hr. rewrite E in Hr.
  rewrite Z.mod_small by (rewrite E; exact Hr).
  apply be_bytes_val.
Qed.

Lemma base32_group_range bs : Forall (λ d, 0 ≤ d < 32) (base32_group bs).
Proof. unfold base32_group. repeat case_match; apply digits32_range. Qed.

Lemma base32_encode_range fuel bs : Forall (λ d, 0 ≤ d < 32) (base32_encode fuel bs).
Proof.
  revert bs; induction fuel as [|fuel IH]; intros bs; cbn [base32_encode]; [done|].
  destruct bs; [done|]. by apply Forall_app_2; [apply base32_group_range|].
Qed.

(** Enough letters are left for every group but the last to be whole. *)
Lemma base32_decode_encode fuel fuel' bs :
  (length bs ≤ fuel)%nat → (length (base32_encode fuel bs) ≤ fuel')%nat →
  base32_decode fuel' (base32_encode fuel bs) = bs.
Proof.
  revert fuel' bs; induction fuel as [|fuel IH]; intros fuel' bs Hf.
  { destruct bs; cbn in Hf; [|lia]. by destruct fuel'. }
  destruct (decide (bs = [])) as [->|Hne]; [by destruct fuel'|].
  assert (base32_encode (S fuel) bs =
          base32_group (take 5 bs) ++ base32_encode fuel (drop 5 bs)) as ->
    by by destruct bs.
  assert (0 < length bs)%nat by (destruct bs; [done|cbn; lia]).
  assert (0 < length (take 5 bs) ≤ 5)%nat as Ht by (rewrite length_take; lia).
  pose proof (length_base32_group _ Ht) as Hg.
  rewrite length_app. intros Hf'.
  destruct fuel' as [|fuel'].
  { exfalso. revert Hg Hf'.
    destruct (length (take 5 bs)) as [|[|[|[|[|[|]]]]]]; cbn; lia. }
  set (g := base32_group (take 5 bs)) in *. set (r := base32_encode fuel (drop 5 bs)) in *.
  assert (take 8 (g ++ r) = g ∧ drop 8 (g ++ r) = r) as [Hg1 Hg2].
  { destruct (decide (5 ≤ length bs)%nat).
    - assert (length g = 8%nat) by (rewrite Hg, length_take_le by lia; done).
      by rewrite take_app_length', drop_app_length' by done.
    - assert (r = []) as ->.
      { unfold r. rewrite drop_ge by lia. by destruct fuel. }
      assert (length g ≤ 8)%nat.
      { rewrite Hg. destruct (length (take 5 bs)) as [|[|[|[|[|[|]]]]]]; cbn; lia. }
      rewrite app_nil_r, take_ge, drop_ge by lia. done. }
  assert (base32_decode (S fuel') (g ++ r) =
          base32_ungroup (take 8 (g ++ r)) ++ base32_decode fuel' (drop 8 (g ++ r))) as ->.
  { destruct (g ++ r) eqn:E; [|done]. apply app_nil in E as [E1 _].
    rewrite E1 in Hg. cbn in Hg.
    destruct (length (take 5 bs)) as [|[|[|[|[|[|]]]]]]; cbn in *; lia. }
  rewrite Hg1, Hg2. unfold g at 1. rewrite base32_ungroup_group by done.
  unfold r. rewrite IH; [by rewrite take_drop|rewrite length_drop; lia|].
  fold r. revert Hg Hf'.
  destruct (length (take 5 bs)) as [|[|[|[|[|[|]]]]]]; cbn; lia.
Qed.

Lemma base32_value_letter d : 0 ≤ d < 32 → base32_value (base32_letter d) = Some d.
Proof.
  intros H.
  assert (forallb (λ d, bool_decide (base32_value (base32_letter d) = Some d))
            (Z.of_nat <$> seq 0 32) = true) as F by by vm_compute.
  rewrite forallb_forall in F. eapply bool_decide_eq_true_1, F, list_elem_of_In.
  apply list_elem_of_fmap. exists (Z.to_nat d). rewrite elem_of_seq. lia.
Qed.

Lemma base32_letter_not_newline d : 0 ≤ d < 32 → is_newline (base32_letter d) = false.
Proof.
  intros H. unfold is_newline.
  rewrite !bool_decide_eq_false_2; [done| |];
    intros E; pose proof (base32_value_letter d H) as V; by rewrite E in V.
Qed.

Lemma mapM_base32_value ds :
  Forall (λ d, 0 ≤ d < 32) ds → mapM base32_value (base32_letter <$> ds) = Some ds.
Proof.
  intros H. apply mapM_Some, Forall2_fmap_l, Forall_Forall2_diag.
  eapply Forall_impl; [exact H|]. apply base32_value_letter.
Qed.

Lemma filter_newlines ds :
  Forall (λ d, 0 ≤ d < 32) ds →
  filter (λ c, is_newline c = false) (base32_letter <$> ds) = base32_letter <$> ds.
Proof.
  induction 1 as [|d ds Hd _ IH]; [done|]. rewrite fmap_cons, filter_cons_True, IH; [done|].
  by apply base32_letter_not_newline.
Qed.

Lemma DecodeString_EncodeToString bs : DecodeString (EncodeToString bs) = Some bs.
Proof.
  unfold DecodeString, EncodeToString.
  rewrite String.list_ascii_of_string_of_list_ascii.
  pose proof (base32_encode_range (length bs) bs) as Hr.
  rewrite filter_newlines, mapM_base32_value by done. cbn.
  f_equal. by apply base32_decode_encode.
Qed.

(** What decoding gives for letters only. *)
Lemma length_base32_decode fuel ds :
  (length ds ≤ fuel)%nat →
  length (base32_decode fuel ds) =
  (5 * (length ds / 8) + nth (length ds mod 8) [0; 0; 1; 0; 2; 3; 0; 4] 0)%nat.
Proof.
  revert ds; induction fuel as [|fuel IH]; intros ds Hf.
  { by destruct ds; cbn in Hf; [|lia]. }
  destruct (decide (ds = [])) as [->|Hne]; [done|].
  assert (base32_decode (S fuel) ds =
          base32_ungroup (take 8 ds) ++ base32_decode fuel (drop 8 ds)) as ->
    by by destruct ds.
  assert (0 < length ds)%nat by (destruct ds; [done|cbn; lia]).
  rewrite length_app, IH, length_drop by (rewrite length_drop; lia).
  destruct (decide (8 ≤ length ds)%nat) as [Hl|Hl].
  - replace (length ds) with (1 * 8 + (length ds - 8))%nat at 3 4 by lia.
    rewrite Nat.div_add_l, (Nat.add_comm (1 * 8)), Nat.Div0.mod_add by lia.
    unfold base32_ungroup. rewrite length_take_le by done. rewrite length_be_bytes. lia.
  - rewrite take_ge by lia. replace (length ds - 8)%nat with 0%nat by lia.
    unfold base32_ungroup.
    rewrite (Nat.div_small (length ds)), (Nat.mod_small (length ds)) by lia.
    destruct (length ds) as [|[|[|[|[|[|[|[|]]]]]]]]; cbn [nth]; rewrite ?length_be_bytes;
      cbn; lia.
Qed.

(** * Identifiers *)
Definition is_base32 (c : ascii) : bool := bool_decide (is_Some (base32_value c)).

Lemma length_list_ascii s : length (String.list_ascii_of_string s) = String.length s.
Proof. induction s; cbn; by f_equal. Qed.

Lemma substring_prefix p v :
  String.substring 0 (String.length p) v = p ↔ ∃ r, v = p +:+ r.
Proof.
  revert v; induction p as [|c p IH]; intros v.
  { split; [by exists v|]. by destruct v. }
  destruct v as [|d v]; cbn.
  { split; [done|]. by intros [r [=]]. }
  split.
  - intros [= -> H]. apply IH in H as [r ->]. by exists r.
  - intros [r [= -> ->]]. f_equal. apply IH. by exists r.
Qed.

Lemma substring_all r : String.substring 0 (String.length r) r = r.
Proof. induction r; cbn; by f_equal. Qed.

Lemma substring_suffix p r :
  String.substring (String.length p) (String.length r) (p +:+ r) = r.
Proof. induction p as [|c p IH]; cbn; [apply substring_all|done]. Qed.

Lemma filter_length_all {A} (P : A → Prop) `{∀ x, Decision (P x)} (l : list A) :
  length (filter P l) = length l → Forall P l.
Proof.
  induction l as [|x l IH]; [done|]. rewrite filter_cons. case_decide; cbn.
  - intros [=]. by constructor; [|apply IH].
  - pose proof (length_filter P l). lia.
Qed.

Lemma mapM_length {A B} (f : A → option B) l k : mapM f l = Some k → length k = length l.
Proof. intros H%mapM_Some. symmetry. by eapply Forall2_length. Qed.

(** A payload of [idEncodedBytes] letters decodes to [idRandomBytes] bytes, and
    nothing else of that length does. *)
Lemma DecodeString_payload s :
  String.length s = idEncodedBytes →
  (∃ bs, DecodeString s = Some bs ∧ length bs = idRandomBytes) ↔
  Forall is_base32 (String.list_ascii_of_string s).
Proof.
  unfold DecodeString, idEncodedBytes, idRandomBytes. rewrite <-length_list_ascii.
  generalize (String.list_ascii_of_string s). clear s. intros l Hl. split.
  - intros (bs & Hd & Hb).
    destruct (mapM _ _) as [ds|] eqn:Em; cbn in Hd; [|done]. injection Hd as <-.
    pose proof (mapM_length _ _ _ Em) as Hds. rewrite length_base32_decode in Hb by done.
    pose proof (length_filter (λ c, is_newline c = false) l) as Hle.
    assert (length ds = 26%nat) as H26.
    { rewrite <-Hds, Hl in Hle. revert Hb Hle. clear. generalize (length ds). intros n.
      do 26 (destruct n as [|n]; [vm_compute; congruence|]). lia. }
    rewrite H26, <-Hl in Hds. symmetry in Hds. apply filter_length_all in Hds.
    assert (filter (λ c, is_newline c = false) l = l) as Hf.
    { clear - Hds. induction Hds; [done|]. rewrite filter_cons_True; by f_equal. }
    rewrite Hf in Em. apply mapM_Some in Em. clear - Em.
    induction Em; constructor; [|done]. apply bool_decide_pack. by eexists.
  - intros Hall.
    assert (filter (λ c, is_newline c = false) l = l) as ->.
    { clear - Hall. induction Hall as [|c l Hc _ IH]; [done|].
      rewrite filter_cons_True; [by rewrite IH|]. unfold is_base32 in Hc.
      apply bool_decide_unpack in Hc as [v Hv]. unfold is_newline.
      rewrite !bool_decide_eq_false_2; [done| |]; by intros ->. }
    destruct (mapM base32_value l) as [ds|] eqn:Em.
    + eexists; split; [done|]. pose proof (mapM_length _ _ _ Em) as Hds.
      rewrite length_base32_decode by done. by rewrite Hds, Hl.
    + exfalso. apply mapM_None in Em. apply Exists_exists in Em as (c & Hc & Hn).
      rewrite Forall_forall in Hall. apply Hall, bool_decide_unpack in Hc. destruct Hc.
      congruence.
Qed.

Lemma length_string_app s t : String.length (s +:+ t) = (String.length s + String.length t)%nat.
Proof. induction s as [|c s IH]; [done|]. apply (f_equal S IH). Qed.

(** Equal concatenations split at the same place when the tails are as long. *)
Lemma string_app_inj_length s s' t t' :
  s +:+ t = s' +:+ t' → String.length t = String.length t' → s = s' ∧ t = t'.
Proof.
  intros E Ht. assert (String.length s = String.length s') as Hs.
  { apply (f_equal String.length) in E. rewrite !length_string_app in E. lia. }
  revert s' Hs E. induction s as [|c s IH]; intros [|c' s'] Hs E; cbn in Hs; try done.
  injection E as -> E. injection Hs as Hs. by destruct (IH s' Hs E) as [-> ->].
Qed.

(** an identifier parses exactly when it is its kind's prefix followed by
    26 letters of the base-32 alphabet; it is returned unchanged. *)
Theorem parseID_exact value prefix value' :
  parseID value prefix = Ok value' ↔
  value' = value ∧ ∃ payload, value = prefix +:+ payload ∧
    String.length payload = idEncodedBytes ∧
    Forall is_base32 (String.list_ascii_of_string payload).
Proof.
  unfold parseID. destruct (negb _ || negb _) eqn:Eg.
  - split; [done|]. intros (_ & payload & -> & Hl & _). breflect. destruct Eg as [Eg|Eg]; breflect.
    + rewrite length_string_app in Eg. lia.
    + apply String.eqb_neq in Eg. destruct Eg. apply substring_prefix. eauto.
  - breflect. apply String.eqb_eq in H0. apply substring_prefix in H0 as [payload ->].
    rewrite length_string_app in H |- *. rewrite (Nat.add_comm (String.length prefix)), Nat.add_sub.
    rewrite substring_suffix. assert (String.length payload = idEncodedBytes) as Hl by lia.
    pose proof (DecodeString_payload payload Hl) as Hd.
    assert (∀ P : string → Prop, (∃ p, prefix +:+ payload = prefix +:+ p ∧ P p) ↔ P payload) as Hp.
    { intros P. split; [|eauto]. intros (p & E & HP). apply (inj (String.append prefix)) in E.
      by subst. }
    rewrite Hp. destruct (DecodeString payload) as [bs|] eqn:Ed.
    + case_bool_decide as Hb; cbn [negb].
      * split; [|by intros [-> _]]. intros [= <-]. split_and!; [done..|]. apply Hd. eauto.
      * split; [done|]. intros (_ & _ & HF). apply Hd in HF as (? & [= <-] & ?). done.
    + split; [done|]. intros (_ & _ & HF). by apply Hd in HF as (? & ? & ?).
Qed.

Lemma length_base32_encode fuel bs :
  (length bs ≤ fuel)%nat →
  length (base32_encode fuel bs) =
  (8 * (length bs / 5) + nth (length bs mod 5) [0; 2; 4; 5; 7] 0)%nat.
Proof.
  revert bs; induction fuel as [|fuel IH]; intros bs Hf.
  { by destruct bs; cbn in Hf; [|lia]. }
  destruct (decide (bs = [])) as [->|Hne]; [done|].
  assert (base32_encode (S fuel) bs =
          base32_group (take 5 bs) ++ base32_encode fuel (drop 5 bs)) as ->
    by by destruct bs.
  assert (0 < length bs)%nat by (destruct bs; [done|cbn; lia]).
  rewrite length_app, IH, length_base32_group, length_drop, length_take
    by (rewrite ?length_drop, ?length_take; lia).
  destruct (decide (5 ≤ length bs)%nat) as [Hl|Hl].
  - replace (length bs) with (1 * 5 + (length bs - 5))%nat at 4 5 by lia.
    rewrite Nat.div_add_l, (Nat.add_comm (1 * 5)), Nat.Div0.mod_add by lia.
    rewrite Nat.min_l by lia. cbn [nth]. lia.
  - rewrite Nat.min_r by lia. replace (length bs - 5)%nat with 0%nat by lia.
    rewrite (Nat.div_small (length bs)), (Nat.mod_small (length bs)) by lia.
    destruct (length bs) as [|[|[|[|[|]]]]]; cbn; lia.
Qed.

Lemma EncodeToString_letters bs :
  Forall is_base32 (String.list_ascii_of_string (EncodeToString bs)).
Proof.
  unfold EncodeToString. rewrite String.list_ascii_of_string_of_list_ascii.
  apply Forall_fmap. eapply Forall_impl; [apply base32_encode_range|].
  intros d Hd. unfold compose, is_base32. rewrite base32_value_letter by done. done.
Qed.

Lemma EncodeToString_length bs :
  length bs = idRandomBytes → String.length (EncodeToString bs) = idEncodedBytes.
Proof.
  intros H. unfold EncodeToString.
  rewrite <-length_list_ascii, String.list_ascii_of_string_of_list_ascii.
  rewrite length_fmap, length_base32_encode, H by done. done.
Qed.

(** with [idRandomBytes] random bytes the generator's identifier always
    passes the parser that checks it, and it determines the kind and the bytes:
    two identifiers are equal only if their kinds' prefixes have the same text
    and the random bytes are the same. *)
Theorem newID_random prefix random :
  length random = idRandomBytes →
  newID (Some (RandomGenerator_New (Some random))) prefix =
    Ok (prefix +:+ EncodeToString random) ∧
  ∀ prefix' random', length random' = idRandomBytes →
    newID (Some (RandomGenerator_New (Some random'))) prefix' =
      newID (Some (RandomGenerator_New (Some random))) prefix →
    prefix' = prefix ∧ random' = random.
Proof.
  assert (∀ p r, length r = idRandomBytes →
    newID (Some (RandomGenerator_New (Some r))) p = Ok (p +:+ EncodeToString r)) as Hnew.
  { intros p r Hr. unfold newID, RandomGenerator_New. apply parseID_exact. split; [done|].
    exists (EncodeToString r). split_and!; [done|by apply EncodeToString_length|].
    apply EncodeToString_letters. }
  intros Hr. split; [by apply Hnew|]. intros p' r' Hr'. rewrite !Hnew by done.
  intros [= E]. apply string_app_inj_length in E as [-> E];
    [|by rewrite !EncodeToString_length].
  split; [done|]. apply (f_equal DecodeString) in E.
  rewrite !DecodeString_EncodeToString in E. congruence.
Qed.

(** * Capability snapshots *)

(** Binary search of a predicate that, once true, stays true. *)
Lemma search_loop_spec f fuel i j :
  (∀ a b, (a ≤ b)%nat → f a = true → f b = true) →
  (i ≤ j)%nat → (j - i ≤ fuel)%nat →
  let k := search_loop fuel f i j in
  (i ≤ k ≤ j)%nat ∧ (∀ a, (i ≤ a < k)%nat → f a = false) ∧ (k < j → f k = true)%nat.
Proof.
  intros Hmono. revert i j; induction fuel as [|fuel IH]; intros i j Hij Hf; cbn [search_loop].
  { split_and!; lia. }
  destruct (Nat.ltb_spec i j); [|split_and!; lia].
  set (h := ((i + j) / 2)%nat).
  assert (i ≤ h < j)%nat as Hh.
  { unfold h. split; [apply Nat.div_le_lower_bound; lia|apply Nat.Div0.div_lt_upper_bound; lia]. }
  destruct (f h) eqn:Eh; cbn [negb].
  - destruct (IH i h) as (H1 & H2 & H3); [lia..|]. split_and!; [lia|lia|done|].
    intros _. destruct (decide (search_loop fuel f i h < h)%nat); [auto|].
    replace (search_loop fuel f i h) with h by lia. done.
  - destruct (IH (S h) j) as (H1 & H2 & H3); [lia..|]. split_and!; [lia|lia| |done].
    intros a Ha. destruct (decide (S h ≤ a)%nat); [apply H2; lia|].
    destruct (f a) eqn:Ea; [|done]. rewrite (Hmono a h) in Eh; [done|lia|done].
Qed.

Lemma sort_Search_spec f n :
  (∀ a b, (a ≤ b)%nat → f a = true → f b = true) →
  (sort_Search n f ≤ n)%nat ∧
  (∀ a, (a < sort_Search n f)%nat → f a = false) ∧
  (sort_Search n f < n → f (sort_Search n f) = true)%nat.
Proof.
  intros Hm. destruct (search_loop_spec f n 0 n Hm) as (H1 & H2 & H3); [lia..|].
  unfold sort_Search. split_and!; [lia| |done]. intros a Ha. apply H2. lia.
Qed.

#[export] Instance cap_le_trans : Transitive cap_le.
Proof. intros x y z. unfold cap_le. by transitivity (cap_Name y). Qed.
#[export] Instance cap_le_total : Total cap_le.
Proof. intros x y. unfold cap_le. apply (total String.le). Qed.

Lemma adjacent_duplicate_none items :
  StronglySorted cap_le items →
  adjacent_duplicate items = None ↔ NoDup (cap_Name <$> items).
Proof.
  induction items as [|c items IH]; intros Hs; [by split; [constructor|]|].
  apply StronglySorted_cons in Hs as [Hc Hs]. specialize (IH Hs).
  destruct items as [|d items].
  { split; [|done]. intros _. apply NoDup_singleton. }
  change (adjacent_duplicate (c :: d :: items)) with
    (if String.eqb (cap_Name c) (cap_Name d) then Some (cap_Name d)
     else adjacent_duplicate (d :: items)).
  rewrite fmap_cons, NoDup_cons. destruct (String.eqb_spec (cap_Name c) (cap_Name d)) as [E|E].
  - split; [done|]. intros [Hn _]. destruct Hn. rewrite E. by left.
  - rewrite IH. split; [|by intros [_ ?]]. intros Hnd. split; [|done].
    intros [x [Hx Hin]]%list_elem_of_fmap.
    apply elem_of_cons in Hin as [-> |Hin]; [done|].
    apply StronglySorted_cons in Hs as [Hd _]. rewrite Forall_forall in Hd, Hc.
    destruct E. apply (anti_symm String.le).
    + apply (Hc d). by left.
    + rewrite Hx. by apply Hd.
Qed.

Lemma StronglySorted_lookup {A} (R : relation A) l i j x y :
  StronglySorted R l → (i < j)%nat → l !! i = Some x → l !! j = Some y → R x y.
Proof.
  intros Hs. revert i j; induction Hs as [|z l Hs IH Hz]; intros i j Hij Hi Hj; [done|].
  destruct j as [|j]; [lia|]. destruct i as [|i]; cbn in Hi, Hj.
  - injection Hi as ->. rewrite Forall_forall in Hz. apply Hz. by eapply list_elem_of_lookup_2.
  - eapply (IH i j); [lia|done..].
Qed.

(** The binary search of a snapshot finds an item by its name. *)
Lemma Capability_Lookup_sorted s name c :
  StronglySorted cap_le (Items s) → NoDup (cap_Name <$> Items s) →
  Capability_Lookup s name = Some c ↔ c ∈ Items s ∧ cap_Name c = name.
Proof.
  intros Hs Hnd. unfold Capability_Lookup. set (f := λ i : nat, match Items s !! i with
                       | Some c => String.leb name (cap_Name c) | None => true end).
  assert (∀ a b, (a ≤ b)%nat → f a = true → f b = true) as Hm.
  { intros a b Hab. unfold f. destruct (Items s !! b) as [cb|] eqn:Eb; [|done].
    destruct (decide (a = b)) as [-> |]; [by rewrite Eb|].
    destruct (lookup_lt_is_Some_2 (Items s) a) as [ca Ea].
    { apply lookup_lt_Some in Eb. lia. }
    rewrite Ea. intros Hl. assert (cap_le ca cb) as Hab'
      by (eapply (StronglySorted_lookup cap_le (Items s) a b); [done|lia|done..]).
    apply Is_true_true. unfold cap_le in Hab'.
    change (String.le name (cap_Name cb)). etrans; [|exact Hab'].
    unfold String.le. by rewrite Hl. }
  destruct (sort_Search_spec f (length (Items s)) Hm) as (H1 & H2 & H3).
  set (k := sort_Search _ f) in *. split.
  - destruct (Items s !! k) as [ck|] eqn:Ek; [|done].
    destruct (String.eqb_spec (cap_Name ck) name); [|done]. intros [= <-]. split; [|done].
    by eapply list_elem_of_lookup_2.
  - intros [[i Hi]%list_elem_of_lookup_1 Hn].
    assert (f i = true) as Hfi.
    { unfold f. rewrite Hi, Hn. apply Is_true_true.
      change (String.le name name). reflexivity. }
    assert (k ≤ i)%nat as Hki.
    { destruct (decide (k ≤ i)%nat); [done|]. rewrite H2 in Hfi by lia. done. }
    destruct (lookup_lt_is_Some_2 (Items s) k) as [ck Ek].
    { apply lookup_lt_Some in Hi. lia. }
    rewrite Ek. assert (cap_Name ck = name) as Hck.
    { assert (f k = true) as Hfk by (apply H3; apply lookup_lt_Some in Hi; lia).
      unfold f in Hfk. rewrite Ek in Hfk. apply (anti_symm String.le).
      - destruct (decide (k = i)) as [E|]; [rewrite E, Hi in Ek; injection Ek as ->; by rewrite Hn|].
        rewrite <-Hn. eapply (StronglySorted_lookup cap_le (Items s) k i); [done|lia|done..].
      - unfold String.le. by rewrite Hfk. }
    rewrite Hck, String.eqb_refl. f_equal.
    assert (k = i) as ->; [|congruence].
    eapply (NoDup_lookup _ _ _ name Hnd); rewrite list_lookup_fmap; [rewrite Ek|rewrite Hi]; cbn;
      congruence.
Qed.

(** a capability snapshot is created exactly for a named session, a
    positive generation and items of distinct names, and looking a name up in it
    gives exactly the item of that name in the list it was created from. *)
Theorem CapabilitySnapshot_correct revision complete items :
  (is_ok (NewCapabilitySnapshot revision complete items) = true ↔
   SessionIDOf revision ≠ "" ∧ Generation revision ≠ 0 ∧ NoDup (cap_Name <$> items)) ∧
  ∀ s, NewCapabilitySnapshot revision complete items = Ok s →
    Revision s = revision ∧ Complete s = complete ∧
    ∀ name c, Capability_Lookup s name = Some c ↔ c ∈ items ∧ cap_Name c = name.
Proof.
  assert (StronglySorted cap_le (merge_sort cap_le items)) as Hs
    by (apply Sorted_StronglySorted, Sorted_merge_sort; apply _).
  assert (NoDup (cap_Name <$> merge_sort cap_le items) ↔ NoDup (cap_Name <$> items)) as Hnd
    by by rewrite (merge_sort_Permutation cap_le items).
  pose proof (adjacent_duplicate_none _ Hs) as Hdup. rewrite Hnd in Hdup.
  unfold NewCapabilitySnapshot.
  destruct (String.eqb_spec (SessionIDOf revision) "") as [|H1]; [by split; [cbn; naive_solver|]|].
  destruct (Z.eqb_spec (Generation revision) 0) as [|H2]; [by split; [cbn; naive_solver|]|].
  destruct (adjacent_duplicate _) as [name|] eqn:Ea.
  - split; [|done]. cbn. split; [done|]. intros (_ & _ & Hn). apply Hdup in Hn. done.
  - split; [cbn; naive_solver|]. intros s [= <-]. split_and!; [done..|]. intros name c.
    rewrite Capability_Lookup_sorted by (cbn; by rewrite ?Hnd, <-?Hdup). cbn.
    by rewrite (merge_sort_Permutation cap_le items).
Qed.

(** * Operation errors *)

Lemma as_op_shape err op :
  as_op err = Some op → ∃ code message operation ep loc retry effect cause,
    op = EOp code message operation ep loc retry effect cause.
Proof. induction err; cbn; intros; simplify_eq; eauto 10. Qed.

(** Adding context to an error classifies it and never claims more than is
    known: an operation error keeps its code and effect, and any other error
    becomes one of unknown effect whose code says whether the context ended. *)
Lemma FromContext_classifies operation endpointID loc err :
  ∃ e, FromContext operation endpointID loc (Some err) = Some e ∧
    as_op e = Some e ∧
    match as_op err with
    | Some op => op_code e = op_code err ∧ op_effect e = op_effect err
    | None => op_effect e = Some EffectUnknown ∧
        op_code e = Some (if is_canceled err then CodeCanceled
                          else if is_deadline err then CodeTimeout else CodeInternal)
    end.
Proof.
  unfold FromContext. destruct (as_op err) as [op|] eqn:Eop.
  - destruct (as_op_shape _ _ Eop) as (?&?&?&?&?&?&?&?&->).
    eexists; split_and!; [done|done|..]; unfold op_code, op_effect; by rewrite Eop.
  - destruct (is_canceled err); [|destruct (is_deadline err)]; eauto.
Qed.

(** Adding the same context twice is adding it once. *)
Lemma FromContext_idempotent operation endpointID loc err :
  FromContext operation endpointID loc (FromContext operation endpointID loc err) =
  FromContext operation endpointID loc err.
Proof.
  destruct err as [err|]; [|done].
  destruct (FromContext_classifies operation endpointID loc err) as (e & He & Hop & _).
  destruct (as_op_shape _ _ Hop) as (code&message&op&ep&l&retry&effect&cause&->).
  rewrite He. cbn [FromContext as_op].
  assert ((op = "" → operation = "") ∧ (ep = "" → endpointID = "") ∧ (l = None → loc = None))
    as (Ho & He' & Hl).
  { unfold FromContext in He. destruct (as_op err) as [op'|] eqn:Eop.
    - destruct (as_op_shape _ _ Eop) as (c0&m0&o0&p0&l0&r0&f0&k0&->).
      injection He as <- <- <- <- <- <- <- <-.
      destruct (String.eqb_spec o0 ""), (String.eqb_spec p0 ""), l0; subst;
        split_and!; done || congruence.
    - destruct (is_canceled err); [|destruct (is_deadline err)];
        injection He as <- <- <- <- <- <- <- <-; auto. }
  destruct (String.eqb_spec op "") as [-> |_]; [rewrite Ho by done|];
    (destruct (String.eqb_spec ep "") as [-> |_]; [rewrite He' by done|]);
    (destruct l; [|rewrite Hl by done]); done.
Qed.

(** * Concrete inputs *)
Module DomainDemo.
Definition random : list byte :=
  [x00; x01; x02; x03; x04; x05; x06; x07; x08; x09; x0a; x0b; x0c; x0d; xfe; xff].

Example id_example :
  newID (Some (RandomGenerator_New (Some random))) jobIDPrefix =
    Ok "job_aaaqeayeaudaocajbifqydp674".
Proof. vm_compute. reflexivity. Qed.

(** The last letter carries two bits that decoding drops: the parser accepts it
    with any of them, so an identifier is not determined by its bytes. *)
Example id_trailing_bits :
  ParseJobID "job_aaaqeayeaudaocajbifqydp677" = Ok "job_aaaqeayeaudaocajbifqydp677" ∧
  DecodeString "aaaqeayeaudaocajbifqydp677" = DecodeString "aaaqeayeaudaocajbifqydp674".
Proof. vm_compute. split; reflexivity. Qed.

Lemma newID_random_witness :
  newID (Some (RandomGenerator_New (Some random))) "ep_" =
    Ok "ep_aaaqeayeaudaocajbifqydp674" ∧
  ∀ prefix' random', length random' = idRandomBytes →
    newID (Some (RandomGenerator_New (Some random'))) prefix' =
      newID (Some (RandomGenerator_New (Some random))) "ep_" →
    prefix' = "ep_" ∧ random' = random.
Proof.
  destruct (newID_random "ep_" random eq_refl) as [H1 H2].
  split; [vm_compute; reflexivity|exact H2].
Defined.
End DomainDemo.
