(* ===== verification/Utf8.v ===== *)
(** UTF-8 as package unicode/utf8 defines it: a string of bytes is valid when it
    is a concatenation of encoded runes.  Used by the command lexer and the key
    map. *)
From S2P Require Import Prelude.

Definition in_range (lo hi : Z) (b : byte) : bool :=
  (lo <=? Z_of_byte b) && (Z_of_byte b <=? hi).
Definition is_cont : byte → bool := in_range 128 191.
Definition low6 (b : byte) : Z := Z.land (Z_of_byte b) 63.

(** The bytes allowed second after a given first byte exclude overlong forms,
    surrogates and values above U+10FFFF. *)
Definition second3 (b0 b1 : byte) : bool :=
  if Z_of_byte b0 =? 224 then in_range 160 191 b1 else
  if Z_of_byte b0 =? 237 then in_range 128 159 b1 else is_cont b1.
Definition second4 (b0 b1 : byte) : bool :=
  if Z_of_byte b0 =? 240 then in_range 144 191 b1 else
  if Z_of_byte b0 =? 244 then in_range 128 143 b1 else is_cont b1.

(** The runes of a valid string. *)
Fixpoint utf8_decode (s : list byte) : option (list Z) :=
  match s with
  | [] => Some []
  | b0 :: s1 =>
    let z0 := Z_of_byte b0 in
    if z0 <? 128 then cons z0 <$> utf8_decode s1 else
    match s1 with
    | [] => None
    | b1 :: s2 =>
      if in_range 194 223 b0 then
        if is_cont b1
        then cons (Z.lor (Z.shiftl (Z.land z0 31) 6) (low6 b1)) <$> utf8_decode s2
        else None
      else
      match s2 with
      | [] => None
      | b2 :: s3 =>
        if in_range 224 239 b0 then
          if second3 b0 b1 && is_cont b2
          then cons (Z.lor (Z.lor (Z.shiftl (Z.land z0 15) 12) (Z.shiftl (low6 b1) 6))
                       (low6 b2)) <$> utf8_decode s3
          else None
        else
        match s3 with
        | [] => None
        | b3 :: s4 =>
          if in_range 240 244 b0 && (second4 b0 b1 && is_cont b2 && is_cont b3)
          then cons (Z.lor (Z.lor (Z.lor (Z.shiftl (Z.land z0 7) 18) (Z.shiftl (low6 b1) 12))
                       (Z.shiftl (low6 b2) 6)) (low6 b3)) <$> utf8_decode s4
          else None
        end
      end
    end
  end.

(** [utf8.ValidString]. *)
Definition ValidString (s : list byte) : bool := bool_decide (is_Some (utf8_decode s)).

(** The runes a range loop sees: a byte that starts no encoding is U+FFFD, one
    byte wide. *)
Definition RuneError : Z := 65533.
Fixpoint runes (s : list byte) : list Z :=
  match s with
  | [] => []
  | b0 :: s1 =>
    let z0 := Z_of_byte b0 in
    if z0 <? 128 then z0 :: runes s1 else
    match s1 with
    | b1 :: s2 =>
      if in_range 194 223 b0 && is_cont b1
      then Z.lor (Z.shiftl (Z.land z0 31) 6) (low6 b1) :: runes s2 else
      match s2 with
      | b2 :: s3 =>
        if in_range 224 239 b0 && second3 b0 b1 && is_cont b2
        then Z.lor (Z.lor (Z.shiftl (Z.land z0 15) 12) (Z.shiftl (low6 b1) 6)) (low6 b2) :: runes s3
        else
        match s3 with
        | b3 :: s4 =>
          if in_range 240 244 b0 && second4 b0 b1 && is_cont b2 && is_cont b3
          then Z.lor (Z.lor (Z.lor (Z.shiftl (Z.land z0 7) 18) (Z.shiftl (low6 b1) 12))
                        (Z.shiftl (low6 b2) 6)) (low6 b3) :: runes s4
          else RuneError :: runes s1
        | [] => RuneError :: runes s1
        end
      | [] => RuneError :: runes s1
      end
    | [] => RuneError :: runes s1
    end
  end.

(** * Facts *)

(** A rune's encoding is one ASCII byte or several bytes above ASCII. *)
Definition is_ascii (b : byte) : bool := Z_of_byte b <? 128.

Lemma utf8_decode_ind (P : list byte → Prop) :
  P [] →
  (∀ b0 s, is_ascii b0 = true → P s → P (b0 :: s)) →
  (∀ c s, c ≠ [] → Forall (λ b, is_ascii b = false) c →
     (∀ t, ∃ r, utf8_decode (c ++ t) = cons r <$> utf8_decode t) →
     P s → P (c ++ s)) →
  ∀ s, is_Some (utf8_decode s) → P s.
Proof.
  intros Hnil Hasc Hmul s. induction s as [s IH] using (induction_ltof1 _ length).
  unfold ltof in IH. intros Hs.
  destruct s as [|b0 s1]; [done|]. cbn [utf8_decode] in Hs.
  assert (∀ lo hi b, 128 <= lo → in_range lo hi b = true → is_ascii b = false) as Hna.
  { intros lo hi b Hlo [? ?]%andb_true_iff. unfold is_ascii. lia. }
  assert (∀ b, is_cont b = true → is_ascii b = false) as Hnc
    by (intros b; apply Hna; lia).
  destruct (Z.ltb_spec (Z_of_byte b0) 128) as [H0|H0].
  { apply Hasc; [unfold is_ascii; lia|]. apply IH; [cbn; lia|].
    by destruct (utf8_decode s1); [|destruct Hs]. }
  assert (is_ascii b0 = false) as Hb0 by (unfold is_ascii; lia).
  destruct s1 as [|b1 s2]; [by destruct Hs|].
  destruct (in_range 194 223 b0) eqn:E2.
  { destruct (is_cont b1) eqn:E1; [|by destruct Hs].
    apply (Hmul [b0; b1]); [done|by repeat constructor; auto| |].
    - intros t. eexists. cbn [app utf8_decode]. rewrite (proj2 (Z.ltb_ge _ _)) by lia.
      by rewrite E2, E1.
    - apply IH; [cbn; lia|]. by destruct (utf8_decode s2); [|destruct Hs]. }
  destruct s2 as [|b2 s3]; [by destruct Hs|].
  destruct (in_range 224 239 b0) eqn:E3.
  { destruct (second3 b0 b1 && is_cont b2) eqn:E1; [|by destruct Hs].
    apply (Hmul [b0; b1; b2]); [done| | |].
    - apply andb_true_iff in E1 as [Hs3 ?]. repeat constructor; [done| |auto].
      unfold second3, is_cont in Hs3. repeat case_match; (eapply Hna; [|exact Hs3]); lia.
    - intros t. eexists. cbn [app utf8_decode]. rewrite (proj2 (Z.ltb_ge _ _)) by lia.
      by rewrite E2, E3, E1.
    - apply IH; [cbn; lia|]. by destruct (utf8_decode s3); [|destruct Hs]. }
  destruct s3 as [|b3 s4]; [by destruct Hs|].
  destruct (_ && (_ && _)) eqn:E4; [|by destruct Hs].
  apply (Hmul [b0; b1; b2; b3]); [done| | |].
  - apply andb_true_iff in E4 as [_ [[Hs4 ?]%andb_true_iff ?]%andb_true_iff].
    repeat constructor; [done| |auto..].
    unfold second4, is_cont in Hs4. repeat case_match; (eapply Hna; [|exact Hs4]); lia.
  - intros t. eexists. cbn [app utf8_decode]. rewrite (proj2 (Z.ltb_ge _ _)) by lia.
    by rewrite E2, E3, E4.
  - apply IH; [cbn; lia|]. by destruct (utf8_decode s4); [|destruct Hs].
Qed.

Lemma utf8_app s t :
  is_Some (utf8_decode s) → is_Some (utf8_decode (s ++ t)) ↔ is_Some (utf8_decode t).
Proof.
  intros Hs; revert s Hs. apply (utf8_decode_ind (λ s,
    is_Some (utf8_decode (s ++ t)) ↔ is_Some (utf8_decode t))).
  - done.
  - intros b s Hb IH. cbn [app utf8_decode]. unfold is_ascii in Hb. rewrite Hb.
    by rewrite fmap_is_Some.
  - intros c s _ _ Hc IH. rewrite <-app_assoc. destruct (Hc (s ++ t)) as [r ->].
    by rewrite fmap_is_Some.
Qed.

(** An ASCII byte of a valid string is a rune of its own. *)
Lemma utf8_ascii_split s b t :
  is_ascii b = true → is_Some (utf8_decode (s ++ b :: t)) →
  is_Some (utf8_decode s) ∧ is_Some (utf8_decode t).
Proof.
  intros Hb Hs. remember (s ++ b :: t) as u eqn:E. revert s E.
  enough (is_Some (utf8_decode u) ∧ ∀ s, u = s ++ b :: t →
    is_Some (utf8_decode s) ∧ is_Some (utf8_decode t)) as [_ H] by exact H.
  revert u Hs. apply (utf8_decode_ind (λ u, is_Some (utf8_decode u) ∧ ∀ s, u = s ++ b :: t →
    is_Some (utf8_decode s) ∧ is_Some (utf8_decode t))).
  - split; [done|]. intros s E. by apply app_cons_not_nil in E.
  - intros b0 u Hb0 [Hu IH]. unfold is_ascii in Hb0. split.
    { cbn [utf8_decode]. by rewrite Hb0, fmap_is_Some. }
    intros [|b1 s] E; injection E as -> E; [by subst u|].
    destruct (IH s E) as [Hs Ht]. split; [|done]. cbn [utf8_decode].
    by rewrite Hb0, fmap_is_Some.
  - intros c u _ Hc Hdec [Hu IH]. split.
    { destruct (Hdec u) as [r ->]. by rewrite fmap_is_Some. }
    intros s [k [[-> Eu] | [-> Eu]]]%app_eq_app.
    + destruct k as [|b' k]; cbn in Eu.
      * rewrite app_nil_r in *. destruct (IH [] (eq_sym Eu)) as [_ Ht]. split; [|done].
        destruct (Hdec []) as [r Hr]. rewrite app_nil_r in Hr. by rewrite Hr.
      * injection Eu as <- Eu. exfalso. rewrite Forall_app, Forall_cons in Hc.
        destruct Hc as (_ & Hc & _). congruence.
    + destruct (IH k Eu) as [Hk Ht]. split; [|done]. destruct (Hdec k) as [r ->].
      by rewrite fmap_is_Some.
Qed.

Lemma ValidString_spec s : ValidString s = true ↔ is_Some (utf8_decode s).
Proof. apply bool_decide_eq_true. Qed.

(** Dropping or adding an ASCII byte at any place keeps a string valid. *)
Lemma ValidString_ascii s b t :
  is_ascii b = true → ValidString (s ++ b :: t) = true ↔
  ValidString s = true ∧ ValidString t = true.
Proof.
  intros Hb. rewrite !ValidString_spec. split; [by apply utf8_ascii_split|].
  intros [Hs Ht]. apply utf8_app; [done|]. cbn [utf8_decode]. unfold is_ascii in Hb.
  by rewrite Hb, fmap_is_Some.
Qed.

Lemma ValidString_app s t :
  ValidString s = true → ValidString t = true → ValidString (s ++ t) = true.
Proof. rewrite !ValidString_spec. intros Hs Ht. by apply utf8_app. Qed.
