(* ===== verification/Keymap.v ===== *)
(** The key map (src/internal/keymap/keymap.go and effective.go): which input
    runs which action in the normal and in the visual context.

    A Go map is iterated in no particular order: [range_map] is the order of one
    iteration, any permutation of the map's pairs, and nothing that is proved
    depends on it.  A [Map] holds a map of maps; the map of a context is changed
    in place while overrides are applied, and is reachable from there only. *)
From stdpp Require Import pretty.
From S2P Require Import Prelude Utf8.

Definition ContextNormal := "normal".
Definition ContextVisual := "visual".

Definition ActionParent := "parent".
Definition ActionDown := "down".
Definition ActionUp := "up".
Definition ActionBottom := "bottom".
Definition ActionOpen := "open".
Definition ActionVisual := "visual".
Definition ActionVisualLine := "visual_line".
Definition ActionMark := "mark".
Definition ActionFilter := "filter".
Definition ActionFilenameSearch := "filename_search".
Definition ActionSave := "save".
Definition ActionSort := "sort".
Definition ActionToggleHidden := "toggle_hidden".
Definition ActionRefresh := "refresh".
Definition ActionPath := "path".
Definition ActionEndpoint := "endpoint".
Definition ActionCopy := "copy".
Definition ActionCut := "cut".
Definition ActionPaste := "paste".
Definition ActionDelete := "delete".
Definition ActionRename := "rename".
Definition ActionRepeat := "repeat".
Definition ActionEdit := "edit".
Definition ActionOpenExternal := "open_external".
Definition ActionEditRecovery := "edit_recovery".
Definition ActionCommand := "command".
Definition ActionPreviewDrawer := "preview_drawer".
Definition ActionJobs := "jobs".
Definition ActionLogDrawer := "log_drawer".
Definition ActionJobPause := "job_pause".
Definition ActionJobResume := "job_resume".
Definition ActionJobCancel := "job_cancel".
Definition ActionConflictOverwrite := "conflict_overwrite".
Definition ActionConflictSkip := "conflict_skip".
Definition ActionConflictAutoRename := "conflict_auto_rename".
Definition ActionConflictOverwriteAll := "conflict_overwrite_all".
Definition ActionConflictSkipAll := "conflict_skip_all".
Definition ActionConflictAutoRenameAll := "conflict_auto_rename_all".

Record Override := mkOverride { ov_Context : string; ov_Input : string; ov_Action : string }.
Record binding := mkKeyBinding { input : string; action : string; remappable : bool }.

Definition defaults : list binding :=
  [mkKeyBinding "A" ActionConflictAutoRenameAll false;
   mkKeyBinding "C" ActionJobCancel false;
   mkKeyBinding "D" ActionDelete false;
   mkKeyBinding "E" ActionEditRecovery true;
   mkKeyBinding "G" ActionBottom false;
   mkKeyBinding "H" ActionToggleHidden true;
   mkKeyBinding "J" ActionJobs true;
   mkKeyBinding "K" ActionPreviewDrawer true;
   mkKeyBinding "L" ActionLogDrawer true;
   mkKeyBinding "P" ActionJobPause false;
   mkKeyBinding "R" ActionRefresh true;
   mkKeyBinding "S" ActionSave true;
   mkKeyBinding "U" ActionJobResume false;
   mkKeyBinding "V" ActionVisualLine true;
   mkKeyBinding "W" ActionConflictOverwriteAll false;
   mkKeyBinding "X" ActionConflictSkipAll false;
   mkKeyBinding "!" ActionCommand false;
   mkKeyBinding "." ActionRepeat false;
   mkKeyBinding "/" ActionFilter true;
   mkKeyBinding "a" ActionConflictAutoRename false;
   mkKeyBinding "c" ActionEndpoint true;
   mkKeyBinding "d" ActionCut true;
   mkKeyBinding "e" ActionEdit true;
   mkKeyBinding "f" ActionFilenameSearch true;
   mkKeyBinding "g" ActionPath false;
   mkKeyBinding "h" ActionParent true;
   mkKeyBinding "j" ActionDown true;
   mkKeyBinding "k" ActionUp true;
   mkKeyBinding "l" ActionOpen true;
   mkKeyBinding "o" ActionOpenExternal true;
   mkKeyBinding "p" ActionPaste true;
   mkKeyBinding "r" ActionRename true;
   mkKeyBinding "s" ActionSort true;
   mkKeyBinding "v" ActionVisual true;
   mkKeyBinding "w" ActionConflictOverwrite false;
   mkKeyBinding "x" ActionConflictSkip false;
   mkKeyBinding "y" ActionCopy true;
   mkKeyBinding " " ActionMark true].

Abbreviation context_map := (gmap string string) (only parsing).
Record Map := mkMap { contexts : gmap string context_map }.

(** One constructor per message, with the position of the override. *)
Inductive InputError := NotOneRune | ControlRune | CountPrefix | ReservedInput.
Inductive KeymapError :=
| ErrContext (index : nat) (context : string)
| ErrActionUnknown (index : nat) (action : string)
| ErrActionReserved (index : nat) (action : string)
| ErrQuitInput (index : nat) (input : string)
| ErrInput (index : nat) (input : string) (reason : InputError)
| ErrDuplicate (index : nat) (action context : string)
| ErrConflict (index : nat) (input current : string)
| ErrEffective (err : KeymapError).

Definition displayInput (input : string) : string :=
  if String.eqb input " " then "<space>" else input.

Definition defaultForAction (a : string) : option binding :=
  snd <$> list_find (λ item, action item = a) defaults.
Definition defaultForInput (i : string) : option binding :=
  snd <$> list_find (λ item, input item = i) defaults.

Definition validateInput (i : string) : option InputError :=
  let bytes := String.list_byte_of_string i in
  let rs := runes bytes in
  if negb (ValidString bytes) || negb (bool_decide (length rs = 1%nat)) then Some NotOneRune else
  let r := default RuneError (head rs) in
  if (r <? 32) && negb (r =? 32) || (r =? 127) then Some ControlRune else
  if (48 <=? r) && (r <=? 57) then Some CountPrefix else
  match defaultForInput i with
  | Some existing => if remappable existing then None else Some ReservedInput
  | None => None
  end.

Definition defaultContext : context_map :=
  foldl (λ result item, <[input item := action item]> result) ∅ defaults.

(** The state of the loop of [New]. *)
Record building := mkBuilding { b_contexts : gmap string context_map; b_seen : gset string }.
Definition NUL_string : string := String "000"%char "".

Class RangeOrder := range_map : context_map → list (string * string).
Class RangeLaw `{RangeOrder} := range_perm m : range_map m ≡ₚ map_to_list m.

Section Keymap.
Context `{RangeOrder}.

Definition unbind (a : string) (mapping : context_map) : context_map :=
  match list_find (λ p, p.2 = a) (range_map mapping) with
  | Some (_, (i, _)) => delete i mapping
  | None => mapping
  end.

(** One turn of the loop of [New]. *)
Definition apply_override (b : building) (item : nat * Override) : result KeymapError building :=
  let '(index, override) := item in
  match b_contexts b !! ov_Context override with
  | None => Err (ErrContext index (ov_Context override))
  | Some mapping =>
    match defaultForAction (ov_Action override) with
    | None => Err (ErrActionUnknown index (ov_Action override))
    | Some metadata =>
      if negb (remappable metadata) then Err (ErrActionReserved index (ov_Action override)) else
      if String.eqb (ov_Context override) ContextNormal && String.eqb (ov_Input override) "q"
      then Err (ErrQuitInput index (ov_Input override)) else
      match validateInput (ov_Input override) with
      | Some reason => Err (ErrInput index (displayInput (ov_Input override)) reason)
      | None =>
        let identity := ov_Context override +:+ NUL_string +:+ ov_Action override in
        if bool_decide (identity ∈ b_seen b)
        then Err (ErrDuplicate index (ov_Action override) (ov_Context override)) else
        let seen := {[identity]} ∪ b_seen b in
        let occupied := mapping !! ov_Input override in
        if bool_decide (is_Some occupied) && negb (bool_decide (occupied = Some (ov_Action override)))
        then Err (ErrConflict index (displayInput (ov_Input override)) (default "" occupied)) else
        let mapping := <[ov_Input override := ov_Action override]> (unbind (ov_Action override) mapping) in
        Ok (mkBuilding (<[ov_Context override := mapping]> (b_contexts b)) seen)
      end
    end
  end.

Definition New (overrides : list Override) : result KeymapError Map :=
  let normal := defaultContext in
  b ← for_each apply_override
        (mkBuilding (<[ContextNormal := normal]> {[ContextVisual := normal]}) ∅)
        (imap pair overrides);
  Ok (mkMap (b_contexts b)).

(** [None] is a panic. *)
Definition Default : option Map := match New [] with Ok mapping => Some mapping | Err _ => None end.

Definition Lookup (m : Map) (context i : string) : option string :=
  mapping ← contexts m !! context; mapping !! i.

(** The effective input assigned to one action in a context. *)
Definition InputForAction (m : Map) (context target : string) : option string :=
  mapping ← contexts m !! context;
  match list_find (λ p, p.2 = target) (range_map mapping) with
  | Some (_, (i, _)) => Some i
  | None => None
  end.

(** * effective.go, but for the JSON that is written *)
Record EffectiveBinding := mkEffective {
  eff_Context : string; eff_Input : string; eff_Action : string; eff_DefaultInput : string;
  eff_Remappable : bool; eff_Overridden : bool;
}.
Definition WriteEffective (overrides : list Override) : result KeymapError (list EffectiveBinding) :=
  match New overrides with
  | Err e => Err (ErrEffective e)
  | Ok mapping =>
    Ok (context ← [ContextNormal; ContextVisual];
        item ← defaults;
        let i := default "" (InputForAction mapping context (action item)) in
        [mkEffective context i (action item) (input item) (remappable item)
           (negb (String.eqb i (input item)))])
  end.
End Keymap.

Definition DefaultSnapshotText : string :=
  String.concat (String "010"%char "") ((λ item,
    "normal " +:+ displayInput (input item) +:+ " " +:+ action item +:+ " " +:+
    (if remappable item then "remappable" else "reserved")) <$> defaults).

(** * What overrides leave

    An input runs an action if an override says so, or if none moves the action
    and it is the action's default. *)
Definition bound (overrides : list Override) (c i a : string) : Prop :=
  mkOverride c i a ∈ overrides ∨
  (∀ j, mkOverride c j a ∉ overrides) ∧ ∃ r, mkKeyBinding i a r ∈ defaults.

#[export] Instance binding_eq_dec : EqDecision binding.
Proof. solve_decision. Defined.
#[export] Instance Override_eq_dec : EqDecision Override.
Proof. solve_decision. Defined.

Lemma default_inputs_NoDup : NoDup (input <$> defaults).
Proof. by apply (bool_decide_unpack _); vm_compute. Qed.
Lemma default_actions_NoDup : NoDup (action <$> defaults).
Proof. by apply (bool_decide_unpack _); vm_compute. Qed.

Lemma NoDup_fmap_inj {A B} (f : A → B) l x y :
  NoDup (f <$> l) → x ∈ l → y ∈ l → f x = f y → x = y.
Proof.
  intros Hl [i Hi]%list_elem_of_lookup [j Hj]%list_elem_of_lookup E.
  assert (i = j) as ->; [|congruence].
  apply (NoDup_lookup _ i j (f x) Hl); rewrite list_lookup_fmap, ?Hi, ?Hj; cbn; congruence.
Qed.

Lemma default_same_action i j a r s :
  mkKeyBinding i a r ∈ defaults → mkKeyBinding j a s ∈ defaults → i = j.
Proof.
  intros Hi Hj. by injection (NoDup_fmap_inj action _ _ _ default_actions_NoDup Hi Hj eq_refl).
Qed.

Lemma defaultContext_spec i a :
  defaultContext !! i = Some a ↔ ∃ r, mkKeyBinding i a r ∈ defaults.
Proof.
  assert (defaultContext = list_to_map ((λ b, (input b, action b)) <$> defaults)) as ->
    by by vm_compute.
  rewrite <-elem_of_list_to_map.
  - rewrite list_elem_of_fmap. split.
    + intros ([i' a' r] & [= -> ->] & Hr). by exists r.
    + intros [r Hr]. by exists (mkKeyBinding i a r).
  - rewrite <-list_fmap_compose. apply default_inputs_NoDup.
Qed.

Lemma defaultForAction_spec a item :
  defaultForAction a = Some item → item ∈ defaults ∧ action item = a.
Proof.
  unfold defaultForAction. intros ([n x] & Hf & ->)%fmap_Some.
  apply list_find_Some in Hf as (Hn & ? & _). split; [|done]. by eapply list_elem_of_lookup_2.
Qed.
Lemma defaultForAction_is_Some a i r : mkKeyBinding i a r ∈ defaults → is_Some (defaultForAction a).
Proof.
  intros Hr. unfold defaultForAction. rewrite fmap_is_Some.
  by apply (list_find_elem_of _ defaults (mkKeyBinding i a r)).
Qed.

Lemma identity_inj c a d b :
  c ∈ [ContextNormal; ContextVisual] → d ∈ [ContextNormal; ContextVisual] →
  c +:+ NUL_string +:+ a = d +:+ NUL_string +:+ b → c = d ∧ a = b.
Proof.
  unfold NUL_string, ContextNormal, ContextVisual.
  rewrite !elem_of_cons. intros [->|[->|?%elem_of_nil]] [->|[->|?%elem_of_nil]] E; try done;
    cbn in E; by simplify_eq.
Qed.

Section KeymapFacts.
Context `{RangeLaw}.

Lemma range_elem (m : context_map) i a : (i, a) ∈ range_map m ↔ m !! i = Some a.
Proof. by rewrite range_perm, elem_of_map_to_list. Qed.

(** The iteration finds an input of the action if there is one, and only one of
    the action's. *)
Lemma range_find (m : context_map) a :
  match list_find (λ p, p.2 = a) (range_map m) with
  | Some (_, (i, b)) => b = a ∧ m !! i = Some a
  | None => ∀ i, m !! i ≠ Some a
  end.
Proof.
  destruct (list_find _ _) as [[n [i b]]|] eqn:E.
  - apply list_find_Some in E as (Hn & E & _). cbn in E. subst b. split; [done|].
    apply range_elem. by eapply list_elem_of_lookup_2.
  - intros i Hi%range_elem. apply list_find_None in E. rewrite Forall_forall in E. by apply (E _ Hi).
Qed.

Lemma unbind_lookup a (m : context_map) i b :
  (∀ j k, m !! j = Some a → m !! k = Some a → j = k) →
  unbind a m !! i = Some b ↔ m !! i = Some b ∧ b ≠ a.
Proof.
  intros Hinj. unfold unbind. pose proof (range_find m a) as Hf.
  destruct (list_find _ _) as [[n [j a']]|].
  - destruct Hf as [-> Hj]. destruct (decide (i = j)) as [->|Hne].
    + rewrite lookup_delete_eq, Hj. naive_solver.
    + rewrite lookup_delete_ne by done. split; [|tauto]. intros Hi. split; [done|].
      intros ->. by apply Hne, Hinj.
  - split; [|tauto]. intros Hi. split; [done|]. intros ->. by apply (Hf i).
Qed.

(** What holds of the loop of [New] after some of the overrides. *)
Record built (done : list Override) (b : building) : Prop := {
  built_dom c : is_Some (b_contexts b !! c) ↔ c ∈ [ContextNormal; ContextVisual];
  built_map c m i a : b_contexts b !! c = Some m → m !! i = Some a ↔ bound done c i a;
  built_seen c a : c ∈ [ContextNormal; ContextVisual] →
    c +:+ NUL_string +:+ a ∈ b_seen b ↔ ∃ i, mkOverride c i a ∈ done;
  built_once c i j a : mkOverride c i a ∈ done → mkOverride c j a ∈ done → i = j;
  built_remappable c i a : mkOverride c i a ∈ done →
    c ∈ [ContextNormal; ContextVisual] ∧
    ∃ j, mkKeyBinding j a true ∈ defaults;
}.

Lemma bound_inj done b c i j a :
  built done b → bound done c i a → bound done c j a → i = j.
Proof.
  intros Hb [Hi|[Hn [r Hi]]] [Hj|[Hm [s Hj]]].
  - by eapply built_once.
  - by apply Hm in Hi.
  - by apply Hn in Hj.
  - by eapply default_same_action.
Qed.

Lemma apply_override_built done b index o b' :
  built done b → apply_override b (index, o) = Ok b' → built (done ++ [o]) b'.
Proof.
  intros Hb. destruct o as [c i a]. unfold apply_override.
  destruct (b_contexts b !! _) as [m|] eqn:Em; [|done].
  destruct (defaultForAction _) as [[d a' r]|] eqn:Ed; [|done].
  apply defaultForAction_spec in Ed as [Hd Ea]. cbn in *. subst a'.
  destruct r; cbn; [|done]. destruct (_ && _); [done|].
  destruct (validateInput i); [done|]. case_bool_decide as Hseen; [done|].
  destruct (_ && _) eqn:Eo; [done|]. intros [= <-].
  assert (c ∈ [ContextNormal; ContextVisual]) as Hc by by eapply built_dom.
  assert (∀ j, mkOverride c j a ∉ done) as Hfresh.
  { intros j Hj. apply Hseen. rewrite (built_seen done b Hb) by done. by exists j. }
  assert (∀ b0, m !! i = Some b0 → b0 = a) as Hfree.
  { intros b0 E. rewrite E in Eo. destruct (decide (b0 = a)) as [|Hne]; [done|].
    rewrite !bool_decide_true, bool_decide_false in Eo by (done || congruence). done. }
  assert (∀ e x y, mkOverride x y e ∈ done ++ [mkOverride c i a] ↔
    mkOverride x y e ∈ done ∨ x = c ∧ y = i ∧ e = a) as Hin.
  { intros e x y. rewrite elem_of_app, list_elem_of_singleton. naive_solver. }
  split; cbn.
  - intros x. destruct (decide (x = c)) as [->|Hne].
    + by rewrite lookup_insert_eq.
    + rewrite lookup_insert_ne by done. apply (built_dom done b Hb).
  - intros x m' y e. destruct (decide (x = c)) as [->|Hne].
    + rewrite lookup_insert_eq. intros [= <-].
      assert (∀ j k, m !! j = Some a → m !! k = Some a → j = k) as Hinj.
      { intros j k Hj%(built_map done b Hb c m j a Em) Hk%(built_map done b Hb c m k a Em).
        by eapply bound_inj. }
      unfold bound. setoid_rewrite Hin. destruct (decide (y = i)) as [->|Hyi].
      * rewrite lookup_insert_eq. split; [intros [= <-]; by left; right|].
        intros [[Hdone|(_ & _ & ->)]|[Hn [r Hr]]]; [|done|].
        -- f_equal. symmetry. apply Hfree. rewrite (built_map done b Hb c m i e Em). by left.
        -- f_equal. symmetry. apply Hfree. rewrite (built_map done b Hb c m i e Em). right.
           split; [|by exists r]. intros j Hj. apply (Hn j). by left.
      * rewrite lookup_insert_ne, unbind_lookup by done.
        rewrite (built_map done b Hb c m y e Em). unfold bound. split.
        -- intros [[Hy|[Hn Hr]] He]; [by left; left|]. right. split; [|done].
           intros j [Hj|(_ & _ & ->)]; [by apply (Hn j)|done].
        -- intros [[Hy|(_ & -> & _)]|[Hn Hr]]; [|done|].
           ++ split; [by left|]. intros ->. by apply (Hfresh y).
           ++ split; [|intros ->; apply (Hn i); by right].
              right. split; [|done]. intros j Hj. apply (Hn j). by left.
    + rewrite lookup_insert_ne by done. intros Hx. rewrite (built_map done b Hb x m' y e Hx).
      unfold bound. setoid_rewrite Hin. naive_solver.
  - intros x e Hx. rewrite elem_of_union, elem_of_singleton, (built_seen done b Hb) by done.
    setoid_rewrite Hin. split.
    + intros [E|[y Hy]]; [|eauto]. apply identity_inj in E as [-> ->]; eauto 6.
    + intros [y [Hy|(-> & -> & ->)]]; eauto.
  - intros x y z e. rewrite !Hin.
    intros [Hy|(-> & -> & ->)] [Hz|(E1 & E2 & E3)]; subst; try done;
      [by eapply built_once|by apply Hfresh in Hy|by apply Hfresh in Hz].
  - intros x y e. rewrite Hin. intros [Hy|(-> & -> & ->)]; [by eapply built_remappable|].
    split; [done|by exists d].
Qed.

Lemma built_start :
  built [] (mkBuilding (<[ContextNormal := defaultContext]> {[ContextVisual := defaultContext]}) ∅).
Proof.
  split; cbn [b_contexts b_seen].
  - intros c. rewrite !elem_of_cons, elem_of_nil, lookup_insert_is_Some, lookup_singleton_is_Some.
    destruct (decide (c = ContextNormal)); naive_solver.
  - intros c m i a Hm. assert (m = defaultContext) as ->.
    { apply lookup_insert_Some in Hm as [[_ ->]|[_ [_ ->]%lookup_singleton_Some]]; done. }
    rewrite defaultContext_spec. unfold bound. split.
    + intros Hr. right. split; [|done]. by intros j ?%elem_of_nil.
    + by intros [?%elem_of_nil|[_ ?]].
  - intros c a _. split; [by intros ?%elem_of_empty|by intros [i ?%elem_of_nil]].
  - by intros c i j a ?%elem_of_nil.
  - by intros c i a ?%elem_of_nil.
Qed.

Lemma New_built overrides m : New overrides = Ok m → ∃ b, m = mkMap (b_contexts b) ∧ built overrides b.
Proof.
  unfold New. intros (b & Hfor & [= <-])%bind_ok. exists b. split; [done|].
  rewrite <-(app_nil_l overrides). revert Hfor.
  assert (∀ done b0 n os, built done b0 →
    for_each apply_override b0 (imap (λ k, pair (n + k)%nat) os) = Ok b → built (done ++ os) b) as Hloop.
  { intros done b0 n os. revert done b0 n. induction os as [|o os IH]; intros done b0 n Hb;
      cbn [imap for_each].
    { intros [= <-]. by rewrite app_nil_r. }
    destruct (apply_override b0 ((n + 0)%nat, o)) as [b1|] eqn:E; [|done].
    apply (apply_override_built done) in E; [|done]. intros Hrest.
    replace (done ++ o :: os) with ((done ++ [o]) ++ os) by by rewrite <-app_assoc.
    apply (IH _ b1 (S n)); [done|]. rewrite <-Hrest. f_equal. apply imap_ext. intros k x _. cbn.
    f_equal. lia. }
  apply (Hloop [] _ 0%nat), built_start.
Qed.

(** C33: The overrides that are accepted are obeyed, and nothing else changes.  In
    either context an input runs an action exactly if an override binds it to the
    action, or no override moves the action and the input is its default; so an
    action has exactly one input and never loses it, a reserved action keeps its
    own, and what is displayed as an action's input runs it. *)
Theorem overrides_obeyed (overrides : list Override) (m : Map) (c : string)
    (Hnew : New overrides = Ok m) (Hc : c ∈ [ContextNormal; ContextVisual]) :
  (∀ i a, Lookup m c i = Some a ↔ bound overrides c i a) ∧
  (∀ i j a, Lookup m c i = Some a → Lookup m c j = Some a → i = j) ∧
  (∀ i a, InputForAction m c a = Some i ↔ Lookup m c i = Some a) ∧
  (∀ item, item ∈ defaults → ∃ i, Lookup m c i = Some (action item) ∧
    (remappable item = false → i = input item)).
Proof.
  apply New_built in Hnew as (b & -> & Hb).
  apply (built_dom _ _ Hb) in Hc as [mc Hmc].
  assert (∀ i a, Lookup (mkMap (b_contexts b)) c i = Some a ↔ bound overrides c i a) as Hl.
  { intros i a. unfold Lookup. cbn. rewrite Hmc. cbn. by apply (built_map _ _ Hb). }
  assert (∀ i j a, Lookup (mkMap (b_contexts b)) c i = Some a →
    Lookup (mkMap (b_contexts b)) c j = Some a → i = j) as Hinj.
  { intros i j a. rewrite !Hl. apply (bound_inj _ _ _ _ _ _ Hb). }
  split_and!; [done|done| |].
  - intros i a. unfold InputForAction. cbn. rewrite Hmc. cbn. pose proof (range_find mc a) as Hf.
    assert (∀ j, Lookup (mkMap (b_contexts b)) c j = mc !! j) as Hlm
      by (intros j; unfold Lookup; cbn; by rewrite Hmc).
    destruct (list_find _ _) as [[n [j a']]|]; rewrite Hlm.
    + destruct Hf as [-> Hj]. split; [congruence|]. intros Hi. f_equal.
      apply (Hinj j i a); by rewrite Hlm.
    + split; [done|]. by intros ?%Hf.
  - intros [d a r] Hd. cbn. setoid_rewrite Hl.
    destruct (list_find (λ o, ov_Context o = c ∧ ov_Action o = a) overrides) as [[n [c' j a']]|] eqn:E.
    + apply list_find_Some in E as (Hn & [Ec Ea] & _). cbn in Ec, Ea. subst c' a'.
      apply list_elem_of_lookup_2 in Hn. exists j. split; [by left|]. intros ->.
      apply (built_remappable _ _ Hb) in Hn as (_ & k & Hk).
      by injection (NoDup_fmap_inj action _ _ _ default_actions_NoDup Hd Hk eq_refl).
    + exists d. split; [|done]. right. split; [|by exists r]. intros j Hj.
      apply list_find_None in E. rewrite Forall_forall in E. by apply (E _ Hj).
Qed.
End KeymapFacts.

(** * A map in use *)
Module KeymapDemo.
#[local] Instance sorted_range : RangeOrder := λ m, map_to_list m.
#[local] Instance sorted_range_law : RangeLaw.
Proof. by intros m. Qed.
(** In the normal context j and k trade places, and the copy moves to a letter of
    two bytes. *)
Definition swapped : list Override :=
  [mkOverride ContextNormal "u" ActionDown; mkOverride ContextNormal "j" ActionUp;
   mkOverride ContextNormal "k" ActionEdit; mkOverride ContextVisual "é" ActionCopy].
Definition swapped_map : Map := match New swapped with Ok m => m | Err _ => mkMap ∅ end.

Example trade_in_order :
  New [mkOverride ContextNormal "k" ActionDown] = Err (ErrConflict 0 "k" ActionUp).
Proof. by vm_compute. Qed.
Example quit_is_fixed : New [mkOverride ContextNormal "q" ActionDown] = Err (ErrQuitInput 0 "q").
Proof. by vm_compute. Qed.

Lemma overrides_obeyed_witness :
  New swapped = Ok swapped_map ∧ Lookup swapped_map ContextNormal "j" = Some ActionUp ∧
  Lookup swapped_map ContextVisual "j" = Some ActionDown ∧
  InputForAction swapped_map ContextVisual ActionCopy = Some "é".
Proof.
  assert (New swapped = Ok swapped_map) as E by by vm_compute.
  pose proof (overrides_obeyed swapped swapped_map ContextNormal E ltac:(by left)) as (Hn & _).
  pose proof (overrides_obeyed swapped swapped_map ContextVisual E ltac:(by right; left))
    as (Hv & _ & Hi & _).
  split_and!; [done| | |].
  - apply Hn. left. unfold swapped. by right; left.
  - apply Hv. right. split; [|by apply defaultContext_spec; vm_compute].
    unfold swapped. intros j. rewrite !elem_of_cons, elem_of_nil.
    by intros [[=]|[[=]|[[=]|[[=]|[]]]]].
  - apply Hi, Hv. left. unfold swapped. by do 3 right; left.
Defined.
End KeymapDemo.
