(* ===== verification/Preview.v ===== *)
(** Reading for previews (src/internal/preview/planner.go): which bytes of a file
    are asked for and kept, and the frozen identity of the file that is shown.

    The sizes and offsets are uint64; the data of a window is a list of bytes.
    [slice] is what a provider that reads the file answers to a plan. *)
From S2P Require Import Prelude Domain.

Definition ReadChunkBytes : Z := 64 * 1024.
Definition MaxRetainedBytes : Z := 512 * 1024.
Definition maxFingerprintComponentBytes : Z := 4 * 1024.

Definition ReadHead := "head".
Definition ReadTail := "tail".
Definition ReadRange := "range".
Definition ReadContinue := "continue".

Record RetainedWindow := mkRetained { rw_Offset : Z; rw_Bytes : Z }.
Record ReadPlan := mkReadPlan {
  rp_Mode : string; rp_Offset : Z; rp_Limit : Z; rp_RetainOffset : Z; rp_RetainBytes : Z;
  rp_DiscardBytes : Z; rp_Complete : bool;
}.
Record ReadWindow := mkWindow { win_Offset : Z; win_Data : list byte; win_Complete : bool }.
Definition ReadWindow_zero : ReadWindow := mkWindow 0 [] false.

(** One constructor per message. *)
Inductive PreviewError :=
| ErrRangeLimit | ErrRangeOffset (offset fileSize : Z)
| ErrWindowEmpty | ErrWindowCap (bytes : Z) | ErrWindowBeyond (fileSize : Z) | ErrWindowAtEnd
| ErrChunkCap (limit : Z) | ErrRetainCap (bytes : Z) | ErrResponse (bytes : Z) (limit : Z)
| ErrPriorWindow | ErrInitialRetention | ErrMode (mode : string)
| ErrPriorBytes | ErrContinueOffset | ErrDiscard | ErrContinueRetention | ErrPlatform
| ErrLocation (err : LocationError) | ErrModifiedPair | ErrHashPair | ErrFingerprintEmpty
| ErrComponent (name : string).

Definition initialReadPlan (mode : string) (fileSize offset limit : Z) : ReadPlan :=
  mkReadPlan mode offset limit offset limit 0 ((offset =? 0) && (limit =? fileSize)).

Definition PlanHead (fileSize : Z) : ReadPlan :=
  initialReadPlan ReadHead fileSize 0 (Z.min fileSize ReadChunkBytes).
Definition PlanTail (fileSize : Z) : ReadPlan :=
  let limit := Z.min fileSize ReadChunkBytes in
  initialReadPlan ReadTail fileSize (u64 (fileSize - limit)) limit.
Definition PlanRange (fileSize offset requestedLimit : Z) : result PreviewError ReadPlan :=
  if requestedLimit =? 0 then Err ErrRangeLimit else
  if offset >? fileSize then Err (ErrRangeOffset offset fileSize) else
  let limit := Z.min requestedLimit ReadChunkBytes in
  let limit := Z.min limit (u64 (fileSize - offset)) in
  Ok (initialReadPlan ReadRange fileSize offset limit).

Definition PlanContinue (fileSize : Z) (retained : RetainedWindow) : result PreviewError ReadPlan :=
  if rw_Bytes retained =? 0 then Err ErrWindowEmpty else
  if rw_Bytes retained >? MaxRetainedBytes then Err (ErrWindowCap (rw_Bytes retained)) else
  if (rw_Offset retained >? fileSize) || (rw_Bytes retained >? u64 (fileSize - rw_Offset retained))
  then Err (ErrWindowBeyond fileSize) else
  let readOffset := u64 (rw_Offset retained + rw_Bytes retained) in
  if readOffset =? fileSize then Err ErrWindowAtEnd else
  let readBytes := Z.min ReadChunkBytes (u64 (fileSize - readOffset)) in
  let combinedBytes := u64 (rw_Bytes retained + readBytes) in
  let '(discardBytes, combinedBytes) :=
    if combinedBytes >? MaxRetainedBytes
    then (u64 (combinedBytes - MaxRetainedBytes), MaxRetainedBytes) else (0, combinedBytes) in
  let retainOffset := u64 (rw_Offset retained + discardBytes) in
  Ok (mkReadPlan ReadContinue readOffset readBytes retainOffset combinedBytes discardBytes
        ((retainOffset =? 0) && (combinedBytes =? fileSize))).

Definition applyContinueRead (prior : ReadWindow) (plan : ReadPlan) (response : list byte) :
    result PreviewError ReadWindow :=
  let priorBytes := blen (win_Data prior) in
  if (priorBytes =? 0) || (priorBytes >? MaxRetainedBytes) then Err ErrPriorBytes else
  if (win_Offset prior >? u64 (MaxUint64 - priorBytes)) ||
     negb (rp_Offset plan =? u64 (win_Offset prior + priorBytes)) then Err ErrContinueOffset else
  if (rp_DiscardBytes plan >? priorBytes) ||
     (win_Offset prior >? u64 (MaxUint64 - rp_DiscardBytes plan)) ||
     negb (rp_RetainOffset plan =? u64 (win_Offset prior + rp_DiscardBytes plan))
  then Err ErrDiscard else
  let retainedPrior := u64 (priorBytes - rp_DiscardBytes plan) in
  if (retainedPrior >? u64 (MaxRetainedBytes - rp_Limit plan)) ||
     negb (rp_RetainBytes plan =? u64 (retainedPrior + rp_Limit plan))
  then Err ErrContinueRetention else
  if (rp_RetainBytes plan >? MaxInt64) || (rp_DiscardBytes plan >? MaxInt64) then Err ErrPlatform else
  Ok (mkWindow (rp_RetainOffset plan)
        (drop (Z.to_nat (rp_DiscardBytes plan)) (win_Data prior) ++ response) (rp_Complete plan)).

Definition ApplyReadPlan (prior : ReadWindow) (plan : ReadPlan) (response : list byte) :
    result PreviewError ReadWindow :=
  if rp_Limit plan >? ReadChunkBytes then Err (ErrChunkCap (rp_Limit plan)) else
  if rp_RetainBytes plan >? MaxRetainedBytes then Err (ErrRetainCap (rp_RetainBytes plan)) else
  if negb (blen response =? rp_Limit plan) then Err (ErrResponse (blen response) (rp_Limit plan)) else
  if existsb (String.eqb (rp_Mode plan)) [ReadHead; ReadTail; ReadRange] then
    if negb (blen (win_Data prior) =? 0) || negb (win_Offset prior =? 0) || win_Complete prior
    then Err ErrPriorWindow else
    if negb (rp_DiscardBytes plan =? 0) || negb (rp_RetainOffset plan =? rp_Offset plan) ||
       negb (rp_RetainBytes plan =? rp_Limit plan) then Err ErrInitialRetention else
    Ok (mkWindow (rp_RetainOffset plan) response (rp_Complete plan))
  else if String.eqb (rp_Mode plan) ReadContinue then applyContinueRead prior plan response
  else Err (ErrMode (rp_Mode plan)).

(** * Frozen sources *)
Record FrozenFingerprint := mkFrozen {
  HasSize : bool; fr_Size : Z;
  HasModifiedAt : bool; fr_ModifiedAt : Time; fr_ModifiedPrecision : string;
  HasFileID : bool; fr_FileID : string;
  HasVersionID : bool; fr_VersionID : string;
  HasHash : bool; fr_HashAlgorithm : string; fr_HashHex : string;
}.
#[export] Instance FrozenFingerprint_eq_dec : EqDecision FrozenFingerprint.
Proof. solve_decision. Defined.
Definition FrozenFingerprint_zero : FrozenFingerprint :=
  mkFrozen false 0 false 0 "" false "" false "" false "" "".
Record FrozenSource := mkFrozenSource { src_Location : Location; src_Fingerprint : FrozenFingerprint }.
#[export] Instance FrozenSource_eq_dec : EqDecision FrozenSource.
Proof. solve_decision. Defined.

Definition cloneFingerprintComponent (name value : string) : result PreviewError string :=
  if (len value =? 0) || (len value >? maxFingerprintComponentBytes) then Err (ErrComponent name)
  else Ok value.

(** A component that is present, and whether it was. *)
Definition freeze_component (name : string) (value : option string) : result PreviewError (bool * string) :=
  match value with
  | None => Ok (false, "")
  | Some value => cloned ← cloneFingerprintComponent name value; Ok (true, cloned)
  end.
Definition present {A} (value : option A) : bool := bool_decide (is_Some value).

(** [Round(0).UTC()] keeps the instant. *)
Definition freezeFingerprint (f : Fingerprint) : result PreviewError FrozenFingerprint :=
  if negb (Bool.eqb (negb (present (fp_ModifiedAt f))) (negb (present (fp_ModifiedPrecision f))))
  then Err ErrModifiedPair else
  if negb (Bool.eqb (negb (present (fp_HashAlgorithm f))) (negb (present (fp_HashHex f))))
  then Err ErrHashPair else
  if negb (present (fp_Size f)) && negb (present (fp_ModifiedAt f)) && negb (present (fp_FileID f)) &&
     negb (present (fp_VersionID f)) && negb (present (fp_HashAlgorithm f))
  then Err ErrFingerprintEmpty else
  fileID ← freeze_component "file ID" (fp_FileID f);
  versionID ← freeze_component "version ID" (fp_VersionID f);
  hashAlgorithm ← freeze_component "hash algorithm" (fp_HashAlgorithm f);
  hashHex ← freeze_component "hash value" (fp_HashHex f);
  Ok (mkFrozen (present (fp_Size f)) (default 0 (fp_Size f))
        (present (fp_ModifiedAt f)) (default 0 (fp_ModifiedAt f)) (default "" (fp_ModifiedPrecision f))
        fileID.1 fileID.2 versionID.1 versionID.2 hashAlgorithm.1 hashAlgorithm.2 hashHex.2).

Definition FreezeSource (location : Location) (fingerprint : Fingerprint) : result PreviewError FrozenSource :=
  canonical ← map_err ErrLocation (NewLocation (loc_EndpointID location) (loc_Path location));
  frozen ← freezeFingerprint fingerprint;
  Ok (mkFrozenSource canonical frozen).

Definition Matches (source : FrozenSource) (location : Location) (fingerprint : Fingerprint) : bool :=
  match FreezeSource location fingerprint with
  | Ok other => bool_decide (source = other)
  | Err _ => false
  end.

(** * What is shown

    [slice bs offset n] is the [n] bytes of a file from an offset on. *)
Definition slice (bs : list byte) (offset n : Z) : list byte :=
  take (Z.to_nat n) (drop (Z.to_nat offset) bs).

(** The windows a preview of a file can have: one of the initial reads, then any
    number of continuations, each answered by the file. *)
Inductive shows (bs : list byte) : ReadWindow → Prop :=
| shows_first plan w :
    (plan = PlanHead (blen bs) ∨ plan = PlanTail (blen bs) ∨
     ∃ offset requestedLimit, in_u64 offset ∧ in_u64 requestedLimit ∧
       PlanRange (blen bs) offset requestedLimit = Ok plan) →
    ApplyReadPlan ReadWindow_zero plan (slice bs (rp_Offset plan) (rp_Limit plan)) = Ok w → shows bs w
| shows_next w plan w' :
    shows bs w → PlanContinue (blen bs) (mkRetained (win_Offset w) (blen (win_Data w))) = Ok plan →
    ApplyReadPlan w plan (slice bs (rp_Offset plan) (rp_Limit plan)) = Ok w' → shows bs w'.

(** A window is a piece of the file. *)
Record piece (bs : list byte) (w : ReadWindow) : Prop := {
  piece_range : 0 ≤ win_Offset w ∧ win_Offset w + blen (win_Data w) ≤ blen bs;
  piece_data : win_Data w = slice bs (win_Offset w) (blen (win_Data w));
  piece_cap : blen (win_Data w) ≤ MaxRetainedBytes;
  piece_complete : win_Complete w = (win_Offset w =? 0) && (blen (win_Data w) =? blen bs);
}.

Lemma blen_slice bs offset n :
  0 ≤ offset → 0 ≤ n → offset + n ≤ blen bs → blen (slice bs offset n) = n.
Proof. unfold slice, blen. rewrite length_take, length_drop. lia. Qed.

Lemma slice_app bs offset n m d :
  0 ≤ offset → 0 ≤ d ≤ n → 0 ≤ m →
  offset + n ≤ blen bs →
  drop (Z.to_nat d) (slice bs offset n) ++ slice bs (offset + n) m = slice bs (offset + d) (n - d + m).
Proof.
  unfold slice, blen. intros. rewrite skipn_firstn_comm, drop_drop.
  replace (Z.to_nat (offset + n)) with (Z.to_nat offset + Z.to_nat d + Z.to_nat (n - d))%nat by lia.
  replace (Z.to_nat offset + Z.to_nat d)%nat with (Z.to_nat (offset + d)) by lia.
  rewrite <-drop_drop.
  replace (Z.to_nat n - Z.to_nat d)%nat with (Z.to_nat (n - d)) by lia.
  replace (Z.to_nat (n - d + m)) with (Z.to_nat (n - d) + Z.to_nat m)%nat by lia.
  apply take_take_drop.
Qed.

Lemma slice_all bs : slice bs 0 (blen bs) = bs.
Proof. unfold slice, blen. rewrite drop_0, Nat2Z.id. apply firstn_all. Qed.

Section Preview.
Context (bs : list byte) (Hbs : blen bs ≤ MaxInt64).

Lemma initial_piece mode offset n :
  existsb (String.eqb mode) [ReadHead; ReadTail; ReadRange] = true →
  0 ≤ offset → 0 ≤ n ≤ ReadChunkBytes → offset + n ≤ blen bs →
  ∃ w, ApplyReadPlan ReadWindow_zero (initialReadPlan mode (blen bs) offset n) (slice bs offset n) = Ok w ∧
    piece bs w.
Proof.
  intros Hm Ho [Hn Hc] Hr. unfold ApplyReadPlan, initialReadPlan. cbn [rp_Limit rp_Mode rp_RetainBytes
    rp_DiscardBytes rp_RetainOffset rp_Offset rp_Complete win_Data win_Offset win_Complete ReadWindow_zero].
  unfold MaxRetainedBytes, ReadChunkBytes in *.
  rewrite !Z.gtb_ltb, !(proj2 (Z.ltb_ge _ _)), blen_slice, Hm, !Z.eqb_refl by lia. cbn.
  eexists. split; [done|]. split; cbn; rewrite ?blen_slice by lia; [lia|done| |done].
  unfold MaxRetainedBytes. lia.
Qed.

(** A window that does not end the file can be continued: the read plan is
    accepted with the file's answer, and the window then ends where it should. *)
(** The plan of a continuation, without its wrap-arounds. *)
Lemma PlanContinue_eq o n :
  0 ≤ o → 0 < n ≤ MaxRetainedBytes → o + n < blen bs →
  let m := Z.min ReadChunkBytes (blen bs - (o + n)) in
  let d := Z.max 0 (n + m - MaxRetainedBytes) in
  PlanContinue (blen bs) (mkRetained o n) =
  Ok (mkReadPlan ReadContinue (o + n) m (o + d) (n + m - d) d ((o + d =? 0) && (n + m - d =? blen bs))).
Proof.
  intros Ho Hn Hlt m d. unfold PlanContinue. cbn [rw_Offset rw_Bytes].
  unfold MaxInt64, ReadChunkBytes, MaxRetainedBytes in *.
  rewrite (u64_small (blen bs - o)), (u64_small (o + n)) by lia.
  rewrite (u64_small (blen bs - (o + n))) by lia. fold m.
  assert (0 < m ≤ 65536) as Hm by (unfold m; lia).
  rewrite !Z.gtb_ltb, (proj2 (Z.eqb_neq n 0)), (proj2 (Z.ltb_ge _ n)) by lia.
  rewrite (proj2 (Z.ltb_ge _ o)), (proj2 (Z.ltb_ge _ n)), (proj2 (Z.eqb_neq (o + n) _)) by lia.
  cbn [orb]. rewrite (u64_small (n + m)) by lia.
  destruct (Z.ltb_spec (512 * 1024) (n + m)).
  - rewrite (u64_small (n + m - _)) by lia. rewrite u64_small by lia.
    replace d with (n + m - 512 * 1024) by lia.
    by replace (n + m - (n + m - 512 * 1024)) with (512 * 1024) by lia.
  - rewrite u64_small by lia. replace d with 0 by lia. by replace (n + m - 0) with (n + m) by lia.
Qed.

Lemma continue_piece w :
  piece bs w → win_Data w ≠ [] → win_Offset w + blen (win_Data w) < blen bs →
  ∃ plan w', PlanContinue (blen bs) (mkRetained (win_Offset w) (blen (win_Data w))) = Ok plan ∧
    ApplyReadPlan w plan (slice bs (rp_Offset plan) (rp_Limit plan)) = Ok w' ∧ piece bs w' ∧
    win_Data w' ≠ [] ∧ win_Offset w' + blen (win_Data w') =
      Z.min (win_Offset w + blen (win_Data w) + ReadChunkBytes) (blen bs).
Proof.
  intros [[Ho Hr] Hd Hc _] Hne Hlt. set (o := win_Offset w) in *. set (n := blen (win_Data w)) in *.
  assert (0 < n) as Hn by (unfold n, blen; destruct (win_Data w); [done|cbn; lia]).
  pose proof (PlanContinue_eq o n Ho ltac:(lia) Hlt) as Hp. cbv zeta in Hp.
  set (m := Z.min _ _) in Hp. set (d := Z.max _ _) in Hp.
  assert (0 < m ≤ ReadChunkBytes ∧ o + n + m ≤ blen bs) as [Hm Hom] by (unfold m, ReadChunkBytes; lia).
  assert (0 ≤ d ∧ d ≤ m ∧ d < n ∧ n + m - d ≤ MaxRetainedBytes) as (Hd0 & Hdm & Hdn & Hcap)
    by (unfold d, MaxRetainedBytes, ReadChunkBytes in *; lia).
  eexists _, (mkWindow (o + d) (slice bs (o + d) (n - d + m)) _). split; [exact Hp|].
  assert (blen (slice bs (o + d) (n - d + m)) = n + m - d) as Hlen by (rewrite blen_slice; lia).
  split_and!.
  - cbn [rp_Offset rp_Limit]. unfold ApplyReadPlan. cbn. rewrite blen_slice by lia.
    unfold applyContinueRead. cbn. fold n o. unfold MaxInt64, ReadChunkBytes, MaxRetainedBytes, MaxUint64 in *.
    rewrite !Z.gtb_ltb, (u64_small (_ - n)), (u64_small (o + n)), (u64_small (_ - d)), (u64_small (o + d)),
      (u64_small (n - d)), (u64_small (_ - m)), (u64_small (n - d + m)) by lia.
    rewrite !Z.eqb_refl, (proj2 (Z.eqb_neq n 0)), (proj2 (Z.eqb_eq _ (n - d + m))), !(proj2 (Z.ltb_ge _ _)) by lia.
    cbn. rewrite Hd, <-slice_app by lia. done.
  - split; cbn; rewrite ?Hlen; [lia|f_equal; lia|done|done].
  - cbn [win_Data]. intros E. rewrite E in Hlen. unfold blen in Hlen at 1. cbn in Hlen. lia.
  - cbn. rewrite Hlen. unfold m. lia.
Qed.

Lemma first_piece plan :
  (plan = PlanHead (blen bs) ∨ plan = PlanTail (blen bs) ∨
   ∃ offset requestedLimit, in_u64 offset ∧ in_u64 requestedLimit ∧
     PlanRange (blen bs) offset requestedLimit = Ok plan) →
  ∃ w, ApplyReadPlan ReadWindow_zero plan (slice bs (rp_Offset plan) (rp_Limit plan)) = Ok w ∧ piece bs w.
Proof.
  pose proof (blen_nonneg bs). unfold MaxInt64, in_u64 in *.
  intros [->|[->|(offset & limit & Ho & Hl & E)]].
  - unfold PlanHead. cbn [initialReadPlan rp_Offset rp_Limit].
    apply initial_piece; [done|cbn; unfold ReadChunkBytes in *; lia..].
  - unfold PlanTail. rewrite u64_small by (unfold ReadChunkBytes; lia).
    apply initial_piece; [done|cbn; unfold ReadChunkBytes in *; lia..].
  - unfold PlanRange in E. destruct (limit =? 0); [done|]. destruct (_ >? _) eqn:Eo; [done|].
    injection E as <-. breflect. rewrite u64_small by lia.
    apply initial_piece; [done|cbn; unfold ReadChunkBytes in *; lia..].
Qed.

Lemma shows_piece w : shows bs w → piece bs w.
Proof.
  induction 1 as [plan w Hplan E|w plan w' Hw IH Hplan E].
  - destruct (first_piece plan Hplan) as (w0 & E0 & Hw0). congruence.
  - assert (win_Data w ≠ [] ∧ win_Offset w + blen (win_Data w) < blen bs) as [Hne Hlt].
    { destruct IH as [[Ho Hr] _ _ _]. revert Hplan. unfold PlanContinue. cbn [rw_Bytes rw_Offset].
      pose proof (blen_nonneg (win_Data w)). unfold MaxInt64 in *. rewrite (u64_small (_ + _)) by lia.
      destruct (blen _ =? 0) eqn:E0; [done|]. destruct (_ >? MaxRetainedBytes); [done|].
      destruct (_ || _); [done|]. destruct (_ =? blen bs) eqn:E1; [done|]. intros _. breflect.
      split; [|lia]. intros En. by rewrite En in E0. }
    destruct (continue_piece w IH Hne Hlt) as (p & w1 & Ep & E1 & Hw1 & _). congruence.
Qed.
End Preview.

(** C38: A preview shows the file.  However the reads began - at the head, at the
    tail or anywhere - and however often they were continued, the bytes kept are
    the file's bytes from the window's offset on, at most 512 KiB of them, and the
    preview is called complete exactly when they are all of the file.  A window
    that holds something and does not reach the end of the file can be continued,
    and then reaches 64 KiB further or the end. *)
Theorem preview_shows_file (bs : list byte) (Hbs : blen bs ≤ MaxInt64) (w : ReadWindow)
    (Hw : shows bs w) :
  win_Data w = slice bs (win_Offset w) (blen (win_Data w)) ∧
  blen (win_Data w) ≤ MaxRetainedBytes ∧
  (win_Complete w = true ↔ win_Data w = bs) ∧
  (win_Data w ≠ [] → win_Offset w + blen (win_Data w) < blen bs →
   ∃ plan w', PlanContinue (blen bs) (mkRetained (win_Offset w) (blen (win_Data w))) = Ok plan ∧
     ApplyReadPlan w plan (slice bs (rp_Offset plan) (rp_Limit plan)) = Ok w' ∧ shows bs w' ∧
     win_Offset w' + blen (win_Data w') = Z.min (win_Offset w + blen (win_Data w) + ReadChunkBytes) (blen bs)).
Proof.
  pose proof (shows_piece bs Hbs w Hw) as Hp. destruct (Hp) as [[Ho Hr] Hd Hcap Hcomplete].
  split_and!; [done|done| |].
  - rewrite Hcomplete, andb_true_iff, !Z.eqb_eq. split.
    + intros [Eo El]. by rewrite Hd, Eo, El, slice_all.
    + intros E. rewrite E in *. lia.
  - intros Hne Hlt. destruct (continue_piece bs Hbs w Hp Hne Hlt) as (plan & w' & Ep & E & _ & _ & Hend).
    exists plan, w'. split_and!; [done|done| |done]. by eapply shows_next.
Qed.

Lemma component_inj name v w x :
  freeze_component name v = Ok x → freeze_component name w = Ok x → v = w.
Proof.
  unfold freeze_component, cloneFingerprintComponent.
  destruct v, w; cbn; repeat destruct (_ || _); cbn; congruence.
Qed.

Lemma freeze_inj f g x : freezeFingerprint f = Ok x → freezeFingerprint g = Ok x → f = g.
Proof.
  assert (∀ h y, freezeFingerprint h = Ok y →
    fp_Size h = (if HasSize y then Some (fr_Size y) else None) ∧
    fp_ModifiedAt h = (if HasModifiedAt y then Some (fr_ModifiedAt y) else None) ∧
    fp_ModifiedPrecision h = (if HasModifiedAt y then Some (fr_ModifiedPrecision y) else None) ∧
    fp_FileID h = (if HasFileID y then Some (fr_FileID y) else None) ∧
    fp_VersionID h = (if HasVersionID y then Some (fr_VersionID y) else None) ∧
    fp_HashAlgorithm h = (if HasHash y then Some (fr_HashAlgorithm y) else None) ∧
    fp_HashHex h = (if HasHash y then Some (fr_HashHex y) else None)) as Hthaw.
  { intros [sz ma mp fi vi ha hh] y. unfold freezeFingerprint. cbn [fp_Size fp_ModifiedAt
      fp_ModifiedPrecision fp_FileID fp_VersionID fp_HashAlgorithm fp_HashHex].
    destruct (negb (Bool.eqb (negb (present ma)) _)) eqn:E1; [done|].
    destruct (negb (Bool.eqb (negb (present ha)) _)) eqn:E2; [done|].
    destruct (_ && _); [done|].
    intros (a & Ha & (b & Hb & (c & Hc & (d & Hd & [= <-])%bind_ok)%bind_ok)%bind_ok)%bind_ok.
    unfold freeze_component, cloneFingerprintComponent in *.
    destruct sz, ma, mp, fi, vi, ha, hh; try discriminate; cbn in *;
      repeat (destruct (_ || _); cbn in *); simplify_eq; cbn; done. }
  intros (? & ? & ? & ? & ? & ? & ?)%Hthaw (? & ? & ? & ? & ? & ? & ?)%Hthaw.
  destruct f, g. cbn in *. congruence.
Qed.

Lemma FreezeSource_spec l f src :
  FreezeSource l f = Ok src →
  src_Location src = l ∧ freezeFingerprint f = Ok (src_Fingerprint src).
Proof.
  unfold FreezeSource. intros (c & Hc & (x & Hx & [= <-])%bind_ok)%bind_ok. apply map_err_ok in Hc.
  split; [|done]. cbn. unfold NewLocation in Hc. repeat case_match; simplify_eq. by destruct l.
Qed.

(** A frozen source matches what it was frozen from and nothing else. *)
Lemma frozen_matches l f src l' f' :
  FreezeSource l f = Ok src → Matches src l' f' = true ↔ l' = l ∧ f' = f.
Proof.
  intros Hs. unfold Matches. split.
  - destruct (FreezeSource l' f') as [other|] eqn:Ho; [|done]. intros E%bool_decide_eq_true. subst other.
    apply FreezeSource_spec in Hs as [<- Hf], Ho as [<- Hf']. split; [done|]. by eapply freeze_inj.
  - intros [-> ->]. rewrite Hs. by apply bool_decide_eq_true.
Qed.

(** * A preview of nine chunks and a byte, from its head to its end *)
Module PreviewDemo.
Definition file : list byte := replicate (N.to_nat 589825) x61.
Fixpoint continued (n : nat) (w : ReadWindow) : ReadWindow :=
  match n with
  | O => w
  | S n =>
    match PlanContinue (blen file) (mkRetained (win_Offset w) (blen (win_Data w))) with
    | Ok plan =>
      match ApplyReadPlan w plan (slice file (rp_Offset plan) (rp_Limit plan)) with
      | Ok w' => continued n w'
      | Err _ => w
      end
    | Err _ => w
    end
  end.
Definition head_plan : ReadPlan := PlanHead (blen file).
Definition first : ReadWindow :=
  match ApplyReadPlan ReadWindow_zero head_plan
          (slice file (rp_Offset head_plan) (rp_Limit head_plan)) with
  | Ok w => w | Err _ => ReadWindow_zero end.
Lemma file_size : blen file ≤ MaxInt64.
Proof. by vm_compute. Qed.

Lemma shows_first_window : shows file first.
Proof.
  destruct (first_piece file file_size head_plan) as (w & E & _); [by left|].
  unfold first. rewrite E. apply (shows_first file head_plan w); [by left|exact E].
Qed.
Lemma shows_continued n w : shows file w → shows file (continued n w).
Proof.
  revert w. induction n as [|n IH]; intros w Hw; [done|]. cbn [continued].
  destruct (PlanContinue _ _) as [plan|] eqn:Ep; [|done].
  destruct (ApplyReadPlan _ _ _) as [w'|] eqn:E; [|done]. apply IH. by eapply shows_next.
Qed.

Lemma preview_shows_file_witness :
  win_Offset (continued 9 first) = 65537 ∧ blen (win_Data (continued 9 first)) = MaxRetainedBytes ∧
  (win_Complete (continued 9 first) = true ↔ win_Data (continued 9 first) = file).
Proof.
  pose proof (preview_shows_file file file_size _ (shows_continued 9 _ shows_first_window)) as (_ & _ & Hc & _).
  split; [by vm_compute|]. split; [by vm_compute|exact Hc].
Defined.
End PreviewDemo.
