(* ===== verification/Lexer.v ===== *)
(** The lexer of external commands (src/internal/externalprocess/lexer.go): it
    groups the bytes of a command line into words and expands nothing.

    The loop of [ParseEnvironmentCommand] is the step function [lex_step] on the
    loop's variables.  Its specification is the grammar [Line]: a line is words
    separated by blanks, a word is a sequence of pieces, and a piece is a plain
    byte, an escaped byte or a quoted string. *)
From S2P Require Import Prelude Utf8.

Definition MaxArguments : Z := 128.
Definition MaxArgumentBytes : Z := 4096.
Definition MaxCommandBytes : Z := 32768.

Record Command := mkCommand { Executable : list byte; Args : list (list byte) }.

Inductive LexError :=
| ErrNotUTF8
| ErrInputExceeds
| ErrControlByte (ch : byte)
| ErrMetacharacter (ch : byte)
| ErrItemExceeds
| ErrArgumentCount
| ErrUnclosedEscape
| ErrUnclosedQuote
| ErrExecutableEmpty
| ErrValidateExecutable
| ErrValidateCount
| ErrValidateUTF8
| ErrValidateItem
| ErrValidateControl
| ErrValidateTotal.

Definition SP : byte := x20.
Definition TAB : byte := x09.
Definition SQUOTE : byte := x27.
Definition DQUOTE : byte := x22.
Definition BSLASH : byte := x5c.

Definition is_blank (ch : byte) : bool := bool_decide (ch = SP ∨ ch = TAB).
Definition is_control (ch : byte) : bool := (Z_of_byte ch <? 32) || (Z_of_byte ch =? 127).
(** The shell's special characters: dollar, backquote, star, question mark,
    square brackets, bar, ampersand, semicolon and angle brackets. *)
Definition metacharacters : list byte :=
  [x24; x60; x2a; x3f; x5b; x5d; x7c; x26; x3b; x3c; x3e].

(** The body of the loop of [validateLexicalInput]. *)
Definition validateLexicalByte (ch : byte) : result LexError () :=
  if (Z_of_byte ch <? 32) && negb (bool_decide (ch = TAB)) || (Z_of_byte ch =? 127)
  then Err (ErrControlByte ch) else
  if bool_decide (ch ∈ metacharacters) then Err (ErrMetacharacter ch) else Ok tt.
Definition validateLexicalInput (input : list byte) : result LexError () :=
  each validateLexicalByte input.

Definition validateItem (item : list byte) : result LexError () :=
  if negb (ValidString item) then Err ErrValidateUTF8 else
  if blen item >? MaxArgumentBytes then Err ErrValidateItem else
  if existsb is_control item then Err ErrValidateControl else Ok tt.
Definition validateCommand (command : Command) : result LexError () :=
  if bool_decide (Executable command = []) then Err ErrValidateExecutable else
  if Z.of_nat (length (Args command)) >? MaxArguments then Err ErrValidateCount else
  total ← for_each (λ total item, _ ← validateItem item; Ok (total + blen item)) 0
            (Executable command :: Args command);
  if total >? MaxCommandBytes then Err ErrValidateTotal else Ok tt.

Inductive lex_mode := unquoted | singleQuoted | doubleQuoted.
#[export] Instance lex_mode_eq_dec : EqDecision lex_mode.
Proof. solve_decision. Defined.

(** The variables of the loop. *)
Record lex_state := mkLex {
  state : lex_mode;
  escaped : bool;
  started : bool;
  word : list byte;
  words : list (list byte);
}.
Definition lex_init : lex_state := mkLex unquoted false false [] [].

(** The closure [finish]. *)
Definition finish (s : lex_state) : result LexError lex_state :=
  if negb (started s) then Ok s else
  if blen (word s) >? MaxArgumentBytes then Err ErrItemExceeds else
  let words := words s ++ [word s] in
  if Z.of_nat (length words) >? MaxArguments + 1 then Err ErrArgumentCount else
  Ok (mkLex (state s) (escaped s) false [] words).

Definition lex_step (s : lex_state) (ch : byte) : result LexError lex_state :=
  let '(mkLex st esc started word words) := s in
  if esc then Ok (mkLex st false true (word ++ [ch]) words) else
  match st with
  | singleQuoted =>
    if bool_decide (ch = SQUOTE) then Ok (mkLex unquoted esc true word words)
    else Ok (mkLex st esc true (word ++ [ch]) words)
  | doubleQuoted =>
    if bool_decide (ch = DQUOTE) then Ok (mkLex unquoted esc true word words) else
    if bool_decide (ch = BSLASH) then Ok (mkLex st true true word words) else
    Ok (mkLex st esc true (word ++ [ch]) words)
  | unquoted =>
    if is_blank ch then finish s else
    if bool_decide (ch = SQUOTE) then Ok (mkLex singleQuoted esc true word words) else
    if bool_decide (ch = DQUOTE) then Ok (mkLex doubleQuoted esc true word words) else
    if bool_decide (ch = BSLASH) then Ok (mkLex st true true word words) else
    Ok (mkLex st esc true (word ++ [ch]) words)
  end.

Definition ParseEnvironmentCommand (input : list byte) : result LexError Command :=
  if negb (ValidString input) then Err ErrNotUTF8 else
  if blen input >? MaxCommandBytes then Err ErrInputExceeds else
  _ ← validateLexicalInput input;
  s ← for_each lex_step lex_init input;
  if escaped s then Err ErrUnclosedEscape else
  if negb (bool_decide (state s = unquoted)) then Err ErrUnclosedQuote else
  s ← finish s;
  match words s with
  | [] | [] :: _ => Err ErrExecutableEmpty
  | executable :: args =>
    let command := mkCommand executable args in
    _ ← validateCommand command; Ok command
  end.

(** * The grammar *)

(** [Quoted s w]: the inside [s] of a double-quoted string stands for [w]. *)
Inductive Quoted : list byte → list byte → Prop :=
| Quoted_nil : Quoted [] []
| Quoted_plain s w c : Quoted s w → c ≠ DQUOTE → c ≠ BSLASH → Quoted (s ++ [c]) (w ++ [c])
| Quoted_escape s w c : Quoted s w → Quoted (s ++ [BSLASH; c]) (w ++ [c]).

Definition is_plain (c : byte) : Prop :=
  is_blank c = false ∧ c ≠ SQUOTE ∧ c ≠ DQUOTE ∧ c ≠ BSLASH.

Inductive Piece : list byte → list byte → Prop :=
| Piece_plain c : is_plain c → Piece [c] [c]
| Piece_escape c : Piece [BSLASH; c] [c]
| Piece_single s : SQUOTE ∉ s → Piece (SQUOTE :: s ++ [SQUOTE]) s
| Piece_double s w : Quoted s w → Piece (DQUOTE :: s ++ [DQUOTE]) w.

Inductive Pieces : list byte → list byte → Prop :=
| Pieces_nil : Pieces [] []
| Pieces_snoc s w t v : Pieces s w → Piece t v → Pieces (s ++ t) (w ++ v).

(** [Words s ws]: [s] is blanks and complete words, each followed by a blank. *)
Inductive Words : list byte → list (list byte) → Prop :=
| Words_nil : Words [] []
| Words_blank s ws b : Words s ws → is_blank b = true → Words (s ++ [b]) ws
| Words_word s ws t w b :
    Words s ws → Pieces t w → t ≠ [] → is_blank b = true → Words (s ++ t ++ [b]) (ws ++ [w]).

(** A command line: the last word may end the line. *)
Inductive Line : list byte → list (list byte) → Prop :=
| Line_blank s ws : Words s ws → Line s ws
| Line_word s ws t w : Words s ws → Pieces t w → t ≠ [] → Line (s ++ t) (ws ++ [w]).

(** * The machine without limits *)
Definition finish_free (s : lex_state) : lex_state :=
  if negb (started s) then s
  else mkLex (state s) (escaped s) false [] (words s ++ [word s]).
(** Only [finish] can refuse a byte. *)
Definition lex_next (s : lex_state) (ch : byte) : lex_state :=
  match lex_step s ch with Ok s' => s' | Err _ => finish_free s end.

Definition fits (ws : list (list byte)) : Prop :=
  Forall (λ w, blen w ≤ MaxArgumentBytes) ws ∧ Z.of_nat (length ws) ≤ MaxArguments + 1.

Lemma fits_app ws ws' : fits (ws ++ ws') → fits ws.
Proof. unfold fits. rewrite Forall_app, length_app. intros [[? _] ?]. split; [done|lia]. Qed.

Lemma finish_ok s s' :
  fits (words s) → finish s = Ok s' ↔ s' = finish_free s ∧ fits (words s').
Proof.
  intros Hf. unfold finish, finish_free. destruct (started s); cbn [negb]; [|naive_solver].
  rewrite !Z.gtb_ltb. unfold fits in *.
  destruct (Z.ltb_spec MaxArgumentBytes (blen (word s))) as [H|H].
  { split; [done|]. intros [-> [Hall _]]. cbn in Hall.
    rewrite Forall_app, Forall_singleton in Hall. lia. }
  destruct (Z.ltb_spec (MaxArguments + 1) (Z.of_nat (length (words s ++ [word s])))) as [H'|H'].
  { split; [done|]. intros [-> [_ Hl]]. cbn in Hl. lia. }
  split; [|by intros [-> _]]. intros [= <-]. cbn [words]. split_and!; [done| |lia].
  apply Forall_app_2; [apply Hf|by apply Forall_singleton].
Qed.

Lemma lex_next_words s ch : ∃ ws, words (lex_next s ch) = words s ++ ws.
Proof.
  destruct s as [st esc sta w ws]. unfold lex_next, lex_step, finish, finish_free; cbn.
  repeat case_match; simplify_eq; cbn; eauto using app_nil_r; by exists []; rewrite app_nil_r.
Qed.

Lemma lex_step_ok s ch s' :
  fits (words s) → lex_step s ch = Ok s' ↔ s' = lex_next s ch ∧ fits (words s').
Proof.
  intros Hf. pose proof (finish_ok s) as Hfin. destruct s as [st esc sta w ws]. cbn in Hf, Hfin.
  unfold lex_next. unfold lex_step.
  repeat case_match; simplify_eq; try (split; [by intros [= <-]|by intros [-> _]]).
  - rewrite Hfin by done. naive_solver.
  - naive_solver.
Qed.

(** Running with the limits is running without them when the words fit. *)
Lemma lex_run_ok input s s' :
  fits (words s) →
  for_each lex_step s input = Ok s' ↔ s' = foldl lex_next s input ∧ fits (words s').
Proof.
  revert s; induction input as [|ch input IH]; intros s Hf; cbn [for_each foldl].
  { split; [by intros [= <-]|by intros [-> _]]. }
  pose proof (lex_step_ok s ch) as Hstep.
  destruct (lex_step s ch) as [s1|e].
  - destruct (proj1 (Hstep s1 Hf) eq_refl) as [-> Hf1]. by apply IH.
  - split; [done|]. intros [-> Hfe]. exfalso.
    assert (∃ ws, words (foldl lex_next s (ch :: input)) = words (lex_next s ch) ++ ws) as [ws E].
    { cbn [foldl]. generalize (lex_next s ch). clear. induction input as [|c input IH]; intros s.
      - exists []. by rewrite app_nil_r.
      - destruct (IH (lex_next s c)) as [ws E]. destruct (lex_next_words s c) as [ws' E'].
        cbn [foldl]. rewrite E, E', <-app_assoc. eauto. }
    cbn [foldl] in E. rewrite E in Hfe. apply fits_app in Hfe.
    assert (Err e = Ok (lex_next s ch)) as [=] by by apply Hstep.
Qed.

(** * The machine follows the grammar *)
Ltac lex1 := unfold lex_next; cbn [lex_step];
  repeat first [rewrite bool_decide_eq_true_2 by done | rewrite bool_decide_eq_false_2 by done].

Lemma run_quoted q v : Quoted q v → ∀ w ws,
  foldl lex_next (mkLex doubleQuoted false true w ws) q =
  mkLex doubleQuoted false true (w ++ v) ws.
Proof.
  induction 1 as [|q v c _ IH Hd Hb|q v c _ IH]; intros w ws; [by rewrite app_nil_r|..].
  all: rewrite foldl_app, IH; cbn [foldl]; rewrite app_assoc.
  - by lex1.
  - done.
Qed.

Lemma run_single q : SQUOTE ∉ q → ∀ w ws,
  foldl lex_next (mkLex singleQuoted false true w ws) q =
  mkLex singleQuoted false true (w ++ q) ws.
Proof.
  induction q as [|c q IH]; intros Hq w ws; [by rewrite app_nil_r|].
  apply not_elem_of_cons in Hq as [Hc Hq]. cbn [foldl].
  assert (lex_next (mkLex singleQuoted false true w ws) c =
          mkLex singleQuoted false true (w ++ [c]) ws) as -> by by lex1.
  by rewrite IH, <-app_assoc.
Qed.

Lemma run_piece t v : Piece t v → ∀ b w ws,
  foldl lex_next (mkLex unquoted false b w ws) t = mkLex unquoted false true (w ++ v) ws.
Proof.
  destruct 1 as [c (Hb & Hs & Hd & Hl)|c|s Hs|s v Hq]; intros b w ws; cbn [foldl].
  - unfold lex_next, lex_step. rewrite Hb. lex1. done.
  - done.
  - change (lex_next (mkLex unquoted false b w ws) SQUOTE) with
      (mkLex singleQuoted false true w ws).
    by rewrite foldl_app, run_single.
  - change (lex_next (mkLex unquoted false b w ws) DQUOTE) with
      (mkLex doubleQuoted false true w ws).
    by rewrite foldl_app, (run_quoted _ _ Hq).
Qed.

Lemma Piece_nonempty t v : Piece t v → t ≠ [].
Proof. by destruct 1. Qed.

Lemma run_pieces t v : Pieces t v → ∀ b w ws,
  foldl lex_next (mkLex unquoted false b w ws) t =
  mkLex unquoted false (b || negb (bool_decide (t = []))) (w ++ v) ws.
Proof.
  induction 1 as [|s v t u _ IH Hp]; intros b w ws.
  { cbn. by rewrite orb_false_r, app_nil_r. }
  rewrite foldl_app, IH, (run_piece _ _ Hp), app_assoc.
  rewrite (bool_decide_eq_false_2 (s ++ t = [])); [by rewrite orb_true_r|].
  intros [_ E]%app_nil. by apply Piece_nonempty in Hp.
Qed.

Lemma lex_next_blank b sta w ws :
  is_blank b = true →
  lex_next (mkLex unquoted false sta w ws) b = finish_free (mkLex unquoted false sta w ws).
Proof.
  intros Hb. unfold lex_next, lex_step. rewrite Hb. unfold finish, finish_free; cbn.
  by repeat case_match; simplify_eq.
Qed.

Lemma run_words s ws :
  Words s ws → foldl lex_next lex_init s = mkLex unquoted false false [] ws.
Proof.
  induction 1 as [|s ws b _ IH Hb|s ws t w b _ IH Hp Ht Hb]; [done|..].
  - by rewrite foldl_app, IH; cbn [foldl]; rewrite lex_next_blank.
  - rewrite !foldl_app, IH, (run_pieces _ _ Hp). cbn [foldl]. rewrite lex_next_blank by done.
    by rewrite bool_decide_eq_false_2.
Qed.

Definition accepts (s : lex_state) (ws : list (list byte)) : Prop :=
  state s = unquoted ∧ escaped s = false ∧ words (finish_free s) = ws.

Lemma run_line s ws : Line s ws → accepts (foldl lex_next lex_init s) ws.
Proof.
  destruct 1 as [s ws Hw|s ws t w Hw Hp Ht].
  - by rewrite (run_words _ _ Hw).
  - rewrite foldl_app, (run_words _ _ Hw), (run_pieces _ _ Hp).
    by rewrite bool_decide_eq_false_2.
Qed.

(** * The grammar follows the machine *)
Inductive Partial : list byte → lex_state → Prop :=
| Partial_between s ws : Words s ws → Partial s (mkLex unquoted false false [] ws)
| Partial_word s ws t w : Words s ws → Pieces t w → t ≠ [] →
    Partial (s ++ t) (mkLex unquoted false true w ws)
| Partial_escape s ws t w : Words s ws → Pieces t w →
    Partial (s ++ t ++ [BSLASH]) (mkLex unquoted true true w ws)
| Partial_single s ws t w q : Words s ws → Pieces t w → SQUOTE ∉ q →
    Partial (s ++ t ++ SQUOTE :: q) (mkLex singleQuoted false true (w ++ q) ws)
| Partial_double s ws t w q v : Words s ws → Pieces t w → Quoted q v →
    Partial (s ++ t ++ DQUOTE :: q) (mkLex doubleQuoted false true (w ++ v) ws)
| Partial_double_escape s ws t w q v : Words s ws → Pieces t w → Quoted q v →
    Partial (s ++ t ++ DQUOTE :: q ++ [BSLASH]) (mkLex doubleQuoted true true (w ++ v) ws).

(** A piece ends: the word it belongs to goes on. *)
Lemma Partial_piece s ws t w p v u :
  Words s ws → Pieces t w → Piece p v → u = s ++ t ++ p →
  Partial u (mkLex unquoted false true (w ++ v) ws).
Proof.
  intros Hs Ht Hp ->. apply Partial_word; [done|by constructor|].
  intros [_ E]%app_nil. by apply Piece_nonempty in Hp.
Qed.

(** A byte outside quotes, after the pieces [t] of the current word. *)
Lemma Partial_unquoted s ws t w b c :
  Words s ws → Pieces t w → b = negb (bool_decide (t = [])) →
  Partial ((s ++ t) ++ [c]) (lex_next (mkLex unquoted false b w ws) c).
Proof.
  intros Hs Ht Hb. rewrite <-app_assoc. destruct (is_blank c) eqn:Eb.
  { rewrite lex_next_blank by done. unfold finish_free; cbn. subst b.
    case_bool_decide as Et; cbn.
    - subst t. cbn. inversion Ht as [|? ? p ? ? Hp E]; subst.
      + constructor. by constructor.
      + apply app_nil in E as [_ ->]. by apply Piece_nonempty in Hp.
    - constructor. by constructor. }
  clear Hb. unfold lex_next, lex_step. rewrite Eb.
  case_bool_decide as E1; [subst c|].
  { rewrite <-(app_nil_r w). by apply (Partial_single s ws t w []); [..|set_solver]. }
  case_bool_decide as E2; [subst c|].
  { rewrite <-(app_nil_r w). by apply (Partial_double s ws t w [] []); [..|constructor]. }
  case_bool_decide as E3; [subst c; by constructor|].
  eapply Partial_piece; [done..|by constructor|done].
Qed.

Lemma Partial_step p s c : Partial p s → Partial (p ++ [c]) (lex_next s c).
Proof.
  destruct 1 as [s ws Hs|s ws t w Hs Ht Hne|s ws t w Hs Ht|s ws t w q Hs Ht Hq
                |s ws t w q v Hs Ht Hq|s ws t w q v Hs Ht Hq].
  - rewrite <-(app_nil_r s) at 1. apply Partial_unquoted; [done|constructor|done].
  - apply Partial_unquoted; [done..|]. by rewrite bool_decide_eq_false_2.
  - eapply Partial_piece; [done..|apply Piece_escape|by rewrite <-!app_assoc].
  - rewrite <-!app_assoc. unfold lex_next, lex_step. case_bool_decide as E.
    + subst c. eapply Partial_piece; [done..|by apply Piece_single|done].
    + rewrite <-app_assoc. cbn [app]. apply Partial_single; [done..|set_solver].
  - rewrite <-!app_assoc. unfold lex_next, lex_step. case_bool_decide as E.
    { subst c. eapply Partial_piece; [done..|by apply Piece_double|done]. }
    case_bool_decide as E'; [subst c; by apply Partial_double_escape|].
    rewrite <-app_assoc. cbn [app]. apply Partial_double; [done..|by constructor].
  - rewrite <-!app_assoc. cbn [app]. rewrite <-!app_assoc. cbn.
    unfold lex_next, lex_step. rewrite <-app_assoc.
    apply Partial_double; [done..|by constructor].
Qed.

Lemma Partial_run s : Partial s (foldl lex_next lex_init s).
Proof.
  induction s as [|c s IH] using rev_ind; [by repeat constructor|].
  rewrite foldl_app. cbn [foldl]. by apply Partial_step.
Qed.

(** The machine accepts exactly the lines of the grammar, with their words. *)
Lemma lex_accepts s ws : accepts (foldl lex_next lex_init s) ws ↔ Line s ws.
Proof.
  split; [|apply run_line]. intros (Hm & He & Hw).
  pose proof (Partial_run s) as Hp. revert Hm He Hw.
  destruct Hp as [s ws' Hs|s ws' t w Hs Ht Hne| | | |]; cbn; try done; intros _ _ <-.
  - by constructor.
  - by constructor.
Qed.

(** * Words are what is left of the line

    [Del s w]: deleting some ASCII bytes of [s] leaves [w]. *)
Inductive Del : list byte → list byte → Prop :=
| Del_nil : Del [] []
| Del_keep s w c : Del s w → Del (s ++ [c]) (w ++ [c])
| Del_drop s w c : Del s w → is_ascii c = true → Del (s ++ [c]) w.

Lemma Del_app s w t v : Del s w → Del t v → Del (s ++ t) (w ++ v).
Proof.
  intros Hs. induction 1 as [|t v c _ IH|t v c _ IH Hc]; rewrite ?app_nil_r, ?app_assoc;
    [done|by constructor..].
Qed.

Lemma Del_dropped b : is_ascii b = true → Del [b] [].
Proof. intros. apply (Del_drop [] [] b); [constructor|done]. Qed.

Lemma Del_refl s : Del s s.
Proof. induction s using rev_ind; by constructor. Qed.

Lemma Del_sublist s w : Del s w → w `sublist_of` s.
Proof.
  induction 1 as [|s w c _ IH|s w c _ IH _]; [done| |].
  - by apply sublist_app.
  - rewrite <-(app_nil_r w). apply sublist_app; [done|]. apply sublist_nil_l.
Qed.

Lemma Del_valid s w : Del s w → ∀ t, ValidString (s ++ t) = true → ValidString (w ++ t) = true.
Proof.
  induction 1 as [|s w c _ IH|s w c _ IH Hc]; intros t Ht; [done|..]; rewrite <-app_assoc in Ht.
  - rewrite <-app_assoc. by apply IH.
  - apply IH. cbn in Ht. apply ValidString_ascii in Ht as [??]; [|done]. by apply ValidString_app.
Qed.

Lemma is_blank_ascii b : is_blank b = true → is_ascii b = true.
Proof. intros H%bool_decide_eq_true. by destruct H as [-> | ->]. Qed.

Lemma Quoted_del s w : Quoted s w → Del s w.
Proof.
  induction 1 as [|s w c _ IH _ _|s w c _ IH]; [constructor..|].
  - done.
  - apply Del_app; [done|]. apply (Del_app [BSLASH] [] [c] [c]); [by apply Del_dropped|].
    apply Del_refl.
Qed.

Lemma Piece_del s w : Piece s w → Del s w.
Proof.
  assert (∀ b s w, is_ascii b = true → Del s w → Del (b :: s ++ [b]) w) as Hq.
  { intros b s' w' Hb Hs. apply (Del_drop (b :: s') w' b); [|done].
    apply (Del_app [b] []); [by apply Del_dropped|done]. }
  destruct 1 as [c _|c|s _|s w Hs].
  - apply Del_refl.
  - apply (Del_app [BSLASH] [] [c] [c]); [by apply Del_dropped|apply Del_refl].
  - apply Hq; [done|apply Del_refl].
  - apply Hq; [done|by apply Quoted_del].
Qed.

Lemma Pieces_del s w : Pieces s w → Del s w.
Proof. induction 1; [constructor|]. by apply Del_app; [|apply Piece_del]. Qed.

Lemma Words_del s ws : Words s ws → Del s (concat ws).
Proof.
  induction 1 as [|s ws b _ IH Hb|s ws t w b _ IH Ht _ Hb]; [constructor|..].
  - apply Del_drop; [done|by apply is_blank_ascii].
  - rewrite concat_app. apply Del_app; [done|]. cbn. rewrite app_nil_r.
    apply Del_drop; [by apply Pieces_del|by apply is_blank_ascii].
Qed.

Lemma Line_del s ws : Line s ws → Del s (concat ws).
Proof.
  destruct 1 as [s ws Hs|s ws t w Hs Ht _]; [by apply Words_del|].
  rewrite concat_app. cbn. rewrite app_nil_r. apply Del_app; [by apply Words_del|by apply Pieces_del].
Qed.

Lemma Words_valid s ws : Words s ws → ∀ t, ValidString (s ++ t) = true →
  Forall (λ w, ValidString w = true) ws ∧ ValidString t = true.
Proof.
  induction 1 as [|s ws b _ IH Hb|s ws t w b _ IH Ht _ Hb]; intros u Hu; [done|..];
    apply is_blank_ascii in Hb; rewrite <-?app_assoc in Hu; cbn in Hu.
  - apply ValidString_ascii in Hu as [Hs Hu]; [|done]. split; [|done].
    apply (IH []). by rewrite app_nil_r.
  - rewrite app_assoc in Hu. apply ValidString_ascii in Hu as [Hs Hu]; [|done]. split; [|done].
    apply IH in Hs as [Hws Hs]. apply Forall_app_2; [done|]. apply Forall_singleton.
    pose proof (Del_valid _ _ (Pieces_del _ _ Ht) []) as Hv. rewrite !app_nil_r in Hv. auto.
Qed.

Lemma Line_valid s ws :
  Line s ws → ValidString s = true → Forall (λ w, ValidString w = true) ws.
Proof.
  destruct 1 as [s ws Hs|s ws t w Hs Ht _]; intros Hv.
  - apply (Words_valid _ _ Hs []). by rewrite app_nil_r.
  - apply (Words_valid _ _ Hs) in Hv as [Hws Hv]. apply Forall_app_2; [done|].
    apply Forall_singleton.
    pose proof (Del_valid _ _ (Pieces_del _ _ Ht) []) as Hv'. rewrite !app_nil_r in Hv'. auto.
Qed.

(** * Validation *)
Lemma validateLexicalInput_ok input u :
  validateLexicalInput input = Ok u ↔ ∀ ch, ch ∈ input →
    (is_control ch = true → ch = TAB) ∧ ch ∉ metacharacters.
Proof.
  unfold validateLexicalInput. rewrite each_ok.
  assert (∀ ch, validateLexicalByte ch = Ok tt ↔
    (is_control ch = true → ch = TAB) ∧ ch ∉ metacharacters) as H; [|naive_solver].
  intros ch. unfold validateLexicalByte, is_control.
  destruct (decide (ch = TAB)) as [-> |Ht].
  { rewrite (bool_decide_eq_false_2 (TAB ∈ _)) by (intros H; by apply (bool_decide_pack _) in H).
    split; [|done]. intros _. split; [done|]. intros H; by apply (bool_decide_pack _) in H. }
  rewrite (bool_decide_eq_false_2 (ch = TAB)), andb_true_r by done.
  destruct (_ || _); [split; [done|]; intros [H _]; by apply Ht in H|].
  case_bool_decide; naive_solver.
Qed.

Lemma validateCommand_ok command :
  validateCommand command = Ok tt ↔
  Executable command ≠ [] ∧
  fits (Executable command :: Args command) ∧
  Forall (λ w, ValidString w = true ∧ ∀ ch, ch ∈ w → is_control ch = false)
    (Executable command :: Args command) ∧
  blen (concat (Executable command :: Args command)) ≤ MaxCommandBytes.
Proof.
  assert (∀ item u, validateItem item = Ok u ↔
    ValidString item = true ∧ blen item ≤ MaxArgumentBytes ∧
    ∀ ch, ch ∈ item → is_control ch = false) as Hitem.
  { intros item []. unfold validateItem. destruct (ValidString item); cbn [negb]; [|naive_solver].
    rewrite Z.gtb_ltb. destruct (Z.ltb_spec MaxArgumentBytes (blen item)).
    { split; [done|]. intros (_ & ? & _). lia. }
    destruct (existsb is_control item) eqn:E.
    - split; [done|]. intros (_ & _ & Hc). apply existsb_exists in E as (c & Hin & Hc').
      apply list_elem_of_In, Hc in Hin. congruence.
    - split; [|done]. intros _. split_and!; [done..|]. intros ch Hin.
      destruct (is_control ch) eqn:Ec; [|done].
      assert (existsb is_control item = true); [|congruence].
      apply existsb_exists. exists ch. by rewrite <-list_elem_of_In. }
  assert (∀ l t t', for_each (λ total item, _ ← validateItem item; Ok (total + blen item)) t l
      = Ok t' ↔ Forall (λ item, ValidString item = true ∧ blen item ≤ MaxArgumentBytes ∧
        ∀ ch, ch ∈ item → is_control ch = false) l ∧ t' = t + blen (concat l)) as Hloop.
  { induction l as [|item l IH]; intros t t'; cbn [for_each].
    { rewrite Forall_nil. unfold blen. cbn. split; [intros [= ->]; split; [done|lia]|].
      intros [_ ->]. f_equal. lia. }
    cbn [concat]. rewrite Forall_cons, blen_app, <-Hitem.
    destruct (validateItem item) as [u|e] eqn:E.
    - destruct u. cbn. rewrite IH, Z.add_assoc. naive_solver.
    - cbn. split; [done|]. intros [[H _] _]. done. }
  unfold validateCommand. case_bool_decide as Hex; [split; [done|]; by intros [? _]|].
  rewrite !Z.gtb_ltb. unfold fits. cbn [length].
  destruct (Z.ltb_spec MaxArguments (Z.of_nat (length (Args command)))) as [Hn|Hn].
  { split; [done|]. intros (_ & [_ ?] & _). lia. }
  rewrite bind_ok. split.
  - intros (total & Ht & Hk). apply Hloop in Ht as [Hall ->].
    rewrite Z.gtb_ltb in Hk. destruct (Z.ltb_spec MaxCommandBytes (0 + blen (concat (Executable command :: Args command)))); [done|].
    split_and!; [done| |lia| |lia]; eapply Forall_impl; try exact Hall; naive_solver.
  - intros (_ & [Hs _] & Hv & Htot). eexists; split; [apply Hloop; split; [|done]|].
    + rewrite Forall_forall in Hs, Hv |- *. intros w Hw. specialize (Hs w Hw). specialize (Hv w Hw).
      naive_solver.
    + rewrite Z.gtb_ltb, (proj2 (Z.ltb_ge _ _)) by lia. done.
Qed.

(** C35: the lexer implements the grammar.  A command line is accepted, with a
    given executable and arguments, exactly when it is valid UTF-8 within the
    size limit and free of control bytes (tabs excepted) and shell
    metacharacters, the grammar splits it into these words, the first of which
    is not empty, the words are within the limits and no tab was quoted. *)
Theorem ParseEnvironmentCommand_grammar input command :
  ParseEnvironmentCommand input = Ok command ↔
  (ValidString input = true ∧ blen input ≤ MaxCommandBytes ∧
   ∀ ch, ch ∈ input → (is_control ch = true → ch = TAB) ∧ ch ∉ metacharacters) ∧
  Line input (Executable command :: Args command) ∧
  Executable command ≠ [] ∧
  Z.of_nat (length (Args command)) ≤ MaxArguments ∧
  Forall (λ w, blen w ≤ MaxArgumentBytes ∧ TAB ∉ w) (Executable command :: Args command).
Proof.
  unfold ParseEnvironmentCommand.
  destruct (ValidString input) eqn:Ev; cbn [negb]; [|naive_solver].
  rewrite Z.gtb_ltb. destruct (Z.ltb_spec MaxCommandBytes (blen input)) as [|Hlen].
  { split; [done|]. intros [(_ & ? & _) _]. lia. }
  rewrite bind_ok. setoid_rewrite validateLexicalInput_ok.
  assert (fits []) as Hf0 by (split; [done|vm_compute; discriminate]).
  split.
  - intros (_ & Hlex & Hr). apply bind_ok in Hr as (s & Hrun & Hr).
    apply lex_run_ok in Hrun as [-> Hf]; [|done]. split; [done|].
    set (s := foldl lex_next lex_init input) in *.
    destruct (escaped s) eqn:Ee; [done|]. case_bool_decide as Es; cbn [negb] in Hr; [|done].
    apply bind_ok in Hr as (s' & Hfin & Hr). apply finish_ok in Hfin as [-> Hf']; [|done].
    destruct (words (finish_free s)) as [|[|c ex] args] eqn:Ew; [done..|].
    apply bind_ok in Hr as ([] & Hval & [= <-]). cbn [Executable Args].
    assert (Line input ((c :: ex) :: args)) as Hline by by apply lex_accepts.
    apply validateCommand_ok in Hval as (_ & [Hs Hn] & Hc & _). cbn [Executable Args] in *.
    split_and!; [done|done|cbn [length] in Hn; lia|].
    rewrite Forall_forall in Hs, Hc |- *. intros w Hw. split; [by apply Hs|].
    intros Ht. apply Hc in Hw as [_ Hw]. by apply Hw in Ht.
  - intros ((_ & _ & Hlex) & Hline & Hne & Hn & Hws). exists tt. split; [done|].
    assert (fits (Executable command :: Args command)) as Hf.
    { split; [eapply Forall_impl; [exact Hws|naive_solver]|cbn [length]; lia]. }
    destruct (proj2 (lex_accepts _ _) Hline) as (Hm & He & Hw).
    set (s := foldl lex_next lex_init input) in *.
    assert (fits (words s)) as Hfs.
    { rewrite <-Hw in Hf. revert Hf. unfold finish_free. destruct (started s); cbn; [|done].
      apply fits_app. }
    rewrite (proj2 (lex_run_ok input lex_init s Hf0) (conj eq_refl Hfs)). cbn [mbind result_bind].
    rewrite He, bool_decide_eq_true_2 by done. cbn [negb].
    rewrite (proj2 (finish_ok s (finish_free s) Hfs)) by by rewrite Hw.
    cbn [mbind result_bind]. rewrite Hw. destruct command as [[|c ex] args]; [done|].
    cbn [Executable Args] in *.
    rewrite (proj2 (validateCommand_ok (mkCommand (c :: ex) args))); [done|].
    cbn [Executable Args]. pose proof (Line_valid _ _ Hline Ev) as Hv.
    pose proof (Line_del _ _ Hline) as Hd%Del_sublist.
    split_and!; [done|done| |].
    + rewrite Forall_forall in Hv, Hws |- *. intros w Hin. split; [by apply Hv|].
      intros ch Hch. destruct (is_control ch) eqn:Ec; [|done].
      assert (ch ∈ input) as Hchi.
      { eapply elem_of_sublist; [|exact Hd]. apply list_elem_of_In, in_concat.
        exists w. by rewrite <-!list_elem_of_In. }
      apply Hlex in Hchi as [Htab _]. rewrite Htab in Hch by done. by apply Hws in Hin as [_ ?].
    + apply sublist_length in Hd. unfold blen in *. lia.
Qed.

(** * Quoting *)
Definition quote_byte (c : byte) : list byte :=
  if bool_decide (c = DQUOTE ∨ c = BSLASH) then [BSLASH; c] else [c].
Definition quote_item (w : list byte) : list byte :=
  DQUOTE :: concat (quote_byte <$> w) ++ [DQUOTE].
(** A command line for a command: every item quoted, a blank after each. *)
Definition render (command : Command) : list byte :=
  concat ((λ w, quote_item w ++ [SP]) <$> Executable command :: Args command).

Lemma Quoted_quote w : Quoted (concat (quote_byte <$> w)) w.
Proof.
  induction w as [|c w IH] using rev_ind; [constructor|].
  rewrite fmap_app, concat_app. cbn [fmap list_fmap concat]. rewrite app_nil_r.
  unfold quote_byte at 2. case_bool_decide as H; [by constructor|].
  apply Quoted_plain; naive_solver.
Qed.

Lemma Words_render ws : Words (concat ((λ w, quote_item w ++ [SP]) <$> ws)) ws.
Proof.
  induction ws as [|w ws IH] using rev_ind; [constructor|].
  rewrite fmap_app, concat_app. cbn [fmap list_fmap concat]. rewrite app_nil_r.
  apply Words_word; [done| |done|done].
  apply (Pieces_snoc [] []); [constructor|]. apply Piece_double, Quoted_quote.
Qed.

Lemma ValidString_quote w : ValidString w = true → ValidString (quote_item w) = true.
Proof.
  intros H. unfold quote_item.
  apply (ValidString_ascii []); [done|]. split; [done|].
  apply ValidString_ascii; [done|]. split; [|done].
  apply ValidString_spec in H. revert w H. apply utf8_decode_ind; [done|..].
  - intros b s Hb IH. cbn [fmap list_fmap concat].
    assert (ValidString (b :: concat (quote_byte <$> s)) = true) as Hs
      by by apply (ValidString_ascii []).
    unfold quote_byte. case_bool_decide; [|done]. cbn [app]. by apply (ValidString_ascii []).
  - intros c s _ Hc Hdec IH. rewrite fmap_app, concat_app.
    assert (concat (quote_byte <$> c) = c) as ->.
    { clear - Hc. induction Hc as [|b c Hb _ IH]; [done|]. cbn [fmap list_fmap concat].
      change (fmap quote_byte c) with (quote_byte <$> c). rewrite IH. unfold quote_byte.
      rewrite bool_decide_eq_false_2; [done|]. by intros [-> | ->]. }
    apply ValidString_spec. destruct (Hdec (concat (quote_byte <$> s))) as [r ->].
    apply fmap_is_Some. by apply ValidString_spec.
Qed.

(** The bytes of a rendered line are those of the items and three more. *)
Lemma elem_of_render command ch :
  ch ∈ render command → ch ∈ [DQUOTE; BSLASH; SP] ∨
  ∃ w, w ∈ Executable command :: Args command ∧ ch ∈ w.
Proof.
  unfold render. generalize (Executable command :: Args command). intros ws.
  rewrite list_elem_of_In, in_concat. intros (l & Hl & Hch).
  apply list_elem_of_In, list_elem_of_fmap in Hl as (w & -> & Hw).
  apply list_elem_of_In in Hch. unfold quote_item in Hch.
  apply elem_of_app in Hch as [Hch | ->%list_elem_of_singleton]; [|set_solver].
  apply elem_of_cons in Hch as [-> |Hch]; [set_solver|].
  apply elem_of_app in Hch as [Hch | ->%list_elem_of_singleton]; [|set_solver].
  apply list_elem_of_In, in_concat in Hch as (k & Hk & Hch).
  apply list_elem_of_In, list_elem_of_fmap in Hk as (c & -> & Hc). apply list_elem_of_In in Hch.
  unfold quote_byte in Hch. case_bool_decide; set_solver.
Qed.

(** quoting loses nothing.  Every command that passes validation and holds
    no shell metacharacter is what the lexer reads from its quoted line, blanks,
    quotes, backslashes and empty arguments included, if the line is within the
    size limit. *)
Theorem ParseEnvironmentCommand_render command :
  validateCommand command = Ok tt →
  (∀ w ch, w ∈ Executable command :: Args command → ch ∈ w → ch ∉ metacharacters) →
  blen (render command) ≤ MaxCommandBytes →
  ParseEnvironmentCommand (render command) = Ok command.
Proof.
  intros (Hne & [Hs Hn] & Hv & _)%validateCommand_ok Hm Hlen.
  rewrite Forall_forall in Hs, Hv. apply ParseEnvironmentCommand_grammar.
  split_and!; [|done| |constructor; apply Words_render|done|cbn [length] in Hn; lia|].
  - unfold render. generalize dependent (Executable command :: Args command).
    intros ws _ _ Hv _. induction ws as [|w ws IH]; [done|]. cbn [fmap list_fmap concat].
    rewrite <-app_assoc. cbn [app]. apply ValidString_ascii; [done|]. split.
    + apply ValidString_quote, Hv. by left.
    + apply IH. intros w' Hw'. apply Hv. by right.
  - intros ch [Hch|(w & Hw & Hch)]%elem_of_render.
    + rewrite !elem_of_cons, elem_of_nil in Hch.
      destruct Hch as [-> |[-> |[-> |[]]]]; (split; [done|]);
        intros H; by apply (bool_decide_pack _) in H.
    + split; [|by eapply Hm]. apply Hv in Hw as [_ Hw]. intros Hc. rewrite Hw in Hc by done. done.
  - apply Forall_forall. intros w Hw. split; [by apply Hs|]. intros Ht.
    apply Hv in Hw as [_ Hw]. by apply Hw in Ht.
Qed.

(** * Concrete inputs *)
Module LexerDemo.
(** A double-quoted word, an escaped blank after a single-quoted word, and an
    empty word. *)
Definition line : list byte :=
  String.list_byte_of_string "vi -c " ++ [DQUOTE] ++ String.list_byte_of_string "set a" ++
  [DQUOTE; SP] ++ String.list_byte_of_string "'b c'" ++ [BSLASH; SP] ++
  String.list_byte_of_string "d " ++ [DQUOTE; DQUOTE].
Example line_example :
  ParseEnvironmentCommand line =
    Ok (mkCommand (String.list_byte_of_string "vi")
          (String.list_byte_of_string <$> ["-c"; "set a"; "b c d"; ""])).
Proof. vm_compute. reflexivity. Qed.

(** A tab separates words, and is refused inside quotes. *)
Example tab_example :
  ParseEnvironmentCommand [x76; TAB; x61] = Ok (mkCommand [x76] [[x61]]) ∧
  ParseEnvironmentCommand [x76; TAB; DQUOTE; TAB; DQUOTE] = Err ErrValidateControl ∧
  ParseEnvironmentCommand [x76; x24] = Err (ErrMetacharacter x24).
Proof. vm_compute. split_and!; reflexivity. Qed.

Definition command : Command :=
  mkCommand (String.list_byte_of_string "e d")
    [[]; [DQUOTE; BSLASH]; [xc3; xa9]].

Lemma ParseEnvironmentCommand_render_witness :
  ParseEnvironmentCommand (render command) = Ok command.
Proof.
  apply ParseEnvironmentCommand_render.
  - vm_compute. reflexivity.
  - assert (Forall (Forall (λ ch, ch ∉ metacharacters))
              (Executable command :: Args command)) as H.
    { apply (bool_decide_unpack _). vm_compute. exact I. }
    intros w ch Hw Hch. rewrite Forall_forall in H. specialize (H w Hw).
    rewrite Forall_forall in H. by apply H.
  - vm_compute. discriminate.
Defined.
End LexerDemo.
