(* ===== verification/GoPath.v ===== *)
(** Slash-separated paths: the functions of package path that the program calls,
    and its own confinement checks built on them ([pathWithin] of
    src/internal/transfer/plan.go, [validateDiscoveredEntry] of
    src/internal/transfer/directory.go).

    The functions work on the characters of a string; a path is split at its
    slashes into elements. *)
From S2P Require Import Prelude Domain.

Definition chars : string → list ascii := String.list_ascii_of_string.
Definition str : list ascii → string := String.string_of_list_ascii.
Definition SLASH : ascii := "/".
Definition DOT : ascii := ".".

(** * Package strings *)
Definition HasPrefix (s prefix : list ascii) : bool :=
  bool_decide (take (length prefix) s = prefix).
Definition TrimPrefix (s prefix : list ascii) : list ascii :=
  if HasPrefix s prefix then drop (length prefix) s else s.
Definition TrimSuffix (s suffix : list ascii) : list ascii :=
  if (length suffix <=? length s)%nat &&
     bool_decide (drop (length s - length suffix) s = suffix)
  then take (length s - length suffix) s else s.

(** * Package path *)
Fixpoint split (p : list ascii) : list (list ascii) :=
  match p with
  | [] => [[]]
  | c :: p =>
    if bool_decide (c = SLASH) then [] :: split p else
    match split p with e :: es => (c :: e) :: es | [] => [[c]] end
  end.
Fixpoint join (es : list (list ascii)) : list ascii :=
  match es with
  | [] => []
  | [e] => e
  | e :: es => e ++ SLASH :: join es
  end.
Definition rooted (p : list ascii) : bool := HasPrefix p [SLASH].

(** One element of [path.Clean], onto the cleaned elements in reverse. *)
Definition clean_step (r : bool) (acc : list (list ascii)) (e : list ascii) :
    list (list ascii) :=
  if bool_decide (e = [] ∨ e = [DOT]) then acc else
  if bool_decide (e = [DOT; DOT]) then
    match acc with
    | [] => if r then [] else [e]
    | d :: acc' => if bool_decide (d = [DOT; DOT]) then e :: acc else acc'
    end
  else e :: acc.
Definition clean_elems (r : bool) (es : list (list ascii)) : list (list ascii) :=
  reverse (foldl (clean_step r) [] es).
Definition clean (p : list ascii) : list ascii :=
  let out := (if rooted p then [SLASH] else []) ++ join (clean_elems (rooted p) (split p)) in
  if bool_decide (out = []) then [DOT] else out.

(** [path.Join(a, b)]. *)
Definition join2 (a b : list ascii) : list ascii :=
  if bool_decide (a = [] ∧ b = []) then []
  else clean (if bool_decide (a = []) then b else a ++ SLASH :: b).

(** [path.Split]: up to and including the last slash, and the rest. *)
Definition last_elem (p : list ascii) : list ascii := List.last (split p) [].
Definition dir_part (p : list ascii) : list ascii := take (length p - length (last_elem p)) p.
Definition dir (p : list ascii) : list ascii := clean (dir_part p).

Fixpoint strip_slashes (fuel : nat) (p : list ascii) : list ascii :=
  match fuel with
  | O => p
  | S fuel => if bool_decide (last p = Some SLASH)
              then strip_slashes fuel (take (length p - 1) p) else p
  end.
Definition base (p : list ascii) : list ascii :=
  if bool_decide (p = []) then [DOT] else
  let e := last_elem (strip_slashes (length p) p) in
  if bool_decide (e = []) then [SLASH] else e.

(** [path.Ext]: from the last dot of the last element. *)
Fixpoint ext_of (e : list ascii) : list ascii :=
  match e with
  | [] => []
  | c :: e' =>
    if bool_decide (c = DOT) && bool_decide (ext_of e' = []) then c :: e' else ext_of e'
  end.
Definition ext (p : list ascii) : list ascii := ext_of (last_elem p).

Definition path_Clean (p : string) : string := str (clean (chars p)).
Definition path_Join (a b : string) : string := str (join2 (chars a) (chars b)).
Definition path_Base (p : string) : string := str (base (chars p)).
Definition path_Dir (p : string) : string := str (dir (chars p)).
Definition path_Ext (p : string) : string := str (ext (chars p)).
Definition path_IsAbs (p : string) : bool := rooted (chars p).

(** * The program's paths *)
Definition childLocation (directory : Location) (name : string) : Location :=
  mkLocation (loc_EndpointID directory) (path_Join (loc_Path directory) name).

Definition pathWithin (root candidate : string) : bool :=
  let rootPath := TrimSuffix (chars root) [SLASH] in
  let candidatePath := chars candidate in
  if bool_decide (rootPath = []) then HasPrefix candidatePath [SLASH] else
  bool_decide (candidatePath = rootPath) || HasPrefix candidatePath (rootPath ++ [SLASH]).

Definition planError (code operation : string) (location : Location)
    (message retry : string) : error :=
  EOp code message operation (loc_EndpointID location) (Some location) (mkRetry retry 0)
    EffectNone None.

(** [validateDiscoveredEntry]: the entry's path relative to the root. *)
Definition validateDiscoveredEntry (root directory : Location) (entry : Entry) :
    result error string :=
  let p := loc_Path (entry_Location entry) in
  let name := entry_Name entry in
  if negb (String.eqb (loc_EndpointID (entry_Location entry)) (loc_EndpointID root)) ||
     String.eqb p "" || String.eqb name "" || String.eqb name "." || String.eqb name ".." ||
     negb (String.eqb (path_Base name) name) ||
     negb (String.eqb (path_Dir p) (loc_Path directory)) ||
     negb (String.eqb (path_Base p) name)
  then Err (planError CodeIntegrityFailed "discover_directory" directory
              "provider returned an entry outside the listed directory" RetryNever) else
  let rootPath := TrimSuffix (chars (loc_Path root)) [SLASH] in
  let prefix := if bool_decide (rootPath = []) then [SLASH] else rootPath ++ [SLASH] in
  let relative := TrimPrefix (chars p) prefix in
  if bool_decide (relative = chars p) || bool_decide (relative = []) ||
     bool_decide (relative = [DOT]) || bool_decide (relative = [DOT; DOT]) ||
     HasPrefix relative [DOT; DOT; SLASH] || rooted relative
  then Err (planError CodeIntegrityFailed "discover_directory" (entry_Location entry)
              "entry escapes the frozen source root" RetryNever)
  else Ok (str relative).

(** * Splitting and joining *)
Lemma chars_str l : chars (str l) = l.
Proof. apply String.list_ascii_of_string_of_list_ascii. Qed.
Lemma str_chars s : str (chars s) = s.
Proof. apply String.string_of_list_ascii_of_string. Qed.

Lemma split_nonempty p : split p ≠ [].
Proof. destruct p as [|c p]; cbn; [done|]. repeat case_match; done. Qed.

Lemma split_slashless p : Forall (λ e, SLASH ∉ e) (split p).
Proof.
  induction p as [|c p IH]; cbn [split]; [repeat constructor; by intros ?%elem_of_nil|].
  case_bool_decide as Hc; [constructor; [by intros ?%elem_of_nil|done]|].
  destruct (split p) as [|e es].
  - repeat constructor. intros Hin%list_elem_of_singleton; by destruct Hc.
  - inversion_clear IH. constructor; [|done]. rewrite elem_of_cons. naive_solver.
Qed.

Lemma join_cons e es : es ≠ [] → join (e :: es) = e ++ SLASH :: join es.
Proof. by destruct es. Qed.

Lemma join_split p : join (split p) = p.
Proof.
  induction p as [|c p IH]; cbn [split]; [done|]. pose proof (split_nonempty p).
  case_bool_decide as Hc; [subst c; by rewrite join_cons, IH|].
  destruct (split p) as [|e es]; [done|].
  destruct es; cbn [join] in *; by rewrite <-IH.
Qed.

Lemma split_app_slash a b : split (a ++ SLASH :: b) = split a ++ split b.
Proof.
  induction a as [|c a IH]; cbn [app split]; [done|].
  case_bool_decide; [by rewrite IH|]. rewrite IH. pose proof (split_nonempty a).
  by destruct (split a).
Qed.

Lemma split_slashless_one e : SLASH ∉ e → split e = [e].
Proof.
  induction e as [|c e IH]; [done|]. rewrite not_elem_of_cons. intros [Hc He]. cbn [split].
  rewrite bool_decide_eq_false_2 by done. by rewrite IH.
Qed.

Lemma split_join es : es ≠ [] → Forall (λ e, SLASH ∉ e) es → split (join es) = es.
Proof.
  intros Hne Hs. induction Hs as [|e es He Hs IH]; [done|].
  destruct es as [|e' es]; [by apply split_slashless_one|].
  rewrite join_cons, split_app_slash, IH, split_slashless_one by done. done.
Qed.

Lemma join_app es es' : es ≠ [] → es' ≠ [] → join (es ++ es') = join es ++ SLASH :: join es'.
Proof.
  intros Hne Hne'. induction es as [|e es IH]; [done|].
  destruct es as [|e' es]; [by cbn [app]; rewrite join_cons|].
  change ((e :: e' :: es) ++ es') with (e :: ((e' :: es) ++ es')).
  rewrite join_cons, IH, (join_cons e (e' :: es)) by done. by rewrite <-app_assoc.
Qed.

Lemma HasPrefix_app p q : HasPrefix (p ++ q) p = true.
Proof. unfold HasPrefix. apply bool_decide_eq_true. by rewrite take_app_length. Qed.

Lemma HasPrefix_spec s p : HasPrefix s p = true ↔ ∃ q, s = p ++ q.
Proof.
  split; [|intros [q ->]; apply HasPrefix_app]. intros H%bool_decide_eq_true.
  exists (drop (length p) s). rewrite <-(take_drop (length p) s) at 1. by rewrite H.
Qed.

Lemma rooted_spec p : rooted p = true ↔ ∃ q, p = SLASH :: q.
Proof. apply HasPrefix_spec. Qed.

(** * Cleaning *)

(** A normal element names a child: it is not empty, not a dot nor two dots. *)
Definition normal (e : list ascii) : Prop := e ≠ [] ∧ e ≠ [DOT] ∧ e ≠ [DOT; DOT].
Definition clean_shape (r : bool) (es : list (list ascii)) : Prop :=
  ∃ k ns, es = replicate k [DOT; DOT] ++ ns ∧ Forall normal ns ∧ (r = true → k = 0%nat).

Lemma clean_step_normal r acc e : normal e → clean_step r acc e = e :: acc.
Proof.
  intros (H1 & H2 & H3). unfold clean_step. by rewrite !bool_decide_eq_false_2 by naive_solver.
Qed.

Lemma clean_elems_normal r es ns :
  Forall normal ns → clean_elems r (es ++ ns) = clean_elems r es ++ ns.
Proof.
  intros H. unfold clean_elems. rewrite foldl_app.
  generalize (foldl (clean_step r) [] es). induction H as [|n ns Hn _ IH]; intros acc; cbn [foldl].
  { by rewrite app_nil_r. }
  rewrite clean_step_normal, IH by done. rewrite reverse_cons, <-app_assoc. done.
Qed.

Lemma clean_step_shape r acc e :
  clean_shape r (reverse acc) → clean_shape r (reverse (clean_step r acc e)).
Proof.
  intros (k & ns & E & Hns & Hk). unfold clean_step.
  case_bool_decide as H1; [by exists k, ns|]. case_bool_decide as H2.
  - destruct acc as [|d acc].
    + destruct r; [by exists 0%nat, []|]. subst e. by exists 1%nat, [].
    + rewrite reverse_cons in E. destruct ns as [|n ns _] using rev_ind.
      * rewrite app_nil_r in E. destruct k as [|k]; [by destruct (reverse acc)|].
        rewrite replicate_S_end in E. apply app_inj_tail in E as [E ->].
        rewrite bool_decide_eq_true_2 by done. exists (S (S k)), []. rewrite app_nil_r. subst e.
        split_and!; [|done|]; [rewrite !reverse_cons, E; by rewrite <-!replicate_S_end|].
        intros Hr. by apply Hk in Hr.
      * rewrite app_assoc in E. apply app_inj_tail in E as [E ->].
        rewrite Forall_app, Forall_singleton in Hns. destruct Hns as [Hns Hn].
        rewrite bool_decide_eq_false_2 by apply Hn. by exists k, ns.
  - exists k, (ns ++ [e]). rewrite reverse_cons, E, <-app_assoc. split_and!; [done| |done].
    apply Forall_app_2; [done|]. apply Forall_singleton. unfold normal. naive_solver.
Qed.

Lemma clean_elems_shape r es : clean_shape r (clean_elems r es).
Proof.
  unfold clean_elems. assert (clean_shape r (reverse [])) as H by by exists 0%nat, [].
  revert H. generalize (@nil (list ascii)). induction es as [|e es IH]; intros acc H; [done|].
  cbn [foldl]. apply IH, clean_step_shape, H.
Qed.

Lemma clean_step_slashless r acc e :
  Forall (λ e, SLASH ∉ e) acc → SLASH ∉ e → Forall (λ e, SLASH ∉ e) (clean_step r acc e).
Proof.
  intros Ha He. unfold clean_step. repeat case_match; try done; try by constructor.
  by inversion Ha.
Qed.

Lemma clean_elems_slashless r es :
  Forall (λ e, SLASH ∉ e) es → Forall (λ e, SLASH ∉ e) (clean_elems r es).
Proof.
  intros H. unfold clean_elems. apply Forall_reverse.
  assert (Forall (λ e, SLASH ∉ e) (@nil (list ascii))) as Ha by done. revert Ha.
  generalize (@nil (list ascii)). induction H as [|e es He _ IH]; intros acc Ha; [done|].
  cbn [foldl]. by apply IH, clean_step_slashless.
Qed.

Lemma clean_idempotent p : rooted p = true → clean (clean p) = clean p.
Proof.
  intros Hr. unfold clean at 2 3. rewrite Hr. rewrite !bool_decide_eq_false_2 by done.
  destruct (clean_elems_shape true (split p)) as (k & ns & E & Hns & Hk).
  pose proof (clean_elems_slashless true (split p) (split_slashless p)) as Hs.
  rewrite Hk in E by done. cbn [replicate app] in E. rewrite E in *.
  destruct (decide (ns = [])) as [-> |Hne]; [done|].
  unfold clean. assert (rooted ([SLASH] ++ join ns) = true) as -> by apply HasPrefix_app.
  assert (split ([SLASH] ++ join ns) = [[]] ++ ns) as ->.
  { cbn [app split]. rewrite bool_decide_eq_true_2 by done. by rewrite split_join. }
  rewrite clean_elems_normal by done. by rewrite bool_decide_eq_false_2.
Qed.

(** What a clean path looks like. *)
Lemma clean_cases p :
  clean p = p →
  p = [DOT] ∨
  ∃ cs, p = (if rooted p then [SLASH] else []) ++ join cs ∧ cs = clean_elems (rooted p) (split p) ∧
    clean_shape (rooted p) cs ∧ Forall (λ e, SLASH ∉ e) cs ∧ (rooted p = false → cs ≠ []).
Proof.
  unfold clean. set (cs := clean_elems (rooted p) (split p)). case_bool_decide as H; [by left|].
  intros E. right. exists cs. split_and!; [done..|apply clean_elems_shape| |].
  - apply clean_elems_slashless, split_slashless.
  - intros Hr Hcs. rewrite Hr, Hcs in H. done.
Qed.

Lemma clean_shape_suffix r a b :
  clean_shape r (a ++ b) → Forall normal b ∨ (r = false ∧ ∃ b', b = [DOT; DOT] :: b').
Proof.
  intros (k & ns & E & Hns & Hk). apply app_eq_app in E as [l [[Ea Eb] | [Ea Eb]]].
  - left. rewrite Eb in Hns. by apply Forall_app in Hns as [_ ?].
  - destruct l as [|d l]; [left; by rewrite Eb|]. right.
    assert (d = [DOT; DOT]) as -> .
    { eapply elem_of_replicate_inv. rewrite Ea. apply elem_of_app. right. by left. }
    split; [|eauto]. destruct r; [|done]. rewrite Hk in Ea by done. by destruct a.
Qed.

(** The elements of a path below a clean root that passes the program's check
    are normal. *)
Lemma relative_normal rootPath rel :
  let p := rootPath ++ SLASH :: rel in
  clean p = p → rel ≠ [] → rel ≠ [DOT; DOT] → HasPrefix rel [DOT; DOT; SLASH] = false →
  Forall normal (split rel).
Proof.
  cbv zeta. intros Hc H1 H2 H3.
  assert (split (rootPath ++ SLASH :: rel) = split rootPath ++ split rel) as Hsp
    by apply split_app_slash.
  set (p := rootPath ++ SLASH :: rel) in *.
  assert (∃ a, clean_shape (rooted p) (a ++ split rel)) as [a Ha].
  { destruct (clean_cases p Hc) as [E|(cs & E & _ & Hsh & Hsl & Hne)].
    { subst p. destruct rootPath as [|c [|? ?]]; cbn in E; congruence. }
    destruct (rooted p) eqn:Er.
    - destruct cs as [|c0 cs0].
      { exfalso. cbn in E. subst p. destruct rootPath as [|c [|? ?]]; cbn in E; congruence. }
      rewrite E in Hsp. cbn [app split] in Hsp. rewrite bool_decide_eq_true_2 in Hsp by done.
      rewrite split_join in Hsp by done.
      pose proof (split_nonempty rootPath). destruct (split rootPath) as [|e0 a]; [done|].
      injection Hsp as _ Hsp. exists a. by rewrite <-Hsp.
    - exists (split rootPath). rewrite <-Hsp, E. cbn [app].
      rewrite split_join by auto. done. }
  destruct (clean_shape_suffix _ _ _ Ha) as [|(_ & b' & Hb)]; [done|]. exfalso.
  assert (rel = join (split rel)) as E by by rewrite join_split.
  rewrite Hb in E. destruct b' as [|e b']; [done|]. rewrite join_cons in E by done.
  apply not_true_iff_false in H3. apply H3, HasPrefix_spec. by exists (join (e :: b')).
Qed.

(** Joining normal elements to a clean absolute directory only appends. *)
Lemma TrimSuffix_slash p : TrimSuffix (p ++ [SLASH]) [SLASH] = p.
Proof.
  unfold TrimSuffix. rewrite length_app. cbn [length]. rewrite (proj2 (Nat.leb_le _ _)) by lia.
  replace (length p + 1 - 1)%nat with (length p) by lia.
  by rewrite drop_app_length, take_app_length, bool_decide_eq_true_2.
Qed.

Lemma TrimSuffix_none p c : c ≠ SLASH → TrimSuffix (p ++ [c]) [SLASH] = p ++ [c].
Proof.
  intros Hc. unfold TrimSuffix. rewrite length_app. cbn [length].
  replace (length p + 1 - 1)%nat with (length p) by lia.
  rewrite drop_app_length, bool_decide_eq_false_2, andb_false_r; [done|congruence].
Qed.

Lemma join_last es : es ≠ [] → Forall (λ e, SLASH ∉ e) es → List.last es [] ≠ [] →
  ∃ q c, join es = q ++ [c] ∧ c ≠ SLASH.
Proof.
  intros Hne Hs Hl. destruct es as [|e es _] using rev_ind; [done|].
  rewrite last_last in Hl. rewrite Forall_app, Forall_singleton in Hs. destruct Hs as [_ He].
  destruct e as [|c e _] using rev_ind; [done|].
  assert (c ≠ SLASH) by (intros ->; apply He, elem_of_app; right; by left).
  destruct es as [|e' es].
  - exists e, c. done.
  - rewrite join_app by done. cbn [join]. exists (join (e' :: es) ++ SLASH :: e), c.
    by rewrite <-app_assoc.
Qed.

Lemma join2_normal d rel :
  clean d = d → rooted d = true → rel ≠ [] → Forall normal (split rel) →
  join2 d rel = TrimSuffix d [SLASH] ++ SLASH :: rel.
Proof.
  intros Hc Hr Hne Hn. unfold join2.
  assert (d ≠ []) as Hd by (intros ->; done).
  rewrite !bool_decide_eq_false_2 by naive_solver.
  assert (rooted (d ++ SLASH :: rel) = true) as Hr'.
  { apply rooted_spec in Hr as [q ->]. apply rooted_spec. by exists (q ++ SLASH :: rel). }
  unfold clean. rewrite Hr', split_app_slash, clean_elems_normal by done.
  rewrite bool_decide_eq_false_2 by done.
  destruct (clean_cases d Hc) as [-> |(cs & E & Ecs & Hsh & Hsl & _)]; [done|].
  rewrite Hr in *. rewrite <-Ecs. pose proof (split_nonempty rel).
  destruct (decide (cs = [])) as [-> |Hcs].
  - rewrite E. cbn [app join]. rewrite join_split.
    pose proof (TrimSuffix_slash []) as T. cbn [app] in T. by rewrite T.
  - rewrite join_app, join_split by done.
    assert (TrimSuffix d [SLASH] = d) as ->.
    { destruct (join_last cs) as (q & c & Eq & Hcc); [done..| |].
      - destruct Hsh as (k & ns & -> & Hns & Hk). rewrite Hk in Hcs |- * by done. cbn [replicate app] in *.
        destruct ns as [|n ns _] using rev_ind; [done|]. rewrite last_last.
        rewrite Forall_app, Forall_singleton in Hns. apply Hns.
      - rewrite E, Eq, app_assoc. by apply TrimSuffix_none. }
    rewrite E . by rewrite <-app_assoc.
Qed.

(** ** The directory of a child *)
Lemma TrimSuffix_cases d : TrimSuffix d [SLASH] = d ∨ d = TrimSuffix d [SLASH] ++ [SLASH].
Proof.
  unfold TrimSuffix. destruct (_ && _) eqn:E; [right|by left].
  apply andb_true_iff in E as [_ E%bool_decide_eq_true]. cbn [length] in E.
  rewrite <-E at 2. by rewrite take_drop.
Qed.
Lemma clean_trailing_slash d : rooted d = true → clean (d ++ [SLASH]) = clean d.
Proof.
  intros Hr. assert (rooted (d ++ [SLASH]) = true) as Hr'.
  { apply rooted_spec in Hr as [q ->]. apply rooted_spec. by exists (q ++ [SLASH]). }
  unfold clean. rewrite Hr, Hr'. rewrite (split_app_slash d []). unfold clean_elems.
  by rewrite foldl_app.
Qed.
Lemma dir_join2 d name :
  clean d = d → rooted d = true → normal name → SLASH ∉ name → dir (join2 d name) = d.
Proof.
  intros Hc Hr Hn Hs. assert (split name = [name]) as Hsplit by by apply split_slashless_one.
  rewrite join2_normal; [|done|done|apply Hn|by rewrite Hsplit, Forall_singleton].
  unfold dir, dir_part, last_elem. rewrite split_app_slash, Hsplit, last_last.
  rewrite length_app. cbn [length].
  replace (length (TrimSuffix d [SLASH]) + S (length name) - length name)%nat
    with (length (TrimSuffix d [SLASH] ++ [SLASH])) by (rewrite length_app; cbn; lia).
  replace (TrimSuffix d [SLASH] ++ SLASH :: name) with ((TrimSuffix d [SLASH] ++ [SLASH]) ++ name)
    by by rewrite <-app_assoc.
  rewrite take_app_length. destruct (TrimSuffix_cases d) as [-> |<-]; [|done].
  by rewrite clean_trailing_slash.
Qed.

(** * Confinement *)
Lemma validateDiscoveredEntry_ok root directory entry rel :
  validateDiscoveredEntry root directory entry = Ok rel →
  let p := loc_Path (entry_Location entry) in
  loc_EndpointID (entry_Location entry) = loc_EndpointID root ∧
  path_Dir p = loc_Path directory ∧ path_Base p = entry_Name entry ∧
  entry_Name entry ≠ "" ∧ entry_Name entry ≠ "." ∧ entry_Name entry ≠ ".." ∧
  chars p = TrimSuffix (chars (loc_Path root)) [SLASH] ++ SLASH :: chars rel ∧
  chars rel ≠ [] ∧ chars rel ≠ [DOT; DOT] ∧ HasPrefix (chars rel) [DOT; DOT; SLASH] = false.
Proof.
  unfold validateDiscoveredEntry. cbv zeta.
  set (p := loc_Path (entry_Location entry)).
  match goal with |- (if ?b then _ else _) = _ → _ => destruct b eqn:E1; [done|] end.
  set (pre := if bool_decide _ then _ else _).
  match goal with |- (if ?b then _ else _) = _ → _ => destruct b eqn:E2; [done|] end.
  intros [= <-].
  breflect. rewrite ?String.eqb_eq, ?String.eqb_neq in *. rewrite chars_str.
  split_and!; try done.
  assert (pre = TrimSuffix (chars (loc_Path root)) [SLASH] ++ [SLASH]) as Hpre.
  { unfold pre. case_bool_decide as Hp; [by rewrite Hp|done]. }
  unfold TrimPrefix in *. destruct (HasPrefix (chars p) pre) eqn:Ep; [|done].
  apply HasPrefix_spec in Ep as [q Eq]. rewrite Eq, drop_app_length, Hpre, <-app_assoc. done.
Qed.

(** confinement of discovered entries.  Whatever a provider lists, an entry
    that passes validation lies in the listed directory of the root's endpoint
    and below the root; if its path is canonical, the location it is given under
    any canonical absolute directory is that directory followed by its relative
    path: strictly inside that directory and again canonical, and different
    entries get different places. *)
Theorem validated_entry_confined root directory entry rel dest :
  validateDiscoveredEntry root directory entry = Ok rel →
  path_Clean (loc_Path (entry_Location entry)) = loc_Path (entry_Location entry) →
  path_Clean (loc_Path dest) = loc_Path dest → path_IsAbs (loc_Path dest) = true →
  let child := childLocation dest rel in
  pathWithin (loc_Path root) (loc_Path (entry_Location entry)) = true ∧
  loc_EndpointID child = loc_EndpointID dest ∧
  chars (loc_Path child) = TrimSuffix (chars (loc_Path dest)) [SLASH] ++ SLASH :: chars rel ∧
  pathWithin (loc_Path dest) (loc_Path child) = true ∧
  path_Clean (loc_Path child) = loc_Path child ∧
  child ≠ dest.
Proof.
  intros H Hclean Hd Ha. cbv zeta.
  destruct (validateDiscoveredEntry_ok _ _ _ _ H) as
    (Hep & _ & _ & _ & _ & _ & Hp & Hr1 & Hr2 & Hr3).
  unfold path_Clean in *. apply (f_equal chars) in Hclean, Hd. rewrite chars_str in Hclean, Hd.
  rewrite Hp in Hclean.
  pose proof (relative_normal _ _ Hclean Hr1 Hr2 Hr3) as Hn.
  assert (chars (loc_Path (childLocation dest rel)) =
          TrimSuffix (chars (loc_Path dest)) [SLASH] ++ SLASH :: chars rel) as Hchild.
  { cbn. unfold path_Join. rewrite chars_str. by apply join2_normal. }
  assert (∀ r q, chars q = TrimSuffix (chars r) [SLASH] ++ SLASH :: chars rel →
    pathWithin r q = true) as Hwithin.
  { intros r q Hq. unfold pathWithin. rewrite Hq. case_bool_decide as E.
    - rewrite E. apply (HasPrefix_app [SLASH]).
    - apply orb_true_iff. right. apply HasPrefix_spec. exists (chars rel).
      by rewrite <-app_assoc. }
  split_and!; [by apply Hwithin|done|done|by apply Hwithin| |].
  - cbn. unfold path_Clean, path_Join. rewrite chars_str. f_equal.
    unfold join2. rewrite !bool_decide_eq_false_2 by naive_solver. apply clean_idempotent.
    unfold path_IsAbs in Ha. apply rooted_spec in Ha as [q ->]. apply rooted_spec.
    by exists (q ++ SLASH :: chars rel).
  - intros E. rewrite E in Hchild. apply (f_equal length) in Hchild. revert Hchild.
    unfold TrimSuffix. destruct (_ && _) eqn:Et.
    + apply andb_true_iff in Et as [Hl%Nat.leb_le _]. rewrite length_app, length_take. cbn in *.
      destruct (chars rel) eqn:Erel; [done|]. cbn. lia.
    + rewrite length_app. cbn. lia.
Qed.

(** * Concrete inputs *)
Module PathDemo.
Definition no_metadata : Metadata := mkMetadata None None None None None None None.
Definition file (ep path name : string) : Entry :=
  mkEntry (mkLocation ep path) name EntryFile no_metadata Fingerprint_zero None.

Example clean_example :
  (path_Clean "/a/./b//../c/..", path_Clean "", path_Clean "../../x/..", path_Clean "/../a") =
  ("/a", ".", "../..", "/a").
Proof. vm_compute. reflexivity. Qed.

(** Without a canonical path the check is not enough: this entry passes it
    below [/r], and its place under [/dest] is outside [/dest]. *)
Lemma validateDiscoveredEntry_escape :
  let entry := file "ep" "/r/x/../../r/b" "b" in
  validateDiscoveredEntry (mkLocation "ep" "/r") (mkLocation "ep" "/r") entry =
    Ok "x/../../r/b" ∧
  loc_Path (childLocation (mkLocation "ep" "/dest") "x/../../r/b") = "/r/b" ∧
  pathWithin "/dest" "/r/b" = false.
Proof. vm_compute. split_and!; reflexivity. Qed.

Lemma validated_entry_confined_witness :
  let dest := mkLocation "ep2" "/dest" in
  let child := childLocation dest "d/f" in
  pathWithin "/r" "/r/d/f" = true ∧
  loc_EndpointID child = "ep2" ∧
  chars (loc_Path child) = TrimSuffix (chars "/dest") [SLASH] ++ SLASH :: chars "d/f" ∧
  pathWithin "/dest" (loc_Path child) = true ∧
  path_Clean (loc_Path child) = loc_Path child ∧
  child ≠ dest.
Proof.
  apply (validated_entry_confined (mkLocation "ep" "/r") (mkLocation "ep" "/r/d")
           (file "ep" "/r/d/f" "f") "d/f" (mkLocation "ep2" "/dest"));
    vm_compute; reflexivity.
Defined.
End PathDemo.
