(* ===== verification/Edit.v ===== *)
(** The edit session (src/internal/edit/session.go): what happens between opening
    a remote file in an editor and the decision to send it back.

    A session is a value; each operation takes the version it expects and gives a
    new one.  The copies that protect a caller from aliasing are the identity. *)
From S2P Require Import Prelude Utf8 Domain CacheRecords.

Definition sessionIDHexLength : Z := 32.
Definition sha256HexLength : Z := 64.
Definition SyncBackPlanVersion : Z := 2.
Definition SyncBackOrigin := "sync_back".

Definition PurposeEditor := "editor".
Definition PurposeOpener := "opener".

Definition StateReady := "ready".
Definition StateObserving := "observing".
Definition StateNoChanges := "no_changes".
Definition StateAwaitingUploadConfirmation := "awaiting_upload_confirmation".
Definition StateRemoteChanged := "remote_changed".
Definition StateConflict := "conflict".
Definition StateRecoveryRequired := "recovery_required".
Definition StateSyncBackFrozen := "sync_back_frozen".
Definition StateSkipped := "skipped".

Definition ActionNoUpload := "no_upload".
Definition ActionConfirmUpload := "confirm_upload".
Definition ActionRefreshRemote := "refresh_remote".
Definition ActionResolveConflict := "resolve_conflict".
Definition ActionRecoverLocal := "recover_local".

Definition ExpectedPresent := "present".
Definition ExpectedAbsent := "absent".

Definition LocalPresent := "present".
Definition LocalDeleted := "deleted".
Definition RemotePresent := "present".
Definition RemoteDeleted := "deleted".

Definition DecisionUpload := "upload".
Definition DecisionOverwrite := "overwrite".
Definition DecisionSaveAs := "save_as".
Definition DecisionSkip := "skip".

(** * Data *)
Record RemotePrecondition := mkRemotePrecondition {
  rp_Presence : string; rp_Kind : string; rp_Fingerprint : Domain.Fingerprint;
  rp_ContentSHA256 : string;
}.
Record Baseline := mkBaseline {
  SourceEntryID : string; MaterializationID : string; bl_Target : Location;
  ExpectedRemote : RemotePrecondition; bl_LocalSHA256 : string;
}.
Record NewSessionRequest := mkNewSession {
  new_ID : string; new_Purpose : string; new_Baseline : Baseline;
}.
Record LocalObservation := mkLocalObservation { lo_Status : string; lo_SHA256 : string }.
Record RemoteObservation := mkRemoteObservation {
  ro_Status : string; ro_Kind : string; ro_Fingerprint : Domain.Fingerprint;
  ro_ContentSHA256 : string; ro_Size : Z; (* uint64 *)
}.
Record PostEditorObservation := mkObservation {
  ob_Local : LocalObservation; ob_Remote : RemoteObservation;
}.
Record Evaluation := mkEvaluation {
  ev_Action : string; LocalChanged : bool; RemoteChanged : bool;
}.
Record Decision := mkDecision {
  dec_Kind : string; SaveAsTarget : Location; ObservedRemote : RemoteObservation;
  AuditReason : string;
}.
Record PreconditionRenewal := mkRenewal {
  Reason : string; FromVersion : Z; ToVersion : Z;
  Previous : RemotePrecondition; Renewed : RemotePrecondition;
}.
Record SyncBackRequest := mkSyncBack {
  sb_PlanVersion : Z; sb_Origin : string; sb_SessionID : string; sb_SessionVersion : Z;
  sb_SourceEntryID : string; sb_MaterializationID : string; sb_Target : Location;
  sb_LocalSHA256 : string; sb_Decision : string;
  sb_OriginalDestinationPrecondition : RemotePrecondition;
  sb_DestinationPrecondition : RemotePrecondition; sb_Renewal : option PreconditionRenewal;
}.
Record Session := mkSession {
  es_id : string; es_purpose : string; es_version : Z; (* uint64 *) es_state : string;
  es_baseline : Baseline; es_currentLocal : string; es_lastRemote : RemoteObservation;
  es_evaluation : Evaluation; es_frozen : bool;
}.
#[export] Instance Session_eta : Settable Session :=
  λ s, mkSession (es_id s) (es_purpose s) (es_version s) (es_state s) (es_baseline s) (es_currentLocal s)
    (es_lastRemote s) (es_evaluation s) (es_frozen s).
Record PersistentSession := mkPersistent {
  p_ID : string; p_Purpose : string; p_Version : Z; p_State : string; p_Baseline : Baseline;
  p_CurrentLocal : string; p_LastRemote : RemoteObservation; p_Evaluation : Evaluation;
  p_Frozen : bool;
}.
#[export] Instance RemotePrecondition_eq_dec : EqDecision RemotePrecondition.
Proof. solve_decision. Defined.
#[export] Instance RemoteObservation_eq_dec : EqDecision RemoteObservation.
Proof. solve_decision. Defined.
#[export] Instance Evaluation_eq_dec : EqDecision Evaluation.
Proof. solve_decision. Defined.

Definition RemoteObservation_zero : RemoteObservation :=
  mkRemoteObservation "" "" Fingerprint_zero "" 0.
Definition Evaluation_zero : Evaluation := mkEvaluation "" false false.
Definition RemotePrecondition_absent : RemotePrecondition :=
  mkRemotePrecondition ExpectedAbsent "" Fingerprint_zero "".

(** One constructor per message. *)
Inductive EditError :=
| ErrParse (label : string) (width : Z)
| ErrUnknownPurpose (purpose : string)
| ErrBaseline (what : string)
| ErrRestore (what : string)
| ErrVersionConflict (id : string) (have expected : Z)
| ErrTransition (state action : string)
| ErrSaveAs (err : LocationError)
| ErrAuditReason (what : string)
| ErrUncertain (what : string)
| ErrUnknownDecision (kind : string)
| ErrWrapped (what : string) (err : EditError).

(** * Identifiers *)
Definition validateLowerHex (label value : string) (width : Z) : result EditError () :=
  if negb (len value =? width) then Err (ErrParse label width) else
  if forallb is_lower_hex (String.list_ascii_of_string value) then Ok tt
  else Err (ErrParse label width).
Definition ParseSessionID (value : string) : result EditError string :=
  _ ← validateLowerHex "edit session ID" value sessionIDHexLength; Ok value.
Definition ParseSHA256 (value : string) : result EditError string :=
  _ ← validateLowerHex "SHA-256" value sha256HexLength; Ok value.

(** * Creation *)
Definition knownEntryKind (kind : string) : bool :=
  String.eqb kind EntryFile || String.eqb kind EntryDirectory || String.eqb kind EntrySymlink ||
  String.eqb kind EntryOther.
Definition reliableRemoteIdentity (kind : string) (fingerprint : Domain.Fingerprint) : bool :=
  if negb (knownEntryKind kind) then false
  else negb (String.eqb (Strength fingerprint) Domain.FingerprintWeak).

Definition validateBaseline (b : Baseline) : result EditError () :=
  let expected := ExpectedRemote b in
  if negb (is_ok (ParseEntryID (SourceEntryID b))) then Err (ErrBaseline "entry") else
  if negb (is_ok (ParseMaterializationID (MaterializationID b)))
  then Err (ErrBaseline "materialization") else
  if negb (is_ok (NewLocation (loc_EndpointID (bl_Target b)) (loc_Path (bl_Target b))))
  then Err (ErrBaseline "target") else
  if negb (is_ok (ParseSHA256 (bl_LocalSHA256 b))) then Err (ErrBaseline "local digest") else
  if negb (String.eqb (rp_Presence expected) ExpectedPresent) ||
     negb (String.eqb (rp_Kind expected) EntryFile) ||
     negb (reliableRemoteIdentity (rp_Kind expected) (rp_Fingerprint expected))
  then Err (ErrBaseline "expected remote identity is not reliably present") else
  if negb (String.eqb (rp_ContentSHA256 expected) "") &&
     negb (is_ok (ParseSHA256 (rp_ContentSHA256 expected)))
  then Err (ErrBaseline "expected remote content identity is uncertain") else Ok tt.

Definition NewSession (request : NewSessionRequest) : result EditError Session :=
  if negb (is_ok (ParseSessionID (new_ID request)))
  then Err (ErrWrapped "create edit session" (ErrParse "edit session ID" sessionIDHexLength)) else
  if negb (String.eqb (new_Purpose request) PurposeEditor) &&
     negb (String.eqb (new_Purpose request) PurposeOpener)
  then Err (ErrUnknownPurpose (new_Purpose request)) else
  _ ← validateBaseline (new_Baseline request);
  Ok (mkSession (new_ID request) (new_Purpose request) 1 StateReady (new_Baseline request) ""
        RemoteObservation_zero Evaluation_zero false).

(** * Persistence *)
Definition Persistent (s : Session) : PersistentSession :=
  mkPersistent (es_id s) (es_purpose s) (es_version s) (es_state s) (es_baseline s) (es_currentLocal s)
    (es_lastRemote s) (es_evaluation s) (es_frozen s).

Definition decisionStateForAction (action : string) : bool :=
  existsb (String.eqb action) [ActionNoUpload; ActionConfirmUpload; ActionRefreshRemote;
    ActionResolveConflict; ActionRecoverLocal].
Definition knownState (value : string) : bool :=
  existsb (String.eqb value) [StateReady; StateObserving; StateNoChanges;
    StateAwaitingUploadConfirmation; StateRemoteChanged; StateConflict; StateRecoveryRequired;
    StateSyncBackFrozen; StateSkipped].

Definition contradictory (bad : bool) (what : string) : result EditError () :=
  if bad then Err (ErrRestore what) else Ok tt.
Definition untouched (v : PersistentSession) (version : Z) : bool :=
  (p_Version v =? version) && String.eqb (p_CurrentLocal v) "" &&
  bool_decide (p_LastRemote v = RemoteObservation_zero) &&
  bool_decide (p_Evaluation v = Evaluation_zero) && negb (p_Frozen v).
Definition observed_as (v : PersistentSession) (evaluation : Evaluation) : bool :=
  (p_Version v =? 3) && negb (String.eqb (p_CurrentLocal v) "") &&
  bool_decide (p_Evaluation v = evaluation) && negb (p_Frozen v).
Definition validatePersistentState (v : PersistentSession) : result EditError () :=
  let state := p_State v in
  let action := ev_Action (p_Evaluation v) in
  if String.eqb state StateReady then contradictory (negb (untouched v 1)) "ready state" else
  if String.eqb state StateObserving
  then contradictory (negb (untouched v 2)) "observing state" else
  if String.eqb state StateNoChanges
  then contradictory (negb (observed_as v (mkEvaluation ActionNoUpload false false)))
         "no-change state" else
  if String.eqb state StateAwaitingUploadConfirmation
  then contradictory (negb (observed_as v (mkEvaluation ActionConfirmUpload true false)))
         "upload-confirmation state" else
  if String.eqb state StateRemoteChanged
  then contradictory (negb (observed_as v (mkEvaluation ActionRefreshRemote false true)))
         "remote-change state" else
  if String.eqb state StateConflict
  then contradictory (negb (observed_as v (mkEvaluation ActionResolveConflict true true)))
         "conflict state" else
  if String.eqb state StateRecoveryRequired
  then contradictory (negb (p_Version v =? 3) || negb (String.eqb action ActionRecoverLocal) ||
                      p_Frozen v) "recovery state" else
  if String.eqb state StateSyncBackFrozen
  then contradictory (negb (p_Version v =? 4) || String.eqb (p_CurrentLocal v) "" ||
         negb (p_Frozen v) ||
         (negb (String.eqb action ActionConfirmUpload) &&
          negb (String.eqb action ActionResolveConflict))) "frozen sync-back state" else
  if String.eqb state StateSkipped
  then contradictory (negb (p_Version v =? 4) || p_Frozen v ||
                      negb (decisionStateForAction action)) "skipped state"
  else Err (ErrRestore "unknown state").

Definition RestorePersistent (v : PersistentSession) : result EditError Session :=
  base ← map_err (ErrWrapped "restore edit session")
           (NewSession (mkNewSession (p_ID v) (p_Purpose v) (p_Baseline v)));
  if (p_Version v <? 1) || negb (knownState (p_State v))
  then Err (ErrRestore "invalid version or state") else
  if negb (String.eqb (p_CurrentLocal v) "") && negb (is_ok (ParseSHA256 (p_CurrentLocal v)))
  then Err (ErrRestore "local digest") else
  _ ← validatePersistentState v;
  Ok (base <| es_version := p_Version v |> <| es_state := p_State v |>
        <| es_currentLocal := p_CurrentLocal v |> <| es_lastRemote := p_LastRemote v |>
        <| es_evaluation := p_Evaluation v |> <| es_frozen := p_Frozen v |>).

(** * Observation *)
Definition requireVersion (s : Session) (expected : Z) : result EditError () :=
  if negb (expected =? es_version s) then Err (ErrVersionConflict (es_id s) (es_version s) expected)
  else Ok tt.

Definition BeginObservation (s : Session) (expectedVersion : Z) : result EditError Session :=
  _ ← requireVersion s expectedVersion;
  if negb (String.eqb (es_state s) StateReady) then Err (ErrTransition (es_state s) "begin observation")
  else Ok (s <| es_state := StateObserving |> <| es_version := u64 (es_version s + 1) |>).

(** What changed, and whether that is certain. *)
Definition compareLocal (baseline : string) (o : LocalObservation) : bool * bool * string :=
  if negb (String.eqb (lo_Status o) LocalPresent)
  then (String.eqb (lo_Status o) LocalDeleted, false, "") else
  if negb (is_ok (ParseSHA256 (lo_SHA256 o))) then (false, false, "")
  else (negb (String.eqb (lo_SHA256 o) baseline), true, lo_SHA256 o).

Definition fingerprintEqual (left right : Domain.Fingerprint) : bool :=
  bool_decide (fp_Size left = fp_Size right) &&
  bool_decide (fp_ModifiedAt left = fp_ModifiedAt right) &&
  bool_decide (fp_ModifiedPrecision left = fp_ModifiedPrecision right) &&
  bool_decide (fp_FileID left = fp_FileID right) &&
  bool_decide (fp_VersionID left = fp_VersionID right) &&
  bool_decide (fp_HashAlgorithm left = fp_HashAlgorithm right) &&
  bool_decide (fp_HashHex left = fp_HashHex right).

Definition compareRemote (baseline : RemotePrecondition) (o : RemoteObservation) : bool * bool :=
  let present := String.eqb (rp_Presence baseline) ExpectedPresent in
  if String.eqb (ro_Status o) RemoteDeleted
  then (negb (String.eqb (rp_Presence baseline) ExpectedAbsent), true) else
  if String.eqb (ro_Status o) RemotePresent then
    if knownEntryKind (ro_Kind o) && present && negb (String.eqb (ro_Kind o) (rp_Kind baseline))
    then (true, true) else
    if negb (reliableRemoteIdentity (ro_Kind o) (ro_Fingerprint o)) then (false, false) else
    if negb present then (true, true) else
    if String.eqb (ro_Kind o) EntryFile &&
       (negb (is_ok (ParseSHA256 (rp_ContentSHA256 baseline))) ||
        negb (is_ok (ParseSHA256 (ro_ContentSHA256 o)))) then (false, false) else
    (negb (fingerprintEqual (ro_Fingerprint o) (rp_Fingerprint baseline)) ||
     negb (String.eqb (ro_ContentSHA256 o) (rp_ContentSHA256 baseline)), true)
  else (false, false).

Definition evaluate (b : Baseline) (o : PostEditorObservation) : Evaluation * string * string :=
  let '(localChanged, localReliable, current) := compareLocal (bl_LocalSHA256 b) (ob_Local o) in
  let '(remoteChanged, remoteReliable) := compareRemote (ExpectedRemote b) (ob_Remote o) in
  let result action := mkEvaluation action localChanged remoteChanged in
  if negb localReliable then (result ActionRecoverLocal, StateRecoveryRequired, "") else
  if negb remoteReliable then (result ActionRecoverLocal, StateRecoveryRequired, current) else
  if negb localChanged && negb remoteChanged
  then (result ActionNoUpload, StateNoChanges, current) else
  if localChanged && negb remoteChanged
  then (result ActionConfirmUpload, StateAwaitingUploadConfirmation, current) else
  if negb localChanged then (result ActionRefreshRemote, StateRemoteChanged, current)
  else (result ActionResolveConflict, StateConflict, current).

Definition Observe (s : Session) (expectedVersion : Z) (observation : PostEditorObservation) :
    result EditError (Session * Evaluation) :=
  _ ← requireVersion s expectedVersion;
  if negb (String.eqb (es_state s) StateObserving)
  then Err (ErrTransition (es_state s) "record post-editor observation") else
  let '(r, next, current) := evaluate (es_baseline s) observation in
  Ok (s <| es_version := u64 (es_version s + 1) |> <| es_state := next |> <| es_currentLocal := current |>
        <| es_lastRemote := ob_Remote observation |> <| es_evaluation := r |>, r).

(** * Decision *)
Definition preconditionFromObservation (o : RemoteObservation) :
    result EditError RemotePrecondition :=
  if String.eqb (ro_Status o) RemoteDeleted then Ok RemotePrecondition_absent else
  if String.eqb (ro_Status o) RemotePresent then
    if negb (reliableRemoteIdentity (ro_Kind o) (ro_Fingerprint o))
    then Err (ErrUncertain "observed remote identity is uncertain") else
    if String.eqb (ro_Kind o) EntryFile && negb (is_ok (ParseSHA256 (ro_ContentSHA256 o)))
    then Err (ErrUncertain "observed remote content identity is uncertain")
    else Ok (mkRemotePrecondition ExpectedPresent (ro_Kind o) (ro_Fingerprint o)
               (ro_ContentSHA256 o))
  else Err (ErrUncertain "observed remote identity is unavailable").

Definition validateAuditReason (reason : string) : result EditError () :=
  if String.eqb reason "" || (len reason >? 256) then Err (ErrAuditReason "length") else
  if existsb (λ r, (r <? 32) || (r =? 127)) (runes (String.list_byte_of_string reason))
  then Err (ErrAuditReason "control characters") else Ok tt.

Definition decisionState (state : string) : bool :=
  existsb (String.eqb state) [StateNoChanges; StateAwaitingUploadConfirmation; StateRemoteChanged;
    StateConflict; StateRecoveryRequired].

Definition freeze (s : Session) (kind : string) (target : Location)
    (effective : RemotePrecondition) (renewal : option PreconditionRenewal) :
    result EditError (Session * option SyncBackRequest) :=
  if negb (is_ok (ParseSHA256 (es_currentLocal s)))
  then Err (ErrUncertain "current local SHA-256 is uncertain") else
  let next := s <| es_version := u64 (es_version s + 1) |> <| es_state := StateSyncBackFrozen |>
                <| es_frozen := true |> in
  Ok (next, Some (mkSyncBack SyncBackPlanVersion SyncBackOrigin (es_id s) (es_version next)
    (SourceEntryID (es_baseline s)) (MaterializationID (es_baseline s)) target (es_currentLocal s) kind
    (ExpectedRemote (es_baseline s)) effective renewal)).

Definition Decide (s : Session) (expectedVersion : Z) (decision : Decision) :
    result EditError (Session * option SyncBackRequest) :=
  _ ← requireVersion s expectedVersion;
  let kind := dec_Kind decision in
  let target := bl_Target (es_baseline s) in
  let awaiting := String.eqb (es_state s) StateAwaitingUploadConfirmation in
  let conflict := String.eqb (es_state s) StateConflict in
  if String.eqb kind DecisionSkip then
    if negb (decisionState (es_state s)) then Err (ErrTransition (es_state s) "skip edit")
    else Ok (s <| es_version := u64 (es_version s + 1) |> <| es_state := StateSkipped |>, None)
  else if String.eqb kind DecisionUpload then
    if negb awaiting then Err (ErrTransition (es_state s) "confirm upload")
    else freeze s kind target (ExpectedRemote (es_baseline s)) None
  else if String.eqb kind DecisionSaveAs then
    if negb awaiting && negb conflict then Err (ErrTransition (es_state s) "save as") else
    let saveAs := SaveAsTarget decision in
    _ ← map_err ErrSaveAs (NewLocation (loc_EndpointID saveAs) (loc_Path saveAs));
    freeze s kind saveAs RemotePrecondition_absent None
  else if String.eqb kind DecisionOverwrite then
    if negb conflict then Err (ErrTransition (es_state s) "overwrite conflict") else
    _ ← validateAuditReason (AuditReason decision);
    renewed ← map_err (ErrWrapped "overwrite conflict")
                (preconditionFromObservation (ObservedRemote decision));
    freeze s kind target renewed
      (Some (mkRenewal (AuditReason decision) (es_version s) (u64 (es_version s + 1))
               (ExpectedRemote (es_baseline s)) renewed))
  else Err (ErrUnknownDecision kind).
