(* ===== verification/EditFacts.v ===== *)
(** What an edit session keeps true, and what it may ask for. *)
From S2P Require Import Prelude Utf8 Domain CacheRecords Edit.

(** * Runs *)

(** Everything that may happen to a session, and the requests it hands out.  A
    session may be stored and restored at any time. *)
Inductive edit_step : Session → option SyncBackRequest → Session → Prop :=
| edit_begin s v s' : BeginObservation s v = Ok s' → edit_step s None s'
| edit_observe s v o s' r : Observe s v o = Ok (s', r) → edit_step s None s'
| edit_decide s v d s' r : Decide s v d = Ok (s', r) → edit_step s r s'
| edit_restart s s' : RestorePersistent (Persistent s) = Ok s' → edit_step s None s'.
Inductive edit_run (b : Baseline) : Session → list SyncBackRequest → Prop :=
| edit_new request s : new_Baseline request = b → NewSession request = Ok s → edit_run b s []
| edit_more s rs r s' : edit_run b s rs → edit_step s r s' → edit_run b s' (rs ++ option_list r).

(** * Stored sessions *)
Lemma contradictory_ok bad what : contradictory bad what = Ok () ↔ bad = false.
Proof. by destruct bad. Qed.

(** A session that can be stored and restored. *)
Record session_ok (s : Session) : Prop := {
  ok_id : is_ok (ParseSessionID (es_id s)) = true;
  ok_purpose : String.eqb (es_purpose s) PurposeEditor || String.eqb (es_purpose s) PurposeOpener = true;
  ok_baseline : validateBaseline (es_baseline s) = Ok ();
  ok_local : es_currentLocal s = "" ∨ is_ok (ParseSHA256 (es_currentLocal s)) = true;
  ok_state : validatePersistentState (Persistent s) = Ok ();
}.

(** The states, with what each is stored with. *)
Definition stored_as (v : PersistentSession) (st : string) : Prop :=
  let action := ev_Action (p_Evaluation v) in
  st = StateReady ∧ untouched v 1 = true ∨ st = StateObserving ∧ untouched v 2 = true ∨
  st = StateNoChanges ∧ observed_as v (mkEvaluation ActionNoUpload false false) = true ∨
  st = StateAwaitingUploadConfirmation ∧
    observed_as v (mkEvaluation ActionConfirmUpload true false) = true ∨
  st = StateRemoteChanged ∧ observed_as v (mkEvaluation ActionRefreshRemote false true) = true ∨
  st = StateConflict ∧ observed_as v (mkEvaluation ActionResolveConflict true true) = true ∨
  st = StateRecoveryRequired ∧ p_Version v = 3 ∧ action = ActionRecoverLocal ∧ p_Frozen v = false ∨
  st = StateSyncBackFrozen ∧ p_Version v = 4 ∧ p_CurrentLocal v ≠ "" ∧ p_Frozen v = true ∧
    (action = ActionConfirmUpload ∨ action = ActionResolveConflict) ∨
  st = StateSkipped ∧ p_Version v = 4 ∧ p_Frozen v = false ∧ decisionStateForAction action = true.

Ltac state_case :=
  match goal with
  | |- context [if String.eqb ?a ?b then _ else _] => destruct (String.eqb_spec a b)
  end.
Lemma validatePersistentState_ok v :
  validatePersistentState v = Ok () ↔ stored_as v (p_State v).
Proof.
  unfold validatePersistentState, stored_as. split.
  - do 9 (state_case; [rewrite contradictory_ok; intros Hc;
      rewrite ?negb_false_iff, ?orb_false_iff, ?andb_false_iff, ?negb_false_iff in Hc;
      rewrite ?Z.eqb_eq, ?String.eqb_eq, ?String.eqb_neq in Hc; tauto|]). done.
  - intros [(-> & H)|[(-> & H)|[(-> & H)|[(-> & H)|[(-> & H)|[(-> & H)|[(-> & H)|[(-> & H)|(-> & H)]]]]]]]];
      cbn; apply contradictory_ok.
    1-6: by rewrite H.
    + by destruct H as (-> & -> & ->).
    + destruct H as (-> & Hl & -> & Ha). apply String.eqb_neq in Hl. rewrite Hl.
      by destruct Ha as [-> | ->].
    + destruct H as (-> & -> & Hd). cbn in *. by rewrite Hd.
Qed.

Lemma untouched_ok v n :
  untouched v n = true ↔ p_Version v = n ∧ p_CurrentLocal v = "" ∧
    p_LastRemote v = RemoteObservation_zero ∧ p_Evaluation v = Evaluation_zero ∧ p_Frozen v = false.
Proof.
  unfold untouched. rewrite !andb_true_iff, Z.eqb_eq, String.eqb_eq, !bool_decide_eq_true, negb_true_iff.
  tauto.
Qed.
Lemma observed_as_ok v e :
  observed_as v e = true ↔ p_Version v = 3 ∧ p_CurrentLocal v ≠ "" ∧ p_Evaluation v = e ∧
    p_Frozen v = false.
Proof.
  unfold observed_as. rewrite !andb_true_iff, Z.eqb_eq, !negb_true_iff, String.eqb_neq, bool_decide_eq_true.
  tauto.
Qed.
Lemma stored_version v st : stored_as v st → 1 ≤ p_Version v ≤ 4 ∧ knownState st = true.
Proof.
  unfold stored_as. rewrite !untouched_ok, !observed_as_ok.
  intros H. repeat (destruct H as [H|H]); destruct H as (-> & -> & _); split; done || lia.
Qed.

Lemma NewSession_ok request s :
  NewSession request = Ok s ↔
  s = mkSession (new_ID request) (new_Purpose request) 1 StateReady (new_Baseline request) ""
        RemoteObservation_zero Evaluation_zero false ∧ session_ok s.
Proof.
  unfold NewSession. split.
  - intros E. destruct (is_ok (ParseSessionID _)) eqn:Hid; [|done]. cbn in E.
    rewrite <-negb_orb in E. match type of E with context [negb (?a || ?b)] => destruct (a || b) eqn:Hp end; [|done].
    cbn in E. destruct (validateBaseline _) as [[]|] eqn:Hb; [|done]. injection E as <-.
    split; [done|]. split; try done. by left.
  - intros [-> [Hid Hp Hb _ _]]. cbn in *. by rewrite Hid, <-negb_orb, Hp, Hb.
Qed.

(** Storing and restoring such a session gives it back, and nothing else comes
    back. *)
Lemma restore_ok s s' : RestorePersistent (Persistent s) = Ok s' ↔ s' = s ∧ session_ok s.
Proof.
  unfold RestorePersistent. cbn [p_ID p_Purpose p_Baseline Persistent].
  set (request := mkNewSession (es_id s) (es_purpose s) (es_baseline s)).
  split.
  - intros (base & Hb%map_err_ok & E)%bind_ok. apply NewSession_ok in Hb as [-> [Hid Hp Hbl _ _]].
    case_match; [done|]. case_match eqn:Hl; [done|]. apply bind_ok in E as ([] & Hv & [= <-]).
    split; [by destruct s|]. split; try done.
    by rewrite andb_false_iff, !negb_false_iff, String.eqb_eq in Hl.
  - intros [-> [Hid Hp Hb Hl Hv]].
    assert (NewSession request = Ok (mkSession (es_id s) (es_purpose s) 1 StateReady (es_baseline s) ""
        RemoteObservation_zero Evaluation_zero false)) as ->.
    { apply NewSession_ok. split; [done|]. split; try done. by left. }
    cbn [map_err mbind result_bind].
    assert ((p_Version (Persistent s) <? 1) || negb (knownState (p_State (Persistent s))) = false) as ->.
    { apply validatePersistentState_ok in Hv. cbn [p_State Persistent] in *.
      apply stored_version in Hv as [Hver ->].
      rewrite orb_false_r. apply Z.ltb_ge. lia. }
    cbn [p_CurrentLocal Persistent].
    assert (negb (String.eqb (es_currentLocal s) "") && negb (is_ok (ParseSHA256 (es_currentLocal s)))
            = false) as ->.
    { destruct Hl as [->| ->]; [done|]. by rewrite andb_false_r. }
    rewrite Hv. cbn. by destruct s.
Qed.

(** * The comparison *)
Lemma is_ok_SHA256_nonempty s : is_ok (ParseSHA256 s) = true → s ≠ "".
Proof. intros H ->. done. Qed.

Lemma fingerprintEqual_eq f g : fingerprintEqual f g = true ↔ f = g.
Proof.
  unfold fingerprintEqual. rewrite !andb_true_iff, !bool_decide_eq_true.
  split; [|by intros ->]. destruct f, g; cbn. naive_solver.
Qed.

(** The local file is reliably known, or nothing of it is. *)
Lemma compareLocal_reliable base o changed reliable current :
  compareLocal base o = (changed, reliable, current) →
  (reliable = true → is_ok (ParseSHA256 current) = true ∧ current = lo_SHA256 o ∧
     changed = negb (String.eqb current base)) ∧ (reliable = false → current = "").
Proof.
  unfold compareLocal. repeat case_match; intros [= <- <- <-]; try done.
  split; [|done]. intros _. match goal with H : negb _ = false |- _ => apply negb_false_iff in H end.
  done.
Qed.

(** Reliably unchanged: what is there is what was expected. *)
Lemma compareRemote_unchanged p o :
  rp_Presence p = ExpectedPresent → rp_Kind p = EntryFile → compareRemote p o = (false, true) →
  ro_Status o = RemotePresent ∧ ro_Kind o = EntryFile ∧ ro_Fingerprint o = rp_Fingerprint p ∧
  ro_ContentSHA256 o = rp_ContentSHA256 p ∧ is_ok (ParseSHA256 (rp_ContentSHA256 p)) = true.
Proof.
  intros Hp Hk. unfold compareRemote. rewrite Hp, Hk. cbn [String.eqb negb andb].
  destruct (String.eqb_spec (ro_Status o) RemoteDeleted); [done|].
  destruct (String.eqb_spec (ro_Status o) RemotePresent); [|done].
  change (String.eqb ExpectedPresent ExpectedPresent) with true. cbn [negb].
  rewrite andb_true_r. destruct (knownEntryKind (ro_Kind o)) eqn:Hkind; cbn [andb].
  2:{ unfold reliableRemoteIdentity. rewrite Hkind. done. }
  destruct (String.eqb_spec (ro_Kind o) EntryFile) as [Hf|]; [|done]. cbn [negb andb].
  destruct (reliableRemoteIdentity _ _); [|done]. cbn [negb].
  destruct (is_ok (ParseSHA256 (rp_ContentSHA256 p))); [|done].
  destruct (is_ok (ParseSHA256 (ro_ContentSHA256 o))); [|done]. cbn.
  intros [= [Heq Hc]%orb_false_iff]. apply negb_false_iff in Heq, Hc.
  apply fingerprintEqual_eq in Heq. apply String.eqb_eq in Hc. done.
Qed.

(** What an observation found. *)
Definition observed (b : Baseline) (s : Session) : Prop :=
  ∃ o, evaluate b o = (es_evaluation s, es_state s, es_currentLocal s) ∧ es_lastRemote s = ob_Remote o.

Lemma evaluate_outcome b o e st current :
  evaluate b o = (e, st, current) →
  decisionState st = true ∧ (current = "" ∨ is_ok (ParseSHA256 current) = true) ∧
  (∀ v, p_Version v = 3 → p_Evaluation v = e → p_CurrentLocal v = current → p_Frozen v = false →
     stored_as v st) ∧
  (st = StateAwaitingUploadConfirmation →
     is_ok (ParseSHA256 current) = true ∧ current ≠ bl_LocalSHA256 b ∧
     compareRemote (ExpectedRemote b) (ob_Remote o) = (false, true)) ∧
  (st = StateConflict →
     is_ok (ParseSHA256 current) = true ∧ current ≠ bl_LocalSHA256 b ∧
     compareRemote (ExpectedRemote b) (ob_Remote o) = (true, true)).
Proof.
  unfold evaluate. destruct (compareLocal _ _) as [[lc lr] cur] eqn:Hl.
  apply compareLocal_reliable in Hl as [Hlr _].
  destruct (compareRemote _ _) as [rc rr].
  destruct lr; cbn [negb]; [destruct Hlr as (Hsha & _ & ->); [done|]|].
  2:{ intros [= <- <- <-]. split; [done|]. split; [by left|]. split; [|done].
      intros v Hv He _ Hf. do 6 right. left. by rewrite He. }
  pose proof (is_ok_SHA256_nonempty _ Hsha).
  destruct rr; cbn [negb].
  2:{ intros [= <- <- <-]. split; [done|]. split; [by right|]. split; [|done].
      intros v Hv He _ Hf. do 6 right. left. by rewrite He. }
  destruct (String.eqb_spec cur (bl_LocalSHA256 b)), rc; cbn; intros [= <- <- <-].
  all: split; [done|]; split; [by right|]; split; [|by split; [intros|intros]].
  all: intros v Hv He Hc Hf; unfold stored_as; rewrite !observed_as_ok, Hv, He, Hc, Hf; tauto.
Qed.

(** * What is asked for *)

(** The request is what the user decided, about what was observed. *)
Definition decided (b : Baseline) (s : Session) (r : SyncBackRequest) : Prop :=
  let expected := ExpectedRemote b in
  let remote := es_lastRemote s in
  sb_Decision r = DecisionUpload ∧ sb_Target r = bl_Target b ∧
    sb_DestinationPrecondition r = expected ∧ sb_Renewal r = None ∧
    ro_Status remote = RemotePresent ∧ ro_Kind remote = EntryFile ∧
    ro_Fingerprint remote = rp_Fingerprint expected ∧
    ro_ContentSHA256 remote = rp_ContentSHA256 expected ∨
  sb_Decision r = DecisionSaveAs ∧ sb_DestinationPrecondition r = RemotePrecondition_absent ∧
    sb_Renewal r = None ∧
    NewLocation (loc_EndpointID (sb_Target r)) (loc_Path (sb_Target r)) = Ok (sb_Target r) ∨
  sb_Decision r = DecisionOverwrite ∧ sb_Target r = bl_Target b ∧
    compareRemote expected remote = (true, true) ∧
    ∃ reason seen, validateAuditReason reason = Ok () ∧
      preconditionFromObservation seen = Ok (sb_DestinationPrecondition r) ∧
      sb_Renewal r = Some (mkRenewal reason 3 4 expected (sb_DestinationPrecondition r)).
Record authorized (b : Baseline) (s : Session) (r : SyncBackRequest) : Prop := {
  auth_plan : sb_PlanVersion r = 2 ∧ sb_Origin r = SyncBackOrigin;
  auth_session : sb_SessionID r = es_id s ∧ sb_SessionVersion r = 4;
  auth_entries : sb_SourceEntryID r = SourceEntryID b ∧ sb_MaterializationID r = MaterializationID b;
  auth_local : sb_LocalSHA256 r = es_currentLocal s ∧
    is_ok (ParseSHA256 (sb_LocalSHA256 r)) = true ∧ sb_LocalSHA256 r ≠ bl_LocalSHA256 b;
  auth_original : sb_OriginalDestinationPrecondition r = ExpectedRemote b;
  auth_decided : decided b s r;
}.

Record run_ok (b : Baseline) (s : Session) (rs : list SyncBackRequest) : Prop := {
  run_session : session_ok s;
  run_baseline : es_baseline s = b;
  run_observed : decisionState (es_state s) = true → observed b s;
  run_requests : if es_frozen s then ∃ r, rs = [r] ∧ authorized b s r else rs = [];
}.

Lemma requireVersion_ok s v : requireVersion s v = Ok () ↔ v = es_version s.
Proof.
  unfold requireVersion. destruct (Z.eqb_spec v (es_version s)) as [->|]; cbn; split; done || auto.
Qed.

(** How the invariant determines a session in a given state. *)
Lemma ok_stored s : session_ok s → stored_as (Persistent s) (es_state s).
Proof. intros [_ _ _ _ Hv]. by apply validatePersistentState_ok in Hv. Qed.
Ltac stored_case H E :=
  unfold stored_as in H; rewrite ?untouched_ok, ?observed_as_ok in H; cbn in H; rewrite E in H;
  repeat (destruct H as [H|H]); try (by destruct H); destruct H as [_ H].

Lemma baseline_expected b :
  validateBaseline b = Ok () →
  rp_Presence (ExpectedRemote b) = ExpectedPresent ∧ rp_Kind (ExpectedRemote b) = EntryFile.
Proof.
  unfold validateBaseline. repeat (case_match; [done|]). intros _.
  match goal with H : negb _ || negb _ || _ = false |- _ => rename H into He end.
  rewrite !orb_false_iff, !negb_false_iff, !String.eqb_eq in He. tauto.
Qed.

Lemma run_begin b s rs v s' : run_ok b s rs → BeginObservation s v = Ok s' → run_ok b s' rs.
Proof.
  intros [Hs Hb Ho Hr] E. unfold BeginObservation in E. apply bind_ok in E as ([] & _ & E).
  destruct (String.eqb_spec (es_state s) StateReady) as [Hst|]; [|done]. injection E as <-.
  pose proof (ok_stored _ Hs) as H. stored_case H Hst. destruct H as (Hv & Hc & Hl & He & Hf).
  split; [|done|done|cbn; by rewrite Hf in Hr |- *]. destruct Hs. split; try done.
  apply validatePersistentState_ok. right. left. split; [done|]. apply untouched_ok. cbn.
  by rewrite Hv.
Qed.

Lemma run_observe b s rs v o s' e :
  run_ok b s rs → Observe s v o = Ok (s', e) → run_ok b s' rs.
Proof.
  intros [Hs Hb Ho Hr] E. unfold Observe in E. apply bind_ok in E as ([] & _ & E).
  destruct (String.eqb_spec (es_state s) StateObserving) as [Hst|]; [|done]. cbn [negb] in E.
  destruct (evaluate _ _) as [[e' st] cur] eqn:Hev. injection E as <- <-.
  pose proof (ok_stored _ Hs) as H. stored_case H Hst. destruct H as (Hv & Hc & Hl & He & Hf).
  pose proof (evaluate_outcome _ _ _ _ _ Hev) as (_ & Hcur & Hstored & _).
  split; cbn; [|done| |by rewrite Hf in Hr |- *].
  - destruct Hs. split; try done. apply validatePersistentState_ok. apply Hstored; try done.
    cbn. by rewrite Hv.
  - intros _. exists o. by rewrite <-Hb.
Qed.

Lemma freeze_authorized b s kind target effective renewal s' r :
  session_ok s → es_baseline s = b → es_version s = 3 →
  (ev_Action (es_evaluation s) = ActionConfirmUpload ∨
   ev_Action (es_evaluation s) = ActionResolveConflict) →
  es_currentLocal s ≠ bl_LocalSHA256 b →
  freeze s kind target effective renewal = Ok (s', r) →
  (∀ q, sb_Decision q = kind → sb_Target q = target → sb_DestinationPrecondition q = effective →
     sb_Renewal q = renewal → decided b s q) →
  run_ok b s' (option_list r).
Proof.
  intros Hs Hb Hv Ha Hl E Hd. unfold freeze in E.
  destruct (is_ok (ParseSHA256 (es_currentLocal s))) eqn:Hsha; [|done]. cbn [negb] in E.
  injection E as <- <-. split; [|done|done|].
  - destruct Hs. split; try done. apply validatePersistentState_ok. do 7 right. left. cbn.
    rewrite Hv. split_and!; try done. by apply is_ok_SHA256_nonempty.
  - cbn. eexists. split; [done|]. rewrite Hv. split; cbn; rewrite ?Hb; try done. by apply Hd.
Qed.

Lemma NewLocation_ok target l :
  NewLocation (loc_EndpointID target) (loc_Path target) = Ok l → l = target.
Proof.
  unfold NewLocation. destruct (String.eqb _ _); [done|]. destruct (String.eqb _ _); [done|].
  destruct (has_nul _); [done|]. intros [= <-]. by destruct target.
Qed.

Lemma run_skip b s rs :
  run_ok b s rs → decisionState (es_state s) = true →
  run_ok b (s <| es_version := u64 (es_version s + 1) |> <| es_state := StateSkipped |>) rs.
Proof.
  intros [Hs Hb Ho Hr] Hst. pose proof (ok_stored _ Hs) as H.
  assert (es_version s = 3 ∧ es_frozen s = false ∧
          decisionStateForAction (ev_Action (es_evaluation s)) = true) as (Hv & Hf & Ha).
  { unfold stored_as in H. rewrite ?untouched_ok, ?observed_as_ok in H. cbn in H.
    repeat (destruct H as [H|H]); destruct H as [E H]; rewrite E in Hst; try done.
    1-4: by destruct H as (-> & _ & -> & ->). by destruct H as (-> & -> & ->). }
  split; cbn; [|done|done|by rewrite Hf in Hr |- *].
  destruct Hs. split; try done. apply validatePersistentState_ok. do 8 right. cbn. by rewrite Hv.
Qed.

(** A session whose local file has changed, before the decision. *)
Lemma run_open b s rs :
  run_ok b s rs →
  es_state s = StateAwaitingUploadConfirmation ∨ es_state s = StateConflict →
  rs = [] ∧ es_version s = 3 ∧ es_currentLocal s ≠ bl_LocalSHA256 b ∧
  (ev_Action (es_evaluation s) = ActionConfirmUpload ∨
   ev_Action (es_evaluation s) = ActionResolveConflict) ∧
  compareRemote (ExpectedRemote b) (es_lastRemote s) =
    (String.eqb (es_state s) StateConflict, true).
Proof.
  intros [Hs Hb Ho Hr] Hst. pose proof (ok_stored _ Hs) as H.
  destruct Ho as (o & Hev & ->); [by destruct Hst as [-> | ->]|].
  apply evaluate_outcome in Hev as (_ & _ & _ & Hup & Hco).
  destruct Hst as [Hst|Hst]; stored_case H Hst; destruct H as (-> & _ & -> & Hf);
    rewrite Hf in Hr; rewrite Hst.
  - destruct Hup as (_ & ? & ?); auto 10.
  - destruct Hco as (_ & ? & ?); auto 10.
Qed.

Lemma run_decide b s rs v d s' r :
  run_ok b s rs → Decide s v d = Ok (s', r) → run_ok b s' (rs ++ option_list r).
Proof.
  intros Hrun E. pose proof (run_open _ _ _ Hrun) as Hopen. pose proof Hrun as [Hs Hb Ho Hr].
  pose proof (baseline_expected _ (ok_baseline _ Hs)) as [Hp Hk]. rewrite Hb in Hp, Hk.
  unfold Decide in E. apply bind_ok in E as ([] & _ & E). rewrite Hb in E.
  destruct (String.eqb_spec (dec_Kind d) DecisionSkip) as [_|_].
  { destruct (decisionState (es_state s)) eqn:Hst; [|done]. injection E as <- <-.
    rewrite app_nil_r. by apply run_skip. }
  destruct (String.eqb_spec (dec_Kind d) DecisionUpload) as [Hkind|_].
  { destruct (String.eqb_spec (es_state s) StateAwaitingUploadConfirmation) as [Hst|]; [|done].
    destruct Hopen as (-> & Hv & Hl & Ha & Hsame); [by left|].
    eapply freeze_authorized; [done..|exact E|]. unfold decided; intros q -> -> -> ->. left. rewrite Hst in Hsame.
    by apply compareRemote_unchanged in Hsame as (? & ? & ? & ? & _). }
  destruct (String.eqb_spec (dec_Kind d) DecisionSaveAs) as [Hkind|_].
  { destruct (negb (String.eqb (es_state s) StateAwaitingUploadConfirmation) && _) eqn:Hst; [done|].
    destruct Hopen as (-> & Hv & Hl & Ha & _).
    { by rewrite andb_false_iff, !negb_false_iff, !String.eqb_eq in Hst. }
    apply bind_ok in E as (l & Hloc%map_err_ok & E).
    eapply freeze_authorized; [done..|exact E|]. unfold decided; intros q -> -> -> ->. right. left.
    split_and!; try done. rewrite Hloc.
    by rewrite (NewLocation_ok _ _ Hloc). }
  destruct (String.eqb_spec (dec_Kind d) DecisionOverwrite) as [Hkind|_]; [|done].
  destruct (String.eqb_spec (es_state s) StateConflict) as [Hst|]; [|done].
  destruct Hopen as (-> & Hv & Hl & Ha & Hchanged); [by right|].
  apply bind_ok in E as ([] & Haudit & E). apply bind_ok in E as (renewed & Hseen%map_err_ok & E).
  eapply freeze_authorized; [done..|exact E|]. unfold decided; intros q -> -> -> ->. do 2 right.
  split_and!; try done. eexists _, _. split_and!; [done..|]. by rewrite Hv.
Qed.

Lemma edit_run_ok b s rs : edit_run b s rs → run_ok b s rs.
Proof.
  induction 1 as [request s <- E|s rs r s' _ IH Hstep].
  2: destruct Hstep as [s v s' E|s v o s' e E|s v d s' r E|s s' E].
  - apply NewSession_ok in E as [-> Hs]. by split.
  - rewrite app_nil_r. exact (run_begin _ _ _ _ _ IH E).
  - rewrite app_nil_r. exact (run_observe _ _ _ _ _ _ _ IH E).
  - exact (run_decide _ _ _ _ _ _ _ IH E).
  - rewrite app_nil_r. apply restore_ok in E as [-> _]. done.
Qed.

(** C22: Whatever happens to an edit session, restarts included, it asks at most
    once for the remote file to be written, and is closed by it.  It then asks
    for what was decided about what was observed: the local file with the digest
    that the observation found, which is not the one the editing began with; a
    plain upload only over the remote file as it was opened, by fingerprint and
    by content; a copy elsewhere only where nothing is; and an overwriting only
    of a remote file that had reliably changed, for a stated reason and over the
    file that was seen then. *)
Theorem sync_back_authorized b s rs :
  edit_run b s rs →
  (length rs ≤ 1)%nat ∧
  (∀ r, r ∈ rs → es_state s = StateSyncBackFrozen ∧ authorized b s r).
Proof.
  intros [Hs Hb _ Hr]%edit_run_ok. destruct (es_frozen s) eqn:Hf.
  - destruct Hr as (q & -> & Hq). split; [done|]. intros r ->%list_elem_of_singleton. split; [|done].
    pose proof (ok_stored _ Hs) as H. unfold stored_as in H.
    rewrite ?untouched_ok, ?observed_as_ok in H. cbn in H. rewrite Hf in H.
    clear -H. intuition congruence.
  - subst rs. split; [cbn; lia|]. intros r H. by apply not_elem_of_nil in H.
Qed.

(** A session that any sequence of operations leads to can be stored and
    restored, and is the same session again. *)
Theorem edit_session_restores b s rs :
  edit_run b s rs → RestorePersistent (Persistent s) = Ok s.
Proof. intros [Hs _ _ _]%edit_run_ok. by apply restore_ok. Qed.

(** * A run *)
Module EditDemo.

Definition hex (c : Ascii.ascii) (n : nat) : string :=
  String.string_of_list_ascii (repeat c n).
Definition remote_fp : Domain.Fingerprint :=
  Domain.mkFingerprint None None None None (Some "v1") None None.
Definition demo_baseline : Baseline :=
  mkBaseline (hex "a" 64) (hex "b" 32) (mkLocation "ep" "/r/f")
    (mkRemotePrecondition ExpectedPresent EntryFile remote_fp (hex "c" 64)) (hex "c" 64).
Definition demo_request : NewSessionRequest :=
  mkNewSession (hex "d" 32) PurposeEditor demo_baseline.
Definition demo_observation : PostEditorObservation :=
  mkObservation (mkLocalObservation LocalPresent (hex "e" 64))
    (mkRemoteObservation RemotePresent EntryFile remote_fp (hex "c" 64) 4).
Definition demo_upload : Decision :=
  mkDecision DecisionUpload (mkLocation "" "") RemoteObservation_zero "".

(** Opened, edited, observed, stored and restored, uploaded. *)
Definition ready : Session := unwrap (NewSession demo_request) eq_refl.
Definition observing : Session := unwrap (BeginObservation ready 1) eq_refl.
Definition changed : Session := fst (unwrap (Observe observing 2 demo_observation) eq_refl).
Definition uploaded : Session * option SyncBackRequest :=
  unwrap (Decide changed 3 demo_upload) eq_refl.

Lemma upload_run : edit_run demo_baseline (fst uploaded) (option_list (snd uploaded)).
Proof.
  change (option_list (snd uploaded)) with
    (((([] ++ option_list None) ++ option_list None) ++ option_list None) ++
     option_list (snd uploaded)).
  eapply edit_more; [|eapply (edit_decide changed 3 demo_upload); vm_compute; reflexivity].
  eapply edit_more; [|eapply (edit_restart changed); vm_compute; reflexivity].
  eapply edit_more; [|eapply (edit_observe observing 2 demo_observation); vm_compute; reflexivity].
  eapply edit_more; [|eapply (edit_begin ready 1); vm_compute; reflexivity].
  apply (edit_new _ demo_request); vm_compute; reflexivity.
Qed.

Lemma sync_back_authorized_witness :
  edit_run demo_baseline (fst uploaded) (option_list (snd uploaded)) ∧
  ∃ r, snd uploaded = Some r ∧ authorized demo_baseline (fst uploaded) r.
Proof.
  split; [exact upload_run|]. eexists. split; [vm_compute; reflexivity|].
  apply (sync_back_authorized _ _ _ upload_run). vm_compute. left.
Defined.

Lemma edit_session_restores_witness :
  edit_run demo_baseline (fst uploaded) (option_list (snd uploaded)) ∧
  RestorePersistent (Persistent (fst uploaded)) = Ok (fst uploaded).
Proof. split; [exact upload_run|]. exact (edit_session_restores _ _ _ upload_run). Defined.

End EditDemo.
