(* ===== verification/Provider.v ===== *)
(** The provider boundary (src/internal/provider): the requests, the pages and
    the validation every implementation shares (validate.go), and the interface
    [Provider] with its optional facets as records of operations on a world.

    The implementations (local files, SFTP, helpers) are outside the model: an
    operation is any function of the world, so theorems about its callers hold
    for every implementation, adversarial ones included. *)
From S2P Require Import Prelude Domain.

(** * Requests *)
Definition SortAscending := "ascending".
Definition SortDescending := "descending".
Definition ConsistencySnapshot := "snapshot".
Definition ConsistencyBestEffort := "best_effort".
Definition WriteCreateNew := "create_new".
Definition WriteResumeExisting := "resume_existing".
Definition WriteTruncate := "truncate".
Definition maxListPageLimit : Z := 4096.

Record SortHint := mkSortHint { Key : string; Direction : string; DirectoriesFirst : bool }.
Record ListRequest := mkListRequest {
  list_Location : Location; list_Cursor : string; list_Limit : Z; (* uint32 *)
  list_Sort : option SortHint;
}.
Record ListPage := mkListPage {
  page_Entries : list Entry;
  page_NextCursor : string;
  page_Done : bool;
  page_RequestedSortApplied : bool;
  page_Consistency : string;
  page_DirectoryFingerprint : Fingerprint;
}.
Record StatRequest := mkStatRequest { stat_Location : Location; stat_FollowSymlinks : bool }.
Record OpenReadRequest := mkOpenReadRequest {
  read_Location : Location; read_Offset : Z; (* int64 *) read_Limit : option Z;
  read_ExpectedFingerprint : option Fingerprint;
}.
Record OpenWriteRequest := mkOpenWriteRequest {
  write_Location : Location; write_Offset : Z; (* int64 *) write_Disposition : string;
  write_ExpectedFingerprint : option Fingerprint;
}.
Record MkdirRequest := mkMkdirRequest { mkdir_Location : Location; mkdir_Exclusive : bool }.
Record RenameRequest := mkRenameRequest {
  rename_Source : Location; rename_Destination : Location; rename_Replace : bool;
  rename_ExpectedSource : option Fingerprint; rename_ExpectedDestination : option Fingerprint;
}.
Record RenameResult := mkRenameResult { Atomic : bool; Replaced : bool }.
Record RemoveRequest := mkRemoveRequest {
  remove_Location : Location; remove_Expected : option Fingerprint
}.
Record TrashRequest := mkTrashRequest {
  trash_Location : Location; trash_Expected : option Fingerprint
}.
Record PreserveDestinationRequest := mkPreserveRequest {
  pres_Source : Location; pres_Backup : Location; pres_ExpectedFingerprint : Fingerprint;
  pres_ExpectedSHA256 : string; pres_ExpectedSize : Z; (* int64 *) pres_MaxBytes : Z; (* int64 *)
}.

(** * Validation (validate.go) *)
Definition invalidRequest (operation endpointID : string) (location : Location)
    (message : string) : error :=
  EOp CodeInvalidArgument message operation endpointID (Some location) (mkRetry RetryNever 0)
    EffectNone None.
Definition invalidResponse (location : Location) (message : string) : error :=
  EOp CodeInternal message "list" (loc_EndpointID location) (Some location)
    (mkRetry RetryNever 0) EffectNone None.

Definition validateLocation (endpointID : string) (location : Location) (operation : string) :
    result error () :=
  let invalid := invalidRequest operation endpointID location in
  if String.eqb endpointID "" then Err (invalid "provider endpoint ID is empty") else
  if negb (String.eqb (loc_EndpointID location) endpointID)
  then Err (invalid "location endpoint does not match provider") else
  if String.eqb (loc_Path location) "" then Err (invalid "location path is empty") else
  if has_nul (loc_Path location) then Err (invalid "location path contains NUL") else Ok tt.

Definition ValidateListRequest (endpointID : string) (request : ListRequest) : result error () :=
  _ ← validateLocation endpointID (list_Location request) "list";
  let invalid := invalidRequest "list" endpointID (list_Location request) in
  if (list_Limit request =? 0) || (list_Limit request >? maxListPageLimit)
  then Err (invalid "page limit must be between 1 and 4096") else
  match list_Sort request with
  | Some sort =>
    if negb (String.eqb (Direction sort) SortAscending) &&
       negb (String.eqb (Direction sort) SortDescending)
    then Err (invalid "sort direction is invalid") else Ok tt
  | None => Ok tt
  end.

Definition validateResponseLocation (endpointID : string) (location : Location) :
    result string () :=
  if negb (String.eqb (loc_EndpointID location) endpointID)
  then Err "entry endpoint does not match request" else
  if String.eqb (loc_Path location) "" then Err "entry path is empty" else
  if has_nul (loc_Path location) then Err "entry path contains NUL" else Ok tt.

Definition ValidateListPage (request : ListRequest) (page : ListPage) : result error () :=
  let location := list_Location request in
  _ ← ValidateListRequest (loc_EndpointID location) request;
  if negb (Bool.eqb (page_Done page) (String.eqb (page_NextCursor page) ""))
  then Err (invalidResponse location "Done and NextCursor are inconsistent") else
  if Z.of_nat (length (page_Entries page)) >? list_Limit request
  then Err (invalidResponse location "page exceeds requested limit") else
  if negb (String.eqb (page_Consistency page) ConsistencySnapshot) &&
     negb (String.eqb (page_Consistency page) ConsistencyBestEffort)
  then Err (invalidResponse location "list consistency is invalid") else
  each (λ entry, map_err (invalidResponse location)
          (validateResponseLocation (loc_EndpointID location) (entry_Location entry)))
    (page_Entries page).

Definition ValidateStatRequest (endpointID : string) (request : StatRequest) : result error () :=
  validateLocation endpointID (stat_Location request) "stat".

Definition ValidateOpenReadRequest (endpointID : string) (request : OpenReadRequest) :
    result error () :=
  _ ← validateLocation endpointID (read_Location request) "open_read";
  let invalid := invalidRequest "open_read" endpointID (read_Location request) in
  if read_Offset request <? 0 then Err (invalid "offset must not be negative") else
  match read_Limit request with
  | Some limit => if limit <? 0 then Err (invalid "limit must not be negative") else Ok tt
  | None => Ok tt
  end.

Definition ValidateOpenWriteRequest (endpointID : string) (request : OpenWriteRequest) :
    result error () :=
  _ ← validateLocation endpointID (write_Location request) "open_write";
  let invalid := invalidRequest "open_write" endpointID (write_Location request) in
  if write_Offset request <? 0 then Err (invalid "offset must not be negative") else
  if String.eqb (write_Disposition request) WriteCreateNew ||
     String.eqb (write_Disposition request) WriteResumeExisting ||
     String.eqb (write_Disposition request) WriteTruncate
  then Ok tt else Err (invalid "write disposition is invalid").

Definition ValidateMkdirRequest (endpointID : string) (request : MkdirRequest) :
    result error () :=
  validateLocation endpointID (mkdir_Location request) "mkdir".

Definition ValidateRenameRequest (endpointID : string) (request : RenameRequest) :
    result error () :=
  _ ← validateLocation endpointID (rename_Source request) "rename";
  validateLocation endpointID (rename_Destination request) "rename".

(** The loop ranges over runes; none but an ASCII one passes. *)
Definition is_lower_hex_digit (c : ascii) : bool :=
  let n := Z.of_N (N_of_ascii c) in
  (48 <=? n) && (n <=? 57) || (97 <=? n) && (n <=? 102).
Definition lowerHex (value : string) (length : Z) : bool :=
  if negb (len value =? length) then false
  else forallb is_lower_hex_digit (String.list_ascii_of_string value).

Definition ValidatePreserveDestinationRequest (endpointID : string)
    (request : PreserveDestinationRequest) : result error () :=
  _ ← validateLocation endpointID (pres_Source request) "preserve_destination";
  _ ← validateLocation endpointID (pres_Backup request) "preserve_destination";
  if bool_decide (pres_Source request = pres_Backup request) ||
     String.eqb (Strength (pres_ExpectedFingerprint request)) FingerprintWeak ||
     negb (lowerHex (pres_ExpectedSHA256 request) 64) || (pres_ExpectedSize request <? 0) ||
     (pres_MaxBytes request <? pres_ExpectedSize request) ||
     (pres_MaxBytes request >? 2 * 1024 * 1024 * 1024)
  then Err (invalidRequest "preserve_destination" endpointID (pres_Source request)
              "invalid bounded preservation precondition")
  else Ok tt.

Definition ValidateRemoveRequest (endpointID : string) (request : RemoveRequest) :
    result error () :=
  validateLocation endpointID (remove_Location request) "remove".

(** * Handles (provider.go, stream.go, mutable.go)

    [World] is everything an implementation can observe and change; the state of
    an open handle is part of it.  A facet that an implementation does not have
    is [None].

    [Read] gets the length of the buffer and answers with the count, the buffer
    afterwards and the error; only the first [n] bytes are the caller's. *)
Definition IOResult : Type := Z * list byte * option error.
Record ReadInfo := mkReadInfo { info_Entry : Entry; info_Fingerprint : Fingerprint }.

(** What a call with a callback does next: the callback [BeforeRead] on so many
    bytes, or its own return. *)
Inductive stream_action := StreamGate (n : Z) | StreamDone (res : IOResult).
Record ReadStreamOptions := mkStreamOptions {
  opt_MaxBytes : Z; opt_MaxRequestBytes : Z; (* uint32 *) opt_BeforeRead : bool;
}.
Record ReadHandle (World : Type) := mkReadHandle {
  Info : ReadInfo;
  Read : Z → World → IOResult * World;
  Read_Close : World → option error * World;
  ReadAhead : option (Z → Z → World → IOResult * World);
  ReadStream : option (Z → ReadStreamOptions → option (option error) → World → stream_action * World);
}.
Arguments mkReadHandle {World} _ _ _ _ _. Arguments Info {World} _.
Arguments Read {World} _ _ _. Arguments Read_Close {World} _ _.
Arguments ReadAhead {World} _. Arguments ReadStream {World} _.

(** [WriteFrom] reads from the stream it is given and returns in the end; it is
    told what its last read returned. *)
Inductive pump_action := PumpRead (size : Z) | PumpDone (n : Z) (err : option error).
Definition Pump (World : Type) : Type :=
  option (list byte * option error) → World → pump_action * World.
Record WriteHandle (World : Type) := mkWriteHandle {
  Write : list byte → World → (Z * option error) * World;
  Sync : World → option error * World;
  Write_Close : World → option error * World;
  WriteFrom : option (Pump World);
  WriteFromWindow : option (Z → Pump World);
  Truncate : option (Z → World → option error * World);
}.
Arguments mkWriteHandle {World} _ _ _ _ _ _. Arguments Write {World} _ _ _.
Arguments Sync {World} _ _. Arguments Write_Close {World} _ _.
Arguments WriteFrom {World} _. Arguments WriteFromWindow {World} _. Arguments Truncate {World} _.

Record PreserveDestinationResult := mkPreserveResult {
  BackupPresent : bool; SourceRestored : bool; EffectUnknown_ : bool
}.

(** * The interface *)
Record MutableProvider (World : Type) := mkMutable {
  OpenWrite : OpenWriteRequest → World → result error (WriteHandle World) * World;
  Rename : RenameRequest → World → result error RenameResult * World;
  Remove : RemoveRequest → World → option error * World;
  Mkdir : MkdirRequest → World → result error Entry * World;
}.
Arguments mkMutable {World} _ _ _ _. Arguments Mkdir {World} _ _ _. Arguments OpenWrite {World} _ _ _.
Arguments Rename {World} _ _ _. Arguments Remove {World} _ _ _.

(** [PreserveDestination] admits its reads through [BeforeRead] as well; it ends
    with its result and error. *)
Inductive preserve_action :=
| PreserveGate (n : Z)
| PreserveDone (r : PreserveDestinationResult) (err : option error).
Record Provider (World : Type) := mkProvider {
  Descriptor : Endpoint;
  Snapshot : World → result error EndpointSnapshot * World;
  List : ListRequest → World → result error ListPage * World;
  Stat : StatRequest → World → result error Entry * World;
  OpenRead : OpenReadRequest → World → result error (ReadHandle World) * World;
  mutable_facet : option (MutableProvider World);
  trash_facet : option (TrashRequest → World → option error * World);
  preserver_facet : option (PreserveDestinationRequest → ReadStreamOptions →
    option (option error) → World → preserve_action * World);
  server_copy_facet : option (Location → Location → Fingerprint → Z → World →
    result error Entry * World);
}.
Arguments mkProvider {World} _ _ _ _ _ _ _ _ _. Arguments Descriptor {World} _.
Arguments Snapshot {World} _ _. Arguments List {World} _ _ _.
Arguments Stat {World} _ _ _. Arguments OpenRead {World} _ _ _.
Arguments mutable_facet {World} _. Arguments trash_facet {World} _.
Arguments preserver_facet {World} _. Arguments server_copy_facet {World} _.

(** * Facts *)

(** The locations a provider may be asked about, or may answer with. *)
Definition own_location (endpointID : string) (l : Location) : Prop :=
  endpointID ≠ "" ∧ loc_EndpointID l = endpointID ∧ loc_Path l ≠ "" ∧ has_nul (loc_Path l) = false.

Lemma validateLocation_ok endpointID l operation u :
  validateLocation endpointID l operation = Ok u ↔ own_location endpointID l.
Proof.
  destruct u. unfold validateLocation, own_location.
  destruct (String.eqb_spec endpointID ""); [naive_solver|].
  destruct (String.eqb_spec (loc_EndpointID l) endpointID); cbn [negb]; [|naive_solver].
  destruct (String.eqb_spec (loc_Path l) ""); [naive_solver|].
  destruct (has_nul (loc_Path l)); naive_solver.
Qed.

Lemma ValidateListRequest_ok endpointID request u :
  ValidateListRequest endpointID request = Ok u ↔
  own_location endpointID (list_Location request) ∧
  (list_Limit request ≠ 0 ∧ list_Limit request ≤ maxListPageLimit) ∧
  ∀ sort, list_Sort request = Some sort →
    Direction sort = SortAscending ∨ Direction sort = SortDescending.
Proof.
  destruct u. unfold ValidateListRequest. rewrite bind_ok. setoid_rewrite validateLocation_ok.
  assert (∀ P Q : Prop, (∃ _ : (), P ∧ Q) ↔ P ∧ Q) as -> by (split; [intros [_ ?]|exists tt]; done).
  apply and_iff_compat_l. rewrite Z.gtb_ltb.
  destruct (Z.eqb_spec (list_Limit request) 0); cbn [orb]; [naive_solver|].
  destruct (Z.ltb_spec maxListPageLimit (list_Limit request)); [split; [done|lia]|].
  destruct (list_Sort request) as [sort|]; [|naive_solver].
  destruct (String.eqb_spec (Direction sort) SortAscending); cbn [negb andb]; [naive_solver|].
  destruct (String.eqb_spec (Direction sort) SortDescending); cbn [negb]; naive_solver.
Qed.

Lemma validateResponse_ok request l :
  loc_EndpointID (list_Location request) ≠ "" →
  map_err (invalidResponse (list_Location request))
    (validateResponseLocation (loc_EndpointID (list_Location request)) l) = Ok tt ↔
  own_location (loc_EndpointID (list_Location request)) l.
Proof.
  intros Hne. rewrite map_err_ok. unfold validateResponseLocation, own_location.
  destruct (String.eqb_spec (loc_EndpointID l) (loc_EndpointID (list_Location request)));
    cbn [negb]; [|naive_solver].
  destruct (String.eqb_spec (loc_Path l) ""); [naive_solver|].
  destruct (has_nul (loc_Path l)); naive_solver.
Qed.

(** what a validated page guarantees its reader.  A page is accepted
    exactly when its request is valid, it ends exactly when it has no cursor, it
    holds at most as many entries as asked for, its consistency is one of the
    two defined, and every entry is at a location of the request's endpoint. *)
Theorem ValidateListPage_ok request page u :
  ValidateListPage request page = Ok u ↔
  ValidateListRequest (loc_EndpointID (list_Location request)) request = Ok tt ∧
  (page_Done page = true ↔ page_NextCursor page = "") ∧
  Z.of_nat (length (page_Entries page)) ≤ list_Limit request ∧
  (page_Consistency page = ConsistencySnapshot ∨ page_Consistency page = ConsistencyBestEffort) ∧
  Forall (λ e, own_location (loc_EndpointID (list_Location request)) (entry_Location e))
    (page_Entries page).
Proof.
  destruct u. unfold ValidateListPage. rewrite bind_ok.
  destruct (ValidateListRequest _ request) as [[]|] eqn:Er; [|naive_solver].
  apply ValidateListRequest_ok in Er as [(Hne & _) _].
  assert (∀ P : () → Prop, (∃ a, Ok tt = Ok (E := error) a ∧ P a) ↔ Ok (E := error) tt = Ok tt ∧ P tt)
    as ->.
  { intros P. split; [intros ([] & _ & ?)|]; naive_solver. }
  apply and_iff_compat_l.
  assert ((page_Done page = true ↔ page_NextCursor page = "") ↔
    Bool.eqb (page_Done page) (page_NextCursor page =? "")%string = true) as ->.
  { destruct (String.eqb_spec (page_NextCursor page) ""), (page_Done page); cbn; naive_solver. }
  destruct (Bool.eqb _ _); cbn [negb]; [|naive_solver].
  rewrite Z.gtb_ltb. destruct (Z.ltb_spec (list_Limit request) (Z.of_nat (length (page_Entries page)))).
  { split; [done|]. intros (_ & ? & _). lia. }
  destruct (String.eqb_spec (page_Consistency page) ConsistencySnapshot) as [Hc|Hc];
    [|destruct (String.eqb_spec (page_Consistency page) ConsistencyBestEffort)];
    cbn [negb andb]; [| |naive_solver].
  all: rewrite each_ok, Forall_forall; setoid_rewrite (validateResponse_ok _ _ Hne); tauto.
Qed.
