(* ===== verification/DirectProtocol.v ===== *)
(** The typed control contract of direct (Level 2) transfers
    (src/internal/directprotocol/protocol.go): requests, results and their
    evaluation.  The JSON decoding around them is not modelled. *)
From S2P Require Import Prelude Domain Utf8 GoPath Provider.

Definition dp_Version : Z := 1.
Definition MaxTransferBytes : Z := Z.shiftl 1 40.
Definition MaxRequestDuration : Duration := 10 * Minute.
Definition MaxFrameBytes : Z := 1 * 1024 * 1024.
Definition MaxConcurrent : Z := 4.

Record ControlLimits := mkControlLimits {
  cl_MaxFrameBytes : Z; cl_MaxConcurrent : Z;
  cl_HeartbeatIntervalMS : Z; cl_HeartbeatTimeoutMS : Z; (* uint32 *)
  cl_CancelSemantics : string; cl_ProgressSemantics : string; cl_ResultSemantics : string;
}.
#[export] Instance ControlLimits_eq_dec : EqDecision ControlLimits.
Proof. solve_decision. Defined.
Definition FrozenControlLimits : ControlLimits :=
  mkControlLimits MaxFrameBytes MaxConcurrent 5000 15000
    "request_context" "target_durable_bytes" "staged_not_committed".

Definition Pass := "pass".
Definition Fail_ := "fail".
Definition Unknown := "unknown".

Definition CheckProtocol := "protocol".
Definition checkOrder : list string :=
  [CheckProtocol; "capability"; "network"; "target_address"; "target_write"; "target_temp";
   "space"; "quota"; "noninteractive_auth"; "host_key"; "user_policy"; "workspace_policy";
   "data_policy"; "strong_hash"].

Record dp_Request := mkDirectRequest {
  req_Version : Z; (* uint16 *)
  req_RequestID : string;
  req_JobID : string;
  req_SourceEndpointID : string;
  req_SourcePath : string;
  req_DestinationEndpointID : string;
  req_PartPath : string;
  req_FinalPath : string;
  req_TargetHostAlias : string;
  req_ExpectedSize : Z; (* uint64 *)
  req_SourceFingerprint : Fingerprint;
  req_IntegrityPolicy : string;
  req_DeadlineUnix : Z; (* int64 *)
  req_Nonce : string;
  req_Control : ControlLimits;
}.
#[export] Instance dp_Request_eta : Settable dp_Request :=
  λ r, mkDirectRequest (req_Version r) (req_RequestID r) (req_JobID r) (req_SourceEndpointID r)
    (req_SourcePath r) (req_DestinationEndpointID r) (req_PartPath r) (req_FinalPath r)
    (req_TargetHostAlias r) (req_ExpectedSize r) (req_SourceFingerprint r)
    (req_IntegrityPolicy r) (req_DeadlineUnix r) (req_Nonce r) (req_Control r).

Record Check_ := mkCheck { check_Name : string; check_Status : string; check_Reason : string }.
#[export] Instance Check_eq_dec : EqDecision Check_.
Proof. solve_decision. Defined.
Definition Check_zero : Check_ := mkCheck "" "" "".

Record dp_Result := mkDirectResult {
  res_Version : Z; (* uint16 *)
  res_RequestID : string;
  res_JobID : string;
  res_CheckedAtUnix : Z; (* int64 *)
  res_ExpiresAtUnix : Z; (* int64 *)
  res_Checks : list Check_;
  res_SourceFingerprint : Fingerprint;
  res_SourceSize : Z; (* uint64 *)
  res_SourceSHA256 : string;
}.

(** * Time

    [time.Unix(sec, 0)] and [Time.Unix]: the zero time is year 1. *)
Definition unixToInternal : Z := 62135596800.
Definition time_Unix (sec : Z) : Time := i64 (sec + unixToInternal) * Second.
Definition Time_Unix (t : Time) : Z := t `div` Second - unixToInternal.
(** [Time.Truncate(time.Second)]. *)
Definition truncate_second (t : Time) : Time := t - t `mod` Second.

(** * Fields *)
Definition isLowerHex (value : string) : bool := forallb is_lower_hex_digit (chars value).

Definition validOperationPath (value : string) : bool :=
  (0 <? len value) && (len value <=? 1000) && HasPrefix (chars value) [SLASH] &&
  String.eqb (path_Clean value) value && negb (has_nul value).

(** [unicode.IsSpace] and [unicode.IsControl]. *)
Definition IsSpace (r : Z) : bool :=
  (9 <=? r) && (r <=? 13) || (r =? 32) || (r =? 133) || (r =? 160) || (r =? 5760) ||
  (8192 <=? r) && (r <=? 8202) || (r =? 8232) || (r =? 8233) || (r =? 8239) || (r =? 8287) ||
  (r =? 12288).
Definition IsControl (r : Z) : bool :=
  (0 <=? r) && (r <=? 31) || (127 <=? r) && (r <=? 159).

Definition validHostAlias (value : string) : bool :=
  if (len value =? 0) || (len value >? 255) || HasPrefix (chars value) ["-"%char] || has_nul value
  then false else
  forallb (λ character, negb (IsSpace character || IsControl character))
    (runes (String.list_byte_of_string value)).

(** The loop ranges over rune starts; the first byte of a rune above ASCII does
    not pass. *)
Definition validReason (value : string) : bool :=
  let cs := chars value in
  if (len value =? 0) || (len value >? 64) then false else
  forallb (λ '(index, c),
      let n := Z.of_N (N_of_ascii c) in
      (97 <=? n) && (n <=? 122) || (48 <=? n) && (n <=? 57) ||
      Ascii.eqb c "_" && (0 <? index)%nat && (index <? length cs - 1)%nat)
    (imap pair cs).

(** * Requests and results *)
Definition refuse {A} (message : string) : result error A :=
  Err (EText ("direct preflight: " +:+ message)).

(** [strings.HasSuffix]. *)
Definition HasSuffix (s suffix : list ascii) : bool :=
  bool_decide (drop (length s - length suffix) s = suffix).

Definition ValidateRequest (request : dp_Request) (now : Time) : result error () :=
  if negb (req_Version request =? dp_Version) then refuse "unsupported protocol version" else
  if negb (is_ok (ParseRequestID (req_RequestID request)))
  then refuse "invalid request correlation" else
  if negb (is_ok (ParseJobID (req_JobID request))) then refuse "invalid Job correlation" else
  if negb (is_ok (ParseEndpointID (req_SourceEndpointID request)))
  then refuse "invalid source Endpoint" else
  if negb (is_ok (ParseEndpointID (req_DestinationEndpointID request))) ||
     String.eqb (req_SourceEndpointID request) (req_DestinationEndpointID request)
  then refuse "invalid destination Endpoint" else
  if negb (validOperationPath (req_SourcePath request)) ||
     negb (validOperationPath (req_PartPath request)) ||
     negb (validOperationPath (req_FinalPath request))
  then refuse "invalid operation path" else
  if negb (String.eqb (path_Dir (req_PartPath request)) (path_Dir (req_FinalPath request))) ||
     negb (HasSuffix (chars (path_Base (req_PartPath request)))
             (chars (".part-" +:+ req_JobID request))) ||
     String.eqb (req_PartPath request) (req_FinalPath request)
  then refuse "part is not the frozen Job-owned target" else
  if negb (validHostAlias (req_TargetHostAlias request))
  then refuse "target Host alias is not a trusted typed value" else
  if (req_ExpectedSize request >? MaxTransferBytes) ||
     negb (bool_decide (fp_Size (req_SourceFingerprint request) = Some (req_ExpectedSize request))) ||
     String.eqb (Strength (req_SourceFingerprint request)) FingerprintWeak
  then refuse "source identity or size is invalid" else
  if negb (String.eqb (req_IntegrityPolicy request) "strong") &&
     negb (String.eqb (req_IntegrityPolicy request) "require_strong")
  then refuse "integrity policy is invalid" else
  let deadline := time_Unix (req_DeadlineUnix request) in
  if negb (deadline >? now) || (deadline >? now + MaxRequestDuration)
  then refuse "deadline is outside hard limits" else
  if negb (len (req_Nonce request) =? 32) || negb (isLowerHex (req_Nonce request))
  then refuse "nonce is invalid" else
  if negb (bool_decide (req_Control request = FrozenControlLimits))
  then refuse "control limits or semantics changed" else Ok tt.

(** The loop over the checks, with [allPassed]. *)
Definition check_one (allPassed : bool) (c : string * Check_) : result error bool :=
  let '(name, check) := c in
  if negb (String.eqb (check_Name check) name)
  then refuse "required checks are duplicated or out of order" else
  if negb (String.eqb (check_Status check) Pass) && negb (String.eqb (check_Status check) Fail_) &&
     negb (String.eqb (check_Status check) Unknown)
  then refuse "check status is invalid" else
  if negb (validReason (check_Reason check)) then refuse "check reason is invalid" else
  Ok (allPassed && String.eqb (check_Status check) Pass).

Definition ValidateResult (request : dp_Request) (r : dp_Result) (now : Time) : result error () :=
  if negb (res_Version r =? dp_Version) ||
     negb (String.eqb (res_RequestID r) (req_RequestID request)) ||
     negb (String.eqb (res_JobID r) (req_JobID request))
  then refuse "response correlation is invalid" else
  let checkedAt := time_Unix (res_CheckedAtUnix r) in
  let expiresAt := time_Unix (res_ExpiresAtUnix r) in
  if (checkedAt >? now) || (checkedAt >? expiresAt) || negb (expiresAt >? now) ||
     (expiresAt >? time_Unix (req_DeadlineUnix request))
  then refuse "response freshness is invalid" else
  if negb (bool_decide (res_SourceFingerprint r = req_SourceFingerprint request)) ||
     negb (res_SourceSize r =? req_ExpectedSize request)
  then refuse "source identity changed" else
  if negb (length (res_Checks r) =? length checkOrder)%nat
  then refuse "required check set is incomplete" else
  allPassed ← for_each check_one true (zip checkOrder (res_Checks r));
  if negb (String.eqb (res_SourceSHA256 r) "") &&
     (negb (len (res_SourceSHA256 r) =? 64) || negb (isLowerHex (res_SourceSHA256 r)))
  then refuse "source digest is invalid" else
  if allPassed && negb (len (res_SourceSHA256 r) =? 64)
  then refuse "passed evidence lacks a strong source digest" else Ok tt.

(** The first check that did not pass. *)
Definition Evaluate (request : dp_Request) (r : dp_Result) (now : Time) :
    result error (bool * Check_) :=
  _ ← ValidateRequest request now;
  _ ← ValidateResult request r now;
  match List.find (λ check, negb (String.eqb (check_Status check) Pass)) (res_Checks r) with
  | Some check => Ok (false, check)
  | None => Ok (true, Check_zero)
  end.
