(* ===== verification/Plan.v ===== *)
(** Frozen plans (src/internal/transfer/plan.go, completion.go,
    stream_policy.go, stream_budget.go, route_evidence.go, server_copy.go,
    same_host.go, level2.go): the plan and what it carries, and [validateExecution]
    of worker.go, which decides whether a plan may run. *)
From S2P Require Import Prelude Domain GoPath Provider DirectProtocol.

(** * Policies *)
Definition OperationCopy := "copy".
Definition OperationMove := "move".
Definition OperationDelete := "delete".
Definition ConflictAsk := "ask".
Definition ConflictOverwrite := "overwrite".
Definition ConflictSkip := "skip".
Definition ConflictAutoRename := "auto_rename".
Definition RouteLocal := "local".
Definition RouteSFTPRelay := "sftp_relay".
Definition RouteHelperSameHost := "helper_same_host".
Definition RouteAtomicRename := "atomic_rename".
Definition RouteSFTPServerCopy := "sftp_server_copy".
Definition RouteLevel2Direct := "level2_direct".
Definition MoveCopyDelete := "copy_delete".
Definition MoveAtomicRename := "atomic_rename".
Definition VerifySHA256 := "stream_sha256".
Definition VerifyProtocol := "protocol".
Definition OriginSyncBack := "sync_back".
Definition DestinationPresent := "present".
Definition DestinationAbsent := "absent".
Definition DurabilityNone := "none".
Definition DurabilityCompletion := "completion".
Definition DurabilityCheckpoint := "checkpoint".
Definition IntegrityStrong := "strong".
Definition IntegrityRequireStrong := "require_strong".

(** * Parts of a plan *)
Record FileRef := mkFileRef {
  ref_Location : Location; ref_Kind : string; ref_Fingerprint : Fingerprint;
  ref_CapabilityRevision : CapabilityRevision;
}.
Record CapabilityBinding := mkBinding {
  bind_Revision : CapabilityRevision; bind_Capability : Capability
}.
(** directory.go *)
Record DiscoveryBudget := mkBudget { QueueItems : Z; PageItems : Z; MaxDepth : Z (* uint32 *) }.
Definition DefaultDiscoveryBudget : DiscoveryBudget := mkBudget 64 256 128.

Record DestinationPrecondition := mkPrecondition {
  pre_Presence : string; pre_Kind : string; pre_Fingerprint : Fingerprint;
  pre_ContentSHA256 : string;
}.

(** stream_policy.go *)
Record StreamPolicy := mkStreamPolicy {
  CheckpointBytes : Z; (* uint64 *) CheckpointIntervalMS : Z; DirectoryWorkers : Z; (* uint32 *)
}.
#[export] Instance StreamPolicy_eta : Settable StreamPolicy :=
  λ p, mkStreamPolicy (CheckpointBytes p) (CheckpointIntervalMS p) (DirectoryWorkers p).
#[export] Instance StreamPolicy_eq_dec : EqDecision StreamPolicy.
Proof. solve_decision. Defined.
Definition StreamPolicy_zero : StreamPolicy := mkStreamPolicy 0 0 0.
Definition DefaultStreamPolicy : StreamPolicy := mkStreamPolicy (Z.shiftl 64 20) 1000 2.
Definition StreamPolicy_valid (policy : StreamPolicy) : bool :=
  if bool_decide (policy = StreamPolicy_zero) then true else
  (0 <? CheckpointBytes policy) && (CheckpointBytes policy <=? Z.shiftl 64 20) &&
  (100 <=? CheckpointIntervalMS policy) && (CheckpointIntervalMS policy <=? 5000) &&
  (1 <=? DirectoryWorkers policy) && (DirectoryWorkers policy <=? 8).

Record BandwidthPolicy := mkBandwidth { bw_Required : bool; bw_JobBytesPerSecond : Z (* uint64 *) }.
Definition requiresControl (policy : BandwidthPolicy) : bool :=
  bw_Required policy || (0 <? bw_JobBytesPerSecond policy).

(** level2.go *)
Record DirectPolicy := mkDirectPolicy {
  dp_UserEnabled : bool; dp_WorkspaceEnabled : bool; dp_DataAllowed : bool; dp_Integrity : string;
}.
Definition DirectPolicy_enabled (policy : DirectPolicy) : bool :=
  dp_UserEnabled policy && dp_WorkspaceEnabled policy && dp_DataAllowed policy &&
  (String.eqb (dp_Integrity policy) IntegrityStrong ||
   String.eqb (dp_Integrity policy) IntegrityRequireStrong).
Definition DirectPolicy_zero (policy : DirectPolicy) : bool :=
  negb (dp_UserEnabled policy) && negb (dp_WorkspaceEnabled policy) && negb (dp_DataAllowed policy).

Definition Level2PreflightPassed := "passed".
Definition Level2PreflightFailed := "failed".
Definition Level2PreflightUnknown := "unknown".
Definition Level2PreflightInvalid := "invalid".
Definition level2DirectCapability := "direct_transfer".
Record Level2PreflightBinding := mkLevel2 {
  l2_ProtocolVersion : Z; (* uint16 *)
  l2_Capability : string;
  l2_MaxBytes : Z; (* uint64 *)
  l2_Request : dp_Request;
  l2_Result : option dp_Result;
  l2_SourceSize : Z; (* uint64 *)
  l2_SourceSHA256 : string;
  l2_Outcome : string;
  l2_FirstCheck : Check_;
}.
#[export] Instance Level2_eta : Settable Level2PreflightBinding :=
  λ b, mkLevel2 (l2_ProtocolVersion b) (l2_Capability b) (l2_MaxBytes b) (l2_Request b)
    (l2_Result b) (l2_SourceSize b) (l2_SourceSHA256 b) (l2_Outcome b) (l2_FirstCheck b).

(** server_copy.go *)
Definition ServerCopyCapabilityVersion : Z := 1.
Definition MaxServerCopyBytes : Z := Z.shiftl 1 40.
Record ServerCopyBinding := mkServerCopy {
  sc_Revision : CapabilityRevision; sc_Capability : Capability; sc_MaxBytes : Z (* uint64 *)
}.

(** same_host.go *)
Definition MaxSameHostCopyBytes : Z := Z.shiftl 2 30.
Record HelperArtifactID := mkArtifact {
  art_ProtocolMajor : Z; (* uint16 *) art_Version : string; art_OS : string; art_Arch : string;
  art_SHA256 : string;
}.
Record SameHostSourceIdentity := mkSourceIdentity {
  si_Size : Z; si_Mode : Z; si_ModifiedUnixNS : Z; (* int64 *) si_FileID : string
}.
Record SameHostCopyBinding := mkSameHost {
  sh_EndpointID : string; sh_ArtifactID : HelperArtifactID; sh_Protocol : Z; (* uint16 *)
  sh_HelperVersion : string; sh_CapabilityVersion : Z; (* uint16 *) sh_SourceSHA256 : string;
  sh_SourceSize : Z; (* uint64 *) sh_SourceIdentity : SameHostSourceIdentity;
}.

(** route_evidence.go *)
Record RouteDecision := mkDecision { rd_Route : string; rd_Reason : string; rd_Eligible : bool }.
Record RouteEvidence := mkEvidence {
  re_Version : Z; (* uint16 *)
  re_Selected : RouteDecision;
  re_Candidates : list RouteDecision;
  re_Policy : string; re_Verification : string; re_Algorithm : string; (* Integrity *)
  re_DowngradeBoundary : string;
  re_Risk : string;
  re_ProgressSemantics : string;
  re_BandwidthControl : string;
  re_Part : Location;
  re_Final : Location;
}.
#[export] Instance RouteEvidence_eta : Settable RouteEvidence :=
  λ e, mkEvidence (re_Version e) (re_Selected e) (re_Candidates e) (re_Policy e)
    (re_Verification e) (re_Algorithm e) (re_DowngradeBoundary e) (re_Risk e)
    (re_ProgressSemantics e) (re_BandwidthControl e) (re_Part e) (re_Final e).
#[export] Instance RouteDecision_eq_dec : EqDecision RouteDecision.
Proof. solve_decision. Defined.
#[export] Instance RouteEvidence_eq_dec : EqDecision RouteEvidence.
Proof. solve_decision. Defined.

(** * The plan *)
Record Plan := mkPlan {
  Durability : string;
  plan_Version : Z; (* uint16 *)
  Origin : string;
  EditSessionID : string;
  ExpectedDestination : option DestinationPrecondition;
  OriginalDestinationPrecondition : option DestinationPrecondition;
  ExpectedSourceSHA256 : string;
  PlanID : string;
  plan_JobID : string;
  plan_Kind : string;
  SourceEndpoint : Endpoint;
  DestinationEndpoint : Endpoint;
  Source : FileRef;
  DestinationDirectory : Location;
  RequestedName : string;
  Final : Location;
  Part : Location;
  PreservedDestination : Location;
  SourceCapability : CapabilityBinding;
  DestinationCapability : CapabilityBinding;
  Route : string;
  plan_DirectPolicy : DirectPolicy;
  Bandwidth : BandwidthPolicy;
  Verification : string;
  ConflictPolicy : string;
  BufferBytes : Z; (* uint32 *)
  plan_StreamPolicy : StreamPolicy;
  Discovery : option DiscoveryBudget;
  MoveStrategy : string;
  MoveCapability : option CapabilityBinding;
  SourceDeleteCapability : option CapabilityBinding;
  ServerCopy : option ServerCopyBinding;
  SameHostCopy : option SameHostCopyBinding;
  Level2Preflight : option Level2PreflightBinding;
  plan_RouteEvidence : option RouteEvidence;
  DeleteRecursive : bool;
  DeleteIrreversible : bool;
  DeleteTrash : bool;
  DeleteCapability : option CapabilityBinding;
  FrozenAt : Time;
}.
#[export] Instance Plan_eta : Settable Plan :=
  λ p, mkPlan (Durability p) (plan_Version p) (Origin p) (EditSessionID p)
    (ExpectedDestination p) (OriginalDestinationPrecondition p) (ExpectedSourceSHA256 p)
    (PlanID p) (plan_JobID p) (plan_Kind p) (SourceEndpoint p) (DestinationEndpoint p) (Source p)
    (DestinationDirectory p) (RequestedName p) (Final p) (Part p) (PreservedDestination p)
    (SourceCapability p) (DestinationCapability p) (Route p) (plan_DirectPolicy p) (Bandwidth p)
    (Verification p) (ConflictPolicy p) (BufferBytes p) (plan_StreamPolicy p) (Discovery p)
    (MoveStrategy p) (MoveCapability p) (SourceDeleteCapability p) (ServerCopy p)
    (SameHostCopy p) (Level2Preflight p) (plan_RouteEvidence p) (DeleteRecursive p)
    (DeleteIrreversible p) (DeleteTrash p) (DeleteCapability p) (FrozenAt p).

Definition Location_zero : Location := mkLocation "" "".
Definition Endpoint_zero : Endpoint := mkEndpoint "" "" "" "".
Definition Revision_zero : CapabilityRevision := mkRevision "" 0.
Definition Capability_zero : Capability := mkCapability "" 0 [].
Definition FileRef_zero : FileRef := mkFileRef Location_zero "" Fingerprint_zero Revision_zero.
Definition Binding_zero : CapabilityBinding := mkBinding Revision_zero Capability_zero.

(** [Plan{}]. *)
Definition Plan_zero : Plan :=
  mkPlan "" 0 "" "" None None "" "" "" "" Endpoint_zero Endpoint_zero FileRef_zero Location_zero ""
    Location_zero Location_zero Location_zero Binding_zero Binding_zero ""
    (mkDirectPolicy false false false "") (mkBandwidth false 0) "" "" 0 StreamPolicy_zero None ""
    None None None None None None false false false None 0.

(** * Completion and buffers (completion.go, stream_budget.go) *)
Definition streamPacketBytes : Z := Z.shiftl 32 10.
Definition MaxReadAheadBytes : Z := Z.shiftl 2 20.
Definition MaxSFTPWriteWindowRequests : Z := 64.

Definition checkpointSync (p : Plan) : bool :=
  String.eqb (Durability p) "" || String.eqb (Durability p) DurabilityCheckpoint.

(** Computed on counters of the widths given; the code's are uint32 and uint64. *)
Definition streamWindowRequests_on (u32 u64 : Z → Z) (plan : Plan) (size : option Z) : Z :=
  match size with
  | None => MaxSFTPWriteWindowRequests
  | Some size =>
    if String.eqb (Durability plan) "" || (size >=? MaxReadAheadBytes)
    then MaxSFTPWriteWindowRequests
    else Z.max 1 (u32 (u64 (u64 (size + streamPacketBytes) - 1) `div` streamPacketBytes))
  end.
Definition streamWindowRequests : Plan → option Z → Z := streamWindowRequests_on u32 u64.

Definition streamBufferBytes (plan : Plan) : Z :=
  if negb (String.eqb (Durability plan) "") then Z.min (BufferBytes plan) streamPacketBytes
  else BufferBytes plan.

Definition local_or_relay (route : string) : bool :=
  String.eqb route RouteLocal || String.eqb route RouteSFTPRelay.

Definition validCompletionPolicy (p : Plan) : bool :=
  if negb (String.eqb (Durability p) "") &&
     (negb (plan_Version p =? 1) || negb (String.eqb (plan_Kind p) OperationCopy) ||
      negb (local_or_relay (Route p))) then false else
  if String.eqb (dp_Integrity (plan_DirectPolicy p)) IntegrityRequireStrong &&
     negb (String.eqb (Verification p) VerifySHA256) then false else
  if negb (String.eqb (Verification p) VerifySHA256) &&
     negb (String.eqb (Verification p) VerifyProtocol) then false else
  if negb (String.eqb (Durability p) "") && negb (String.eqb (Durability p) DurabilityNone) &&
     negb (String.eqb (Durability p) DurabilityCompletion) &&
     negb (String.eqb (Durability p) DurabilityCheckpoint) then false else
  if String.eqb (Verification p) VerifyProtocol &&
     (negb (plan_Version p =? 1) || negb (String.eqb (plan_Kind p) OperationCopy) ||
      String.eqb (Durability p) "" || negb (local_or_relay (Route p))) then false else
  if (String.eqb (plan_Kind p) OperationMove || (plan_Version p =? 2)) &&
     (negb (String.eqb (Verification p) VerifySHA256) || negb (checkpointSync p)) then false else
  true.

(** * Route evidence (route_evidence.go) *)
Definition RouteEvidenceVersion : Z := 1.
Definition ReasonServerCopySelected := "server_copy_capability_selected".
Definition ReasonServerCopyFailedBeforeWrite := "server_copy_failed_part_absent".
Definition ReasonLevel2PreflightPassed := "level2_preflight_passed".
Definition ReasonLevel2FailedBeforeWrite := "direct_failed_before_write".
Definition ReasonLevel2RevalidationFailed := "direct_revalidation_failed".
Definition ReasonLevel2PartCleanedForRelay := "direct_part_cleaned_for_relay".
Definition ReasonBandwidthControlRequired := "bandwidth_control_required".
Definition ReasonBoundedRelayDefault := "bounded_relay_default".
Definition BandwidthControlled := "controlled".
Definition BandwidthUncontrolled := "uncontrolled".
Definition BandwidthNotApplicable := "not_applicable".

Definition routeIntegrityPolicy (plan : Plan) : string :=
  if String.eqb (dp_Integrity (plan_DirectPolicy plan)) IntegrityRequireStrong
  then IntegrityRequireStrong else IntegrityStrong.

Definition both_ssh (plan : Plan) : bool :=
  String.eqb (ep_Kind (SourceEndpoint plan)) EndpointSSH &&
  String.eqb (ep_Kind (DestinationEndpoint plan)) EndpointSSH.
Definition same_endpoint (plan : Plan) : bool :=
  String.eqb (ep_ID (SourceEndpoint plan)) (ep_ID (DestinationEndpoint plan)).
Definition is_file_copy (plan : Plan) : bool :=
  String.eqb (plan_Kind plan) OperationCopy && String.eqb (ref_Kind (Source plan)) EntryFile.

(** [append(evidence.Candidates, ...)]. *)
Definition add_candidate (decision : RouteDecision) (e : RouteEvidence) : RouteEvidence :=
  e <| re_Candidates := re_Candidates e ++ [decision] |>.

Definition initial_evidence (plan : Plan) : RouteEvidence :=
  mkEvidence RouteEvidenceVersion (mkDecision "" "" false) []
    (routeIntegrityPolicy plan) (Verification plan)
    (if String.eqb (Verification plan) VerifyProtocol then "" else "sha256")
    "before_target_write" "low"
    (if negb (String.eqb (Durability plan) "") then "acknowledged_bytes" else "durable_bytes")
    BandwidthControlled (Part plan) (Final plan).

(** The server-copy and helper candidates of a file copied within one SSH
    endpoint. *)
Definition same_ssh_candidates (plan : Plan) (e : RouteEvidence) : RouteEvidence :=
  let control := requiresControl (Bandwidth plan) in
  let e :=
    if control
    then add_candidate (mkDecision RouteSFTPServerCopy ReasonBandwidthControlRequired false) e else
    if String.eqb (Route plan) RouteSFTPServerCopy && bool_decide (is_Some (ServerCopy plan)) then
      let serverCopy := mkDecision RouteSFTPServerCopy ReasonServerCopySelected true in
      add_candidate serverCopy e <| re_Selected := serverCopy |>
        <| re_DowngradeBoundary := "before_target_write_part_absent" |>
        <| re_ProgressSemantics := "phase_only" |> <| re_BandwidthControl := BandwidthUncontrolled |>
    else add_candidate (mkDecision RouteSFTPServerCopy "server_copy_unavailable" false) e in
  if control
  then add_candidate (mkDecision RouteHelperSameHost ReasonBandwidthControlRequired false) e else
  if String.eqb (Route plan) RouteHelperSameHost then
    let helper := mkDecision RouteHelperSameHost "helper_same_host_selected" true in
    add_candidate helper e <| re_Selected := helper |>
      <| re_DowngradeBoundary := "frozen_route_no_silent_downgrade" |>
      <| re_ProgressSemantics := "phase_only" |> <| re_BandwidthControl := BandwidthUncontrolled |>
  else add_candidate (mkDecision RouteHelperSameHost "helper_same_host_unavailable" false) e.

(** The direct candidate between two SSH endpoints. *)
Definition direct_candidate (plan : Plan) (e : RouteEvidence) : RouteEvidence :=
  let closed reason := add_candidate (mkDecision RouteLevel2Direct reason false) e in
  if requiresControl (Bandwidth plan) then closed ReasonBandwidthControlRequired else
  if DirectPolicy_zero (plan_DirectPolicy plan) then closed "production_distribution_closed" else
  if negb (DirectPolicy_enabled (plan_DirectPolicy plan)) then closed "policy_disabled" else
  match Level2Preflight plan with
  | None => closed "production_distribution_closed"
  | Some binding =>
    if String.eqb (l2_Outcome binding) Level2PreflightPassed &&
       String.eqb (Route plan) RouteLevel2Direct then
      let direct := mkDecision RouteLevel2Direct ReasonLevel2PreflightPassed true in
      add_candidate direct (e <| re_Selected := direct |>
        <| re_DowngradeBoundary := "before_target_write" |>
        <| re_BandwidthControl := BandwidthUncontrolled |>)
    else if String.eqb (l2_Outcome binding) Level2PreflightUnknown
    then closed "preflight_unknown" else closed "preflight_failed"
  end.

Definition freezeRouteEvidence (plan : Plan) : Plan :=
  let e := initial_evidence plan in
  if String.eqb (plan_Kind plan) OperationMove && String.eqb (MoveStrategy plan) MoveAtomicRename then
    let selected := mkDecision RouteAtomicRename "same_endpoint_atomic_rename" true in
    plan <| plan_RouteEvidence := Some
      (add_candidate selected (e <| re_Selected := selected |>)
        <| re_DowngradeBoundary := "postcondition_check_only" |>
        <| re_ProgressSemantics := "phase_only" |>
        <| re_BandwidthControl := BandwidthNotApplicable |>) |>
  else
  let e := if String.eqb (plan_Kind plan) OperationMove && same_endpoint plan
    then add_candidate (mkDecision RouteAtomicRename "atomic_rename_unavailable" false) e else e in
  let e := if same_endpoint plan && both_ssh plan && is_file_copy plan
    then same_ssh_candidates plan e else e in
  let e := if negb (same_endpoint plan) && both_ssh plan then direct_candidate plan e else e in
  let e := if String.eqb (rd_Route (re_Selected e)) ""
    then e <| re_Selected := mkDecision (Route plan) ReasonBoundedRelayDefault true |> else e in
  let fallbackRoute :=
    if String.eqb (Route plan) RouteSFTPServerCopy || String.eqb (Route plan) RouteHelperSameHost ||
       String.eqb (Route plan) RouteLevel2Direct
    then RouteSFTPRelay else Route plan in
  plan <| plan_RouteEvidence := Some
    (add_candidate (mkDecision fallbackRoute ReasonBoundedRelayDefault true) e) |>.

Definition validRouteEvidence (plan : Plan) : bool :=
  match plan_RouteEvidence plan with
  | None => local_or_relay (Route plan) || String.eqb (Route plan) RouteHelperSameHost
  | Some _ =>
    let expected := freezeRouteEvidence (plan <| plan_RouteEvidence := None |>) in
    bool_decide (plan_RouteEvidence plan = plan_RouteEvidence expected)
  end.

Definition plannedRouteReason (plan : Plan) : string :=
  match plan_RouteEvidence plan with
  | Some e => if String.eqb (rd_Route (re_Selected e)) (Route plan)
              then rd_Reason (re_Selected e) else ""
  | None => ""
  end.

(** * Bindings *)

(** worker.go; none but ASCII runes pass. *)
Definition validateLowerHexIdentity (value : string) (length : Z) : bool := lowerHex value length.

Definition validServerCopyBinding (binding : ServerCopyBinding) (plan : Plan) : bool :=
  negb (bool_decide (sc_Revision binding = Revision_zero)) &&
  bool_decide (sc_Revision binding = bind_Revision (SourceCapability plan)) &&
  bool_decide (sc_Revision binding = bind_Revision (DestinationCapability plan)) &&
  String.eqb (cap_Name (sc_Capability binding)) "server_copy" &&
  (cap_Version (sc_Capability binding) =? ServerCopyCapabilityVersion) &&
  (sc_MaxBytes binding =? MaxServerCopyBytes) &&
  match fp_Size (ref_Fingerprint (Source plan)) with
  | Some size => size <=? sc_MaxBytes binding
  | None => false
  end.

Definition validSameHostCopyBinding (binding : SameHostCopyBinding) (endpointID : string)
    (expected : Fingerprint) : bool :=
  let artifact := sh_ArtifactID binding in
  if String.eqb (sh_EndpointID binding) "" ||
     negb (String.eqb (sh_EndpointID binding) endpointID) ||
     (art_ProtocolMajor artifact =? 0) || String.eqb (art_Version artifact) "" ||
     String.eqb (art_OS artifact) "" || String.eqb (art_Arch artifact) "" ||
     negb (validateLowerHexIdentity (art_SHA256 artifact) 64) || (sh_Protocol binding =? 0) ||
     String.eqb (sh_HelperVersion binding) "" || (len (sh_HelperVersion binding) >? 64) ||
     (sh_CapabilityVersion binding =? 0) ||
     negb (validateLowerHexIdentity (sh_SourceSHA256 binding) 64) ||
     (sh_SourceSize binding >? MaxSameHostCopyBytes) ||
     negb (si_Size (sh_SourceIdentity binding) =? sh_SourceSize binding)
  then false else
  match fp_Size expected, fp_ModifiedAt expected, fp_ModifiedPrecision expected with
  | Some size, Some want, Some precision =>
    if negb (size =? sh_SourceSize binding) then false else
    let observed := si_ModifiedUnixNS (sh_SourceIdentity binding) + unixToInternal * Second in
    if negb (if String.eqb precision "second" then truncate_second observed =? truncate_second want
             else if String.eqb precision "nanosecond" then observed =? want else false)
    then false else
    if match fp_FileID expected with
       | Some id => negb (String.eqb id (si_FileID (sh_SourceIdentity binding))) | None => false end ||
       match fp_VersionID expected with
       | Some id => negb (String.eqb id "") | None => false end
    then false else
    match fp_HashAlgorithm expected, fp_HashHex expected with
    | None, None => true
    | Some algorithm, Some hex =>
      String.eqb algorithm "sha256" && String.eqb hex (sh_SourceSHA256 binding)
    | _, _ => false
    end
  | _, _, _ => false
  end.

Definition preflight_unavailable : Check_ :=
  mkCheck CheckProtocol Fail_ "preflight_unavailable".

Definition validLevel2PreflightBinding (binding : Level2PreflightBinding) (plan : Plan) : bool :=
  let request := l2_Request binding in
  let fingerprint := ref_Fingerprint (Source plan) in
  if negb (l2_ProtocolVersion binding =? dp_Version) ||
     negb (String.eqb (l2_Capability binding) level2DirectCapability) ||
     negb (l2_MaxBytes binding =? MaxTransferBytes) || negb (req_Version request =? dp_Version) ||
     String.eqb (req_RequestID request) "" || negb (String.eqb (req_JobID request) (plan_JobID plan)) ||
     negb (String.eqb (req_SourceEndpointID request) (ep_ID (SourceEndpoint plan))) ||
     negb (String.eqb (req_SourcePath request) (loc_Path (ref_Location (Source plan)))) ||
     negb (String.eqb (req_DestinationEndpointID request) (ep_ID (DestinationEndpoint plan))) ||
     negb (String.eqb (req_PartPath request) (loc_Path (Part plan))) ||
     negb (String.eqb (req_FinalPath request) (loc_Path (Final plan))) ||
     negb (String.eqb (req_TargetHostAlias request) (ep_SSHHostAlias (DestinationEndpoint plan))) ||
     String.eqb (Strength (req_SourceFingerprint request)) FingerprintWeak ||
     negb (bool_decide (req_SourceFingerprint request = fingerprint)) ||
     negb (bool_decide (fp_Size fingerprint = Some (req_ExpectedSize request))) ||
     negb (String.eqb (req_IntegrityPolicy request) (dp_Integrity (plan_DirectPolicy plan)))
  then false else
  if String.eqb (l2_Outcome binding) Level2PreflightInvalid then
    bool_decide (l2_Result binding = None) && (l2_SourceSize binding =? 0) &&
    String.eqb (l2_SourceSHA256 binding) "" &&
    bool_decide (l2_FirstCheck binding = preflight_unavailable) &&
    is_ok (ValidateRequest request (FrozenAt plan))
  else
  match l2_Result binding with
  | None => false
  | Some r =>
    if negb (l2_SourceSize binding =? res_SourceSize r) ||
       negb (String.eqb (l2_SourceSHA256 binding) (res_SourceSHA256 r)) then false else
    match Evaluate request r (FrozenAt plan) with
    | Err _ => false
    | Ok (true, _) => String.eqb (l2_Outcome binding) Level2PreflightPassed &&
                      bool_decide (l2_FirstCheck binding = Check_zero)
    | Ok (false, first) =>
      let wantOutcome := if String.eqb (check_Status first) Unknown
                         then Level2PreflightUnknown else Level2PreflightFailed in
      String.eqb (l2_Outcome binding) wantOutcome && bool_decide (l2_FirstCheck binding = first)
    end
  end.

(** * Preconditions (worker.go) *)
Definition destinationPreconditionMatches (expected : option DestinationPrecondition)
    (entry : option Entry) : bool :=
  match expected with
  | None => false
  | Some expected =>
    if String.eqb (pre_Presence expected) DestinationAbsent then bool_decide (entry = None) else
    match entry with
    | Some entry =>
      String.eqb (pre_Presence expected) DestinationPresent &&
      String.eqb (entry_Kind entry) (pre_Kind expected) &&
      bool_decide (entry_Fingerprint entry = pre_Fingerprint expected)
    | None => false
    end
  end.

Definition validDestinationPrecondition (expected : option DestinationPrecondition) : bool :=
  match expected with
  | None => false
  | Some expected =>
    if String.eqb (pre_Presence expected) DestinationAbsent then
      String.eqb (pre_Kind expected) "" &&
      String.eqb (Strength (pre_Fingerprint expected)) FingerprintWeak &&
      String.eqb (pre_ContentSHA256 expected) ""
    else if String.eqb (pre_Presence expected) DestinationPresent then
      String.eqb (pre_Kind expected) EntryFile &&
      negb (String.eqb (Strength (pre_Fingerprint expected)) FingerprintWeak) &&
      match fp_Size (pre_Fingerprint expected) with
      | Some size => size <=? 2 * 1024 * 1024 * 1024
      | None => false
      end && validateLowerHexIdentity (pre_ContentSHA256 expected) 64
    else false
  end.

Definition checkedProviderOffset (offset : Z) : result error Z :=
  if offset >? MaxInt64
  then Err (EText "execute transfer: checkpoint offset exceeds provider range") else Ok offset.

(** * Which plans may run (worker.go) *)
Definition invalid_plan {A} (message : string) : result error A :=
  Err (EText ("execute transfer: " +:+ message)).
Definition guard_ok (bad : bool) (message : string) : result error () :=
  if bad then invalid_plan message else Ok tt.

(** The name of a job's part, and of the original it replaces. *)
Definition part_name (final jobID : string) : string :=
  "." +:+ path_Base final +:+ ".part-" +:+ jobID.
Definition original_name (final jobID : string) : string :=
  "." +:+ path_Base final +:+ ".amsftp-original-" +:+ jobID.

Definition precondition_is (p : option DestinationPrecondition) (presence : string) : bool :=
  match p with Some p => String.eqb (pre_Presence p) presence | None => false end.

Definition invalid_sync_back (plan : Plan) : bool :=
  let final := loc_Path (Final plan) in
  negb (String.eqb (Origin plan) OriginSyncBack) ||
  negb (validateLowerHexIdentity (EditSessionID plan) 32) ||
  negb (String.eqb (plan_Kind plan) OperationCopy) ||
  negb (String.eqb (ref_Kind (Source plan)) EntryFile) ||
  negb (String.eqb (ConflictPolicy plan) ConflictOverwrite) ||
  negb (validateLowerHexIdentity (ExpectedSourceSHA256 plan) 64) ||
  negb (validDestinationPrecondition (ExpectedDestination plan)) ||
  negb (validDestinationPrecondition (OriginalDestinationPrecondition plan)) ||
  negb (bool_decide (DestinationDirectory plan =
                     mkLocation (loc_EndpointID (Final plan)) (path_Dir final))) ||
  negb (bool_decide (Part plan =
                     childLocation (DestinationDirectory plan) (part_name final (plan_JobID plan)))) ||
  (precondition_is (ExpectedDestination plan) DestinationPresent &&
   negb (bool_decide (PreservedDestination plan =
           childLocation (DestinationDirectory plan) (original_name final (plan_JobID plan))))) ||
  (precondition_is (ExpectedDestination plan) DestinationAbsent &&
   negb (String.eqb (loc_Path (PreservedDestination plan)) "")).

Definition validate_identity (plan : Plan) : result error () :=
  let kind := ref_Kind (Source plan) in
  let validSourceKind :=
    String.eqb kind EntryFile || String.eqb kind EntryDirectory ||
    (String.eqb (plan_Kind plan) OperationDelete && String.eqb kind EntrySymlink) in
  _ ← guard_ok
    ((negb (plan_Version plan =? 1) && negb (plan_Version plan =? 2)) || negb validSourceKind ||
     negb (String.eqb (ep_ID (SourceEndpoint plan)) (loc_EndpointID (ref_Location (Source plan)))) ||
     negb (String.eqb (ep_ID (DestinationEndpoint plan)) (loc_EndpointID (Part plan))) ||
     String.eqb (loc_EndpointID (Part plan)) "" ||
     negb (String.eqb (loc_EndpointID (Final plan)) (loc_EndpointID (Part plan))) ||
     String.eqb (loc_Path (Part plan)) (loc_Path (Final plan))) "invalid frozen plan";
  _ ← guard_ok (negb (is_ok (ParseJobID (plan_JobID plan)))) "invalid frozen Job ID";
  if plan_Version plan =? 1 then
    guard_ok (negb (String.eqb (Origin plan) "") || negb (String.eqb (EditSessionID plan) "") ||
       bool_decide (is_Some (ExpectedDestination plan)) ||
       bool_decide (is_Some (OriginalDestinationPrecondition plan)) ||
       negb (String.eqb (ExpectedSourceSHA256 plan) ""))
      "Plan Version 1 contains sync-back fields"
  else guard_ok (invalid_sync_back plan) "invalid sync-back Plan Version 2".

Definition validate_budgets (plan : Plan) : result error () :=
  _ ← guard_ok ((BufferBytes plan =? 0) || (BufferBytes plan >? 4 * 1024 * 1024))
        "buffer budget is outside 1..4MiB";
  _ ← guard_ok (negb (StreamPolicy_valid (plan_StreamPolicy plan)))
        "stream policy exceeds bounded budgets";
  guard_ok (negb (validCompletionPolicy plan)) "unsupported verification".

Definition invalid_same_host (plan : Plan) : bool :=
  negb (plan_Version plan =? 1) || negb (is_file_copy plan) || negb (same_endpoint plan) ||
  negb (both_ssh plan) ||
  match SameHostCopy plan with
  | None => true
  | Some b => negb (validSameHostCopyBinding b (ep_ID (SourceEndpoint plan))
                      (ref_Fingerprint (Source plan)))
  end.
Definition invalid_server_copy (plan : Plan) : bool :=
  negb (plan_Version plan =? 1) || negb (is_file_copy plan) || negb (same_endpoint plan) ||
  negb (both_ssh plan) ||
  match ServerCopy plan with
  | None => true
  | Some b => negb (validServerCopyBinding b plan)
  end.

Definition validate_route (plan : Plan) : result error () :=
  let route := Route plan in
  _ ← guard_ok (negb (String.eqb route RouteLocal) && negb (String.eqb route RouteSFTPRelay) &&
      negb (String.eqb route RouteHelperSameHost) && negb (String.eqb route RouteSFTPServerCopy) &&
      negb (String.eqb route RouteLevel2Direct)) "unsupported route";
  _ ← guard_ok (negb (validRouteEvidence plan)) "invalid frozen route evidence";
  _ ← if String.eqb route RouteHelperSameHost
      then guard_ok (invalid_same_host plan) "invalid Helper same-host route"
      else guard_ok (bool_decide (is_Some (SameHostCopy plan)))
             "unexpected Helper same-host binding";
  _ ← if String.eqb route RouteSFTPServerCopy
      then guard_ok (invalid_server_copy plan) "invalid server-copy route"
      else guard_ok (bool_decide (is_Some (ServerCopy plan))) "unexpected server-copy binding";
  match Level2Preflight plan with
  | Some binding =>
    _ ← guard_ok (negb (DirectPolicy_enabled (plan_DirectPolicy plan)) ||
        negb (plan_Version plan =? 1) || negb (String.eqb (ref_Kind (Source plan)) EntryFile) ||
        same_endpoint plan || negb (both_ssh plan) ||
        negb (validLevel2PreflightBinding binding plan)) "invalid Level 2 preflight binding";
    guard_ok (String.eqb route RouteLevel2Direct &&
              negb (String.eqb (l2_Outcome binding) Level2PreflightPassed))
      "Level 2 route lacks passing preflight evidence"
  | None => guard_ok (String.eqb route RouteLevel2Direct) "Level 2 route lacks preflight binding"
  end.

Definition invalid_discovery (b : option DiscoveryBudget) : bool :=
  match b with
  | None => true
  | Some b => (QueueItems b <? 1) || (QueueItems b >? 4096) || (PageItems b <? 1) ||
              (PageItems b >? 4096) || (MaxDepth b <? 1) || (MaxDepth b >? 256)
  end.

Definition validate_operation (plan : Plan) : result error () :=
  let kind := plan_Kind plan in
  _ ← guard_ok (String.eqb (ref_Kind (Source plan)) EntryFile &&
                bool_decide (is_Some (Discovery plan)))
        "file plan has a directory discovery budget";
  _ ← guard_ok (String.eqb (ref_Kind (Source plan)) EntryDirectory &&
                invalid_discovery (Discovery plan)) "directory discovery budget is invalid";
  _ ← if String.eqb kind OperationMove then
        _ ← guard_ok (negb (String.eqb (MoveStrategy plan) "") &&
                      negb (String.eqb (MoveStrategy plan) MoveCopyDelete) &&
                      negb (String.eqb (MoveStrategy plan) MoveAtomicRename))
              "move strategy is invalid";
        _ ← guard_ok (String.eqb (MoveStrategy plan) MoveAtomicRename &&
                      (bool_decide (MoveCapability plan = None) || negb (same_endpoint plan)))
              "atomic move capability is invalid";
        guard_ok (String.eqb (MoveStrategy plan) MoveCopyDelete &&
                  bool_decide (SourceDeleteCapability plan = None))
          "move source deletion capability is missing"
      else Ok tt;
  if String.eqb kind OperationDelete then
    guard_ok (Bool.eqb (DeleteIrreversible plan) (DeleteTrash plan) ||
              (DeleteTrash plan && bool_decide (DeleteCapability plan = None)) ||
              String.eqb (loc_Path (ref_Location (Source plan))) "/" ||
              negb (bool_decide (Final plan = ref_Location (Source plan))) ||
              negb (same_endpoint plan)) "delete plan is invalid"
  else guard_ok (negb (String.eqb kind OperationCopy) && negb (String.eqb kind OperationMove))
         "operation kind is invalid".

Definition validateExecution (plan : Plan) : result error () :=
  _ ← validate_identity plan;
  _ ← validate_budgets plan;
  _ ← validate_route plan;
  validate_operation plan.

(** * What a plan that may run is like *)
Lemma guard_ok_false bad message u : guard_ok bad message = Ok u ↔ bad = false.
Proof. destruct bad, u; cbn; naive_solver. Qed.
Lemma guard_bind_ok {A} bad message (k : () → result error A) a :
  guard_ok bad message ≫= k = Ok a ↔ bad = false ∧ k tt = Ok a.
Proof. destruct bad; cbn; naive_solver. Qed.

Section Valid.
Context (plan : Plan) (Hvalid : validateExecution plan = Ok ()).

Lemma valid_parts :
  validate_identity plan = Ok () ∧ validate_budgets plan = Ok () ∧
  validate_route plan = Ok () ∧ validate_operation plan = Ok ().
Proof.
  revert Hvalid. unfold validateExecution.
  intros ([] & ? & ([] & ? & ([] & ? & ?)%bind_ok)%bind_ok)%bind_ok. done.
Qed.
Lemma valid_version : plan_Version plan = 1 ∨ plan_Version plan = 2.
Proof.
  destruct valid_parts as (Hi & _). revert Hi. unfold validate_identity.
  rewrite guard_bind_ok. lia.
Qed.
Lemma valid_sync_back : plan_Version plan = 2 → invalid_sync_back plan = false.
Proof.
  intros Hv. destruct valid_parts as (Hi & _). revert Hi. unfold validate_identity.
  rewrite !guard_bind_ok, Hv. cbn. rewrite guard_ok_false. tauto.
Qed.
Lemma valid_overwrite : plan_Version plan = 2 → ConflictPolicy plan = ConflictOverwrite.
Proof.
  intros Hv%valid_sync_back. unfold invalid_sync_back in Hv.
  destruct (String.eqb_spec (ConflictPolicy plan) ConflictOverwrite); [done|].
  rewrite !orb_false_iff in Hv. cbn in Hv. naive_solver.
Qed.
Lemma valid_stream_policy : StreamPolicy_valid (plan_StreamPolicy plan) = true.
Proof.
  destruct valid_parts as (_ & Hb & _). revert Hb. unfold validate_budgets.
  rewrite !guard_bind_ok. destruct (StreamPolicy_valid _); naive_solver.
Qed.
Lemma valid_completion : validCompletionPolicy plan = true.
Proof.
  destruct valid_parts as (_ & Hb & _). revert Hb. unfold validate_budgets.
  rewrite !guard_bind_ok, guard_ok_false. destruct (validCompletionPolicy _); naive_solver.
Qed.
(** Completion evidence is only asked for on the routes that stream. *)
Lemma valid_durability : Durability plan = "" ∨ local_or_relay (Route plan) = true.
Proof.
  pose proof valid_completion as Hc. unfold validCompletionPolicy in *.
  destruct (String.eqb_spec (Durability plan) ""); [by left|right].
  destruct (local_or_relay (Route plan)); [done|]. cbn in Hc. by rewrite orb_true_r in Hc.
Qed.
Lemma valid_route : Route plan ≠ "".
Proof.
  destruct valid_parts as (_ & _ & Hr & _). revert Hr. unfold validate_route.
  rewrite guard_bind_ok. intros [Hr _] He. by rewrite He in Hr.
Qed.
(** A same-host copy is bound to a source of the frozen size. *)
Lemma valid_same_host binding :
  Route plan = RouteHelperSameHost → SameHostCopy plan = Some binding →
  fp_Size (ref_Fingerprint (Source plan)) = Some (sh_SourceSize binding).
Proof.
  intros He Hb. destruct valid_parts as (_ & _ & Hr & _). revert Hr. unfold validate_route.
  rewrite !guard_bind_ok. intros (_ & _ & Hr). apply bind_ok in Hr as ([] & Hr & _).
  rewrite He in Hr. cbn in Hr. apply guard_ok_false in Hr. unfold invalid_same_host in Hr.
  rewrite Hb in Hr. destruct (validSameHostCopyBinding _ _ _) eqn:Hv; [|by rewrite orb_true_r in Hr].
  unfold validSameHostCopyBinding in Hv. case_match; [done|].
  destruct (fp_Size _) as [size|]; [|done]. destruct (fp_ModifiedAt _); [|done].
  destruct (fp_ModifiedPrecision _); [|done].
  destruct (Z.eqb_spec size (sh_SourceSize binding)) as [->|]; [done|]. by cbn in Hv.
Qed.
End Valid.
