(* ===== verification/Admission.v ===== *)
(** What a job asks of the resource ledger before it runs
    (src/internal/transfer/manager.go: executionResourceUsage and
    executionResourceRequest; src/internal/transfer/stream_budget.go;
    src/internal/transfer/directory_stream.go: directoryStreamWorkers). *)
From S2P Require Import Prelude Domain GoPath Provider DirectProtocol Bandwidth Plan ResourceLedger.

(** * Budgets of streams (stream_budget.go) *)
Definition directoryRequestBudget : Z := 128.
Definition directoryStreamWorkers (plan : Plan) : Z :=
  let workers := DirectoryWorkers (plan_StreamPolicy plan) in
  if negb (String.eqb (Durability plan) "") then Z.max 1 (Z.min workers 8) else
  if (workers <? 2) || both_ssh plan then 1 else 2.
Definition is_ssh (endpoint : Endpoint) : bool := String.eqb (ep_Kind endpoint) EndpointSSH.
Definition one_if (b : bool) : Z := if b then 1 else 0.
(** The endpoints of a plan that are reached over SSH. *)
Definition ssh_endpoints (plan : Plan) (counted : Endpoint → bool) : gset string :=
  list_to_set (ep_ID <$> filter (λ e, counted e = true ∧ is_ssh e = true)
                 [SourceEndpoint plan; DestinationEndpoint plan]).
(** * The usage of an execution (stream_budget.go, manager.go)

    The computation, on counters of the widths given. *)
Definition MaxSFTPWriteWindowGoroutines : Z := MaxSFTPWriteWindowRequests + 2.
Section Widths.
Context (u32 u64 : Z → Z).

Definition directoryRequestCost_on (plan : Plan) (size : option Z) : Z :=
  if String.eqb (Durability plan) "" then 0 else
  let legs := one_if (is_ssh (SourceEndpoint plan)) + one_if (is_ssh (DestinationEndpoint plan)) in
  u32 (Z.max 1 legs * streamWindowRequests_on u32 u64 plan size).
Definition windowedExecutionResourceUsage_on (plan : Plan) : ResourceUsage :=
  let connections := Z.of_nat (size (ssh_endpoints plan (λ _, true))) in
  let directory := String.eqb (ref_Kind (Source plan)) EntryDirectory in
  let slots := if directory then directoryStreamWorkers plan else 1 in
  let requests := if directory then directoryRequestBudget
                  else directoryRequestCost_on plan (fp_Size (ref_Fingerprint (Source plan))) in
  let validation := if directory then streamPacketBytes else 0 in
  let requests := if connections =? 0 then 0 else requests in
  mkResourceUsage 1 0 connections connections 0 (u32 (2 * slots + 3 * connections))
    (u32 (requests + 8 * slots + 2))
    (u64 (u64 (requests * streamPacketBytes) +
          u64 (slots * (streamBufferBytes plan + 2 * streamPacketBytes)) + validation)) 0 0.
Definition executionResourceUsage_on (plan : Plan) : ResourceUsage :=
  if negb (String.eqb (Durability plan) "") then windowedExecutionResourceUsage_on plan else
  let source := is_ssh (SourceEndpoint plan) in
  let destination := is_ssh (DestinationEndpoint plan) in
  let relayed := negb (String.eqb (Route plan) RouteHelperSameHost) in
  let connections := Z.of_nat (size (ssh_endpoints plan (λ e, negb (String.eqb (ep_ID e) "")))) in
  let helperProcesses :=
    one_if (String.eqb (Route plan) RouteHelperSameHost || String.eqb (Route plan) RouteLevel2Direct) in
  let readAheadMemory := if source && relayed then MaxReadAheadBytes else 0 in
  let readAheadGoroutines :=
    if source && relayed then MaxReadAheadBytes `div` streamPacketBytes + 2 else 0 in
  let writeWindowGoroutines := if destination && relayed then MaxSFTPWriteWindowGoroutines else 0 in
  let verifyMemory := if (source || destination) && relayed then MaxReadAheadBytes else 0 in
  let verifyGoroutines :=
    if (source || destination) && relayed then MaxReadAheadBytes `div` streamPacketBytes + 2 else 0 in
  let writeMemory :=
    if 0 <? writeWindowGoroutines then MaxSFTPWriteWindowRequests * streamPacketBytes else 0 in
  let directory := String.eqb (ref_Kind (Source plan)) EntryDirectory &&
                   (0 <? DirectoryWorkers (plan_StreamPolicy plan)) in
  let slots := if directory then directoryStreamWorkers plan else 1 in
  let directoryOverhead := if directory then 2 else 0 in
  let validationMemory := if directory then streamPacketBytes else 0 in
  let preserves := (plan_Version plan =? 2) &&
    match ExpectedDestination plan with
    | Some p => String.eqb (pre_Presence p) DestinationPresent | None => false
    end && destination in
  let preservationMemory := if preserves then streamPacketBytes else 0 in
  let preservationGoroutines := one_if preserves in
  mkResourceUsage 1 0 connections connections helperProcesses (u32 (2 * slots + 3 * connections))
    (u32 (slots * (2 + Z.max (readAheadGoroutines + writeWindowGoroutines) verifyGoroutines) +
          directoryOverhead + preservationGoroutines))
    (u64 (slots * (BufferBytes plan + Z.max (readAheadMemory + writeMemory) verifyMemory) +
          validationMemory + preservationMemory)) 0 0.
End Widths.
(** It is made on uint32 and uint64. *)
Definition directoryRequestCost : Plan → option Z → Z := directoryRequestCost_on u32 u64.
Definition windowedExecutionResourceUsage : Plan → ResourceUsage := windowedExecutionResourceUsage_on u32 u64.
Definition executionResourceUsage : Plan → ResourceUsage := executionResourceUsage_on u32 u64.

(** The loop over the endpoints: the names so far, and what each is charged. *)
Definition charge_endpoint (acc : list string * gmap string ResourceUsage) (endpoint : Endpoint) :
    list string * gmap string ResourceUsage :=
  let '(ids, usages) := acc in
  let id := ep_ID endpoint in
  if String.eqb id "" then acc else
  let '(ids, active, connections) :=
    match usages !! id with
    | Some u => (ids, ActiveJobs u, Connections u)
    | None => (ids ++ [id], 1, 0)
    end in
  let connections := if is_ssh endpoint then 1 else connections in
  (ids, <[id := mkResourceUsage active 0 connections 0 0 0 0 0 0 0]> usages).
Definition executionResourceRequest (plan : Plan) : ResourceRequest :=
  let '(ids, usages) := foldl charge_endpoint ([], ∅) [SourceEndpoint plan; DestinationEndpoint plan] in
  mkResourceRequest (plan_JobID plan) ids (executionResourceUsage plan) usage0 (Some usages).

(** * Every execution fits *)
Lemma one_if_01 b : 0 ≤ one_if b ≤ 1.
Proof. destruct b; cbn; lia. Qed.
Lemma size_list_to_set (l : list string) : (size (list_to_set (C := gset string) l) ≤ length l)%nat.
Proof.
  induction l as [|x l IH]; cbn; [by rewrite size_empty|].
  rewrite size_union_alt. etrans; [apply Nat.add_le_mono; [reflexivity|]|].
  { apply subseteq_size, subseteq_difference_l. reflexivity. }
  rewrite size_singleton. lia.
Qed.
Lemma ssh_endpoints_size plan counted : (0 ≤ Z.of_nat (size (ssh_endpoints plan counted)) ≤ 2).
Proof.
  split; [lia|]. unfold ssh_endpoints.
  pose proof (size_list_to_set (ep_ID <$> filter (λ e, counted e = true ∧ is_ssh e = true)
    [SourceEndpoint plan; DestinationEndpoint plan])) as H1.
  rewrite length_fmap in H1.
  pose proof (length_filter (λ e, counted e = true ∧ is_ssh e = true)
    [SourceEndpoint plan; DestinationEndpoint plan]) as H2. cbn [length] in H2. lia.
Qed.
Lemma directoryStreamWorkers_bound plan : 1 ≤ directoryStreamWorkers plan ≤ 8.
Proof. unfold directoryStreamWorkers. repeat case_match; lia. Qed.
(** The same computation with counters that do not wrap. *)
Abbreviation unbounded := (λ n : Z, n) (only parsing).
Lemma streamWindowRequests_bound plan s :
  (∀ n, s = Some n → 0 ≤ n) →
  streamWindowRequests plan s = streamWindowRequests_on unbounded unbounded plan s ∧
  1 ≤ streamWindowRequests plan s ≤ 64.
Proof.
  intros Hn. unfold streamWindowRequests, streamWindowRequests_on, MaxSFTPWriteWindowRequests.
  destruct s as [n|]; [|lia]. destruct (_ || _) eqn:E; [lia|].
  apply orb_false_iff in E as [_ E]. specialize (Hn n eq_refl).
  change MaxReadAheadBytes with 2097152 in E. change streamPacketBytes with 32768.
  rewrite (u64_small (n + 32768)), (u64_small (_ - 1)) by lia.
  pose proof (Z.div_lt_upper_bound (n + 32768 - 1) 32768 65 ltac:(lia) ltac:(lia)).
  pose proof (Z.div_pos (n + 32768 - 1) 32768 ltac:(lia) ltac:(lia)). rewrite u32_small by lia. lia.
Qed.

(** The plan's numbers are those of its Go types, and its buffer is bounded. *)
Record bounded_plan (plan : Plan) : Prop := {
  bp_buffer : 0 ≤ BufferBytes plan ≤ 4 * 1024 * 1024;
  bp_size : ∀ n, fp_Size (ref_Fingerprint (Source plan)) = Some n → 0 ≤ n;
}.
Lemma directoryRequestCost_bound plan s :
  (∀ n, s = Some n → 0 ≤ n) →
  directoryRequestCost plan s = directoryRequestCost_on unbounded unbounded plan s ∧
  0 ≤ directoryRequestCost plan s ≤ 128.
Proof.
  intros Hn. unfold directoryRequestCost, directoryRequestCost_on. destruct (_ =? _)%string; [lia|].
  destruct (streamWindowRequests_bound plan s Hn) as [<- Hs]. fold (streamWindowRequests plan s).
  pose proof (one_if_01 (is_ssh (SourceEndpoint plan))).
  pose proof (one_if_01 (is_ssh (DestinationEndpoint plan))). rewrite u32_small by nia. split; [done|nia].
Qed.
Definition fits (u : ResourceUsage) : Prop := usage_nonneg u ∧ usage_within u HardResourceCeilings.
Lemma ceilings_are : HardResourceCeilings =
  mkResourceLimits 16 8 512 64 32 4 32 4 512 256 67108864 32768 32768.
Proof. reflexivity. Qed.

Lemma windowed_fits plan : bounded_plan plan →
  windowedExecutionResourceUsage plan = windowedExecutionResourceUsage_on unbounded unbounded plan ∧
  fits (windowedExecutionResourceUsage plan).
Proof.
  intros [Hb Hs]. destruct (directoryRequestCost_bound plan _ Hs) as [Heq Hr]. unfold windowedExecutionResourceUsage, windowedExecutionResourceUsage_on. cbv zeta.
  rewrite <-Heq. fold (directoryRequestCost plan (fp_Size (ref_Fingerprint (Source plan)))). clear Heq.
  pose proof (ssh_endpoints_size plan (λ _, true)) as Hc.
  set (connections := Z.of_nat (size (ssh_endpoints plan (λ _, true)))) in *. clearbody connections.
  assert (0 ≤ streamBufferBytes plan ≤ 4194304) as Hbuf.
  { unfold streamBufferBytes. change streamPacketBytes with 32768. destruct (negb _); lia. }
  set (buffer := streamBufferBytes plan) in *. clearbody buffer.
  pose proof (directoryStreamWorkers_bound plan) as Hw.
  change streamPacketBytes with 32768. change directoryRequestBudget with 128.
  set (directory := (ref_Kind (Source plan) =? EntryDirectory)%string). clearbody directory.
  set (slots := if directory then directoryStreamWorkers plan else 1).
  assert (1 ≤ slots ≤ 8) as Hslots by (subst slots; destruct directory; lia). clearbody slots.
  set (requests := if connections =? 0 then 0 else _).
  assert (0 ≤ requests ≤ 128) as Hreq
    by (subst requests; destruct (connections =? 0), directory; lia). clearbody requests.
  set (validation := if directory then 32768 else 0).
  assert (0 ≤ validation ≤ 32768) as Hval by (subst validation; destruct directory; lia).
  clearbody validation.
  set (memory := slots * (buffer + 2 * 32768)).
  assert (0 ≤ memory ≤ 34078720) as Hmem by (subst memory; nia). clearbody memory.
  rewrite (u32_small (2 * slots + _)), (u32_small (requests + 8 * slots + 2)), (u64_small (requests * _)),
    (u64_small memory), u64_small by lia.
  split; [done|]. unfold fits, usage_nonneg, usage_within. rewrite ceilings_are. cbn. lia.
Qed.

Lemma executionResourceUsage_fits plan : bounded_plan plan →
  executionResourceUsage plan = executionResourceUsage_on unbounded unbounded plan ∧
  fits (executionResourceUsage plan).
Proof.
  intros Hp. unfold executionResourceUsage, executionResourceUsage_on. destruct (negb _) eqn:Ed; [by apply windowed_fits|].
  destruct Hp as [Hb _]. apply negb_false_iff, String.eqb_eq in Ed. cbv zeta.
  pose proof (ssh_endpoints_size plan (λ e, negb (ep_ID e =? "")%string)) as Hc.
  set (connections := Z.of_nat (size (ssh_endpoints plan _))) in *. clearbody connections.
  set (directory := (ref_Kind (Source plan) =? EntryDirectory)%string && _). clearbody directory.
  set (relayed := negb (Route plan =? RouteHelperSameHost)%string). clearbody relayed.
  set (preserves := (plan_Version plan =? 2) && _ && _). clearbody preserves.
  set (helper := one_if _). assert (0 ≤ helper ≤ 1) as Hh by apply one_if_01. clearbody helper.
  change (MaxReadAheadBytes `div` streamPacketBytes + 2) with 66.
  change MaxReadAheadBytes with 2097152. change MaxSFTPWriteWindowGoroutines with 66.
  change (MaxSFTPWriteWindowRequests * streamPacketBytes) with 2097152.
  change streamPacketBytes with 32768.
  unfold directoryStreamWorkers, both_ssh. rewrite Ed. cbn [String.eqb negb].
  fold (is_ssh (SourceEndpoint plan)) (is_ssh (DestinationEndpoint plan)).
  unfold fits, usage_nonneg, usage_within. rewrite ceilings_are.
  destruct (is_ssh (SourceEndpoint plan)), (is_ssh (DestinationEndpoint plan)), relayed, directory,
    preserves, (DirectoryWorkers (plan_StreamPolicy plan) <? 2); cbn [andb orb one_if ActiveJobs QueuedJobs Connections SSHProcesses
      HelperProcesses FileDescriptors Goroutines MemoryBytes EventBytes LogBytes];
    rewrite ?u32_small, ?u64_small by (cbn; lia); (split; [done|cbn; lia]).
Qed.

(** * The request is well formed, and fits *)
Record charged (l : list Endpoint) (ids : list string) (usages : gmap string ResourceUsage) : Prop := {
  ch_nodup : NoDup ids;
  ch_named : "" ∉ ids;
  ch_dom : dom usages = list_to_set ids;
  ch_length : (length ids ≤ length l)%nat;
  ch_usage : ∀ id u, usages !! id = Some u → ∃ ssh : bool,
    u = mkResourceUsage 1 0 (one_if ssh) 0 0 0 0 0 0 0 ∧
    (ssh = true → ∃ e, e ∈ l ∧ ep_ID e = id ∧ is_ssh e = true ∧ id ≠ "");
}.
Lemma charge_endpoint_charged l e ids usages :
  charged l ids usages → charged (l ++ [e]) (charge_endpoint (ids, usages) e).1 (charge_endpoint (ids, usages) e).2.
Proof.
  intros [Hn Hnamed Hd Hl Hu]. unfold charge_endpoint.
  assert (∀ id u, usages !! id = Some u → ∃ ssh : bool,
    u = mkResourceUsage 1 0 (one_if ssh) 0 0 0 0 0 0 0 ∧
    (ssh = true → ∃ e', e' ∈ l ++ [e] ∧ ep_ID e' = id ∧ is_ssh e' = true ∧ id ≠ "")) as Hu'.
  { intros id u E. destruct (Hu id u E) as (ssh & -> & Hs). exists ssh. split; [done|].
    intros Es. destruct (Hs Es) as (e' & ? & ?). exists e'. split; [|done]. apply elem_of_app. by left. }
  destruct (String.eqb_spec (ep_ID e) "") as [|Hne].
  { split; cbn; [done..|rewrite length_app; lia|done]. }
  assert (∀ u' c, u' = mkResourceUsage 1 0 (if is_ssh e then 1 else one_if c) 0 0 0 0 0 0 0 →
    (c = true → ∃ e', e' ∈ l ++ [e] ∧ ep_ID e' = ep_ID e ∧ is_ssh e' = true ∧ ep_ID e ≠ "") →
    ∃ ssh : bool, u' = mkResourceUsage 1 0 (one_if ssh) 0 0 0 0 0 0 0 ∧
    (ssh = true → ∃ e', e' ∈ l ++ [e] ∧ ep_ID e' = ep_ID e ∧ is_ssh e' = true ∧ ep_ID e ≠ "")) as Hnew.
  { intros u' c -> Hc. destruct (is_ssh e) eqn:Es; [exists true|by exists c].
    split; [done|]. intros _. exists e. split; [|done]. apply elem_of_app. right. by left. }
  destruct (usages !! ep_ID e) as [u|] eqn:E; cbn [fst snd].
  - assert (ep_ID e ∈ ids) as Hin by (rewrite <-(elem_of_list_to_set (C := gset string)), <-Hd; by apply elem_of_dom_2 in E).
    split; [done..| |rewrite length_app; lia|].
    { rewrite dom_insert_L, Hd. apply (subseteq_union_1_L {[ep_ID e]}). set_solver. }
    intros id u' [[<- <-]|[_ E']]%lookup_insert_Some; [|by apply Hu'].
    destruct (Hu' _ _ E) as (ssh & -> & Hs). by apply (Hnew _ ssh).
  - assert (ep_ID e ∉ ids) as Hin.
    { rewrite <-(elem_of_list_to_set (C := gset string)), <-Hd. by apply not_elem_of_dom. }
    split.
    + apply NoDup_app. split; [done|]. split; [|apply NoDup_singleton]. set_solver.
    + set_solver.
    + rewrite dom_insert_L, Hd, list_to_set_app_L. set_solver.
    + rewrite !length_app. cbn. lia.
    + intros id u' [[<- <-]|[_ E']]%lookup_insert_Some; [|by apply Hu']. by apply (Hnew _ false).
Qed.
Lemma request_charged plan : ∃ ids usages,
  executionResourceRequest plan =
    mkResourceRequest (plan_JobID plan) ids (executionResourceUsage plan) usage0 (Some usages) ∧
  charged [SourceEndpoint plan; DestinationEndpoint plan] ids usages.
Proof.
  unfold executionResourceRequest. cbn [foldl].
  assert (charged [] [] ∅) as H0.
  { split; cbn; [constructor|apply not_elem_of_nil|by rewrite dom_empty_L|lia|].
    intros id u E. by rewrite lookup_empty in E. }
  pose proof (charge_endpoint_charged _ (SourceEndpoint plan) _ _ H0) as H1.
  destruct (charge_endpoint ([], ∅) _) as [ids1 usages1]. cbn in H1.
  pose proof (charge_endpoint_charged _ (DestinationEndpoint plan) _ _ H1) as H2.
  destruct (charge_endpoint (ids1, usages1) _) as [ids2 usages2]. by exists ids2, usages2.
Qed.

Lemma normalizeEndpoints_same ids : NoDup ids → "" ∉ ids →
  normalizeEndpoints ids = Ok (list_to_set ids, ids).
Proof.
  intros Hn He. unfold normalizeEndpoints.
  enough (∀ acc, NoDup (acc ++ ids) → for_each (λ '(seen, endpoints) endpointID,
    if String.eqb endpointID "" then Err ErrRequestEndpointIDEmpty
    else if decide (endpointID ∈ seen) then Ok (seen, endpoints)
    else Ok ({[endpointID]} ∪ seen, endpoints ++ [endpointID]))
    (list_to_set (C := gset string) acc, acc) ids = Ok (list_to_set (acc ++ ids), acc ++ ids)) as Hloop
    by exact (Hloop [] Hn).
  clear Hn. induction ids as [|x ids IH]; intros acc Hn; cbn; [by rewrite app_nil_r|].
  apply not_elem_of_cons in He as [Hx He].
  destruct (String.eqb_spec x "") as [->|_]; [done|].
  assert (x ∉ acc) as Hacc by (apply NoDup_app in Hn as (_ & Hd & _); intros Hin; apply (Hd x Hin); by left).
  destruct (decide _) as [Hin|_]; [by rewrite elem_of_list_to_set in Hin|].
  replace ({[x]} ∪ list_to_set acc : gset string) with (list_to_set (acc ++ [x]) : gset string)
    by (rewrite list_to_set_app_L; cbn; set_solver).
  rewrite (cons_middle x acc ids), app_assoc. apply IH; [done|]. by rewrite <-app_assoc.
Qed.
Lemma executionResourceRequest_normal plan :
  plan_JobID plan ≠ "" → normalizeResourceRequest (executionResourceRequest plan) = Ok (executionResourceRequest plan).
Proof.
  intros Hj. destruct (request_charged plan) as (ids & usages & -> & [Hn He Hd _ _]).
  unfold normalizeResourceRequest. cbn [req_JobID req_EndpointIDs req_Usage req_PerEndpointUsage req_EndpointUsage].
  apply String.eqb_neq in Hj. rewrite Hj. cbn [negb check mbind result_bind].
  rewrite (normalizeEndpoints_same _ Hn He). cbn [mbind result_bind default].
  unfold id; rewrite (bool_decide_true (usage0 = usage0)), orb_true_r by done. cbn [check mbind result_bind].
  destruct (decide (usages = ∅)) as [->|].
  - rewrite dom_empty_L in Hd. destruct ids as [|x ids]; [done|]. set_solver.
  - rewrite Hd, bool_decide_true by done. done.
Qed.

(** The share of an endpoint is part of the whole. *)
Lemma usage_connections plan e :
  e ∈ [SourceEndpoint plan; DestinationEndpoint plan] → is_ssh e = true → ep_ID e ≠ "" →
  bounded_plan plan → 1 ≤ Connections (executionResourceUsage plan).
Proof.
  intros Hin Hs Hne Hp.
  assert (∀ counted, counted e = true → 1 ≤ Z.of_nat (size (ssh_endpoints plan counted))) as Hsize.
  { intros counted Hc. assert (ssh_endpoints plan counted ≠ ∅) as Hnonempty.
    { unfold ssh_endpoints. intros E. assert (ep_ID e ∈ (∅ : gset string)) as Hbad; [|set_solver].
      rewrite <-E, elem_of_list_to_set. apply list_elem_of_fmap_2.
      by apply list_elem_of_filter. }
    destruct (decide (size (ssh_endpoints plan counted) = 0%nat)) as [E|]; [|lia].
    by apply size_empty_inv, leibniz_equiv in E. }
  unfold executionResourceUsage, executionResourceUsage_on. destruct (negb _).
  - apply Hsize. done.
  - cbv zeta. cbn [Connections]. apply Hsize. by apply negb_true_iff, String.eqb_neq.
Qed.
Lemma executionResourceUsage_active plan : ActiveJobs (executionResourceUsage plan) = 1.
Proof. unfold executionResourceUsage, executionResourceUsage_on. by destruct (negb _). Qed.
Lemma request_normal_execution plan :
  bounded_plan plan → request_normal (executionResourceRequest plan).
Proof.
  intros Hp. pose proof (executionResourceUsage_fits plan Hp) as [_ [Hnn _]].
  pose proof (executionResourceUsage_active plan) as Ha.
  pose proof (usage_connections plan) as Hconn.
  destruct (request_charged plan) as (ids & usages & -> & [Hn He Hd Hl Hu]).
  unfold request_normal, request_wf. cbn [req_Usage req_PerEndpointUsage req_EndpointUsage req_EndpointIDs default].
  split; [|done]. split_and!; [done| |by apply usage0_le| |cbn in Hl; lia].
  { usage_lia. }
  intros id u E. destruct (Hu id u E) as (ssh & -> & Hs).
  unfold usage_nonneg, usage_le in *. cbn. rewrite Ha.
  destruct ssh; cbn; [|lia]. destruct (Hs eq_refl) as (e & Hin & <- & Hssh & Hid).
  specialize (Hconn e Hin Hssh Hid Hp). lia.
Qed.

(** C32: an execution can always be admitted: the resources that the manager asks
    for, for any plan the worker accepts to execute, are those of a well-formed
    request that fits under the default ceilings, so that the ledger of a manager
    with these ceilings grants it when nothing else runs.  No counter of the usage has
    wrapped around: the same computation made on integers of any size instead of
    uint32 and uint64, its intermediate counters included, gives the same usage. *)
Theorem execution_admitted plan :
  validateExecution plan = Ok tt → 0 ≤ BufferBytes plan →
  (∀ n, fp_Size (ref_Fingerprint (Source plan)) = Some n → 0 ≤ n) →
  usage_within (executionResourceUsage plan) HardResourceCeilings ∧
  executionResourceUsage plan = executionResourceUsage_on unbounded unbounded plan ∧
  ∃ ledger ledger', NewResourceLedger ResourceLimits_zero = Ok ledger ∧
    TryAcquire ledger (executionResourceRequest plan) =
      Ok (ledger', mkResourceLease (executionResourceRequest plan) false).
Proof.
  intros Hv Hb Hs. unfold validateExecution in Hv.
  apply bind_ok in Hv as ([] & Hid & Hv). apply bind_ok in Hv as ([] & Hbudget & _).
  unfold validate_identity in Hid. cbv zeta in Hid. apply guard_bind_ok in Hid as [_ Hid].
  apply guard_bind_ok in Hid as [Hjob _]. unfold validate_budgets in Hbudget.
  apply guard_bind_ok in Hbudget as [Hbuf _].
  assert (bounded_plan plan) as Hp by (split; [lia|done]). clear Hb Hs Hbuf.
  assert (plan_JobID plan ≠ "") as Hj by (intros E; by rewrite E in Hjob).
  pose proof (executionResourceUsage_fits plan Hp) as [Hexact [_ Hw]]. do 2 (split; [done|]).
  exists (mkResourceLedger HardResourceCeilings usage0 ∅ ∅ 0 0).
  exists (acquireLocked (mkResourceLedger HardResourceCeilings usage0 ∅ ∅ 0 0) (executionResourceRequest plan)).
  split; [done|]. unfold TryAcquire. rewrite executionResourceRequest_normal by done. cbn [mbind result_bind].
  assert (canAcquireLocked (mkResourceLedger HardResourceCeilings usage0 ∅ ∅ 0 0)
            (executionResourceRequest plan) = Ok tt) as ->; [|done].
  assert (limits_ok HardResourceCeilings) as Hl by (rewrite ceilings_are; unfold limits_ok; cbn; lia).
  apply (canAcquireLocked_spec _ [] _ tt); [by apply initial_holds|by apply request_normal_execution|].
  destruct (request_charged plan) as (ids & usages & Hreq & [Hn He Hd Hlen Hu]).
  unfold request_fits. rewrite Hreq. cbn [req_EndpointIDs req_Usage led_perEndpoint led_limits].
  rewrite map_size_empty. split_and!.
  - match goal with |- context [length ?l] => assert (length l ≤ length ids)%nat by apply length_filter;
      set (k := length l) in * end. clearbody k.
    rewrite ceilings_are. cbn in Hlen |- *. lia.
  - cbn [held_total usage_sum foldr fmap list_fmap]. by rewrite usage_plus_0_l.
  - intros e _. unfold endpointUsage. cbn [req_EndpointUsage held_endpoint]. rewrite ceilings_are.
    unfold usage_at. destruct (usages !! e) as [u|] eqn:E; cbn; [|lia].
    destruct (Hu e u E) as (ssh & -> & _). cbn. pose proof (one_if_01 ssh). lia.
Qed.
