(* ===== verification/PlanRecord.v ===== *)
(** What is written of a plan (src/internal/transfer/plan.go: createRequest,
    createDeleteRequest, DecodePlan; the requests of
    src/internal/state/jobstore/store.go).

    A JSON text (encoding/json) is modelled by the value it shows.  Numbers,
    booleans, times in UTC and the structure of values come back as they are; of
    a string, every byte that does not belong to a UTF-8 sequence is written as
    the escape of U+FFFD, and comes back as the three bytes of that character; a
    time outside the years 0 to 9999 is not written at all.  The escape, which
    differs from the character as a text does, is the byte 0xff here. *)
From S2P Require Import Prelude Job Domain Utf8 GoPath Provider DirectProtocol Plan.

(** * JSON *)
Definition RuneErrorBytes : list byte := [xef; xbf; xbd].
(** [bad] takes the place of every byte outside the UTF-8 sequences. *)
Fixpoint sanitize (bad s : list byte) : list byte :=
  match s with
  | [] => []
  | b0 :: s1 =>
    if Z_of_byte b0 <? 128 then b0 :: sanitize bad s1 else
    match s1 with
    | b1 :: s2 =>
      if in_range 194 223 b0 && is_cont b1 then b0 :: b1 :: sanitize bad s2 else
      match s2 with
      | b2 :: s3 =>
        if in_range 224 239 b0 && second3 b0 b1 && is_cont b2
        then b0 :: b1 :: b2 :: sanitize bad s3 else
        match s3 with
        | b3 :: s4 =>
          if in_range 240 244 b0 && second4 b0 b1 && is_cont b2 && is_cont b3
          then b0 :: b1 :: b2 :: b3 :: sanitize bad s4
          else bad ++ sanitize bad s1
        | [] => bad ++ sanitize bad s1
        end
      | [] => bad ++ sanitize bad s1
      end
    | [] => bad ++ sanitize bad s1
    end
  end.
Definition as_bytes (f : list byte → list byte) (s : string) : string :=
  String.string_of_list_byte (f (String.list_byte_of_string s)).
Definition escape : string → string := as_bytes (sanitize [xff]).
Definition unescape : string → string := as_bytes (sanitize RuneErrorBytes).

(** [strings f v] is [v] with every string changed by [f]; a text of [v] exists
    when [written v]. *)
Class Json (A : Type) := { strings : (string → string) → A → A; written : A → bool }.
#[export] Instance json_string : Json string := {| strings f s := f s; written _ := true |}.
#[export] Instance json_option `{Json A} : Json (option A) := {|
  strings f v := strings f <$> v;
  written v := match v with Some v => written v | None => true end |}.
#[export] Instance json_list `{Json A} : Json (list A) := {|
  strings f v := strings f <$> v; written v := forallb written v |}.

Definition Day : Duration := 24 * Hour.
(** From the year 0 to the year 9999. *)
Definition time_written (t : Time) : bool := (- 366 * Day <=? t) && (t <? 3652059 * Day).

#[export] Instance json_Location : Json Location := {|
  strings f l := mkLocation (strings f (loc_EndpointID l)) (strings f (loc_Path l)); written _ := true |}.
#[export] Instance json_Endpoint : Json Endpoint := {|
  strings f e := mkEndpoint (strings f (ep_ID e)) (strings f (ep_Kind e)) (strings f (ep_DisplayName e))
              (strings f (ep_SSHHostAlias e));
  written _ := true |}.
#[export] Instance json_Fingerprint : Json Fingerprint := {|
  strings f fp := mkFingerprint (fp_Size fp) (fp_ModifiedAt fp) (strings f (fp_ModifiedPrecision fp))
              (strings f (fp_FileID fp)) (strings f (fp_VersionID fp)) (strings f (fp_HashAlgorithm fp))
              (strings f (fp_HashHex fp));
  written f := match fp_ModifiedAt f with Some t => time_written t | None => true end |}.
#[export] Instance json_CapabilityRevision : Json CapabilityRevision := {|
  strings f r := mkRevision (strings f (SessionIDOf r)) (Generation r); written _ := true |}.
#[export] Instance json_CapabilityConstraint : Json CapabilityConstraint := {|
  strings f c := mkConstraint (strings f (con_Name c)) (strings f (con_Value c)); written _ := true |}.
#[export] Instance json_Capability : Json Capability := {|
  strings f c := mkCapability (strings f (cap_Name c)) (cap_Version c) (strings f (cap_Constraints c));
  written _ := true |}.
#[export] Instance json_CapabilityBinding : Json CapabilityBinding := {|
  strings f b := mkBinding (strings f (bind_Revision b)) (strings f (bind_Capability b)); written _ := true |}.
#[export] Instance json_FileRef : Json FileRef := {|
  strings f r := mkFileRef (strings f (ref_Location r)) (strings f (ref_Kind r)) (strings f (ref_Fingerprint r))
              (strings f (ref_CapabilityRevision r));
  written r := written (ref_Fingerprint r) |}.
#[export] Instance json_DestinationPrecondition : Json DestinationPrecondition := {|
  strings f p := mkPrecondition (strings f (pre_Presence p)) (strings f (pre_Kind p)) (strings f (pre_Fingerprint p))
              (strings f (pre_ContentSHA256 p));
  written p := written (pre_Fingerprint p) |}.
#[export] Instance json_DirectPolicy : Json DirectPolicy := {|
  strings f p := mkDirectPolicy (dp_UserEnabled p) (dp_WorkspaceEnabled p) (dp_DataAllowed p)
              (strings f (dp_Integrity p));
  written _ := true |}.
#[export] Instance json_ServerCopyBinding : Json ServerCopyBinding := {|
  strings f b := mkServerCopy (strings f (sc_Revision b)) (strings f (sc_Capability b)) (sc_MaxBytes b);
  written _ := true |}.
#[export] Instance json_SameHostCopyBinding : Json SameHostCopyBinding := {|
  strings f b :=
    let a := sh_ArtifactID b in
    let i := sh_SourceIdentity b in
    mkSameHost (strings f (sh_EndpointID b))
      (mkArtifact (art_ProtocolMajor a) (strings f (art_Version a)) (strings f (art_OS a)) (strings f (art_Arch a))
         (strings f (art_SHA256 a)))
      (sh_Protocol b) (strings f (sh_HelperVersion b)) (sh_CapabilityVersion b)
      (strings f (sh_SourceSHA256 b)) (sh_SourceSize b)
      (mkSourceIdentity (si_Size i) (si_Mode i) (si_ModifiedUnixNS i) (strings f (si_FileID i)));
  written _ := true |}.
#[export] Instance json_Check : Json Check_ := {|
  strings f c := mkCheck (strings f (check_Name c)) (strings f (check_Status c)) (strings f (check_Reason c));
  written _ := true |}.
#[export] Instance json_ControlLimits : Json ControlLimits := {|
  strings f c := mkControlLimits (cl_MaxFrameBytes c) (cl_MaxConcurrent c) (cl_HeartbeatIntervalMS c)
    (cl_HeartbeatTimeoutMS c) (strings f (cl_CancelSemantics c)) (strings f (cl_ProgressSemantics c))
    (strings f (cl_ResultSemantics c));
  written _ := true |}.
#[export] Instance json_DirectRequest : Json dp_Request := {|
  strings f r := mkDirectRequest (req_Version r) (strings f (req_RequestID r)) (strings f (req_JobID r))
    (strings f (req_SourceEndpointID r)) (strings f (req_SourcePath r)) (strings f (req_DestinationEndpointID r))
    (strings f (req_PartPath r)) (strings f (req_FinalPath r)) (strings f (req_TargetHostAlias r))
    (req_ExpectedSize r) (strings f (req_SourceFingerprint r)) (strings f (req_IntegrityPolicy r))
    (req_DeadlineUnix r) (strings f (req_Nonce r)) (strings f (req_Control r));
  written r := written (req_SourceFingerprint r) |}.
#[export] Instance json_DirectResult : Json dp_Result := {|
  strings f r := mkDirectResult (res_Version r) (strings f (res_RequestID r)) (strings f (res_JobID r))
    (res_CheckedAtUnix r) (res_ExpiresAtUnix r) (strings f (res_Checks r))
    (strings f (res_SourceFingerprint r)) (res_SourceSize r) (strings f (res_SourceSHA256 r));
  written r := written (res_SourceFingerprint r) |}.
#[export] Instance json_Level2PreflightBinding : Json Level2PreflightBinding := {|
  strings f b := mkLevel2 (l2_ProtocolVersion b) (strings f (l2_Capability b)) (l2_MaxBytes b)
    (strings f (l2_Request b)) (strings f (l2_Result b)) (l2_SourceSize b) (strings f (l2_SourceSHA256 b))
    (strings f (l2_Outcome b)) (strings f (l2_FirstCheck b));
  written b := written (l2_Request b) && written (l2_Result b) |}.
#[export] Instance json_RouteDecision : Json RouteDecision := {|
  strings f d := mkDecision (strings f (rd_Route d)) (strings f (rd_Reason d)) (rd_Eligible d); written _ := true |}.
#[export] Instance json_RouteEvidence : Json RouteEvidence := {|
  strings f e := mkEvidence (re_Version e) (strings f (re_Selected e)) (strings f (re_Candidates e))
    (strings f (re_Policy e)) (strings f (re_Verification e)) (strings f (re_Algorithm e))
    (strings f (re_DowngradeBoundary e)) (strings f (re_Risk e)) (strings f (re_ProgressSemantics e))
    (strings f (re_BandwidthControl e)) (strings f (re_Part e)) (strings f (re_Final e));
  written _ := true |}.
#[export] Instance json_Plan : Json Plan := {|
  strings f p := mkPlan (strings f (Durability p)) (plan_Version p) (strings f (Origin p)) (strings f (EditSessionID p))
    (strings f (ExpectedDestination p)) (strings f (OriginalDestinationPrecondition p))
    (strings f (ExpectedSourceSHA256 p)) (strings f (PlanID p)) (strings f (plan_JobID p)) (strings f (plan_Kind p))
    (strings f (SourceEndpoint p)) (strings f (DestinationEndpoint p)) (strings f (Source p))
    (strings f (DestinationDirectory p)) (strings f (RequestedName p)) (strings f (Final p)) (strings f (Part p))
    (strings f (PreservedDestination p)) (strings f (SourceCapability p)) (strings f (DestinationCapability p))
    (strings f (Route p)) (strings f (plan_DirectPolicy p)) (Bandwidth p) (strings f (Verification p))
    (strings f (ConflictPolicy p)) (BufferBytes p) (plan_StreamPolicy p) (Discovery p)
    (strings f (MoveStrategy p)) (strings f (MoveCapability p)) (strings f (SourceDeleteCapability p))
    (strings f (ServerCopy p)) (strings f (SameHostCopy p)) (strings f (Level2Preflight p))
    (strings f (plan_RouteEvidence p)) (DeleteRecursive p) (DeleteIrreversible p) (DeleteTrash p)
    (strings f (DeleteCapability p)) (FrozenAt p);
  written p := written (ExpectedDestination p) && written (OriginalDestinationPrecondition p) &&
    written (Source p) && written (Level2Preflight p) && time_written (FrozenAt p) |}.

(** * The request to the job store *)
Inductive JSON :=
| JSONFileRef (r : FileRef)
| JSONPlan (p : Plan)
| JSONPlaces (directory final part : Location)
| JSONRoute (selectedRoute routeReason integrityPolicy verification downgradeBoundary
    progressSemantics : string).
Definition Marshal {A} `{Json A} (make : A → JSON) (v : A) : result error JSON :=
  if written v then Ok (make (strings escape v))
  else Err (EText "Time.MarshalJSON: year outside of range [0,9999]").

(** The requests are records over the type of texts. *)
Record Step (T : Type) := mkStep {
  step_Kind : string; step_SourceJSON : option T; step_DestinationJSON : option T;
}.
Record ConflictSeed (T : Type) := mkConflictSeed {
  seed_StepIndex : Z; seed_Class : string; seed_SourceJSON : T; seed_DestinationJSON : T;
}.
Record EditSessionBinding := mkEditSessionBinding {
  eb_SessionID : string; eb_ExpectedVersion : Z; (* int64 *) eb_EventID : string; eb_EventKind : string;
}.
Record CreateRequest (T : Type) := mkCreateRequest {
  create_PlanID : string; create_RequestID : string; create_JobID : string; create_Kind : string;
  create_SourceJSON : T; create_DestinationJSON : option T; create_Route : string;
  create_Verification : string; create_ConflictPolicy : string; create_RiskClass : string;
  create_InitialState : Job.State; create_EventID : string; create_EventPayloadJSON : option T;
  create_Now : Time; create_Steps : list (Step T); create_InitialConflict : option (ConflictSeed T);
  create_EditSession : option EditSessionBinding;
}.
Arguments mkStep {T}. Arguments step_Kind {T}. Arguments step_SourceJSON {T}.
Arguments step_DestinationJSON {T}. Arguments mkConflictSeed {T}. Arguments seed_StepIndex {T}.
Arguments seed_Class {T}. Arguments seed_SourceJSON {T}. Arguments seed_DestinationJSON {T}.
Arguments mkCreateRequest {T}. Arguments create_PlanID {T}. Arguments create_RequestID {T}.
Arguments create_JobID {T}. Arguments create_Kind {T}. Arguments create_SourceJSON {T}.
Arguments create_DestinationJSON {T}. Arguments create_Route {T}. Arguments create_Verification {T}.
Arguments create_ConflictPolicy {T}. Arguments create_RiskClass {T}.
Arguments create_InitialState {T}. Arguments create_EventID {T}. Arguments create_EventPayloadJSON {T}.
Arguments create_Now {T}. Arguments create_Steps {T}. Arguments create_InitialConflict {T}.
Arguments create_EditSession {T}.
#[export] Instance CreateRequest_eta T : Settable (CreateRequest T) :=
  λ c, mkCreateRequest (create_PlanID c) (create_RequestID c) (create_JobID c) (create_Kind c)
    (create_SourceJSON c) (create_DestinationJSON c) (create_Route c) (create_Verification c)
    (create_ConflictPolicy c) (create_RiskClass c) (create_InitialState c) (create_EventID c)
    (create_EventPayloadJSON c) (create_Now c) (create_Steps c) (create_InitialConflict c)
    (create_EditSession c).

Definition route_payload (plan : Plan) : JSON :=
  match plan_RouteEvidence plan with
  | Some e => JSONRoute (escape (rd_Route (re_Selected e))) (escape (rd_Reason (re_Selected e)))
      (escape (re_Policy e)) (escape (re_Verification e)) (escape (re_DowngradeBoundary e))
      (escape (re_ProgressSemantics e))
  | None => JSONRoute "" "" "" "" "" ""
  end.
Definition create_steps (plan : Plan) (source places : JSON) : list (Step JSON) :=
  if String.eqb (plan_Kind plan) OperationMove && String.eqb (MoveStrategy plan) MoveAtomicRename
  then [mkStep "rename" (Some source) (Some places); mkStep "verify" (Some source) (Some places)]
  else
  if String.eqb (ref_Kind (Source plan)) EntryDirectory
  then [mkStep "discover" (Some source) None; mkStep "mkdir" None (Some places);
        mkStep "transfer" (Some source) (Some places); mkStep "verify" (Some source) (Some places);
        mkStep "commit" None (Some places)]
  else [mkStep "transfer" (Some source) (Some places); mkStep "verify" (Some source) (Some places);
        mkStep "commit" None (Some places)].

(** The identifiers and the time of a freeze request. *)
Record RequestIdentity := mkIdentity {
  id_RequestID : string; id_PlanID : string; id_JobID : string; id_EventID : string; id_Now : Time;
}.

Definition createRequest (plan : Plan) (request : RequestIdentity) (initialState : Job.State) :
    result error (CreateRequest JSON) :=
  source ← map_err (EWrap "freeze copy: encode source") (Marshal JSONFileRef (Source plan));
  let places := JSONPlaces (strings escape (DestinationDirectory plan))
    (strings escape (Final plan)) (strings escape (Part plan)) in
  payload ← map_err (EWrap "freeze copy: encode frozen plan") (Marshal JSONPlan plan);
  Ok (mkCreateRequest (PlanID plan) (id_RequestID request) (plan_JobID plan) (plan_Kind plan) source
        (Some payload) (Route plan) (Verification plan) (ConflictPolicy plan) "filesystem_write"
        initialState (id_EventID request) (Some (route_payload plan)) (id_Now request)
        (create_steps plan source places)
        (if String.eqb initialState StateAwaitingConfirmation
         then Some (mkConflictSeed 0 "destination_exists" source places) else None) None).

Definition createDeleteRequest (plan : Plan) (request : RequestIdentity) : result error (CreateRequest JSON) :=
  source ← Marshal JSONFileRef (Source plan);
  payload ← Marshal JSONPlan plan;
  let step kind := mkStep kind (Some source) None in
  Ok (mkCreateRequest (PlanID plan) (id_RequestID request) (plan_JobID plan) (plan_Kind plan) source
        (Some payload) (Route plan) (Verification plan) (ConflictPolicy plan)
        (if DeleteTrash plan then "trash_delete" else "irreversible_delete") StateQueued
        (id_EventID request) None (id_Now request)
        [step "verify_source"; step "delete"; step "verify_absent"] None None).

(** * Reading it back *)
Record PlanRecord (T : Type) := mkPlanRecord {
  record_PlanID : string; record_RequestID : string; record_Kind : string;
  record_SourceJSON : T; record_DestinationJSON : option T; record_Route : string;
  record_Verification : string; record_ConflictPolicy : string; record_RiskClass : string;
  record_FrozenAt : Time;
}.
Arguments mkPlanRecord {T}. Arguments record_PlanID {T}. Arguments record_RequestID {T}.
Arguments record_Kind {T}. Arguments record_SourceJSON {T}. Arguments record_DestinationJSON {T}.
Arguments record_Route {T}. Arguments record_Verification {T}. Arguments record_ConflictPolicy {T}.
Arguments record_RiskClass {T}. Arguments record_FrozenAt {T}.
(** The row of operation_plans that [Store.Create] inserts for a request, as it
    is read: the time is kept in seconds. *)
Definition plan_row {T} (c : CreateRequest T) : PlanRecord T :=
  mkPlanRecord (create_PlanID c) (create_RequestID c) (create_Kind c) (create_SourceJSON c)
    (create_DestinationJSON c) (create_Route c) (create_Verification c) (create_ConflictPolicy c)
    (create_RiskClass c) (time_Unix (Time_Unix (create_Now c))).

#[export] Instance FileRef_eq_dec : EqDecision FileRef.
Proof. solve_decision. Defined.
(** The texts of two file references are the same. *)
Definition same_source (a b : JSON) : bool :=
  match a, b with JSONFileRef a, JSONFileRef b => bool_decide (a = b) | _, _ => false end.

Definition DecodePlan (record : PlanRecord JSON) (jobID : string) : result error Plan :=
  match record_DestinationJSON record with
  | None => Err (EText "decode transfer plan: durable plan payload is absent")
  | Some (JSONPlan payload) =>
    let plan := strings unescape payload in
    _ ← map_err (EWrap "decode transfer plan") (validateExecution plan);
    source ← map_err (EWrap "decode transfer plan source") (Marshal JSONFileRef (Source plan));
    if negb (String.eqb (plan_JobID plan) jobID) ||
       negb (String.eqb (PlanID plan) (record_PlanID record)) ||
       negb (same_source source (record_SourceJSON record)) ||
       negb (String.eqb (plan_Kind plan) (record_Kind record)) ||
       negb (String.eqb (Route plan) (record_Route record)) ||
       negb (String.eqb (Verification plan) (record_Verification record)) ||
       negb (String.eqb (ConflictPolicy plan) (record_ConflictPolicy record)) ||
       negb (FrozenAt plan =? record_FrozenAt record)
    then Err (EText "decode transfer plan: indexed columns disagree with frozen payload")
    else Ok plan
  | Some _ => Err (EText "decode transfer plan")
  end.

(** * What a JSON text keeps of a string *)
(** One encoded rune. *)
Inductive encoded : list byte → Prop :=
| enc1 b0 : (Z_of_byte b0 <? 128) = true → encoded [b0]
| enc2 b0 b1 : in_range 194 223 b0 && is_cont b1 = true → encoded [b0; b1]
| enc3 b0 b1 b2 : in_range 224 239 b0 && second3 b0 b1 && is_cont b2 = true → encoded [b0; b1; b2]
| enc4 b0 b1 b2 b3 :
    in_range 240 244 b0 && second4 b0 b1 && is_cont b2 && is_cont b3 = true → encoded [b0; b1; b2; b3].
Inductive utf8 : list byte → Prop :=
| utf8_nil : utf8 []
| utf8_app u s : encoded u → utf8 s → utf8 (u ++ s).

(** A lead byte is in one class only. *)
Lemma in_range_spec lo hi b : in_range lo hi b = true ↔ lo ≤ Z_of_byte b ≤ hi.
Proof. unfold in_range. rewrite andb_true_iff. lia. Qed.
Lemma in_range_neg lo hi b : in_range lo hi b = false ↔ ¬ lo ≤ Z_of_byte b ≤ hi.
Proof. rewrite <-in_range_spec. by destruct (in_range _ _ _). Qed.
#[local] Ltac classes :=
  repeat match goal with
  | H : _ && _ = true |- _ => apply andb_true_iff in H as [? H]
  | H : in_range _ _ _ = true |- _ => apply in_range_spec in H
  end.
Lemma sanitize_encoded bad u s : encoded u → sanitize bad (u ++ s) = u ++ sanitize bad s.
Proof.
  intros [b0 H|b0 b1 H|b0 b1 b2 H|b0 b1 b2 b3 H]; cbn [app sanitize]; [by rewrite H|..]; rewrite H.
  - assert (194 ≤ Z_of_byte b0) as Hb by (classes; lia). by rewrite (proj2 (Z.ltb_ge _ _)) by lia.
  - assert (224 ≤ Z_of_byte b0) as Hb by (classes; lia). rewrite (proj2 (Z.ltb_ge _ _)) by lia.
    by rewrite (proj2 (in_range_neg 194 223 b0)) by lia.
  - assert (240 ≤ Z_of_byte b0) as Hb by (classes; lia). rewrite (proj2 (Z.ltb_ge _ _)) by lia.
    rewrite (proj2 (in_range_neg 194 223 b0)) by lia.
    by rewrite (proj2 (in_range_neg 224 239 b0)) by lia.
Qed.
Lemma sanitize_utf8 bad s : utf8 s → sanitize bad s = s.
Proof. induction 1 as [|u s Hu _ IH]; [done|]. rewrite sanitize_encoded by done. by rewrite IH. Qed.

(** How a string begins. *)
Inductive start (s : list byte) : Prop :=
| start_nil : s = [] → start s
| start_rune u r : s = u ++ r → encoded u → start s
| start_bad b r : s = b :: r → (∀ bad, sanitize bad s = bad ++ sanitize bad r) → start s.
Lemma start_of s : start s.
Proof.
  destruct s as [|b0 s1]; [by apply start_nil|].
  destruct (Z_of_byte b0 <? 128) eqn:E1; [by apply (start_rune _ [b0] s1); [|apply enc1]|].
  destruct s1 as [|b1 s2]; [by eapply start_bad; [|intros; cbn; rewrite E1]|].
  destruct (in_range 194 223 b0 && is_cont b1) eqn:E2;
    [by apply (start_rune _ [b0; b1] s2); [|apply enc2]|].
  destruct s2 as [|b2 s3]; [by eapply start_bad; [|intros; cbn; rewrite E1, E2]|].
  destruct (in_range 224 239 b0 && second3 b0 b1 && is_cont b2) eqn:E3;
    [by apply (start_rune _ [b0; b1; b2] s3); [|apply enc3]|].
  destruct s3 as [|b3 s4]; [by eapply start_bad; [|intros; cbn; rewrite E1, E2, E3]|].
  destruct (in_range 240 244 b0 && second4 b0 b1 && is_cont b2 && is_cont b3) eqn:E4;
    [by apply (start_rune _ [b0; b1; b2; b3] s4); [|apply enc4]|].
  eapply start_bad; [done|]. intros. cbn. by rewrite E1, E2, E3, E4.
Qed.

Lemma start_induction (P : list byte → Prop) :
  P [] → (∀ u r, encoded u → P r → P (u ++ r)) →
  (∀ b r, (∀ bad, sanitize bad (b :: r) = bad ++ sanitize bad r) → P r → P (b :: r)) → ∀ s, P s.
Proof.
  intros Hnil Hrune Hbad s. remember (length s) as n eqn:En. revert s En.
  induction (Nat.lt_wf_0 n) as [n _ IH]. intros s ->.
  destruct (start_of s) as [->|u r -> Hu|b r -> Hb]; [done|..].
  - apply Hrune; [done|]. apply (IH (length r)); [|done]. rewrite length_app. destruct Hu; cbn; lia.
  - apply Hbad; [done|]. apply (IH (length r)); [|done]. cbn. lia.
Qed.

(** The replaced bytes are there, or the string was UTF-8. *)
Lemma sanitize_cases s : utf8 s ∨ ∀ bad b, b ∈ bad → b ∈ sanitize bad s.
Proof.
  induction s as [|u r Hu IH|b r Hb _] using start_induction; [left; constructor|..].
  - destruct IH as [IH|IH]; [left; by constructor|right]. intros bad b Hin.
    rewrite sanitize_encoded by done. apply elem_of_app. right. by apply IH.
  - right. intros bad b' Hin. rewrite Hb. apply elem_of_app. by left.
Qed.
Lemma sanitized_utf8 bad s : utf8 bad → utf8 (sanitize bad s).
Proof.
  assert (∀ a b, utf8 a → utf8 b → utf8 (a ++ b)) as Happ.
  { intros a b Ha Hb. induction Ha; [done|]. rewrite <-app_assoc. by constructor. }
  intros Hbad. induction s as [|u r Hu IH|b r Hb IH] using start_induction; [constructor|..].
  - rewrite sanitize_encoded by done. by constructor.
  - rewrite Hb. by apply Happ.
Qed.
Lemma rune_error_utf8 : utf8 RuneErrorBytes.
Proof. apply (utf8_app RuneErrorBytes []); [by apply enc3|constructor]. Qed.
Lemma utf8_no_ff s : utf8 s → xff ∉ s.
Proof.
  induction 1 as [|u s Hu _ IH]; [apply not_elem_of_nil|]. rewrite elem_of_app. intros [Hin|Hin]; [|done].
  assert (∀ b0 b1, second3 b0 b1 = true → Z_of_byte b1 ≤ 191) as H3.
  { intros b0 b1. unfold second3, is_cont. repeat case_match; rewrite in_range_spec; lia. }
  assert (∀ b0 b1, second4 b0 b1 = true → Z_of_byte b1 ≤ 191) as H4.
  { intros b0 b1. unfold second4, is_cont. repeat case_match; rewrite in_range_spec; lia. }
  unfold is_cont in Hu.
  destruct Hu as [b0 H|b0 b1 H|b0 b1 b2 H|b0 b1 b2 b3 H]; classes;
    try match goal with H : second3 _ _ = true |- _ => apply H3 in H end;
    try match goal with H : second4 _ _ = true |- _ => apply H4 in H end;
    rewrite ?elem_of_cons, elem_of_nil in Hin; unfold is_cont in *; classes;
    repeat destruct Hin as [<-|Hin]; try done; cbn in *; lia.
Qed.

Lemma decode_encoded u s :
  encoded u → ∃ rune, utf8_decode (u ++ s) = cons rune <$> utf8_decode s.
Proof.
  intros [b0 H|b0 b1 H|b0 b1 b2 H|b0 b1 b2 b3 H]; cbn [app utf8_decode]; [rewrite H; by eexists|..].
  - assert (194 ≤ Z_of_byte b0) as Hb by (classes; lia). rewrite (proj2 (Z.ltb_ge _ _)) by lia.
    apply andb_true_iff in H as [-> ->]. by eexists.
  - assert (224 ≤ Z_of_byte b0) as Hb by (classes; lia). rewrite (proj2 (Z.ltb_ge _ _)) by lia.
    rewrite (proj2 (in_range_neg 194 223 b0)) by lia. rewrite <-andb_assoc in H.
    apply andb_true_iff in H as [-> ->]. by eexists.
  - assert (240 ≤ Z_of_byte b0) as Hb by (classes; lia). rewrite (proj2 (Z.ltb_ge _ _)) by lia.
    rewrite (proj2 (in_range_neg 194 223 b0)) by lia.
    rewrite (proj2 (in_range_neg 224 239 b0)) by lia. rewrite !andb_assoc, H. by eexists.
Qed.
Lemma decode_splits s runes :
  utf8_decode s = Some runes → s = [] ∨ ∃ u r, s = u ++ r ∧ encoded u ∧ is_Some (utf8_decode r).
Proof.
  destruct s as [|b0 s1]; [by left|]. intros E. right. cbn [utf8_decode] in E.
  destruct (Z_of_byte b0 <? 128) eqn:E1.
  { apply fmap_Some in E as (? & E & _). exists [b0], s1. split_and!; [done|by apply enc1|by eexists]. }
  destruct s1 as [|b1 s2]; [done|]. destruct (in_range 194 223 b0) eqn:E2.
  { destruct (is_cont b1) eqn:E3; [|done]. apply fmap_Some in E as (? & E & _).
    exists [b0; b1], s2. split_and!; [done|apply enc2; by rewrite E2, E3|by eexists]. }
  destruct s2 as [|b2 s3]; [done|]. destruct (in_range 224 239 b0) eqn:E3.
  { destruct (second3 b0 b1 && is_cont b2) eqn:E4; [|done]. apply fmap_Some in E as (? & E & _).
    exists [b0; b1; b2], s3. split_and!; [done|apply enc3; by rewrite <-andb_assoc, E3, E4|by eexists]. }
  destruct s3 as [|b3 s4]; [done|]. destruct (in_range 240 244 b0 && _) eqn:E4; [|done].
  apply fmap_Some in E as (? & E & _). exists [b0; b1; b2; b3], s4.
  split_and!; [done|apply enc4; by rewrite <-!andb_assoc in *|by eexists].
Qed.
Lemma ValidString_utf8 s : ValidString s = true ↔ utf8 s.
Proof.
  unfold ValidString. rewrite bool_decide_eq_true. split.
  - remember (length s) as n eqn:En. revert s En. induction (Nat.lt_wf_0 n) as [n _ IH].
    intros s -> [rs Hs]. destruct (decode_splits s rs Hs) as [->|(u & r & -> & Hu & Hr)]; [constructor|].
    constructor; [done|]. apply (IH (length r)); [|done..]. rewrite length_app. destruct Hu; cbn; lia.
  - induction 1 as [|u s Hu _ [rs Hs]]; [by eexists|]. destruct (decode_encoded u s Hu) as [rune ->].
    rewrite Hs. by eexists.
Qed.

(** * Strings *)
Abbreviation valid s := (ValidString (String.list_byte_of_string s)).
Lemma as_bytes_bytes f s :
  String.list_byte_of_string (as_bytes f s) = f (String.list_byte_of_string s).
Proof. unfold as_bytes. apply String.list_byte_of_string_of_list_byte. Qed.
Lemma sanitized_valid bad s : valid s = true → as_bytes (sanitize bad) s = s.
Proof.
  intros Hs%ValidString_utf8. unfold as_bytes. rewrite sanitize_utf8 by done.
  apply String.string_of_list_byte_of_string.
Qed.
(** What is read back is UTF-8, so that no text of an invalid string is written
    again. *)
Lemma unescape_valid s : valid (unescape s) = true.
Proof.
  unfold unescape. rewrite as_bytes_bytes. apply ValidString_utf8, sanitized_utf8, rune_error_utf8.
Qed.
Lemma escape_lossy s : valid s = false → unescape (escape s) ≠ s ∧ escape (unescape (escape s)) ≠ escape s.
Proof.
  intros Hs. split.
  { intros E. pose proof (unescape_valid (escape s)) as Hv. by rewrite E, Hs in Hv. }
  assert (escape (unescape (escape s)) = unescape (escape s)) as -> by apply sanitized_valid, unescape_valid.
  intros E.
  destruct (sanitize_cases (String.list_byte_of_string s)) as [Hu|Hbad].
  { apply ValidString_utf8 in Hu. by rewrite Hs in Hu. }
  apply (f_equal String.list_byte_of_string) in E. pose proof (unescape_valid (escape s)) as Hv.
  rewrite E in Hv. apply ValidString_utf8, utf8_no_ff in Hv. apply Hv. unfold escape.
  rewrite as_bytes_bytes. apply Hbad. by left.
Qed.

(** * Values *)
(** Every string of [v] is UTF-8. *)
Definition utf8_only {A} `{Json A} (v : A) : Prop :=
  ∀ f, (∀ s, valid s = true → f s = s) → strings f v = v.
Lemma written_back {A} `{Json A} (v : A) :
  utf8_only v → strings escape v = v ∧ strings unescape v = v.
Proof. intros Hv. split; apply Hv; intros s Hs; by apply sanitized_valid. Qed.
