(* ===== verification/JobTables.v ===== *)
(** The tables of the store of jobs (src/internal/state/migration/version1.go to
    version4.go) and its transactions.

    A table is a finite map from its primary key; a statement that would break a
    CHECK, UNIQUE or REFERENCES clause of the schema fails.  Columns that the
    store neither reads nor writes are left out.  A transaction is a function of
    the database that fails or succeeds as a whole; what the write-ahead log and
    the disk make of it is its [fate]. *)
From S2P Require Import Prelude Job Domain DirectProtocol PlanRecord.

(** [errors.Is] tells the first three apart. *)
Inductive StoreError :=
| ErrInvalidTransition (from to : string)
| ErrVersionConflict (version expected : Z)
| ErrNoRows
| ErrConstraint (what : string)
| ErrStore (what : string).

(** * Texts

    What the store does with a JSON text: it measures and checks it
    (json.Valid), compares it, writes a few itself and reads two of them. *)
Class Texts (T : Type) := {
  texts_eq :: EqDecision T;
  text_len : T → Z;
  text_valid : T → bool;
  text_object : T;                        (* {} *)
  text_daemon_restart : T;                (* {"reason":"daemon_restart"} *)
  text_conflict : Z → string → T;         (* conflict_index, class *)
  text_resolution : Z → string → string → T; (* conflict_index, resolution, apply_scope *)
  text_response : string → T;             (* job_id *)
  read_response : T → option string;
  read_metadata : T → option (Z * string * string); (* version, origin, edit_session_id *)
}.
(** A response is read back. *)
Class TextsLaws (T : Type) `{Texts T} : Prop := {
  response_read : ∀ job, is_ok (ParseJobID job) = true → read_response (text_response job) = Some job;
}.

(** * Limits *)
Definition maxEncodedRowBytes : Z := 256 * 1024.
Definition MaxEventPayloadBytes : Z := 32 * 1024.
Definition planWALBudget : Z := 1024 * 1024.
Definition jobWALBudget : Z := 512 * 1024.
Definition stepWALBudget : Z := 1024 * 1024.
Definition conflictWALBudget : Z := 512 * 1024.
Definition eventWALBudget : Z := 512 * 1024.
Definition dedupWALBudget : Z := 512 * 1024.
Definition editBindingWALBudget : Z := 512 * 1024.
Definition maxJobSteps : Z := 5.
(** wal/budget.go *)
Definition StatementGrowthLimitBytes : Z := 4 * 1024 * 1024.
Definition TransactionGrowthLimitBytes : Z := 8 * 1024 * 1024.
Definition MaxOperationsPerTransaction : Z := 256.

(** ^[a-z][a-z0-9_]{0,63}$ *)
Definition is_kind_letter (c : ascii) : bool :=
  let n := Z.of_N (N_of_ascii c) in (97 <=? n) && (n <=? 122).
Definition is_kind_char (c : ascii) : bool :=
  let n := Z.of_N (N_of_ascii c) in is_kind_letter c || (48 <=? n) && (n <=? 57) || (n =? 95).
Definition eventKindPattern (value : string) : bool :=
  match String.list_ascii_of_string value with
  | c :: cs => is_kind_letter c && forallb is_kind_char cs && (length cs <=? 63)%nat
  | [] => false
  end.
(** ^plan_[a-z2-7]{26}$ *)
Definition plan_id_letter (c : ascii) : bool :=
  let n := Z.of_N (N_of_ascii c) in is_kind_letter c || (50 <=? n) && (n <=? 55).
Definition planIDPattern (value : string) : bool :=
  match String.list_ascii_of_string value with
  | "p"%char :: "l"%char :: "a"%char :: "n"%char :: "_"%char :: cs =>
    (length cs =? 26)%nat && forallb plan_id_letter cs
  | _ => false
  end.

(** * Rows *)
Record JobRow := mkJobRow {
  job_PlanID : string; job_State : State; job_StateVersion : Z; job_NextEventSequence : Z;
  job_PauseRequested : bool; job_CancelRequested : bool; job_RetryAt : option Z;
  job_TerminalSummary : option string; job_CreatedAt : Z; job_UpdatedAt : Z;
}.
#[export] Instance JobRow_eta : Settable JobRow :=
  λ r, mkJobRow (job_PlanID r) (job_State r) (job_StateVersion r) (job_NextEventSequence r)
    (job_PauseRequested r) (job_CancelRequested r) (job_RetryAt r) (job_TerminalSummary r)
    (job_CreatedAt r) (job_UpdatedAt r).
Record StepRow (T : Type) := mkStepRow {
  row_Kind : string; row_State : string; row_Attempt : Z; row_Source : option T;
  row_Destination : option T; row_CreatedAt : Z; row_UpdatedAt : Z;
}.
Record CheckpointRow (T : Type) := mkCheckpointRow {
  ck_Phase : string; ck_VerifiedOffset : Z; ck_SourceFingerprint : option T;
  ck_PartLocation : option T; ck_ChecksumState : option (list byte); ck_UpdatedAt : Z;
}.
Record ConflictRow (T : Type) := mkConflictRow {
  cf_StepIndex : Z; cf_Class : string; cf_State : string; cf_Source : T; cf_Destination : T;
  cf_Resolution : option string; cf_ApplyScope : option string; cf_CreatedAt : Z;
  cf_ResolvedAt : option Z;
}.
Record EventRow (T : Type) := mkEventRow {
  ev_EventID : string; ev_Kind : string; ev_Payload : T; ev_CreatedAt : Z;
}.
Record DedupRow (T : Type) := mkDedupRow {
  dd_Operation : string; dd_JobID : option string; dd_Response : T; dd_CreatedAt : Z;
}.
(** edit_sessions, edit_session_details, edit_session_events, edit_session_jobs *)
Record SessionRow := mkSessionRow {
  ses_Materialization : string; ses_LocalState : string; ses_RemoteState : string;
  ses_State : string; ses_StateVersion : Z; ses_CreatedAt : Z; ses_UpdatedAt : Z;
}.
#[export] Instance SessionRow_eta : Settable SessionRow :=
  λ r, mkSessionRow (ses_Materialization r) (ses_LocalState r) (ses_RemoteState r) (ses_State r)
    (ses_StateVersion r) (ses_CreatedAt r) (ses_UpdatedAt r).
Record DetailRow := mkDetailRow { det_Purpose : string; det_Reference : string; det_Lease : string }.
Record SessionEventRow := mkSessionEventRow {
  sev_EventID : string; sev_Kind : string; sev_CreatedAt : Z;
}.
Record SessionJobRow := mkSessionJobRow { sj_JobID : string; sj_CreatedAt : Z }.
(** cache_materializations, cache_leases, cache_references *)
Record MaterializationRow := mkMaterializationRow {
  mat_State : string; mat_CreatedAt : Z; mat_UpdatedAt : Z; mat_LastAccess : Z;
}.
#[export] Instance MaterializationRow_eta : Settable MaterializationRow :=
  λ r, mkMaterializationRow (mat_State r) (mat_CreatedAt r) (mat_UpdatedAt r) (mat_LastAccess r).
Record LeaseRow := mkLeaseRow {
  lea_Materialization : option string; lea_OwnerKind : string; lea_OwnerID : string;
  lea_Heartbeat : Z; lea_Expires : Z; lea_Grace : Z; lea_State : string;
}.
#[export] Instance LeaseRow_eta : Settable LeaseRow :=
  λ r, mkLeaseRow (lea_Materialization r) (lea_OwnerKind r) (lea_OwnerID r) (lea_Heartbeat r)
    (lea_Expires r) (lea_Grace r) (lea_State r).
Record ReferenceRow := mkReferenceRow {
  ref_Materialization : option string; ref_OwnerKind : string; ref_OwnerID : string;
}.
(** job_history_retention, of one row at most *)
Record RetentionRow := mkRetentionRow { ret_JobID : string; ret_PolicyVersion : Z; ret_ClaimedAt : Z }.

Arguments mkStepRow {T}. Arguments row_Kind {T}. Arguments row_State {T}. Arguments row_Attempt {T}.
Arguments row_Source {T}. Arguments row_Destination {T}. Arguments row_CreatedAt {T}.
Arguments row_UpdatedAt {T}. Arguments mkCheckpointRow {T}. Arguments ck_Phase {T}.
Arguments ck_VerifiedOffset {T}. Arguments ck_SourceFingerprint {T}. Arguments ck_PartLocation {T}.
Arguments ck_ChecksumState {T}. Arguments ck_UpdatedAt {T}. Arguments mkConflictRow {T}.
Arguments cf_StepIndex {T}. Arguments cf_Class {T}. Arguments cf_State {T}. Arguments cf_Source {T}.
Arguments cf_Destination {T}. Arguments cf_Resolution {T}. Arguments cf_ApplyScope {T}.
Arguments cf_CreatedAt {T}. Arguments cf_ResolvedAt {T}. Arguments mkEventRow {T}.
Arguments ev_EventID {T}. Arguments ev_Kind {T}. Arguments ev_Payload {T}. Arguments ev_CreatedAt {T}.
Arguments mkDedupRow {T}. Arguments dd_Operation {T}. Arguments dd_JobID {T}.
Arguments dd_Response {T}. Arguments dd_CreatedAt {T}.
#[export] Instance StepRow_eta T : Settable (StepRow T) :=
  λ r, mkStepRow (row_Kind r) (row_State r) (row_Attempt r) (row_Source r) (row_Destination r)
    (row_CreatedAt r) (row_UpdatedAt r).
#[export] Instance ConflictRow_eta T : Settable (ConflictRow T) :=
  λ r, mkConflictRow (cf_StepIndex r) (cf_Class r) (cf_State r) (cf_Source r) (cf_Destination r)
    (cf_Resolution r) (cf_ApplyScope r) (cf_CreatedAt r) (cf_ResolvedAt r).

(** The tables of the job store, and those of the edit and cache stores that it
    touches. *)
Record DB (T : Type) := mkDB {
  operation_plans : gmap string (PlanRecord T);
  jobs : gmap string JobRow;
  job_steps : gmap (string * Z) (StepRow T);
  job_checkpoints : gmap (string * Z) (CheckpointRow T);
  job_conflicts : gmap (string * Z) (ConflictRow T);
  job_events : gmap (string * Z) (EventRow T);
  request_dedup : gmap string (DedupRow T);
  job_history_retention : option RetentionRow;
  edit_sessions : gmap string SessionRow;
  edit_session_details : gmap string DetailRow;
  edit_session_events : gmap (string * Z) SessionEventRow;
  edit_session_jobs : gmap string SessionJobRow;
  cache_materializations : gmap string MaterializationRow;
  cache_leases : gmap string LeaseRow;
  cache_references : gmap string ReferenceRow;
}.
Arguments mkDB {T}. Arguments operation_plans {T}. Arguments jobs {T}. Arguments job_steps {T}.
Arguments job_checkpoints {T}. Arguments job_conflicts {T}. Arguments job_events {T}.
Arguments request_dedup {T}. Arguments job_history_retention {T}. Arguments edit_sessions {T}.
Arguments edit_session_details {T}. Arguments edit_session_events {T}. Arguments edit_session_jobs {T}.
Arguments cache_materializations {T}. Arguments cache_leases {T}. Arguments cache_references {T}.
#[export] Instance DB_eta T : Settable (DB T) :=
  λ d, mkDB (operation_plans d) (jobs d) (job_steps d) (job_checkpoints d) (job_conflicts d)
    (job_events d) (request_dedup d) (job_history_retention d) (edit_sessions d)
    (edit_session_details d) (edit_session_events d) (edit_session_jobs d)
    (cache_materializations d) (cache_leases d) (cache_references d).

(** * Transactions *)
Section Tx.
Context {T : Type}.
Definition Tx (A : Type) : Type := DB T → result StoreError (A * DB T).
#[export] Instance tx_ret : MRet Tx := λ A a db, Ok (a, db).
#[export] Instance tx_bind : MBind Tx := λ A B f m db,
  match m db with Ok (a, db) => f a db | Err e => Err e end.
Definition refuse {A} (e : StoreError) : Tx A := λ _, Err e.
Definition get : Tx (DB T) := λ db, Ok (db, db).
Definition look {A} (f : DB T → A) : Tx A := λ db, Ok (f db, db).
Definition require (b : bool) (e : StoreError) : Tx () := if b then mret tt else refuse e.
(** Statements that change rows: [modify] cannot fail, [statement] may. *)
Definition modify (f : DB T → DB T) : Tx () := λ db, Ok (tt, f db).
Definition statement (f : DB T → result StoreError (DB T)) : Tx () := λ db,
  match f db with Ok db => Ok (tt, db) | Err e => Err e end.
End Tx.
Arguments Tx T A : clear implicits.

(** What becomes of a transaction: it is not begun, or not committed; it is
    committed; or it is committed, and an error is reported all the same. *)
Inductive fate := NotCommitted | Committed | CommittedUnseen.
Definition immediate {T A} (f : fate) (operation : Tx T A) (db : DB T) :
    DB T * result StoreError A :=
  match f with
  | NotCommitted => (db, Err (ErrStore "immediate"))
  | _ =>
    match operation db with
    | Err e => (db, Err e)
    | Ok (a, db') =>
      (db', match f with Committed => Ok a | _ => Err (ErrStore "committed WAL observation") end)
    end
  end.

(** * The schema *)
Section Schema.
Context {T : Type}.
Definition constraint {A} (what : string) (b : bool) (a : A) : result StoreError A :=
  if b then Ok a else Err (ErrConstraint what).
Definition fresh_key {K V} `{Countable K} (m : gmap K V) (k : K) : bool :=
  bool_decide (m !! k = None).
(** No row has the value [a] in the column [f]. *)
Definition unique {K V A} `{Countable K} `{EqDecision A} (f : V → A) (m : gmap K V) (a : A) : bool :=
  bool_decide (map_Forall (λ _ v, f v ≠ a) m).

Definition check_job (r : JobRow) : bool :=
  State_Valid (job_State r) && (0 <? job_StateVersion r) && (job_StateVersion r <=? MaxInt64) &&
  (0 <? job_NextEventSequence r) && (job_NextEventSequence r <=? MaxInt64) &&
  (0 <? job_CreatedAt r) && (job_CreatedAt r <=? job_UpdatedAt r) &&
  Bool.eqb (State_Terminal (job_State r)) (bool_decide (is_Some (job_TerminalSummary r))) &&
  Bool.eqb (String.eqb (job_State r) StateRetryWait) (bool_decide (is_Some (job_RetryAt r))).
Definition plan_kinds : list string := ["copy"; "move"; "rename"; "delete"].

Definition insert_plan (r : PlanRecord T) (db : DB T) : result StoreError (DB T) :=
  constraint "operation_plans"
    (fresh_key (operation_plans db) (record_PlanID r) &&
     unique record_RequestID (operation_plans db) (record_RequestID r) &&
     existsb (String.eqb (record_Kind r)) plan_kinds && (0 <? Time_Unix (record_FrozenAt r)))
    (db <| operation_plans := <[record_PlanID r := r]> (operation_plans db) |>).
Definition insert_job (job : string) (r : JobRow) (db : DB T) : result StoreError (DB T) :=
  constraint "jobs"
    (fresh_key (jobs db) job && unique job_PlanID (jobs db) (job_PlanID r) &&
     bool_decide (is_Some (operation_plans db !! job_PlanID r)) && check_job r)
    (db <| jobs := <[job := r]> (jobs db) |>).
Definition insert_step (job : string) (index : Z) (r : StepRow T) (db : DB T) :
    result StoreError (DB T) :=
  constraint "job_steps"
    (fresh_key (job_steps db) (job, index) && bool_decide (is_Some (jobs db !! job)) && (0 <=? index) &&
     (0 <? row_CreatedAt r) && (row_CreatedAt r <=? row_UpdatedAt r))
    (db <| job_steps := <[(job, index) := r]> (job_steps db) |>).
Definition insert_conflict (job : string) (index : Z) (r : ConflictRow T) (db : DB T) :
    result StoreError (DB T) :=
  constraint "job_conflicts"
    (fresh_key (job_conflicts db) (job, index) && bool_decide (is_Some (jobs db !! job)) &&
     (0 <=? index) && (index <=? MaxInt64) && (0 <=? cf_StepIndex r) && (0 <? cf_CreatedAt r))
    (db <| job_conflicts := <[(job, index) := r]> (job_conflicts db) |>).
Definition insert_event (job : string) (sequence : Z) (r : EventRow T) (db : DB T) :
    result StoreError (DB T) :=
  constraint "job_events"
    (fresh_key (job_events db) (job, sequence) && unique ev_EventID (job_events db) (ev_EventID r) &&
     bool_decide (is_Some (jobs db !! job)) && (0 <? sequence) && (0 <? ev_CreatedAt r))
    (db <| job_events := <[(job, sequence) := r]> (job_events db) |>).
Definition insert_dedup (request : string) (r : DedupRow T) (db : DB T) : result StoreError (DB T) :=
  constraint "request_dedup"
    (fresh_key (request_dedup db) request &&
     match dd_JobID r with Some job => bool_decide (is_Some (jobs db !! job)) | None => true end &&
     (0 <? dd_CreatedAt r))
    (db <| request_dedup := <[request := r]> (request_dedup db) |>).

(** UPDATE jobs SET ... WHERE job_id=? AND state_version=?, of one row exactly. *)
Definition update_job (job : string) (expected : Z) (f : JobRow → JobRow) (e : StoreError) (db : DB T) :
    result StoreError (DB T) :=
  match jobs db !! job with
  | Some r =>
    if job_StateVersion r =? expected then
      constraint "jobs" (check_job (f r)) (db <| jobs := <[job := f r]> (jobs db) |>)
    else Err e
  | None => Err e
  end.
(** state_version=state_version+1, next_event_sequence=next_event_sequence+1 *)
Definition advance (now : Z) (r : JobRow) : JobRow :=
  r <| job_StateVersion := job_StateVersion r + 1 |>
    <| job_NextEventSequence := job_NextEventSequence r + 1 |> <| job_UpdatedAt := now |>.
End Schema.
