(* ===== verification/JobStore.v ===== *)
(** The operations of the store of jobs (src/internal/state/jobstore/store.go). *)
From S2P Require Import Prelude Job Domain DirectProtocol PlanRecord JobTables.

(** * Requests and what is read *)
Record Snapshot := mkSnapshot {
  snap_JobID : string; snap_PlanID : string; snap_State : State; snap_StateVersion : Z;
  snap_NextEventSequence : Z; snap_PauseRequested : bool; snap_CancelRequested : bool;
  snap_RetryAt : option Time; snap_TerminalSummary : option string; snap_CreatedAt : Time;
  snap_UpdatedAt : Time;
}.
Record ConflictRecord (T : Type) := mkConflictRecord {
  cr_JobID : string; cr_ConflictIndex : Z; cr_StepIndex : Z; cr_Class : string; cr_State : string;
  cr_SourceJSON : T; cr_DestinationJSON : T; cr_Resolution : string; cr_ApplyScope : string;
  cr_CreatedAt : Time; cr_ResolvedAt : option Time;
}.
Arguments mkConflictRecord {T}.
Record ResolveConflictRequest := mkResolveConflict {
  rc_JobID : string; rc_ConflictIndex : Z; rc_ExpectedVersion : Z; rc_Resolution : string;
  rc_ApplyScope : string; rc_EventID : string; rc_Now : Time;
}.
Record OpenConflictRequest (T : Type) := mkOpenConflict {
  oc_JobID : string; oc_ExpectedVersion : Z; oc_StepIndex : Z; oc_Class : string; oc_SourceJSON : T;
  oc_DestinationJSON : T; oc_EventID : string; oc_Now : Time;
}.
Record TransitionRequest (T : Type) := mkTransition {
  tr_JobID : string; tr_ExpectedVersion : Z; tr_To : State; tr_EventID : string; tr_EventKind : string;
  tr_PayloadJSON : T; tr_RetryAt : option Time; tr_TerminalSummary : option string; tr_Now : Time;
}.
Record ControlRequest (T : Type) := mkControlRequest {
  co_JobID : string; co_ExpectedVersion : Z; co_PauseRequested : option bool;
  co_CancelRequested : option bool; co_EventID : string; co_EventKind : string; co_PayloadJSON : T;
  co_Now : Time;
}.
Record EventRecord (T : Type) := mkEventRecord {
  er_JobID : string; er_Sequence : Z; er_EventID : string; er_Kind : string; er_PayloadJSON : T;
  er_CreatedAt : Time;
}.
(** No text is the empty string. *)
Record CheckpointRequest (T : Type) := mkCheckpointRequest {
  cq_JobID : string; cq_StepIndex : Z; cq_Phase : string; cq_VerifiedOffset : Z; (* uint64 *)
  cq_SourceFingerprint : option T; cq_PartLocationJSON : option T; cq_ChecksumState : list byte;
  cq_Now : Time;
}.
Record CheckpointRecord (T : Type) := mkCheckpointRecord {
  cp_JobID : string; cp_StepIndex : Z; cp_Phase : string; cp_VerifiedOffset : Z;
  cp_SourceFingerprint : option T; cp_PartLocationJSON : option T; cp_ChecksumState : list byte;
  cp_UpdatedAt : Time;
}.
Arguments mkOpenConflict {T}. Arguments oc_JobID {T}. Arguments oc_ExpectedVersion {T}.
Arguments oc_StepIndex {T}. Arguments oc_Class {T}. Arguments oc_SourceJSON {T}.
Arguments oc_DestinationJSON {T}. Arguments oc_EventID {T}. Arguments oc_Now {T}.
Arguments mkTransition {T}. Arguments tr_JobID {T}. Arguments tr_ExpectedVersion {T}.
Arguments tr_To {T}. Arguments tr_EventID {T}. Arguments tr_EventKind {T}.
Arguments tr_PayloadJSON {T}. Arguments tr_RetryAt {T}. Arguments tr_TerminalSummary {T}.
Arguments tr_Now {T}. Arguments mkControlRequest {T}. Arguments co_JobID {T}.
Arguments co_ExpectedVersion {T}. Arguments co_PauseRequested {T}. Arguments co_CancelRequested {T}.
Arguments co_EventID {T}. Arguments co_EventKind {T}. Arguments co_PayloadJSON {T}.
Arguments co_Now {T}. Arguments mkEventRecord {T}. Arguments mkCheckpointRequest {T}.
Arguments cq_JobID {T}. Arguments cq_StepIndex {T}. Arguments cq_Phase {T}.
Arguments cq_VerifiedOffset {T}. Arguments cq_SourceFingerprint {T}.
Arguments cq_PartLocationJSON {T}. Arguments cq_ChecksumState {T}. Arguments cq_Now {T}.
Arguments mkCheckpointRecord {T}. Arguments cp_JobID {T}. Arguments cp_StepIndex {T}.
Arguments cp_Phase {T}. Arguments cp_VerifiedOffset {T}. Arguments cp_SourceFingerprint {T}.
Arguments cp_PartLocationJSON {T}. Arguments cp_ChecksumState {T}. Arguments cp_UpdatedAt {T}.

(** * Validation *)
(** [validateEncodedValues], of the lengths. *)
Definition validateEncodedValues (lengths : list Z) : bool :=
  match foldl (λ total l, t ← total; if l >? maxEncodedRowBytes - t then None else Some (t + l))
          (Some 0) lengths with
  | Some _ => true | None => false
  end.
(** wal: ValidateTransactionBudgets; the sum is of uint64. *)
Definition ValidateTransactionBudgets (budgets : list Z) : bool :=
  (0 <? Z.of_nat (length budgets)) && (Z.of_nat (length budgets) <=? MaxOperationsPerTransaction) &&
  match foldl (λ total b, t ← total;
                 if (b =? 0) || (b >? StatementGrowthLimitBytes) || (t + b >? MaxUint64) ||
                    (t + b >? TransactionGrowthLimitBytes) then None else Some (t + b)) (Some 0) budgets with
  | Some _ => true | None => false
  end.
Definition createWALBudgets (stepCount : nat) (conflict editBinding : bool) : list Z :=
  [planWALBudget; jobWALBudget] ++ replicate stepCount stepWALBudget ++
  (if conflict then [conflictWALBudget] else []) ++
  (if editBinding then [editBindingWALBudget; eventWALBudget; editBindingWALBudget] else []) ++
  [eventWALBudget; dedupWALBudget].
Definition validateLowerHex (value : string) (length_ : Z) : bool :=
  (len value =? length_) &&
  forallb (λ c, let n := Z.of_N (N_of_ascii c) in
    negb ((n <? 48) || (n >? 57) && (n <? 97) || (n >? 102))) (String.list_ascii_of_string value).

Section Validation.
Context {T : Type} `{Texts T}.
Definition refused {A} (what : string) : result StoreError A := Err (ErrStore what).
Definition parsed {A} (what : string) (r : result IDError A) : result StoreError () :=
  match r with Ok _ => Ok tt | Err _ => refused what end.
Definition invalid_text (t : option T) : bool :=
  match t with Some t => negb (text_valid t) | None => false end.
Definition text_lens (t : option T) : list Z := match t with Some t => [text_len t] | None => [] end.
Definition validateEventPayload (payload : T) : result StoreError () :=
  if text_len payload >? MaxEventPayloadBytes then refused "event payload exceeds" else
  if negb (text_valid payload) then refused "invalid event payload JSON" else Ok tt.

(** The loop over the steps: every kind is there and every text is valid. *)
Definition step_invalid (s : Step T) : bool :=
  String.eqb (step_Kind s) "" || invalid_text (step_SourceJSON s) || invalid_text (step_DestinationJSON s).
Definition create_lens (request : CreateRequest T) (payload : T) : list Z :=
  (len <$> [create_Kind request]) ++ [text_len (create_SourceJSON request)] ++
  (len <$> [create_Route request; create_Verification request; create_ConflictPolicy request;
            create_RiskClass request]) ++ [text_len payload] ++
  text_lens (create_DestinationJSON request) ++
  (create_Steps request ≫= λ s,
     len (step_Kind s) :: text_lens (step_SourceJSON s) ++ text_lens (step_DestinationJSON s)).
Definition validate_seed (request : CreateRequest T) (c : ConflictSeed T) : result StoreError () :=
  if negb (String.eqb (create_InitialState request) StateAwaitingConfirmation) ||
     (seed_StepIndex c <? 0) || (Z.of_nat (length (create_Steps request)) <=? seed_StepIndex c) ||
     negb (eventKindPattern (seed_Class c)) || negb (text_valid (seed_SourceJSON c)) ||
     negb (text_valid (seed_DestinationJSON c))
  then refused "create Job: invalid initial conflict" else
  if negb (validateEncodedValues
             [len (seed_Class c); text_len (seed_SourceJSON c); text_len (seed_DestinationJSON c)])
  then refused "create Job: encoded row exceeds" else Ok tt.
Definition validate_binding (request : CreateRequest T) (b : EditSessionBinding) : result StoreError () :=
  if negb (validateLowerHex (eb_SessionID b) 32) || (eb_ExpectedVersion b <? 1) ||
     (len (eb_EventID b) <? 1) || (len (eb_EventID b) >? 128) || negb (eventKindPattern (eb_EventKind b))
  then refused "create Job: invalid edit session binding" else
  match create_DestinationJSON request with
  | None => refused "create Job: edit session binding requires a Plan Version 2 payload"
  | Some payload =>
    match read_metadata payload with
    | Some (version, origin, session) =>
      if negb (version =? 2) || negb (String.eqb origin "sync_back") || negb (String.eqb session (eb_SessionID b))
      then refused "create Job: edit session binding disagrees with Plan Version 2 sync-back payload"
      else Ok tt
    | None => refused "create Job: edit session binding disagrees with Plan Version 2 sync-back payload"
    end
  end.
Definition validateCreate (request : CreateRequest T) (payload : T) : result StoreError () :=
  if negb (planIDPattern (create_PlanID request)) then refused "create Job: invalid plan ID" else
  _ ← parsed "create Job" (ParseRequestID (create_RequestID request));
  _ ← parsed "create Job" (ParseJobID (create_JobID request));
  _ ← parsed "create Job" (ParseEventID (create_EventID request));
  if negb (existsb (String.eqb (create_InitialState request))
             [StateDraft; StateAwaitingConfirmation; StateQueued])
  then refused "create Job: invalid initial state" else
  let steps := length (create_Steps request) in
  if (Time_Unix (create_Now request) <=? 0) || (steps =? 0)%nat || (Z.of_nat steps >? maxJobSteps)
  then refused "create Job: invalid time or step count" else
  if negb (ValidateTransactionBudgets (createWALBudgets steps
             (bool_decide (is_Some (create_InitialConflict request)))
             (bool_decide (is_Some (create_EditSession request)))))
  then refused "create Job: budgets" else
  _ ← validateEventPayload payload;
  if existsb step_invalid (create_Steps request) then refused "create Job: invalid step" else
  if negb (validateEncodedValues (create_lens request payload))
  then refused "create Job: encoded row exceeds" else
  if negb (text_valid (create_SourceJSON request)) || invalid_text (create_DestinationJSON request)
  then refused "create Job: invalid plan JSON" else
  _ ← match create_InitialConflict request with Some c => validate_seed request c | None => Ok tt end;
  match create_EditSession request with Some b => validate_binding request b | None => Ok tt end.

Definition validateResolveConflict (request : ResolveConflictRequest) : result StoreError () :=
  _ ← parsed "resolve Job conflict" (ParseJobID (rc_JobID request));
  _ ← parsed "resolve Job conflict" (ParseEventID (rc_EventID request));
  if (rc_ConflictIndex request <? 0) || (rc_ExpectedVersion request <=? 0) ||
     (Time_Unix (rc_Now request) <=? 0)
  then refused "resolve Job conflict: invalid index, version, or time" else
  if negb (existsb (String.eqb (rc_Resolution request)) ["overwrite"; "skip"; "auto_rename"])
  then refused "resolve Job conflict: invalid resolution" else
  if negb (existsb (String.eqb (rc_ApplyScope request)) ["item"; "job"])
  then refused "resolve Job conflict: invalid apply scope" else Ok tt.

Definition validateOpenConflict (request : OpenConflictRequest T) : result StoreError () :=
  _ ← parsed "open Job conflict" (ParseJobID (oc_JobID request));
  _ ← parsed "open Job conflict" (ParseEventID (oc_EventID request));
  if (oc_ExpectedVersion request <=? 0) || (oc_StepIndex request <? 0) ||
     (maxJobSteps <=? oc_StepIndex request) || negb (eventKindPattern (oc_Class request)) ||
     negb (text_valid (oc_SourceJSON request)) || negb (text_valid (oc_DestinationJSON request)) ||
     (Time_Unix (oc_Now request) <=? 0)
  then refused "open Job conflict: invalid version, step, class, payload, or time" else
  if negb (validateEncodedValues
             [len (oc_Class request); text_len (oc_SourceJSON request); text_len (oc_DestinationJSON request)])
  then refused "encoded row exceeds" else Ok tt.

Definition validateTransitionRequest (request : TransitionRequest T) : result StoreError () :=
  _ ← parsed "transition Job" (ParseJobID (tr_JobID request));
  _ ← parsed "transition Job" (ParseEventID (tr_EventID request));
  if (tr_ExpectedVersion request <=? 0) || negb (State_Valid (tr_To request)) ||
     negb (eventKindPattern (tr_EventKind request)) || (Time_Unix (tr_Now request) <=? 0)
  then refused "transition Job: invalid version, state, event kind, or time" else
  _ ← validateEventPayload (tr_PayloadJSON request);
  if (if String.eqb (tr_To request) StateRetryWait
      then match tr_RetryAt request with
           | Some t => Time_Unix t <=? Time_Unix (tr_Now request) | None => true end
      else bool_decide (is_Some (tr_RetryAt request)))
  then refused "transition Job: retry time" else
  if (if State_Terminal (tr_To request)
      then match tr_TerminalSummary request with Some s => String.eqb s "" | None => true end
      else bool_decide (is_Some (tr_TerminalSummary request)))
  then refused "transition Job: terminal summary" else
  if negb (validateEncodedValues ([len (tr_EventKind request); text_len (tr_PayloadJSON request)] ++
             match tr_TerminalSummary request with Some s => [len s] | None => [] end))
  then refused "encoded row exceeds" else Ok tt.

Definition validateControlRequest (request : ControlRequest T) : result StoreError () :=
  _ ← parsed "update Job control" (ParseJobID (co_JobID request));
  _ ← parsed "update Job control" (ParseEventID (co_EventID request));
  if (co_ExpectedVersion request <=? 0) ||
     bool_decide (co_PauseRequested request = None) && bool_decide (co_CancelRequested request = None) ||
     negb (eventKindPattern (co_EventKind request)) || (Time_Unix (co_Now request) <=? 0)
  then refused "update Job control: invalid version, flags, event, payload, or time" else
  _ ← validateEventPayload (co_PayloadJSON request);
  if negb (validateEncodedValues [len (co_EventKind request); text_len (co_PayloadJSON request)])
  then refused "encoded row exceeds" else Ok tt.

Definition validateCheckpoint (request : CheckpointRequest T) : result StoreError () :=
  _ ← parsed "save Job checkpoint" (ParseJobID (cq_JobID request));
  if (cq_StepIndex request <? 0) || (maxJobSteps <=? cq_StepIndex request) ||
     negb (eventKindPattern (cq_Phase request)) || (Time_Unix (cq_Now request) <=? 0) ||
     (cq_VerifiedOffset request >? MaxInt64)
  then refused "save Job checkpoint: invalid step, phase, offset, or time" else
  if blen (cq_ChecksumState request) >? 64 * 1024
  then refused "save Job checkpoint: checksum state exceeds 64 KiB" else
  if invalid_text (cq_SourceFingerprint request)
  then refused "save Job checkpoint: source fingerprint is invalid JSON" else
  if invalid_text (cq_PartLocationJSON request)
  then refused "save Job checkpoint: part location is invalid JSON" else
  if negb (validateEncodedValues (len (cq_Phase request) ::
             text_lens (cq_SourceFingerprint request) ++ text_lens (cq_PartLocationJSON request)))
  then refused "save Job checkpoint: encoded row exceeds" else Ok tt.
End Validation.

(** * Operations *)
Section Operations.
Context {T : Type} `{Texts T}.
Local Abbreviation M := (Tx T).

Definition snapshot_of (job : string) (r : JobRow) : Snapshot :=
  mkSnapshot job (job_PlanID r) (job_State r) (job_StateVersion r) (job_NextEventSequence r)
    (job_PauseRequested r) (job_CancelRequested r) (time_Unix <$> job_RetryAt r) (job_TerminalSummary r)
    (time_Unix (job_CreatedAt r)) (time_Unix (job_UpdatedAt r)).
Definition getSnapshot (job : string) : M Snapshot :=
  r ← look (λ db, jobs db !! job);
  match r with Some r => mret (snapshot_of job r) | None => refuse ErrNoRows end.

(** A job as it was asked for: the version is checked before the state. *)
Definition current (job : string) (expected : Z) : M Snapshot :=
  s ← getSnapshot job;
  if negb (snap_StateVersion s =? expected) then refuse (ErrVersionConflict (snap_StateVersion s) expected)
  else mret s.

(** An event that is there already is the same request, made again. *)
Definition find_event (event : string) (db : DB T) : option ((string * Z) * EventRow T) :=
  head (filter (λ '(_, r), ev_EventID r = event) (map_to_list (job_events db))).
Definition replayed (event job kind : string) (payload : T) : M (option Snapshot) :=
  e ← look (find_event event);
  match e with
  | None => mret None
  | Some ((eventJob, _), r) =>
    if negb (String.eqb eventJob job) || negb (String.eqb (ev_Kind r) kind) ||
       negb (bool_decide (ev_Payload r = payload))
    then refuse (ErrStore "event ID has different immutable content")
    else s ← getSnapshot job; mret (Some s)
  end.

(** ** Create *)
(** SELECT COALESCE(MAX(sequence),0)+1 FROM edit_session_events *)
Definition next_index (least : Z) (indices : list Z) : Z := foldr Z.max least indices + 1.
Definition indices {V} (key : string) (m : gmap (string * Z) V) : list Z :=
  snd <$> filter (λ k, k.1 = key) (fst <$> map_to_list m).
Definition insert_session_event (session : string) (r : SessionEventRow) : M () :=
  sequence ← look (λ db, next_index 0 (indices session (edit_session_events db)));
  statement (λ db, constraint "edit_session_events"
    (unique sev_EventID (edit_session_events db) (sev_EventID r) &&
     bool_decide (is_Some (edit_sessions db !! session)) && (sequence <=? MaxInt64) &&
     (1 <=? len (sev_EventID r)) && (len (sev_EventID r) <=? 128) &&
     (1 <=? len (sev_Kind r)) && (len (sev_Kind r) <=? 64) && (0 <? sev_CreatedAt r))
    (db <| edit_session_events := <[(session, sequence) := r]> (edit_session_events db) |>)).
Definition check_session (r : SessionRow) : bool :=
  (0 <? ses_StateVersion r) && (ses_StateVersion r <=? MaxInt64) && (ses_CreatedAt r <=? ses_UpdatedAt r).
Definition update_session (session : string) (selected : SessionRow → bool)
    (f : SessionRow → SessionRow) (e : StoreError) (db : DB T) : result StoreError (DB T) :=
  match edit_sessions db !! session with
  | Some r =>
    if selected r then constraint "edit_sessions" (check_session (f r))
                         (db <| edit_sessions := <[session := f r]> (edit_sessions db) |>)
    else Err e
  | None => Err e
  end.
Definition bind_edit_session (request : CreateRequest T) (b : EditSessionBinding) : M () :=
  let now := Time_Unix (create_Now request) in
  let session := eb_SessionID b in
  details ← look (λ db, edit_session_details db !! session);
  _ ← require (bool_decide (is_Some details)) (ErrStore "session is not fully reconstructible");
  _ ← statement (update_session session
        (λ r, (ses_StateVersion r =? eb_ExpectedVersion b) && String.eqb (ses_LocalState r) "dirty" &&
              existsb (String.eqb (ses_State r)) ["awaiting_decision"; "conflict"])
        (λ r, r <| ses_State := "uploading" |> <| ses_StateVersion := ses_StateVersion r + 1 |>
                <| ses_UpdatedAt := now |>)
        (ErrStore "bind edit session state: row not found or version changed"));
  _ ← insert_session_event session (mkSessionEventRow (eb_EventID b) (eb_EventKind b) now);
  statement (λ db, constraint "edit_session_jobs"
    (fresh_key (edit_session_jobs db) session &&
     unique sj_JobID (edit_session_jobs db) (create_JobID request) &&
     bool_decide (is_Some (edit_sessions db !! session)) &&
     bool_decide (is_Some (jobs db !! create_JobID request)))
    (db <| edit_session_jobs := <[session := mkSessionJobRow (create_JobID request) now]>
             (edit_session_jobs db) |>)).

Definition insert_steps (request : CreateRequest T) : M () :=
  let now := Time_Unix (create_Now request) in
  foldr (λ '(index, s) (rest : M ()),
      _ ← statement (insert_step (create_JobID request) (Z.of_nat index)
            (mkStepRow (step_Kind s) "pending" 0 (step_SourceJSON s) (step_DestinationJSON s) now now));
      rest) (mret tt) (imap pair (create_Steps request)).
Definition new_job (request : CreateRequest T) : JobRow :=
  let now := Time_Unix (create_Now request) in
  mkJobRow (create_PlanID request) (create_InitialState request) 1 2 false false None None now now.
Definition create_tx (request : CreateRequest T) (payload : T) : M (Snapshot * bool) :=
  let now := Time_Unix (create_Now request) in
  let job := create_JobID request in
  known ← look (λ db, request_dedup db !! create_RequestID request);
  match known with
  | Some r =>
    _ ← require (String.eqb (dd_Operation r) "create_job")
          (ErrStore "create Job: request already belongs to another operation");
    match read_response (dd_Response r) with
    | None => refuse (ErrStore "create Job: decode idempotent response")
    | Some stored => s ← getSnapshot stored; mret (s, true)
    end
  | None =>
    _ ← statement (insert_plan (plan_row request));
    _ ← statement (insert_job job (new_job request));
    _ ← insert_steps request;
    _ ← match create_InitialConflict request with
        | None => mret tt
        | Some c => statement (insert_conflict job 0
            (mkConflictRow (seed_StepIndex c) (seed_Class c) "waiting" (seed_SourceJSON c)
               (seed_DestinationJSON c) None None now None))
        end;
    _ ← match create_EditSession request with None => mret tt | Some b => bind_edit_session request b end;
    _ ← statement (insert_event job 1 (mkEventRow (create_EventID request) "job_created" payload now));
    _ ← statement (insert_dedup (create_RequestID request)
          (mkDedupRow "create_job" (Some job) (text_response job) now));
    s ← getSnapshot job; mret (s, false)
  end.
Definition Create (f : fate) (request : CreateRequest T) (db : DB T) :
    DB T * result StoreError (Snapshot * bool) :=
  let payload := default text_object (create_EventPayloadJSON request) in
  match validateCreate request payload with
  | Err e => (db, Err e)
  | Ok _ => immediate f (create_tx request payload) db
  end.

(** ** Conflicts *)
Definition lost (expected : Z) : StoreError := ErrVersionConflict 0 expected.
Definition open_conflict_tx (request : OpenConflictRequest T) : M (Snapshot * ConflictRecord T) :=
  let now := Time_Unix (oc_Now request) in
  let job := oc_JobID request in
  s ← current job (oc_ExpectedVersion request);
  _ ← require (String.eqb (snap_State s) StateRunning || String.eqb (snap_State s) StateVerifying)
        (ErrInvalidTransition (snap_State s) StateWaitingConflict);
  index ← look (λ db, next_index (-1) (indices job (job_conflicts db)));
  _ ← statement (insert_conflict job index
        (mkConflictRow (oc_StepIndex request) (oc_Class request) "waiting" (oc_SourceJSON request)
           (oc_DestinationJSON request) None None now None));
  _ ← statement (update_job job (oc_ExpectedVersion request)
        (λ r, advance now (r <| job_State := StateWaitingConflict |>)) (lost (oc_ExpectedVersion request)));
  _ ← statement (insert_event job (snap_NextEventSequence s)
        (mkEventRow (oc_EventID request) "job_waiting_conflict" (text_conflict index (oc_Class request)) now));
  s' ← getSnapshot job;
  mret (s', mkConflictRecord job index (oc_StepIndex request) (oc_Class request) "waiting"
              (oc_SourceJSON request) (oc_DestinationJSON request) "" "" (oc_Now request) None).
Definition OpenConflict (f : fate) (request : OpenConflictRequest T) (db : DB T) :
    DB T * result StoreError (Snapshot * ConflictRecord T) :=
  match validateOpenConflict request with
  | Err e => (db, Err e)
  | Ok _ => immediate f (open_conflict_tx request) db
  end.

Definition resolve_row (request : ResolveConflictRequest) (db : DB T) : result StoreError (DB T) :=
  let key := (rc_JobID request, rc_ConflictIndex request) in
  let missing := Err (ErrStore "resolve Job conflict: waiting conflict not found") in
  match job_conflicts db !! key with
  | Some r =>
    if String.eqb (cf_State r) "waiting" then
      Ok (db <| job_conflicts := <[key := r <| cf_State := "resolved" |>
                <| cf_Resolution := Some (rc_Resolution request) |>
                <| cf_ApplyScope := Some (rc_ApplyScope request) |>
                <| cf_ResolvedAt := Some (Time_Unix (rc_Now request)) |>]> (job_conflicts db) |>)
    else missing
  | None => missing
  end.
Definition resolve_conflict_tx (request : ResolveConflictRequest) : M Snapshot :=
  let now := Time_Unix (rc_Now request) in
  let job := rc_JobID request in
  s ← current job (rc_ExpectedVersion request);
  _ ← require (String.eqb (snap_State s) StateAwaitingConfirmation ||
               String.eqb (snap_State s) StateWaitingConflict)
        (ErrInvalidTransition (snap_State s) StateQueued);
  _ ← statement (resolve_row request);
  _ ← statement (update_job job (rc_ExpectedVersion request)
        (λ r, advance now (r <| job_State := StateQueued |>)) (lost (rc_ExpectedVersion request)));
  _ ← statement (insert_event job (snap_NextEventSequence s)
        (mkEventRow (rc_EventID request) "job_conflict_resolved"
           (text_resolution (rc_ConflictIndex request) (rc_Resolution request) (rc_ApplyScope request)) now));
  getSnapshot job.
Definition ResolveConflict (f : fate) (request : ResolveConflictRequest) (db : DB T) :
    DB T * result StoreError Snapshot :=
  match validateResolveConflict request with
  | Err e => (db, Err e)
  | Ok _ => immediate f (resolve_conflict_tx request) db
  end.

(** ** Transitions *)
(** The session that a job sends back, as read before the transaction. *)
Definition bound_session (job : string) (db : DB T) : option string :=
  fst <$> head (filter (λ '(_, r), sj_JobID r = job) (map_to_list (edit_session_jobs db))).
Definition hasEditBinding (job : string) (db : DB T) : bool := bool_decide (is_Some (bound_session job db)).
Definition owner_kind (purpose : string) : option string :=
  if String.eqb purpose "opener" then Some "open" else
  if String.eqb purpose "editor" then Some "edit" else None.

(** One row of a table is updated, or the transaction fails (requireExactRow). *)
Definition exactly {V} (what : string) (m : gmap string V) (key : string) (selected : V → bool) :
    result StoreError V :=
  match m !! key with
  | Some v => if selected v then Ok v else Err (ErrStore what)
  | None => Err (ErrStore what)
  end.
Definition finish_session (session : string) (now : Z) : M () :=
  statement (update_session session
    (λ r, String.eqb (ses_State r) "uploading" && String.eqb (ses_LocalState r) "dirty")
    (λ r, r <| ses_LocalState := "clean" |> <| ses_RemoteState := "unchanged" |>
            <| ses_State := "completed" |> <| ses_StateVersion := ses_StateVersion r + 1 |>
            <| ses_UpdatedAt := now |>)
    (ErrStore "finalize sync-back edit session")).
Definition finish_materialization (materialization : string) (now : Z) : M () :=
  statement (λ db,
    r ← exactly "finalize sync-back materialization" (cache_materializations db) materialization
          (λ r, String.eqb (mat_State r) "dirty");
    Ok (db <| cache_materializations := <[materialization :=
          r <| mat_State := "clean" |> <| mat_UpdatedAt := Z.max (mat_UpdatedAt r) now |>
            <| mat_LastAccess := Z.max (mat_LastAccess r) now |>]> (cache_materializations db) |>)).
Definition finish_lease (lease materialization ownerKind owner : string) (now : Z) : M () :=
  statement (λ db,
    r ← exactly "finalize sync-back lease" (cache_leases db) lease
          (λ r, bool_decide (lea_Materialization r = Some materialization) &&
                String.eqb (lea_OwnerKind r) ownerKind && String.eqb (lea_OwnerID r) owner &&
                String.eqb (lea_State r) "active");
    Ok (db <| cache_leases := <[lease :=
          r <| lea_Heartbeat := Z.max (lea_Heartbeat r) now |>
            <| lea_Expires := Z.max (lea_Expires r) now |>
            <| lea_Grace := Z.max (Z.max (lea_Grace r) (lea_Expires r)) now |>
            <| lea_State := "released" |>]> (cache_leases db) |>)).
Definition finish_reference (reference materialization ownerKind owner : string) : M () :=
  statement (λ db,
    _ ← exactly "finalize sync-back reference" (cache_references db) reference
          (λ r, bool_decide (ref_Materialization r = Some materialization) &&
                String.eqb (ref_OwnerKind r) ownerKind && String.eqb (ref_OwnerID r) owner);
    Ok (db <| cache_references := delete reference (cache_references db) |>)).
Definition finalizeCompletedSyncBack (request : TransitionRequest T) : M () :=
  let now := Time_Unix (tr_Now request) in
  let missing := refuse (ErrStore "finalize sync-back edit binding") in
  found ← look (λ db,
    session ← bound_session (tr_JobID request) db;
    s ← edit_sessions db !! session;
    d ← edit_session_details db !! session;
    if String.eqb (ses_State s) "uploading" && String.eqb (ses_LocalState s) "dirty"
    then Some (session, s, d) else None);
  match found with
  | None => missing
  | Some (session, s, d) =>
    match owner_kind (det_Purpose d) with
    | None => missing
    | Some ownerKind =>
      let materialization := ses_Materialization s in
      _ ← finish_session session now;
      _ ← insert_session_event session (mkSessionEventRow (tr_EventID request) "sync_back_completed" now);
      _ ← finish_materialization materialization now;
      _ ← finish_lease (det_Lease d) materialization ownerKind session now;
      finish_reference (det_Reference d) materialization ownerKind session
    end
  end.

Definition transition_row (request : TransitionRequest T) (r : JobRow) : JobRow :=
  advance (Time_Unix (tr_Now request))
    (r <| job_State := tr_To request |> <| job_RetryAt := Time_Unix <$> tr_RetryAt request |>
       <| job_TerminalSummary := tr_TerminalSummary request |>).
Definition transition_tx (boundEdit : bool) (request : TransitionRequest T) : M (Snapshot * bool) :=
  let now := Time_Unix (tr_Now request) in
  let job := tr_JobID request in
  known ← replayed (tr_EventID request) job (tr_EventKind request) (tr_PayloadJSON request);
  match known with
  | Some s => mret (s, true)
  | None =>
    s ← current job (tr_ExpectedVersion request);
    _ ← require (CanTransition (snap_State s) (tr_To request))
          (ErrInvalidTransition (snap_State s) (tr_To request));
    _ ← statement (update_job job (tr_ExpectedVersion request) (transition_row request)
          (lost (tr_ExpectedVersion request)));
    _ ← statement (insert_event job (snap_NextEventSequence s)
          (mkEventRow (tr_EventID request) (tr_EventKind request) (tr_PayloadJSON request) now));
    _ ← (if boundEdit && String.eqb (tr_To request) StateCompleted
         then finalizeCompletedSyncBack request else mret tt);
    s' ← getSnapshot job; mret (s', false)
  end.
(** The binding is looked up in [earlier], before the transaction begins. *)
Definition Transition (earlier : DB T) (f : fate) (request : TransitionRequest T) (db : DB T) :
    DB T * result StoreError (Snapshot * bool) :=
  match validateTransitionRequest request with
  | Err e => (db, Err e)
  | Ok _ => immediate f (transition_tx (hasEditBinding (tr_JobID request) earlier) request) db
  end.

(** ** Control *)
Definition control_row (request : ControlRequest T) (r : JobRow) : JobRow :=
  advance (Time_Unix (co_Now request))
    (r <| job_PauseRequested := default (job_PauseRequested r) (co_PauseRequested request) |>
       <| job_CancelRequested := default (job_CancelRequested r) (co_CancelRequested request) |>).
Definition control_tx (request : ControlRequest T) : M (Snapshot * bool) :=
  let job := co_JobID request in
  known ← replayed (co_EventID request) job (co_EventKind request) (co_PayloadJSON request);
  match known with
  | Some s => mret (s, true)
  | None =>
    s ← current job (co_ExpectedVersion request);
    _ ← require (negb (State_Terminal (snap_State s)))
          (ErrStore "update Job control: terminal Job cannot be changed");
    _ ← statement (update_job job (co_ExpectedVersion request) (control_row request)
          (lost (co_ExpectedVersion request)));
    _ ← statement (insert_event job (snap_NextEventSequence s)
          (mkEventRow (co_EventID request) (co_EventKind request) (co_PayloadJSON request)
             (Time_Unix (co_Now request))));
    s' ← getSnapshot job; mret (s', false)
  end.
Definition UpdateControl (f : fate) (request : ControlRequest T) (db : DB T) :
    DB T * result StoreError (Snapshot * bool) :=
  match validateControlRequest request with
  | Err e => (db, Err e)
  | Ok _ => immediate f (control_tx request) db
  end.

(** ** Checkpoints *)
Definition nullableBytes (value : list byte) : option (list byte) :=
  match value with [] => None | _ => Some value end.
(** INSERT ... ON CONFLICT DO UPDATE ... WHERE. *)
Definition save_row (request : CheckpointRequest T) (db : DB T) : result StoreError (DB T) :=
  let key := (cq_JobID request, cq_StepIndex request) in
  let now := Time_Unix (cq_Now request) in
  let row := mkCheckpointRow (cq_Phase request) (cq_VerifiedOffset request)
    (cq_SourceFingerprint request) (cq_PartLocationJSON request)
    (nullableBytes (cq_ChecksumState request)) now in
  let saved := Ok (db <| job_checkpoints := <[key := row]> (job_checkpoints db) |>) in
  match job_checkpoints db !! key with
  | None =>
    if bool_decide (is_Some (job_steps db !! key)) && (0 <=? cq_VerifiedOffset request) then saved
    else Err (ErrConstraint "job_checkpoints")
  | Some old =>
    if (ck_VerifiedOffset old <=? cq_VerifiedOffset request) && (ck_UpdatedAt old <=? now) &&
       bool_decide (ck_SourceFingerprint old = cq_SourceFingerprint request) then saved
    else Err (ErrStore "save Job checkpoint: stale offset, time, or source identity")
  end.
Definition SaveCheckpoint (f : fate) (request : CheckpointRequest T) (db : DB T) :
    DB T * result StoreError () :=
  match validateCheckpoint request with
  | Err e => (db, Err e)
  | Ok _ => immediate f (statement (save_row request)) db
  end.
Definition GetCheckpoint (job : string) (stepIndex : Z) (db : DB T) :
    result StoreError (CheckpointRecord T) :=
  _ ← parsed "get Job checkpoint" (ParseJobID job);
  if (stepIndex <? 0) || (maxJobSteps <=? stepIndex)
  then refused "get Job checkpoint: step index is outside the supported range" else
  match job_checkpoints db !! (job, stepIndex) with
  | None => Err ErrNoRows
  | Some r => Ok (mkCheckpointRecord job stepIndex (ck_Phase r) (ck_VerifiedOffset r)
      (ck_SourceFingerprint r) (ck_PartLocation r) (default [] (ck_ChecksumState r))
      (time_Unix (ck_UpdatedAt r)))
  end.

(** ** Reading *)
Definition Get (job : string) (db : DB T) : result StoreError Snapshot :=
  _ ← parsed "get Job" (ParseJobID job);
  match jobs db !! job with Some r => Ok (snapshot_of job r) | None => Err ErrNoRows end.
Definition GetPlan (job : string) (db : DB T) : result StoreError (PlanRecord T) :=
  _ ← parsed "get Job plan" (ParseJobID job);
  match r ← jobs db !! job; operation_plans db !! job_PlanID r with
  | Some p => Ok p | None => Err ErrNoRows
  end.
(** ORDER BY updated_at_unix DESC, job_id *)
Definition listed_before (a b : string * JobRow) : Prop :=
  job_UpdatedAt b.2 < job_UpdatedAt a.2 ∨
  job_UpdatedAt b.2 = job_UpdatedAt a.2 ∧ String.leb a.1 b.1 = true.
#[export] Instance listed_before_dec a b : Decision (listed_before a b).
Proof. unfold listed_before. apply _. Defined.
Definition List_ (limit : Z) (db : DB T) : result StoreError (list Snapshot) :=
  if (limit <? 1) || (limit >? 1000) then refused "list Jobs: limit is outside 1..1000" else
  Ok ((λ '(job, r), snapshot_of job r) <$>
      take (Z.to_nat limit) (merge_sort listed_before (map_to_list (jobs db)))).
Definition by_key {V} (a b : (string * Z) * V) : Prop := a.1.2 <= b.1.2.
#[export] Instance by_key_dec {V} (a b : (string * Z) * V) : Decision (by_key a b).
Proof. unfold by_key. apply _. Defined.
Definition rows_of {V} (job : string) (m : gmap (string * Z) V) : list ((string * Z) * V) :=
  merge_sort by_key (filter (λ '(k, _), k.1 = job) (map_to_list m)).
Definition ListEvents (job : string) (afterSequence limit : Z) (db : DB T) :
    result StoreError (list (EventRecord T)) :=
  _ ← parsed "list Job events" (ParseJobID job);
  if (afterSequence <? 0) || (limit <? 1) || (limit >? 1000)
  then refused "list Job events: invalid cursor or limit" else
  Ok ((λ '(k, r), mkEventRecord job k.2 (ev_EventID r) (ev_Kind r) (ev_Payload r)
                    (time_Unix (ev_CreatedAt r))) <$>
      take (Z.to_nat limit)
        (filter (λ '(k, _), afterSequence < k.2) (rows_of job (job_events db)))).
Definition conflict_record (job : string) (index : Z) (r : ConflictRow T) : ConflictRecord T :=
  mkConflictRecord job index (cf_StepIndex r) (cf_Class r) (cf_State r) (cf_Source r)
    (cf_Destination r) (default "" (cf_Resolution r)) (default "" (cf_ApplyScope r))
    (time_Unix (cf_CreatedAt r)) (time_Unix <$> cf_ResolvedAt r).
Definition ListConflicts (job : string) (db : DB T) : result StoreError (list (ConflictRecord T)) :=
  _ ← parsed "list Job conflicts" (ParseJobID job);
  Ok ((λ '(k, r), conflict_record job k.2 r) <$> rows_of job (job_conflicts db)).

(** ** Recovery *)
Definition id_before (a b : string) : Prop := String.leb a b = true.
#[export] Instance id_before_dec a b : Decision (id_before a b).
Proof. unfold id_before. apply _. Defined.
(** SELECT job_id FROM jobs WHERE state IN ('running', 'verifying') ORDER BY
    job_id LIMIT 1 *)
Definition interrupted (db : DB T) : option string :=
  head (merge_sort id_before
    (fst <$> filter (λ '(_, r), job_State r = StateRunning ∨ job_State r = StateVerifying)
               (map_to_list (jobs db)))).
Definition active_steps (job : string) (db : DB T) : list Z :=
  (λ k, k.1.2) <$> filter (λ '(_, r), row_State r = "running" ∨ row_State r = "verifying")
                     (rows_of job (job_steps db)).
Definition pause_step (job : string) (now : Z) (index : Z) (db : DB T) : result StoreError (DB T) :=
  match job_steps db !! (job, index) with
  | Some r =>
    if String.eqb (row_State r) "running" || String.eqb (row_State r) "verifying" then
      constraint "job_steps" (row_CreatedAt r <=? now)
        (db <| job_steps := <[(job, index) := r <| row_State := "paused" |>
                               <| row_UpdatedAt := now |>]> (job_steps db) |>)
    else Err (ErrStore "recover Job step changed concurrently")
  | None => Err (ErrStore "recover Job step changed concurrently")
  end.
Definition recover_tx (job event : string) (now : Z) : M bool :=
  s ← getSnapshot job;
  let '(next, recoverable) := ConservativeRestartState (snap_State s) in
  if negb recoverable then mret false else
  steps ← look (λ db, take 6 (active_steps job db));
  _ ← require (Z.of_nat (length steps) <=? maxJobSteps) (ErrStore "recover Job has more active steps");
  _ ← statement (update_job job (snap_StateVersion s) (λ r, advance now (r <| job_State := next |>))
        (ErrStore "recover Job: concurrent state change"));
  _ ← foldr (λ index (rest : M ()), _ ← statement (pause_step job now index); rest) (mret tt) steps;
  _ ← statement (insert_event job (snap_NextEventSequence s)
        (mkEventRow event "job_recovered" text_daemon_restart now));
  mret true.

(** The loop: the [n]-th pass takes the [n]-th answer of the generator, and its
    transaction has the [n]-th fate.  [None]: it is still running after [fuel]
    passes. *)
Fixpoint recover_loop (fuel : nat) (n : nat) (recovered : Z) (now : Time)
    (generator : nat → option string) (f : nat → fate) (db : DB T) :
    DB T * option (result StoreError Z) :=
  match fuel with
  | O => (db, None)
  | S fuel =>
    match interrupted db with
    | None => (db, Some (Ok recovered))
    | Some job =>
      match generator n with
      | None => (db, Some (refused "recover Job event ID"))
      | Some event =>
        match immediate (f n) (recover_tx job event (Time_Unix now)) db with
        | (db, Err e) => (db, Some (Err e))
        | (db, Ok changed) =>
          recover_loop fuel (S n) (if changed then recovered + 1 else recovered) now generator f db
        end
      end
    end
  end.
(** Every pass leaves one job less that was interrupted. *)
Definition RecoverInterrupted (generator : nat → option string) (now : Time) (f : nat → fate) (db : DB T) :
    DB T * option (result StoreError Z) :=
  if Time_Unix now <=? 0 then (db, Some (refused "recover Jobs: invalid time")) else
  recover_loop (S (size (jobs db))) 0 0 now generator f db.
End Operations.
