(* ===== verification/JobRetention.v ===== *)
(** How the store forgets jobs (src/internal/state/jobstore/retention.go): a
    terminal job is claimed, loses its rows in small transactions, and then goes
    with its plan.  The table job_results has no writer and is left out. *)
From S2P Require Import Prelude Job Domain DirectProtocol PlanRecord JobTables JobStore.

Definition HistoryRetentionPolicyVersion : Z := 1.
Definition HistoryRetentionKeepNewest : Z := 1000.
Definition HistoryRetentionMinimumAge : Duration := 30 * 24 * Hour.
Definition historyRetentionRowBatch : Z := 8.
Definition historyRetentionMaxTransactions : nat := 64.

Record historyRetentionPolicy := mkRetentionPolicy {
  keepNewestTerminal : Z; minimumTerminalAge : Duration; rowBatchSize : Z; maxTransactions : nat;
}.
Record HistoryRetentionResult := mkRetentionResult {
  ClaimedJobs : Z; DeletedJobs : Z; DeletedRows : Z; More : bool;
}.
Record historyRetentionStep := mkRetentionStep {
  rs_claimed : bool; rs_deletedJob : bool; rs_deletedRows : Z; rs_done : bool;
}.

Definition validateHistoryRetention (now : Time) (policy : historyRetentionPolicy) : result StoreError () :=
  if (now =? 0) || (Time_Unix now <=? 0)
  then refused "reconcile Job history: current time must be positive" else
  if (keepNewestTerminal policy <? 0) || (keepNewestTerminal policy >? 1000000)
  then refused "reconcile Job history: keep-newest bound is outside 0..1000000" else
  if (minimumTerminalAge policy <? 0) || (minimumTerminalAge policy >? 100 * 365 * 24 * Hour)
  then refused "reconcile Job history: minimum age is outside 0..100 years" else
  if (rowBatchSize policy <? 1) || (rowBatchSize policy >? historyRetentionRowBatch)
  then refused "reconcile Job history: row batch is outside 1.." else
  if (Z.of_nat (maxTransactions policy) <? 1) || (Z.of_nat (maxTransactions policy) >? 256)
  then refused "reconcile Job history: transaction bound is outside 1..256" else Ok tt.

Section Retention.
Context {T : Type} `{Texts T}.
Local Abbreviation M := (Tx T).

(** ** Candidates *)
(** ORDER BY updated_at_unix DESC, job_id DESC *)
Definition newer (a b : string * JobRow) : Prop :=
  job_UpdatedAt b.2 < job_UpdatedAt a.2 ∨
  job_UpdatedAt b.2 = job_UpdatedAt a.2 ∧ String.leb b.1 a.1 = true.
#[export] Instance newer_dec a b : Decision (newer a b).
Proof. unfold newer. apply _. Defined.
(** ORDER BY updated_at_unix, job_id *)
Definition older (a b : string * JobRow) : Prop :=
  job_UpdatedAt a.2 < job_UpdatedAt b.2 ∨
  job_UpdatedAt a.2 = job_UpdatedAt b.2 ∧ String.leb a.1 b.1 = true.
#[export] Instance older_dec a b : Decision (older a b).
Proof. unfold older. apply _. Defined.

Definition terminal_jobs (db : DB T) : list (string * JobRow) :=
  filter (λ '(_, r), State_Terminal (job_State r) = true) (map_to_list (jobs db)).
Definition newest (keep : Z) (db : DB T) : list string :=
  fst <$> take (Z.to_nat keep) (merge_sort newer (terminal_jobs db)).
Definition cache_references_of (job : string) (db : DB T) : bool :=
  existsb (λ '(_, r), String.eqb (ref_OwnerKind r) "upload" && String.eqb (ref_OwnerID r) job)
    (map_to_list (cache_references db)).
Definition cache_leases_of (job : string) (db : DB T) : bool :=
  existsb (λ '(_, r), String.eqb (lea_OwnerKind r) "upload" && String.eqb (lea_OwnerID r) job &&
             existsb (String.eqb (lea_State r)) ["active"; "uncertain"])
    (map_to_list (cache_leases db)).
Definition referenced (job : string) (db : DB T) : bool :=
  hasEditBinding job db || cache_references_of job db || cache_leases_of job db.
Definition eligible (now : Time) (policy : historyRetentionPolicy) (db : DB T) (j : string * JobRow) : Prop :=
  job_UpdatedAt j.2 <= Time_Unix (now - minimumTerminalAge policy) ∧
  j.1 ∉ newest (keepNewestTerminal policy) db ∧ referenced j.1 db = false.
#[export] Instance eligible_dec now policy db j : Decision (eligible now policy db j).
Proof. unfold eligible. apply _. Defined.
Definition selectHistoryRetentionCandidate (now : Time) (policy : historyRetentionPolicy) (db : DB T) :
    option string :=
  fst <$> head (merge_sort older (filter (eligible now policy db) (terminal_jobs db))).

(** ** Rows *)
Definition loadHistoryRetentionClaim (db : DB T) : result StoreError (option string) :=
  match job_history_retention db with
  | None => Ok None
  | Some r =>
    if negb (ret_PolicyVersion r =? HistoryRetentionPolicyVersion)
    then refused "load Job history retention claim: unsupported policy version" else
    _ ← parsed "load Job history retention claim" (ParseJobID (ret_JobID r));
    Ok (Some (ret_JobID r))
  end.
Definition is_terminal (job : string) (db : DB T) : bool :=
  match jobs db !! job with Some r => State_Terminal (job_State r) | None => false end.
Definition validateClaimedHistoryJob (job : string) (db : DB T) : result StoreError () :=
  if negb (is_terminal job db)
  then refused "validate claimed Job history: Job is missing or nonterminal" else
  if referenced job db
  then refused "validate claimed Job history: gained recovery or audit reference" else Ok tt.

(** The first rows of a job in a child table, and the table without them. *)
Definition chunk {V} (job : string) (batch : nat) (m : gmap (string * Z) V) : list (string * Z) :=
  take batch (fst <$> rows_of job m).
Definition without {K V} `{Countable K} (m : gmap K V) (keys : list K) : gmap K V := foldr delete m keys.
Definition dedup_of (job : string) (db : DB T) : list string :=
  merge_sort id_before
    (fst <$> filter (λ '(_, r), dd_JobID r = Some job) (map_to_list (request_dedup db))).
(** Each table, what would be deleted of it, and how. *)
Definition historyChildTables (job : string) (batch : nat) (db : DB T) : list (nat * DB T) :=
  let cks := chunk job batch (job_checkpoints db) in
  let cfs := chunk job batch (job_conflicts db) in
  let evs := chunk job batch (job_events db) in
  let sts := chunk job batch (job_steps db) in
  let dds := take batch (dedup_of job db) in
  [(length cks, db <| job_checkpoints := without (job_checkpoints db) cks |>);
   (length cfs, db <| job_conflicts := without (job_conflicts db) cfs |>);
   (length evs, db <| job_events := without (job_events db) evs |>);
   (length sts, db <| job_steps := without (job_steps db) sts |>);
   (length dds, db <| request_dedup := without (request_dedup db) dds |>)].

(** No row refers to the job (REFERENCES jobs(job_id)). *)
Definition no_rows {V} (job : string) (m : gmap (string * Z) V) : bool := bool_decide (rows_of job m = []).
Definition delete_job (job : string) (db : DB T) : result StoreError (DB T) :=
  if negb (is_terminal job db) then Err (ErrStore "delete terminal Job history") else
  constraint "jobs" (no_rows job (job_steps db) && no_rows job (job_conflicts db) &&
                     no_rows job (job_events db) && bool_decide (dedup_of job db = []) &&
                     negb (hasEditBinding job db))
    (db <| jobs := delete job (jobs db) |>).
Definition delete_plan (plan : string) (db : DB T) : result StoreError (DB T) :=
  match operation_plans db !! plan with
  | None => Err (ErrStore "delete terminal Job plan")
  | Some _ => constraint "operation_plans" (unique job_PlanID (jobs db) plan)
                (db <| operation_plans := delete plan (operation_plans db) |>)
  end.
Definition forget_job (job : string) : M historyRetentionStep :=
  r ← look (λ db, jobs db !! job);
  match r with
  | None => refuse ErrNoRows
  | Some r =>
    _ ← modify (λ db, db <| job_history_retention := None |>);
    _ ← statement (delete_job job);
    _ ← statement (delete_plan (job_PlanID r));
    mret (mkRetentionStep false true 3 false)
  end.

Definition retention_tx (now : Time) (policy : historyRetentionPolicy) : M historyRetentionStep :=
  db ← get;
  match loadHistoryRetentionClaim db with
  | Err e => refuse e
  | Ok None =>
    match selectHistoryRetentionCandidate now policy db with
    | None => mret (mkRetentionStep false false 0 true)
    | Some candidate =>
      _ ← modify (λ db, db <| job_history_retention :=
            Some (mkRetentionRow candidate HistoryRetentionPolicyVersion (Time_Unix now)) |>);
      mret (mkRetentionStep true false 1 false)
    end
  | Ok (Some job) =>
    match validateClaimedHistoryJob job db with
    | Err e => refuse e
    | Ok _ =>
      match list_find (λ c, c.1 ≠ 0%nat) (historyChildTables job (Z.to_nat (rowBatchSize policy)) db) with
      | Some (_, (changed, db')) =>
        _ ← modify (λ _, db'); mret (mkRetentionStep false false (Z.of_nat changed) false)
      | None => forget_job job
      end
    end
  end.

(** A call: at most so many transactions. *)
Fixpoint reconcile_loop (n turns : nat) (now : Time) (policy : historyRetentionPolicy) (f : nat → fate)
    (r : HistoryRetentionResult) (db : DB T) : DB T * result StoreError HistoryRetentionResult :=
  match turns with
  | O => (db, Ok (mkRetentionResult (ClaimedJobs r) (DeletedJobs r) (DeletedRows r) true))
  | S turns =>
    match immediate (f n) (retention_tx now policy) db with
    | (db, Err e) => (db, Err e)
    | (db, Ok step) =>
      let r := mkRetentionResult (ClaimedJobs r + Z.b2z (rs_claimed step))
        (DeletedJobs r + Z.b2z (rs_deletedJob step)) (DeletedRows r + rs_deletedRows step) false in
      if rs_done step then (db, Ok r) else reconcile_loop (S n) turns now policy f r db
    end
  end.
Definition reconcileHistory (now : Time) (policy : historyRetentionPolicy) (f : nat → fate) (db : DB T) :
    DB T * result StoreError HistoryRetentionResult :=
  match validateHistoryRetention now policy with
  | Err e => (db, Err e)
  | Ok _ => reconcile_loop 0 (maxTransactions policy) now policy f (mkRetentionResult 0 0 0 false) db
  end.
Definition ReconcileHistory (now : Time) (f : nat → fate) (db : DB T) :
    DB T * result StoreError HistoryRetentionResult :=
  reconcileHistory now (mkRetentionPolicy HistoryRetentionKeepNewest HistoryRetentionMinimumAge
    historyRetentionRowBatch historyRetentionMaxTransactions) f db.
End Retention.
