(* ===== verification/JobStoreFacts.v ===== *)
(** What a transaction of the job store can change. *)
From S2P Require Import Prelude Job Domain DirectProtocol PlanRecord JobTables JobStore.

(** * Reading a transaction that succeeded *)
Section Tx.
Context {T : Type}.
Implicit Types (db : DB T).
Lemma tx_bind_ok {A B} (m : Tx T A) (f : A → Tx T B) db b db' :
  (m ≫= f) db = Ok (b, db') ↔ ∃ a db1, m db = Ok (a, db1) ∧ f a db1 = Ok (b, db').
Proof.
  unfold mbind, tx_bind. destruct (m db) as [[a db1]|]; [|naive_solver]. split; [by eauto|].
  by intros (? & ? & [= -> ->] & ?).
Qed.
Lemma tx_ret_ok {A} (a b : A) db db' : (mret a : Tx T A) db = Ok (b, db') ↔ b = a ∧ db' = db.
Proof. unfold mret, tx_ret. naive_solver. Qed.
Lemma look_ok {A} (f : DB T → A) db a db' : look f db = Ok (a, db') ↔ a = f db ∧ db' = db.
Proof. unfold look. naive_solver. Qed.
Lemma require_ok b e db u db' : require b e db = Ok (u, db') ↔ b = true ∧ db' = db.
Proof. unfold require, mret, tx_ret, refuse. destruct b, u; naive_solver. Qed.
Lemma statement_ok (f : DB T → result StoreError (DB T)) db u db' :
  statement f db = Ok (u, db') ↔ f db = Ok db'.
Proof. unfold statement. destruct (f db), u; naive_solver. Qed.
Lemma modify_ok (f : DB T → DB T) db u db' : modify f db = Ok (u, db') ↔ db' = f db.
Proof. unfold modify. destruct u. naive_solver. Qed.
Lemma constraint_ok {A} what b (a a' : A) : constraint what b a = Ok a' ↔ b = true ∧ a' = a.
Proof. unfold constraint. destruct b; naive_solver. Qed.

(** What a transaction leaves as it is. *)
Definition keeps {X A} (p : DB T → X) (m : Tx T A) : Prop :=
  ∀ db a db', m db = Ok (a, db') → p db' = p db.
Lemma keeps_bind {X A B} (p : DB T → X) (m : Tx T A) (f : A → Tx T B) :
  keeps p m → (∀ a, keeps p (f a)) → keeps p (m ≫= f).
Proof. intros Hm Hf db b db' (a & db1 & H1 & H2)%tx_bind_ok. etrans; [by eapply Hf|by eapply Hm]. Qed.
Lemma keeps_ret {X A} (p : DB T → X) (a : A) : keeps p (mret a).
Proof. by intros db b db' [_ ->]%tx_ret_ok. Qed.
Lemma keeps_look {X A} (p : DB T → X) (f : DB T → A) : keeps p (look f).
Proof. by intros db b db' [_ ->]%look_ok. Qed.
Lemma keeps_require {X} (p : DB T → X) b e : keeps p (require b e).
Proof. by intros db u db' [_ ->]%require_ok. Qed.
Lemma keeps_refuse {X A} (p : DB T → X) e : keeps p (refuse e : Tx T A).
Proof. by intros db u db'. Qed.
Lemma keeps_statement {X} (p : DB T → X) f : (∀ db db', f db = Ok db' → p db' = p db) → keeps p (statement f).
Proof. intros Hf db u db' H%statement_ok. by apply Hf. Qed.
End Tx.

Create HintDb keeps.
#[export] Hint Resolve keeps_bind keeps_ret keeps_look keeps_require keeps_refuse keeps_statement : keeps.

(** Takes a hypothesis about a transaction apart. *)
Ltac tx :=
  repeat match goal with
  | H : (_ ≫= _) _ = Ok (_, _) |- _ => apply tx_bind_ok in H as (? & ? & ? & H)
  | H : look _ _ = Ok (_, _) |- _ => apply look_ok in H as [-> ->]
  | H : require _ _ _ = Ok (_, _) |- _ => apply require_ok in H as [? ->]
  | H : statement _ _ = Ok (_, _) |- _ => apply statement_ok in H
  | H : modify _ _ = Ok (_, _) |- _ => apply modify_ok in H as ->
  | H : constraint _ _ _ = Ok _ |- _ => apply constraint_ok in H as [? ->]
  | H : refuse _ _ = Ok _ |- _ => discriminate H
  | H : Err _ = Ok _ |- _ => discriminate H
  | H : mret _ _ = Ok (_, _) |- _ => apply tx_ret_ok in H as [? ->]
  end.

Section Facts.
Context {T : Type} `{Texts T}.
Implicit Types (db : DB T).

Lemma immediate_ok {A} f (m : Tx T A) db :
  let r := immediate f m db in
  r.1 = db ∧ (∀ a, r.2 = Ok a → m db = Ok (a, db)) ∨
  ∃ a, m db = Ok (a, r.1) ∧ (∀ a', r.2 = Ok a' → a' = a).
Proof.
  unfold immediate. destruct f; cbn.
  - by left.
  - destruct (m db) as [[a db']|e]; [right|by left]. exists a. naive_solver.
  - destruct (m db) as [[a db']|e]; [right|by left]. exists a. naive_solver.
Qed.

Lemma getSnapshot_ok job db s db' :
  getSnapshot job db = Ok (s, db') ↔ db' = db ∧ ∃ r, jobs db !! job = Some r ∧ s = snapshot_of job r.
Proof.
  unfold getSnapshot. split.
  - intros E. tx. destruct (jobs db !! job) as [r|]; tx. subst. eauto.
  - intros [-> (r & E & ->)]. unfold mbind, tx_bind, look. by rewrite E.
Qed.
Lemma current_ok job v db s db' :
  current job v db = Ok (s, db') ↔
  db' = db ∧ ∃ r, jobs db !! job = Some r ∧ s = snapshot_of job r ∧ job_StateVersion r = v.
Proof.
  unfold current. rewrite tx_bind_ok. setoid_rewrite getSnapshot_ok. split.
  - intros (s1 & db1 & [-> (r & Hr & ->)] & E). cbn in E. destruct (Z.eqb_spec (job_StateVersion r) v); [|done].
    cbn in E. tx. subst. eauto 10.
  - intros [-> (r & Hr & -> & <-)]. do 2 eexists. split; [by eauto|]. cbn. by rewrite Z.eqb_refl.
Qed.
Lemma update_job_ok job v f e db db' :
  update_job job v f e db = Ok db' ↔
  ∃ r, jobs db !! job = Some r ∧ job_StateVersion r = v ∧ check_job (f r) = true ∧
       db' = db <| jobs := <[job := f r]> (jobs db) |>.
Proof.
  unfold update_job. destruct (jobs db !! job) as [r|]; [|naive_solver].
  destruct (Z.eqb_spec (job_StateVersion r) v); [rewrite constraint_ok|]; naive_solver.
Qed.
Lemma fresh_key_ok {K V} `{Countable K} (m : gmap K V) k : fresh_key m k = true ↔ m !! k = None.
Proof. apply bool_decide_eq_true. Qed.
Lemma unique_ok {K V A} `{Countable K, EqDecision A} (f : V → A) (m : gmap K V) a :
  unique f m a = true ↔ ∀ k v, m !! k = Some v → f v ≠ a.
Proof. apply bool_decide_eq_true. Qed.
End Facts.

(** * Moves

    A job moves on: its row is of the next version, and one event is added. *)
Section Moves.
Context {T : Type} `{Texts T}.
Implicit Types (db : DB T).

Record moved db (job : string) (r r' : JobRow) (e : EventRow T) db' : Prop := {
  mv_before : jobs db !! job = Some r;
  mv_jobs : jobs db' = <[job := r']> (jobs db);
  mv_events : job_events db' = <[(job, job_NextEventSequence r) := e]> (job_events db);
  mv_fresh : job_events db !! (job, job_NextEventSequence r) = None;
  mv_id : ∀ k e', job_events db !! k = Some e' → ev_EventID e' ≠ ev_EventID e;
  mv_version : job_StateVersion r' = job_StateVersion r + 1;
  mv_sequence : job_NextEventSequence r' = job_NextEventSequence r + 1;
  mv_check : check_job r' = true;
  mv_plan : job_PlanID r' = job_PlanID r;
  mv_legal : State_Terminal (job_State r) = false ∧
    (job_State r' = job_State r ∨ CanTransition (job_State r) (job_State r') = true);
  mv_plans : operation_plans db' = operation_plans db;
  mv_checkpoints : job_checkpoints db' = job_checkpoints db;
  mv_dedup : request_dedup db' = request_dedup db;
  mv_retention : job_history_retention db' = job_history_retention db;
  mv_steps : dom (job_steps db') = dom (job_steps db);
  mv_conflicts : ∀ k, k.1 ≠ job → job_conflicts db' !! k = job_conflicts db !! k;
}.

(** What goes along with a move: steps and conflicts of the job, and tables of the
    other stores. *)
Record around (job : string) db db' : Prop := {
  ar_plans : operation_plans db' = operation_plans db;
  ar_jobs : jobs db' = jobs db;
  ar_checkpoints : job_checkpoints db' = job_checkpoints db;
  ar_events : job_events db' = job_events db;
  ar_dedup : request_dedup db' = request_dedup db;
  ar_retention : job_history_retention db' = job_history_retention db;
  ar_steps : dom (job_steps db') = dom (job_steps db);
  ar_conflicts : ∀ k, k.1 ≠ job → job_conflicts db' !! k = job_conflicts db !! k;
}.
Lemma around_refl job db : around job db db.
Proof. by split. Qed.
Lemma around_trans job db1 db2 db3 : around job db1 db2 → around job db2 db3 → around job db1 db3.
Proof.
  intros [? ? ? ? ? ? ? Hc1] [? ? ? ? ? ? ? Hc2]. split; try congruence.
  intros k Hk. by rewrite Hc2, Hc1.
Qed.
(** The job store's own tables. *)
Definition own db :=
  (operation_plans db, jobs db, job_steps db, job_checkpoints db, job_conflicts db, job_events db,
   request_dedup db, job_history_retention db).
Lemma own_around job db db' : own db' = own db → around job db db'.
Proof. unfold own. intros [= E1 E2 E3 E4 E5 E6 E7 E8]. by split; rewrite ?E3, ?E5. Qed.

Lemma insert_event_ok job sequence (r : EventRow T) db db' :
  insert_event job sequence r db = Ok db' →
  job_events db !! (job, sequence) = None ∧ (∀ k e', job_events db !! k = Some e' → ev_EventID e' ≠ ev_EventID r) ∧
  db' = db <| job_events := <[(job, sequence) := r]> (job_events db) |>.
Proof.
  unfold insert_event. intros [Hc ->]%constraint_ok. rewrite !andb_true_iff in Hc.
  destruct Hc as [[[[Hf Hu] _] _] _]. apply fresh_key_ok in Hf. by rewrite unique_ok in Hu.
Qed.
Lemma insert_conflict_ok job index (r : ConflictRow T) db db' :
  insert_conflict job index r db = Ok db' →
  is_Some (jobs db !! job) ∧ db' = db <| job_conflicts := <[(job, index) := r]> (job_conflicts db) |>.
Proof.
  unfold insert_conflict. intros [Hc ->]%constraint_ok. rewrite !andb_true_iff in Hc.
  destruct Hc as [[[[[_ Hj] _] _] _] _]. by apply bool_decide_eq_true in Hj.
Qed.

(** Every move is an update that advances the row, and the insertion of an event. *)
Lemma advance_moved db db1 db2 db3 db4 db' job v g now lost e r :
  jobs db !! job = Some r →
  State_Terminal (job_State r) = false ∧ job_PlanID (g r) = job_PlanID r ∧
    job_StateVersion (g r) = job_StateVersion r ∧ job_NextEventSequence (g r) = job_NextEventSequence r ∧
    (job_State (g r) = job_State r ∨ CanTransition (job_State r) (job_State (g r)) = true) →
  around job db db1 → update_job job v (λ r, advance now (g r)) lost db1 = Ok db2 →
  around job db2 db3 → insert_event job (job_NextEventSequence r) e db3 = Ok db4 → around job db4 db' →
  moved db job r (advance now (g r)) e db'.
Proof.
  intros Hr (Ht & Hp & Hvg & Hsg & Hl) [E1 E2 E3 E4 E5 E6 E7 E8]
    (r1 & Hr1 & Hv & Hcheck & ->)%update_job_ok [F1 F2 F3 F4 F5 F6 F7 F8] Hevent [G1 G2 G3 G4 G5 G6 G7 G8].
  apply insert_event_ok in Hevent as (Hf & Hid & ->). rewrite E2, Hr in Hr1. injection Hr1 as <-.
  cbn in *. rewrite F4, E4 in Hf, Hid. split; try congruence; try done.
  - cbn. by rewrite Hvg.
  - cbn. by rewrite Hsg.
  - intros k Hk. by rewrite G8, F8, E8.
Qed.

(** ** What the operations do *)
Lemma update_session_own session selected f e db db' :
  update_session session selected f e db = Ok db' → own db' = own db.
Proof.
  unfold update_session. destruct (edit_sessions db !! session) as [r|]; [|done]. destruct (selected r); [|done].
  by intros [_ ->]%constraint_ok.
Qed.
Lemma insert_session_event_own session r : keeps own (insert_session_event session r).
Proof.
  unfold insert_session_event. apply keeps_bind; [apply keeps_look|]. intros n. apply keeps_statement.
  by intros db db' [_ ->]%constraint_ok.
Qed.
Lemma finalize_own request : keeps own (finalizeCompletedSyncBack request).
Proof.
  unfold finalizeCompletedSyncBack. cbv zeta. apply keeps_bind; [apply keeps_look|].
  intros [[[session s] d]|]; [|apply keeps_refuse]. destruct (owner_kind _); [|apply keeps_refuse].
  apply keeps_bind; [by apply keeps_statement; intros; eapply update_session_own|intros _].
  apply keeps_bind; [apply insert_session_event_own|intros _].
  apply keeps_bind.
  { apply keeps_statement. intros db db'. by intros (? & _ & [= <-])%bind_ok. }
  intros _. apply keeps_bind.
  { apply keeps_statement. intros db db'. by intros (? & _ & [= <-])%bind_ok. }
  intros _. apply keeps_statement. intros db db'. by intros (? & _ & [= <-])%bind_ok.
Qed.
Lemma bind_edit_own request b : keeps own (bind_edit_session request b).
Proof.
  unfold bind_edit_session. cbv zeta. apply keeps_bind; [apply keeps_look|]. intros d.
  apply keeps_bind; [apply keeps_require|intros _].
  apply keeps_bind; [by apply keeps_statement; intros; eapply update_session_own|intros _].
  apply keeps_bind; [apply insert_session_event_own|intros _].
  apply keeps_statement. by intros db db' [_ ->]%constraint_ok.
Qed.

#[local] Ltac facts :=
  tx;
  repeat match goal with
  | Hc : current _ _ _ = _ |- _ => apply current_ok in Hc as [-> (? & ? & -> & ?)]
  | Hg : getSnapshot _ _ = Ok _ |- _ => apply getSnapshot_ok in Hg as [-> (? & ? & ->)]
  | Hi : insert_conflict _ _ _ _ = _ |- _ => apply insert_conflict_ok in Hi as [_ ->]
  end;
  cbn [snap_State snap_NextEventSequence snapshot_of] in *.
#[local] Ltac updates := match goal with Hu : update_job _ _ _ _ _ = _ |- _ => eapply Hu end.
#[local] Ltac moves r := exists r; do 2 eexists; split_and!;
  [| | |eapply advance_moved; [eassumption| | |updates| |eassumption| ] ].

Lemma open_conflict_moved request db a db' :
  open_conflict_tx request db = Ok (a, db') →
  ∃ r r' e, job_State r' = StateWaitingConflict ∧ ev_EventID e = oc_EventID request ∧
    job_StateVersion r = oc_ExpectedVersion request ∧ moved db (oc_JobID request) r r' e db'.
Proof.
  unfold open_conflict_tx. cbv zeta. intros E. facts.
  match goal with Hr : jobs db !! _ = Some ?r |- _ => moves r end; try done; try apply around_refl.
  - cbn. match goal with Hs : (_ || _) = true |- _ => apply orb_true_iff in Hs as [->%String.eqb_eq | ->%String.eqb_eq] end;
      split_and!; try done; right; by vm_compute.
  - split; try done. intros k Hk. cbn. apply lookup_insert_ne. by intros <-.
Qed.
Lemma resolve_conflict_moved request db a db' :
  resolve_conflict_tx request db = Ok (a, db') →
  ∃ r r' e, job_State r' = StateQueued ∧ ev_EventID e = rc_EventID request ∧
    job_StateVersion r = rc_ExpectedVersion request ∧ moved db (rc_JobID request) r r' e db'.
Proof.
  unfold resolve_conflict_tx. cbv zeta. intros E. facts.
  match goal with Hrow : resolve_row _ _ = Ok ?db1 |- _ => assert (around (rc_JobID request) db db1) as Har end.
  { match goal with Hrow : resolve_row _ _ = Ok _ |- _ => revert Hrow end. unfold resolve_row. cbv zeta.
    destruct (job_conflicts db !! _) as [c|]; [|done]. destruct (String.eqb (cf_State c) "waiting"); [|discriminate]. intros [= <-].
    split; try done. intros k Hk. cbn. apply lookup_insert_ne. by intros <-. }
  match goal with Hr : jobs db !! _ = Some ?r |- _ => moves r end; try done; try apply around_refl; try eassumption.
  cbn. match goal with Hs : (_ || _) = true |- _ => apply orb_true_iff in Hs as [->%String.eqb_eq | ->%String.eqb_eq] end;
    split_and!; try done; right; by vm_compute.
Qed.

(** A replay: the event is there, and nothing changes. *)
Lemma replayed_ok event job kind payload db s db' :
  replayed event job kind payload db = Ok (s, db') →
  db' = db ∧ (s = None ∧ find_event event db = None ∨
    ∃ k r e, find_event event db = Some (k, e) ∧ k.1 = job ∧ ev_Kind e = kind ∧ ev_Payload e = payload ∧
      jobs db !! job = Some r ∧ s = Some (snapshot_of job r)).
Proof.
  unfold replayed. intros E. tx. destruct (find_event event db) as [[[job' n] e]|]; facts; [|subst; auto].
  destruct (_ || _) eqn:Hc in E; [done|]. rewrite !orb_false_iff, !negb_false_iff in Hc.
  destruct Hc as [[Hj%String.eqb_eq Hk%String.eqb_eq] Hp%bool_decide_eq_true]. facts. split; [done|]. right.
  subst. cbn. eauto 10.
Qed.
Lemma transition_moved bound request db s duplicate db' :
  transition_tx bound request db = Ok ((s, duplicate), db') →
  if duplicate then db' = db ∧ find_event (tr_EventID request) db ≠ None
  else find_event (tr_EventID request) db = None ∧
    ∃ r r', job_State r' = tr_To request ∧ job_StateVersion r = tr_ExpectedVersion request ∧
      moved db (tr_JobID request) r r' (mkEventRow (tr_EventID request) (tr_EventKind request)
        (tr_PayloadJSON request) (Time_Unix (tr_Now request))) db'.
Proof.
  unfold transition_tx, transition_row. cbv zeta. intros E. tx.
  match goal with H0 : replayed _ _ _ _ _ = _ |- _ => apply replayed_ok in H0 as [-> Hknown] end.
  destruct Hknown as [[-> Hnone]|(k & r & e & Hf & _ & _ & _ & Hr & ->)].
  2: { tx. simplify_eq. by rewrite Hf. }
  facts. simplify_eq. split; [done|].
  match goal with Hfin : (if _ then _ else _) ?d1 = Ok (_, ?d2) |- _ => assert (own d2 = own d1) as Hown end.
  { destruct (_ && _); [by eapply finalize_own|]. by facts. }
  match goal with Hr : jobs db !! _ = Some ?r |- _ => exists r end. eexists. split_and!;
    [| |eapply advance_moved; [eassumption| | |updates| |eassumption|by apply own_around] ];
    try done; try apply around_refl.
  cbn. split_and!; try done; [by eapply transition_not_terminal|by right].
Qed.
Lemma control_moved request db s duplicate db' :
  control_tx request db = Ok ((s, duplicate), db') →
  if duplicate then db' = db ∧ find_event (co_EventID request) db ≠ None
  else find_event (co_EventID request) db = None ∧
    ∃ r r' e, job_State r' = job_State r ∧ ev_EventID e = co_EventID request ∧
      job_StateVersion r = co_ExpectedVersion request ∧ moved db (co_JobID request) r r' e db'.
Proof.
  unfold control_tx, control_row. cbv zeta. intros E. tx.
  match goal with H0 : replayed _ _ _ _ _ = _ |- _ => apply replayed_ok in H0 as [-> Hknown] end.
  destruct Hknown as [[-> Hnone]|(k & r & e & Hf & _ & _ & _ & Hr & ->)].
  2: { tx. simplify_eq. by rewrite Hf. }
  facts. simplify_eq. split; [done|].
  match goal with Hr : jobs db !! _ = Some ?r |- _ => moves r end; try done; try apply around_refl.
  cbn. split_and!; try done; [by apply negb_true_iff|by left].
Qed.

Lemma pause_steps_around job now steps db u db' :
  foldr (λ index (rest : Tx T ()), _ ← statement (pause_step job now index); rest) (mret tt) steps db =
    Ok (u, db') → around job db db'.
Proof.
  revert db. induction steps as [|index steps IH]; intros db E; cbn [foldr] in E; tx; [apply around_refl|].
  eapply around_trans; [|by eapply IH].
  match goal with Hp : pause_step _ _ _ _ = Ok _ |- _ => revert Hp end. unfold pause_step.
  destruct (job_steps db !! _) as [r|] eqn:Er; [|done]. destruct (_ || _); [|done].
  intros [_ ->]%constraint_ok. split; try done. cbn. apply dom_insert_lookup_L. by eexists.
Qed.
Lemma recover_moved job event now db changed db' :
  recover_tx job event now db = Ok (changed, db') →
  if changed then ∃ r e, (job_State r = StateRunning ∨ job_State r = StateVerifying) ∧
    ev_EventID e = event ∧ moved db job r (advance now (r <| job_State := StatePaused |>)) e db'
  else db' = db ∧ ∃ r, jobs db !! job = Some r ∧ job_State r ≠ StateRunning ∧ job_State r ≠ StateVerifying.
Proof.
  unfold recover_tx. intros E. facts. unfold ConservativeRestartState in E.
  match goal with Hr : jobs db !! _ = Some ?r |- _ =>
    destruct (String.eqb_spec (job_State r) StateRunning) as [Hs|];
    [|destruct (String.eqb_spec (job_State r) StateVerifying) as [Hs|]] end; cbn [orb negb] in *; facts; subst.
  3: { eauto. }
  all: match goal with Hf : foldr _ _ _ _ = _ |- _ => apply pause_steps_around in Hf end;
    match goal with Hr : jobs _ !! _ = Some ?r |- _ => exists r end; eexists; split_and!;
    [| |eapply advance_moved; [eassumption| |apply around_refl|updates|eassumption|eassumption|apply around_refl] ];
    cbn; try done; [by auto|split_and!; try done; [by rewrite Hs|right; rewrite Hs; by vm_compute] ].
Qed.
End Moves.
