(* ===== verification/JobRuns.v ===== *)
(** Runs of the job store: what every operation does to its tables, whatever
    becomes of the transaction. *)
From S2P Require Import Prelude Job Domain DirectProtocol PlanRecord JobTables JobStore JobRetention.
From S2P Require Import JobStoreFacts.

Section Runs.
Context {T : Type} `{Texts T}.
Implicit Types (db : DB T).

(** ** Creation *)
Record created db (request : CreateRequest T) (payload : T) db' : Prop := {
  ct_request : request_dedup db !! create_RequestID request = None;
  ct_job : jobs db !! create_JobID request = None;
  ct_plan : operation_plans db !! create_PlanID request = None;
  ct_check : check_job (new_job request) = true;
  ct_plans : operation_plans db' = <[create_PlanID request := plan_row request]> (operation_plans db);
  ct_jobs : jobs db' = <[create_JobID request := new_job request]> (jobs db);
  ct_events : job_events db' = <[(create_JobID request, 1) :=
    mkEventRow (create_EventID request) "job_created" payload (Time_Unix (create_Now request))]> (job_events db);
  ct_fresh : job_events db !! (create_JobID request, 1) = None;
  ct_id : ∀ k e, job_events db !! k = Some e → ev_EventID e ≠ create_EventID request;
  ct_dedup : request_dedup db' = <[create_RequestID request :=
    mkDedupRow "create_job" (Some (create_JobID request)) (text_response (create_JobID request))
      (Time_Unix (create_Now request))]> (request_dedup db);
  ct_checkpoints : job_checkpoints db' = job_checkpoints db;
  ct_retention : job_history_retention db' = job_history_retention db;
  ct_others : ∀ k, k.1 ≠ create_JobID request →
    job_conflicts db' !! k = job_conflicts db !! k ∧ job_steps db' !! k = job_steps db !! k;
}.

Lemma insert_steps_ok (request : CreateRequest T) db u db' :
  insert_steps request db = Ok (u, db') →
  ∃ steps, own db' = own (db <| job_steps := steps |>) ∧
    ∀ k, k.1 ≠ create_JobID request → steps !! k = job_steps db !! k.
Proof.
  unfold insert_steps. cbv zeta. generalize (imap pair (create_Steps request)). intros l. revert db.
  induction l as [|[index s] l IH]; intros db E; cbn [foldr] in E; tx.
  { exists (job_steps db). split; [by destruct db|done]. }
  match goal with Hs : insert_step _ _ _ _ = Ok _ |- _ => unfold insert_step in Hs; apply constraint_ok in Hs as [_ ->] end.
  apply IH in E as (steps & Ho & Hk). exists steps. split; [by rewrite Ho|]. intros k Hne.
  rewrite Hk by done. cbn. apply lookup_insert_ne. by intros <-.
Qed.

Lemma created_conflict (request : CreateRequest T) job now db u db' :
  match create_InitialConflict request with
  | Some c => statement (insert_conflict job 0 (mkConflictRow (seed_StepIndex c) (seed_Class c) "waiting"
      (seed_SourceJSON c) (seed_DestinationJSON c) None None now None))
  | None => mret tt
  end db = Ok (u, db') →
  ∃ cs, own db' = own (db <| job_conflicts := cs |>) ∧ ∀ k, k.1 ≠ job → cs !! k = job_conflicts db !! k.
Proof.
  destruct (create_InitialConflict request) as [c|]; intros E; tx.
  - apply insert_conflict_ok in E as [_ ->]. eexists. split; [done|]. intros k Hk. apply lookup_insert_ne. by intros <-.
  - exists (job_conflicts db). by destruct db.
Qed.
Lemma create_tx_ok (request : CreateRequest T) payload db s duplicate db' :
  create_tx request payload db = Ok ((s, duplicate), db') →
  if duplicate then db' = db ∧ ∃ row job r, request_dedup db !! create_RequestID request = Some row ∧
    dd_Operation row = "create_job" ∧ read_response (dd_Response row) = Some job ∧
    jobs db !! job = Some r ∧ s = snapshot_of job r
  else created db request payload db' ∧ s = snapshot_of (create_JobID request) (new_job request).
Proof.
  unfold create_tx. cbv zeta. intros E. tx. destruct (request_dedup db !! _) as [row|] eqn:Hrow; tx.
  - destruct (read_response (dd_Response row)) as [job|] eqn:Hj; tx. simplify_eq.
    match goal with Hg : getSnapshot _ _ = Ok _ |- _ => apply getSnapshot_ok in Hg as [-> (r & Hr & ->)] end.
    match goal with Ho : (_ =? _)%string = true |- _ => apply String.eqb_eq in Ho end.
    split; [done|]. by exists row, job, r.
  - simplify_eq.
    match goal with Hp : insert_plan _ _ = Ok _, Hj : insert_job _ _ _ = Ok _, Hs : insert_steps _ _ = Ok _,
      Hc : match create_InitialConflict request with _ => _ end _ = Ok _,
      Hb : match create_EditSession request with _ => _ end _ = Ok _,
      He : insert_event _ _ _ _ = Ok _, Hd : insert_dedup _ _ _ = Ok _, Hg : getSnapshot _ _ = Ok _ |- _ =>
      rename Hp into Eplan, Hj into Ejob, Hs into Esteps, Hc into Econflict, Hb into Ebind, He into Eevent,
             Hd into Ededup, Hg into Eget end.
    unfold insert_plan in Eplan. apply constraint_ok in Eplan as [Cplan ->].
    unfold insert_job in Ejob. apply constraint_ok in Ejob as [Cjob ->].
    apply insert_steps_ok in Esteps as (steps & Osteps & Hsteps).
    apply created_conflict in Econflict as (cs & Oconflicts & Hcs).
    assert (own x8 = own x6) as Obind.
    { destruct (create_EditSession request); [by eapply bind_edit_own|by tx]. }
    apply insert_event_ok in Eevent as (Hfresh & Hid & ->).
    unfold insert_dedup in Ededup. apply constraint_ok in Ededup as [_ ->].
    apply getSnapshot_ok in Eget as [-> (r & Hr & ->)].
    rewrite !andb_true_iff in Cplan, Cjob. destruct Cplan as [[[Cplan _] _] _], Cjob as [[[Cjob _] _] Ccheck].
    apply fresh_key_ok in Cplan, Cjob. rewrite Oconflicts in Obind.
    unfold own in Osteps, Obind. cbn in *. injection Osteps as S1 S2 S3 S4 S5 S6 S7 S8.
    injection Obind as B1 B2 B3 B4 B5 B6 B7 B8.
    rewrite B6, S6 in Hfresh, Hid. rewrite B2, S2, lookup_insert_eq in Hr. injection Hr as <-.
    split; [|done]. split; cbn; try congruence; try done.
    intros k Hk. rewrite B5, B3, S3. split; [|by apply Hsteps]. rewrite Hcs by done. by rewrite S5.
Qed.

(** ** Checkpoints *)
Record saved db (request : CheckpointRequest T) db' : Prop := {
  sv_tables : db' = db <| job_checkpoints := job_checkpoints db' |>;
  sv_row : job_checkpoints db' = <[(cq_JobID request, cq_StepIndex request) :=
    mkCheckpointRow (cq_Phase request) (cq_VerifiedOffset request) (cq_SourceFingerprint request)
      (cq_PartLocationJSON request) (nullableBytes (cq_ChecksumState request))
      (Time_Unix (cq_Now request))]> (job_checkpoints db);
  sv_monotone : ∀ old, job_checkpoints db !! (cq_JobID request, cq_StepIndex request) = Some old →
    ck_VerifiedOffset old ≤ cq_VerifiedOffset request ∧ ck_UpdatedAt old ≤ Time_Unix (cq_Now request) ∧
    ck_SourceFingerprint old = cq_SourceFingerprint request;
}.
Lemma save_row_ok (request : CheckpointRequest T) db db' :
  save_row request db = Ok db' → saved db request db'.
Proof.
  unfold save_row. cbv zeta. destruct (job_checkpoints db !! _) as [old|] eqn:Eold; destruct (_ && _) eqn:Hc;
    intros [= <-].
  - split; [done|done|]. intros o Ho. rewrite Eold in Ho. injection Ho as <-.
    rewrite !andb_true_iff, bool_decide_eq_true in Hc. destruct Hc as [[? ?] ?]. split_and!; [lia|lia|done].
  - split; [done|done|]. intros o. by rewrite Eold.
Qed.

(** ** Retention *)
(** A job loses rows, and no other job does. *)
Record trimmed db (job : string) db' : Prop := {
  tm_plans : operation_plans db' = operation_plans db;
  tm_jobs : jobs db' = jobs db;
  tm_retention : job_history_retention db' = job_history_retention db;
  tm_steps : ∀ k, k.1 ≠ job → job_steps db' !! k = job_steps db !! k;
  tm_checkpoints : job_checkpoints db' ⊆ job_checkpoints db ∧
    ∀ k, k.1 ≠ job → job_checkpoints db' !! k = job_checkpoints db !! k;
  tm_conflicts : ∀ k, k.1 ≠ job → job_conflicts db' !! k = job_conflicts db !! k;
  tm_events : job_events db' ⊆ job_events db ∧ ∀ k, k.1 ≠ job → job_events db' !! k = job_events db !! k;
  tm_dedup : request_dedup db' ⊆ request_dedup db ∧
    ∀ k r, request_dedup db !! k = Some r → dd_JobID r ≠ Some job → request_dedup db' !! k = Some r;
  tm_referenced : ∀ j, referenced j db' = referenced j db;
}.
Lemma lookup_without {K V} `{Countable K} (m : gmap K V) keys k :
  without m keys !! k = if bool_decide (k ∈ keys) then None else m !! k.
Proof.
  unfold without. induction keys as [|k' keys IH]; cbn; [done|].
  destruct (decide (k' = k)) as [->|Hne].
  - rewrite lookup_delete_eq, bool_decide_eq_true_2; [done|by left].
  - rewrite lookup_delete_ne, IH by done. repeat case_bool_decide; try done; set_solver.
Qed.
Lemma without_subseteq {K V} `{Countable K} (m : gmap K V) keys : without m keys ⊆ m.
Proof. apply map_subseteq_spec. intros k v. rewrite lookup_without. by case_bool_decide. Qed.
Lemma rows_of_elem {V} (job : string) (m : gmap (string * Z) V) (k : string * Z) (v : V) :
  (k, v) ∈ rows_of job m ↔ k.1 = job ∧ m !! k = Some v.
Proof.
  unfold rows_of. rewrite merge_sort_Permutation, list_elem_of_filter, elem_of_map_to_list. done.
Qed.
Lemma chunk_others {V} (job : string) (n : nat) (m : gmap (string * Z) V) (k : string * Z) :
  k.1 ≠ job → without m (chunk job n m) !! k = m !! k.
Proof.
  intros Hk. rewrite lookup_without, bool_decide_eq_false_2; [done|]. unfold chunk. intros Hin.
  apply elem_of_take in Hin as (i & Hin & _). apply list_elem_of_lookup_2, list_elem_of_fmap in Hin as ([k' v] & -> & Hin).
  by apply rows_of_elem in Hin as [? _].
Qed.
Lemma dedup_of_elem (job : string) db (k : string) : k ∈ dedup_of job db ↔ ∃ r, request_dedup db !! k = Some r ∧ dd_JobID r = Some job.
Proof.
  unfold dedup_of. rewrite merge_sort_Permutation, list_elem_of_fmap. setoid_rewrite list_elem_of_filter. split.
  - intros ([k' r] & -> & Hj & Hin%elem_of_map_to_list). eauto.
  - intros (r & Hr & Hj). exists (k, r). by rewrite elem_of_map_to_list.
Qed.
Lemma dedup_others (job : string) (n : nat) db (k : string) r :
  request_dedup db !! k = Some r → dd_JobID r ≠ Some job →
  without (request_dedup db) (take n (dedup_of job db)) !! k = Some r.
Proof.
  intros Hr Hj. rewrite lookup_without, bool_decide_eq_false_2; [done|]. intros Hin.
  apply elem_of_take in Hin as (i & Hin & _). apply list_elem_of_lookup_2, dedup_of_elem in Hin as (r' & Hr' & Hj').
  rewrite Hr in Hr'. by injection Hr' as <-.
Qed.
Lemma child_trimmed (job : string) (n : nat) db c db' :
  (c, db') ∈ historyChildTables job n db → trimmed db job db'.
Proof.
  unfold historyChildTables. cbv zeta. rewrite !elem_of_cons, elem_of_nil.
  intros [[= _ ->] | [[= _ ->] | [[= _ ->] | [[= _ ->] | [[= _ ->] | [] ] ] ] ] ]; split; cbn; try done;
    try (split; [apply without_subseteq|]); try (intros; by apply chunk_others); try (intros; by apply dedup_others).
Qed.

(** A job that may be forgotten: old enough, with enough newer ones to keep, and
    nothing that refers to it. *)
Record candidate (now : Time) (policy : historyRetentionPolicy) db (job : string) : Prop := {
  cd_row : ∃ r, jobs db !! job = Some r ∧ State_Terminal (job_State r) = true ∧
    job_UpdatedAt r ≤ Time_Unix (now - minimumTerminalAge policy) ∧
    ∃ kept, NoDup kept ∧ Z.of_nat (length kept) = Z.max 0 (keepNewestTerminal policy) ∧
      ∀ j, j ∈ kept → j ≠ job ∧ ∃ r', jobs db !! j = Some r' ∧ State_Terminal (job_State r') = true ∧
        job_UpdatedAt r ≤ job_UpdatedAt r';
  cd_free : referenced job db = false;
}.
Lemma terminal_jobs_elem db (j : string * JobRow) :
  j ∈ terminal_jobs db ↔ jobs db !! j.1 = Some j.2 ∧ State_Terminal (job_State j.2) = true.
Proof. unfold terminal_jobs. rewrite list_elem_of_filter. destruct j as [job r]. rewrite elem_of_map_to_list. cbn. tauto. Qed.
Lemma leb_total a b : String.leb a b = true ∨ String.leb b a = true.
Proof.
  unfold String.leb. rewrite (String.compare_antisym a b). destruct (String.compare b a); cbn; auto.
Qed.
#[local] Instance newer_total : Total newer.
Proof.
  intros a b. unfold newer. destruct (Z.lt_trichotomy (job_UpdatedAt a.2) (job_UpdatedAt b.2)) as [?|[E|?]]; [by auto| |by auto].
  destruct (leb_total a.1 b.1); [right; right|left; right]; by split.
Qed.
Lemma Sorted_weaken {A} (R R' : relation A) l : (∀ a b, R a b → R' a b) → Sorted R l → Sorted R' l.
Proof. intros HR. induction 1 as [|a l _ IH Hhd]; constructor; [done|]. destruct Hhd; constructor; auto. Qed.
(** Those before a job in the sorted list are as new as it is. *)
Lemma newest_spec keep db (j : string * JobRow) :
  j ∈ terminal_jobs db → j.1 ∉ newest keep db →
  Z.of_nat (length (newest keep db)) = Z.max 0 keep ∧ NoDup (newest keep db) ∧
  ∀ j', j' ∈ newest keep db → ∃ r, jobs db !! j' = Some r ∧ State_Terminal (job_State r) = true ∧
    job_UpdatedAt j.2 ≤ job_UpdatedAt r.
Proof.
  intros Hj Hnot. unfold newest in *. set (l := merge_sort newer (terminal_jobs db)) in *.
  assert (l ≡ₚ terminal_jobs db) as Hperm by apply merge_sort_Permutation.
  assert (NoDup (fst <$> l)) as Hnd.
  { rewrite Hperm. apply NoDup_fmap_fst; [|apply NoDup_filter, NoDup_map_to_list].
    intros k r1 r2 [H1 _]%terminal_jobs_elem [H2 _]%terminal_jobs_elem. cbn in *. congruence. }
  assert (StronglySorted (λ a b, job_UpdatedAt b.2 ≤ job_UpdatedAt a.2) l) as Hs.
  { apply Sorted_StronglySorted; [intros ? ? ? ? ?; lia|]. eapply Sorted_weaken; [|apply Sorted_merge_sort; apply _].
    intros a b [?|[? _]]; lia. }
  assert (j ∈ l) as Hin by by rewrite Hperm.
  set (n := Z.to_nat keep) in *. rewrite <-(take_drop n l) in Hin. apply elem_of_app in Hin as [Hin|Hin].
  { destruct Hnot. apply list_elem_of_fmap. by exists j. }
  assert ((n < length l)%nat) as Hlen.
  { destruct (decide (n < length l)%nat); [done|]. rewrite drop_ge in Hin by lia. by apply elem_of_nil in Hin. }
  split_and!.
  - rewrite length_fmap, length_take_le by lia. lia.
  - rewrite fmap_take. eapply sublist_NoDup; [done|apply sublist_take].
  - intros j' (a & -> & Ha)%list_elem_of_fmap.
    assert (a ∈ terminal_jobs db) as [Hr Ht]%terminal_jobs_elem.
    { rewrite <-Hperm. rewrite <-(take_drop n l). apply elem_of_app. by left. }
    exists a.2. split_and!; [done|done|]. rewrite <-(take_drop n l) in Hs.
    by apply (StronglySorted_app_1_elem_of _ _ _ a j Hs).
Qed.
Lemma select_candidate now policy db job :
  selectHistoryRetentionCandidate now policy db = Some job → candidate now policy db job.
Proof.
  unfold selectHistoryRetentionCandidate. intros (j & Hhead & ->)%fmap_Some.
  assert (j ∈ merge_sort older (filter (eligible now policy db) (terminal_jobs db))) as Hin.
  { destruct (merge_sort _ _) as [|j' l]; [done|]. injection Hhead as ->. by left. }
  rewrite merge_sort_Permutation, list_elem_of_filter in Hin. destruct Hin as [(Hage & Hnew & Href) Hin].
  pose proof Hin as [Hr Ht]%terminal_jobs_elem. destruct (newest_spec _ _ _ Hin Hnew) as (Hlen & Hnd & Hall).
  split; [|done]. exists j.2. split_and!; [done..|]. eexists. split_and!; [exact Hnd|exact Hlen|].
  intros j' Hj'. split; [by intros ->|]. by apply Hall.
Qed.

(** What a transaction of the retention does. *)
Inductive retained (now : Time) (policy : historyRetentionPolicy) db db' : Prop :=
| kept : db' = db → retained now policy db db'
| claimed job :
    job_history_retention db = None → candidate now policy db job →
    db' = db <| job_history_retention :=
      Some (mkRetentionRow job HistoryRetentionPolicyVersion (Time_Unix now)) |> →
    retained now policy db db'
| trims row :
    job_history_retention db = Some row → is_terminal (ret_JobID row) db = true →
    referenced (ret_JobID row) db = false → trimmed db (ret_JobID row) db' → retained now policy db db'
| forgets row r :
    job_history_retention db = Some row → jobs db !! ret_JobID row = Some r →
    State_Terminal (job_State r) = true → referenced (ret_JobID row) db = false →
    (∀ k, k.1 = ret_JobID row →
       job_steps db !! k = None ∧ job_conflicts db !! k = None ∧ job_events db !! k = None) →
    (∀ k d, request_dedup db !! k = Some d → dd_JobID d ≠ Some (ret_JobID row)) →
    (∀ j r', j ≠ ret_JobID row → jobs db !! j = Some r' → job_PlanID r' ≠ job_PlanID r) →
    db' = db <| job_history_retention := None |> <| jobs := delete (ret_JobID row) (jobs db) |>
             <| operation_plans := delete (job_PlanID r) (operation_plans db) |> →
    retained now policy db db'.

Lemma no_rows_ok {V} (job : string) (m : gmap (string * Z) V) :
  no_rows job m = true → ∀ k : string * Z, k.1 = job → m !! k = None.
Proof.
  unfold no_rows. intros Hn%bool_decide_eq_true k Hk. destruct (m !! k) as [v|] eqn:E; [|done].
  assert ((k, v) ∈ rows_of job m) as Hin by by apply rows_of_elem.
  rewrite Hn in Hin. by apply elem_of_nil in Hin.
Qed.
Lemma retention_tx_ok now policy db step db' :
  retention_tx now policy db = Ok (step, db') → retained now policy db db'.
Proof.
  unfold retention_tx. intros E. apply tx_bind_ok in E as (db0 & db1 & [= <- <-] & E).
  unfold loadHistoryRetentionClaim in E. destruct (job_history_retention db) as [row|] eqn:Eret.
  2: { destruct (selectHistoryRetentionCandidate now policy db) as [job|] eqn:Ec; tx; [|by constructor].
       eapply claimed; [done|by apply select_candidate|done]. }
  destruct (negb _); [discriminate E|].
  destruct (ParseJobID _); cbn [parsed mbind result_bind] in E; [|discriminate E].
  unfold validateClaimedHistoryJob in E. destruct (is_terminal _ db) eqn:Et; cbn [negb] in E; [|discriminate E].
  destruct (referenced _ db) eqn:Er; [discriminate E|].
  destruct (list_find _ _) as [[i [changed db2]]|] eqn:Ef; tx.
  { eapply trims; [done..|]. apply list_find_Some in Ef as (Hin & _). eapply child_trimmed, list_elem_of_lookup_2, Hin. }
  unfold forget_job in E. tx. destruct (jobs db !! ret_JobID row) as [r|] eqn:Ejob; tx.
  match goal with Hd : delete_job _ _ = Ok _, Hp : delete_plan _ _ = Ok _ |- _ => rename Hd into Edel, Hp into Eplan end.
  unfold delete_job in Edel. destruct (negb _) in Edel; [done|]. apply constraint_ok in Edel as [Hc ->].
  unfold delete_plan in Eplan. destruct (operation_plans _ !! _) in Eplan; [|done]. apply constraint_ok in Eplan as [Hu ->].
  rewrite !andb_true_iff in Hc. destruct Hc as [[[[Hs Hcf] He] Hd] _]. cbn in Hs, Hcf, He, Hd.
  eapply forgets; [done|done| |done| | | |done].
  - unfold is_terminal in Et. by rewrite Ejob in Et.
  - intros k Hk. split_and!; by eapply no_rows_ok.
  - intros k d Hd' Hj. apply bool_decide_eq_true in Hd. assert (k ∈ dedup_of (ret_JobID row) db) as Hin
      by (apply dedup_of_elem; by exists d). unfold dedup_of in *. cbn in Hd. rewrite Hd in Hin. by apply elem_of_nil in Hin.
  - intros j r' Hne Hj. rewrite unique_ok in Hu. apply (Hu j). cbn. by rewrite lookup_delete_ne.
Qed.

(** * Steps

    One call, or one transaction of a call of several; or another store changes
    its own tables. *)
Inductive store_step db : DB T → Prop :=
| step_Create f request : store_step db (Create f request db).1
| step_OpenConflict f request : store_step db (OpenConflict f request db).1
| step_ResolveConflict f request : store_step db (ResolveConflict f request db).1
| step_Transition earlier f request : store_step db (Transition earlier f request db).1
| step_UpdateControl f request : store_step db (UpdateControl f request db).1
| step_SaveCheckpoint f request : store_step db (SaveCheckpoint f request db).1
| step_recover f job event now : store_step db (immediate f (recover_tx job event now) db).1
| step_retention f now policy : store_step db (immediate f (retention_tx now policy) db).1
| step_others db' : own db' = own db → store_step db db'.

(** The same, by what has changed. *)
Inductive changed db db' : Prop :=
| ch_nothing : own db' = own db → changed db db'
| ch_created request payload :
    validateCreate request payload = Ok tt → created db request payload db' → changed db db'
| ch_moved job r r' e : moved db job r r' e db' → changed db db'
| ch_saved request : saved db request db' → changed db db'
| ch_retained now policy : retained now policy db db' → changed db db'.

Lemma immediate_changed {A} f (m : Tx T A) db :
  (∀ a db', m db = Ok (a, db') → changed db db') → changed db (immediate f m db).1.
Proof.
  intros Hm. destruct (immediate_ok f m db) as [[-> _]|(a & E & _)]; [by apply ch_nothing|by eapply Hm].
Qed.
Lemma store_step_changed db db' : store_step db db' → changed db db'.
Proof.
  intros [f request|f request|f request|earlier f request|f request|f request|f job event now|f now policy|db1 Hown];
    [..|by apply ch_nothing].
  - unfold Create. cbv zeta. destruct (validateCreate _ _) as [[]|] eqn:Hv; [|by apply ch_nothing]. apply immediate_changed.
    intros [s [|]] db1 E%create_tx_ok; [destruct E as [-> _]; by apply ch_nothing|].
    destruct E as [E _]. by eapply ch_created.
  - unfold OpenConflict. destruct (validateOpenConflict _); [|by apply ch_nothing]. apply immediate_changed.
    intros result db1 (r & r' & e & _ & _ & _ & E)%open_conflict_moved. by eapply ch_moved.
  - unfold ResolveConflict. destruct (validateResolveConflict _); [|by apply ch_nothing]. apply immediate_changed.
    intros result db1 (r & r' & e & _ & _ & _ & E)%resolve_conflict_moved. by eapply ch_moved.
  - unfold Transition. destruct (validateTransitionRequest _); [|by apply ch_nothing]. apply immediate_changed.
    intros [s [|]] db1 E%transition_moved; [destruct E as [-> _]; by apply ch_nothing|].
    destruct E as (_ & r & r' & _ & _ & E). by eapply ch_moved.
  - unfold UpdateControl. destruct (validateControlRequest _); [|by apply ch_nothing]. apply immediate_changed.
    intros [s [|]] db1 E%control_moved; [destruct E as [-> _]; by apply ch_nothing|].
    destruct E as (_ & r & r' & e & _ & _ & _ & E). by eapply ch_moved.
  - unfold SaveCheckpoint. destruct (validateCheckpoint _); [|by apply ch_nothing]. apply immediate_changed.
    intros u db1 E%statement_ok%save_row_ok. by eapply ch_saved.
  - apply immediate_changed. intros [|] db1 E%recover_moved; [|destruct E as [-> _]; by apply ch_nothing].
    destruct E as (r & e & _ & _ & E). by eapply ch_moved.
  - apply immediate_changed. intros step db1 E%retention_tx_ok. by eapply ch_retained.
Qed.
End Runs.
