(* ===== verification/JobStoreTheorems.v ===== *)
(** What the store of jobs promises: a log without gaps, legal histories,
    requests that take effect once, checkpoints that only advance, recovery, and
    retention that forgets only what may be forgotten. *)
From S2P Require Import Prelude Job Domain DirectProtocol PlanRecord JobTables JobStore JobRetention.
From S2P Require Import JobStoreFacts JobRuns.

Section Invariant.
Context {T : Type} `{Texts T}.
Implicit Types (db : DB T).

Definition is_claimed db (job : string) : Prop :=
  ∃ c, job_history_retention db = Some c ∧ ret_JobID c = job.
#[export] Instance is_claimed_dec db job : Decision (is_claimed db job).
Proof.
  unfold is_claimed. destruct (job_history_retention db) as [c|].
  - destruct (decide (ret_JobID c = job)); [left; eauto|right; naive_solver].
  - right. naive_solver.
Defined.

Record consistent db : Prop := {
  con_job : ∀ j r, jobs db !! j = Some r → check_job r = true ∧
    job_NextEventSequence r = job_StateVersion r + 1 ∧ is_Some (operation_plans db !! job_PlanID r);
  con_log : ∀ j r, jobs db !! j = Some r → ¬ is_claimed db j →
    ∀ n, 1 ≤ n ≤ job_StateVersion r → is_Some (job_events db !! (j, n));
  con_events : ∀ k e, job_events db !! k = Some e →
    ∃ r, jobs db !! k.1 = Some r ∧ 1 ≤ k.2 ≤ job_StateVersion r;
  con_ids : ∀ k1 k2 e1 e2, job_events db !! k1 = Some e1 → job_events db !! k2 = Some e2 →
    ev_EventID e1 = ev_EventID e2 → k1 = k2;
  con_claim : ∀ j, is_claimed db j → is_terminal j db = true;
  con_dedup : ∀ k d, request_dedup db !! k = Some d → ∃ job r, dd_Operation d = "create_job" ∧
    dd_JobID d = Some job ∧ dd_Response d = text_response job ∧ is_ok (ParseJobID job) = true ∧
    jobs db !! job = Some r;
}.

Lemma consistent_own db db' : own db' = own db → consistent db → consistent db'.
Proof.
  unfold own. intros [= E1 E2 E3 E4 E5 E6 E7 E8] [].
  split; unfold is_claimed, is_terminal in *; rewrite ?E1, ?E2, ?E6, ?E7, ?E8; done.
Qed.
Lemma consistent_created db request payload db' :
  validateCreate request payload = Ok tt → created db request payload db' → consistent db → consistent db'.
Proof.
  intros Hv [Hnr Hnj Hnp Hck Hps Hjs Hes Hf Hid Hdd Hcp Hret Hoth] [C1 C2 C3 C4 C5 C6].
  assert (is_claimed db' = is_claimed db) as Hcl by (unfold is_claimed; by rewrite Hret).
  split; rewrite ?Hcl.
  - intros j r. rewrite Hjs, Hps, lookup_insert_Some. intros [[<- <-]|[Hne Hj]].
    + split_and!; [done|done|]. cbn. rewrite lookup_insert_eq. by eexists.
    + destruct (C1 j r Hj) as (? & ? & ?). split_and!; [done..|]. apply lookup_insert_is_Some. 
      destruct (decide (create_PlanID request = job_PlanID r)); auto.
  - intros j r. rewrite Hjs, Hes, lookup_insert_Some. intros [[<- <-]|[Hne Hj]] Hnc n Hn.
    + cbn in Hn. replace n with 1 by lia. rewrite lookup_insert_eq. by eexists.
    + rewrite lookup_insert_ne by congruence. by eapply C2.
  - intros k e. rewrite Hes, Hjs, lookup_insert_Some. intros [[<- <-]|[Hne He]].
    + cbn. exists (new_job request). by rewrite lookup_insert_eq.
    + destruct (C3 k e He) as (r & Hr & Hk). exists r. split; [|done].
      rewrite lookup_insert_ne; [done|]. intros E. rewrite <-E, Hnj in Hr. done.
  - intros k1 k2 e1 e2. rewrite Hes, !lookup_insert_Some.
    intros [[<- <-]|[Hn1 H1]] [[<- <-]|[Hn2 H2]] Heq; [done| | |by eapply C4].
    + by destruct (Hid _ _ H2).
    + by destruct (Hid _ _ H1).
  - intros j Hc. specialize (C5 j Hc). unfold is_terminal in *. rewrite Hjs.
    destruct (decide (create_JobID request = j)) as [<-|]; [by rewrite Hnj in C5|by rewrite lookup_insert_ne].
  - intros k d. rewrite Hdd, Hjs, lookup_insert_Some. intros [[<- <-]|[Hne Hd]].
    + exists (create_JobID request), (new_job request). cbn. rewrite lookup_insert_eq. split_and!; try done.
      unfold validateCreate in Hv. destruct (negb _) in Hv; [done|]. apply bind_ok in Hv as (? & _ & Hv).
      apply bind_ok in Hv as (? & Hp & _). by destruct (ParseJobID (create_JobID request)).
    + destruct (C6 k d Hd) as (job & r & ? & ? & ? & ? & Hr). exists job, r. split_and!; try done.
      rewrite lookup_insert_ne; [done|]. by intros <-; rewrite Hnj in Hr.
Qed.
Lemma consistent_moved db job r r' e db' :
  moved db job r r' e db' → consistent db → consistent db'.
Proof.
  intros [Hr Hjs Hes Hf Hid Hv Hs Hck Hp [Hnt _] Hps Hcp Hdd Hret _ _] [C1 C2 C3 C4 C5 C6].
  assert (is_claimed db' = is_claimed db) as Hcl by (unfold is_claimed; by rewrite Hret).
  destruct (C1 job r Hr) as (Hk1 & Hn1 & Hp1).
  assert (1 ≤ job_StateVersion r) as Hpos.
  { unfold check_job in Hk1. rewrite !andb_true_iff in Hk1. lia. }
  split; rewrite ?Hcl.
  - intros j r1. rewrite Hjs, Hps, lookup_insert_Some. intros [[<- <-]|[Hne Hj]]; [|by apply C1 in Hj].
    split_and!; [done|lia|by rewrite Hp].
  - intros j r1. rewrite Hjs, Hes, lookup_insert_Some. intros [[<- <-]|[Hne Hj]] Hnc n Hn.
    + destruct (decide (n = job_NextEventSequence r)) as [->|].
      * rewrite lookup_insert_eq. by eexists.
      * rewrite lookup_insert_ne by congruence. apply (C2 job r); [done|done|lia].
    + rewrite lookup_insert_ne by congruence. by eapply C2.
  - intros k e1. rewrite Hes, Hjs, lookup_insert_Some. intros [[<- <-]|[Hne He]].
    + cbn. exists r'. rewrite lookup_insert_eq. split; [done|lia].
    + destruct (C3 k e1 He) as (r1 & Hr1 & Hk). destruct (decide (job = k.1)) as [->|].
      * exists r'. rewrite lookup_insert_eq. split; [done|]. rewrite Hr in Hr1. injection Hr1 as <-. lia.
      * exists r1. by rewrite lookup_insert_ne.
  - intros k1 k2 e1 e2. rewrite Hes, !lookup_insert_Some.
    intros [[<- <-]|[Hn2 H1]] [[<- <-]|[Hn3 H2]] Heq; [done| | |by eapply C4].
    + by destruct (Hid _ _ H2).
    + by destruct (Hid _ _ H1).
  - intros j Hc. specialize (C5 j Hc). unfold is_terminal in *. rewrite Hjs.
    destruct (decide (job = j)) as [<-|]; [by rewrite Hr, Hnt in C5|by rewrite lookup_insert_ne].
  - intros k d. rewrite Hdd, Hjs. intros (job1 & r1 & ? & ? & ? & ? & Hr1)%C6. exists job1.
    destruct (decide (job = job1)) as [->|].
    + exists r'. rewrite lookup_insert_eq. by split_and!.
    + exists r1. rewrite lookup_insert_ne by done. by split_and!.
Qed.
Lemma consistent_saved db request db' : saved db request db' → consistent db → consistent db'.
Proof. intros [-> _ _] [C1 C2 C3 C4 C5 C6]. by split. Qed.
Lemma consistent_retained now policy db db' : retained now policy db db' → consistent db → consistent db'.
Proof.
  intros [-> |job Hn [Hrow Hfree] -> |c Hc Ht Hfree Htm|c r Hc Hr Ht Hfree Hrows Hdd Hun ->] Hcon; [done|..];
    destruct Hcon as [C1 C2 C3 C4 C5 C6].
  - split; try done; cbn.
    + intros j r Hj Hnc. apply (C2 j r Hj). intros (c & Hc & _). by rewrite Hn in Hc.
    + intros j (c & [= <-] & <-). cbn. destruct Hrow as (r & Hr & Ht & _). unfold is_terminal. cbn. by rewrite Hr.
  - destruct Htm as [Hp Hj Hret Hs Hcp Hcf [Hsub He] [Hds Hd] _].
    assert (is_claimed db' = is_claimed db) as Hcl by (unfold is_claimed; by rewrite Hret).
    split; rewrite ?Hcl, ?Hp, ?Hj.
    + done.
    + intros j r Hjr Hnc n Hn. rewrite He; [by eapply C2|]. cbn. intros ->. apply Hnc. by exists c.
    + intros k e Hk. apply C3 with e. by eapply lookup_weaken.
    + intros k1 k2 e1 e2 H1 H2. apply C4; by eapply lookup_weaken.
    + intros j Hcj. apply C5 in Hcj. unfold is_terminal in *. by rewrite Hj.
    + intros k d Hk. apply C6 with k. by eapply lookup_weaken.
  - split; cbn.
    + intros j r1. rewrite lookup_delete_Some. intros [Hne Hj]. destruct (C1 j r1 Hj) as (? & ? & ?).
      split_and!; [done..|]. rewrite lookup_delete_ne; [done|]. intros E. by eapply Hun; [| |symmetry].
    + intros j r1. rewrite lookup_delete_Some. intros [Hne Hj] Hnc. apply (C2 j r1 Hj).
      intros (c' & Hc' & <-). rewrite Hc in Hc'. by injection Hc' as <-.
    + intros k e Hk. destruct (C3 k e Hk) as (r1 & Hr1 & Hv). exists r1. split; [|done].
      rewrite lookup_delete_ne; [done|]. intros E. destruct (Hrows k (eq_sym E)) as (_ & _ & Hnone). by rewrite Hk in Hnone.
    + exact C4.
    + by intros j (c' & Hc' & _).
    + intros k d Hk. destruct (C6 k d Hk) as (job & r1 & ? & Hjob & ? & ? & Hr1). exists job, r1.
      split_and!; try done. rewrite lookup_delete_ne; [done|]. intros <-. by destruct (Hdd k d Hk).
Qed.
Lemma consistent_step db db' : store_step db db' → consistent db → consistent db'.
Proof.
  intros [Hown|request payload Hv Hc|job r r' e Hm|request Hs|now policy Hr]%store_step_changed;
    eauto using consistent_own, consistent_created, consistent_moved, consistent_saved, consistent_retained.
Qed.
Lemma consistent_run db db' : rtc store_step db db' → consistent db → consistent db'.
Proof. induction 1; eauto using consistent_step. Qed.
End Invariant.

(** * Histories *)
Section Histories.
Context {T : Type} `{Texts T}.
Implicit Types (db : DB T).

Definition blank : DB T := mkDB ∅ ∅ ∅ ∅ ∅ ∅ ∅ None ∅ ∅ ∅ ∅ ∅ ∅ ∅.
Definition reachable db : Prop := rtc store_step blank db.
Lemma reachable_consistent db : reachable db → consistent db.
Proof.
  intros Hr. apply (consistent_run blank); [done|].
  split; cbn; intros *; rewrite ?lookup_empty; try done. by intros (c & ? & _).
Qed.

(** C12: The log of a job has no gaps: in every state of the store, unless the job
    is being forgotten, its events are numbered from 1 to its version, one per
    change; no two events have the same identifier; a summary is there exactly in
    the terminal states, a retry time exactly in retry_wait. *)
Theorem job_log_gapless db job r :
  reachable db → jobs db !! job = Some r → ¬ is_claimed db job →
  (∀ n, is_Some (job_events db !! (job, n)) ↔ 1 ≤ n ≤ job_StateVersion r) ∧
  job_NextEventSequence r = job_StateVersion r + 1 ∧
  (∀ n k e e', job_events db !! (job, n) = Some e → job_events db !! k = Some e' →
     ev_EventID e' = ev_EventID e → k = (job, n)) ∧
  (is_Some (job_TerminalSummary r) ↔ State_Terminal (job_State r) = true) ∧
  (is_Some (job_RetryAt r) ↔ job_State r = StateRetryWait).
Proof.
  intros [C1 C2 C3 C4 _ _]%reachable_consistent Hr Hnc. destruct (C1 job r Hr) as (Hck & Hs & _). split_and!.
  - intros n. split; [|by apply (C2 job r)]. intros [e He]. destruct (C3 _ e He) as (r1 & Hr1 & Hn). cbn in *.
    rewrite Hr in Hr1. by injection Hr1 as <-.
  - done.
  - intros n k e e' He He' Heq. exact (C4 _ _ _ _ He' He Heq).
  - unfold check_job in Hck. rewrite !andb_true_iff in Hck. destruct Hck as [[_ Ht] _].
    apply Bool.eqb_prop in Ht. rewrite Ht. by rewrite bool_decide_eq_true.
  - unfold check_job in Hck. rewrite !andb_true_iff in Hck. destruct Hck as [_ Ht].
    apply Bool.eqb_prop in Ht. rewrite <-String.eqb_eq, Ht. by rewrite bool_decide_eq_true.
Qed.

(** What a step does to a job that is there. *)
Lemma store_step_row db db' job r :
  reachable db → store_step db db' → jobs db !! job = Some r →
  (jobs db' !! job = Some r ∨
   (∃ r', jobs db' !! job = Some r' ∧ State_Terminal (job_State r) = false ∧
      job_StateVersion r' = job_StateVersion r + 1 ∧ job_PlanID r' = job_PlanID r ∧
      (job_State r' = job_State r ∨ CanTransition (job_State r) (job_State r') = true)) ∨
   jobs db' !! job = None ∧ is_claimed db job ∧ State_Terminal (job_State r) = true) ∧
  (∀ n e, job_events db !! (job, n) = Some e → job_events db' !! (job, n) = Some e ∨
     is_claimed db job ∧ State_Terminal (job_State r) = true).
Proof.
  intros Hcon%reachable_consistent Hstep Hr. pose proof (con_claim _ Hcon job) as Hcl. unfold is_terminal in Hcl.
  rewrite Hr in Hcl.
  apply store_step_changed in Hstep as [Hown|request payload _ Hc|job1 r1 r' e1 Hm|request Hs|now policy Hret].
  - unfold own in Hown. injection Hown as E1 E2 E3 E4 E5 E6 E7 E8. rewrite E2, E6. auto.
  - destruct Hc as [_ Hnj _ _ _ Hjs Hes Hf _ _ _ _ _]. rewrite Hjs, Hes. split.
    + left. rewrite lookup_insert_ne; [done|]. by intros <-; rewrite Hnj in Hr.
    + intros n e He. left. rewrite lookup_insert_ne; [done|]. by intros [= <- <-]; rewrite Hf in He.
  - destruct Hm as [Hr1 Hjs Hes Hf _ Hv _ _ Hp [Hnt Hl] _ _ _ _ _ _]. rewrite Hjs, Hes. split.
    + destruct (decide (job1 = job)) as [->|]; [|left; by rewrite lookup_insert_ne].
      rewrite Hr in Hr1. injection Hr1 as <-. right; left. exists r'. by rewrite lookup_insert_eq.
    + intros n e He. left. rewrite lookup_insert_ne; [done|]. by intros [= <- <-]; rewrite Hf in He.
  - destruct Hs as [-> _ _]. cbn. auto.
  - destruct Hret as [-> |job1 _ _ -> |c Hc Ht _ Htm|c r1 Hc Hr1 Ht _ Hrows _ _ ->]; cbn; [by auto..| |].
    + destruct Htm as [_ -> _ _ _ _ [_ He] _ _]. split; [by left|]. intros n e Hne.
      destruct (decide (job = ret_JobID c)) as [->|Hne']; [right|left; by rewrite He].
      split; [by exists c|]. apply Hcl. by exists c.
    + split; [|by auto]. destruct (decide (ret_JobID c = job)) as [<-|Hne]; [|left; by rewrite lookup_delete_ne].
      right; right. rewrite lookup_delete_eq. split_and!; [done|by exists c|]. apply Hcl. by exists c.
Qed.

(** A checkpoint only advances: no step takes back the offset or the time of a
    saved checkpoint, or changes the source it is of. *)
Lemma checkpoint_advances db db' k c :
  store_step db db' → job_checkpoints db !! k = Some c →
  (∃ c', job_checkpoints db' !! k = Some c' ∧ ck_VerifiedOffset c ≤ ck_VerifiedOffset c' ∧
     ck_UpdatedAt c ≤ ck_UpdatedAt c' ∧ ck_SourceFingerprint c' = ck_SourceFingerprint c) ∨
  job_checkpoints db' !! k = None ∧ is_claimed db k.1.
Proof.
  assert (∃ c', Some c = Some c' ∧ ck_VerifiedOffset c ≤ ck_VerifiedOffset c' ∧
     ck_UpdatedAt c ≤ ck_UpdatedAt c' ∧ ck_SourceFingerprint c' = ck_SourceFingerprint c) as Hsame.
  { exists c. split_and!; done || lia. }
  intros Hstep Hk.
  apply store_step_changed in Hstep as [Hown|request payload _ Hc|job1 r1 r' e1 Hm|request Hs|now policy Hret].
  - unfold own in Hown. injection Hown as E1 E2 E3 E4 E5 E6 E7 E8. rewrite E4, Hk. auto.
  - rewrite (ct_checkpoints _ _ _ _ Hc), Hk. auto.
  - rewrite (mv_checkpoints _ _ _ _ _ _ Hm), Hk. auto.
  - destruct Hs as [_ Hrow Hmono]. rewrite Hrow. left.
    destruct (decide ((cq_JobID request, cq_StepIndex request) = k)) as [<-|]; [|by rewrite lookup_insert_ne, Hk].
    eexists. rewrite lookup_insert_eq. split; [done|]. cbn. by destruct (Hmono c Hk) as (? & ? & ?).
  - destruct Hret as [-> |job1 _ _ -> |row Hc Ht _ Htm|row r1 Hc Hr1 Ht _ Hrows _ _ ->]; cbn; rewrite ?Hk; auto.
    destruct Htm as [_ _ _ _ [Hsub Hcp] _ _ _ _].
    destruct (decide (k.1 = ret_JobID row)) as [E|]; [|rewrite Hcp by done; rewrite Hk; auto].
    destruct (job_checkpoints db' !! k) as [c'|] eqn:Ek; [|right; split; [done|by exists row]].
    eapply lookup_weaken in Ek; [|exact Hsub]. rewrite Hk in Ek. injection Ek as <-. auto.
Qed.

(** C11: Every step of the store is legal: a job that is there keeps its row, or
    moves on by one version along the table of transitions from a state that is
    not terminal; its events stay as they are; and only a terminal job that was
    claimed for retention is removed, or loses events.  A checkpoint only advances:
    no step takes back the offset or the time of a saved checkpoint, changes the
    source it is of, or removes it but with the history of a claimed job. *)
Theorem store_step_legal db db' :
  store_step db db' →
  (∀ job r, reachable db → jobs db !! job = Some r →
     (jobs db' !! job = Some r ∨
      (∃ r', jobs db' !! job = Some r' ∧ State_Terminal (job_State r) = false ∧
         job_StateVersion r' = job_StateVersion r + 1 ∧ job_PlanID r' = job_PlanID r ∧
         (job_State r' = job_State r ∨ CanTransition (job_State r) (job_State r') = true)) ∨
      jobs db' !! job = None ∧ is_claimed db job ∧ State_Terminal (job_State r) = true) ∧
     (∀ n e, job_events db !! (job, n) = Some e → job_events db' !! (job, n) = Some e ∨
        is_claimed db job ∧ State_Terminal (job_State r) = true)) ∧
  (∀ k c, job_checkpoints db !! k = Some c →
     (∃ c', job_checkpoints db' !! k = Some c' ∧ ck_VerifiedOffset c ≤ ck_VerifiedOffset c' ∧
        ck_UpdatedAt c ≤ ck_UpdatedAt c' ∧ ck_SourceFingerprint c' = ck_SourceFingerprint c) ∨
     job_checkpoints db' !! k = None ∧ is_claimed db k.1).
Proof.
  intros Hstep. split.
  - intros job r Hreach Hr. by apply store_step_row.
  - intros k c Hk. by apply (checkpoint_advances _ _ _ _ Hstep).
Qed.
End Histories.
