(* ===== verification/JobRequests.v ===== *)
(** Requests that are made again: a creation or a transition takes effect once,
    however often it is sent and whatever was reported of it; and the completion
    of a sync-back is one with that of its edit session. *)
From S2P Require Import Prelude Job Domain DirectProtocol PlanRecord JobTables JobStore JobRetention.
From S2P Require Import JobStoreFacts JobRuns JobStoreTheorems.

Section Requests.
Context {T : Type} `{Texts T}.
Implicit Types (db : DB T).

(** A run during which the job is not being forgotten. *)
Definition unforgotten (job : string) : relation (DB T) :=
  rtc (λ a b, store_step a b ∧ ¬ is_claimed a job).

Lemma retained_unclaimed now policy job db db' :
  retained now policy db db' → ¬ is_claimed db job →
  (∀ r, jobs db !! job = Some r → jobs db' !! job = Some r) ∧
  (∀ n e, job_events db !! (job, n) = Some e → job_events db' !! (job, n) = Some e) ∧
  (∀ k d, request_dedup db !! k = Some d → dd_JobID d = Some job → request_dedup db' !! k = Some d).
Proof.
  intros [-> |job1 _ _ -> |row Hc Ht _ Htm|row r1 Hc Hr1 Ht _ Hrows _ _ ->] Hnc; cbn; [done|done|..].
  - assert (ret_JobID row ≠ job) as Hne by (intros <-; apply Hnc; by exists row).
    destruct Htm as [_ -> _ _ _ _ [_ He] [_ Hd] _]. split_and!; [done|..].
    + intros n e Hn. by rewrite He.
    + intros k d Hk Hj. apply Hd; [done|]. congruence.
  - assert (ret_JobID row ≠ job) as Hne by (intros <-; apply Hnc; by exists row).
    split_and!; [|done|done]. intros r Hr. by rewrite lookup_delete_ne.
Qed.
Lemma step_kept job db db' :
  consistent db → store_step db db' → ¬ is_claimed db job →
  (is_Some (jobs db !! job) → is_Some (jobs db' !! job)) ∧
  (∀ n e, job_events db !! (job, n) = Some e → job_events db' !! (job, n) = Some e) ∧
  (∀ k d, request_dedup db !! k = Some d → dd_JobID d = Some job → request_dedup db' !! k = Some d).
Proof.
  intros Hcon [Hown|request payload _ Hc|job1 r1 r' e1 Hm|request Hs|now policy Hret]%store_step_changed Hnc.
  - unfold own in Hown. injection Hown as E1 E2 E3 E4 E5 E6 E7 E8. by rewrite E2, E6, E7.
  - destruct Hc as [Hnr Hnj _ _ _ Hjs Hes Hf _ Hdd _ _ _]. rewrite Hjs, Hes, Hdd. split_and!.
    + intros Hj. rewrite lookup_insert_is_Some. destruct (decide (create_JobID request = job)); auto.
    + intros n e He. rewrite lookup_insert_ne; [done|]. by intros [= <- <-]; rewrite Hf in He.
    + intros k d Hk _. rewrite lookup_insert_ne; [done|]. by intros <-; rewrite Hnr in Hk.
  - destruct Hm as [Hr1 Hjs Hes Hf _ _ _ _ _ _ _ _ Hdd _ _ _]. rewrite Hjs, Hes, Hdd. split_and!; [..|done].
    + intros Hj. rewrite lookup_insert_is_Some. destruct (decide (job1 = job)); auto.
    + intros n e He. rewrite lookup_insert_ne; [done|]. by intros [= <- <-]; rewrite Hf in He.
  - destruct Hs as [-> _ _]. by split_and!.
  - destruct (retained_unclaimed _ _ job _ _ Hret Hnc) as (Hj & He & Hd). split_and!; [|done..].
    intros [r Hr]. exists r. by apply Hj.
Qed.
Lemma unforgotten_kept job db db' :
  unforgotten job db db' → consistent db →
  consistent db' ∧ (is_Some (jobs db !! job) → is_Some (jobs db' !! job)) ∧
  (∀ n e, job_events db !! (job, n) = Some e → job_events db' !! (job, n) = Some e) ∧
  (∀ k d, request_dedup db !! k = Some d → dd_JobID d = Some job → request_dedup db' !! k = Some d).
Proof.
  induction 1 as [|db1 db2 db3 [Hstep Hnc] _ IH]; intros Hcon; [done|].
  destruct (step_kept _ _ _ Hcon Hstep Hnc) as (Hj & He & Hd).
  destruct IH as (? & Hj' & He' & Hd'); [by eapply consistent_step|]. split_and!; eauto.
Qed.

(** ** The plan of a job *)
Lemma GetPlan_ok job db p :
  GetPlan job db = Ok p ↔ is_ok (ParseJobID job) = true ∧
    ∃ r, jobs db !! job = Some r ∧ operation_plans db !! job_PlanID r = Some p.
Proof.
  unfold GetPlan, parsed. destruct (ParseJobID job); cbn [is_ok mbind result_bind refused]; [|by split; [|intros []] ].
  destruct (jobs db !! job) as [r|]; cbn; [|by split; [|intros (_ & ? & ? & _)] ].
  destruct (operation_plans db !! job_PlanID r) eqn:E; split.
  - intros [= <-]. eauto.
  - intros (_ & ? & [= <-] & Hp). congruence.
  - done.
  - intros (_ & ? & [= <-] & Hp). congruence.
Qed.
Lemma plan_kept job db db' p :
  store_step db db' → ¬ is_claimed db job → GetPlan job db = Ok p → GetPlan job db' = Ok p.
Proof.
  rewrite !GetPlan_ok. intros Hstep Hnc (Hp & r & Hr & Hplan). split; [done|].
  apply store_step_changed in Hstep as [Hown|request payload _ Hc|job1 r1 r' e1 Hm|request Hs|now policy Hret].
  - unfold own in Hown. injection Hown as E1 E2 _ _ _ _ _ _. exists r. by rewrite E1, E2.
  - destruct Hc as [_ Hnj Hnp _ Hps Hjs _ _ _ _ _ _ _]. exists r. rewrite Hjs, Hps.
    split; (rewrite lookup_insert_ne; [done|]); [by intros <-; rewrite Hnj in Hr|].
    intros E. by rewrite <-E, Hnp in Hplan.
  - destruct Hm as [Hr1 Hjs _ _ _ _ _ _ Hid _ Hps _ _ _ _ _]. rewrite Hps.
    destruct (decide (job1 = job)) as [->|]; [|exists r; by rewrite Hjs, lookup_insert_ne].
    exists r'. rewrite Hjs, lookup_insert_eq, Hid. split; [done|]. rewrite Hr in Hr1. by injection Hr1 as <-.
  - destruct Hs as [-> _ _]. by exists r.
  - destruct Hret as [-> |job1 _ _ -> |row Hc Ht _ Htm|row r1 Hc Hr1 Ht _ _ _ Hun -> ]; cbn; [by eauto|by eauto| | ].
    + destruct Htm as [-> -> _ _ _ _ _ _ _]. by eauto.
    + assert (ret_JobID row ≠ job) as Hne by (intros <-; apply Hnc; by exists row).
      exists r. rewrite !lookup_delete_ne; [done| |done]. intros E. by apply (Hun job r).
Qed.
Lemma created_read f request db :
  (Create f request db).1 ≠ db → GetPlan (create_JobID request) (Create f request db).1 = Ok (plan_row request).
Proof.
  unfold Create. cbv zeta. destruct (validateCreate _ _) as [[]|] eqn:Hv; [|done]. intros Heff.
  destruct (immediate_ok f (create_tx request (default text_object (create_EventPayloadJSON request))) db)
    as [[E _]|([s duplicate] & E & _)]; [by rewrite E in Heff|].
  apply create_tx_ok in E. destruct duplicate; [by destruct E as [E _]; rewrite E in Heff|].
  destruct E as [[_ _ _ _ Hps Hjs _ _ _ _ _ _ _] _]. apply GetPlan_ok. split.
  - unfold validateCreate in Hv. destruct (negb _) in Hv; [done|]. apply bind_ok in Hv as (? & _ & Hv).
    apply bind_ok in Hv as (? & Hp & _). by destruct (ParseJobID (create_JobID request)).
  - exists (new_job request). rewrite Hjs, Hps, !lookup_insert_eq. done.
Qed.
(** What was asked for is what is read: the plan of a job that was created stays
    as it was, until the job is forgotten. *)
Lemma created_plan_read f request db db2 :
  (Create f request db).1 ≠ db → unforgotten (create_JobID request) (Create f request db).1 db2 →
  GetPlan (create_JobID request) db2 = Ok (plan_row request).
Proof.
  intros Heff Hrun. apply created_read in Heff. revert Heff.
  induction Hrun as [|db1 db2 db3 [Hstep Hnc] _ IH]; [done|]. intros Hp. by eapply IH, plan_kept.
Qed.

(** C14: A job is created once: when a creation has taken effect, whatever was
    reported of it, every later creation with the same request identifier, until
    the job is forgotten, changes nothing and, when it is committed, answers with
    the job as it is then. *)
Theorem create_exactly_once `{!TextsLaws T} f request db db2 request' :
  let job := create_JobID request in
  reachable db → (Create f request db).1 ≠ db →
  unforgotten job (Create f request db).1 db2 →
  create_RequestID request' = create_RequestID request →
  validateCreate request' (default text_object (create_EventPayloadJSON request')) = Ok tt →
  (∀ f', (Create f' request' db2).1 = db2) ∧
  ∃ r, jobs db2 !! job = Some r ∧ (Create Committed request' db2).2 = Ok (snapshot_of job r, true).
Proof.
  intros job Hr%reachable_consistent Heff Hrun Hid Hv'.
  assert (consistent (Create f request db).1) as Hcon1 by (eapply consistent_step; [constructor|done]).
  assert (∃ d, request_dedup (Create f request db).1 !! create_RequestID request = Some d ∧ dd_JobID d = Some job)
    as (d & Hd & Hdj).
  { unfold Create in Heff |- *. cbv zeta in Heff |- *. destruct (validateCreate _ _) as [[]|]; [|done].
    destruct (immediate_ok f (create_tx request (default text_object (create_EventPayloadJSON request))) db)
      as [[E _]|([s duplicate] & E & _)]; [by rewrite E in Heff|].
    apply create_tx_ok in E. destruct duplicate; [by destruct E as [E _]; rewrite E in Heff|].
    destruct E as [Hc _]. rewrite (ct_dedup _ _ _ _ Hc), lookup_insert_eq. eauto. }
  destruct (unforgotten_kept _ _ _ Hrun Hcon1) as (Hcon2 & _ & _ & Hdd). specialize (Hdd _ _ Hd Hdj).
  destruct (con_dedup _ Hcon2 _ _ Hdd) as (job' & r & Hop & Hj' & Hresp & Hparse & Hrow).
  rewrite Hdj in Hj'. injection Hj' as <-.
  assert (create_tx request' (default text_object (create_EventPayloadJSON request')) db2 =
    Ok ((snapshot_of job r, true), db2)) as Etx.
  { unfold create_tx. cbv zeta. apply tx_bind_ok. exists (Some d), db2. split.
    { apply look_ok. by rewrite Hid, Hdd. }
    cbn. rewrite Hop, Hresp, response_read by done. apply tx_bind_ok. exists tt, db2. split; [done|].
    apply tx_bind_ok. exists (snapshot_of job r), db2. split; [|done]. apply getSnapshot_ok. eauto. }
  split.
  - intros f'. unfold Create. cbv zeta. rewrite Hv'. unfold immediate. rewrite Etx. by destruct f'.
  - exists r. split; [done|]. unfold Create. cbv zeta. rewrite Hv'. unfold immediate. by rewrite Etx.
Qed.

Lemma find_event_known db k e :
  consistent db → job_events db !! k = Some e → find_event (ev_EventID e) db = Some (k, e).
Proof.
  intros Hcon Hk. unfold find_event.
  assert ((k, e) ∈ filter (λ '(_, r), ev_EventID r = ev_EventID e) (map_to_list (job_events db))) as Hin.
  { apply list_elem_of_filter. split; [done|]. by apply elem_of_map_to_list. }
  destruct (filter _ _) as [|[k' e'] l] eqn:Ef; [by apply elem_of_nil in Hin|]. cbn. 
  assert ((k', e') ∈ filter (λ '(_, r), ev_EventID r = ev_EventID e) (map_to_list (job_events db))) as Hin'
    by (rewrite Ef; by left).
  apply list_elem_of_filter in Hin' as [Hid Hk'%elem_of_map_to_list].
  pose proof (con_ids _ Hcon _ _ _ _ Hk' Hk Hid) as ->. rewrite Hk in Hk'. by injection Hk' as <-.
Qed.

(** C15: A transition takes effect once: when it has, whatever was reported of it,
    the same request made again, until the job is forgotten, changes nothing and,
    when it is committed, answers with the job as it is then. *)
Theorem transition_exactly_once earlier f request db db2 :
  let job := tr_JobID request in
  reachable db → (Transition earlier f request db).1 ≠ db →
  unforgotten job (Transition earlier f request db).1 db2 →
  (∀ earlier' f', (Transition earlier' f' request db2).1 = db2) ∧
  ∃ r, jobs db2 !! job = Some r ∧
    ∀ earlier', (Transition earlier' Committed request db2).2 = Ok (snapshot_of job r, true).
Proof.
  intros job Hr%reachable_consistent Heff Hrun.
  assert (consistent (Transition earlier f request db).1) as Hcon1 by (eapply consistent_step; [constructor|done]).
  assert (validateTransitionRequest request = Ok tt ∧
    ∃ n e, job_events (Transition earlier f request db).1 !! (job, n) = Some e ∧
      ev_EventID e = tr_EventID request ∧ ev_Kind e = tr_EventKind request ∧ ev_Payload e = tr_PayloadJSON request)
    as (Hv & n & e & He & Hid & Hkind & Hpayload).
  { unfold Transition in Heff |- *. destruct (validateTransitionRequest request) as [[]|]; [|done]. split; [done|].
    destruct (immediate_ok f (transition_tx (hasEditBinding (tr_JobID request) earlier) request) db)
      as [[E _]|([s duplicate] & E & _)]; [by rewrite E in Heff|].
    apply transition_moved in E. destruct duplicate; [by destruct E as [E _]; rewrite E in Heff|].
    destruct E as (_ & r & r' & _ & _ & Hm). rewrite (mv_events _ _ _ _ _ _ Hm). exists (job_NextEventSequence r).
    eexists. rewrite lookup_insert_eq. by split_and!. }
  destruct (unforgotten_kept _ _ _ Hrun Hcon1) as (Hcon2 & _ & Hev & _). specialize (Hev _ _ He).
  destruct (con_events _ Hcon2 _ _ Hev) as (r & Hrow & _). cbn in Hrow.
  assert (∀ bound, transition_tx bound request db2 = Ok ((snapshot_of job r, true), db2)) as Etx.
  { intros bound. unfold transition_tx. cbv zeta. apply tx_bind_ok. exists (Some (snapshot_of job r)), db2.
    split; [|done]. unfold replayed. apply tx_bind_ok. exists (Some ((job, n), e)), db2. split.
    { apply look_ok. by rewrite <-Hid, (find_event_known _ _ _ Hcon2 Hev). }
    cbn. rewrite Hkind, Hpayload, !String.eqb_refl, bool_decide_eq_true_2 by done. cbn.
    apply tx_bind_ok. exists (snapshot_of job r), db2. split; [|done]. apply getSnapshot_ok. eauto. }
  split.
  - intros earlier' f'. unfold Transition. rewrite Hv. unfold immediate. rewrite Etx. by destruct f'.
  - exists r. split; [done|]. intros earlier'. unfold Transition. rewrite Hv. unfold immediate. by rewrite Etx.
Qed.

(** ** Completion *)
Record completed_together (job : string) db db' : Prop := {
  cg_job : ∃ r, jobs db' !! job = Some r ∧ job_State r = StateCompleted;
  cg_session : ∃ session s d kind, bound_session job db = Some session ∧
    edit_sessions db !! session = Some s ∧ edit_session_details db !! session = Some d ∧
    owner_kind (det_Purpose d) = Some kind ∧ ses_State s = "uploading" ∧
    (∃ s', edit_sessions db' !! session = Some s' ∧ ses_State s' = "completed" ∧ ses_LocalState s' = "clean") ∧
    (∃ m, cache_materializations db' !! ses_Materialization s = Some m ∧ mat_State m = "clean") ∧
    (∃ l, cache_leases db' !! det_Lease d = Some l ∧ lea_OwnerKind l = kind ∧ lea_State l = "released") ∧
    cache_references db' !! det_Reference d = None;
}.
Lemma exactly_ok {V} what (m : gmap string V) key selected v :
  exactly what m key selected = Ok v → m !! key = Some v ∧ selected v = true.
Proof. unfold exactly. destruct (m !! key) as [w|]; [|done]. destruct (selected w) eqn:E; [|done]. by intros [= <-]. Qed.
Lemma update_session_ok session selected f e db db' :
  update_session session selected f e db = Ok db' →
  ∃ r, edit_sessions db !! session = Some r ∧ selected r = true ∧
    db' = db <| edit_sessions := <[session := f r]> (edit_sessions db) |>.
Proof.
  unfold update_session. destruct (edit_sessions db !! session) as [r|]; [|done].
  destruct (selected r) eqn:E; [|done]. intros [_ ->]%constraint_ok. eauto.
Qed.
Lemma finalize_ok (request : TransitionRequest T) db u db' :
  finalizeCompletedSyncBack request db = Ok (u, db') →
  (∃ r, jobs db !! tr_JobID request = Some r ∧ job_State r = StateCompleted) →
  completed_together (tr_JobID request) db db'.
Proof.
  intros E Hjob. pose proof (finalize_own _ _ _ _ E) as Hown. unfold finalizeCompletedSyncBack in E. cbv zeta in E. tx.
  destruct (bound_session (tr_JobID request) db) as [session|] eqn:Eb; cbn in E; [|discriminate E].
  destruct (edit_sessions db !! session) as [s|] eqn:Es; cbn in E; [|discriminate E].
  destruct (edit_session_details db !! session) as [d|] eqn:Ed; cbn in E; [|discriminate E].
  destruct (String.eqb_spec (ses_State s) "uploading") as [Hup|]; cbn in E; [|discriminate E].
  destruct (String.eqb (ses_LocalState s) "dirty"); cbn in E; [|discriminate E].
  destruct (owner_kind (det_Purpose d)) as [kind|] eqn:Ek; [|discriminate E].
  unfold finish_session, insert_session_event, finish_materialization, finish_lease, finish_reference in E. tx.
  repeat match goal with
  | Hu : update_session _ _ _ _ _ = Ok _ |- _ => apply update_session_ok in Hu as (? & ? & _ & ->)
  | Hb : (exactly _ _ _ _ ≫= _) = Ok _ |- _ => apply bind_ok in Hb as (? & [? ?]%exactly_ok & [= <-])
  end.
  cbn in *. split.
  - unfold own in Hown. cbn in Hown. exact Hjob.
  - exists session, s, d, kind. split_and!; try done; cbn.
    + rewrite lookup_insert_eq. by eexists.
    + rewrite lookup_insert_eq. by eexists.
    + rewrite lookup_insert_eq. eexists. split_and!; [done| |done]. cbn.
      match goal with Hs : _ && _ && _ && _ = true |- _ => rewrite !andb_true_iff in Hs; destruct Hs as [[[_ Hk] _] _] end.
      by apply String.eqb_eq.
    + apply lookup_delete_eq.
Qed.

(** C18: The completion of a sync-back is one with that of its edit session: the
    transition of its job to completed, whatever becomes of the transaction,
    either changes nothing or also completes the session, marks its file clean,
    releases its lease and drops its reference. *)
Theorem sync_back_completes_together earlier f request db :
  tr_To request = StateCompleted → hasEditBinding (tr_JobID request) earlier = true →
  (Transition earlier f request db).1 = db ∨
  completed_together (tr_JobID request) db (Transition earlier f request db).1.
Proof.
  intros Hto Hbound. unfold Transition. destruct (validateTransitionRequest request); [|by left].
  destruct (immediate_ok f (transition_tx (hasEditBinding (tr_JobID request) earlier) request) db)
    as [[E _]|([s duplicate] & E & _)]; [by left|]. rewrite Hbound in E |- *.
  destruct duplicate; [left; by apply transition_moved in E as [E _]|right].
  revert E. generalize (immediate f (transition_tx true request) db).1. intros db' E.
  unfold transition_tx in E. cbv zeta in E. tx.
  match goal with H0 : replayed _ _ _ _ _ = _ |- _ => apply replayed_ok in H0 as [-> Hknown] end.
  destruct Hknown as [[-> _]|(k & r & e & _ & _ & _ & _ & _ & ->)]; [|by tx; simplify_eq].
  tx. simplify_eq. rewrite Hto in *.
  repeat match goal with
  | Hc : current _ _ _ = _ |- _ => apply current_ok in Hc as [-> (? & ? & -> & ?)]
  | Hg : getSnapshot _ _ = Ok _ |- _ => apply getSnapshot_ok in Hg as [-> (? & ? & ->)]
  | Hu : update_job _ _ _ _ _ = Ok _ |- _ => apply update_job_ok in Hu as (? & ? & ? & ? & ->)
  | Hi : insert_event _ _ _ _ = Ok _ |- _ => apply insert_event_ok in Hi as (_ & _ & ->)
  end.
  match goal with Hf : (if _ then finalizeCompletedSyncBack _ else _) _ = Ok _ |- _ => cbn [andb String.eqb] in Hf;
    apply finalize_ok in Hf as [Hj Hs] end.
  - split; [exact Hj|exact Hs].
  - cbn. rewrite lookup_insert_eq. eexists. split; [done|]. by cbn.
Qed.
End Requests.
