(* ===== verification/JobRecovery.v ===== *)
(** What a restart does to the jobs, and what the retention of histories may
    take. *)
From S2P Require Import Prelude Job Domain DirectProtocol PlanRecord JobTables JobStore JobRetention.
From S2P Require Import JobStoreFacts JobRuns JobStoreTheorems.

(** * Recovery *)
Section Recovery.
Context {T : Type} `{Texts T}.
Implicit Types (db : DB T).

Definition is_interrupted (r : JobRow) : Prop := job_State r = StateRunning ∨ job_State r = StateVerifying.
#[export] Instance is_interrupted_dec r : Decision (is_interrupted r).
Proof. unfold is_interrupted. apply _. Defined.
Definition interrupted_jobs db : gmap string JobRow := filter (λ kr, is_interrupted kr.2) (jobs db).
Definition recovered_row (now : Z) (r : JobRow) : JobRow :=
  if decide (is_interrupted r) then advance now (r <| job_State := StatePaused |>) else r.

Lemma interrupted_jobs_empty db :
  interrupted_jobs db = ∅ ↔ ∀ job r, jobs db !! job = Some r → ¬ is_interrupted r.
Proof.
  split.
  - intros He job r Hr Hi. exact (map_filter_empty_not_lookup _ _ job r He Hi Hr).
  - intros Hn. apply map_empty. intros job. apply map_lookup_filter_None. right. by apply Hn.
Qed.
Lemma interrupted_some db job :
  interrupted db = Some job → ∃ r, jobs db !! job = Some r ∧ is_interrupted r.
Proof.
  unfold interrupted. intros Hh.
  assert (job ∈ merge_sort id_before (fst <$> filter (λ '(_, r), is_interrupted r) (map_to_list (jobs db)))) as Hin.
  { unfold is_interrupted. destruct (merge_sort _ _); [done|]. injection Hh as ->. by left. }
  rewrite merge_sort_Permutation, list_elem_of_fmap in Hin. destruct Hin as ([j r] & -> & Hin).
  apply list_elem_of_filter in Hin as [Hi Hin%elem_of_map_to_list]. by exists r.
Qed.
Lemma interrupted_none db : interrupted db = None → interrupted_jobs db = ∅.
Proof.
  unfold interrupted. intros Hh. apply interrupted_jobs_empty. intros job r Hr Hi.
  assert (job ∈ merge_sort id_before (fst <$> filter (λ '(_, r), is_interrupted r) (map_to_list (jobs db)))) as Hin.
  { rewrite merge_sort_Permutation, list_elem_of_fmap. exists (job, r). split; [done|].
    apply list_elem_of_filter. split; [done|]. by apply elem_of_map_to_list. }
  unfold is_interrupted in Hin. destruct (merge_sort _ _); [|done]. by apply elem_of_nil in Hin.
Qed.

(** What a run of the loop has done, however it ended. *)
Record recovered (now : Z) db db' : Prop := {
  rec_rows : ∀ job, jobs db' !! job = jobs db !! job ∨ jobs db' !! job = recovered_row now <$> (jobs db !! job);
  rec_checkpoints : job_checkpoints db' = job_checkpoints db;
}.
Lemma recovered_refl now db : recovered now db db.
Proof. split; auto. Qed.
Lemma recovered_row_idemp now r : recovered_row now (recovered_row now r) = recovered_row now r.
Proof.
  unfold recovered_row. destruct (decide (is_interrupted r)); [|by rewrite decide_False].
  rewrite decide_False; [done|]. by intros [E|E]; cbn in E.
Qed.
Lemma recovered_trans now db1 db2 db3 : recovered now db1 db2 → recovered now db2 db3 → recovered now db1 db3.
Proof.
  intros [H1 E1] [H2 E2]. split; [|congruence]. intros job. destruct (H1 job) as [Ha|Ha], (H2 job) as [Hb|Hb]; rewrite Hb, Ha; auto.
  right. destruct (jobs db1 !! job) as [r|]; cbn; [|done]. by rewrite recovered_row_idemp.
Qed.

(** One pass: the job is paused, and one interrupted job less is left. *)
Lemma pass_ok job event now db changed db' :
  interrupted db = Some job → recover_tx job event now db = Ok (changed, db') →
  changed = true ∧ recovered now db db' ∧ recovered_row now <$> jobs db' = recovered_row now <$> jobs db ∧
  size (interrupted_jobs db) = S (size (interrupted_jobs db')).
Proof.
  intros (r & Hr & Hi)%interrupted_some E. apply recover_moved in E.
  destruct changed; [|destruct E as (_ & r1 & Hr1 & ? & ?); rewrite Hr in Hr1; by destruct Hi; simplify_eq].
  destruct E as (r1 & e & _ & _ & Hm). pose proof (mv_before _ _ _ _ _ _ Hm) as Hr1. rewrite Hr in Hr1. injection Hr1 as <-.
  assert (advance now (r <| job_State := StatePaused |>) = recovered_row now r) as Hrow
    by (unfold recovered_row; by rewrite decide_True).
  pose proof (mv_jobs _ _ _ _ _ _ Hm) as Hjobs. rewrite Hrow in Hjobs. split_and!; [done|split| |].
  - intros j. rewrite Hjobs. destruct (decide (job = j)) as [<-|]; [|left; by rewrite lookup_insert_ne].
    right. by rewrite lookup_insert_eq, Hr.
  - by destruct Hm.
  - rewrite Hjobs, fmap_insert, recovered_row_idemp, insert_id; [done|]. by rewrite lookup_fmap, Hr.
  - unfold interrupted_jobs. rewrite Hjobs, map_filter_insert_False, map_filter_delete.
    + erewrite map_size_delete_Some; [|exists r; by apply map_lookup_filter_Some].
      assert (size (interrupted_jobs db) ≠ 0)%nat; [|unfold interrupted_jobs in *; lia].
      apply map_size_non_empty_iff. rewrite interrupted_jobs_empty. intros Hn. by apply (Hn job r).
    + rewrite <-Hrow. by intros [E|E]; cbn in E.
Qed.

Lemma recover_loop_spec fuel n recovered_ now generator f db :
  (size (interrupted_jobs db) < fuel)%nat →
  ∃ r, (recover_loop fuel n recovered_ now generator f db).2 = Some r ∧
    let db' := (recover_loop fuel n recovered_ now generator f db).1 in
    recovered (Time_Unix now) db db' ∧
    ∀ m, r = Ok m → jobs db' = recovered_row (Time_Unix now) <$> jobs db ∧
      m = recovered_ + Z.of_nat (size (interrupted_jobs db)).
Proof.
  revert n recovered_ db. induction fuel as [|fuel IH]; intros n recovered_ db Hs; [lia|]. cbn [recover_loop].
  destruct (interrupted db) as [job|] eqn:Ei.
  2: { apply interrupted_none in Ei. eexists. split; [done|]. split; [apply recovered_refl|]. intros m [= <-].
       rewrite Ei, map_size_empty. split; [|lia]. symmetry. apply map_eq. intros j. rewrite lookup_fmap.
       destruct (jobs db !! j) as [r|] eqn:Er; [|done]. cbn. f_equal. unfold recovered_row. rewrite decide_False; [done|].
       intros Hi. rewrite interrupted_jobs_empty in Ei. by apply (Ei j r). }
  destruct (generator n) as [event|]; [|eexists; split; [done|]; split; [apply recovered_refl|done] ].
  destruct (immediate_ok (f n) (recover_tx job event (Time_Unix now)) db) as [[E1 E2]|(changed & E & E2)];
    destruct (immediate _ _ _) as [db1 [changed'|e]]; cbn [fst snd] in *.
  - specialize (E2 _ eq_refl). subst db1. apply pass_ok in E2 as (_ & _ & _ & Hsz); [lia|done].
  - subst. eexists. split; [done|]. split; [apply recovered_refl|done].
  - rewrite (E2 _ eq_refl) in *. apply pass_ok in E as (-> & Hrec & Hfm & Hsz); [|done].
    destruct (IH (S n) (recovered_ + 1) db1) as (r & Hr & Hrec' & Hok); [lia|]. exists r. split; [done|]. split.
    + by eapply recovered_trans.
    + intros m [Hj Hm]%Hok. rewrite <-Hfm. split; [exact Hj|]. lia.
  - apply pass_ok in E as (_ & Hrec & _); [|done]. eexists. split; [done|]. split; [done|done].
Qed.

(** C16: A restart settles every interrupted job: whatever the identifiers and
    whatever becomes of its transactions, the recovery ends; it changes no job but
    to pause one that was running or verifying, with its next version; and when it
    reports success it has done so to all of them, and counted them. *)
Theorem recovery_settles generator now f db :
  ∃ r, (RecoverInterrupted generator now f db).2 = Some r ∧
    let db' := (RecoverInterrupted generator now f db).1 in
    job_checkpoints db' = job_checkpoints db ∧
    (∀ job, jobs db' !! job = jobs db !! job ∨
            jobs db' !! job = recovered_row (Time_Unix now) <$> (jobs db !! job)) ∧
    (∀ n, r = Ok n → jobs db' = recovered_row (Time_Unix now) <$> jobs db ∧
       interrupted_jobs db' = ∅ ∧ n = Z.of_nat (size (interrupted_jobs db))).
Proof.
  unfold RecoverInterrupted. destruct (Time_Unix now <=? 0).
  { eexists. split; [done|]. split_and!; [done|by auto|done]. }
  destruct (recover_loop_spec (S (size (jobs db))) 0 0 now generator f db) as (r & Hr & [Hrows Hck] & Hok).
  { unfold interrupted_jobs. apply Nat.lt_succ_r, map_size_filter. }
  exists r. split_and!; [done..|]. intros n [Hj Hn]%Hok. split_and!; [done| |done].
  apply interrupted_jobs_empty. rewrite Hj. intros j r'. rewrite lookup_fmap_Some. intros (r0 & <- & _) [E|E];
    cbn in E; unfold recovered_row, is_interrupted in E; case_decide; by auto.
Qed.
End Recovery.

(** * Retention *)
Section Forgetting.
Context {T : Type} `{Texts T}.
Implicit Types (db : DB T).

(** Nothing of a job has changed. *)
Record untouched (job : string) db db' : Prop := {
  ut_row : jobs db' !! job = jobs db !! job;
  ut_plan : ∀ r, jobs db !! job = Some r →
    operation_plans db' !! job_PlanID r = operation_plans db !! job_PlanID r;
  ut_rows : ∀ n, job_steps db' !! (job, n) = job_steps db !! (job, n) ∧
    job_checkpoints db' !! (job, n) = job_checkpoints db !! (job, n) ∧
    job_conflicts db' !! (job, n) = job_conflicts db !! (job, n) ∧
    job_events db' !! (job, n) = job_events db !! (job, n);
  ut_dedup : ∀ k d, request_dedup db !! k = Some d → dd_JobID d = Some job →
    request_dedup db' !! k = Some d;
}.
Lemma untouched_refl job db : untouched job db db.
Proof. by split. Qed.
Lemma untouched_trans job db1 db2 db3 : untouched job db1 db2 → untouched job db2 db3 → untouched job db1 db3.
Proof.
  intros [R1 P1 W1 D1] [R2 P2 W2 D2]. split; [congruence| | |by eauto].
  - intros r Hr. rewrite P2 by congruence. by apply P1.
  - intros n. destruct (W1 n) as (-> & -> & -> & ->) || destruct (W1 n) as (? & ? & ? & ?).
    all: destruct (W2 n) as (? & ? & ? & ?); split_and!; congruence.
Qed.

(** The jobs of a store that its retention may take. *)
Definition may_go (now : Time) (policy : historyRetentionPolicy) db (job : string) : Prop :=
  is_claimed db job ∨ candidate now policy db job.
Record retaining (now : Time) (policy : historyRetentionPolicy) db0 db : Prop := {
  rt_jobs : jobs db ⊆ jobs db0;
  rt_referenced : ∀ j, referenced j db = referenced j db0;
  rt_claim : ∀ j, is_claimed db j → may_go now policy db0 j;
  rt_others : ∀ j r, jobs db0 !! j = Some r → ¬ may_go now policy db0 j → untouched j db0 db;
}.
Lemma retaining_refl now policy db : retaining now policy db db.
Proof. split; [done|done|by left|]. intros. apply untouched_refl. Qed.
(** A job that may go when others have gone could have gone before. *)
Lemma candidate_earlier now policy db0 db job :
  jobs db ⊆ jobs db0 → (∀ j, referenced j db = referenced j db0) →
  candidate now policy db job → candidate now policy db0 job.
Proof.
  intros Hsub Href [(r & Hr & Ht & Hage & kept & Hnd & Hlen & Hkept) Hfree]. split; [|by rewrite <-Href].
  exists r. split_and!; [by eapply lookup_weaken|done|done|]. exists kept. split_and!; [done|done|].
  intros j (? & r' & Hr' & ?)%Hkept. split; [done|]. exists r'. split; [by eapply lookup_weaken|done].
Qed.
Lemma retained_untouched now policy db db' job :
  retained now policy db db' → ¬ is_claimed db job → is_Some (jobs db !! job) → untouched job db db'.
Proof.
  intros [-> |job1 _ _ -> |row Hc Ht _ Htm|row r1 Hc Hr1 Ht _ Hrows Hdd Hun ->] Hnc [r Hr]; [by split|by split|..];
    (assert (job ≠ ret_JobID row) as Hne by (intros ->; apply Hnc; by exists row)).
  - destruct Htm as [Hp Hj _ Hs [_ Hck] Hcf [_ He] [_ Hd] _]. split; [by rewrite Hj|by rewrite Hp| |].
    + intros n. by rewrite Hs, Hck, Hcf, He.
    + intros k d Hk Hjd. apply Hd; [done|]. congruence.
  - split; cbn; [by rewrite lookup_delete_ne| |done|done].
    intros r' Hr'. rewrite lookup_delete_ne; [done|]. intros E. by eapply Hun.
Qed.
Lemma retaining_step now policy db0 db db' :
  retaining now policy db0 db → retained now policy db db' → retaining now policy db0 db'.
Proof.
  intros [Hj Href Hcl Hoth] Hret.
  assert (∀ j r, jobs db0 !! j = Some r → ¬ may_go now policy db0 j → untouched j db0 db') as Hoth'.
  { intros j r Hr Hno. eapply untouched_trans; [by eapply Hoth|]. eapply retained_untouched; [done| |].
    - intros Hc. by apply Hno, Hcl.
    - rewrite (ut_row _ _ _ (Hoth j r Hr Hno)), Hr. by eexists. }
  destruct Hret as [-> |job Hn Hc -> |row Hc Ht _ Htm|row r1 Hc Hr1 Ht _ Hrows Hdd Hun ->].
  - done.
  - split; [exact Hj|exact Href| |exact Hoth']. intros j (c & [= <-] & <-). right. cbn. by eapply candidate_earlier.
  - split; [by rewrite (tm_jobs _ _ _ Htm)|intros j; by rewrite (tm_referenced _ _ _ Htm)| |exact Hoth'].
    intros j. unfold is_claimed. rewrite (tm_retention _ _ _ Htm). apply Hcl.
  - split; [|exact Href| |exact Hoth'].
    + cbn. etrans; [apply delete_subseteq|done].
    + by intros j (c & ? & _).
Qed.

Lemma newest_length keep db : (length (newest keep db) ≤ Z.to_nat keep)%nat.
Proof. unfold newest. rewrite length_fmap, length_take. lia. Qed.
(** The terminal jobs that are old enough and that nothing refers to. *)
Definition disposable (now : Time) (policy : historyRetentionPolicy) db : list (string * JobRow) :=
  filter (λ j, job_UpdatedAt j.2 ≤ Time_Unix (now - minimumTerminalAge policy) ∧ referenced j.1 db = false)
    (terminal_jobs db).
Lemma none_selected now policy db :
  selectHistoryRetentionCandidate now policy db = None →
  (length (disposable now policy db) ≤ Z.to_nat (keepNewestTerminal policy))%nat.
Proof.
  unfold selectHistoryRetentionCandidate. intros Hn%fmap_None. etrans; [|apply (newest_length _ db)].
  rewrite <-(length_fmap fst). apply submseteq_length, NoDup_submseteq.
  - apply NoDup_fmap_fst; [|apply NoDup_filter, NoDup_filter, NoDup_map_to_list].
    intros k r1 r2 [_ [H1 _]%terminal_jobs_elem]%list_elem_of_filter [_ [H2 _]%terminal_jobs_elem]%list_elem_of_filter.
    cbn in *. congruence.
  - intros j ([j' r] & -> & [Hd Hin]%list_elem_of_filter)%list_elem_of_fmap. cbn in *.
    destruct (decide (j' ∈ newest (keepNewestTerminal policy) db)) as [|Hnew]; [done|exfalso].
    assert ((j', r) ∈ merge_sort older (filter (eligible now policy db) (terminal_jobs db))) as Hs.
    { rewrite merge_sort_Permutation, list_elem_of_filter. split; [|done]. by split_and!; try apply Hd. }
    destruct (merge_sort _ _); [by apply elem_of_nil in Hs|done].
Qed.
Lemma retention_done now policy db step db' :
  retention_tx now policy db = Ok (step, db') → rs_done step = true →
  db' = db ∧ job_history_retention db = None ∧ selectHistoryRetentionCandidate now policy db = None.
Proof.
  unfold retention_tx. intros E Hd. apply tx_bind_ok in E as (db0 & db1 & [= <- <-] & E).
  unfold loadHistoryRetentionClaim in E. destruct (job_history_retention db) as [row|].
  - destruct (negb _); [discriminate E|]. destruct (parsed _ _); cbn [mbind result_bind] in E; [|discriminate E].
    destruct (validateClaimedHistoryJob _ _); [|discriminate E].
    destruct (list_find _ _) as [[i [changed db2]]|]; [by tx; subst|].
    unfold forget_job in E. tx. destruct (jobs db !! _); tx. by subst.
  - destruct (selectHistoryRetentionCandidate now policy db) as [job|] eqn:Ec; tx; by subst.
Qed.
Lemma reconcile_loop_spec now policy f db0 turns n acc db :
  retaining now policy db0 db →
  let r := reconcile_loop n turns now policy f acc db in
  retaining now policy db0 r.1 ∧
  ∀ result, r.2 = Ok result → More result = false →
    job_history_retention r.1 = None ∧ selectHistoryRetentionCandidate now policy r.1 = None.
Proof.
  revert n acc db. induction turns as [|turns IH]; intros n acc db Hinv; cbn [reconcile_loop].
  { split; [done|]. by intros result [= <-]. }
  destruct (immediate_ok (f n) (retention_tx now policy) db) as [[E1 E2]|(step & E & E2)];
    destruct (immediate _ _ _) as [db1 [step'|e]]; cbn [fst snd] in *; subst.
  - specialize (E2 _ eq_refl). destruct (rs_done step') eqn:Hd; [|by apply IH]. split; [done|].
    intros result [= <-] _. by eapply retention_done in E2 as (_ & ? & ?).
  - done.
  - rewrite (E2 _ eq_refl) in *. pose proof (retaining_step _ _ _ _ _ Hinv (retention_tx_ok _ _ _ _ _ E)) as Hinv'.
    destruct (rs_done step) eqn:Hd; [|by apply IH]. split; [done|].
    intros result [= <-] _. by eapply retention_done in E as (-> & ? & ?).
  - split; [|done]. by eapply retaining_step, retention_tx_ok.
Qed.

(** C20: Retention forgets only what may be forgotten: a pass over the histories,
    whatever becomes of its transactions, touches no row of a job that was not
    claimed before and is not terminal, old enough, free of references and
    preceded by as many newer terminal jobs as are kept; and when it reports that
    nothing is left to do, no claim is open and no more jobs that might be
    forgotten are left than are kept anyway. *)
Theorem retention_keeps now policy f db :
  let r := reconcileHistory now policy f db in
  (∀ job row, jobs db !! job = Some row → ¬ may_go now policy db job → untouched job db r.1) ∧
  ∀ result, r.2 = Ok result → More result = false →
    job_history_retention r.1 = None ∧
    (length (disposable now policy r.1) ≤ Z.to_nat (keepNewestTerminal policy))%nat.
Proof.
  unfold reconcileHistory. destruct (validateHistoryRetention now policy); cbn zeta.
  2: { split; [intros; apply untouched_refl|done]. }
  destruct (reconcile_loop_spec now policy f db (maxTransactions policy) 0 (mkRetentionResult 0 0 0 false) db)
    as [[_ _ _ Hoth] Hdone]; [apply retaining_refl|]. split.
  - exact Hoth.
  - intros result Hok Hm. destruct (Hdone _ Hok Hm) as [? ?]. split; [done|]. by apply none_selected.
Qed.
End Forgetting.
