(* ===== verification/Checkpoint.v ===== *)
(** The durable progress of a transfer and its result
    (src/internal/transfer/worker.go, completion.go): checkpoints, the evidence
    of completion, and which checkpoints belong to a plan.

    A checkpoint's measurements (its Performance) are diagnostic and left out;
    the state of a directory's children is only whether there is any
    (DirectoryCopy.v has the checkpoint of a directory). *)
From S2P Require Import Prelude Domain GoPath Provider DirectProtocol Plan.

Definition PhasePrepared := "prepared".
Definition PhaseStreaming := "streaming".
Definition PhaseTransferred := "transferred".
Definition PhaseVerified := "verified".
Definition PhaseWaitingConflict := "waiting_conflict".
Definition PhaseCommitting := "committing".
Definition PhaseCommitted := "committed".

Definition OutcomeCompleted := "completed".
Definition OutcomeCompletedPartial := "completed_partial".
Definition OutcomeSkipped := "skipped".
Definition OutcomeWaitingConflict := "waiting_conflict".

Record CompletionEvidence := mkCompletion {
  ce_Version : Z; (* uint16 *) ce_DurableBytes : Z; (* uint64 *) ce_ContentVerified : bool;
}.
#[export] Instance CompletionEvidence_eta : Settable CompletionEvidence :=
  λ c, mkCompletion (ce_Version c) (ce_DurableBytes c) (ce_ContentVerified c).
#[export] Instance CompletionEvidence_eq_dec : EqDecision CompletionEvidence.
Proof. solve_decision. Defined.

Record Checkpoint := mkCheckpoint {
  Completion : CompletionEvidence;
  HasDirectoryState : bool; (* len(DirectoryChildren) != 0 || DirectoryPerformance != nil *)
  cp_JobID : string;
  cp_Phase : string;
  Offset : Z; (* uint64 *)
  SourceFingerprint : Fingerprint;
  cp_Part : Location;
  PartFingerprint : Fingerprint;
  ChecksumState : list byte;
  ChecksumHex : string;
  cp_Final : Location;
  cp_Outcome : string;
  ActualRoute : string;
  DowngradedFrom : string;
  RouteReason : string;
  DirectFormatVersion : Z; (* uint16 *)
  DirectNonce : string;
}.
#[export] Instance Checkpoint_eta : Settable Checkpoint :=
  λ c, mkCheckpoint (Completion c) (HasDirectoryState c) (cp_JobID c) (cp_Phase c) (Offset c)
    (SourceFingerprint c) (cp_Part c) (PartFingerprint c) (ChecksumState c) (ChecksumHex c)
    (cp_Final c) (cp_Outcome c) (ActualRoute c) (DowngradedFrom c) (RouteReason c)
    (DirectFormatVersion c) (DirectNonce c).
#[export] Instance Checkpoint_eq_dec : EqDecision Checkpoint.
Proof. solve_decision. Defined.

(** [Checkpoint{JobID: jobID}]. *)
Definition initial_checkpoint (jobID : string) : Checkpoint :=
  mkCheckpoint (mkCompletion 0 0 false) false jobID "" 0 Fingerprint_zero Location_zero
    Fingerprint_zero [] "" Location_zero "" "" "" "" 0 "".

(** A transfer's result; the manifest of a directory's items is left out. *)
Record Result := buildResult {
  Outcome : string;
  result_Final : Location;
  Bytes : Z; (* uint64 *)
  result_SHA256 : string;
  PartRetained : bool;
  result_PreservedDestination : Location;
  PreservationUnknown : bool;
  result_Items : Z; Succeeded : Z; Skipped : Z; Failed_ : Z; (* uint64 *)
}.
#[export] Instance Result_eta : Settable Result :=
  λ r, buildResult (Outcome r) (result_Final r) (Bytes r) (result_SHA256 r) (PartRetained r)
    (result_PreservedDestination r) (PreservationUnknown r) (result_Items r) (Succeeded r)
    (Skipped r) (Failed_ r).
Definition Result_zero : Result :=
  buildResult "" Location_zero 0 "" false Location_zero false 0 0 0 0.
(** [Result{Outcome: outcome, Final: final, Bytes: bytes, Items: items, Succeeded: succeeded}]. *)
Abbreviation mkResult outcome final bytes items succeeded :=
  (buildResult outcome final bytes "" false Location_zero false items succeeded 0 0).

(** * Completion evidence (completion.go) *)
Definition newCompletionEvidence (plan : Plan) : CompletionEvidence :=
  if negb (String.eqb (Durability plan) "") then mkCompletion 1 0 false else mkCompletion 0 0 false.

Definition durableBytes (c : Checkpoint) : Z :=
  if ce_Version (Completion c) =? 0 then Offset c else ce_DurableBytes (Completion c).

Definition recordDurable (c : Checkpoint) : Checkpoint :=
  if negb (ce_Version (Completion c) =? 0)
  then c <| Completion := (Completion c) <| ce_DurableBytes := Offset c |> |> else c.
Definition recordContentVerified (c : Checkpoint) : Checkpoint :=
  if negb (ce_Version (Completion c) =? 0)
  then c <| Completion := (Completion c) <| ce_ContentVerified := true |> |> else c.

(** * Which checkpoints belong to a plan (worker.go) *)
Definition Level2DirectFormatVersion : Z := 1.

Definition validCheckpointRoute (checkpoint : Checkpoint) (plan : Plan) : bool :=
  if String.eqb (ActualRoute checkpoint) ""
  then String.eqb (DowngradedFrom checkpoint) "" && String.eqb (RouteReason checkpoint) "" else
  if String.eqb (ActualRoute checkpoint) (Route plan)
  then String.eqb (DowngradedFrom checkpoint) "" &&
       String.eqb (RouteReason checkpoint) (plannedRouteReason plan) else
  String.eqb (ActualRoute checkpoint) RouteSFTPRelay &&
  String.eqb (DowngradedFrom checkpoint) (Route plan) &&
  (String.eqb (Route plan) RouteSFTPServerCopy &&
   String.eqb (RouteReason checkpoint) ReasonServerCopyFailedBeforeWrite ||
   String.eqb (Route plan) RouteLevel2Direct &&
   (String.eqb (RouteReason checkpoint) ReasonLevel2FailedBeforeWrite ||
    String.eqb (RouteReason checkpoint) ReasonLevel2RevalidationFailed ||
    String.eqb (RouteReason checkpoint) ReasonLevel2PartCleanedForRelay)).

Definition checkpointMatchesPlan (checkpoint : Checkpoint) (plan : Plan) : bool :=
  if negb (ce_Version (Completion checkpoint) =? ce_Version (newCompletionEvidence plan)) ||
     (ce_DurableBytes (Completion checkpoint) >? Offset checkpoint) then false else
  if negb (String.eqb (ref_Kind (Source plan)) EntryDirectory) && HasDirectoryState checkpoint
  then false else
  if negb (bool_decide (cp_Part checkpoint = Part plan)) ||
     negb (bool_decide (SourceFingerprint checkpoint = ref_Fingerprint (Source plan)))
  then false else
  if (if String.eqb (Route plan) RouteLevel2Direct then
        match Level2Preflight plan with
        | None => true
        | Some binding =>
          negb (DirectFormatVersion checkpoint =? Level2DirectFormatVersion) ||
          negb (validateLowerHexIdentity (DirectNonce checkpoint) 32) ||
          negb (String.eqb (DirectNonce checkpoint) (req_Nonce (l2_Request binding)))
        end
      else negb (DirectFormatVersion checkpoint =? 0) || negb (String.eqb (DirectNonce checkpoint) ""))
  then false else
  if negb (String.eqb (cp_Phase checkpoint) PhaseCommitting) &&
     negb (String.eqb (cp_Phase checkpoint) PhaseCommitted)
  then bool_decide (cp_Final checkpoint = Final plan) && validCheckpointRoute checkpoint plan else
  String.eqb (loc_EndpointID (cp_Final checkpoint)) (loc_EndpointID (DestinationDirectory plan)) &&
  String.eqb (path_Dir (loc_Path (cp_Final checkpoint))) (loc_Path (DestinationDirectory plan)) &&
  validCheckpointRoute checkpoint plan.
