(* ===== verification/Effects.v ===== *)
(** Handlers that talk to providers: a monad of effects, and the traces they
    leave.

    A handler runs on a world and produces the provider calls it made, in order,
    each with its answer, the world afterwards, and how it ended: it returned a
    value or an error, it panicked (a nil pointer), or it is [Running], which is
    how a loop that has used up its fuel ends.  The trace of a running handler
    is what it has done so far, so a property of all traces for all fuel holds
    of runs that never end as well. *)
From S2P Require Import Prelude Domain Provider Bandwidth Plan Checkpoint.

(** worker.go *)
Inductive ControlAction := ControlContinue | ControlPause | ControlCancel.
#[export] Instance ControlAction_eq_dec : EqDecision ControlAction.
Proof. solve_decision. Defined.

(** * The worker's surroundings (worker.go, progress.go, scheduler.go) *)
Record Journal (World : Type) := mkJournal {
  Load : string → World → result error (option Checkpoint) * World;
  Save : Checkpoint → World → option error * World;
  (* the optional ReportProgress: the phase, the bytes and the durable bytes *)
  ReportProgress : option (string → Z → Z → World → option error * World);
}.
Arguments mkJournal {World} _ _ _. Arguments Load {World} _ _ _.
Arguments Save {World} _ _ _. Arguments ReportProgress {World} _.
Record bandwidthScheduler (World : Type) := mkBandwidthScheduler {
  Wait : BandwidthRequest → World → option error * World;
  QuantumBytes : World → Z; (* uint32 *)
  AllowsReadAhead : option (BandwidthRequest → World → bool);
}.
Arguments mkBandwidthScheduler {World} _ _ _. Arguments Wait {World} _ _ _.
Arguments QuantumBytes {World} _ _. Arguments AllowsReadAhead {World} _.
(** [Action] is the control's answer; [Observed] what the goroutine that polls it
    while a stream runs has seen when it is joined. *)
Record Control (World : Type) := mkControl {
  Action : Checkpoint → World → ControlAction * World;
  Observed : Checkpoint → World → ControlAction * World;
}.
Arguments mkControl {World} _ _. Arguments Action {World} _ _ _. Arguments Observed {World} _ _ _.

(** same_host.go: a backend, and how to find the one a job was frozen with. *)
Record SameHostCopyStageResult := mkStageResult {
  stage_Part : Location; stage_Size : Z; (* uint64 *) stage_SHA256 : string; stage_Committed : bool;
}.
(** [StageCopy] of a source to a part under a binding; the request repeats the
    plan's final path, its job and [MaxSameHostCopyBytes]. *)
Definition SameHostCopyBackend (World : Type) : Type :=
  Location → Location → SameHostCopyBinding → World → result error SameHostCopyStageResult * World.
Record SameHostCopyRegistry (World : Type) := mkRegistry {
  sh_backend : SameHostCopyBackend World;
  sh_resolve : option (string → HelperArtifactID → World →
    result error (SameHostCopyBackend World) * World);
}.
Arguments mkRegistry {World} _ _. Arguments sh_backend {World} _. Arguments sh_resolve {World} _.

(** * What a handler does *)
Inductive event :=
| EvSnapshot (endpointID : string) (res : result error EndpointSnapshot)
| EvList (request : ListRequest) (res : result error ListPage)
| EvStat (request : StatRequest) (res : result error Entry)
| EvRename (request : RenameRequest) (res : result error RenameResult)
| EvRemove (request : RemoveRequest) (err : option error)
| EvTrash (request : TrashRequest) (err : option error)
| EvMkdir (request : MkdirRequest) (res : result error Entry)
| EvPreserve (request : PreserveDestinationRequest) (r : PreserveDestinationResult)
    (err : option error)
| EvServerCopy (source part : Location) (expected : Fingerprint) (max : Z)
    (res : result error Entry)
| EvStageCopy (source part : Location) (binding : SameHostCopyBinding)
    (res : result error SameHostCopyStageResult)
(* handles, by the location they were opened at *)
| EvOpenRead (request : OpenReadRequest) (res : result error ReadInfo)
| EvRead (l : Location) (size : Z) (res : IOResult)
| EvCloseRead (l : Location) (err : option error)
| EvOpenWrite (request : OpenWriteRequest) (err : option error)
| EvWrite (l : Location) (data : list byte) (n : Z) (err : option error)
| EvWriteFrom (l : Location) (n : Z) (err : option error)
| EvTruncate (l : Location) (size : Z) (err : option error)
| EvSync (l : Location) (err : option error)
| EvCloseWrite (l : Location) (err : option error)
(* the worker's journal, its scheduler and its user *)
| EvLoad (jobID : string) (res : result error (option Checkpoint))
| EvSave (checkpoint : Checkpoint) (err : option error)
| EvReport (phase : string) (bytes durable : Z) (err : option error)
| EvWait (request : BandwidthRequest) (err : option error)
| EvControl (checkpoint : Checkpoint) (action : ControlAction).

Inductive outcome (A : Type) := Returned (a : A) | Failed (err : error) | Panicked | Running.
Arguments Returned {A} a. Arguments Failed {A} err.
Arguments Panicked {A}. Arguments Running {A}.

(** [Ev] are the events: the calls of a handler, or those of a client of it. *)
Section Monad.
Context {Ev W : Type}.

Definition ME (A : Type) : Type := W → outcome A * list Ev * W.
Local Abbreviation M := ME.

#[export] Instance M_ret : MRet M := λ A a w, (Returned a, [], w).
#[export] Instance M_bind : MBind M := λ A B f m w,
  match m w with
  | (Returned a, t, w') => let '(b, t', w'') := f a w' in (b, t ++ t', w'')
  | (Failed e, t, w') => (Failed e, t, w')
  | (Panicked, t, w') => (Panicked, t, w')
  | (Running, t, w') => (Running, t, w')
  end.
Definition throw {A} (e : error) : M A := λ w, (Failed e, [], w).
Definition panic {A} : M A := λ w, (Panicked, [], w).
Definition running {A} : M A := λ w, (Running, [], w).
(** A call whose error the caller looks at. *)
Definition attempt {A} (m : M A) : M (result error A) := λ w,
  match m w with
  | (Returned a, t, w') => (Returned (Ok a), t, w')
  | (Failed e, t, w') => (Returned (Err e), t, w')
  | (Panicked, t, w') => (Panicked, t, w')
  | (Running, t, w') => (Running, t, w')
  end.
Definition lift {A} (r : result error A) : M A :=
  match r with Ok a => mret a | Err e => throw e end.
(** Following a pointer. *)
Definition deref {A} (p : option A) : M A :=
  match p with Some a => mret a | None => panic end.

(** A call that answers, recorded. *)
Definition answer {A} (ev : Ev) (r : result error A) (w : W) : outcome A * list Ev * W :=
  match r with Ok a => (Returned a, [ev], w) | Err e => (Failed e, [ev], w) end.
(** A call that answers with an error or without one. *)
Definition err_event (ev : option error → Ev) (call : W → option error * W) : M (option error) := λ w,
  let '(r, w') := call w in (Returned r, [ev r], w').
(** Reading something of the world without a call worth recording. *)
Definition peek {A} (f : W → A) : M A := λ w, (Returned (f w), [], w).
Definition tick {A} (f : W → A * W) : M A := λ w, let '(a, w') := f w in (Returned a, [], w').
(** [if err != nil { return err }]. *)
Definition or_return (err : option error) : M () :=
  match err with Some e => throw e | None => mret tt end.
(** [defer]: the clean-up runs however [m] ends, unless it never does. *)
Definition defer {A B} (cleanup : M B) (m : M A) : M A := λ w,
  match m w with
  | (Running, t, w') => (Running, t, w')
  | (o, t, w') => let '(_, t', w'') := cleanup w' in (o, t ++ t', w'')
  end.

(** * Traces

    [emits P m]: every call [m] makes, from any world, satisfies [P]. *)
Definition trace {A} (m : M A) (w : W) : list Ev := (m w).1.2.
Definition emits {A} (P : Ev → Prop) (m : M A) : Prop := ∀ w, Forall P (trace m w).
(** [m] returns only values that satisfy [Q]. *)
Definition returns {A} (Q : A → Prop) (m : M A) : Prop :=
  ∀ w a t w', m w = (Returned a, t, w') → Q a.

Lemma emits_ret {A} P (a : A) : emits P (mret a).
Proof. intros w. constructor. Qed.
Lemma emits_throw {A} P e : emits P (@throw A e).
Proof. intros w. constructor. Qed.
Lemma emits_panic {A} P : emits P (@panic A).
Proof. intros w. constructor. Qed.
Lemma emits_running {A} P : emits P (@running A).
Proof. intros w. constructor. Qed.
Lemma emits_lift {A} P (r : result error A) : emits P (lift r).
Proof. destruct r; [apply emits_ret|apply emits_throw]. Qed.
Lemma emits_deref {A} P (p : option A) : emits P (deref p).
Proof. destruct p; [apply emits_ret|apply emits_panic]. Qed.

Lemma emits_bind_returns {A B} P Q (m : M A) (f : A → M B) :
  emits P m → returns Q m → (∀ a, Q a → emits P (f a)) → emits P (m ≫= f).
Proof.
  intros Hm Hq Hf w. unfold trace, mbind, M_bind. specialize (Hm w). unfold trace in Hm.
  destruct (m w) as [[[a|e| |] t] w'] eqn:E; cbn in *; try done.
  specialize (Hf a (Hq _ _ _ _ E) w'). unfold trace in Hf.
  destruct (f a w') as [[b t'] w'']; cbn in *. by apply Forall_app_2.
Qed.

Lemma emits_bind {A B} P (m : M A) (f : A → M B) :
  emits P m → (∀ a, emits P (f a)) → emits P (m ≫= f).
Proof. intros Hm Hf. by apply (emits_bind_returns P (λ _, True)). Qed.

Lemma emits_attempt {A} P (m : M A) : emits P m → emits P (attempt m).
Proof.
  intros Hm w. specialize (Hm w). unfold trace, attempt in *.
  by destruct (m w) as [[[]]].
Qed.

Lemma returns_true {A} (m : M A) : returns (λ _, True) m.
Proof. by intros w. Qed.
Lemma returns_lift {A} (r : result error A) Q : (∀ a, r = Ok a → Q a) → returns Q (lift r).
Proof. intros H w a t w'. destruct r; cbn; [|done]. intros [= <- _ _]. auto. Qed.

Lemma emits_weaken {A} (P Q : Ev → Prop) (m : M A) :
  emits P m → (∀ ev, P ev → Q ev) → emits Q m.
Proof. intros H HPQ w. by eapply Forall_impl. Qed.
Lemma emits_answer {A} P (ev : result error A → Ev) (m : M A) :
  (∀ w, ∃ r w', m w = answer (ev r) r w') → (∀ r, P (ev r)) → emits P m.
Proof. intros Hm HP w. unfold trace. destruct (Hm w) as ([a|e] & w' & ->); cbn; auto. Qed.
Lemma emits_err_event P ev call : (∀ r, P (ev r)) → emits P (err_event ev call).
Proof. intros HP w. unfold trace, err_event. destruct (call w). cbn. auto. Qed.
Lemma emits_peek {A} P (f : W → A) : emits P (peek f).
Proof. intros w. constructor. Qed.
Lemma emits_tick {A} P (f : W → A * W) : emits P (tick f).
Proof. intros w. unfold trace, tick. destruct (f w). constructor. Qed.
Lemma emits_or_return P err : emits P (or_return err).
Proof. destruct err; [apply emits_throw|apply emits_ret]. Qed.
Lemma emits_defer {A B} P (cleanup : M B) (m : M A) :
  emits P cleanup → emits P m → emits P (defer cleanup m).
Proof.
  intros Hc Hm w. specialize (Hm w). unfold trace, defer in *.
  destruct (m w) as [[[a|e| |] t] w1]; cbn in *; [| | |done].
  all: specialize (Hc w1); unfold trace in Hc; destruct (cleanup w1) as [[? ?] ?]; cbn in *;
    by apply Forall_app_2.
Qed.
End Monad.
Arguments ME Ev W A : clear implicits.
(** The handlers of this package. *)
Abbreviation M := (ME event).

(** * The calls *)
Section Calls.
Context {W : Type}.
Local Abbreviation M := (ME event W).

(** The calls of a provider. *)
Definition call_Snapshot (p : Provider W) : M EndpointSnapshot := λ w,
  let '(r, w') := Snapshot p w in answer (EvSnapshot (ep_ID (Descriptor p)) r) r w'.
Definition call_List (p : Provider W) (request : ListRequest) : M ListPage := λ w,
  let '(r, w') := List p request w in answer (EvList request r) r w'.
Definition call_Stat (p : Provider W) (request : StatRequest) : M Entry := λ w,
  let '(r, w') := Stat p request w in answer (EvStat request r) r w'.
Definition call_Rename (m : MutableProvider W) (request : RenameRequest) : M RenameResult := λ w,
  let '(r, w') := Rename m request w in answer (EvRename request r) r w'.
Definition call_Remove (m : MutableProvider W) (request : RemoveRequest) : M (option error) := λ w,
  let '(r, w') := Remove m request w in (Returned r, [EvRemove request r], w').
Definition call_Mkdir (m : MutableProvider W) (request : MkdirRequest) : M Entry := λ w,
  let '(r, w') := Mkdir m request w in answer (EvMkdir request r) r w'.
Definition call_Trash (trash : TrashRequest → W → option error * W) (request : TrashRequest) :
    M (option error) := λ w,
  let '(r, w') := trash request w in (Returned r, [EvTrash request r], w').

Definition call_Preserve (preserve : PreserveDestinationRequest → ReadStreamOptions →
      option (option error) → W → preserve_action * W)
    (request : PreserveDestinationRequest) (options : ReadStreamOptions)
    (resume : option (option error)) : M preserve_action := λ w,
  let '(a, w') := preserve request options resume w in
  (Returned a,
   match a with PreserveDone r err => [EvPreserve request r err] | PreserveGate _ => [] end, w').

Definition call_ServerCopy
    (f : Location → Location → Fingerprint → Z → W → result error Entry * W)
    (source part : Location) (expected : Fingerprint) (max : Z) : M Entry := λ w,
  let '(r, w') := f source part expected max w in
  answer (EvServerCopy source part expected max r) r w'.
Definition call_StageCopy (f : SameHostCopyBackend W) (source part : Location)
    (binding : SameHostCopyBinding) : M SameHostCopyStageResult := λ w,
  let '(r, w') := f source part binding w in answer (EvStageCopy source part binding r) r w'.

(** Handles. *)
Definition call_OpenRead (p : Provider W) (request : OpenReadRequest) : M (ReadHandle W) := λ w,
  let '(r, w') := OpenRead p request w in
  match r with
  | Ok h => (Returned h, [EvOpenRead request (Ok (Info h))], w')
  | Err e => (Failed e, [EvOpenRead request (Err e)], w')
  end.
Definition read_event (l : Location) (size : Z) (call : W → IOResult * W) : M IOResult := λ w,
  let '(r, w') := call w in (Returned r, [EvRead l size r], w').
Definition call_Read (l : Location) (h : ReadHandle W) (size : Z) : M IOResult :=
  read_event l size (Read h size).
Definition call_ReadAhead (l : Location) (f : Z → Z → W → IOResult * W) (size max : Z) : M IOResult :=
  read_event l size (f size max).
Definition call_ReadStream (l : Location)
    (f : Z → ReadStreamOptions → option (option error) → W → stream_action * W) (size : Z)
    (options : ReadStreamOptions) (resume : option (option error)) : M stream_action := λ w,
  let '(a, w') := f size options resume w in
  (Returned a, match a with StreamDone r => [EvRead l size r] | StreamGate _ => [] end, w').
Definition call_CloseRead (l : Location) (h : ReadHandle W) : M (option error) :=
  err_event (EvCloseRead l) (Read_Close h).
Definition call_OpenWrite (m : MutableProvider W) (request : OpenWriteRequest) :
    M (WriteHandle W) := λ w,
  let '(r, w') := OpenWrite m request w in
  match r with
  | Ok h => (Returned h, [EvOpenWrite request None], w')
  | Err e => (Failed e, [EvOpenWrite request (Some e)], w')
  end.
Definition call_Write (l : Location) (h : WriteHandle W) (data : list byte) :
    M (Z * option error) := λ w,
  let '(r, w') := Write h data w in (Returned r, [EvWrite l data r.1 r.2], w').
Definition call_WriteFrom (l : Location) (f : Pump W)
    (resume : option (list byte * option error)) : M pump_action := λ w,
  let '(a, w') := f resume w in
  (Returned a, match a with PumpDone n err => [EvWriteFrom l n err] | PumpRead _ => [] end, w').
Definition call_Sync (l : Location) (h : WriteHandle W) : M (option error) :=
  err_event (EvSync l) (Sync h).
Definition call_CloseWrite (l : Location) (h : WriteHandle W) : M (option error) :=
  err_event (EvCloseWrite l) (Write_Close h).
Definition call_Truncate (l : Location) (f : Z → W → option error * W) (size : Z) :
    M (option error) := err_event (EvTruncate l size) (f size).

(** The journal, the scheduler and the control. *)
Definition call_Load (j : Journal W) (jobID : string) : M (option Checkpoint) := λ w,
  let '(r, w') := Load j jobID w in answer (EvLoad jobID r) r w'.
Definition call_Save (j : Journal W) (checkpoint : Checkpoint) : M (option error) :=
  err_event (EvSave checkpoint) (Save j checkpoint).
Definition call_Report (f : string → Z → Z → W → option error * W) (phase : string)
    (bytes durable : Z) : M (option error) :=
  err_event (EvReport phase bytes durable) (f phase bytes durable).
Definition call_Wait (s : bandwidthScheduler W) (request : BandwidthRequest) : M (option error) :=
  err_event (EvWait request) (Wait s request).
Definition control_event (checkpoint : Checkpoint) (call : W → ControlAction * W) :
    M ControlAction := λ w,
  let '(a, w') := call w in (Returned a, [EvControl checkpoint a], w').
Definition call_Action (c : Control W) (checkpoint : Checkpoint) : M ControlAction :=
  control_event checkpoint (Action c checkpoint).
Definition call_Observed (c : Control W) (checkpoint : Checkpoint) : M ControlAction :=
  control_event checkpoint (Observed c checkpoint).
(** The calls by what they record. *)
Lemma emits_Snapshot P p : (∀ r, P (EvSnapshot (ep_ID (Descriptor p)) r)) → emits P (call_Snapshot p).
Proof.
  intros H w. unfold trace, call_Snapshot, answer. destruct (Snapshot p w) as [[] ]; by repeat constructor.
Qed.
Lemma emits_List P p request : (∀ r, P (EvList request r)) → emits P (call_List p request).
Proof.
  intros H w. unfold trace, call_List, answer. destruct (List p request w) as [[] ]; by repeat constructor.
Qed.
Lemma emits_Stat P p request : (∀ r, P (EvStat request r)) → emits P (call_Stat p request).
Proof.
  intros H w. unfold trace, call_Stat, answer. destruct (Stat p request w) as [[] ]; by repeat constructor.
Qed.
Lemma emits_Rename P m request : (∀ r, P (EvRename request r)) → emits P (call_Rename m request).
Proof.
  intros H w. unfold trace, call_Rename, answer. destruct (Rename m request w) as [[] ]; by repeat constructor.
Qed.
Lemma emits_Remove P m request : (∀ r, P (EvRemove request r)) → emits P (call_Remove m request).
Proof.
  intros H w. unfold trace, call_Remove. destruct (Remove m request w). by repeat constructor.
Qed.
Lemma emits_Mkdir P m request : (∀ r, P (EvMkdir request r)) → emits P (call_Mkdir m request).
Proof.
  intros HP. apply (emits_answer _ (EvMkdir request)); [|done]. intros w. unfold call_Mkdir.
  destruct (Mkdir m request w). eauto.
Qed.
Lemma emits_Trash P trash request : (∀ r, P (EvTrash request r)) → emits P (call_Trash trash request).
Proof.
  intros H w. unfold trace, call_Trash. destruct (trash request w). by repeat constructor.
Qed.
Lemma emits_read_event P l size call : (∀ r, P (EvRead l size r)) → emits P (read_event l size call).
Proof. intros HP w. unfold trace, read_event. destruct (call w). cbn. auto. Qed.
Lemma emits_control_event P checkpoint call :
  (∀ a, P (EvControl checkpoint a)) → emits P (control_event checkpoint call).
Proof. intros HP w. unfold trace, control_event. destruct (call w). cbn. auto. Qed.
Lemma emits_ReadStream P l f size options resume :
  (∀ r, P (EvRead l size r)) → emits P (call_ReadStream l f size options resume).
Proof. intros HP w. unfold trace, call_ReadStream. destruct (f _ _ _ w) as [[] ?]; cbn; auto. Qed.
Lemma emits_OpenRead P p request :
  (∀ r, P (EvOpenRead request r)) → emits P (call_OpenRead p request).
Proof. intros HP w. unfold trace, call_OpenRead. destruct (OpenRead p request w) as [[] ?]; cbn; auto. Qed.
Lemma emits_Write P l handle data :
  (∀ n err, P (EvWrite l data n err)) → emits P (call_Write l handle data).
Proof. intros HP w. unfold trace, call_Write. destruct (Write handle data w). cbn. auto. Qed.
Lemma emits_Preserve P f request options resume :
  (∀ r err, P (EvPreserve request r err)) → emits P (call_Preserve f request options resume).
Proof. intros HP w. unfold trace, call_Preserve. destruct (f _ _ _ w) as [[] ?]; cbn; auto. Qed.
End Calls.

Create HintDb effects.
#[export] Hint Resolve emits_ret emits_throw emits_panic emits_running emits_lift emits_deref
  emits_bind emits_attempt emits_Snapshot emits_List emits_Stat emits_Rename emits_Remove
  emits_Trash : effects.

(** [effects] walks a handler: it splits binds and branches and leaves the
    conditions on single calls. *)
Ltac effects :=
  repeat first
    [ progress intros
    | apply emits_ret | apply emits_throw | apply emits_panic | apply emits_running
    | apply emits_lift | apply emits_deref | apply emits_bind | apply emits_attempt
    | apply emits_Snapshot | apply emits_List | apply emits_Stat | apply emits_Rename
    | apply emits_Remove | apply emits_Trash | apply emits_err_event | apply emits_read_event
    | apply emits_control_event | apply emits_ReadStream | apply emits_Write | apply emits_Preserve
    | apply emits_OpenRead | apply emits_peek
    | apply emits_tick | apply emits_or_return | apply emits_defer | done
    | match goal with |- emits _ (match ?x with _ => _ end) => destruct x eqn:? end ].
