(* ===== verification/Logic.v ===== *)
(** Reasoning about handlers and the histories they leave.

    A property of a run is a rule on its events: what must hold of an event in
    the history before it.  [runs R h m Q]: started after the history [h], every
    event of [m] obeys the rule [R], however the world answers, and [Q] holds of
    how it ends and of the history then.  Rules and [Q] together express safety
    (nothing is done without its evidence) and what a result is worth. *)
From S2P Require Import Prelude Domain Provider Bandwidth Plan Checkpoint Effects.

Section Logic.
Context {Ev W : Type} (R : list Ev → Ev → Prop).

Fixpoint obeys (h t : list Ev) : Prop :=
  match t with
  | [] => True
  | e :: t => R h e ∧ obeys (h ++ [e]) t
  end.

Lemma obeys_app h t1 t2 : obeys h (t1 ++ t2) ↔ obeys h t1 ∧ obeys (h ++ t1) t2.
Proof.
  revert h; induction t1 as [|e t1 IH]; intros h; cbn.
  { rewrite app_nil_r. tauto. }
  rewrite IH, <-app_assoc. cbn. tauto.
Qed.

Lemma obeys_split h t t1 e t2 : obeys h t → t = t1 ++ e :: t2 → R (h ++ t1) e.
Proof. intros Ho ->. apply obeys_app in Ho as [_ [? _]]. done. Qed.

Lemma obeys_all h t : (∀ t1 e t2, t = t1 ++ e :: t2 → R (h ++ t1) e) → obeys h t.
Proof.
  revert h. induction t as [|e t IH]; intros h Ht; cbn; [done|]. split.
  - rewrite <-(app_nil_r h). by apply (Ht [] e t).
  - apply IH. intros t1 e' t2 ->. rewrite <-app_assoc. by apply (Ht (e :: t1) e' t2).
Qed.

Definition runs {A} (h : list Ev) (m : ME Ev W A) (Q : outcome A → list Ev → Prop) : Prop :=
  ∀ w o t w', m w = (o, t, w') → obeys h t ∧ Q o (h ++ t).

(** A postcondition about values returned; nothing is said of other ends. *)
Definition returning {A} (P : A → list Ev → Prop) (o : outcome A) (h : list Ev) : Prop :=
  match o with Returned a => P a h | _ => True end.

Lemma runs_conseq {A} h (m : ME Ev W A) (Q Q' : outcome A → list Ev → Prop) :
  runs h m Q → (∀ o h', h `prefix_of` h' → Q o h' → Q' o h') → runs h m Q'.
Proof.
  intros Hm HQ w o t w' E. destruct (Hm w o t w' E) as [? ?]. split; [done|].
  apply HQ; [|done]. by exists t.
Qed.

Lemma runs_ret {A} h (a : A) (Q : outcome A → list Ev → Prop) :
  Q (Returned a) h → runs h (mret a) Q.
Proof. intros HQ w o t w' [= <- <- _]. rewrite app_nil_r. done. Qed.
Lemma runs_throw {A} h e (Q : outcome A → list Ev → Prop) :
  Q (Failed e) h → runs h (throw e) Q.
Proof. intros HQ w o t w' [= <- <- _]. rewrite app_nil_r. done. Qed.
Lemma runs_panic {A} h (Q : outcome A → list Ev → Prop) : Q Panicked h → runs h panic Q.
Proof. intros HQ w o t w' [= <- <- _]. rewrite app_nil_r. done. Qed.
Lemma runs_running {A} h (Q : outcome A → list Ev → Prop) : Q Running h → runs h running Q.
Proof. intros HQ w o t w' [= <- <- _]. rewrite app_nil_r. done. Qed.

(** How a bind or an attempt goes on after the first part. *)
Definition then_ {A B} (f : A → ME Ev W B) (Q : outcome B → list Ev → Prop) (o : outcome A)
    (h : list Ev) : Prop :=
  match o with
  | Returned a => runs h (f a) Q
  | Failed e => Q (Failed e) h
  | Panicked => Q Panicked h
  | Running => Q Running h
  end.

Lemma runs_bind {A B} h (m : ME Ev W A) (f : A → ME Ev W B) Q :
  runs h m (then_ f Q) → runs h (m ≫= f) Q.
Proof.
  intros Hm w o t w' E. unfold mbind, M_bind in E.
  destruct (m w) as [[o1 t1] w1] eqn:E1. destruct (Hm w o1 t1 w1 E1) as [Ho HQ].
  destruct o1 as [a| | |]; cbn in HQ; try by injection E as <- <- <-.
  destruct (f a w1) as [[b t2] w2] eqn:E2. injection E as <- <- <-.
  destruct (HQ w1 b t2 w2 E2) as [Ho2 HQ2]. rewrite app_assoc. split; [|done].
  by apply obeys_app.
Qed.

Lemma runs_seq {A B} h (m : ME Ev W A) (f : A → ME Ev W B) (V : A → list Ev → Prop)
    (U : B → list Ev → Prop) :
  runs h m (returning V) →
  (∀ a h', h `prefix_of` h' → V a h' → runs h' (f a) (returning U)) →
  runs h (m ≫= f) (returning U).
Proof.
  intros Hm Hf. apply runs_bind. eapply runs_conseq; [exact Hm|].
  intros [a|e| |] h' Hp H; cbn in *; auto.
Qed.

Lemma runs_attempt {A} h (m : ME Ev W A) Q :
  runs h m (λ o h', match o with
    | Returned a => Q (Returned (Ok a)) h'
    | Failed e => Q (Returned (Err e)) h'
    | Panicked => Q Panicked h'
    | Running => Q Running h'
    end) → runs h (attempt m) Q.
Proof.
  intros Hm w o t w' E. unfold attempt in E.
  destruct (m w) as [[o1 t1] w1] eqn:E1. destruct (Hm w o1 t1 w1 E1) as [Ho HQ].
  by destruct o1; injection E as <- <- <-.
Qed.

Lemma runs_defer {A B} h (cleanup : ME Ev W B) (m : ME Ev W A) Q :
  runs h m (λ o h', match o with
    | Running => Q Running h'
    | _ => runs h' cleanup (λ _ h'', Q o h'')
    end) → runs h (defer cleanup m) Q.
Proof.
  intros Hm w o t w' E. unfold defer in E.
  destruct (m w) as [[o1 t1] w1] eqn:E1. destruct (Hm w o1 t1 w1 E1) as [Ho HQ].
  destruct o1 as [a|e| |]; [| | |by injection E as <- <- <-].
  all: destruct (cleanup w1) as [[o2 t2] w2] eqn:E2; injection E as <- <- <-;
    destruct (HQ w1 o2 t2 w2 E2) as [Ho2 HQ2]; rewrite app_assoc; split; [|done];
    by apply obeys_app.
Qed.

Lemma runs_lift {A} h (r : result error A) Q :
  match r with Ok a => Q (Returned a) h | Err e => Q (Failed e) h end → runs h (lift r) Q.
Proof. destruct r; [apply runs_ret|apply runs_throw]. Qed.
Lemma runs_deref {A} h (p : option A) Q :
  match p with Some a => Q (Returned a) h | None => Q Panicked h end → runs h (deref p) Q.
Proof. destruct p; [apply runs_ret|apply runs_panic]. Qed.
Lemma runs_or_return h (err : option error) Q :
  match err with None => Q (Returned tt) h | Some e => Q (Failed e) h end → runs h (or_return err) Q.
Proof. destruct err; [apply runs_throw|apply runs_ret]. Qed.
Lemma runs_peek {A} h (f : W → A) Q : (∀ a, Q (Returned a) h) → runs h (peek f) Q.
Proof. intros HQ w o t w' [= <- <- _]. rewrite app_nil_r. cbn. auto. Qed.
Lemma runs_tick {A} h (f : W → A * W) Q : (∀ a, Q (Returned a) h) → runs h (tick f) Q.
Proof.
  intros HQ w o t w' E. unfold tick in E. destruct (f w). injection E as <- <- _.
  rewrite app_nil_r. cbn. auto.
Qed.

Lemma runs_answer {A} h (m : ME Ev W A) (ev : result error A → Ev) Q :
  (∀ w, ∃ r w', m w = answer (ev r) r w') →
  (∀ r, R h (ev r) ∧
        match r with Ok a => Q (Returned a) (h ++ [ev r]) | Err e => Q (Failed e) (h ++ [ev r]) end) →
  runs h m Q.
Proof.
  intros Hm Hr w o t w' E. destruct (Hm w) as (r & w1 & E1). rewrite E1 in E.
  destruct (Hr r) as [HR HQ]. destruct r; cbn in E; injection E as <- <- <-; cbn; auto.
Qed.
Lemma runs_err_event h ev (call : W → option error * W) (Q : outcome (option error) → list Ev → Prop) :
  (∀ r, R h (ev r) ∧ Q (Returned r) (h ++ [ev r])) → runs h (err_event ev call) Q.
Proof.
  intros Hr w o t w' E. unfold err_event in E. destruct (call w) as [r w1].
  destruct (Hr r). injection E as <- <- <-. cbn. auto.
Qed.

(** A lawful history stays lawful. *)
Lemma runs_obeys {A} h (m : ME Ev W A) V :
  obeys [] h → runs h m (returning V) → runs h m (returning (λ a h', V a h' ∧ obeys [] h')).
Proof.
  intros Ho Hm w o t w' E. destruct (Hm w o t w' E) as [Ht HV]. split; [done|].
  destruct o as [a| | |]; [|done..]. cbn in *. split; [done|]. by apply obeys_app.
Qed.

(** A handler whose events are all allowed obeys the rule, and what is shown of
    it on its own holds of the part of the history it leaves. *)
Lemma runs_emits {A} h (m : ME Ev W A) P :
  emits P m → (∀ h e, P e → R h e) → runs h m (λ _ h', ∃ t, h' = h ++ t ∧ Forall P t).
Proof.
  intros Hm HR w o t w' E. specialize (Hm w). unfold trace in Hm. rewrite E in Hm. cbn in Hm.
  split; [|by exists t]. clear E. revert h. induction Hm; cbn; auto.
Qed.
End Logic.

(** ** The calls *)
Section Calls.
Context {W : Type} (R : list event → event → Prop).
Local Abbreviation runs := (runs (W := W) R).
Lemma runs_Snapshot h p Q :
  (∀ r, R h (EvSnapshot (ep_ID (Descriptor p)) r) ∧
        match r with Ok a => Q (Returned a) (h ++ [EvSnapshot (ep_ID (Descriptor p)) r])
                   | Err e => Q (Failed e) (h ++ [EvSnapshot (ep_ID (Descriptor p)) r]) end) →
  runs h (call_Snapshot p) Q.
Proof. apply runs_answer. intros w. unfold call_Snapshot. destruct (Snapshot p w). eauto. Qed.
Lemma runs_Stat h p request Q :
  (∀ r, R h (EvStat request r) ∧
        match r with Ok a => Q (Returned a) (h ++ [EvStat request r])
                   | Err e => Q (Failed e) (h ++ [EvStat request r]) end) →
  runs h (call_Stat p request) Q.
Proof. apply runs_answer. intros w. unfold call_Stat. destruct (Stat p request w). eauto. Qed.
Lemma runs_List h p request Q :
  (∀ r, R h (EvList request r) ∧
        match r with Ok a => Q (Returned a) (h ++ [EvList request r])
                   | Err e => Q (Failed e) (h ++ [EvList request r]) end) →
  runs h (call_List p request) Q.
Proof. apply runs_answer. intros w. unfold call_List. destruct (List p request w). eauto. Qed.
Lemma runs_Rename h m request Q :
  (∀ r, R h (EvRename request r) ∧
        match r with Ok a => Q (Returned a) (h ++ [EvRename request r])
                   | Err e => Q (Failed e) (h ++ [EvRename request r]) end) →
  runs h (call_Rename m request) Q.
Proof. apply runs_answer. intros w. unfold call_Rename. destruct (Rename m request w). eauto. Qed.
Lemma runs_Load h j jobID Q :
  (∀ r, R h (EvLoad jobID r) ∧
        match r with Ok a => Q (Returned a) (h ++ [EvLoad jobID r])
                   | Err e => Q (Failed e) (h ++ [EvLoad jobID r]) end) →
  runs h (call_Load j jobID) Q.
Proof. apply runs_answer. intros w. unfold call_Load. destruct (Load j jobID w). eauto. Qed.
Lemma runs_ServerCopy h f source part fp max Q :
  (∀ r, R h (EvServerCopy source part fp max r) ∧
        match r with Ok a => Q (Returned a) (h ++ [EvServerCopy source part fp max r])
                   | Err e => Q (Failed e) (h ++ [EvServerCopy source part fp max r]) end) →
  runs h (call_ServerCopy f source part fp max) Q.
Proof. apply runs_answer. intros w. unfold call_ServerCopy. destruct (f _ _ _ _ w). eauto. Qed.
Lemma runs_StageCopy h f source part binding Q :
  (∀ r, R h (EvStageCopy source part binding r) ∧
        match r with Ok a => Q (Returned a) (h ++ [EvStageCopy source part binding r])
                   | Err e => Q (Failed e) (h ++ [EvStageCopy source part binding r]) end) →
  runs h (call_StageCopy f source part binding) Q.
Proof. apply runs_answer. intros w. unfold call_StageCopy. destruct (f _ _ _ w). eauto. Qed.

Lemma runs_Remove h m request Q :
  (∀ r, R h (EvRemove request r) ∧ Q (Returned r) (h ++ [EvRemove request r])) →
  runs h (call_Remove m request) Q.
Proof.
  intros Hr w o t w' E. unfold call_Remove in E. destruct (Remove m request w) as [r w1].
  destruct (Hr r). injection E as <- <- <-. cbn. auto.
Qed.
Lemma runs_OpenRead h p request (Q : outcome (ReadHandle W) → list event → Prop) :
  (∀ handle, R h (EvOpenRead request (Ok (Info handle))) ∧
             Q (Returned handle) (h ++ [EvOpenRead request (Ok (Info handle))])) →
  (∀ e, R h (EvOpenRead request (Err e)) ∧ Q (Failed e) (h ++ [EvOpenRead request (Err e)])) →
  runs h (call_OpenRead p request) Q.
Proof.
  intros Hok Herr w o t w' E. unfold call_OpenRead in E. destruct (OpenRead p request w) as [[a|e] w1].
  - destruct (Hok a). injection E as <- <- <-. cbn. auto.
  - destruct (Herr e). injection E as <- <- <-. cbn. auto.
Qed.
Lemma runs_OpenWrite h m request (Q : outcome (WriteHandle W) → list event → Prop) :
  (∀ handle w w', OpenWrite m request w = (Ok handle, w') →
     R h (EvOpenWrite request None) ∧ Q (Returned handle) (h ++ [EvOpenWrite request None])) →
  (∀ e, R h (EvOpenWrite request (Some e)) ∧ Q (Failed e) (h ++ [EvOpenWrite request (Some e)])) →
  runs h (call_OpenWrite m request) Q.
Proof.
  intros Hok Herr w o t w' E. unfold call_OpenWrite in E.
  destruct (OpenWrite m request w) as [[a|e] w1] eqn:Eo.
  - destruct (Hok a w w1 Eo). injection E as <- <- <-. cbn. auto.
  - destruct (Herr e). injection E as <- <- <-. cbn. auto.
Qed.
Lemma runs_read_event h l size call (Q : outcome IOResult → list event → Prop) :
  (∀ r, R h (EvRead l size r) ∧ Q (Returned r) (h ++ [EvRead l size r])) →
  runs h (read_event (W := W) l size call) Q.
Proof.
  intros Hr w o t w' E. unfold read_event in E. destruct (call w) as [r w1].
  destruct (Hr r). injection E as <- <- <-. cbn. auto.
Qed.
Lemma runs_ReadStream h l f size options resume (Q : outcome stream_action → list event → Prop) :
  (∀ n, Q (Returned (StreamGate n)) h) →
  (∀ r, R h (EvRead l size r) ∧ Q (Returned (StreamDone r)) (h ++ [EvRead l size r])) →
  runs h (call_ReadStream (W := W) l f size options resume) Q.
Proof.
  intros Hg Hr w o t w' E. unfold call_ReadStream in E.
  destruct (f size options resume w) as [[n|r] w1]; injection E as <- <- <-.
  - rewrite app_nil_r. cbn. auto.
  - destruct (Hr r). cbn. auto.
Qed.
Lemma runs_Write h l handle data (Q : outcome (Z * option error) → list event → Prop) :
  (∀ n err, R h (EvWrite l data n err) ∧ Q (Returned (n, err)) (h ++ [EvWrite l data n err])) →
  runs h (call_Write (W := W) l handle data) Q.
Proof.
  intros Hr w o t w' E. unfold call_Write in E. destruct (Write handle data w) as [[n err] w1].
  destruct (Hr n err). injection E as <- <- <-. cbn. auto.
Qed.
Lemma runs_WriteFrom h l f resume (Q : outcome pump_action → list event → Prop) :
  (∀ size, Q (Returned (PumpRead size)) h) →
  (∀ n err, R h (EvWriteFrom l n err) ∧
            Q (Returned (PumpDone n err)) (h ++ [EvWriteFrom l n err])) →
  runs h (call_WriteFrom (W := W) l f resume) Q.
Proof.
  intros Hg Hr w o t w' E. unfold call_WriteFrom in E.
  destruct (f resume w) as [[n|n err] w1]; injection E as <- <- <-.
  - rewrite app_nil_r. cbn. auto.
  - destruct (Hr n err). cbn. auto.
Qed.
Lemma runs_Preserve h f request options resume (Q : outcome preserve_action → list event → Prop) :
  (∀ n, Q (Returned (PreserveGate n)) h) →
  (∀ r err, R h (EvPreserve request r err) ∧
            Q (Returned (PreserveDone r err)) (h ++ [EvPreserve request r err])) →
  runs h (call_Preserve (W := W) f request options resume) Q.
Proof.
  intros Hg Hr w o t w' E. unfold call_Preserve in E.
  destruct (f request options resume w) as [[n|r err] w1]; injection E as <- <- <-.
  - rewrite app_nil_r. cbn. auto.
  - destruct (Hr r err). cbn. auto.
Qed.
Lemma runs_control_event h checkpoint call (Q : outcome ControlAction → list event → Prop) :
  (∀ a, R h (EvControl checkpoint a) ∧ Q (Returned a) (h ++ [EvControl checkpoint a])) →
  runs h (control_event (W := W) checkpoint call) Q.
Proof.
  intros Hr w o t w' E. unfold control_event in E. destruct (call w) as [a w1].
  destruct (Hr a). injection E as <- <- <-. cbn. auto.
Qed.

End Calls.


(** * A handler on its own

    [sees P m Q]: the events of [m] satisfy [P], and [Q] holds of how it ends and
    of them. *)
Section Sees.
Context {Ev W : Type} (P : Ev → Prop).

Definition sees {A} (m : ME Ev W A) (Q : outcome A → list Ev → Prop) : Prop :=
  ∀ w o t w', m w = (o, t, w') → Forall P t ∧ Q o t.

Lemma sees_emits {A} (m : ME Ev W A) : sees m (λ _ _, True) ↔ emits P m.
Proof.
  split.
  - intros Hm w. unfold trace. destruct (m w) as [[o t] w'] eqn:E. by destruct (Hm w o t w' E).
  - intros Hm w o t w' E. specialize (Hm w). unfold trace in Hm. by rewrite E in Hm.
Qed.
Lemma sees_conseq {A} (m : ME Ev W A) (Q Q' : outcome A → list Ev → Prop) :
  sees m Q → (∀ o t, Forall P t → Q o t → Q' o t) → sees m Q'.
Proof. intros Hm HQ w o t w' E. destruct (Hm w o t w' E). auto. Qed.
Lemma sees_ret {A} (a : A) (Q : outcome A → list Ev → Prop) : Q (Returned a) [] → sees (mret a) Q.
Proof. intros HQ w o t w' [= <- <- _]. auto. Qed.
Lemma sees_throw {A} e (Q : outcome A → list Ev → Prop) : Q (Failed e) [] → sees (throw e) Q.
Proof. intros HQ w o t w' [= <- <- _]. auto. Qed.
Lemma sees_running {A} (Q : outcome A → list Ev → Prop) : Q Running [] → sees running Q.
Proof. intros HQ w o t w' [= <- <- _]. auto. Qed.
Lemma sees_panic {A} (Q : outcome A → list Ev → Prop) : Q Panicked [] → sees panic Q.
Proof. intros HQ w o t w' [= <- <- _]. auto. Qed.

Definition sees_then {A B} (f : A → ME Ev W B) (Q : outcome B → list Ev → Prop) (o : outcome A)
    (t : list Ev) : Prop :=
  match o with
  | Returned a => sees (f a) (λ o' t', Q o' (t ++ t'))
  | Failed e => Q (Failed e) t
  | Panicked => Q Panicked t
  | Running => Q Running t
  end.
Lemma sees_bind {A B} (m : ME Ev W A) (f : A → ME Ev W B) Q :
  sees m (sees_then f Q) → sees (m ≫= f) Q.
Proof.
  intros Hm w o t w' E. unfold mbind, M_bind in E.
  destruct (m w) as [[o1 t1] w1] eqn:E1. destruct (Hm w o1 t1 w1 E1) as [Ho HQ].
  destruct o1 as [a| | |]; cbn in HQ; try by injection E as <- <- <-.
  destruct (f a w1) as [[b t2] w2] eqn:E2. injection E as <- <- <-.
  destruct (HQ w1 b t2 w2 E2) as [Ho2 HQ2]. split; [|done]. by apply Forall_app_2.
Qed.
Lemma sees_seq {A B} (m : ME Ev W A) (f : A → ME Ev W B) (V : A → list Ev → Prop)
    (U : B → list Ev → Prop) :
  sees m (returning V) →
  (∀ a t, Forall P t → V a t → sees (f a) (returning (λ b t', U b (t ++ t')))) →
  sees (m ≫= f) (returning U).
Proof.
  intros Hm Hf. apply sees_bind. eapply sees_conseq; [exact Hm|].
  intros [a|e| |] t Hp H; cbn in *; [|done..].
  eapply sees_conseq; [by apply Hf|]. by intros [].
Qed.
Lemma sees_attempt {A} (m : ME Ev W A) Q :
  sees m (λ o t, match o with
    | Returned a => Q (Returned (Ok a)) t
    | Failed e => Q (Returned (Err e)) t
    | Panicked => Q Panicked t
    | Running => Q Running t
    end) → sees (attempt m) Q.
Proof.
  intros Hm w o t w' E. unfold attempt in E.
  destruct (m w) as [[o1 t1] w1] eqn:E1. destruct (Hm w o1 t1 w1 E1) as [Ho HQ].
  by destruct o1; injection E as <- <- <-.
Qed.
Lemma sees_defer {A B} (cleanup : ME Ev W B) (m : ME Ev W A) Q :
  sees m (λ o t, match o with
    | Running => Q Running t
    | _ => sees cleanup (λ _ t', Q o (t ++ t'))
    end) → sees (defer cleanup m) Q.
Proof.
  intros Hm w o t w' E. unfold defer in E.
  destruct (m w) as [[o1 t1] w1] eqn:E1. destruct (Hm w o1 t1 w1 E1) as [Ho HQ].
  destruct o1 as [a|e| |]; [| | |by injection E as <- <- <-].
  all: destruct (cleanup w1) as [[o2 t2] w2] eqn:E2; injection E as <- <- <-;
    destruct (HQ w1 o2 t2 w2 E2) as [Ho2 HQ2]; split; [by apply Forall_app_2|done].
Qed.
Lemma sees_lift {A} (r : result error A) Q :
  match r with Ok a => Q (Returned a) [] | Err e => Q (Failed e) [] end → sees (lift r) Q.
Proof. destruct r; [apply sees_ret|apply sees_throw]. Qed.
Lemma sees_or_return (err : option error) Q :
  match err with None => Q (Returned tt) [] | Some e => Q (Failed e) [] end → sees (or_return err) Q.
Proof. destruct err; [apply sees_throw|apply sees_ret]. Qed.
Lemma sees_peek {A} (f : W → A) Q : (∀ a, Q (Returned a) []) → sees (peek f) Q.
Proof. intros HQ w o t w' [= <- <- _]. auto. Qed.
Lemma sees_err_event ev (call : W → option error * W) (Q : outcome (option error) → list Ev → Prop) :
  (∀ r, P (ev r) ∧ Q (Returned r) [ev r]) → sees (err_event ev call) Q.
Proof.
  intros Hr w o t w' E. unfold err_event in E. destruct (call w) as [r w1].
  destruct (Hr r). injection E as <- <- <-. auto.
Qed.
End Sees.
Section SeesCalls.
Context {W : Type} (P : event → Prop).
Local Abbreviation sees := (sees (W := W) P).
Lemma sees_read_event l size call (Q : outcome IOResult → list event → Prop) :
  (∀ r, P (EvRead l size r) ∧ Q (Returned r) [EvRead l size r]) →
  sees (read_event (W := W) l size call) Q.
Proof.
  intros Hr w o t w' E. unfold read_event in E. destruct (call w) as [r w1].
  destruct (Hr r). injection E as <- <- <-. auto.
Qed.
Lemma sees_Stat p request Q :
  (∀ r, P (EvStat request r) ∧
        match r with Ok a => Q (Returned a) [EvStat request r]
                   | Err e => Q (Failed e) [EvStat request r] end) →
  sees (call_Stat p request) Q.
Proof.
  intros Hr w o t w' E. unfold call_Stat in E. destruct (Stat p request w) as [r w1].
  destruct (Hr r). destruct r; injection E as <- <- <-; auto.
Qed.
Lemma sees_OpenRead p request (Q : outcome (ReadHandle W) → list event → Prop) :
  (∀ r, P (EvOpenRead request r)) →
  (∀ handle, Q (Returned handle) [EvOpenRead request (Ok (Info handle))]) →
  (∀ e, Q (Failed e) [EvOpenRead request (Err e)]) →
  sees (call_OpenRead p request) Q.
Proof.
  intros HP Hok Herr w o t w' E. unfold call_OpenRead in E.
  destruct (OpenRead p request w) as [[a|e] w1]; injection E as <- <- <-; auto.
Qed.
End SeesCalls.

Lemma sees_weaken {W A} (P P' : event → Prop) (m : M W A) Q :
  sees P' m Q → (∀ e, P' e → P e) → sees P m (λ o t, Forall P' t ∧ Q o t).
Proof.
  intros Hm HP w o t w' E. destruct (Hm w o t w' E) as [Hp HQ]. split; [|done].
  by eapply Forall_impl.
Qed.

(** What is shown of a handler on its own holds wherever its events are allowed. *)
Lemma runs_sees {W A} R h P (m : M W A) Q :
  sees P m Q → (∀ h e, P e → R h e) →
  runs R h m (λ o h', ∃ t, h' = h ++ t ∧ Forall P t ∧ Q o t).
Proof.
  intros Hm HR w o t w' E. destruct (Hm w o t w' E) as [Hp HQ]. split; [|by exists t].
  clear E HQ. revert h. induction Hp; cbn; auto.
Qed.

Lemma obeys_impl (R R' : list event → event → Prop) h t :
  (∀ h e, R h e → R' h e) → obeys R h t → obeys R' h t.
Proof. intros HR. revert h; induction t; cbn; naive_solver. Qed.

(** [past_guard E] takes a handler past the guard in front of it; what the guard
    rejects ends at once, and says nothing. *)
Ltac past_guard E :=
  cbv zeta;
  match goal with
  | |- runs _ _ (if ?b then _ else _) _ =>
    destruct b eqn:E; [by first [apply runs_throw | apply runs_ret]|]
  end.
Ltac past := let E := fresh "E" in past_guard E.
