(* ===== verification/Mutation.v ===== *)
(** Deletion and atomic moves (src/internal/transfer/delete.go, the atomic half
    of move.go, and the helpers of plan.go and worker.go they call).

    The manager's handlers check the frozen capabilities, look at the source
    again, and only then mutate; a call whose effect is unknown is settled by
    looking at the result. *)
From stdpp Require Import pretty.
From S2P Require Import Prelude Domain GoPath Provider Plan Checkpoint Effects.

Section Handlers.
Context {W : Type}.
(** The manager's resolver. *)
Context (Resolve : string → result error (Provider W)).

Definition stat (p : Provider W) (location : Location) : M W Entry :=
  call_Stat p (mkStatRequest location false).

(** [domain.IsCode(err, CodeNotFound)] of the error of an attempted [Stat]. *)
Definition is_not_found {A} (r : result error A) : bool :=
  match r with Err e => IsCode e CodeNotFound | Ok _ => false end.

Definition requireFrozenCapability (p : Provider W) (location : Location)
    (binding : CapabilityBinding) : M W () :=
  snapshot ← call_Snapshot p;
  let capabilities := es_Capabilities snapshot in
  if negb (Complete capabilities) ||
     negb (bool_decide (Revision capabilities = bind_Revision binding))
  then throw (planError CodeCapabilityLost "execute_copy" location
                "capability revision changed after planning" RetryAfterReplan) else
  match Capability_Lookup capabilities (cap_Name (bind_Capability binding)) with
  | Some current =>
    if negb (bool_decide (current = bind_Capability binding))
    then throw (planError CodeCapabilityLost "execute_copy" location
                  "frozen capability changed after planning" RetryAfterReplan)
    else mret tt
  | None => throw (planError CodeCapabilityLost "execute_copy" location
                     "frozen capability changed after planning" RetryAfterReplan)
  end.

Definition operationEffectUnknown (err : error) : bool :=
  match op_effect err with Some effect => String.eqb effect EffectUnknown | None => false end.

(** * Removing one entry (move.go) *)
Definition removeWithPostcondition (reader : Provider W) (writer : MutableProvider W)
    (entry : Entry) : M W () :=
  err ← call_Remove writer (mkRemoveRequest (entry_Location entry) (Some (entry_Fingerprint entry)));
  let prove :=
    r ← attempt (stat reader (entry_Location entry));
    match r with
    | Err statErr =>
      if IsCode statErr CodeNotFound then mret tt
      else throw (EWrap "prove source deletion" statErr)
    | Ok _ =>
      match err with
      | Some err => throw err
      | None => throw (planError CodeConflict "delete_move_source" (entry_Location entry)
                         "source still exists after delete response" RetryAfterConflict)
      end
    end in
  match err with
  | Some err => if negb (operationEffectUnknown err) then throw err else prove
  | None => prove
  end.

(** * Deleting a tree (delete.go)

    The count of removed entries comes with an error or without one. *)
Definition Removed := (Z (* uint64 *) * option error)%type.

(** The loop over a page's entries; [body] is its body, on the count. *)
Fixpoint delete_entries (body : Z → Entry → M W Removed) (removed : Z) (entries : list Entry) :
    M W Removed :=
  match entries with
  | [] => mret (removed, None)
  | entry :: entries =>
    r ← body removed entry;
    match r with
    | (removed, Some err) => mret (removed, Some err)
    | (removed, None) => delete_entries body removed entries
    end
  end.

(** A failing call ends the function with the count so far. *)
Definition or_fail {A} (removed : Z) (m : M W A) (k : A → M W Removed) : M W Removed :=
  r ← attempt m;
  match r with Ok a => k a | Err err => mret (removed, Some err) end.

Section Tree.
Context (reader : Provider W) (writer : MutableProvider W) (budget : DiscoveryBudget).

(** The body of the inner loop, given the recursive call. *)
Definition delete_entry (recurse : Location → M W Removed) (directory : Location)
    (removed : Z) (entry : Entry) : M W Removed :=
  or_fail removed (lift (validateDiscoveredEntry directory directory entry)) (λ _,
  if String.eqb (entry_Kind entry) EntryDirectory then
    r ← recurse (entry_Location entry);
    let '(children, err) := r in
    let removed := u64 (removed + children) in
    mret (removed, err)
  else
    or_fail removed (removeWithPostcondition reader writer entry) (λ _,
    mret (u64 (removed + 1), None))).

(** After the loop: the emptied directory itself. *)
Definition delete_self (directory : Location) (removed : Z) : M W Removed :=
  or_fail removed (stat reader directory) (λ current,
  or_fail removed (removeWithPostcondition reader writer current) (λ _,
  mret (u64 (removed + 1), None))).

Definition depth_checked (loop : Location → Z → Z → M W Removed) (directory : Location)
    (depth : Z) : M W Removed :=
  if depth >=? MaxDepth budget
  then mret (0, Some (planError CodeResourceExhausted "recursive_delete" directory
                        "delete depth budget exhausted" RetryAfterReplan))
  else loop directory depth 0.

(** The loop that lists the directory until it is empty. *)
Fixpoint delete_loop (fuel : nat) (directory : Location) (depth removed : Z) : M W Removed :=
  match fuel with
  | O => running
  | S fuel =>
    or_fail removed (call_List reader (mkListRequest directory "" (PageItems budget) None)) (λ page,
    match page_Entries page with
    | [] => delete_self directory removed
    | entries =>
      r ← delete_entries
            (delete_entry (λ child, depth_checked (delete_loop fuel) child (u32 (depth + 1)))
               directory) removed entries;
      match r with
      | (removed, Some err) => mret (removed, Some err)
      | (removed, None) => delete_loop fuel directory depth removed
      end
    end)
  end.

Definition deleteExplicitTree (fuel : nat) (directory : Location) (depth : Z) : M W Removed :=
  depth_checked (delete_loop fuel) directory depth.
End Tree.

(** The handler. *)
Definition completed_delete (plan : Plan) (items : Z) : Result :=
  mkResult OutcomeCompleted (ref_Location (Source plan)) 0 items items.

Definition executeDelete (fuel : nat) (plan : Plan) : M W Result :=
  let source := ref_Location (Source plan) in
  implementation ← lift (Resolve (loc_EndpointID source));
  match mutable_facet implementation with
  | None => throw (planError CodeUnsupported "delete" source
                     "delete capability has no mutation facet" RetryAfterReplan)
  | Some mutable =>
    _ ← requireFrozenCapability implementation source (SourceCapability plan);
    _ ← requireFrozenCapability implementation source (DestinationCapability plan);
    r ← attempt (stat implementation source);
    match r with
    | Err err => if IsCode err CodeNotFound then mret (completed_delete plan 1) else throw err
    | Ok entry =>
      if negb (String.eqb (entry_Kind entry) (ref_Kind (Source plan))) ||
         negb (bool_decide (entry_Fingerprint entry = ref_Fingerprint (Source plan)))
      then throw (planError CodeConflict "delete" source "delete target changed after confirmation"
                    RetryAfterConflict) else
      if DeleteTrash plan then
        match trash_facet implementation, DeleteCapability plan with
        | Some trash, Some capability =>
          _ ← requireFrozenCapability implementation source capability;
          err ← call_Trash trash (mkTrashRequest (entry_Location entry)
                                    (Some (entry_Fingerprint entry)));
          let prove :=
            r ← attempt (stat implementation (entry_Location entry));
            match r with
            | Ok _ => throw (planError CodeConflict "trash" (entry_Location entry)
                "trash postcondition did not remove source identity" RetryAfterConflict)
            | Err statErr =>
              if IsCode statErr CodeNotFound then mret (completed_delete plan 1) else throw statErr
            end in
          match err with
          | Some err => if negb (operationEffectUnknown err) then throw err else prove
          | None => prove
          end
        | _, _ => throw (planError CodeUnsupported "trash" source
                           "frozen trash capability is unavailable" RetryAfterReplan)
        end
      else if String.eqb (entry_Kind entry) EntryDirectory && DeleteRecursive plan then
        budget ← deref (Discovery plan);
        r ← deleteExplicitTree implementation mutable budget fuel (entry_Location entry) 0;
        match r with
        | (_, Some err) => throw err
        | (items, None) => mret (completed_delete plan items)
        end
      else
        _ ← removeWithPostcondition implementation mutable entry;
        mret (completed_delete plan 1)
    end
  end.

(** * Atomic moves (move.go) *)
Definition atomicMoveResult (plan : Plan) (final : Location) : Result :=
  mkResult OutcomeCompleted final (default 0 (fp_Size (ref_Fingerprint (Source plan)))) 1 1.

Definition proveAtomicMove (implementation : Provider W) (plan : Plan) (final : Location) :
    M W bool :=
  r ← attempt (stat implementation (ref_Location (Source plan)));
  match r with
  | Ok _ => mret false
  | Err sourceErr =>
    if negb (IsCode sourceErr CodeNotFound) then throw sourceErr else
    finalEntry ← stat implementation final;
    mret (String.eqb (entry_Kind finalEntry) (ref_Kind (Source plan)) &&
          bool_decide (entry_Fingerprint finalEntry = ref_Fingerprint (Source plan)))
  end.

Definition locationExists (implementation : Provider W) (location : Location) : M W bool :=
  r ← attempt (stat implementation location);
  match r with
  | Ok _ => mret true
  | Err err => if IsCode err CodeNotFound then mret false else throw err
  end.

(** [fmt.Sprintf("%s (%d)%s", stem, suffix, extension)]. *)
Definition rename_candidate (stem extension : string) (suffix : N) : string :=
  stem +:+ " (" +:+ pretty suffix +:+ ")" +:+ extension.

(** The loop, [tries] turns before the last suffix 1000. *)
Fixpoint autoRename_loop (implementation : Provider W) (directory : Location)
    (stem extension : string) (tries : nat) (suffix : N) : M W Location :=
  match tries with
  | O => throw (planError CodeResourceExhausted "plan_copy" directory
                  "auto-rename candidate budget exhausted" RetryAfterConflict)
  | S tries =>
    let candidate := childLocation directory (rename_candidate stem extension suffix) in
    exists_ ← locationExists implementation candidate;
    if negb exists_ then mret candidate
    else autoRename_loop implementation directory stem extension tries (suffix + 1)
  end.

Definition chooseAutoRename (implementation : Provider W) (directory : Location) (name : string) :
    M W Location :=
  let extension := path_Ext name in
  let stem := str (TrimSuffix (chars name) (chars extension)) in
  autoRename_loop implementation directory stem extension 1000 1.

(** The rename and its proof, once the destination is settled. *)
Definition rename_and_prove (implementation : Provider W) (mutable : MutableProvider W)
    (plan : Plan) (sourceEntry : Entry) (final : Location) (replaced : option Entry) :
    M W Result :=
  let request := mkRenameRequest (ref_Location (Source plan)) final
    (bool_decide (is_Some replaced)) (Some (entry_Fingerprint sourceEntry))
    (entry_Fingerprint <$> replaced) in
  r ← attempt (call_Rename mutable request);
  match r with
  | Err renameErr =>
    p ← attempt (proveAtomicMove implementation plan final);
    match p with
    | Ok true => mret (atomicMoveResult plan final)
    | _ => throw renameErr
    end
  | Ok renameResult =>
    if negb (Atomic renameResult)
    then throw (planError CodeIntegrityFailed "atomic_move" final
                  "provider violated frozen atomic rename capability" RetryNever) else
    proved ← proveAtomicMove implementation plan final;
    if negb proved
    then throw (planError CodeConflict "atomic_move" final
                  "atomic rename postcondition is unproved" RetryAfterConflict)
    else mret (atomicMoveResult plan final)
  end.

Definition executeAtomicMove (plan : Plan) : M W Result :=
  let source := ref_Location (Source plan) in
  implementation ← lift (Resolve (loc_EndpointID source));
  match mutable_facet implementation with
  | None => throw (planError CodeUnsupported "atomic_move" source
                     "atomic rename capability has no mutation facet" RetryAfterReplan)
  | Some mutable =>
    capability ← deref (MoveCapability plan);
    _ ← requireFrozenCapability implementation source capability;
    let final := Final plan in
    s ← attempt (stat implementation source);
    match s with
    | Err sourceErr =>
      if IsCode sourceErr CodeNotFound then
        f ← attempt (stat implementation final);
        match f with
        | Ok finalEntry =>
          if bool_decide (entry_Fingerprint finalEntry = ref_Fingerprint (Source plan))
          then mret (atomicMoveResult plan final)
          else throw (planError CodeConflict "atomic_move" source
                 "source is absent and rename postcondition is unproved" RetryAfterConflict)
        | Err _ => throw (planError CodeConflict "atomic_move" source
                 "source is absent and rename postcondition is unproved" RetryAfterConflict)
        end
      else throw sourceErr
    | Ok sourceEntry =>
      if negb (String.eqb (entry_Kind sourceEntry) (ref_Kind (Source plan))) ||
         negb (bool_decide (entry_Fingerprint sourceEntry = ref_Fingerprint (Source plan)))
      then throw (planError CodeConflict "atomic_move" source
                    "source changed before atomic rename" RetryAfterConflict) else
      f ← attempt (stat implementation final);
      match f with
      | Err finalErr =>
        if IsCode finalErr CodeNotFound
        then rename_and_prove implementation mutable plan sourceEntry final None
        else throw finalErr
      | Ok finalEntry =>
        if String.eqb (ConflictPolicy plan) ConflictAsk
        then mret (mkResult OutcomeWaitingConflict final 0 0 0) else
        if String.eqb (ConflictPolicy plan) ConflictSkip
        then mret (mkResult OutcomeSkipped final 0 0 0) else
        if String.eqb (ConflictPolicy plan) ConflictAutoRename
        then
          final ← chooseAutoRename implementation (DestinationDirectory plan) (RequestedName plan);
          rename_and_prove implementation mutable plan sourceEntry final None
        else
          rename_and_prove implementation mutable plan sourceEntry final
            (if String.eqb (ConflictPolicy plan) ConflictOverwrite then Some finalEntry else None)
      end
    end
  end.
End Handlers.
