(* ===== verification/NameFacts.v ===== *)
(** The names that planning gives: children of a directory, parts and the
    candidates of automatic renaming. *)
From stdpp Require Import pretty.
From S2P Require Import Prelude Domain GoPath Provider Plan Checkpoint Effects Mutation.

(** * Candidates *)
Lemma chars_app a b : chars (a +:+ b) = chars a ++ chars b.
Proof. induction a as [|c a IH]; cbn; [done|]. by rewrite <-IH. Qed.

Lemma length_chars s : length (chars s) = String.length s.
Proof. induction s; cbn; congruence. Qed.

Lemma pretty_slashless (n : N) : SLASH ∉ chars (pretty n).
Proof.
  assert (∀ x s, SLASH ∉ chars s → SLASH ∉ chars (pretty_N_go x s)) as Hgo.
  { intros x. induction (N.lt_wf_0 x) as [x _ IH]. intros s Hs.
    destruct (decide (0 < x)%N) as [Hx|Hx].
    - rewrite pretty_N_go_step by done. apply IH; [by apply N.div_lt|].
      cbn. rewrite not_elem_of_cons. split; [|done].
      generalize (x `mod` 10)%N. intros d. destruct d as [|p]; [done|].
      repeat (destruct p as [p|p|]; try done).
    - by replace x with 0%N by lia. }
  unfold pretty, pretty_N. case_decide; [by apply not_elem_of_cons; split; [|apply not_elem_of_nil]|].
  apply Hgo, not_elem_of_nil.
Qed.

Lemma ext_of_suffix e : ∃ s, e = s ++ ext_of e.
Proof.
  induction e as [|c e [s IH]]; [by exists []|]. cbn.
  destruct (_ && _); [by exists []|]. exists (c :: s). by rewrite IH at 1.
Qed.
Lemma rename_candidate_name name n :
  SLASH ∉ chars name →
  let candidate := rename_candidate (str (TrimSuffix (chars name) (chars (path_Ext name))))
                     (path_Ext name) n in
  normal (chars candidate) ∧ SLASH ∉ chars candidate.
Proof.
  intros Hs candidate. unfold candidate, rename_candidate, path_Ext.
  rewrite !chars_app, !chars_str. unfold ext, last_elem. rewrite split_slashless_one by done.
  cbn [List.last]. destruct (ext_of_suffix (chars name)) as [pre Hpre].
  set (e := ext_of (chars name)) in *. set (stem := TrimSuffix (chars name) e).
  assert (SLASH ∉ stem) as Hstem.
  { unfold stem, TrimSuffix. case_match; [|done]. intros Hin. apply Hs.
    eapply elem_of_submseteq; [exact Hin|]. apply sublist_submseteq, sublist_take. }
  assert (SLASH ∉ e) as He by (rewrite Hpre in Hs; rewrite elem_of_app in Hs; tauto).
  pose proof (pretty_slashless n) as Hn. split.
  - assert (" "%char ∈ stem ++ chars " (" ++ chars (pretty n) ++ chars ")" ++ e) as Hin.
    { rewrite !elem_of_app. right. left. by left. }
    split_and!; intros E; rewrite E, ?elem_of_cons, ?elem_of_nil in Hin; naive_solver.
  - rewrite !elem_of_app. change (chars " (") with [" "%char; "("%char].
    change (chars ")") with [")"%char]. rewrite !elem_of_cons, elem_of_nil. 
    intros [?|[[?|[?|?]]|[?|[[?|?]|?]]]]; done.
Qed.

(** * Children

    What a child of a directory is called, whatever the directory is like. *)
Definition child_prefix (d : list ascii) : list ascii :=
  (if rooted d then [SLASH] else []) ++
  match clean_elems (rooted d) (split d) with [] => [] | cs => join cs ++ [SLASH] end.

Lemma join2_child d n :
  d ≠ [] → normal n → SLASH ∉ n → join2 d n = child_prefix d ++ n.
Proof.
  intros Hd Hn Hs. unfold join2. rewrite !bool_decide_eq_false_2 by naive_solver.
  assert (rooted (d ++ SLASH :: n) = rooted d) as Hr by by destruct d as [|c d].
  unfold clean, child_prefix. rewrite Hr, split_app_slash, (split_slashless_one n) by done.
  rewrite clean_elems_normal by by apply Forall_singleton.
  destruct (clean_elems (rooted d) (split d)) as [|c cs] eqn:E.
  - cbn [app join]. rewrite app_nil_r. rewrite bool_decide_eq_false_2; [done|].
    intros [_ ?]%app_eq_nil. by destruct Hn.
  - rewrite join_app by done. cbn [join]. rewrite bool_decide_eq_false_2.
    + by rewrite <-!app_assoc.
    + intros [_ [_ ?]%app_eq_nil]%app_eq_nil. done.
Qed.

Lemma child_prefix_cases d : child_prefix d = [] ∨ ∃ q, child_prefix d = q ++ [SLASH].
Proof.
  unfold child_prefix. destruct (clean_elems _ _) as [|c cs].
  - rewrite app_nil_r. destruct (rooted d); [right; by exists []|by left].
  - right. by eexists (_ ++ _); rewrite <-app_assoc.
Qed.
Lemma last_elem_child d n : SLASH ∉ n → last_elem (child_prefix d ++ n) = n.
Proof.
  intros Hs. destruct (child_prefix_cases d) as [->|[q ->]]; unfold last_elem.
  - by rewrite split_slashless_one.
  - rewrite <-app_assoc. cbn [app]. by rewrite split_app_slash, (split_slashless_one n), last_last.
Qed.

Lemma base_child d n : d ≠ [] → normal n → SLASH ∉ n → base (join2 d n) = n.
Proof.
  intros Hd Hn Hs. rewrite join2_child by done. destruct Hn as (Hne & _ & _).
  unfold base. rewrite bool_decide_eq_false_2 by (intros [_ ?]%app_eq_nil; done).
  set (p := child_prefix d ++ n).
  assert (strip_slashes (length p) p = p) as ->.
  { destruct (length p); [done|]. cbn. rewrite bool_decide_eq_false_2; [done|].
    unfold p. destruct n as [|c n _] using rev_ind; [done|].
    rewrite app_assoc, last_snoc. intros [= ->]. apply Hs. rewrite elem_of_app. right. by left. }
  unfold p. rewrite last_elem_child by done. by rewrite bool_decide_eq_false_2.
Qed.
Lemma base_child_location directory name :
  loc_Path directory ≠ "" → normal (chars name) → SLASH ∉ chars name →
  path_Base (loc_Path (childLocation directory name)) = name.
Proof.
  intros Hd Hn Hs. unfold path_Base, childLocation, path_Join. cbn [loc_Path].
  rewrite chars_str, base_child by (try done; intros E; apply Hd; by rewrite <-(str_chars (loc_Path directory)), E).
  apply str_chars.
Qed.
Lemma childLocation_inj directory n m :
  loc_Path directory ≠ "" → normal (chars n) → SLASH ∉ chars n → normal (chars m) → SLASH ∉ chars m →
  loc_Path (childLocation directory n) = loc_Path (childLocation directory m) → n = m.
Proof.
  intros Hd Hn Hs Hm Hs' E. rewrite <-(base_child_location directory n), <-(base_child_location directory m) by done.
  by rewrite E.
Qed.

(** A name that the planner accepts is a child's name, or the one slash that it
    should not accept. *)
Lemma base_component p : base p = [SLASH] ∨ SLASH ∉ base p.
Proof.
  unfold base. case_bool_decide; [right; by rewrite list_elem_of_singleton|].
  case_bool_decide; [by left|]. right. unfold last_elem.
  pose proof (split_slashless (strip_slashes (length p) p)) as Hs.
  destruct (split _) as [|e es _] using rev_ind; [apply not_elem_of_nil|].
  rewrite last_last. rewrite Forall_app, Forall_singleton in Hs. apply Hs.
Qed.

(** A directory always has a name. *)
Lemma path_Dir_nonempty p : path_Dir p ≠ "".
Proof.
  unfold path_Dir, dir. intros E. apply (f_equal chars) in E. rewrite chars_str in E.
  unfold clean in E. by case_bool_decide.
Qed.
