(* ===== verification/MutationFacts.v ===== *)
(** Theorems of deletion and atomic moves: what is removed or renamed, and what
    a completed handler has proved. *)
From S2P Require Import Prelude Domain GoPath Provider Plan Checkpoint Effects Logic Mutation.

(** * The contract of [Stat]

    An answer is about the location asked for.  Listings need no such
    assumption: the code validates them. *)
Class StatLaw {W} (p : Provider W) :=
  stat_location : ∀ request w entry w',
    Stat p request w = (Ok entry, w') → entry_Location entry = stat_Location request.
Definition honest {W} (Resolve : string → result error (Provider W)) : Prop :=
  ∀ ep p, Resolve ep = Ok p → StatLaw p.

(** * Below a directory *)
Definition below (root p : string) : Prop :=
  ∃ rel, rel ≠ [] ∧ rooted rel = false ∧
    chars p = TrimSuffix (chars root) [SLASH] ++ SLASH :: rel.
Definition at_or_below (root l : Location) : Prop :=
  loc_EndpointID l = loc_EndpointID root ∧
  (loc_Path l = loc_Path root ∨ below (loc_Path root) (loc_Path l)).

Lemma below_trans a b c : below a b → below b c → below a c.
Proof.
  intros (r1 & Hne1 & Hr1 & Eb) (r2 & Hne2 & Hr2 & Ec).
  assert (∃ r, r ≠ [] ∧ rooted r = false ∧
    TrimSuffix (chars b) [SLASH] = TrimSuffix (chars a) [SLASH] ++ SLASH :: r) as (r & Hne & Hr & E).
  { rewrite Eb. destruct r1 as [|x r1 _] using rev_ind; [done|].
    change (SLASH :: r1 ++ [x]) with ((SLASH :: r1) ++ [x]). rewrite app_assoc.
    destruct (decide (x = SLASH)) as [-> |Hx].
    - rewrite TrimSuffix_slash. exists r1. destruct r1; [done|]. done.
    - rewrite TrimSuffix_none by done. exists (r1 ++ [x]). by rewrite <-app_assoc. }
  exists (r ++ SLASH :: r2). rewrite Ec, E, <-app_assoc. split_and!; [by destruct r| |done].
  by destruct r.
Qed.

Lemma at_or_below_refl l : at_or_below l l.
Proof. split; [done|by left]. Qed.

Lemma at_or_below_trans a b c : at_or_below a b → at_or_below b c → at_or_below a c.
Proof.
  intros [E1 H1] [E2 H2]. split; [congruence|].
  destruct H1 as [H1|H1], H2 as [H2|H2]; rewrite ?H1, ?H2 in *; auto.
  right. by eapply below_trans.
Qed.

Lemma below_within a b : below a b → pathWithin a b = true.
Proof.
  intros (r & _ & _ & E). unfold pathWithin. rewrite E. case_bool_decide as H.
  - rewrite H. apply (HasPrefix_app [SLASH]).
  - apply orb_true_iff. right. apply HasPrefix_spec. exists r. by rewrite <-app_assoc.
Qed.

Lemma validated_below root directory entry rel :
  validateDiscoveredEntry root directory entry = Ok rel → at_or_below root (entry_Location entry).
Proof.
  intros H. pose proof (validateDiscoveredEntry_ok _ _ _ _ H) as (He & _ & _ & _ & _ & _ & Hp & Hne & _).
  split; [done|]. right. exists (chars rel). split_and!; [done| |done].
  revert H. unfold validateDiscoveredEntry. cbv zeta.
  match goal with |- (if ?b then _ else _) = _ → _ => destruct b; [done|] end.
  match goal with |- (if ?b then _ else _) = _ → _ => destruct b eqn:E2; [done|] end.
  intros [= <-]. rewrite chars_str. by apply orb_false_iff in E2 as [_ ?].
Qed.

(** * What a deletion calls *)
Section Delete.
Context {W : Type}.

Lemma returns_bind {A B} Q (m : M W A) (f : A → M W B) :
  (∀ a, returns Q (f a)) → returns Q (m ≫= f).
Proof.
  intros Hf w b t w'. unfold mbind, M_bind.
  destruct (m w) as [[[a| | |] t1] w1]; try done.
  destruct (f a w1) as [[b' t'] w''] eqn:E. intros [= -> _ _]. by eapply Hf.
Qed.

Lemma returns_stat (p : Provider W) location :
  StatLaw p → returns (λ e, entry_Location e = location) (stat p location).
Proof.
  intros Hl w e t w'. unfold stat, call_Stat, answer.
  destruct (Stat p (mkStatRequest location false) w) as [[e'|] w1] eqn:E; [|done].
  intros [= <- _ _]. apply Hl in E. exact E.
Qed.

Lemma returns_attempt {A} Q (m : M W A) :
  returns Q m → returns (λ r, ∀ a, r = Ok a → Q a) (attempt m).
Proof.
  intros Hm w r t w'. unfold attempt. destruct (m w) as [[[a| | |] t1] w1] eqn:E; try done.
  - intros [= <- _ _] a' [= <-]. by eapply Hm.
  - by intros [= <- _ _].
Qed.

Lemma emits_or_fail {A} P Q removed (m : M W A) k :
  emits P m → returns Q m → (∀ a, Q a → emits P (k a)) → emits P (or_fail removed m k).
Proof.
  intros Hm Hq Hk. eapply emits_bind_returns;
    [by apply emits_attempt|by apply returns_attempt|].
  intros [a|e] H; [by apply Hk, H|apply emits_ret].
Qed.

(** An entry that a provider has answered with. *)
Definition saw (h : list event) (entry : Entry) : Prop :=
  (∃ request page, EvList request (Ok page) ∈ h ∧ entry ∈ page_Entries page) ∨
  ∃ request, EvStat request (Ok entry) ∈ h.
Lemma saw_mono h h' entry : h `prefix_of` h' → saw h entry → saw h' entry.
Proof.
  intros [t ->] [(request & page & Hin & He)|[request Hin]]; [left; exists request, page|right; exists request];
    rewrite elem_of_app; auto.
Qed.
(** The removal of an entry that was seen, as it was seen. *)
Definition removes_seen (h : list event) (request : RemoveRequest) : Prop :=
  ∃ entry, saw h entry ∧ remove_Location request = entry_Location entry ∧
    remove_Expected request = Some (entry_Fingerprint entry).
(** The calls of a deletion below [root]. *)
Definition delete_call (root : Location) (h : list event) (ev : event) : Prop :=
  match ev with
  | EvRemove request _ => at_or_below root (remove_Location request) ∧ removes_seen h request
  | EvSnapshot _ _ | EvList _ _ | EvStat _ _ => True
  | _ => False
  end.

Context (reader : Provider W) (writer : MutableProvider W) (budget : DiscoveryBudget).
Context `{!StatLaw reader}.
Local Abbreviation safely root h m := (runs (W := W) (delete_call root) h m (λ _ _, True)).

Lemma safely_or_fail {A} root h removed (m : M W A) k V :
  runs (delete_call root) h m (returning V) →
  (∀ a h', h `prefix_of` h' → V a h' → safely root h' (k a)) →
  safely root h (or_fail removed m k).
Proof.
  intros Hm Hk. unfold or_fail. apply runs_bind, runs_attempt. eapply runs_conseq; [exact Hm|].
  intros [a|e| |] h' Hp HV; cbn in *; [by apply Hk|by apply runs_ret|done..].
Qed.
Lemma safely_onward {A B} root h (m : M W A) (f : A → M W B) :
  safely root h m → (∀ a h', h `prefix_of` h' → safely root h' (f a)) → safely root h (m ≫= f).
Proof.
  intros Hm Hf. apply runs_bind. eapply runs_conseq; [exact Hm|].
  intros [a|e| |] h' Hp _; cbn; auto.
Qed.
Lemma safely_looks {A} root h (m : M W A) :
  emits (λ ev, match ev with EvSnapshot _ _ | EvList _ _ | EvStat _ _ => True | _ => False end) m →
  safely root h m.
Proof.
  intros Hm. eapply runs_conseq; [eapply (runs_emits _ _ _ _ Hm)|done]. by intros h' [].
Qed.

Lemma safely_remove root h entry :
  at_or_below root (entry_Location entry) → saw h entry →
  safely root h (removeWithPostcondition reader writer entry).
Proof.
  intros Hroot Hs. unfold removeWithPostcondition. apply runs_bind, runs_Remove. intros err.
  split; [split; [done|by exists entry]|]. cbn [then_]. apply safely_looks. unfold stat. effects.
Qed.
Lemma runs_stat_seen root h location :
  runs (delete_call root) h (stat reader location)
    (returning (λ entry h', entry_Location entry = location ∧ saw h' entry)).
Proof.
  intros w o t w' E. unfold stat, call_Stat, answer in E.
  destruct (Stat reader (mkStatRequest location false) w) as [[e|e] w1] eqn:Es; injection E as <- <- <-;
    (split; [done|]); cbn; [|done]. apply stat_location in Es. split; [done|].
  right. eexists. apply elem_of_app. right. by left.
Qed.

Lemma safely_delete_entries root h body removed entries :
  (∀ removed entry h', h `prefix_of` h' → entry ∈ entries → safely root h' (body removed entry)) →
  safely root h (delete_entries (W := W) body removed entries).
Proof.
  revert h removed; induction entries as [|e entries IH]; intros h removed Hb; cbn; [by apply runs_ret|].
  apply safely_onward; [by apply Hb; [|left]|]. intros [r [err|]] h' Hp; [by apply runs_ret|].
  apply IH. intros r' entry h2 Hp2 Hin. apply Hb; [by etrans|by right].
Qed.

Lemma safely_delete_entry root h recurse directory removed entry :
  at_or_below root directory → saw h entry →
  (∀ child h', at_or_below root child → safely root h' (recurse child)) →
  safely root h (delete_entry reader writer recurse directory removed entry).
Proof.
  intros Hd Hs Hrec. unfold delete_entry.
  eapply safely_or_fail with (V := λ _ _, at_or_below root (entry_Location entry)).
  { apply runs_lift. destruct (validateDiscoveredEntry _ _ _) eqn:E; cbn; [|done].
    apply validated_below in E. by eapply at_or_below_trans. }
  intros rel h1 Hp Hat. destruct (_ =? _)%string.
  - apply safely_onward; [by apply Hrec|]. intros [c e] h2 _. by apply runs_ret.
  - eapply safely_or_fail with (V := λ _ _, True); [|by intros; apply runs_ret].
    eapply runs_conseq; [apply safely_remove; [done|by eapply saw_mono]|by intros []].
Qed.

Lemma safely_delete_loop root h fuel directory depth removed :
  at_or_below root directory →
  safely root h (delete_loop reader writer budget fuel directory depth removed).
Proof.
  revert h directory depth removed; induction fuel as [|fuel IH]; intros h directory depth removed Hd;
    cbn [delete_loop]; [by apply runs_running|].
  eapply safely_or_fail with (V := λ page h', ∀ entry, entry ∈ page_Entries page → saw h' entry).
  { apply runs_List. intros [page|e]; (split; [done|]); [|done]. intros entry He. left. do 2 eexists.
    split; [|exact He]. apply elem_of_app. right. by left. }
  intros page h1 Hp1 Hpage.
  assert (safely root h1 (delete_self reader writer directory removed)) as Hself.
  { unfold delete_self. eapply safely_or_fail; [apply runs_stat_seen|]. intros current h2 _ [<- Hs].
    eapply safely_or_fail with (V := λ _ _, True); [|by intros; apply runs_ret].
    eapply runs_conseq; [by apply safely_remove|by intros []]. }
  destruct (page_Entries page) as [|e entries] eqn:Ee; [done|]. rewrite <-Ee in *.
  apply safely_onward.
  - apply safely_delete_entries. intros r entry h2 Hp2 Hin. apply safely_delete_entry; [done| |].
    + eapply saw_mono; [exact Hp2|by apply Hpage].
    + intros child h3 Hc. unfold depth_checked. destruct (_ >=? _); [by apply runs_ret|by apply IH].
  - intros [r [err|]] h2 _; [by apply runs_ret|by apply IH].
Qed.
End Delete.

(** * Reading traces *)
Section Traces.
Context {W : Type}.

Lemma trace_bind {A B} (m : M W A) (f : A → M W B) w :
  trace (m ≫= f) w =
  trace m w ++ match m w with (Returned a, _, w') => trace (f a) w' | _ => [] end.
Proof.
  unfold trace, mbind, M_bind. destruct (m w) as [[[a|e| |] t] w'] eqn:E; cbn;
    rewrite ?app_nil_r; [|done..].
  by destruct (f a w') as [[b t'] w''].
Qed.

Lemma attempt_stat_event (p : Provider W) location w r t w' :
  attempt (stat p location) w = (Returned r, t, w') → t = [EvStat (mkStatRequest location false) r].
Proof.
  unfold attempt, stat, call_Stat, answer.
  destruct (Stat p _ w) as [[e|e] w1]; by intros [= <- <- _].
Qed.

Definition destructive (ev : event) : Prop :=
  match ev with EvSnapshot _ _ | EvList _ _ | EvStat _ _ => False | _ => True end.
Definition harmless (ev : event) : Prop := ¬ destructive ev.

Lemma harmless_capability (p : Provider W) location binding :
  emits harmless (requireFrozenCapability p location binding).
Proof. unfold requireFrozenCapability. effects; by intros []. Qed.

Lemma harmless_stat (p : Provider W) location : emits harmless (stat p location).
Proof. unfold stat. effects. by intros []. Qed.

(** A guarded trace: harmless calls, and no others unless a call that satisfies
    [C] came before; each call after it satisfies [A], given those since then. *)
Definition guarded (C : event → Prop) (A : list event → event → Prop) (t : list event) : Prop :=
  Forall harmless t ∨
  ∃ pre ev post, t = pre ++ ev :: post ∧ Forall harmless (pre ++ [ev]) ∧ C ev ∧ obeys A [] post.

Lemma guarded_bind {X Y} C A (m : M W X) (f : X → M W Y) w :
  emits harmless m →
  (∀ x t w', m w = (Returned x, t, w') → guarded C A (trace (f x) w')) →
  guarded C A (trace (m ≫= f) w).
Proof.
  intros Hm Hf. rewrite trace_bind. specialize (Hm w).
  destruct (m w) as [[[x|e| |] t] w'] eqn:E; [|left; by rewrite app_nil_r..].
  destruct (Hf x t w' eq_refl) as [H|(pre & ev & post & -> & Hpre & HC & HA)].
  - left. by apply Forall_app_2.
  - right. exists (trace m w ++ pre), ev, post. rewrite <-!app_assoc. split_and!; try done.
    by apply Forall_app_2.
Qed.

Lemma guarded_stat {Y} C A (p : Provider W) location (f : result error Entry → M W Y) w :
  (∀ entry, C (EvStat (mkStatRequest location false) (Ok entry)) →
    (∃ w1 w2, Stat p (mkStatRequest location false) w1 = (Ok entry, w2)) →
    runs A [] (f (Ok entry)) (λ _ _, True)) →
  (∀ r, (∀ entry, r = Ok entry → ¬ C (EvStat (mkStatRequest location false) (Ok entry))) →
    ∀ w', guarded C A (trace (f r) w')) →
  (∀ entry, Decision (C (EvStat (mkStatRequest location false) (Ok entry)))) →
  guarded C A (trace (attempt (stat p location) ≫= f) w).
Proof.
  intros HC Hn Hdec. rewrite trace_bind.
  unfold trace at 1. destruct (attempt (stat p location) w) as [[[r|e| |] t] w'] eqn:E.
  2, 3, 4: revert E; unfold attempt, stat, call_Stat, answer;
    by destruct (Stat p (mkStatRequest location false) w) as [[] ].
  pose proof (attempt_stat_event _ _ _ _ _ _ E) as ->. cbn [fst snd app].
  assert (∀ entry, r = Ok entry →
    ∃ w1 w2, Stat p (mkStatRequest location false) w1 = (Ok entry, w2)) as Hs.
  { intros entry ->. revert E. unfold attempt, stat, call_Stat, answer.
    destruct (Stat p (mkStatRequest location false) w) as [[e|e] w1] eqn:Es; [|done].
    intros [= -> _]. eauto. }
  assert (harmless (EvStat (mkStatRequest location false) r)) as Hh by by intros [].
  destruct r as [entry|err].
  - destruct (Hdec entry) as [Hc|Hc].
    + right. exists [], (EvStat (mkStatRequest location false) (Ok entry)), (trace (f (Ok entry)) w').
      split_and!; [done|by apply Forall_singleton|done|]. destruct (f (Ok entry) w') as [[o t] w2] eqn:Ef.
      destruct (HC entry Hc (Hs entry eq_refl) w' o t w2 Ef) as [Ho _]. unfold trace. by rewrite Ef.
    + destruct (Hn (Ok entry)) with w' as [H|(pre & ev & post & -> & Hpre & Hev & HA)].
      * by intros e' [= <-].
      * left. by constructor.
      * right. eexists (_ :: pre), ev, post. split_and!; try done. by constructor.
  - destruct (Hn (Err err)) with w' as [H|(pre & ev & post & -> & Hpre & Hev & HA)]; [done| |].
    + left. by constructor.
    + right. eexists (_ :: pre), ev, post. split_and!; try done. by constructor.
Qed.
End Traces.

(** * Deletion *)

(** The object that was confirmed: its kind and fingerprint are the plan's. *)
Definition confirmed (plan : Plan) (entry : Entry) : Prop :=
  entry_Kind entry = ref_Kind (Source plan) ∧
  entry_Fingerprint entry = ref_Fingerprint (Source plan).
(** What a deletion may do once its target is confirmed. *)
Definition allowed_delete (plan : Plan) (h : list event) (ev : event) : Prop :=
  let source := ref_Location (Source plan) in
  let frozen := Some (ref_Fingerprint (Source plan)) in
  match ev with
  | EvRemove request _ =>
    DeleteTrash plan = false ∧
    (remove_Location request = source ∧ remove_Expected request = frozen ∨
     ref_Kind (Source plan) = EntryDirectory ∧ DeleteRecursive plan = true ∧
     at_or_below source (remove_Location request) ∧ removes_seen h request)
  | EvTrash request _ =>
    DeleteTrash plan = true ∧ trash_Location request = source ∧ trash_Expected request = frozen
  | EvSnapshot _ _ | EvList _ _ | EvStat _ _ => True
  | _ => False
  end.

Section ExecuteDelete.
Context {W : Type} (Resolve : string → result error (Provider W)).

(** The handler after its target was confirmed. *)
Definition delete_confirmed (fuel : nat) (plan : Plan) (implementation : Provider W)
    (mutable : MutableProvider W) (entry : Entry) : M W Result :=
  let source := ref_Location (Source plan) in
  if DeleteTrash plan then
    match trash_facet implementation, DeleteCapability plan with
    | Some trash, Some capability =>
      _ ← requireFrozenCapability implementation source capability;
      err ← call_Trash trash (mkTrashRequest (entry_Location entry)
                                (Some (entry_Fingerprint entry)));
      let prove :=
        r ← attempt (stat implementation (entry_Location entry));
        match r with
        | Ok _ => throw (planError CodeConflict "trash" (entry_Location entry)
            "trash postcondition did not remove source identity" RetryAfterConflict)
        | Err statErr =>
          if IsCode statErr CodeNotFound then mret (completed_delete plan 1) else throw statErr
        end in
      match err with
      | Some err => if negb (operationEffectUnknown err) then throw err else prove
      | None => prove
      end
    | _, _ => throw (planError CodeUnsupported "trash" source
                       "frozen trash capability is unavailable" RetryAfterReplan)
    end
  else if String.eqb (entry_Kind entry) EntryDirectory && DeleteRecursive plan then
    budget ← deref (Discovery plan);
    r ← deleteExplicitTree implementation mutable budget fuel (entry_Location entry) 0;
    match r with
    | (_, Some err) => throw err
    | (items, None) => mret (completed_delete plan items)
    end
  else
    _ ← removeWithPostcondition implementation mutable entry;
    mret (completed_delete plan 1).

Lemma harmless_deletes plan h ev : harmless ev → allowed_delete plan h ev.
Proof. destruct ev; intros H; try exact I; by destruct H. Qed.
Lemma frozen_removed plan h p mutable entry :
  DeleteTrash plan = false → confirmed plan entry → entry_Location entry = ref_Location (Source plan) →
  runs (W := W) (allowed_delete plan) h (removeWithPostcondition p mutable entry) (λ _ _, True).
Proof.
  intros Ht [_ Hf] Hl. unfold removeWithPostcondition. apply runs_bind, runs_Remove. intros err.
  split; [cbn; rewrite Hl, Hf; auto|]. cbn [then_].
  eapply runs_conseq; [eapply (runs_emits _ _ _ harmless)|done].
  - unfold stat. effects; by intros [].
  - intros h' ev. apply harmless_deletes.
Qed.
Lemma frozen_then {A} plan h p mutable entry (a : A) :
  DeleteTrash plan = false → confirmed plan entry → entry_Location entry = ref_Location (Source plan) →
  runs (W := W) (allowed_delete plan) h (_ ← removeWithPostcondition p mutable entry; mret a) (λ _ _, True).
Proof.
  intros Ht Hc Hl. apply runs_bind. eapply runs_conseq; [by apply frozen_removed|].
  intros [[]| | |] h' _ _; cbn; [by apply runs_ret|done..].
Qed.
Lemma delete_confirmed_allowed h fuel plan p mutable entry :
  StatLaw p → confirmed plan entry → entry_Location entry = ref_Location (Source plan) →
  runs (allowed_delete plan) h (delete_confirmed fuel plan p mutable entry) (λ _ _, True).
Proof.
  intros Hlaw Hc Hl. pose proof Hc as [Hk Hf]. unfold delete_confirmed.
  destruct (DeleteTrash plan) eqn:Et.
  - eapply runs_conseq; [eapply (runs_emits _ _ _ (λ ev, harmless ev ∨ ∃ request err, ev = EvTrash request err ∧
      trash_Location request = ref_Location (Source plan) ∧
      trash_Expected request = Some (ref_Fingerprint (Source plan))))|done].
    + destruct (trash_facet p) as [trash|]; [|apply emits_throw].
      destruct (DeleteCapability plan) as [capability|]; [|apply emits_throw].
      apply emits_bind; [eapply emits_weaken; [apply harmless_capability|by left]|]. intros _.
      apply emits_bind.
      { apply emits_Trash. intros err. right. eexists _, err. split; [done|]. cbn. by rewrite Hl, Hf. }
      intros err. unfold stat. effects; left; by intros [].
    + intros h' ev [Hev|(request & err & -> & ? & ?)]; [by apply harmless_deletes|by split].
  - destruct (String.eqb_spec (entry_Kind entry) EntryDirectory) as [Ed|Ed]; cbn [andb];
      [destruct (DeleteRecursive plan) eqn:Er|]; [|by apply frozen_then..].
    apply runs_bind, runs_deref. destruct (Discovery plan) as [budget|]; [|done]. cbn [then_].
    apply runs_bind. eapply runs_conseq with (Q := λ _ _, True).
    + intros w o t w' E.
      assert (obeys (delete_call (ref_Location (Source plan))) h t) as Ho.
      { revert w o t w' E. unfold deleteExplicitTree, depth_checked.
        intros w o t w' E. destruct (_ >=? _); [by injection E as <- <- <-|].
        eapply (safely_delete_loop p mutable budget); [|exact E]. rewrite Hl. apply at_or_below_refl. }
      split; [|done]. eapply obeys_impl; [|exact Ho].
      intros h' [] Hev; cbn in *; try done. split; [done|]. right. rewrite <-Hk. naive_solver.
    + intros [[items [err|]]| | |] h' _ _; cbn; [by apply runs_throw|by apply runs_ret|done..].
Qed.

(** The look at the source that confirms it. *)
Definition confirms (plan : Plan) (ev : event) : Prop :=
  match ev with
  | EvStat request (Ok entry) =>
    request = mkStatRequest (ref_Location (Source plan)) false ∧ confirmed plan entry
  | _ => False
  end.

(** C23: a deletion destroys only what was confirmed.  Whatever the provider
    answers, and even in a run that never ends, [executeDelete] makes no
    destructive call before it has looked at the target and found it to be of
    the frozen kind and fingerprint; after that, a destructive call is a trash
    call exactly under a trash plan, and it names the target with the frozen
    fingerprint, or, for a recursive plan on a directory, an entry at or below
    the target with the fingerprint it was seen with. *)
Theorem executeDelete_confined fuel plan w :
  honest Resolve →
  guarded (confirms plan) (allowed_delete plan) (trace (executeDelete Resolve fuel plan) w).
Proof.
  intros Hh. unfold executeDelete.
  apply guarded_bind; [apply emits_lift|]. intros p t w1 E1.
  assert (StatLaw p) as Hlaw.
  { revert E1. destruct (Resolve _) eqn:E; [|done]. intros [= <- _ _]. by eapply Hh. }
  clear E1. destruct (mutable_facet p) as [mutable|]; [|by left].
  apply guarded_bind; [apply harmless_capability|]. intros _ _ w2 _.
  apply guarded_bind; [apply harmless_capability|]. intros _ _ w3 _.
  apply guarded_stat.
  - intros entry [_ [Hk Hf]] (w4 & w5 & Es). apply Hlaw in Es.
    rewrite Hk, String.eqb_refl, bool_decide_eq_true_2 by done. cbn [negb orb]. rewrite <-Hk.
    by apply (delete_confirmed_allowed [] fuel plan p mutable entry).
  - intros [entry|err] Hn w4; [|by left; destruct (IsCode err CodeNotFound)].
    destruct (String.eqb_spec (entry_Kind entry) (ref_Kind (Source plan))) as [Hk|]; [|by left].
    destruct (decide (entry_Fingerprint entry = ref_Fingerprint (Source plan))) as [Hf|Hf].
    + by destruct (Hn entry).
    + rewrite bool_decide_eq_false_2 by done. by left.
  - intros entry. apply and_dec; [by left|]. unfold confirmed. apply _.
Qed.
End ExecuteDelete.

(** * What a completed handler has proved *)
Section Completed.
Context {W : Type}.

(** [concludes P m]: whatever [m] returns, [P] holds of it and of the calls. *)
Definition concludes {A} (P : A → list event → Prop) (m : M W A) : Prop :=
  ∀ w a t w', m w = (Returned a, t, w') → P a t.

Lemma concludes_bind {A B} Q P (m : M W A) (f : A → M W B) :
  (∀ b t t', P b t' → P b (t ++ t')) → returns Q m → (∀ a, Q a → concludes P (f a)) →
  concludes P (m ≫= f).
Proof.
  intros HP Hm Hf w b t w'. unfold mbind, M_bind.
  destruct (m w) as [[[a| | |] t1] w1] eqn:E1; try done.
  destruct (f a w1) as [[b' t2] w2] eqn:E2. intros [= -> <- _]. apply HP.
  eapply Hf; [by eapply Hm|done].
Qed.

Lemma concludes_throw {A} (P : A → list event → Prop) e : concludes P (@throw _ W A e).
Proof. by intros w. Qed.
Lemma concludes_ret {A} (P : A → list event → Prop) a : P a [] → concludes P (mret (M := M W) a).
Proof. intros H w a' t w'. by intros [= <- <- _]. Qed.

(** The last call looked at [location] and it was not found. *)
Definition absent_last (location : Location) (t : list event) : Prop :=
  ∃ pre e, t = pre ++ [EvStat (mkStatRequest location false) (Err e)] ∧
    IsCode e CodeNotFound = true.

Lemma absent_last_app location t t' : absent_last location t' → absent_last location (t ++ t').
Proof. intros (pre & e & -> & He). exists (t ++ pre), e. by rewrite <-app_assoc. Qed.

(** Looking at a location: its absence is the last thing known, or what
    follows an answer settles it. *)
Lemma concludes_absent {A} (R : A → Prop) (p : Provider W) location
    (f : result error Entry → M W A) :
  (∀ entry, (∃ w w', Stat p (mkStatRequest location false) w = (Ok entry, w')) →
    concludes (λ a t, R a ∧ absent_last location t) (f (Ok entry))) →
  (∀ e, IsCode e CodeNotFound = false → concludes (λ _ _, False) (f (Err e))) →
  (∀ e, IsCode e CodeNotFound = true → concludes (λ a t, R a ∧ t = []) (f (Err e))) →
  concludes (λ a t, R a ∧ absent_last location t) (attempt (stat p location) ≫= f).
Proof.
  intros Hok Herr Hnil w a t w'. unfold mbind, M_bind.
  destruct (attempt (stat p location) w) as [[[r| | |] t1] w1] eqn:E; try done.
  destruct (f r w1) as [[b t2] w2] eqn:E2. intros [= -> <- _].
  pose proof (attempt_stat_event _ _ _ _ _ _ E) as ->.
  destruct r as [entry|e].
  - apply Hok in E2 as [HR Ht]; [by split; [|apply absent_last_app]|].
    revert E. unfold attempt, stat, call_Stat, answer.
    destruct (Stat p (mkStatRequest location false) w) as [[e|e] w3] eqn:Es; [|done].
    intros [= -> _]. eauto.
  - destruct (IsCode e CodeNotFound) eqn:Ee; [|by apply (Herr e) in E2].
    apply Hnil in E2 as [HR ->]; [|done]. split; [done|]. exists [], e. by split.
Qed.

Lemma concludes_weaken {A} (P Q : A → list event → Prop) (m : M W A) :
  concludes P m → (∀ a t, P a t → Q a t) → concludes Q m.
Proof. intros H HPQ w a t w' E. eapply HPQ, H, E. Qed.

Lemma removeWithPostcondition_absent (reader : Provider W) writer entry :
  concludes (λ _ t, absent_last (entry_Location entry) t)
    (removeWithPostcondition reader writer entry).
Proof.
  unfold removeWithPostcondition.
  apply (concludes_bind (λ _, True)); [intros; by apply absent_last_app|apply returns_true|].
  intros err _.
  destruct err as [err|]; [destruct (negb _); [apply concludes_throw|]|];
    (eapply concludes_weaken; [apply (concludes_absent (λ _, True))|by intros ? ? [_ ?]]);
    try (intros; apply concludes_throw); intros e ->; apply concludes_throw || by apply concludes_ret.
Qed.

Definition tree_done (directory : Location) (r : Removed) (t : list event) : Prop :=
  r.2 = None → absent_last directory t.

Lemma tree_done_app directory r t t' : tree_done directory r t' → tree_done directory r (t ++ t').
Proof. intros H Hr. by apply absent_last_app, H. Qed.

Lemma concludes_or_fail {A} Q directory removed (m : M W A) k :
  returns Q m → (∀ a, Q a → concludes (tree_done directory) (k a)) →
  concludes (tree_done directory) (or_fail removed m k).
Proof.
  intros Hm Hk. eapply concludes_bind;
    [intros; by apply tree_done_app|by apply returns_attempt|].
  intros [a|e] Ha; [by apply Hk, Ha|]. apply concludes_ret. by intros [=].
Qed.

Lemma delete_loop_done (reader : Provider W) writer budget fuel directory depth removed :
  StatLaw reader →
  concludes (tree_done directory) (delete_loop reader writer budget fuel directory depth removed).
Proof.
  intros Hlaw. revert removed; induction fuel as [|fuel IH]; intros removed; cbn [delete_loop].
  { by intros w. }
  eapply concludes_or_fail; [apply returns_true|]. intros page _.
  destruct (page_Entries page) as [|e entries].
  - eapply concludes_or_fail; [by apply returns_stat|]. intros current Hc. cbn in Hc.
    intros w a t w'. unfold or_fail, mbind, M_bind, attempt.
    destruct (removeWithPostcondition reader writer current w) as [[[[]|err| |] t1] w1] eqn:E;
      try done.
    + intros [= <- <- _] _. apply removeWithPostcondition_absent in E. rewrite Hc in E.
      by rewrite app_nil_r.
    + by intros [= <- <- _] [=].
  - apply (concludes_bind (λ _, True)); [intros; by apply tree_done_app|apply returns_true|].
    intros [r [err|]] _; [by apply concludes_ret; intros [=]|apply IH].
Qed.
End Completed.

Section ExecuteDeleteDone.
Context {W : Type} (Resolve : string → result error (Provider W)).

(** a completed deletion is a proved one.  When [executeDelete] returns
    without error, its last call looked at the target and the provider answered
    that it does not exist, whether the deletion removed a file, emptied a
    tree, moved to the trash, lost the answer of its last call, or found
    nothing to delete. *)
Theorem executeDelete_completed fuel plan w result t w' :
  honest Resolve →
  executeDelete Resolve fuel plan w = (Returned result, t, w') →
  Outcome result = OutcomeCompleted ∧ result_Final result = ref_Location (Source plan) ∧
  absent_last (ref_Location (Source plan)) t.
Proof.
  intros Hh. revert w result t w'.
  set (P := λ (result : Result) (t : list event), Outcome result = OutcomeCompleted ∧
    result_Final result = ref_Location (Source plan) ∧ absent_last (ref_Location (Source plan)) t).
  assert (∀ b t t', P b t' → P b (t ++ t')) as Happ.
  { intros b t t' (? & ? & ?). split_and!; [done..|]. by apply absent_last_app. }
  change (concludes P (executeDelete Resolve fuel plan)). unfold executeDelete.
  apply (concludes_bind StatLaw); [done|by apply returns_lift; intros; eapply Hh|]. intros p Hlaw.
  destruct (mutable_facet p) as [mutable|]; [|apply concludes_throw].
  apply (concludes_bind (λ _, True)); [done|apply returns_true|]. intros _ _.
  apply (concludes_bind (λ _, True)); [done|apply returns_true|]. intros _ _.
  set (R := λ result, Outcome result = OutcomeCompleted ∧
    result_Final result = ref_Location (Source plan)).
  assert (∀ n, R (completed_delete plan n)) as HR by done.
  assert (∀ a t, R a ∧ absent_last (ref_Location (Source plan)) t → P a t) as HRP
    by (intros a t [[??] ?]; by split_and!).
  eapply concludes_weaken; [|exact HRP]. apply concludes_absent.
  2: intros e ->; apply concludes_throw.
  2: intros e ->; by apply concludes_ret.
  intros entry (w1 & w2 & Es). apply Hlaw in Es. cbn in Es.
  assert (∀ n (m : M W ()), concludes (λ _ t, absent_last (ref_Location (Source plan)) t) m →
    concludes (λ a t, R a ∧ absent_last (ref_Location (Source plan)) t)
      (_ ← m; mret (completed_delete plan n))) as Hthen.
  { intros n m Hm w a t w'. unfold mbind, M_bind.
    destruct (m w) as [[[x| | |] t1] w3] eqn:E; try done. intros [= <- <- _].
    rewrite app_nil_r. apply Hm in E. by split. }
  destruct (_ || _); [apply concludes_throw|].
  destruct (DeleteTrash plan).
  { destruct (trash_facet p) as [trash|]; [|apply concludes_throw].
    destruct (DeleteCapability plan) as [capability|]; [|apply concludes_throw].
    assert (∀ (b : Result) t t', R b ∧ absent_last (ref_Location (Source plan)) t' →
      R b ∧ absent_last (ref_Location (Source plan)) (t ++ t')) as Happ'
      by (intros b t t' [??]; split; [done|by apply absent_last_app]).
    apply (concludes_bind (λ _, True)); [done|apply returns_true|]. intros _ _.
    apply (concludes_bind (λ _, True)); [done|apply returns_true|]. intros err _. rewrite Es.
    destruct err as [err|]; [destruct (negb _); [apply concludes_throw|]|];
      (apply concludes_absent; [intros; apply concludes_throw|intros e ->; apply concludes_throw|
        intros e ->; by apply concludes_ret]). }
  destruct (_ && _).
  - intros w a t w'. unfold mbind, M_bind. destruct (Discovery plan) as [budget|]; [|done].
    cbn [deref mret M_ret]. unfold mret, M_ret.
    destruct (deleteExplicitTree p mutable budget fuel (entry_Location entry) 0 w)
      as [[[[items [err|]]| | |] t1] w3] eqn:E; try done.
    intros [= <- <- _]. split; [done|]. rewrite app_nil_r. revert E.
    unfold deleteExplicitTree, depth_checked. destruct (_ >=? _); [done|].
    rewrite Es. intros E. by apply delete_loop_done in E; [apply E|].
  - apply Hthen. rewrite <-Es. apply removeWithPostcondition_absent.
Qed.
End ExecuteDeleteDone.

(** * Atomic moves *)

(** What a move may do once its source is confirmed. *)
Definition allowed_move (plan : Plan) (h : list event) (ev : event) : Prop :=
  match ev with
  | EvRename request _ =>
    rename_Source request = ref_Location (Source plan) ∧
    rename_ExpectedSource request = Some (ref_Fingerprint (Source plan)) ∧
    if rename_Replace request
    then ConflictPolicy plan = ConflictOverwrite ∧ rename_Destination request = Final plan ∧
         ∃ entry, EvStat (mkStatRequest (Final plan) false) (Ok entry) ∈ h ∧
           rename_ExpectedDestination request = Some (entry_Fingerprint entry)
    else rename_ExpectedDestination request = None
  | EvSnapshot _ _ | EvList _ _ | EvStat _ _ => True
  | _ => False
  end.

Definition is_rename (ev : event) : bool :=
  match ev with EvRename _ _ => true | _ => false end.
Definition renames (t : list event) : nat := length (List.filter is_rename t).

Section Move.
Context {W : Type} (Resolve : string → result error (Provider W)).

Definition at_most {A} (k : nat) (m : M W A) : Prop := ∀ w, (renames (trace m w) ≤ k)%nat.

Lemma at_most_bind {A B} k l (m : M W A) (f : A → M W B) :
  at_most k m → (∀ a, at_most l (f a)) → at_most (k + l) (m ≫= f).
Proof.
  intros Hm Hf w. rewrite trace_bind. unfold renames. rewrite List.filter_app, length_app.
  specialize (Hm w). unfold renames in Hm.
  destruct (m w) as [[[a| | |] t] w']; [|cbn; lia..].
  specialize (Hf a w'). unfold renames in Hf. lia.
Qed.

Lemma at_most_none {A} (m : M W A) : emits (λ ev, is_rename ev = false) m → at_most 0 m.
Proof.
  intros H w. specialize (H w). unfold renames. induction H as [|ev t Hev _ IH]; [done|].
  cbn. by rewrite Hev.
Qed.

Lemma autoRename_free {P} (p : Provider W) directory stem extension tries suffix :
  (∀ request r, P (EvStat request r)) →
  emits P (autoRename_loop p directory stem extension tries suffix).
Proof.
  intros HP. revert suffix; induction tries as [|tries IH]; intros suffix; cbn [autoRename_loop];
    [apply emits_throw|].
  unfold locationExists, stat. apply emits_bind; [by effects|].
  intros []; [apply IH|apply emits_ret].
Qed.

Lemma proveAtomicMove_free {P} (p : Provider W) plan final :
  (∀ request r, P (EvStat request r)) → emits P (proveAtomicMove p plan final).
Proof. intros HP. unfold proveAtomicMove, stat. by effects. Qed.

Lemma looks_allowed {A} plan h (m : M W A) :
  emits (λ ev, match ev with EvStat _ _ => True | _ => False end) m →
  runs (allowed_move plan) h m (λ _ _, True).
Proof.
  intros Hm. eapply runs_conseq; [eapply (runs_emits _ _ _ _ Hm)|done]. by intros h' [].
Qed.
Lemma rename_and_prove_allowed h (p : Provider W) mutable plan entry final replaced :
  confirmed plan entry →
  (∀ e, replaced = Some e → ConflictPolicy plan = ConflictOverwrite ∧ final = Final plan ∧
     EvStat (mkStatRequest (Final plan) false) (Ok e) ∈ h) →
  runs (allowed_move plan) h (rename_and_prove p mutable plan entry final replaced) (λ _ _, True).
Proof.
  intros [_ Hf] Hr. unfold rename_and_prove. apply runs_bind, runs_attempt, runs_Rename.
  intros r. split.
  { cbn. rewrite Hf. split_and!; [done..|]. destruct replaced as [e|]; cbn; [|done].
    destruct (Hr e eq_refl) as (-> & -> & Hin). eauto. }
  assert (∀ b, emits (λ ev, match ev with EvStat _ _ => True | _ => False end)
    (match b with
     | Ok renameResult =>
       if negb (Atomic renameResult)
       then throw (planError CodeIntegrityFailed "atomic_move" final
                     "provider violated frozen atomic rename capability" RetryNever) else
       proved ← proveAtomicMove p plan final;
       if negb proved
       then throw (planError CodeConflict "atomic_move" final
                     "atomic rename postcondition is unproved" RetryAfterConflict)
       else mret (atomicMoveResult plan final)
     | Err renameErr =>
       p ← attempt (proveAtomicMove p plan final);
       match p with
       | Ok true => mret (atomicMoveResult plan final)
       | _ => throw renameErr
       end
     end)) as Hrest.
  { intros [b|e]; [destruct (negb _); [apply emits_throw|]|].
    - apply emits_bind; [by apply proveAtomicMove_free|]. intros []; cbn; effects.
    - apply emits_bind; [by apply emits_attempt, proveAtomicMove_free|]. intros [[]|]; effects. }
  destruct r as [r|e]; cbn [then_]; apply looks_allowed; [apply (Hrest (Ok r))|apply (Hrest (Err e))].
Qed.

Lemma rename_and_prove_once (p : Provider W) mutable plan entry final replaced :
  at_most 1 (rename_and_prove p mutable plan entry final replaced).
Proof.
  unfold rename_and_prove. apply (at_most_bind 1 0).
  - intros w. unfold trace, attempt, call_Rename, answer, renames.
    by destruct (Rename mutable _ w) as [[] ].
  - intros r. apply at_most_none. destruct r as [r|e]; [destruct (negb _); [apply emits_throw|]|].
    + apply emits_bind; [by apply proveAtomicMove_free|]. intros []; cbn; effects.
    + apply emits_bind; [by apply emits_attempt, proveAtomicMove_free|].
      intros [[]|]; effects.
Qed.

(** C24: an atomic move renames what was confirmed, once.  Whatever the provider
    answers, [executeAtomicMove] makes no destructive call before it has looked
    at the source and found it to be of the frozen kind and fingerprint, makes
    at most one rename and no other destructive call; the rename takes the
    source with the frozen fingerprint, and replaces only the planned
    destination, under the overwrite policy and with the fingerprint that
    destination was seen with. *)
Theorem executeAtomicMove_confined plan w :
  guarded (confirms plan) (allowed_move plan) (trace (executeAtomicMove Resolve plan) w) ∧
  (renames (trace (executeAtomicMove Resolve plan) w) ≤ 1)%nat.
Proof.
  split.
  - unfold executeAtomicMove. apply guarded_bind; [apply emits_lift|]. intros p _ w1 _.
    destruct (mutable_facet p) as [mutable|]; [|by left].
    apply guarded_bind; [apply emits_deref|]. intros capability _ w2 _.
    apply guarded_bind; [apply harmless_capability|]. intros _ _ w3 _.
    apply guarded_stat.
    + intros entry [_ Hc] _. pose proof Hc as [Hk Hf].
      rewrite Hk, String.eqb_refl, bool_decide_eq_true_2 by done. cbn [negb orb].
      unfold stat. apply runs_bind, runs_attempt, runs_Stat. intros [finalEntry|e]; (split; [done|]); cbn [then_].
      * destruct (_ =? ConflictAsk)%string; [by apply runs_ret|].
        destruct (_ =? ConflictSkip)%string; [by apply runs_ret|].
        destruct (_ =? ConflictAutoRename)%string.
        -- apply runs_bind. eapply runs_conseq; [by apply looks_allowed, autoRename_free|].
           intros [final| | |] h' _ _; [|done..]. by apply rename_and_prove_allowed.
        -- apply rename_and_prove_allowed; [done|]. intros e.
           destruct (String.eqb_spec (ConflictPolicy plan) ConflictOverwrite); [|done].
           intros [= <-]. split_and!; [done..|]. by left.
      * destruct (IsCode e CodeNotFound); [|by apply runs_throw].
        by apply rename_and_prove_allowed.
    + intros [entry|err] Hn w4.
      * destruct (String.eqb_spec (entry_Kind entry) (ref_Kind (Source plan))) as [Hk|]; [|by left].
        destruct (decide (entry_Fingerprint entry = ref_Fingerprint (Source plan))) as [Hf|Hf].
        -- by destruct (Hn entry).
        -- rewrite bool_decide_eq_false_2 by done. by left.
      * left. destruct (IsCode err CodeNotFound); [|by left].
        apply (emits_bind harmless); [apply emits_attempt, harmless_stat|].
        intros [e|e]; [destruct (bool_decide _)|]; effects.
    + intros entry. apply and_dec; [by left|]. unfold confirmed. apply _.
  - assert (∀ (p : Provider W) l b, at_most 0 (requireFrozenCapability p l b)) as Hcap.
    { intros p l b. apply at_most_none. unfold requireFrozenCapability. by effects. }
    assert (∀ (p : Provider W) l, at_most 0 (attempt (stat p l))) as Hstat.
    { intros p l. apply at_most_none. unfold stat. by effects. }
    assert (∀ A (a : M W A), emits (λ ev, is_rename ev = false) a → at_most 1 a) as Hfree.
    { intros A a Ha w'. etrans; [by apply at_most_none|lia]. }
    revert w. change (at_most 1 (executeAtomicMove Resolve plan)). unfold executeAtomicMove.
    apply (at_most_bind 0 1); [apply at_most_none, emits_lift|]. intros p.
    destruct (mutable_facet p) as [mutable|]; [|apply Hfree, emits_throw].
    apply (at_most_bind 0 1); [apply at_most_none, emits_deref|]. intros capability.
    apply (at_most_bind 0 1); [done|]. intros _.
    apply (at_most_bind 0 1); [done|]. intros [entry|err].
    + destruct (_ || _); [apply Hfree, emits_throw|].
      apply (at_most_bind 0 1); [done|]. intros [finalEntry|e].
      * destruct (_ =? ConflictAsk)%string; [apply Hfree, emits_ret|].
        destruct (_ =? ConflictSkip)%string; [apply Hfree, emits_ret|].
        destruct (_ =? ConflictAutoRename)%string; [|apply rename_and_prove_once].
        apply (at_most_bind 0 1); [by apply at_most_none, autoRename_free|]. intros final.
        apply rename_and_prove_once.
      * destruct (IsCode e CodeNotFound); [apply rename_and_prove_once|apply Hfree, emits_throw].
    + apply Hfree. unfold stat. destruct (IsCode err CodeNotFound); [|apply emits_throw].
      apply emits_bind; [by effects|]. intros [e|e]; [destruct (bool_decide _)|]; effects.
Qed.

(** The last two calls found the source gone and the frozen object at [final]. *)
Definition moved_last (plan : Plan) (final : Location) (t : list event) : Prop :=
  ∃ pre e entry, t = pre ++
    [EvStat (mkStatRequest (ref_Location (Source plan)) false) (Err e);
     EvStat (mkStatRequest final false) (Ok entry)] ∧
  IsCode e CodeNotFound = true ∧
  entry_Fingerprint entry = ref_Fingerprint (Source plan).

Lemma moved_last_app plan final t t' : moved_last plan final t' → moved_last plan final (t ++ t').
Proof.
  intros (pre & e & entry & -> & H). exists (t ++ pre), e, entry. by rewrite <-app_assoc.
Qed.

Lemma proveAtomicMove_moved (p : Provider W) plan final :
  concludes (λ (b : bool) t, b = true → moved_last plan final t) (proveAtomicMove p plan final).
Proof.
  intros w b t w'. unfold proveAtomicMove. unfold mbind, M_bind.
  destruct (attempt (stat p (ref_Location (Source plan))) w) as [[[r| | |] t1] w1] eqn:E1; try done.
  apply attempt_stat_event in E1 as ->. destruct r as [e|e]; [by intros [= <- _ _]|].
  destruct (IsCode e CodeNotFound) eqn:Ee; cbn [negb]; [|done].
  unfold stat, call_Stat, answer.
  destruct (Stat p (mkStatRequest final false) w1) as [[entry|err] w2] eqn:Es; [|done].
  unfold mret, M_ret. intros [= <- <- _] [_ Hf]%andb_true_iff.
  exists [], e, entry. cbn. split_and!; [done..|]. by apply bool_decide_eq_true in Hf.
Qed.

Definition move_done (plan : Plan) (result : Result) (t : list event) : Prop :=
  Outcome result = OutcomeCompleted →
  moved_last plan (result_Final result) t ∧
  Bytes result = default 0 (fp_Size (ref_Fingerprint (Source plan))).

Lemma move_done_app plan result t t' : move_done plan result t' → move_done plan result (t ++ t').
Proof. intros H Ho. destruct (H Ho) as [? ?]. split; [by apply moved_last_app|done]. Qed.

Lemma rename_and_prove_done (p : Provider W) mutable plan entry final replaced :
  concludes (move_done plan) (rename_and_prove p mutable plan entry final replaced).
Proof.
  unfold rename_and_prove.
  apply (concludes_bind (λ _, True)); [intros; by apply move_done_app|apply returns_true|].
  intros [r|e] _.
  - destruct (negb _); [apply concludes_throw|]. intros w a t w'. unfold mbind, M_bind.
    destruct (proveAtomicMove p plan final w) as [[[b| | |] t1] w1] eqn:E; try done.
    apply proveAtomicMove_moved in E. destruct b; [|done].
    intros [= <- <- _] _. rewrite app_nil_r. split; [by apply E|done].
  - intros w a t w'. unfold mbind, M_bind, attempt.
    destruct (proveAtomicMove p plan final w) as [[[b|err| |] t1] w1] eqn:E; try done.
    apply proveAtomicMove_moved in E. destruct b; [|done].
    intros [= <- <- _] _. rewrite app_nil_r. split; [by apply E|done].
Qed.

Lemma concludes_stat {A} (P : A → list event → Prop) (p : Provider W) location
    (f : result error Entry → M W A) :
  (∀ a t t', P a t' → P a (t ++ t')) →
  (∀ entry, concludes P (f (Ok entry))) →
  (∀ e, concludes (λ a t, P a (EvStat (mkStatRequest location false) (Err e) :: t)) (f (Err e))) →
  concludes P (attempt (stat p location) ≫= f).
Proof.
  intros Happ Hok Herr w a t w'. unfold mbind, M_bind.
  destruct (attempt (stat p location) w) as [[[r| | |] t1] w1] eqn:E; try done.
  apply attempt_stat_event in E as ->.
  destruct (f r w1) as [[b t2] w2] eqn:E2. intros [= -> <- _].
  destruct r as [entry|e]; [apply (Happ a [_]); by eapply Hok|by eapply Herr].
Qed.

(** a completed move is a proved one.  When [executeAtomicMove] reports
    completion, its last two calls found the source gone and, at the reported
    destination, the object with the frozen fingerprint, whether its own rename
    was acknowledged, failed without an answer, or was made by an earlier run;
    the bytes it reports are the frozen size. *)
Theorem executeAtomicMove_completed plan w result t w' :
  executeAtomicMove Resolve plan w = (Returned result, t, w') →
  Outcome result = OutcomeCompleted →
  moved_last plan (result_Final result) t ∧
  Bytes result = default 0 (fp_Size (ref_Fingerprint (Source plan))).
Proof.
  revert w result t w'. change (concludes (move_done plan) (executeAtomicMove Resolve plan)).
  assert (∀ b t t', move_done plan b t' → move_done plan b (t ++ t')) as Happ
    by (intros; by apply move_done_app).
  assert (∀ o final, o ≠ OutcomeCompleted →
    concludes (move_done plan) (mret (M := M W) (mkResult o final 0 0 0))) as Hother.
  { intros o final Ho. apply concludes_ret. by intros ?. }
  unfold executeAtomicMove.
  apply (concludes_bind (λ _, True)); [done|apply returns_true|]. intros p _.
  destruct (mutable_facet p) as [mutable|]; [|apply concludes_throw].
  apply (concludes_bind (λ _, True)); [done|apply returns_true|]. intros capability _.
  apply (concludes_bind (λ _, True)); [done|apply returns_true|]. intros _ _.
  apply concludes_stat; [done|intros entry|intros e].
  - destruct (_ || _); [apply concludes_throw|].
    apply (concludes_bind (λ _, True)); [done|apply returns_true|]. intros [finalEntry|e] _.
    + destruct (_ =? ConflictAsk)%string; [by apply Hother|].
      destruct (_ =? ConflictSkip)%string; [by apply Hother|].
      destruct (_ =? ConflictAutoRename)%string; [|apply rename_and_prove_done].
      apply (concludes_bind (λ _, True)); [done|apply returns_true|]. intros final _.
      apply rename_and_prove_done.
    + destruct (IsCode e CodeNotFound); [apply rename_and_prove_done|apply concludes_throw].
  - destruct (IsCode e CodeNotFound) eqn:Ee; [|apply concludes_throw].
    intros w a t w'. unfold mbind, M_bind.
    destruct (attempt (stat p (Final plan)) w) as [[[f| | |] t2] w2] eqn:E2; try done.
    apply attempt_stat_event in E2 as ->. destruct f as [finalEntry|e2]; [|done].
    case_bool_decide as Hf; [|done]. intros [= <- <- _] _. split; [|done].
    exists [], e, finalEntry. by split_and!.
Qed.
End Move.
