(* ===== verification/DeleteTree.v ===== *)
(** The recursive deletion of delete.go ends and does what it says, on any
    provider that implements a tree of files.

    [TreeStore] is the contract: the abstract state is a finite map from keys
    (the names on the way from the root) to entries, and the provider's
    operations are its lookups, its listings in pages and its removals.  Removing
    an entry may change what is observed of directories (their modification
    times), not their kinds. *)
From S2P Require Import Prelude Domain GoPath Provider Plan Checkpoint Effects Mutation.
From S2P Require Import MutationFacts.

Abbreviation key := (list string) (only parsing).
Abbreviation Tree := (gmap (list string) Entry) (only parsing).

Definition is_dir (e : Entry) : Prop := entry_Kind e = EntryDirectory.
(** What a later observation of an entry keeps. *)
Definition same_entry (e e' : Entry) : Prop :=
  entry_Kind e' = entry_Kind e ∧ (¬ is_dir e → e' = e).

(** [evolve T T' X]: the tree [T'] is [T] without the keys [X]. *)
Definition evolve (T T' : Tree) (X : gset (list string)) : Prop :=
  ∀ k, match T' !! k with
       | Some e' => (k ∉ X) ∧ ∃ e, T !! k = Some e ∧ same_entry e e'
       | None => k ∈ X ∨ T !! k = None
       end.

(** The keys at or below [d]. *)
Definition subtree (T : Tree) (d : key) : gset (list string) := filter (prefix d) (dom T).

Definition childless (T : Tree) (d : key) : Prop :=
  ∀ k e, T !! k = Some e → d `prefix_of` k → k = d.

Class TreeStore {W : Type} (p : Provider W) (m : MutableProvider W) := {
  store_inv : W → Prop;
  tree : W → Tree;
  loc : key → Location;
  tree_location : ∀ w k e, store_inv w → tree w !! k = Some e → entry_Location e = loc k;
  tree_files : ∀ w k e, store_inv w → tree w !! k = Some e → ¬ is_dir e → childless (tree w) k;
  tree_stat_some : ∀ w k e, store_inv w → tree w !! k = Some e →
    ∃ w', Stat p (mkStatRequest (loc k) false) w = (Ok e, w') ∧ store_inv w' ∧ tree w' = tree w;
  tree_stat_none : ∀ w k, store_inv w → tree w !! k = None →
    ∃ err w', Stat p (mkStatRequest (loc k) false) w = (Err err, w') ∧
      IsCode err CodeNotFound = true ∧ store_inv w' ∧ tree w' = tree w;
  tree_list : ∀ w d e limit, store_inv w → 1 ≤ limit → tree w !! d = Some e → is_dir e →
    ∃ page w', List p (mkListRequest (loc d) "" limit None) w = (Ok page, w') ∧
      store_inv w' ∧ tree w' = tree w ∧
      ∃ names, NoDup names ∧ length names = length (page_Entries page) ∧
        Forall2 (λ x c, tree w !! (d ++ [x]) = Some c ∧
          is_ok (validateDiscoveredEntry (loc d) (loc d) c) = true) names (page_Entries page) ∧
        (names = [] → childless (tree w) d);
  tree_remove : ∀ w k e, store_inv w → tree w !! k = Some e → childless (tree w) k →
    ∃ w', Remove m (mkRemoveRequest (loc k) (Some (entry_Fingerprint e))) w = (None, w') ∧
      store_inv w' ∧ evolve (tree w) (tree w') {[k]};
}.

(** * Runs *)
Section Runs.
Context {W : Type}.
Definition runs {A} (m : M W A) (w : W) (a : A) (w' : W) : Prop := ∃ t, m w = (Returned a, t, w').

Lemma reaches_ret {A} (a : A) w : runs (mret a) w a w.
Proof. by exists []. Qed.
Lemma reaches_bind {A B} (m : M W A) (f : A → M W B) w a w1 b w2 :
  runs m w a w1 → runs (f a) w1 b w2 → runs (m ≫= f) w b w2.
Proof.
  intros [t1 E1] [t2 E2]. exists (t1 ++ t2). unfold mbind, M_bind. by rewrite E1, E2.
Qed.
Lemma reaches_attempt {A} (m : M W A) w a w' : runs m w a w' → runs (attempt m) w (Ok a) w'.
Proof. intros [t E]. exists t. unfold attempt. by rewrite E. Qed.
Lemma runs_or_fail {A} removed (m : M W A) k w a w1 r w2 :
  runs m w a w1 → runs (k a) w1 r w2 → runs (or_fail removed m k) w r w2.
Proof. intros Hm Hk. eapply reaches_bind; [by apply reaches_attempt|done]. Qed.
Lemma runs_stat_ok (p : Provider W) l w e w' :
  Stat p (mkStatRequest l false) w = (Ok e, w') → runs (stat p l) w e w'.
Proof. intros E. eexists. unfold stat, call_Stat, answer. by rewrite E. Qed.
Lemma runs_stat_err (p : Provider W) l w err w' :
  Stat p (mkStatRequest l false) w = (Err err, w') → runs (attempt (stat p l)) w (Err err) w'.
Proof. intros E. eexists. unfold attempt, stat, call_Stat, answer. by rewrite E. Qed.
End Runs.

(** * Trees *)
Lemma elem_of_subtree T d k : k ∈ subtree T d ↔ d `prefix_of` k ∧ is_Some (T !! k).
Proof. unfold subtree. by rewrite elem_of_filter, elem_of_dom. Qed.

Lemma same_entry_trans a b c : same_entry a b → same_entry b c → same_entry a c.
Proof.
  unfold same_entry, is_dir. intros [H1 H2] [H3 H4]. split; [congruence|].
  intros Hd. rewrite (H4 ltac:(by rewrite H1)). by apply H2.
Qed.

Lemma evolve_refl T : evolve T T ∅.
Proof.
  intros k. destruct (T !! k) as [e|]; [|by right]. split; [set_solver|]. by exists e.
Qed.

Lemma evolve_trans T T1 T2 X Y : evolve T T1 X → evolve T1 T2 Y → evolve T T2 (X ∪ Y).
Proof.
  intros H1 H2 k. specialize (H1 k). specialize (H2 k).
  destruct (T2 !! k) as [e2|].
  - destruct H2 as (Hy & e1 & E1 & Hk1 & Hf1). rewrite E1 in H1.
    destruct H1 as (Hx & e & E & Hk & Hf). split; [set_solver|]. exists e. split; [done|].
    split; [congruence|]. intros Hd. rewrite <-(Hf Hd). apply Hf1. unfold is_dir in *. congruence.
  - destruct H2 as [?|E1]; [set_solver|]. rewrite E1 in H1. set_solver.
Qed.

Lemma evolve_ext T T' X Y : evolve T T' X → (∀ k, is_Some (T !! k) → k ∈ X ↔ k ∈ Y) → evolve T T' Y.
Proof.
  intros H HXY k. specialize (H k). destruct (T' !! k) as [e'|].
  - destruct H as (Hx & e & E & Hs). split; [|eauto]. rewrite <-HXY; [done|]. by rewrite E.
  - destruct H as [Hx|]; [|by right]. destruct (T !! k) eqn:E; [|by right].
    left. apply HXY; [by rewrite E|done].
Qed.

Lemma evolve_some T T' X k e :
  evolve T T' X → T !! k = Some e → k ∉ X → ∃ e', T' !! k = Some e' ∧ same_entry e e'.
Proof.
  intros H E Hx. specialize (H k). destruct (T' !! k) as [e'|].
  - destruct H as (_ & e0 & E0 & Hs). assert (e0 = e) as -> by congruence. eauto.
  - destruct H; congruence.
Qed.

Lemma evolve_is_some T T' X k :
  evolve T T' X → is_Some (T' !! k) ↔ is_Some (T !! k) ∧ k ∉ X.
Proof.
  intros H. split.
  - intros [e' E]. specialize (H k). rewrite E in H. destruct H as (? & e & -> & _). eauto.
  - intros [[e E] Hx]. edestruct evolve_some as (e' & -> & _); eauto.
Qed.

Lemma evolve_subtree T T' X d :
  evolve T T' X → subtree T' d = subtree T d ∖ X.
Proof.
  intros H. apply set_eq. intros k. rewrite elem_of_difference, !elem_of_subtree.
  rewrite (evolve_is_some _ _ _ _ H). naive_solver.
Qed.

(** Siblings have disjoint subtrees. *)
Lemma siblings_disjoint T T' (d : key) x y : x ≠ y → subtree T (d ++ [x]) ## subtree T' (d ++ [y]).
Proof.
  intros Hxy k [[k1 E1] _]%elem_of_subtree [[k2 E2] _]%elem_of_subtree.
  rewrite E1, <-!app_assoc in E2. apply app_inv_head in E2. by injection E2.
Qed.

Lemma childless_subtree T d e : T !! d = Some e → childless T d → subtree T d = {[d]}.
Proof.
  intros E H. apply set_eq. intros k. rewrite elem_of_subtree, elem_of_singleton. split.
  - intros [Hp [e' E']]. by eapply H.
  - intros ->. split; [done|]. by rewrite E.
Qed.

(** * The deletion of a tree *)
Section DeleteTree.
Context {W : Type} (p : Provider W) (m : MutableProvider W) `{!TreeStore p m}.
Context (budget : DiscoveryBudget).
Context (Hpage : 1 ≤ PageItems budget) (Hdepth : MaxDepth budget ≤ MaxUint32).

Lemma remove_runs w k e :
  store_inv w → tree w !! k = Some e → childless (tree w) k →
  ∃ w', runs (removeWithPostcondition p m e) w tt w' ∧ store_inv w' ∧
    evolve (tree w) (tree w') {[k]}.
Proof.
  intros Hw Hk Hc. destruct (tree_remove w k e Hw Hk Hc) as (w1 & Hr & Hw1 & He).
  assert (tree w1 !! k = None) as Hn.
  { specialize (He k). destruct (tree w1 !! k); [|done]. set_solver. }
  destruct (tree_stat_none w1 k Hw1 Hn) as (err & w2 & Hs & Hcode & Hw2 & Ht).
  pose proof (tree_location w k e Hw Hk) as Hl.
  exists w2. split_and!; [|done|by rewrite Ht]. unfold removeWithPostcondition. rewrite Hl.
  eapply (reaches_bind _ _ _ None w1).
  - eexists. unfold call_Remove. by rewrite Hr.
  - cbv beta zeta iota. eapply reaches_bind; [by apply runs_stat_err|]. cbv beta iota.
    rewrite Hcode. apply reaches_ret.
Qed.

(** The directories below [d] are within the depth budget. *)
Definition within_depth (T : Tree) (d : key) (depth : Z) : Prop :=
  ∀ k c, T !! k = Some c → is_dir c → d `prefix_of` k →
    depth + (Z.of_nat (length k) - Z.of_nat (length d)) < MaxDepth budget.

Lemma within_depth_evolve T T' X d depth :
  evolve T T' X → within_depth T d depth → within_depth T' d depth.
Proof.
  intros H Hd k c E Hc Hp. specialize (H k). rewrite E in H.
  destruct H as (_ & e & Ee & Hk & _). eapply Hd; [done| |done].
  unfold is_dir in *. congruence.
Qed.

Lemma within_depth_child T d depth x :
  within_depth T d depth → within_depth T (d ++ [x]) (depth + 1).
Proof.
  intros H k c E Hc Hp. assert (d `prefix_of` k) as Hp'
    by (etrans; [|exact Hp]; by apply prefix_app_r).
  specialize (H k c E Hc Hp'). rewrite length_app. cbn. lia.
Qed.

(** What the recursive call does on every directory with a small subtree. *)
Definition loop_ok (fuel : nat) : Prop := ∀ w d e depth removed,
  store_inv w → tree w !! d = Some e → is_dir e →
  (size (subtree (tree w) d) ≤ fuel)%nat → 0 ≤ depth → within_depth (tree w) d depth →
  in_u64 removed →
  ∃ w', runs (delete_loop p m budget fuel (loc d) depth removed) w
          (u64 (removed + Z.of_nat (size (subtree (tree w) d))), None) w' ∧
    store_inv w' ∧ evolve (tree w) (tree w') (subtree (tree w) d).

(** A listed entry, possibly observed before its siblings were removed. *)
Definition listed (T : Tree) (d : key) (x : string) (c : Entry) : Prop :=
  (∃ c0, T !! (d ++ [x]) = Some c0 ∧ same_entry c c0) ∧
  entry_Location c = loc (d ++ [x]) ∧
  is_ok (validateDiscoveredEntry (loc d) (loc d) c) = true.

Lemma delete_entry_runs fuel w d x c depth removed :
  loop_ok fuel → store_inv w → listed (tree w) d x c →
  (size (subtree (tree w) (d ++ [x])) ≤ fuel)%nat → 0 ≤ depth → within_depth (tree w) d depth →
  in_u64 removed →
  ∃ w', runs (delete_entry p m (λ child, depth_checked budget
                (delete_loop p m budget fuel) child (u32 (depth + 1))) (loc d) removed c) w
          (u64 (removed + Z.of_nat (size (subtree (tree w) (d ++ [x])))), None) w' ∧
    store_inv w' ∧ evolve (tree w) (tree w') (subtree (tree w) (d ++ [x])).
Proof.
  intros IH Hw ((c0 & Hc0 & Hk & Hf) & Hl & Hv) Hs Hd0 Hd Hr. unfold delete_entry.
  apply is_ok_true in Hv as [rel Hv]. rewrite Hv.
  destruct (String.eqb_spec (entry_Kind c) EntryDirectory) as [Ed|Ed].
  - apply (within_depth_child _ _ _ x) in Hd as Hd'.
    assert (is_dir c0) as Hdir by (unfold is_dir; congruence).
    assert (depth + 1 < MaxDepth budget) as Hlt.
    { specialize (Hd' _ _ Hc0 Hdir). rewrite Z.sub_diag, Z.add_0_r in Hd'. by apply Hd'. }
    assert (u32 (depth + 1) = depth + 1) as Hu
      by (apply u32_small; unfold MaxUint32 in Hdepth; lia).
    destruct (IH w (d ++ [x]) c0 (depth + 1) 0 Hw Hc0 Hdir Hs) as (w1 & Hrun & Hw1 & He);
      [lia|done|done|].
    exists w1. split_and!; [|done|done].
    eapply runs_or_fail; [apply reaches_ret|]. cbv beta.
    unfold depth_checked. rewrite Hu, Z.geb_leb, (proj2 (Z.leb_gt _ _)) by lia. rewrite Hl.
    eapply reaches_bind; [exact Hrun|]. cbv beta iota zeta.
    rewrite Z.add_0_l. unfold u64 at 1 2.
    rewrite Zplus_mod_idemp_r. apply reaches_ret.
  - rewrite (Hf Ed) in *.
    assert (childless (tree w) (d ++ [x])) as Hch by by eapply tree_files.
    destruct (remove_runs w (d ++ [x]) c Hw Hc0 Hch) as (w1 & Hrun & Hw1 & He).
    rewrite (childless_subtree _ _ _ Hc0 Hch), size_singleton.
    exists w1. split_and!; [|done|done].
    eapply runs_or_fail; [apply reaches_ret|]. eapply runs_or_fail; [exact Hrun|]. apply reaches_ret.
Qed.

Lemma delete_entries_runs fuel d depth :
  loop_ok fuel → 0 ≤ depth → ∀ names cs w removed,
  store_inv w → NoDup names → Forall2 (listed (tree w) d) names cs →
  Forall (λ x, size (subtree (tree w) (d ++ [x])) ≤ fuel)%nat names →
  within_depth (tree w) d depth → in_u64 removed →
  ∃ w' X, runs (delete_entries (delete_entry p m (λ child, depth_checked budget
                  (delete_loop p m budget fuel) child (u32 (depth + 1))) (loc d)) removed cs) w
            (u64 (removed + Z.of_nat (size X)), None) w' ∧
    store_inv w' ∧ evolve (tree w) (tree w') X ∧
    ∀ k, k ∈ X ↔ ∃ x, x ∈ names ∧ k ∈ subtree (tree w) (d ++ [x]).
Proof.
  intros IH Hd0 names cs w removed Hw Hnd Hcs. revert w removed Hw Hcs Hnd.
  induction names as [|x names IHn] in cs |- *; intros w removed Hw Hcs Hnd Hs Hd Hr.
  { inversion Hcs; subst. exists w, ∅. rewrite size_empty, Z.add_0_r, u64_small by done.
    split_and!; [apply reaches_ret|done|apply evolve_refl|]. intros k. split; [set_solver|].
    by intros (x & ?%elem_of_nil & _). }
  inversion Hcs as [|? c ? cs' Hc Hcs']; subst. apply NoDup_cons in Hnd as [Hx Hnd].
  apply Forall_cons in Hs as [Hsx Hs].
  destruct (delete_entry_runs fuel w d x c depth removed) as (w1 & Hrun & Hw1 & He); [done..|].
  assert (∀ y, y ∈ names → subtree (tree w1) (d ++ [y]) = subtree (tree w) (d ++ [y])) as Hsub.
  { intros y Hy. rewrite (evolve_subtree _ _ _ _ He).
    pose proof (siblings_disjoint (tree w) (tree w) d y x) as Hdis.
    assert (y ≠ x) as Hyx by (by intros ->). specialize (Hdis Hyx). set_solver. }
  set (removed1 := u64 (removed + _)) in Hrun.
  destruct (IHn cs' w1 removed1) as (w2 & X & Hrun2 & Hw2 & He2 & HX); [done| |done| | | |].
  - apply Forall2_same_length_lookup in Hcs' as [Hlen Hcs'].
    apply Forall2_same_length_lookup. split; [done|]. intros i y c' Hy Hc'.
    destruct (Hcs' i y c' Hy Hc') as ((c0 & Ec0 & Hs0) & Hl' & Hv'). split; [|done].
    apply list_elem_of_lookup_2 in Hy.
    destruct (evolve_some _ _ _ _ _ He Ec0) as (c1 & Ec1 & Hs1).
    { intros Hin. eapply (siblings_disjoint (tree w) (tree w) d x y);
        [by intros -> |exact Hin|]. apply elem_of_subtree. split; [done|]. by rewrite Ec0. }
    exists c1. split; [done|]. by eapply same_entry_trans.
  - rewrite Forall_forall in Hs |- *. intros y Hy. rewrite Hsub by done. by apply Hs.
  - by eapply within_depth_evolve.
  - apply u64_range.
  - exists w2, (subtree (tree w) (d ++ [x]) ∪ X). split_and!; [|done| |].
    + assert (subtree (tree w) (d ++ [x]) ## X) as Hdis.
      { intros k Hk1 (y & Hy & Hk2)%HX. rewrite Hsub in Hk2 by done.
        eapply (siblings_disjoint (tree w) (tree w) d x y); [by intros -> |done..]. }
      rewrite size_union, Nat2Z.inj_add, Z.add_assoc by done. cbn [delete_entries].
      eapply reaches_bind; [exact Hrun|]. cbv beta iota.
      unfold removed1, u64 in Hrun2. rewrite Zplus_mod_idemp_l in Hrun2. exact Hrun2.
    + by eapply evolve_trans.
    + intros k. rewrite elem_of_union, HX. setoid_rewrite elem_of_cons. split.
      * intros [Hk|(y & Hy & Hk)]; [by exists x; auto|]. rewrite Hsub in Hk by done. eauto.
      * intros (y & [-> |Hy] & Hk); [by left|right]. exists y. by rewrite Hsub.
Qed.

Lemma delete_loop_runs fuel : loop_ok fuel.
Proof.
  induction fuel as [|fuel IH]; intros w d e depth removed Hw He Hdir Hs Hd0 Hd Hr.
  { exfalso. assert (d ∈ subtree (tree w) d) as Hin
      by (apply elem_of_subtree; split; [done|by rewrite He]).
    apply Nat.le_0_r, size_empty_inv in Hs. clear - Hs Hin. set_solver. }
  destruct (tree_list w d e (PageItems budget) Hw Hpage He Hdir)
    as (page & w1 & Hlist & Hw1 & Ht1 & names & Hnd & Hlen & Hcs & Hnil).
  rewrite <-Ht1 in He, Hs, Hd, Hcs, Hnil |- *. cbn [delete_loop].
  assert (runs (call_List p (mkListRequest (loc d) "" (PageItems budget) None)) w page w1) as Hcall.
  { eexists. unfold call_List, answer. by rewrite Hlist. }
  destruct (decide (names = [])) as [-> |Hne].
  - specialize (Hnil eq_refl).
    destruct (tree_stat_some w1 d e Hw1 He) as (w2 & Hst & Hw2 & Ht2).
    rewrite <-Ht2 in He, Hnil.
    destruct (remove_runs w2 d e Hw2 He Hnil) as (w3 & Hrem & Hw3 & Hev). rewrite Ht2 in Hnil, He, Hev.
    exists w3. rewrite (childless_subtree _ _ _ He Hnil), size_singleton.
    split_and!; [|done|done].
    eapply runs_or_fail; [exact Hcall|]. cbv beta.
    destruct (page_Entries page); [|done]. unfold delete_self.
    eapply runs_or_fail; [by apply runs_stat_ok|]. eapply runs_or_fail; [exact Hrem|]. apply reaches_ret.
  - assert (Forall2 (listed (tree w1) d) names (page_Entries page)) as Hl.
    { eapply Forall2_impl; [exact Hcs|]. intros x c [Hx Hv]. split_and!; [|by eapply tree_location|done].
      by exists c. }
    assert (∀ x, x ∈ names → is_Some (tree w1 !! (d ++ [x]))) as Hin.
    { intros x [i Hi]%list_elem_of_lookup_1. destruct (Forall2_lookup_l _ _ _ _ _ Hcs Hi) as (c & _ & Hc & _).
      by rewrite Hc. }
    assert (∀ x, x ∈ names → subtree (tree w1) (d ++ [x]) ⊆ subtree (tree w1) d ∖ {[d]}) as Hsub.
    { intros x _ k [Hp Hk]%elem_of_subtree. apply elem_of_difference. split.
      - apply elem_of_subtree. split; [|done]. etrans; [|exact Hp]. by apply prefix_app_r.
      - intros ->%elem_of_singleton. apply prefix_length in Hp. rewrite length_app in Hp.
        cbn in Hp. lia. }
    assert (d ∈ subtree (tree w1) d) as Hdin
      by (apply elem_of_subtree; split; [done|by rewrite He]).
    destruct (delete_entries_runs fuel d depth IH Hd0 names (page_Entries page) w1 removed)
      as (w2 & X & Hrun & Hw2 & Hev & HX); [done..| |done|done|].
    { apply Forall_forall. intros x Hx. pose proof (subseteq_size _ _ (Hsub x Hx)) as Hle.
      rewrite size_difference, size_singleton in Hle by (clear - Hdin; set_solver). lia. }
    assert (X ⊆ subtree (tree w1) d ∖ {[d]}) as HXsub.
    { intros k (x & Hx & Hk)%HX. by apply (Hsub x Hx). }
    assert (∃ x, x ∈ names) as [x Hx] by (destruct names as [|x ?]; [done|exists x; by left]).
    assert (0 < size X)%nat as HX0.
    { assert (d ++ [x] ∈ X) as HxX.
      { apply HX. exists x. split; [done|]. apply elem_of_subtree. split; [done|by apply Hin]. }
      apply Nat.neq_0_lt_0. intros E%size_empty_inv. clear - E HxX. set_solver. }
    pose proof (subseteq_size _ _ HXsub) as HXle.
    assert (X ⊆ subtree (tree w1) d) as HXs by (clear - HXsub; set_solver).
    assert (d ∉ X) as HdX by (clear - HXsub; set_solver).
    assert ({[d]} ⊆ subtree (tree w1) d) as Hds by (clear - Hdin; set_solver).
    rewrite size_difference, size_singleton in HXle by exact Hds.
    destruct (evolve_some _ _ _ d e Hev He) as (e2 & He2 & Hk2 & _); [exact HdX|].
    destruct (IH w2 d e2 depth (u64 (removed + Z.of_nat (size X)))) as (w3 & Hrun3 & Hw3 & Hev3);
      [done|done|by unfold is_dir in *; congruence| |done|by eapply within_depth_evolve|
       apply u64_range|].
    { rewrite (evolve_subtree _ _ _ _ Hev), size_difference by exact HXs. lia. }
    rewrite (evolve_subtree _ _ _ _ Hev) in Hrun3, Hev3.
    exists w3. split_and!; [|done|].
    + eapply runs_or_fail; [exact Hcall|]. cbv beta.
      destruct (page_Entries page) as [|c cs] eqn:Ep; [by destruct names|]. rewrite <-Ep.
      eapply reaches_bind; [by rewrite Ep; exact Hrun|]. cbv beta iota.
      rewrite size_difference in Hrun3 by exact HXs. unfold u64 in Hrun3 |- *.
      rewrite Zplus_mod_idemp_l, <-Z.add_assoc, <-Nat2Z.inj_add in Hrun3.
      replace (size X + (size (subtree (tree w1) d) - size X))%nat
        with (size (subtree (tree w1) d)) in Hrun3 by lia. exact Hrun3.
    + eapply evolve_ext; [by eapply evolve_trans|]. intros k _. clear - HXs.
      destruct (decide (k ∈ X)); set_solver.
Qed.

(** C28: recursive deletion ends and deletes exactly the tree.  On every
    provider that implements a tree, with fuel for as many turns as the subtree
    has entries and directories within the depth budget, [deleteExplicitTree]
    returns without error, counts every entry of the subtree, and what is left
    is the tree without it: nothing else is removed and no file changes. *)
Theorem deleteExplicitTree_deletes fuel w d e :
  store_inv w → tree w !! d = Some e → is_dir e →
  (size (subtree (tree w) d) ≤ fuel)%nat → within_depth (tree w) d 0 →
  ∃ t w', deleteExplicitTree p m budget fuel (loc d) 0 w =
      (Returned (u64 (Z.of_nat (size (subtree (tree w) d))), None), t, w') ∧
    store_inv w' ∧ evolve (tree w) (tree w') (subtree (tree w) d).
Proof.
  intros Hw He Hdir Hs Hd. unfold deleteExplicitTree, depth_checked.
  assert (0 < MaxDepth budget) as Hmax.
  { specialize (Hd d e He Hdir). rewrite Z.sub_diag in Hd. by apply Hd. }
  rewrite Z.geb_leb, (proj2 (Z.leb_gt _ _)) by lia.
  destruct (delete_loop_runs fuel w d e 0 0) as (w' & [t Hrun] & Hw' & Hev); [done..|].
  rewrite Z.add_0_l in Hrun. eauto.
Qed.
End DeleteTree.

(** * A concrete store

    A directory that holds a directory that holds a file; the world is how many
    of the three are left, from the top. *)
Module TreeDemo.
Definition none : Metadata := mkMetadata None None None None None None None.
Definition fp (n : Z) : Fingerprint := mkFingerprint (Some n) None None None None None None.
Definition entry (path name kind : string) (n : Z) : Entry :=
  mkEntry (mkLocation "ep" path) name kind none (fp n) None.
Definition e0 : Entry := entry "/d" "d" EntryDirectory 0.
Definition e1 : Entry := entry "/d/s" "s" EntryDirectory 1.
Definition e2 : Entry := entry "/d/s/y" "y" EntryFile 2.
Definition chain : list (list string * Entry) :=
  [(["d"], e0); (["d"; "s"], e1); (["d"; "s"; "y"], e2)].

Definition not_found : error := EOp CodeNotFound "" "" "ep" None (mkRetry RetryNever 0) EffectNone None.
Inductive world := W0 | W1 | W2 | W3.
Definition present (w : world) : list (list string * Entry) :=
  take (match w with W0 => 0 | W1 => 1 | W2 => 2 | W3 => 3 end) chain.
Definition fewer (w : world) : world := match w with W3 => W2 | W2 => W1 | _ => W0 end.
Definition left (w : world) : list Entry := snd <$> present w.

Definition stat_op (request : StatRequest) (w : world) : result error Entry * world :=
  (match List.find (λ e, bool_decide (entry_Location e = stat_Location request)) (left w) with
   | Some e => Ok e | None => Err not_found end, w).
Definition list_op (request : ListRequest) (w : world) : result error ListPage * world :=
  (Ok (mkListPage (take (Z.to_nat (list_Limit request)) (List.filter (λ e,
         String.eqb (path_Dir (loc_Path (entry_Location e))) (loc_Path (list_Location request)))
         (left w))) "" true false ConsistencySnapshot Fingerprint_zero), w).
Definition remove_op (request : RemoveRequest) (w : world) : option error * world :=
  match last (left w) with
  | Some e => if bool_decide (entry_Location e = remove_Location request ∧
                              Some (entry_Fingerprint e) = remove_Expected request)
              then (None, fewer w) else (Some not_found, w)
  | None => (Some not_found, w)
  end.
Definition delete_capability : Capability := mkCapability "delete" 1 [].
Definition snapshot : EndpointSnapshot :=
  mkEndpointSnapshot "ep" "s" "ready"
    (mkCapSnapshot (mkRevision "s" 1) true [delete_capability]) 0.
Definition rename_op (request : RenameRequest) (w : world) : result error RenameResult * world :=
  (Err not_found, w).
Definition m : MutableProvider world := mkMutable (λ _ w, (Err not_found, w)) rename_op remove_op (λ _ w, (Err not_found, w)).
Definition p : Provider world :=
  mkProvider (mkEndpoint "ep" EndpointLocal "" "") (λ w, (Ok snapshot, w)) list_op stat_op
    (λ _ w, (Err not_found, w)) (Some m) None None None.

Definition chain_loc (k : list string) : Location :=
  if bool_decide (k = ["d"]) then entry_Location e0 else
  if bool_decide (k = ["d"; "s"]) then entry_Location e1 else
  if bool_decide (k = ["d"; "s"; "y"]) then entry_Location e2 else mkLocation "" "".
Definition chain_tree (w : world) : gmap (list string) Entry := list_to_map (present w).

Lemma chain_lookup w k e :
  chain_tree w !! k = Some e →
  (k = ["d"] ∧ e = e0 ∧ w ≠ W0) ∨ (k = ["d"; "s"] ∧ e = e1 ∧ (w = W2 ∨ w = W3)) ∨
  (k = ["d"; "s"; "y"] ∧ e = e2 ∧ w = W3).
Proof.
  intros H%elem_of_list_to_map_2.
  destruct w; cbn in H; rewrite ?elem_of_cons, elem_of_nil in H; naive_solver.
Qed.

Lemma chain_lookup_none w k :
  chain_tree w !! k = None →
  List.find (λ e, bool_decide (entry_Location e = chain_loc k)) (left w) = None.
Proof.
  intros H. unfold chain_loc.
  destruct (decide (k = ["d"])) as [-> |H0]; [by destruct w; vm_compute in H |- *|].
  rewrite (bool_decide_eq_false_2 (k = _)) by done.
  destruct (decide (k = ["d"; "s"])) as [-> |H1]; [by destruct w; vm_compute in H |- *|].
  rewrite (bool_decide_eq_false_2 (k = _)) by done.
  destruct (decide (k = ["d"; "s"; "y"])) as [-> |H2]; [by destruct w; vm_compute in H |- *|].
  rewrite (bool_decide_eq_false_2 (k = _)) by done.
  by destruct w.
Qed.

Lemma chain_evolve w k e :
  chain_tree w !! k = Some e → last (present w) = Some (k, e) →
  evolve (chain_tree w) (chain_tree (fewer w)) {[k]}.
Proof.
  intros He Hl k'. destruct (chain_tree (fewer w) !! k') as [e'|] eqn:E'.
  - split.
    + intros ->%elem_of_singleton.
      destruct w; cbn in Hl; try discriminate Hl; injection Hl as <- <-;
        vm_compute in E'; discriminate.
    + exists e'. split; [|done]. apply chain_lookup in E' as Hk.
      destruct w; try discriminate; destruct Hk as [(-> & -> & Hw)|[(-> & -> & Hw)|(-> & -> & Hw)]];
        vm_compute in E' |- *; done.
  - destruct (chain_tree w !! k') as [e'|] eqn:E; [left|by right].
    apply elem_of_singleton. apply chain_lookup in E as Hk.
    destruct w; cbn in Hl; try discriminate Hl; injection Hl as <- <-;
      destruct Hk as [(-> & -> & Hw)|[(-> & -> & Hw)|(-> & -> & Hw)]]; try done;
      vm_compute in E'; discriminate.
Qed.

Lemma chain_last w k e :
  chain_tree w !! k = Some e → childless (chain_tree w) k → last (present w) = Some (k, e).
Proof.
  intros Hk Hc. apply chain_lookup in Hk as H.
  destruct H as [(-> & -> & Hw)|[(-> & -> & Hw)|(-> & -> & ->)]]; [| |done].
  - destruct w; [done|done| |];
      (specialize (Hc ["d"; "s"] e1 eq_refl); by assert (["d"; "s"] = ["d"]) by (apply Hc; by exists ["s"])).
  - destruct w; [by destruct Hw..|done|].
    specialize (Hc ["d"; "s"; "y"] e2 eq_refl).
    by assert (["d"; "s"; "y"] = ["d"; "s"]) by (apply Hc; by exists ["y"]).
Qed.

#[export] Instance chain_store : TreeStore p m.
Proof.
  refine {| store_inv := λ _, True; tree := chain_tree; loc := chain_loc |}.
  - intros w k e _ Hk%chain_lookup. naive_solver.
  - intros w k e _ Hk Hf k' e' Hk' Hp. apply chain_lookup in Hk, Hk'.
    destruct Hk as [(-> & -> & _)|[(-> & -> & _)|(-> & -> & _)]]; [by destruct Hf..|].
    destruct Hk' as [(-> & _)|[(-> & _)|(-> & _)]]; [..|done];
      apply prefix_length in Hp; cbn in Hp; lia.
  - intros w k e _ Hk. exists w. split_and!; [|done..]. apply chain_lookup in Hk.
    destruct Hk as [(-> & -> & Hw)|[(-> & -> & Hw)|(-> & -> & Hw)]]; destruct w; naive_solver.
  - intros w k _ Hk. exists not_found, w. split_and!; [|done..].
    cbn. unfold stat_op. cbn [stat_Location]. by rewrite chain_lookup_none.
  - intros w d e limit _ Hl Hk Hd. apply chain_lookup in Hk as Hc.
    assert (∃ n, Z.to_nat limit = S n) as [n Hn] by (exists (Z.to_nat limit - 1)%nat; lia).
    eexists _, w. split; [reflexivity|]. split_and!; [done..|].
    cbn [page_Entries list_op list_Limit list_Location]. rewrite Hn.
    destruct Hc as [(-> & -> & Hw)|[(-> & -> & [-> | ->])|(-> & -> & ->)]]; [destruct w; try done| | |].
    + exists []. split_and!; [constructor|by destruct n|by destruct n; constructor|].
      intros _ k c Hc _. apply chain_lookup in Hc. naive_solver.
    + exists ["s"]. split_and!; [apply NoDup_singleton|by destruct n| |done].
      destruct n; (constructor; [vm_compute; by split|constructor]).
    + exists ["s"]. split_and!; [apply NoDup_singleton|by destruct n| |done].
      destruct n; (constructor; [vm_compute; by split|constructor]).
    + exists []. split_and!; [constructor|by destruct n|by destruct n; constructor|].
      intros _ k c Hc Hp. apply chain_lookup in Hc. destruct Hc as [(-> & _)|[(-> & _)|(_ & _ & ?)]]; try done.
      apply prefix_length in Hp. cbn in Hp. lia.
    + exists ["y"]. split_and!; [apply NoDup_singleton|by destruct n| |done].
      destruct n; (constructor; [vm_compute; by split|constructor]).
    + vm_compute in Hd. discriminate.
  - intros w k e _ Hk Hc. exists (fewer w). split_and!; [|done|].
    + pose proof (chain_last w k e Hk Hc) as Hl. cbn. unfold remove_op.
      destruct w; cbn in Hl; try discriminate Hl; injection Hl as <- <-; reflexivity.
    + apply (chain_evolve w k e Hk). by apply chain_last.
Defined.

Definition budget : DiscoveryBudget := mkBudget 64 1 2.

Lemma deleteExplicitTree_deletes_witness :
  ∃ t w', deleteExplicitTree p m budget 3 (chain_loc ["d"]) 0 W3 =
      (Returned (u64 (Z.of_nat (size (subtree (chain_tree W3) ["d"]))), None), t, w') ∧
    True ∧ evolve (chain_tree W3) (chain_tree w') (subtree (chain_tree W3) ["d"]).
Proof.
  apply (deleteExplicitTree_deletes p m budget ltac:(vm_compute; discriminate)
           ltac:(vm_compute; discriminate) 3 W3 ["d"] e0).
  - exact I.
  - vm_compute. reflexivity.
  - vm_compute. reflexivity.
  - apply Nat.leb_le. vm_compute. reflexivity.
  - intros k c Hk Hd _. apply chain_lookup in Hk.
    destruct Hk as [(-> & _)|[(-> & _)|(-> & -> & _)]]; [done..|vm_compute in Hd; discriminate].
Defined.

Example deleteExplicitTree_trace :
  let '(o, t, w) := deleteExplicitTree p m budget 3 (chain_loc ["d"]) 0 W3 in
  o = Returned (3, None) ∧ w = W0 ∧
  omap (λ ev, match ev with EvRemove r _ => Some (loc_Path (remove_Location r)) | _ => None end) t =
    ["/d/s/y"; "/d/s"; "/d"].
Proof. vm_compute. split_and!; reflexivity. Qed.

(** The handlers on this store. *)
Definition Resolve (ep : string) : result error (Provider world) := Ok p.
Definition binding : CapabilityBinding := mkBinding (mkRevision "s" 1) delete_capability.
Definition plan : Plan :=
  Plan_zero <| Source := mkFileRef (entry_Location e0) EntryDirectory (fp 0) (mkRevision "s" 1) |>
    <| Final := entry_Location e0 |> <| SourceCapability := binding |>
    <| DestinationCapability := binding |> <| ConflictPolicy := ConflictAsk |>
    <| Discovery := Some budget |> <| DeleteRecursive := true |>.

Lemma honest_Resolve : honest Resolve.
Proof.
  intros ep q [= <-] request w e w'. cbn. unfold stat_op.
  destruct (List.find _ _) as [e'|] eqn:E; [|done]. intros [= <- _].
  apply List.find_some in E as [_ E]. by apply bool_decide_eq_true in E.
Qed.

Example executeDelete_run :
  (executeDelete Resolve 3 plan W3).1.1 = Returned (completed_delete plan 3) ∧
  (executeDelete Resolve 3 plan W3).2 = W0.
Proof. vm_compute. split; reflexivity. Qed.

Lemma executeDelete_confined_witness :
  guarded (confirms plan) (allowed_delete plan) (trace (executeDelete Resolve 3 plan) W3).
Proof. apply (executeDelete_confined Resolve 3 plan W3). exact honest_Resolve. Defined.

Lemma executeDelete_completed_witness :
  ∃ t w', executeDelete Resolve 3 plan W3 = (Returned (completed_delete plan 3), t, w') ∧
    Outcome (completed_delete plan 3) = OutcomeCompleted ∧
    result_Final (completed_delete plan 3) = entry_Location e0 ∧
    absent_last (entry_Location e0) t.
Proof.
  eexists _, _. split; [vm_compute; reflexivity|].
  apply (executeDelete_completed Resolve 3 plan W3 (completed_delete plan 3) _ W0).
  - exact honest_Resolve.
  - vm_compute. reflexivity.
Defined.
End TreeDemo.

(** A provider on which one file can be renamed; the rename is made, but its
    answer is lost. *)
Module MoveDemo.
Definition file (l : Location) : Entry :=
  mkEntry l "f" EntryFile TreeDemo.none (TreeDemo.fp 7) None.
Definition stat_op (request : StatRequest) (w : Location) : result error Entry * Location :=
  (if bool_decide (stat_Location request = w) then Ok (file w) else Err TreeDemo.not_found, w).
Definition lost : error :=
  EOp CodeTransportInterrupted "" "" "ep" None (mkRetry RetryNever 0) EffectUnknown None.
Definition p : Provider Location :=
  mkProvider (mkEndpoint "ep" EndpointLocal "" "") (λ w, (Ok TreeDemo.snapshot, w))
    (λ _ w, (Err lost, w)) stat_op (λ _ w, (Err lost, w))
    (Some (mkMutable (λ _ w, (Err lost, w)) (λ request _, (Err lost, rename_Destination request))
             (λ _ w, (Some lost, w)) (λ _ w, (Err lost, w))))
    None None None.
Definition plan : Plan :=
  Plan_zero
    <| Source := mkFileRef (mkLocation "ep" "/a/f") EntryFile (TreeDemo.fp 7) (mkRevision "s" 1) |>
    <| DestinationDirectory := mkLocation "ep" "/b" |> <| RequestedName := "f" |>
    <| Final := mkLocation "ep" "/b/f" |> <| SourceCapability := TreeDemo.binding |>
    <| DestinationCapability := TreeDemo.binding |> <| ConflictPolicy := ConflictAsk |>
    <| MoveCapability := Some TreeDemo.binding |>.
Definition result : Result := mkResult OutcomeCompleted (mkLocation "ep" "/b/f") 7 1 1.

Lemma executeAtomicMove_completed_witness :
  ∃ t w', executeAtomicMove (λ _, Ok p) plan (mkLocation "ep" "/a/f") = (Returned result, t, w') ∧
    moved_last plan (mkLocation "ep" "/b/f") t ∧ Bytes result = 7.
Proof.
  eexists _, _. split; [vm_compute; reflexivity|].
  apply (executeAtomicMove_completed (λ _, Ok p) plan (mkLocation "ep" "/a/f") result _
           (mkLocation "ep" "/b/f")); vm_compute; reflexivity.
Defined.
End MoveDemo.
