(* ===== verification/Planner.v ===== *)
(** Freezing plans (src/internal/transfer/plan.go, with freezeCompletionPolicy of
    completion.go, tryServerCopy, trySameHostCopy and tryLevel2Preflight of
    server_copy.go, same_host.go and level2.go).

    The planner looks at the providers, asks a helper what it could do, and
    writes down what a worker will be allowed to do later.  Calls to providers
    are recorded as in the handlers; what a helper, a direct preflight or the
    source of random bytes answers is any function of the world. *)
From S2P Require Import Prelude TokenBucket Domain GoPath Provider DirectProtocol Bandwidth Plan Job.
From S2P Require Import PlanRecord Effects Mutation.
From S2P Require CacheRecords Edit.

Definition HardTransferBufferBytes : Z := Z.shiftl 4 20.
Definition DefaultBufferBytes : Z := HardTransferBufferBytes.
Definition ClipboardCopy := "copy".
Definition ClipboardCut := "cut".
(** domain/endpoint.go *)
Definition StateReady := "ready".
Definition StateDegraded := "degraded".

(** * Requests *)
Record Intent := mkIntent {
  int_Verification : string; int_Durability : string; Clipboard : string; int_Source : FileRef;
  int_DestinationDirectory : Location; int_Name : string; int_ConflictPolicy : string;
  ConflictConfirmed : bool; int_DirectPolicy : DirectPolicy; int_Bandwidth : BandwidthPolicy;
}.
Record DeleteIntent := mkDeleteIntent {
  del_Target : FileRef; Recursive : bool; Confirmed : bool; IrreversibleConfirmed : bool;
}.
Record FreezeRequest := mkFreezeRequest { fr_Intent : Intent; fr_Identity : RequestIdentity }.
Record DeleteFreezeRequest := mkDeleteFreezeRequest {
  dfr_Intent : DeleteIntent; dfr_Identity : RequestIdentity
}.
Record SyncBackFreezeRequest := mkSyncBackFreezeRequest {
  sfr_SyncBack : Edit.SyncBackRequest; sfr_Source : FileRef; sfr_Identity : RequestIdentity;
  sfr_BindingEventID : string;
}.

(** ^plan_[a-z2-7]{26}$ *)
Definition plan_id_letter (c : ascii) : bool :=
  let n := Z.of_N (N_of_ascii c) in (97 <=? n) && (n <=? 122) || (50 <=? n) && (n <=? 55).
Definition planIDPattern (value : string) : bool :=
  HasPrefix (chars value) (chars "plan_") && (len value =? 31) &&
  forallb plan_id_letter (drop 5 (chars value)).

(** The identifiers and the time; [wrap] is what becomes of a parsing error. *)
Definition parse_id (wrap : error → error) (r : result IDError string) : result error () :=
  match r with Ok _ => Ok tt | Err _ => Err (wrap (EText "parse ID")) end.
Definition validate_ids (wrap : error → error) (invalid : string) (i : RequestIdentity) :
    result error () :=
  _ ← parse_id wrap (ParseRequestID (id_RequestID i));
  _ ← parse_id wrap (ParseJobID (id_JobID i));
  _ ← parse_id wrap (ParseEventID (id_EventID i));
  if negb (planIDPattern (id_PlanID i)) || (Time_Unix (id_Now i) <=? 0)
  then Err (EText invalid) else Ok tt.

(** [name] is not one path component. *)
Definition not_one_component (name : string) : bool :=
  String.eqb name "" || String.eqb name "." || String.eqb name ".." ||
  negb (String.eqb (path_Base name) name) || has_nul name.

Definition validateFreezeRequest (request : FreezeRequest) : result error () :=
  let intent := fr_Intent request in
  let source := int_Source intent in
  let refuse message := Err (EText ("freeze copy: " +:+ message)) in
  _ ← validate_ids (EWrap "freeze copy") "freeze copy: invalid plan ID or time" (fr_Identity request);
  if negb (String.eqb (Clipboard intent) ClipboardCopy) && negb (String.eqb (Clipboard intent) ClipboardCut)
  then refuse "invalid clipboard kind" else
  if (negb (String.eqb (ref_Kind source) EntryFile) && negb (String.eqb (ref_Kind source) EntryDirectory)) ||
     String.eqb (loc_EndpointID (ref_Location source)) "" || String.eqb (loc_Path (ref_Location source)) ""
  then refuse "invalid source reference" else
  if String.eqb (loc_EndpointID (int_DestinationDirectory intent)) "" ||
     String.eqb (loc_Path (int_DestinationDirectory intent)) ""
  then refuse "invalid destination" else
  if bw_JobBytesPerSecond (int_Bandwidth intent) >? MaxBandwidthBytesPerSecond
  then refuse "bandwidth exceeds hard ceiling" else
  if not_one_component (int_Name intent)
  then refuse "destination name is not one path component" else
  if negb (existsb (String.eqb (int_ConflictPolicy intent))
             [ConflictAsk; ConflictOverwrite; ConflictSkip; ConflictAutoRename])
  then refuse "invalid conflict policy" else Ok tt.

(** * Pure steps *)
Definition chooseRoute (source destination : Endpoint) : string :=
  if String.eqb (ep_Kind source) EndpointLocal && String.eqb (ep_Kind destination) EndpointLocal
  then RouteLocal else RouteSFTPRelay.

(** completion.go; the plan is changed in place. *)
Definition wanted_completion (intent : Intent) : result error (string * string) :=
  let verification := if String.eqb (int_Verification intent) "" then VerifyProtocol
                      else int_Verification intent in
  let durability := if String.eqb (int_Durability intent) "" then DurabilityNone
                    else int_Durability intent in
  if (negb (String.eqb verification VerifyProtocol) && negb (String.eqb verification VerifySHA256)) ||
     (negb (String.eqb durability DurabilityNone) && negb (String.eqb durability DurabilityCompletion) &&
      negb (String.eqb durability DurabilityCheckpoint))
  then Err (EText "freeze transfer: unsupported completion policy") else
  Ok (if String.eqb (dp_Integrity (int_DirectPolicy intent)) IntegrityRequireStrong
      then VerifySHA256 else verification, durability).
Definition settle_completion (verification durability : string) (plan : Plan) : Plan :=
  let plan :=
    if String.eqb (plan_Kind plan) OperationMove
    then plan <| Verification := VerifySHA256 |> <| Durability := "" |>
    else plan <| Verification := verification |> <| Durability := durability |> in
  if String.eqb (Verification plan) VerifySHA256 && String.eqb (Durability plan) DurabilityCheckpoint
  then plan <| Durability := "" |> else plan.
Definition settle_stream_policy (plan : Plan) : Plan :=
  let policy := plan_StreamPolicy plan in
  let policy := if negb (String.eqb (Durability plan) "") && negb (CheckpointBytes policy =? 0)
                then policy <| CheckpointIntervalMS := 5000 |> else policy in
  let policy := if negb (String.eqb (Durability plan) "") && String.eqb (ref_Kind (Source plan)) EntryDirectory
                then policy <| DirectoryWorkers := 8 |> else policy in
  plan <| plan_StreamPolicy := policy |>.
Definition freezeCompletionPolicy (plan : Plan) (intent : Intent) : result error Plan :=
  wanted ← wanted_completion intent;
  let '(verification, durability) := wanted in
  Ok (settle_stream_policy (settle_completion verification durability plan)).

Definition destinationPreconditionFromEdit (value : Edit.RemotePrecondition) :
    result error DestinationPrecondition :=
  if String.eqb (Edit.rp_Presence value) Edit.ExpectedAbsent
  then Ok (mkPrecondition DestinationAbsent "" Fingerprint_zero "") else
  if String.eqb (Edit.rp_Presence value) Edit.ExpectedPresent then
    let r := mkPrecondition DestinationPresent (Edit.rp_Kind value) (Edit.rp_Fingerprint value)
               (Edit.rp_ContentSHA256 value) in
    if negb (validDestinationPrecondition (Some r))
    then Err (EText "freeze sync-back: invalid expected-present destination identity") else Ok r
  else Err (EText "freeze sync-back: invalid destination presence").

(** * The planner *)
(** same_host.go; the request repeats [MaxSameHostCopyBytes]. *)
Record SameHostCopyPrepareRequest := mkPrepareRequest {
  prep_Source : Location; prep_Part : Location; prep_Final : Location;
  prep_ExpectedFingerprint : Fingerprint; prep_MaxBytes : Z; (* uint64 *)
}.
Record Planner (W : Type) := mkPlanner {
  pl_resolver : option (string → result error (Provider W));
  pl_streamPolicy : StreamPolicy;
  pl_sameHost : option (SameHostCopyPrepareRequest → W → result error SameHostCopyBinding * W);
  pl_level2 : option (dp_Request → W → result error dp_Result * W);
  (* [rand.Read] of 16 bytes *)
  pl_rand : W → option (list byte) * W;
}.
Arguments mkPlanner {W} _ _ _ _ _. Arguments pl_resolver {W} _. Arguments pl_streamPolicy {W} _.
Arguments pl_sameHost {W} _. Arguments pl_level2 {W} _. Arguments pl_rand {W} _ _.

(** [NewPlanner], and [NewPlannerWithSameHost] when there is a backend. *)
Definition NewPlannerWithSameHost {W} (resolver : string → result error (Provider W))
    (backend : option (SameHostCopyPrepareRequest → W → result error SameHostCopyBinding * W))
    (rand : W → option (list byte) * W) : Planner W :=
  mkPlanner (Some resolver) DefaultStreamPolicy backend None rand.

Section Planner.
Context {W : Type} (planner : Planner W).

Definition resolve (endpointID : string) : M W (Provider W) :=
  match pl_resolver planner with
  | None => throw (EText "transfer planner: nil resolver")
  | Some Resolve => lift (Resolve endpointID)
  end.

Definition requireCapability (implementation : Provider W) (operation : string)
    (location : Location) (name : string) : M W (EndpointSnapshot * Capability) :=
  snapshot ← call_Snapshot implementation;
  if negb (String.eqb (es_State snapshot) StateReady) && negb (String.eqb (es_State snapshot) StateDegraded)
  then throw (planError CodeTransportInterrupted operation location "endpoint is not operational"
                RetryAfterReconnect) else
  if negb (Complete (es_Capabilities snapshot))
  then throw (planError CodeCapabilityLost operation location "capability snapshot is incomplete"
                RetryAfterReplan) else
  match Capability_Lookup (es_Capabilities snapshot) name with
  | None => throw (planError CodeUnsupported operation location
                     ("endpoint lacks " +:+ name +:+ " capability") RetryAfterReplan)
  | Some capability => mret (snapshot, capability)
  end.
Local Abbreviation revision snapshot := (Revision (es_Capabilities snapshot)).

(** The destination can be changed at all. *)
Definition require_mutable (p : Provider W) (operation : string) (location : Location)
    (message : string) : M W () :=
  match mutable_facet p with
  | Some _ => mret tt
  | None => throw (planError CodeUnsupported operation location message RetryAfterReplan)
  end.

Definition capture (location : Location) (allowSymlink : bool) : M W FileRef :=
  implementation ← resolve (loc_EndpointID location);
  r ← requireCapability implementation "capture" location "read";
  let '(snapshot, _) := r in
  entry ← stat implementation location;
  if negb (String.eqb (entry_Kind entry) EntryFile) && negb (String.eqb (entry_Kind entry) EntryDirectory) &&
     (negb allowSymlink || negb (String.eqb (entry_Kind entry) EntrySymlink))
  then throw (planError CodeInvalidArgument "capture" location
                "copy requires a regular file or directory" RetryNever) else
  if String.eqb (Strength (entry_Fingerprint entry)) FingerprintWeak
  then throw (planError CodeUnsupported "capture" location "source has no stable fingerprint"
                RetryAfterReplan)
  else mret (mkFileRef (entry_Location entry) (entry_Kind entry) (entry_Fingerprint entry)
               (revision snapshot)).
Definition Capture (location : Location) : M W FileRef := capture location false.
Definition CaptureDelete (location : Location) : M W FileRef := capture location true.

(** The frozen reference still describes what is there. *)
Definition require_unchanged (operation message : string) (p : Provider W)
    (snapshot : EndpointSnapshot) (ref : FileRef) : M W () :=
  current ← stat p (ref_Location ref);
  if negb (String.eqb (entry_Kind current) (ref_Kind ref)) ||
     negb (bool_decide (entry_Fingerprint current = ref_Fingerprint ref)) ||
     negb (bool_decide (revision snapshot = ref_CapabilityRevision ref))
  then throw (planError CodeConflict operation (ref_Location ref) message RetryAfterConflict)
  else mret tt.
Definition require_directory (operation message : string) (p : Provider W) (location : Location) :
    M W () :=
  directory ← stat p location;
  if negb (String.eqb (entry_Kind directory) EntryDirectory)
  then throw (planError CodeInvalidArgument operation location message RetryNever) else mret tt.
Definition require_absent (operation message : string) (p : Provider W) (location : Location) :
    M W () :=
  exists_ ← locationExists p location;
  if negb exists_ then mret tt
  else throw (planError CodeAlreadyExists operation location message RetryAfterConflict).

(** * Faster routes *)

(** server_copy.go; the plan with its new route, when there is one. *)
Definition tryServerCopy (destination : Provider W)
    (sourceSnapshot destinationSnapshot : EndpointSnapshot) (plan : Plan) : option Plan :=
  if negb (is_file_copy plan) || requiresControl (Bandwidth plan) || negb (same_endpoint plan) ||
     negb (both_ssh plan) || negb (bool_decide (is_Some (server_copy_facet destination))) ||
     negb (bool_decide (revision sourceSnapshot = revision destinationSnapshot))
  then None else
  match Capability_Lookup (es_Capabilities sourceSnapshot) "server_copy",
        fp_Size (ref_Fingerprint (Source plan)) with
  | Some capability, Some size =>
    if negb (cap_Version capability =? ServerCopyCapabilityVersion) || (size >? MaxServerCopyBytes) ||
       negb (bool_decide (Capability_Lookup (es_Capabilities destinationSnapshot) "server_copy" =
                          Some capability))
    then None else
    Some (plan <| ServerCopy := Some (mkServerCopy (revision sourceSnapshot) capability
                                        MaxServerCopyBytes) |>
               <| Route := RouteSFTPServerCopy |>)
  | _, _ => None
  end.

(** same_host.go *)
Definition trySameHostCopy (plan : Plan) : M W Plan :=
  match pl_sameHost planner with
  | None => mret plan
  | Some PrepareCopy =>
    if negb (is_file_copy plan) || requiresControl (Bandwidth plan) || negb (same_endpoint plan) ||
       negb (both_ssh plan) then mret plan else
    r ← tick (PrepareCopy (mkPrepareRequest (ref_Location (Source plan)) (Part plan) (Final plan)
                             (ref_Fingerprint (Source plan)) MaxSameHostCopyBytes));
    match r with
    | Err _ => mret plan
    | Ok binding =>
      if negb (validSameHostCopyBinding binding (ep_ID (SourceEndpoint plan))
                 (ref_Fingerprint (Source plan))) then mret plan
      else mret (plan <| Route := RouteHelperSameHost |> <| SameHostCopy := Some binding |>)
    end
  end.

(** level2.go: the binding that records the attempt, and the route when it
    passed. *)
Definition preflight_request (identity : RequestIdentity) (plan : Plan) (size : Z)
    (nonce : list byte) : dp_Request :=
  mkDirectRequest dp_Version (id_RequestID identity) (id_JobID identity) (ep_ID (SourceEndpoint plan))
    (loc_Path (ref_Location (Source plan))) (ep_ID (DestinationEndpoint plan)) (loc_Path (Part plan))
    (loc_Path (Final plan)) (ep_SSHHostAlias (DestinationEndpoint plan)) size
    (ref_Fingerprint (Source plan)) (dp_Integrity (plan_DirectPolicy plan))
    (Time_Unix (id_Now identity + MaxRequestDuration `div` 2)) (CacheRecords.hex_EncodeToString nonce)
    FrozenControlLimits.
Definition preflight_binding (request : dp_Request) : Level2PreflightBinding :=
  mkLevel2 dp_Version level2DirectCapability MaxTransferBytes request None 0 "" Level2PreflightInvalid
    preflight_unavailable.

Definition tryLevel2Preflight (identity : RequestIdentity) (plan : Plan) : M W Plan :=
  match pl_level2 planner, fp_Size (ref_Fingerprint (Source plan)) with
  | Some Preflight, Some size =>
    if negb (DirectPolicy_enabled (plan_DirectPolicy plan)) || requiresControl (Bandwidth plan) ||
       negb (plan_Version plan =? 1) || negb (String.eqb (ref_Kind (Source plan)) EntryFile) ||
       same_endpoint plan || negb (both_ssh plan) || (size >? MaxTransferBytes)
    then mret plan else
    nonce ← tick (pl_rand planner);
    match nonce with
    | None => mret plan
    | Some nonce =>
      let request := preflight_request identity plan size nonce in
      let binding := preflight_binding request in
      r ← tick (Preflight request);
      mret match r with
      | Err _ => plan <| Level2Preflight := Some binding |>
      | Ok result =>
        match Evaluate request result (id_Now identity) with
        | Err _ => plan <| Level2Preflight := Some binding |>
        | Ok (passed, first) =>
          let binding := binding <| l2_Result := Some result |>
            <| l2_SourceSize := res_SourceSize result |>
            <| l2_SourceSHA256 := res_SourceSHA256 result |> in
          if passed
          then plan <| Level2Preflight := Some (binding <| l2_Outcome := Level2PreflightPassed |>
                                                  <| l2_FirstCheck := Check_zero |>) |>
                    <| Route := RouteLevel2Direct |>
          else plan <| Level2Preflight := Some (binding <| l2_FirstCheck := first |>
                 <| l2_Outcome := if String.eqb (check_Status first) Unknown
                                  then Level2PreflightUnknown else Level2PreflightFailed |>) |>
        end
      end
    end
  | _, _ => mret plan
  end.

(** * Copies and moves *)

(** What the capabilities and the mutation facets allow: the snapshots of the two
    ends, with their capabilities, and the capability to delete the source of a
    move. *)
Definition source_deletion (source : Provider W) (location : Location)
    (sourceSnapshot : EndpointSnapshot) : M W CapabilityBinding :=
  r ← requireCapability source "plan_move" location "write";
  let '(deleteSnapshot, deleteCapability) := r in
  if negb (bool_decide (revision deleteSnapshot = revision sourceSnapshot))
  then throw (planError CodeConflict "plan_move" location
                "source capability revision changed while freezing move" RetryAfterReplan) else
  _ ← require_mutable source "plan_move" location "source endpoint has no deletion facet";
  mret (mkBinding (revision deleteSnapshot) deleteCapability).

(** The name the copy gets, and whether the wanted one was taken. *)
Definition choose_final (destination : Provider W) (intent : Intent) : M W (bool * Location) :=
  let directory := int_DestinationDirectory intent in
  let final := childLocation directory (int_Name intent) in
  finalExists ← locationExists destination final;
  final ← if finalExists && String.eqb (int_ConflictPolicy intent) ConflictAutoRename
          then chooseAutoRename destination directory (int_Name intent) else mret final;
  let source := int_Source intent in
  if String.eqb (ref_Kind source) EntryDirectory &&
     String.eqb (loc_EndpointID final) (loc_EndpointID (ref_Location source)) &&
     pathWithin (loc_Path (ref_Location source)) (loc_Path final)
  then throw (planError CodeInvalidArgument "plan_copy" final
                "directory destination is inside the frozen source tree" RetryNever)
  else mret (finalExists : bool, final).

(** The plan before its policies and routes are settled. *)
Definition copy_plan (request : FreezeRequest) (source destination : Endpoint) (final part : Location)
    (sourceBinding destinationBinding : CapabilityBinding)
    (deleteBinding : option CapabilityBinding) : Plan :=
  let intent := fr_Intent request in
  let identity := fr_Identity request in
  Plan_zero <| plan_Version := 1 |> <| PlanID := id_PlanID identity |>
    <| plan_JobID := id_JobID identity |>
    <| plan_Kind := if String.eqb (Clipboard intent) ClipboardCut then OperationMove else OperationCopy |>
    <| SourceEndpoint := source |> <| DestinationEndpoint := destination |>
    <| Source := int_Source intent |> <| DestinationDirectory := int_DestinationDirectory intent |>
    <| RequestedName := int_Name intent |> <| Final := final |> <| Part := part |>
    <| SourceCapability := sourceBinding |> <| DestinationCapability := destinationBinding |>
    <| Route := chooseRoute source destination |> <| plan_DirectPolicy := int_DirectPolicy intent |>
    <| Bandwidth := int_Bandwidth intent |> <| Verification := VerifySHA256 |>
    <| ConflictPolicy := int_ConflictPolicy intent |> <| BufferBytes := DefaultBufferBytes |>
    <| plan_StreamPolicy := pl_streamPolicy planner |> <| SourceDeleteCapability := deleteBinding |>
    <| FrozenAt := truncate_second (id_Now identity) |>.

(** Discovery for a directory, and how a move moves. *)
Definition settle_operation (sourceSnapshot : EndpointSnapshot) (plan : Plan) : Plan :=
  let plan := if String.eqb (ref_Kind (Source plan)) EntryDirectory
              then plan <| Discovery := Some DefaultDiscoveryBudget |> else plan in
  if String.eqb (plan_Kind plan) OperationMove then
    let plan := plan <| MoveStrategy := MoveCopyDelete |> in
    if same_endpoint plan then
      match Capability_Lookup (es_Capabilities sourceSnapshot) "atomic_rename" with
      | Some capability =>
        plan <| MoveStrategy := MoveAtomicRename |>
             <| MoveCapability := Some (mkBinding (revision sourceSnapshot) capability) |>
      | None => plan
      end
    else plan
  else plan.

(** Other routes than the local one and the relay verify by content. *)
Definition settle_route (plan : Plan) : Plan :=
  let plan := if local_or_relay (Route plan) then plan
              else plan <| Verification := VerifySHA256 |> <| Durability := "" |> in
  freezeRouteEvidence plan.

(** A destination that exists waits for the user, unless the intent settles it. *)
Definition initial_state (finalExists : bool) (intent : Intent) : Job.State :=
  if finalExists && (String.eqb (int_ConflictPolicy intent) ConflictAsk ||
       String.eqb (int_ConflictPolicy intent) ConflictOverwrite && negb (ConflictConfirmed intent))
  then StateAwaitingConfirmation else StateQueued.

Definition FreezeCopy (request : FreezeRequest) : M W (Plan * CreateRequest JSON) :=
  let intent := fr_Intent request in
  let identity := fr_Identity request in
  let source := ref_Location (int_Source intent) in
  let directory := int_DestinationDirectory intent in
  _ ← lift (validateFreezeRequest request);
  sourceProvider ← resolve (loc_EndpointID source);
  destinationProvider ← resolve (loc_EndpointID directory);
  s ← requireCapability sourceProvider "plan_copy" source "read";
  let '(sourceSnapshot, sourceCapability) := s in
  d ← requireCapability destinationProvider "plan_copy" directory "write";
  let '(destinationSnapshot, destinationCapability) := d in
  _ ← require_mutable destinationProvider "plan_copy" directory "destination has no mutation facet";
  deleteBinding ← if String.eqb (Clipboard intent) ClipboardCut
    then b ← source_deletion sourceProvider source sourceSnapshot; mret (Some b) else mret None;
  _ ← require_unchanged "plan_copy" "captured source changed before planning" sourceProvider
        sourceSnapshot (int_Source intent);
  _ ← require_directory "plan_copy" "destination is not a directory" destinationProvider directory;
  f ← choose_final destinationProvider intent;
  let '(finalExists, final) := f in
  let part := childLocation directory (part_name (loc_Path final) (id_JobID identity)) in
  _ ← require_absent "plan_copy" "job part location already exists" destinationProvider part;
  plan ← lift (freezeCompletionPolicy
    (copy_plan request (Descriptor sourceProvider) (Descriptor destinationProvider) final part
       (mkBinding (revision sourceSnapshot) sourceCapability)
       (mkBinding (revision destinationSnapshot) destinationCapability) deleteBinding) intent);
  let plan := settle_operation sourceSnapshot plan in
  plan ← match tryServerCopy destinationProvider sourceSnapshot destinationSnapshot plan with
         | Some plan => mret plan
         | None => trySameHostCopy plan
         end;
  plan ← tryLevel2Preflight identity plan;
  let plan := settle_route plan in
  create ← lift (createRequest plan identity (initial_state finalExists intent));
  mret (plan, create).

(** * Sending an edited file back *)
Definition sync_back_directory (target : Location) : Location :=
  mkLocation (loc_EndpointID target) (path_Dir (loc_Path target)).

Definition validate_sync_back (request : SyncBackFreezeRequest) : result error () :=
  let sb := sfr_SyncBack request in
  let target := Edit.sb_Target sb in
  let refuse message := Err (EText ("freeze sync-back: " +:+ message)) in
  let wrap := EWrap "freeze sync-back" in
  if negb (Edit.sb_PlanVersion sb =? Edit.SyncBackPlanVersion) ||
     negb (String.eqb (Edit.sb_Origin sb) Edit.SyncBackOrigin)
  then refuse "invalid plan version or origin" else
  if negb (is_ok (Edit.ParseSessionID (Edit.sb_SessionID sb))) then Err (wrap (EText "session ID")) else
  if (Edit.sb_SessionVersion sb <? 1) || (Edit.sb_SessionVersion sb >? MaxInt64) ||
     negb (existsb (String.eqb (Edit.sb_Decision sb))
             [Edit.DecisionUpload; Edit.DecisionOverwrite; Edit.DecisionSaveAs])
  then refuse "invalid session version or decision" else
  if negb (is_ok (Edit.ParseSHA256 (Edit.sb_LocalSHA256 sb))) then Err (wrap (EText "SHA-256")) else
  _ ← map_err wrap (validateFreezeRequest (mkFreezeRequest
        (mkIntent "" "" ClipboardCopy (sfr_Source request) (sync_back_directory target)
           (path_Base (loc_Path target)) ConflictOverwrite true
           (mkDirectPolicy false false false "") (mkBandwidth false 0)) (sfr_Identity request)));
  if (len (sfr_BindingEventID request) <? 1) || (len (sfr_BindingEventID request) >? 128) ||
     negb (String.eqb (ref_Kind (sfr_Source request)) EntryFile) ||
     String.eqb (Strength (ref_Fingerprint (sfr_Source request))) FingerprintWeak
  then refuse "invalid binding event or source" else Ok tt.

(** Where the original goes before it is replaced. *)
Definition choose_preserved (destination : Provider W) (target : Location) (jobID : string)
    (expected : DestinationPrecondition) : M W Location :=
  if String.eqb (pre_Presence expected) DestinationPresent then
    if negb (bool_decide (is_Some (preserver_facet destination)))
    then throw (planError CodeUnsupported "plan_sync_back" target
                  "destination cannot preserve the replaced remote version" RetryAfterReplan) else
    let preserved := childLocation (sync_back_directory target) (original_name (loc_Path target) jobID) in
    _ ← require_absent "plan_sync_back" "job preservation location already exists" destination preserved;
    mret preserved
  else mret Location_zero.

Definition sync_back_plan (request : SyncBackFreezeRequest) (source destination : Endpoint)
    (expected original : DestinationPrecondition) (part preserved : Location)
    (sourceBinding destinationBinding : CapabilityBinding) : Plan :=
  let sb := sfr_SyncBack request in
  let target := Edit.sb_Target sb in
  let identity := sfr_Identity request in
  Plan_zero <| plan_Version := 2 |> <| Origin := OriginSyncBack |>
    <| EditSessionID := Edit.sb_SessionID sb |> <| ExpectedDestination := Some expected |>
    <| OriginalDestinationPrecondition := Some original |>
    <| ExpectedSourceSHA256 := Edit.sb_LocalSHA256 sb |> <| PlanID := id_PlanID identity |>
    <| plan_JobID := id_JobID identity |> <| plan_Kind := OperationCopy |>
    <| SourceEndpoint := source |> <| DestinationEndpoint := destination |>
    <| Source := sfr_Source request |> <| DestinationDirectory := sync_back_directory target |>
    <| RequestedName := path_Base (loc_Path target) |> <| Final := target |> <| Part := part |>
    <| PreservedDestination := preserved |> <| SourceCapability := sourceBinding |>
    <| DestinationCapability := destinationBinding |> <| Route := chooseRoute source destination |>
    <| Verification := VerifySHA256 |> <| ConflictPolicy := ConflictOverwrite |>
    <| BufferBytes := DefaultBufferBytes |> <| plan_StreamPolicy := pl_streamPolicy planner |>
    <| FrozenAt := truncate_second (id_Now identity) |>.

Definition FreezeSyncBack (request : SyncBackFreezeRequest) : M W (Plan * CreateRequest JSON) :=
  let sb := sfr_SyncBack request in
  let identity := sfr_Identity request in
  let source := ref_Location (sfr_Source request) in
  let target := Edit.sb_Target sb in
  let directory := sync_back_directory target in
  _ ← lift (validate_sync_back request);
  expected ← lift (destinationPreconditionFromEdit (Edit.sb_DestinationPrecondition sb));
  original ← lift (destinationPreconditionFromEdit (Edit.sb_OriginalDestinationPrecondition sb));
  sourceProvider ← resolve (loc_EndpointID source);
  destinationProvider ← resolve (loc_EndpointID target);
  s ← requireCapability sourceProvider "plan_sync_back" source "read";
  let '(sourceSnapshot, sourceCapability) := s in
  d ← requireCapability destinationProvider "plan_sync_back" directory "write";
  let '(destinationSnapshot, destinationCapability) := d in
  _ ← require_mutable destinationProvider "plan_sync_back" target "destination has no mutation facet";
  _ ← require_unchanged "plan_sync_back" "materialization changed before planning" sourceProvider
        sourceSnapshot (sfr_Source request);
  _ ← require_directory "plan_sync_back" "destination parent is not a directory" destinationProvider
        directory;
  let part := childLocation directory (part_name (loc_Path target) (id_JobID identity)) in
  _ ← require_absent "plan_sync_back" "job part location already exists" destinationProvider part;
  preserved ← choose_preserved destinationProvider target (id_JobID identity) expected;
  let plan := sync_back_plan request (Descriptor sourceProvider) (Descriptor destinationProvider)
    expected original part preserved (mkBinding (revision sourceSnapshot) sourceCapability)
    (mkBinding (revision destinationSnapshot) destinationCapability) in
  create ← lift (createRequest plan identity StateQueued);
  mret (plan, create <| create_EditSession := Some (mkEditSessionBinding (Edit.sb_SessionID sb)
    (Edit.sb_SessionVersion sb) (sfr_BindingEventID request) "sync_back_job_bound") |>).

(** * Deletions *)
Definition validate_delete (request : DeleteFreezeRequest) : result error () :=
  let target := del_Target (dfr_Intent request) in
  let refuse message :=
    Err (planError CodeInvalidArgument "plan_delete" (ref_Location target) message RetryNever) in
  if negb (Confirmed (dfr_Intent request)) then refuse "delete requires explicit confirmation" else
  _ ← validate_ids id "freeze delete: invalid plan ID or time" (dfr_Identity request);
  if String.eqb (loc_EndpointID (ref_Location target)) "" || String.eqb (loc_Path (ref_Location target)) "" ||
     String.eqb (loc_Path (ref_Location target)) "/" ||
     (negb (String.eqb (ref_Kind target) EntryFile) && negb (String.eqb (ref_Kind target) EntryDirectory) &&
      negb (String.eqb (ref_Kind target) EntrySymlink))
  then refuse "delete target is empty, root, or unsupported" else Ok tt.

Definition delete_plan (request : DeleteFreezeRequest) (endpoint : Endpoint)
    (readBinding writeBinding : CapabilityBinding) (trash : option CapabilityBinding) : Plan :=
  let target := del_Target (dfr_Intent request) in
  let identity := dfr_Identity request in
  let directory := mkLocation (loc_EndpointID (ref_Location target))
                     (path_Dir (loc_Path (ref_Location target))) in
  Plan_zero <| plan_Version := 1 |> <| PlanID := id_PlanID identity |>
    <| plan_JobID := id_JobID identity |> <| plan_Kind := OperationDelete |>
    <| SourceEndpoint := endpoint |> <| DestinationEndpoint := endpoint |> <| Source := target |>
    <| DestinationDirectory := directory |>
    <| RequestedName := path_Base (loc_Path (ref_Location target)) |> <| Final := ref_Location target |>
    <| Part := childLocation directory (".delete-intent-" +:+ id_JobID identity) |>
    <| SourceCapability := readBinding |> <| DestinationCapability := writeBinding |>
    <| Route := chooseRoute endpoint endpoint |> <| Verification := VerifySHA256 |>
    <| ConflictPolicy := ConflictAsk |> <| BufferBytes := DefaultBufferBytes |>
    <| DeleteRecursive := Recursive (dfr_Intent request) |>
    <| DeleteIrreversible := negb (bool_decide (is_Some trash)) |>
    <| DeleteTrash := bool_decide (is_Some trash) |>
    <| FrozenAt := truncate_second (id_Now identity) |>
    <| DeleteCapability := trash |>
    <| Discovery := if String.eqb (ref_Kind target) EntryDirectory
                    then Some DefaultDiscoveryBudget else None |>.

Definition FreezeDelete (request : DeleteFreezeRequest) : M W (Plan * CreateRequest JSON) :=
  let target := del_Target (dfr_Intent request) in
  let location := ref_Location target in
  _ ← lift (validate_delete request);
  implementation ← resolve (loc_EndpointID location);
  s ← requireCapability implementation "plan_delete" location "read";
  let '(snapshot, readCapability) := s in
  d ← requireCapability implementation "plan_delete" location "write";
  let '(writeSnapshot, writeCapability) := d in
  if negb (bool_decide (revision writeSnapshot = revision snapshot))
  then throw (planError CodeConflict "plan_delete" location
                "target capability revision changed while freezing delete" RetryAfterReplan) else
  _ ← require_mutable implementation "plan_delete" location "target endpoint has no mutation facet";
  let trash := match trash_facet implementation with
    | Some _ => mkBinding (revision snapshot) <$> Capability_Lookup (es_Capabilities snapshot) "trash"
    | None => None
    end in
  if negb (bool_decide (is_Some trash)) && negb (IrreversibleConfirmed (dfr_Intent request))
  then throw (planError CodeInvalidArgument "plan_delete" location
                "irreversible delete requires second confirmation" RetryNever) else
  _ ← require_unchanged "plan_delete" "captured delete target changed" implementation snapshot target;
  let plan := delete_plan request (Descriptor implementation)
    (mkBinding (revision snapshot) readCapability) (mkBinding (revision snapshot) writeCapability)
    trash in
  create ← lift (createDeleteRequest plan (dfr_Identity request));
  mret (plan, create).
End Planner.
