(* ===== verification/Stream.v ===== *)
(** Streams of a transfer (src/internal/transfer/stream.go, verification.go,
    stream_recovery.go, the loops of worker.go, and the parts of package io they
    use): admission of packets, reading a source, copying, writing everything
    and verifying a file.

    A Go reader or writer with state is a function from its state to its result
    and its new state.  The measurements the code takes along the way are left
    out. *)
From S2P Require Import Prelude Domain GoPath Provider DirectProtocol Bandwidth Plan Checkpoint.
From S2P Require Import Effects Mutation.

(** SHA-256, [encoding.BinaryMarshaler] included.  [h_sum] is the hexadecimal
    digest. *)
Class Hash (H : Type) := {
  h_new : H;
  h_write : H → list byte → H;
  h_sum : H → string;
  h_marshal : H → list byte;
  h_unmarshal : list byte → option H;
}.
(** What the code relies on: a hash takes its input in any pieces, and a saved
    state is the state. *)
Class HashLaws (H : Type) `{Hash H} := {
  h_write_app : ∀ h a b, h_write h (a ++ b) = h_write (h_write h a) b;
  h_write_nil : ∀ h, h_write h [] = h;
  h_unmarshal_marshal : ∀ h, h_unmarshal (h_marshal h) = Some h;
}.
Definition digest {H} `{Hash H} (content : list byte) : string := h_sum (h_write (h_new (H := H)) content).
Arguments digest H {_} content.

(** Package variables. *)
Definition EOF : error := ESentinel "EOF".
Definition is_EOF : error → bool := is_sentinel "EOF".
(** [err == io.EOF], which is not [errors.Is]. *)
Definition is_EOF_value (err : error) : bool :=
  match err with ESentinel name => String.eqb name "EOF" | _ => false end.
Definition ErrNoProgress : error := ESentinel "multiple Read calls return no data or error".
Definition ErrShortWrite : error := ESentinel "short write".
Definition ErrPaused : error := ESentinel "transfer paused".
Definition ErrCanceled : error := ESentinel "transfer canceled".

(** The first [n] bytes of a buffer of length [size] that the callee has left as
    [buffer]. *)
Definition filled (size n : Z) (buffer : list byte) : list byte :=
  take (Z.to_nat n) (take (Z.to_nat size) buffer ++
                     replicate (Z.to_nat size - length buffer) x00).

Section Streams.
Context {W H : Type} `{Hash H}.
Context (scheduler : option (bandwidthScheduler W)) (control : option (Control W)).
(** The error of the context, and the clock. *)
Context (ctx_Err : W → option error) (Now : W → Time * W).
(** Turns allowed to a loop that a provider drives. *)
Context (fuel : nat).

(** * Admission *)

(** [waitForScheduledBytes]; a grant takes at least one byte. *)
Fixpoint wait_loop (s : bandwidthScheduler W) (request : BandwidthRequest) (turns : nat)
    (remaining : Z) : M W (option error) :=
  if remaining <=? 0 then mret None else
  match turns with
  | O => running
  | S turns =>
    quantum ← peek (λ w, u32 (QuantumBytes s w));
    if quantum =? 0
    then mret (Some (EText "execute transfer: scheduler returned a zero quantum")) else
    let granted := if remaining >? quantum then quantum else remaining in
    err ← call_Wait s (mkRequest (JobID request) (EndpointID request) (PeerEndpointID request)
                         (JobBytesPerSecond request) (Class request) granted);
    match err with
    | Some err => mret (Some err)
    | None => wait_loop s request turns (remaining - granted)
    end
  end.
Definition waitForScheduledBytes (s : bandwidthScheduler W) (request : BandwidthRequest)
    (total : Z) : M W (option error) := wait_loop s request (Z.to_nat total) total.

(** [streamAdmission.gate]. *)
Definition gate (plan : Plan) (endpoint : string) (n : Z) : M W (option error) :=
  match scheduler with
  | None => mret None
  | Some s => waitForScheduledBytes s
      (mkRequest (plan_JobID plan) endpoint "" (bw_JobBytesPerSecond (Bandwidth plan))
         ScheduleBulk 0) n
  end.
(** A gate that may be absent. *)
Definition gate_if (plan : Plan) (endpoint : option string) (n : Z) : M W (option error) :=
  match endpoint with None => mret None | Some endpoint => gate plan endpoint n end.

Definition quantum_bytes : M W Z :=
  match scheduler with None => mret 0 | Some s => peek (λ w, u32 (QuantumBytes s w)) end.

Definition streamReadOptions (plan : Plan) (size : option Z) (before_read : bool) :
    M W ReadStreamOptions :=
  let requests := Z.min (streamWindowRequests plan (fp_Size (ref_Fingerprint (Source plan))))
                        (streamWindowRequests plan size) in
  match scheduler with
  | None => mret (mkStreamOptions (u32 (requests * streamPacketBytes)) 0 before_read)
  | Some _ =>
    max_request ← quantum_bytes;
    let max_bytes := if negb (String.eqb (Durability plan) "")
                     then u32 (requests * Z.min max_request streamPacketBytes)
                     else u32 (requests * streamPacketBytes) in
    max_request ← quantum_bytes;
    mret (mkStreamOptions max_bytes max_request before_read)
  end.

(** * Reading a source *)
Record sourceStream := mkSourceStream {
  ss_location : Location; (* where [handle] was opened *)
  ss_handle : ReadHandle W;
  ss_digest : option H;
  ss_options : ReadStreamOptions;
  ss_beforeRead : option string;  (* the endpoint a read is admitted at *)
  ss_beforeWrite : option string;
  ss_readAhead : bool;
  ss_readBytes : Z; (* uint64 *)
  ss_onRead : option (Z → M W (option error));
}.
Definition stream_read_by (r : sourceStream) (bytes : list byte) : sourceStream :=
  mkSourceStream (ss_location r) (ss_handle r) ((λ h, h_write h bytes) <$> ss_digest r)
    (ss_options r) (ss_beforeRead r) (ss_beforeWrite r) (ss_readAhead r)
    (u64 (ss_readBytes r + blen bytes)) (ss_onRead r).

Definition on_read (r : sourceStream) (f : Z → M W (option error)) : sourceStream :=
  mkSourceStream (ss_location r) (ss_handle r) (ss_digest r) (ss_options r) (ss_beforeRead r)
    (ss_beforeWrite r) (ss_readAhead r) (ss_readBytes r) (Some f).

(** A [ReadStream] call with its callbacks. *)
Fixpoint read_stream (plan : Plan) (r : sourceStream)
    (f : Z → ReadStreamOptions → option (option error) → W → stream_action * W) (size : Z)
    (turns : nat) (resume : option (option error)) : M W IOResult :=
  a ← call_ReadStream (ss_location r) f size (ss_options r) resume;
  match a with
  | StreamDone res => mret res
  | StreamGate n =>
    match turns with
    | O => running
    | S turns =>
      err ← gate_if plan (ss_beforeRead r) (u32 n);
      read_stream plan r f size turns (Some err)
    end
  end.

(** The provider call of one [Read]; [inr] when admission failed. *)
Definition provider_read (plan : Plan) (r : sourceStream) (size : Z) : M W (IOResult + error) :=
  match ReadStream (ss_handle r) with
  | Some f => res ← read_stream plan r f size fuel None; mret (inl res)
  | None =>
    err ← gate_if plan (ss_beforeRead r) size;
    match err with
    | Some err => mret (inr err)
    | None =>
      match ReadAhead (ss_handle r) with
      | Some f =>
        if ss_readAhead r
        then res ← call_ReadAhead (ss_location r) f size (opt_MaxBytes (ss_options r)); mret (inl res)
        else res ← call_Read (ss_location r) (ss_handle r) size; mret (inl res)
      | None => res ← call_Read (ss_location r) (ss_handle r) size; mret (inl res)
      end
    end
  end.

Definition packet_size (r : sourceStream) (size : Z) : Z :=
  let packetBytes := if 0 <? opt_MaxRequestBytes (ss_options r)
                     then Z.min streamPacketBytes (opt_MaxRequestBytes (ss_options r))
                     else streamPacketBytes in
  Z.min size packetBytes.

(** A read: the bytes it put into the buffer and its error. *)
Definition ReadResult : Type := list byte * option error.

Definition sourceStream_Read (plan : Plan) (r : sourceStream) (size : Z) :
    M W (sourceStream * ReadResult) :=
  canceled ← peek ctx_Err;
  match canceled with
  | Some err => mret (r, ([], Some err))
  | None =>
    if size =? 0 then mret (r, ([], None)) else
    let size := packet_size r size in
    res ← provider_read plan r size;
    match res with
    | inr err => mret (r, ([], Some err))
    | inl (n, buffer, err) =>
      if (n <? 0) || (n >? size)
      then mret (r, ([], Some (EText "stream transfer: invalid read count"))) else
      if n =? 0 then
        mret (r, ([], match err with None => Some ErrNoProgress | Some _ => err end))
      else
        let bytes := filled size n buffer in
        refused ← gate_if plan (ss_beforeWrite r) n;
        match refused with
        | Some err => mret (r, ([], Some err))
        | None =>
          let r := stream_read_by r bytes in
          report ← match ss_onRead r with
                   | None => mret None
                   | Some f => f (ss_readBytes r)
                   end;
          match report with
          | Some err => mret (r, (bytes, Some err))
          | None => mret (r, (bytes, err))
          end
        end
    end
  end.

(** * Package io *)

(** [io.LimitReader]. *)
Definition limit_read {S} (read : S → Z → M W (S * ReadResult)) (s : Z * S) (size : Z) :
    M W ((Z * S) * ReadResult) :=
  let '(remaining, inner) := s in
  if remaining <=? 0 then mret (s, ([], Some EOF)) else
  r ← read inner (if size >? remaining then remaining else size);
  let '(inner, (bytes, err)) := r in
  mret ((remaining - blen bytes, inner), (bytes, err)).

(** [io.CopyBuffer] with a buffer of [size] bytes, from a reader without
    [WriteTo] to a writer without [ReadFrom]. *)
Fixpoint copy_loop {S D} (read : S → Z → M W (S * ReadResult))
    (write : D → list byte → M W (D * (Z * option error))) (size : Z) (turns : nat)
    (s : S) (d : D) (written : Z) : M W (S * D * (Z * option error)) :=
  match turns with
  | O => running
  | Datatypes.S turns =>
    r ← read s size;
    let '(s, (bytes, er)) := r in
    let ended d written := match er with
      | None => copy_loop read write size turns s d written
      | Some er => mret (s, d, (written, if is_EOF_value er then None else Some er))
      end in
    if bool_decide (bytes = []) then ended d written else
    o ← write d bytes;
    let '(d, (nw, ew)) := o in
    let nr := blen bytes in
    let '(nw, ew) := if (nw <? 0) || (nr <? nw)
      then (0, match ew with None => Some (EText "invalid write result") | Some _ => ew end)
      else (nw, ew) in
    let written := i64 (written + nw) in
    match ew with
    | Some ew => mret (s, d, (written, Some ew))
    | None => if negb (nr =? nw) then mret (s, d, (written, Some ErrShortWrite)) else ended d written
    end
  end.

Definition CopyBuffer {S D} (read : S → Z → M W (S * ReadResult))
    (write : D → list byte → M W (D * (Z * option error))) (size : Z) (s : S) (d : D) :
    M W (S * D * (Z * option error)) :=
  if size <=? 0 then panic else copy_loop read write size fuel s d 0.

(** * Writing (worker.go, stream.go) *)
Fixpoint writeAll (l : Location) (handle : WriteHandle W) (turns : nat) (data : list byte) :
    M W (option error) :=
  if bool_decide (data = []) then mret None else
  match turns with
  | O => running
  | S turns =>
    r ← call_Write l handle data;
    let '(n, err) := r in
    if (n <? 0) || (n >? blen data)
    then mret (Some (EText "execute transfer: provider returned invalid write count")) else
    let data := drop (Z.to_nat n) data in
    match err with
    | Some err => mret (Some err)
    | None =>
      if n =? 0
      then mret (Some (EText "execute transfer: destination write made no progress"))
      else writeAll l handle turns data
    end
  end.

(** [streamWriteAdapter.Write]; each turn of [writeAll] writes a byte. *)
Definition streamWriteAdapter_Write (l : Location) (handle : WriteHandle W) (u : ())
    (buffer : list byte) : M W (() * (Z * option error)) :=
  err ← writeAll l handle (length buffer) buffer;
  mret (tt, match err with Some err => (0, Some err) | None => (blen buffer, None) end).

(** * Epochs of a stream (stream.go) *)
Record checkpointReader := mkCheckpointReader {
  cr_reader : sourceStream; cr_remaining : Z; (* uint64 *)
  cr_deadline : option Time; (* None: the zero time *) cr_started : bool;
}.
(** [r.started && !r.deadline.IsZero() && !time.Now().Before(r.deadline)]. *)
Definition past_deadline (r : checkpointReader) : M W bool :=
  if cr_started r then
    match cr_deadline r with
    | None => mret false
    | Some deadline => now ← tick Now; mret (negb (now <? deadline))
    end
  else mret false.
Definition checkpointReader_Read (plan : Plan) (r : checkpointReader) (size : Z) :
    M W (checkpointReader * ReadResult) :=
  if cr_remaining r =? 0 then mret (r, ([], Some EOF)) else
  past ← past_deadline r;
  if past : bool then mret (r, ([], Some EOF)) else
  s ← sourceStream_Read plan (cr_reader r)
        (if size >? cr_remaining r then cr_remaining r else size);
  let '(inner, (bytes, err)) := s in
  mret (if bool_decide (bytes = [])
        then mkCheckpointReader inner (cr_remaining r) (cr_deadline r) (cr_started r)
        else mkCheckpointReader inner (cr_remaining r - blen bytes) (cr_deadline r) true,
        (bytes, err)).

(** A provider's [WriteFrom]: it reads from the stream until it is done. *)
Fixpoint pump_loop (plan : Plan) (l : Location) (f : Pump W) (turns : nat) (r : checkpointReader)
    (resume : option ReadResult) : M W (checkpointReader * (Z * option error)) :=
  a ← call_WriteFrom l f resume;
  match a with
  | PumpDone n err => mret (r, (n, err))
  | PumpRead size =>
    match turns with
    | O => running
    | S turns =>
      s ← checkpointReader_Read plan r (Z.max 0 size);
      let '(r, res) := s in
      pump_loop plan l f turns r (Some res)
    end
  end.

(** * Control (stream.go) *)

(** [controlledStreamContext]: the control may end a stream early; its wish then
    replaces the stream's own result. *)
Definition controlledStream {A} (checkpoint : Checkpoint) (m : M W A) : M W A :=
  match control with
  | None => m
  | Some c =>
    r ← attempt m;
    action ← call_Observed c checkpoint;
    match action with
    | ControlContinue => lift r
    | ControlPause => throw ErrPaused
    | ControlCancel => throw ErrCanceled
    end
  end.

(** * Reading back (verification.go, stream_recovery.go) *)
Context (journal : Journal W).
Definition reportProgress (phase : string) (bytes durable : Z) : M W (option error) :=
  match ReportProgress journal with
  | None => mret None
  | Some f => call_Report f phase bytes durable
  end.

(** [verificationReader]. *)
Definition verificationReader (plan : Plan) (p : Provider W) (l : Location)
    (handle : ReadHandle W) (on_read : option (Z → M W (option error))) : M W sourceStream :=
  let endpoint := Descriptor p in
  let gated := String.eqb (ep_Kind endpoint) EndpointSSH in
  options ← streamReadOptions plan (fp_Size (info_Fingerprint (Info handle))) gated;
  read_ahead ← match scheduler with
    | None => mret true
    | Some s =>
      match AllowsReadAhead s with
      | Some f => peek (f (mkRequest (plan_JobID plan) (ep_ID endpoint) ""
                             (bw_JobBytesPerSecond (Bandwidth plan)) "" 0))
      | None => mret false
      end
    end;
  mret (mkSourceStream l handle None options (if gated then Some (ep_ID endpoint) else None) None
          read_ahead 0 on_read).

Definition digest_Write (h : H) (bytes : list byte) : M W (H * (Z * option error)) :=
  mret (h_write h bytes, (blen bytes, None)).

(** The digest of an opened file: everything, or as many bytes as its frozen
    size says. *)
Definition read_digest (plan : Plan) (reader : sourceStream) (size : option Z) (buffer : Z) :
    M W (H * Z) :=
  let buffer := Z.min buffer streamPacketBytes in
  out ← match size with
    | Some size =>
      size ← lift (checkedProviderOffset size);
      o ← CopyBuffer (limit_read (sourceStream_Read plan)) digest_Write buffer (size, reader) h_new;
      mret (o.1.2, o.2)
    | None =>
      o ← CopyBuffer (sourceStream_Read plan) digest_Write buffer reader h_new;
      mret (o.1.2, o.2)
    end;
  let '(h, (n, err)) := out in
  _ ← or_return err;
  mret (h, n).

Definition verify_opened (plan : Plan) (p : Provider W) (l : Location) (handle : ReadHandle W)
    (on_read : option (Z → M W (option error))) (buffer : Z) : M W string :=
  let info := Info handle in
  reader ← verificationReader plan p l handle on_read;
  d ← read_digest plan reader (fp_Size (info_Fingerprint info)) buffer;
  let '(h, n) := d in
  if n <? 0 then throw (ESentinel "unexpected EOF") else
  if match fp_Size (info_Fingerprint info) with Some size => negb (u64 n =? size) | None => false end
  then throw (planError CodeConflict "verify_part" l "verified file size changed" RetryAfterConflict)
  else
  err ← call_CloseRead l handle;
  _ ← or_return err;
  latest ← stat p l;
  if negb (bool_decide (entry_Fingerprint latest = info_Fingerprint info))
  then throw (planError CodeConflict "verify_part" l "file changed during verification"
                RetryAfterConflict)
  else mret (h_sum h).

(** [current] is the checkpoint whose progress is reported, if any. *)
Definition verifyFile (plan : Plan) (current : option Checkpoint) (p : Provider W) (l : Location)
    (expected : Fingerprint) (buffer : Z) : M W string :=
  let checkpoint := default (initial_checkpoint (plan_JobID plan)) current in
  controlledStream checkpoint (
    handle ← call_OpenRead p (mkOpenReadRequest l 0 None
      (if negb (String.eqb (Strength expected) FingerprintWeak) then Some expected else None));
    defer (call_CloseRead l handle)
      (verify_opened plan p l handle
         ((λ c _, reportProgress (cp_Phase c) (Offset c) (durableBytes c)) <$> current) buffer)).
End Streams.
