(* ===== verification/Worker.v ===== *)
(** The transfer worker, its streams (src/internal/transfer/worker.go, stream.go,
    stream_recovery.go): copying epoch by epoch with a durable checkpoint after
    each, and the recovery of a part that is longer than its checkpoint. *)
From S2P Require Import Prelude Domain GoPath Provider DirectProtocol Bandwidth Plan Checkpoint.
From S2P Require Import Effects Mutation Stream.

(** The worker: its fields, and the context, the clock and the turns allowed to a
    loop that a provider drives. *)
Record Worker (World : Type) := mkWorker {
  w_Resolve : string → result error (Provider World);
  w_journal : Journal World;
  w_scheduler : option (bandwidthScheduler World);
  w_control : option (Control World);
  w_sameHost : option (SameHostCopyRegistry World);
  w_ctx_Err : World → option error;
  w_Now : World → Time * World;
  w_fuel : nat;
}.
Arguments mkWorker {World} _ _ _ _ _ _ _ _.
Arguments w_Resolve {World} _ _. Arguments w_journal {World} _.
Arguments w_scheduler {World} _. Arguments w_control {World} _. Arguments w_sameHost {World} _.
Arguments w_ctx_Err {World} _ _. Arguments w_Now {World} _ _. Arguments w_fuel {World} _.

Section Worker.
Context {W H : Type} `{Hash H} (worker : Worker W).
Local Abbreviation Resolve := (w_Resolve worker).
Local Abbreviation journal := (w_journal worker).
Local Abbreviation scheduler := (w_scheduler worker).
Local Abbreviation control := (w_control worker).
Local Abbreviation sameHost := (w_sameHost worker).
Local Abbreviation ctx_Err := (w_ctx_Err worker).
Local Abbreviation Now := (w_Now worker).
Local Abbreviation fuel := (w_fuel worker).

Definition save (checkpoint : Checkpoint) : M W () :=
  err ← call_Save journal checkpoint; or_return err.
(** [fmt.Errorf("...: %w", err)] around a failing call. *)
Definition wrapping {A} (message : string) (m : M W A) : M W A :=
  r ← attempt m; match r with Ok a => mret a | Err e => throw (EWrap message e) end.
Definition sync (l : Location) (handle : WriteHandle W) : M W () :=
  err ← call_Sync l handle; or_return err.
Definition close_read (l : Location) (handle : ReadHandle W) : M W () :=
  err ← call_CloseRead l handle; or_return err.
Definition close_write (l : Location) (handle : WriteHandle W) : M W () :=
  err ← call_CloseWrite l handle; or_return err.
Definition has_size (entry : Entry) (size : Z) : bool :=
  bool_decide (md_Size (entry_Metadata entry) = Some size).
Definition conflict {A} (operation : string) (l : Location) (message : string) : M W A :=
  throw (planError CodeConflict operation l message RetryAfterConflict).

Definition verify (plan : Plan) (current : option Checkpoint) (p : Provider W) (l : Location)
    (expected : Fingerprint) : M W string :=
  verifyFile scheduler control ctx_Err fuel journal plan current p l expected
    (streamBufferBytes plan).

(** [syncInitialPart] and [initializeCreatedPart]. *)
Definition initializeCreatedPart (plan : Plan) (destination : Provider W)
    (handle : WriteHandle W) (checkpoint : Checkpoint) (hasher : H) : M W Checkpoint :=
  let part := cp_Part checkpoint in
  _ ← if checkpointSync plan then sync (Part plan) handle else mret tt;
  entry ← stat destination part;
  if negb (has_size entry 0)
  then conflict "initialize_part" part "created part is no longer empty" else
  let checkpoint := checkpoint <| cp_Phase := PhaseStreaming |>
    <| PartFingerprint := entry_Fingerprint entry |> <| ChecksumState := h_marshal hasher |> in
  _ ← save checkpoint;
  mret checkpoint.

Definition closeAndRefreshCheckpoint (destination : Provider W) (handle : WriteHandle W)
    (checkpoint : Checkpoint) : M W Checkpoint :=
  let part := cp_Part checkpoint in
  _ ← sync part handle;
  _ ← close_write part handle;
  entry ← stat destination part;
  if negb (has_size entry (Offset checkpoint))
  then conflict "checkpoint_copy" part "part size changed while closing write handle" else
  let checkpoint := recordDurable (checkpoint <| PartFingerprint := entry_Fingerprint entry |>) in
  _ ← wrapping "execute transfer: refresh closed part checkpoint" (save checkpoint);
  mret checkpoint.

(** * Copying a stream (stream.go) *)

(** The state between two epochs, and how the stream ended if it has. *)
Record stream_state := mkStream {
  st_current : Checkpoint; st_reader : sourceStream (W := W) (H := H);
}.
Definition st_hasher (s : stream_state) : H := default h_new (ss_digest (st_reader s)).
Inductive epoch_end := EpochNext | EpochBreak | EpochError (err : error).

(** A failing call ends the stream with the state so far. *)
Definition or_stop {A} (s : stream_state) (m : M W A) (k : A → M W (stream_state * epoch_end)) :
    M W (stream_state * epoch_end) :=
  r ← attempt m; match r with Ok a => k a | Err e => mret (s, EpochError e) end.

Definition report_stream (base : Z) (current : Checkpoint) (consumed : Z) : M W (option error) :=
  reportProgress journal PhaseStreaming (u64 (base + consumed)) (durableBytes current).

(** The reader of [copyStream]. *)
Definition copy_reader (plan : Plan) (handle : ReadHandle W) (hasher : H) : M W sourceStream :=
  let source := SourceEndpoint plan in
  let destination := DestinationEndpoint plan in
  let gated := String.eqb (ep_Kind source) EndpointSSH ||
               negb (String.eqb (ep_Kind destination) EndpointSSH) in
  options ← streamReadOptions scheduler plan (fp_Size (ref_Fingerprint (Source plan))) gated;
  read_ahead ← match scheduler with
    | None => mret (negb (requiresControl (Bandwidth plan)))
    | Some s =>
      match AllowsReadAhead s with
      | Some f => peek (f (mkRequest (plan_JobID plan) (ep_ID source) ""
                             (bw_JobBytesPerSecond (Bandwidth plan)) "" 0))
      | None => mret false
      end
    end;
  mret (mkSourceStream (ref_Location (Source plan)) handle (Some hasher) options
          (if gated then Some (ep_ID source) else None)
          (if String.eqb (ep_Kind destination) EndpointSSH then Some (ep_ID destination) else None)
          read_ahead 0 None).

(** How much the epoch may copy; [None] when the frozen size is reached. *)
Definition epoch_chunk (plan : Plan) (current : Checkpoint) : option Z :=
  let policy := plan_StreamPolicy plan in
  let chunk := if negb (CheckpointBytes policy =? 0) then CheckpointBytes policy
               else BufferBytes plan in
  match fp_Size (ref_Fingerprint (Source plan)) with
  | None => Some chunk
  | Some size =>
    if Offset current >=? size then None else Some (Z.min chunk (u64 (size - Offset current)))
  end.

(** One provider's way of taking the epoch's bytes. *)
Definition transfer_epoch (plan : Plan) (handle : WriteHandle W) (limited : checkpointReader) :
    M W (checkpointReader * (Z * option error)) :=
  let part := Part plan in
  let copied :=
    o ← CopyBuffer fuel (checkpointReader_Read scheduler ctx_Err Now fuel plan)
          (streamWriteAdapter_Write part handle)
          (Z.min (streamBufferBytes plan) streamPacketBytes) limited tt;
    mret (o.1.1, o.2) in
  let pump f := pump_loop scheduler ctx_Err Now fuel plan part f fuel limited None in
  if negb (String.eqb (Durability plan) "") then
    match WriteFromWindow handle with
    | Some f => pump (f (streamWindowRequests plan (fp_Size (ref_Fingerprint (Source plan)))))
    | None => copied
    end
  else match WriteFrom handle with Some f => pump f | None => copied end.

(** After the bytes of an epoch are acknowledged: flush, look at the part, and
    save the checkpoint. *)
Definition checkpoint_epoch (plan : Plan) (destination : Provider W) (handle : WriteHandle W)
    (s : stream_state) (n : Z) : M W Checkpoint :=
  let current := st_current s in
  let next := u64 (Offset current + n) in
  current ← if checkpointSync plan then
      _ ← sync (Part plan) handle;
      entry ← stat destination (Part plan);
      if negb (has_size entry next)
      then throw (planError CodeConflict "stream_copy" (Part plan)
                    "part size does not match acknowledged offset" RetryNever)
      else mret (recordDurable (current <| PartFingerprint := entry_Fingerprint entry |>
                                        <| Offset := next |>))
    else mret (current <| Offset := next |>);
  mret (current <| ChecksumState := h_marshal (st_hasher s) |>).

(** What the user asked for while nothing was in flight. *)
Definition requested (s : stream_state) : M W ControlAction :=
  match control with None => mret ControlContinue | Some c => call_Action c (st_current s) end.
(** What the polling goroutine saw while the epoch ran. *)
Definition observed (plan : Plan) (s : stream_state) : M W ControlAction :=
  match control with
  | None => mret ControlContinue
  | Some c =>
    if negb (CheckpointBytes (plan_StreamPolicy plan) =? 0)
    then call_Observed c (st_current s) else mret ControlContinue
  end.
Definition action_error (action : ControlAction) : error :=
  match action with ControlPause => ErrPaused | _ => ErrCanceled end.

(** What follows the transfer of an epoch's bytes. *)
Definition settle_epoch (plan : Plan) (destination : Provider W) (handle : WriteHandle W)
    (s : stream_state) (before chunk : Z) (deadline : option Time) (n : Z) (err : option error) :
    M W (stream_state * epoch_end) :=
  action ← observed plan s;
  if negb (bool_decide (action = ControlContinue))
  then mret (s, EpochError (action_error action)) else
  match err with
  | Some err => mret (s, EpochError err)
  | None =>
    if (n <? 0) || (n >? chunk) || negb (n =? u64 (ss_readBytes (st_reader s) - before))
    then mret (s, EpochError (EText "stream transfer: invalid acknowledged count")) else
    if n =? 0 then mret (s, EpochBreak) else
    or_stop s (checkpoint_epoch plan destination handle s n) (λ current,
    let s := mkStream current (st_reader s) in
    or_stop s (save current) (λ _,
    early ← if n <? chunk then
              match deadline with
              | None => mret true
              | Some deadline => now ← tick Now; mret (now <? deadline)
              end
            else mret false;
    mret (s, if early : bool then EpochBreak else EpochNext)))
  end.

Definition epoch (plan : Plan) (destination : Provider W) (handle : WriteHandle W) (base : Z)
    (s : stream_state) : M W (stream_state * epoch_end) :=
  let current := st_current s in
  action ← requested s;
  if negb (bool_decide (action = ControlContinue)) then
    or_stop s (closeAndRefreshCheckpoint destination handle current) (λ current,
    mret (mkStream current (st_reader s), EpochError (action_error action)))
  else
  let timed := negb (CheckpointBytes (plan_StreamPolicy plan) =? 0) in
  deadline ← if timed
    then now ← tick Now;
         mret (Some (now + CheckpointIntervalMS (plan_StreamPolicy plan) * 1000000))
    else mret None;
  match epoch_chunk plan current with
  | None => mret (s, EpochBreak)
  | Some chunk =>
    o ← transfer_epoch plan handle
          (mkCheckpointReader (on_read (st_reader s) (report_stream base current)) chunk deadline false);
    let '(limited, (n, err)) := o in
    settle_epoch plan destination handle (mkStream current (cr_reader limited))
      (ss_readBytes (st_reader s)) chunk deadline n err
  end.

(** The loop of epochs; the error is the stream's. *)
Fixpoint epochs (plan : Plan) (destination : Provider W) (handle : WriteHandle W) (base : Z)
    (turns : nat) (s : stream_state) : M W (stream_state * option error) :=
  match turns with
  | O => running
  | S turns =>
    r ← epoch plan destination handle base s;
    match r with
    | (s, EpochNext) => epochs plan destination handle base turns s
    | (s, EpochBreak) => mret (s, None)
    | (s, EpochError err) => mret (s, Some err)
    end
  end.

(** After the loop. *)
Definition finish_stream (plan : Plan) (handle : WriteHandle W) (s : stream_state) :
    M W (stream_state * option error) :=
  let current := st_current s in
  flushed ← attempt (
    if String.eqb (Durability plan) DurabilityCompletion then
      _ ← sync (Part plan) handle;
      let current := recordDurable current in
      _ ← save current;
      mret current
    else mret current);
  match flushed with
  | Err err => mret (s, Some err)
  | Ok current =>
    let s := mkStream current (st_reader s) in
    checked ← attempt (
      match fp_Size (ref_Fingerprint (Source plan)) with
      | None => mret tt
      | Some _ =>
        let source := ref_Location (Source plan) in
        p ← lift (Resolve (loc_EndpointID source));
        entry ← stat p source;
        if negb (bool_decide (entry_Fingerprint entry = ref_Fingerprint (Source plan)))
        then conflict "stream_copy" source "source changed during transfer" else mret tt
      end);
    mret (s, match checked with Ok _ => None | Err err => Some err end)
  end.

Definition copyStream (plan : Plan) (source : ReadHandle W) (handle : WriteHandle W)
    (destination : Provider W) (current : Checkpoint) (hasher : H) :
    M W (stream_state * option error) :=
  reader ← copy_reader plan source hasher;
  r ← epochs plan destination handle (Offset current) fuel (mkStream current reader);
  match r with
  | (s, None) => finish_stream plan handle s
  | (s, Some err) => mret (s, Some err)
  end.

(** * Recovering an unfinished suffix (stream_recovery.go) *)
Definition suffix_conflict {A} (plan : Plan) : M W A :=
  conflict "resume_copy" (Part plan) "part suffix does not match the frozen source".

(** [readExactStream]; each turn reads a byte. *)
Fixpoint read_exact (plan : Plan) (r : sourceStream) (turns : nat) (want : Z) (got : list byte) :
    M W (sourceStream (W := W) (H := H) * list byte) :=
  if want <=? 0 then mret (r, got) else
  match turns with
  | O => running
  | S turns =>
    o ← sourceStream_Read scheduler ctx_Err fuel plan r want;
    let '(r, (bytes, err)) := o in
    let want := want - blen bytes in
    match err with
    | Some err => if is_EOF err && (want =? 0) then mret (r, got ++ bytes) else throw err
    | None => if bool_decide (bytes = []) then throw ErrNoProgress
              else read_exact plan r turns want (got ++ bytes)
    end
  end.
Definition readExactStream (plan : Plan) (r : sourceStream) (count : Z) :
    M W (sourceStream (W := W) (H := H) * list byte) := read_exact plan r (Z.to_nat count) count [].

(** The digest of the first [remaining] bytes of the part. *)
Fixpoint read_prefix (plan : Plan) (r : sourceStream) (buffer : Z) (turns : nat) (remaining : Z)
    (prefix : H) : M W (sourceStream (W := W) (H := H) * H) :=
  if remaining <=? 0 then mret (r, prefix) else
  match turns with
  | O => running
  | S turns =>
    o ← sourceStream_Read scheduler ctx_Err fuel plan r (Z.min buffer remaining);
    let '(r, (bytes, err)) := o in
    let prefix := h_write prefix bytes in
    let remaining := remaining - blen bytes in
    match err with
    | Some err => if negb (is_EOF err) || negb (remaining =? 0) then throw err else
        if bool_decide (bytes = []) then suffix_conflict plan
        else read_prefix plan r buffer turns remaining prefix
    | None => if bool_decide (bytes = []) then suffix_conflict plan
              else read_prefix plan r buffer turns remaining prefix
    end
  end.

(** The part's suffix against the source, [half] a buffer at a time. *)
Fixpoint compare_suffix (plan : Plan) (part source : sourceStream (W := W) (H := H)) (half : Z)
    (turns : nat) (remaining : Z) : M W () :=
  if remaining <=? 0 then mret tt else
  match turns with
  | O => running
  | S turns =>
    let count := Z.min half remaining in
    o ← readExactStream plan part count;
    let '(part, got) := o in
    o ← readExactStream plan source count;
    let '(source, want) := o in
    if negb (bool_decide (got = want)) then suffix_conflict plan
    else compare_suffix plan part source half turns (remaining - count)
  end.

(** Rolling the opened part back to the proven prefix. *)
Definition restore_prefix (plan : Plan) (destination : Provider W) (mutable : MutableProvider W)
    (current : Checkpoint) (entry : Entry) (offset : Z) : M W (Entry * Checkpoint) :=
  handle ← call_OpenWrite mutable (mkOpenWriteRequest (Part plan) offset WriteResumeExisting
             (Some (entry_Fingerprint entry)));
  defer (call_CloseWrite (Part plan) handle) (
    match Truncate handle with
    | None => throw (planError CodeUnsupported "resume_copy" (Part plan)
                       "provider cannot restore a proven durable prefix" RetryAfterReplan)
    | Some truncate =>
      err ← call_Truncate (Part plan) truncate offset;
      _ ← or_return err;
      _ ← sync (Part plan) handle;
      _ ← close_write (Part plan) handle;
      restored ← stat destination (Part plan);
      if negb (has_size restored (Offset current)) then suffix_conflict plan else
      let current := recordDurable (current <| PartFingerprint := entry_Fingerprint restored |>) in
      _ ← save current;
      mret (restored, current)
    end).

(** The opened part is compared, and [restore] follows while both files are
    still to be closed. *)
Definition compare_opened {A} (plan : Plan) (source destination : Provider W)
    (current : Checkpoint) (size : Z) (part : ReadHandle W) (expectedPrefix : string)
    (restore : Z → M W A) : M W A :=
  let buffer := streamBufferBytes plan in
  let location := ref_Location (Source plan) in
  partStream ← verificationReader scheduler plan destination (Part plan) part None;
  o ← read_prefix plan partStream buffer fuel (Offset current) h_new;
  let '(partStream, prefix) := o in
  if negb (String.eqb (h_sum prefix) expectedPrefix) then suffix_conflict plan else
  offset ← lift (checkedProviderOffset (Offset current));
  limit ← lift (checkedProviderOffset (size - Offset current));
  original ← call_OpenRead source (mkOpenReadRequest location offset (Some limit)
               (Some (ref_Fingerprint (Source plan))));
  defer (call_CloseRead location original) (
    sourceReader ← verificationReader scheduler plan source location original None;
    _ ← compare_suffix plan partStream sourceReader (buffer `div` 2) fuel (size - Offset current);
    _ ← close_read (Part plan) part;
    _ ← close_read location original;
    sourceNow ← stat source location;
    if negb (bool_decide (entry_Fingerprint sourceNow = ref_Fingerprint (Source plan)))
    then suffix_conflict plan else restore offset).

Definition recoverStreamSuffix (plan : Plan) (source destination : Provider W)
    (mutable : MutableProvider W) (current : Checkpoint) (entry : Entry)
    (expectedPrefix : string) : M W (Entry * Checkpoint) :=
  controlledStream control current (
    match md_Size (entry_Metadata entry) with
    | None => suffix_conflict plan
    | Some size =>
      let policy := CheckpointBytes (plan_StreamPolicy plan) in
      if (size <? Offset current) || (policy =? 0) then suffix_conflict plan else
      if (u64 (size - Offset current) >? policy) ||
         match fp_Size (ref_Fingerprint (Source plan)) with
         | None => true | Some frozen => size >? frozen
         end then suffix_conflict plan else
      if streamBufferBytes plan <? 2
      then throw (EText "resume stream: comparison buffer is too small") else
      part ← call_OpenRead destination (mkOpenReadRequest (Part plan) 0 None
               (Some (entry_Fingerprint entry)));
      defer (call_CloseRead (Part plan) part)
        (compare_opened plan source destination current size part expectedPrefix
           (restore_prefix plan destination mutable current entry))
    end).
End Worker.
