(* ===== verification/Move.v ===== *)
(** The walk of a directory (src/internal/transfer/directory.go: DiscoverDirectory
    and walkDirectory) with the loops that take its items, and the second half of
    a move (src/internal/transfer/move.go).

    The walk runs beside the loop that takes its items, and hands them over
    through a channel of as many items as the budget's queue has.  A [walk] is
    where the walk stands between two of its actions, a listing or an item; the
    world decides at every turn whether it goes on before the next item is taken
    ([ahead]), and whether a wait of the walk ends with its context ([cancels]).
    What a walk that was given up may still list is left out.

    Once the destination of a move is committed, the source is deleted if the
    destination is proved to hold its content, and kept otherwise. *)
From S2P Require Import Prelude Domain GoPath Provider DirectProtocol Plan Checkpoint Effects Mutation Stream.

Definition DefaultDiscoveryBudget : DiscoveryBudget := mkBudget 64 256 128.
Record DiscoveredItem := mkItem {
  item_Entry : Entry; item_RelativePath : string; item_Depth : Z (* uint32 *);
}.

(** The directory at hand, with its depth, is about to be listed from a cursor,
    or has entries left of a page and, after them, perhaps another page. *)
Inductive walk_at :=
| AtFrontier
| AtPage (directory : Location) (depth : Z) (cursor : string)
| AtEntries (directory : Location) (depth : Z) (entries : list Entry) (next : option string).
Record walk := mkWalk { wk_frontier : list (Location * Z); wk_at : walk_at }.
Definition walk_start (root : Location) : walk := mkWalk [(root, 0)] AtFrontier.

(** After an action the walk goes on, hands over an item and goes on or fails, or
    has ended. *)
Inductive walked :=
| Walking (k : walk)
| Found (item : DiscoveredItem) (next : result error walk)
| Ended (failure : option error).

Section Walk.
Context {W : Type} (implementation : Provider W) (root : Location) (budget : DiscoveryBudget).

Definition invalid_page (page : ListPage) : bool :=
  (Z.of_nat (length (page_Entries page)) >? PageItems budget) ||
  negb (Bool.eqb (page_Done page) (String.eqb (page_NextCursor page) "")).

(** What an entry adds to the frontier, once it is handed over. *)
Definition extend_frontier (frontier : list (Location * Z)) (entry : Entry) (itemDepth : Z) :
    result error (list (Location * Z)) :=
  if negb (String.eqb (entry_Kind entry) EntryDirectory) then Ok frontier else
  if itemDepth >=? MaxDepth budget
  then Err (planError CodeResourceExhausted "discover_directory" (entry_Location entry)
              "directory depth budget exhausted" RetryAfterReplan) else
  if Z.of_nat (length frontier) >=? QueueItems budget
  then Err (planError CodeResourceExhausted "discover_directory" (entry_Location entry)
              "directory frontier budget exhausted" RetryAfterReplan)
  else Ok (frontier ++ [(entry_Location entry, itemDepth)]).

Definition walk_step (k : walk) : M W walked :=
  let frontier := wk_frontier k in
  match wk_at k with
  | AtFrontier =>
    match frontier with
    | [] => mret (Ended None)
    | (directory, depth) :: rest => mret (Walking (mkWalk rest (AtPage directory depth "")))
    end
  | AtPage directory depth cursor =>
    r ← attempt (call_List implementation (mkListRequest directory cursor (PageItems budget) None));
    match r with
    | Err err => mret (Ended (Some err))
    | Ok page =>
      if invalid_page page
      then mret (Ended (Some (planError CodeIntegrityFailed "discover_directory" directory
                                "provider returned an invalid listing page" RetryNever)))
      else mret (Walking (mkWalk frontier (AtEntries directory depth (page_Entries page)
                   (if page_Done page then None else Some (page_NextCursor page)))))
    end
  | AtEntries directory depth [] None => mret (Walking (mkWalk frontier AtFrontier))
  | AtEntries directory depth [] (Some cursor) =>
    mret (Walking (mkWalk frontier (AtPage directory depth cursor)))
  | AtEntries directory depth (entry :: entries) next =>
    match validateDiscoveredEntry root directory entry with
    | Err err => mret (Ended (Some err))
    | Ok relative =>
      let itemDepth := u32 (depth + 1) in
      mret (Found (mkItem entry relative itemDepth)
        (frontier ← extend_frontier frontier entry itemDepth;
         Ok (mkWalk frontier (AtEntries directory depth entries next))))
    end
  end.

(** The next action hands over an item: it waits while the queue is full. *)
Definition hands_over (k : walk) : bool :=
  match wk_at k with
  | AtEntries directory _ (entry :: _) _ =>
    match validateDiscoveredEntry root directory entry with Ok _ => true | Err _ => false end
  | _ => false
  end.

(** DiscoverDirectory, up to the start of the walk. *)
Definition DiscoverDirectory : M W walk :=
  let limits := DefaultDiscoveryBudget in
  if (QueueItems budget <? 1) || (QueueItems budget >? QueueItems limits) ||
     (PageItems budget <? 1) || (PageItems budget >? PageItems limits) ||
     (MaxDepth budget <? 1) || (MaxDepth budget >? MaxDepth limits)
  then throw (EText "discover directory: budget is outside queue/page/depth limits") else
  if String.eqb (loc_EndpointID root) "" ||
     negb (String.eqb (loc_EndpointID root) (ep_ID (Descriptor implementation))) ||
     String.eqb (loc_Path root) ""
  then throw (EText "discover directory: root does not belong to provider") else
  entry ← stat implementation root;
  if negb (String.eqb (entry_Kind entry) EntryDirectory)
  then throw (planError CodeInvalidArgument "discover_directory" root "source is not a directory"
                RetryNever)
  else mret (walk_start root).

End Walk.

(** * The loop that takes the items *)
Section Take.
(** [step] is [walk_step], among the events of the loop. *)
Context {Ev W : Type} (root : Location) (budget : DiscoveryBudget) (step : walk → ME Ev W walked).
Context (cancels : W → option error) (ahead : W → bool).
Context {A : Type} (consume : A → DiscoveredItem → ME Ev W (A * option error)).

(** The walk, or what it ended with. *)
Definition producer : Type := walk + option error.

Fixpoint take_items (fuel : nat) (p : producer) (queue : list DiscoveredItem) (acc : A) :
    ME Ev W (A * option error) :=
  match fuel with
  | O => running
  | S fuel =>
    let consumes item queue :=
      r ← consume acc item;
      match r with
      | (acc, Some err) => mret (acc, Some err)
      | (acc, None) => take_items fuel p queue acc
      end in
    let produces k :=
      s ← step k;
      match s with
      | Walking k => take_items fuel (inl k) queue acc
      | Ended failure => take_items fuel (inr failure) queue acc
      | Found item next =>
        gone ← peek cancels;
        match gone with
        | Some err => take_items fuel (inr (Some err)) queue acc
        | None => take_items fuel (match next with Ok k => inl k | Err err => inr (Some err) end)
                    (queue ++ [item]) acc
        end
      end in
    match p, queue with
    | inr failure, [] => mret (acc, failure)
    | inr _, item :: queue' => consumes item queue'
    | inl k, [] => produces k
    | inl k, item :: queue' =>
      goes_on ← peek ahead;
      if goes_on && (negb (hands_over root k) || (Z.of_nat (length queue) <? QueueItems budget))
      then produces k
      else consumes item queue'
    end
  end.
End Take.

(** [for item := range items] of a directory's items; the failure of the walk is
    that of the loop. *)
Definition each_item {Ev W A : Type} (discover : ME Ev W walk) (step : walk → ME Ev W walked)
    (root : Location) (budget : DiscoveryBudget) (cancels : W → option error) (ahead : W → bool)
    (consume : A → DiscoveredItem → ME Ev W (A * option error)) (fuel : nat) (acc : A) :
    ME Ev W (A * option error) :=
  r ← attempt discover;
  match r with
  | Err err => mret (acc, Some err)
  | Ok k => take_items root budget step cancels ahead consume fuel (inl k) [] acc
  end.

(** * The second half of a move *)
Section Move.
Context {W H : Type} `{Hash H}.
Context (Resolve : string → result error (Provider W)).
(** The worker that verifies: it has a scheduler and the control of the job, and
    its journal is not used. *)
Context (scheduler : option (bandwidthScheduler W)) (control : option (Control W)).
Context (ctx_Err : W → option error) (fuel : nat) (journal : Journal W).
Context (cancels : W → option error) (ahead : W → bool).

Definition verify_at (plan : Plan) (p : Provider W) (l : Location) (expected : Fingerprint) : M W string :=
  verifyFile scheduler control ctx_Err fuel journal plan None p l expected (BufferBytes plan).

Definition verifyMoveFile (plan : Plan) (source destination : Provider W) (sourceEntry : Entry)
    (destinationLocation : Location) : M W () :=
  destinationEntry ← stat destination destinationLocation;
  sourceChecksum ← verify_at plan source (entry_Location sourceEntry) (entry_Fingerprint sourceEntry);
  destinationChecksum ← verify_at plan destination destinationLocation
    (entry_Fingerprint destinationEntry);
  if negb (String.eqb sourceChecksum destinationChecksum)
  then throw (planError CodeConflict "verify_move" destinationLocation
                "destination content does not match source" RetryAfterConflict)
  else mret tt.

(** One item of the walk, in [verifyDirectoryMove]. *)
Definition verify_item (plan : Plan) (source destination : Provider W) (destinationRoot : Location)
    (item : DiscoveredItem) : M W () :=
  let entry := item_Entry item in
  let destinationLocation := childLocation destinationRoot (item_RelativePath item) in
  if String.eqb (entry_Kind entry) EntryDirectory then
    found ← stat destination destinationLocation;
    if negb (String.eqb (entry_Kind found) EntryDirectory)
    then throw (planError CodeConflict "verify_move" destinationLocation
                  "destination directory is missing or changed type" RetryAfterConflict)
    else mret tt
  else if String.eqb (entry_Kind entry) EntryFile
  then verifyMoveFile plan source destination entry destinationLocation
  else throw (planError CodeUnsupported "verify_move" (entry_Location entry)
                "move retains trees containing symlinks or unsupported entries" RetryAfterReplan).
(** [return err] inside the loop. *)
Definition as_error (m : M W ()) : M W (option error) :=
  r ← attempt m; mret (match r with Ok _ => None | Err err => Some err end).
Definition verifyDirectoryMove (plan : Plan) (source destination : Provider W)
    (sourceRoot destinationRoot : Location) (budget : DiscoveryBudget) : M W () :=
  r ← each_item (DiscoverDirectory source sourceRoot budget) (walk_step source sourceRoot budget)
        sourceRoot budget cancels ahead
        (λ u item, err ← as_error (verify_item plan source destination destinationRoot item);
                   mret (u, err)) fuel tt;
  or_return r.2.

(** The loop over a page's entries; [body] is its body. *)
Fixpoint each_entry (body : Entry → M W ()) (entries : list Entry) : M W () :=
  match entries with
  | [] => mret tt
  | entry :: entries => _ ← body entry; each_entry body entries
  end.
Section Tree.
Context (plan : Plan) (source : Provider W) (mutable : MutableProvider W) (destination : Provider W)
  (budget : DiscoveryBudget).

Definition move_entry (recurse : Location → Location → M W ()) (sourceDirectory destinationDirectory : Location)
    (entry : Entry) : M W () :=
  relativeName ← lift (validateDiscoveredEntry sourceDirectory sourceDirectory entry);
  let destinationLocation := childLocation destinationDirectory relativeName in
  if String.eqb (entry_Kind entry) EntryFile then
    _ ← verifyMoveFile plan source destination entry destinationLocation;
    removeWithPostcondition source mutable entry
  else if String.eqb (entry_Kind entry) EntryDirectory then recurse (entry_Location entry) destinationLocation
  else throw (planError CodeUnsupported "delete_move_source" (entry_Location entry)
                "unsupported source entry appeared before delete" RetryAfterReplan).
(** [turns] bounds the listings on a path of the recursion. *)
Fixpoint move_loop (turns : nat) (sourceDirectory destinationDirectory : Location) (depth : Z) : M W () :=
  match turns with
  | O => running
  | S turns =>
    page ← call_List source (mkListRequest sourceDirectory "" (PageItems budget) None);
    match page_Entries page with
    | [] =>
      root ← stat source sourceDirectory;
      removeWithPostcondition source mutable root
    | entries =>
      _ ← each_entry
            (move_entry (λ child childDestination,
               if u32 (depth + 1) >=? MaxDepth budget
               then throw (planError CodeResourceExhausted "delete_move_source" child
                             "directory delete depth budget exhausted" RetryAfterReplan)
               else move_loop turns child childDestination (u32 (depth + 1)))
             sourceDirectory destinationDirectory) entries;
      move_loop turns sourceDirectory destinationDirectory depth
    end
  end.
Definition deleteVerifiedDirectory (sourceDirectory destinationDirectory : Location) (depth : Z) : M W () :=
  if depth >=? MaxDepth budget
  then throw (planError CodeResourceExhausted "delete_move_source" sourceDirectory
                "directory delete depth budget exhausted" RetryAfterReplan)
  else move_loop fuel sourceDirectory destinationDirectory depth.
End Tree.

Definition safeMoveReason (prefix : string) (err : error) : string :=
  match op_code err with Some code => prefix +:+ ": " +:+ code | None => prefix end.

(** A failing call ends the function with the source retained. *)
Definition or_retained {A} (prefix : string) (m : M W A) (k : A → M W (bool * string)) :
    M W (bool * string) :=
  r ← attempt m;
  match r with Ok a => k a | Err err => mret (false, safeMoveReason prefix err) end.

Definition finish_directory (plan : Plan) (result : Result) (source : Provider W)
    (mutable : MutableProvider W) : M W (bool * string) :=
  let root := ref_Location (Source plan) in
  r ← attempt (stat source root);
  match r with
  | Err statErr =>
    if IsCode statErr CodeNotFound
    then mret (true, "source directory already absent after a prior delete response")
    else mret (false, safeMoveReason "source directory revalidation failed" statErr)
  | Ok _ =>
    match Resolve (loc_EndpointID (result_Final result)) with
    | Err _ => mret (false, "destination endpoint is unavailable for move verification")
    | Ok destination =>
      budget ← deref (Discovery plan);
      or_retained "directory verification failed"
        (verifyDirectoryMove plan source destination root (result_Final result) budget) (λ _,
      or_retained "directory source deletion was not proved"
        (deleteVerifiedDirectory plan source mutable destination budget root (result_Final result) 0) (λ _,
      mret (true, "source directory deletion proved")))
    end
  end.
Definition finish_file (plan : Plan) (source : Provider W) (mutable : MutableProvider W) :
    M W (bool * string) :=
  r ← attempt (stat source (ref_Location (Source plan)));
  match r with
  | Err err =>
    if IsCode err CodeNotFound
    then mret (true, "source already absent after a prior delete response")
    else mret (false, safeMoveReason "source revalidation failed" err)
  | Ok entry =>
    if negb (String.eqb (entry_Kind entry) EntryFile) ||
       negb (bool_decide (entry_Fingerprint entry = ref_Fingerprint (Source plan)))
    then mret (false, "source changed after destination commit") else
    or_retained "source deletion was not proved" (removeWithPostcondition source mutable entry) (λ _,
    mret (true, "source file deletion proved"))
  end.
Definition finishMove (plan : Plan) (result : Result) : M W (bool * string) :=
  match Resolve (loc_EndpointID (ref_Location (Source plan))) with
  | Err _ => mret (false, "source endpoint is unavailable for deletion")
  | Ok source =>
    match mutable_facet source with
    | None => mret (false, "source endpoint has no deletion capability")
    | Some mutable =>
      match SourceDeleteCapability plan with
      | None => mret (false, "source deletion capability was not frozen")
      | Some capability =>
        or_retained "source deletion capability changed"
          (requireFrozenCapability source (ref_Location (Source plan)) capability) (λ _,
        if String.eqb (ref_Kind (Source plan)) EntryDirectory
        then finish_directory plan result source mutable
        else finish_file plan source mutable)
      end
    end
  end.
End Move.
