(* ===== verification/Commit.v ===== *)
(** The commit of a transferred part (src/internal/transfer/worker.go): its
    proof after a crash, the conflict policies, the preservation of an edited
    original, and the publication under the final name. *)
From S2P Require Import Prelude Domain GoPath Provider DirectProtocol Bandwidth Plan Checkpoint.
From S2P Require Import Effects Mutation Stream Worker.

Section Commit.
Context {W H : Type} `{Hash H} (worker : Worker W).
Local Abbreviation scheduler := (w_scheduler worker).
Local Abbreviation control := (w_control worker).
Local Abbreviation fuel := (w_fuel worker).

(** * Commit (worker.go) *)

(** [proveCommitted], on a route whose files are read back. *)
Definition proveCommitted (plan : Plan) (checkpoint : Checkpoint) (destination : Provider W)
    (final : Location) (checksum : string) : M W (bool * Checkpoint) :=
  r ← attempt (verify worker plan (Some checkpoint) destination final Fingerprint_zero);
  match r with
  | Err err => if IsCode err CodeNotFound then mret (false, checkpoint) else throw err
  | Ok actual =>
    if String.eqb actual checksum then mret (true, recordContentVerified checkpoint)
    else mret (false, checkpoint)
  end.

Definition commit_result (outcome : string) (final : Location) (checkpoint : Checkpoint)
    (retained : bool) : Result :=
  Result_zero <| Outcome := outcome |> <| result_Final := final |>
    <| Bytes := Offset checkpoint |> <| result_SHA256 := ChecksumHex checkpoint |>
    <| PartRetained := retained |>.

(** Whether the part is still there ([PartRetained]). *)
Definition part_retained (plan : Plan) (destination : Provider W) : M W bool :=
  r ← attempt (stat destination (Part plan));
  mret (negb (is_not_found r)).

(** The checkpoint waits for the user to settle a conflict. *)
Definition wait_conflict (plan : Plan) (checkpoint : Checkpoint) (result : Result → Result) :
    M W Result :=
  _ ← save worker (checkpoint <| cp_Phase := PhaseWaitingConflict |>
                       <| cp_Outcome := OutcomeWaitingConflict |>);
  mret (result (commit_result OutcomeWaitingConflict (Final plan) checkpoint true)).

(** Publication of the part under its final name. *)
Definition committed (plan : Plan) (destination : Provider W) (checkpoint : Checkpoint)
    (final : Location) (look : bool) (preserved : bool) : M W Result :=
  let checkpoint := checkpoint <| cp_Phase := PhaseCommitted |>
    <| cp_Outcome := OutcomeCompleted |> <| cp_Final := final |> in
  _ ← save worker checkpoint;
  retained ← if look then part_retained plan destination else mret false;
  let result := commit_result OutcomeCompleted final checkpoint retained in
  mret (if preserved then result <| result_PreservedDestination := PreservedDestination plan |>
        else result).

Definition publish (plan : Plan) (destination : Provider W) (mutable : MutableProvider W)
    (checkpoint : Checkpoint) (partFingerprint : Fingerprint) (final : Location)
    (finalEntry : option Entry) (preserved : bool) : M W Result :=
  let checkpoint := checkpoint <| cp_Phase := PhaseCommitting |> <| cp_Final := final |> in
  _ ← save worker checkpoint;
  let replaced :=
    if String.eqb (ConflictPolicy plan) ConflictOverwrite then finalEntry else None in
  expected ← match replaced with
    | None => mret None
    | Some entry =>
      if plan_Version plan =? 2
      then e ← deref (ExpectedDestination plan); mret (Some (pre_Fingerprint e))
      else mret (Some (entry_Fingerprint entry))
    end;
  r ← attempt (call_Rename mutable (mkRenameRequest (Part plan) final
         (bool_decide (is_Some replaced)) (Some partFingerprint) expected));
  let legacy := ce_Version (Completion checkpoint) =? 0 in
  match r with
  | Err renameErr =>
    if (plan_Version plan =? 2) && String.eqb (Origin plan) OriginSyncBack &&
       (IsCode renameErr CodeConflict || IsCode renameErr CodeAlreadyExists)
    then
      _ ← save worker (checkpoint <| cp_Phase := PhaseWaitingConflict |>
                           <| cp_Outcome := OutcomeWaitingConflict |>);
      mret (commit_result OutcomeWaitingConflict final checkpoint true)
    else
      p ← attempt (proveCommitted plan checkpoint destination final (ChecksumHex checkpoint));
      match p with
      | Ok (true, checkpoint) => committed plan destination checkpoint final true preserved
      | _ => throw renameErr
      end
  | Ok _ =>
    checksum ← if String.eqb (Verification plan) VerifySHA256
      then verify worker plan (Some checkpoint) destination final Fingerprint_zero
      else mret (ChecksumHex checkpoint);
    if negb (String.eqb checksum (ChecksumHex checkpoint))
    then throw (planError CodeConflict "commit_copy" final
                  "committed final checksum differs from verified part" RetryNever)
    else committed plan destination checkpoint final legacy preserved
  end.

(** The conflict policy, once the destination's state is known. *)
Definition resolve_conflict (plan : Plan) (destination : Provider W) (mutable : MutableProvider W)
    (checkpoint : Checkpoint) (partFingerprint : Fingerprint) (finalEntry : option Entry)
    (preserved : bool) : M W Result :=
  let final := Final plan in
  if (plan_Version plan =? 2) && precondition_is (ExpectedDestination plan) DestinationAbsent &&
     negb (destinationPreconditionMatches (ExpectedDestination plan) finalEntry)
  then wait_conflict plan checkpoint id else
  match finalEntry with
  | None => publish plan destination mutable checkpoint partFingerprint final None preserved
  | Some entry =>
    if String.eqb (ConflictPolicy plan) ConflictAsk then wait_conflict plan checkpoint id else
    if String.eqb (ConflictPolicy plan) ConflictSkip then
      err ← call_Remove mutable (mkRemoveRequest (Part plan) (Some partFingerprint));
      _ ← or_return err;
      let checkpoint := checkpoint <| cp_Phase := PhaseCommitted |>
        <| cp_Outcome := OutcomeSkipped |> <| cp_Final := final |> in
      _ ← save worker checkpoint;
      mret (commit_result OutcomeSkipped final checkpoint false)
    else if String.eqb (ConflictPolicy plan) ConflictAutoRename then
      final ← chooseAutoRename destination (DestinationDirectory plan) (RequestedName plan);
      publish plan destination mutable checkpoint partFingerprint final finalEntry preserved
    else publish plan destination mutable checkpoint partFingerprint final finalEntry preserved
  end.

(** [Stat] of a location that may be absent. *)
Definition stat_option (p : Provider W) (l : Location) : M W (option Entry) :=
  r ← attempt (stat p l);
  match r with
  | Ok entry => mret (Some entry)
  | Err err => if IsCode err CodeNotFound then mret None else throw err
  end.

(** A [PreserveDestination] call with its callbacks, and the control's wish. *)
Fixpoint preserve_loop (plan : Plan)
    (f : PreserveDestinationRequest → ReadStreamOptions → option (option error) → W →
         preserve_action * W)
    (request : PreserveDestinationRequest) (options : ReadStreamOptions) (endpoint : option string)
    (turns : nat) (resume : option (option error)) :
    M W (PreserveDestinationResult * option error) :=
  a ← call_Preserve f request options resume;
  match a with
  | PreserveDone r err => mret (r, err)
  | PreserveGate n =>
    match turns with
    | O => running
    | S turns =>
      err ← gate_if scheduler plan endpoint (u32 n);
      preserve_loop plan f request options endpoint turns (Some err)
    end
  end.
Definition controlled_error (checkpoint : Checkpoint) (err : option error) : M W (option error) :=
  match control with
  | None => mret err
  | Some c =>
    action ← call_Observed c checkpoint;
    mret (if bool_decide (action = ControlContinue) then err else Some (action_error action))
  end.
Definition preserve_destination (plan : Plan) (checkpoint : Checkpoint)
    (f : PreserveDestinationRequest → ReadStreamOptions → option (option error) → W →
         preserve_action * W) (expected : DestinationPrecondition) :
    M W (PreserveDestinationResult * option error) :=
  size ← deref (fp_Size (pre_Fingerprint expected));
  let endpoint := DestinationEndpoint plan in
  let gated := String.eqb (ep_Kind endpoint) EndpointSSH in
  max_request ← quantum_bytes scheduler;
  r ← preserve_loop plan f
    (mkPreserveRequest (Final plan) (PreservedDestination plan) (pre_Fingerprint expected)
       (pre_ContentSHA256 expected) (i64 size) (2 * 1024 * 1024 * 1024))
    (mkStreamOptions MaxReadAheadBytes max_request gated)
    (if gated then Some (ep_ID endpoint) else None) fuel None;
  let '(result, err) := r in
  err ← controlled_error checkpoint err;
  mret (result, err).

(** The original is preserved: what remains, and what its errors say about the
    backup ([defer] of [commit]). *)
Definition with_preserved (plan : Plan) (preserved unknown : bool) (m : M W Result) :
    M W (Result * option error) :=
  r ← attempt m;
  match r with
  | Ok result => mret (result, None)
  | Err err =>
    mret (if preserved || unknown
          then Result_zero <| result_PreservedDestination := PreservedDestination plan |>
                           <| PreservationUnknown := unknown |>
          else Result_zero, Some err)
  end.

(** After [PreserveDestination]. *)
Definition after_preserve (plan : Plan) (destination : Provider W) (mutable : MutableProvider W)
    (checkpoint : Checkpoint) (partFingerprint : Fingerprint)
    (r : PreserveDestinationResult) (err : option error) : M W Result :=
  let preserved := BackupPresent r in
  let unknown := EffectUnknown_ r in
  match err with
  | Some err =>
    if IsCode err CodeConflict then
      wait_conflict plan checkpoint (λ result,
        if preserved || unknown
        then result <| result_PreservedDestination := PreservedDestination plan |>
                    <| PreservationUnknown := unknown |>
        else result)
    else throw err
  | None =>
    if negb preserved
    then throw (planError CodeIntegrityFailed "commit_copy" (PreservedDestination plan)
                  "provider did not confirm preserved destination" RetryNever) else
    finalEntry ← stat_option destination (Final plan);
    match finalEntry with
    | None =>
      resolve_conflict plan destination mutable checkpoint partFingerprint None preserved
    | Some _ =>
      p ← attempt (proveCommitted plan checkpoint destination (Final plan) (ChecksumHex checkpoint));
      match p with
      | Ok (true, checkpoint) =>
        resolve_conflict plan destination mutable checkpoint partFingerprint finalEntry preserved
      | _ => wait_conflict plan checkpoint (λ result,
               result <| result_PreservedDestination := PreservedDestination plan |>)
      end
    end
  end.

(** A sync-back to a destination that was there: it must still be the version
    that was edited, and is preserved before it is replaced.  [inl] is a result
    without preservation. *)
Definition check_original (plan : Plan) (destination : Provider W) (checkpoint : Checkpoint)
    (expected : DestinationPrecondition) (finalEntry : option Entry) : M W (option Result) :=
  backup ← stat_option destination (PreservedDestination plan);
  match backup with
  | Some _ => mret None
  | None =>
    if negb (destinationPreconditionMatches (Some expected) finalEntry)
    then r ← wait_conflict plan checkpoint id; mret (Some r) else
    contentSHA ← verify worker plan (Some checkpoint) destination (Final plan) (pre_Fingerprint expected);
    if negb (String.eqb contentSHA (pre_ContentSHA256 expected))
    then r ← wait_conflict plan checkpoint id; mret (Some r) else mret None
  end.

Definition commit_original (plan : Plan) (destination : Provider W) (mutable : MutableProvider W)
    (checkpoint : Checkpoint) (partFingerprint : Fingerprint) (expected : DestinationPrecondition)
    (finalEntry : option Entry) : M W (Result * option error) :=
  c ← attempt (check_original plan destination checkpoint expected finalEntry);
  match c with
  | Err err => mret (Result_zero, Some err)
  | Ok (Some result) => mret (result, None)
  | Ok None =>
    match preserver_facet destination with
    | None => mret (Result_zero, Some (planError CodeUnsupported "commit_copy" (Final plan)
        "destination cannot preserve the replaced remote version" RetryAfterReplan))
    | Some f =>
      r ← preserve_destination plan checkpoint f expected;
      let '(r, err) := r in
      with_preserved plan (BackupPresent r) (EffectUnknown_ r)
        (after_preserve plan destination mutable checkpoint partFingerprint r err)
    end
  end.

(** The part that is to be published: its fingerprint. *)
Definition commit_part (plan : Plan) (destination : Provider W) (checkpoint : Checkpoint) :
    M W Fingerprint :=
  fingerprint ← if ce_Version (Completion checkpoint) =? 0
    then entry ← stat destination (Part plan); mret (entry_Fingerprint entry)
    else mret (PartFingerprint checkpoint);
  if negb (bool_decide (fingerprint = PartFingerprint checkpoint))
  then conflict "commit_copy" (Part plan) "verified part changed before commit"
  else mret fingerprint.

Definition commit_fresh (plan : Plan) (destination : Provider W) (mutable : MutableProvider W)
    (checkpoint : Checkpoint) : M W (Result * option error) :=
  c ← attempt (
    fingerprint ← commit_part plan destination checkpoint;
    finalEntry ← stat_option destination (Final plan);
    mret (fingerprint, finalEntry));
  match c with
  | Err err => mret (Result_zero, Some err)
  | Ok (fingerprint, finalEntry) =>
    match ExpectedDestination plan with
    | Some expected =>
      if (plan_Version plan =? 2) && String.eqb (pre_Presence expected) DestinationPresent
      then commit_original plan destination mutable checkpoint fingerprint expected finalEntry
      else with_preserved plan false false
             (resolve_conflict plan destination mutable checkpoint fingerprint finalEntry false)
    | None =>
      if plan_Version plan =? 2 then panic
      else with_preserved plan false false
             (resolve_conflict plan destination mutable checkpoint fingerprint finalEntry false)
    end
  end.

Definition commit (plan : Plan) (destination : Provider W) (mutable : MutableProvider W)
    (checkpoint : Checkpoint) : M W (Result * option error) :=
  if String.eqb (cp_Phase checkpoint) PhaseCommitting then
    p ← attempt (proveCommitted plan checkpoint destination (cp_Final checkpoint)
                   (ChecksumHex checkpoint));
    match p with
    | Err err => mret (Result_zero, Some err)
    | Ok (true, checkpoint) =>
      with_preserved plan false false
        (committed plan destination checkpoint (cp_Final checkpoint) true true)
    | Ok (false, checkpoint) => commit_fresh plan destination mutable checkpoint
    end
  else commit_fresh plan destination mutable checkpoint.
End Commit.
