(* ===== verification/Execute.v ===== *)
(** Execution of a file plan (src/internal/transfer/worker.go, server_copy.go,
    same_host.go).

    [Execute] of the source continues with directories in directory.go
    (DirectoryCopy.v); [executeFile] is what it does for a file.  The Level 2
    backend is nil, as everywhere outside the program's tests, so a plan on that
    route is refused and the branches behind it do not appear. *)
From S2P Require Import Prelude Domain GoPath Provider DirectProtocol Bandwidth Plan Checkpoint.
From S2P Require Import Effects Mutation Stream Worker Commit.

Section Execute.
Context {W H : Type} `{Hash H} (worker : Worker W).
Local Abbreviation Resolve := (w_Resolve worker).
Local Abbreviation journal := (w_journal worker).
Local Abbreviation control := (w_control worker).
Local Abbreviation sameHost := (w_sameHost worker).

(** * Routes that stage the part elsewhere (same_host.go, server_copy.go) *)
Definition controlAction (checkpoint : Checkpoint) : M W ControlAction :=
  match control with None => mret ControlContinue | Some c => call_Action c checkpoint end.
(** What the goroutine polling the control during a staged copy saw. *)
Definition staged_action (checkpoint : Checkpoint) : M W ControlAction :=
  match control with None => mret ControlContinue | Some c => call_Observed c checkpoint end.

(** A controlled end: the result with its error, as one. *)
Definition controlled (plan : Plan) (checkpoint : Checkpoint) (retained : bool)
    (action : ControlAction) : Result * option error :=
  (Result_zero <| result_Final := Final plan |> <| Bytes := Offset checkpoint |>
     <| PartRetained := retained |>, Some (action_error action)).

(** The control is asked before and after a staged copy. *)
Definition staged {A B} (plan : Plan) (checkpoint : Checkpoint) (retained : bool)
    (finish : Result * option error → B) (copy : M W A) (k : A → M W B) : M W B :=
  let stop action := mret (finish (controlled plan checkpoint retained action)) in
  action ← controlAction checkpoint;
  if negb (bool_decide (action = ControlContinue)) then stop action else
  a ← copy;
  action ← staged_action checkpoint;
  if negb (bool_decide (action = ControlContinue)) then stop action else
  action ← controlAction checkpoint;
  if negb (bool_decide (action = ControlContinue)) then stop action else k a.

(** A verified part, staged elsewhere, enters the common path. *)
Definition adopt_part (plan : Plan) (destination : Provider W) (mutable : MutableProvider W)
    (checkpoint : Checkpoint) (size : Z) (partFingerprint : Fingerprint) (checksum : string) :
    M W (Result * option error) :=
  let checkpoint := checkpoint <| Offset := size |> <| PartFingerprint := partFingerprint |>
    <| ChecksumHex := checksum |> <| cp_Phase := PhaseTransferred |> in
  _ ← save worker checkpoint;
  let checkpoint := checkpoint <| cp_Phase := PhaseVerified |> in
  _ ← save worker checkpoint;
  commit worker plan destination mutable checkpoint.

Definition adopt_same_host (plan : Plan) (destination : Provider W) (mutable : MutableProvider W)
    (checkpoint : Checkpoint) (binding : SameHostCopyBinding) (partEntry : Entry) :
    M W (Result * option error) :=
  if negb (String.eqb (entry_Kind partEntry) EntryFile) ||
     negb (has_size partEntry (sh_SourceSize binding))
  then conflict "adopt_same_host_part" (Part plan)
         "durable Helper part has an unexpected type or size" else
  checksum ← verify worker plan (Some checkpoint) destination (Part plan) (entry_Fingerprint partEntry);
  if negb (String.eqb checksum (sh_SourceSHA256 binding))
  then conflict "adopt_same_host_part" (Part plan)
         "durable Helper part differs from the frozen source digest"
  else adopt_part plan destination mutable checkpoint (sh_SourceSize binding)
         (entry_Fingerprint partEntry) checksum.

(** The backend, of the artifact that was frozen if there is a registry. *)
Definition resolve_backend (plan : Plan) (registry : SameHostCopyRegistry W)
    (binding : SameHostCopyBinding) : M W (SameHostCopyBackend W) :=
  match sh_resolve registry with
  | None => mret (sh_backend registry)
  | Some resolve =>
    r ← tick (resolve (ep_ID (SourceEndpoint plan)) (sh_ArtifactID binding));
    match r with
    | Ok backend => mret backend
    | Err _ => throw (planError CodeCapabilityLost "stage_same_host_copy" (Part plan)
                        "frozen Helper artifact is unavailable" RetryAfterReplan)
    end
  end.

Definition executeSameHostCopy (plan : Plan) (destination : Provider W)
    (mutable : MutableProvider W) (checkpoint : Checkpoint) (checkpointExists : bool) :
    M W (Result * option error) :=
  match sameHost, SameHostCopy plan with
  | Some registry, Some binding =>
    _ ← if checkpointExists then mret tt
        else wrapping "execute same-host copy: persist part intent" (save worker checkpoint);
    r ← attempt (stat destination (Part plan));
    match r with
    | Ok partEntry =>
      if negb checkpointExists
      then throw (planError CodeAlreadyExists "stage_same_host_copy" (Part plan)
                    "Helper part appeared before durable staging began" RetryAfterConflict)
      else adopt_same_host plan destination mutable checkpoint binding partEntry
    | Err err =>
      if negb (IsCode err CodeNotFound) then throw err else
      staged plan checkpoint true id
        (backend ← resolve_backend plan registry binding;
         attempt (call_StageCopy backend (ref_Location (Source plan)) (Part plan) binding))
        (λ stage,
         result ← lift stage;
         if negb (bool_decide (stage_Part result = Part plan)) ||
            negb (stage_Size result =? sh_SourceSize binding) ||
            negb (String.eqb (stage_SHA256 result) (sh_SourceSHA256 binding)) ||
            stage_Committed result
         then throw (planError CodeIntegrityFailed "stage_same_host_copy" (Part plan)
                       "Helper returned an invalid staging result" RetryNever) else
         partEntry ← stat destination (Part plan);
         adopt_same_host plan destination mutable checkpoint binding partEntry)
    end
  | _, _ => throw (planError CodeCapabilityLost "stage_same_host_copy" (Part plan)
                     "frozen Helper same-host capability is unavailable" RetryAfterReplan)
  end.

Definition adopt_server_copy (plan : Plan) (source destination : Provider W)
    (mutable : MutableProvider W) (checkpoint : Checkpoint) (binding : ServerCopyBinding)
    (partEntry : Entry) : M W (Result * option error) :=
  match md_Size (entry_Metadata partEntry) with
  | Some size =>
    if negb (bool_decide (entry_Location partEntry = Part plan)) ||
       negb (String.eqb (entry_Kind partEntry) EntryFile) ||
       negb (bool_decide (fp_Size (ref_Fingerprint (Source plan)) = Some size)) ||
       (size >? sc_MaxBytes binding)
    then conflict "adopt_server_copy_part" (Part plan)
           "durable server-copy part has an unexpected location, type, or size" else
    sourceChecksum ← verify worker plan (Some checkpoint) source (ref_Location (Source plan))
                       (ref_Fingerprint (Source plan));
    destinationChecksum ← verify worker plan (Some checkpoint) destination (Part plan)
                            (entry_Fingerprint partEntry);
    if negb (String.eqb sourceChecksum destinationChecksum)
    then throw (planError CodeIntegrityFailed "verify_server_copy_part" (Part plan)
                  "server-copy part differs from the frozen source" RetryNever)
    else adopt_part plan destination mutable checkpoint size (entry_Fingerprint partEntry)
           destinationChecksum
  | None => conflict "adopt_server_copy_part" (Part plan)
              "durable server-copy part has an unexpected location, type, or size"
  end.

(** The outcome of a server copy: [None] is the safe fall back to the relay,
    before anything was written. *)
Definition ServerCopyOutcome : Type := option (Result * option error).
Definition ending (m : M W (Result * option error)) : M W ServerCopyOutcome := r ← m; mret (Some r).

(** After the server was asked: the part's state decides. *)
Definition settle_server_copy (plan : Plan) (source destination : Provider W)
    (mutable : MutableProvider W) (checkpoint : Checkpoint) (binding : ServerCopyBinding)
    (stage : result error Entry) : M W ServerCopyOutcome :=
  let invalid := match stage with
    | Ok returned => negb (bool_decide (entry_Location returned = Part plan)) ||
                     negb (String.eqb (entry_Kind returned) EntryFile)
    | Err _ => false end in
  if invalid
  then throw (planError CodeIntegrityFailed "stage_server_copy" (Part plan)
                "server-copy facet returned an invalid staging result" RetryNever) else
  match stage with
  | Err err => if is_canceled err || is_deadline err then throw err else mret tt
  | Ok _ => mret tt
  end ≫= λ _,
  r ← attempt (stat destination (Part plan));
  match r with
  | Ok partEntry =>
    ending (adopt_server_copy plan source destination mutable checkpoint binding partEntry)
  | Err err =>
    if negb (IsCode err CodeNotFound) then throw err else
    match stage with
    | Err _ => mret None
    | Ok _ => throw (planError CodeIntegrityFailed "stage_server_copy" (Part plan)
                       "server-copy facet reported success without a part" RetryNever)
    end
  end.

Definition executeServerCopy (plan : Plan) (source destination : Provider W)
    (mutable : MutableProvider W) (checkpoint : Checkpoint) (checkpointExists : bool) :
    M W ServerCopyOutcome :=
  match ServerCopy plan, server_copy_facet destination with
  | Some binding, Some serverCopy =>
    c ← attempt (requireFrozenCapability destination (Part plan)
                   (mkBinding (sc_Revision binding) (sc_Capability binding)));
    match c with
    | Err err => if is_canceled err || is_deadline err then throw err else mret None
    | Ok _ =>
      _ ← if checkpointExists then mret tt
          else wrapping "execute server copy: persist part intent" (save worker checkpoint);
      r ← attempt (stat destination (Part plan));
      match r with
      | Ok partEntry =>
        if negb checkpointExists
        then throw (planError CodeAlreadyExists "stage_server_copy" (Part plan)
                      "server-copy part appeared before durable staging began" RetryAfterConflict)
        else ending (adopt_server_copy plan source destination mutable checkpoint binding partEntry)
      | Err err =>
        if negb (IsCode err CodeNotFound) then throw err else
        staged plan checkpoint (negb (Offset checkpoint =? 0)) Some
          (attempt (call_ServerCopy serverCopy (ref_Location (Source plan)) (Part plan)
                      (ref_Fingerprint (Source plan)) (sc_MaxBytes binding)))
          (settle_server_copy plan source destination mutable checkpoint binding)
      end
    end
  | _, _ => mret None
  end.

(** * Executing a file plan (worker.go) *)

(** A part whose content is already verified, or waits for its commit. *)
Definition resume_verified (plan : Plan) (destination : Provider W) (mutable : MutableProvider W)
    (current : Checkpoint) : M W (Result * option error) :=
  current ← if negb (ce_Version (Completion current) =? 0) then
      r ← attempt (stat destination (Part plan));
      match r with
      | Err err =>
        if negb (String.eqb (cp_Phase current) PhaseCommitting) || negb (IsCode err CodeNotFound)
        then throw err else mret current
      | Ok part =>
        actual ← verify worker plan (Some current) destination (Part plan) (entry_Fingerprint part);
        if negb (String.eqb actual (ChecksumHex current))
        then conflict "resume_copy" (Part plan) "part content changed before publication"
        else mret (recordContentVerified (current <| PartFingerprint := entry_Fingerprint part |>))
      end
    else mret current;
  commit worker plan destination mutable current.

(** A part whose bytes are all there, not verified yet. *)
Definition verify_part (plan : Plan) (destination : Provider W) (mutable : MutableProvider W)
    (current : Checkpoint) (partFingerprint : Fingerprint) : M W (Result * option error) :=
  checksum ← verify worker plan (Some current) destination (Part plan) partFingerprint;
  if negb (String.eqb checksum (ChecksumHex current))
  then throw (planError CodeConflict "verify_part" (Part plan)
                "part checksum does not match streamed source" RetryNever) else
  let current := (recordContentVerified current) <| cp_Phase := PhaseVerified |>
    <| PartFingerprint := partFingerprint |> in
  _ ← save worker current;
  commit worker plan destination mutable current.

Definition resume_transferred (plan : Plan) (destination : Provider W)
    (mutable : MutableProvider W) (current : Checkpoint) : M W (Result * option error) :=
  partEntry ← stat destination (Part plan);
  verify_part plan destination mutable current (entry_Fingerprint partEntry).

(** The part's handle: a new part, or the rest of an old one. *)
Definition open_part (plan : Plan) (mutable : MutableProvider W) (offset : Z)
    (disposition : string) (expected : option Fingerprint) : M W (WriteHandle W) :=
  call_OpenWrite mutable (mkOpenWriteRequest (Part plan) offset disposition expected).

Definition create_part (plan : Plan) (destination : Provider W) (mutable : MutableProvider W)
    (current : Checkpoint) (checkpointExists : bool) : M W (WriteHandle W * Checkpoint * H) :=
  _ ← if checkpointExists then mret tt
      else wrapping "execute transfer: persist part intent" (save worker current);
  handle ← open_part plan mutable 0 WriteCreateNew None;
  r ← attempt (initializeCreatedPart worker plan destination handle current h_new);
  match r with
  | Err err => _ ← call_CloseWrite (Part plan) handle; throw err
  | Ok current => mret (handle, current, h_new)
  end.

Definition resume_part (plan : Plan) (source destination : Provider W)
    (mutable : MutableProvider W) (current : Checkpoint) : M W (WriteHandle W * Checkpoint * H) :=
  offset ← lift (checkedProviderOffset (Offset current));
  hasher ← match h_unmarshal (ChecksumState current) with
    | Some hasher => mret hasher
    | None => throw (EText "execute transfer: restore SHA-256 checkpoint")
    end;
  partEntry ← stat destination (Part plan);
  o ← match md_Size (entry_Metadata partEntry) with
    | Some size =>
      if (size >? Offset current) && negb (CheckpointBytes (plan_StreamPolicy plan) =? 0)
      then recoverStreamSuffix worker plan source destination mutable current partEntry (h_sum hasher)
      else mret (partEntry, current)
    | None => mret (partEntry, current)
    end;
  let '(partEntry, current) := o in
  if negb (has_size partEntry (Offset current))
  then conflict "resume_copy" (Part plan) "part no longer matches durable checkpoint" else
  current ← if negb (ce_Version (Completion current) =? 0) ||
               negb (bool_decide (entry_Fingerprint partEntry = PartFingerprint current))
    then
      checksum ← verify worker plan (Some current) destination (Part plan) (entry_Fingerprint partEntry);
      if negb (String.eqb checksum (h_sum hasher))
      then conflict "resume_copy" (Part plan) "part content no longer matches durable checkpoint"
      else
        let current := current <| PartFingerprint := entry_Fingerprint partEntry |> in
        _ ← wrapping "execute transfer: refresh revalidated part checkpoint" (save worker current);
        mret current
    else mret current;
  handle ← open_part plan mutable offset WriteResumeExisting (Some (PartFingerprint current));
  mret (handle, current, hasher).

(** After the stream: the closed part is what was acknowledged. *)
Definition finish_part (plan : Plan) (destination : Provider W) (mutable : MutableProvider W)
    (readHandle : ReadHandle W) (writeHandle : WriteHandle W) (current : Checkpoint) (hasher : H) :
    M W (Result * option error) :=
  let source := ref_Location (Source plan) in
  if match fp_Size (ref_Fingerprint (Source plan)) with
     | Some size => negb (Offset current =? size) | None => false end
  then conflict "stream_copy" source "source size changed during transfer" else
  _ ← close_write (Part plan) writeHandle;
  _ ← close_read source readHandle;
  partEntry ← stat destination (Part plan);
  if negb (String.eqb (entry_Kind partEntry) EntryFile) || negb (has_size partEntry (Offset current))
  then conflict "stream_copy" (Part plan) "closed part size differs from acknowledged bytes" else
  let checksum := h_sum hasher in
  let current := current <| PartFingerprint := entry_Fingerprint partEntry |>
    <| ChecksumHex := checksum |> in
  if (plan_Version plan =? 2) && negb (String.eqb checksum (ExpectedSourceSHA256 plan))
  then mret (Result_zero <| result_Final := Final plan |> <| Bytes := Offset current |>
               <| result_SHA256 := checksum |> <| PartRetained := true |>,
             Some (planError CodeConflict "verify_sync_back_source" source
                     "materialization content differs from frozen edit digest" RetryAfterConflict))
  else
  let current := current <| cp_Phase := PhaseTransferred |> in
  _ ← save worker current;
  if String.eqb (Verification plan) VerifyProtocol
  then commit worker plan destination mutable current
  else verify_part plan destination mutable current (entry_Fingerprint partEntry).

Definition stream_part (plan : Plan) (source destination : Provider W)
    (mutable : MutableProvider W) (writeHandle : WriteHandle W) (current : Checkpoint)
    (hasher : H) : M W (Result * option error) :=
  let location := ref_Location (Source plan) in
  offset ← lift (checkedProviderOffset (Offset current));
  readHandle ← call_OpenRead source (mkOpenReadRequest location offset None
                 (Some (ref_Fingerprint (Source plan))));
  defer (call_CloseRead location readHandle) (
    r ← copyStream worker plan readHandle writeHandle destination current hasher;
    let '(s, err) := r in
    match err with
    | Some err =>
      if is_sentinel "transfer paused" err || is_sentinel "transfer canceled" err
      then mret (Result_zero <| result_Final := Final plan |>
                   <| Bytes := Offset (st_current s) |> <| PartRetained := true |>, Some err)
      else throw err
    | None => finish_part plan destination mutable readHandle writeHandle (st_current s) (st_hasher s)
    end).

(** Streaming a new part or the rest of an old one. *)
Definition stream_file (plan : Plan) (source destination : Provider W)
    (mutable : MutableProvider W) (current : Checkpoint) (checkpointExists : bool) :
    M W (Result * option error) :=
  o ← if negb checkpointExists || String.eqb (cp_Phase current) PhasePrepared
      then create_part plan destination mutable current checkpointExists
      else if String.eqb (cp_Phase current) PhaseStreaming
      then resume_part plan source destination mutable current
      else throw (EText "execute transfer: unsupported checkpoint phase");
  let '(writeHandle, current, hasher) := o in
  defer (call_CloseWrite (Part plan) writeHandle)
    (stream_part plan source destination mutable writeHandle current hasher).

Definition new_checkpoint (plan : Plan) : Checkpoint :=
  (initial_checkpoint (plan_JobID plan))
    <| Completion := newCompletionEvidence plan |> <| cp_Phase := PhasePrepared |>
    <| SourceFingerprint := ref_Fingerprint (Source plan) |> <| cp_Part := Part plan |>
    <| cp_Final := Final plan |> <| ActualRoute := Route plan |>
    <| RouteReason := plannedRouteReason plan |>.

(** By the phase that was reached. *)
Definition execute_phase (plan : Plan) (source destination : Provider W)
    (mutable : MutableProvider W) (current : Checkpoint) (checkpointExists : bool) :
    M W (Result * option error) :=
  let phase := cp_Phase current in
  if String.eqb phase PhaseVerified || String.eqb phase PhaseWaitingConflict ||
     String.eqb phase PhaseCommitting
  then resume_verified plan destination mutable current else
  if String.eqb phase PhaseTransferred then resume_transferred plan destination mutable current
  else stream_file plan source destination mutable current checkpointExists.

(** By the route. *)
Definition execute_route (plan : Plan) (source destination : Provider W)
    (mutable : MutableProvider W) (current : Checkpoint) (checkpointExists : bool) :
    M W (Result * option error) :=
  let prepared := String.eqb (cp_Phase current) PhasePrepared in
  if String.eqb (Route plan) RouteHelperSameHost && prepared
  then executeSameHostCopy plan destination mutable current checkpointExists else
  if String.eqb (Route plan) RouteSFTPServerCopy &&
     negb (String.eqb (ActualRoute current) RouteSFTPRelay) && prepared
  then
    r ← executeServerCopy plan source destination mutable current checkpointExists;
    match r with
    | Some result => mret result
    | None =>
      let current := current <| ActualRoute := RouteSFTPRelay |>
        <| DowngradedFrom := RouteSFTPServerCopy |>
        <| RouteReason := ReasonServerCopyFailedBeforeWrite |> in
      _ ← wrapping "execute transfer: persist safe route downgrade" (save worker current);
      execute_phase plan source destination mutable current checkpointExists
    end
  else execute_phase plan source destination mutable current checkpointExists.

(** With the loaded checkpoint. *)
Definition execute_loaded (plan : Plan) (source destination : Provider W)
    (mutable : MutableProvider W) (checkpoint : option Checkpoint) : M W (Result * option error) :=
  match checkpoint with
  | None => execute_route plan source destination mutable (new_checkpoint plan) false
  | Some checkpoint =>
    if negb (String.eqb (cp_JobID checkpoint) (plan_JobID plan))
    then throw (EText "execute transfer: checkpoint belongs to another Job") else
    if negb (checkpointMatchesPlan checkpoint plan)
    then throw (EText "execute transfer: checkpoint does not match frozen route identity") else
    if String.eqb (cp_Phase checkpoint) PhaseCommitted then
      let result := commit_result (cp_Outcome checkpoint) (cp_Final checkpoint) checkpoint false in
      mret (if negb (String.eqb (loc_Path (PreservedDestination plan)) "")
            then result <| result_PreservedDestination := PreservedDestination plan |>
            else result, None)
    else
    let current := if String.eqb (ActualRoute checkpoint) ""
      then checkpoint <| ActualRoute := Route plan |> <| RouteReason := plannedRouteReason plan |>
      else checkpoint in
    execute_route plan source destination mutable current true
  end.

(** The result's digest means a checked destination, so it is not shown for a
    copy confirmed by the protocol only. *)
Definition hide_digest (plan : Plan) (r : Result * option error) : Result * option error :=
  if String.eqb (Verification plan) VerifyProtocol then (r.1 <| result_SHA256 := "" |>, r.2) else r.

Definition executeFile (plan : Plan) : M W (Result * option error) :=
  _ ← lift (validateExecution plan);
  if String.eqb (Route plan) RouteLevel2Direct
  then throw (planError CodeUnsupported "execute_direct" (Part plan)
                "Level 2 data-plane fixture is not attached" RetryAfterReplan) else
  source ← lift (Resolve (loc_EndpointID (ref_Location (Source plan))));
  destination ← lift (Resolve (loc_EndpointID (Part plan)));
  match mutable_facet destination with
  | None => throw (planError CodeUnsupported "execute_copy" (Part plan)
                     "destination mutation facet disappeared" RetryAfterReplan)
  | Some mutable =>
    _ ← requireFrozenCapability source (ref_Location (Source plan)) (SourceCapability plan);
    _ ← requireFrozenCapability destination (Part plan) (DestinationCapability plan);
    checkpoint ← wrapping "execute transfer: load checkpoint" (call_Load journal (plan_JobID plan));
    r ← execute_loaded plan source destination mutable checkpoint;
    mret (hide_digest plan r)
  end.
End Execute.
