(* ===== verification/DirectoryCopy.v ===== *)
(** The execution of a directory's plan (src/internal/transfer/directory.go,
    directory_stream.go, progress.go): the root is prepared under the conflict
    policy, and the items of the walk are copied into it one by one.

    First, the local variables of a handler as a part of its world: what a closure
    or a pointer that the handler passes on can read and write.  The providers, the
    scheduler and the user of the larger world are those of the smaller one.

    A plan with directory workers, as the planner makes them, copies its files by
    streams side by side; their shared state is in DirectoryStreams.v, and how they
    are driven is a parameter here.  The manifest and the measurements are left
    out, and a checkpoint has the fields that only directories use beside it. *)
From S2P Require Import Prelude TokenBucket Bandwidth Domain GoPath Provider DirectProtocol Plan Checkpoint.
From S2P Require Import Effects Mutation Stream Worker Move Execute.

Section Local.
Context {W C : Type}.
Definition on {A} (f : W → A * W) (w : W * C) : A * (W * C) :=
  let '(a, w') := f w.1 in (a, (w', w.2)).
(** The answer is changed: a handle lives in the larger world. *)
Definition on_ok {A B} (g : A → B) (f : W → result error A * W) (w : W * C) : result error B * (W * C) :=
  let '(r, w') := on f w in (match r with Ok a => Ok (g a) | Err e => Err e end, w').

Definition local_read (h : ReadHandle W) : ReadHandle (W * C) :=
  mkReadHandle (Info h) (λ size, on (Read h size)) (on (Read_Close h))
    ((λ f offset size, on (f offset size)) <$> ReadAhead h)
    ((λ f offset options answer, on (f offset options answer)) <$> ReadStream h).
Definition local_pump (f : Pump W) : Pump (W * C) := λ answer, on (f answer).
Definition local_write (h : WriteHandle W) : WriteHandle (W * C) :=
  mkWriteHandle (λ bytes, on (Write h bytes)) (on (Sync h)) (on (Write_Close h))
    (local_pump <$> WriteFrom h) ((λ f n, local_pump (f n)) <$> WriteFromWindow h)
    ((λ f size, on (f size)) <$> Truncate h).
Definition local_mutable (m : MutableProvider W) : MutableProvider (W * C) :=
  mkMutable (λ request, on_ok local_write (OpenWrite m request)) (λ request, on (Rename m request))
    (λ request, on (Remove m request)) (λ request, on (Mkdir m request)).
Definition local_provider (p : Provider W) : Provider (W * C) :=
  mkProvider (Descriptor p) (on (Snapshot p)) (λ request, on (List p request))
    (λ request, on (Stat p request)) (λ request, on_ok local_read (OpenRead p request))
    (local_mutable <$> mutable_facet p) ((λ f request, on (f request)) <$> trash_facet p)
    ((λ f request options answer, on (f request options answer)) <$> preserver_facet p)
    ((λ f source part fp max, on (f source part fp max)) <$> server_copy_facet p).
Definition local_scheduler (s : bandwidthScheduler W) : bandwidthScheduler (W * C) :=
  mkBandwidthScheduler (λ request, on (Wait s request)) (λ w, QuantumBytes s w.1)
    ((λ f request w, f request w.1) <$> AllowsReadAhead s).
Definition local_control (c : Control W) : Control (W * C) :=
  mkControl (λ checkpoint, on (Action c checkpoint)) (λ checkpoint, on (Observed c checkpoint)).
Definition local_backend (f : SameHostCopyBackend W) : SameHostCopyBackend (W * C) :=
  λ source part binding, on (f source part binding).
Definition local_registry (r : SameHostCopyRegistry W) : SameHostCopyRegistry (W * C) :=
  mkRegistry (local_backend (sh_backend r))
    ((λ f id artifact, on_ok local_backend (f id artifact)) <$> sh_resolve r).
(** The worker with another journal, which may use the variables. *)
Definition local_worker (worker : Worker W) (journal : Journal (W * C)) : Worker (W * C) :=
  mkWorker (λ id, match w_Resolve worker id with Ok p => Ok (local_provider p) | Err e => Err e end)
    journal (local_scheduler <$> w_scheduler worker) (local_control <$> w_control worker)
    (local_registry <$> w_sameHost worker) (λ w, w_ctx_Err worker w.1) (on (w_Now worker)) (w_fuel worker).

(** A run from the variables' first values: how it ended, what it did, and the
    last values. *)
Definition scoped {A} (c : C) (m : M (W * C) A) (w : W) : outcome A * list event * W * C :=
  let '(o, t, w') := m (w, c) in (o, t, w'.1, w'.2).

Lemma on_inv {A} (f : W → A * W) w a w' : on f w = (a, w') → ∃ w1, f w.1 = (a, w1) ∧ w' = (w1, w.2).
Proof. unfold on. destruct (f w.1) as [b w1]. intros [= -> <-]. eauto. Qed.
End Local.

(** * A directory and its journal *)
Record DirCheckpoint := mkDirCheckpoint {
  dir_Checkpoint : Checkpoint;
  dir_Items : Z; (* uint64 *) dir_CurrentPath : string; DirectoryRootOwned : bool;
  DirectoryChildren : list (string * Checkpoint);
}.
#[export] Instance DirCheckpoint_eta : Settable DirCheckpoint :=
  λ c, mkDirCheckpoint (dir_Checkpoint c) (dir_Items c) (dir_CurrentPath c) (DirectoryRootOwned c)
    (DirectoryChildren c).
(** A change of what a directory's checkpoint shares with a file's. *)
Definition dir_map (f : Checkpoint → Checkpoint) (c : DirCheckpoint) : DirCheckpoint :=
  c <| dir_Checkpoint := f (dir_Checkpoint c) |>.
Abbreviation dir_Offset c := (Offset (dir_Checkpoint c)).
Definition max_uint64 : Z := u64 (-1).

(** The journal as a directory uses it. *)
Record DirJournal (W : Type) := mkDirJournal {
  dj_Load : string → W → result error (option DirCheckpoint) * W;
  dj_Save : DirCheckpoint → W → option error * W;
  dj_ReportProgress : option (string → Z → Z → W → option error * W);
}.
Arguments mkDirJournal {W}. Arguments dj_Load {W}. Arguments dj_Save {W}. Arguments dj_ReportProgress {W}.

(** The run of a file's plan is one event, with what it did. *)
Inductive devent :=
| DirCall (ev : event)
| DirLoad (job : string) (r : result error (option DirCheckpoint))
| DirSave (checkpoint : DirCheckpoint) (err : option error)
| DirChild (plan : Plan) (t : list event) (r : result error (Result * option error)).
Abbreviation DM := (ME devent).

(** What a file's journal shares with the directory: the checkpoint it points to,
    and the file's own. *)
Record cell := mkCell { cell_root : DirCheckpoint; cell_child : option Checkpoint }.
#[export] Instance cell_eta : Settable cell := λ c, mkCell (cell_root c) (cell_child c).

Section Copy.
Context {W H : Type} `{Hash H} (worker : Worker W) (journal : DirJournal W).
Context (cancels : W → option error) (ahead : W → bool).
(** Worker.executeDirectoryStreams: the plan, the root, and whether it is resumed. *)
Context (streams : Plan → DirCheckpoint → bool → Provider W → Provider W → MutableProvider W →
  DM W (Result * option error)).
Local Abbreviation Resolve := (w_Resolve worker).
Local Abbreviation fuel := (w_fuel worker).

Definition calls {A} (m : M W A) : DM W A := λ w, let '(o, t, w') := m w in (o, DirCall <$> t, w').
Definition call_dir_Load (job : string) : DM W (option DirCheckpoint) := λ w,
  let '(r, w') := dj_Load journal job w in answer (DirLoad job r) r w'.
Definition call_dir_Save (checkpoint : DirCheckpoint) : DM W (option error) := λ w,
  let '(err, w') := dj_Save journal checkpoint w in (Returned err, [DirSave checkpoint err], w').
Definition save_root (checkpoint : DirCheckpoint) : DM W () :=
  err ← call_dir_Save checkpoint; or_return err.

(** * The journal of a file in a directory *)
Definition volatile_Load (c : cell) : option Checkpoint := cell_child c.
Definition item_progress (baseOffset floorOffset : Z) (currentPath : string) (root : DirCheckpoint)
    (child : Checkpoint) : DirCheckpoint :=
  let offset := Z.max (saturatingAdd baseOffset (Offset child) max_uint64) floorOffset in
  let progress := dir_map (λ c, c <| cp_Phase := PhaseStreaming |> <| Offset := offset |>) root
    <| dir_CurrentPath := currentPath |> in
  if negb (String.eqb (ActualRoute child) "")
  then dir_map (λ c, c <| ActualRoute := ActualRoute child |> <| DowngradedFrom := DowngradedFrom child |>
                       <| RouteReason := RouteReason child |>) progress
  else progress.
(** What the pointer's target gets of it, once it is saved. *)
Definition item_projected (root progress : DirCheckpoint) : DirCheckpoint :=
  let p := dir_Checkpoint progress in
  dir_map (λ c, c <| Offset := Offset p |> <| ActualRoute := ActualRoute p |>
                  <| DowngradedFrom := DowngradedFrom p |> <| RouteReason := RouteReason p |>) root
    <| dir_CurrentPath := dir_CurrentPath progress |>.
Definition item_Save (baseOffset floorOffset : Z) (currentPath : string) (child : Checkpoint)
    (w : W * cell) : option error * (W * cell) :=
  let c := w.2 <| cell_child := Some child |> in
  let progress := item_progress baseOffset floorOffset currentPath (cell_root c) child in
  let '(err, w') := dj_Save journal progress w.1 in
  match err with
  | Some err => (Some err, (w', c))
  | None => (None, (w', c <| cell_root := item_projected (cell_root c) progress |>))
  end.
Definition item_ReportProgress (baseOffset floorOffset : Z)
    (report : string → Z → Z → W → option error * W) (phase : string) (bytes durable : Z) :
    W * cell → option error * (W * cell) :=
  on (report PhaseStreaming (Z.max (saturatingAdd baseOffset bytes max_uint64) floorOffset)
        (Z.max (saturatingAdd baseOffset durable max_uint64) floorOffset)).
Definition directoryItemJournal (baseOffset floorOffset : Z) (currentPath : string) : Journal (W * cell) :=
  mkJournal (λ _ w, (Ok (volatile_Load w.2), w)) (item_Save baseOffset floorOffset currentPath)
    (Some (match dj_ReportProgress journal with
           | Some report => item_ReportProgress baseOffset floorOffset report
           | None => λ _ _ _ w, (None, w)
           end)).

(** * The destination *)
Definition ensureDirectory (reader : Provider W) (writer : MutableProvider W) (location : Location) : M W () :=
  r ← attempt (stat reader location);
  match r with
  | Ok entry =>
    if negb (String.eqb (entry_Kind entry) EntryDirectory)
    then throw (planError CodeConflict "execute_directory" location "destination path is not a directory"
                  RetryAfterConflict)
    else mret tt
  | Err err =>
    if negb (IsCode err CodeNotFound) then throw err else
    _ ← call_Mkdir writer (mkMkdirRequest location true); mret tt
  end.
(** The final location, an outcome if there is nothing to copy, and whether the
    root was made. *)
Definition make_root (destination : MutableProvider W) (final : Location) : M W (Location * string * bool) :=
  _ ← call_Mkdir destination (mkMkdirRequest final true); mret (final, "", true).
Definition prepareDirectoryRoot (destinationProvider : Provider W) (destination : MutableProvider W)
    (plan : Plan) : M W (Location * string * bool) :=
  let final := Final plan in
  r ← attempt (stat destinationProvider final);
  match r with
  | Ok entry =>
    if String.eqb (ConflictPolicy plan) ConflictAsk then mret (final, OutcomeWaitingConflict, false) else
    if String.eqb (ConflictPolicy plan) ConflictSkip then mret (final, OutcomeSkipped, false) else
    if String.eqb (ConflictPolicy plan) ConflictAutoRename then
      final ← chooseAutoRename destinationProvider (DestinationDirectory plan) (RequestedName plan);
      make_root destination final else
    if String.eqb (ConflictPolicy plan) ConflictOverwrite then
      if negb (String.eqb (entry_Kind entry) EntryDirectory)
      then throw (planError CodeConflict "execute_directory" final
                    "cannot merge a directory into a non-directory" RetryAfterConflict)
      else mret (final, "", false)
    else make_root destination final
  | Err err => if negb (IsCode err CodeNotFound) then throw err else make_root destination final
  end.

(** * One item *)
(** The plan of a file in the directory. *)
Definition directoryFilePlan (plan : Plan) (entry : Entry) (relative : string) (final : Location) : Plan :=
  let childFinal := childLocation final relative in
  let directory := mkLocation (loc_EndpointID final) (path_Dir (loc_Path childFinal)) in
  let name := path_Base relative in
  freezeRouteEvidence
    (plan <| Source := mkFileRef (entry_Location entry) EntryFile (entry_Fingerprint entry)
                         (bind_Revision (SourceCapability plan)) |>
          <| DestinationDirectory := directory |> <| RequestedName := name |> <| Final := childFinal |>
          <| Part := childLocation directory ("." +:+ name +:+ ".part-" +:+ plan_JobID plan) |>
          <| Discovery := None |>).

Definition continuableDirectoryItemError (err : error) : bool :=
  match op_code err with Some code => String.eqb code CodePermissionDenied | None => false end.
Definition PartialItemsError : error := ESentinel "PartialItemsError".

(** What is there already, of a run before: whether the item is done, and its
    bytes. *)
Definition validateOwnedDirectoryItem (plan : Plan) (source destination : Provider W)
    (item : DiscoveredItem) (destinationLocation : Location) : M W (bool * Z) :=
  let entry := item_Entry item in
  let verify p l fp := verifyFile (w_scheduler worker) (w_control worker) (w_ctx_Err worker) fuel
    (w_journal worker) plan None p l fp (BufferBytes plan) in
  if String.eqb (entry_Kind entry) EntryDirectory then
    r ← attempt (stat destination destinationLocation);
    match r with
    | Err err => if IsCode err CodeNotFound then mret (false, 0) else throw err
    | Ok found =>
      if negb (String.eqb (entry_Kind found) EntryDirectory)
      then throw (planError CodeConflict "resume_directory" destinationLocation
                    "completed directory item changed type" RetryAfterConflict)
      else mret (true, 0)
    end
  else if String.eqb (entry_Kind entry) EntryFile then
    r ← attempt (stat destination destinationLocation);
    match r with
    | Err err => if IsCode err CodeNotFound then mret (false, 0) else throw err
    | Ok found =>
      sourceChecksum ← verify source (entry_Location entry) (entry_Fingerprint entry);
      destinationChecksum ← verify destination destinationLocation (entry_Fingerprint found);
      if negb (String.eqb sourceChecksum destinationChecksum)
      then throw (planError CodeConflict "resume_directory" destinationLocation
                    "completed file no longer matches source" RetryAfterConflict)
      else mret (true, match md_Size (entry_Metadata entry), fp_Size (entry_Fingerprint entry) with
                       | Some size, _ => size
                       | None, Some size => size
                       | None, None => 0
                       end)
    end
  else mret (true, 0).

(** The variables of the loop, and the answer with which it was left. *)
Record copying := mkCopying {
  cy_checkpoint : DirCheckpoint; cy_result : Result; cy_answer : option (Result * option error);
}.
#[local] Instance copying_eta : Settable copying :=
  λ c, mkCopying (cy_checkpoint c) (cy_result c) (cy_answer c).
Definition leave (c : copying) (answer : Result * option error) : DM W (copying * option error) :=
  mret (c <| cy_answer := Some answer |>, Some (EText "left")).
Definition go_on (c : copying) : DM W (copying * option error) := mret (c, None).
(** [if _, err := m; err != nil { return Result{}, err }]. *)
Definition or_leave {A} (c : copying) (m : DM W A) (k : A → DM W (copying * option error)) :
    DM W (copying * option error) :=
  r ← attempt m;
  match r with Ok a => k a | Err err => leave c (Result_zero, Some err) end.
(** The end of an item that was counted. *)
Definition count_item (c : copying) (result : Result) (checkpoint : DirCheckpoint) :
    DM W (copying * option error) :=
  let result := result <| result_Items := u64 (result_Items result + 1) |> in
  let checkpoint := dir_map (λ k, k <| Offset := Z.max (Offset k) (Bytes result) |>) checkpoint
    <| dir_Items := result_Items result |> in
  let c := c <| cy_checkpoint := checkpoint |> <| cy_result := result |> in
  or_leave c (save_root checkpoint) (λ _, go_on c).
Definition succeeded (result : Result) : Result := result <| Succeeded := u64 (Succeeded result + 1) |>.

Definition run_item (plan : Plan) (baseOffset : Z) (currentPath : string) (root : DirCheckpoint) :
    DM W (result error (Result * option error) * DirCheckpoint) := λ w,
  let child := local_worker worker (directoryItemJournal baseOffset (dir_Offset root) currentPath) in
  let '(o, t, w', c) := scoped (mkCell root None) (attempt (executeFile (H := H) child plan)) w in
  match o with
  | Returned r => (Returned (r, cell_root c), [DirChild plan t r], w')
  | Failed e => (Failed e, DirCall <$> t, w')
  | Panicked => (Panicked, DirCall <$> t, w')
  | Running => (Running, DirCall <$> t, w')
  end.
(** A part that a run before left behind. *)
Definition remove_part (destinationProvider : Provider W) (destination : MutableProvider W) (part : Location) :
    M W () :=
  r ← attempt (stat destinationProvider part);
  match r with
  | Ok entry =>
    err ← call_Remove destination (mkRemoveRequest part (Some (entry_Fingerprint entry)));
    or_return err
  | Err err => if IsCode err CodeNotFound then mret tt else throw err
  end.
Definition copy_file (plan : Plan) (resuming : bool) (final : Location) (destinationProvider : Provider W)
    (destination : MutableProvider W) (c : copying) (item : DiscoveredItem) : DM W (copying * option error) :=
  let itemPlan := directoryFilePlan plan (item_Entry item) (item_RelativePath item) final in
  or_leave c (if resuming then calls (remove_part destinationProvider destination (Part itemPlan)) else mret tt) (λ _,
  x ← run_item itemPlan (Bytes (cy_result c)) (item_RelativePath item) (cy_checkpoint c);
  let '(r, checkpoint) := x in
  let c := c <| cy_checkpoint := checkpoint |> in
  let result := cy_result c in
  let '(itemResult, failure) := match r with Ok answer => answer | Err err => (Result_zero, Some err) end in
  match failure with
  | Some err =>
    if continuableDirectoryItemError err
    then count_item c (result <| Failed_ := u64 (Failed_ result + 1) |>) checkpoint
    else leave c (result, Some err)
  | None =>
    if String.eqb (Outcome itemResult) OutcomeWaitingConflict then
      let checkpoint := dir_map (λ k, k <| cp_Phase := PhaseWaitingConflict |>
                                        <| cp_Outcome := OutcomeWaitingConflict |>) checkpoint in
      _ ← call_dir_Save checkpoint;
      leave c (Result_zero <| Outcome := OutcomeWaitingConflict |> <| result_Final := result_Final itemResult |>
                 <| Bytes := Bytes result |> <| result_Items := dir_Items checkpoint |>
                 <| PartRetained := true |>, None)
    else count_item c (succeeded (result <| Bytes := u64 (Bytes result + Bytes itemResult) |>)) checkpoint
  end).
Definition copy_item (plan : Plan) (resuming : bool) (final : Location) (source destinationProvider : Provider W)
    (destination : MutableProvider W) (c : copying) (item : DiscoveredItem) : DM W (copying * option error) :=
  let location := childLocation final (item_RelativePath item) in
  let kind := entry_Kind (item_Entry item) in
  let at_item c := c <| cy_checkpoint := (cy_checkpoint c) <| dir_CurrentPath := item_RelativePath item |> |> in
  or_leave c (if resuming && DirectoryRootOwned (cy_checkpoint c)
              then calls (validateOwnedDirectoryItem plan source destinationProvider item location)
              else mret (false, 0)) (λ d,
  let '(completed, bytes) := d in
  if completed : bool then
    let c := at_item c in
    let result := cy_result c in
    count_item c (succeeded (result <| Bytes := u64 (Bytes result + bytes) |>)) (cy_checkpoint c)
  else
  action ← (match w_control worker with
            | Some control => calls (control_event (dir_Checkpoint (cy_checkpoint c))
                                       (Action control (dir_Checkpoint (cy_checkpoint c))))
            | None => mret ControlContinue
            end);
  match action with
  | ControlPause => _ ← call_dir_Save (cy_checkpoint c); leave c (cy_result c, Some ErrPaused)
  | ControlCancel => _ ← call_dir_Save (cy_checkpoint c); leave c (cy_result c, Some ErrCanceled)
  | ControlContinue =>
    let c := at_item c in
    if String.eqb kind EntryDirectory then
      or_leave c (calls (ensureDirectory destinationProvider destination location)) (λ _,
      count_item c (succeeded (cy_result c)) (cy_checkpoint c))
    else if String.eqb kind EntryFile
    then copy_file plan resuming final destinationProvider destination c item
    else count_item c ((cy_result c) <| Skipped := u64 (Skipped (cy_result c) + 1) |>) (cy_checkpoint c)
  end).

(** * The directory *)
Definition copy_items (plan : Plan) (budget : DiscoveryBudget) (resuming : bool) (final : Location)
    (source destinationProvider : Provider W) (destination : MutableProvider W) (checkpoint : DirCheckpoint) :
    DM W (Result * option error) :=
  let root := ref_Location (Source plan) in
  let start := mkCopying checkpoint
    (Result_zero <| Outcome := OutcomeCompleted |> <| result_Final := final |>) None in
  k ← calls (DiscoverDirectory source root budget);
  x ← take_items root budget (λ k, calls (walk_step source root budget k)) cancels ahead
        (copy_item plan resuming final source destinationProvider destination) fuel (inl k) [] start;
  let '(c, failure) := x in
  let result := cy_result c in
  match cy_answer c, failure with
  | Some answer, _ => mret answer
  | None, Some err => mret (result, Some err)
  | None, None =>
    let ended := (cy_checkpoint c) <| dir_CurrentPath := "" |> in
    if negb (Failed_ result =? 0) then
      let result := result <| Outcome := OutcomeCompletedPartial |> in
      _ ← save_root (dir_map (λ k, k <| cp_Outcome := OutcomeCompletedPartial |>) ended);
      mret (result, Some PartialItemsError)
    else
      _ ← save_root (dir_map (λ k, k <| cp_Phase := PhaseCommitted |> <| cp_Outcome := Outcome result |>) ended);
      mret (result, None)
  end.

Definition first_root (plan : Plan) : DirCheckpoint :=
  mkDirCheckpoint
    ((initial_checkpoint (plan_JobID plan)) <| Completion := newCompletionEvidence plan |>
       <| cp_Phase := PhasePrepared |> <| SourceFingerprint := ref_Fingerprint (Source plan) |>
       <| cp_Part := Part plan |> <| cp_Final := Final plan |>) 0 "" false [].
Definition root_matches (plan : Plan) (root : DirCheckpoint) : bool :=
  let c := dir_Checkpoint root in
  String.eqb (cp_JobID c) (plan_JobID plan) &&
  bool_decide (SourceFingerprint c = ref_Fingerprint (Source plan)) &&
  (ce_Version (Completion c) =? ce_Version (newCompletionEvidence plan)) &&
  (ce_DurableBytes (Completion c) <=? Offset c).
(** Once the root is there. *)
Definition copy_into (plan : Plan) (resuming : bool) (source destinationProvider : Provider W)
    (destination : MutableProvider W) (checkpoint : DirCheckpoint) : DM W (Result * option error) :=
  let checkpoint := dir_map (λ c, c <| cp_Phase := PhaseStreaming |> <| cp_Outcome := "" |>) checkpoint in
  _ ← save_root checkpoint;
  if 0 <? DirectoryWorkers (plan_StreamPolicy plan)
  then streams plan checkpoint resuming source destinationProvider destination
  else
    budget ← deref (Discovery plan);
    copy_items plan budget resuming (cp_Final (dir_Checkpoint checkpoint)) source destinationProvider destination
      checkpoint.
Definition prepare (plan : Plan) (resuming : bool) (source destinationProvider : Provider W)
    (destination : MutableProvider W) (checkpoint : DirCheckpoint) : DM W (Result * option error) :=
  let final := cp_Final (dir_Checkpoint checkpoint) in
  if DirectoryRootOwned checkpoint || String.eqb (ConflictPolicy plan) ConflictOverwrite then
    _ ← calls (ensureDirectory destinationProvider destination final);
    copy_into plan resuming source destinationProvider destination checkpoint
  else
    x ← calls (prepareDirectoryRoot destinationProvider destination plan);
    let '(final, outcome, owned) := x in
    let checkpoint := dir_map (λ c, c <| cp_Final := final |>) checkpoint <| DirectoryRootOwned := owned |> in
    if negb (String.eqb outcome "") then
      _ ← call_dir_Save (dir_map (λ c, c <| cp_Phase := PhaseWaitingConflict |> <| cp_Outcome := outcome |>)
                           checkpoint);
      mret (Result_zero <| Outcome := outcome |> <| result_Final := final |>, None)
    else copy_into plan resuming source destinationProvider destination checkpoint.
Definition executeDirectory (plan : Plan) : DM W (Result * option error) :=
  source ← lift (Resolve (loc_EndpointID (ref_Location (Source plan))));
  destinationProvider ← lift (Resolve (loc_EndpointID (DestinationDirectory plan)));
  match mutable_facet destinationProvider with
  | None => throw (planError CodeUnsupported "execute_directory" (Final plan)
                     "destination mutation facet disappeared" RetryAfterReplan)
  | Some destination =>
    _ ← calls (requireFrozenCapability source (ref_Location (Source plan)) (SourceCapability plan));
    _ ← calls (requireFrozenCapability destinationProvider (Final plan) (DestinationCapability plan));
    currentSource ← calls (stat source (ref_Location (Source plan)));
    if negb (String.eqb (entry_Kind currentSource) EntryDirectory) ||
       negb (bool_decide (entry_Fingerprint currentSource = ref_Fingerprint (Source plan)))
    then throw (planError CodeConflict "execute_directory" (ref_Location (Source plan))
                  "frozen directory root changed" RetryAfterConflict) else
    l ← attempt (call_dir_Load (plan_JobID plan));
    match l with
    | Err err => throw (EWrap "execute directory: load checkpoint" err)
    | Ok None =>
      s ← attempt (save_root (first_root plan));
      match s with
      | Err err => throw (EWrap "execute directory: persist root intent" err)
      | Ok _ => prepare plan false source destinationProvider destination (first_root plan)
      end
    | Ok (Some checkpoint) =>
      if negb (root_matches plan checkpoint)
      then throw (EText "execute directory: checkpoint does not match frozen plan") else
      let c := dir_Checkpoint checkpoint in
      if String.eqb (cp_Phase c) PhaseCommitted
      then mret (Result_zero <| Outcome := cp_Outcome c |> <| result_Final := cp_Final c |>
                   <| Bytes := Offset c |> <| result_Items := dir_Items checkpoint |>, None)
      else prepare plan true source destinationProvider destination checkpoint
    end
  end.
End Copy.

(** What a directory did, among the events of the package: the saved checkpoints
    without the fields of their own. *)
Definition flat_event (ev : devent) : list event :=
  match ev with
  | DirCall ev => [ev]
  | DirLoad job r => [EvLoad job (match r with Ok c => Ok (dir_Checkpoint <$> c) | Err err => Err err end)]
  | DirSave checkpoint err => [EvSave (dir_Checkpoint checkpoint) err]
  | DirChild _ t _ => t
  end.
Definition flatten {W A} (m : DM W A) : M W A := λ w,
  let '(o, t, w') := m w in (o, t ≫= flat_event, w').
