(* ===== verification/DirectoryStreams.v ===== *)
(** A directory copied by streams (src/internal/transfer/directory_stream.go): a
    loop takes the items of the walk and starts a goroutine for each file, several
    of which may run at once.

    The goroutines share [directoryStreams] under its mutex; each of its methods is
    a function here.  The loop, the walk and the files' runs are a step relation
    on the loop's variables and the history: a step is an action of one of them, so
    its runs are all interleavings.  What a call finds in the world is any world's
    answer, at every step anew; a file's run makes the calls that an execution of
    its plan may make, and ends as one may end, except that its journal is the
    shared one.  Measurements and the manifest are left out, and that a context is
    cancelled is something the world may know. *)
From stdpp Require Import sorting.
From S2P Require Import Prelude Domain GoPath Provider DirectProtocol Bandwidth Plan TokenBucket Admission.
From S2P Require Import Checkpoint Effects Mutation Stream Worker Move Execute DirectoryCopy.

(** * The shared state *)
(** progress.go *)
Record TransferProgress := mkProgress {
  tp_Phase : string; tp_Bytes : Z; tp_DurableBytes : Z; tp_VerifiedBytes : Z; (* uint64 *)
}.
Record directoryStreams := mkStreams {
  ds_root : DirCheckpoint; ds_floor : Z; ds_completed : Z; ds_durable : Z; (* uint64 *)
  ds_slots : Z; ds_active : gmap string Checkpoint; ds_live : gmap string TransferProgress;
}.
#[export] Instance directoryStreams_eta : Settable directoryStreams :=
  λ s, mkStreams (ds_root s) (ds_floor s) (ds_completed s) (ds_durable s) (ds_slots s) (ds_active s) (ds_live s).
Definition sat64 (a b : Z) : Z := saturatingAdd a b max_uint64.

(** The files under way, by their names. *)
Definition sorted_active (s : directoryStreams) : list (string * Checkpoint) :=
  omap (λ name, pair name <$> ds_active s !! name)
    (merge_sort String.le (map_to_list (ds_active s)).*1).
(** [saveLocked], up to the parent's Save: the state, whose root is saved. *)
Definition saveLocked (s : directoryStreams) : directoryStreams :=
  let floor := Z.max (ds_floor s) (dir_Offset (ds_root s)) in
  let children := sorted_active s in
  let offset := foldl (λ n c, sat64 n (Offset c)) (ds_completed s) children.*2 in
  let durable := foldl (λ n c, sat64 n (durableBytes c)) (ds_durable s) children.*2 in
  let offset := Z.max offset floor in
  let root := dir_map (λ c, c <| Offset := offset |>) (ds_root s) <| DirectoryChildren := children |> in
  let root :=
    if negb (ce_Version (Completion (dir_Checkpoint root)) =? 0)
    then dir_map (λ c, c <| Completion := (Completion c)
           <| ce_DurableBytes := Z.max (ce_DurableBytes (Completion c)) (Z.min durable offset) |> |>) root
    else root in
  s <| ds_root := root |> <| ds_floor := floor |>.
Definition setItems (items : Z) (s : directoryStreams) : directoryStreams :=
  s <| ds_root := (ds_root s) <| dir_Items := items |> |>.
(** [complete], up to the save of the root. *)
Definition streams_complete (name : string) (bytes : Z) (s : directoryStreams) : directoryStreams :=
  let durable := match ds_active s !! name with Some child => durableBytes child | None => 0 end in
  saveLocked (s <| ds_durable := sat64 (ds_durable s) (Z.min bytes durable) |>
                <| ds_active := delete name (ds_active s) |> <| ds_live := delete name (ds_live s) |>
                <| ds_completed := sat64 (ds_completed s) bytes |>).
(** A file's journal: a checkpoint of a file has no children in this model. *)
Definition stream_Load (name : string) (s : directoryStreams) : option Checkpoint := ds_active s !! name.
Definition stream_Save (name : string) (child : Checkpoint) (s : directoryStreams) : result error directoryStreams :=
  match ds_active s !! name with
  | None => if ds_slots s <=? Z.of_nat (size (ds_active s))
            then Err (EText "directory stream: active checkpoint budget exhausted")
            else Ok (saveLocked (s <| ds_active := <[name := child]> (ds_active s) |>
                                   <| ds_root := (ds_root s) <| dir_CurrentPath := name |> |>))
  | Some _ => Ok (saveLocked (s <| ds_active := <[name := child]> (ds_active s) |>
                                <| ds_root := (ds_root s) <| dir_CurrentPath := name |> |>))
  end.
(** What is reported of all files together, after one of them has reported. *)
Definition unfinished (c : Checkpoint) : bool :=
  bool_decide (cp_Phase c ∈ [PhasePrepared; PhaseStreaming]).
Definition stream_ReportProgress (name : string) (p : TransferProgress) (s : directoryStreams) :
    directoryStreams * TransferProgress :=
  let s := s <| ds_live := <[name := p]> (ds_live s) |> in
  let live n := default (mkProgress "" 0 0 0) (ds_live s !! n) in
  let active := map_to_list (ds_active s) in
  (s, mkProgress
        (if bool_decide (active = []) || existsb (λ nc, unfinished nc.2) active
         then PhaseStreaming else PhaseTransferred)
        (Z.max (foldl (λ n nc, sat64 n (Z.max (Offset nc.2) (tp_Bytes (live nc.1)))) (ds_completed s) active)
           (ds_floor s))
        (durableBytes (dir_Checkpoint (ds_root s)))
        (foldl (λ n nc, sat64 n (tp_VerifiedBytes (live nc.1))) 0 active)).

(** * The start *)
Section Streams.
Context (plan : Plan).
Definition slots : Z := directoryStreamWorkers plan.
(** The entry of a file that was interrupted. *)
Definition saved_entry (relative : string) (child : Checkpoint) : Entry :=
  mkEntry (childLocation (ref_Location (Source plan)) relative) "" EntryFile
    (mkMetadata None None None None None None None) (SourceFingerprint child) None.
Definition invalid_child (relative : string) (child : Checkpoint) : bool :=
  String.eqb relative "" || negb (String.eqb (path_Clean relative) relative) || path_IsAbs relative ||
  String.eqb relative ".." || String.prefix "../" relative ||
  negb (String.eqb (cp_JobID child) (plan_JobID plan)) ||
  bool_decide (fp_Size (SourceFingerprint child) = None).
Fixpoint restore_children (final : Location) (children : list (string * Checkpoint)) (s : directoryStreams) :
    result error directoryStreams :=
  match children with
  | [] => Ok s
  | (relative, child) :: children =>
    if invalid_child relative child then Err (EText "directory stream: invalid child identity") else
    if negb (checkpointMatchesPlan child (directoryFilePlan plan (saved_entry relative child) relative final))
    then Err (EText "directory stream: child checkpoint does not match plan")
    else restore_children final children (s <| ds_active := <[relative := child]> (ds_active s) |>)
  end.
Definition start_streams (root : DirCheckpoint) : result error directoryStreams :=
  if slots <? Z.of_nat (length (DirectoryChildren root))
  then Err (EText "directory stream: invalid active checkpoint budget")
  else restore_children (cp_Final (dir_Checkpoint root)) (DirectoryChildren root)
         (mkStreams root (dir_Offset root) 0 0 slots ∅ ∅).

(** * The loop's variables *)
(** A file that is copied: its item and its plan, and what its run has done. *)
Record child := mkChild { ch_name : string; ch_entry : Entry; ch_plan : Plan; ch_trace : list event }.
Definition answer_of : Type := result error (Result * option error).
(** [active] counts the goroutines whose end was not accepted. *)
Inductive place :=
| AtSaved (children : list (string * Checkpoint)) (* the interrupted files, the first of which runs *)
| AtWalk                     (* DiscoverDirectory *)
| AtNext                     (* for item := range items *)
| AtSlot (item : DiscoveredItem)  (* until there is room *)
| AtOthers (item : DiscoveredItem) (* drain, in front of what is not a file *)
| AtItem (item : DiscoveredItem)
| AtControl (item : DiscoveredItem)
| AtAct (item : DiscoveredItem)
| AtDrain | AtFailures | AtSave
| AtEnd (answer : Result * option error).
Record loop := mkLoop {
  lp_place : place; lp_streams : directoryStreams; lp_result : Result;
  lp_walk : producer; lp_queue : list DiscoveredItem;
  lp_active : Z; (* int *) lp_requests : Z; (* uint32 *)
  lp_running : list child; lp_done : list (child * answer_of);
  lp_stop : option error; lp_conflict : option Result;
}.
#[export] Instance loop_eta : Settable loop :=
  λ l, mkLoop (lp_place l) (lp_streams l) (lp_result l) (lp_walk l) (lp_queue l) (lp_active l)
    (lp_requests l) (lp_running l) (lp_done l) (lp_stop l) (lp_conflict l).
Definition item_cost (entry : Entry) : Z := directoryRequestCost plan (fp_Size (entry_Fingerprint entry)).
Definition no_room (l : loop) (item : DiscoveredItem) : bool :=
  (lp_active l =? slots) ||
  (0 <? lp_active l) && (directoryRequestBudget <? u32 (lp_requests l + item_cost (item_Entry item))).
Definition stopped (l : loop) : bool := bool_decide (is_Some (lp_stop l)) || bool_decide (is_Some (lp_conflict l)).
Definition stop_with (err : error) (l : loop) : loop :=
  l <| lp_stop := Some (default err (lp_stop l)) |>.
Definition count_one (l : loop) : loop :=
  l <| lp_result := (lp_result l) <| result_Items := u64 (result_Items (lp_result l) + 1) |> |>.

(** [accept]: the end of a file is taken; a completed one is completed in the
    shared state as well, and what its save says is [saved]. *)
Definition accept (c : child) (answer : answer_of) (saved : option error) (l : loop) : loop * option DirCheckpoint :=
  let l := l <| lp_requests := u32 (lp_requests l - item_cost (ch_entry c)) |>
             <| lp_active := lp_active l - 1 |> in
  let '(r, failure) := match answer with Ok a => a | Err err => (Result_zero, Some err) end in
  match failure with
  | Some err =>
    if continuableDirectoryItemError err then
      (count_one (stop_with PartialItemsError
         (l <| lp_result := (lp_result l) <| Failed_ := u64 (Failed_ (lp_result l) + 1) |> |>)), None)
    else (stop_with err l, None)
  | None =>
    if String.eqb (Outcome r) OutcomeWaitingConflict then (l <| lp_conflict := Some r |>, None) else
    let result := succeeded ((lp_result l) <| Bytes := u64 (Bytes (lp_result l) + Bytes r) |>) in
    let s := streams_complete (ch_name c) (Bytes r) (setItems (u64 (result_Items result + 1)) (lp_streams l)) in
    let l := count_one (l <| lp_result := result |> <| lp_streams := s |>) in
    (match saved with Some err => stop_with err l | None => l end, Some (ds_root s))
  end.
(** A goroutine is started for a file. *)
Definition launch (item : DiscoveredItem) (l : loop) : loop :=
  let final := cp_Final (dir_Checkpoint (ds_root (lp_streams l))) in
  let entry := item_Entry item in
  l <| lp_active := lp_active l + 1 |> <| lp_requests := u32 (lp_requests l + item_cost entry) |>
    <| lp_running := lp_running l ++
         [mkChild (item_RelativePath item) entry (directoryFilePlan plan entry (item_RelativePath item) final) []] |>
    <| lp_place := AtNext |>.
(** An item that needed no goroutine is counted and completed; its save may fail. *)
Definition finish_item (item : DiscoveredItem) (bytes : Z) (saved : option error) (result : Result) (l : loop) :
    loop * DirCheckpoint :=
  let l := count_one (l <| lp_result := result |>) in
  let s := streams_complete (item_RelativePath item) bytes (setItems (result_Items (lp_result l)) (lp_streams l)) in
  (match saved with
   | Some err => l <| lp_stop := Some err |> <| lp_place := AtDrain |>
   | None => l <| lp_place := AtNext |>
   end <| lp_streams := s |>, ds_root s).
(** The last save: the root as it ends, the result and the error. *)
Definition ending (l : loop) : loop :=
  let s := lp_streams l in
  let root := (ds_root s) <| dir_Items := result_Items (lp_result l) |> <| dir_CurrentPath := "" |> in
  let with_root f := l <| lp_streams := s <| ds_root := dir_map f root |> |> in
  match lp_conflict l, lp_stop l with
  | Some conflict, _ =>
    let l := with_root (λ c, c <| cp_Phase := PhaseWaitingConflict |> <| cp_Outcome := OutcomeWaitingConflict |>) in
    l <| lp_result := (lp_result l) <| Outcome := OutcomeWaitingConflict |>
           <| result_Final := result_Final conflict |> <| PartRetained := true |> |>
  | None, None =>
    with_root (λ c,
      let c := c <| cp_Phase := PhaseCommitted |> <| cp_Outcome := OutcomeCompleted |> in
      if String.eqb (Verification plan) VerifySHA256 then recordContentVerified c else c)
  | None, Some _ =>
    if negb (Failed_ (lp_result l) =? 0) then
      let l := with_root (λ c, c <| cp_Outcome := OutcomeCompletedPartial |>) in
      l <| lp_result := (lp_result l) <| Outcome := OutcomeCompletedPartial |> |>
    else with_root (λ c, c)
  end.
Definition final_answer (saved : option error) (l : loop) : Result * option error :=
  match saved with
  | Some err => (lp_result l, Some err)
  | None =>
    match lp_stop l with
    | Some err =>
      if is_sentinel "transfer paused" err || is_sentinel "transfer canceled" err
      then ((lp_result l) <| Bytes := dir_Offset (ds_root (lp_streams l)) |>
              <| PartRetained := negb (bool_decide (ds_active (lp_streams l) = ∅)) |>, Some err)
      else (lp_result l, Some err)
    | None => (lp_result l, None)
    end
  end.
End Streams.

(** * What happens, as steps *)
Inductive sevent :=
| SCall (ev : event)                   (* of the loop and the walk *)
| SChild (plan : Plan) (ev : event)    (* of a file's run *)
| SEnd (plan : Plan) (answer : answer_of) (* a file's run ends *)
| SSave (root : DirCheckpoint) (err : option error).

(** What a handler may do, and how it may end, in some world. *)
Definition does {W A} (m : M W A) (t : list event) (o : outcome A) : Prop := ∃ w w', m w = (o, t, w').

(** A call of a file's run on its journal is one on the shared state. *)
Inductive journal_call (name : string) (s : directoryStreams) : event → directoryStreams → list sevent → Prop :=
| journal_load job : journal_call name s (EvLoad job (Ok (stream_Load name s))) s []
| journal_save child s' err : stream_Save name child s = Ok s' →
    journal_call name s (EvSave child err) s' [SSave (ds_root s') err]
| journal_refuse child e : stream_Save name child s = Err e → journal_call name s (EvSave child (Some e)) s []
| journal_report phase bytes durable verified err :
    journal_call name s (EvReport phase bytes durable err)
      (stream_ReportProgress name (mkProgress phase bytes durable verified) s).1 []
| journal_other ev :
    match ev with EvLoad _ _ | EvSave _ _ | EvReport _ _ _ _ => False | _ => True end →
    journal_call name s ev s [].

Section Steps.
Context {W V H : Type} `{Hash H} (worker : Worker W).
Context (plan : Plan) (budget : DiscoveryBudget) (resuming : bool).
Context (source destinationProvider : Provider W) (destination : MutableProvider W).
(** The workers of the files: their world has the files' own variables as well. *)
Context (file_worker : Worker V → Prop).
Local Abbreviation root := (ref_Location (Source plan)).

Definition may_do (p : Plan) (t : list event) : Prop :=
  ∃ worker w o t' w', file_worker worker ∧ executeFile (H := H) worker p w = (o, t', w') ∧ t `prefix_of` t'.
Definition may_end (p : Plan) (t : list event) (answer : answer_of) : Prop :=
  ∃ worker w w', file_worker worker ∧ attempt (executeFile (H := H) worker p) w = (Returned answer, t, w').

(** validateOwnedDirectoryStreamItem *)
Definition validate_stream_item (item : DiscoveredItem) (location : Location) : M W (bool * Z) :=
  let entry := item_Entry item in
  if negb (String.eqb (entry_Kind entry) EntryFile)
  then validateOwnedDirectoryItem (H := H) worker plan source destinationProvider item location else
  r ← attempt (stat destinationProvider location);
  match r with
  | Err err => if IsCode err CodeNotFound then mret (false, 0) else throw err
  | Ok found =>
    let filePlan := directoryFilePlan plan entry (path_Base (item_RelativePath item))
      (mkLocation (loc_EndpointID location) (path_Dir (loc_Path location))) in
    let verify p l fp := verifyFile (H := H) (w_scheduler worker) (w_control worker) (w_ctx_Err worker)
      (w_fuel worker) (w_journal worker) filePlan None p l fp streamPacketBytes in
    sourceHash ← verify source (entry_Location entry) (entry_Fingerprint entry);
    targetHash ← verify destinationProvider location (entry_Fingerprint found);
    if negb (String.eqb sourceHash targetHash)
    then throw (planError CodeConflict "resume_directory" location
                  "completed directory item content changed" RetryAfterConflict) else
    match md_Size (entry_Metadata found) with
    | None => throw (EText "directory stream: completed file has no size")
    | Some size => mret (true, size)
    end
  end.

Definition at_place (p : place) (l : loop) : loop := l <| lp_place := p |>.
Definition after_walk (x : walked) (l : loop) : loop :=
  match x with
  | Walking k => l <| lp_walk := inl k |>
  | Ended failure => l <| lp_walk := inr failure |>
  | Found item next =>
    l <| lp_queue := lp_queue l ++ [item] |>
      <| lp_walk := match next with Ok k => inl k | Err err => inr (Some err) end |>
  end.
Definition item_location (l : loop) (item : DiscoveredItem) : Location :=
  childLocation (cp_Final (dir_Checkpoint (ds_root (lp_streams l)))) (item_RelativePath item).
Definition saves (root : DirCheckpoint) (saved : option error) : list sevent := [SSave root saved].
(** An accepted end, and what it saved. *)
Definition accepted (c : child) (answer : answer_of) (saved : option error) (rest : list (child * answer_of))
    (l : loop) : loop * list sevent :=
  let '(l, root) := accept plan c answer saved (l <| lp_done := rest |>) in
  (l, match root with Some root => saves root saved | None => [] end).
Definition main_place (l : loop) : bool := match lp_place l with AtSaved _ | AtWalk | AtEnd _ => false | _ => true end.

Inductive sstep (l : loop) : list sevent → loop → Prop :=
(* a file's run *)
| step_call c before after ev s t :
    lp_running l = before ++ c :: after → may_do (ch_plan c) (ch_trace c ++ [ev]) →
    journal_call (ch_name c) (lp_streams l) ev s t →
    sstep l (t ++ [SChild (ch_plan c) ev])
      (l <| lp_streams := s |>
         <| lp_running := before ++ mkChild (ch_name c) (ch_entry c) (ch_plan c) (ch_trace c ++ [ev]) :: after |>)
| step_end c before after answer :
    main_place l = true → lp_running l = before ++ c :: after → may_end (ch_plan c) (ch_trace c) answer →
    sstep l [SEnd (ch_plan c) answer]
      (l <| lp_running := before ++ after |> <| lp_done := lp_done l ++ [(c, answer)] |>)
(* the walk *)
| step_walk k t x :
    lp_walk l = inl k → (hands_over root k = true → Z.of_nat (length (lp_queue l)) < QueueItems budget) →
    does (walk_step source root budget k) t (Returned x) → sstep l (SCall <$> t) (after_walk x l)
| step_walk_canceled k err :
    lp_walk l = inl k → hands_over root k = true → sstep l [] (l <| lp_walk := inr (Some err) |>)
(* the files that were interrupted, one by one *)
| step_saved_start name child rest :
    lp_place l = AtSaved ((name, child) :: rest) → lp_running l = [] →
    sstep l [] (l <| lp_running :=
      [mkChild name (saved_entry plan name child)
         (directoryFilePlan plan (saved_entry plan name child) name
            (cp_Final (dir_Checkpoint (ds_root (lp_streams l))))) []] |>)
| step_saved_fails first rest c answer err :
    lp_place l = AtSaved (first :: rest) → lp_running l = [c] → may_end (ch_plan c) (ch_trace c) answer →
    (answer = Err err ∨ ∃ r, answer = Ok (r, Some err)) →
    sstep l [SEnd (ch_plan c) answer] (at_place (AtEnd (lp_result l, Some err)) (l <| lp_running := [] |>))
| step_saved_conflict first rest c r :
    lp_place l = AtSaved (first :: rest) → lp_running l = [c] →
    may_end (ch_plan c) (ch_trace c) (Ok (r, None)) → Outcome r = OutcomeWaitingConflict →
    sstep l [SEnd (ch_plan c) (Ok (r, None))] (at_place (AtEnd (r, None)) (l <| lp_running := [] |>))
| step_saved_done first rest c r saved s :
    lp_place l = AtSaved (first :: rest) → lp_running l = [c] →
    may_end (ch_plan c) (ch_trace c) (Ok (r, None)) → Outcome r ≠ OutcomeWaitingConflict →
    s = streams_complete (ch_name c) 0 (lp_streams l) →
    sstep l ([SEnd (ch_plan c) (Ok (r, None))] ++ saves (ds_root s) saved)
      (at_place (match saved with Some err => AtEnd (lp_result l, Some err) | None => AtSaved rest end)
         (l <| lp_running := [] |> <| lp_streams := s |>))
| step_saved_all : lp_place l = AtSaved [] → lp_running l = [] → sstep l [] (at_place AtWalk l)
| step_discover t k :
    lp_place l = AtWalk → does (DiscoverDirectory source root budget) t (Returned k) →
    sstep l (SCall <$> t) (at_place AtNext (l <| lp_walk := inl k |>))
| step_discover_fails t err :
    lp_place l = AtWalk → does (DiscoverDirectory source root budget) t (Failed err) →
    sstep l (SCall <$> t) (at_place (AtEnd (lp_result l, Some err)) l)
(* the loop *)
| step_item item queue :
    lp_place l = AtNext → lp_queue l = item :: queue →
    sstep l [] (at_place (if stopped l then AtDrain else AtSlot item) (l <| lp_queue := queue |>))
| step_closed failure :
    lp_place l = AtNext → lp_queue l = [] → lp_walk l = inr failure → sstep l [] (at_place AtDrain l)
| step_slot_wait item c answer rest saved l' t :
    lp_place l = AtSlot item → no_room plan l item = true → lp_done l = (c, answer) :: rest →
    accepted c answer saved rest l = (l', t) →
    sstep l t (at_place (if stopped l' then AtDrain else AtSlot item) l')
| step_slot item :
    lp_place l = AtSlot item → no_room plan l item = false →
    sstep l [] (at_place (if String.eqb (entry_Kind (item_Entry item)) EntryFile then AtItem item
                          else AtOthers item) l)
| step_others_wait item c answer rest saved l' t :
    lp_place l = AtOthers item → lp_done l = (c, answer) :: rest → accepted c answer saved rest l = (l', t) →
    sstep l t (at_place (AtOthers item) l')
| step_others item :
    lp_place l = AtOthers item → lp_active l = 0 →
    sstep l [] (at_place (if stopped l then AtDrain else AtItem item) l)
| step_unvalidated item :
    lp_place l = AtItem item → resuming && DirectoryRootOwned (ds_root (lp_streams l)) = false →
    sstep l [] (at_place (AtControl item) l)
| step_invalid item t err :
    lp_place l = AtItem item → resuming && DirectoryRootOwned (ds_root (lp_streams l)) = true →
    does (validate_stream_item item (item_location l item)) t (Failed err) →
    sstep l (SCall <$> t) (at_place AtDrain (l <| lp_stop := Some err |>))
| step_absent item t bytes :
    lp_place l = AtItem item → resuming && DirectoryRootOwned (ds_root (lp_streams l)) = true →
    does (validate_stream_item item (item_location l item)) t (Returned (false, bytes)) →
    sstep l (SCall <$> t) (at_place (AtControl item) l)
| step_valid item t bytes saved l' saved_root :
    lp_place l = AtItem item → resuming && DirectoryRootOwned (ds_root (lp_streams l)) = true →
    does (validate_stream_item item (item_location l item)) t (Returned (true, bytes)) →
    finish_item item bytes saved (succeeded ((lp_result l) <| Bytes := u64 (Bytes (lp_result l) + bytes) |>)) l =
      (l', saved_root) →
    sstep l ((SCall <$> t) ++ saves saved_root saved) l'
| step_control item checkpoint action :
    lp_place l = AtControl item →
    sstep l [SCall (EvControl checkpoint action)]
      (match action with
       | ControlContinue => at_place (AtAct item) l
       | ControlPause => at_place AtDrain (l <| lp_stop := Some ErrPaused |>)
       | ControlCancel => at_place AtDrain (l <| lp_stop := Some ErrCanceled |>)
       end)
| step_launch item :
    lp_place l = AtAct item → entry_Kind (item_Entry item) = EntryFile → sstep l [] (launch plan item l)
| step_directory item t saved l' saved_root :
    lp_place l = AtAct item → entry_Kind (item_Entry item) = EntryDirectory →
    does (ensureDirectory destinationProvider destination (item_location l item)) t (Returned tt) →
    finish_item item 0 saved (succeeded (lp_result l)) l = (l', saved_root) →
    sstep l ((SCall <$> t) ++ saves saved_root saved) l'
| step_directory_fails item t err :
    lp_place l = AtAct item → entry_Kind (item_Entry item) = EntryDirectory →
    does (ensureDirectory destinationProvider destination (item_location l item)) t (Failed err) →
    sstep l (SCall <$> t) (at_place AtDrain (l <| lp_stop := Some err |>))
| step_skipped item saved l' saved_root :
    lp_place l = AtAct item → entry_Kind (item_Entry item) ≠ EntryFile →
    entry_Kind (item_Entry item) ≠ EntryDirectory →
    finish_item item 0 saved ((lp_result l) <| Skipped := u64 (Skipped (lp_result l) + 1) |>) l = (l', saved_root) →
    sstep l (saves saved_root saved) l'
(* the end *)
| step_drain_wait c answer rest saved l' t :
    lp_place l = AtDrain → lp_done l = (c, answer) :: rest → accepted c answer saved rest l = (l', t) →
    sstep l t (at_place AtDrain l')
| step_drained : lp_place l = AtDrain → lp_active l = 0 → sstep l [] (at_place AtFailures l)
| step_failures failure :
    lp_place l = AtFailures → stopped l = false → lp_walk l = inr failure →
    sstep l [] (at_place AtSave (l <| lp_stop := failure |>))
| step_no_failures : lp_place l = AtFailures → stopped l = true → sstep l [] (at_place AtSave l)
| step_save l' saved s :
    lp_place l = AtSave → l' = ending plan l → s = saveLocked (lp_streams l') →
    sstep l (saves (ds_root s) saved)
      (at_place (AtEnd (final_answer saved (l' <| lp_streams := s |>))) (l' <| lp_streams := s |>)).

(** From the root as it was saved, the loop's variables when the streams start. *)
Definition start_loop (s : directoryStreams) : loop :=
  mkLoop (AtSaved (DirectoryChildren (ds_root s))) s
    (Result_zero <| Outcome := OutcomeCompleted |> <| result_Final := cp_Final (dir_Checkpoint (ds_root s)) |>)
    (inr None) [] 0 0 [] [] None None.
Inductive streams_run (start : DirCheckpoint) : list sevent → loop → Prop :=
| streams_start s : start_streams plan start = Ok s → streams_run start [] (start_loop s)
| streams_step h l t l' : streams_run start h l → sstep l t l' → streams_run start (h ++ t) l'.
End Steps.
