(* ===== verification/Manager.v ===== *)
(** The transfer manager (src/internal/transfer/manager.go): it creates jobs from
    plans that the planner froze, runs their plans, and records in the store of
    jobs how each run ended.

    The manager's goroutines run these operations side by side.  What others do
    between two calls of an operation is the world's: every call is a function of
    it.  The sections under [manager.mu] are single steps on the memory. *)
From S2P Require Import Prelude Job ResourceLedger Bandwidth Domain GoPath Provider DirectProtocol Plan Admission.
From S2P Require Import PlanRecord JobTables JobStore Checkpoint Effects Logic Mutation Planner Stream Worker.
From S2P Require Import Move Execute DirectoryCopy DirectoryStreams.

(** The maps that the manager encodes as event payloads. *)
Record ErrorPayload := mkErrorPayload {
  ep_error : string;
  ep_operation : option (string * string * string);  (* code, retry, effect *)
  ep_preserved : option (string * bool);             (* preserved_destination, preservation_unknown *)
}.
Inductive Payload :=
| PReason (reason : string)
| PEmpty
| POffset (bytes : Z)
(* sha256, and the planned route, the actual route, its reason and the route given up *)
| PVerifying (sha256 : option string) (routes : option (string * string * string * string))
| PTerminal (result : Result) (moveReason : string)
| PPartial (result : Result)
| PError (e : ErrorPayload)
| PFallback
| PControl (pause cancel : option bool).

(** The ends of a conflict: a FileRef, and a map with the final location. *)
Inductive ConflictText := TextPlanned (source : JSON) | TextFinal (final : Location).

Inductive job_call :=
| GetCall (job : string) (r : result error Snapshot)
| PlanCall (job : string) (r : result error Plan)
| ConflictsCall (job : string) (failure : option error)
| CreateCall (job : string) (r : result error Snapshot)
| TransitionCall (request : TransitionRequest Payload) (r : result error Snapshot)
| ControlCall (request : ControlRequest Payload) (r : result error Snapshot)
| OpenCall (job : string) (expected : Z) (class : string) (failure : option error)
| ResolveCall (request : ResolveConflictRequest) (r : result error Snapshot)
(* not a call: how the execution of the job's plan ended *)
| Executed (job : string) (r : Result) (failure : option error).

(** * The manager's events

    A call of the store, or one that a handler of the package made for it. *)
Inductive mevent := EvJob (call : job_call) | Within (ev : event).
Abbreviation MM := (ME mevent).
Definition embed {W A} (m : M W A) : MM W A := λ w,
  let '(o, t, w') := m w in (o, Within <$> t, w').

(** * The manager *)
(** * Its parts *)
(** [L] are the leases it holds: of a queue place or of an execution's resources,
    and of what a resolver acquired for a plan. *)
Record Memory (L : Type) := mkMemory {
  started : bool; upgradePrepared : bool; activeExecutions : Z;
  waiters : gmap string (list nat); (* the channels that wait for a change *)
  channels : nat; (* how many have been made *)
  leases : gmap string L; queueLeases : gmap string L;
  transitionErrors : gmap string error; progress : gmap string TransferProgress;
}.
Arguments mkMemory {L}. Arguments started {L}. Arguments upgradePrepared {L}.
Arguments activeExecutions {L}. Arguments waiters {L}. Arguments channels {L}. Arguments leases {L}.
Arguments queueLeases {L}. Arguments transitionErrors {L}. Arguments progress {L}.
#[export] Instance Memory_eta L : Settable (Memory L) :=
  λ m, mkMemory (started m) (upgradePrepared m) (activeExecutions m) (waiters m) (channels m)
    (leases m) (queueLeases m) (transitionErrors m) (progress m).

(** The store of jobs as the manager uses it.  It is handed what the manager
    encodes; the maps and locations among it have an encoding always. *)
Record ManagerStore (W : Type) := mkManagerStore {
  ms_Get : string → W → result error Snapshot * W;
  ms_GetPlan : string → W → result error (PlanRecord JSON) * W;
  ms_List : Z → W → result error (list Snapshot) * W;
  ms_ListConflicts : string → W → result error (list (ConflictRecord JSON)) * W;
  ms_Create : CreateRequest JSON → W → result error (Snapshot * bool) * W;
  ms_Transition : TransitionRequest Payload → W → result error (Snapshot * bool) * W;
  ms_UpdateControl : ControlRequest Payload → W → result error (Snapshot * bool) * W;
  ms_OpenConflict : OpenConflictRequest ConflictText → W → option error * W;
  ms_ResolveConflict : ResolveConflictRequest → W → result error Snapshot * W;
  ms_RecoverInterrupted : Time → W → option error * W;
  (* the lease that keeps helper artifacts, until it is released *)
  ms_AcquireHelperJobAdmission : W → option error * W;
  ms_ReleaseHelperJobAdmission : W → W;
}.
Arguments mkManagerStore {W}. Arguments ms_Get {W}. Arguments ms_GetPlan {W}. Arguments ms_List {W}.
Arguments ms_ListConflicts {W}. Arguments ms_Create {W}. Arguments ms_Transition {W}.
Arguments ms_UpdateControl {W}. Arguments ms_OpenConflict {W}. Arguments ms_ResolveConflict {W}.
Arguments ms_RecoverInterrupted {W}. Arguments ms_AcquireHelperJobAdmission {W}.
Arguments ms_ReleaseHelperJobAdmission {W}.

(** The scheduler's admission of resources, and the resolver's of plans. *)
Record Admission (W L : Type) := mkAdmission {
  ad_TryAcquireResources : ResourceRequest → W → result error L * W;
  ad_AcquireResources : ResourceRequest → W → result error L * W;
  ad_ReleaseJob : string → W → W;
  ad_AcquirePlan : option (Plan → W → result error L * W); (* PlanAcquirer *)
  ad_Release : L → W → W;
}.
Arguments mkAdmission {W L}. Arguments ad_TryAcquireResources {W L}. Arguments ad_AcquireResources {W L}.
Arguments ad_ReleaseJob {W L}. Arguments ad_AcquirePlan {W L}. Arguments ad_Release {W L}.

Record Manager (W L : Type) := mkManager {
  mg_store : ManagerStore W;
  mg_admission : Admission W L;
  mg_Resolve : string → result error (Provider W);
  mg_planner : Planner W;
  mg_sameHost : option (SameHostCopyRegistry W);
  mg_bandwidth : option (bandwidthScheduler W);
  mg_generator : W → Generator * W;
  mg_now : W → Time * W;
  mg_retryDelay : Z;               (* time.Duration *)
  mg_queueCapacity : Z;
  mg_send : string → W → bool * W; (* manager.queue <- jobID, or the context ends first *)
  mg_stopped : W → bool;           (* manager.ctx.Err() != nil *)
  mg_ctx_Err : W → option error;
  (* JobJournal{StepIndex: 0}, with an observer *)
  mg_journal : option (string → Z → Z → W → option error * W) → Journal W;
  mg_memory : W → Memory L;
  mg_set_memory : Memory L → W → W;
  (* the walk of a directory, and the waits of a reader for a change *)
  mg_cancels : W → option error; mg_ahead : W → bool;
  mg_select : nat → W → option error * W;
  (* the same journal for a directory, and Worker.executeDirectoryStreams, of
     which nothing is known here *)
  mg_dir_journal : option (string → Z → Z → W → option error * W) → DirJournal W;
  mg_streams : Worker W → Plan → DirCheckpoint → bool → Provider W → Provider W → MutableProvider W →
    DM W (Result * option error);
  mg_fuel : nat;
}.
Arguments mkManager {W L}. Arguments mg_store {W L}.
Arguments mg_admission {W L}. Arguments mg_Resolve {W L}. Arguments mg_planner {W L}.
Arguments mg_sameHost {W L}. Arguments mg_bandwidth {W L}. Arguments mg_generator {W L}.
Arguments mg_now {W L}. Arguments mg_retryDelay {W L}. Arguments mg_queueCapacity {W L}.
Arguments mg_send {W L}. Arguments mg_stopped {W L}. Arguments mg_ctx_Err {W L}.
Arguments mg_journal {W L}. Arguments mg_memory {W L}. Arguments mg_set_memory {W L}.
Arguments mg_cancels {W L}. Arguments mg_ahead {W L}. Arguments mg_select {W L}.
Arguments mg_dir_journal {W L}. Arguments mg_streams {W L}. Arguments mg_fuel {W L}.

Section Manager.
Context {W L H : Type} `{Hash H} (manager : Manager W L).
Local Abbreviation store := (mg_store manager).
Local Abbreviation admission := (mg_admission manager).

(** * Calls of the store *)
Definition job_call_event {A} (ev : result error A → job_call) (call : W → result error A * W) : MM W A :=
  λ w, let '(r, w') := call w in answer (EvJob (ev r)) r w'.
Definition note (ev : job_call) : MM W () := λ w, (Returned tt, [EvJob ev], w).
Definition store_Get (job : string) : MM W Snapshot := job_call_event (GetCall job) (ms_Get store job).
(** The plan's record is decoded at once. *)
Definition store_GetPlan (job : string) : MM W Plan :=
  job_call_event (PlanCall job) (λ w,
    let '(r, w') := ms_GetPlan store job w in
    (match r with
     | Err err => Err (EWrap "execute Job: load durable plan" err)
     | Ok record => map_err (EWrap "execute Job: decode durable plan") (DecodePlan record job)
     end, w')).
Definition store_ListConflicts (job : string) : MM W (list (ConflictRecord JSON)) :=
  job_call_event (λ r, ConflictsCall job (match r with Ok _ => None | Err e => Some e end))
    (ms_ListConflicts store job).
Definition first_of {A B} (r : result error (A * B)) : result error A :=
  match r with Ok (a, _) => Ok a | Err e => Err e end.
Definition store_Create (request : CreateRequest JSON) : MM W Snapshot :=
  job_call_event (CreateCall (create_JobID request)) (λ w,
    let '(r, w') := ms_Create store request w in (first_of r, w')).

(** * Memory and time *)
Definition recall {A} (f : Memory L → A) : MM W A := peek (λ w, f (mg_memory manager w)).
Definition remember (f : Memory L → Memory L) : MM W () :=
  tick (λ w, (tt, mg_set_memory manager (f (mg_memory manager w)) w)).
Definition step_memory {A} (f : Memory L → A * Memory L) : MM W A :=
  tick (λ w, let '(a, m) := f (mg_memory manager w) in (a, mg_set_memory manager m w)).
Definition act (f : W → W) : MM W () := tick (λ w, (tt, f w)).
Definition now : MM W Time := tick (mg_now manager).
Definition new_identifier (new : option Generator → result IDError string) : MM W string :=
  g ← tick (mg_generator manager);
  lift (map_err (λ _, EText "generate ID") (new (Some g))).

Definition notify (job : string) : MM W () := remember (λ m, m <| waiters := delete job (waiters m) |>).
Definition recordTransitionError (job : string) (failure : error) : MM W () :=
  _ ← remember (λ m, m <| transitionErrors := <[job := failure]> (transitionErrors m) |>);
  notify job.
Definition transitionError (job : string) : MM W (option error) := recall (λ m, transitionErrors m !! job).

(** * Transitions *)
Definition transitionRequest (snapshot : Snapshot) (to : State) (kind : string) (payload : Payload)
    (retryAt : option Time) (summary : option string) : MM W Snapshot :=
  eventID ← new_identifier NewEventID;
  time ← now;
  let request := mkTransition (snap_JobID snapshot) (snap_StateVersion snapshot) to eventID kind
                   payload retryAt summary time in
  updated ← job_call_event (TransitionCall request) (λ w,
    let '(r, w') := ms_Transition store request w in (first_of r, w'));
  _ ← notify (snap_JobID snapshot);
  mret updated.
Definition transition (snapshot : Snapshot) (to : State) (kind : string) (payload : Payload) : MM W Snapshot :=
  transitionRequest snapshot to kind payload None None.
Definition transitionRetry (snapshot : Snapshot) (retryAt : Time) (payload : Payload) : MM W Snapshot :=
  transitionRequest snapshot StateRetryWait "job_retry_wait" payload (Some retryAt) None.
Definition nextRetryAt : MM W Time := time ← now; mret (time + mg_retryDelay manager).
Definition transitionTerminal (snapshot : Snapshot) (to : State) (kind summary : string) (payload : Payload) :
    MM W Snapshot := transitionRequest snapshot to kind payload None (Some summary).
(** errors.Join, of which the first operation error is looked for. *)
Definition errors_Join (a b : error) : error := match as_op a with Some _ => EWrap "" a | None => EWrap "" b end.
Definition persistTerminal (snapshot : Snapshot) (to : State) (kind summary : string) (payload : Payload) :
    MM W Snapshot :=
  r ← attempt (transitionTerminal snapshot to kind summary payload);
  match r with
  | Ok updated => mret updated
  | Err err =>
    g ← attempt (store_Get (snap_JobID snapshot));
    match g with
    | Err getErr => throw (errors_Join err (EWrap "reload terminal transition" getErr))
    | Ok latest =>
      if State_Terminal (snap_State latest) then
        if String.eqb (snap_State latest) to then mret latest
        else throw (EWrap "terminal transition raced with state" err)
      else
      f ← attempt (transitionTerminal latest to kind summary PFallback);
      match f with
      | Err fallbackErr => throw (errors_Join err (EWrap "persist bounded terminal fallback" fallbackErr))
      | Ok updated => mret updated
      end
    end
  end.

(** * Failures *)
Definition op_fields (err : error) : option (string * string * string) :=
  match as_op err with
  | Some (EOp code _ _ _ _ retry effect _) => Some (code, retry_Kind retry, effect)
  | _ => None
  end.
Definition safeErrorSummary (err : error) : string :=
  match op_code err with Some code => code | None => "internal transfer error" end.
Definition errorPayload (err : error) : ErrorPayload := mkErrorPayload (safeErrorSummary err) (op_fields err) None.
Definition failWithPayload (snapshot : Snapshot) (failure : error) (payload : ErrorPayload) : MM W () :=
  r ← attempt (persistTerminal snapshot StateFailed "job_failed" (safeErrorSummary failure) (PError payload));
  match r with
  | Ok _ => mret tt
  | Err err => recordTransitionError (snap_JobID snapshot) (EWrap "persist terminal failure state" err)
  end.
Definition fail (snapshot : Snapshot) (failure : error) : MM W () :=
  failWithPayload snapshot failure (errorPayload failure).
(** [if _, err := m; err != nil { manager.fail(snapshot, fmt.Errorf("...: %w", err)) }]. *)
Definition or_fail_job {A} (snapshot : Snapshot) (message : string) (m : MM W A) : MM W () :=
  r ← attempt m;
  match r with Ok _ => mret tt | Err err => fail snapshot (EWrap message err) end.

Definition has_code (err : error) (codes : list string) : bool :=
  match op_code err with Some code => bool_decide (code ∈ codes) | None => false end.
(** [errors.As(err, &partial)]: a PartialItemsError in the chain. *)
Definition is_partial : error → bool := is_sentinel "PartialItemsError".
Definition handleExecutionError (snapshot : Snapshot) (executeErr : error) (result : Result) : MM W () :=
  if is_partial executeErr then
    retryAt ← nextRetryAt;
    or_fail_job snapshot "persist directory retry" (transitionRetry snapshot retryAt (PPartial result))
  else
  let preserved := negb (String.eqb (loc_Path (result_PreservedDestination result)) "") in
  let payload := errorPayload executeErr in
  let payload :=
    if preserved
    then mkErrorPayload (ep_error payload) (ep_operation payload)
           (Some (loc_Path (result_PreservedDestination result), PreservationUnknown result))
    else payload in
  if has_code executeErr [CodeAuthRequired] then
    or_fail_job snapshot "persist waiting-auth state"
      (transition snapshot StateWaitingAuth "job_waiting_auth" (PError payload)) else
  if has_code executeErr [CodeConflict; CodeAlreadyExists] then
    or_fail_job snapshot "persist waiting-conflict state"
      (transition snapshot StateWaitingConflict "job_waiting_conflict" (PError payload)) else
  if has_code executeErr [CodeTransportInterrupted; CodeTimeout; CodeResourceExhausted] then
    retryAt ← nextRetryAt;
    or_fail_job snapshot "persist retry state" (transitionRetry snapshot retryAt (PError payload)) else
  if preserved then failWithPayload snapshot executeErr payload
  else fail snapshot executeErr.

(** * Conflicts *)
Definition openConflict (snapshot : Snapshot) (plan : Plan) (final : Location) (class : string) : MM W () :=
  match Marshal JSONFileRef (Source plan) with
  | Err err => fail snapshot err
  | Ok sourceJSON =>
    e ← attempt (new_identifier NewEventID);
    match e with
    | Err err => fail snapshot err
    | Ok eventID =>
      time ← now;
      failure ← err_event (λ err, EvJob (OpenCall (snap_JobID snapshot) (snap_StateVersion snapshot) class err))
        (ms_OpenConflict store
           (mkOpenConflict (snap_JobID snapshot) (snap_StateVersion snapshot) 0 class (TextPlanned sourceJSON)
              (TextFinal final) eventID time));
      match failure with None => notify (snap_JobID snapshot) | Some _ => mret tt end
    end
  end.
Fixpoint apply_resolutions (conflicts : list (ConflictRecord JSON)) (plan : Plan) : result error Plan :=
  match conflicts with
  | [] => Ok plan
  | conflict :: conflicts =>
    if negb (String.eqb (cr_State _ conflict) "resolved") then apply_resolutions conflicts plan else
    let resolution := cr_Resolution _ conflict in
    if negb (bool_decide (resolution ∈ [ConflictOverwrite; ConflictSkip; ConflictAutoRename]))
    then Err (EText "execute Job: invalid durable conflict resolution")
    else apply_resolutions conflicts (plan <| ConflictPolicy := resolution |>)
  end.
Definition applyConflictResolution (plan : Plan) : MM W Plan :=
  conflicts ← store_ListConflicts (plan_JobID plan);
  lift (apply_resolutions conflicts plan).

(** * Execution *)
Definition control_action (r : result error Snapshot) : ControlAction :=
  match r with
  | Err _ => ControlCancel
  | Ok snapshot =>
    if snap_CancelRequested snapshot then ControlCancel else
    if snap_PauseRequested snapshot then ControlPause else ControlContinue
  end.
Definition control (job : string) : Control W :=
  let ask w := let '(r, w') := ms_Get store job w in (control_action r, w') in
  mkControl (λ _, ask) (λ _, ask).

(** The routes of a checkpoint, once its file went one. *)
Definition route_fields (plannedRoute : string) (checkpoint : option Checkpoint) :
    option (string * string * string * string) :=
  match checkpoint with
  | Some c => if negb (String.eqb (ActualRoute c) "")
              then Some (plannedRoute, ActualRoute c, RouteReason c, DowngradedFrom c) else None
  | None => None
  end.

(** progress.go *)
Definition reports_verifying (phase : string) : bool :=
  bool_decide (phase ∈ [PhaseTransferred; PhaseVerified; PhaseCommitting]).
Definition observeProgress (job plannedRoute : string) (directory : bool) (p : TransferProgress) : MM W () :=
  previous ← step_memory (λ m, (progress m !! job, m <| progress := <[job := p]> (progress m) |>));
  if directory || negb (reports_verifying (tp_Phase p)) then mret tt else
  if String.eqb (match previous with Some q => tp_Phase q | None => "" end) (tp_Phase p) then mret tt else
  snapshot ← store_Get job;
  if negb (String.eqb (snap_State snapshot) StateRunning) then mret tt else
  checkpoint ← embed (call_Load (mg_journal manager None) job);
  _ ← transition snapshot StateVerifying "job_verifying"
        (PVerifying None (route_fields plannedRoute checkpoint));
  mret tt.
Definition clearProgress (job : string) : MM W () := remember (λ m, m <| progress := delete job (progress m) |>).
(** An operation as a call of the world: its error, or none.  The worker's history
    has the call as one event, if at all; what the operation itself calls is its own
    history, that of [m] on the same world. *)
Definition as_call (m : MM W ()) : W → option error * W := λ w,
  match m w with (Failed e, _, w') => (Some e, w') | (_, _, w') => (None, w') end.

Definition Worker_Execute (worker : Worker W) (journal : DirJournal W) (plan : Plan) : M W (Result * option error) :=
  if String.eqb (ref_Kind (Source plan)) EntryDirectory then
    _ ← lift (validateExecution plan);
    if String.eqb (Route plan) RouteLevel2Direct
    then throw (planError CodeUnsupported "execute_direct" (Part plan)
                  "Level 2 data-plane fixture is not attached" RetryAfterReplan) else
    r ← flatten (executeDirectory (H := H) worker journal (mg_cancels manager) (mg_ahead manager)
                   (mg_streams manager worker) plan);
    mret (hide_digest plan r)
  else executeFile worker plan.
Definition observer (job : string) (plan : Plan) (phase : string) (bytes durable : Z) : W → option error * W :=
  as_call (observeProgress job (Route plan) (String.eqb (ref_Kind (Source plan)) EntryDirectory)
             (mkProgress phase bytes durable 0)).
Definition execution_worker (job : string) (plan : Plan) : Worker W :=
  mkWorker (mg_Resolve manager) (mg_journal manager (Some (observer job plan)))
    (mg_bandwidth manager) (Some (control job)) (mg_sameHost manager) (mg_ctx_Err manager)
    (mg_now manager) (mg_fuel manager).
Definition run_plan (job : string) (plan : Plan) : M W (Result * option error) :=
  if String.eqb (plan_Kind plan) OperationDelete then
    r ← executeDelete (mg_Resolve manager) (mg_fuel manager) plan; mret (r, None)
  else if String.eqb (plan_Kind plan) OperationMove && String.eqb (MoveStrategy plan) MoveAtomicRename then
    r ← executeAtomicMove (mg_Resolve manager) plan; mret (r, None)
  else Worker_Execute (execution_worker job plan) (mg_dir_journal manager (Some (observer job plan))) plan.
(** What came out, for the history. *)
Definition executed (job : string) (m : M W (Result * option error)) : MM W (Result * option error) :=
  r ← embed (attempt m);
  let answer := match r with Ok answer => answer | Err err => (Result_zero, Some err) end in
  _ ← note (Executed job answer.1 answer.2);
  mret answer.

Definition move_source (plan : Plan) (result : Result) : MM W (bool * string) :=
  if String.eqb (Outcome result) OutcomeSkipped then mret (false, "copy was skipped; source retained")
  else embed (finishMove (mg_Resolve manager) (mg_bandwidth manager) (Some (control (plan_JobID plan)))
         (mg_ctx_Err manager) (mg_fuel manager) (mg_journal manager None) (mg_cancels manager)
         (mg_ahead manager) plan result).
Definition complete (plan : Plan) (result : Result) (verifying : Snapshot) : MM W () :=
  let preserved := loc_Path (result_PreservedDestination result) in
  let summary := Outcome result +:+ (if negb (String.eqb preserved "")
                   then "; original remote version preserved at " +:+ preserved else "") in
  end_ ← (if String.eqb (plan_Kind plan) OperationMove then
            d ← move_source plan result;
            let '(deleted, reason) := d in
            mret (if deleted : bool
                  then (StateCompleted, "job_move_completed",
                        "destination verified and source deletion proved", reason)
                  else (StateCompletedWithSourceRetained, "job_completed_source_retained",
                        "destination completed and source retained: " +:+ reason, reason))
          else mret (StateCompleted, "job_completed", summary, ""));
  let '(terminalState, eventKind, summary, moveReason) := end_ in
  or_fail_job verifying "persist completed state"
    (persistTerminal verifying terminalState eventKind summary (PTerminal result moveReason)).
Definition settle_success (job : string) (plan : Plan) (result : Result) (current : Snapshot) : MM W () :=
  c ← attempt (embed (call_Load (mg_journal manager None) job));
  match c with
  | Err checkpointErr => handleExecutionError current checkpointErr result
  | Ok checkpoint =>
    let payload := PVerifying (Some (result_SHA256 result)) (route_fields (Route plan) checkpoint) in
    v ← (if negb (String.eqb (snap_State current) StateVerifying)
         then attempt (transition current StateVerifying "job_verifying" payload) else mret (Ok current));
    match v with
    | Err transitionErr => fail current (EWrap "persist verifying state" transitionErr)
    | Ok verifying => complete plan result verifying
    end
  end.
Definition preserved_class (result : Result) : string :=
  if negb (String.eqb (loc_Path (result_PreservedDestination result)) "")
  then "destination changed after original was preserved at " +:+ loc_Path (result_PreservedDestination result)
  else "destination_appeared".
Definition settle (job : string) (plan : Plan) (current : Snapshot) (result : Result) (failure : option error) : MM W () :=
  match failure with
  | Some err =>
    if is_sentinel "transfer paused" err then
      or_fail_job current "persist paused state"
        (transition current StatePaused "job_paused" (POffset (Bytes result))) else
    if is_sentinel "transfer canceled" err then
      or_fail_job current "persist canceled state"
        (persistTerminal current StateCanceled "job_canceled" "canceled with resumable part retained"
           (POffset (Bytes result)))
    else handleExecutionError current err result
  | None =>
    if String.eqb (Outcome result) OutcomeWaitingConflict
    then openConflict current plan (result_Final result) (preserved_class result)
    else settle_success job plan result current
  end.
Definition perform (job : string) (plan : Plan) : MM W () :=
  r ← executed job (run_plan job plan);
  stopped ← peek (mg_stopped manager);
  if stopped : bool then mret tt else
  c ← attempt (store_Get job);
  match c with
  | Err _ => mret tt
  | Ok current => settle job plan current r.1 r.2
  end.

(** * The queue and its leases *)
Definition release (l : L) : MM W () := act (ad_Release admission l).
Definition release_option (l : option L) : MM W () :=
  match l with Some l => release l | None => mret tt end.
Definition acquireQueueLease (job : string) : MM W L :=
  l ← attempt (m ← tick (ad_TryAcquireResources admission
        (mkResourceRequest job [] (mkResourceUsage 0 1 0 0 0 0 0 0 0 0) usage0 None)); lift m);
  lift (map_err (EWrap "enqueue Job: acquire queue resource") l).
Definition releaseQueueLease (job : string) : MM W () :=
  l ← step_memory (λ m, (queueLeases m !! job, m <| queueLeases := delete job (queueLeases m) |>));
  release_option l.
Definition enqueueWithLease (job : string) (l : L) : MM W () :=
  taken ← step_memory (λ m,
    match queueLeases m !! job with
    | Some _ => (true, m)
    | None => (false, m <| queueLeases := <[job := l]> (queueLeases m) |>)
    end);
  if taken : bool then
    _ ← release l;
    throw (EText "enqueue Job: Job is already queued")
  else
    sent ← tick (mg_send manager job);
    if sent : bool then mret tt
    else _ ← releaseQueueLease job; throw (EText "enqueue Job: transfer manager stopped").
Definition enqueue (job : string) : MM W () := l ← acquireQueueLease job; enqueueWithLease job l.

Definition retainLease (job : string) (l : L) : MM W () :=
  previous ← step_memory (λ m, (leases m !! job, m <| leases := <[job := l]> (leases m) |>));
  release_option previous.
Definition takeLease (job : string) : MM W (option L) :=
  step_memory (λ m, (leases m !! job, m <| leases := delete job (leases m) |>)).
Definition releaseLease (job : string) : MM W () := l ← takeLease job; release_option l.
Fixpoint release_each (ls : list L) : MM W () :=
  match ls with [] => mret tt | l :: ls => _ ← release l; release_each ls end.
Definition releaseAllLeases : MM W () :=
  ls ← step_memory (λ m, ((map_to_list (leases m)).*2 ++ (map_to_list (queueLeases m)).*2,
         m <| leases := ∅ |> <| queueLeases := ∅ |>));
  release_each ls.

(** * One turn of a worker *)
Definition finishExecution : MM W () :=
  remember (λ m, if 0 <? activeExecutions m then m <| activeExecutions := activeExecutions m - 1 |> else m).
(** A queued job is admitted, unless an upgrade has been prepared. *)
Definition admit_queued (snapshot : result error Snapshot) : MM W bool :=
  step_memory (λ m,
    match snapshot with
    | Ok s => if String.eqb (snap_State s) StateQueued && negb (upgradePrepared m)
              then (true, m <| activeExecutions := activeExecutions m + 1 |>) else (false, m)
    | Err _ => (false, m)
    end).
Definition execute_started (job : string) (plan : Plan) (snapshot : Snapshot) (leased : bool) : MM W () :=
  match ad_AcquirePlan admission, leased with
  | Some acquire, false =>
    a ← attempt (r ← tick (acquire plan); lift r);
    match a with
    | Err acquireErr => handleExecutionError snapshot acquireErr Result_zero
    | Ok l => defer (release l) (perform job plan)
    end
  | _, _ => perform job plan
  end.
Definition execute_planned (job : string) (snapshot : Snapshot) (leased : bool) (plan : Plan) : MM W () :=
  a ← attempt (applyConflictResolution plan);
  match a with
  | Err err => fail snapshot (EWrap "execute Job: apply durable conflict resolution" err)
  | Ok plan =>
    r ← attempt (r ← tick (ad_AcquireResources admission (executionResourceRequest plan)); lift r);
    match r with
    | Err err =>
      stopped ← peek (mg_stopped manager);
      if stopped : bool then mret tt
      else fail snapshot (EWrap "execute Job: acquire execution resources" err)
    | Ok resources =>
      defer (release resources) (
        t ← attempt (transition snapshot StateRunning "job_started" PEmpty);
        match t with
        | Err _ => mret tt
        | Ok snapshot => execute_started job plan snapshot leased
        end)
    end
  end.
Definition execute_admitted (job : string) (snapshot : Snapshot) (leased : bool) : MM W () :=
  p ← attempt (store_GetPlan job);
  match p with
  | Err err => fail snapshot err
  | Ok plan => defer (act (ad_ReleaseJob admission (plan_JobID plan))) (execute_planned job snapshot leased plan)
  end.
Definition execute (job : string) : MM W () :=
  l ← takeLease job;
  defer (release_option l) (
    _ ← releaseQueueLease job;
    snapshot ← attempt (store_Get job);
    admitted ← admit_queued snapshot;
    match snapshot, (admitted : bool) with
    | Ok snapshot, true =>
      defer finishExecution (defer (clearProgress job)
        (execute_admitted job snapshot (bool_decide (is_Some l))))
    | _, _ => mret tt
    end).
End Manager.

(** * What the store's answers are worth, and its calls *)
(** A snapshot that is answered is the job's that was asked for. *)
Class StoreLaw {W} (store : ManagerStore W) : Prop := {
  get_job : ∀ job w s w', ms_Get store job w = (Ok s, w') → snap_JobID s = job;
  transition_job : ∀ request w s b w',
    ms_Transition store request w = (Ok (s, b), w') → snap_JobID s = tr_JobID request;
  control_job : ∀ request w s b w',
    ms_UpdateControl store request w = (Ok (s, b), w') → snap_JobID s = co_JobID request;
}.

Section Calls.
Context {W L : Type} (manager : Manager W L) `{!StoreLaw (mg_store manager)}.
Context (R : list mevent → mevent → Prop).
Local Abbreviation obeying := (runs (W := W) R).

Lemma runs_job_call {A} h (ev : result error A → job_call) (call : W → result error A * W)
    (P : result error A → Prop) (Q : outcome A → list mevent → Prop) :
  (∀ w, P (call w).1) →
  (∀ r, P r → R h (EvJob (ev r)) ∧
     Q (match r with Ok a => Returned a | Err e => Failed e end) (h ++ [EvJob (ev r)])) →
  obeying h (job_call_event ev call) Q.
Proof.
  intros HP Hr w o t w' E. unfold job_call_event in E. specialize (HP w).
  destruct (call w) as [r w1]. cbn in HP. destruct (Hr r HP) as [HR HQ].
  destruct r; cbn in E; injection E as <- <- <-; cbn; auto.
Qed.
(** ** Steps on memory and time record nothing *)
Lemma runs_identifier {A} h new (f : string → MM W A) Q :
  (∀ id, obeying h (f id) Q) → (∀ e, Q (Failed e) h) → obeying h (new_identifier manager new ≫= f) Q.
Proof.
  intros Hf He. apply runs_bind. unfold new_identifier. apply runs_bind, runs_tick. intros g.
  cbn [then_]. apply runs_lift. destruct (new (Some g)); cbn; [apply Hf|apply He].
Qed.
Lemma runs_now {A} h (f : Time → MM W A) Q :
  (∀ t, obeying h (f t) Q) → obeying h (now manager ≫= f) Q.
Proof. intros Hf. apply runs_bind, runs_tick. intros t. apply Hf. Qed.

(** ** Snapshots, transitions and controls *)
Lemma runs_Get h job Q :
  (∀ r, (∀ s, r = Ok s → snap_JobID s = job) → R h (EvJob (GetCall job r)) ∧
     Q (match r with Ok s => Returned s | Err e => Failed e end) (h ++ [EvJob (GetCall job r)])) →
  obeying h (store_Get manager job) Q.
Proof.
  apply (runs_job_call _ _ _ (λ r, ∀ s, r = Ok s → snap_JobID s = job)).
  intros w s E. destruct (ms_Get _ job w) as [r w'] eqn:Eg. cbn in E. subst r. by eapply get_job.
Qed.
Lemma runs_transitionRequest h s to kind payload retryAt summary Q :
  (∀ request r, tr_JobID request = snap_JobID s → tr_ExpectedVersion request = snap_StateVersion s →
     tr_To request = to → (∀ s', r = Ok s' → snap_JobID s' = snap_JobID s) →
     R h (EvJob (TransitionCall request r)) ∧
     Q (match r with Ok s' => Returned s' | Err e => Failed e end) (h ++ [EvJob (TransitionCall request r)])) →
  (∀ e, Q (Failed e) h) →
  obeying h (transitionRequest manager s to kind payload retryAt summary) Q.
Proof.
  intros Hr He. apply runs_identifier; [|done]. intros id. apply runs_now. intros time. cbv zeta.
  apply runs_bind, (runs_job_call _ _ _ (λ r, ∀ s', r = Ok s' → snap_JobID s' = snap_JobID s)).
  { intros w s' E. destruct (ms_Transition _ _ w) as [r w'] eqn:Et.
    destruct r as [[s1 b]|]; cbn in E; [|done]. injection E as ->. by apply transition_job in Et as ->. }
  intros r Hs. match goal with |- context [TransitionCall ?request] =>
    destruct (Hr request r eq_refl eq_refl eq_refl Hs) as [HR HQ] end.
  split; [exact HR|].
  destruct r as [s'|e]; cbn [then_]; [|exact HQ]. apply runs_bind, runs_tick. intros []. by apply runs_ret.
Qed.
End Calls.
