(* ===== verification/ManagerRequests.v ===== *)
(** What clients ask of the transfer manager
    (src/internal/transfer/manager.go): new jobs, pause, resumption, cancellation
    and the answer to a conflict, the manager's start and the preparation of an
    upgrade, and waiting for a job. *)
From S2P Require Edit.
From S2P Require Import Prelude Job ResourceLedger Bandwidth Domain GoPath Provider DirectProtocol Plan Admission.
From S2P Require Import PlanRecord JobTables JobStore Checkpoint Effects Logic Planner Manager.

Section Requests.
Context {W L : Type} (manager : Manager W L).
Local Abbreviation store := (mg_store manager).
Local Abbreviation admission := (mg_admission manager).

Definition isStarted : MM W bool := recall manager (λ m, started m && negb (upgradePrepared m)).
Definition require_started (message : string) : MM W () :=
  s ← isStarted; if s : bool then mret tt else throw (EText message).

(** * New jobs *)
(** [manager.generator.New("plan_")]. *)
Definition new_plan_id : MM W string :=
  g ← tick (mg_generator manager); lift (map_err (λ _, EText "generate plan ID") (g "plan_")).
(** [r, err := m; if err != nil { cleanup; return err }]. *)
Definition or_else {A} (cleanup : MM W ()) (m : MM W A) : MM W A :=
  r ← attempt m;
  match r with Ok a => mret a | Err err => _ ← cleanup; throw err end.
Definition acquire_plan (plan : Plan) : MM W (option L) :=
  match ad_AcquirePlan admission with
  | Some acquire => r ← tick (acquire plan); l ← lift r; mret (Some l)
  | None => mret None
  end.
Definition retain_option (job : string) (l : option L) : MM W () :=
  match l with Some l => retainLease manager job l | None => mret tt end.

(** The part that all new jobs share: the leases, the row, the queue. *)
Definition submit (plan : Plan) (create : CreateRequest JSON) (queued_as : Snapshot → string) : MM W Snapshot :=
  queueLease ← acquireQueueLease manager (plan_JobID plan);
  acquired ← or_else (release manager queueLease) (acquire_plan plan);
  snapshot ← or_else (_ ← release manager queueLease; release_option manager acquired)
               (store_Create manager create);
  _ ← retain_option (snap_JobID snapshot) acquired;
  _ ← or_else (releaseLease manager (snap_JobID snapshot))
        (enqueueWithLease manager (queued_as snapshot) queueLease);
  mret snapshot.

(** A copy may have to wait for its confirmation: then it is not queued.  The
    store may know the request already, and answer with a job in another state. *)
Definition submit_copy (plan : Plan) (create : CreateRequest JSON) : MM W Snapshot :=
  let queued := String.eqb (create_InitialState create) StateQueued in
  queueLease ← (if queued then l ← acquireQueueLease manager (plan_JobID plan); mret (Some l) else mret None);
  acquired ← (if queued then or_else (release_option manager queueLease) (acquire_plan plan) else mret None);
  snapshot ← or_else (_ ← release_option manager queueLease; release_option manager acquired)
               (store_Create manager create);
  if String.eqb (snap_State snapshot) StateQueued then
    _ ← retain_option (snap_JobID snapshot) acquired;
    _ ← or_else (releaseLease manager (snap_JobID snapshot))
          (match queueLease with
           | Some l => enqueueWithLease manager (plan_JobID plan) l
           | None => throw (EText "enqueue Job: queue resource lease is required")
           end);
    mret snapshot
  else
    _ ← release_option manager queueLease;
    _ ← release_option manager acquired;
    mret snapshot.

Definition needs_helper (intent : Intent) : bool :=
  let source := int_Source intent in
  bool_decide (is_Some (mg_sameHost manager)) && String.eqb (ref_Kind source) EntryFile &&
  negb (String.eqb (loc_EndpointID (ref_Location source)) "") &&
  String.eqb (loc_EndpointID (ref_Location source)) (loc_EndpointID (int_DestinationDirectory intent)).
Definition new_identity : MM W RequestIdentity :=
  requestID ← new_identifier manager NewRequestID;
  jobID ← new_identifier manager NewJobID;
  eventID ← new_identifier manager NewEventID;
  planID ← new_plan_id;
  mret (mkIdentity requestID planID jobID eventID 0).
Definition at_now (identity : RequestIdentity) (time : Time) : RequestIdentity :=
  mkIdentity (id_RequestID identity) (id_PlanID identity) (id_JobID identity) (id_EventID identity) time.

Definition CreateCopy (intent : Intent) : MM W Snapshot :=
  _ ← require_started "create copy Job: transfer manager is not started";
  identity ← new_identity;
  let create :=
    time ← now manager;
    p ← embed (FreezeCopy (mg_planner manager) (mkFreezeRequest intent (at_now identity time)));
    submit_copy p.1 p.2 in
  if needs_helper intent then
    admitted ← tick (ms_AcquireHelperJobAdmission store);
    match admitted with
    | Some err => throw (EWrap "create copy Job: acquire Helper admission lease" err)
    | None => defer (act (ms_ReleaseHelperJobAdmission store)) create
    end
  else create.
Definition CreateSyncBack (syncBack : Edit.SyncBackRequest) (source : FileRef) : MM W Snapshot :=
  _ ← require_started "create sync-back Job: transfer manager is not started";
  requestID ← new_identifier manager NewRequestID;
  jobID ← new_identifier manager NewJobID;
  eventID ← new_identifier manager NewEventID;
  bindingEventID ← new_identifier manager NewEventID;
  planID ← new_plan_id;
  time ← now manager;
  p ← embed (FreezeSyncBack (mg_planner manager)
        (mkSyncBackFreezeRequest syncBack source (mkIdentity requestID planID jobID eventID time) bindingEventID));
  submit p.1 p.2 (λ _, plan_JobID p.1).
Definition CreateDelete (intent : DeleteIntent) : MM W Snapshot :=
  _ ← require_started "create delete Job: transfer manager is not started";
  identity ← new_identity;
  time ← now manager;
  p ← embed (FreezeDelete (mg_planner manager) (mkDeleteFreezeRequest intent (at_now identity time)));
  submit p.1 p.2 snap_JobID.

(** * Control *)
Definition updateControl (snapshot : Snapshot) (pause cancel : option bool) (kind : string) : MM W Snapshot :=
  eventID ← new_identifier manager NewEventID;
  time ← now manager;
  let request := mkControlRequest (snap_JobID snapshot) (snap_StateVersion snapshot) pause cancel
                   eventID kind (PControl pause cancel) time in
  updated ← job_call_event (ControlCall request) (λ w,
    let '(r, w') := ms_UpdateControl store request w in (first_of r, w'));
  _ ← notify manager (snap_JobID snapshot);
  mret updated.
Definition state_in (snapshot : Snapshot) (states : list State) : bool :=
  bool_decide (snap_State snapshot ∈ states).

Definition Pause (job : string) : MM W Snapshot :=
  snapshot ← store_Get manager job;
  if state_in snapshot [StatePaused] then mret snapshot else
  if state_in snapshot [StateQueued] then
    paused ← transition manager snapshot StatePaused "job_paused" (PReason "user");
    _ ← releaseLease manager job;
    mret paused
  else if negb (state_in snapshot [StateRunning; StateVerifying])
  then throw (EText "pause Job: state cannot be paused")
  else updateControl snapshot (Some true) None "job_pause_requested".

(** The job's queue item is still pending: it was paused before its turn. *)
Definition pending_item (job : string) : MM W bool :=
  recall manager (λ m, bool_decide (is_Some (queueLeases m !! job))).
Definition resume_queued (job : string) (snapshot : Snapshot) : MM W Snapshot :=
  queueLease ← acquireQueueLease manager job;
  snapshot ← (if snap_PauseRequested snapshot
              then or_else (release manager queueLease)
                     (updateControl snapshot (Some false) None "job_pause_cleared")
              else mret snapshot);
  let eventKind := if state_in snapshot [StateRetryWait] then "job_retried" else "job_resumed" in
  queued ← or_else (release manager queueLease)
             (transition manager snapshot StateQueued eventKind (PReason "user"));
  _ ← enqueueWithLease manager job queueLease;
  mret queued.
Definition Resume (job : string) : MM W Snapshot :=
  snapshot ← store_Get manager job;
  if negb (state_in snapshot [StatePaused; StateWaitingAuth; StateRetryWait])
  then throw (EText "resume Job: state cannot be resumed") else
  if state_in snapshot [StatePaused] then
    pending ← pending_item job;
    if pending : bool then transition manager snapshot StateQueued "job_resumed" (PReason "user")
    else resume_queued job snapshot
  else resume_queued job snapshot.

Definition Cancel (job : string) : MM W Snapshot :=
  snapshot ← store_Get manager job;
  if State_Terminal (snap_State snapshot) then mret snapshot else
  if state_in snapshot [StateRunning; StateVerifying]
  then updateControl snapshot None (Some true) "job_cancel_requested" else
  canceled ← transitionTerminal manager snapshot StateCanceled "job_canceled" "canceled before execution"
               (PReason "user");
  _ ← releaseLease manager job;
  mret canceled.

(** The last conflict that waits, or -1. *)
Definition waiting_conflict (conflicts : list (ConflictRecord JSON)) : Z :=
  foldl (λ index c, if String.eqb (cr_State _ c) "waiting" then cr_ConflictIndex _ c else index) (-1) conflicts.
Definition Manager_ResolveConflict (job resolution : string) (applyAll : bool) : MM W Snapshot :=
  if negb (bool_decide (resolution ∈ [ConflictOverwrite; ConflictSkip; ConflictAutoRename]))
  then throw (EText "resolve conflict: resolution must be overwrite, skip, or auto_rename") else
  snapshot ← store_Get manager job;
  conflicts ← store_ListConflicts manager job;
  let index := waiting_conflict conflicts in
  if index <? 0 then throw (EText "resolve conflict: Job has no waiting conflict") else
  queueLease ← acquireQueueLease manager job;
  queued ← or_else (release manager queueLease) (
    eventID ← new_identifier manager NewEventID;
    time ← now manager;
    let request := mkResolveConflict job index (snap_StateVersion snapshot) resolution
                     (if applyAll then "job" else "item") eventID time in
    job_call_event (ResolveCall request) (ms_ResolveConflict store request));
  _ ← notify manager job;
  _ ← enqueueWithLease manager job queueLease;
  mret queued.

(** * Start, upgrade and end *)
Definition PrepareUpgrade : MM W () :=
  r ← step_memory manager (λ m,
    if upgradePrepared m then (true, m) else
    if negb (activeExecutions m =? 0) then (false, m) else (true, m <| upgradePrepared := true |>));
  if r : bool then mret tt else throw (ESentinel "transfer manager has active Jobs").
Definition queueCapacity : Z := Z.min (mg_queueCapacity manager) 1000.
Fixpoint enqueue_queued (jobs : list Snapshot) : MM W () :=
  match jobs with
  | [] => mret tt
  | snapshot :: jobs =>
    _ ← (if String.eqb (snap_State snapshot) StateQueued
         then enqueue manager (snap_JobID snapshot) else mret tt);
    enqueue_queued jobs
  end.
(** The workers, which take jobs from the queue and execute them, run beside. *)
Definition Start : MM W () :=
  first ← step_memory manager (λ m, (negb (started m), m <| started := true |>));
  if negb first then throw (EText "start transfer manager: already started") else
  time ← now manager;
  failure ← tick (ms_RecoverInterrupted store time);
  match failure with
  | Some err => throw (EWrap "start transfer manager: recover interrupted Jobs" err)
  | None =>
    r ← tick (ms_List store queueCapacity);
    jobs ← lift (map_err (EWrap "start transfer manager: list Jobs") r);
    enqueue_queued jobs
  end.

(** * Waiting *)
Definition add_waiter (job : string) : MM W nat :=
  step_memory manager (λ m,
    (channels m, m <| channels := S (channels m) |>
                   <| waiters := <[job := default [] (waiters m !! job) ++ [channels m]]> (waiters m) |>)).
Fixpoint remove_first (c : nat) (l : list nat) : list nat :=
  match l with
  | [] => []
  | x :: l => if bool_decide (x = c) then l else x :: remove_first c l
  end.
Definition removeWaiter (job : string) (c : nat) : MM W () :=
  remember manager (λ m,
    match waiters m !! job with
    | Some l => m <| waiters := <[job := remove_first c l]> (waiters m) |>
    | None => m
    end).
(** A snapshot comes with the error of a transition that could not be recorded. *)
Fixpoint waitUntil (turns : nat) (job : string) (done_ : State → bool) : MM W (Snapshot * option error) :=
  match turns with
  | O => running
  | S turns =>
    snapshot ← store_Get manager job;
    if done_ (snap_State snapshot) then mret (snapshot, None) else
    failed ← transitionError manager job;
    match failed with
    | Some err => mret (snapshot, Some err)
    | None =>
      changed ← add_waiter job;
      latest ← or_else (removeWaiter job changed) (store_Get manager job);
      if done_ (snap_State latest) then _ ← removeWaiter job changed; mret (latest, None) else
      failed ← transitionError manager job;
      match failed with
      | Some err => _ ← removeWaiter job changed; mret (latest, Some err)
      | None =>
        ended ← tick (mg_select manager changed);
        match ended with
        | Some err => _ ← removeWaiter job changed; throw err
        | None => waitUntil turns job done_
        end
      end
    end
  end.
Definition Wait_job (job : string) : MM W (Snapshot * option error) :=
  waitUntil (mg_fuel manager) job State_Terminal.
Definition WaitForState (job : string) (state : State) : MM W (Snapshot * option error) :=
  if negb (State_Valid state) then throw (EText "wait for Job state: invalid state")
  else waitUntil (mg_fuel manager) job (λ current, String.eqb current state).
End Requests.

(** * What requests may do *)
Inductive user_request := UserPause | UserResume | UserCancel.
Definition handle {W L} (manager : Manager W L) (u : user_request) : string → MM W Snapshot :=
  match u with UserPause => Pause manager | UserResume => Resume manager | UserCancel => Cancel manager end.

(** The state, and the change of the flags, that each request is for. *)
Definition wanted (u : user_request) : State :=
  match u with UserPause => StatePaused | UserResume => StateQueued | UserCancel => StateCanceled end.
Definition flags (u : user_request) : option bool * option bool :=
  match u with
  | UserPause => (Some true, None) | UserResume => (Some false, None) | UserCancel => (None, Some true)
  end.

(** Allowed once the store has answered [s] and the calls [h] have been made: a
    transition of the job that the state machine has, from the version answered or,
    after the withdrawal of a pause, from the one that the store answered to that;
    or, before anything else, a change of the flags. *)
Definition active (s : Snapshot) : Prop := snap_State s ∈ [StateRunning; StateVerifying].
Definition legal (u : user_request) (job : string) (s : Snapshot) (h : list mevent) (ev : mevent) : Prop :=
  match ev with
  | EvJob (TransitionCall request _) =>
    tr_JobID request = job ∧ tr_To request = wanted u ∧
    (State_Valid (snap_State s) = true → job_step (snap_State s) (tr_To request)) ∧
    (h = [] ∧ tr_ExpectedVersion request = snap_StateVersion s ∨
     ∃ control v, h = [EvJob (ControlCall control (Ok v))] ∧
       (co_PauseRequested control, co_CancelRequested control) = (Some false, None) ∧
       tr_ExpectedVersion request = snap_StateVersion v)
  | EvJob (ControlCall request _) =>
    h = [] ∧ co_JobID request = job ∧ co_ExpectedVersion request = snap_StateVersion s ∧
    (co_PauseRequested request, co_CancelRequested request) = flags u ∧
    match u with
    | UserResume => ¬ active s ∧ snap_PauseRequested s = true
    | _ => active s
    end
  | _ => False
  end.

Section Facts.
Context {W L : Type} (manager : Manager W L) `{!StoreLaw (mg_store manager)}.
Context (u : user_request) (job : string) (s : Snapshot) (Hjob : snap_JobID s = job).
Local Abbreviation ok := (runs (W := W) (legal u job s)).
Local Abbreviation any := (λ _ _, True).

(** Calls that are not of the store record nothing. *)
Lemma ok_then {A B} h (m : MM W A) (f : A → MM W B) V :
  ok h m (returning V) → (∀ a h', V a h' → ok h' (f a) any) → ok h (m ≫= f) any.
Proof.
  intros Hm Hf. apply runs_bind. eapply runs_conseq; [exact Hm|].
  intros [a|e| |] h' Hp HV; cbn in *; [by apply Hf|done..].
Qed.
Lemma ok_or_else {A} h (cleanup : MM W ()) (m : MM W A) V :
  (∀ h', ok h' cleanup any) → ok h m (returning V) → ok h (or_else cleanup m) (returning V).
Proof.
  intros Hc Hm. apply runs_bind, runs_attempt. eapply runs_conseq; [exact Hm|].
  intros [a|e| |] h' _ HV; cbn in *; [by apply runs_ret| |done..].
  apply runs_bind. eapply runs_conseq; [apply Hc|]. intros [[]|e'| |] h2 _ _; [by apply runs_throw|done..].
Qed.
Lemma ok_act h f : ok h (act f) any.
Proof. by apply runs_tick. Qed.
Lemma ok_releaseLease h j : ok h (releaseLease manager j) any.
Proof. apply runs_bind, runs_tick. intros [l|]; [apply ok_act|by apply runs_ret]. Qed.
Lemma ok_releaseQueueLease h j : ok h (releaseQueueLease manager j) any.
Proof. apply runs_bind, runs_tick. intros [l|]; [apply ok_act|by apply runs_ret]. Qed.
Lemma ok_acquireQueueLease {A} h j (f : L → MM W A) :
  (∀ l, ok h (f l) any) → ok h (acquireQueueLease manager j ≫= f) any.
Proof.
  intros Hf. eapply ok_then with (V := λ _ h', h' = h); [|by intros l h' ->].
  unfold acquireQueueLease. apply runs_bind, runs_attempt, runs_bind, runs_tick. intros r. cbn [then_].
  apply runs_lift. destruct r; apply runs_lift; by cbn.
Qed.
Lemma ok_enqueueWithLease {A} h j l (f : () → MM W A) :
  (∀ h', ok h' (f tt) any) → ok h (enqueueWithLease manager j l ≫= f) any.
Proof.
  intros Hf. eapply ok_then with (V := any); [|by intros [] h' _].
  unfold enqueueWithLease. apply runs_bind, runs_tick. intros []; cbn [then_].
  - apply runs_bind, runs_tick. intros []. by apply runs_throw.
  - apply runs_bind, runs_tick. intros []; cbn [then_]; [by apply runs_ret|].
    apply runs_bind, (runs_conseq _ _ _ any); [apply ok_releaseQueueLease|].
    intros [[]|e| |] h' _ _; cbn [then_]; [by apply runs_throw|done..].
Qed.

(** The two calls of the store. *)
Lemma ok_transition v h to kind payload retryAt summary :
  snap_JobID v = job → to = wanted u → (State_Valid (snap_State s) = true → job_step (snap_State s) to) →
  (h = [] ∧ v = s ∨ ∃ control, h = [EvJob (ControlCall control (Ok v))] ∧
     (co_PauseRequested control, co_CancelRequested control) = (Some false, None)) →
  ok h (transitionRequest manager v to kind payload retryAt summary) any.
Proof.
  intros Hv -> Hs Hh. apply runs_transitionRequest; [done| |done]. intros request r Ej Ev Et _.
  split; [|done]. cbn. rewrite Ej, Et. split; [done|]. split; [done|]. split; [done|].
  destruct Hh as [[-> ->]|(control & -> & Hc)]; [by left|right]. by exists control, v.
Qed.
Lemma ok_updateControl kind :
  match u with UserResume => ¬ active s ∧ snap_PauseRequested s = true | _ => active s end →
  ok [] (updateControl manager s (flags u).1 (flags u).2 kind)
    (returning (λ v h, snap_JobID v = job ∧ ∃ control, h = [EvJob (ControlCall control (Ok v))] ∧
       (co_PauseRequested control, co_CancelRequested control) = flags u)).
Proof.
  intros Hu. apply runs_identifier; [|done]. intros id. apply runs_now. intros time. cbv zeta.
  apply runs_bind, (runs_job_call _ _ _ _ (λ r, ∀ v, r = Ok v → snap_JobID v = job)).
  { intros w v E. destruct (ms_UpdateControl _ _ w) as [r w'] eqn:Ec.
    destruct r as [[s1 b]|]; cbn in E; [|done]. injection E as ->. by apply control_job in Ec as ->. }
  intros r Hv. split; [cbn; rewrite <-surjective_pairing; by destruct u|].
  destruct r as [v|e]; cbn [then_]; [|done]. apply runs_bind, runs_tick. intros []. apply runs_ret.
  split; [by apply Hv|]. eexists. split; [done|]. cbn. by rewrite <-surjective_pairing.
Qed.
End Facts.

(** What is neither ended nor under way can be canceled. *)
Lemma waiting_cancelable s : State_Valid s = true → State_Terminal s = false →
  s ∉ [StateRunning; StateVerifying] → job_step s StateCanceled.
Proof.
  unfold State_Valid. intros Hv Ht Ha. apply existsb_exists in Hv as (x & Hx & Es).
  apply String.eqb_eq in Es as <-. rewrite !not_elem_of_cons in Ha. destruct Ha as (Hr & Hf & _).
  cbn in Hx. repeat (destruct Hx as [<-|Hx]; [first [reflexivity|discriminate|done]|]). done.
Qed.

Section Handlers.
Context {W L : Type} (manager : Manager W L) `{!StoreLaw (mg_store manager)}.
Context (job : string) (s : Snapshot) (Hjob : snap_JobID s = job).
Local Abbreviation any := (λ _ _, True).
Lemma runs_anyway {A} (R : list mevent → mevent → Prop) h (m : MM W A) Q : runs R h m Q → runs R h m any.
Proof. intros Hm. eapply runs_conseq; [exact Hm|done]. Qed.

Lemma ok_resume_queued : snap_State s ∈ [StatePaused; StateWaitingAuth; StateRetryWait] →
  runs (legal UserResume job s) [] (resume_queued manager job s) any.
Proof.
  intros Hs. assert (¬ active s ∧ job_step (snap_State s) StateQueued) as [Ha Hq].
  { unfold active, job_step. rewrite !elem_of_cons, elem_of_nil in Hs.
    destruct Hs as [->|[->|[->|[]]]]; (split; [|reflexivity]);
      by refine (bool_decide_eq_false_1 _ _). }
  apply ok_acquireQueueLease. intros l.
  eapply ok_then with (V := λ v h, snap_JobID v = job ∧
    (h = [] ∧ v = s ∨ ∃ control, h = [EvJob (ControlCall control (Ok v))] ∧
       (co_PauseRequested control, co_CancelRequested control) = (Some false, None))).
  - destruct (snap_PauseRequested s) eqn:Ep; [|apply runs_ret; cbn; auto].
    apply ok_or_else; [intros; apply ok_act|]. eapply runs_conseq.
    + by apply (ok_updateControl manager UserResume job s Hjob).
    + intros [v|e| |] h _ HV; cbn in *; [|done..]. destruct HV as [Hv Hc]. auto.
  - intros v h [Hv Hh]. eapply ok_then with (V := any).
    + apply ok_or_else; [intros; apply ok_act|]. eapply runs_conseq; [|by intros []].
      by apply (ok_transition manager UserResume job s).
    + intros queued h' _. apply ok_enqueueWithLease. intros h2. by apply runs_ret.
Qed.
Lemma pause_follows : runs (legal UserPause job s) [] (
    if state_in s [StatePaused] then mret s else
    if state_in s [StateQueued] then
      paused ← transition manager s StatePaused "job_paused" (PReason "user");
      _ ← releaseLease manager job;
      mret paused
    else if negb (state_in s [StateRunning; StateVerifying])
    then throw (EText "pause Job: state cannot be paused")
    else updateControl manager s (Some true) None "job_pause_requested") any.
Proof.
  unfold state_in. case_bool_decide; [by apply runs_ret|]. case_bool_decide as Hq.
  - apply list_elem_of_singleton in Hq. eapply ok_then with (V := any).
    { eapply runs_conseq; [|by intros []]. apply (ok_transition manager UserPause job s); auto. by rewrite Hq. }
    intros p h _. eapply ok_then with (V := any); [eapply runs_conseq; [apply ok_releaseLease|by intros []]|].
    intros [] h' _. by apply runs_ret.
  - case_bool_decide as Ha; cbn [negb]; [|by apply runs_throw].
    eapply runs_anyway. by apply (ok_updateControl manager UserPause job s Hjob).
Qed.
Lemma resume_follows : runs (legal UserResume job s) [] (
    if negb (state_in s [StatePaused; StateWaitingAuth; StateRetryWait])
    then throw (EText "resume Job: state cannot be resumed") else
    if state_in s [StatePaused] then
      pending ← pending_item manager job;
      if pending : bool then transition manager s StateQueued "job_resumed" (PReason "user")
      else resume_queued manager job s
    else resume_queued manager job s) any.
Proof.
  unfold state_in. case_bool_decide as Hs; cbn [negb]; [|by apply runs_throw].
  case_bool_decide as Hp; [|by apply ok_resume_queued]. apply runs_bind, runs_peek.
  intros []; [|by apply ok_resume_queued]. apply list_elem_of_singleton in Hp.
  apply (ok_transition manager UserResume job s); auto. by rewrite Hp.
Qed.
Lemma cancel_follows : runs (legal UserCancel job s) [] (
    if State_Terminal (snap_State s) then mret s else
    if state_in s [StateRunning; StateVerifying]
    then updateControl manager s None (Some true) "job_cancel_requested" else
    canceled ← transitionTerminal manager s StateCanceled "job_canceled" "canceled before execution"
                 (PReason "user");
    _ ← releaseLease manager job;
    mret canceled) any.
Proof.
  destruct (State_Terminal _) eqn:Et; [by apply runs_ret|]. unfold state_in. case_bool_decide as Ha.
  { eapply runs_anyway. by apply (ok_updateControl manager UserCancel job s Hjob). }
  eapply ok_then with (V := any).
  { eapply runs_conseq; [|by intros []]. apply (ok_transition manager UserCancel job s); auto.
    intros Hv. by apply waiting_cancelable. }
  intros c h _. eapply ok_then with (V := any); [eapply runs_conseq; [apply ok_releaseLease|by intros []]|].
  intros [] h' _. by apply runs_ret.
Qed.
End Handlers.

(** C21: pause, resumption and cancellation ask only for what the state machine of
    jobs allows.  Each asks the store for the job first, and then makes at most two
    calls of the store, all for that job.  A transition is the one that the request
    is for and one of the machine's from the state answered; it names the version
    answered, or, in a resumption that has withdrawn a pause just before, the
    version that the store answered to that.  A pause or cancellation of work under
    way is asked of a running or verifying job only, by the flag that stands for it
    and for the version answered; a pause is withdrawn only of a job that has one
    and is not under way, and only by a resumption.  Nothing else is called, and if
    the store does not answer nothing is asked. *)
Theorem user_requests_legal {W L} (manager : Manager W L) `{!StoreLaw (mg_store manager)} u job w :
  ∃ r t o w', handle manager u job w = (o, EvJob (GetCall job r) :: t, w') ∧
    match r with
    | Ok s => ∀ pre ev post, t = pre ++ ev :: post → legal u job s pre ev
    | Err e => t = [] ∧ o = Failed e
    end.
Proof.
  assert (∀ f : Snapshot → MM W Snapshot,
    (∀ s, snap_JobID s = job → runs (legal u job s) [] (f s) (λ _ _, True)) → ∃ r t o w',
    (store_Get manager job ≫= f) w = (o, EvJob (GetCall job r) :: t, w') ∧
    match r with
    | Ok s => ∀ pre ev post, t = pre ++ ev :: post → legal u job s pre ev
    | Err e => t = [] ∧ o = Failed e end) as Hall.
  { intros f Hf. unfold mbind, M_bind, store_Get, job_call_event.
    destruct (ms_Get _ job w) as [[s|e] w1] eqn:Eg; cbn.
    - destruct (f s w1) as [[o t] w2] eqn:Ef. exists (Ok s), t, o, w2. split; [done|].
      destruct (Hf s (get_job _ _ _ _ Eg) w1 o t w2 Ef) as [Ho _].
      intros pre ev post Et. exact (obeys_split _ [] t pre ev post Ho Et).
    - exists (Err e). eauto 6. }
  destruct u; cbn [handle]; apply Hall; intros s Hs;
    [by apply pause_follows|by apply resume_follows|by apply cancel_follows].
Qed.
