(* ===== verification/StreamFacts.v ===== *)
(** What a read returns, what a verified file's digest is of, and that loops
    which make progress end. *)
From S2P Require Import Prelude Domain GoPath Provider DirectProtocol Bandwidth Plan Checkpoint.
From S2P Require Import Effects Logic Mutation Stream.

(** * The bytes of a session *)
Definition taken (size : Z) (r : IOResult) : list byte :=
  let '(n, buffer, _) := r in
  if (0 <? n) && (n <=? size) then filled size n buffer else [].
(** What the reads of a trace delivered. *)
Definition read_bytes (t : list event) : list byte :=
  concat ((λ e, match e with EvRead _ size r => taken size r | _ => [] end) <$> t).
(** The events of reading a file opened at [l]. *)
Definition reading (l : Location) (e : event) : Prop :=
  match e with
  | EvRead l' _ _ => l' = l
  | EvWait _ _ | EvReport _ _ _ _ => True
  | _ => False
  end.

Definition is_report (e : event) : Prop :=
  match e with EvReport _ _ _ _ => True | _ => False end.
Lemma read_bytes_reports t : Forall is_report t → read_bytes t = [].
Proof. induction 1 as [|e t He _ IH]; [done|]. by destruct e. Qed.
Lemma reading_report l e : is_report e → reading l e.
Proof. by destruct e. Qed.

Lemma read_bytes_app t1 t2 : read_bytes (t1 ++ t2) = read_bytes t1 ++ read_bytes t2.
Proof. unfold read_bytes. by rewrite fmap_app, concat_app. Qed.

Lemma length_filled size n buffer :
  0 ≤ n ≤ size → length (filled size n buffer) = Z.to_nat n.
Proof.
  intros Hn. unfold filled. rewrite length_take, length_app, length_take, length_replicate. lia.
Qed.
Lemma blen_filled size n buffer : 0 ≤ n ≤ size → blen (filled size n buffer) = n.
Proof. intros Hn. unfold blen. rewrite length_filled by done. lia. Qed.
Lemma blen_nil : blen [] = 0.
Proof. done. Qed.

Section Facts.
Context {W H : Type} `{Hash H}.
Context (scheduler : option (bandwidthScheduler W)) (control : option (Control W)).
Context (ctx_Err : W → option error) (Now : W → Time * W) (fuel : nat).

(** The scheduler never answers with the end of a stream. *)
Definition SchedulerLaw : Prop := ∀ s request w e w',
  scheduler = Some s → Wait s request w = (Some e, w') → is_EOF_value e = false.

Definition refusal (err : option error) : Prop :=
  SchedulerLaw → ∀ e, err = Some e → is_EOF_value e = false.

Lemma wait_loop_sees l s request turns n :
  scheduler = Some s →
  sees (reading l) (wait_loop s request turns n)
    (returning (λ err t, read_bytes t = [] ∧ refusal err)).
Proof.
  intros Es. revert n. induction turns as [|turns IH]; intros n; cbn [wait_loop].
  all: destruct (n <=? 0); [by apply sees_ret|].
  { by apply sees_running. }
  eapply (sees_seq (W := W) _ _ _ (λ _ t, t = [])); [by apply sees_peek|]. intros q t _ ->. cbn [app].
  destruct (q =? 0); [by apply sees_ret; split; [done|]; intros _ e [= <-]|].
  eapply (sees_seq (W := W) _ _ _ (λ err t, read_bytes t = [] ∧ refusal err)).
  { intros w o t w' E. unfold call_Wait, err_event in E.
    destruct (Wait s _ w) as [r w1] eqn:Ew. injection E as <- <- <-. split; [by repeat constructor|].
    split; [done|]. intros Hlaw e ->. by eapply (Hlaw s). }
  intros [err|] t Ht [Hr He]; [by apply sees_ret; cbn; rewrite app_nil_r|].
  eapply sees_conseq; [apply IH|]. intros [err| | |] t' Ht'; cbn; [|done..].
  by rewrite read_bytes_app, Hr.
Qed.

Lemma gate_if_sees l plan endpoint n :
  sees (reading l) (gate_if scheduler plan endpoint n) (returning (λ err t,
    read_bytes t = [] ∧ (endpoint = None → err = None) ∧ refusal err)).
Proof.
  unfold gate_if, gate. destruct endpoint as [endpoint|]; [|by apply sees_ret].
  destruct scheduler as [s|] eqn:Es; [|by apply sees_ret].
  eapply sees_conseq; [by apply wait_loop_sees|]. intros [err| | |] t _; cbn; [|done..].
  by intros [? ?].
Qed.

(** A stream's report, if it has one, only reports. *)
Definition reports (r : sourceStream (W := W) (H := H)) : Prop :=
  ∀ f n, ss_onRead r = Some f → emits is_report (f n).

Lemma read_stream_sees plan (r : sourceStream (W := W) (H := H)) f size turns resume :
  sees (reading (ss_location r)) (read_stream scheduler plan r f size turns resume)
    (returning (λ res t, read_bytes t = taken size res)).
Proof.
  revert resume. induction turns as [|turns IH]; intros resume; cbn [read_stream].
  all: eapply (sees_seq (W := W) _ _ _ (λ a t, match a with
         | StreamDone res => read_bytes t = taken size res
         | StreamGate _ => read_bytes t = []
         end));
    [intros w o t w' E; unfold call_ReadStream in E;
     destruct (f size _ resume w) as [[n|res] w1]; injection E as <- <- <-;
     (split; [by repeat constructor|]); cbn; [done|]; by rewrite app_nil_r|].
  all: intros [n|res] t Ht Hr; [|by apply sees_ret; cbn; rewrite app_nil_r].
  { by apply sees_running. }
  eapply sees_seq; [apply gate_if_sees|]. intros err t' Ht' (Hr' & _).
  eapply sees_conseq; [apply IH|]. intros [res| | |] t'' _; cbn; [|done..].
  by rewrite !read_bytes_app, Hr, Hr'.
Qed.

Lemma provider_read_sees plan (r : sourceStream (W := W) (H := H)) size :
  sees (reading (ss_location r)) (provider_read scheduler fuel plan r size)
    (returning (λ res t, match res with
       | inl res => read_bytes t = taken size res
       | inr e => read_bytes t = [] ∧ (SchedulerLaw → is_EOF_value e = false)
       end)).
Proof.
  unfold provider_read. destruct (ReadStream (ss_handle r)) as [f|].
  { eapply sees_seq; [apply read_stream_sees|]. intros res t _ Ht. apply sees_ret. cbn.
    by rewrite app_nil_r. }
  eapply sees_seq; [apply gate_if_sees|]. intros [err|] t Ht (Hr & _ & He).
  { apply sees_ret. cbn. rewrite app_nil_r. split; [done|]. intros. by eapply He. }
  assert (∀ call, sees (reading (ss_location r)) (read_event (W := W) (ss_location r) size call)
            (returning (λ res t, read_bytes t = taken size res))) as Hcall.
  { intros call. apply sees_read_event. intros res. split; [done|]. cbn. by rewrite app_nil_r. }
  assert (∀ call, sees (reading (ss_location r))
            (res ← read_event (W := W) (ss_location r) size call; mret (inl (B := error) res))
            (returning (λ b t', match b with
               | inl res => read_bytes (t ++ t') = taken size res
               | inr e => read_bytes (t ++ t') = [] ∧ (SchedulerLaw → is_EOF_value e = false)
               end))) as Hc.
  { intros call. eapply sees_seq; [apply Hcall|]. intros res t' _ Ht'. apply sees_ret. cbn.
    by rewrite !read_bytes_app, Hr, app_nil_r. }
  unfold call_ReadAhead, call_Read. destruct (ReadAhead (ss_handle r)) as [f|]; [|apply Hc].
  destruct (ss_readAhead r); apply Hc.
Qed.

Lemma packet_size_le (r : sourceStream (W := W) (H := H)) size : packet_size r size ≤ size.
Proof. unfold packet_size. lia. Qed.

(** One read: the bytes are what the provider delivered, the digest has taken
    them, and only a refused admission loses any, with its error. *)
Definition read_post (r : sourceStream (W := W) (H := H)) (size : Z)
    (o : sourceStream (W := W) (H := H) * ReadResult) (t : list event) : Prop :=
  let '(r', (bytes, err)) := o in
  blen bytes ≤ size ∧ (r' = r ∧ bytes = [] ∨ r' = stream_read_by r bytes) ∧
  (read_bytes t = bytes ∨
   ss_beforeWrite r ≠ None ∧ bytes = [] ∧ is_Some err ∧ refusal err) ∧
  (bytes = [] → size ≠ 0 → is_Some err).
Lemma sourceStream_Read_sees plan (r : sourceStream (W := W) (H := H)) size :
  reports r → 0 ≤ size →
  sees (reading (ss_location r)) (sourceStream_Read scheduler ctx_Err fuel plan r size)
    (returning (read_post r size)).
Proof.
  intros Hrep Hsize. unfold sourceStream_Read.
  eapply (sees_seq (W := W) _ _ _ (λ _ t, t = [])); [by apply sees_peek|]. intros [err|] t _ ->.
  { apply sees_ret. cbn. naive_solver. }
  destruct (Z.eqb_spec size 0) as [Hs0|Hs0]; [by apply sees_ret; cbn; naive_solver|].
  pose proof (packet_size_le r size) as Hle.
  eapply sees_seq; [apply provider_read_sees|]. intros [[[n buffer] err]|err] t Ht Hr.
  2:{ apply sees_ret. cbn. rewrite app_nil_r. naive_solver. }
  cbn [app]. unfold taken in Hr. rewrite Z.gtb_ltb.
  destruct (Z.ltb_spec n 0); cbn [orb].
  { apply sees_ret. cbn. rewrite app_nil_r. replace (0 <? n) with false in Hr by lia.
    cbn in Hr. rewrite Hr. naive_solver. }
  destruct (Z.ltb_spec (packet_size r size) n).
  { apply sees_ret. cbn. rewrite app_nil_r.
    replace (n <=? packet_size r size) with false in Hr by lia. rewrite andb_false_r in Hr.
    rewrite Hr. naive_solver. }
  destruct (Z.eqb_spec n 0) as [-> |Hn0].
  { apply sees_ret. cbn. rewrite app_nil_r. cbn in Hr. rewrite Hr. destruct err; naive_solver. }
  replace (0 <? n) with true in Hr by lia. replace (n <=? packet_size r size) with true in Hr by lia.
  cbn [andb] in Hr. set (bytes := filled (packet_size r size) n buffer) in *.
  assert (blen bytes = n) as Hb by (apply blen_filled; lia).
  eapply sees_seq; [apply gate_if_sees|]. intros [e|] t' Ht' (Hr' & Hn' & He).
  { apply sees_ret. cbn. rewrite blen_nil. split_and!; [lia|by left| |by eauto].
    right. split_and!; [|done|by eauto|done]. intros Hb'. by specialize (Hn' Hb'). }
  assert (∀ e r2 t2, read_bytes t2 = [] → r2 = stream_read_by r bytes →
    blen bytes ≤ size ∧ (r2 = r ∧ bytes = [] ∨ r2 = stream_read_by r bytes) ∧
    (read_bytes (t ++ t' ++ t2) = bytes ∨
     ss_beforeWrite r ≠ None ∧ bytes = [] ∧ is_Some e ∧ refusal e) ∧
    (bytes = [] → size ≠ 0 → is_Some e)) as Hend.
  { intros e r2 t2 Ht2 ->. rewrite !read_bytes_app, Hr, Hr', Ht2, !app_nil_r.
    split_and!; [lia|by right|by left|]. intros Hnil. rewrite Hnil, blen_nil in Hb. lia. }
  eapply (sees_seq (W := W) _ _ _ (λ _ t, read_bytes t = [])).
  { destruct (ss_onRead (stream_read_by r bytes)) as [f|] eqn:Ef; [|by apply sees_ret].
    eapply sees_conseq.
    - eapply sees_weaken; [|apply reading_report]. apply sees_emits. by apply Hrep.
    - intros [err'| | |] t2 _ [Ht2 _]; cbn; [|done..]. by apply read_bytes_reports. }
  intros [e|] t2 _ Ht2; apply sees_ret; cbn [returning]; rewrite app_nil_r; by apply Hend.
Qed.

(** * Copying

    An invariant of [io.CopyBuffer]: [I] before a turn, [J] with bytes read that
    are still to be written and the error read with them.  [t0] is what happened
    before. *)
Lemma copy_loop_sees {S D} P (read : S → Z → M W (S * ReadResult))
    (write : D → list byte → M W (D * (Z * option error))) size
    (I : S → D → Z → list event → Prop)
    (J : S → D → Z → list byte → option error → list event → Prop) :
  (∀ s d n t0, I s d n t0 → sees P (read s size) (returning (λ '(s', (bytes, er)) t,
     J s' d n bytes er (t0 ++ t)))) →
  (∀ s d n bytes er t0, J s d n bytes er t0 → bytes ≠ [] →
     sees P (write d bytes) (returning (λ '(d', (nw, ew)) t,
       nw = blen bytes → ew = None → J s d' (i64 (n + nw)) [] er (t0 ++ t)))) →
  (∀ s d n t0, J s d n [] None t0 → I s d n t0) →
  ∀ turns s d n t0, I s d n t0 →
  sees P (copy_loop read write size turns s d n) (returning (λ '(s', d', (n', err)) t,
    err = None → ∃ e, is_EOF_value e = true ∧ J s' d' n' [] (Some e) (t0 ++ t))).
Proof.
  intros Hread Hwrite Hskip turns. induction turns as [|turns IH]; intros s d n t0 HI.
  { by apply sees_running. }
  cbn [copy_loop].
  assert (∀ s d n er t1, J s d n [] er (t0 ++ t1) →
    sees P (match er with
      | None => copy_loop read write size turns s d n
      | Some er => mret (s, d, (n, if is_EOF_value er then None else Some er))
      end) (returning (λ '(s', d', (n', err)) t,
        err = None → ∃ e, is_EOF_value e = true ∧ J s' d' n' [] (Some e) (t0 ++ t1 ++ t)))) as Hend.
  { intros s1 d1 n1 [er|] t1 HJ.
    - apply sees_ret. cbn. destruct (is_EOF_value er) eqn:Ee; [|done]. rewrite app_nil_r. eauto.
    - eapply sees_conseq; [apply IH, Hskip, HJ|]. intros [[[s' d'] [n' err]]| | |] t _; cbn; [|done..].
      intros HQ He. destruct (HQ He) as (e & ? & ?). exists e. by rewrite app_assoc. }
  eapply sees_seq; [by apply Hread|]. intros [s1 [bytes er]] t1 _ HJ. cbv beta iota zeta in *.
  case_bool_decide as Hb.
  { subst bytes. eapply sees_conseq; [by apply Hend|].
    intros [[[s' d'] [n' err]]| | |] t _; cbn; auto. }
  eapply sees_seq; [by eapply Hwrite|]. intros [d1 [nw ew]] t2 _ HW. cbv beta iota zeta in *.
  destruct ((nw <? 0) || (blen bytes <? nw)) eqn:Enw.
  { destruct ew; by apply sees_ret. }
  destruct ew as [ew|]; [by apply sees_ret|].
  destruct (Z.eqb_spec (blen bytes) nw) as [He|He]; cbn [negb]; [|by apply sees_ret].
  specialize (HW (eq_sym He) eq_refl). rewrite <-app_assoc in HW.
  eapply sees_conseq; [by apply (Hend _ _ _ _ (t1 ++ t2))|].
  intros [[[s' d'] [n' err]]| | |] t _; cbn; [|done..]. by rewrite <-app_assoc.
Qed.

Lemma CopyBuffer_sees {S D} P (read : S → Z → M W (S * ReadResult))
    (write : D → list byte → M W (D * (Z * option error))) size
    (I : S → D → Z → list event → Prop)
    (J : S → D → Z → list byte → option error → list event → Prop) s d :
  (0 < size → ∀ s d n t0, I s d n t0 → sees P (read s size) (returning (λ '(s', (bytes, er)) t,
     J s' d n bytes er (t0 ++ t)))) →
  (∀ s d n bytes er t0, J s d n bytes er t0 → bytes ≠ [] →
     sees P (write d bytes) (returning (λ '(d', (nw, ew)) t,
       nw = blen bytes → ew = None → J s d' (i64 (n + nw)) [] er (t0 ++ t)))) →
  (∀ s d n t0, J s d n [] None t0 → I s d n t0) →
  I s d 0 [] →
  sees P (CopyBuffer fuel read write size s d) (returning (λ '(s', d', (n', err)) t,
    err = None → ∃ e, is_EOF_value e = true ∧ J s' d' n' [] (Some e) t)).
Proof.
  intros Hr Hw Hs HI. unfold CopyBuffer. destruct (Z.leb_spec size 0); [by apply sees_panic|].
  by apply (copy_loop_sees P read write size I J (Hr ltac:(done)) Hw Hs fuel s d 0 []).
Qed.

(** * Reading back *)

(** A digest reader: what it has hashed is what it has read. *)
Definition plain (l : Location) (r : sourceStream (W := W) (H := H)) : Prop :=
  ss_location r = l ∧ ss_beforeWrite r = None ∧ reports r.
Lemma plain_read_by l (r : sourceStream (W := W) (H := H)) bytes :
  plain l r → plain l (stream_read_by r bytes).
Proof. done. Qed.

Lemma plain_Read plan l (r : sourceStream (W := W) (H := H)) size :
  plain l r → 0 ≤ size →
  sees (reading l) (sourceStream_Read scheduler ctx_Err fuel plan r size)
    (returning (λ '(r', (bytes, err)) t,
       plain l r' ∧ read_bytes t = bytes ∧ blen bytes ≤ size ∧
       (bytes = [] → size ≠ 0 → is_Some err))).
Proof.
  intros (<- & Hb & Hr) Hs. eapply sees_conseq; [by apply sourceStream_Read_sees|].
  intros [[r' [bytes err]]| | |] t _; cbn; [|done..]. intros (Hle & Hr' & Hread & Herr).
  split_and!; [|by destruct Hread as [|[]]|done|done].
  destruct Hr' as [[-> _]| ->]; [done|by apply plain_read_by].
Qed.

Context `{!HashLaws H}.

(** What has been read is what has been hashed and counted. *)
Definition hashed (h : H) (n : Z) (t : list event) : Prop :=
  h = h_write h_new (read_bytes t) ∧ n = i64 (blen (read_bytes t)).

Lemma hashed_start : hashed h_new 0 [].
Proof. split; cbn; by rewrite ?h_write_nil. Qed.

Lemma i64_add a b : i64 (i64 a + b) = i64 (a + b).
Proof.
  unfold i64. f_equal.
  replace ((a + 2 ^ 63) `mod` 2 ^ 64 - 2 ^ 63 + b + 2 ^ 63) with ((a + 2 ^ 63) `mod` 2 ^ 64 + b) by lia.
  rewrite Zplus_mod_idemp_l. f_equal. lia.
Qed.
Lemma hashed_write h n t0 t bytes :
  hashed h n t0 → read_bytes t = bytes → hashed (h_write h bytes) (i64 (n + blen bytes)) (t0 ++ t).
Proof.
  intros [-> ->] <-. split; rewrite read_bytes_app; [by rewrite h_write_app|].
  by rewrite i64_add, blen_app.
Qed.

(** [hashed], with bytes that are read and still to be hashed. *)
Definition pending (h : H) (n : Z) (bytes : list byte) (t : list event) : Prop :=
  ∃ t0 t1, t = t0 ++ t1 ∧ hashed h n t0 ∧ read_bytes t1 = bytes.
Lemma pending_read h n t0 t bytes :
  hashed h n t0 → read_bytes t = bytes → pending h n bytes (t0 ++ t).
Proof. intros. by exists t0, t. Qed.
Lemma pending_nil h n t : pending h n [] t → hashed h n t.
Proof.
  intros (t0 & t1 & -> & [-> ->] & Hr). split; by rewrite read_bytes_app, Hr, app_nil_r.
Qed.

Lemma digest_Write_sees P h n bytes t0 (Q : Prop) :
  Q → pending h n bytes t0 →
  sees P (digest_Write (W := W) h bytes) (returning (λ '(h', (nw, ew)) t,
    nw = blen bytes → ew = None → Q ∧ pending h' (i64 (n + nw)) [] (t0 ++ t))).
Proof.
  intros HQ (t1 & t2 & -> & Hh & Hr). apply sees_ret. cbn. intros _ _. split; [done|].
  rewrite app_nil_r. exists (t1 ++ t2), []. rewrite app_nil_r. split_and!; [done| |done].
  by apply hashed_write.
Qed.

(** Copying into a digest from any reader over a session. *)
Lemma copy_digest_sees {S} (proj : S → sourceStream) (read : S → Z → M W (S * ReadResult)) l size s :
  (0 < size → ∀ s, plain l (proj s) → sees (reading l) (read s size) (returning (λ '(s', (bytes, _)) t,
     plain l (proj s') ∧ read_bytes t = bytes))) →
  plain l (proj s) →
  sees (reading l) (CopyBuffer fuel read digest_Write size s h_new)
    (returning (λ '(s', d', (n', err)) t, err = None → hashed d' n' t)).
Proof.
  intros Hread Hp. eapply sees_conseq.
  - apply (CopyBuffer_sees (reading l) _ _ size (λ s d n t, plain l (proj s) ∧ hashed d n t)
             (λ s d n bytes _ t, plain l (proj s) ∧ pending d n bytes t)).
    + intros Hpos r d n t0 [Hpl Hh]. eapply sees_conseq; [by apply Hread|].
      intros [[r' [bytes err]]| | |] t _; cbn; [|done..]. intros (Hpl' & Hr).
      split; [done|]. by apply pending_read.
    + intros r d n bytes er t0 [Hpl Hpe] _. eapply sees_conseq.
      { by apply (digest_Write_sees _ d n bytes t0 (plain l (proj r))). }
      by intros [[d' [nw ew]]| | |] t _.
    + intros r d n t0 [? ?]. split; [done|]. by apply pending_nil.
    + split; [done|]. apply hashed_start.
  - intros [[[s' d'] [n' err]]| | |] t _ HQ; cbn in *; [|done..]. intros He.
    destruct (HQ He) as (_ & _ & _ & ?). by apply pending_nil.
Qed.

Lemma read_digest_sees plan l reader size buffer :
  plain l reader →
  sees (reading l) (read_digest scheduler ctx_Err fuel plan reader size buffer)
    (returning (λ '(h, n) t, hashed h n t)).
Proof.
  intros Hp. unfold read_digest. set (b := Z.min buffer streamPacketBytes).
  assert (∀ r size, plain l r → 0 ≤ size →
    sees (reading l) (sourceStream_Read scheduler ctx_Err fuel plan r size)
      (returning (λ '(s', (bytes, _)) t, plain l s' ∧ read_bytes t = bytes))) as Hr.
  { intros r sz Hr Hsz. eapply sees_conseq; [by apply plain_Read|].
    intros [[r' [bytes err]]| | |] t _; cbn; naive_solver. }
  set (U := λ (d : H * (Z * option error)) (t : list event),
    let '(h, (n, err)) := d in err = None → hashed h n t).
  eapply (sees_seq (W := W) _ _ _ U).
  { assert (∀ S (o : S * H * (Z * option error)) t,
      (let '(s', d', (n', err)) := o in err = None → hashed d' n' t) →
      sees (reading l) (mret (M := M W) (o.1.2, o.2)) (returning (λ d t', U d (t ++ t')))) as Hret.
    { intros S [[s' d'] [n' err]] t Ht. apply sees_ret. cbn. by rewrite app_nil_r. }
    destruct size as [size|].
    - eapply (sees_seq (W := W) _ _ _ (λ _ t, t = [])).
      { apply sees_lift. by destruct (checkedProviderOffset size). }
      intros limit t _ ->. cbn [app].
      eapply (sees_seq (W := W) _ _ _ _ U); [apply (copy_digest_sees snd); [|done]|intros o t' _ HV; apply (Hret _ o t'); by destruct o as [[? ?] [? ?]]].
      intros Hpos [rem r] Hpl. unfold limit_read. destruct (Z.leb_spec rem 0); [by apply sees_ret|].
      eapply sees_seq; [apply Hr; [done|]; rewrite Z.gtb_ltb; destruct (rem <? b); lia|].
      intros [r' [bytes err]] t _ [? ?]. apply sees_ret. cbn. by rewrite app_nil_r.
    - eapply (sees_seq (W := W) _ _ _ _ U); [apply (copy_digest_sees id); [|done]|intros o t' _ HV; apply (Hret _ o t'); by destruct o as [[? ?] [? ?]]].
      intros Hpos r Hpl. apply Hr; [done|lia]. }
  intros [h [n err]] t _ Ht. eapply (sees_seq (W := W) _ _ _ (λ _ t, t = [] ∧ err = None)).
  { apply sees_or_return. by destruct err. }
  intros _ t' _ [-> He]. apply sees_ret. cbn. rewrite !app_nil_r. auto.
Qed.

(** The events of reading back the file [l]. *)
Definition verifying (l : Location) (e : event) : Prop :=
  match e with
  | EvOpenRead request _ => read_Location request = l
  | EvCloseRead l' _ => l' = l
  | EvStat request _ => request = mkStatRequest l false
  | EvControl _ _ => True
  | _ => reading l e
  end.
Lemma verifying_reading l e : reading l e → verifying l e.
Proof. by destruct e. Qed.

(** The content read between an open and a close is that of a digest, and the
    file still was what had been opened. *)
Definition session (l : Location) (info : ReadInfo) (sum : string) (t : list event) : Prop :=
  ∃ body latest, t = body ++ [EvCloseRead l None; EvStat (mkStatRequest l false) (Ok latest)] ∧
    Forall (reading l) body ∧ sum = digest H (read_bytes body) ∧
    entry_Fingerprint latest = info_Fingerprint info ∧
    (∀ size, fp_Size (info_Fingerprint info) = Some size → size = u64 (blen (read_bytes body))).

Lemma u64_i64 x : u64 (i64 x) = u64 x.
Proof. unfold u64, i64. rewrite Zminus_mod, Zmod_mod, <-Zminus_mod. f_equal. lia. Qed.

(** A step that records nothing. *)
Definition silent {A} (m : M W A) : Prop := ∀ w, (m w).1.2 = [].
Lemma silent_sees {A} P (m : M W A) : silent m → sees P m (returning (λ _ t, t = [])).
Proof. intros Hs w o t w' E. specialize (Hs w). rewrite E in Hs. cbn in Hs. subst. by destruct o. Qed.
Lemma streamReadOptions_silent plan size gated : silent (streamReadOptions scheduler plan size gated).
Proof. intros w. unfold streamReadOptions, quantum_bytes. by destruct scheduler. Qed.

Lemma verificationReader_sees plan p l (handle : ReadHandle W) on_read :
  (∀ f n, on_read = Some f → emits is_report (f n)) →
  sees (reading l) (verificationReader (H := H) scheduler plan p l handle on_read)
    (returning (λ r t, t = [] ∧ plain l r)).
Proof.
  intros Hrep. unfold verificationReader.
  eapply (sees_seq (W := W) _ _ _ (λ _ t, t = [])); [by apply silent_sees, streamReadOptions_silent|].
  intros options t _ ->. cbn [app].
  eapply (sees_seq (W := W) _ _ _ (λ _ t, t = [])).
  { apply silent_sees. destruct scheduler as [s|]; [destruct (AllowsReadAhead s)|]; by intros w. }
  intros ahead t _ ->. apply sees_ret. split; [done|]. split_and!; [done|done|].
  intros f n Ef. by apply Hrep.
Qed.

Lemma sees_call_CloseRead l (handle : ReadHandle W) :
  sees (verifying l) (call_CloseRead l handle) (returning (λ err t, t = [EvCloseRead l err])).
Proof. by apply sees_err_event. Qed.

Lemma verify_opened_sees plan p l (handle : ReadHandle W) on_read buffer :
  (∀ f n, on_read = Some f → emits is_report (f n)) →
  sees (verifying l) (verify_opened scheduler ctx_Err fuel plan p l handle on_read buffer)
    (returning (λ sum t, session l (Info handle) sum t)).
Proof.
  intros Hrep. unfold verify_opened.
  assert (∀ A (m : M W A) Q, sees (reading l) m (returning Q) →
    sees (verifying l) m (returning (λ a t, Forall (reading l) t ∧ Q a t))) as Hw.
  { intros A m Q Hm. eapply sees_conseq; [by eapply sees_weaken, verifying_reading|].
    by intros []. }
  eapply sees_seq; [by apply Hw, verificationReader_sees|]. intros r t _ (_ & -> & Hr). cbn [app].
  eapply sees_seq; [by apply Hw, read_digest_sees|]. intros [h n] t Ht (Hf & Hh & Hn).
  destruct (n <? 0); [by apply sees_throw|].
  destruct (match fp_Size _ with Some _ => _ | None => _ end) eqn:Esize; [by apply sees_throw|].
  eapply sees_seq; [apply sees_call_CloseRead|]. intros [e|] t1 _ ->.
  { eapply (sees_seq (W := W) _ _ _ (λ _ _, False)); [by apply sees_or_return|done]. }
  eapply (sees_seq (W := W) _ _ _ (λ _ t, t = [])); [by apply sees_or_return|]. intros _ t1 _ ->.
  eapply (sees_seq (W := W) _ _ _ (λ e t, t = [EvStat (mkStatRequest l false) (Ok e)])).
  { apply sees_Stat. by intros []. }
  intros latest t1 _ ->. case_bool_decide as He; cbn [negb]; [|by apply sees_throw].
  apply sees_ret. cbn. exists t, latest. split_and!; [done|done|by rewrite Hh|done|].
  intros size Hs. rewrite Hs in Esize. rewrite Hn, u64_i64 in Esize. by destruct (Z.eqb_spec (u64 (blen (read_bytes t))) size).
Qed.

Lemma reportProgress_emits journal phase bytes durable :
  emits is_report (reportProgress (W := W) journal phase bytes durable).
Proof.
  unfold reportProgress. destruct (ReportProgress journal); [|apply emits_ret].
  by apply emits_err_event.
Qed.

Lemma sees_call_OpenRead l p request :
  read_Location request = l →
  sees (W := W) (verifying l) (call_OpenRead p request)
    (returning (λ handle t, t = [EvOpenRead request (Ok (Info handle))])).
Proof. intros Hr. apply sees_OpenRead; by auto. Qed.

(** What the control does to a stream: nothing else than ending it early. *)
Lemma sees_controlledStream {A} P checkpoint (m : M W A) Q :
  (∀ a, P (EvControl checkpoint a)) → (∀ a t t', Q a t → Q a (t ++ t')) →
  sees P m (returning Q) → sees P (controlledStream control checkpoint m) (returning Q).
Proof.
  intros HP HQ Hm. unfold controlledStream. destruct control as [c|]; [|done].
  eapply (sees_seq (W := W) _ _ _ (λ r t, match r with Ok a => Q a t | Err _ => True end)).
  { apply sees_attempt. eapply sees_conseq; [exact Hm|]. by intros [a|e| |] t _. }
  intros r t _ Hr. eapply (sees_seq (W := W) _ _ _ (λ _ _, True)).
  { intros w o t' w' E. unfold call_Observed, control_event in E.
    destruct (Observed c checkpoint w) as [a w1]. injection E as <- <- _. by repeat constructor. }
  intros action t' _ _. destruct action; [|by apply sees_throw..].
  apply sees_lift. destruct r; [|done]. by apply HQ.
Qed.

(** The request that opens a file to read it back. *)
Definition readback_request (l : Location) (expected : Fingerprint) : OpenReadRequest :=
  mkOpenReadRequest l 0 None
    (if negb (String.eqb (Strength expected) FingerprintWeak) then Some expected else None).

(** The file [l] has been read back, as [expected], and has the digest [sum]. *)
Definition has_readback (l : Location) (expected : Fingerprint) (sum : string) (h : list event) : Prop :=
  ∃ pre info t post, h = pre ++ EvOpenRead (readback_request l expected) (Ok info) :: t ++ post ∧
    session l info sum t.
Lemma has_readback_app l expected sum h t :
  has_readback l expected sum h → has_readback l expected sum (h ++ t).
Proof.
  intros (pre & info & s & post & -> & Hs). exists pre, info, s, (post ++ t).
  by rewrite <-!app_assoc, <-!app_comm_cons, <-!app_assoc.
Qed.
Lemma has_readback_prefix l expected sum h t :
  has_readback l expected sum t → has_readback l expected sum (h ++ t).
Proof.
  intros (pre & info & s & post & -> & Hs). exists (h ++ pre), info, s, post. by rewrite <-!app_assoc.
Qed.

Lemma verifyFile_sees journal plan current p l expected buffer :
  sees (verifying l)
    (verifyFile scheduler control ctx_Err fuel journal plan current p l expected buffer)
    (returning (has_readback l expected)).
Proof.
  unfold verifyFile. apply sees_controlledStream; [done|apply has_readback_app|].
  eapply sees_seq; [by apply sees_call_OpenRead|]. intros handle t _ ->. cbn [app].
  apply sees_defer. eapply sees_conseq; [apply verify_opened_sees|].
  { intros f n. destruct current as [c|]; [|done]. intros [= <-]. apply reportProgress_emits. }
  intros [sum|e| |] t Ht Hs; [| | |done].
  all: eapply sees_conseq; [apply (sees_err_event _ _ _ (λ _ _, True)); by split|].
  all: intros o t' _ _; cbn in *; try done.
  by exists [], (Info handle), t, t'.
Qed.
End Facts.
Arguments session H {_} l info sum t.
Arguments has_readback H {_} l expected sum h.
