(* ===== verification/StreamTotal.v ===== *)
(** Loops that a provider drives end, and do all of their work: admission,
    writing everything, and the epochs of a stream. *)
From S2P Require Import Prelude Domain GoPath Provider DirectProtocol Bandwidth Plan.
From S2P Require Import Checkpoint Effects Logic Mutation Stream Worker StreamFacts.

(** [concludes P m Q]: [m] ends, its events satisfy [P], and [Q] holds then. *)
Definition ends {W A} (P : event → Prop) (m : M W A) (Q : A → list event → Prop) : Prop :=
  sees P m (λ o t, match o with Running => False | Returned a => Q a t | _ => True end).

Section Ends.
Context {W : Type}.
Lemma ends_ret {A} P (a : A) Q : Q a [] → ends (W := W) P (mret a) Q.
Proof. intros HQ. by apply sees_ret. Qed.
Lemma ends_throw {A} P e (Q : A → list event → Prop) : ends (W := W) P (throw e) Q.
Proof. by apply sees_throw. Qed.
Lemma ends_seq {A B} P (m : M W A) (f : A → M W B) V U :
  ends P m V → (∀ a t, V a t → ends P (f a) (λ b t', U b (t ++ t'))) → ends P (m ≫= f) U.
Proof.
  intros Hm Hf. apply sees_bind. eapply sees_conseq; [exact Hm|].
  intros [a|e| |] t _ HV; cbn in *; try done. eapply sees_conseq; [by apply Hf|]. by intros [].
Qed.
Lemma ends_peek {A} P (f : W → A) Q : (∀ w, Q (f w) []) → ends P (peek f) Q.
Proof. intros HQ w o t w' [= <- <- _]. auto. Qed.
Lemma ends_conseq {A} P (m : M W A) (Q Q' : A → list event → Prop) :
  ends P m Q → (∀ a t, Q a t → Q' a t) → ends P m Q'.
Proof. intros Hm HQ. eapply sees_conseq; [exact Hm|]. intros [] t _; auto. Qed.

Lemma ends_err_event P ev (call : W → option error * W) (Q : option error → list event → Prop) :
  (∀ r, P (ev r) ∧ Q r [ev r]) → ends P (err_event ev call) Q.
Proof. intros HQ. by apply sees_err_event. Qed.

(** * Admission *)

(** The bytes that were granted. *)
Definition granted (t : list event) : Z :=
  foldr (λ e n, match e with EvWait request None => Bandwidth.Bytes request + n | _ => n end) 0 t.
Lemma granted_app t1 t2 : granted (t1 ++ t2) = granted t1 + granted t2.
Proof.
  unfold granted. induction t1 as [|e t1 IH]; [done|]. cbn [app foldr]. rewrite IH.
  destruct e; try done. destruct err; lia.
Qed.

(** A wait asks for some bytes of those that are left, in the request's name. *)
Definition asks (request : BandwidthRequest) (total : Z) (e : event) : Prop :=
  ∃ n err, e = EvWait (mkRequest (JobID request) (EndpointID request) (PeerEndpointID request)
    (JobBytesPerSecond request) (Class request) n) err ∧ 1 ≤ n ≤ total.
Lemma asks_mono request n total e : n ≤ total → asks request n e → asks request total e.
Proof. intros Hle (k & err & -> & ?). exists k, err. split; [done|lia]. Qed.

Lemma wait_loop_ends (s : bandwidthScheduler W) request turns n :
  n ≤ Z.of_nat turns →
  ends (asks request n) (wait_loop s request turns n)
    (λ err t, err = None → granted t = Z.max 0 n).
Proof.
  revert n. induction turns as [|turns IH]; intros n Hn; cbn [wait_loop].
  all: destruct (Z.leb_spec n 0); [apply ends_ret; cbn; lia|].
  { lia. }
  eapply (ends_seq _ _ _ (λ quantum t, t = [] ∧ 0 ≤ quantum)).
  { apply ends_peek. intros q. split; [done|]. unfold u32. by apply Z.mod_pos_bound. }
  intros quantum t [-> Hq]. destruct (Z.eqb_spec quantum 0); [by apply ends_ret|].
  set (k := if n >? quantum then quantum else n).
  assert (1 ≤ k ≤ n) as Hk by (unfold k; rewrite Z.gtb_ltb; destruct (Z.ltb_spec quantum n); lia).
  eapply (ends_seq _ _ _ (λ err t, err = None → granted t = k)).
  { apply ends_err_event. intros err. split; [by exists k, err|]. intros ->. cbn. lia. }
  intros [err|] t Ht; [by apply ends_ret|]. cbn [app].
  eapply sees_conseq; [eapply (sees_weaken _ (asks request (n - k))); [apply IH; lia|]|].
  { intros e. apply asks_mono. lia. }
  intros [err| | |] t' _ [_ Hr]; cbn in *; try done. intros ->. rewrite granted_app, Ht by done.
  rewrite Hr by done. lia.
Qed.

(** Admission ends, whatever the scheduler answers, and grants exactly the
    bytes it was asked for: in pieces of at least one byte and at most its
    quantum, for the same job, endpoint and class. *)
Theorem waitForScheduledBytes_grants (s : bandwidthScheduler W) request total w :
  let '(o, t, _) := waitForScheduledBytes s request total w in
  o ≠ Running ∧ Forall (asks request total) t ∧
  (o = Returned None → granted t = Z.max 0 total).
Proof.
  destruct (waitForScheduledBytes s request total w) as [[o t] w'] eqn:E.
  unfold waitForScheduledBytes in E.
  destruct (wait_loop_ends s request (Z.to_nat total) total ltac:(lia) w o t w' E) as [Ht HQ].
  destruct o as [err| | |]; try done. split_and!; [done..|]. intros [= ->]. by apply HQ.
Qed.

(** * Writing everything *)

(** The bytes that writes have acknowledged. *)
Definition written (t : list event) : list byte :=
  concat ((λ e, match e with EvWrite _ data n _ => take (Z.to_nat n) data | _ => [] end) <$> t).
Lemma written_app t1 t2 : written (t1 ++ t2) = written t1 ++ written t2.
Proof. unfold written. by rewrite fmap_app, concat_app. Qed.

Definition writes (l : Location) (e : event) : Prop :=
  ∃ data n err, e = EvWrite l data n err ∧ data ≠ [].

Lemma writeAll_ends l (handle : WriteHandle W) turns data :
  (length data ≤ turns)%nat →
  ends (writes l) (writeAll l handle turns data) (λ err t, err = None → written t = data).
Proof.
  revert data. induction turns as [|turns IH]; intros data Hn; cbn [writeAll].
  all: case_bool_decide as Hd; [subst; by apply ends_ret|].
  { by destruct data; cbn in Hn; [|lia]. }
  eapply (ends_seq _ _ _ (λ '(n, err) t, t = [EvWrite l data n err])).
  { intros w o t w' E. unfold call_Write in E. destruct (Write handle data w) as [[n err] w1].
    injection E as <- <- <-. split; [|done]. apply Forall_singleton. by exists data, n, err. }
  intros [n err] t ->. destruct (Z.ltb_spec n 0); cbn [orb]; [by apply ends_ret|].
  rewrite Z.gtb_ltb. destruct (Z.ltb_spec (blen data) n) as [|Hle]; [by apply ends_ret|].
  destruct err as [err|]; [by apply ends_ret|].
  destruct (Z.eqb_spec n 0); [by apply ends_ret|]. unfold blen in Hle.
  eapply ends_conseq; [apply IH; rewrite length_drop; lia|]. intros err t Ht He.
  rewrite written_app, (Ht He). unfold written. cbn. by rewrite app_nil_r, take_drop.
Qed.

(** Writing a packet ends, and when it succeeds the provider has acknowledged
    its bytes, all of them and in order, however few it takes at a time. *)
Theorem streamWriteAdapter_writes_all l (handle : WriteHandle W) buffer w :
  let '(o, t, _) := streamWriteAdapter_Write l handle tt buffer w in
  o ≠ Running ∧ Forall (writes l) t ∧
  (∀ n, o = Returned (tt, (n, None)) → n = blen buffer ∧ written t = buffer).
Proof.
  destruct (streamWriteAdapter_Write l handle tt buffer w) as [[o t] w'] eqn:E.
  assert (ends (writes l) (streamWriteAdapter_Write l handle tt buffer)
    (λ '(_, (n, err)) t, err = None → n = blen buffer ∧ written t = buffer)) as Hends.
  { eapply ends_seq; [by apply writeAll_ends|]. intros [err|] t' Ht'; apply ends_ret; [done|].
    intros _. rewrite app_nil_r. auto. }
  destruct (Hends w o t w' E) as [Ht HQ]. destruct o as [[[] [n err]]| | |]; try done.
  split_and!; [done..|]. intros n' [= -> ->]. by apply HQ.
Qed.
End Ends.

(** * Loops end *)
Definition halts {W A} (m : M W A) : Prop := ∀ w, (m w).1.1 ≠ Running.

Section Halts.
Context {W : Type}.
Lemma halts_ret {A} (a : A) : halts (W := W) (mret a).
Proof. by intros w. Qed.
Lemma halts_throw {A} e : halts (W := W) (@throw _ W A e).
Proof. by intros w. Qed.
Lemma halts_panic {A} : halts (W := W) (@panic _ W A).
Proof. by intros w. Qed.
Lemma halts_ends {A} P (m : M W A) Q : ends P m Q → halts m.
Proof.
  intros Hm w Hr. destruct (m w) as [[o t] w'] eqn:E. destruct (Hm w o t w' E) as [_ HQ].
  cbn in Hr. by subst o.
Qed.
Lemma halts_seq {A B} P (m : M W A) (f : A → M W B) V :
  halts m → sees P m (returning V) → (∀ a t, V a t → halts (f a)) → halts (m ≫= f).
Proof.
  intros Hm Hs Hf w. specialize (Hm w). unfold mbind, M_bind.
  destruct (m w) as [[o t] w1] eqn:E. destruct (Hs w o t w1 E) as [_ HV].
  destruct o as [a| | |]; cbn in *; try done. specialize (Hf a t HV w1).
  by destruct (f a w1) as [[? ?] ?].
Qed.
Lemma halts_bind {A B} (m : M W A) (f : A → M W B) :
  halts m → (∀ a, halts (f a)) → halts (m ≫= f).
Proof.
  intros Hm Hf. eapply (halts_seq (λ _, True) _ _ (λ _ _, True)); [done| |auto].
  intros w o t w' _. split; [by apply Forall_true|by destruct o].
Qed.
Lemma halts_attempt {A} (m : M W A) : halts m → halts (attempt m).
Proof. intros Hm w. specialize (Hm w). unfold attempt. by destruct (m w) as [[[] ?] ?]. Qed.
Lemma halts_lift {A} (r : result error A) : halts (W := W) (lift r).
Proof. destruct r; [apply halts_ret|apply halts_throw]. Qed.
Lemma halts_or_return e : halts (W := W) (or_return e).
Proof. destruct e; [apply halts_throw|apply halts_ret]. Qed.
Lemma halts_peek {A} (f : W → A) : halts (peek f).
Proof. by intros w. Qed.
Lemma halts_tick {A} (f : W → A * W) : halts (tick f).
Proof. intros w. unfold tick. by destruct (f w). Qed.
Lemma halts_err_event ev (call : W → option error * W) : halts (err_event ev call).
Proof. intros w. unfold err_event. by destruct (call w). Qed.
Lemma halts_read_event l size (call : W → IOResult * W) : halts (read_event l size call).
Proof. intros w. unfold read_event. by destruct (call w). Qed.
Lemma halts_control_event c (call : W → ControlAction * W) : halts (control_event c call).
Proof. intros w. unfold control_event. by destruct (call w). Qed.
Lemma halts_Stat p request : halts (W := W) (call_Stat p request).
Proof. intros w. unfold call_Stat, answer. by destruct (Stat p request w) as [[] ?]. Qed.
End Halts.

(** [halting] walks a handler without loops. *)
Ltac halting :=
  repeat first
    [ progress intros
    | apply halts_ret | apply halts_throw | apply halts_panic | apply halts_bind
    | apply halts_attempt | apply halts_lift | apply halts_or_return | apply halts_peek
    | apply halts_tick | apply halts_err_event | apply halts_read_event
    | apply halts_control_event | apply halts_Stat | done
    | match goal with |- halts (match ?x with _ => _ end) => destruct x eqn:? end ].

Section Streams.
Context {W H : Type} `{Hash H} (worker : Worker W) (plan : Plan).
Local Abbreviation scheduler := (w_scheduler worker).
Local Abbreviation anything := (λ _ : event, True).

Lemma gate_if_halts endpoint n : halts (gate_if scheduler plan endpoint n).
Proof.
  unfold gate_if, gate. destruct endpoint; [|apply halts_ret].
  destruct scheduler as [sch|]; [|apply halts_ret].
  eapply halts_ends, wait_loop_ends. lia.
Qed.

(** A reader that reads call by call. *)
Record direct (r : sourceStream (W := W) (H := H)) : Prop := {
  direct_handle : ReadStream (ss_handle r) = None;
  direct_report : ∀ f n, ss_onRead r = Some f → halts (f n);
  direct_reports : reports r;
}.
Lemma direct_read_by r bytes : direct r → direct (stream_read_by r bytes).
Proof. by intros []. Qed.
Lemma reportProgress_halts journal phase bytes durable :
  halts (reportProgress (W := W) journal phase bytes durable).
Proof. unfold reportProgress, call_Report. halting. Qed.
Lemma direct_on_read r base current :
  direct r → direct (on_read r (report_stream worker base current)).
Proof.
  intros [Hh _ _]. constructor; [done|..].
  - intros f n [= <-]. apply reportProgress_halts.
  - intros f n [= <-]. apply reportProgress_emits.
Qed.

Lemma sourceStream_Read_halts r size :
  direct r → halts (sourceStream_Read scheduler (w_ctx_Err worker) (w_fuel worker) plan r size).
Proof.
  intros [Hh Hr _]. unfold sourceStream_Read, provider_read. rewrite Hh.
  halting; try apply gate_if_halts; try by (apply Hr). 
  all: unfold call_Read, call_ReadAhead; halting.
Qed.

(** Each read of a piece of an epoch takes bytes off it, or ends it. *)
Definition piece (r : checkpointReader (W := W) (H := H))
    (o : checkpointReader (W := W) (H := H) * ReadResult) : Prop :=
  let '(r', (bytes, err)) := o in
  direct (cr_reader r') ∧ ss_handle (cr_reader r') = ss_handle (cr_reader r) ∧
  (bytes = [] → is_Some err) ∧
  blen bytes ≤ cr_remaining r ∧ cr_remaining r' = cr_remaining r - blen bytes.

Lemma checkpointReader_Read_piece r size :
  direct (cr_reader r) → 0 ≤ cr_remaining r → 0 < size →
  let m := checkpointReader_Read scheduler (w_ctx_Err worker) (w_Now worker) (w_fuel worker) plan
             r size in
  halts m ∧ sees anything m (returning (λ o _, piece r o)).
Proof.
  intros Hd Hc Hs m. unfold m, checkpointReader_Read.
  assert (∀ e, piece r (r, ([], Some e))) as Hstop.
  { intros e. split_and!; try done; rewrite blen_nil; lia. }
  assert (halts (past_deadline (w_Now worker) r)) as Hpast by (unfold past_deadline; halting).
  destruct (Z.eqb_spec (cr_remaining r) 0) as [|Hleft]; [split; [apply halts_ret|by apply sees_ret, Hstop]|].
  set (n := if size >? cr_remaining r then _ else _).
  assert (0 < n ≤ cr_remaining r) as Hn.
  { unfold n. rewrite Z.gtb_ltb. destruct (Z.ltb_spec (cr_remaining r) size); lia. }
  split.
  - apply halts_bind; [done|]. intros past. destruct past; [apply halts_ret|].
    apply halts_bind; [by apply sourceStream_Read_halts|]. intros [? [? ?]]. apply halts_ret.
  - eapply (sees_seq _ _ _ (λ _ _, True)).
    { intros w o t w' _. split; [by apply Forall_true|by destruct o]. }
    intros past t _ _. destruct past; [by apply sees_ret, Hstop|].
    eapply (sees_seq _ _ _ (read_post scheduler (cr_reader r) n)).
    { eapply sees_conseq.
      - eapply (sees_weaken anything). { apply sourceStream_Read_sees; [apply Hd|lia]. } done.
      - intros [o| | |] t' _; cbn; [|done..]. by intros [_ ?]. }
    intros [r' [bytes err]] t' _ (Hle & Hr' & _ & Hne). apply sees_ret. cbn.
    assert (direct r' ∧ ss_handle r' = ss_handle (cr_reader r)) as [Hd' Hh'].
    { destruct Hr' as [[-> _]| ->]; [done|]. split; [by apply direct_read_by|done]. }
    case_bool_decide as Hb; cbn.
    + subst. rewrite blen_nil. split_and!; try done; [|lia..]. intros _. apply Hne; [done|lia].
    + split_and!; try done. lia.
Qed.

(** Copying a piece. *)
Definition copied_piece (r : checkpointReader (W := W) (H := H)) (r' : checkpointReader) : Prop :=
  direct (cr_reader r') ∧ ss_handle (cr_reader r') = ss_handle (cr_reader r).
Lemma copy_piece {D} (write : D → list byte → M W (D * (Z * option error))) size turns r d n :
  (∀ d bytes, halts (write d bytes)) → 0 < size →
  direct (cr_reader r) → 0 ≤ cr_remaining r → cr_remaining r < Z.of_nat turns →
  let m := copy_loop (checkpointReader_Read scheduler (w_ctx_Err worker) (w_Now worker)
             (w_fuel worker) plan) write size turns r d n in
  halts m ∧ sees anything m (returning (λ o _, copied_piece r o.1.1)).
Proof.
  intros Hw Hs. revert r d n. induction turns as [|turns IH]; intros r d n Hd Hc Ht; [lia|].
  cbn zeta in *. cbn [copy_loop].
  destruct (checkpointReader_Read_piece r size Hd Hc Hs) as [Hh Hp].
  assert (∀ r' d' n' bytes er, piece r (r', (bytes, er)) →
    let m := match er with
      | None => copy_loop (checkpointReader_Read scheduler (w_ctx_Err worker) (w_Now worker)
             (w_fuel worker) plan) write size turns r' d' n'
      | Some er => mret (r', d', (n', if is_EOF_value er then None else Some er))
      end in halts m ∧ sees anything m (returning (λ o _, copied_piece r o.1.1))) as Hend.
  { intros r' d' n' bytes [er|] (Hd' & Hh' & Hne & Hle & Hrem); cbn zeta.
    { split; [apply halts_ret|by apply sees_ret]. }
    assert (0 < blen bytes).
    { destruct bytes; [by destruct (Hne eq_refl)|]. unfold blen. cbn. lia. }
    destruct (IH r' d' n' Hd') as [IH1 IH2]; [lia..|]. split; [done|].
    eapply sees_conseq; [exact IH2|]. intros [o| | |] t _; cbn; [|done..].
    intros [? ?]. split; [done|congruence]. }
  split.
  - eapply halts_seq; [exact Hh|exact Hp|]. intros [r' [bytes er]] t Hpiece.
    case_bool_decide; [by apply (Hend r' d n bytes er)|].
    apply halts_bind; [done|]. intros [d' [nw ew]]. cbv beta iota zeta.
    destruct ((nw <? 0) || (blen bytes <? nw)); [destruct ew; apply halts_ret|].
    destruct ew; [apply halts_ret|]. destruct (negb _); [apply halts_ret|].
    by apply (Hend r' d' _ bytes er).
  - eapply sees_seq; [exact Hp|]. intros [r' [bytes er]] t _ Hpiece.
    assert (copied_piece r r') as Hcp by (destruct Hpiece as (? & ? & _); done).
    case_bool_decide.
    { eapply sees_conseq; [apply (Hend r' d n bytes er Hpiece)|]. by intros [[[? ?] ?]| | |] ? _. }
    eapply (sees_seq _ _ _ (λ _ _, True)).
    { intros w o t' w' _. split; [by apply Forall_true|by destruct o]. }
    intros [d' [nw ew]] t' _ _. cbv beta iota zeta.
    destruct ((nw <? 0) || (blen bytes <? nw)); [destruct ew; by apply sees_ret|].
    destruct ew; [by apply sees_ret|]. destruct (negb _); [by apply sees_ret|].
    eapply sees_conseq; [apply (Hend r' d' _ bytes er Hpiece)|]. by intros [[[? ?] ?]| | |] ? _.
Qed.

(** * Epochs *)
Definition plain_handle (handle : WriteHandle W) : Prop :=
  WriteFrom handle = None ∧ WriteFromWindow handle = None.

Lemma transfer_epoch_piece handle (limited : checkpointReader (W := W) (H := H)) :
  plain_handle handle → direct (cr_reader limited) → 0 ≤ cr_remaining limited →
  cr_remaining limited < Z.of_nat (w_fuel worker) →
  halts (transfer_epoch worker plan handle limited) ∧
  sees anything (transfer_epoch worker plan handle limited) (returning (λ o _, copied_piece limited o.1)).
Proof.
  intros [Hf Hw] Hd Hc Ht. unfold transfer_epoch. rewrite Hf, Hw. cbv zeta.
  assert (∀ m, (if negb (String.eqb (Durability plan) "") then m else m) = m :> M W _) as ->
    by (intros; by case_match).
  unfold CopyBuffer. destruct (Z.leb_spec (streamBufferBytes plan `min` streamPacketBytes) 0).
  { split; [apply halts_bind; [apply halts_panic|intros; apply halts_ret]|].
    by eapply (sees_seq _ _ _ (λ _ _, False)); [by apply sees_panic|]. }
  edestruct (copy_piece (streamWriteAdapter_Write (Part plan) handle)
    (streamBufferBytes plan `min` streamPacketBytes) (w_fuel worker) limited tt 0) as [Hh Hs]; try done.
  { intros [] bytes. unfold streamWriteAdapter_Write. apply halts_bind; [|intros; apply halts_ret].
    by eapply halts_ends, writeAll_ends. }
  split; [apply halts_bind; [done|intros; apply halts_ret]|].
  eapply sees_seq; [exact Hs|]. intros o t _ Ho. by apply sees_ret.
Qed.

Lemma checkpoint_epoch_next destination handle (s : stream_state (W := W) (H := H)) n :
  halts (checkpoint_epoch plan destination handle s n) ∧
  sees anything (checkpoint_epoch plan destination handle s n)
    (returning (λ cp _, Offset cp = u64 (Offset (st_current s) + n))).
Proof.
  unfold checkpoint_epoch, sync, call_Sync, stat. split; [halting|].
  eapply (sees_seq _ _ _ (λ cp _, Offset cp = u64 (Offset (st_current s) + n)));
    [|intros; by apply sees_ret].
  destruct (checkpointSync plan); [|by apply sees_ret].
  assert (∀ A (m : M W A), sees anything m (returning (λ _ _, True))) as Hany.
  { intros A m w o t w' _. split; [by apply Forall_true|by destruct o]. }
  eapply sees_seq; [apply Hany|]. intros _ t _ _. eapply sees_seq; [apply Hany|]. intros entry t' _ _.
  destruct (negb _); [by apply sees_throw|]. apply sees_ret. cbn. unfold recordDurable. by case_match.
Qed.

Definition advances (s : stream_state (W := W) (H := H)) (chunk : Z) (reader : sourceStream)
    (o : stream_state (W := W) (H := H) * epoch_end) : Prop :=
  o.2 = EpochNext → st_reader o.1 = reader ∧
    ∃ n, 1 ≤ n ≤ chunk ∧ Offset (st_current o.1) = u64 (Offset (st_current s) + n).

Lemma settle_epoch_advances destination handle s before chunk deadline n err :
  halts (settle_epoch worker plan destination handle s before chunk deadline n err) ∧
  sees anything (settle_epoch worker plan destination handle s before chunk deadline n err)
    (returning (λ o _, advances s chunk (st_reader s) o)).
Proof.
  assert (∀ A (m : M W A), sees anything m (returning (λ _ _, True))) as Hany.
  { intros A m w o t w' _. split; [by apply Forall_true|by destruct o]. }
  destruct (checkpoint_epoch_next destination handle s n) as [Hh Hs].
  unfold settle_epoch, observed, call_Observed, or_stop, save, call_Save. split.
  { halting; done. }
  eapply sees_seq; [apply Hany|]. intros action t _ _. destruct (negb _); [by apply sees_ret|].
  destruct err as [err|]; [by apply sees_ret|].
  destruct ((n <? 0) || (n >? chunk) || _) eqn:Hn; [by apply sees_ret|].
  destruct (Z.eqb_spec n 0); [by apply sees_ret|].
  assert (1 ≤ n ≤ chunk) as Hb by (rewrite !orb_false_iff in Hn; lia).
  eapply (sees_seq _ _ _ (λ r _, match r with Ok cp => Offset cp = u64 (Offset (st_current s) + n)
                                 | Err _ => True end)).
  { apply sees_attempt. eapply sees_conseq; [exact Hs|]. by intros []. }
  intros [cp|err] t' _ Hcp; [|by apply sees_ret].
  eapply sees_seq; [apply Hany|]. intros [u|err] t2 _ _; [|by apply sees_ret].
  eapply sees_seq; [apply Hany|]. intros early t3 _ _. apply sees_ret. intros _. cbn.
  split; [done|]. by exists n.
Qed.

Lemma epoch_advances destination handle base (s : stream_state (W := W) (H := H)) size :
  plain_handle handle → direct (st_reader s) → 0 ≤ Offset (st_current s) →
  fp_Size (ref_Fingerprint (Source plan)) = Some size → 0 ≤ size < 2 ^ 64 →
  size < Z.of_nat (w_fuel worker) → 0 ≤ BufferBytes plan → 0 ≤ CheckpointBytes (plan_StreamPolicy plan) →
  halts (epoch worker plan destination handle base s) ∧
  sees anything (epoch worker plan destination handle base s)
    (returning (λ o _, o.2 = EpochNext → direct (st_reader o.1) ∧
       Offset (st_current s) < Offset (st_current o.1) ≤ size)).
Proof.
  intros Hp Hd Ho Hz Hsz Hfuel Hbuf Hck.
  assert (∀ A (m : M W A), sees anything m (returning (λ _ _, True))) as Hany.
  { intros A m w o t w' _. split; [by apply Forall_true|by destruct o]. }
  unfold epoch, requested, call_Action, or_stop.
  assert (halts (closeAndRefreshCheckpoint worker destination handle (st_current s))) as Hclose.
  { unfold closeAndRefreshCheckpoint, sync, call_Sync, close_write, call_CloseWrite, stat, wrapping,
      save, call_Save. halting. }
  destruct (epoch_chunk plan (st_current s)) as [chunk|] eqn:Hc.
  2:{ split; [halting; done|]. eapply sees_seq; [apply Hany|]. intros action t _ _.
      destruct (negb _).
      { eapply sees_seq; [apply Hany|]. intros [cp|err] t' _ _; by apply sees_ret. }
      eapply sees_seq; [apply Hany|]. intros. by apply sees_ret. }
  unfold epoch_chunk in Hc. rewrite Hz in Hc.
  destruct (Z.geb_spec (Offset (st_current s)) size) as [|Hlt]; [done|]. injection Hc as Hc.
  assert (u64 (size - Offset (st_current s)) = size - Offset (st_current s)) as Hu.
  { unfold u64. apply Z.mod_small. lia. }
  assert (0 ≤ chunk ≤ size - Offset (st_current s)) as Hchunk.
  { subst chunk. rewrite Hu. case_match; lia. }
  assert (∀ deadline, let limited := mkCheckpointReader
      (on_read (st_reader s) (report_stream worker base (st_current s))) chunk deadline false in
    halts (transfer_epoch worker plan handle limited) ∧
    sees anything (transfer_epoch worker plan handle limited)
      (returning (λ o _, copied_piece limited o.1))) as Htr.
  { intros deadline. apply transfer_epoch_piece; [done|by apply direct_on_read|cbn; lia|cbn; lia]. }
  split.
  - apply halts_bind; [halting|]. intros action.
    match goal with |- halts (if ?b then _ else _) => destruct b; [halting; done|] end.
    apply halts_bind; [halting|]. intros deadline. apply halts_bind; [apply Htr|].
    intros [limited [n err]]. apply settle_epoch_advances.
  - eapply sees_seq; [apply Hany|]. intros action t _ _.
    match goal with |- sees _ (if ?b then _ else _) _ => destruct b end.
    { eapply sees_seq; [apply Hany|]. intros [cp|err] t' _ _; by apply sees_ret. }
    eapply sees_seq; [apply Hany|]. intros deadline t' _ _.
    eapply sees_seq; [apply Htr|]. intros [limited [n err]] t2 _ [Hd' Hh'].
    eapply sees_conseq; [apply settle_epoch_advances|]. intros [o| | |] t3 _ Ha; cbn in *; [|done..].
    intros He. destruct (Ha He) as (Hr & k & Hk & Hoff). rewrite Hr, Hoff. split; [done|].
    unfold u64. cbn. rewrite Z.mod_small; lia.
Qed.

Lemma epochs_halts destination handle base turns (s : stream_state (W := W) (H := H)) size :
  plain_handle handle → direct (st_reader s) → 0 ≤ Offset (st_current s) →
  fp_Size (ref_Fingerprint (Source plan)) = Some size → 0 ≤ size < 2 ^ 64 →
  size < Z.of_nat (w_fuel worker) → 0 ≤ BufferBytes plan → 0 ≤ CheckpointBytes (plan_StreamPolicy plan) →
  (turns ≠ 0)%nat → size - Offset (st_current s) < Z.of_nat turns →
  halts (epochs worker plan destination handle base turns s).
Proof.
  intros Hp Hd Ho Hz Hsz Hfuel Hbuf Hck. revert s Hd Ho.
  induction turns as [|turns IH]; intros s Hd Ho Hne Ht; [done|]. cbn [epochs].
  destruct (epoch_advances destination handle base s size Hp Hd Ho Hz Hsz Hfuel Hbuf Hck) as [Hh Hs].
  eapply halts_seq; [exact Hh|exact Hs|]. intros [s' [| |err]] t Hnext; try apply halts_ret.
  destruct (Hnext eq_refl) as [Hd' Hoff]. cbn in *. apply IH; [done|lia..].
Qed.
End Streams.

(** C29: A copy of a file with a frozen size ends, in error or not, whatever its
    providers answer: with more turns than the file has bytes, no loop of the
    stream uses them up.  (The providers read and write call by call, so that no
    loop is theirs.) *)
Theorem copyStream_terminates {W H} `{Hash H} (worker : Worker W) plan (source : ReadHandle W)
    (handle : WriteHandle W) destination current (hasher : H) size :
  ReadStream source = None → plain_handle handle → 0 ≤ Offset current →
  fp_Size (ref_Fingerprint (Source plan)) = Some size → 0 ≤ size < 2 ^ 64 →
  0 ≤ BufferBytes plan → 0 ≤ CheckpointBytes (plan_StreamPolicy plan) →
  size < Z.of_nat (w_fuel worker) →
  ∀ w, (copyStream worker plan source handle destination current hasher w).1.1 ≠ Running.
Proof.
  intros Hr Hp Ho Hz Hsz Hbuf Hck Hfuel. change (halts (copyStream worker plan source handle destination current hasher)).
  unfold copyStream. eapply (halts_seq (λ _, True) _ _ (λ r _, direct r)).
  - unfold copy_reader, streamReadOptions, quantum_bytes. halting.
  - unfold copy_reader. 
    assert (∀ A (m : M W A), sees (λ _, True) m (returning (λ _ _, True))) as Hany.
    { intros A m w o t w' _. split; [by apply Forall_true|by destruct o]. }
    eapply sees_seq; [apply Hany|]. intros options t _ _.
    eapply sees_seq; [apply Hany|]. intros ahead t' _ _. apply sees_ret. by split.
  - intros reader t Hd. apply halts_bind.
    + eapply epochs_halts; try done; cbn; lia.
    + intros [s [err|]]; [apply halts_ret|].
      unfold finish_stream, sync, call_Sync, save, call_Save, stat, conflict. halting.
Qed.
