(* ===== verification/MoveFacts.v ===== *)
(** A move deletes its source only where the destination is proved to hold it. *)
From S2P Require Import Prelude Domain GoPath Provider DirectProtocol Bandwidth Plan Checkpoint.
From S2P Require Import Effects Logic Mutation MutationFacts Stream StreamFacts Move.

(** * What a move has seen *)
Definition observed (h : list event) (l : Location) (entry : Entry) : Prop :=
  EvStat (mkStatRequest l false) (Ok entry) ∈ h.
Definition gone (h : list event) (l : Location) : Prop :=
  ∃ err, EvStat (mkStatRequest l false) (Err err) ∈ h ∧ IsCode err CodeNotFound = true.
Definition listed_empty (h : list event) (l : Location) : Prop :=
  ∃ request page, EvList request (Ok page) ∈ h ∧ list_Location request = l ∧ page_Entries page = [].

Lemma observed_mono h h' l entry : h `prefix_of` h' → observed h l entry → observed h' l entry.
Proof. intros [t ->] H. apply elem_of_app. by left. Qed.
Lemma gone_mono h h' l : h `prefix_of` h' → gone h l → gone h' l.
Proof. intros [t ->] (err & H & Hc). exists err. split; [|done]. apply elem_of_app. by left. Qed.
Lemma listed_empty_mono h h' l : h `prefix_of` h' → listed_empty h l → listed_empty h' l.
Proof. intros [t ->] (r & page & H & ?). exists r, page. split; [|done]. apply elem_of_app. by left. Qed.
Lemma in_last {A} (x : A) l : x ∈ l ++ [x].
Proof. apply elem_of_app. right. by left. Qed.

(** The names on the way from the root lead to the same place in both trees. *)
Inductive paired (root final : Location) : Location → Location → Prop :=
| paired_root : paired root final root final
| paired_child l l' entry name :
    paired root final l l' → validateDiscoveredEntry l l entry = Ok name →
    paired root final (entry_Location entry) (childLocation l' name).

Lemma paired_below root final l l' : paired root final l l' → at_or_below root l.
Proof.
  induction 1 as [|l l' entry name _ IH Hv]; [apply at_or_below_refl|].
  eapply at_or_below_trans; [done|]. by eapply validated_below.
Qed.

Section Facts.
Context {W H : Type} `{HashLaws H}.

(** Two files have been read to their ends, and have the same digest. *)
Definition same_content (h : list event) (l : Location) (expected : Fingerprint) (l' : Location) : Prop :=
  ∃ sum expected', has_readback H l expected sum h ∧ has_readback H l' expected' sum h.
Lemma same_content_mono h h' l expected l' :
  h `prefix_of` h' → same_content h l expected l' → same_content h' l expected l'.
Proof. intros [t ->] (s & e & ? & ?). exists s, e. split; by apply has_readback_app. Qed.

(** What may be removed, for a plan and the destination that was committed. *)
Definition removable (plan : Plan) (final : Location) (h : list event) (request : RemoveRequest) : Prop :=
  let source := ref_Location (Source plan) in
  let l := remove_Location request in
  if String.eqb (ref_Kind (Source plan)) EntryDirectory then
    ∃ fp target, remove_Expected request = Some fp ∧ paired source final l target ∧
      (same_content h l fp target ∨
       listed_empty h l ∧ ∃ entry, observed h l entry ∧ entry_Fingerprint entry = fp)
  else
    l = source ∧ remove_Expected request = Some (ref_Fingerprint (Source plan)) ∧
    ∃ entry, observed h source entry ∧ entry_Kind entry = EntryFile ∧
      entry_Fingerprint entry = ref_Fingerprint (Source plan).
Definition move_rule (plan : Plan) (final : Location) (h : list event) (ev : event) : Prop :=
  match ev with
  | EvRemove request _ => removable plan final h request
  | EvSnapshot _ _ | EvList _ _ | EvStat _ _ | EvOpenRead _ _ | EvRead _ _ _ | EvCloseRead _ _
  | EvReport _ _ _ _ | EvWait _ _ | EvControl _ _ => True
  | _ => False
  end.
Lemma verifying_allowed plan final l h ev : verifying l ev → move_rule plan final h ev.
Proof. by destruct ev. Qed.
Lemma harmless_allowed plan final h ev : harmless ev → move_rule plan final h ev.
Proof. destruct ev; unfold harmless; cbn; tauto. Qed.

Context (Resolve : string → result error (Provider W)).
Context (scheduler : option (bandwidthScheduler W)) (control : option (Control W)).
Context (ctx_Err : W → option error) (fuel : nat) (journal : Journal W).
Context (cancels : W → option error) (ahead : W → bool).
Context (plan : Plan) (final : Location).
Local Abbreviation moves := (runs (W := W) (move_rule plan final)).

Lemma moves_stat h p l : StatLaw p →
  moves h (stat p l) (returning (λ entry h', observed h' l entry ∧ entry_Location entry = l)).
Proof.
  intros Hlaw w o t w' E. unfold stat, call_Stat, answer in E.
  destruct (Stat p (mkStatRequest l false) w) as [[entry|e] w1] eqn:Es; injection E as <- <- <-;
    (split; [by cbn|]); [|done].
  split; [apply in_last|]. by apply Hlaw in Es.
Qed.
Lemma moves_stat_any h p l : moves h (stat p l) (returning (λ entry h', observed h' l entry)).
Proof. apply runs_Stat. intros [entry|e]; (split; [done|]); [|done]. apply in_last. Qed.
Lemma moves_attempt_stat h p l :
  moves h (attempt (stat p l)) (returning (λ r h',
    match r with Ok entry => observed h' l entry
               | Err err => IsCode err CodeNotFound = true → gone h' l end)).
Proof.
  apply runs_attempt, runs_Stat. intros [entry|e]; (split; [done|]); cbn.
  - apply in_last.
  - intros Hc. exists e. split; [apply in_last|done].
Qed.

(** A removal is asked for and proved. *)
Lemma moves_remove h p mutable entry :
  removable plan final h (mkRemoveRequest (entry_Location entry) (Some (entry_Fingerprint entry))) →
  moves h (removeWithPostcondition p mutable entry)
    (returning (λ _ h', gone h' (entry_Location entry))).
Proof.
  intros Hr. unfold removeWithPostcondition. apply runs_bind, runs_Remove. intros err.
  split; [exact Hr|]. cbn [then_]. cbv zeta.
  assert (∀ h', moves h' (r ← attempt (stat p (entry_Location entry));
    match r with
    | Err statErr => if IsCode statErr CodeNotFound then mret tt
                     else throw (EWrap "prove source deletion" statErr)
    | Ok _ => match err with
              | Some err => throw err
              | None => throw (planError CodeConflict "delete_move_source" (entry_Location entry)
                                 "source still exists after delete response" RetryAfterConflict)
              end
    end) (returning (λ _ h', gone h' (entry_Location entry)))) as Hprove.
  { intros h1. eapply runs_seq; [apply moves_attempt_stat|]. intros [e|e] h2 Hp Hg; cbn in Hg.
    - destruct err; by apply runs_throw.
    - destruct (IsCode e CodeNotFound); [|by apply runs_throw]. apply runs_ret. by apply Hg. }
  destruct err as [err|]; [|apply Hprove]. past. apply Hprove.
Qed.

(** Verification reads, and says that two files are the same. *)
Lemma moves_verify h p l expected :
  moves h (verify_at (H := H) scheduler control ctx_Err fuel journal plan p l expected)
    (returning (λ sum h', has_readback H l expected sum h')).
Proof.
  unfold verify_at. eapply runs_conseq.
  { apply (runs_sees _ _ _ _ _ (verifyFile_sees _ _ _ _ _ plan None p l expected _)).
    intros h' ev. apply verifying_allowed. }
  intros [sum|e| |] h' _ (t & -> & _ & Hs); [|done..]. by apply has_readback_prefix.
Qed.
Lemma moves_verifyMoveFile h source destination entry target :
  moves h (verifyMoveFile (H := H) scheduler control ctx_Err fuel journal plan source destination entry target)
    (returning (λ _ h', same_content h' (entry_Location entry) (entry_Fingerprint entry) target)).
Proof.
  unfold verifyMoveFile. eapply runs_seq; [apply moves_stat_any|]. intros found h1 _ _.
  eapply runs_seq; [apply moves_verify|]. intros sum h2 _ Hs.
  eapply runs_seq; [apply moves_verify|]. intros sum' h3 [t ->] Hd.
  destruct (String.eqb_spec sum sum') as [<-|]; [|by apply runs_throw].
  apply runs_ret. exists sum, (entry_Fingerprint found). split; [by apply has_readback_app|done].
Qed.

(** The walk only reads. *)
Definition quiet {A} (m : M W A) : Prop := ∀ h, moves h m (returning (λ _ _, True)).
Lemma quiet_ret {A} (a : A) : quiet (mret a).
Proof. intros h. by apply runs_ret. Qed.
Lemma quiet_throw {A} e : quiet (@throw _ _ A e).
Proof. intros h. by apply runs_throw. Qed.
Lemma quiet_bind {A B} (m : M W A) (f : A → M W B) : quiet m → (∀ a, quiet (f a)) → quiet (m ≫= f).
Proof. intros Hm Hf h. eapply runs_seq; [apply Hm|]. intros a h' _ _. apply Hf. Qed.
Lemma quiet_attempt {A} (m : M W A) : quiet m → quiet (attempt m).
Proof.
  intros Hm h. apply runs_attempt. eapply runs_conseq; [apply Hm|]. by intros [].
Qed.
Lemma quiet_peek {A} (f : W → A) : quiet (peek f).
Proof. intros h. by apply runs_peek. Qed.
Lemma moves_quiet_stat p l : quiet (stat p l).
Proof. intros h. eapply runs_conseq; [apply moves_stat_any|]. by intros []. Qed.
Lemma quiet_list p request : quiet (call_List p request).
Proof. intros h. apply runs_List. by intros []. Qed.
Lemma quiet_lift {A} (r : result error A) : quiet (lift r).
Proof. intros h. apply runs_lift. by destruct r. Qed.
Lemma quiet_or_return err : quiet (or_return err).
Proof. intros h. apply runs_or_return. by destruct err. Qed.

Lemma quiet_walk_step p root budget k : quiet (walk_step p root budget k).
Proof.
  unfold walk_step. destruct (wk_at k) as [|directory depth cursor|directory depth [|entry entries] [cursor|]].
  - destruct (wk_frontier k) as [|[]]; apply quiet_ret.
  - apply quiet_bind; [apply quiet_attempt, quiet_list|]. intros [page|e]; [|apply quiet_ret].
    destruct (invalid_page _ _); apply quiet_ret.
  - apply quiet_ret.
  - apply quiet_ret.
  - destruct (validateDiscoveredEntry _ _ _); apply quiet_ret.
  - destruct (validateDiscoveredEntry _ _ _); apply quiet_ret.
Qed.
Lemma quiet_take_items {A} p root budget (consume : A → DiscoveredItem → M W (A * option error))
    turns k queue acc :
  (∀ acc item, quiet (consume acc item)) →
  quiet (take_items root budget (walk_step p root budget) cancels ahead consume turns k queue acc).
Proof.
  intros Hc. revert k queue acc. induction turns as [|turns IH]; intros k queue acc; cbn [take_items].
  { intros h. by apply runs_running. }
  assert (∀ item queue', quiet (r ← consume acc item;
    match r with
    | (acc, Some err) => mret (acc, Some err)
    | (acc, None) => take_items root budget (walk_step p root budget) cancels ahead consume turns k queue' acc
    end)) as Hconsumes.
  { intros item queue'. apply quiet_bind; [apply Hc|]. intros [acc' [err|]]; [apply quiet_ret|apply IH]. }
  cbv zeta. destruct k as [k|failure]; destruct queue as [|item queue'];
    [| |apply quiet_ret|apply Hconsumes].
  2: apply quiet_bind; [apply quiet_peek|]; intros goes_on;
    destruct (goes_on && _); [|apply Hconsumes].
  all: apply quiet_bind; [apply quiet_walk_step|]; intros [k'|found next|failure]; [apply IH| |apply IH].
  all: apply quiet_bind; [apply quiet_peek|]; intros [err|]; apply IH.
Qed.
Lemma quiet_DiscoverDirectory p root budget : quiet (DiscoverDirectory p root budget).
Proof.
  unfold DiscoverDirectory. cbv zeta.
  repeat match goal with |- quiet (if ?b then _ else _) => destruct b; [apply quiet_throw|] end.
  apply quiet_bind; [apply moves_quiet_stat|]. intros entry.
  destruct (negb _); [apply quiet_throw|apply quiet_ret].
Qed.
Lemma quiet_each_item {A} p root budget (consume : A → DiscoveredItem → M W (A * option error)) turns acc :
  (∀ acc item, quiet (consume acc item)) →
  quiet (each_item (DiscoverDirectory p root budget) (walk_step p root budget) root budget cancels ahead
           consume turns acc).
Proof.
  intros Hc. unfold each_item. apply quiet_bind; [apply quiet_attempt, quiet_DiscoverDirectory|].
  intros [k|e]; [by apply quiet_take_items|apply quiet_ret].
Qed.

(** The loops over what was discovered or listed. *)
Lemma quiet_verifyDirectoryMove source destination sourceRoot budget :
  quiet (verifyDirectoryMove (H := H) scheduler control ctx_Err fuel journal cancels ahead plan source
           destination sourceRoot final budget).
Proof.
  unfold verifyDirectoryMove. apply quiet_bind; [|intros r; apply quiet_or_return].
  apply quiet_each_item. intros u item. unfold as_error. apply quiet_bind; [|intros err; apply quiet_ret].
  apply quiet_bind; [|intros r; apply quiet_ret]. apply quiet_attempt. unfold verify_item. cbv zeta.
  destruct (_ =? _)%string.
  { apply quiet_bind; [apply moves_quiet_stat|]. intros found.
    destruct (negb _); [apply quiet_throw|apply quiet_ret]. }
  destruct (_ =? _)%string; [|apply quiet_throw].
  intros h. eapply runs_conseq; [apply moves_verifyMoveFile|]. by intros [].
Qed.
Lemma moves_each_entry h (body : Entry → M W ()) entries :
  (∀ h entry, moves h (body entry) (returning (λ _ _, True))) →
  moves h (each_entry body entries) (returning (λ _ _, True)).
Proof.
  intros Hb. revert h. induction entries as [|entry entries IH]; intros h; cbn; [by apply runs_ret|].
  eapply runs_seq; [apply Hb|]. auto.
Qed.

Section Tree.
Context (source : Provider W) (mutable : MutableProvider W) (destination : Provider W).
Context (budget : DiscoveryBudget) `{!StatLaw source}.
Context (Hdir : ref_Kind (Source plan) = EntryDirectory).
Local Abbreviation root := (ref_Location (Source plan)).
Local Abbreviation loop := (move_loop (H := H) scheduler control ctx_Err fuel journal plan source mutable
  destination budget).

Lemma move_entry_moves recurse directory target h entry :
  paired root final directory target →
  (∀ h child childTarget, paired root final child childTarget →
    moves h (recurse child childTarget) (returning (λ _ _, True))) →
  moves h (move_entry (H := H) scheduler control ctx_Err fuel journal plan source mutable destination
             recurse directory target entry) (returning (λ _ _, True)).
Proof.
  intros Hp Hrec. unfold move_entry. apply runs_bind, runs_lift.
  destruct (validateDiscoveredEntry directory directory entry) as [name|e] eqn:Ev; [|done].
  cbn [then_]. cbv zeta. pose proof (paired_child _ _ _ _ _ _ Hp Ev) as Hc.
  destruct (_ =? _)%string.
  { eapply runs_seq; [apply moves_verifyMoveFile|]. intros [] h1 _ Hs.
    eapply runs_conseq; [apply moves_remove|by intros []].
    unfold removable. rewrite Hdir. cbn. eauto 10. }
  destruct (_ =? _)%string; [by apply Hrec|by apply runs_throw].
Qed.
Lemma move_loop_moves turns directory target depth h :
  paired root final directory target →
  moves h (loop turns directory target depth) (returning (λ _ h', gone h' directory)).
Proof.
  revert directory target depth h. induction turns as [|turns IH]; intros directory target depth h Hp;
    cbn [move_loop]; [by apply runs_running|].
  apply runs_bind, runs_List. intros [page|e]; (split; [done|]); [|done]. cbn [then_].
  destruct (page_Entries page) as [|entry entries] eqn:Epage.
  - eapply runs_seq; [by apply moves_stat|]. intros self h1 Hpre [Hseen Hself].
    rewrite <-Hself. apply moves_remove. unfold removable. rewrite Hdir. cbn.
    exists (entry_Fingerprint self), target. rewrite Hself. split_and!; [done..|]. right.
    split; [|by exists self]. eapply listed_empty_mono; [done|].
    eexists _, page. split; [apply in_last|done].
  - eapply runs_seq; [|intros _ h1 _ _; by apply IH]. apply moves_each_entry. intros h1 e.
    eapply move_entry_moves; [done|]. intros h2 child childTarget Hc.
    destruct (_ >=? _); [by apply runs_throw|]. eapply runs_conseq; [by apply IH|]. by intros [].
Qed.
Lemma deleteVerifiedDirectory_moves h :
  moves h (deleteVerifiedDirectory (H := H) scheduler control ctx_Err fuel journal plan source mutable
             destination budget root final 0) (returning (λ _ h', gone h' root)).
Proof.
  unfold deleteVerifiedDirectory. past. apply move_loop_moves. apply paired_root.
Qed.
End Tree.

Lemma moves_or_retained {A} h prefix (m : M W A) k (V : A → list event → Prop) (U : bool * string → list event → Prop) :
  moves h m (returning V) →
  (∀ a h', h `prefix_of` h' → V a h' → moves h' (k a) (returning U)) →
  (∀ reason h', U (false, reason) h') →
  moves h (or_retained prefix m k) (returning U).
Proof.
  intros Hm Hk Hu. unfold or_retained. apply runs_bind, runs_attempt.
  eapply runs_conseq; [exact Hm|]. intros [a|e| |] h' Hp HV; cbn in *; [by apply Hk| |done..].
  apply runs_ret. apply Hu.
Qed.

(** What [finishMove] answers. *)
Definition settled (answer : bool * string) (h : list event) : Prop :=
  answer.1 = true → gone h (ref_Location (Source plan)).
Lemma settled_false reason h : settled (false, reason) h.
Proof. done. Qed.

Lemma finish_file_moves h p mutable : StatLaw p →
  String.eqb (ref_Kind (Source plan)) EntryDirectory = false →
  moves h (finish_file plan p mutable) (returning settled).
Proof.
  intros Hlaw Hk. unfold finish_file. set (l := ref_Location (Source plan)).
  assert (moves h (attempt (stat p l)) (returning (λ r h', match r with
    | Ok entry => observed h' l entry ∧ entry_Location entry = l
    | Err err => IsCode err CodeNotFound = true → gone h' l end))) as Hstat.
  { intros w o t w' E. destruct (moves_attempt_stat h p l w o t w' E) as [Ho Hr]. split; [done|].
    destruct o as [[entry|]| | |]; try done. split; [done|].
    pose proof (returns_attempt _ _ (returns_stat p l Hlaw) w _ _ _ E) as Hs. by apply Hs. }
  eapply runs_seq; [exact Hstat|]. intros [entry|err] h1 _ Hs.
  - destruct (_ || _) eqn:Eg; [by apply runs_ret|].
    apply orb_false_iff in Eg as [E1%negb_false_iff E2%negb_false_iff].
    apply String.eqb_eq in E1. apply bool_decide_eq_true in E2. destruct Hs as [Hs Hl].
    eapply moves_or_retained; [apply moves_remove| |done].
    + unfold removable. rewrite Hk. cbn. rewrite Hl, E2. split_and!; [done..|]. by exists entry.
    + intros [] h2 _ Hg. apply runs_ret. intros _. cbn in Hg. by rewrite Hl in Hg.
  - destruct (IsCode err CodeNotFound); apply runs_ret; [|done]. intros _. by apply Hs.
Qed.
Lemma finish_directory_moves h p mutable result : StatLaw p →
  result_Final result = final → ref_Kind (Source plan) = EntryDirectory →
  moves h (finish_directory (H := H) Resolve scheduler control ctx_Err fuel journal cancels ahead plan
             result p mutable) (returning settled).
Proof.
  intros Hlaw Hf Hk. unfold finish_directory. rewrite Hf.
  eapply runs_seq; [apply moves_attempt_stat|]. intros [entry|err] h1 _ Hs.
  2: { destruct (IsCode err CodeNotFound); apply runs_ret; [|done]. intros _. by apply Hs. }
  destruct (Resolve _) as [destination|]; [|by apply runs_ret].
  apply runs_bind, runs_deref. destruct (Discovery plan) as [budget|]; [|done]. cbn [then_].
  eapply moves_or_retained; [apply quiet_verifyDirectoryMove| |apply settled_false]. intros _ h2 _ _.
  eapply moves_or_retained; [by apply deleteVerifiedDirectory_moves| |apply settled_false].
  intros [] h3 _ Hg. apply runs_ret. by intros _.
Qed.
Lemma finishMove_moves h result : honest Resolve → result_Final result = final →
  moves h (finishMove (H := H) Resolve scheduler control ctx_Err fuel journal cancels ahead plan result)
    (returning settled).
Proof.
  intros Hh Hf. unfold finishMove. destruct (Resolve _) as [source|] eqn:Er; [|by apply runs_ret].
  destruct (mutable_facet source) as [mutable|]; [|by apply runs_ret].
  destruct (SourceDeleteCapability plan) as [capability|]; [|by apply runs_ret].
  eapply (moves_or_retained _ _ _ _ (λ _ _, True)); [|intros _ h1 _ _|apply settled_false].
  - eapply runs_conseq; [eapply runs_emits; [apply harmless_capability|]|by intros []].
    apply harmless_allowed.
  - destruct (String.eqb_spec (ref_Kind (Source plan)) EntryDirectory) as [Ek|Ek].
    + by apply finish_directory_moves; [eapply Hh| |].
    + apply finish_file_moves; [by eapply Hh|]. by apply String.eqb_neq.
Qed.
End Facts.

(** C25: the second half of a move deletes nothing that is not proved to be safe.
    Whatever the providers answer and however the walk interleaves, every removal
    it asks for carries the fingerprint of what was seen, and is of the file that
    was planned, still as it was frozen; or, in the tree of a planned directory,
    of a file whose whole content was read back and has the digest of the file of
    the same relative place under the committed destination, or of a directory that
    a listing showed empty.  Nothing else is mutated, and the move is reported as
    done only when the source was seen to be gone. *)
Theorem finishMove_safe {W H} `{HashLaws H} (Resolve : string → result error (Provider W))
    scheduler control ctx_Err fuel journal cancels ahead plan result w answer t w' :
  honest Resolve →
  finishMove (H := H) Resolve scheduler control ctx_Err fuel journal cancels ahead plan result w =
    (answer, t, w') →
  (∀ pre ev post, t = pre ++ ev :: post → move_rule (H := H) plan (result_Final result) pre ev) ∧
  (∀ reason, answer = Returned (true, reason) → gone t (ref_Location (Source plan))).
Proof.
  intros Hh E.
  destruct (finishMove_moves (H := H) Resolve scheduler control ctx_Err fuel journal cancels ahead plan
    (result_Final result) [] result Hh eq_refl w answer t w' E) as [Ho Hs].
  split.
  - intros pre ev post Et. exact (obeys_split _ [] t pre ev post Ho Et).
  - intros reason ->. exact (Hs eq_refl).
Qed.
