(* ===== verification/DirectoryFacts.v ===== *)
(** What a directory's streams have done when the directory is recorded as
    committed, what they write, and within which limits they run. *)
From stdpp Require Import sorting.
From S2P Require Import Prelude Domain GoPath Provider DirectProtocol Bandwidth Plan TokenBucket Admission.
From S2P Require Import Checkpoint Effects Logic Mutation Stream StreamFacts Worker Move.
From S2P Require Import Execute DirectoryCopy DirectoryStreams.

Section Facts.
Context {W V H : Type} `{HashLaws H} (worker : Worker W).
Context (plan : Plan) (budget : DiscoveryBudget) (resuming : bool).
Context (source destinationProvider : Provider W) (destination : MutableProvider W).
Context (file_worker : Worker V → Prop) (start : DirCheckpoint).
Local Abbreviation root := (ref_Location (Source plan)).
(** Where the directory goes. *)
Definition goal : Location := cp_Final (dir_Checkpoint start).

(** * What has been seen and done *)
Definition page_request (directory : Location) (cursor : string) : ListRequest :=
  mkListRequest directory cursor (PageItems budget) None.
Definition listed (h : list sevent) (directory : Location) (cursor : string) (page : ListPage) : Prop :=
  SCall (EvList (page_request directory cursor) (Ok page)) ∈ h.
Definition discovered (h : list sevent) (entry : Entry) (relative : string) : Prop :=
  ∃ directory cursor page, listed h directory cursor page ∧ entry ∈ page_Entries page ∧
    validateDiscoveredEntry root directory entry = Ok relative.
(** The cursors that the pages of a directory lead to, and a listing to its end. *)
Inductive reached (h : list sevent) (directory : Location) : string → Prop :=
| reached_first : reached h directory ""
| reached_next cursor page :
    reached h directory cursor → listed h directory cursor page → page_Done page = false →
    reached h directory (page_NextCursor page).
Definition fully_listed (h : list sevent) (directory : Location) : Prop :=
  ∃ cursor page, reached h directory cursor ∧ listed h directory cursor page ∧ page_Done page = true.

(** A file was copied by a run of its plan that ended well, or both files have
    been read and have the same digest; a directory was there or was made. *)
Definition same_digest (h : list sevent) (entry : Entry) (l : Location) : Prop :=
  ∃ h1 t h2 fp sum, h = h1 ++ (SCall <$> t) ++ h2 ∧
    has_readback H (entry_Location entry) (entry_Fingerprint entry) sum t ∧ has_readback H l fp sum t.
Definition directory_at (h : list sevent) (l : Location) : Prop :=
  (∃ found, SCall (EvStat (mkStatRequest l false) (Ok found)) ∈ h ∧ entry_Kind found = EntryDirectory) ∨
  ∃ made, SCall (EvMkdir (mkMkdirRequest l true) (Ok made)) ∈ h.
Definition copied (h : list sevent) (entry : Entry) (relative : string) : Prop :=
  (∃ r, SEnd (directoryFilePlan plan entry relative goal) (Ok (r, None)) ∈ h ∧
     Outcome r ≠ OutcomeWaitingConflict) ∨
  same_digest h entry (childLocation goal relative).
Definition handled (h : list sevent) (entry : Entry) (relative : string) : Prop :=
  (entry_Kind entry = EntryFile → copied h entry relative) ∧
  (entry_Kind entry = EntryDirectory → directory_at h (childLocation goal relative)).
(** Everything under the root was listed, and all of it handled. *)
Definition finished (h : list sevent) : Prop :=
  fully_listed h root ∧
  ∀ directory cursor page entry, listed h directory cursor page → entry ∈ page_Entries page →
    ∃ relative, validateDiscoveredEntry root directory entry = Ok relative ∧ handled h entry relative ∧
      (entry_Kind entry = EntryDirectory → fully_listed h (entry_Location entry)).

Lemma in_app {A} (x : A) h t : x ∈ h → x ∈ h ++ t.
Proof. intros Hx. apply elem_of_app. by left. Qed.
Lemma discovered_app h t entry relative : discovered h entry relative → discovered (h ++ t) entry relative.
Proof. intros (d & c & p & Hl & ?). exists d, c, p. split; [by apply in_app|done]. Qed.
Lemma reached_app h t directory cursor : reached h directory cursor → reached (h ++ t) directory cursor.
Proof. induction 1; [constructor|]. eapply reached_next; [done|by apply in_app|done]. Qed.
Lemma fully_listed_app h t directory : fully_listed h directory → fully_listed (h ++ t) directory.
Proof. intros (c & p & ? & ? & ?). exists c, p. split_and!; [by apply reached_app|by apply in_app|done]. Qed.
Lemma same_digest_app h t entry l : same_digest h entry l → same_digest (h ++ t) entry l.
Proof. intros (h1 & t1 & h2 & fp & sum & -> & ?). exists h1, t1, (h2 ++ t), fp, sum. by rewrite <-!app_assoc. Qed.
Lemma directory_at_app h t l : directory_at h l → directory_at (h ++ t) l.
Proof. intros [(f & ? & ?)|[m ?]]; [left|right]; eexists; [split; [by apply in_app|done]|by apply in_app]. Qed.
Lemma handled_app h t entry relative : handled h entry relative → handled (h ++ t) entry relative.
Proof.
  intros [Hf Hd]. split; intros Hk; [|by apply directory_at_app, Hd].
  destruct (Hf Hk) as [(r & ? & ?)|?]; [left; exists r; split; [by apply in_app|done]|right].
  by apply same_digest_app.
Qed.

(** * The handlers that steps are made of *)
Lemma does_sees {A} P (m : M W A) t o Q : does m t o → sees P m Q → Forall P t ∧ Q o t.
Proof. intros (w & w' & E) Hm. by apply (Hm w o t w'). Qed.
Lemma does_runs {A} R (m : M W A) t o Q h : does m t o → runs R h m Q → obeys R h t ∧ Q o (h ++ t).
Proof. intros (w & w' & E) Hm. by apply (Hm w o t w'). Qed.

(** What the loop calls that is not a listing: it reads, and may make one
    directory. *)
Definition reads_only (ev : event) : Prop :=
  match ev with
  | EvStat _ _ | EvOpenRead _ _ | EvRead _ _ _ | EvCloseRead _ _ | EvReport _ _ _ _ | EvWait _ _
  | EvControl _ _ => True
  | _ => False
  end.
Definition makes (l : Location) (ev : event) : Prop :=
  match ev with EvMkdir request _ => request = mkMkdirRequest l true | _ => reads_only ev end.
Lemma verifying_reads l ev : verifying l ev → reads_only ev.
Proof. by destruct ev. Qed.

Lemma sees_stat p l : sees reads_only (stat (W := W) p l) (λ o t, ∀ r, o = Returned r →
  t = [EvStat (mkStatRequest l false) (Ok r)]).
Proof. apply sees_Stat. intros [r|e]; (split; [done|]); [by intros r' [= <-]|done]. Qed.
Lemma sees_attempt_stat P p l : (∀ ev, reads_only ev → P ev) →
  sees P (attempt (stat (W := W) p l)) (returning (λ r t, match r with
    | Ok found => t = [EvStat (mkStatRequest l false) (Ok found)] | Err _ => True end)).
Proof.
  intros HP. apply sees_attempt, sees_Stat. intros [r|e]; (split; [by apply HP|]); done.
Qed.

Lemma ensureDirectory_sees l :
  sees (makes l) (ensureDirectory destinationProvider destination l)
    (returning (λ _ t, directory_at (SCall <$> t) l)).
Proof.
  unfold ensureDirectory. eapply sees_seq; [apply sees_attempt_stat; by intros []|].
  intros [found|e] t Ht Ho.
  - destruct (String.eqb_spec (entry_Kind found) EntryDirectory) as [Ek|]; cbn [negb]; [|by apply sees_throw].
    apply sees_ret. left. exists found. subst t. cbn. split; [by left|done].
  - destruct (negb _); [by apply sees_throw|].
    eapply (sees_seq _ _ _ (λ made t', t' = [EvMkdir (mkMkdirRequest l true) (Ok made)])).
    { intros w o t' w' E. unfold call_Mkdir, answer in E. destruct (Mkdir _ _ w) as [[made|err] w1];
        injection E as <- <- <-; by repeat constructor. }
    intros made t' _ ->. apply sees_ret. right. exists made. rewrite app_nil_r, fmap_app.
    apply elem_of_app. right. by left.
Qed.

(** Reading both files for their digests. *)
Lemma verify_sees journal p0 p l fp buffer :
  sees reads_only (verifyFile (H := H) (w_scheduler worker) (w_control worker) (w_ctx_Err worker)
    (w_fuel worker) journal p0 None p l fp buffer) (returning (has_readback H l fp)).
Proof.
  eapply sees_conseq; [apply (sees_weaken _ (verifying l)); [apply verifyFile_sees; exact _|apply verifying_reads]|].
  by intros o t _ [_ HQ].
Qed.
Lemma both_verified_sees {A} journal p0 p1 p2 l1 fp1 l2 fp2 buffer (f : string → string → M W A) (Q : A → Prop) :
  (∀ s1 s2, sees reads_only (f s1 s2) (returning (λ a t, t = [] ∧ (Q a → s1 = s2)))) →
  sees reads_only (s1 ← verifyFile (H := H) (w_scheduler worker) (w_control worker) (w_ctx_Err worker)
      (w_fuel worker) journal p0 None p1 l1 fp1 buffer;
    s2 ← verifyFile (H := H) (w_scheduler worker) (w_control worker) (w_ctx_Err worker)
      (w_fuel worker) journal p0 None p2 l2 fp2 buffer;
    f s1 s2)
    (returning (λ a t, Q a → ∃ sum, has_readback H l1 fp1 sum t ∧ has_readback H l2 fp2 sum t)).
Proof.
  intros Hf. eapply sees_seq; [apply verify_sees|]. intros s1 t1 _ HR1.
  eapply sees_seq; [apply verify_sees|]. intros s2 t2 _ HR2.
  eapply sees_conseq; [apply Hf|]. intros [a| | |] t3 _; cbn; [|done..]. intros [-> Heq] HQ.
  exists s1. rewrite app_nil_r. split; [by apply has_readback_app|].
  rewrite (Heq HQ). by apply has_readback_prefix.
Qed.

Lemma validated_file_sees item l :
  entry_Kind (item_Entry item) = EntryFile →
  sees reads_only (validate_stream_item (H := H) worker plan source destinationProvider item l)
    (returning (λ x t, x.1 = true → ∃ fp sum,
       has_readback H (entry_Location (item_Entry item)) (entry_Fingerprint (item_Entry item)) sum t ∧
       has_readback H l fp sum t)).
Proof.
  intros Hk. unfold validate_stream_item. rewrite Hk. cbv zeta. cbn [String.eqb negb]. rewrite String.eqb_refl.
  cbn [negb]. eapply sees_seq; [by apply (sees_attempt_stat reads_only)|]. intros [found|e] t0 _ _.
  2: { destruct (IsCode e CodeNotFound); [by apply sees_ret|by apply sees_throw]. }
  eapply sees_conseq; [apply (both_verified_sees _ _ _ _ _ _ _ _ _ _ (λ x, x.1 = true))|].
  - intros s1 s2. destruct (String.eqb_spec s1 s2) as [->|]; cbn [negb]; [|by apply sees_throw].
    destruct (md_Size _); [by apply sees_ret|by apply sees_throw].
  - intros [x| | |] t _; cbn; [|done..]. intros HQ Hx. destruct (HQ Hx) as (sum & ? & ?).
    exists (entry_Fingerprint found), sum. split; by apply has_readback_prefix.
Qed.
Lemma validated_directory_sees item l :
  entry_Kind (item_Entry item) ≠ EntryFile →
  sees reads_only (validate_stream_item (H := H) worker plan source destinationProvider item l)
    (returning (λ x t, x.1 = true → entry_Kind (item_Entry item) = EntryDirectory → directory_at (SCall <$> t) l)).
Proof.
  intros Hk. unfold validate_stream_item, validateOwnedDirectoryItem. cbv zeta. apply String.eqb_neq in Hk.
  rewrite Hk. cbn [negb]. destruct (String.eqb_spec (entry_Kind (item_Entry item)) EntryDirectory) as [Ed|].
  2: by apply sees_ret; cbn; intros _ Hd.
  eapply sees_seq; [by apply (sees_attempt_stat reads_only)|]. intros [found|e] t0 _ Ht.
  2: { destruct (IsCode e CodeNotFound); [by apply sees_ret|by apply sees_throw]. }
  destruct (String.eqb_spec (entry_Kind found) EntryDirectory) as [Ef|]; cbn [negb]; [|by apply sees_throw].
  apply sees_ret. cbn. intros _ _. left. exists found. rewrite app_nil_r. subst t0. split; [by left|done].
Qed.
Lemma discover_sees :
  sees reads_only (DiscoverDirectory source root budget) (returning (λ k _, k = walk_start root)).
Proof.
  unfold DiscoverDirectory. cbv zeta.
  repeat match goal with |- sees _ (if ?b then _ else _) _ => destruct b; [by apply sees_throw|] end.
  eapply (sees_seq _ _ _ (λ _ _, True)); [eapply sees_conseq; [apply sees_stat|by intros []]|].
  intros entry t _ _. destruct (negb _); [by apply sees_throw|by apply sees_ret].
Qed.

(** * The walk *)
(** The rest of a directory's listing: it is due to be listed, or the walk is in it. *)
Definition listing (h : list sevent) (k : walk) (d : Location) : Prop :=
  (∃ depth, (d, depth) ∈ wk_frontier k) ∨
  match wk_at k with
  | AtFrontier => False
  | AtPage directory _ cursor => directory = d ∧ reached h d cursor
  | AtEntries directory _ _ next => directory = d ∧ ∃ cursor, next = Some cursor ∧ reached h d cursor
  end.
Definition left_over (k : walk) (d : Location) (entry : Entry) : Prop :=
  match wk_at k with AtEntries directory _ entries _ => directory = d ∧ entry ∈ entries | _ => False end.
Definition to_be_listed (h : list sevent) (p : producer) (d : Location) : Prop :=
  fully_listed h d ∨ match p with inl k => listing h k d | inr _ => False end.
(** Nothing that was listed is lost: an entry is left over in the walk's page, or
    [due], and a directory is listed to its end, sooner or later.  A walk that has
    failed promises nothing. *)
Definition walk_ok (h : list sevent) (p : producer) (due : Entry → string → Prop) : Prop :=
  match p with
  | inr (Some _) => True
  | _ =>
    to_be_listed h p root ∧
    ∀ directory cursor page entry, listed h directory cursor page → entry ∈ page_Entries page →
      match p with inl k => left_over k directory entry | inr _ => False end ∨
      ∃ relative, validateDiscoveredEntry root directory entry = Ok relative ∧ due entry relative ∧
        (entry_Kind entry = EntryDirectory → to_be_listed h p (entry_Location entry))
  end.

Lemma listing_app h t k d : listing h k d → listing (h ++ t) k d.
Proof.
  intros [?|Hk]; [by left|right]. destruct (wk_at k); [done|..].
  - destruct Hk. split; [done|by apply reached_app].
  - destruct Hk as (? & c & ? & ?). split; [done|]. exists c. split; [done|by apply reached_app].
Qed.
Lemma to_be_listed_app h t p d : to_be_listed h p d → to_be_listed (h ++ t) p d.
Proof. intros [?|?]; [left; by apply fully_listed_app|right]. destruct p; [by apply listing_app|done]. Qed.

(** What does not list changes nothing for the walk. *)
Definition lists_nothing (t : list sevent) : Prop := ∀ request r, SCall (EvList request r) ∉ t.
Lemma listed_frame h t directory cursor page :
  lists_nothing t → listed (h ++ t) directory cursor page → listed h directory cursor page.
Proof. intros Ht Hl. apply elem_of_app in Hl as [?|Hl]; [done|]. by apply Ht in Hl. Qed.
Lemma walk_ok_frame h t p (due due' : Entry → string → Prop) :
  lists_nothing t → (∀ entry relative, due entry relative → due' entry relative) →
  walk_ok h p due → walk_ok (h ++ t) p due'.
Proof.
  intros Ht Hd. destruct p as [k|[err|]]; [|done|]; intros [Hr He]; (split; [by apply to_be_listed_app|]);
    intros d c page e Hl Hin; destruct (He d c page e (listed_frame _ _ _ _ _ Ht Hl) Hin) as
      [?|(r & ? & ? & ?)]; try (by left); right; exists r; (split_and!; [done|by apply Hd|]);
    intros Hk; apply to_be_listed_app; auto.
Qed.

Lemma walk_ok_weaken h p (due due' : Entry → string → Prop) :
  (∀ entry relative, due entry relative → due' entry relative) → walk_ok h p due → walk_ok h p due'.
Proof.
  intros Hd Hok. rewrite <-(app_nil_r h). apply (walk_ok_frame _ _ _ due); [|done..].
  by intros ? ? ?%not_elem_of_nil.
Qed.

(** An action of the walk; what it hands over is due from then on. *)
Definition handed (x : walked) (entry : Entry) (relative : string) : Prop :=
  match x with Found item _ => item_Entry item = entry ∧ item_RelativePath item = relative | _ => False end.
Definition walk_after (x : walked) : producer :=
  match x with
  | Walking k => inl k
  | Ended failure => inr failure
  | Found _ (Ok k) => inl k
  | Found _ (Err err) => inr (Some err)
  end.
(** The walk's state moves on, and nothing is listed. *)
Lemma walk_ok_moves h k p (due due' : Entry → string → Prop) :
  match p with inr (Some _) => False | _ => True end →
  (∀ d, listing h k d → to_be_listed h p d) →
  (∀ entry relative, due entry relative → due' entry relative) →
  (∀ d entry, left_over k d entry →
    match p with inl k => left_over k d entry | inr _ => False end ∨
    ∃ relative, validateDiscoveredEntry root d entry = Ok relative ∧ due' entry relative ∧
      (entry_Kind entry = EntryDirectory → to_be_listed h p (entry_Location entry))) →
  walk_ok h (inl k) due → walk_ok h p due'.
Proof.
  intros Hp Hl Hd Ho [Hr He].
  assert (∀ d, to_be_listed h (inl k) d → to_be_listed h p d) as Ht.
  { intros d [?|?]; [by left|by apply Hl]. }
  destruct p as [k'|[err|]]; [|done|]; (split; [by apply Ht|]); intros d c page e Hli Hin;
    (destruct (He d c page e Hli Hin) as [?|(r & ? & ? & ?)]; [by apply Ho|]); right; exists r;
    (split_and!; [done|by apply Hd|]); auto.
Qed.
(** A page is listed. *)
Lemma walk_ok_page h directory depth cursor frontier page (due : Entry → string → Prop) :
  let t := [SCall (EvList (page_request directory cursor) (Ok page))] in
  walk_ok h (inl (mkWalk frontier (AtPage directory depth cursor))) due →
  walk_ok (h ++ t) (inl (mkWalk frontier (AtEntries directory depth (page_Entries page)
    (if page_Done page then None else Some (page_NextCursor page))))) due.
Proof.
  intros t [Hr He]. set (p := inl _).
  assert (listed (h ++ t) directory cursor page) as Hnew by (apply elem_of_app; right; by left).
  assert (∀ d, to_be_listed h (inl (mkWalk frontier (AtPage directory depth cursor))) d → to_be_listed (h ++ t) p d)
    as Ht.
  { intros d [?|[?|[<- Hc]]]; [left; by apply fully_listed_app|right; by left|].
    apply (reached_app _ t) in Hc. destruct (page_Done page) eqn:Ed.
    - left. by exists cursor, page.
    - right. right. subst p. cbn. split; [done|]. eexists. split; [done|]. by eapply reached_next. }
  split; [by apply Ht|]. intros d c pg e Hl Hin. apply elem_of_app in Hl as [Hl|Hl].
  - right. destruct (He d c pg e Hl Hin) as [[]|(r & ? & ? & ?)]. exists r. split_and!; auto.
  - apply list_elem_of_singleton in Hl. injection Hl as -> -> ->. left. done.
Qed.

(** The actions of the walk, one by one. *)
Inductive walks : walk → list event → walked → Prop :=
| walks_end : walks (mkWalk [] AtFrontier) [] (Ended None)
| walks_next directory depth rest :
    walks (mkWalk ((directory, depth) :: rest) AtFrontier) [] (Walking (mkWalk rest (AtPage directory depth "")))
| walks_page frontier directory depth cursor page :
    walks (mkWalk frontier (AtPage directory depth cursor)) [EvList (page_request directory cursor) (Ok page)]
      (Walking (mkWalk frontier (AtEntries directory depth (page_Entries page)
                                   (if page_Done page then None else Some (page_NextCursor page)))))
| walks_no_page frontier directory depth cursor r err :
    walks (mkWalk frontier (AtPage directory depth cursor)) [EvList (page_request directory cursor) r]
      (Ended (Some err))
| walks_more frontier directory depth cursor :
    walks (mkWalk frontier (AtEntries directory depth [] (Some cursor))) []
      (Walking (mkWalk frontier (AtPage directory depth cursor)))
| walks_done frontier directory depth :
    walks (mkWalk frontier (AtEntries directory depth [] None)) [] (Walking (mkWalk frontier AtFrontier))
| walks_found frontier directory depth entry entries next relative itemDepth :
    validateDiscoveredEntry root directory entry = Ok relative →
    walks (mkWalk frontier (AtEntries directory depth (entry :: entries) next)) []
      (Found (mkItem entry relative itemDepth)
        (frontier ← extend_frontier budget frontier entry itemDepth;
         Ok (mkWalk frontier (AtEntries directory depth entries next))))
| walks_invalid frontier directory depth entry entries next err :
    walks (mkWalk frontier (AtEntries directory depth (entry :: entries) next)) [] (Ended (Some err)).
Lemma walk_step_walks k t x : does (walk_step source root budget k) t (Returned x) → walks k t x.
Proof.
  intros (w & w' & E). unfold walk_step in E. cbv zeta in E.
  destruct k as [frontier at_]; cbn [wk_frontier wk_at] in E.
  destruct at_ as [|directory depth cursor|directory depth [|entry entries] next];
    [| |destruct next as [next|]|].
  - destruct frontier as [|[d depth] rest]; injection E as <- <- <-; constructor.
  - unfold attempt, mbind, M_bind, call_List, answer in E. fold (page_request directory cursor) in E.
    destruct (List source (page_request directory cursor) w) as [[page|err] w1]; cbn in E.
    + destruct (invalid_page budget page); cbn in E; injection E as <- <- <-; constructor.
    + injection E as <- <- <-. constructor.
  - injection E as <- <- <-. constructor.
  - injection E as <- <- <-. constructor.
  - destruct (validateDiscoveredEntry root directory entry) as [relative|err] eqn:Ev; cbn in E;
      injection E as <- <- <-; by constructor.
Qed.
Lemma extended frontier entry itemDepth f :
  extend_frontier budget frontier entry itemDepth = Ok f →
  f = frontier ∧ entry_Kind entry ≠ EntryDirectory ∨
  f = frontier ++ [(entry_Location entry, itemDepth)] ∧ entry_Kind entry = EntryDirectory.
Proof.
  unfold extend_frontier. destruct (String.eqb_spec (entry_Kind entry) EntryDirectory); cbn [negb].
  - destruct (_ >=? _); [done|]. destruct (_ >=? _); [done|]. intros [= <-]. by right.
  - intros [= <-]. by left.
Qed.
(** An entry is handed over, and what is under it is due with it. *)
Lemma walk_ok_found h frontier directory depth entry entries next relative itemDepth due :
  validateDiscoveredEntry root directory entry = Ok relative →
  walk_ok h (inl (mkWalk frontier (AtEntries directory depth (entry :: entries) next))) due →
  let x := Found (mkItem entry relative itemDepth)
    (frontier ← extend_frontier budget frontier entry itemDepth;
     Ok (mkWalk frontier (AtEntries directory depth entries next))) in
  walk_ok h (walk_after x) (λ e r, due e r ∨ handed x e r).
Proof.
  intros Ev Hok x. unfold walk_after, x.
  destruct (extend_frontier _ _ _ _) as [f|err] eqn:Ef; cbn [mbind result_bind]; [|done].
  apply extended in Ef. eapply walk_ok_moves; [..|exact Hok]; [done|..|by left|].
  - intros d [[dd Hd]|Hd]; right; [left; exists dd|by right].
    destruct Ef as [[-> _]|[-> _]]; [done|by apply in_app].
  - intros d e [<- [->|He]%elem_of_cons]; [|by left]. right. exists relative. split_and!; [done|by right|].
    intros Hk. right. left. exists itemDepth. destruct Ef as [[_ ?]|[-> _]]; [done|].
    apply elem_of_app. right. by left.
Qed.
Lemma walk_step_ok h k t x due :
  does (walk_step source root budget k) t (Returned x) → walk_ok h (inl k) due →
  walk_ok (h ++ (SCall <$> t)) (walk_after x) (λ entry relative, due entry relative ∨ handed x entry relative).
Proof.
  intros Hw%walk_step_walks Hok. destruct Hw; try done; rewrite ?app_nil_r; try by apply walk_ok_found.
  3: eapply (walk_ok_weaken _ (inl _) due); [by left|]; by apply walk_ok_page.
  all: eapply walk_ok_moves; try exact Hok; try done; try (by left).
  - intros d [[depth Hd]|[]]. by apply not_elem_of_nil in Hd.
  - intros d' [[depth' [Hd|Hd]%elem_of_cons]|[]]; right; [right|left; by exists depth'].
    injection Hd as -> ->. split; [done|constructor].
  - intros d [?|(<- & c & [= <-] & ?)]; right; [by left|]. by right.
  - by intros d e [_ []%not_elem_of_nil].
  - intros d [?|(<- & c & ? & ?)]; [right; by left|done].
  - by intros d e [_ []%not_elem_of_nil].
Qed.

(** The walk stays in the tree: it lists the root and directories that it has
    found, and what it hands over was listed. *)
Definition inside (h : list sevent) (d : Location) : Prop :=
  d = root ∨ ∃ entry relative, discovered h entry relative ∧ entry_Kind entry = EntryDirectory ∧
    entry_Location entry = d.
Definition walk_from (h : list sevent) (k : walk) : Prop :=
  (∀ d depth, (d, depth) ∈ wk_frontier k → inside h d) ∧
  match wk_at k with
  | AtFrontier => True
  | AtPage directory _ _ => inside h directory
  | AtEntries directory _ entries _ => inside h directory ∧
      ∀ entry, entry ∈ entries → ∃ cursor page, listed h directory cursor page ∧ entry ∈ page_Entries page
  end.
Lemma inside_app h t d : inside h d → inside (h ++ t) d.
Proof. intros [?|(e & r & ? & ?)]; [by left|right]. exists e, r. split; [by apply discovered_app|done]. Qed.
Lemma walk_from_app h t k : walk_from h k → walk_from (h ++ t) k.
Proof.
  intros [Hf Ha]. split; [intros d depth Hd; by eapply inside_app, Hf|].
  destruct (wk_at k); [done|by apply inside_app|]. destruct Ha as [Hi He].
  split; [by apply inside_app|]. intros e Hin. destruct (He e Hin) as (c & page & ? & ?).
  exists c, page. split; [by apply in_app|done].
Qed.
Lemma walk_start_from h : walk_from h (walk_start root).
Proof. split; [|done]. intros d depth [[= -> _]|[]%not_elem_of_nil]%elem_of_cons. by left. Qed.
Lemma walk_step_from h k t x :
  does (walk_step source root budget k) t (Returned x) → walk_from h k →
  (∀ k', walk_after x = inl k' → walk_from (h ++ (SCall <$> t)) k') ∧
  (∀ ev, ev ∈ t → ∃ directory cursor r, ev = EvList (page_request directory cursor) r ∧ inside h directory) ∧
  (∀ entry relative, handed x entry relative → t = [] ∧ discovered h entry relative).
Proof.
  intros Hw%walk_step_walks [Hf Ha]. split_and!.
  - intros k' Hk. destruct Hw; cbn in Hk; try discriminate Hk; rewrite ?app_nil_r; try (injection Hk as <-).
    + split; [intros d dd Hd; eapply Hf; by right|]. eapply Hf. by left.
    + split; [intros d dd Hd; by eapply inside_app, Hf|]. split; [by apply inside_app|].
      intros e He. exists cursor, page. split; [|done]. apply elem_of_app. right. by left.
    + by destruct Ha as [? _].
    + done.
    + destruct (extend_frontier _ _ _ _) as [f|err] eqn:Ef; cbn in Hk; [|done]. injection Hk as <-.
      destruct Ha as [Hd He]. apply extended in Ef. split; [|split; [done|intros e ?; apply He; by right]].
      intros d dd Hin. cbn in Hin. destruct Ef as [[-> _]|[-> Ek]]; [by eapply Hf|].
      apply elem_of_app in Hin as [Hin|[= -> ->]%list_elem_of_singleton]; [by eapply Hf|]. right.
      destruct (He entry ltac:(by left)) as (c & page & ? & ?). exists entry, relative.
      split; [by exists directory, c, page|done].
  - intros ev Hev. destruct Hw; try (by apply not_elem_of_nil in Hev); apply list_elem_of_singleton in Hev as ->;
      by repeat eexists.
  - intros entry' relative' Hh. destruct Hw; try done. destruct Hh as [<- <-]. split; [done|].
    destruct Ha as [_ He]. destruct (He entry ltac:(by left)) as (c & page & ? & ?).
    by exists directory, c, page.
Qed.
End Facts.
