(* ===== verification/DirectoryRuns.v ===== *)
(** Runs of a directory's streams: invariants of the loop, under every
    interleaving of the loop, the walk and the files' runs. *)
From stdpp Require Import sorting.
From S2P Require Import Prelude Domain GoPath Provider DirectProtocol Bandwidth Plan TokenBucket Admission.
From S2P Require Import Checkpoint Effects Logic Mutation Stream StreamFacts Worker Move.
From S2P Require Import Execute DirectoryCopy DirectoryStreams DirectoryFacts.

(** * The shared state *)
Lemma saveLocked_final s : cp_Final (dir_Checkpoint (ds_root (saveLocked s))) = cp_Final (dir_Checkpoint (ds_root s)).
Proof. unfold saveLocked. cbv zeta. cbn. by destruct (negb _). Qed.
Lemma saveLocked_phase s : cp_Phase (dir_Checkpoint (ds_root (saveLocked s))) = cp_Phase (dir_Checkpoint (ds_root s)).
Proof. unfold saveLocked. cbv zeta. cbn. by destruct (negb _). Qed.

(** What a step may not change about the root before its end. *)
Definition same_root (s s' : directoryStreams) : Prop :=
  cp_Final (dir_Checkpoint (ds_root s')) = cp_Final (dir_Checkpoint (ds_root s)) ∧
  cp_Phase (dir_Checkpoint (ds_root s')) = cp_Phase (dir_Checkpoint (ds_root s)).
Lemma same_root_refl s : same_root s s.
Proof. done. Qed.
Lemma same_root_saveLocked s s' : ds_root s = ds_root s' → same_root s (saveLocked s').
Proof. intros E. split; [rewrite saveLocked_final|rewrite saveLocked_phase]; by rewrite E. Qed.
Lemma same_root_complete name bytes s : same_root s (streams_complete name bytes s).
Proof. by apply same_root_saveLocked. Qed.
Lemma same_root_complete_items name bytes n s : same_root s (streams_complete name bytes (setItems n s)).
Proof. split; unfold streams_complete; by rewrite ?saveLocked_final, ?saveLocked_phase. Qed.
Lemma same_root_journal name s ev s' t : journal_call name s ev s' t → same_root s s'.
Proof.
  intros Hc. destruct Hc as [| |? ? _| |]; try done.
  - unfold stream_Save in *. destruct (ds_active s !! name); [|destruct (_ <=? _); [done|]];
      match goal with He : Ok _ = Ok _ |- _ => injection He as <- end;
      split; by rewrite ?saveLocked_final, ?saveLocked_phase.
Qed.

(** * The steps of the loop that hide a case analysis *)
Definition live (l : loop) : Prop := lp_stop l = None ∧ lp_conflict l = None.
Lemma stopped_live l : stopped l = false ↔ live l.
Proof.
  unfold stopped, live. rewrite orb_false_iff, !bool_decide_eq_false, <-!eq_None_not_Some. done.
Qed.
Section Specs.
Context (plan : Plan).
Record accepted_as (c : child) (answer : answer_of) (rest : list (child * answer_of)) (l l' : loop)
    (t : list sevent) : Prop := {
  as_place : lp_place l' = lp_place l; as_walk : lp_walk l' = lp_walk l; as_queue : lp_queue l' = lp_queue l;
  as_running : lp_running l' = lp_running l; as_done : lp_done l' = rest;
  as_active : lp_active l' = lp_active l - 1;
  as_requests : lp_requests l' = u32 (lp_requests l - item_cost plan (ch_entry c));
  as_live : live l' → live l ∧ ∃ r, answer = Ok (r, None) ∧ Outcome r ≠ OutcomeWaitingConflict;
  as_root : same_root (lp_streams l) (lp_streams l');
  as_saves : t = [] ∨ ∃ saved, t = [SSave (ds_root (lp_streams l')) saved];
}.
Lemma accepted_spec c answer saved rest l l' t :
  accepted plan c answer saved rest l = (l', t) → accepted_as c answer rest l l' t.
Proof.
  unfold accepted, accept, stop_with, count_one. cbv zeta.
  destruct answer as [[r [e|]]|e].
  1, 3: destruct (continuableDirectoryItemError e); intros [= <- <-]; split; try done; try (by left);
    unfold live; cbn; by intros [].
  destruct (String.eqb_spec (Outcome r) OutcomeWaitingConflict) as [|Ho].
  - intros [= <- <-]. split; try done; try (by left). unfold live; cbn. by intros [].
  - intros [= <- <-]. destruct saved as [e|]; (split; try done; [|by apply same_root_complete_items|right; by eexists]).
    + unfold live; cbn. by intros [].
    + intros [Hs Hc]. split; [done|]. by exists r.
Qed.

Record finished_as (l l' : loop) (saved_root : DirCheckpoint) : Prop := {
  fa_place : lp_place l' = AtNext ∨ lp_place l' = AtDrain ∧ ¬ live l';
  fa_walk : lp_walk l' = lp_walk l; fa_queue : lp_queue l' = lp_queue l;
  fa_running : lp_running l' = lp_running l; fa_done : lp_done l' = lp_done l;
  fa_active : lp_active l' = lp_active l; fa_requests : lp_requests l' = lp_requests l;
  fa_live : live l' → live l;
  fa_root : same_root (lp_streams l) (lp_streams l'); fa_saved : saved_root = ds_root (lp_streams l');
}.
Lemma finish_item_spec item bytes saved result l l' saved_root :
  finish_item item bytes saved result l = (l', saved_root) → finished_as l l' saved_root.
Proof.
  unfold finish_item, count_one. cbv zeta. intros [= <- <-].
  destruct saved as [e|]; split; try done; try (by left); try apply same_root_complete_items; cbn;
    unfold live; cbn; try (right; split; [done|]); by intros [].
Qed.
End Specs.

Section Runs.
Context {W V H : Type} `{HashLaws H} (worker : Worker W).
Context (plan : Plan) (budget : DiscoveryBudget) (resuming : bool).
Context (source destinationProvider : Provider W) (destination : MutableProvider W).
Context (file_worker : Worker V → Prop) (start : DirCheckpoint).
Context (start_phase : cp_Phase (dir_Checkpoint start) = PhaseStreaming).
Local Abbreviation root := (ref_Location (Source plan)).
Local Abbreviation final := (goal start).
Local Abbreviation step := (sstep (H := H) worker plan budget resuming source destinationProvider destination file_worker).
Local Abbreviation run := (streams_run (H := H) worker plan budget resuming source destinationProvider destination file_worker start).

Lemma start_root s : start_streams plan start = Ok s → ds_root s = start.
Proof.
  unfold start_streams. destruct (_ <? _); [done|].
  set (s0 := mkStreams _ _ _ _ _ _ _). change start with (ds_root s0) at 3. generalize s0.
  induction (DirectoryChildren start) as [|[name child] cs IH]; intros s1; cbn; [by intros [= ->]|].
  destruct (invalid_child _ _ _); [done|]. destruct (negb _); [done|]. intros Hs. by apply IH in Hs.
Qed.

(** ** The root *)
Definition ended (l : loop) : bool := match lp_place l with AtEnd _ => true | _ => false end.
(** The steps, with what they accepted or finished. *)
Ltac steps Hs := destruct Hs;
  try match goal with
  | Ha : accepted _ _ _ _ _ _ = _ |- _ => apply accepted_spec in Ha as []
  | Ha : finish_item _ _ _ _ _ = _ |- _ => apply finish_item_spec in Ha as []
  end.
Lemma step_root l t l' : step l t l' → same_root (lp_streams l) (lp_streams l') ∨
  ended l' = true ∧ lp_place l = AtSave ∧ lp_streams l' = saveLocked (lp_streams (ending plan l)).
Proof.
  intros Hs. steps Hs; try (by left); try (by right; subst); left.
  - by eapply same_root_journal.
  - by destruct x as [|? []|].
  - subst. apply same_root_complete.
  - by destruct action.
Qed.
Lemma step_ended l t l' : step l t l' → ended l' = false → ended l = false.
Proof.
  intros Hs He. destruct Hs; try exact He; try (unfold ended; by match goal with Hp : lp_place _ = _ |- _ => rewrite Hp end).
  - by destruct x as [|? []|].
Qed.
Lemma run_root h l : run h l → ended l = false →
  cp_Final (dir_Checkpoint (ds_root (lp_streams l))) = final ∧
  cp_Phase (dir_Checkpoint (ds_root (lp_streams l))) = PhaseStreaming.
Proof.
  induction 1 as [s Hs|h l t l' _ IH Hs]; intros He; [by cbn; rewrite (start_root s Hs)|].
  destruct (IH (step_ended _ _ _ Hs He)) as [Hf Hp].
  destruct (step_root _ _ _ Hs) as [[-> ->]|[]]; [done|congruence].
Qed.

(** ** Before the walk *)
Definition restored (c : child) : Prop :=
  (∃ saved, (ch_name c, saved) ∈ DirectoryChildren start ∧ ch_entry c = saved_entry plan (ch_name c) saved) ∧
  ch_plan c = directoryFilePlan plan (ch_entry c) (ch_name c) final.
Record early (h : list sevent) (l : loop) : Prop := {
  ea_walk : lp_walk l = inr None; ea_queue : lp_queue l = []; ea_done : lp_done l = [];
  ea_active : lp_active l = 0; ea_requests : lp_requests l = 0; ea_live : live l;
  ea_lists : lists_nothing h;
  ea_running : lp_running l = [] ∨ ∃ c, lp_running l = [c] ∧ restored c;
}.
Definition at_start (h : list sevent) (l : loop) : Prop :=
  match lp_place l with
  | AtSaved children => early h l ∧ ∀ x, x ∈ children → x ∈ DirectoryChildren start
  | AtWalk => early h l ∧ lp_running l = []
  | _ => True
  end.
Lemma lists_nothing_app h t : lists_nothing h → lists_nothing t → lists_nothing (h ++ t).
Proof. intros Hh Ht r p [?|?]%elem_of_app; [by eapply Hh|by eapply Ht]. Qed.
Lemma journal_lists name s ev s' t p : journal_call name s ev s' t → lists_nothing (t ++ [SChild p ev]).
Proof.
  intros Hc r rr Hin. destruct Hc; repeat (apply elem_of_cons in Hin as [Hin|Hin]; [done|]);
    by apply not_elem_of_nil in Hin.
Qed.
Lemma lists_nothing_nil : lists_nothing [].
Proof. by intros ? ? ?%not_elem_of_nil. Qed.
Lemma early_frame h t l l' :
  early h l → lists_nothing t →
  lp_walk l' = lp_walk l → lp_queue l' = lp_queue l → lp_done l' = lp_done l → lp_active l' = lp_active l →
  lp_requests l' = lp_requests l → lp_stop l' = lp_stop l → lp_conflict l' = lp_conflict l →
  (lp_running l' = [] ∨ ∃ c, lp_running l' = [c] ∧ restored c) → early (h ++ t) l'.
Proof.
  intros [] Ht Hw Hq Hd Ha Hr Hs Hc Hn. split; rewrite ?Hw, ?Hq, ?Hd, ?Ha, ?Hr; try done.
  - unfold live in *. by rewrite Hs, Hc.
  - by apply lists_nothing_app.
Qed.
Lemma run_start h l : run h l → at_start h l.
Proof.
  induction 1 as [s Hs|h l t l' Hrun IH Hs].
  { split; [split; try done; [by intros ? ? ?%not_elem_of_nil|by left]|by cbn; rewrite (start_root s Hs)]. }
  unfold at_start in *. steps Hs; try exact I; try (by destruct (stopped _)); try (by destruct (String.eqb _ _));
    try (by destruct action); try (destruct fa_place0 as [->|[-> _]]; exact I); cbn;
    try match goal with Hp : lp_place l = _ |- _ => rewrite Hp in IH; rewrite ?Hp end.
  - destruct (lp_place l) eqn:Ep; try exact I; destruct IH as [He Hr].
    + split; [|done]. eapply early_frame; try exact He; try done; [by eapply journal_lists|].
      right. destruct (ea_running _ _ He) as [Hn|(c0 & Hn & Hc)]; rewrite Hn in H2.
      * by destruct before.
      * destruct before as [|? []]; [|done..]. injection H2 as <- <-. by eexists.
    + rewrite Hr in H2. by destruct before.
  - unfold main_place in H2. by destruct (lp_place l).
  - unfold after_walk. destruct x as [?|?|?]; cbn; destruct (lp_place l); try exact I; destruct IH as [He _];
      by rewrite (ea_walk _ _ He) in H2.
  - destruct (lp_place l); try exact I; destruct IH as [He _]; by rewrite (ea_walk _ _ He) in H2.
  - destruct IH as [He Hr]. split; [|done]. eapply early_frame; try exact He; try done; [apply lists_nothing_nil|].
    right. eexists. split; [done|]. split; [eexists; split; [apply Hr; by left|done]|].
    cbn. destruct (run_root _ _ Hrun) as [-> _]; [|done]. unfold ended. by rewrite H2.
  - destruct IH as [He Hr]. destruct saved; [exact I|]. split; [|intros x Hx; apply Hr; by right].
    eapply early_frame; try exact He; try done; [|by left].
    intros r' p' [|[|[]%not_elem_of_nil]%elem_of_cons]%elem_of_cons; done.
  - destruct IH as [He Hr]. split; [|done]. eapply early_frame; try exact He; try done; [apply lists_nothing_nil|].
    by left.
Qed.

(** ** The files under way *)
Definition children (l : loop) : list child := lp_running l ++ (lp_done l).*1.
Definition placed (p : place) : list DiscoveredItem :=
  match p with AtSlot i | AtOthers i | AtItem i | AtControl i | AtAct i => [i] | _ => [] end.
Definition identity (c : child) : string * Entry * Plan := (ch_name c, ch_entry c, ch_plan c).
Definition identities (l : loop) : list (string * Entry * Plan) := identity <$> children l.
Definition started (l : loop) (item : DiscoveredItem) : string * Entry * Plan :=
  (item_RelativePath item, item_Entry item, directoryFilePlan plan (item_Entry item) (item_RelativePath item)
     (cp_Final (dir_Checkpoint (ds_root (lp_streams l))))).
(** What a step of the loop makes of the files under way. *)
Inductive moves (l l' : loop) : Prop :=
| moves_none : identities l' ≡ₚ identities l → lp_active l' = lp_active l → lp_requests l' = lp_requests l →
    moves l l'
| moves_out c answer : (c, answer) ∈ lp_done l →
    (live l' → ∃ r, answer = Ok (r, None) ∧ Outcome r ≠ OutcomeWaitingConflict) →
    identities l ≡ₚ identity c :: identities l' → lp_active l' = lp_active l - 1 →
    lp_requests l' = u32 (lp_requests l - item_cost plan (ch_entry c)) → moves l l'
| moves_in item : lp_place l = AtAct item → entry_Kind (item_Entry item) = EntryFile →
    identities l' ≡ₚ started l item :: identities l → lp_active l' = lp_active l + 1 →
    lp_requests l' = u32 (lp_requests l + item_cost plan (item_Entry item)) → moves l l'.
Lemma accepted_moves l l' l'' c answer rest t :
  lp_done l = (c, answer) :: rest → accepted_as plan c answer rest l l' t →
  identities l'' = identities l' → lp_active l'' = lp_active l' → lp_requests l'' = lp_requests l' →
  (live l'' → live l') → moves l l''.
Proof.
  intros Hd [] Hi Ha Hr Hl. apply (moves_out _ _ c answer); [rewrite Hd; by left| | |by rewrite Ha|by rewrite Hr].
  { intros Hl'. by apply as_live0, Hl. }
  rewrite Hi. unfold identities, children. rewrite as_running0, as_done0, Hd. cbn.
  rewrite !fmap_app, fmap_cons. by rewrite <-Permutation_middle.
Qed.
Lemma finished_moves l l' r : finished_as l l' r → moves l l'.
Proof. intros []. apply moves_none; [|done..]. unfold identities, children. by rewrite fa_running0, fa_done0. Qed.
Lemma launch_identities l item : identities (launch plan item l) ≡ₚ started l item :: identities l.
Proof.
  unfold identities, children. cbn. rewrite !fmap_app, <-app_assoc. cbn. by rewrite <-Permutation_middle.
Qed.
Lemma step_moves l t l' : main_place l = true → step l t l' → moves l l'.
Proof.
  intros Hm Hs. destruct Hs; try (by apply moves_none);
    try (by eapply accepted_moves; [|by eapply accepted_spec|..]);
    try (by eapply finished_moves, finish_item_spec);
    try match goal with Hp : lp_place l = _ |- _ => unfold main_place in Hm; rewrite Hp in Hm; try discriminate end.
  - apply moves_none; [|done..]. unfold identities, children. cbn. by rewrite H2, !fmap_app.
  - apply moves_none; [|done..]. unfold identities, children. cbn. rewrite H3, !fmap_app. cbn.
    rewrite <-!app_assoc. apply Permutation_app_head. rewrite app_assoc. cbn. by rewrite <-Permutation_cons_append.
  - by destruct x as [|? []|]; apply moves_none.
  - by destruct action; apply moves_none.
  - eapply (moves_in _ _ item); try done. apply launch_identities.
  - subst. apply moves_none; unfold ending, identities, children; cbn; by repeat case_match.
Qed.

(** ** What a step does *)
Local Abbreviation walk_does k := (does (walk_step source root budget k)).
Definition walk_turn (l : loop) (t : list sevent) (l' : loop) : Prop :=
  ∃ k t' x, lp_walk l = inl k ∧ walk_does k t' (Returned x) ∧ t = SCall <$> t' ∧ l' = after_walk x l.
Inductive emitted (l l' : loop) : sevent → Prop :=
| em_read ev : reads_only ev → emitted l l' (SCall ev)
| em_make item r : lp_place l = AtAct item → entry_Kind (item_Entry item) = EntryDirectory →
    emitted l l' (SCall (EvMkdir (mkMkdirRequest (item_location l item) true) r))
| em_child c t ev : c ∈ lp_running l → may_do (H := H) file_worker (ch_plan c) (t ++ [ev]) →
    emitted l l' (SChild (ch_plan c) ev)
| em_end c t answer : c ∈ lp_running l → may_end (H := H) file_worker (ch_plan c) t answer →
    emitted l l' (SEnd (ch_plan c) answer)
| em_save saved : emitted l l' (SSave (ds_root (lp_streams l')) saved).
Lemma emitted_lists l l' t : Forall (emitted l l') t → lists_nothing t.
Proof. intros Ht r p Hin. rewrite Forall_forall in Ht. apply Ht in Hin. by inversion Hin. Qed.
Lemma reads_emitted l l' P t : Forall P t → (∀ ev, P ev → reads_only ev) → Forall (emitted l l') (SCall <$> t).
Proof. intros Ht HP. apply Forall_fmap. eapply Forall_impl; [exact Ht|]. intros ev ?. by apply em_read, HP. Qed.
Lemma saves_emitted l l' r saved : r = ds_root (lp_streams l') → Forall (emitted l l') (saves r saved).
Proof. intros ->. repeat constructor. Qed.
Lemma makes_emitted l l' item t : lp_place l = AtAct item → entry_Kind (item_Entry item) = EntryDirectory →
  Forall (makes (item_location l item)) t → Forall (emitted l l') (SCall <$> t).
Proof.
  intros Hp Hk Ht. apply Forall_fmap. eapply Forall_impl; [exact Ht|]. intros ev Hev.
  destruct ev; try (by apply em_read). cbn in Hev. subst. by apply em_make.
Qed.
Lemma journal_emitted l l' name s ev t : journal_call name s ev (lp_streams l') t → Forall (emitted l l') t.
Proof. intros Hc. inversion Hc; subst; repeat constructor. Qed.
Lemma validate_reads item location t o :
  does (validate_stream_item (H := H) worker plan source destinationProvider item location) t o → Forall reads_only t.
Proof.
  intros Hd. destruct (String.eqb_spec (entry_Kind (item_Entry item)) EntryFile) as [Ek|Ek].
  - by apply (does_sees _ _ _ _ _ Hd (validated_file_sees worker plan source destinationProvider item location Ek)).
  - by apply (does_sees _ _ _ _ _ Hd (validated_directory_sees worker plan source destinationProvider item location Ek)).
Qed.
Lemma discover_reads t o : does (DiscoverDirectory source root budget) t o →
  Forall reads_only t ∧ (∀ k, o = Returned k → k = walk_start root).
Proof.
  intros Hd. destruct (does_sees _ _ _ _ _ Hd (discover_sees plan budget source)) as [? Ho]. split; [done|].
  by intros k ->.
Qed.
Lemma ensure_makes location t o : does (ensureDirectory destinationProvider destination location) t o →
  Forall (makes location) t ∧ (o = Returned tt → directory_at (SCall <$> t) location).
Proof.
  intros Hd. destruct (does_sees _ _ _ _ _ Hd (ensureDirectory_sees destinationProvider destination location))
    as [? Ho]. split; [done|]. by intros ->.
Qed.
Lemma accepted_emitted l l' t :
  (t = [] ∨ ∃ saved, t = [SSave (ds_root (lp_streams l')) saved]) → Forall (emitted l l') t.
Proof. intros [->|[saved ->]]; repeat constructor. Qed.
Lemma end_emitted l l' c before after t answer :
  lp_running l = before ++ c :: after → may_end (H := H) file_worker (ch_plan c) t answer →
  Forall (emitted l l') [SEnd (ch_plan c) answer].
Proof.
  intros Hr He. constructor; [|done]. eapply em_end; [|exact He]. rewrite Hr. apply elem_of_app. right. by left.
Qed.
Lemma step_events l t l' : step l t l' → walk_turn l t l' ∨ Forall (emitted l l') t.
Proof.
  intros Hs. steps Hs; try (right; by constructor); try match goal with
    | Hd : does (validate_stream_item _ _ _ _ _ _) _ _ |- _ => apply validate_reads in Hd
    | Hd : does (DiscoverDirectory _ _ _) _ _ |- _ => apply discover_reads in Hd as [Hd _]
    | Hd : does (ensureDirectory _ _ _) _ _ |- _ => apply ensure_makes in Hd as [Hd _]
    end; try (right; apply Forall_app; split);
    try (right; by apply accepted_emitted); try (by apply saves_emitted);
    try (by eapply reads_emitted); try (right; by eapply reads_emitted);
    try (by eapply makes_emitted); try (right; by eapply makes_emitted);
    try (by eapply (end_emitted _ _ _ [] [])); try (right; by eapply (end_emitted _ _ _ [] []));
    try (right; by apply saves_emitted).
  - by eapply journal_emitted.
  - constructor; [|done]. eapply em_child; [|done]. rewrite H2. apply elem_of_app. right. by left.
  - right. by eapply end_emitted.
  - left. by exists k, t, x.
  - right. constructor; [|done]. by apply em_read.
Qed.
Lemma step_saves l t l' r err : step l t l' → SSave r err ∈ t → r = ds_root (lp_streams l').
Proof.
  intros Hs Hin. destruct (step_events _ _ _ Hs) as [(k & t' & x & _ & _ & -> & _)|He].
  - by apply list_elem_of_fmap in Hin as (? & [=] & _).
  - rewrite Forall_forall in He. apply He in Hin. by inversion Hin.
Qed.

(** What a step makes of the walk and of the items that wait. *)
Definition items (l : loop) : list DiscoveredItem := placed (lp_place l) ++ lp_queue l.
Definition walk_kept (l l' : loop) : Prop :=
  lp_walk l' = lp_walk l ∨ (∃ err, lp_walk l' = inr (Some err)) ∨
  lp_place l = AtWalk ∧ lp_walk l' = inl (walk_start root).
Lemma feeds_same l l' :
  lp_walk l' = lp_walk l → lp_queue l' = lp_queue l →
  (∀ i, i ∈ placed (lp_place l') → i ∈ placed (lp_place l)) →
  walk_kept l l' ∧ ∀ i, i ∈ items l' → i ∈ items l.
Proof. intros Hw Hq Hp. split; [by left|]. unfold items. rewrite Hq. set_solver. Qed.
Lemma finished_feeds l l' r : finished_as l l' r → walk_kept l l' ∧ ∀ i, i ∈ items l' → i ∈ items l.
Proof. intros []. apply feeds_same; [done..|]. destruct fa_place0 as [->|[-> _]]; set_solver. Qed.
Lemma step_feeds l t l' : step l t l' → walk_turn l t l' ∨ walk_kept l l' ∧ ∀ i, i ∈ items l' → i ∈ items l.
Proof.
  intros Hs. destruct Hs; try (right; by eapply finished_feeds, finish_item_spec);
    try match goal with Ha : accepted _ _ _ _ _ _ = _ |- _ => apply accepted_spec in Ha as [] end;
    try (right; apply feeds_same; [done|done|match goal with Hp : lp_place l = _ |- _ => rewrite Hp end;
           cbn; try (destruct (stopped _)); try (destruct (String.eqb _ _)); try (destruct saved); cbn; set_solver]);
    try (right; apply feeds_same; [done|done|intros i Hi; exact Hi]).
  - left. by exists k, t, x.
  - right. split; [right; left; by eexists|done].
  - right. apply discover_reads in H3 as [_ Hk]. rewrite (Hk k eq_refl).
    split; [right; by right|]. unfold items. cbn. set_solver.
  - right. split; [by left|]. unfold items. cbn. rewrite H3. destruct (stopped l); set_solver.
  - right. destruct action; (apply feeds_same; [done|done|]); rewrite H2; cbn; set_solver.
  - right. subst. unfold ending. apply feeds_same; cbn; try (by repeat case_match). set_solver.
Qed.

(** ** The walk and its items *)
Local Abbreviation inside h := (inside plan budget h).
Local Abbreviation discovered h := (discovered plan budget h).
Lemma run_walk h l : run h l →
  (∀ i, i ∈ items l → discovered h (item_Entry i) (item_RelativePath i)) ∧
  ∀ k, lp_walk l = inl k → walk_from plan budget h k.
Proof.
  induction 1 as [s Hs|h l t l' _ [Hi Hw] Hs]; [split; [by intros i ?%not_elem_of_nil|done]|].
  destruct (step_feeds _ _ _ Hs) as [(k & t' & x & Hk & Hx & -> & ->)|[Hwalk Hitems]].
  - destruct (walk_step_from _ _ _ _ _ _ _ Hx (Hw k Hk)) as (Hf & _ & Hd). split.
    + intros i Hin. unfold items, after_walk in Hin. destruct x as [k'|i' next|f].
      1, 3: by apply discovered_app, Hi.
      cbn in Hin. rewrite (assoc_L (++)) in Hin. apply elem_of_app in Hin as [Hin| ->%list_elem_of_singleton].
      * by apply discovered_app, Hi.
      * apply discovered_app. by apply (Hd (item_Entry i') (item_RelativePath i')).
    + intros k' Hk'. apply Hf. by destruct x as [?|? []|?].
  - split; [intros i Hin; by apply discovered_app, Hi, Hitems|]. intros k Hk.
    destruct Hwalk as [E|[[err E]|[_ E]]]; rewrite E in Hk; [by apply walk_from_app, Hw|done|].
    injection Hk as <-. apply walk_start_from.
Qed.

(** ** The files under way *)
Definition cost (files : list (string * Entry * Plan)) : Z := foldr (λ x n, item_cost plan x.1.2 + n) 0 files.
Definition launched (h : list sevent) (x : string * Entry * Plan) : Prop :=
  x.2 = directoryFilePlan plan x.1.2 x.1.1 final ∧ discovered h x.1.2 x.1.1 ∧ entry_Kind x.1.2 = EntryFile.
(** The sizes that listings give are no negative numbers. *)
Definition sized (h : list sevent) : Prop :=
  ∀ entry relative n, discovered h entry relative → fp_Size (entry_Fingerprint entry) = Some n → 0 ≤ n.
Record under_way (h : list sevent) (l : loop) : Prop := {
  uw_files : ∀ x, x ∈ identities l → launched h x;
  uw_active : lp_active l = Z.of_nat (length (identities l));
  uw_requests : lp_requests l = u32 (cost (identities l));
  uw_slots : lp_active l ≤ slots plan;
  uw_budget : sized h → 0 ≤ cost (identities l) ≤ directoryRequestBudget;
}.
Lemma cost_perm files files' : files ≡ₚ files' → cost files = cost files'.
Proof. unfold cost. induction 1; cbn [foldr]; lia. Qed.
(** A file at the loop's hand has room; what is not a file has none to wait for. *)
Definition room (l : loop) : Prop :=
  match lp_place l with
  | AtItem item | AtControl item | AtAct item =>
    entry_Kind (item_Entry item) = EntryFile → no_room plan l item = false
  | AtOthers item => entry_Kind (item_Entry item) ≠ EntryFile
  | _ => True
  end.
Lemma step_room l t l' : step l t l' → room l → room l'.
Proof.
  intros Hs Hr. unfold room in *. steps Hs; try exact Hr; try exact I;
    try match goal with Hp : lp_place l = _ |- _ => rewrite Hp in Hr end;
    try exact Hr; cbn; try (by destruct (stopped _)); try (by destruct action); try (by destruct saved).
  - by destruct x as [?|? []|?].
  - by destruct (String.eqb_spec (entry_Kind (item_Entry item)) EntryFile).
  - by destruct fa_place0 as [->|[-> _]].
  - by destruct fa_place0 as [->|[-> _]].
  - by destruct fa_place0 as [->|[-> _]].
Qed.
Lemma launched_app h t x : launched h x → launched (h ++ t) x.
Proof. intros (? & ? & ?). split_and!; [done|by apply discovered_app|done]. Qed.
Lemma sized_app h t : sized (h ++ t) → sized h.
Proof. intros Hz e r n Hd. by eapply Hz, discovered_app. Qed.
Lemma cost_launched h x : sized h → launched h x → 0 ≤ item_cost plan x.1.2 ≤ directoryRequestBudget.
Proof. intros Hz (_ & Hd & _). apply directoryRequestCost_bound. intros n. by eapply Hz. Qed.
Lemma cost_nonneg h files : sized h → (∀ x, x ∈ files → launched h x) → 0 ≤ cost files.
Proof.
  intros Hz. induction files as [|x files IH]; intros Hf; cbn; [done|].
  pose proof (cost_launched _ x Hz (Hf x ltac:(by left))). enough (0 ≤ cost files) by (unfold cost in *; lia).
  apply IH. intros y Hy. apply Hf. by right.
Qed.
Lemma under_way_step h l t l' :
  run h l → main_place l = true → room l → under_way h l → step l t l' → under_way (h ++ t) l'.
Proof.
  intros Hrun Hm Hroom [Hf Ha Hq Hsl Hb] Hs.
  destruct (step_moves _ _ _ Hm Hs) as [Hp Ea Eq|c answer _ _ Hp Ea Eq|item Hpl Hk Hp Ea Eq].
  - split; rewrite ?(cost_perm _ _ Hp), ?Hp, ?Ea, ?Eq; try done.
    + intros x Hx. rewrite Hp in Hx. by apply launched_app, Hf.
    + intros Hz. by apply Hb, (sized_app _ t).
  - assert (cost (identities l) = item_cost plan (ch_entry c) + cost (identities l')) as Hc
      by (rewrite (cost_perm _ _ Hp); done).
    assert (∀ x, x ∈ identities l' → launched h x) as Hf'.
    { intros x Hx. apply Hf. rewrite Hp. by right. }
    split.
    + intros x Hx. by apply launched_app, Hf'.
    + rewrite Ea, Ha, Hp. cbn. lia.
    + rewrite Eq, Hq, Hc. unfold Z.sub. rewrite u32_add_l. f_equal. lia.
    + lia.
    + intros Hz%sized_app. specialize (Hb Hz). pose proof (cost_nonneg _ _ Hz Hf').
      pose proof (cost_launched _ (identity c) Hz (Hf _ ltac:(rewrite Hp; by left))) as Hic. cbn in Hic. lia.
  - assert (launched h (started l item)) as Hnew.
    { split_and!; [|by apply (run_walk _ _ Hrun); unfold items; rewrite Hpl; by left|done].
      unfold started. cbn. destruct (run_root _ _ Hrun) as [-> _]; [|done].
      unfold main_place in Hm. unfold ended. by destruct (lp_place l). }
    assert (∀ x, x ∈ identities l' → launched h x) as Hf'.
    { intros x Hx. rewrite Hp in Hx. apply elem_of_cons in Hx as [->|Hx]; [done|by apply Hf]. }
    unfold room in Hroom. rewrite Hpl in Hroom. specialize (Hroom Hk). unfold no_room in Hroom.
    apply orb_false_iff in Hroom as [Hne Hbud]. apply Z.eqb_neq in Hne.
    assert (cost (identities l') = item_cost plan (item_Entry item) + cost (identities l)) as Hc
      by (rewrite (cost_perm _ _ Hp); done).
    split.
    + intros x Hx. by apply launched_app, Hf'.
    + rewrite Ea, Ha, Hp. cbn. lia.
    + rewrite Eq, Hq, Hc. rewrite u32_add_l. f_equal. lia.
    + lia.
    + intros Hz%sized_app. specialize (Hb Hz). pose proof (cost_launched _ _ Hz Hnew) as Hic. cbn in Hic.
      rewrite Hc. change directoryRequestBudget with 128 in *.
      apply andb_false_iff in Hbud as [Hz0%Z.ltb_ge|Hbud%Z.ltb_ge].
      * rewrite Ha in Hz0. destruct (identities l); cbn in *; [lia|lia].
      * rewrite Hq, u32_add_l, u32_small in Hbud by lia. lia.
Qed.

(** Once the loop has drained, nothing is under way. *)
Definition settled (p : place) : bool := match p with AtFailures | AtSave | AtEnd _ => true | _ => false end.
Lemma step_settled l t l' : main_place l = true → step l t l' → settled (lp_place l') = true →
  settled (lp_place l) = true ∨ lp_place l = AtDrain ∧ lp_active l = 0.
Proof.
  intros Hm Hs. steps Hs; try done; try (by intros ?; left);
    try match goal with Hp : lp_place l = _ |- _ => unfold main_place in Hm; rewrite Hp in Hm |- * end;
    try done; try (by left); cbn; try (by destruct (stopped _)); try (by destruct action);
    try (by destruct (String.eqb _ _)); try (by destruct fa_place0 as [->|[-> _]]); try (by right).
  - by destruct x as [?|? []|?]; left.
Qed.
Lemma under_way_settled h l t l' : main_place l = true → under_way h l →
  (settled (lp_place l) = true → identities l = []) → step l t l' → settled (lp_place l') = true →
  identities l' = [].
Proof.
  intros Hm Hu He Hs Hl.
  assert (identities l = [] ∧ ∀ item, lp_place l ≠ AtAct item) as [Hn Hp].
  { destruct (step_settled _ _ _ Hm Hs Hl) as [Hset|[-> Ha]].
    - split; [by apply He|]. intros item E. by rewrite E in Hset.
    - split; [|done]. rewrite (uw_active _ _ Hu) in Ha. destruct (identities l); [done|cbn in Ha; lia]. }
  destruct (step_moves _ _ _ Hm Hs) as [Hperm _ _|c answer _ _ Hperm _ _|item E _ _ _ _].
  - rewrite Hn in Hperm. by apply Permutation_nil_r in Hperm.
  - rewrite Hn in Hperm. by apply Permutation_nil_cons in Hperm.
  - by destruct (Hp item).
Qed.
Definition files_ok (h : list sevent) (l : loop) : Prop :=
  match lp_place l with
  | AtSaved _ | AtWalk => True
  | AtEnd _ => identities l = []
  | p => under_way h l ∧ (settled p = true → identities l = [])
  end.
Lemma run_room h l : run h l → room l.
Proof. induction 1 as [s Hs|h l t l' _ IH Hs]; [exact I|]. by eapply step_room. Qed.
(** Before the walk, at most one file runs, and then none. *)
Lemma early_files h l t l' : run h l → main_place l = false → ended l = false → step l t l' → files_ok (h ++ t) l'.
Proof.
  intros Hr Hm He Hs. pose proof (run_start _ _ Hr) as Hst. unfold at_start, ended, main_place in *.
  destruct Hs; try match goal with Hp : lp_place l = _ |- _ => rewrite Hp in *; try discriminate end.
  - unfold files_ok. cbn. by destruct (lp_place l).
  - unfold main_place in H2. by destruct (lp_place l).
  - unfold files_ok. by destruct x as [?|? []|?]; cbn; destruct (lp_place l).
  - unfold files_ok. cbn. by destruct (lp_place l).
  - unfold files_ok. cbn. by rewrite H2.
  - unfold files_ok, identities, children. cbn. destruct Hst as [Hst _]. by rewrite (ea_done _ _ Hst).
  - unfold files_ok, identities, children. cbn. destruct Hst as [Hst _]. by rewrite (ea_done _ _ Hst).
  - destruct saved; [|done]. unfold files_ok, identities, children. cbn.
    destruct Hst as [Hst _]. by rewrite (ea_done _ _ Hst).
  - done.
  - destruct Hst as [Hst Hn].
    assert (identities (at_place AtNext (l <| lp_walk := inl k |>)) = []) as Hi.
    { unfold identities, children. cbn. by rewrite Hn, (ea_done _ _ Hst). }
    split; [|done]. split; rewrite ?Hi.
    + by intros x ?%not_elem_of_nil.
    + apply (ea_active _ _ Hst).
    + apply (ea_requests _ _ Hst).
    + cbn. rewrite (ea_active _ _ Hst). pose proof (directoryStreamWorkers_bound plan). unfold slots. lia.
    + done.
  - destruct Hst as [Hst Hn]. unfold files_ok, identities, children. cbn. by rewrite Hn, (ea_done _ _ Hst).
Qed.
Lemma run_files h l : run h l → files_ok h l.
Proof.
  induction 1 as [s Hs|h l t l' Hr IH Hs]; [exact I|].
  destruct (main_place l) eqn:Hm.
  - assert (under_way h l ∧ (settled (lp_place l) = true → identities l = [])) as [Hu He].
    { unfold files_ok, main_place in *. by destruct (lp_place l). }
    pose proof (under_way_step _ _ _ _ Hr Hm (run_room _ _ Hr) Hu Hs) as Hu'.
    pose proof (under_way_settled _ _ _ _ Hm Hu He Hs) as He'.
    unfold files_ok. destruct (lp_place l'); try done. by apply He'.
  - destruct (ended l) eqn:Ee; [|by eapply early_files].
    assert (lp_running l = [] ∧ lp_done l = []) as [Hn Hd].
    { unfold files_ok, ended in *. destruct (lp_place l); try done. apply fmap_nil_inv, app_nil in IH as [? Hd].
      by apply fmap_nil_inv in Hd. }
    unfold ended in Ee. steps Hs; try match goal with Hp : lp_place l = _ |- _ => rewrite Hp in Ee; discriminate end;
      try match goal with Hp : lp_running l = _ |- _ => rewrite Hn in Hp; by destruct before end;
      try (unfold main_place in *; congruence).
    + unfold files_ok in *. by destruct x as [?|? []|?]; cbn; destruct (lp_place l).
    + unfold files_ok in *. cbn. by destruct (lp_place l).
Qed.

(** ** What is due *)
Lemma ending_live l : lp_stop (ending plan l) = lp_stop l ∧ lp_conflict (ending plan l) = lp_conflict l.
Proof.
  unfold ending. cbv zeta. destruct (lp_conflict l) eqn:Ec; [done|].
  destruct (lp_stop l) eqn:Es; [by destruct (negb _)|done].
Qed.
Lemma step_live l t l' : step l t l' → live l' → live l.
Proof.
  intros Hs Hl. steps Hs; try exact Hl; try (by apply as_live0); try (by apply fa_live0);
    try (by destruct Hl); try (by apply stopped_live).
  - by destruct x as [|? []|].
  - destruct action; [exact Hl|by destruct Hl..].
  - subst. destruct (ending_live l) as [Es Ec]. unfold live in *. cbn in Hl. by rewrite Es, Ec in Hl.
Qed.
Lemma done_answers h l : run h l → ∀ c answer, (c, answer) ∈ lp_done l → SEnd (ch_plan c) answer ∈ h.
Proof.
  induction 1 as [s Hs|h l t l' Hr IH Hs]; intros c' a Hc; [by apply not_elem_of_nil in Hc|].
  assert ((c', a) ∈ lp_done l ∨ SEnd (ch_plan c') a ∈ t) as [?|?];
    [|apply in_app; by apply IH|apply elem_of_app; by right].
  steps Hs; try (by left); try (left; by rewrite fa_done0 in Hc);
    try (left; cbn in Hc; rewrite as_done0 in Hc;
         match goal with Hd : lp_done _ = _ |- _ => rewrite Hd end; by right).
  - cbn in Hc. apply elem_of_app in Hc as [?|[= -> ->]%list_elem_of_singleton]; [by left|right; by left].
  - left. by destruct x as [|? []|].
  - left. by destruct action.
  - left. subst. unfold ending in Hc. by repeat case_match.
Qed.
(** A file that is taken from the loop's hands while nothing has failed has been
    copied. *)
Lemma step_lost l t l' x : main_place l = true → step l t l' → live l' → x ∈ identities l →
  x ∈ identities l' ∨ ∃ c r, x = identity c ∧ (c, Ok (r, None)) ∈ lp_done l ∧ Outcome r ≠ OutcomeWaitingConflict.
Proof.
  intros Hm Hs Hl Hx.
  destruct (step_moves _ _ _ Hm Hs) as [Hp _ _|c a Hd Ha Hp _ _|item _ _ Hp _ _]; rewrite Hp in *.
  - by left.
  - apply elem_of_cons in Hx as [->|?]; [right|by left].
    destruct (Ha Hl) as (r & -> & ?). by exists c, r.
  - left. by right.
Qed.
(** An item that is taken while nothing has failed is started, or has been
    handled. *)
Local Abbreviation handled := (handled (H := H) plan start).
Lemma valid_handled item t bytes :
  does (validate_stream_item (H := H) worker plan source destinationProvider item
    (childLocation final (item_RelativePath item))) t (Returned (true, bytes)) →
  handled (SCall <$> t) (item_Entry item) (item_RelativePath item).
Proof.
  intros Hd. split; intros Hk.
  - destruct (does_sees _ _ _ _ _ Hd (validated_file_sees worker plan source destinationProvider item _ Hk))
      as [_ Hv]. destruct (Hv eq_refl) as (fp & sum & ? & ?). right.
    exists [], t, [], fp, sum. by rewrite app_nil_r.
  - assert (entry_Kind (item_Entry item) ≠ EntryFile) as Hn by (by rewrite Hk).
    destruct (does_sees _ _ _ _ _ Hd (validated_directory_sees worker plan source destinationProvider item _ Hn))
      as [_ Hv]. by apply Hv.
Qed.
Lemma finished_items l l' r item i t : finished_as l l' r → live l' → i ∈ [item] ++ lp_queue l →
  handled t (item_Entry item) (item_RelativePath item) →
  i ∈ items l' ∨ started l i ∈ identities l' ∨ handled t (item_Entry i) (item_RelativePath i).
Proof.
  intros [] Hl. unfold items. destruct fa_place0 as [->|[_ []]]; [|done]. rewrite fa_queue0.
  intros [->|?]%elem_of_cons ?; [by right; right|by left].
Qed.
Lemma step_taken l t l' i :
  main_place l = true → step l t l' → live l' → cp_Final (dir_Checkpoint (ds_root (lp_streams l))) = final →
  i ∈ items l →
  i ∈ items l' ∨ started l i ∈ identities l' ∨ handled t (item_Entry i) (item_RelativePath i).
Proof.
  intros Hm Hs Hl Hfin Hi.
  destruct Hs;
    try (left; exact Hi); try (by destruct Hl as [[=] _]);
    try match goal with Hp : lp_place l = _ |- _ =>
      unfold main_place in Hm; unfold items in *; rewrite Hp in *; try done end;
    try match goal with Ha : accepted _ _ _ _ _ _ = _ |- _ => apply accepted_spec in Ha as [] end;
    try (left; cbn; rewrite ?as_queue0, ?(proj2 (stopped_live _) Hl); exact Hi).
  - left. destruct x as [?|i' ?|?]; try exact Hi. unfold items. cbn. rewrite (assoc_L (++)). by apply in_app.
  - left. cbn. replace (stopped l) with false by (symmetry; by apply stopped_live). cbn. by rewrite <-H3.
  - left. cbn. replace (stopped l') with false by (symmetry; by apply stopped_live). cbn. by rewrite as_queue0.
  - left. cbn. by destruct (String.eqb _ _).
  - left. cbn. replace (stopped l) with false by (symmetry; by apply stopped_live). exact Hi.
  - unfold item_location in H4. rewrite Hfin in H4. apply finish_item_spec in H5.
    apply (finished_items _ _ _ _ _ _ H5 Hl Hi). by eapply handled_app, valid_handled.
  - destruct action; [left; exact Hi|by destruct Hl as [[=] _]..].
  - apply elem_of_cons in Hi as [->|Hi]; [right; left|left; exact Hi].
    rewrite launch_identities. by constructor.
  - unfold item_location in H4. rewrite Hfin in H4. apply finish_item_spec in H5.
    apply (finished_items _ _ _ _ _ _ H5 Hl Hi), handled_app.
    apply ensure_makes in H4 as [_ Hat]. split; [intros Hk; by rewrite H3 in Hk|]. intros _. by apply Hat.
  - apply finish_item_spec in H5. apply (finished_items _ _ _ _ _ _ H5 Hl Hi). by split.
  - left. subst. unfold ending. cbn. by repeat case_match.
Qed.

(** An entry that was listed waits, is under way, or has been handled. *)
Definition due (h : list sevent) (l : loop) (entry : Entry) (relative : string) : Prop :=
  (∃ i, i ∈ items l ∧ item_Entry i = entry ∧ item_RelativePath i = relative) ∨
  (∃ p, (relative, entry, p) ∈ identities l) ∨ handled h entry relative.
Lemma handled_later h t entry relative : handled t entry relative → handled (h ++ t) entry relative.
Proof.
  intros [Hf Hd]. split; intros Hk.
  - destruct (Hf Hk) as [(r & ? & ?)|(h1 & t1 & h2 & fp & sum & -> & ?)].
    + left. exists r. split; [apply elem_of_app; by right|done].
    + right. exists (h ++ h1), t1, h2, fp, sum. by rewrite <-app_assoc.
  - destruct (Hd Hk) as [(f & ? & ?)|[m ?]]; [left; exists f; split; [apply elem_of_app; by right|done]|].
    right. exists m. apply elem_of_app. by right.
Qed.
Lemma main_not_ended l : main_place l = true → ended l = false.
Proof. unfold main_place, ended. by destruct (lp_place l). Qed.
Lemma run_under_way h l : run h l → main_place l = true → under_way h l.
Proof. intros Hr%run_files Hm. unfold files_ok, main_place in *. by destruct (lp_place l); try destruct Hr. Qed.
Lemma step_due h l t l' entry relative :
  run h l → main_place l = true → step l t l' → live l' → due h l entry relative → due (h ++ t) l' entry relative.
Proof.
  intros Hr Hm Hs Hl [(i & Hi & <- & <-)|[[p Hp]|Hh]]; [| |right; right; by apply handled_app].
  - destruct (run_root _ _ Hr (main_not_ended _ Hm)) as [Hfin _].
    destruct (step_taken _ _ _ _ Hm Hs Hl Hfin Hi) as [?|[?|?]].
    + left. by exists i.
    + right. left. eexists. done.
    + right. right. by apply handled_later.
  - destruct (step_lost _ _ _ _ Hm Hs Hl Hp) as [?|(c & r & [= -> -> ->] & Hd & Ho)].
    + right. left. by exists p.
    + right. right. apply handled_app. destruct (uw_files _ _ (run_under_way _ _ Hr Hm) _ Hp) as (Hpl & _ & Hk).
      cbn in Hpl, Hk. split; [|intros Hd'; by rewrite Hk in Hd']. intros _. left. exists r.
      rewrite <-Hpl. split; [by eapply done_answers|done].
Qed.
Lemma step_enters l t l' : step l t l' → main_place l = false → main_place l' = true →
  lp_place l = AtWalk ∧ lp_walk l' = inl (walk_start root) ∧ lists_nothing t.
Proof.
  intros Hs Hm Hm'. destruct Hs;
    try match goal with Hp : lp_place l = _ |- _ => unfold main_place in Hm; rewrite Hp in Hm; try discriminate end;
    try (unfold main_place in *; cbn in *; congruence).
  - unfold main_place in *. destruct x as [|? []|]; cbn in Hm'; congruence.
  - unfold main_place in Hm'. cbn in Hm'. by rewrite H2 in Hm'.
  - by destruct saved.
  - apply discover_reads in H3 as [Ht Hk]. rewrite (Hk k eq_refl). split_and!; [done|done|].
    eapply (emitted_lists l l), reads_emitted; [exact Ht|done].
Qed.

(** ** Nothing is lost *)
Lemma after_walk_walk x l : lp_walk (after_walk x l) = walk_after x.
Proof. by destruct x as [|? []|]. Qed.
Lemma after_walk_handed h x l entry relative : handed x entry relative → due h (after_walk x l) entry relative.
Proof.
  destruct x as [|i next|]; try done. intros [<- <-]. left. exists i. split; [|done].
  unfold items. apply elem_of_app. right. cbn. apply elem_of_app. right. by left.
Qed.
Lemma run_due h l : run h l → main_place l = true → live l → walk_ok plan budget h (lp_walk l) (due h l).
Proof.
  induction 1 as [s Hs|h l t l' Hr IH Hs]; intros Hm Hl; [done|].
  destruct (main_place l) eqn:Hm0.
  - pose proof (IH eq_refl (step_live _ _ _ Hs Hl)) as Hok.
    assert (∀ e r, due h l e r → due (h ++ t) l' e r) as Hdue by (intros e r; by apply step_due).
    assert (walk_turn l t l' ∨ lists_nothing t ∧ walk_kept l l') as [(k & t' & x & Hk & Hx & -> & ->)|[Ht Hw]].
    { destruct (step_events _ _ _ Hs) as [?|He%emitted_lists]; [by left|].
      destruct (step_feeds _ _ _ Hs) as [?|[? _]]; [by left|by right]. }
    + rewrite after_walk_walk. rewrite Hk in Hok.
      eapply walk_ok_weaken; [|by eapply walk_step_ok]. intros e r [?|?]; [by apply Hdue|by apply after_walk_handed].
    + destruct Hw as [->|[[err ->]|[E _]]]; [by eapply walk_ok_frame|done|].
      unfold main_place in Hm0. by rewrite E in Hm0.
  - destruct (step_enters _ _ _ Hs Hm0 Hm) as (Hp & -> & Ht).
    pose proof (run_start _ _ Hr) as Hst. unfold at_start in Hst. rewrite Hp in Hst. destruct Hst as [Hst _].
    split; [right; left; exists 0; by left|]. intros d c page e Hli.
    by apply (lists_nothing_app _ _ (ea_lists _ _ Hst) Ht) in Hli.
Qed.

(** Once the loop has taken the last item, the walk has ended. *)
Definition over (l : loop) : Prop :=
  match lp_place l with
  | AtDrain | AtFailures => lp_queue l = [] ∧ ∃ failure, lp_walk l = inr failure
  | AtSave => lp_queue l = [] ∧ lp_walk l = inr None
  | _ => True
  end.
Lemma run_over h l : run h l → live l → over l.
Proof.
  induction 1 as [s Hs|h l t l' Hr IH Hs]; intros Hl; [exact I|].
  pose proof (IH (step_live _ _ _ Hs Hl)) as Ho. unfold over in *. clear IH.
  destruct Hs; try exact Ho; try exact I; try (by destruct Hl as [[=] _]);
    try match goal with Ha : accepted _ _ _ _ _ _ = _ |- _ => apply accepted_spec in Ha as [] end;
    try match goal with Hf : finish_item _ _ _ _ _ = _ |- _ =>
      apply finish_item_spec in Hf as []; destruct fa_place0 as [->|[_ []]]; done end;
    try match goal with Hp : lp_place l = _ |- _ => rewrite Hp in Ho end; cbn.
  - destruct x as [|? []|]; cbn; destruct (lp_place l); try exact I;
      destruct Ho as [_ Hw]; naive_solver congruence.
  - destruct (lp_place l); try exact I; destruct Ho as [_ Hw]; naive_solver congruence.
  - by destruct saved.
  - by replace (stopped l) with false by (symmetry; by apply stopped_live).
  - split; [done|by exists failure].
  - by replace (stopped l') with false by (symmetry; by apply stopped_live).
  - by destruct (String.eqb _ _).
  - by replace (stopped l) with false by (symmetry; by apply stopped_live).
  - destruct action; [done|by destruct Hl as [[=] _]..].
  - by rewrite as_queue0, as_walk0.
  - exact Ho.
  - destruct Hl as [Hl _]. cbn in Hl. subst failure. split; [apply Ho|done].
  - apply (stopped_live l) in Hl. congruence.
Qed.
(** The root is saved as committed only at the end, and if nothing has failed. *)
Lemma ending_phase l : cp_Phase (dir_Checkpoint (ds_root (lp_streams l))) = PhaseStreaming →
  cp_Phase (dir_Checkpoint (ds_root (lp_streams (ending plan l)))) = PhaseCommitted → live l.
Proof.
  intros Hp. unfold ending, live. cbv zeta. destruct (lp_conflict l) eqn:Ec; [done|].
  destruct (lp_stop l) eqn:Es; [|done]. destruct (negb _); cbn; rewrite Hp; done.
Qed.
Lemma ended_runs_nothing h l : run h l → ended l = true → lp_running l = [].
Proof.
  intros Hr%run_files He. unfold files_ok, ended in *. destruct (lp_place l); try done.
  by apply fmap_nil_inv, app_nil in Hr as [? _].
Qed.
Lemma step_commits h l t l' r err :
  run h l → step l t l' → SSave r err ∈ t → cp_Phase (dir_Checkpoint r) = PhaseCommitted →
  lp_place l = AtSave ∧ live l.
Proof.
  intros Hr Hs Hin Hc.
  pose proof (step_saves _ _ _ _ _ Hs Hin) as Hroot.
  assert (ended l = false) as Hn.
  { apply not_true_is_false. intros He. pose proof (ended_runs_nothing _ _ Hr He) as Hrun. unfold ended in He.
    destruct Hs; try match goal with Hp : lp_place l = _ |- _ => by rewrite Hp in He end; try congruence.
    - rewrite Hrun in H2. by destruct before.
    - unfold main_place in H2. by destruct (lp_place l).
    - by apply list_elem_of_fmap in Hin as (? & [=] & _).
    - by apply not_elem_of_nil in Hin. }
  destruct (run_root _ _ Hr Hn) as [_ Hp].
  rewrite Hroot in Hc.
  destruct (step_root _ _ _ Hs) as [[_ Hp']|(_ & Hpl & Hst)]; [by rewrite Hp', Hp in Hc|].
  split; [done|]. rewrite Hst, saveLocked_phase in Hc. by apply ending_phase.
Qed.
(** When the loop is about to save that, everything is done. *)
Lemma all_done h l : run h l → lp_place l = AtSave → live l → finished (H := H) plan budget start h.
Proof.
  intros Hr Hp Hl. assert (main_place l = true) as Hm by (unfold main_place; by rewrite Hp).
  pose proof (run_due _ _ Hr Hm Hl) as Hok. pose proof (run_over _ _ Hr Hl) as Ho. unfold over in Ho.
  pose proof (run_files _ _ Hr) as Hf. unfold files_ok in Hf. rewrite Hp in Ho, Hf.
  destruct Ho as [Hq Hw]. destruct Hf as [_ Hf]. specialize (Hf eq_refl). rewrite Hw in Hok.
  assert (∀ d, to_be_listed budget h (inr None) d → fully_listed budget h d) as Hfull by (by intros d [?|[]]).
  destruct Hok as [Hroot Hall]. split; [by apply Hfull|].
  intros d c page e Hli He. destruct (Hall d c page e Hli He) as [[]|(r & Hv & Hdue & Hd)]. exists r.
  split_and!; [done| |by intros Hk; apply Hfull, Hd].
  destruct Hdue as [(i & Hi & _ & _)|[[p Hi]|?]]; [| |done].
  - unfold items in Hi. rewrite Hp, Hq in Hi. by apply not_elem_of_nil in Hi.
  - rewrite Hf in Hi. by apply not_elem_of_nil in Hi.
Qed.
End Runs.
