(* ===== verification/DirectoryTheorems.v ===== *)
(** A directory's streams copy the whole directory, inside it, and within their
    limits, under every interleaving; and their saved root never goes back. *)
From stdpp Require Import sorting.
From S2P Require Import Prelude TokenBucket Bandwidth Domain GoPath Provider DirectProtocol Plan Admission.
From S2P Require Import Checkpoint Effects Logic Mutation Stream Worker Move Execute DirectoryCopy.
From S2P Require Import DirectoryStreams StreamFacts DirectoryFacts DirectoryRuns.

Abbreviation dir_Durable c := (ce_DurableBytes (Completion (dir_Checkpoint c))).
(** From one saved root to a later one. *)
Definition advances (a b : DirCheckpoint) : Prop :=
  dir_Offset a ≤ dir_Offset b ∧ dir_Durable a ≤ dir_Durable b ∧
  (dir_Durable a ≤ dir_Offset a → dir_Durable b ≤ dir_Offset b).
#[export] Instance advances_preorder : PreOrder advances.
Proof. split; [by intros a; split; [|split]|]. intros a b c (? & ? & ?) (? & ? & ?). split_and!; [lia..|auto]. Qed.

(** * The shared state *)
Definition same_point (s s' : directoryStreams) : Prop :=
  dir_Offset (ds_root s') = dir_Offset (ds_root s) ∧ dir_Durable (ds_root s') = dir_Durable (ds_root s).
Lemma saveLocked_advances s s' : same_point s s' → advances (ds_root s) (ds_root (saveLocked s')).
Proof.
  intros [Ho Hd]. unfold saveLocked. cbv zeta. set (d := foldl _ _ _). set (o := foldl _ _ _).
  cbn. destruct (negb _); cbn; unfold advances; cbn; rewrite ?Ho, ?Hd; split_and!; try lia.
Qed.
Lemma length_omap_le {A B} (f : A → option B) l : (length (omap f l) ≤ length l)%nat.
Proof. induction l as [|x l IH]; cbn; [done|]. destruct (f x); cbn; lia. Qed.
Lemma saveLocked_children s : (length (DirectoryChildren (ds_root (saveLocked s))) ≤ size (ds_active s))%nat.
Proof.
  replace (DirectoryChildren (ds_root (saveLocked s))) with (sorted_active s)
    by (unfold saveLocked; cbv zeta; by destruct (negb _)).
  unfold sorted_active. etrans; [apply length_omap_le|].
  rewrite (Permutation_length (merge_sort_Permutation _ _)), length_fmap. by rewrite length_map_to_list.
Qed.

Section Progress.
Context {W V H : Type} `{HashLaws H} (worker : Worker W).
Context (plan : Plan) (budget : DiscoveryBudget) (resuming : bool).
Context (source destinationProvider : Provider W) (destination : MutableProvider W).
Context (file_worker : Worker V → Prop) (start : DirCheckpoint).
Local Abbreviation step := (sstep (H := H) worker plan budget resuming source destinationProvider destination file_worker).
Local Abbreviation run := (streams_run (H := H) worker plan budget resuming source destinationProvider destination file_worker start).

(** The files under way have room. *)
Definition roomy (s : directoryStreams) : Prop :=
  ds_slots s = slots plan ∧ Z.of_nat (size (ds_active s)) ≤ slots plan.
(** A step leaves the saved state alone, or saves it anew. *)
Inductive turns (s s' : directoryStreams) : Prop :=
| turns_kept : ds_root s' = ds_root s → ds_active s' = ds_active s → ds_slots s' = ds_slots s → turns s s'
| turns_saved s1 : s' = saveLocked s1 → same_point s s1 → (roomy s → roomy s1) → turns s s'.
Lemma turns_complete_one name bytes s : turns s (streams_complete name bytes s).
Proof.
  eapply turns_saved; [done|done|]. intros [Hs Ha]. split; [done|]. cbn.
  rewrite map_size_delete. case_match; unfold id; lia.
Qed.
Lemma turns_complete name bytes s n : turns s (streams_complete name bytes (setItems n s)).
Proof.
  eapply turns_saved; [done|done|]. intros [Hs Ha]. split; [done|]. cbn.
  rewrite map_size_delete. case_match; unfold id; lia.
Qed.
Lemma turns_journal name s ev s' t : journal_call name s ev s' t → turns s s'.
Proof.
  intros Hc. destruct Hc as [| child s' err Hs| | |]; try by apply turns_kept.
  unfold stream_Save in Hs. destruct (ds_active s !! name) eqn:En.
  - injection Hs as <-. eapply turns_saved; [done|done|]. intros [Hs Ha]. split; [done|]. cbn.
    by rewrite (map_size_insert_Some _ _ _ (mk_is_Some _ _ En)).
  - destruct (Z.leb_spec (ds_slots s) (Z.of_nat (size (ds_active s)))); [done|]. injection Hs as <-.
    eapply turns_saved; [done|done|]. intros [Hs Ha]. split; [done|]. cbn.
    rewrite map_size_insert_None by done. lia.
Qed.
Lemma turns_accepted c answer saved rest l l' t :
  accepted plan c answer saved rest l = (l', t) → turns (lp_streams l) (lp_streams l').
Proof.
  unfold accepted, accept, stop_with, count_one. cbv zeta.
  destruct answer as [[r [e|]]|e].
  1, 3: destruct (continuableDirectoryItemError e); intros [= <- <-]; by apply turns_kept.
  destruct (String.eqb (Outcome r) OutcomeWaitingConflict); intros [= <- <-]; [by apply turns_kept|].
  destruct saved; apply turns_complete.
Qed.
Lemma turns_finished item bytes saved result l l' r :
  finish_item item bytes saved result l = (l', r) → turns (lp_streams l) (lp_streams l').
Proof. unfold finish_item, count_one. cbv zeta. intros [= <- _]. destruct saved; apply turns_complete. Qed.
Lemma turns_ending l : turns (lp_streams l) (saveLocked (lp_streams (ending plan l))).
Proof.
  eapply turns_saved; [done|..]; unfold ending; cbv zeta.
  - destruct (lp_conflict l); [done|]. destruct (lp_stop l); [by destruct (negb _)|].
    unfold same_point. cbn. unfold recordContentVerified. by repeat case_match.
  - destruct (lp_conflict l); [done|]. destruct (lp_stop l); [by destruct (negb _)|done].
Qed.
Lemma step_turns l t l' : step l t l' → turns (lp_streams l) (lp_streams l').
Proof.
  intros Hs. destruct Hs; try (by apply turns_kept); try match goal with Ha : accepted _ _ _ _ _ _ = _ |- _ => exact (turns_accepted _ _ _ _ _ _ _ Ha) end;
    try (by eapply turns_finished); try (by eapply turns_journal).
  - by destruct x as [|? []|]; apply turns_kept.
  - subst. apply turns_complete_one.
  - by destruct action; apply turns_kept.
  - subst. apply turns_ending.
Qed.

(** * Runs *)
Record steady (h : list sevent) (s : directoryStreams) : Prop := {
  st_start : advances start (ds_root s);
  st_saves : ∀ r err, SSave r err ∈ h → advances r (ds_root s);
  st_roomy : roomy s;
  st_children : Z.of_nat (length (DirectoryChildren (ds_root s))) ≤ slots plan;
}.
Lemma restored_size final children s s' : restore_children plan final children s = Ok s' →
  ds_root s' = ds_root s ∧ ds_slots s' = ds_slots s ∧
  (size (ds_active s') ≤ size (ds_active s) + length children)%nat.
Proof.
  revert s. induction children as [|[name c] children IH]; intros s; cbn; [intros [= ->]; split_and!; [done..|lia]|].
  destruct (invalid_child _ _ _); [done|]. destruct (negb _); [done|]. intros (-> & -> & Hn)%IH. cbn in *.
  rewrite map_size_insert in Hn. split_and!; [done..|]. destruct (_ !! _); unfold id in *; lia.
Qed.
Lemma run_steady h l : run h l → steady h (lp_streams l).
Proof.
  induction 1 as [s Hs|h l t l' Hr IH Hs].
  - unfold start_streams in Hs. destruct (Z.ltb_spec (slots plan) (Z.of_nat (length (DirectoryChildren start)))); [done|].
    apply restored_size in Hs as (Hroot & Hsl & Hn). cbn in *. rewrite map_size_empty in Hn.
    split; rewrite ?Hroot; [done|by intros ? ? ?%not_elem_of_nil|split; [done|lia]|lia].
  - assert (advances (ds_root (lp_streams l)) (ds_root (lp_streams l')) ∧ roomy (lp_streams l') ∧
      Z.of_nat (length (DirectoryChildren (ds_root (lp_streams l')))) ≤ slots plan) as (Ha & Hro & Hch).
    { destruct IH as [_ _ Hro Hch]. destruct (step_turns _ _ _ Hs) as [Er Ea Es|s1 E Hp Hr1].
      - rewrite Er. unfold roomy. by rewrite Ea, Es.
      - rewrite E. split; [by apply saveLocked_advances|]. destruct (Hr1 Hro) as [? ?].
        split; [done|]. pose proof (saveLocked_children s1). lia. }
    destruct IH as [Hst Hsv _ _]. split; [by etrans| |done|done].
    intros r err [Hin|Hin]%elem_of_app; [etrans; [by eapply Hsv|done]|].
    by rewrite (step_saves _ _ _ _ _ _ _ _ _ _ _ _ _ Hs Hin).
Qed.

(** What may be saved after a history. *)
Definition progress_rule (h : list sevent) (ev : sevent) : Prop :=
  match ev with
  | SSave r _ => advances start r ∧ (∀ r' err, SSave r' err ∈ h → advances r' r) ∧
      Z.of_nat (length (DirectoryChildren r)) ≤ slots plan
  | _ => True
  end.
(** C19: The root that a directory's streams save never goes back: from one save to
    the next, of whatever file or of the loop, and from the root that was taken up,
    neither the bytes copied nor those that are durable decrease, the durable ones
    stay within the copied ones if they were, and no more files are kept as
    unfinished than a restart accepts. *)
Theorem directory_progress h l : run h l → obeys progress_rule [] h.
Proof.
  induction 1 as [s Hs|h l t l' Hr IH Hs]; [done|]. apply obeys_app. split; [done|].
  apply obeys_all. intros t1 ev t2 Ht. destruct ev as [|?|?|r err]; try done.
  assert (steady (h ++ t) (lp_streams l')) as [Hst Hsv _ Hch] by (by eapply run_steady, streams_step).
  assert (SSave r err ∈ t) as Hin by (rewrite Ht; apply elem_of_app; right; by left).
  rewrite (step_saves _ _ _ _ _ _ _ _ _ _ _ _ _ Hs Hin). split; [done|split; [|done]].
  intros r' err' Hr'. eapply Hsv. rewrite Ht. apply elem_of_app. apply elem_of_app in Hr' as [?|?]; [by left|right].
  by apply in_app.
Qed.
End Progress.

(** * The directory is copied *)
Section Theorems.
Context {W V H : Type} `{HashLaws H} (worker : Worker W).
Context (plan : Plan) (budget : DiscoveryBudget) (resuming : bool).
Context (source destinationProvider : Provider W) (destination : MutableProvider W).
Context (file_worker : Worker V → Prop) (start : DirCheckpoint).
Local Abbreviation root := (ref_Location (Source plan)).
Local Abbreviation final := (goal start).
Local Abbreviation step := (sstep (H := H) worker plan budget resuming source destinationProvider destination file_worker).
Local Abbreviation run := (streams_run (H := H) worker plan budget resuming source destinationProvider destination file_worker start).
Local Abbreviation inside h := (inside plan budget h).
Local Abbreviation discovered h := (discovered plan budget h).
Local Abbreviation finished h := (finished (H := H) plan budget start h).

(** The plan of a file that was found in the directory, or was interrupted. *)
Definition file_plan (h : list sevent) (p : Plan) : Prop :=
  ∃ entry relative, p = directoryFilePlan plan entry relative final ∧
    (discovered h entry relative ∧ entry_Kind entry = EntryFile ∨
     ∃ saved, (relative, saved) ∈ DirectoryChildren start ∧ entry = saved_entry plan relative saved).
(** What may happen after a history. *)
Definition stream_rule (h : list sevent) (ev : sevent) : Prop :=
  match ev with
  | SCall (EvList request _) =>
      ∃ directory cursor, request = page_request budget directory cursor ∧ inside h directory
  | SCall (EvMkdir request _) =>
      ∃ entry relative, discovered h entry relative ∧ entry_Kind entry = EntryDirectory ∧
        request = mkMkdirRequest (childLocation final relative) true
  | SCall ev => reads_only ev
  | SChild p ev => file_plan h p ∧ ∃ t, may_do (H := H) file_worker p (t ++ [ev])
  | SEnd p answer => file_plan h p ∧ ∃ t, may_end (H := H) file_worker p t answer
  | SSave r _ => cp_Phase (dir_Checkpoint r) = PhaseCommitted → finished h
  end.

Section Runs.
Context (start_phase : cp_Phase (dir_Checkpoint start) = PhaseStreaming).

Lemma file_plan_app h t p : file_plan h p → file_plan (h ++ t) p.
Proof.
  intros (e & r & -> & [[Hd Hk]|Hs]); exists e, r; (split; [done|]); [left|by right].
  split; [by apply discovered_app|done].
Qed.
Lemma finished_frame h t : finished h → lists_nothing t → finished (h ++ t).
Proof.
  intros [Hr Ha] Ht. split; [by apply fully_listed_app|]. intros d c page e Hli He.
  apply listed_frame in Hli; [|done]. destruct (Ha d c page e Hli He) as (r & ? & ? & Hd). exists r.
  split_and!; [done|by apply handled_app|]. intros Hk. by apply fully_listed_app, Hd.
Qed.
Lemma running_plan h l c : run h l → c ∈ lp_running l → file_plan h (ch_plan c).
Proof.
  intros Hr Hc.
  assert (launched plan budget start h (identity c) ∨ restored plan start c) as [(Hp & Hd & Hk)|[(s & ? & He) Hp]].
  { pose proof (run_files _ _ _ _ _ _ _ _ _ start_phase _ _ Hr) as Hf.
    pose proof (run_start _ _ _ _ _ _ _ _ _ start_phase _ _ Hr) as Hst.
    assert (identity c ∈ identities l) as Hi by (apply list_elem_of_fmap_2, in_app, Hc).
    unfold files_ok, at_start in *. destruct (lp_place l); try (left; by eapply uw_files);
      try (left; by eapply uw_files, Hi; apply Hf).
    - right. destruct Hst as [Hst _]. destruct (ea_running _ _ _ _ Hst) as [Hn|(c0 & Hn & Hres)]; rewrite Hn in Hc.
      + by apply not_elem_of_nil in Hc.
      + by apply list_elem_of_singleton in Hc as ->.
    - destruct Hst as [_ Hn]. rewrite Hn in Hc. by apply not_elem_of_nil in Hc.
    - rewrite Hf in Hi. by apply not_elem_of_nil in Hi. }
  - exists (ch_entry c), (ch_name c). split; [done|by left].
  - exists (ch_entry c), (ch_name c). split; [done|right; by exists s].
Qed.
Lemma step_rule h l t l' : run h l → step l t l' → ∀ t1 ev t2, t = t1 ++ ev :: t2 → stream_rule (h ++ t1) ev.
Proof.
  intros Hr Hs t1 ev t2 ->. assert (ev ∈ t1 ++ ev :: t2) as Hin by (apply elem_of_app; right; by left).
  destruct (step_events _ _ _ _ _ _ _ _ _ _ _ Hs) as [(k & t' & x & Hk & Hx & Ht & _)|He].
  - destruct (run_walk _ _ _ _ _ _ _ _ _ start_phase _ _ Hr) as [_ Hw].
    destruct (walk_step_from _ _ _ _ _ _ _ Hx (Hw k Hk)) as (_ & Hev & _).
    rewrite Ht in Hin. apply list_elem_of_fmap in Hin as (ev' & -> & Hin).
    destruct (Hev _ Hin) as (d & c & r & -> & Hi). exists d, c. split; [done|by apply inside_app].
  - pose proof (proj1 (proj1 (Forall_app _ _ _) He)) as Ht1.
    rewrite Forall_forall in He. destruct (He _ Hin) as [ev Hread|item r Hp Hk|c t ev Hc Hd|c t a Hc Hd|saved].
    + by destruct ev.
    + exists (item_Entry item), (item_RelativePath item). split_and!; [|done|].
      * apply discovered_app. apply (run_walk _ _ _ _ _ _ _ _ _ start_phase _ _ Hr). unfold items. rewrite Hp. by left.
      * unfold item_location. destruct (run_root _ _ _ _ _ _ _ _ _ start_phase _ _ Hr) as [-> _]; [|done].
        unfold ended. by rewrite Hp.
    + split; [by eapply file_plan_app, running_plan|by exists t].
    + split; [by eapply file_plan_app, running_plan|by exists t].
    + intros Hc. destruct (step_commits _ _ _ _ _ _ _ _ _ start_phase _ _ _ _ _ _ Hr Hs Hin Hc) as [Hp Hl].
      apply finished_frame; [|by eapply emitted_lists].
      exact (all_done _ _ _ _ _ _ _ _ _ start_phase _ _ Hr Hp Hl).
Qed.
Lemma run_obeys h l : run h l → obeys stream_rule [] h.
Proof.
  induction 1 as [s Hs|h l t l' Hr IH Hs]; [done|]. apply obeys_app. split; [done|].
  apply obeys_all. by eapply step_rule.
Qed.

(** The run ends as completed only if the root was saved as such. *)
Lemma step_stays h l t l' : run h l → step l t l' → ended l = true → lp_place l' = lp_place l.
Proof.
  intros Hr Hs He. pose proof (ended_runs_nothing _ _ _ _ _ _ _ _ _ start_phase _ _ Hr He) as Hn.
  unfold ended in He. destruct Hs; try done;
    try match goal with Hp : lp_place l = _ |- _ => by rewrite Hp in He end.
  - by destruct x as [|? []|].
Qed.
Lemma final_answer_ok saved l r : final_answer saved l = (r, None) → saved = None ∧ lp_stop l = None ∧ r = lp_result l.
Proof.
  unfold final_answer. destruct saved; [done|]. destruct (lp_stop l); [by destruct (_ || _)|]. by intros [= <-].
Qed.
Lemma ending_completed l : lp_stop (ending plan l) = None → Outcome (lp_result (ending plan l)) = OutcomeCompleted →
  cp_Phase (dir_Checkpoint (ds_root (lp_streams (ending plan l)))) = PhaseCommitted.
Proof.
  destruct (ending_live plan l) as [-> _]. intros Hs. unfold ending. cbv zeta. rewrite Hs.
  destruct (lp_conflict l); [done|]. intros _. cbn. unfold recordContentVerified. by repeat case_match.
Qed.
Lemma step_completed h l t l' r : run h l → step l t l' → ended l = false → lp_place l' = AtEnd (r, None) →
  Outcome r = OutcomeCompleted → SSave (ds_root (lp_streams l')) None ∈ t ∧
  cp_Phase (dir_Checkpoint (ds_root (lp_streams l'))) = PhaseCommitted.
Proof.
  intros Hr Hs He Hp Ho. destruct Hs; try (cbn in Hp; discriminate Hp);
    try (cbn in Hp; unfold ended in He; rewrite Hp in He; done);
    try (cbn in Hp; repeat case_match; discriminate Hp);
    try match goal with Hf : finish_item _ _ _ _ _ = _ |- _ =>
      apply finish_item_spec, fa_place in Hf as [Hpl|[Hpl _]]; rewrite Hpl in Hp; discriminate Hp end.
  - destruct x as [|? []|]; cbn in Hp; unfold ended in He; by rewrite Hp in He.
  - injection Hp as ->. by rewrite Ho in H5.
  - injection Hp as Hp. apply final_answer_ok in Hp as (-> & Hstop & ->). subst.
    split; [by left|]. match goal with |- cp_Phase (dir_Checkpoint (ds_root ?s)) = _ => change s with (saveLocked (lp_streams (ending plan l))) end.
    rewrite saveLocked_phase. by apply ending_completed.
Qed.
Lemma run_completed h l r : run h l → lp_place l = AtEnd (r, None) → Outcome r = OutcomeCompleted →
  ∃ saved, SSave saved None ∈ h ∧ cp_Phase (dir_Checkpoint saved) = PhaseCommitted.
Proof.
  induction 1 as [s Hs|h l t l' Hr IH Hs]; intros Hp Ho; [done|]. destruct (ended l) eqn:He.
  - rewrite (step_stays _ _ _ _ Hr Hs He) in Hp. destruct (IH Hp Ho) as (saved & ? & ?).
    exists saved. split; [by apply in_app|done].
  - destruct (step_completed _ _ _ _ _ Hr Hs He Hp Ho) as [Hin Hc]. eexists. split; [|exact Hc].
    apply elem_of_app. by right.
Qed.
(** How many files are under way, and what they ask for. *)
Lemma run_limits h l : run h l →
  Z.of_nat (length (lp_running l)) ≤ slots plan ∧
  (main_place l = true → sized plan budget h → cost plan (identities l) ≤ directoryRequestBudget).
Proof.
  intros Hr. split.
  2: { intros Hm Hz. by apply (uw_budget _ _ _ _ _ (run_under_way _ _ _ _ _ _ _ _ _ start_phase _ _ Hr Hm) Hz). }
  assert (1 ≤ slots plan) by (pose proof (directoryStreamWorkers_bound plan); unfold slots; lia).
  destruct (main_place l) eqn:Hm.
  - destruct (run_under_way _ _ _ _ _ _ _ _ _ start_phase _ _ Hr Hm) as [_ Ha _ Hs _].
    unfold identities, children in Ha. rewrite length_fmap, length_app in Ha. lia.
  - destruct (ended l) eqn:He.
    + rewrite (ended_runs_nothing _ _ _ _ _ _ _ _ _ start_phase _ _ Hr He). cbn. lia.
    + pose proof (run_start _ _ _ _ _ _ _ _ _ start_phase _ _ Hr) as Hst. unfold at_start, main_place, ended in *.
      destruct (lp_place l); try done; destruct Hst as [Hst ?].
      * destruct (ea_running _ _ _ _ Hst) as [->|(c & -> & _)]; cbn; lia.
      * replace (lp_running l) with (@nil child) by done. cbn. lia.
Qed.
End Runs.

(** C6: A directory copied by streams is recorded as committed, and ends as
    completed, only when it is: every directory under the source's root has been
    listed to its end, every file listed has been copied, by a run of its plan that
    ended well or by a comparison of both contents' digests, and every directory is
    there.  Under every interleaving of the loop, the walk and the files' runs,
    only the source's tree is listed, only the directories found there are made, at
    their places in the destination and never over something, only files found
    there or interrupted before are run, with the plans made for them; and never
    more of them at once, nor for more requests, than the limits allow. *)
Theorem directory_copied h l :
  cp_Phase (dir_Checkpoint start) = PhaseStreaming → run h l →
  obeys stream_rule [] h ∧
  (∀ r, lp_place l = AtEnd (r, None) → Outcome r = OutcomeCompleted →
     ∃ h1 saved h2, h = h1 ++ SSave saved None :: h2 ∧ cp_Phase (dir_Checkpoint saved) = PhaseCommitted ∧
       finished h1) ∧
  Z.of_nat (length (lp_running l)) ≤ slots plan ∧
  (main_place l = true → sized plan budget h → cost plan (identities l) ≤ directoryRequestBudget).
Proof.
  intros Hp Hr. pose proof (run_obeys Hp _ _ Hr) as Hrule. split; [done|split; [|exact (run_limits Hp _ _ Hr)]].
  intros r Hl Ho. destruct (run_completed Hp _ _ _ Hr Hl Ho) as (saved & Hin & Hc).
  apply list_elem_of_split in Hin as (h1 & h2 & Hh). exists h1, saved, h2. split_and!; [done..|].
  exact (obeys_split _ _ _ _ _ _ Hrule Hh Hc).
Qed.
End Theorems.
