(* ===== verification/ManagerFacts.v ===== *)
(** A run of a job does what the store has on record: nothing before the job is
    running, nothing completed before it is done.

    The theorems hold for any store and any world, so for every interleaving with
    the other goroutines of the manager. *)
From S2P Require Import Prelude Domain GoPath Provider DirectProtocol Bandwidth Plan PlanRecord Job.
From S2P Require Import JobTables JobStore Admission Checkpoint Effects Logic Mutation MutationFacts.
From S2P Require Import Planner Stream Worker Move Execute DirectoryStreams Manager StreamFacts MoveFacts.

Section Rule.
Context (job : string).
(** The store's last word on the job, or an earlier one. *)
Definition answered (h : list mevent) (s : Snapshot) : Prop :=
  EvJob (GetCall job (Ok s)) ∈ h ∨ ∃ request, EvJob (TransitionCall request (Ok s)) ∈ h.
Definition is_running (h : list mevent) : Prop :=
  ∃ request s, EvJob (TransitionCall request (Ok s)) ∈ h ∧ tr_JobID request = job ∧
    tr_To request = StateRunning.
Definition source_gone (h : list mevent) (l : Location) : Prop :=
  ∃ err, Within (EvStat (mkStatRequest l false) (Err err)) ∈ h ∧ IsCode err CodeNotFound = true.
(** The plan's execution ended well; a move's source is gone as well. *)
Definition done_with (h : list mevent) : Prop :=
  ∃ plan result, EvJob (PlanCall job (Ok plan)) ∈ h ∧ EvJob (Executed job result None) ∈ h ∧
    Outcome result ≠ OutcomeWaitingConflict ∧
    (plan_Kind plan = OperationMove →
       Outcome result ≠ OutcomeSkipped ∧ source_gone h (ref_Location (Source plan))).
Definition manager_rule (h : list mevent) (ev : mevent) : Prop :=
  match ev with
  | Within _ => is_running h
  | EvJob (TransitionCall request _) =>
    tr_JobID request = job ∧
    (∃ s, answered h s ∧ tr_ExpectedVersion request = snap_StateVersion s ∧
       (tr_To request = StateRunning → snap_State s = StateQueued)) ∧
    (tr_To request = StateCompleted → done_with h)
  | EvJob _ => True
  end.

Lemma answered_mono h h' s : h `prefix_of` h' → answered h s → answered h' s.
Proof.
  intros [t ->] [H|[r H]]; [left|right; exists r]; apply elem_of_app; by left.
Qed.
Lemma is_running_mono h h' : h `prefix_of` h' → is_running h → is_running h'.
Proof. intros [t ->] (r & s & H & ?). exists r, s. split; [|done]. apply elem_of_app. by left. Qed.
Lemma done_with_mono h h' : h `prefix_of` h' → done_with h → done_with h'.
Proof.
  intros [t ->] (plan & result & Hp & He & Ho & Hm). exists plan, result.
  split_and!; [apply elem_of_app; by left..|done|]. intros Hk. destruct (Hm Hk) as [? (e & ? & ?)].
  split; [done|]. exists e. split; [|done]. apply elem_of_app. by left.
Qed.
End Rule.

Section Facts.
Context {W L H : Type} `{HashLaws H} (manager : Manager W L) `{!StoreLaw (mg_store manager)}.
Context (job : string).
Local Abbreviation safely := (runs (W := W) (manager_rule job)).

(** The job's, by the store's word. *)
Definition known (h : list mevent) (s : Snapshot) : Prop := answered job h s ∧ snap_JobID s = job.
Lemma known_mono h h' s : h `prefix_of` h' → known h s → known h' s.
Proof. intros Hp [? ?]. split; [|done]. by eapply answered_mono. Qed.

Lemma safely_any {A} h (m : MM W A) Q : safely h m Q → safely h m (λ _ _, True).
Proof. intros Hm. eapply runs_conseq; [exact Hm|done]. Qed.
Lemma safely_then {A B} h (m : MM W A) (f : A → MM W B) V :
  safely h m (returning V) → (∀ a h', h `prefix_of` h' → V a h' → safely h' (f a) (λ _ _, True)) →
  safely h (m ≫= f) (λ _ _, True).
Proof.
  intros Hm Hf. apply runs_bind. eapply runs_conseq; [exact Hm|].
  intros [a|e| |] h' Hp HV; cbn in *; [by apply Hf|done..].
Qed.
Lemma safely_attempt {A B} h (m : MM W A) (f : result error A → MM W B) V :
  safely h m (returning V) →
  (∀ r h', h `prefix_of` h' → match r with Ok a => V a h' | Err _ => True end →
     safely h' (f r) (λ _ _, True)) →
  safely h (attempt m ≫= f) (λ _ _, True).
Proof.
  intros Hm Hf. apply runs_bind, runs_attempt. eapply runs_conseq; [exact Hm|].
  intros [a|e| |] h' Hp HV; cbn in *; [by apply Hf|by apply Hf|done..].
Qed.
Lemma safely_defer {A B} h (cleanup : MM W B) (m : MM W A) :
  (∀ h', safely h' cleanup (λ _ _, True)) → safely h m (λ _ _, True) →
  safely h (defer cleanup m) (λ _ _, True).
Proof.
  intros Hc Hm. apply runs_defer. eapply runs_conseq; [exact Hm|].
  intros [a|e| |] h' _ _; [apply Hc..|done].
Qed.

(** ** Steps on memory and time record nothing *)
Lemma safely_tick {A} h (f : W → A * W) Q : (∀ a, Q (Returned a) h) → safely h (tick f) Q.
Proof. apply runs_tick. Qed.
Lemma safely_remember h f : safely h (remember manager f) (λ _ _, True).
Proof. by apply runs_tick. Qed.
Lemma safely_act h f : safely h (act f) (λ _ _, True).
Proof. by apply runs_tick. Qed.
Lemma safely_step {A} h (f : Memory L → A * Memory L) Q :
  (∀ a, Q (Returned a) h) → safely h (step_memory manager f) Q.
Proof. apply runs_tick. Qed.
Lemma safely_identifier_alone h new : safely h (new_identifier manager new) (returning (λ _ h', h' = h)).
Proof.
  unfold new_identifier. apply runs_bind, runs_tick. intros g. cbn [then_]. apply runs_lift.
  by destruct (new (Some g)).
Qed.

(** ** Calls of the store *)
Lemma safely_Get h : safely h (store_Get manager job)
  (returning (λ s h', known h' s ∧ EvJob (GetCall job (Ok s)) ∈ h')).
Proof.
  apply runs_Get; [done|]. intros [s|e] Hs; (split; [done|]); [|done].
  split; [split|]; [left|by apply Hs|]; apply in_last.
Qed.
Lemma safely_GetPlan h : safely h (store_GetPlan manager job)
  (returning (λ plan h', EvJob (PlanCall job (Ok plan)) ∈ h')).
Proof.
  apply (runs_job_call _ _ _ _ (λ _, True)); [done|]. intros [plan|e] _; (split; [done|]); [|done]. apply in_last.
Qed.
Lemma safely_ListConflicts h j : safely h (store_ListConflicts manager j) (λ _ _, True).
Proof. by apply (runs_job_call _ _ _ _ (λ _, True)). Qed.
Lemma safely_load h p j : is_running job h → safely h (embed (call_Load p j)) (λ _ _, True).
Proof.
  intros Hr w o t w' E. unfold embed, call_Load, answer in E.
  destruct (Load p j w) as [[c|e] w1]; injection E as <- <- <-; by cbn.
Qed.

Lemma safely_transitionRequest h s to kind payload retryAt summary :
  known h s → (to = StateRunning → snap_State s = StateQueued) → (to = StateCompleted → done_with job h) →
  safely h (transitionRequest manager s to kind payload retryAt summary)
    (returning (λ s' h', known h' s' ∧ (to = StateRunning → is_running job h'))).
Proof.
  intros [Ha Hj] Hrun Hdone. apply runs_transitionRequest; [done| |done].
  intros request r Ej Ev <- Hs. rewrite Hj in Ej, Hs. split.
  - cbn. split; [done|]. split; [|done]. by exists s.
  - destruct r as [s'|e]; cbn; [|done]. split.
    + split; [right; eexists; apply in_last|by apply Hs].
    + intros Et. exists request, s'. split; [apply in_last|done].
Qed.
Lemma safely_transition h s to kind payload :
  known h s → to ≠ StateRunning → to ≠ StateCompleted →
  safely h (transition manager s to kind payload) (returning (λ s' h', known h' s')).
Proof.
  intros Hk Hr Hc. eapply runs_conseq; [by apply safely_transitionRequest|]. intros [s'| | |] h' _ HQ; [|done..].
  apply HQ.
Qed.

(** ** The ends of a run *)
Lemma safely_persistTerminal h s to kind summary payload :
  known h s → to ≠ StateRunning → (to = StateCompleted → done_with job h) →
  safely h (persistTerminal manager s to kind summary payload) (λ _ _, True).
Proof.
  intros Hk Hr Hc. unfold persistTerminal, transitionTerminal.
  eapply safely_attempt; [by apply safely_transitionRequest|]. intros [s'|e] h1 Hp1 _; [by apply runs_ret|].
  destruct Hk as [_ Hj]. rewrite Hj. eapply safely_attempt; [apply safely_Get|].
  intros [latest|e2] h2 Hp2 Hl; [|by apply runs_throw]. destruct Hl as [Hl _].
  destruct (State_Terminal _); [destruct (_ =? _)%string; [by apply runs_ret|by apply runs_throw]|].
  eapply safely_attempt; [apply safely_transitionRequest; [done|done|]|].
  { intros Et. eapply done_with_mono; [|by apply Hc]. by etrans. }
  intros [s'|e3] h3 _ _; [by apply runs_ret|by apply runs_throw].
Qed.
Lemma safely_recordTransitionError h j e : safely h (recordTransitionError manager j e) (λ _ _, True).
Proof.
  eapply safely_then with (V := λ _ _, True); [eapply runs_conseq; [apply safely_remember|by intros []]|].
  intros [] h' _ _. apply safely_remember.
Qed.
Lemma safely_failWithPayload h s failure payload :
  known h s → safely h (failWithPayload manager s failure payload) (λ _ _, True).
Proof.
  intros Hk. unfold failWithPayload. eapply safely_attempt with (V := λ _ _, True).
  { eapply runs_conseq; [by apply safely_persistTerminal|by intros []]. }
  intros [s'|e] h' _ _; [by apply runs_ret|apply safely_recordTransitionError].
Qed.
Lemma safely_fail h s failure : known h s → safely h (fail manager s failure) (λ _ _, True).
Proof. apply safely_failWithPayload. Qed.
Lemma safely_or_fail_job {A} h s message (m : MM W A) :
  known h s → safely h m (λ _ _, True) → safely h (or_fail_job manager s message m) (λ _ _, True).
Proof.
  intros Hk Hm. unfold or_fail_job. eapply safely_attempt with (V := λ _ _, True).
  { eapply runs_conseq; [exact Hm|by intros []]. }
  intros [a|e] h' Hp _; [by apply runs_ret|]. apply safely_fail. by eapply known_mono.
Qed.
Lemma safely_or_fail_transition h s to kind payload message :
  known h s → to ≠ StateRunning → to ≠ StateCompleted →
  safely h (or_fail_job manager s message (transition manager s to kind payload)) (λ _ _, True).
Proof.
  intros Hk Hr Hc. apply safely_or_fail_job; [done|]. eapply safely_any. by apply safely_transition.
Qed.
Lemma safely_or_fail_retry h s message payload :
  known h s → safely h (retryAt ← nextRetryAt manager;
    or_fail_job manager s message (transitionRetry manager s retryAt payload)) (λ _ _, True).
Proof.
  intros Hk. unfold nextRetryAt. eapply safely_then with (V := λ _ h', h' = h).
  { apply runs_now. intros t. by apply runs_ret. }
  intros t h' _ ->. apply safely_or_fail_job; [done|]. eapply safely_any.
  by apply safely_transitionRequest.
Qed.
Lemma safely_handleExecutionError h s e result :
  known h s → safely h (handleExecutionError manager s e result) (λ _ _, True).
Proof.
  intros Hk. unfold handleExecutionError. cbv zeta.
  destruct (is_partial e); [by apply safely_or_fail_retry|].
  destruct (has_code e [CodeAuthRequired]); [by apply safely_or_fail_transition|].
  destruct (has_code e [CodeConflict; _]); [by apply safely_or_fail_transition|].
  destruct (has_code e _); [by apply safely_or_fail_retry|].
  destruct (negb _); [by apply safely_failWithPayload|by apply safely_fail].
Qed.
Lemma safely_openConflict h s plan final class :
  known h s → safely h (openConflict manager s plan final class) (λ _ _, True).
Proof.
  intros Hk. unfold openConflict. destruct (Marshal _ _) as [text|e]; [|by apply safely_fail].
  eapply safely_attempt with (V := λ _ h', h' = h).
  { by apply safely_identifier_alone. }
  intros [id|e] h1 Hp _; [|apply safely_fail; by eapply known_mono].
  apply runs_now. intros time. eapply safely_then with (V := λ _ _, True).
  { by apply runs_err_event. }
  intros [e|] h2 _ _; [by apply runs_ret|apply safely_remember].
Qed.

(** ** The end of an execution *)
Lemma obeys_within h t : is_running job h → obeys (manager_rule job) h (Within <$> t).
Proof.
  revert h. induction t as [|e t IH]; intros h Hr; cbn; [done|]. split; [done|].
  apply IH. eapply is_running_mono; [|done]. by exists [Within e].
Qed.
Lemma safely_move_source h plan result :
  honest (mg_Resolve manager) → is_running job h →
  safely h (move_source (H := H) manager plan result)
    (returning (λ r h', r.1 = true → Outcome result ≠ OutcomeSkipped ∧
       source_gone h' (ref_Location (Source plan)))).
Proof.
  intros Hh Hr. unfold move_source. destruct (String.eqb_spec (Outcome result) OutcomeSkipped) as [|Hs].
  { by apply runs_ret. }
  intros w o t w' E. unfold embed in E.
  destruct (finishMove _ _ _ _ _ _ _ _ plan result w) as [[o1 t1] w1] eqn:Em. injection E as <- <- <-.
  split.
  { by apply obeys_within. }
  destruct o1 as [r| | |]; [|done..]. intros Hd. split; [done|].
  destruct (finishMove_moves (H := H) (mg_Resolve manager) _ _ _ _ _ _ _ plan _ [] result Hh eq_refl w _ _ _ Em)
    as [_ Hs']. destruct (Hs' Hd) as (err & Hin & Hc). exists err. split; [|done].
  apply elem_of_app. right. by apply list_elem_of_fmap_2.
Qed.
Lemma safely_complete h plan0 plan result s :
  honest (mg_Resolve manager) → known h s → is_running job h →
  EvJob (PlanCall job (Ok plan0)) ∈ h → EvJob (Executed job result None) ∈ h →
  Outcome result ≠ OutcomeWaitingConflict →
  plan_Kind plan = plan_Kind plan0 → Source plan = Source plan0 →
  safely h (complete (H := H) manager plan result s) (λ _ _, True).
Proof.
  intros Hh Hk Hr Hp He Ho Ekind Esource. unfold complete. cbv zeta.
  eapply safely_then with (V := λ r h', r.1.1.1 ≠ StateRunning ∧ (r.1.1.1 = StateCompleted → done_with job h')).
  - destruct (String.eqb_spec (plan_Kind plan) OperationMove) as [Em|Em].
    + eapply runs_seq; [by apply safely_move_source|]. intros [deleted reason] h1 Hp1 Hd. cbn in Hd.
      destruct deleted; apply runs_ret; cbn; (split; [done|]); [|done]. intros _. exists plan0, result. rewrite <-Esource, <-Ekind.
      destruct Hp1 as [t ->]. split_and!; [apply elem_of_app; by left..|done|auto].
    + apply runs_ret. cbn. split; [done|]. intros _. exists plan0, result. split_and!; [done..|]. intros Em'.
      by rewrite <-Ekind in Em'.
  - intros [[[terminal kind] summary] reason] h1 Hp1 [Hne Hd]. cbn in Hne, Hd.
    apply safely_or_fail_job; [by eapply known_mono|].
    apply safely_persistTerminal; [by eapply known_mono|done|done].
Qed.

(** A plan under the resolution of its conflicts. *)
Definition resolved_from (plan0 plan : Plan) : Prop :=
  plan_Kind plan = plan_Kind plan0 ∧ Source plan = Source plan0.
Lemma apply_resolutions_from conflicts plan0 plan :
  apply_resolutions conflicts plan0 = Ok plan → resolved_from plan0 plan.
Proof.
  revert plan0. induction conflicts as [|c conflicts IH]; intros plan0; cbn [apply_resolutions].
  { by intros [= <-]. }
  destruct (negb _); [apply IH|]. cbv zeta. destruct (negb _); [done|]. intros [E1 E2]%IH. split; [by rewrite E1|by rewrite E2].
Qed.

Lemma in_prefix {A} (x : A) h h' : h `prefix_of` h' → x ∈ h → x ∈ h'.
Proof. intros [t ->] Hx. apply elem_of_app. by left. Qed.

Lemma safely_settle_success h plan0 plan result s :
  honest (mg_Resolve manager) → known h s → is_running job h →
  EvJob (PlanCall job (Ok plan0)) ∈ h → EvJob (Executed job result None) ∈ h →
  Outcome result ≠ OutcomeWaitingConflict → resolved_from plan0 plan →
  safely h (settle_success (H := H) manager job plan result s) (λ _ _, True).
Proof.
  intros Hh Hk Hr Hp He Ho [Ekind Esource]. unfold settle_success.
  eapply safely_attempt with (V := λ _ _, True).
  { eapply runs_conseq; [by apply safely_load|by intros []]. }
  intros [checkpoint|e] h1 Hp1 _; [|apply safely_handleExecutionError; by eapply known_mono].
  cbv zeta. pose proof (known_mono _ _ _ Hp1 Hk) as Hk1.
  eapply safely_then with (V := λ v h', match v with Ok s' => known h' s' | Err _ => True end).
  - destruct (negb _); [|by apply runs_ret]. apply runs_attempt.
    eapply runs_conseq; [by apply (safely_transition _ _ StateVerifying)|]. by intros [].
  - intros [s'|e] h2 Hp2 Hv; [|apply safely_fail; by eapply known_mono].
    assert (h `prefix_of` h2) as Hp12 by by etrans.
    apply (safely_complete _ plan0); [done|done|by eapply is_running_mono|by eapply in_prefix|by eapply in_prefix|done..].
Qed.
Lemma safely_settle h plan0 plan result failure s :
  honest (mg_Resolve manager) → known h s → is_running job h →
  EvJob (PlanCall job (Ok plan0)) ∈ h → EvJob (Executed job result failure) ∈ h →
  resolved_from plan0 plan →
  safely h (settle (H := H) manager job plan s result failure) (λ _ _, True).
Proof.
  intros Hh Hk Hr Hp He Hplan. unfold settle. destruct failure as [err|].
  - destruct (is_sentinel "transfer paused" err); [by apply safely_or_fail_transition|].
    destruct (is_sentinel "transfer canceled" err); [|by apply safely_handleExecutionError].
    apply safely_or_fail_job; [done|]. by apply safely_persistTerminal.
  - destruct (String.eqb_spec (Outcome result) OutcomeWaitingConflict); [by apply safely_openConflict|].
    by apply (safely_settle_success _ plan0).
Qed.
Lemma safely_perform h plan0 plan :
  honest (mg_Resolve manager) → is_running job h → EvJob (PlanCall job (Ok plan0)) ∈ h →
  resolved_from plan0 plan → safely h (perform (H := H) manager job plan) (λ _ _, True).
Proof.
  intros Hh Hr Hp Hplan. unfold perform.
  eapply safely_then with (V := λ r h', EvJob (Executed job r.1 r.2) ∈ h').
  { unfold executed. eapply runs_seq with (V := λ _ _, True).
    - intros w o t w' E. unfold embed in E.
      destruct (attempt (run_plan manager job plan) w) as [[o1 t1] w1]. injection E as <- <- <-.
      split; [by apply obeys_within|by destruct o1].
    - intros r h1 _ _. cbv zeta. eapply runs_seq with (V := λ _ h', EvJob (Executed job _ _) ∈ h').
      + intros w o t w' [= <- <- <-]. split; [by cbn|]. apply in_last.
      + intros [] h2 _ Hin. by apply runs_ret. }
  intros r h1 Hp1 He. eapply safely_then with (V := λ _ h', h' = h1); [by apply runs_peek|].
  intros [] h2 _ ->; [by apply runs_ret|].
  eapply safely_attempt; [apply safely_Get|]. intros [s|e] h3 Hp3 Hk; [|by apply runs_ret].
  destruct Hk as [Hk _]. assert (h `prefix_of` h3) as Hp13 by by etrans.
  apply (safely_settle _ plan0); [done|done|by eapply is_running_mono|by apply (in_prefix _ h)|by apply (in_prefix _ h1)|done].
Qed.

(** ** A turn of a worker *)
Lemma safely_release h l : safely h (release manager l) (λ _ _, True).
Proof. by apply runs_tick. Qed.
Lemma safely_release_option h l : safely h (release_option manager l) (λ _ _, True).
Proof. destruct l; [apply safely_release|by apply runs_ret]. Qed.
Lemma safely_acquire {A} h (call : W → result error A * W) (V : A → list mevent → Prop) :
  (∀ a, V a h) → safely h (r ← tick call; lift r) (returning V).
Proof.
  intros HV. apply runs_bind, runs_tick. intros r. cbn [then_]. apply runs_lift.
  destruct r; [apply HV|done].
Qed.
Lemma safely_execute_started h plan0 plan s leased :
  honest (mg_Resolve manager) → known h s → is_running job h → EvJob (PlanCall job (Ok plan0)) ∈ h →
  resolved_from plan0 plan → safely h (execute_started (H := H) manager job plan s leased) (λ _ _, True).
Proof.
  intros Hh Hk Hr Hp Hplan. unfold execute_started.
  destruct (ad_AcquirePlan _) as [acquire|]; [destruct leased|]; [by eapply safely_perform| |by eapply safely_perform].
  eapply safely_attempt with (V := λ _ h', h' = h); [by apply safely_acquire|].
  intros [l|e] h1 Hp1 Hl; [subst h1|apply safely_handleExecutionError; by eapply known_mono].
  apply safely_defer; [intros; apply safely_release|]. by eapply safely_perform.
Qed.
Lemma safely_execute_planned h plan0 s leased :
  honest (mg_Resolve manager) → known h s → snap_State s = StateQueued →
  EvJob (PlanCall job (Ok plan0)) ∈ h →
  safely h (execute_planned (H := H) manager job s leased plan0) (λ _ _, True).
Proof.
  intros Hh Hk Hq Hp. unfold execute_planned, applyConflictResolution.
  eapply safely_attempt with (V := λ plan _, resolved_from plan0 plan).
  { eapply runs_seq with (V := λ _ _, True).
    - eapply runs_conseq; [apply safely_ListConflicts|by intros []].
    - intros conflicts h1 _ _. apply runs_lift. destruct (apply_resolutions _ _) eqn:E; [|done].
      by eapply apply_resolutions_from. }
  intros [plan|e] h1 Hp1 Hplan; [|apply safely_fail; by eapply known_mono].
  pose proof (known_mono _ _ _ Hp1 Hk) as Hk1.
  eapply safely_attempt with (V := λ _ h', h' = h1); [by apply safely_acquire|].
  intros [resources|e] h2 Hp2 Hl.
  2: { eapply safely_then with (V := λ _ h', h' = h2); [by apply runs_peek|]. intros [] h3 _ ->.
       - by apply runs_ret.
       - apply safely_fail. by eapply known_mono. }
  subst h2. apply safely_defer; [intros; apply safely_release|].
  eapply safely_attempt; [by apply (safely_transitionRequest _ _ StateRunning)|].
  intros [s'|e] h3 Hp3 Hs; [|by apply runs_ret]. destruct Hs as [Hk' Hr].
  apply (safely_execute_started _ plan0); [done|done|by apply Hr| |done].
  eapply in_prefix; [|exact Hp]. by etrans.
Qed.
Lemma safely_execute h : honest (mg_Resolve manager) →
  safely h (execute (H := H) manager job) (λ _ _, True).
Proof.
  intros Hh. unfold execute. eapply safely_then with (V := λ _ h', h' = h); [by apply safely_step|].
  intros l h0 _ ->. apply safely_defer; [intros; apply safely_release_option|].
  eapply safely_then with (V := λ _ _, True).
  { unfold releaseQueueLease. apply runs_bind, safely_step. intros q.
    eapply runs_conseq; [apply safely_release_option|by intros []]. }
  intros [] h1 _ _.
  eapply safely_then with (V := λ r h', match r with Ok s => known h' s | Err _ => True end).
  { apply runs_attempt. eapply runs_conseq; [apply safely_Get|].
    intros [s|e| |] h2 _ Hs; [by destruct Hs|done..]. }
  intros snapshot h2 _ Hk.
  eapply safely_then with (V := λ (admitted : bool) h', h' = h2 ∧
    (admitted = true → ∃ s, snapshot = Ok s ∧ snap_State s = StateQueued)).
  { intros w o t w' E. unfold admit_queued, step_memory, tick in E.
    destruct (let '(a, m) := _ in (a, mg_set_memory manager m w)) as [a w1] eqn:Ea.
    injection E as <- <- <-. split; [done|]. rewrite app_nil_r. split; [done|]. intros ->.
    destruct snapshot as [s|e]; [|by injection Ea]. exists s. split; [done|].
    destruct (String.eqb_spec (snap_State s) StateQueued); [done|]. cbn in Ea. by injection Ea. }
  intros admitted h3 _ [-> Hq]. destruct snapshot as [s|e]; [|by apply runs_ret].
  destruct admitted; [|by apply runs_ret]. destruct (Hq eq_refl) as (s' & [= <-] & Hstate).
  apply safely_defer; [intros; apply safely_remember|]. apply safely_defer; [intros; apply safely_remember|].
  unfold execute_admitted. eapply safely_attempt; [apply safely_GetPlan|].
  intros [plan|e] h4 Hp4 Hin; [|apply safely_fail; by eapply known_mono].
  apply safely_defer; [intros; apply safely_act|].
  apply safely_execute_planned; [done|by eapply known_mono|done|done].
Qed.
End Facts.

(** * The observer of progress

    It is called while the worker runs, and its calls are a history of their own. *)
Section Observer.
Context {W L H : Type} `{Hash H} (manager : Manager W L) `{!StoreLaw (mg_store manager)}.
Context (job : string).
(** The store has answered the observer that the job is running. *)
Definition seen_running (h : list mevent) (s : Snapshot) : Prop :=
  h !! 0%nat = Some (EvJob (GetCall job (Ok s))) ∧ snap_State s = StateRunning.
Definition observer_rule (h : list mevent) (ev : mevent) : Prop :=
  match ev with
  | EvJob (GetCall j _) => j = job ∧ h = []
  | Within (EvLoad j _) => j = job ∧ ∃ s, seen_running h s
  | EvJob (TransitionCall request _) =>
    tr_JobID request = job ∧ tr_To request = StateVerifying ∧
    ∃ s, seen_running h s ∧ tr_ExpectedVersion request = snap_StateVersion s
  | _ => False
  end.
Lemma observeProgress_obeys route directory p :
  runs (W := W) observer_rule [] (observeProgress manager job route directory p) (λ _ h,
    h ≠ [] → directory = false ∧ reports_verifying (tp_Phase p) = true).
Proof.
  unfold observeProgress. apply runs_bind, runs_tick. intros previous. cbn [then_].
  destruct (directory || _) eqn:Ed; [by apply runs_ret|].
  apply orb_false_iff in Ed as [-> Ed%negb_false_iff].
  destruct (_ =? _)%string; [by apply runs_ret|]. apply runs_bind, runs_Get; [done|].
  intros [s|e] Hs; (split; [done|]); cbn [then_]; [|done].
  destruct (negb _) eqn:Er; [by apply runs_ret|]. apply negb_false_iff, String.eqb_eq in Er.
  assert (∀ t, seen_running (([] ++ [EvJob (GetCall job (Ok s))]) ++ t) s) as Hseen by done.
  apply runs_bind. intros w o t w' E. unfold embed, call_Load, answer in E.
  destruct (Load _ job w) as [[c|e] w1]; injection E as <- <- <-; cbn [fmap list_fmap obeys then_].
  2: { split; [|done]. split; [|done]. split; [done|]. exists s. apply (Hseen []). }
  split. { split; [|done]. split; [done|]. exists s. apply (Hseen []). }
  apply runs_bind, runs_transitionRequest; [done| |done]. intros request r Ej Ev Et Hr. split.
  - cbn. rewrite Ej, (Hs s eq_refl). split; [done|]. split; [done|]. exists s. split; [apply Hseen|done].
  - by destruct r; cbn [then_]; [apply runs_ret|].
Qed.
End Observer.

(** C13: a job's execution follows the store's record of the job.  Whatever the
    store and the providers answer and whatever happens meanwhile, a turn of a
    worker asks for transitions of its own job only, each from a version that the
    store has answered; it calls nothing of the package that transfers, moves or
    deletes before the store has answered that the job is running, which it asks
    for only from a queued job; and it asks for the completion of the job only when
    the execution of the plan that the store gave it has ended without an error and
    without a conflict, and, for a move, the source was seen to be gone.  While the
    plan runs, the worker's journal calls the manager's observer of progress, whose
    calls are not among the turn's own.  They follow the record as well, in every
    call of the observer, on every world: it asks the store for its own job, first
    and once; only if the answer is that the job is running does it load that job's
    checkpoint and ask for a transition, of that job, from the version just
    answered, to verifying and to no other state; and it calls nothing at all for a
    directory, or for a phase before the content was transferred. *)
Theorem execute_follows_record {W L H} `{HashLaws H} (manager : Manager W L)
    `{!StoreLaw (mg_store manager)} job w o t w' :
  honest (mg_Resolve manager) → execute (H := H) manager job w = (o, t, w') →
  (∀ pre ev post, t = pre ++ ev :: post → manager_rule job pre ev) ∧
  (∀ plan phase bytes durable w1 failure w2,
     observer manager job plan phase bytes durable w1 = (failure, w2) →
     ∃ ended calls,
       observeProgress manager job (Route plan) (String.eqb (ref_Kind (Source plan)) EntryDirectory)
         (mkProgress phase bytes durable 0) w1 = (ended, calls, w2) ∧
       (∀ pre ev post, calls = pre ++ ev :: post → observer_rule job pre ev) ∧
       (calls ≠ [] → ref_Kind (Source plan) ≠ EntryDirectory ∧
          phase ∈ [PhaseTransferred; PhaseVerified; PhaseCommitting])).
Proof.
  intros Hh E. split.
  - intros pre ev post Et. destruct (safely_execute manager job [] Hh w o t w' E) as [Ho _].
    exact (obeys_split _ [] t pre ev post Ho Et).
  - intros plan phase bytes durable w1 failure w2 Eo. unfold observer, as_call in Eo.
    destruct (observeProgress manager job _ _ _ w1) as [[ended calls] w3] eqn:Ep.
    assert (w3 = w2) as -> by (by destruct ended; injection Eo).
    destruct (observeProgress_obeys manager job _ _ _ w1 _ _ _ Ep) as [Ho Hq].
    exists ended, calls. split; [done|]. split.
    + intros pre ev post Et. exact (obeys_split _ [] calls pre ev post Ho Et).
    + intros Hc. destruct (Hq Hc) as [Hd Hp]. split; [by apply String.eqb_neq|].
      by apply bool_decide_eq_true in Hp.
Qed.

(** * A conflict that the store refuses *)
(** What [JobStore.OpenConflict] does with a class that is not an identifier. *)
Definition refuses_classes {W} (store : ManagerStore W) : Prop :=
  ∀ request w, eventKindPattern (oc_Class request) = false → is_Some (ms_OpenConflict store request w).1.
Lemma refused_class `{Texts T} f (request : OpenConflictRequest T) db :
  eventKindPattern (oc_Class request) = false → ∃ e, OpenConflict f request db = (db, Err e).
Proof.
  intros Hc. unfold OpenConflict. destruct (validateOpenConflict request) as [[]|e] eqn:Ev; [|by eexists].
  exfalso. unfold validateOpenConflict, parsed in Ev. rewrite Hc in Ev.
  destruct (ParseJobID _); [|done]. destruct (ParseEventID _); [|done]. cbn in Ev.
  rewrite !orb_true_r in Ev. cbn in Ev. done.
Qed.
Lemma preserved_class_refused result :
  loc_Path (result_PreservedDestination result) ≠ "" → eventKindPattern (preserved_class result) = false.
Proof.
  intros Hp. unfold preserved_class. apply String.eqb_neq in Hp as ->. cbn [negb].
  unfold eventKindPattern. cbn -[Z.of_N]. done.
Qed.
(** C37: the conflict of a job whose original was preserved is lost.  When the
    destination changed after the original had been preserved, the class under
    which the manager opens the conflict is a sentence, the store refuses it, and
    the manager drops the error: the job gets no transition and no conflict, and
    stays in the state, running or verifying, in which it was. *)
Theorem preserved_conflict_lost {W L H} `{HashLaws H} (manager : Manager W L) job plan current result :
  Outcome result = OutcomeWaitingConflict → loc_Path (result_PreservedDestination result) ≠ "" →
  refuses_classes (mg_store manager) → is_ok (Marshal JSONFileRef (Source plan)) = true →
  (∀ w, is_ok (NewEventID (Some (mg_generator manager w).1)) = true) →
  (∀ w, ∃ err w', settle (H := H) manager job plan current result None w =
     (Returned (), [EvJob (OpenCall (snap_JobID current) (snap_StateVersion current)
                       (preserved_class result) (Some err))], w')) ∧
  (∀ T (texts : Texts T) f (request : OpenConflictRequest T) db, oc_Class request = preserved_class result →
     ∃ e, OpenConflict f request db = (db, Err e)).
Proof.
  intros Ho Hp Hs Hm Hg. pose proof (preserved_class_refused result Hp) as Hc. split.
  - intros w. unfold settle, openConflict. rewrite Ho, String.eqb_refl.
    destruct (Marshal _ _) as [text|]; [|done].
    unfold attempt, new_identifier, now, tick, err_event, lift, mbind, M_bind.
    specialize (Hg w). destruct (mg_generator manager w) as [g w1]. cbn [fst] in Hg.
    destruct (NewEventID (Some g)) as [id|]; [|done]. cbn.
    destruct (mg_now manager w1) as [time w2]. cbn.
    specialize (Hs (mkOpenConflict (snap_JobID current) (snap_StateVersion current) 0 (preserved_class result)
              (TextPlanned text) (TextFinal (result_Final result)) id time) w2 Hc).
    destruct (ms_OpenConflict _ _ w2) as [r w3]. cbn in Hs. destruct Hs as [e ->]. cbn. by eexists _, _.
  - intros T texts f request db E. apply refused_class. by rewrite E.
Qed.
