(* ===== verification/Evidence.v ===== *)
(** What a transfer must have done before each of its steps: the evidence a
    history holds for a checkpoint, and the rule of the worker's events; then that
    evidence lasts, and how the steps of the worker build a checkpoint's. *)
From S2P Require Import Prelude Bandwidth Domain GoPath Provider DirectProtocol Plan Checkpoint Effects Logic.
From S2P Require Import Mutation Stream StreamFacts.

(** The bytes delivered by the reads at [l]. *)
Definition bytes_of (l : Location) (t : list event) : list byte :=
  read_bytes (List.filter (λ e, match e with EvRead l' _ _ => bool_decide (l' = l) | _ => false end) t).

Section Evidence.
Context (H : Type) `{Hash H} (plan : Plan).
Local Abbreviation source := (ref_Location (Source plan)).
Local Abbreviation frozen := (ref_Fingerprint (Source plan)).

(** * The content read from the source

    [content] has been read in order: each session was opened, with the frozen
    fingerprint, where the one before had ended. *)
Definition source_request (offset : Z) : OpenReadRequest :=
  mkOpenReadRequest source offset None (Some frozen).
Inductive sourced : list event → list byte → Prop :=
| sourced_nil h : sourced h []
| sourced_session h content info body rest :
  sourced h content →
  sourced (h ++ EvOpenRead (source_request (blen content)) (Ok info) :: body ++ rest)
    (content ++ bytes_of source body).

(** The last session is still open. *)
Definition live (h : list event) (content : list byte) : Prop :=
  ∃ pre before info body, sourced pre before ∧
    h = pre ++ EvOpenRead (source_request (blen before)) (Ok info) :: body ∧
    content = before ++ bytes_of source body.

(** * Checkpoints *)
Definition recorded (h : list event) (cp : Checkpoint) : Prop :=
  EvSave cp None ∈ h ∨ ∃ job, EvLoad job (Ok (Some cp)) ∈ h.

(** A checkpoint of the plan's job. *)
Record belongs (cp : Checkpoint) : Prop := {
  belongs_job : cp_JobID cp = plan_JobID plan;
  belongs_version : ce_Version (Completion cp) = ce_Version (newCompletionEvidence plan);
  belongs_durable : ce_DurableBytes (Completion cp) ≤ Offset cp;
  belongs_directory : HasDirectoryState cp = false;
  belongs_part : cp_Part cp = Part plan;
  belongs_source : SourceFingerprint cp = frozen;
  belongs_direct : DirectFormatVersion cp = 0 ∧ DirectNonce cp = "";
  belongs_route : validCheckpointRoute cp plan = true;
}.

(** Where a digest comes from: from the bytes streamed, from the source read
    back after a server copy, or from the binding of a same-host copy. *)
Definition origin (h : list event) (cp : Checkpoint) : Prop :=
  (∃ content, sourced h content ∧ Offset cp = blen content ∧ ChecksumHex cp = digest H content) ∨
  (Route plan = RouteSFTPServerCopy ∧ has_readback H source frozen (ChecksumHex cp) h) ∨
  (Route plan = RouteHelperSameHost ∧
   ∃ binding, SameHostCopy plan = Some binding ∧ ChecksumHex cp = sh_SourceSHA256 binding).

Definition streaming (h : list event) (cp : Checkpoint) : Prop :=
  ∃ content, sourced h content ∧ Offset cp = blen content ∧
    ChecksumState cp = h_marshal (h_write (h_new (H := H)) content).

Definition read_back_part (h : list event) (cp : Checkpoint) : Prop :=
  Verification plan = VerifySHA256 →
  has_readback H (Part plan) (PartFingerprint cp) (ChecksumHex cp) h.

(** The final file has the digest, or, when no digest is asked for, has been
    renamed from the part. *)
Definition published (h : list event) (cp : Checkpoint) : Prop :=
  has_readback H (cp_Final cp) Fingerprint_zero (ChecksumHex cp) h ∨
  Verification plan ≠ VerifySHA256 ∧
  ∃ request r, EvRename request (Ok r) ∈ h ∧ rename_Source request = Part plan ∧
    rename_Destination request = cp_Final cp.

Definition after_transfer : list string :=
  [PhaseTransferred; PhaseVerified; PhaseWaitingConflict; PhaseCommitting; PhaseCommitted].
Definition after_verification : list string :=
  [PhaseVerified; PhaseWaitingConflict; PhaseCommitting; PhaseCommitted].

Definition phase_in (phases : list string) (cp : Checkpoint) : bool :=
  existsb (String.eqb (cp_Phase cp)) phases.

(** A name that auto-renaming chooses. *)
Definition auto_final (final : Location) : Prop :=
  let name := RequestedName plan in
  ∃ n, final = childLocation (DestinationDirectory plan)
    (rename_candidate (str (TrimSuffix (chars name) (chars (path_Ext name)))) (path_Ext name) n).

(** The history justifies the checkpoint. *)
Record stands (h : list event) (cp : Checkpoint) : Prop := {
  stands_belongs : belongs cp;
  stands_final : cp_Final cp = Final plan ∨
    phase_in [PhaseCommitting; PhaseCommitted] cp = true ∧ ConflictPolicy plan = ConflictAutoRename ∧
    auto_final (cp_Final cp);
  stands_prepared : cp_Phase cp = PhasePrepared → Offset cp = 0;
  stands_streaming : cp_Phase cp = PhaseStreaming → streaming h cp;
  stands_origin : phase_in after_transfer cp = true → origin h cp;
  stands_part : phase_in after_verification cp = true → read_back_part h cp;
  stands_committed : cp_Phase cp = PhaseCommitted →
    cp_Outcome cp = OutcomeSkipped ∨ cp_Outcome cp = OutcomeCompleted ∧ published h cp;
}.

(** The part begins with the content of the checkpoint: as many of its bytes have
    been read back, and have its digest. *)
Definition begins_with (h : list event) (cp : Checkpoint) : Prop :=
  ∃ content pre request info body rest, sourced h content ∧ Offset cp = blen content ∧
    h = pre ++ EvOpenRead request (Ok info) :: body ++ rest ∧ read_Location request = Part plan ∧
    Forall (reading (Part plan)) body ∧ blen (read_bytes body) = blen content ∧
    digest H (read_bytes body) = digest H content.

(** * The rule *)
Definition opens_part (h : list event) (request : OpenWriteRequest) : Prop :=
  write_Location request = Part plan ∧ ∃ cp, recorded h cp ∧
    (write_Disposition request = WriteCreateNew ∧ write_Offset request = 0 ∧
     cp_Phase cp = PhasePrepared ∨
     write_Disposition request = WriteResumeExisting ∧ write_Offset request = Offset cp ∧
     cp_Phase cp = PhaseStreaming ∧ is_Some (write_ExpectedFingerprint request)).
Definition preserves (request : PreserveDestinationRequest) : Prop :=
  plan_Version plan = 2 ∧ ∃ e size, ExpectedDestination plan = Some e ∧
    fp_Size (pre_Fingerprint e) = Some size ∧
    request = mkPreserveRequest (Final plan) (PreservedDestination plan) (pre_Fingerprint e)
                (pre_ContentSHA256 e) (i64 size) (2 * 1024 * 1024 * 1024).
(** The destination that a sync-back replaces has been preserved: the provider
    has confirmed a backup of the version that was edited. *)
Definition original_kept (h : list event) : Prop :=
  plan_Version plan = 2 → ∀ e, ExpectedDestination plan = Some e →
  pre_Presence e = DestinationPresent →
  ∃ request r, EvPreserve request r None ∈ h ∧ preserves request ∧ BackupPresent r = true.
(** A rename follows the record of its intent. *)
Definition publishes (h : list event) (request : RenameRequest) : Prop :=
  ∃ pre cp, h = pre ++ [EvSave cp None] ∧ cp_Phase cp = PhaseCommitting ∧
    rename_Source request = Part plan ∧ rename_Destination request = cp_Final cp ∧
    rename_ExpectedSource request = Some (PartFingerprint cp) ∧
    original_kept pre ∧
    if rename_Replace request
    then ConflictPolicy plan = ConflictOverwrite ∧
         ∃ fp, rename_ExpectedDestination request = Some fp ∧
           (plan_Version plan = 2 → ∃ e, ExpectedDestination plan = Some e ∧ fp = pre_Fingerprint e)
    else rename_ExpectedDestination request = None.
Definition rule (h : list event) (e : event) : Prop :=
  match e with
  | EvList _ _ | EvTrash _ _ | EvMkdir _ _ => False
  | EvRename request _ => publishes h request
  | EvRemove request _ => ConflictPolicy plan = ConflictSkip ∧ remove_Location request = Part plan ∧
      is_Some (remove_Expected request)
  | EvPreserve request _ _ => preserves request
  | EvServerCopy from part fp _ _ => from = source ∧ part = Part plan ∧ fp = frozen ∧
      ∃ cp, recorded h cp ∧ cp_Phase cp = PhasePrepared
  | EvStageCopy from part binding _ => from = source ∧ part = Part plan ∧
      SameHostCopy plan = Some binding ∧ ∃ cp, recorded h cp ∧ cp_Phase cp = PhasePrepared
  | EvOpenWrite request _ => opens_part h request
  | EvTruncate l size _ => l = Part plan ∧ ∃ cp, recorded h cp ∧ cp_Phase cp = PhaseStreaming ∧
      size = Offset cp ∧ begins_with h cp
  | EvWrite l _ _ _ | EvWriteFrom l _ _ | EvSync l _ | EvCloseWrite l _ => l = Part plan
  | EvSave cp _ => stands h cp
  | EvLoad job _ => job = plan_JobID plan
  | EvSnapshot _ _ | EvStat _ _ | EvOpenRead _ _ | EvRead _ _ _ | EvCloseRead _ _
  | EvReport _ _ _ _ | EvWait _ _ | EvControl _ _ => True
  end.

(** What the journal loads has been saved before, if perhaps not confirmed. *)
Definition journalled (h : list event) : Prop :=
  ∀ h1 job cp h2, h = h1 ++ EvLoad job (Ok (Some cp)) :: h2 → ∃ err, EvSave cp err ∈ h1.
Definition lawful (h : list event) (e : event) : Prop := journalled h → rule h e.
End Evidence.

(** * Evidence lasts *)
(** * Bytes *)
Lemma bytes_of_app l t1 t2 : bytes_of l (t1 ++ t2) = bytes_of l t1 ++ bytes_of l t2.
Proof. unfold bytes_of. by rewrite List.filter_app, read_bytes_app. Qed.
Lemma bytes_of_reading l t : Forall (reading l) t → bytes_of l t = read_bytes t.
Proof.
  induction 1 as [|e t He _ IH]; [done|]. unfold bytes_of, read_bytes in *.
  destruct e; try done; cbn in *; subst; [by rewrite bool_decide_true; cbn; [rewrite IH|]|..]; done.
Qed.
Definition unread (e : event) : Prop := match e with EvRead _ _ _ => False | _ => True end.
Lemma bytes_of_unread l t : Forall unread t → bytes_of l t = [].
Proof. induction 1 as [|e t He _ IH]; [done|]. by destruct e. Qed.

Section Facts.
Context {W H : Type} `{Hash H} (plan : Plan).
Local Abbreviation source := (ref_Location (Source plan)).
Local Abbreviation sourced := (sourced plan).
Local Abbreviation live := (live plan).
Local Abbreviation rule := (rule H plan).
Local Abbreviation stands := (stands H plan).
Local Abbreviation origin := (origin H plan).
Local Abbreviation streaming := (streaming H plan).
Local Abbreviation read_back_part := (read_back_part H plan).
Local Abbreviation published := (published H plan).
Local Abbreviation belongs := (belongs plan).

(** * Evidence lasts *)
Lemma prefix_snoc {A} (h : list A) x : h `prefix_of` h ++ [x].
Proof. by exists [x]. Qed.
Lemma sourced_mono h h' content : h `prefix_of` h' → sourced h content → sourced h' content.
Proof.
  intros [t ->] [h0|h0 c info body rest Hs]; [constructor|].
  rewrite <-app_assoc. cbn. rewrite <-app_assoc. by constructor.
Qed.
Lemma live_sourced h content : live h content → sourced h content.
Proof.
  intros (pre & before & info & body & Hs & -> & ->). rewrite <-(app_nil_r body) at 1.
  by constructor.
Qed.
Lemma live_app h t content : live h content → live (h ++ t) (content ++ bytes_of source t).
Proof.
  intros (pre & before & info & body & Hs & -> & ->). exists pre, before, info, (body ++ t).
  by rewrite bytes_of_app, app_assoc, <-app_assoc.
Qed.
Lemma live_open h content info :
  sourced h content → live (h ++ [EvOpenRead (source_request plan (blen content)) (Ok info)]) content.
Proof. intros Hs. exists h, content, info, []. by rewrite app_nil_r. Qed.

Lemma readback_mono l fp sum h h' :
  h `prefix_of` h' → has_readback H l fp sum h → has_readback H l fp sum h'.
Proof. intros [t ->]. apply has_readback_app. Qed.
Lemma recorded_mono h h' cp : h `prefix_of` h' → recorded h cp → recorded h' cp.
Proof.
  intros [t ->] [Hs|[job Hl]]; [left|right; exists job]; by rewrite elem_of_app; left.
Qed.
Lemma origin_mono h h' cp : h `prefix_of` h' → origin h cp → origin h' cp.
Proof.
  intros Hp [(c & Hs & Ho & He)|[[Hr Hb]|Hb]]; [left|right; left|right; right; done].
  - exists c. split; [by eapply sourced_mono|done].
  - split; [done|by eapply readback_mono].
Qed.
Lemma streaming_mono h h' cp : h `prefix_of` h' → streaming h cp → streaming h' cp.
Proof. intros Hp (c & Hs & Ho & He). exists c. split; [by eapply sourced_mono|done]. Qed.
Lemma read_back_part_mono h h' cp : h `prefix_of` h' → read_back_part h cp → read_back_part h' cp.
Proof. intros Hp Hr Hv. eapply readback_mono; [done|by apply Hr]. Qed.
Lemma published_mono h h' cp : h `prefix_of` h' → published h cp → published h' cp.
Proof.
  intros Hp [Hr|(Hv & request & r & Hin & Hs)]; [left; by eapply readback_mono|right].
  split; [done|]. exists request, r. destruct Hp as [t ->]. by rewrite elem_of_app; auto.
Qed.
Lemma original_kept_mono h h' :
  h `prefix_of` h' → original_kept plan h → original_kept plan h'.
Proof.
  intros [k ->] Hk Hv e He Hp. destruct (Hk Hv e He Hp) as (request & r & ? & ?).
  exists request, r. split; [apply elem_of_app; by left|done].
Qed.
Lemma stands_mono h h' cp : h `prefix_of` h' → stands h cp → stands h' cp.
Proof.
  intros Hp []. constructor; try done.
  - intros. eapply streaming_mono; eauto.
  - intros. eapply origin_mono; eauto.
  - intros. eapply read_back_part_mono; eauto.
  - intros Hc. destruct (stands_committed0 Hc) as [|[? ?]]; [by left|right].
    split; [done|]. by eapply published_mono.
Qed.

(** * The rule *)

(** Events that are allowed at any time. *)
Definition free (e : event) : Prop :=
  match e with
  | EvSnapshot _ _ | EvStat _ _ | EvOpenRead _ _ | EvRead _ _ _ | EvCloseRead _ _
  | EvReport _ _ _ _ | EvWait _ _ | EvControl _ _ => True
  | EvWrite l _ _ _ | EvWriteFrom l _ _ | EvSync l _ | EvCloseWrite l _ => l = Part plan
  | _ => False
  end.
Lemma free_rule h e : free e → rule h e.
Proof. by destruct e. Qed.

Lemma runs_free {A} h (m : M W A) :
  emits free m → runs rule h m (returning (λ _ _, True)).
Proof.
  intros Hm. eapply runs_conseq; [by apply (runs_emits _ _ _ _ Hm), free_rule|].
  by intros [].
Qed.
Lemma runs_free_seq {A B} h (m : M W A) (f : A → M W B) U :
  emits free m → (∀ a h', h `prefix_of` h' → runs rule h' (f a) (returning U)) →
  runs rule h (m ≫= f) (returning U).
Proof. intros Hm Hf. eapply runs_seq; [by apply runs_free|]. auto. Qed.
(** A free step that reads nothing leaves the content as it is. *)
Definition quiet (e : event) : Prop := free e ∧ unread e.
Lemma runs_quiet_seq {A B} h content (m : M W A) (f : A → M W B) U :
  live h content → emits quiet m →
  (∀ a h', h `prefix_of` h' → live h' content → runs rule h' (f a) (returning U)) →
  runs rule h (m ≫= f) (returning U).
Proof.
  intros Hl Hm Hf. eapply (runs_seq _ _ _ _ (λ _ h', live h' content)).
  - eapply runs_conseq.
    + apply (runs_emits _ _ _ _ Hm). intros h' e [He _]. by apply free_rule.
    + intros [a|e| |] h' _ (t & -> & Ht); [|done..]. cbn.
      rewrite <-(app_nil_r content), <-(bytes_of_unread source t).
      * by apply live_app.
      * eapply Forall_impl; [done|]. by intros e [].
  - auto.
Qed.

Lemma runs_attempt_ret {A} R h (m : M W A) V :
  runs R h m (returning V) →
  runs R h (attempt m) (returning (λ r h', match r with Ok a => V a h' | Err _ => True end)).
Proof.
  intros Hm. apply runs_attempt. eapply runs_conseq; [done|]. by intros [].
Qed.
Lemma runs_attempt_seq {A B} R h (m : M W A) (f : result error A → M W B) V U :
  runs R h m (returning V) →
  (∀ e h', h `prefix_of` h' → runs R h' (f (Err e)) (returning U)) →
  (∀ a h', h `prefix_of` h' → V a h' → runs R h' (f (Ok a)) (returning U)) →
  runs R h (attempt m ≫= f) (returning U).
Proof.
  intros Hm He Ha. eapply runs_seq; [by apply runs_attempt_ret|].
  intros [a|e] h' Hp HV; auto.
Qed.

(** Only under the journal's promise. *)
Lemma journalled_prefix h h' : h `prefix_of` h' → journalled h' → journalled h.
Proof.
  intros [t ->] Hj h1 job cp h2 ->. rewrite <-app_assoc in Hj. cbn in Hj. by eapply Hj.
Qed.
Lemma runs_journalled {A} h (m : M W A) Q :
  (journalled h → runs rule h m Q) →
  runs (lawful H plan) h m (λ o h', journalled h' → Q o h').
Proof.
  intros Hm w o t w' E. split.
  - assert (∀ h0 t0, h `prefix_of` h0 → (journalled h → obeys rule h0 t0) →
      obeys (lawful H plan) h0 t0) as Hgen.
    { intros h0 t0. revert h0. induction t0 as [|e t0 IH]; intros h0 Hp Ho; [done|]. cbn. split.
      - intros Hj. apply Ho. by eapply journalled_prefix.
      - apply IH; [by apply prefix_app_r|]. intros Hj. by apply Ho. }
    apply Hgen; [done|]. intros Hj. by apply (Hm Hj w o t w').
  - intros Hj. apply (Hm (journalled_prefix _ _ (prefix_app_r _ _ _ (reflexivity h)) Hj) w o t w' E).
Qed.
End Facts.

Create HintDb evidence.
#[export] Hint Resolve sourced_mono live_sourced readback_mono recorded_mono origin_mono
  streaming_mono read_back_part_mono published_mono stands_mono : evidence.
