(* ===== verification/JobJournal.v ===== *)
(** The journal of a transfer in the store of jobs
    (src/internal/transfer/job_journal.go), and that it is the journal the worker
    relies on: what it loads has been saved before. *)
From S2P Require Import Prelude Utf8 Domain GoPath Provider DirectProtocol Bandwidth Plan PlanRecord.
From S2P Require Import JobTables JobStore JobRetention JobStoreFacts JobRuns Checkpoint Effects Evidence.

(** * Texts *)
Record checkpointLocationPayload := mkLocationPayload {
  lp_Completion : CompletionEvidence; lp_HasDirectoryState : bool; lp_Part : Location;
  lp_PartFingerprint : Fingerprint; lp_Final : Location; lp_ChecksumHex : string; lp_Outcome : string;
  lp_ActualRoute : string; lp_DowngradedFrom : string; lp_RouteReason : string;
  lp_DirectFormatVersion : Z; lp_DirectNonce : string;
}.
#[export] Instance json_LocationPayload : Json checkpointLocationPayload := {|
  strings f l := mkLocationPayload (lp_Completion l) (lp_HasDirectoryState l) (strings f (lp_Part l))
    (strings f (lp_PartFingerprint l)) (strings f (lp_Final l)) (strings f (lp_ChecksumHex l))
    (strings f (lp_Outcome l)) (strings f (lp_ActualRoute l)) (strings f (lp_DowngradedFrom l))
    (strings f (lp_RouteReason l)) (lp_DirectFormatVersion l) (strings f (lp_DirectNonce l));
  written l := written (lp_PartFingerprint l) |}.
(** The texts of the two values that the journal writes. *)
Class CheckpointTexts (T : Type) := {
  text_fingerprint : Fingerprint → T; read_fingerprint : T → option Fingerprint;
  text_location : checkpointLocationPayload → T; read_location : T → option checkpointLocationPayload;
}.
Class CheckpointTextsLaws (T : Type) `{CheckpointTexts T} : Prop := {
  fingerprint_read : ∀ f, read_fingerprint (text_fingerprint f) = Some f;
  location_read : ∀ l, read_location (text_location l) = Some l;
}.

(** * Load and Save *)
Section JobJournal.
Context {T : Type} `{Texts T} `{CheckpointTexts T}.
Definition store_error (e : StoreError) : error :=
  match e with
  | ErrNoRows => EText "sql: no rows in result set"
  | ErrVersionConflict _ _ => EText "Job state version conflict"
  | ErrInvalidTransition _ _ => EText "invalid Job transition"
  | ErrConstraint what | ErrStore what => EText what
  end.
Definition JobJournal_Load (index : Z) (jobID : string) (db : DB T) : result error (option Checkpoint) :=
  match GetCheckpoint jobID index db with
  | Err ErrNoRows => Ok None
  | Err e => Err (store_error e)
  | Ok record =>
    match t ← JobStore.cp_SourceFingerprint record; read_fingerprint t with
    | None => Err (EText "load transfer checkpoint: decode source fingerprint")
    | Some fp =>
      match t ← JobStore.cp_PartLocationJSON record; read_location t with
      | None => Err (EText "load transfer checkpoint: decode part identity")
      | Some payload =>
        let sourceFingerprint := strings unescape fp in
        let location := strings unescape payload in
        Ok (Some (mkCheckpoint (lp_Completion location) (lp_HasDirectoryState location)
          (JobStore.cp_JobID record) (JobStore.cp_Phase record) (JobStore.cp_VerifiedOffset record)
          sourceFingerprint (lp_Part location) (lp_PartFingerprint location)
          (JobStore.cp_ChecksumState record) (lp_ChecksumHex location) (lp_Final location)
          (lp_Outcome location) (lp_ActualRoute location) (lp_DowngradedFrom location)
          (lp_RouteReason location) (lp_DirectFormatVersion location) (lp_DirectNonce location)))
      end
    end
  end.
Definition location_payload (checkpoint : Checkpoint) : checkpointLocationPayload :=
  mkLocationPayload (Completion checkpoint) (HasDirectoryState checkpoint) (Checkpoint.cp_Part checkpoint)
    (PartFingerprint checkpoint) (cp_Final checkpoint) (ChecksumHex checkpoint) (cp_Outcome checkpoint)
    (ActualRoute checkpoint) (DowngradedFrom checkpoint) (RouteReason checkpoint)
    (DirectFormatVersion checkpoint) (DirectNonce checkpoint).
Definition checkpoint_request (index : Z) (now : Time) (checkpoint : Checkpoint) : CheckpointRequest T :=
  mkCheckpointRequest (Checkpoint.cp_JobID checkpoint) index (Checkpoint.cp_Phase checkpoint)
    (Offset checkpoint) (Some (text_fingerprint (strings escape (SourceFingerprint checkpoint))))
    (Some (text_location (strings escape (location_payload checkpoint)))) (ChecksumState checkpoint) now.
Definition JobJournal_Save (index : Z) (now : Time) (f : fate) (checkpoint : Checkpoint) (db : DB T) :
    DB T * option error :=
  if negb (written (SourceFingerprint checkpoint))
  then (db, Some (EText "save transfer checkpoint: encode source fingerprint")) else
  if negb (written (location_payload checkpoint))
  then (db, Some (EText "save transfer checkpoint: encode part identity")) else
  let '(db, r) := SaveCheckpoint f (checkpoint_request index now checkpoint) db in
  (db, match r with Ok _ => None | Err e => Some (store_error e) end).

(** The journal of step [index] as the worker sees it, in a world that holds the
    store: the fate of a transaction and the clock are the world's. *)
Definition JobJournal {W} (db_of : W → DB T) (with_db : DB T → W → W) (fate_of : W → fate)
    (index : Z) (Now : W → Time * W) (Observer : option (string → Z → Z → W → option error * W)) :
    Journal W :=
  let report := match Observer with Some f => f | None => λ _ _ _ w, (None, w) end in
  mkJournal
    (λ jobID w, (JobJournal_Load index jobID (db_of w), w))
    (λ checkpoint w,
       let '(now, w) := Now w in
       let '(db, err) := JobJournal_Save index now (fate_of w) checkpoint (db_of w) in
       match err with
       | Some e => (Some e, with_db db w)
       | None => report (Checkpoint.cp_Phase checkpoint) (Offset checkpoint) (durableBytes checkpoint)
                   (with_db db w)
       end)
    (Some report).
End JobJournal.

(** * What is loaded was saved *)
Section Facts.
Context {T : Type} `{Texts T} `{CheckpointTexts T} `{!CheckpointTextsLaws T}.
Implicit Types (db : DB T).

Definition utf8_checkpoint (c : Checkpoint) : Prop :=
  utf8_only (SourceFingerprint c) ∧ utf8_only (location_payload c).
Definition row_of (index : Z) (now : Time) (c : Checkpoint) : CheckpointRow T :=
  let request := checkpoint_request (T := T) index now c in
  mkCheckpointRow (cq_Phase request) (cq_VerifiedOffset request) (JobStore.cq_SourceFingerprint request)
    (cq_PartLocationJSON request) (nullableBytes (cq_ChecksumState request)) (Time_Unix now).

Lemma load_row index now c db :
  utf8_checkpoint c → job_checkpoints db !! (Checkpoint.cp_JobID c, index) = Some (row_of index now c) →
  is_ok (ParseJobID (Checkpoint.cp_JobID c)) = true → 0 ≤ index < maxJobSteps →
  JobJournal_Load index (Checkpoint.cp_JobID c) db = Ok (Some c).
Proof.
  intros [Hf Hl] Hrow Hp Hi. unfold JobJournal_Load, GetCheckpoint, parsed.
  destruct (ParseJobID _); [|done]. cbn [mbind result_bind]. destruct ((index <? 0) || _) eqn:Hr; [lia|].
  rewrite Hrow. cbn [JobStore.cp_SourceFingerprint JobStore.cp_PartLocationJSON row_of checkpoint_request
    ck_SourceFingerprint ck_PartLocation JobStore.cq_SourceFingerprint cq_PartLocationJSON mbind option_bind].
  rewrite fingerprint_read, location_read. cbn [mbind option_bind].
  destruct (written_back _ Hf) as [-> ->], (written_back _ Hl) as [-> ->]. destruct c as []. cbn.
  do 3 f_equal. by destruct ChecksumState.
Qed.
Lemma Load_none_or index job db c :
  JobJournal_Load index job db = Ok (Some c) →
  is_ok (ParseJobID job) = true ∧ 0 ≤ index < maxJobSteps ∧ is_Some (job_checkpoints db !! (job, index)).
Proof.
  unfold JobJournal_Load, GetCheckpoint, parsed. destruct (ParseJobID job); [|done]. cbn [mbind result_bind].
  destruct ((index <? 0) || _) eqn:Hr; [done|]. destruct (job_checkpoints db !! _); [|done].
  intros _. split; [done|]. split; [lia|by eexists].
Qed.
Lemma Save_row index now f c db :
  let db' := (JobJournal_Save index now f c db).1 in
  db' = db ∨ job_checkpoints db' = <[(Checkpoint.cp_JobID c, index) := row_of index now c]> (job_checkpoints db).
Proof.
  unfold JobJournal_Save. destruct (negb _); [by left|]. destruct (negb _); [by left|].
  destruct (SaveCheckpoint f _ db) as [db' r] eqn:E. cbn. apply (f_equal fst) in E. cbn in E. subst db'.
  unfold SaveCheckpoint. destruct (validateCheckpoint _); [|by left].
  destruct (immediate_ok f (statement (save_row (checkpoint_request index now c))) db) as [[-> _]|(u & E & _)];
    [by left|right]. apply statement_ok, save_row_ok in E as [_ E _]. exact E.
Qed.

(** The other operations write no checkpoint of this step. *)
Lemma others_write_none index db db' :
  store_step db db' → (∀ request, saved db request db' → cq_StepIndex request ≠ index) →
  ∀ j c, job_checkpoints db' !! (j, index) = Some c → job_checkpoints db !! (j, index) = Some c.
Proof.
  intros Hstep Hno j c.
  apply store_step_changed in Hstep as [Hown|request payload _ Hc|job1 r1 r' e1 Hm|request Hs|now policy Hret].
  - unfold own in Hown. by injection Hown as _ _ _ -> _ _ _ _.
  - by rewrite (ct_checkpoints _ _ _ _ Hc).
  - by rewrite (mv_checkpoints _ _ _ _ _ _ Hm).
  - rewrite (sv_row _ _ _ Hs), lookup_insert_ne; [done|]. intros [= _ E]. by eapply Hno.
  - destruct Hret as [-> |job1 _ _ -> |row Hc Ht _ Htm|row r1 Hc Hr1 Ht _ Hrows _ _ ->]; try done.
    intros Hk. eapply lookup_weaken; [done|]. by destruct (tm_checkpoints _ _ _ Htm).
Qed.

(** Histories in which only the journal writes the checkpoints of its step, among
    any other steps of the store and any other calls. *)
Context {W : Type} (db_of : W → DB T) (with_db : DB T → W → W) (fate_of : W → fate)
  (Now : W → Time * W) (Observer : option (string → Z → Z → W → option error * W)) (index : Z).
Local Abbreviation journal := (JobJournal db_of with_db fate_of index Now Observer).
Definition outside (e : event) : Prop :=
  match e with EvLoad _ _ | EvSave _ _ => False | _ => True end.
Inductive journal_run : list event → W → Prop :=
| run_start w : (∀ j, job_checkpoints (db_of w) !! (j, index) = None) → journal_run [] w
| run_load h w job :
    journal_run h w → journal_run (h ++ [EvLoad job (Load journal job w).1]) (Load journal job w).2
| run_save h w c :
    journal_run h w → journal_run (h ++ [EvSave c (Save journal c w).1]) (Save journal c w).2
| run_other h w t w' :
    journal_run h w → Forall outside t → store_step (db_of w) (db_of w') →
    (∀ request, saved (db_of w) request (db_of w') → cq_StepIndex request ≠ index) →
    journal_run (h ++ t) w'.

(** The clock and the observer leave the store alone. *)
Record apart : Prop := {
  ap_put : ∀ db w, db_of (with_db db w) = db;
  ap_clock : ∀ w, db_of (Now w).2 = db_of w;
  ap_observer : ∀ f phase bytes durable w, Observer = Some f → db_of (f phase bytes durable w).2 = db_of w;
}.
Lemma Save_effect c w :
  apart → ∃ now, db_of (Save journal c w).2 = (JobJournal_Save index now (fate_of (Now w).2) c (db_of w)).1.
Proof.
  intros [Hput Hclock Hobs]. unfold JobJournal. cbn. pose proof (Hclock w) as Hw.
  destruct (Now w) as [now w1]. cbn in *. exists now. rewrite Hw.
  destruct (JobJournal_Save index now (fate_of w1) c (db_of w)) as [db [e|] ]; cbn; [by rewrite Hput|].
  destruct Observer as [f|]; cbn; [by rewrite Hobs, Hput|by rewrite Hput].
Qed.

Definition accounted (h : list event) db : Prop :=
  ∀ j row, job_checkpoints db !! (j, index) = Some row →
  ∃ c now err, EvSave c err ∈ h ∧ Checkpoint.cp_JobID c = j ∧ row = row_of index now c.
Lemma accounted_mono h t db : accounted h db → accounted (h ++ t) db.
Proof. intros Ha j row (c & now & err & ? & ?)%Ha. exists c, now, err. split; [apply elem_of_app; by left|done]. Qed.

Lemma snoc_inv {A} (h1 h2 : list A) e h x : h ++ [e] = h1 ++ x :: h2 → (∃ t, h2 = t ++ [e] ∧ h = h1 ++ x :: t) ∨ (x = e ∧ h1 = h).
Proof.
  destruct h2 as [|y h2 _] using rev_ind.
  - intros [<- [= ->] ]%app_inj_tail. by right.
  - intros E. left. exists h2. replace (h1 ++ x :: h2 ++ [y]) with ((h1 ++ x :: h2) ++ [y]) in E by by rewrite <-app_assoc.
    apply app_inj_tail in E as [-> ->]. done.
Qed.
Lemma journal_run_inv h w :
  apart → journal_run h w → Forall (λ e, ∀ c err, e = EvSave c err → utf8_checkpoint c) h →
  journalled h ∧ accounted h (db_of w).
Proof.
  intros Hap. induction 1 as [w Hnone|h w job _ IH|h w c _ IH|h w t w' _ IH Ht Hstep Hno]; intros Hu.
  - split; [by intros [] ? ? ?|]. intros j row. by rewrite Hnone.
  - apply Forall_app in Hu as [Hu _]. destruct (IH Hu) as [Hj Ha]. split; [|by apply accounted_mono].
    intros h1 j cp h2 [(t & -> & E)|[E <-] ]%snoc_inv; [by eapply Hj|]. cbn in E. injection E as <- E.
    symmetry in E. destruct (Load_none_or _ _ _ _ E) as (Hp & Hi & row & Hrow).
    destruct (Ha _ _ Hrow) as (c & now & err & Hin & <- & ->). exists err.
    assert (utf8_checkpoint c) as Huc by (rewrite Forall_forall in Hu; by eapply (Hu _ Hin)).
    rewrite (load_row _ _ _ _ Huc Hrow Hp Hi) in E. by injection E as <-.
  - apply Forall_app in Hu as [Hu _]. destruct (IH Hu) as [Hj Ha]. split.
    + intros h1 j cp h2 [(t & -> & E)|[E <-] ]%snoc_inv; [by eapply Hj|done].
    + destruct (Save_effect c w Hap) as [now ->].
      destruct (Save_row index now (fate_of (Now w).2) c (db_of w)) as [-> | E]; [by apply accounted_mono|].
      intros j row. rewrite E, lookup_insert_Some. intros [[[= <-] <-]|[_ Hrow]].
      * exists c, now. eexists. split; [apply elem_of_app; right; by apply list_elem_of_singleton|done].
      * by apply (accounted_mono _ _ _ Ha).
  - apply Forall_app in Hu as [Hu _]. destruct (IH Hu) as [Hj Ha]. split.
    + clear -Hj Ht. induction t as [|e t IHt] using rev_ind; [by rewrite app_nil_r|].
      apply Forall_app in Ht as [Ht [He _]%Forall_cons].
      intros h1 j cp h2. rewrite app_assoc. intros [(t' & -> & E)|[<- _] ]%snoc_inv; [by eapply IHt|by destruct He].
    + apply (accounted_mono _ t) in Ha. intros j row Hrow. eapply Ha, others_write_none; done.
Qed.

(** C17: The store's journal is a journal: in every history in which only the
    journal writes the checkpoints of its step, whatever becomes of its
    transactions and whatever else the store does, a checkpoint that is loaded was
    saved before, if the texts of what was saved are UTF-8. *)
Theorem journal_loads_saved h w :
  apart → journal_run h w → Forall (λ e, ∀ c err, e = EvSave c err → utf8_checkpoint c) h →
  journalled h.
Proof. intros Hap Hrun Hu. by destruct (journal_run_inv _ _ Hap Hrun Hu). Qed.

(** A checkpoint that was saved is loaded: once a save is confirmed, and until
    the checkpoints of its step change, loading gives it back as it was, if its
    text is UTF-8. *)
Theorem journal_roundtrip c w :
  apart → utf8_checkpoint c → Observer = None → (Save journal c w).1 = None →
  Load journal (Checkpoint.cp_JobID c) (Save journal c w).2 = (Ok (Some c), (Save journal c w).2).
Proof.
  intros [Hput Hclock _] Hu Hno. unfold JobJournal. rewrite Hno. cbn. pose proof (Hclock w) as Hw.
  destruct (Now w) as [now w1]. cbn in *. rewrite Hw. unfold JobJournal_Save.
  destruct (negb _); [done|]. destruct (negb _); [done|].
  destruct (SaveCheckpoint (fate_of w1) (checkpoint_request index now c) (db_of w)) as [db' [[]|e] ] eqn:E; [|done].
  cbn. intros _. f_equal. rewrite Hput. unfold SaveCheckpoint in E.
  destruct (validateCheckpoint (checkpoint_request index now c)) as [[]|] eqn:Hv; [|done].
  destruct (immediate_ok (fate_of w1) (statement (save_row (checkpoint_request index now c))) (db_of w))
    as [[E1 E']|(u & E' & _)]; rewrite E in E'; cbn in E';
    [rewrite E in E1; cbn in E1; subst db'; specialize (E' _ eq_refl)|].
  all: apply statement_ok, save_row_ok in E' as [_ Hrow _].
  all: unfold validateCheckpoint, parsed in Hv; cbn [cq_JobID checkpoint_request] in Hv;
    destruct (ParseJobID (Checkpoint.cp_JobID c)) eqn:Hp; [|done]; cbn [mbind result_bind] in Hv;
    destruct (_ || _) eqn:Hb in Hv; [done|]; cbn in Hb;
    apply (load_row index now); [done| |by rewrite Hp|lia]; rewrite Hrow; by rewrite lookup_insert_eq.
Qed.
End Facts.
