(* ===== verification/TransferFacts.v ===== *)
(** What an epoch of a stream moves: the bytes it acknowledges are the bytes it
    has read and hashed, whichever way the destination takes them. *)
From S2P Require Import Prelude Domain GoPath Provider DirectProtocol Bandwidth Plan Checkpoint.
From S2P Require Import Effects Logic Mutation Stream StreamFacts Evidence Worker.

(** A provider's [WriteFrom] ends with an error when a read has failed, as
    [io.ReaderFrom] demands. *)
Definition pump_stops {W} (f : Pump W) : Prop := ∀ bytes e w, is_EOF_value e = false →
  ∃ n err w', f (Some (bytes, Some e)) w = (PumpDone n (Some err), w').
Definition handle_stops {W} (handle : WriteHandle W) : Prop :=
  (∀ f, WriteFrom handle = Some f → pump_stops f) ∧
  (∀ f n, WriteFromWindow handle = Some f → pump_stops (f n)).

Section Facts.
Context {W H : Type} `{HashLaws H} (worker : Worker W) (plan : Plan).
Context (scheduler_law : SchedulerLaw (w_scheduler worker)).
Local Abbreviation source := (ref_Location (Source plan)).

(** The events of an epoch. *)
Definition moving (e : event) : Prop :=
  match e with
  | EvRead l _ _ => l = source
  | EvWait _ _ | EvReport _ _ _ _ => True
  | EvWrite l _ _ _ | EvWriteFrom l _ _ => l = Part plan
  | _ => False
  end.
Lemma moving_free e : moving e → free plan e.
Proof. by destruct e. Qed.
Lemma reading_moving e : reading source e → moving e.
Proof. by destruct e. Qed.
Lemma bytes_of_moving t : Forall moving t → bytes_of source t = read_bytes t.
Proof.
  induction 1 as [|e t He _ IH]; [done|]. unfold bytes_of, read_bytes in *.
  destruct e; try done; cbn in *; subst; [by rewrite bool_decide_true; cbn; [rewrite IH|]|..]; done.
Qed.

(** The reader, since the epoch began with [r0] and [chunk]: it has hashed,
    counted and deducted what was read. *)
Record tracked (r0 : sourceStream (W := W) (H := H)) (chunk : Z) (r : checkpointReader (W := W))
    (t : list event) : Prop := {
  tracked_location : ss_location (cr_reader r) = source;
  tracked_reports : reports (cr_reader r);
  tracked_digest : ss_digest (cr_reader r) = (λ h, h_write h (read_bytes t)) <$> ss_digest r0;
  tracked_count : u64 (ss_readBytes (cr_reader r)) = u64 (ss_readBytes r0 + blen (read_bytes t));
  tracked_left : cr_remaining r = chunk - blen (read_bytes t) ∧ 0 ≤ cr_remaining r;
}.
Definition lost (err : option error) : Prop := ∃ e, err = Some e ∧ is_EOF_value e = false.

Lemma tracked_start r0 chunk deadline :
  ss_location r0 = source → reports r0 → 0 ≤ chunk →
  tracked r0 chunk (mkCheckpointReader r0 chunk deadline false) [].
Proof.
  intros Hl Hr Hc. constructor; cbn; [done|done| |by rewrite blen_nil, Z.add_0_r|by rewrite blen_nil; lia].
  destruct (ss_digest r0); cbn; [by rewrite h_write_nil|done].
Qed.
Lemma tracked_still r0 chunk r t t' :
  tracked r0 chunk r t → read_bytes t' = [] → tracked r0 chunk r (t ++ t').
Proof. intros [] Hn. by constructor; rewrite ?read_bytes_app, ?Hn, ?app_nil_r. Qed.

Lemma tracked_read r0 chunk r deadline started t t' bytes :
  tracked r0 chunk r t → read_bytes t' = bytes → blen bytes ≤ cr_remaining r →
  tracked r0 chunk (mkCheckpointReader (stream_read_by (cr_reader r) bytes)
    (cr_remaining r - blen bytes) deadline started) (t ++ t').
Proof.
  intros [Hl Hr Hd Hn [Hc Hc']] Hb Hle. constructor; cbn; try done.
  - rewrite Hd, read_bytes_app, Hb. destruct (ss_digest r0); cbn; [by rewrite h_write_app|done].
  - rewrite read_bytes_app, Hb, blen_app. unfold u64 in *. rewrite Zmod_mod.
    rewrite <-Zplus_mod_idemp_l, Hn, Zplus_mod_idemp_l. f_equal. lia.
  - rewrite read_bytes_app, Hb, blen_app. lia.
Qed.

Lemma checkpointReader_Read_sees r0 chunk (r : checkpointReader) size t0 :
  tracked r0 chunk r t0 → 0 ≤ size →
  sees moving (checkpointReader_Read (w_scheduler worker) (w_ctx_Err worker) (w_Now worker)
                 (w_fuel worker) plan r size)
    (returning (λ '(r', (bytes, err)) t, tracked r0 chunk r' (t0 ++ t) ∨ lost err)).
Proof.
  intros Ht Hs. unfold checkpointReader_Read.
  assert (∀ e, sees moving (mret (M := M W) (r, (([] : list byte), Some e)))
    (returning (λ '(r', (bytes, err)) t, tracked r0 chunk r' (t0 ++ t) ∨ lost err))) as Hstop.
  { intros e. apply sees_ret. left. by rewrite app_nil_r. }
  destruct (Z.eqb_spec (cr_remaining r) 0) as [|Hleft]; [apply Hstop|].
  eapply (sees_seq (W := W) _ _ _ (λ _ t, t = [])).
  { apply silent_sees. intros w. unfold past_deadline.
    destruct (cr_started r); [|done]. destruct (cr_deadline r); [|done].
    unfold tick, mbind, M_bind. by destruct (w_Now worker w). }
  intros past t _ ->. cbn [app]. destruct past; [apply Hstop|].
  pose proof (tracked_left _ _ _ _ Ht) as [Hc Hc'].
  set (n := if size >? cr_remaining r then _ else _).
  assert (0 ≤ n ≤ cr_remaining r) as Hn.
  { unfold n. rewrite Z.gtb_ltb. destruct (Z.ltb_spec (cr_remaining r) size); lia. }
  eapply (sees_seq _ _ _ (read_post (w_scheduler worker) (cr_reader r) n)).
  { eapply sees_conseq.
    - eapply (sees_weaken _ _ _ _ (sourceStream_Read_sees _ _ _ plan (cr_reader r) n
        (tracked_reports _ _ _ _ Ht) (proj1 Hn))).
      rewrite (tracked_location _ _ _ _ Ht). apply reading_moving.
    - intros [o| | |] t _; cbn; [|done..]. by intros [_ Hq]. }
  intros [r' [bytes err]] t _ (Hle & Hr' & Hread & _). apply sees_ret. cbn. rewrite app_nil_r.
  destruct Hread as [Hread|(_ & -> & [e ->] & He)].
  2:{ right. exists e. split; [done|]. by apply (He scheduler_law). }
  left. case_bool_decide as Hb.
  - subst bytes. rewrite Hb in *. destruct Hr' as [[-> _]| ->].
    + destruct r. by apply tracked_still.
    + assert (cr_remaining r = cr_remaining r - blen []) as Heq by (rewrite blen_nil; lia).
      rewrite Heq. apply tracked_read; [done|done|rewrite blen_nil; lia].
  - destruct Hr' as [[_ ->]| ->]; [done|]. apply tracked_read; [done|done|lia].
Qed.

(** Writing reads nothing. *)
Definition writing (e : event) : Prop :=
  match e with EvWrite l _ _ _ | EvWriteFrom l _ _ => l = Part plan | _ => False end.
Lemma writing_moving e : writing e → moving e.
Proof. by destruct e. Qed.
Lemma read_bytes_writing t : Forall writing t → read_bytes t = [].
Proof. induction 1 as [|e t He _ IH]; [done|]. by destruct e. Qed.
Lemma writeAll_emits handle turns data :
  emits writing (writeAll (W := W) (Part plan) handle turns data).
Proof.
  revert data. induction turns as [|turns IH]; intros data; cbn [writeAll]; effects; auto.
Qed.

(** What an epoch that ended without an error has moved. *)
Definition acknowledged r0 chunk (o : checkpointReader * (Z * option error)) (t : list event) : Prop :=
  o.2.2 = None → tracked r0 chunk o.1 t.

(** A turn of a pump: after a failed read it ends with an error. *)
Lemma pump_turn_sees r0 chunk (f : Pump W) (r : checkpointReader) resume t0 :
  pump_stops f →
  (∀ bytes err, resume = Some (bytes, err) → lost err ∨ tracked r0 chunk r t0) →
  (resume = None → tracked r0 chunk r t0) →
  sees (W := W) moving (call_WriteFrom (Part plan) f resume) (returning (λ a t,
    match a with
    | PumpDone n err => Forall writing t ∧ (err = None → tracked r0 chunk r t0)
    | PumpRead _ => t = [] ∧ tracked r0 chunk r t0
    end)).
Proof.
  intros Hf Hsome Hnone w o t w' E. unfold call_WriteFrom in E.
  assert (tracked r0 chunk r t0 ∨ ∃ n err w', f resume w = (PumpDone n (Some err), w'))
    as [Ht|(n & err & w1 & Ef)].
  { destruct resume as [[bytes err]|]; [|left; auto].
    destruct (Hsome bytes err eq_refl) as [(e & -> & He)|]; [right; by apply Hf|by left]. }
  - destruct (f resume w) as [[size|n err] w1]; injection E as <- <- <-; [by auto|].
    split; [by rewrite Forall_singleton|]. split; [by rewrite Forall_singleton|auto].
  - rewrite Ef in E. injection E as <- <- <-. split; [by rewrite Forall_singleton|].
    split; [by rewrite Forall_singleton|done].
Qed.

Lemma pump_loop_sees r0 chunk f turns r resume t0 :
  pump_stops f →
  (∀ bytes err, resume = Some (bytes, err) → lost err ∨ tracked r0 chunk r t0) →
  (resume = None → tracked r0 chunk r t0) →
  sees moving (pump_loop (w_scheduler worker) (w_ctx_Err worker) (w_Now worker) (w_fuel worker)
                 plan (Part plan) f turns r resume)
    (returning (λ o t, acknowledged r0 chunk o (t0 ++ t))).
Proof.
  intros Hf. revert r resume t0. induction turns as [|turns IH]; intros r resume t0 Hsome Hnone.
  all: cbn [pump_loop]; eapply sees_seq; [by apply pump_turn_sees|].
  all: intros [size|n err] t _ Ht; cbn [app].
  2,4: destruct Ht as [Hw Ht]; apply sees_ret; cbn; intros He;
    rewrite app_nil_r; apply tracked_still; [by apply Ht|by apply read_bytes_writing].
  - by apply sees_running.
  - destruct Ht as [-> Ht].
    eapply sees_seq; [by apply (checkpointReader_Read_sees r0 chunk r (Z.max 0 size) t0); [|lia]|].
    intros [r' [bytes err]] t' _ Hr. cbn [app].
    eapply sees_conseq; [apply (IH r' _ (t0 ++ t'))|].
    + intros ? ? [= <- <-]. tauto.
    + done.
    + intros [o| | |] t'' _; cbn; [|done..]. by rewrite <-app_assoc.
Qed.

Lemma copy_epoch_sees r0 chunk handle (limited : checkpointReader) size :
  tracked r0 chunk limited [] →
  sees moving
    (CopyBuffer (w_fuel worker)
       (checkpointReader_Read (w_scheduler worker) (w_ctx_Err worker) (w_Now worker)
          (w_fuel worker) plan)
       (streamWriteAdapter_Write (Part plan) handle) size limited tt)
    (returning (λ '(r, _, (n, err)) t, err = None → tracked r0 chunk r t)).
Proof.
  intros Ht. eapply sees_conseq.
  - apply (CopyBuffer_sees _ moving _ _ size (λ r _ _ t, tracked r0 chunk r t)
             (λ r _ _ _ er t, tracked r0 chunk r t ∨ lost er)).
    + intros Hpos r [] n t0 Hr. eapply sees_conseq; [by apply checkpointReader_Read_sees; [|lia]|].
      by intros [[r' [bytes err]]| | |] t _.
    + intros r [] n bytes er t0 Hr _. unfold streamWriteAdapter_Write.
      eapply (sees_seq _ _ _ (λ _ t, Forall writing t)).
      * eapply sees_conseq; [eapply sees_weaken; [apply sees_emits, writeAll_emits|apply writing_moving]|].
        by intros [a| | |] t _ [? _].
      * intros err t _ Hw. apply sees_ret. cbn. destruct err; [done|]. intros _ _.
        destruct Hr as [Hr|]; [left|by right]. rewrite app_nil_r.
        apply tracked_still; [done|by apply read_bytes_writing].
    + intros r [] n t0 [Hr|(e & ? & _)]; [done..].
    + done.
  - intros [[[r []] [n err]]| | |] t _ HQ; cbn in *; [|done..]. intros He.
    destruct (HQ He) as (e & Heof & [Hr|(e' & [= <-] & He')]); [done|by rewrite Heof in He'].
Qed.

Lemma transfer_epoch_sees r0 chunk handle limited :
  handle_stops handle → tracked r0 chunk limited [] →
  sees moving (transfer_epoch worker plan handle limited) (returning (acknowledged r0 chunk)).
Proof.
  intros [Hf Hw] Ht. unfold transfer_epoch.
  assert (∀ f, pump_stops f → sees moving (pump_loop (w_scheduler worker) (w_ctx_Err worker)
    (w_Now worker) (w_fuel worker) plan (Part plan) f (w_fuel worker) limited None)
    (returning (acknowledged r0 chunk))) as Hpump.
  { intros f Hstop. eapply sees_conseq; [by apply (pump_loop_sees r0 chunk f _ limited None [])|].
    by intros []. }
  cbv zeta. repeat case_match; try (by apply Hpump; eauto).
  all: eapply sees_seq; [by apply copy_epoch_sees|]; intros [[r u] [n err]] t _ HQ.
  all: apply sees_ret; cbn; by rewrite app_nil_r.
Qed.
End Facts.
