(* ===== verification/WorkerFacts.v ===== *)
(** The worker's streams obey the rule: every checkpoint they save stands, and
    what has been copied is what has been read. *)
From S2P Require Import Prelude Domain GoPath Provider DirectProtocol Bandwidth Plan.
From S2P Require Import Checkpoint Effects Logic Mutation Stream Worker StreamFacts Evidence.
From S2P Require Import TransferFacts.

(** A plan that was frozen for a file: it may run, and its numbers have their
    width. *)
Record file_plan (plan : Plan) : Prop := {
  plan_valid : validateExecution plan = Ok ();
  plan_size : ∃ size, fp_Size (ref_Fingerprint (Source plan)) = Some size ∧ 0 ≤ size < 2 ^ 64;
  plan_buffer : 0 ≤ BufferBytes plan;
}.
(** What the worker relies on in its surroundings. *)
Record surroundings {W} (worker : Worker W) : Prop := {
  scheduler_law : SchedulerLaw (w_scheduler worker);
  pump_law : ∀ id p m request w handle w', w_Resolve worker id = Ok p → mutable_facet p = Some m →
    OpenWrite m request w = (Ok handle, w') → handle_stops handle;
}.

Ltac keeps :=
  match goal with
  | Hb : belongs _ ?cp |- belongs _ _ => destruct Hb; constructor; cbn; try done; try lia
  end.

Lemma belongs_recordDurable plan cp : belongs plan cp → belongs plan (recordDurable cp).
Proof. intros Hb. unfold recordDurable. case_match; [|done]. keeps. Qed.
Lemma belongs_verified plan cp : belongs plan cp → belongs plan (recordContentVerified cp).
Proof. intros Hb. unfold recordContentVerified. case_match; [|done]. keeps. Qed.

(** The other fields are as they were. *)
Lemma recordDurable_same {A} (f : Checkpoint → A) cp :
  (∀ c, f (cp <| Completion := c |>) = f cp) → f (recordDurable cp) = f cp.
Proof. intros Hf. unfold recordDurable. by case_match. Qed.
Lemma recordContentVerified_same {A} (f : Checkpoint → A) cp :
  (∀ c, f (cp <| Completion := c |>) = f cp) → f (recordContentVerified cp) = f cp.
Proof. intros Hf. unfold recordContentVerified. by case_match. Qed.

Section Facts.
Context {W H : Type} `{HashLaws H} (worker : Worker W) (plan : Plan).
Context (Hplan : file_plan plan) (Hworker : surroundings worker).
Local Abbreviation source := (ref_Location (Source plan)).
Local Abbreviation rule := (rule H plan).
Local Abbreviation stands := (stands H plan).

Lemma runs_save h cp :
  stands h cp → runs rule h (save worker cp) (returning (λ _ h', h' = h ++ [EvSave cp None])).
Proof.
  intros Hs. unfold save. apply runs_bind, runs_err_event. intros [e|]; (split; [done|]); cbn.
  - by apply runs_throw.
  - by apply runs_ret.
Qed.
Lemma runs_save_seq {B} h cp (f : () → M W B) U :
  stands h cp → runs rule (h ++ [EvSave cp None]) (f tt) (returning U) →
  runs rule h (save worker cp ≫= f) (returning U).
Proof. intros Hs Hf. eapply runs_seq; [by apply runs_save|]. by intros [] h' _ ->. Qed.
Lemma recorded_save h cp : recorded (h ++ [EvSave cp None]) cp.
Proof. left. apply elem_of_app. right. by left. Qed.

Lemma runs_wrapping {A} h message (m : M W A) V :
  runs rule h m (returning V) → runs rule h (wrapping message m) (returning V).
Proof.
  intros Hm. unfold wrapping. eapply runs_attempt_seq; [done|by intros; apply runs_throw|].
  intros a h' _ Hv. by apply runs_ret.
Qed.

Lemma verifying_free l e : verifying l e → free plan e.
Proof. by destruct e. Qed.
Lemma runs_verify h current p l expected :
  runs rule h (verify (H := H) worker plan current p l expected)
    (returning (λ sum h', has_readback H l expected sum h')).
Proof.
  unfold verify. eapply runs_conseq.
  - apply (runs_sees _ _ _ _ _ (verifyFile_sees _ _ _ _ _ plan current p l expected _)).
    intros h' e He. eapply free_rule, verifying_free, He.
  - intros [sum| | |] h' _ (t & -> & _ & Hr); cbn in *; [|done..]. by apply has_readback_prefix.
Qed.

(** * Quiet steps *)
Lemma quiet_stat (p : Provider W) l : emits (quiet plan) (stat p l).
Proof. by apply emits_Stat. Qed.
Lemma quiet_sync handle : emits (quiet plan) (sync (W := W) (Part plan) handle).
Proof. unfold sync. by effects. Qed.
Lemma quiet_close_write handle : emits (quiet plan) (close_write (W := W) (Part plan) handle).
Proof. unfold close_write. by effects. Qed.
Lemma quiet_free {A} (m : M W A) : emits (quiet plan) m → emits (free plan) m.
Proof. intros Hm. eapply emits_weaken; [done|]. by intros e []. Qed.

(** * The stream *)
Lemma stands_streaming_intro h cp :
  belongs plan cp → cp_Final cp = Final plan → cp_Phase cp = PhaseStreaming →
  streaming H plan h cp → stands h cp.
Proof.
  intros Hb Hf Hp Hs. constructor; try done; try by left.
  all: unfold phase_in; rewrite Hp; try done.
Qed.

(** Between two epochs: [content] is read, hashed and acknowledged. *)
Record flowing (h : list event) (s : stream_state (W := W) (H := H)) (content : list byte) : Prop := {
  fl_live : live plan h content;
  fl_belongs : belongs plan (st_current s);
  fl_final : cp_Final (st_current s) = Final plan;
  fl_phase : cp_Phase (st_current s) = PhaseStreaming;
  fl_offset : Offset (st_current s) = blen content;
  fl_state : ChecksumState (st_current s) = h_marshal (h_write (h_new (H := H)) content);
  fl_location : ss_location (st_reader s) = source;
  fl_reports : reports (st_reader s);
  fl_digest : ss_digest (st_reader s) = Some (h_write h_new content);
}.
Lemma flowing_streaming h s content : flowing h s content → streaming H plan h (st_current s).
Proof. intros []. exists content. split_and!; [by apply live_sourced|done|done]. Qed.
Lemma flowing_stands h s content : flowing h s content → stands h (st_current s).
Proof. intros Hf. apply stands_streaming_intro; try apply Hf. by eapply flowing_streaming. Qed.

(** A quiet step while the stream flows. *)
Lemma quiet_seq {A B} h content (m : M W A) (f : A → M W B) U :
  emits (quiet plan) m → live plan h content →
  (∀ a h', h `prefix_of` h' → live plan h' content → runs rule h' (f a) (returning U)) →
  runs rule h (m ≫= f) (returning U).
Proof. intros Hm Hl Hf. by eapply runs_quiet_seq. Qed.

(** A streaming checkpoint with other evidence of completion, or another
    fingerprint of the part. *)
Lemma stands_recordDurable h cp :
  cp_Phase cp = PhaseStreaming → stands h cp → stands h (recordDurable cp).
Proof.
  intros Hp Hs. pose proof (stands_streaming _ _ _ _ Hs Hp) as (c & Hc & Ho & Hst).
  apply stands_streaming_intro; [by apply belongs_recordDurable, Hs|..].
  - rewrite (recordDurable_same cp_Final) by done. destruct (stands_final _ _ _ _ Hs) as [|[Hin _]]; [done|].
    unfold phase_in in Hin. by rewrite Hp in Hin.
  - by rewrite (recordDurable_same cp_Phase).
  - exists c. by rewrite (recordDurable_same Offset), (recordDurable_same ChecksumState).
Qed.

(** Closing a part keeps the offset. *)
Lemma runs_closeAndRefresh h destination handle s content :
  flowing h s content →
  runs rule h (closeAndRefreshCheckpoint worker destination handle (st_current s))
    (returning (λ _ _, True)).
Proof.
  intros Hf. unfold closeAndRefreshCheckpoint. rewrite (belongs_part _ _ (fl_belongs _ _ _ Hf)).
  apply runs_free_seq; [apply quiet_free, quiet_sync|]. intros _ h1 Hp1.
  apply runs_free_seq; [apply quiet_free, quiet_close_write|]. intros _ h2 Hp2.
  apply runs_free_seq; [apply quiet_free, quiet_stat|]. intros entry h3 Hp3.
  case_match; [by apply runs_throw|].
  eapply runs_seq; [|intros; by apply runs_ret].
  apply runs_wrapping. eapply runs_conseq; [apply runs_save|by intros []].
  apply stands_recordDurable; [apply Hf|].
  apply stands_streaming_intro; try apply Hf; [destruct Hf as [_ Hb]; keeps|].
  apply (streaming_mono _ h); [by do 2 (etrans; [done|])|]. by apply flowing_streaming in Hf.
Qed.

Lemma file_size_some : ∃ size, fp_Size (ref_Fingerprint (Source plan)) = Some size ∧ 0 ≤ size < 2 ^ 64.
Proof. apply Hplan. Qed.

(** The next checkpoint is that of the content with the epoch's bytes. *)
Lemma runs_checkpoint_epoch h (destination : Provider W) (handle : WriteHandle W)
    (s : stream_state (W := W) (H := H)) content n :
  live plan h content → belongs plan (st_current s) → cp_Final (st_current s) = Final plan →
  cp_Phase (st_current s) = PhaseStreaming → 0 ≤ n →
  u64 (Offset (st_current s) + n) = Offset (st_current s) + n →
  Offset (st_current s) + n = blen content → st_hasher s = h_write h_new content →
  runs rule h (checkpoint_epoch plan destination handle s n)
    (returning (λ cp h', live plan h' content ∧ belongs plan cp ∧ cp_Final cp = Final plan ∧
       cp_Phase cp = PhaseStreaming ∧ Offset cp = blen content ∧
       ChecksumState cp = h_marshal (h_write h_new content))).
Proof.
  intros Hl Hb Hf Hp Hn Hu Ho Hh. unfold checkpoint_epoch. rewrite Hu, Hh, Ho.
  assert (belongs plan ((st_current s) <| Offset := blen content |>)) as Hb'.
  { keeps. }
  eapply (runs_seq _ _ _ _ (λ cp h', live plan h' content ∧ belongs plan cp ∧
    cp_Final cp = Final plan ∧ cp_Phase cp = PhaseStreaming ∧ Offset cp = blen content)).
  2:{ intros cp h' _ (?&?&?&?&?). apply runs_ret. split_and!; try done. keeps. }
  destruct (checkpointSync plan); [|by apply runs_ret].
  eapply quiet_seq; [apply quiet_sync|done|]. intros _ h1 _ Hl1.
  eapply quiet_seq; [apply quiet_stat|done|]. intros entry h2 _ Hl2.
  case_match; [by apply runs_throw|]. apply runs_ret. split; [done|].
  rewrite (recordDurable_same cp_Final), (recordDurable_same cp_Phase), (recordDurable_same Offset) by done.
  split_and!; try done. apply belongs_recordDurable. keeps.
Qed.

Definition epoch_post (o : stream_state (W := W) (H := H) * epoch_end) (h : list event) : Prop :=
  match o.2 with EpochError _ => True | _ => ∃ content, flowing h o.1 content end.
Lemma runs_or_stop {A} h s (m : M W A) k V :
  runs rule h m (returning V) →
  (∀ a h', h `prefix_of` h' → V a h' → runs rule h' (k a) (returning epoch_post)) →
  runs rule h (or_stop s m k) (returning epoch_post).
Proof.
  intros Hm Hk. unfold or_stop. eapply runs_attempt_seq; [done| |done].
  intros. by apply runs_ret.
Qed.

Lemma runs_moving {A} h content (m : M W A) V :
  live plan h content → sees (moving plan) m (returning V) →
  runs rule h m (returning (λ a h', ∃ t, Forall (moving plan) t ∧ V a t ∧
    live plan h' (content ++ read_bytes t))).
Proof.
  intros Hl Hm. eapply runs_conseq.
  - apply (runs_sees _ _ _ _ _ Hm). intros h' e He. by apply free_rule, moving_free.
  - intros [a| | |] h' _ (t & -> & Ht & HV); cbn in *; [|done..]. exists t. split_and!; try done.
    rewrite <-(bytes_of_moving plan) by done. by apply live_app.
Qed.

Lemma epoch_chunk_bounds current chunk :
  epoch_chunk plan current = Some chunk → 0 ≤ Offset current →
  ∃ size, Offset current + chunk ≤ size < 2 ^ 64 ∧ 0 ≤ chunk.
Proof.
  intros He Ho. destruct file_size_some as (size & Hs & Hr). unfold epoch_chunk in He. rewrite Hs in He.
  destruct (Z.geb_spec (Offset current) size) as [|Hlt]; [done|]. injection He as <-.
  exists size. unfold u64. rewrite Z.mod_small by lia.
  assert (0 ≤ if negb (CheckpointBytes (plan_StreamPolicy plan) =? 0)
              then CheckpointBytes (plan_StreamPolicy plan) else BufferBytes plan); [|lia].
  destruct (Z.eqb_spec (CheckpointBytes (plan_StreamPolicy plan)) 0) as [|Hne]; cbn; [apply Hplan|].
  pose proof (valid_stream_policy _ (plan_valid _ Hplan)) as Hp.
  unfold StreamPolicy_valid in Hp. case_bool_decide as Hz; [by rewrite Hz in Hne|]. lia.
Qed.

Lemma on_read_reports (r : sourceStream (W := W) (H := H)) base current :
  reports (on_read r (report_stream worker base current)).
Proof. intros f n [= <-]. apply reportProgress_emits. Qed.

Lemma control_quiet checkpoint call : emits (quiet plan) (control_event (W := W) checkpoint call).
Proof. by apply emits_control_event. Qed.
Lemma requested_quiet (s : stream_state (W := W) (H := H)) : emits (quiet plan) (requested worker s).
Proof. unfold requested. by destruct (w_control worker); effects. Qed.
Lemma observed_quiet (s : stream_state (W := W) (H := H)) :
  emits (quiet plan) (observed worker plan s).
Proof. unfold observed. by destruct (w_control worker); effects. Qed.

Lemma blen_zero (bs : list byte) : blen bs = 0 → bs = [].
Proof. destruct bs; [done|]. unfold blen. cbn. lia. Qed.
Lemma live_save h cp content : live plan h content → live plan (h ++ [EvSave cp None]) content.
Proof. intros Hl. apply (live_app _ _ [EvSave cp None]) in Hl. by rewrite app_nil_r in Hl. Qed.

(** The count an epoch acknowledges is that of its bytes. *)
Lemma tracked_acknowledged (r0 : sourceStream (W := W) (H := H)) f chunk limited t n size offset :
  tracked plan (on_read r0 f) chunk limited t → 0 ≤ offset → offset + chunk ≤ size < 2 ^ 64 →
  n = u64 (ss_readBytes (cr_reader limited) - ss_readBytes r0) → n = blen (read_bytes t).
Proof.
  intros [_ _ _ Hc [Hl Hl']] Ho Hs ->. cbn in Hc. unfold u64 in *.
  rewrite <-Zminus_mod_idemp_l, Hc, Zminus_mod_idemp_l, Z.add_simpl_l.
  apply Z.mod_small. pose proof (blen_nonneg (read_bytes t)). lia.
Qed.

Lemma runs_settle_epoch h0 h (destination : Provider W) (handle : WriteHandle W) s0 f limited n err
    content chunk size deadline t :
  flowing h0 s0 content → (err = None → tracked plan (on_read (st_reader s0) f) chunk limited t) →
  live plan h (content ++ read_bytes t) → Offset (st_current s0) + chunk ≤ size < 2 ^ 64 →
  runs rule h (settle_epoch worker plan destination handle
      (mkStream (st_current s0) (cr_reader limited)) (ss_readBytes (st_reader s0)) chunk deadline n err)
    (returning epoch_post).
Proof.
  intros Hf Ht Hl Hs. unfold settle_epoch.
  eapply quiet_seq; [apply observed_quiet|done|]. intros action h1 _ Hl1.
  destruct (negb (bool_decide (action = ControlContinue))); [by apply runs_ret|].
  destruct err as [err|]; [by apply runs_ret|]. specialize (Ht eq_refl).
  destruct (Z.ltb_spec n 0); [by apply runs_ret|].
  destruct (n >? chunk); [by apply runs_ret|].
  destruct (Z.eqb_spec n (u64 (ss_readBytes (st_reader (mkStream (st_current s0) (cr_reader limited)))
              - ss_readBytes (st_reader s0)))) as [Hn|]; [|by apply runs_ret].
  cbn [st_reader] in Hn. cbn [negb orb].
  pose proof (fl_offset _ _ _ Hf) as Ho. pose proof (blen_nonneg content) as Hpos.
  apply (tracked_acknowledged _ _ _ _ _ _ size (Offset (st_current s0)) Ht) in Hn; [|lia|done].
  destruct Ht as [Hloc Hrep Hdig _ [Hleft Hleft']].
  assert (ss_digest (cr_reader limited) = Some (h_write h_new (content ++ read_bytes t))) as Hdigest.
  { rewrite Hdig. cbn. rewrite (fl_digest _ _ _ Hf). cbn. by rewrite h_write_app. }
  destruct (Z.eqb_spec n 0) as [->|Hn0].
  { assert (read_bytes t = []) as Hnil by (by apply blen_zero). rewrite Hnil, app_nil_r in *.
    apply runs_ret. exists content. constructor; try apply Hf; done. }
  eapply runs_or_stop.
  { apply (runs_checkpoint_epoch h1 destination handle _ (content ++ read_bytes t) n);
      try apply Hf; cbn [st_current]; [done|done| | |].
    - unfold u64. rewrite Z.mod_small; lia.
    - rewrite blen_app. lia.
    - unfold st_hasher. cbn. by rewrite Hdigest. }
  intros cp h2 _ (Hl2 & Hb & Hfin & Hp & Hoff & Hst). cbn zeta.
  assert (flowing h2 (mkStream cp (cr_reader limited)) (content ++ read_bytes t)) as Hf2 by done.
  eapply runs_or_stop; [apply runs_save; by apply (flowing_stands _ _ _ Hf2)|].
  intros [] h3 _ ->. eapply quiet_seq; [|by apply live_save|].
  { destruct (n <? chunk); [|apply emits_ret]. destruct deadline; [|apply emits_ret].
    by effects. }
  intros early h4 _ Hl4. apply runs_ret. destruct early; by exists (content ++ read_bytes t).
Qed.

Lemma runs_epoch h destination handle base s content :
  handle_stops handle → flowing h s content →
  runs rule h (epoch worker plan destination handle base s) (returning epoch_post).
Proof.
  intros Hh Hf. unfold epoch.
  eapply quiet_seq; [apply requested_quiet|apply Hf|]. intros action h1 _ Hl1.
  assert (flowing h1 s content) as Hf1 by (destruct Hf; constructor; done).
  destruct (negb (bool_decide (action = ControlContinue))).
  { eapply runs_or_stop; [by eapply runs_closeAndRefresh|]. intros. by apply runs_ret. }
  eapply quiet_seq; [|exact Hl1|].
  { destruct (negb _); [|apply emits_ret]. by effects. }
  intros deadline h2 _ Hl2.
  assert (flowing h2 s content) as Hf2 by (destruct Hf; constructor; done).
  destruct (epoch_chunk plan (st_current s)) as [chunk|] eqn:Ec.
  2:{ apply runs_ret. by exists content. }
  destruct (epoch_chunk_bounds _ _ Ec) as (size & Hs & Hc).
  { rewrite (fl_offset _ _ _ Hf). apply blen_nonneg. }
  eapply runs_seq.
  { eapply runs_moving; [exact Hl2|]. apply transfer_epoch_sees; [apply Hworker|done|].
    by apply tracked_start; [apply Hf|apply on_read_reports|]. }
  intros [limited [n err]] h3 _ (t & Ht & Ha & Hl3).
  by eapply (runs_settle_epoch h2); [exact Hf2|exact Ha| |exact Hs].
Qed.

Definition stream_post (o : stream_state (W := W) (H := H) * option error) (h : list event) : Prop :=
  o.2 = None → ∃ content, flowing h o.1 content.

Lemma runs_epochs h destination handle base turns s content :
  handle_stops handle → flowing h s content →
  runs rule h (epochs worker plan destination handle base turns s) (returning stream_post).
Proof.
  intros Hh. revert h s content.
  induction turns as [|turns IH]; intros h s content Hf; [by apply runs_running|].
  cbn [epochs]. eapply runs_seq; [by eapply runs_epoch|].
  intros [s' [| |err]] h' _ Hpost; [|by apply runs_ret; intros _|by apply runs_ret].
  destruct Hpost as [content' Hf']. by eapply IH.
Qed.

Lemma flowing_live h h' s content : flowing h s content → live plan h' content → flowing h' s content.
Proof. intros [] Hl. by constructor. Qed.
Lemma flowing_durable h s content :
  flowing h s content → flowing h (mkStream (recordDurable (st_current s)) (st_reader s)) content.
Proof.
  intros []. constructor; cbn; try done; [by apply belongs_recordDurable|..].
  all: by rewrite ?(recordDurable_same cp_Final), ?(recordDurable_same cp_Phase),
    ?(recordDurable_same Offset), ?(recordDurable_same ChecksumState).
Qed.

Lemma runs_finish_stream h handle s content :
  flowing h s content →
  runs rule h (finish_stream worker plan handle s) (returning stream_post).
Proof.
  intros Hf. unfold finish_stream.
  eapply (runs_attempt_seq _ _ _ _ (λ cp h', flowing h' (mkStream cp (st_reader s)) content)).
  { case_match; [|by apply runs_ret; destruct s].
    eapply quiet_seq; [apply quiet_sync|apply Hf|]. intros _ h1 _ Hl1.
    apply (flowing_live _ h1), flowing_durable in Hf; [|done].
    apply runs_save_seq; [apply (flowing_stands _ _ _ Hf)|]. apply runs_ret.
    eapply flowing_live; [done|]. by apply live_save. }
  { intros e h' _. by apply runs_ret. }
  intros cp h1 _ Hf1. eapply (runs_attempt_seq _ _ _ _ (λ _ h', live plan h' content)).
  { destruct (fp_Size _); [|by apply runs_ret; apply Hf1].
    eapply quiet_seq; [apply emits_lift|apply Hf1|]. intros p h2 _ Hl2.
    eapply quiet_seq; [apply quiet_stat|done|]. intros entry h3 _ Hl3.
    case_match; [by apply runs_throw|by apply runs_ret]. }
  { intros e h' _. by apply runs_ret. }
  intros u h2 _ Hl2. apply runs_ret. intros _. exists content. by eapply flowing_live.
Qed.

Lemma copy_reader_silent handle hasher : silent (copy_reader (W := W) (H := H) worker plan handle hasher).
Proof.
  intros w. unfold copy_reader, streamReadOptions, quantum_bytes.
  destruct (w_scheduler worker) as [s|]; [|done]. by destruct (AllowsReadAhead s).
Qed.

Lemma runs_copyStream h source_handle handle destination current content :
  handle_stops handle → live plan h content → stands h current →
  cp_Phase current = PhaseStreaming → Offset current = blen content →
  ChecksumState current = h_marshal (h_write (h_new (H := H)) content) →
  runs rule h (copyStream worker plan source_handle handle destination current (h_write h_new content))
    (returning stream_post).
Proof.
  intros Hh Hl Hs Hp Ho Hst. unfold copyStream.
  eapply (runs_seq _ _ _ _ (λ r h', h' = h ∧ ss_location r = source ∧ reports r ∧
    ss_digest r = Some (h_write h_new content))).
  { intros w o t w' E. pose proof (copy_reader_silent source_handle (h_write h_new content) w) as Hsil.
    rewrite E in Hsil. cbn in Hsil. subst t. split; [done|]. rewrite app_nil_r.
    unfold copy_reader, streamReadOptions, quantum_bytes in E.
    destruct (w_scheduler worker) as [sch|]; [destruct (AllowsReadAhead sch)|];
      cbn in E; injection E as <- _; (split_and!; [done|done| |done]); by intros f n. }
  intros r h' _ (-> & Hloc & Hrep & Hdig).
  assert (flowing h (mkStream current r) content) as Hf.
  { constructor; try done; [apply Hs|]. cbn. destruct (stands_final _ _ _ _ Hs) as [|[Hin _]]; [done|].
    unfold phase_in in Hin. by rewrite Hp in Hin. }
  eapply runs_seq; [by eapply runs_epochs|]. intros [s [err|]] h1 _ Hpost; [by apply runs_ret|].
  destruct (Hpost eq_refl) as [content' Hf']. by eapply runs_finish_stream.
Qed.
End Facts.
