(* ===== verification/RecoveryFacts.v ===== *)
(** Recovery of a part that is longer than its checkpoint: it is cut back only to
    a prefix that has been read back and is the content streamed so far. *)
From S2P Require Import Prelude Domain GoPath Provider DirectProtocol Bandwidth Plan Checkpoint.
From S2P Require Import Effects Logic Mutation Stream Worker StreamFacts Evidence.
From S2P Require Import TransferFacts WorkerFacts.

Section Facts.
Context {W H : Type} `{HashLaws H} (worker : Worker W) (plan : Plan).
Context (Hplan : file_plan plan) (Hworker : surroundings worker).
Local Abbreviation source := (ref_Location (Source plan)).
Local Abbreviation rule := (rule H plan).
Local Abbreviation stands := (stands H plan).

(** Reading exactly, whatever the pieces. *)
Lemma read_exact_sees l r turns want got :
  plain l r → 0 ≤ want →
  sees (reading l) (read_exact worker plan r turns want got)
    (returning (λ '(r', got') t, plain (H := H) l r' ∧ got' = got ++ read_bytes t ∧
       blen (read_bytes t) = want)).
Proof.
  revert r want got. induction turns as [|turns IH]; intros r want got Hp Hw; cbn [read_exact].
  all: destruct (Z.leb_spec want 0) as [Hz|];
    [apply sees_ret; split_and!; [done|by rewrite app_nil_r|cbn; rewrite blen_nil; lia]|].
  { by apply sees_running. }
  eapply sees_seq; [by apply plain_Read|]. intros [r' [bytes err]] t _ (Hp' & Hr & Hle & Hne).
  destruct err as [err|].
  - destruct (is_EOF err && (want - blen bytes =? 0)) eqn:E; [|by apply sees_throw].
    apply sees_ret. cbn. rewrite app_nil_r, Hr. split_and!; [done..|lia].
  - case_bool_decide as Hb; [by apply sees_throw|].
    eapply sees_conseq; [apply (IH r' (want - blen bytes) (got ++ bytes)); [done|lia]|].
    intros [[r2 got2]| | |] t' _; cbn; [|done..]. intros (? & -> & Hlen).
    rewrite read_bytes_app, blen_app, Hr, app_assoc. split_and!; [done..|lia].
Qed.

Lemma read_prefix_sees l r buffer turns remaining prefix :
  plain l r → 0 ≤ buffer → 0 ≤ remaining →
  sees (reading l) (read_prefix worker plan r buffer turns remaining prefix)
    (returning (λ '(r', prefix') t, plain l r' ∧ prefix' = h_write prefix (read_bytes t) ∧
       blen (read_bytes t) = remaining)).
Proof.
  revert r remaining prefix. induction turns as [|turns IH]; intros r remaining prefix Hp Hb Hw.
  all: cbn [read_prefix]; destruct (Z.leb_spec remaining 0) as [Hz|];
    [apply sees_ret; split_and!; [done|by rewrite h_write_nil|cbn; rewrite blen_nil; lia]|].
  { by apply sees_running. }
  eapply sees_seq; [apply plain_Read; [done|lia]|].
  intros [r' [bytes err]] t _ (Hp' & Hr & Hle & Hne).
  assert (sees (reading l) (read_prefix worker plan r' buffer turns (remaining - blen bytes)
    (h_write prefix bytes)) (returning (λ '(r', prefix') t', plain l r' ∧
      prefix' = h_write prefix (read_bytes (t ++ t')) ∧ blen (read_bytes (t ++ t')) = remaining)))
    as Hnext.
  { eapply sees_conseq; [apply (IH r' (remaining - blen bytes) (h_write prefix bytes)); [done..|lia]|].
    intros [[r2 p2]| | |] t' _; cbn; [|done..]. intros (? & -> & Hlen).
    rewrite read_bytes_app, blen_app, Hr, h_write_app. split_and!; [done..|lia]. }
  repeat (case_match; try by apply sees_throw).
  all: eapply sees_conseq; [exact Hnext|]; by intros [[? ?]| | |] ? _.
Qed.

(** Comparing reads only the two files. *)
Lemma compare_suffix_free part original half turns remaining :
  plain (Part plan) part → plain source original → 0 ≤ half →
  sees (free plan) (compare_suffix worker plan part original half turns remaining)
    (returning (λ _ _, True)).
Proof.
  intros Hp Ho Hh. revert part original remaining Hp Ho.
  induction turns as [|turns IH]; intros part original remaining Hp Ho; cbn [compare_suffix].
  all: destruct (Z.leb_spec remaining 0) as [Hz|]; [by apply sees_ret|].
  { by apply sees_running. }
  assert (∀ l r count, plain l r → 0 ≤ count → sees (free plan) (readExactStream worker plan r count)
    (returning (λ '(r', _) _, plain (H := H) l r'))) as Hread.
  { intros l r count Hr Hc. eapply sees_conseq.
    - eapply (sees_weaken _ _ _ _ (read_exact_sees l r _ count [] Hr Hc)). by intros [].
    - intros [[r' got]| | |] t _; cbn; tauto. }
  eapply sees_seq; [apply Hread; [exact Hp|lia]|]. intros [part' got] t _ Hp'.
  eapply sees_seq; [apply Hread; [exact Ho|lia]|]. intros [original' want] t' _ Ho'.
  case_match; [by apply sees_throw|]. eapply sees_conseq; [by apply IH|]. by intros [].
Qed.

Lemma runs_reader {B} h (p : Provider W) l handle (f : sourceStream (W := W) (H := H) → M W B) U :
  (∀ r, plain l r → runs rule h (f r) (returning U)) →
  runs rule h (verificationReader (w_scheduler worker) plan p l handle None ≫= f) (returning U).
Proof.
  intros Hf. eapply (runs_seq _ _ _ _ (λ r h', plain l r ∧ h' = h)).
  - eapply runs_conseq.
    + apply (runs_sees _ _ _ _ _ (verificationReader_sees (w_scheduler worker) plan p l handle None ltac:(done))).
      intros h' e He. eapply free_rule. by destruct e.
    + intros [r| | |] h' _ (t & -> & _ & Hr); cbn in *; [|done..]. destruct Hr as [-> Hr].
      by rewrite app_nil_r.
  - intros r h' _ [Hr ->]. auto.
Qed.

(** * Rolling back *)

(** A checkpoint of the same content as [current]. *)
Definition same_content (current cp : Checkpoint) : Prop :=
  cp_Phase cp = PhaseStreaming ∧ Offset cp = Offset current ∧
  ChecksumState cp = ChecksumState current.

Lemma begins_with_mono h h' cp :
  h `prefix_of` h' → begins_with H plan h cp → begins_with H plan h' cp.
Proof.
  intros [t ->] (c & pre & request & info & body & rest & Hs & Ho & -> & Hr).
  exists c, pre, request, info, body, (rest ++ t). split; [by eapply sourced_mono; [apply prefix_app_r|]|].
  split; [done|]. split; [|done]. by rewrite <-!app_assoc, <-app_comm_cons, <-app_assoc.
Qed.

Definition restored (current : Checkpoint) (o : Entry * Checkpoint) (h : list event) : Prop :=
  stands h o.2 ∧ recorded h o.2 ∧ same_content current o.2.

Lemma runs_restore_prefix h destination mutable current entry cp0 :
  stands h current → cp_Phase current = PhaseStreaming →
  recorded h cp0 → cp_Phase cp0 = PhaseStreaming → Offset cp0 = Offset current →
  begins_with H plan h current →
  runs rule h (restore_prefix worker plan destination mutable current entry (Offset current))
    (returning (restored current)).
Proof.
  intros Hs Hp Hr Hp0 Ho Hb. unfold restore_prefix. apply runs_bind, runs_OpenWrite.
  2:{ intros e. split; [|done]. split; [done|]. exists cp0. split; [done|]. right. by eauto. }
  intros handle w w' _. split; [split; [done|]; exists cp0; split; [done|]; right; by eauto|].
  cbn [then_]. set (h1 := h ++ _). assert (h `prefix_of` h1) as Hp1 by by apply prefix_app_r.
  apply runs_defer. eapply runs_conseq with (Q := returning (restored current)).
  - destruct (Truncate handle) as [f|]; [|by apply runs_throw].
    apply runs_bind, runs_err_event. intros err. split.
    { split; [done|]. exists cp0. split; [by eapply recorded_mono|]. split_and!; [done..|].
      destruct (begins_with_mono _ _ _ Hp1 Hb) as (c & ? & ? & ? & ? & ? & ? & ? & ?).
      do 6 eexists. split; [done|]. split; [by rewrite Ho|done]. }
    cbn [then_]. set (h2 := h1 ++ _). assert (h `prefix_of` h2) as Hp2 by by apply prefix_app_r.
    apply runs_free_seq; [apply emits_or_return|]. intros _ h3 Hp3.
    apply runs_free_seq; [apply quiet_free, quiet_sync|]. intros _ h4 Hp4.
    apply runs_free_seq; [apply quiet_free, quiet_close_write|]. intros _ h5 Hp5.
    apply runs_free_seq; [apply quiet_free, quiet_stat|]. intros restored_entry h6 Hp6.
    case_match; [by apply runs_throw|].
    assert (stands h6 (recordDurable (current <| PartFingerprint := entry_Fingerprint restored_entry |>))).
    { assert (h `prefix_of` h6) as Hp' by (do 4 (etrans; [done|]); done).
      apply (stands_mono _ _ _ _ Hp') in Hs. apply stands_recordDurable; [done|].
      apply stands_streaming_intro; [pose proof (stands_belongs _ _ _ _ Hs); keeps| |done|].
      - destruct (stands_final _ _ _ _ Hs) as [|[Hin _]]; [done|].
        unfold phase_in in Hin. by rewrite Hp in Hin.
      - by apply (stands_streaming _ _ _ _ Hs). }
    apply runs_save_seq; [done|]. apply runs_ret. split; [by eapply stands_mono; [apply prefix_snoc|]|].
    split; [by apply recorded_save|]. unfold same_content. cbn [snd].
    by rewrite (recordDurable_same cp_Phase), (recordDurable_same Offset),
      (recordDurable_same ChecksumState).
  - intros [[en cp]|e| |] h' Hp' HQ; [|by apply runs_err_event..|done].
    apply runs_err_event. intros err. split; [done|]. cbn in *. destruct HQ as (?&?&?).
    split; [by eapply stands_mono; [apply prefix_snoc|]|].
    split; [by eapply recorded_mono; [apply prefix_snoc|]|done].
Qed.

(** * Comparing *)
Lemma runs_offset {B} h offset (f : Z → M W B) U :
  runs rule h (f offset) (returning U) →
  runs rule h (lift (checkedProviderOffset offset) ≫= f) (returning U).
Proof.
  intros Hf. apply runs_bind, runs_lift. unfold checkedProviderOffset. by destruct (offset >? MaxInt64).
Qed.
Lemma free_close_read l (handle : ReadHandle W) : emits (free plan) (close_read l handle).
Proof. unfold close_read. by effects. Qed.

(** A clean-up whose events are allowed. *)
Lemma runs_cleanup {A B} h (cleanup : M W B) (m : M W A) V :
  emits (free plan) cleanup → (∀ a h h', h `prefix_of` h' → V a h → V a h') →
  runs rule h m (returning V) → runs rule h (defer cleanup m) (returning V).
Proof.
  intros Hc Hmono Hm. apply runs_defer. eapply runs_conseq; [exact Hm|].
  intros o h' _ HQ. destruct o as [a|e| |]; [| | |done].
  all: eapply runs_conseq; [by apply runs_free|]; intros o h'' Hp _; try done.
  by eapply Hmono.
Qed.

Lemma runs_compare_opened {A} pre request part source_p destination current size content
    (restore : Z → M W A) V :
  read_Location request = Part plan → sourced plan pre content → Offset current = blen content →
  0 ≤ streamBufferBytes plan →
  (∀ a h h', h `prefix_of` h' → V a h → V a h') →
  let h := pre ++ [EvOpenRead request (Ok (Info part))] in
  (∀ h', h `prefix_of` h' → begins_with H plan h' current →
     runs rule h' (restore (Offset current)) (returning V)) →
  runs rule h (compare_opened worker plan source_p destination current size part
    (digest H content) restore) (returning V).
Proof.
  intros Hreq Hs Ho Hbuf Hmono h Hrestore. unfold compare_opened.
  pose proof (blen_nonneg content) as Hpos.
  apply runs_reader. intros r Hr.
  eapply (runs_seq _ _ _ _ (λ '(r', prefix) h', plain (Part plan) r' ∧ ∃ body, h' = h ++ body ∧
    Forall (reading (Part plan)) body ∧ prefix = h_write h_new (read_bytes body) ∧
    blen (read_bytes body) = Offset current)).
  { eapply runs_conseq.
    - eapply (runs_sees _ _ _ _ _ (read_prefix_sees _ r _ _ (Offset current) h_new Hr Hbuf ltac:(lia))).
      intros h' e He. eapply free_rule. by destruct e.
    - intros [[r' prefix]| | |] h' _ (t & -> & Ht & HQ); cbn in *; [|done..].
      destruct HQ as (Hr' & -> & Hlen). split; [done|]. by exists t. }
  intros [r' prefix] h1 Hp1 (Hr' & body & -> & Hbody & -> & Hlen).
  destruct (String.eqb_spec (h_sum (h_write h_new (read_bytes body))) (digest H content)) as [Hd|];
    [|by apply runs_throw]. cbn [negb].
  assert (begins_with H plan (h ++ body) current) as Hbegin.
  { exists content, pre, request, (Info part), body, []. unfold h.
    rewrite app_nil_r, <-app_assoc, <-Ho. split_and!; try done.
    eapply sourced_mono; [|done]. by apply prefix_app_r. }
  apply runs_offset, runs_bind, runs_lift. destruct (checkedProviderOffset _) as [limit|]; [|done].
  cbn [then_].
  apply runs_free_seq; [by apply emits_OpenRead|]. intros original h2 Hp2.
  apply runs_cleanup; [by apply emits_err_event|exact Hmono|].
  apply runs_reader. intros ro Hro.
  assert (0 ≤ streamBufferBytes plan `div` 2) as Hhalf by (by apply Z.div_pos).
  eapply (runs_seq _ _ _ _ (λ _ _, True)).
  { eapply runs_conseq.
    - eapply (runs_sees _ _ _ _ _ (compare_suffix_free r' ro _ _ _ Hr' Hro Hhalf)).
      apply free_rule.
    - by intros []. }
  intros _ h3 Hp3 _.
  apply runs_free_seq; [apply free_close_read|]. intros _ h4 Hp4.
  apply runs_free_seq; [apply free_close_read|]. intros _ h5 Hp5.
  apply runs_free_seq; [apply quiet_free, quiet_stat|]. intros entry h6 Hp6.
  case_match; [by apply runs_throw|]. 
  assert (h ++ body `prefix_of` h6) by (do 4 (etrans; [done|]); done).
  apply Hrestore; [by etrans|by eapply begins_with_mono].
Qed.

Lemma runs_controlledStream {A} h checkpoint (m : M W A) V :
  (∀ a h h', h `prefix_of` h' → V a h → V a h') →
  runs rule h m (returning V) →
  runs rule h (controlledStream (w_control worker) checkpoint m) (returning V).
Proof.
  intros Hmono Hm. unfold controlledStream. destruct (w_control worker) as [c|]; [|done].
  eapply runs_attempt_seq; [done|intros e h1 _|intros a h1 _ Ha].
  all: apply runs_free_seq; [apply quiet_free, control_quiet|]; intros [] h2 Hp2.
  all: try by apply runs_throw.
  apply runs_ret. by eapply Hmono.
Qed.

Lemma restored_mono current o h h' :
  h `prefix_of` h' → restored current o h → restored current o h'.
Proof.
  intros Hp (? & ? & ?). split; [by eapply stands_mono|]. split; [by eapply recorded_mono|done].
Qed.

(** The recovery of a suffix: the checkpoint it gives is of the same content. *)
Lemma runs_recoverStreamSuffix h source_p destination mutable current entry cp0 content :
  stands h current → cp_Phase current = PhaseStreaming →
  recorded h cp0 → cp_Phase cp0 = PhaseStreaming → Offset cp0 = Offset current →
  sourced plan h content → Offset current = blen content →
  runs rule h (recoverStreamSuffix (H := H) worker plan source_p destination mutable current entry
      (digest H content))
    (returning (restored current)).
Proof.
  intros Hs Hp Hr Hp0 Ho Hsrc Hoc. unfold recoverStreamSuffix.
  apply runs_controlledStream; [intros ???; apply restored_mono|].
  destruct (md_Size _) as [size|]; [|by apply runs_throw].
  case_match; [by apply runs_throw|]. case_match; [by apply runs_throw|].
  destruct (Z.ltb_spec (streamBufferBytes plan) 2); [by apply runs_throw|].
  apply runs_bind, runs_OpenRead; [|by intros].
  intros part. split; [done|]. cbn [then_].
  apply runs_cleanup; [by apply emits_err_event|intros ???; apply restored_mono|].
  apply runs_compare_opened; [done|done|done|lia|intros ???; apply restored_mono|].
  intros h' Hp' Hb. assert (h `prefix_of` h') by (etrans; [apply prefix_snoc|done]).
  eapply runs_restore_prefix; [by eapply stands_mono|done|by eapply recorded_mono|done..].
Qed.
End Facts.
