(* ===== verification/CommitFacts.v ===== *)
(** The commit obeys the rule: the intent is on record before the rename, what
    is renamed has been verified, and a completed transfer is published. *)
From S2P Require Import Prelude Domain GoPath Provider DirectProtocol Bandwidth Plan.
From S2P Require Import Checkpoint Effects Logic Mutation Stream Worker Commit StreamFacts.
From S2P Require Import Evidence TransferFacts WorkerFacts RecoveryFacts.

Section Facts.
Context {W H : Type} `{HashLaws H} (worker : Worker W) (plan : Plan).
Context (Hplan : file_plan plan) (Hworker : surroundings worker).
Local Abbreviation source := (ref_Location (Source plan)).
Local Abbreviation rule := (rule H plan).
Local Abbreviation stands := (stands H plan).

(** * Settled checkpoints: their digest is known, and the part has it *)
Definition final_name (final : Location) : Prop :=
  final = Final plan ∨ ConflictPolicy plan = ConflictAutoRename ∧ auto_final plan final.
Record settled (h : list event) (cp : Checkpoint) : Prop := {
  settled_belongs : belongs plan cp;
  settled_final : final_name (cp_Final cp);
  settled_origin : origin H plan h cp;
  settled_part : read_back_part H plan h cp;
}.
Lemma settled_mono h h' cp : h `prefix_of` h' → settled h cp → settled h' cp.
Proof. intros Hp []. constructor; eauto with evidence. Qed.
Lemma stands_settled h cp : stands h cp → phase_in after_verification cp = true → settled h cp.
Proof.
  intros Hs Hp. constructor; [apply Hs| |apply Hs|by apply Hs].
  - destruct (stands_final _ _ _ _ Hs) as [|(_ & ? & ?)]; [by left|by right].
  - revert Hp. unfold phase_in. cbn. intros ->. by rewrite orb_true_r.
Qed.
Lemma settled_verified h cp : settled h cp → settled h (recordContentVerified cp).
Proof.
  intros [Hb Hf Ho Hr]. constructor; [by apply belongs_verified|..].
  - by rewrite (recordContentVerified_same cp_Final).
  - unfold origin in *. by rewrite (recordContentVerified_same Offset),
      (recordContentVerified_same ChecksumHex).
  - unfold read_back_part in *. by rewrite (recordContentVerified_same PartFingerprint),
      (recordContentVerified_same ChecksumHex).
Qed.

(** The checkpoints a commit saves. *)
Lemma stands_waiting h cp outcome :
  settled h cp → ConflictPolicy plan ≠ ConflictAutoRename →
  stands h (cp <| cp_Phase := PhaseWaitingConflict |> <| cp_Outcome := outcome |>).
Proof.
  intros [Hb Hf Ho Hr] Ha. constructor; try done; [keeps|].
  destruct Hf as [|[? _]]; [by left|done].
Qed.
Lemma stands_verified h cp : settled h cp → cp_Final cp = Final plan →
  stands h (cp <| cp_Phase := PhaseVerified |>).
Proof. intros [Hb Hf Ho Hr] Hfin. constructor; try done; [keeps|by left]. Qed.
Lemma stands_committing h cp final :
  settled h cp → final_name final →
  stands h (cp <| cp_Phase := PhaseCommitting |> <| cp_Final := final |>).
Proof.
  intros [Hb Hf Ho Hr] Hn. constructor; try done; [keeps|]. destruct Hn; [by left|by right].
Qed.
Lemma stands_committed_intro h cp outcome final :
  settled h cp → final_name final →
  outcome = OutcomeSkipped ∨ outcome = OutcomeCompleted ∧ published H plan h (cp <| cp_Final := final |>) →
  stands h (cp <| cp_Phase := PhaseCommitted |> <| cp_Outcome := outcome |> <| cp_Final := final |>).
Proof.
  intros [Hb Hf Ho Hr] Hn Hout. constructor; try done; [keeps|]. destruct Hn; [by left|by right].
Qed.

(** * What a result is worth *)
Definition concluded (r : Result) (h : list event) : Prop :=
  Outcome r = OutcomeCompleted → ∃ cp, recorded h cp ∧ stands h cp ∧
    cp_Phase cp = PhaseCommitted ∧ cp_Outcome cp = OutcomeCompleted ∧
    result_Final r = cp_Final cp ∧ Bytes r = Offset cp ∧
    (Verification plan ≠ VerifyProtocol → result_SHA256 r = ChecksumHex cp).
Lemma concluded_mono r h h' : h `prefix_of` h' → concluded r h → concluded r h'.
Proof.
  intros Hp Hc Ho. destruct (Hc Ho) as (cp & ? & ? & ?). exists cp.
  split; [by eapply recorded_mono|]. split; [by eapply stands_mono|done].
Qed.

Lemma runs_wait_conflict h cp f :
  settled h cp → ConflictPolicy plan ≠ ConflictAutoRename →
  (∀ r, Outcome (f r) = Outcome r) →
  runs rule h (wait_conflict worker plan cp f) (returning concluded).
Proof.
  intros Hs Ha Hf. unfold wait_conflict. apply runs_save_seq; [by apply stands_waiting|].
  apply runs_ret. intros Ho. by rewrite Hf in Ho.
Qed.

Lemma runs_committed h destination cp final look preserved :
  settled h cp → final_name final → published H plan h (cp <| cp_Final := final |>) →
  runs rule h (committed worker plan destination cp final look preserved) (returning concluded).
Proof.
  intros Hs Hn Hp. unfold committed.
  set (cp' := cp <| cp_Phase := PhaseCommitted |> <| cp_Outcome := OutcomeCompleted |> <| cp_Final := final |>).
  assert (stands h cp') as Hst by (apply stands_committed_intro; auto).
  apply runs_save_seq; [done|].
  apply runs_free_seq.
  { destruct look; [|apply emits_ret]. unfold part_retained. apply quiet_free.
    apply emits_bind; [apply emits_attempt, quiet_stat|intros; apply emits_ret]. }
  intros retained h' Hp'. apply runs_ret. intros _. exists cp'.
  split; [by eapply recorded_mono, recorded_save|].
  split; [by eapply stands_mono; [|done]; etrans; [apply prefix_snoc|]|].
  split_and!; try done; by destruct preserved.
Qed.

Lemma runs_proveCommitted h cp destination final checksum :
  runs rule h (proveCommitted (H := H) worker plan cp destination final checksum)
    (returning (λ '(b, cp') h', if b : bool
       then cp' = recordContentVerified cp ∧ has_readback H final Fingerprint_zero checksum h'
       else cp' = cp)).
Proof.
  unfold proveCommitted. eapply runs_attempt_seq; [apply runs_verify|..].
  - intros e h' _. case_match; [by apply runs_ret|by apply runs_throw].
  - intros sum h' _ Hr. destruct (String.eqb_spec sum checksum) as [->|]; by apply runs_ret.
Qed.

(** * Publication *)
Lemma sync_back_policy : plan_Version plan = 2 → ConflictPolicy plan ≠ ConflictAutoRename.
Proof. intros Hv. by rewrite (valid_overwrite _ (plan_valid _ Hplan) Hv). Qed.

Lemma published_readback h cp final :
  has_readback H final Fingerprint_zero (ChecksumHex cp) h →
  published H plan h (cp <| cp_Final := final |>).
Proof. by left. Qed.
Lemma published_verified h cp final :
  has_readback H final Fingerprint_zero (ChecksumHex cp) h →
  published H plan h ((recordContentVerified cp) <| cp_Final := final |>).
Proof. intros Hr. left. cbn. by rewrite (recordContentVerified_same ChecksumHex). Qed.

(** What the rename expects of the destination. *)
Definition expects (replaced : option Entry) : M W (option Fingerprint) :=
  match replaced with
  | None => mret None
  | Some entry =>
    if plan_Version plan =? 2
    then e ← deref (ExpectedDestination plan); mret (Some (pre_Fingerprint e))
    else mret (Some (entry_Fingerprint entry))
  end.
Lemma runs_expects {B} h replaced (f : option Fingerprint → M W B) U :
  (∀ fp, (replaced = None ↔ fp = None) →
     (∀ fp', fp = Some fp' → plan_Version plan = 2 →
        ∃ e, ExpectedDestination plan = Some e ∧ fp' = pre_Fingerprint e) →
     runs rule h (f fp) (returning U)) →
  runs rule h (expects replaced ≫= f) (returning U).
Proof.
  intros Hf. apply runs_bind. unfold expects. destruct replaced as [entry|].
  2:{ apply runs_ret. by apply Hf. }
  destruct (Z.eqb_spec (plan_Version plan) 2) as [Hv|Hv].
  - apply runs_bind, runs_deref. destruct (ExpectedDestination plan) as [e|]; [|done]. cbn [then_].
    apply runs_ret. cbn [then_]. apply Hf; [done|]. intros ? [= <-] _. by exists e.
  - apply runs_ret. cbn [then_]. by apply Hf.
Qed.

(** After the rename of the recorded intent. *)
Definition renamed (h : list event) (final : Location) : Prop :=
  ∃ request r, EvRename request (Ok r) ∈ h ∧ rename_Source request = Part plan ∧
    rename_Destination request = final.

Lemma runs_publish h destination mutable cp final finalEntry preserved :
  settled h cp → final_name final → original_kept plan h →
  runs rule h (publish (H := H) worker plan destination mutable cp (PartFingerprint cp) final
      finalEntry preserved) (returning concluded).
Proof.
  intros Hs Hn Hkept. unfold publish.
  set (cp' := cp <| cp_Phase := PhaseCommitting |> <| cp_Final := final |>).
  assert (stands h cp') as Hst by by apply stands_committing.
  apply runs_save_seq; [done|]. set (h1 := h ++ _).
  assert (settled h1 cp') as Hs1.
  { apply (settled_mono h); [by apply prefix_app_r|]. destruct Hs as [Hb _ ? ?].
    constructor; try done. keeps. }
  apply (runs_expects h1 (if String.eqb (ConflictPolicy plan) ConflictOverwrite then finalEntry else None)).
  intros fp Hnone Hfp. set (replaced := if String.eqb _ _ then finalEntry else None) in *.
  assert (∀ r, rule h1 (EvRename (mkRenameRequest (Part plan) final (bool_decide (is_Some replaced))
    (Some (PartFingerprint cp)) fp) r)) as Hrule.
  { intros r. exists h, cp'. split_and!; try done. cbn. case_bool_decide as Hrep.
    - split; [|destruct fp as [fp|]; [by exists fp; auto|]].
      + unfold replaced in Hrep. destruct (String.eqb_spec (ConflictPolicy plan) ConflictOverwrite);
          [done|by destruct Hrep].
      + destruct Hnone as [_ Hnone]. rewrite Hnone in Hrep by done. by destruct Hrep.
    - apply Hnone. destruct replaced; [|done]. by destruct Hrep. }
  eapply (runs_attempt_seq _ _ _ _ (λ _ h', renamed h' final)).
  { apply runs_Rename. intros r. split; [apply Hrule|]. destruct r as [r|e]; [|done]. cbn.
    eexists _, r. split; [apply elem_of_app; right; by left|done]. }
  - intros e h2 Hp2. assert (settled h2 cp') as Hs2 by by eapply settled_mono.
    case_match eqn:Hv.
    + apply runs_save_seq; [|by apply runs_ret].
      apply stands_waiting; [done|]. apply sync_back_policy. lia.
    + eapply runs_attempt_seq; [apply runs_proveCommitted|by intros; apply runs_throw|].
      intros [[] cp2] h3 Hp3 Hc; [|by apply runs_throw]. destruct Hc as [-> Hr].
      apply runs_committed; [by eapply settled_verified, settled_mono|done|].
      by apply published_verified.
  - intros r h2 Hp2 Hren. assert (settled h2 cp') as Hs2 by by eapply settled_mono.
    eapply (runs_seq _ _ _ _ (λ sum h', sum = ChecksumHex cp' → published H plan h' (cp' <| cp_Final := final |>))).
    { destruct (String.eqb_spec (Verification plan) VerifySHA256).
      - eapply runs_conseq; [apply runs_verify|]. intros [sum| | |] h3 _ Hr; cbn in *; [|done..].
        intros ->. by left.
      - apply runs_ret. intros _. by right. }
    intros sum h3 Hp3 Hpub. destruct (String.eqb_spec sum (ChecksumHex cp')) as [Heq|];
      [|by apply runs_throw].
    apply runs_committed; [by eapply settled_mono|done|by apply Hpub].
Qed.

Lemma runs_chooseAutoRename h p :
  runs rule h (chooseAutoRename (W := W) p (DestinationDirectory plan) (RequestedName plan))
    (returning (λ final _, auto_final plan final)).
Proof.
  unfold chooseAutoRename. generalize 1%N. generalize 1000%nat. intros tries. revert h.
  induction tries as [|tries IH]; intros h n; cbn [autoRename_loop]; [by apply runs_throw|].
  apply runs_free_seq.
  { unfold locationExists. apply quiet_free, emits_bind; [apply emits_attempt, quiet_stat|].
    by effects. }
  intros [] h' _; [apply IH|]. apply runs_ret. by exists n.
Qed.

Lemma free_stat_option (p : Provider W) l : emits (free plan) (stat_option p l).
Proof.
  unfold stat_option. apply emits_bind; [apply quiet_free, emits_attempt, quiet_stat|]. by effects.
Qed.

(** * The conflict policies *)
Lemma runs_resolve_conflict h destination mutable cp finalEntry preserved :
  settled h cp → original_kept plan h →
  runs rule h (resolve_conflict (H := H) worker plan destination mutable cp (PartFingerprint cp)
      finalEntry preserved) (returning concluded).
Proof.
  intros Hs Hkept. unfold resolve_conflict.
  destruct ((plan_Version plan =? 2) && _ && _) eqn:Hv.
  { apply runs_wait_conflict; [done| |done]. apply sync_back_policy. lia. }
  destruct finalEntry as [entry|]; [|by apply runs_publish; [|left|]].
  destruct (String.eqb_spec (ConflictPolicy plan) ConflictAsk) as [Ha|].
  { apply runs_wait_conflict; [done| |done]. by rewrite Ha. }
  destruct (String.eqb_spec (ConflictPolicy plan) ConflictSkip) as [Hk|].
  { apply runs_bind, runs_Remove. intros err. split; [by split_and!; eauto|].
    cbn [then_]. apply runs_free_seq; [apply emits_or_return|]. intros _ h1 Hp1.
    apply runs_save_seq; [|by apply runs_ret].
    apply stands_committed_intro; [|by left|by left].
    eapply settled_mono; [|done]. etrans; [apply prefix_snoc|done]. }
  destruct (String.eqb_spec (ConflictPolicy plan) ConflictAutoRename) as [Hr|].
  { eapply runs_seq; [apply runs_chooseAutoRename|]. intros final h1 Hp1 Hn.
    apply runs_publish; [by eapply settled_mono|by right|by eapply original_kept_mono]. }
  by apply runs_publish; [|left|].
Qed.

(** * Preserving the original *)
Definition worth (o : Result * option error) (h : list event) : Prop := o.2 = None → concluded o.1 h.

Lemma runs_with_preserved h preserved unknown (m : M W Result) :
  runs rule h m (returning concluded) →
  runs rule h (with_preserved plan preserved unknown m) (returning worth).
Proof.
  intros Hm. unfold with_preserved. eapply runs_attempt_seq; [done|..].
  - intros e h' _. by apply runs_ret.
  - intros r h' _ Hc. apply runs_ret. by intros _.
Qed.

Lemma runs_after_preserve h destination mutable cp r err :
  settled h cp → plan_Version plan = 2 →
  (err = None → BackupPresent r = true → original_kept plan h) →
  runs rule h (after_preserve (H := H) worker plan destination mutable cp (PartFingerprint cp) r err)
    (returning concluded).
Proof.
  intros Hs Hv%sync_back_policy Hkept. unfold after_preserve. destruct err as [err|].
  { case_match; [|by apply runs_throw]. apply runs_wait_conflict; [done..|].
    intros res. by case_match. }
  destruct (BackupPresent r); [|by apply runs_throw]. specialize (Hkept eq_refl eq_refl).
  apply runs_free_seq; [apply free_stat_option|]. intros [entry|] h1 Hp1.
  2:{ apply runs_resolve_conflict; [by eapply settled_mono|by eapply original_kept_mono]. }
  eapply runs_attempt_seq; [apply runs_proveCommitted|..].
  - intros e h2 Hp2. apply runs_wait_conflict; [|done..]. eapply settled_mono; [|done]. by etrans.
  - intros [[] cp2] h2 Hp2 Hc.
    + destruct Hc as [-> _].
      rewrite <-(recordContentVerified_same PartFingerprint cp) by done.
      apply runs_resolve_conflict; [apply settled_verified; eapply settled_mono; [|done]; by etrans|].
      eapply original_kept_mono; [|done]. by etrans.
    + apply runs_wait_conflict; [|done..]. eapply settled_mono; [|done]. by etrans.
Qed.

Lemma runs_check_original h destination cp expected finalEntry :
  settled h cp → plan_Version plan = 2 →
  runs rule h (check_original (H := H) worker plan destination cp expected finalEntry)
    (returning (λ r h', match r with Some r => concluded r h' | None => True end)).
Proof.
  intros Hs Hv%sync_back_policy. unfold check_original.
  apply runs_free_seq; [apply free_stat_option|]. intros [backup|] h1 Hp1; [by apply runs_ret|].
  assert (∀ h', h `prefix_of` h' → runs rule h' (r ← wait_conflict worker plan cp id; mret (Some r))
    (returning (λ r h', match r with Some r => concluded r h' | None => True end))) as Hwait.
  { intros h' Hp'. eapply runs_seq.
    - apply runs_wait_conflict; [by eapply settled_mono|done..].
    - intros r h'' _ Hc. by apply runs_ret. }
  case_match; [by apply Hwait|]. eapply runs_seq; [apply runs_verify|]. intros sum h2 Hp2 _.
  case_match; [|by apply runs_ret]. apply Hwait. by etrans.
Qed.

(** The provider has preserved the original, as it was asked to. *)
Definition preservation_confirmed (h : list event) (r : PreserveDestinationResult) : Prop :=
  ∃ request, EvPreserve request r None ∈ h ∧ preserves plan request.

Lemma runs_preserve_loop h f e size options endpoint turns resume :
  ExpectedDestination plan = Some e → fp_Size (pre_Fingerprint e) = Some size →
  plan_Version plan = 2 →
  runs rule h (preserve_loop worker plan f
     (mkPreserveRequest (Final plan) (PreservedDestination plan) (pre_Fingerprint e)
        (pre_ContentSHA256 e) (i64 size) (2 * 1024 * 1024 * 1024)) options endpoint turns resume)
    (returning (λ '(r, err) h', err = None → preservation_confirmed h' r)).
Proof.
  intros He Hz Hv. revert h resume. induction turns as [|turns IH]; intros h resume; cbn [preserve_loop].
  all: apply runs_bind, runs_Preserve; [intros n; cbn [then_]|
    intros r err; split; [by split; eauto|]; cbn [then_]; apply runs_ret; intros ->;
    eexists; split; [apply elem_of_app; right; by left|by split; eauto]].
  { by apply runs_running. }
  eapply (runs_seq _ _ _ _ (λ _ _, True)); [|intros; apply IH]. eapply runs_conseq.
  - apply (runs_sees _ _ _ _ _ (gate_if_sees (w_scheduler worker) (Part plan) plan endpoint (u32 n))).
    intros h' ev Hev. eapply free_rule. by destruct ev.
  - by intros [].
Qed.

Lemma runs_controlled_error h cp err :
  runs rule h (controlled_error worker cp err)
    (returning (λ err' h', h `prefix_of` h' ∧ (err' = None → err = None))).
Proof.
  unfold controlled_error. destruct (w_control worker) as [c|]; [|by apply runs_ret].
  apply runs_free_seq; [by effects|]. intros action h1 Hp1. apply runs_ret. by case_bool_decide.
Qed.

Lemma runs_preserve_destination h cp f e :
  ExpectedDestination plan = Some e → plan_Version plan = 2 →
  runs rule h (preserve_destination worker plan cp f e) (returning (λ '(r, err) h', err = None → preservation_confirmed h' r)).
Proof.
  intros He Hv. unfold preserve_destination. apply runs_bind, runs_deref.
  destruct (fp_Size (pre_Fingerprint e)) as [size|] eqn:Hz; [|done]. cbn [then_].
  apply runs_free_seq; [unfold quantum_bytes; by effects|]. intros max_request h1 _.
  eapply runs_seq; [by apply runs_preserve_loop|]. intros [r err] h2 _ Hc.
  eapply runs_seq; [apply runs_controlled_error|]. intros err' h3 _ [Hp3 He']. apply runs_ret.
  intros ->. destruct (Hc (He' eq_refl)) as (request & Hin & Hpres). exists request.
  destruct Hp3 as [k ->]. split; [apply elem_of_app; by left|done].
Qed.

Lemma runs_commit_original h destination mutable cp e finalEntry :
  settled h cp → ExpectedDestination plan = Some e → plan_Version plan = 2 →
  runs rule h (commit_original (H := H) worker plan destination mutable cp (PartFingerprint cp) e
      finalEntry) (returning worth).
Proof.
  intros Hs He Hv. unfold commit_original.
  eapply runs_attempt_seq; [by apply runs_check_original|intros err h1 _; by apply runs_ret|].
  intros [r|] h1 Hp1 Hr; [by apply runs_ret; intros _|].
  destruct (preserver_facet destination) as [f|]; [|by apply runs_ret].
  eapply runs_seq; [by apply runs_preserve_destination|]. intros [r err] h2 Hp2 Hc.
  apply runs_with_preserved, runs_after_preserve; [|done|].
  - eapply settled_mono; [|done]. by etrans.
  - intros -> Hb _ _ _ _. destruct (Hc eq_refl) as (request & ? & ?). by exists request, r.
Qed.

Lemma runs_commit_part h destination cp :
  runs rule h (commit_part (W := W) plan destination cp)
    (returning (λ fp _, fp = PartFingerprint cp)).
Proof.
  unfold commit_part. apply runs_free_seq.
  { case_match; [|apply emits_ret]. apply quiet_free, emits_bind; [apply quiet_stat|]. by effects. }
  intros fp h' _. case_bool_decide as Hf; [by apply runs_ret|by apply runs_throw].
Qed.

Lemma runs_commit_fresh h destination mutable cp :
  settled h cp →
  runs rule h (commit_fresh (H := H) worker plan destination mutable cp) (returning worth).
Proof.
  intros Hs. unfold commit_fresh.
  eapply (runs_attempt_seq _ _ _ _ (λ '(fp, _) _, fp = PartFingerprint cp)).
  { eapply runs_seq; [apply runs_commit_part|]. intros fp h1 _ ->.
    apply runs_free_seq; [apply free_stat_option|]. intros entry h2 _. by apply runs_ret. }
  { intros err h1 _. by apply runs_ret. }
  intros [fp finalEntry] h1 Hp1 ->. apply (settled_mono _ h1) in Hs; [|done].
  destruct (ExpectedDestination plan) as [e|] eqn:He.
  - destruct ((plan_Version plan =? 2) && _) eqn:Hv.
    + apply runs_commit_original; [done..|]. lia.
    + apply runs_with_preserved, runs_resolve_conflict; [done|]. intros Hv2 e' He' Hp'.
      rewrite He in He'. injection He' as <-. by rewrite Hv2, Hp' in Hv.
  - case_match; [by apply runs_panic|]. apply runs_with_preserved, runs_resolve_conflict; [done|].
    intros _ e He'. by rewrite He in He'.
Qed.

Lemma runs_commit h destination mutable cp :
  settled h cp → runs rule h (commit (H := H) worker plan destination mutable cp) (returning worth).
Proof.
  intros Hs. unfold commit. destruct (String.eqb_spec (cp_Phase cp) PhaseCommitting); [|by apply runs_commit_fresh].
  eapply runs_attempt_seq; [apply runs_proveCommitted|intros err h1 _; by apply runs_ret|].
  intros [[] cp'] h1 Hp1 Hc.
  - destruct Hc as [-> Hr]. apply runs_with_preserved.
    rewrite (recordContentVerified_same cp_Final) by done.
    apply runs_committed; [by eapply settled_verified, settled_mono|apply Hs|].
    by apply published_verified.
  - cbn in Hc. subst cp'. apply runs_commit_fresh. by eapply settled_mono.
Qed.
End Facts.
