(* ===== verification/ExecuteFacts.v ===== *)
(** A file's execution obeys the rule from its first call to its last, and a
    completed one is worth its evidence. *)
From S2P Require Import Prelude Domain GoPath Provider DirectProtocol Bandwidth Plan.
From S2P Require Import Checkpoint Effects Logic Mutation Stream Worker Commit Execute.
From S2P Require Import StreamFacts Evidence TransferFacts WorkerFacts.
From S2P Require Import RecoveryFacts CommitFacts.

Section Facts.
Context {W H : Type} `{HashLaws H} (worker : Worker W) (plan : Plan).
Context (Hplan : file_plan plan) (Hworker : surroundings worker).
Local Abbreviation source := (ref_Location (Source plan)).
Local Abbreviation rule := (rule H plan).
Local Abbreviation stands := (stands H plan).
Local Abbreviation settled := (settled (H := H) plan).
Local Abbreviation worth := (worth (H := H) plan).

Lemma worth_mono o h h' : h `prefix_of` h' → worth o h → worth o h'.
Proof. intros Hp Hw He. by eapply concluded_mono, Hw. Qed.
Lemma worth_error r err h : worth (r, Some err) h.
Proof. done. Qed.

Lemma stands_final_name h cp :
  stands h cp → phase_in [PhaseCommitting; PhaseCommitted] cp = false → cp_Final cp = Final plan.
Proof. intros Hs Hp. destruct (stands_final _ _ _ _ Hs) as [|[Hin _]]; [done|]. by rewrite Hp in Hin. Qed.

Lemma runs_verify_part h destination mutable cp fp :
  belongs plan cp → cp_Final cp = Final plan → origin H plan h cp →
  runs rule h (verify_part (H := H) worker plan destination mutable cp fp) (returning worth).
Proof.
  intros Hb Hf Ho. unfold verify_part. eapply runs_seq; [apply runs_verify|]. intros sum h1 Hp1 Hr.
  destruct (String.eqb_spec sum (ChecksumHex cp)) as [->|]; [|by apply runs_throw]. cbn [negb].
  set (cp' := (recordContentVerified cp) <| cp_Phase := PhaseVerified |> <| PartFingerprint := fp |>).
  assert (settled h1 cp') as Hs. 
  { apply belongs_verified in Hb. constructor.
    - keeps.
    - left. unfold cp'. cbn. by rewrite (recordContentVerified_same cp_Final).
    - eapply origin_mono; [done|]. unfold origin, cp' in *. cbn.
      by rewrite (recordContentVerified_same Offset), (recordContentVerified_same ChecksumHex).
    - intros _. unfold cp'. cbn. by rewrite (recordContentVerified_same ChecksumHex). }
  apply runs_save_seq.
  - destruct Hs as [Hb' Hf' Ho' Hr']. constructor; try done. left.
    unfold cp'. cbn. by rewrite (recordContentVerified_same cp_Final).
  - apply runs_commit; [done..|]. by eapply settled_mono; [apply prefix_snoc|].
Qed.

Lemma runs_adopt_part h destination mutable cp size fp sum :
  belongs plan cp → cp_Final cp = Final plan → ce_DurableBytes (Completion cp) ≤ size →
  origin H plan h (cp <| Offset := size |> <| ChecksumHex := sum |>) →
  has_readback H (Part plan) fp sum h →
  runs rule h (adopt_part (H := H) worker plan destination mutable cp size fp sum) (returning worth).
Proof.
  intros Hb Hf Hd Ho Hr. unfold adopt_part.
  set (cp1 := cp <| Offset := size |> <| PartFingerprint := fp |> <| ChecksumHex := sum |>
                 <| cp_Phase := PhaseTransferred |>).
  set (cp2 := cp1 <| cp_Phase := PhaseVerified |>).
  assert (settled h cp2) as Hs by (constructor; [keeps|by left|done|by intros _]).
  apply runs_save_seq; [constructor; try done; [keeps|by left]|].
  assert (settled (h ++ [EvSave cp1 None]) cp2) as Hs1 by by eapply settled_mono; [apply prefix_snoc|].
  apply runs_save_seq; [destruct Hs1; by constructor; [|left|..]|].
  apply runs_commit; [done..|]. by eapply settled_mono; [apply prefix_snoc|].
Qed.

(** * Staged copies *)

(** The checkpoint of a run before its first write. *)
Record fresh (h : list event) (cp : Checkpoint) : Prop := {
  fresh_stands : stands h cp;
  fresh_phase : cp_Phase cp = PhasePrepared;
  fresh_recorded : ∃ cp0, recorded h cp0 ∧ cp_Phase cp0 = PhasePrepared;
}.
Lemma fresh_mono h h' cp : h `prefix_of` h' → fresh h cp → fresh h' cp.
Proof.
  intros Hp [Hs Hph (cp0 & ? & ?)]. constructor; [by eapply stands_mono|done|].
  exists cp0. split; [by eapply recorded_mono|done].
Qed.
Lemma fresh_final h cp : fresh h cp → cp_Final cp = Final plan.
Proof. intros [Hs Hp _]. apply (stands_final_name _ _ Hs). unfold phase_in. by rewrite Hp. Qed.
Lemma fresh_durable h cp size :
  fresh h cp → 0 ≤ size → ce_DurableBytes (Completion cp) ≤ size.
Proof.
  intros [Hs Hp _] Hz. pose proof (belongs_durable _ _ (stands_belongs _ _ _ _ Hs)).
  pose proof (stands_prepared _ _ _ _ Hs Hp). lia.
Qed.

Lemma runs_staged {A B} h cp retained (finish : Result * option error → B) (copy : M W A)
    (k : A → M W B) V U :
  (∀ h', h `prefix_of` h' → runs rule h' copy (returning V)) →
  (∀ r err h', U (finish (r, Some err)) h') →
  (∀ a h1 h', h `prefix_of` h1 → h1 `prefix_of` h' → V a h1 → runs rule h' (k a) (returning U)) →
  runs rule h (staged worker plan cp retained finish copy k) (returning U).
Proof.
  intros Hcopy Hstop Hk. unfold staged, controlled.
  assert (emits (free plan) (controlAction worker cp)) as Hc.
  { unfold controlAction. by destruct (w_control worker); effects. }
  apply runs_free_seq; [done|]. intros action h1 Hp1. case_match; [by apply runs_ret; cbn; auto|].
  eapply runs_seq; [by apply Hcopy|]. intros a h2 Hp2 HV.
  apply runs_free_seq; [unfold staged_action; by destruct (w_control worker); effects|].
  intros action2 h3 Hp3. case_match; [by apply runs_ret; cbn; auto|].
  apply runs_free_seq; [done|]. intros action3 h4 Hp4. case_match; [by apply runs_ret; cbn; auto|].
  by apply (Hk a h2 h4); [etrans|etrans|].
Qed.

Lemma runs_intent h cp (exists_ : bool) message :
  stands h cp → cp_Phase cp = PhasePrepared → (exists_ = true → fresh h cp) →
  runs rule h (if exists_ then mret tt else wrapping message (save worker cp))
    (returning (λ _ h', fresh h' cp)).
Proof.
  intros Hs Hp Hb. destruct exists_; [by apply runs_ret, Hb|].
  apply runs_wrapping. eapply runs_conseq; [by apply runs_save|].
  intros [[]| | |] h' Hp' Hh; cbn in *; try done. subst h'. constructor; [by eapply stands_mono|done|].
  exists cp. split; [apply recorded_save|done].
Qed.

Lemma runs_adopt_same_host h destination mutable cp binding entry :
  fresh h cp → Route plan = RouteHelperSameHost → SameHostCopy plan = Some binding →
  runs rule h (adopt_same_host (H := H) worker plan destination mutable cp binding entry)
    (returning worth).
Proof.
  intros Hf Hr Hb. unfold adopt_same_host. past.
  eapply runs_seq; [apply runs_verify|]. intros sum h1 Hp1 Hrb.
  destruct (String.eqb_spec sum (sh_SourceSHA256 binding)) as [->|]; [|by apply runs_throw]. cbn [negb].
  pose proof (valid_same_host _ (plan_valid _ Hplan) _ Hr Hb) as Hz.
  destruct (file_size_some _ Hplan) as (size & Hz' & Hs). rewrite Hz in Hz'. injection Hz' as Hz'.
  apply (fresh_mono _ h1) in Hf; [|done].
  apply runs_adopt_part; [apply Hf|by eapply fresh_final|eapply fresh_durable; [done|lia]| |done].
  right. right. split; [done|]. by exists binding.
Qed.

Lemma runs_executeSameHostCopy h destination mutable cp exists_ :
  stands h cp → cp_Phase cp = PhasePrepared → (exists_ = true → fresh h cp) →
  Route plan = RouteHelperSameHost →
  runs rule h (executeSameHostCopy (H := H) worker plan destination mutable cp exists_)
    (returning worth).
Proof.
  intros Hs Hp Hx Hr. unfold executeSameHostCopy.
  destruct (w_sameHost worker) as [registry|]; [|by apply runs_throw].
  destruct (SameHostCopy plan) as [binding|] eqn:Hb; [|by apply runs_throw].
  eapply runs_seq; [by apply runs_intent|]. intros u h1 Hp1 Hf. cbn beta in Hf.
  eapply (runs_attempt_seq _ _ _ _ (λ _ _, True)); [by apply runs_free, quiet_free, quiet_stat|..].
  2:{ intros entry h2 Hp2 _. destruct exists_; [|by apply runs_throw].
      apply runs_adopt_same_host; [by eapply fresh_mono|done..]. }
  intros e h2 Hp2. past.
  eapply (runs_staged _ _ _ _ _ _ (λ _ _, True)); [|done|].
  - intros h3 Hp3. apply runs_free_seq.
    { unfold resolve_backend. destruct (sh_resolve registry); [|apply emits_ret]. by effects. }
    intros backend h4 Hp4. eapply runs_conseq.
    + apply runs_attempt_ret. eapply (runs_StageCopy _ _ _ _ _ _ (returning (λ _ _, True))).
      intros r. split; [|by destruct r]. split_and!; [done..|].
      destruct (fresh_recorded _ _ Hf) as (cp0 & Hr0 & Hp0). exists cp0. split; [|done].
      eapply recorded_mono; [|done]. do 2 (etrans; [done|]). done.
    + by intros [].
  - intros stage h3 h4 Hp3 Hp4 _. apply runs_bind, runs_lift. destruct stage as [result|]; [|done].
    cbn [then_].
    past.
    apply runs_free_seq; [apply quiet_free, quiet_stat|]. intros entry h5 Hp5.
    apply runs_adopt_same_host; [|done..]. eapply fresh_mono; [|done]. do 3 (etrans; [done|]). done.
Qed.

(** The outcome of a server copy is a result, or nothing has been written. *)
Definition outcome_worth (o : option (Result * option error)) (h : list event) : Prop :=
  match o with Some r => worth r h | None => True end.
Lemma runs_ending h (m : M W (Result * option error)) :
  runs rule h m (returning worth) → runs rule h (ending m) (returning outcome_worth).
Proof. intros Hm. unfold ending. eapply runs_seq; [exact Hm|]. intros r h' _ Hr. by apply runs_ret. Qed.

Lemma runs_adopt_server_copy h source_p destination mutable cp binding entry :
  fresh h cp → Route plan = RouteSFTPServerCopy →
  runs rule h (adopt_server_copy (H := H) worker plan source_p destination mutable cp binding entry)
    (returning worth).
Proof.
  intros Hf Hr. unfold adopt_server_copy.
  destruct (md_Size _) as [size|] eqn:Hz; [|by apply runs_throw].
  case_match eqn:Hb; [by apply runs_throw|]. rewrite !orb_false_iff, !negb_false_iff in Hb.
  destruct Hb as [[_ Hb%bool_decide_eq_true] _].
  eapply runs_seq; [apply runs_verify|]. intros sum h1 Hp1 Hsrc. cbn beta in Hsrc.
  eapply runs_seq; [apply runs_verify|]. intros sum2 h2 Hp2 Hpart. cbn beta in Hpart.
  destruct (String.eqb_spec sum sum2) as [<-|]; [|by apply runs_throw]. cbn [negb].
  destruct (file_size_some _ Hplan) as (size' & Hz' & Hs). rewrite Hb in Hz'. injection Hz' as <-.
  assert (fresh h2 cp) as Hf2 by (eapply fresh_mono; [|exact Hf]; by etrans).
  apply runs_adopt_part; [apply Hf2|by eapply fresh_final|eapply fresh_durable; [done|lia]| |done].
  right. left. split; [done|]. by eapply readback_mono.
Qed.

Lemma runs_settle_server_copy h source_p destination mutable cp binding stage :
  fresh h cp → Route plan = RouteSFTPServerCopy →
  runs rule h (settle_server_copy (H := H) worker plan source_p destination mutable cp binding stage)
    (returning outcome_worth).
Proof.
  intros Hf Hr. unfold settle_server_copy. cbv zeta.
  past_guard Hinvalid.
  apply runs_free_seq; [by effects|]. intros _ h1 Hp1.
  eapply (runs_attempt_seq _ _ _ _ (λ _ _, True)); [by apply runs_free, quiet_free, quiet_stat|..].
  - intros e h2 Hp2. past.
    destruct stage; [by apply runs_throw|by apply runs_ret].
  - intros entry h2 Hp2 _. apply runs_ending, runs_adopt_server_copy; [|done].
    eapply fresh_mono; [|done]. by etrans.
Qed.

Lemma free_requireFrozenCapability (p : Provider W) l binding :
  emits (free plan) (requireFrozenCapability p l binding).
Proof. unfold requireFrozenCapability. by effects. Qed.

Lemma runs_executeServerCopy h source_p destination mutable cp exists_ :
  stands h cp → cp_Phase cp = PhasePrepared → (exists_ = true → fresh h cp) →
  Route plan = RouteSFTPServerCopy →
  runs rule h (executeServerCopy (H := H) worker plan source_p destination mutable cp exists_)
    (returning outcome_worth).
Proof.
  intros Hs Hp Hx Hr. unfold executeServerCopy.
  destruct (ServerCopy plan) as [binding|]; [|by apply runs_ret].
  destruct (server_copy_facet destination) as [f|]; [|by apply runs_ret].
  eapply (runs_attempt_seq _ _ _ _ (λ _ _, True)); [by apply runs_free, free_requireFrozenCapability|..].
  { intros e h1 Hp1. case_match; [by apply runs_throw|by apply runs_ret]. }
  intros u h1 Hp1 _. apply (stands_mono _ _ h1) in Hs; [|done].
  eapply runs_seq; [apply runs_intent; [done..|]; intros; by eapply fresh_mono, Hx|].
  intros u2 h2 Hp2 Hf. cbn beta in Hf.
  eapply (runs_attempt_seq _ _ _ _ (λ _ _, True)); [by apply runs_free, quiet_free, quiet_stat|..].
  2:{ intros entry h3 Hp3 _. destruct exists_; [|by apply runs_throw].
      apply runs_ending, runs_adopt_server_copy; [by eapply fresh_mono|done]. }
  intros e h3 Hp3. past.
  eapply (runs_staged _ _ _ _ _ _ (λ _ _, True)); [|done|].
  - intros h4 Hp4. eapply runs_conseq.
    + apply runs_attempt_ret. eapply (runs_ServerCopy _ _ _ _ _ _ _ (returning (λ _ _, True))).
      intros r. split; [|by destruct r]. split_and!; [done..|].
      destruct (fresh_recorded _ _ Hf) as (cp0 & Hr0 & Hp0). exists cp0. split; [|done].
      eapply recorded_mono; [|done]. by etrans.
    + by intros [].
  - intros stage h4 h5 Hp4 Hp5 _. apply runs_settle_server_copy; [|done].
    eapply fresh_mono; [|done]. do 2 (etrans; [done|]). done.
Qed.

(** * Opening the part *)

(** The part is open where the content of its checkpoint ends. *)
Definition opened (o : WriteHandle W * Checkpoint * H) (h : list event) : Prop :=
  let '(handle, cp, hasher) := o in
  handle_stops handle ∧ stands h cp ∧ cp_Phase cp = PhaseStreaming ∧
  ∃ content, sourced plan h content ∧ Offset cp = blen content ∧
    ChecksumState cp = h_marshal (h_write (h_new (H := H)) content) ∧ hasher = h_write h_new content.

Lemma runs_initializeCreatedPart h destination handle cp :
  stands h cp → cp_Phase cp = PhasePrepared →
  runs rule h (initializeCreatedPart worker plan destination handle cp (h_new (H := H)))
    (returning (λ cp' h', stands h' cp' ∧ cp_Phase cp' = PhaseStreaming ∧ Offset cp' = 0 ∧
       ChecksumState cp' = h_marshal (h_new (H := H)))).
Proof.
  intros Hs Hp. unfold initializeCreatedPart.
  pose proof (stands_prepared _ _ _ _ Hs Hp) as H0'.
  pose proof (stands_belongs _ _ _ _ Hs) as Hb. rewrite (belongs_part _ _ Hb).
  apply runs_free_seq; [destruct (checkpointSync plan); [apply quiet_free, quiet_sync|apply emits_ret]|].
  intros _ h1 Hp1. apply runs_free_seq; [apply quiet_free, quiet_stat|]. intros entry h2 Hp2.
  past.
  match goal with |- runs _ _ (save _ ?cp' ≫= _) _ => assert (stands h2 cp') as Hst end.
  { apply stands_streaming_intro; [keeps|apply (stands_final_name _ _ Hs); unfold phase_in; by rewrite Hp|done|].
    exists []. rewrite blen_nil, h_write_nil. split_and!; [constructor|done|done]. }
  apply runs_save_seq; [done|]. apply runs_ret. split_and!; try done.
  by eapply stands_mono; [apply prefix_snoc|].
Qed.

Definition writer_stops (mutable : MutableProvider W) : Prop :=
  ∀ request w handle w', OpenWrite mutable request w = (Ok handle, w') → handle_stops handle.
(** The checkpoint's phase and offset are on record. *)
Definition backed (h : list event) (cp : Checkpoint) : Prop :=
  ∃ cp0, recorded h cp0 ∧ cp_Phase cp0 = cp_Phase cp ∧ Offset cp0 = Offset cp.
Lemma backed_mono h h' cp : h `prefix_of` h' → backed h cp → backed h' cp.
Proof. intros Hp (cp0 & ? & ?). exists cp0. split; [by eapply recorded_mono|done]. Qed.
Lemma backed_fresh h cp : stands h cp → cp_Phase cp = PhasePrepared → backed h cp → fresh h cp.
Proof. intros Hs Hp (cp0 & Hr & Hph & _). constructor; [done..|]. exists cp0. by rewrite Hph. Qed.

Lemma runs_open_part h mutable offset disposition expected V :
  writer_stops mutable →
  opens_part plan h (mkOpenWriteRequest (Part plan) offset disposition expected) →
  (∀ handle h', h `prefix_of` h' → handle_stops handle → V handle h') →
  runs rule h (open_part plan mutable offset disposition expected) (returning V).
Proof.
  intros Hw Ho HV. unfold open_part. apply runs_OpenWrite; [|by intros].
  intros handle w w' E. split; [done|]. apply HV; [apply prefix_snoc|by eapply Hw].
Qed.

Lemma runs_create_part h destination mutable cp exists_ :
  writer_stops mutable → stands h cp → cp_Phase cp = PhasePrepared →
  (exists_ = true → fresh h cp) →
  runs rule h (create_part (H := H) worker plan destination mutable cp exists_) (returning opened).
Proof.
  intros Hw Hs Hp Hx. unfold create_part.
  eapply runs_seq; [by apply runs_intent|]. intros u h1 Hp1 Hf. cbn beta in Hf.
  eapply (runs_seq _ _ _ _ (λ handle h', handle_stops handle ∧ fresh h' cp)).
  { apply runs_open_part; [done| |].
    - destruct (fresh_recorded _ _ Hf) as (cp0 & ? & ?). split; [done|]. exists cp0. split; [done|].
      by left.
    - intros handle h' Hp' Hh. split; [done|]. by eapply fresh_mono. }
  intros handle h2 Hp2 [Hh Hf2].
  eapply runs_attempt_seq; [apply runs_initializeCreatedPart; [apply Hf2|done]|..].
  - intros e h3 Hp3. apply runs_free_seq; [by apply emits_err_event|]. intros err h4 _.
    by apply runs_throw.
  - intros cp' h3 Hp3 (Hs3 & Hph & Ho & Hst). apply runs_ret. split_and!; try done.
    exists []. rewrite h_write_nil, blen_nil. split_and!; try done. constructor.
Qed.

(** Resumption: either as recorded, or after the suffix has been dealt with. *)
Definition resumable (current cp : Checkpoint) (h : list event) : Prop :=
  stands h cp ∧ same_content current cp ∧ backed h cp.

Lemma runs_resume_part h source_p destination mutable cp :
  writer_stops mutable → stands h cp → cp_Phase cp = PhaseStreaming → backed h cp →
  runs rule h (resume_part (H := H) worker plan source_p destination mutable cp) (returning opened).
Proof.
  intros Hw Hs Hp Hb. unfold resume_part.
  pose proof (stands_streaming _ _ _ _ Hs Hp) as (content & Hsrc & Ho & Hst).
  apply runs_offset. rewrite Hst, h_unmarshal_marshal.
  apply runs_bind, runs_ret. cbn [then_].
  apply runs_free_seq; [apply quiet_free, quiet_stat|]. intros entry h1 Hp1.
  apply (stands_mono _ _ h1) in Hs; [|done]. apply (backed_mono _ h1) in Hb; [|done].
  apply (sourced_mono _ _ h1) in Hsrc; [|done].
  assert (resumable cp cp h1) as Hsame by done.
  eapply (runs_seq _ _ _ _ (λ o h', resumable cp o.2 h')).
  { destruct (md_Size _) as [size|]; [|by apply runs_ret].
    case_match; [|by apply runs_ret]. destruct Hb as (cp0 & Hr0 & Hp0 & Ho0).
    eapply runs_conseq; [eapply (runs_recoverStreamSuffix _ _ _ _ _ _ _ _ cp0 content); try done; by rewrite Hp0|].
    intros [[entry' cp']| | |] h2 _ HR; cbn in *; [|done..]. destruct HR as (? & ? & ?).
    split_and!; [done..|]. by exists cp'. }
  intros [entry' cp'] h2 Hp2 (Hs2 & Hc2 & Hb2). cbn [snd] in *.
  past.
  apply (sourced_mono _ _ h2) in Hsrc; [|done].
  eapply (runs_seq _ _ _ _ (λ cp2 h', resumable cp cp2 h')).
  { case_match; [|by apply runs_ret]. eapply runs_seq; [apply runs_verify|]. intros sum h3 Hp3 _.
    past.
    match goal with |- runs _ _ (wrapping _ (save _ ?c) ≫= _) _ => assert (stands h3 c) as Hs3 end.
    { apply (stands_mono _ _ h3) in Hs2; [|done]. destruct Hc2 as (Hph & ? & ?).
      apply stands_streaming_intro; [pose proof (stands_belongs _ _ _ _ Hs2); keeps| |done|].
      - apply (stands_final_name _ _ Hs2). unfold phase_in. by rewrite Hph.
      - by apply (stands_streaming _ _ _ _ Hs2). }
    eapply runs_seq; [by apply runs_wrapping, runs_save|]. intros u h4 Hp4 Hh4. apply runs_ret.
    cbn beta in Hh4. split_and!; [by eapply stands_mono|by destruct Hc2|].
    eapply backed_mono; [|exact Hb2]. by etrans. }
  intros cp2 h3 Hp3 (Hs3 & (Hph3 & Ho3 & Hst3) & Hb3).
  eapply (runs_seq _ _ _ _ (λ handle h', h3 `prefix_of` h' ∧ handle_stops handle)).
  { apply runs_open_part; [done| |done]. destruct Hb3 as (cp0 & Hr0 & Hp0 & Ho0).
    split; [done|]. exists cp0. split; [done|]. right. cbn. rewrite Ho0, Ho3, Hp0. by eauto. }
  intros handle h4 _ [Hp4 Hh]. apply runs_ret. split_and!; [done|by eapply stands_mono|done|].
  exists content. rewrite Ho3, Hst3. split_and!; try done. eapply sourced_mono; [|done]. by etrans.
Qed.

(** * The stream's end *)
Lemma runs_finish_part h destination mutable readHandle writeHandle
    (s : stream_state (W := W) (H := H)) content :
  flowing plan h s content →
  runs rule h (finish_part (H := H) worker plan destination mutable readHandle writeHandle
      (st_current s) (st_hasher s)) (returning worth).
Proof.
  intros Hf. unfold finish_part. past_guard Hsize.
  apply runs_free_seq; [apply quiet_free, quiet_close_write|]. intros _ h1 Hp1.
  apply runs_free_seq; [apply free_close_read|]. intros _ h2 Hp2.
  apply runs_free_seq; [apply quiet_free, quiet_stat|]. intros entry h3 Hp3.
  past_guard Hkind. past_guard Hversion.
  set (cp := (st_current s) <| PartFingerprint := entry_Fingerprint entry |>
                            <| ChecksumHex := h_sum (st_hasher s) |> <| cp_Phase := PhaseTransferred |>).
  assert (h `prefix_of` h3) as Hp by (do 2 (etrans; [done|]); done).
  assert (origin H plan h3 cp) as Ho.
  { left. exists content. split_and!; [eapply sourced_mono, live_sourced, Hf; done|apply Hf|].
    cbn. unfold st_hasher. by rewrite (fl_digest _ _ _ _ Hf). }
  assert (belongs plan cp) as Hb by (pose proof (fl_belongs _ _ _ _ Hf); keeps).
  assert (cp_Final cp = Final plan) as Hfin by apply Hf.
  apply runs_save_seq; [constructor; try done; by left|].
  apply (origin_mono _ _ (h3 ++ [EvSave cp None])) in Ho; [|apply prefix_snoc].
  destruct (String.eqb_spec (Verification plan) VerifyProtocol) as [Hv|].
  - apply runs_commit; [done..|]. constructor; try done; [by left|].
    intros Hsha. by rewrite Hv in Hsha.
  - by apply runs_verify_part.
Qed.

Lemma runs_stream_part h source_p destination mutable handle cp hasher :
  opened (handle, cp, hasher) h →
  runs rule h (stream_part (H := H) worker plan source_p destination mutable handle cp hasher)
    (returning worth).
Proof.
  intros (Hh & Hs & Hp & content & Hsrc & Ho & Hst & ->). unfold stream_part.
  apply runs_offset, runs_bind, runs_OpenRead; [|by intros]. intros readHandle. split; [done|].
  cbn [then_]. apply runs_cleanup; [by apply emits_err_event|intros ???; apply worth_mono|].
  rewrite Ho. set (h1 := h ++ _).
  eapply runs_seq.
  { apply (runs_copyStream worker plan Hplan Hworker h1 readHandle handle destination cp content);
      [done|by apply live_open|eapply stands_mono; [apply prefix_snoc|done]|done..]. }
  intros [s [err|]] h2 Hp2 Hpost.
  - case_match; [by apply runs_ret|by apply runs_throw].
  - destruct (Hpost eq_refl) as [content' Hf]. by eapply runs_finish_part.
Qed.

Lemma runs_stream_file h source_p destination mutable cp exists_ :
  writer_stops mutable → stands h cp →
  (exists_ = true → backed h cp) → (exists_ = false → cp_Phase cp = PhasePrepared) →
  runs rule h (stream_file (H := H) worker plan source_p destination mutable cp exists_)
    (returning worth).
Proof.
  intros Hw Hs Hb Hx. unfold stream_file. eapply (runs_seq _ _ _ _ opened).
  - destruct (negb exists_ || String.eqb (cp_Phase cp) PhasePrepared) eqn:Hc.
    + assert (cp_Phase cp = PhasePrepared) as Hp.
      { destruct exists_; [|auto]. by apply String.eqb_eq. }
      apply runs_create_part; [done..|]. intros He. apply backed_fresh; auto.
    + destruct exists_; [|done].
      destruct (String.eqb_spec (cp_Phase cp) PhaseStreaming); [|by apply runs_throw].
      apply runs_resume_part; auto.
  - intros [[handle cp'] hasher] h1 Hp1 Ho.
    apply runs_cleanup; [by apply emits_err_event|intros ???; apply worth_mono|].
    by apply runs_stream_part.
Qed.

(** * The phases and the routes *)
Lemma runs_resume_verified h destination mutable cp :
  settled h cp →
  runs rule h (resume_verified (H := H) worker plan destination mutable cp) (returning worth).
Proof.
  intros Hs. unfold resume_verified. eapply (runs_seq _ _ _ _ (λ cp' h', settled h' cp')).
  2:{ intros cp' h' _ Hs'. by apply runs_commit. }
  case_match; [|by apply runs_ret].
  eapply (runs_attempt_seq _ _ _ _ (λ _ _, True)); [by apply runs_free, quiet_free, quiet_stat|..].
  - intros e h1 Hp1. past. apply runs_ret. by eapply settled_mono.
  - intros entry h1 Hp1 _. eapply runs_seq; [apply runs_verify|]. intros sum h2 Hp2 Hr.
    destruct (String.eqb_spec sum (ChecksumHex cp)) as [->|]; [|by apply runs_throw].
    apply runs_ret. apply settled_verified.
    assert (settled h2 cp) as [Hb Hf Ho _] by (eapply settled_mono; [|exact Hs]; by etrans).
    constructor; [keeps|done|done|by intros _].
Qed.

Lemma runs_execute_phase h source_p destination mutable cp exists_ :
  writer_stops mutable → stands h cp →
  (exists_ = true → backed h cp) → (exists_ = false → cp_Phase cp = PhasePrepared) →
  cp_Phase cp ≠ PhaseCommitted →
  runs rule h (execute_phase (H := H) worker plan source_p destination mutable cp exists_)
    (returning worth).
Proof.
  intros Hw Hs Hb Hx Hnc. unfold execute_phase. case_match eqn:Hv.
  - apply runs_resume_verified, stands_settled; [done|]. unfold phase_in. cbn.
    destruct (String.eqb (cp_Phase cp) PhaseVerified), (String.eqb (cp_Phase cp) PhaseWaitingConflict),
      (String.eqb (cp_Phase cp) PhaseCommitting); done.
  - destruct (String.eqb_spec (cp_Phase cp) PhaseTransferred) as [Hp|]; [|by apply runs_stream_file].
    unfold resume_transferred. apply runs_free_seq; [apply quiet_free, quiet_stat|].
    intros entry h1 Hp1. apply runs_verify_part; [done..|apply Hs| |].
    + apply (stands_final_name _ _ Hs). unfold phase_in. by rewrite Hp.
    + eapply origin_mono; [done|]. apply Hs. unfold phase_in. by rewrite Hp.
Qed.

(** The safe downgrade of a server copy to the relay. *)
Lemma stands_downgraded h cp :
  stands h cp → cp_Phase cp = PhasePrepared → Route plan = RouteSFTPServerCopy →
  stands h (cp <| ActualRoute := RouteSFTPRelay |> <| DowngradedFrom := RouteSFTPServerCopy |>
               <| RouteReason := ReasonServerCopyFailedBeforeWrite |>).
Proof.
  intros Hs Hp Hr. constructor; unfold phase_in; cbn; try by apply Hs.
  all: rewrite ?Hp; try done.
  pose proof (stands_belongs _ _ _ _ Hs) as Hb. keeps.
  unfold validCheckpointRoute. cbn. by rewrite Hr.
Qed.

Lemma runs_execute_route h source_p destination mutable cp exists_ :
  writer_stops mutable → stands h cp →
  (exists_ = true → backed h cp) → (exists_ = false → cp_Phase cp = PhasePrepared) →
  cp_Phase cp ≠ PhaseCommitted →
  runs rule h (execute_route (H := H) worker plan source_p destination mutable cp exists_)
    (returning worth).
Proof.
  intros Hw Hs Hb Hx Hnc. unfold execute_route.
  destruct (String.eqb_spec (Route plan) RouteHelperSameHost) as [Hr|Hr]; cbn [andb].
  { destruct (String.eqb_spec (cp_Phase cp) PhasePrepared) as [Hp|];
      [|rewrite andb_false_r; by apply runs_execute_phase].
    apply runs_executeSameHostCopy; [done..| |done]. intros He. apply backed_fresh; auto. }
  destruct (String.eqb_spec (Route plan) RouteSFTPServerCopy) as [Hr2|]; cbn [andb];
    [|by apply runs_execute_phase].
  case_match eqn:Hc; [|by apply runs_execute_phase].
  apply andb_true_iff in Hc as [_ Hp%String.eqb_eq].
  eapply runs_seq.
  { apply runs_executeServerCopy; [done..| |done]. intros He. apply backed_fresh; auto. }
  intros [r|] h1 Hp1 Hw1; [by apply runs_ret|].
  apply (stands_mono _ _ h1) in Hs; [|done].
  match goal with |- runs _ _ (wrapping _ (save _ ?c) ≫= _) _ => assert (stands h1 c) as Hs2 end.
  { by apply stands_downgraded. }
  eapply runs_seq; [by apply runs_wrapping, runs_save|]. intros u h2 Hp2 Hh2. cbn beta in Hh2.
  apply runs_execute_phase; [done|by eapply stands_mono| |done|done].
  intros _. subst h2. eexists. split; [apply recorded_save|done].
Qed.

(** * A run *)
Lemma new_checkpoint_stands h : stands h (new_checkpoint plan).
Proof.
  constructor; try done; [|by left]. constructor; try done.
  - cbn. unfold newCompletionEvidence. by case_match.
  - unfold validCheckpointRoute. cbn. rewrite !String.eqb_refl.
    destruct (String.eqb_spec (Route plan) ""); [|done].
    by destruct (valid_route _ (plan_valid _ Hplan)).
Qed.

(** A checkpoint from before routes were recorded. *)
Lemma stands_routed h cp :
  stands h cp → ActualRoute cp = "" →
  stands h (cp <| ActualRoute := Route plan |> <| RouteReason := plannedRouteReason plan |>).
Proof.
  intros Hs He. constructor; try by apply Hs.
  pose proof (stands_belongs _ _ _ _ Hs) as Hb. pose proof (belongs_route _ _ Hb) as Hr.
  keeps. unfold validCheckpointRoute in *. rewrite He in Hr. cbn in *.
  apply andb_true_iff in Hr as [Hd _]. rewrite Hd, !String.eqb_refl.
  destruct (String.eqb_spec (Route plan) ""); [|done].
  by destruct (valid_route _ (plan_valid _ Hplan)).
Qed.

Lemma committed_concluded h cp :
  stands h cp → recorded h cp → cp_Phase cp = PhaseCommitted →
  concluded (H := H) plan (commit_result (cp_Outcome cp) (cp_Final cp) cp false) h.
Proof.
  intros Hs Hr Hp Ho. exists cp. split_and!; try done.
Qed.

Lemma runs_execute_loaded h source_p destination mutable checkpoint :
  writer_stops mutable →
  match checkpoint with Some cp => stands h cp ∧ recorded h cp | None => True end →
  runs rule h (execute_loaded (H := H) worker plan source_p destination mutable checkpoint)
    (returning worth).
Proof.
  intros Hw Hc. unfold execute_loaded. destruct checkpoint as [cp|].
  2:{ apply runs_execute_route; try done. apply new_checkpoint_stands. }
  destruct Hc as [Hs Hr]. past. past.
  destruct (String.eqb_spec (cp_Phase cp) PhaseCommitted) as [Hp|Hnc].
  { apply runs_ret. intros _. pose proof (committed_concluded _ _ Hs Hr Hp) as Hcon.
    by case_match. }
  apply runs_execute_route; [done| | |done|].
  - destruct (String.eqb_spec (ActualRoute cp) ""); [by apply stands_routed|done].
  - intros _. exists cp. split; [done|]. by case_match.
  - by case_match.
Qed.

(** * Histories *)
Local Abbreviation lawful := (lawful H plan).

Lemma runs_free_lawful {A B} h (m : M W A) (f : A → M W B) U :
  emits (free plan) m → (∀ a h', obeys lawful [] h' → runs lawful h' (f a) (returning U)) →
  obeys lawful [] h → runs lawful h (m ≫= f) (returning U).
Proof.
  intros Hm Hf Ho. eapply runs_seq.
  - apply (runs_obeys _ _ _ (λ _ _, True)); [done|]. eapply runs_conseq.
    + apply (runs_emits _ _ _ _ Hm). intros h' e He _. by apply free_rule.
    + by intros [].
  - intros a h' _ [_ Ho']. auto.
Qed.

(** What the journal loads stands. *)
Lemma loaded_stands h job cp :
  obeys lawful [] h → journalled (h ++ [EvLoad job (Ok (Some cp))]) →
  stands (h ++ [EvLoad job (Ok (Some cp))]) cp.
Proof.
  intros Ho Hj. destruct (Hj h job cp [] eq_refl) as [err Hin].
  apply list_elem_of_split in Hin as (h1 & h2 & ->).
  pose proof (obeys_split _ [] _ h1 _ h2 Ho eq_refl) as Hr. cbn in Hr.
  assert (h1 `prefix_of` (h1 ++ EvSave cp err :: h2) ++ [EvLoad job (Ok (Some cp))]) as Hp.
  { by do 2 apply prefix_app_r. }
  eapply stands_mono; [exact Hp|]. apply Hr. by eapply journalled_prefix.
Qed.

Lemma hidden_worth r h : worth r h → worth (hide_digest plan r) h.
Proof.
  intros Hw. unfold hide_digest. destruct (String.eqb_spec (Verification plan) VerifyProtocol); [|done].
  intros He Ho. destruct (Hw He Ho) as (cp & ? & ? & ? & ? & ? & ? & _). by exists cp.
Qed.

Lemma executeFile_lawful h :
  obeys lawful [] h →
  runs lawful h (executeFile (H := H) worker plan) (returning (λ r h', journalled h' → worth r h')).
Proof.
  intros Ho. unfold executeFile. revert h Ho. intros h.
  apply runs_free_lawful; [apply emits_lift|]. intros _ h1 Ho1.
  past.
  revert Ho1. apply runs_free_lawful; [apply emits_lift|]. intros source_p h2 Ho2.
  eapply (runs_seq _ _ _ _ (λ p h', w_Resolve worker (loc_EndpointID (Part plan)) = Ok p ∧ h' = h2)).
  { apply runs_lift. by destruct (w_Resolve worker (loc_EndpointID (Part plan))). }
  intros destination h' _ [Hres ->].
  destruct (mutable_facet destination) as [mutable|] eqn:Hm; [|by apply runs_throw].
  assert (writer_stops mutable) as Hw by (intros request w handle w'; by eapply pump_law).
  revert Ho2. apply runs_free_lawful; [apply free_requireFrozenCapability|]. intros _ h3.
  apply runs_free_lawful; [apply free_requireFrozenCapability|]. intros _ h4 Ho4.
  eapply (runs_seq _ _ _ _ (λ checkpoint h', journalled h' →
    match checkpoint with Some cp => stands h' cp ∧ recorded h' cp | None => True end)).
  { unfold wrapping. eapply (runs_attempt_seq _ _ _ _ (λ checkpoint h',
      h' = h4 ++ [EvLoad (plan_JobID plan) (Ok checkpoint)])).
    - apply runs_Load. intros [c|e]; (split; [by intros _|done]).
    - intros e h' _. by apply runs_throw.
    - intros [cp|] h' _ ->; apply runs_ret; [|done]. intros Hj. split; [by apply loaded_stands|].
      right. exists (plan_JobID plan). apply elem_of_app. right. by left. }
  intros checkpoint h5 _ Hc. eapply (runs_seq _ _ _ _ (λ r h', journalled h' → worth r h')).
  { eapply runs_conseq.
    - apply runs_journalled. intros Hj. apply runs_execute_loaded; [done|by apply Hc].
    - intros [r| | |] h' _ HQ; cbn in *; auto. }
  intros r h6 _ HQ. apply runs_ret. intros Hj. by apply hidden_worth, HQ.
Qed.
End Facts.

(** Everything that has happened to a job's file: runs one after the other, each
    on any world and cut short anywhere, as a crash does. *)
Inductive history {W H : Type} `{Hash H} (plan : Plan) : list event → Prop :=
| history_nil : history plan []
| history_run h worker w o t w' t' :
  history plan h → surroundings worker →
  executeFile (W := W) (H := H) worker plan w = (o, t, w') → t' `prefix_of` t →
  history plan (h ++ t').
Arguments history W H {_} plan h.

Lemma history_lawful {W H} `{HashLaws H} plan h :
  file_plan plan → history W H plan h → obeys (lawful H plan) [] h.
Proof.
  intros Hplan. induction 1 as [|h worker w o t w' t' _ IH Hworker E [t2 ->]]; [done|].
  apply obeys_app. split; [done|].
  destruct (executeFile_lawful worker plan Hplan Hworker h IH w o _ w' E) as [Ho _].
  by apply obeys_app in Ho as [? _].
Qed.

(** Rule of every event. *)
Lemma history_rule {W H} `{HashLaws H} plan h1 e h2 :
  file_plan plan → history W H plan (h1 ++ e :: h2) → journalled (h1 ++ e :: h2) →
  rule H plan h1 e.
Proof.
  intros Hplan Hh Hj. apply history_lawful in Hh; [|done].
  apply (obeys_split _ [] _ h1 e h2 Hh eq_refl). eapply journalled_prefix; [|exact Hj].
  by apply prefix_app_r.
Qed.
