(* ===== verification/History.v ===== *)
(** What holds of everything that ever happens to a job's file, however often it
    is run, cut short and run again. *)
From stdpp Require Import pretty.
From S2P Require Import Prelude Domain GoPath Provider DirectProtocol Bandwidth Plan.
From S2P Require Import Checkpoint Effects Logic Mutation NameFacts Stream Worker Commit Execute.
From S2P Require Import StreamFacts Evidence TransferFacts WorkerFacts.
From S2P Require Import RecoveryFacts CommitFacts ExecuteFacts.

(** A plan whose destination is named as the planner names it: an absolute, clean
    directory, and a name in it. *)
Record placed (plan : Plan) : Prop := {
  placed_endpoint : loc_EndpointID (Final plan) = loc_EndpointID (DestinationDirectory plan);
  placed_directory : path_Dir (loc_Path (Final plan)) = loc_Path (DestinationDirectory plan);
  placed_clean : clean (chars (loc_Path (DestinationDirectory plan))) =
                 chars (loc_Path (DestinationDirectory plan));
  placed_rooted : rooted (chars (loc_Path (DestinationDirectory plan))) = true;
  placed_name : SLASH ∉ chars (RequestedName plan);
}.

Lemma final_name_placed plan final :
  placed plan → final_name plan final →
  loc_EndpointID final = loc_EndpointID (DestinationDirectory plan) ∧
  path_Dir (loc_Path final) = loc_Path (DestinationDirectory plan).
Proof.
  intros [He Hd Hc Hr Hn] [->|[_ [n ->]]]; [done|]. split; [done|].
  destruct (rename_candidate_name _ n Hn) as [Hnormal Hslash].
  unfold childLocation, path_Dir, path_Join. cbn [loc_Path]. rewrite chars_str.
  by rewrite dir_join2, str_chars.
Qed.

Lemma prefix_app_cases {A} (l a b : list A) :
  l `prefix_of` a ++ b → l `prefix_of` a ∨ ∃ c, l = a ++ c ∧ c `prefix_of` b.
Proof.
  intros [k E]. symmetry in E. apply app_eq_app in E as [m [[-> ->]|[-> ->]]].
  - right. exists m. split; [done|]. by exists k.
  - left. by exists m.
Qed.

Section History.
Context {W H : Type} `{HashLaws H} (plan : Plan) (Hplan : file_plan plan).
Local Abbreviation source := (ref_Location (Source plan)).
Local Abbreviation history := (history W H plan).

Lemma stands_accepted h cp :
  placed plan → ref_Kind (Source plan) = EntryFile → Route plan ≠ RouteLevel2Direct →
  stands H plan h cp → checkpointMatchesPlan cp plan = true.
Proof.
  intros Hpl Hk Hr Hs. pose proof (stands_belongs _ _ _ _ Hs) as [Hj Hv Hd Hdir Hp Hsrc [Hf Hn] Hroute].
  unfold checkpointMatchesPlan. rewrite Hv, Hdir, Hp, Hsrc, Hf, Hn, Hroute, Z.eqb_refl, andb_false_r.
  rewrite !bool_decide_eq_true_2 by done. cbn [negb orb]. rewrite Z.gtb_ltb.
  destruct (Z.ltb_spec (Offset cp) (ce_DurableBytes (Completion cp))); [lia|].
  destruct (String.eqb_spec (Route plan) RouteLevel2Direct); [done|]. cbn [Z.eqb negb orb String.eqb].
  destruct (stands_final _ _ _ _ Hs) as [Hfin|(Hin & Ha & Hauto)].
  - rewrite Hfin. rewrite bool_decide_eq_true_2 by done. cbn [andb].
    case_match; [done|]. destruct Hpl as [-> -> _ _ _]. by rewrite !String.eqb_refl.
  - destruct (final_name_placed plan (cp_Final cp) Hpl) as [-> ->]; [by right|].
    unfold phase_in in Hin. cbn in Hin. rewrite orb_false_r in Hin.
    rewrite <-negb_orb, Hin. cbn [negb]. by rewrite !String.eqb_refl.
Qed.

(** C5: Resumption: for a plan of a file whose destination is named as the planner
    names it, on the routes that the program attaches (not the Level 2 one), every
    checkpoint that a run has saved, or tried to save, is one that the next run
    accepts as its job's, with durable bytes that never exceed the offset. *)
Theorem saved_checkpoint_accepted h1 cp err h2 :
  placed plan → ref_Kind (Source plan) = EntryFile → Route plan ≠ RouteLevel2Direct →
  history (h1 ++ EvSave cp err :: h2) → journalled (h1 ++ EvSave cp err :: h2) →
  cp_JobID cp = plan_JobID plan ∧ checkpointMatchesPlan cp plan = true ∧
  durableBytes cp ≤ Offset cp.
Proof.
  intros Hpl Hk Hr Hh Hj. pose proof (history_rule plan _ _ _ Hplan Hh Hj) as Hs. cbn in Hs.
  pose proof (stands_belongs _ _ _ _ Hs) as Hb. split; [apply Hb|].
  split; [by eapply stands_accepted|]. unfold durableBytes. destruct Hb. case_match; lia.
Qed.

(** C3: A transfer touches nothing but its part until it publishes it, with the one
    exception of a sync-back: through every history, writes, truncations and flushes
    go to the part, a server is asked to copy the frozen source to the part, the part
    alone is removed, and only under the skip policy, nothing is listed, trashed or
    made a directory, and a rename takes the part to the final name, or to one
    auto-renaming has chosen.  A sync-back, and no other plan, first moves the final
    file to the job's backup name: that very file, to that very name, with the
    fingerprint, the digest and the size that the plan has frozen of it. *)
Theorem transfer_confined h e :
  history h → journalled h → e ∈ h →
  match e with
  | EvOpenWrite request _ => write_Location request = Part plan
  | EvWrite l _ _ _ | EvWriteFrom l _ _ | EvTruncate l _ _ | EvSync l _ | EvCloseWrite l _ =>
      l = Part plan
  | EvRename request _ => rename_Source request = Part plan ∧
      final_name plan (rename_Destination request) ∧
      (rename_Replace request = true →
         ConflictPolicy plan = ConflictOverwrite ∧ is_Some (rename_ExpectedDestination request))
  | EvRemove request _ => ConflictPolicy plan = ConflictSkip ∧ remove_Location request = Part plan ∧
      is_Some (remove_Expected request)
  | EvServerCopy from part fp _ _ =>
      from = source ∧ part = Part plan ∧ fp = ref_Fingerprint (Source plan)
  | EvStageCopy from part _ _ => from = source ∧ part = Part plan
  | EvPreserve request _ _ => plan_Version plan = 2 ∧ ∃ e size,
      ExpectedDestination plan = Some e ∧ fp_Size (pre_Fingerprint e) = Some size ∧
      request = mkPreserveRequest (Final plan) (PreservedDestination plan) (pre_Fingerprint e)
                  (pre_ContentSHA256 e) (i64 size) (2 * 1024 * 1024 * 1024)
  | EvList _ _ | EvTrash _ _ | EvMkdir _ _ => False
  | _ => True
  end.
Proof.
  intros Hh Hj (h1 & h2 & ->)%list_elem_of_split.
  pose proof (history_rule plan _ _ _ Hplan Hh Hj) as Hr.
  destruct e; cbn in Hr; try done; try by destruct Hr as (? & ? & ? & ?).
  - destruct Hr as (pre & cp & Heq & Hp & Hs & Hd & _ & _ & Hrep). rewrite Heq in Hh, Hj.
    rewrite <-app_assoc in Hh, Hj. pose proof (history_rule plan _ _ _ Hplan Hh Hj) as Hst. cbn in Hst.
    split; [done|]. split.
    + rewrite Hd. destruct (stands_final _ _ _ _ Hst) as [|(_ & ? & ?)]; [by left|by right].
    + intros Hre. rewrite Hre in Hrep. destruct Hrep as (? & fp & -> & _). by eauto.
Qed.

(** A part of a history is one. *)
Lemma history_prefix h h' : h' `prefix_of` h → history h → history h'.
Proof.
  intros Hp Hh. revert h' Hp. induction Hh as [|h worker w o t w' t' Hh IH Hworker E Ht]; intros h0 Hp.
  { apply prefix_nil_inv in Hp as ->. constructor. }
  apply prefix_app_cases in Hp as [Hp|(t0 & -> & Hp)]; [by apply IH|].
  eapply history_run; [done..|]. by etrans.
Qed.

(** A recorded checkpoint stands. *)
Lemma recorded_stands h cp : history h → journalled h → recorded h cp → stands H plan h cp.
Proof.
  assert (∀ h err, history h → journalled h → EvSave cp err ∈ h → stands H plan h cp) as Hsave.
  { intros h0 err Hh Hj (h1 & h2 & ->)%list_elem_of_split.
    pose proof (history_rule plan _ _ _ Hplan Hh Hj) as Hr. cbn in Hr.
    eapply stands_mono; [|exact Hr]. by apply prefix_app_r. }
  intros Hh Hj [Hs|[job Hl]]; [by eapply Hsave|].
  apply list_elem_of_split in Hl as (h1 & h2 & ->). destruct (Hj h1 job cp h2 eq_refl) as [err Hin].
  eapply Hsave; [done|done|]. apply elem_of_app. by left.
Qed.

(** C4: Write-ahead: the part is opened for writing only from a recorded
    checkpoint: created, if absent, when the intent is on record, or resumed, if
    it still is what is expected, where the source's content on record ends; and
    it is cut back only to that content, after a read back of it. *)
Theorem part_written_from_record h1 e h2 :
  history (h1 ++ e :: h2) → journalled (h1 ++ e :: h2) →
  match e with
  | EvOpenWrite request _ => ∃ cp, recorded h1 cp ∧
      (write_Disposition request = WriteCreateNew ∧ write_Offset request = 0 ∧
       cp_Phase cp = PhasePrepared ∨
       write_Disposition request = WriteResumeExisting ∧
       is_Some (write_ExpectedFingerprint request) ∧ cp_Phase cp = PhaseStreaming ∧
       ∃ content, sourced plan h1 content ∧ write_Offset request = blen content ∧
         ChecksumState cp = h_marshal (h_write (h_new (H := H)) content))
  | EvTruncate _ size _ => ∃ cp, recorded h1 cp ∧ size = Offset cp ∧ begins_with H plan h1 cp
  | _ => True
  end.
Proof.
  intros Hh Hj. pose proof (history_rule plan _ _ _ Hplan Hh Hj) as Hr.
  destruct e; cbn in Hr; try done.
  - destruct Hr as (_ & cp & Hrec & Hcase). exists cp. split; [done|].
    destruct Hcase as [(? & ? & ?)|(Hd & Ho & Hp & Hx)]; [by left|right].
    assert (stands H plan h1 cp) as Hs.
    { apply recorded_stands; [|by eapply journalled_prefix; [apply prefix_app_r|]|done].
      by eapply history_prefix; [|exact Hh]; apply prefix_app_r. }
    destruct (stands_streaming _ _ _ _ Hs Hp) as (content & Hsrc & Hoff & Hst).
    split_and!; try done. exists content. by rewrite Ho.
  - destruct Hr as (_ & cp & Hrec & Hp & -> & Hb). by exists cp.
Qed.

(** C2: Nothing is published unverified: a rename directly follows the record of
    its intent, expects the part as it was verified, and with a digest asked for
    the part had been read back with the digest of its checkpoint, which is that of
    the source's content, read in order, on the routes that stream. *)
Theorem published_only_verified h1 request r h2 :
  history (h1 ++ EvRename request r :: h2) → journalled (h1 ++ EvRename request r :: h2) →
  ∃ pre cp, h1 = pre ++ [EvSave cp None] ∧ cp_Phase cp = PhaseCommitting ∧
    rename_Destination request = cp_Final cp ∧
    rename_ExpectedSource request = Some (PartFingerprint cp) ∧
    (Verification plan = VerifySHA256 →
       has_readback H (Part plan) (PartFingerprint cp) (ChecksumHex cp) pre) ∧
    (local_or_relay (Route plan) = true →
       ∃ content, sourced plan pre content ∧ Offset cp = blen content ∧
         ChecksumHex cp = digest H content).
Proof.
  intros Hh Hj. pose proof (history_rule plan _ _ _ Hplan Hh Hj) as Hr.
  destruct Hr as (pre & cp & -> & Hp & _ & Hd & Hfp & _). exists pre, cp.
  rewrite <-app_assoc in Hh, Hj. pose proof (history_rule plan _ _ _ Hplan Hh Hj) as Hs. cbn in Hs.
  split_and!; try done.
  - intros Hv. apply (stands_part _ _ _ _ Hs); [|done]. unfold phase_in. by rewrite Hp.
  - intros Hroute. assert (phase_in after_transfer cp = true) as Hin by (unfold phase_in; by rewrite Hp).
    destruct (stands_origin _ _ _ _ Hs Hin) as [Hc|[[He _]|[He _]]]; [done|..].
    all: by rewrite He in Hroute.
Qed.

(** C7: A sync-back destroys nothing: before the edited file takes the place of a
    version that was there, the provider has confirmed a backup of exactly that
    version, by its fingerprint, size and digest, under the job's name for it. *)
Theorem sync_back_preserves_original h1 request r h2 e :
  history (h1 ++ EvRename request r :: h2) → journalled (h1 ++ EvRename request r :: h2) →
  plan_Version plan = 2 → ExpectedDestination plan = Some e → pre_Presence e = DestinationPresent →
  ∃ size kept, fp_Size (pre_Fingerprint e) = Some size ∧ BackupPresent kept = true ∧
    EvPreserve (mkPreserveRequest (Final plan) (PreservedDestination plan) (pre_Fingerprint e)
      (pre_ContentSHA256 e) (i64 size) (2 * 1024 * 1024 * 1024)) kept None ∈ h1.
Proof.
  intros Hh Hj Hv He Hp. pose proof (history_rule plan _ _ _ Hplan Hh Hj) as Hr.
  destruct Hr as (pre & cp & -> & _ & _ & _ & _ & Hkept & _).
  destruct (Hkept Hv e He Hp) as (preservation & kept & Hin & (_ & e' & size & He' & Hz & ->) & Hb).
  rewrite He in He'. injection He' as <-. exists size, kept. split_and!; [done..|].
  apply elem_of_app. by left.
Qed.

(** C1: A completed copy is the source: when a run, the first one or one that
    resumes after crashes, ends with a completed outcome, there is a digest that is
    known of the source and of the final file.  Of the source: on the routes that
    stream it is that of the bytes read from the frozen source, in order and from
    the first one, as many as the result says; on the others it may be that as well
    (a copy on the server that fell back), or after a server copy the frozen source
    has been read back with it, or for a same-host copy it is the one of the frozen
    binding.  Of the final file: with a digest asked for (VerifySHA256) it is the
    result's, and the final file has been read back with it; a copy that the protocol
    alone confirms (VerifyProtocol) has that read back, or a rename of the part to the
    final file that the provider has confirmed. *)
Theorem completed_copy_is_source h worker w r t w' :
  history h → surroundings worker →
  executeFile (W := W) (H := H) worker plan w = (Returned (r, None), t, w') →
  journalled (h ++ t) → Outcome r = OutcomeCompleted →
  ∃ sum,
    (local_or_relay (Route plan) = true ∧
       (∃ content, sourced plan (h ++ t) content ∧ Bytes r = blen content ∧ sum = digest H content) ∨
     local_or_relay (Route plan) = false ∧
       ((∃ content, sourced plan (h ++ t) content ∧ Bytes r = blen content ∧ sum = digest H content) ∨
        Route plan = RouteSFTPServerCopy ∧ has_readback H source (ref_Fingerprint (Source plan)) sum (h ++ t) ∨
        Route plan = RouteHelperSameHost ∧
          ∃ binding, SameHostCopy plan = Some binding ∧ sum = sh_SourceSHA256 binding)) ∧
    (Verification plan = VerifySHA256 →
       result_SHA256 r = sum ∧ has_readback H (result_Final r) Fingerprint_zero sum (h ++ t)) ∧
    (Verification plan = VerifyProtocol →
       has_readback H (result_Final r) Fingerprint_zero sum (h ++ t) ∨
       ∃ request answer, EvRename request (Ok answer) ∈ h ++ t ∧
         rename_Source request = Part plan ∧ rename_Destination request = result_Final r).
Proof.
  intros Hh Hworker E Hj Ho.
  destruct (executeFile_lawful worker plan Hplan Hworker h (history_lawful _ _ Hplan Hh) w _ _ _ E)
    as [_ Hw]. destruct (Hw Hj eq_refl Ho) as (cp & Hrec & Hs & Hp & Hout & Hfin & Hb & Hsum).
  cbn [fst] in *. exists (ChecksumHex cp).
  assert (phase_in after_transfer cp = true) as Hin by (unfold phase_in; by rewrite Hp).
  destruct (stands_committed _ _ _ _ Hs Hp) as [Hskip|[_ Hpub]]; [by rewrite Hout in Hskip|].
  rewrite Hfin, Hb. split_and!.
  - pose proof (stands_origin _ _ _ _ Hs Hin) as Horigin.
    destruct (local_or_relay (Route plan)) eqn:Hroute; [left|by right].
    split; [done|]. destruct Horigin as [Hc|[[He _]|[He _]]]; [done|by rewrite He in Hroute..].
  - intros Hv. split; [apply Hsum; by rewrite Hv|]. by destruct Hpub as [|[]].
  - intros _. destruct Hpub as [|[_ Hr]]; by auto.
Qed.
End History.
