(* ===== verification/PlanReady.v ===== *)
(** Why the plans that are frozen may run: each step of freezing keeps what
    [validateExecution] asks for. *)
From S2P Require Import Prelude TokenBucket Domain GoPath Provider DirectProtocol Bandwidth Plan Job.
From S2P Require Import PlanRecord Checkpoint Effects Logic Mutation NameFacts Planner.
From S2P Require CacheRecords Edit.

(** * Names *)

(** A literal has no slash. *)
Ltac slashless := apply (bool_decide_unpack _); vm_compute; exact I.

Lemma job_slashless job : is_ok (ParseJobID job) = true → SLASH ∉ chars job.
Proof.
  intros [value Hp]%is_ok_true. apply parseID_exact in Hp as (_ & payload & -> & _ & Hl).
  rewrite chars_app, elem_of_app. intros [Hin|Hin]; [revert Hin; fold (not (SLASH ∈ chars jobIDPrefix)); slashless|].
  rewrite Forall_forall in Hl. by apply Hl in Hin.
Qed.

Lemma decorated_name base infix job :
  SLASH ∉ chars base → SLASH ∉ chars infix → (2 < String.length infix)%nat → SLASH ∉ chars job →
  let name := "." +:+ base +:+ infix +:+ job in normal (chars name) ∧ SLASH ∉ chars name.
Proof.
  intros Hb Hi Hl Hj name. unfold name. rewrite !chars_app. change (chars ".") with [DOT].
  assert (2 < length (chars infix))%nat as Hl' by by rewrite length_chars.
  split.
  - split_and!; intros E; apply (f_equal length) in E; rewrite !length_app in E; cbn in E; lia.
  - rewrite !elem_of_app, list_elem_of_singleton. by intros [?|[?|[?|?]]].
Qed.
Lemma part_name_ok final job :
  SLASH ∉ chars (path_Base final) → is_ok (ParseJobID job) = true →
  normal (chars (part_name final job)) ∧ SLASH ∉ chars (part_name final job).
Proof.
  intros Hb Hj%job_slashless. apply decorated_name; [done| |cbn; lia|done].
  slashless.
Qed.
Lemma part_name_longer final job :
  (String.length (path_Base final) < String.length (part_name final job))%nat.
Proof. unfold part_name. rewrite !length_string_app. cbn. lia. Qed.

(** A part is not the file it will become. *)
Lemma part_is_not_final directory name job :
  loc_Path directory ≠ "" → normal (chars name) → SLASH ∉ chars name → is_ok (ParseJobID job) = true →
  let final := childLocation directory name in
  loc_Path (childLocation directory (part_name (loc_Path final) job)) ≠ loc_Path final.
Proof.
  intros Hd Hn Hs Hj final E. pose proof (base_child_location directory name Hd Hn Hs) as Hb.
  destruct (part_name_ok (loc_Path final) job) as [Hpn Hps]; [by unfold final; rewrite Hb|done|].
  apply childLocation_inj in E; [|done..]. pose proof (part_name_longer (loc_Path final) job) as Hl.
  unfold final in Hl, E. rewrite E, Hb in Hl. lia.
Qed.

Lemma component_name name :
  not_one_component name = false → name ≠ "/" → normal (chars name) ∧ SLASH ∉ chars name.
Proof.
  unfold not_one_component. rewrite !orb_false_iff, negb_false_iff, !String.eqb_neq, String.eqb_eq.
  intros ((((H1 & H2) & H3) & Hb) & _) H4. unfold path_Base in Hb.
  apply (f_equal chars) in Hb as Hb'. rewrite chars_str in Hb'. split.
  - split_and!; intros E; rewrite <-(str_chars name), E in *; done.
  - destruct (base_component (chars name)) as [E|E]; rewrite Hb' in E; [|done].
    destruct H4. by rewrite <-(str_chars name), E.
Qed.

(** * Plans that may run *)

(** A plan for a copy or a move, before its route is settled. *)
Record settled_policy (plan : Plan) : Prop := {
  sp_version : plan_Version plan = 1;
  sp_kind : plan_Kind plan = OperationCopy ∨ plan_Kind plan = OperationMove;
  sp_verification : Verification plan = VerifySHA256 ∨
    Verification plan = VerifyProtocol ∧ plan_Kind plan = OperationCopy ∧ Durability plan ≠ "";
  sp_durability : Durability plan ∈ [""; DurabilityNone; DurabilityCompletion; DurabilityCheckpoint];
  sp_move : plan_Kind plan = OperationMove → Verification plan = VerifySHA256 ∧ Durability plan = "";
  sp_strong : dp_Integrity (plan_DirectPolicy plan) = IntegrityRequireStrong →
    Verification plan = VerifySHA256;
}.
Inductive bound_route (plan : Plan) : Prop :=
| route_streamed : local_or_relay (Route plan) = true → ServerCopy plan = None →
    SameHostCopy plan = None → bound_route plan
| route_server : Route plan = RouteSFTPServerCopy → invalid_server_copy plan = false →
    SameHostCopy plan = None → bound_route plan
| route_helper : Route plan = RouteHelperSameHost → invalid_same_host plan = false →
    ServerCopy plan = None → bound_route plan.
Record ready (plan : Plan) : Prop := {
  ready_identity : validate_identity plan = Ok ();
  ready_buffer : BufferBytes plan = DefaultBufferBytes;
  ready_stream : StreamPolicy_valid (plan_StreamPolicy plan) = true;
  ready_policy : settled_policy plan;
  ready_operation : validate_operation plan = Ok ();
  ready_route : bound_route plan;
  ready_level2 : Level2Preflight plan = None;
  ready_evidence : plan_RouteEvidence plan = None;
}.

Lemma freezeRouteEvidence_eq plan :
  ∃ e, freezeRouteEvidence plan = plan <| plan_RouteEvidence := Some e |>.
Proof. unfold freezeRouteEvidence. case_match; eauto. Qed.
Lemma frozen_evidence_valid plan :
  plan_RouteEvidence plan = None → validRouteEvidence (freezeRouteEvidence plan) = true.
Proof.
  intros Hn. destruct (freezeRouteEvidence_eq plan) as [e E]. unfold validRouteEvidence.
  rewrite E. cbn [plan_RouteEvidence]. apply bool_decide_eq_true.
  assert (plan <| plan_RouteEvidence := Some e |> <| plan_RouteEvidence := None |> = plan) as ->
    by by destruct plan; cbn in Hn |- *; subst.
  by rewrite E.
Qed.

Lemma settled_completion plan :
  settled_policy plan → local_or_relay (Route plan) = true ∨ (Verification plan = VerifySHA256 ∧ Durability plan = "") →
  validCompletionPolicy plan = true.
Proof.
  intros [Hv Hk Hver Hd Hm Hs] Hr. unfold validCompletionPolicy. rewrite Hv. cbn [Z.eqb negb orb].
  rewrite !elem_of_cons in Hd. destruct Hr as [Hr|[Hr Hd']].
  - rewrite Hr. destruct Hver as [Hver|(Hver & Hc & Hne)]; rewrite Hver in *.
    + destruct Hk as [Hk|Hk]; rewrite Hk.
      * destruct Hd as [-> |[-> |[-> |[-> |?%elem_of_nil] ] ] ]; cbn; by rewrite andb_false_r.
      * destruct Hm as [_ Hd']; [done|]. unfold checkpointSync. rewrite Hd'. cbn.
        by rewrite ?andb_false_r.
    + rewrite Hc. assert (String.eqb (dp_Integrity (plan_DirectPolicy plan)) IntegrityRequireStrong = false) as ->.
      { apply String.eqb_neq. by intros ?%Hs. }
      by destruct Hd as [Hd|[Hd|[Hd|[Hd|Hd%elem_of_nil] ] ] ]; try rewrite Hd in *.
  - unfold checkpointSync. rewrite Hr, Hd'. cbn. by destruct Hk as [-> | ->]; rewrite ?andb_false_r.
Qed.

Lemma settle_route_valid plan : ready plan → validateExecution (settle_route plan) = Ok ().
Proof.
  intros [Hi Hb Hs Hp Ho Hr Hl He]. unfold settle_route.
  set (p := if local_or_relay (Route plan) then plan else _).
  assert (∃ v d, p = plan <| Verification := v |> <| Durability := d |>) as (v & d & Ep).
  { unfold p. destruct (local_or_relay _); eauto. exists (Verification plan), (Durability plan).
    by destruct plan. }
  assert (validCompletionPolicy p = true) as Hc.
  { apply settled_completion.
    - unfold p. destruct (local_or_relay _); [done|]. destruct Hp. split; cbn; try done; [by left|by left].
    - unfold p. destruct (local_or_relay (Route plan)) eqn:E; [by left|by right]. }
  assert (plan_RouteEvidence p = None) as Hn by by rewrite Ep.
  pose proof (frozen_evidence_valid p Hn) as Hev. destruct (freezeRouteEvidence_eq p) as [e Ee].
  rewrite Ee in Hev |- *. clearbody p. subst p. unfold validateExecution.
  match goal with |- context [validate_identity ?q] =>
    change (validate_identity q) with (validate_identity plan) end. rewrite Hi.
  match goal with |- context [validate_operation ?q] =>
    change (validate_operation q) with (validate_operation plan) end. rewrite Ho.
  unfold validate_budgets. change (validCompletionPolicy _) with
    (validCompletionPolicy (plan <| Verification := v |> <| Durability := d |>)). rewrite Hc.
  cbn. rewrite Hb, Hs. cbn. unfold validate_route. rewrite Hev. cbn. rewrite Hl.
  destruct Hr as [Hr Hsc Hsh|Hr Hsc Hsh|Hr Hsh Hsc].
  - unfold local_or_relay in Hr. rewrite Hsc, Hsh. apply orb_true_iff in Hr as [Hr|Hr];
      apply String.eqb_eq in Hr; by rewrite Hr.
  - rewrite Hr. cbn. change (invalid_server_copy _) with (invalid_server_copy plan). by rewrite Hsc, Hsh.
  - rewrite Hr. cbn. change (invalid_same_host _) with (invalid_same_host plan). by rewrite Hsc, Hsh.
Qed.

(** * Settling the policies *)
Definition durabilities : list string :=
  [""; DurabilityNone; DurabilityCompletion; DurabilityCheckpoint].
Lemma wanted_completion_ok intent v d :
  wanted_completion intent = Ok (v, d) →
  (v = VerifyProtocol ∨ v = VerifySHA256) ∧ d ∈ durabilities ∧ d ≠ "" ∧
  (dp_Integrity (int_DirectPolicy intent) = IntegrityRequireStrong → v = VerifySHA256).
Proof.
  unfold wanted_completion. set (v0 := if String.eqb (int_Verification intent) "" then _ else _).
  set (d0 := if String.eqb (int_Durability intent) "" then _ else _). clearbody v0 d0.
  match goal with |- (if ?b then _ else _) = _ → _ => destruct b eqn:Hb; [done|] end.
  rewrite orb_false_iff, !andb_false_iff, !negb_false_iff, !String.eqb_eq in Hb.
  destruct Hb as [Hv Hd]. intros [= <- <-]. split_and!.
  - case_match; tauto.
  - unfold durabilities. rewrite !elem_of_cons. tauto.
  - intros ->. by destruct Hd as [[?|?]|?].
  - by intros ->.
Qed.

Lemma settle_completion_ok v d plan :
  plan_Version plan = 1 → plan_Kind plan = OperationCopy ∨ plan_Kind plan = OperationMove →
  (v = VerifyProtocol ∨ v = VerifySHA256) → d ∈ durabilities → d ≠ "" →
  (dp_Integrity (plan_DirectPolicy plan) = IntegrityRequireStrong → v = VerifySHA256) →
  settled_policy (settle_completion v d plan).
Proof.
  intros Hver Hk Hv Hd Hne Hs. unfold settle_completion.
  destruct Hk as [Hk|Hk]; rewrite Hk; cbn.
  - destruct Hv as [-> | ->]; cbn.
    + split; cbn; rewrite ?Hk; auto. done.
    + destruct (String.eqb_spec d DurabilityCheckpoint); split; cbn; rewrite ?Hk; auto; try done.
      by left.
  - split; cbn; rewrite ?Hk; auto. by left.
Qed.

Lemma settle_completion_eq v d plan :
  ∃ v' d', settle_completion v d plan = plan <| Verification := v' |> <| Durability := d' |>.
Proof.
  unfold settle_completion. cbv zeta.
  destruct (String.eqb (plan_Kind plan) OperationMove); case_match.
  - by exists VerifySHA256, "".
  - by exists VerifySHA256, "".
  - by exists v, "".
  - by exists v, d.
Qed.

Lemma settle_stream_policy_ok plan :
  plan_StreamPolicy plan = DefaultStreamPolicy →
  StreamPolicy_valid (plan_StreamPolicy (settle_stream_policy plan)) = true.
Proof.
  intros Hs. unfold settle_stream_policy. cbn [plan_StreamPolicy]. rewrite Hs. by repeat case_match.
Qed.

Lemma freezeCompletionPolicy_ok plan intent p :
  freezeCompletionPolicy plan intent = Ok p →
  plan_Version plan = 1 → plan_Kind plan = OperationCopy ∨ plan_Kind plan = OperationMove →
  plan_StreamPolicy plan = DefaultStreamPolicy → plan_DirectPolicy plan = int_DirectPolicy intent →
  (∃ v d sp, p = plan <| Verification := v |> <| Durability := d |> <| plan_StreamPolicy := sp |>) ∧
  settled_policy p ∧ StreamPolicy_valid (plan_StreamPolicy p) = true.
Proof.
  unfold freezeCompletionPolicy. intros ([v d] & Hw & [= <-])%bind_ok Hv Hk Hs Hp.
  apply wanted_completion_ok in Hw as (Hwv & Hd & Hne & Hst).
  pose proof (settle_completion_ok v d plan Hv Hk Hwv Hd Hne) as Hc. rewrite Hp in Hc.
  specialize (Hc Hst). split_and!.
  - destruct (settle_completion_eq v d plan) as (v' & d' & ->). unfold settle_stream_policy.
    eexists v', d', _. reflexivity.
  - destruct Hc. by split.
  - apply settle_stream_policy_ok. by destruct (settle_completion_eq v d plan) as (v' & d' & ->).
Qed.

(** A plan whose route is still the relay's or the local one. *)
Record unrouted (plan : Plan) : Prop := {
  un_ready : ready plan;
  un_relay : local_or_relay (Route plan) = true;
  un_server : ServerCopy plan = None;
  un_helper : SameHostCopy plan = None;
}.

Lemma settle_operation_eq snapshot p :
  ∃ disc strategy capability,
    settle_operation snapshot p =
      p <| Discovery := disc |> <| MoveStrategy := strategy |> <| MoveCapability := capability |> ∧
    disc = (if String.eqb (ref_Kind (Source p)) EntryDirectory then Some DefaultDiscoveryBudget
            else Discovery p) ∧
    (plan_Kind p = OperationMove →
       strategy = MoveCopyDelete ∨
       strategy = MoveAtomicRename ∧ is_Some capability ∧ same_endpoint p = true).
Proof.
  unfold settle_operation. cbv zeta. set (disc := if String.eqb (ref_Kind (Source p)) EntryDirectory then Some _ else _).
  set (p' := if String.eqb (ref_Kind (Source p)) EntryDirectory then p <| Discovery := _ |> else p).
  assert (p' = p <| Discovery := disc |>) as ->.
  { unfold p', disc. destruct (String.eqb _ _); [done|by destruct p]. }
  change (same_endpoint _) with (same_endpoint p).
  change (plan_Kind (p <| Discovery := disc |>)) with (plan_Kind p).
  exists disc. destruct (String.eqb_spec (plan_Kind p) OperationMove) as [Hk|Hk].
  - destruct (same_endpoint p); [destruct (Capability_Lookup _ _) as [c|]|].
    + exists MoveAtomicRename, (Some (mkBinding (Revision (es_Capabilities snapshot)) c)). split_and!; [reflexivity|done|right; eauto].
    + exists MoveCopyDelete, (MoveCapability p). split_and!; [reflexivity|done|auto].
    + exists MoveCopyDelete, (MoveCapability p). split_and!; [reflexivity|done|auto].
  - exists (MoveStrategy p), (MoveCapability p). split_and!; [by destruct p|done|done].
Qed.

(** Settling the policies and the operation of a plan that has neither. *)
Record unsettled (p : Plan) : Prop := {
  us_identity : validate_identity p = Ok ();
  us_kind : plan_Kind p = OperationCopy ∨ plan_Kind p = OperationMove;
  us_source : ref_Kind (Source p) = EntryFile ∨ ref_Kind (Source p) = EntryDirectory;
  us_buffer : BufferBytes p = DefaultBufferBytes;
  us_stream : plan_StreamPolicy p = DefaultStreamPolicy;
  us_version : plan_Version p = 1;
  us_discovery : Discovery p = None;
  us_delete : plan_Kind p = OperationMove → is_Some (SourceDeleteCapability p);
  us_relay : local_or_relay (Route p) = true;
  us_server : ServerCopy p = None;
  us_helper : SameHostCopy p = None;
  us_level2 : Level2Preflight p = None;
  us_evidence : plan_RouteEvidence p = None;
}.
Lemma unsettled_ready base intent p snapshot :
  unsettled base → plan_DirectPolicy base = int_DirectPolicy intent →
  freezeCompletionPolicy base intent = Ok p → unrouted (settle_operation snapshot p).
Proof.
  intros [Hid Hk Hkind Hb Hsp Hv Hdn Hdel Hr Hsc Hsh Hl He] Hdp E.
  apply freezeCompletionPolicy_ok in E as ((v & d & sp & ->) & Hp & Hs); [|done..].
  destruct (settle_operation_eq snapshot
    (base <| Verification := v |> <| Durability := d |> <| plan_StreamPolicy := sp |>))
    as (disc & strategy & capability & -> & Hdisc & Hmove).
  set (q := base <| Verification := v |> <| Durability := d |> <| plan_StreamPolicy := sp |>) in *.
  assert (validate_identity (q <| Discovery := disc |> <| MoveStrategy := strategy |>
    <| MoveCapability := capability |>) = validate_identity base) as Hid' by by destruct base.
  destruct Hp as [_ _ H3 H4 H5 H6].
  split; [split|exact Hr|exact Hsc|exact Hsh].
  - by rewrite Hid'.
  - exact Hb.
  - exact Hs.
  - constructor; [exact Hv|exact Hk|exact H3|exact H4|exact H5|exact H6].
  - unfold validate_operation. cbn. change (ref_Kind (Source q)) with (ref_Kind (Source base)) in Hdisc.
    change (plan_Kind q) with (plan_Kind base) in Hmove.
    change (Discovery q) with (Discovery base) in Hdisc. rewrite Hdn in Hdisc. subst disc.
    change (same_endpoint q) with (same_endpoint base) in Hmove.
    change (same_endpoint _) with (same_endpoint base). clearbody q.
    destruct Hkind as [-> | ->], Hk as [Hk|Hk]; rewrite Hk in *; cbn; try reflexivity;
      destruct (Hdel eq_refl) as [b ->];
      destruct (Hmove eq_refl) as [-> |(-> & [b' ->] & ->)]; reflexivity.
  - apply route_streamed; [exact Hr|exact Hsc|exact Hsh].
  - exact Hl.
  - exact He.
Qed.

(** * Faster routes *)
Lemma Lookup_name caps name c : Capability_Lookup caps name = Some c → cap_Name c = name.
Proof.
  unfold Capability_Lookup. destruct (Items caps !! _) as [c'|]; [|done].
  destruct (String.eqb_spec (cap_Name c') name); [|done]. by intros [= <-].
Qed.

(** A faster route is another route with its binding. *)
Inductive rerouted (plan : Plan) : Plan → Prop :=
| rerouted_not : rerouted plan plan
| rerouted_server binding :
    rerouted plan (plan <| ServerCopy := Some binding |> <| Route := RouteSFTPServerCopy |>)
| rerouted_helper binding :
    rerouted plan (plan <| Route := RouteHelperSameHost |> <| SameHostCopy := Some binding |>).

Lemma ready_rerouted plan plan' :
  ready plan → rerouted plan plan' → bound_route plan' → ready plan'.
Proof.
  intros [Hi Hb Hs Hp Ho _ Hl He] Hr Hroute.
  destruct Hr as [|binding|binding]; [by split|split..]; try done.
  all: destruct Hp; by split.
Qed.

Lemma invalid_server_copy_routed plan b route :
  invalid_server_copy (plan <| ServerCopy := Some b |> <| Route := route |>) =
  negb (plan_Version plan =? 1) || negb (is_file_copy plan) || negb (same_endpoint plan) ||
  negb (both_ssh plan) || negb (validServerCopyBinding b plan).
Proof. by destruct plan. Qed.
Lemma invalid_same_host_routed plan b route :
  invalid_same_host (plan <| Route := route |> <| SameHostCopy := Some b |>) =
  negb (plan_Version plan =? 1) || negb (is_file_copy plan) || negb (same_endpoint plan) ||
  negb (both_ssh plan) || negb (validSameHostCopyBinding b (ep_ID (SourceEndpoint plan))
                             (ref_Fingerprint (Source plan))).
Proof. by destruct plan. Qed.

Lemma tryServerCopy_rerouted {W} (destination : Provider W) ss ds plan plan' :
  tryServerCopy destination ss ds plan = Some plan' → rerouted plan plan' ∧
  (unrouted plan → bind_Revision (SourceCapability plan) = Revision (es_Capabilities ss) →
   bind_Revision (DestinationCapability plan) = Revision (es_Capabilities ds) →
   Revision (es_Capabilities ss) ≠ Revision_zero → ready plan').
Proof.
  intros E. unfold tryServerCopy in E.
  destruct (_ || _) eqn:Hg in E; [done|].
  destruct (Capability_Lookup (es_Capabilities ss) "server_copy") as [c|] eqn:Hc; [|done].
  destruct (fp_Size _) as [size|] eqn:Hsize; [|done].
  destruct (_ || _) eqn:Hg2 in E; [done|]. injection E as <-.
  apply orb_false_iff in Hg as [[[[[Hcopy _]%orb_false_iff Hsame]%orb_false_iff
    Hssh]%orb_false_iff _]%orb_false_iff Hrev].
  apply orb_false_iff in Hg2 as [[Hver Hmax]%orb_false_iff _].
  apply negb_false_iff in Hcopy, Hsame, Hssh, Hrev, Hver.
  apply bool_decide_eq_true in Hrev. apply Lookup_name in Hc.
  assert (rerouted plan (plan <| ServerCopy := Some (mkServerCopy (Revision (es_Capabilities ss)) c
    MaxServerCopyBytes) |> <| Route := RouteSFTPServerCopy |>)) as Hre by apply rerouted_server.
  split; [done|]. intros [Hr _ _ Hsh] Hs Hd Hz. apply (ready_rerouted _ _ Hr Hre). apply route_server; [done| |exact Hsh].
  rewrite invalid_server_copy_routed, (sp_version _ (ready_policy _ Hr)), Hcopy, Hsame, Hssh.
  cbn. unfold validServerCopyBinding. cbn. rewrite Hs, Hd, Hc, <-Hrev, Hver, Hsize.
  rewrite bool_decide_eq_false_2, !bool_decide_eq_true_2 by done. cbn.
  rewrite Z.gtb_ltb in Hmax. apply Z.ltb_ge in Hmax. apply negb_false_iff. by apply Z.leb_le.
Qed.

Lemma same_host_ready plan binding :
  unrouted plan → is_file_copy plan = true → same_endpoint plan = true → both_ssh plan = true →
  validSameHostCopyBinding binding (ep_ID (SourceEndpoint plan)) (ref_Fingerprint (Source plan)) = true →
  ready (plan <| Route := RouteHelperSameHost |> <| SameHostCopy := Some binding |>).
Proof.
  intros [Hr _ Hsc _] Hcopy Hsm Hssh Hb. apply (ready_rerouted _ _ Hr (rerouted_helper _ _)).
  apply route_helper; [done| |exact Hsc].
  rewrite invalid_same_host_routed, (sp_version _ (ready_policy _ Hr)), Hcopy, Hsm, Hssh.
  cbn. by rewrite Hb.
Qed.

(** * Requests *)
Record accepted (request : FreezeRequest) : Prop := {
  acc_job : is_ok (ParseJobID (id_JobID (fr_Identity request))) = true;
  acc_clipboard : Clipboard (fr_Intent request) = ClipboardCopy ∨
    Clipboard (fr_Intent request) = ClipboardCut;
  acc_kind : ref_Kind (int_Source (fr_Intent request)) = EntryFile ∨
    ref_Kind (int_Source (fr_Intent request)) = EntryDirectory;
  acc_source : loc_EndpointID (ref_Location (int_Source (fr_Intent request))) ≠ "" ∧
    loc_Path (ref_Location (int_Source (fr_Intent request))) ≠ "";
  acc_directory : loc_EndpointID (int_DestinationDirectory (fr_Intent request)) ≠ "" ∧
    loc_Path (int_DestinationDirectory (fr_Intent request)) ≠ "";
  acc_name : not_one_component (int_Name (fr_Intent request)) = false;
  acc_policy : int_ConflictPolicy (fr_Intent request) ∈
    [ConflictAsk; ConflictOverwrite; ConflictSkip; ConflictAutoRename];
}.

Lemma validate_ids_job wrap invalid i : validate_ids wrap invalid i = Ok () → is_ok (ParseJobID (id_JobID i)) = true.
Proof.
  unfold validate_ids. intros ([] & _ & ([] & Hj & _)%bind_ok)%bind_ok.
  unfold parse_id in Hj. by destruct (ParseJobID _).
Qed.

Lemma validateFreezeRequest_ok request : validateFreezeRequest request = Ok () → accepted request.
Proof.
  unfold validateFreezeRequest. intros ([] & Hids%validate_ids_job & E)%bind_ok.
  destruct (_ && _) eqn:H1 in E; [done|]. destruct (_ || _) eqn:H2 in E; [done|].
  destruct (_ || _) eqn:H3 in E; [done|]. destruct (_ >? _) in E; [done|].
  destruct (not_one_component _) eqn:H4 in E; [done|].
  destruct (existsb _ _) eqn:H5 in E; [|done].
  rewrite andb_false_iff, !negb_false_iff, !String.eqb_eq in H1.
  rewrite !orb_false_iff, andb_false_iff, !negb_false_iff, !String.eqb_eq, !String.eqb_neq in H2.
  rewrite orb_false_iff, !String.eqb_neq in H3.
  apply existsb_exists in H5 as (x & Hx & <-%String.eqb_eq). apply list_elem_of_In in Hx.
  split; tauto.
Qed.

Section Frozen.
Context {W : Type} (planner : Planner W).

(** The ends of a plan, and what is common to every kind of plan. *)
Lemma identity_ok plan :
  plan_Version plan = 1 → Origin plan = "" → EditSessionID plan = "" → ExpectedDestination plan = None →
  OriginalDestinationPrecondition plan = None → ExpectedSourceSHA256 plan = "" →
  ref_Kind (Source plan) = EntryFile ∨ ref_Kind (Source plan) = EntryDirectory ∨
    plan_Kind plan = OperationDelete ∧ ref_Kind (Source plan) = EntrySymlink →
  ep_ID (SourceEndpoint plan) = loc_EndpointID (ref_Location (Source plan)) →
  ep_ID (DestinationEndpoint plan) = loc_EndpointID (Part plan) → loc_EndpointID (Part plan) ≠ "" →
  loc_EndpointID (Final plan) = loc_EndpointID (Part plan) → loc_Path (Part plan) ≠ loc_Path (Final plan) →
  is_ok (ParseJobID (plan_JobID plan)) = true →
  validate_identity plan = Ok ().
Proof.
  intros Hv Ho Hs He Hod Hsha Hk Hsrc Hdst Hne Hf Hp Hj. unfold validate_identity.
  rewrite Hv, Ho, Hs, He, Hod, Hsha, Hsrc, Hdst, Hf, Hj, !String.eqb_refl.
  apply String.eqb_neq in Hne, Hp. rewrite Hne, Hp.
  destruct Hk as [-> |[-> |[-> ->] ] ]; cbn; try done.
Qed.

(** A plan for a request, as far as the request and the ends determine it. *)
Record for_request (request : FreezeRequest) (final part : Location)
    (sourceBinding destinationBinding : CapabilityBinding) (plan : Plan) : Prop := {
  for_job : plan_JobID plan = id_JobID (fr_Identity request);
  for_kind : plan_Kind plan = if String.eqb (Clipboard (fr_Intent request)) ClipboardCut
                              then OperationMove else OperationCopy;
  for_source : Source plan = int_Source (fr_Intent request);
  for_directory : DestinationDirectory plan = int_DestinationDirectory (fr_Intent request);
  for_name : RequestedName plan = int_Name (fr_Intent request);
  for_policy : ConflictPolicy plan = int_ConflictPolicy (fr_Intent request);
  for_final : Final plan = final;
  for_part : Part plan = part;
  for_source_capability : SourceCapability plan = sourceBinding;
  for_destination_capability : DestinationCapability plan = destinationBinding;
  for_id : PlanID plan = id_PlanID (fr_Identity request);
  for_time : FrozenAt plan = truncate_second (id_Now (fr_Identity request));
}.

Section Steps.
Context (request : FreezeRequest) (final part : Location) (sb db : CapabilityBinding).
Local Abbreviation asked := (for_request request final part sb db).
Lemma settle_route_asked plan : asked plan → asked (settle_route plan).
Proof.
  intros [? ? ? ? ? ? ? ? ? ? ? ?]. unfold settle_route. cbv zeta.
  destruct (local_or_relay (Route plan)).
  - destruct (freezeRouteEvidence_eq plan) as [e ->]. by split.
  - destruct (freezeRouteEvidence_eq (plan <| Verification := VerifySHA256 |> <| Durability := "" |>))
      as [e ->]. by split.
Qed.
Lemma freezeCompletionPolicy_asked plan intent p :
  freezeCompletionPolicy plan intent = Ok p → asked plan → asked p.
Proof.
  unfold freezeCompletionPolicy. intros ([v d] & _ & [= <-])%bind_ok [? ? ? ? ? ? ? ? ? ? ? ?].
  destruct (settle_completion_eq v d plan) as (v' & d' & ->). by split.
Qed.
Lemma settle_operation_asked snapshot plan : asked plan → asked (settle_operation snapshot plan).
Proof.
  intros [? ? ? ? ? ? ? ? ? ? ? ?].
  destruct (settle_operation_eq snapshot plan) as (? & ? & ? & -> & _). by split.
Qed.
Lemma rerouted_asked plan plan' : rerouted plan plan' → asked plan → asked plan'.
Proof. intros [|binding|binding] [? ? ? ? ? ? ? ? ? ? ? ?]; by split. Qed.
End Steps.

Lemma copy_plan_asked request source destination final part sb db del :
  for_request request final part sb db (copy_plan planner request source destination final part sb db del).
Proof. by split. Qed.

Context (request : FreezeRequest) (source destination : Endpoint) (name : string)
  (sourceBinding destinationBinding : CapabilityBinding) (deleteBinding : option CapabilityBinding).
Local Abbreviation intent := (fr_Intent request).
Local Abbreviation directory := (int_DestinationDirectory intent).
Local Abbreviation final := (childLocation directory name).
Local Abbreviation part :=
  (childLocation directory (part_name (loc_Path final) (id_JobID (fr_Identity request)))).
Local Abbreviation base := (copy_plan planner request source destination final part
  sourceBinding destinationBinding deleteBinding).
Context (Hreq : accepted request) (Hstream : pl_streamPolicy planner = DefaultStreamPolicy)
  (Hsource : ep_ID source = loc_EndpointID (ref_Location (int_Source intent)))
  (Hdestination : ep_ID destination = loc_EndpointID directory)
  (Hname : normal (chars name) ∧ SLASH ∉ chars name)
  (Hdelete : Clipboard intent = ClipboardCut → is_Some deleteBinding).

Lemma base_identity : validate_identity base = Ok ().
Proof.
  destruct Hreq as [Hj _ Hk _ [Hne Hd] _ _], Hname. apply identity_ok; try done.
  - cbn. tauto.
  - by apply part_is_not_final.
Qed.

Lemma base_kind : plan_Kind base = OperationCopy ∨ plan_Kind base = OperationMove.
Proof. cbn. destruct (String.eqb _ _); auto. Qed.

Lemma base_unsettled : unsettled base.
Proof.
  pose proof base_identity as Hid. pose proof base_kind as Hk. destruct Hreq as [_ _ Hkind _ _ _ _].
  split; [done|done|done|done|done|done|done| |..|done|done|done|done].
  - cbn. destruct (String.eqb_spec (Clipboard intent) ClipboardCut) as [Hc|]; [by intros _; apply Hdelete|done].
  - cbn. unfold chooseRoute. by case_match.
Qed.
End Frozen.

(** * Sending back *)
Lemma is_lower_hex_digit_eq c : CacheRecords.is_lower_hex c = is_lower_hex_digit c.
Proof. by destruct c as [[] [] [] [] [] [] [] []]. Qed.
Lemma edit_hex label value width :
  is_ok (Edit.validateLowerHex label value width) = validateLowerHexIdentity value width.
Proof.
  unfold Edit.validateLowerHex, validateLowerHexIdentity, lowerHex.
  destruct (len value =? width); [cbn [negb]|done].
  assert (∀ l, forallb CacheRecords.is_lower_hex l = forallb is_lower_hex_digit l) as ->.
  { induction l as [|c l IH]; [done|]. cbn. by rewrite is_lower_hex_digit_eq, IH. }
  by destruct (forallb _ _).
Qed.
Lemma edit_session_hex value : is_ok (Edit.ParseSessionID value) = validateLowerHexIdentity value 32.
Proof. rewrite <-(edit_hex "edit session ID"). unfold Edit.ParseSessionID. by destruct (Edit.validateLowerHex _ _ _). Qed.
Lemma edit_sha_hex value : is_ok (Edit.ParseSHA256 value) = validateLowerHexIdentity value 64.
Proof. rewrite <-(edit_hex "SHA-256"). unfold Edit.ParseSHA256. by destruct (Edit.validateLowerHex _ _ _). Qed.

Lemma destinationPreconditionFromEdit_ok value r :
  destinationPreconditionFromEdit value = Ok r →
  validDestinationPrecondition (Some r) = true ∧ pre_Presence r = Edit.rp_Presence value ∧
  (pre_Presence r = DestinationAbsent ∨ pre_Presence r = DestinationPresent ∧
     pre_Kind r = Edit.rp_Kind value ∧ pre_Fingerprint r = Edit.rp_Fingerprint value ∧
     pre_ContentSHA256 r = Edit.rp_ContentSHA256 value).
Proof.
  unfold destinationPreconditionFromEdit.
  destruct (String.eqb_spec (Edit.rp_Presence value) Edit.ExpectedAbsent) as [->|].
  { intros [= <-]. split_and!; [done|done|by left]. }
  destruct (String.eqb_spec (Edit.rp_Presence value) Edit.ExpectedPresent) as [->|]; [|done].
  destruct (validDestinationPrecondition _) eqn:E; [|done]. intros [= <-]. split_and!; [done|done|by right].
Qed.

Record sync_accepted (request : SyncBackFreezeRequest) : Prop := {
  sa_session : validateLowerHexIdentity (Edit.sb_SessionID (sfr_SyncBack request)) 32 = true;
  sa_sha : validateLowerHexIdentity (Edit.sb_LocalSHA256 (sfr_SyncBack request)) 64 = true;
  sa_kind : ref_Kind (sfr_Source request) = EntryFile;
  sa_job : is_ok (ParseJobID (id_JobID (sfr_Identity request))) = true;
  sa_endpoint : loc_EndpointID (Edit.sb_Target (sfr_SyncBack request)) ≠ "";
  sa_name : not_one_component (path_Base (loc_Path (Edit.sb_Target (sfr_SyncBack request)))) = false;
}.
Lemma validate_sync_back_ok request : validate_sync_back request = Ok () → sync_accepted request.
Proof.
  unfold validate_sync_back. cbv zeta. intros E.
  destruct (_ || _) eqn:H1 in E; [done|]. destruct (is_ok (Edit.ParseSessionID _)) eqn:H2 in E; [|done].
  cbn [negb] in E. destruct (_ || _) eqn:H3 in E; [done|].
  destruct (is_ok (Edit.ParseSHA256 _)) eqn:H4 in E; [|done]. cbn [negb] in E.
  apply bind_ok in E as ([] & [Hj _ _ _ [He _] Hn _]%map_err_ok%validateFreezeRequest_ok & E).
  destruct (_ || _) eqn:H5 in E; [done|]. clear E.
  apply orb_false_iff in H5 as [[_ H5]%orb_false_iff _]. apply negb_false_iff, String.eqb_eq in H5.
  rewrite edit_session_hex in H2. rewrite edit_sha_hex in H4. by split.
Qed.

(** What a plan of version 2 must be like. *)
Record sync_back_shape (plan : Plan) (expected original : DestinationPrecondition) : Prop := {
  ss_version : plan_Version plan = 2;
  ss_origin : Origin plan = OriginSyncBack;
  ss_session : validateLowerHexIdentity (EditSessionID plan) 32 = true;
  ss_kind : plan_Kind plan = OperationCopy;
  ss_source : ref_Kind (Source plan) = EntryFile;
  ss_policy : ConflictPolicy plan = ConflictOverwrite;
  ss_sha : validateLowerHexIdentity (ExpectedSourceSHA256 plan) 64 = true;
  ss_expected : ExpectedDestination plan = Some expected;
  ss_valid_expected : validDestinationPrecondition (Some expected) = true;
  ss_original : OriginalDestinationPrecondition plan = Some original;
  ss_valid_original : validDestinationPrecondition (Some original) = true;
  ss_directory : DestinationDirectory plan = sync_back_directory (Final plan);
  ss_part : Part plan = childLocation (DestinationDirectory plan)
    (part_name (loc_Path (Final plan)) (plan_JobID plan));
  ss_preserved : PreservedDestination plan =
    if String.eqb (pre_Presence expected) DestinationPresent
    then childLocation (DestinationDirectory plan) (original_name (loc_Path (Final plan)) (plan_JobID plan))
    else Location_zero;
}.
Lemma sync_back_shape_valid plan expected original :
  sync_back_shape plan expected original → invalid_sync_back plan = false.
Proof.
  intros [Hv Ho Hs Hk Hsrc Hp Hsha He Hve Hor Hvo Hd Hpart Hpres]. unfold invalid_sync_back.
  rewrite Ho, Hs, Hk, Hsrc, Hp, Hsha, He, Hve, Hor, Hvo, Hpres. unfold precondition_is.
  rewrite (bool_decide_eq_true_2 (DestinationDirectory plan = _)) by exact Hd.
  rewrite (bool_decide_eq_true_2 (Part plan = _)) by exact Hpart.
  destruct (String.eqb_spec (pre_Presence expected) DestinationPresent) as [->|Hne]; cbn.
  - by rewrite bool_decide_eq_true_2.
  - by rewrite andb_false_r.
Qed.

Record sync_back_rest (plan : Plan) : Prop := {
  sr_source : ep_ID (SourceEndpoint plan) = loc_EndpointID (ref_Location (Source plan));
  sr_destination : ep_ID (DestinationEndpoint plan) = loc_EndpointID (Final plan);
  sr_endpoint : loc_EndpointID (Final plan) ≠ "";
  sr_different : loc_Path (Part plan) ≠ loc_Path (Final plan);
  sr_job : is_ok (ParseJobID (plan_JobID plan)) = true;
  sr_buffer : BufferBytes plan = DefaultBufferBytes;
  sr_stream : plan_StreamPolicy plan = DefaultStreamPolicy;
  sr_durability : Durability plan = "";
  sr_verification : Verification plan = VerifySHA256;
  sr_route : local_or_relay (Route plan) = true;
  sr_evidence : plan_RouteEvidence plan = None;
  sr_server : ServerCopy plan = None;
  sr_helper : SameHostCopy plan = None;
  sr_level2 : Level2Preflight plan = None;
  sr_discovery : Discovery plan = None;
}.
Lemma sync_back_plan_valid plan expected original :
  sync_back_shape plan expected original → sync_back_rest plan → validateExecution plan = Ok ().
Proof.
  intros Hshape [Hsrc Hdst Hne Hdiff Hj Hb Hsp Hdur Hver Hr Hev Hsc Hsh Hl Hdisc].
  pose proof (sync_back_shape_valid _ _ _ Hshape) as Hinv.
  destruct Hshape as [Hv _ _ Hk Hkind Hp _ _ _ _ _ Hd Hpart _].
  assert (loc_EndpointID (Part plan) = loc_EndpointID (Final plan)) as Hpe by by rewrite Hpart, Hd.
  unfold validateExecution, validate_identity, validate_budgets, validate_route, validate_operation.
  rewrite Hv, Hkind, Hsrc, Hdst, Hpe, Hj, Hinv, Hb, Hsp, Hsc, Hsh, Hl, Hdisc, Hk, !String.eqb_refl.
  apply String.eqb_neq in Hne, Hdiff. rewrite Hne, Hdiff. cbn.
  assert (validCompletionPolicy plan = true) as ->.
  { unfold validCompletionPolicy, checkpointSync. rewrite Hdur, Hver, Hv, Hk. cbn.
    by rewrite andb_false_r. }
  cbn. unfold validRouteEvidence. rewrite Hev. unfold local_or_relay in Hr.
  apply orb_true_iff in Hr as [Hr|Hr]; apply String.eqb_eq in Hr; by rewrite Hr.
Qed.

(** The part is not the target. *)
Lemma sync_back_part target job :
  not_one_component (path_Base (loc_Path target)) = false → path_Base (loc_Path target) ≠ "/" →
  is_ok (ParseJobID job) = true →
  loc_Path (childLocation (sync_back_directory target) (part_name (loc_Path target) job)) ≠ loc_Path target.
Proof.
  intros Hn Hb Hj E. destruct (component_name _ Hn Hb) as [Hnn Hns].
  destruct (part_name_ok (loc_Path target) job Hns Hj) as [Hpn Hps].
  pose proof (part_name_longer (loc_Path target) job) as Hl.
  apply (f_equal path_Base) in E. rewrite base_child_location in E; [|cbn|done|done].
  - rewrite E in Hl. lia.
  - apply path_Dir_nonempty.
Qed.

Lemma sync_back_valid {W} (planner : Planner W) request source destination expected original part preserved sb db :
  let target := Edit.sb_Target (sfr_SyncBack request) in
  let job := id_JobID (sfr_Identity request) in
  sync_accepted request → pl_streamPolicy planner = DefaultStreamPolicy →
  validDestinationPrecondition (Some expected) = true → validDestinationPrecondition (Some original) = true →
  ep_ID source = loc_EndpointID (ref_Location (sfr_Source request)) →
  ep_ID destination = loc_EndpointID target →
  path_Base (loc_Path target) ≠ "/" →
  part = childLocation (sync_back_directory target) (part_name (loc_Path target) job) →
  preserved = (if String.eqb (pre_Presence expected) DestinationPresent
    then childLocation (sync_back_directory target) (original_name (loc_Path target) job)
    else Location_zero) →
  validateExecution (sync_back_plan planner request source destination expected original part preserved
    sb db) = Ok ().
Proof.
  intros target job [Hs Hsha Hk Hj He Hn] Hstream Hexp Horig Hsrc Hdst Hbase -> ->.
  apply (sync_back_plan_valid _ expected original); split; try assumption; try reflexivity.
  - by apply sync_back_part.
  - cbn. unfold chooseRoute. by case_match.
Qed.

(** * Deletions *)
Record delete_accepted (request : DeleteFreezeRequest) : Prop := {
  da_confirmed : Confirmed (dfr_Intent request) = true;
  da_job : is_ok (ParseJobID (id_JobID (dfr_Identity request))) = true;
  da_target : loc_EndpointID (ref_Location (del_Target (dfr_Intent request))) ≠ "" ∧
    loc_Path (ref_Location (del_Target (dfr_Intent request))) ≠ "" ∧
    loc_Path (ref_Location (del_Target (dfr_Intent request))) ≠ "/";
  da_kind : ref_Kind (del_Target (dfr_Intent request)) ∈ [EntryFile; EntryDirectory; EntrySymlink];
}.
Lemma validate_delete_ok request : validate_delete request = Ok () → delete_accepted request.
Proof.
  unfold validate_delete. cbv zeta. destruct (Confirmed _) eqn:Hc; [cbn [negb]|done].
  intros ([] & Hj%validate_ids_job & E)%bind_ok. destruct (_ || _) eqn:Hk in E; [done|].
  rewrite !orb_false_iff, !andb_false_iff, !negb_false_iff, !String.eqb_eq, !String.eqb_neq in Hk.
  split; [done|done|tauto|]. rewrite !elem_of_cons. tauto.
Qed.

Lemma delete_marker job :
  is_ok (ParseJobID job) = true →
  let name := ".delete-intent-" +:+ job in normal (chars name) ∧ SLASH ∉ chars name.
Proof.
  intros Hj%job_slashless name. unfold name. rewrite chars_app. split.
  - split_and!; intros E; apply (f_equal length) in E; rewrite length_app in E; cbn in E; lia.
  - rewrite elem_of_app. intros [Hin|Hin]; [|done]. revert Hin.
    fold (not (SLASH ∈ chars ".delete-intent-")). slashless.
Qed.

(** What a deletion's plan must be like. *)
Record delete_shape (plan : Plan) : Prop := {
  ds_identity : validate_identity plan = Ok ();
  ds_kind : plan_Kind plan = OperationDelete ∧ plan_Version plan = 1;
  ds_source : ref_Kind (Source plan) ∈ [EntryFile; EntryDirectory; EntrySymlink];
  ds_root : loc_Path (ref_Location (Source plan)) ≠ "/";
  ds_final : Final plan = ref_Location (Source plan);
  ds_same : same_endpoint plan = true;
  ds_trash : DeleteTrash plan = bool_decide (is_Some (DeleteCapability plan));
  ds_irreversible : DeleteIrreversible plan = negb (DeleteTrash plan);
  ds_buffer : BufferBytes plan = DefaultBufferBytes;
  ds_stream : plan_StreamPolicy plan = StreamPolicy_zero;
  ds_durability : Durability plan = "";
  ds_verification : Verification plan = VerifySHA256;
  ds_route : local_or_relay (Route plan) = true;
  ds_evidence : plan_RouteEvidence plan = None;
  ds_server : ServerCopy plan = None;
  ds_helper : SameHostCopy plan = None;
  ds_level2 : Level2Preflight plan = None;
  ds_discovery : Discovery plan =
    if String.eqb (ref_Kind (Source plan)) EntryDirectory then Some DefaultDiscoveryBudget else None;
}.
Lemma delete_shape_valid plan : delete_shape plan → validateExecution plan = Ok ().
Proof.
  intros [Hi [Hk Hv] Hsrc Hroot Hf Hs Ht Hirr Hb Hsp Hdur Hver Hr He Hsc Hsh Hl Hd].
  unfold validateExecution, validate_budgets, validate_route, validate_operation.
  rewrite Hi, Hb, Hsp, Hsc, Hsh, Hl, Hd, Hk, Hs, Hirr, Ht, (bool_decide_eq_true_2 (Final plan = _)) by done.
  apply String.eqb_neq in Hroot. rewrite Hroot. cbn.
  assert (validCompletionPolicy plan = true) as ->.
  { unfold validCompletionPolicy. rewrite Hdur, Hver, Hv, Hk. cbn. by rewrite andb_false_r. }
  cbn. unfold validRouteEvidence. rewrite He. unfold local_or_relay in Hr.
  rewrite !elem_of_cons in Hsrc. apply orb_true_iff in Hr as [Hr|Hr]; apply String.eqb_eq in Hr; rewrite Hr;
    destruct Hsrc as [-> |[-> |[-> |Hsrc%elem_of_nil] ] ], (DeleteCapability plan); done.
Qed.

Lemma delete_plan_valid request endpoint rb wb trash :
  let target := ref_Location (del_Target (dfr_Intent request)) in
  delete_accepted request → ep_ID endpoint = loc_EndpointID target →
  path_Base (loc_Path target) ≠ ".delete-intent-" +:+ id_JobID (dfr_Identity request) →
  validateExecution (delete_plan request endpoint rb wb trash) = Ok ().
Proof.
  intros target [_ Hj (He & Hp & Hroot) Hk] Hep Hbase.
  set (directory := mkLocation (loc_EndpointID target) (path_Dir (loc_Path target))).
  set (part := childLocation directory (".delete-intent-" +:+ id_JobID (dfr_Identity request))).
  assert (loc_Path part ≠ loc_Path target) as Hdiff.
  { intros E. apply Hbase. rewrite <-E. destruct (delete_marker (id_JobID (dfr_Identity request)) Hj).
    apply base_child_location; [apply path_Dir_nonempty|done|done]. }
  apply delete_shape_valid. split; try assumption; try reflexivity.
  - apply identity_ok; try assumption; try reflexivity. cbn. rewrite !elem_of_cons in Hk.
    destruct Hk as [Hk|[Hk|[Hk|Hk%elem_of_nil] ] ]; try done; tauto.
  - done.
  - apply String.eqb_refl.
  - cbn. unfold chooseRoute. by case_match.
Qed.
