(* ===== verification/PlannerFacts.v ===== *)
(** What the planner sees while it freezes a plan, and what the plan owes to it. *)
From S2P Require Import Prelude TokenBucket Domain GoPath Provider DirectProtocol Bandwidth Plan Job.
From S2P Require Import PlanRecord Checkpoint Effects Logic Mutation NameFacts Planner PlanReady.
From S2P Require CacheRecords Edit.

(** * What planning sees

    Planning asks for snapshots and looks at entries; it changes nothing. *)
Definition reading (e : event) : Prop :=
  match e with EvSnapshot _ _ | EvStat _ _ => True | _ => False end.
Definition seen (h : list event) (l : Location) (entry : Entry) : Prop :=
  EvStat (mkStatRequest l false) (Ok entry) ∈ h.
Definition missing (h : list event) (l : Location) : Prop :=
  ∃ err, EvStat (mkStatRequest l false) (Err err) ∈ h ∧ IsCode err CodeNotFound = true.

Lemma seen_mono h h' l entry : h `prefix_of` h' → seen h l entry → seen h' l entry.
Proof. intros [t ->] H. apply elem_of_app. by left. Qed.
Lemma missing_mono h h' l : h `prefix_of` h' → missing h l → missing h' l.
Proof. intros [t ->] (err & H & Hc). exists err. split; [|done]. apply elem_of_app. by left. Qed.

Section Planning.
Context {W : Type} (planner : Planner W).
Local Abbreviation looks := (runs (W := W) (λ _, reading)).

(** The provider that the planner uses for an endpoint. *)
Definition resolves (endpointID : string) (p : Provider W) : Prop :=
  ∃ Resolve, pl_resolver planner = Some Resolve ∧ Resolve endpointID = Ok p.

Lemma looks_resolve h endpointID :
  looks h (resolve planner endpointID) (returning (λ p _, resolves endpointID p)).
Proof.
  unfold resolve. destruct (pl_resolver planner) as [Resolve|] eqn:E; [|by apply runs_throw].
  apply runs_lift. destruct (Resolve endpointID) eqn:Er; [|done]. by exists Resolve.
Qed.
Lemma looks_stat h p l : looks h (stat p l) (returning (λ entry h', seen h' l entry)).
Proof.
  apply runs_Stat. intros [entry|e]; (split; [done|]); [|done].
  apply elem_of_app. right. by left.
Qed.
Lemma looks_locationExists h p l :
  looks h (locationExists p l)
    (returning (λ (b : bool) h', if b then ∃ entry, seen h' l entry else missing h' l)).
Proof.
  unfold locationExists. apply runs_bind, runs_attempt, runs_Stat. intros [entry|e]; (split; [done|]); cbn [then_]; cbv beta iota.
  - apply runs_ret. exists entry. apply elem_of_app. right. by left.
  - destruct (IsCode e CodeNotFound) eqn:E; [|by apply runs_throw]. apply runs_ret.
    exists e. split; [|done]. apply elem_of_app. right. by left.
Qed.
Lemma looks_requireCapability h p operation l name :
  looks h (requireCapability p operation l name)
    (returning (λ sc _, Capability_Lookup (es_Capabilities sc.1) name = Some sc.2)).
Proof.
  unfold requireCapability. apply runs_bind, runs_Snapshot. intros [snapshot|e]; (split; [done|]); [|done].
  cbn [then_]. do 2 past. destruct (Capability_Lookup _ _) eqn:E2; [|by apply runs_throw].
  by apply runs_ret.
Qed.
Lemma looks_require_mutable h p operation l message :
  looks h (require_mutable p operation l message) (returning (λ _ _, is_Some (mutable_facet p))).
Proof.
  unfold require_mutable. destruct (mutable_facet p) as [m|]; [apply runs_ret; by exists m|by apply runs_throw].
Qed.

Definition unchanged (h : list event) (snapshot : EndpointSnapshot) (ref : FileRef) : Prop :=
  (∃ entry, seen h (ref_Location ref) entry ∧ entry_Kind entry = ref_Kind ref ∧
     entry_Fingerprint entry = ref_Fingerprint ref) ∧
  Revision (es_Capabilities snapshot) = ref_CapabilityRevision ref.
Lemma looks_require_unchanged h operation message p snapshot ref :
  looks h (require_unchanged operation message p snapshot ref)
    (returning (λ _ h', unchanged h' snapshot ref)).
Proof.
  unfold require_unchanged. eapply runs_seq; [apply looks_stat|]. intros entry h' _ Hs.
  past_guard E. apply runs_ret. rewrite !orb_false_iff, !negb_false_iff in E.
  destruct E as [[Hk%String.eqb_eq Hf%bool_decide_eq_true] Hr%bool_decide_eq_true].
  split; [|done]. by exists entry.
Qed.
Lemma looks_require_directory h operation message p l :
  looks h (require_directory operation message p l)
    (returning (λ _ h', ∃ entry, seen h' l entry ∧ entry_Kind entry = EntryDirectory)).
Proof.
  unfold require_directory. eapply runs_seq; [apply looks_stat|]. intros entry h' _ Hs.
  past_guard E. apply negb_false_iff, String.eqb_eq in E. apply runs_ret. by exists entry.
Qed.
Lemma looks_require_absent h operation message p l :
  looks h (require_absent operation message p l) (returning (λ _ h', missing h' l)).
Proof.
  unfold require_absent. eapply runs_seq; [apply looks_locationExists|]. intros [|] h' _ Hm.
  - by apply runs_throw.
  - by apply runs_ret.
Qed.
Lemma looks_chooseAutoRename h p directory name :
  looks h (chooseAutoRename p directory name)
    (returning (λ final h', missing h' final ∧ ∃ n, final = childLocation directory
       (rename_candidate (str (TrimSuffix (chars name) (chars (path_Ext name)))) (path_Ext name) n))).
Proof.
  unfold chooseAutoRename. generalize 1%N. generalize 1000%nat. intros tries. revert h.
  induction tries as [|tries IH]; intros h n; cbn [autoRename_loop]; [by apply runs_throw|].
  eapply runs_seq; [apply looks_locationExists|]. intros [|] h' _ Hm; cbn [negb]; [apply IH|].
  apply runs_ret. split; [done|]. by exists n.
Qed.

Lemma looks_source_deletion h p l snapshot :
  looks h (source_deletion p l snapshot) (returning (λ _ _, True)).
Proof.
  unfold source_deletion. eapply runs_seq; [apply looks_requireCapability|].
  intros [s c] h1 _ _. past. eapply runs_seq; [apply looks_require_mutable|]. intros [] h2 _ _.
  by apply runs_ret.
Qed.

(** The final name: the wanted one, unless that is taken and another is chosen. *)
Definition wanted (intent : Intent) : Location :=
  childLocation (int_DestinationDirectory intent) (int_Name intent).
Definition renames_taken (intent : Intent) (taken : bool) : bool :=
  taken && String.eqb (int_ConflictPolicy intent) ConflictAutoRename.
Record chosen (intent : Intent) (taken : bool) (final : Location) (h : list event) : Prop := {
  chosen_taken : if taken then ∃ entry, seen h (wanted intent) entry else missing h (wanted intent);
  chosen_final : if renames_taken intent taken then missing h final else final = wanted intent;
  chosen_name : SLASH ∉ chars (int_Name intent) → normal (chars (int_Name intent)) →
    ∃ name, final = childLocation (int_DestinationDirectory intent) name ∧
      normal (chars name) ∧ SLASH ∉ chars name;
}.
Lemma chosen_mono intent taken final h h' :
  h `prefix_of` h' → chosen intent taken final h → chosen intent taken final h'.
Proof.
  intros Hp [Ht Hf Hn]. split; [..|done].
  - destruct taken; [|by eapply missing_mono]. destruct Ht as [entry ?]. exists entry. by eapply seen_mono.
  - destruct (renames_taken _ _); [by eapply missing_mono|done].
Qed.

Lemma looks_choose_final h p intent :
  looks h (choose_final p intent) (returning (λ r h', chosen intent r.1 r.2 h')).
Proof.
  unfold choose_final. eapply runs_seq; [apply looks_locationExists|]. intros taken h1 _ Ht.
  fold (renames_taken intent taken).
  apply (runs_seq _ _ _ _ (λ final h', chosen intent taken final h')).
  - destruct (renames_taken intent taken) eqn:Er.
    + apply (runs_conseq _ _ _ _ _ (looks_chooseAutoRename h1 p _ _)).
      intros [final| | |] h2 Hp Hf; [|done..]. destruct Hf as [Hm [n ->]].
      split; [| |by intros Hs _; eexists; split; [done|apply rename_candidate_name]].
      * destruct taken; [|by eapply missing_mono]. destruct Ht as [entry ?]. exists entry.
        by eapply seen_mono.
      * by rewrite Er.
    + apply runs_ret. split; [done|by rewrite Er|]. intros Hs Hn. by eexists.
  - intros final h2 _ Hc. past. by apply runs_ret.
Qed.

Lemma looks_trySameHost h plan :
  looks h (trySameHostCopy planner plan)
    (returning (λ plan' _, rerouted plan plan' ∧ (unrouted plan → ready plan'))).
Proof.
  assert (rerouted plan plan ∧ (unrouted plan → ready plan)) as Hsame by by split; [constructor|intros []].
  unfold trySameHostCopy. destruct (pl_sameHost planner) as [prepare|]; [|by apply runs_ret].
  destruct (_ || _) eqn:Hg; [by apply runs_ret|].
  apply orb_false_iff in Hg as [[[Hcopy _]%orb_false_iff Hsm]%orb_false_iff Hssh].
  apply negb_false_iff in Hcopy, Hsm, Hssh.
  apply runs_bind, runs_tick. intros [binding|e]; cbn [then_]; [|by apply runs_ret].
  destruct (validSameHostCopyBinding _ _ _) eqn:Hb; [|by apply runs_ret].
  apply runs_ret. split; [constructor|]. intros Hu. by apply same_host_ready.
Qed.
Lemma looks_tryLevel2 h identity plan :
  looks h (tryLevel2Preflight planner identity plan)
    (returning (λ plan' _, (pl_level2 planner = None → plan' = plan) ∧
       ∃ b r, plan' = plan <| Level2Preflight := b |> <| Route := r |>)).
Proof.
  assert (∃ b r, plan = plan <| Level2Preflight := b |> <| Route := r |>) as Hsame.
  { exists (Level2Preflight plan), (Route plan). by destruct plan. }
  unfold tryLevel2Preflight. destruct (pl_level2 planner) as [preflight|]; [|by apply runs_ret].
  destruct (fp_Size _) as [size|]; [|by apply runs_ret].
  destruct (_ || _); [by apply runs_ret|]. apply runs_bind, runs_tick. intros [nonce|]; cbn [then_];
    [|by apply runs_ret].
  apply runs_bind, runs_tick. intros r. cbn [then_]. apply runs_ret. cbn [returning]. split; [done|].
  destruct r as [result|e]; [destruct (Evaluate _ _ _) as [[[] first]|]|]; eexists _, _; reflexivity.
Qed.

(** ** Copies and moves *)

(** The planner as the program makes it: the default stream policy, no direct
    route, and a provider that knows its own name. *)
Record production : Prop := {
  prod_stream : pl_streamPolicy planner = DefaultStreamPolicy;
  prod_level2 : pl_level2 planner = None;
  prod_names : ∀ endpointID p, resolves endpointID p → ep_ID (Descriptor p) = endpointID;
}.

(** When the frozen plan is known to be executable. *)
Record executable (request : FreezeRequest) : Prop := {
  exec_production : production;
  exec_name : int_Name (fr_Intent request) ≠ "/";
  exec_revision : ref_CapabilityRevision (int_Source (fr_Intent request)) ≠ Revision_zero;
}.

(** What a frozen copy or move comes from. *)
Record frozen (request : FreezeRequest) (plan : Plan) (create : CreateRequest JSON) (h : list event) : Prop := {
  fz_accepted : accepted request;
  fz_asked : ∃ sb db, for_request request (Final plan) (Part plan) sb db plan;
  fz_source : ∃ snapshot, unchanged h snapshot (int_Source (fr_Intent request));
  fz_directory : ∃ entry, seen h (int_DestinationDirectory (fr_Intent request)) entry ∧
    entry_Kind entry = EntryDirectory;
  fz_final : ∃ taken, chosen (fr_Intent request) taken (Final plan) h ∧
    createRequest plan (fr_Identity request) (initial_state taken (fr_Intent request)) = Ok create;
  fz_part : Part plan = childLocation (int_DestinationDirectory (fr_Intent request))
      (part_name (loc_Path (Final plan)) (id_JobID (fr_Identity request))) ∧ missing h (Part plan);
  fz_valid : executable request → validateExecution plan = Ok ();
}.

Lemma looks_FreezeCopy request :
  looks [] (FreezeCopy planner request) (returning (λ pc h, frozen request pc.1 pc.2 h)).
Proof.
  unfold FreezeCopy. cbv zeta. apply runs_bind, runs_lift.
  destruct (validateFreezeRequest request) as [[]|] eqn:Hreq; [|done]. cbn [then_].
  apply validateFreezeRequest_ok in Hreq.
  eapply runs_seq; [apply looks_resolve|]. intros source h1 P1 Hsource.
  eapply runs_seq; [apply looks_resolve|]. intros destination h2 P2 Hdestination.
  eapply runs_seq; [apply looks_requireCapability|]. intros [ss sc] h3 P3 _.
  eapply runs_seq; [apply looks_requireCapability|]. intros [ds dc] h4 P4 _.
  eapply runs_seq; [apply looks_require_mutable|]. intros [] h5 P5 _.
  eapply (runs_seq _ _ _ _ (λ b _, Clipboard (fr_Intent request) = ClipboardCut → is_Some b)).
  { destruct (String.eqb_spec (Clipboard (fr_Intent request)) ClipboardCut).
    - eapply runs_seq; [apply looks_source_deletion|]. intros b h' _ _. apply runs_ret. by eexists.
    - apply runs_ret. by intros ?. }
  intros del h6 P6 Hdel.
  eapply runs_seq; [apply looks_require_unchanged|]. intros [] h7 P7 Hunchanged.
  eapply runs_seq; [apply looks_require_directory|]. intros [] h8 P8 Hdir.
  eapply runs_seq; [apply looks_choose_final|]. intros [taken final] h9 P9 Hchosen. cbn in Hchosen.
  eapply runs_seq; [apply looks_require_absent|]. intros [] h10 P10 Hpart.
  apply runs_bind, runs_lift. destruct (freezeCompletionPolicy _ _) as [p|] eqn:Hp; [|done].
  cbn [then_].
  set (part := childLocation (int_DestinationDirectory (fr_Intent request)) _) in *.
  set (sb := mkBinding (Revision (es_Capabilities ss)) sc) in *.
  set (db := mkBinding (Revision (es_Capabilities ds)) dc) in *.
  set (asked := for_request request final part sb db).
  assert (asked (settle_operation ss p)) as Hasked.
  { eapply settle_operation_asked, freezeCompletionPolicy_asked; [exact Hp|apply copy_plan_asked]. }
  assert (executable request → unrouted (settle_operation ss p)) as Hun.
  { intros [[Hstream _ Hnames] Hname _].
    destruct (component_name _ (acc_name _ Hreq) Hname) as [Hn Hs].
    destruct (chosen_name _ _ _ _ Hchosen Hs Hn) as (name & Hfin & Hnn & Hns).
    eapply unsettled_ready; [| |exact Hp]; [|done]. unfold part. rewrite Hfin.
    apply base_unsettled; auto. }
  apply (runs_seq _ _ _ _ (λ p' _, rerouted (settle_operation ss p) p' ∧ (executable request → ready p'))).
  { destruct (tryServerCopy _ _ _ _) as [p'|] eqn:Htry.
    - apply runs_ret. eapply tryServerCopy_rerouted in Htry as [Hre Hready]. split; [done|].
      intros He. apply Hready; [by apply Hun| | |].
      + by rewrite (for_source_capability _ _ _ _ _ _ Hasked).
      + by rewrite (for_destination_capability _ _ _ _ _ _ Hasked).
      + destruct He as [_ _ Hz], Hunchanged as [_ ->]. done.
    - eapply runs_conseq; [apply looks_trySameHost|]. intros [p'| | |] h' _ H; [|done..].
      destruct H as [H1 H2]. split; auto. }
  intros p' h11 P11 [Hre Hready].
  eapply runs_seq; [apply looks_tryLevel2|]. intros p'' h12 P12 (Hl2 & b & r & E2).
  apply runs_bind, runs_lift. destruct (createRequest _ _ _) as [create|] eqn:Hcreate; [|done].
  cbn [then_]. apply runs_ret. cbn [returning fst snd].
  assert (h7 `prefix_of` h12) as Q7 by (repeat (etrans; [eassumption|]); done).
  assert (asked (settle_route p'')) as Hfinal.
  { apply settle_route_asked. apply (rerouted_asked _ _ _ _ _ _ _ Hre) in Hasked.
    rewrite E2. destruct Hasked. by split. }
  pose proof (for_final _ _ _ _ _ _ Hfinal) as Ef. pose proof (for_part _ _ _ _ _ _ Hfinal) as Ep.
  split; [done|..].
  - rewrite Ef, Ep. by exists sb, db.
  - exists ss. destruct Hunchanged as [(entry & Hs & Hkf) Hr]. split; [|done]. exists entry.
    split; [|done]. by eapply seen_mono.
  - destruct Hdir as (entry & Hs & Hk). exists entry. split; [|done]. eapply seen_mono; [|exact Hs].
    etrans; [exact P9|]. etrans; [exact P10|]. by etrans.
  - exists taken. rewrite Ef. split; [|done]. eapply chosen_mono; [|exact Hchosen].
    etrans; [exact P10|]. by etrans.
  - rewrite Ef, Ep. split; [done|]. eapply missing_mono; [|exact Hpart]. by etrans.
  - intros He. apply settle_route_valid. rewrite Hl2 by apply He. by apply Hready.
Qed.
End Planning.

(** ** Sending back *)
Section SyncBack.
Context {W : Type} (planner : Planner W).
Local Abbreviation looks := (runs (W := W) (λ _, reading)).

Lemma looks_choose_preserved h p target job expected :
  looks h (choose_preserved p target job expected)
    (returning (λ preserved h',
       preserved = (if String.eqb (pre_Presence expected) DestinationPresent
         then childLocation (sync_back_directory target) (original_name (loc_Path target) job)
         else Location_zero) ∧
       (pre_Presence expected = DestinationPresent →
          is_Some (preserver_facet p) ∧ missing h' preserved))).
Proof.
  unfold choose_preserved. destruct (String.eqb_spec (pre_Presence expected) DestinationPresent) as [Hp|Hp].
  - past_guard E. apply negb_false_iff, bool_decide_eq_true in E.
    eapply runs_seq; [apply looks_require_absent|]. intros [] h' _ Hm. by apply runs_ret.
  - apply runs_ret. by split.
Qed.

(** What a frozen sync-back comes from: what was decided in the edit session. *)
Record frozen_sync_back (request : SyncBackFreezeRequest) (plan : Plan) (create : CreateRequest JSON)
    (h : list event) : Prop := {
  fs_accepted : sync_accepted request;
  fs_source : Source plan = sfr_Source request ∧ ∃ snapshot, unchanged h snapshot (sfr_Source request);
  fs_decided : ∃ expected original,
    ExpectedDestination plan = Some expected ∧ OriginalDestinationPrecondition plan = Some original ∧
    destinationPreconditionFromEdit (Edit.sb_DestinationPrecondition (sfr_SyncBack request)) = Ok expected ∧
    destinationPreconditionFromEdit (Edit.sb_OriginalDestinationPrecondition (sfr_SyncBack request)) =
      Ok original ∧
    (pre_Presence expected = DestinationPresent → missing h (PreservedDestination plan));
  fs_target : Final plan = Edit.sb_Target (sfr_SyncBack request) ∧
    DestinationDirectory plan = sync_back_directory (Final plan) ∧
    RequestedName plan = path_Base (loc_Path (Final plan)) ∧ missing h (Part plan);
  fs_sha : ExpectedSourceSHA256 plan = Edit.sb_LocalSHA256 (sfr_SyncBack request);
  fs_session : EditSessionID plan = Edit.sb_SessionID (sfr_SyncBack request) ∧
    create_EditSession create = Some (mkEditSessionBinding (EditSessionID plan)
      (Edit.sb_SessionVersion (sfr_SyncBack request)) (sfr_BindingEventID request) "sync_back_job_bound");
  fs_create : ∃ c, createRequest plan (sfr_Identity request) StateQueued = Ok c ∧
    create = c <| create_EditSession := create_EditSession create |>;
  fs_job : plan_JobID plan = id_JobID (sfr_Identity request) ∧ PlanID plan = id_PlanID (sfr_Identity request) ∧
    FrozenAt plan = truncate_second (id_Now (sfr_Identity request));
  fs_kind : plan_Kind plan = OperationCopy ∧ plan_Version plan = 2;
  fs_valid : production planner → path_Base (loc_Path (Edit.sb_Target (sfr_SyncBack request))) ≠ "/" →
    validateExecution plan = Ok ();
}.

Lemma looks_FreezeSyncBack request :
  looks [] (FreezeSyncBack planner request) (returning (λ pc h, frozen_sync_back request pc.1 pc.2 h)).
Proof.
  unfold FreezeSyncBack. cbv zeta. apply runs_bind, runs_lift.
  destruct (validate_sync_back request) as [[]|] eqn:Hreq; [|done]. cbn [then_].
  apply validate_sync_back_ok in Hreq.
  apply runs_bind, runs_lift. destruct (destinationPreconditionFromEdit _) as [expected|] eqn:Hexp; [|done].
  cbn [then_]. apply runs_bind, runs_lift.
  destruct (destinationPreconditionFromEdit (Edit.sb_OriginalDestinationPrecondition _)) as [original|] eqn:Horig;
    [|done]. cbn [then_].
  eapply runs_seq; [apply looks_resolve|]. intros source h1 P1 Hsource.
  eapply runs_seq; [apply looks_resolve|]. intros destination h2 P2 Hdestination.
  eapply runs_seq; [apply looks_requireCapability|]. intros [ss sc] h3 P3 _.
  eapply runs_seq; [apply looks_requireCapability|]. intros [ds dc] h4 P4 _.
  eapply runs_seq; [apply looks_require_mutable|]. intros [] h5 P5 _.
  eapply runs_seq; [apply looks_require_unchanged|]. intros [] h6 P6 Hunchanged.
  eapply runs_seq; [apply looks_require_directory|]. intros [] h7 P7 Hdir.
  eapply runs_seq; [apply looks_require_absent|]. intros [] h8 P8 Hpart.
  eapply runs_seq; [apply looks_choose_preserved|]. intros preserved h9 P9 [Hpres Hmissing].
  apply runs_bind, runs_lift. destruct (createRequest _ _ _) as [create|] eqn:Hcreate; [|done].
  cbn [then_]. apply runs_ret. cbn [returning fst snd].
  destruct (destinationPreconditionFromEdit_ok _ _ Hexp) as (Hve & _ & _).
  destruct (destinationPreconditionFromEdit_ok _ _ Horig) as (Hvo & _ & _).
  split; try done.
  - split; [done|]. exists ss. destruct Hunchanged as [(entry & Hs & Hkf) Hr]. split; [|done].
    exists entry. split; [|done]. eapply seen_mono; [|exact Hs]. etrans; [exact P7|]. by etrans.
  - exists expected, original. split_and!; try done. intros Hp. by apply Hmissing.
  - split_and!; try done. by eapply missing_mono.
  - exists create. split; [exact Hcreate|done].
  - intros [Hstream _ Hnames] Hbase. apply sync_back_valid; auto.
Qed.
End SyncBack.

(** ** Deletions *)
Section Delete.
Context {W : Type} (planner : Planner W).
Local Abbreviation looks := (runs (W := W) (λ _, reading)).

(** What a frozen deletion comes from.  Without a trash it needs the second
    confirmation. *)
Record frozen_delete (request : DeleteFreezeRequest) (plan : Plan) (create : CreateRequest JSON)
    (h : list event) : Prop := {
  fd_accepted : delete_accepted request;
  fd_target : Source plan = del_Target (dfr_Intent request) ∧ Final plan = ref_Location (Source plan) ∧
    DeleteRecursive plan = Recursive (dfr_Intent request) ∧ plan_Kind plan = OperationDelete;
  fd_seen : ∃ snapshot, unchanged h snapshot (del_Target (dfr_Intent request));
  fd_confirmed : DeleteTrash plan = true ∨ IrreversibleConfirmed (dfr_Intent request) = true;
  fd_create : createDeleteRequest plan (dfr_Identity request) = Ok create;
  fd_job : plan_JobID plan = id_JobID (dfr_Identity request) ∧ PlanID plan = id_PlanID (dfr_Identity request) ∧
    FrozenAt plan = truncate_second (id_Now (dfr_Identity request));
  fd_valid : production planner →
    path_Base (loc_Path (ref_Location (Source plan))) ≠
      ".delete-intent-" +:+ id_JobID (dfr_Identity request) →
    validateExecution plan = Ok ();
}.
Lemma looks_FreezeDelete request :
  looks [] (FreezeDelete planner request) (returning (λ pc h, frozen_delete request pc.1 pc.2 h)).
Proof.
  unfold FreezeDelete. cbv zeta. apply runs_bind, runs_lift.
  destruct (validate_delete request) as [[]|] eqn:Hreq; [|done]. cbn [then_].
  apply validate_delete_ok in Hreq.
  eapply runs_seq; [apply looks_resolve|]. intros p h1 P1 Hp.
  eapply runs_seq; [apply looks_requireCapability|]. intros [ss sc] h2 P2 _.
  eapply runs_seq; [apply looks_requireCapability|]. intros [ds dc] h3 P3 _. past.
  eapply runs_seq; [apply looks_require_mutable|]. intros [] h4 P4 _.
  set (trash := match trash_facet p with Some _ => _ | None => None end).
  past_guard Hconfirmed.
  eapply runs_seq; [apply looks_require_unchanged|]. intros [] h5 P5 Hun.
  apply runs_bind, runs_lift. destruct (createDeleteRequest _ _) as [create|] eqn:Hcreate; [|done].
  cbn [then_]. apply runs_ret. cbn [returning fst snd]. split; try done.
  - by exists ss.
  - cbn. apply andb_false_iff in Hconfirmed as [Ht|Hi]; [left|right]; by apply negb_false_iff.
  - intros [_ _ Hnames] Hbase. apply delete_plan_valid; auto.
Qed.
End Delete.
