(* ===== verification/PlannerTheorems.v ===== *)
(** What a frozen plan is good for: a worker accepts it, it is what was seen and
    confirmed, it is read back as it was, and it survives the store of jobs. *)
From S2P Require Edit.
From S2P Require Import Prelude Job Bandwidth Domain GoPath Provider DirectProtocol Plan PlanRecord.
From S2P Require Import JobTables JobStore JobRetention JobRuns JobRequests Checkpoint Effects Logic.
From S2P Require Import Mutation NameFacts Planner Execute History PlanReady PlannerFacts.

(** * The three ways to freeze a plan *)
Inductive planning :=
| PlanCopy (request : FreezeRequest)
| PlanSyncBack (request : SyncBackFreezeRequest)
| PlanDelete (request : DeleteFreezeRequest).
Definition freeze {W} (planner : Planner W) (p : planning) : M W (Plan * CreateRequest JSON) :=
  match p with
  | PlanCopy request => FreezeCopy planner request
  | PlanSyncBack request => FreezeSyncBack planner request
  | PlanDelete request => FreezeDelete planner request
  end.
Definition identity_of (p : planning) : RequestIdentity :=
  match p with
  | PlanCopy request => fr_Identity request
  | PlanSyncBack request => sfr_Identity request
  | PlanDelete request => dfr_Identity request
  end.
(** The names that planning accepts and execution does not are left out, and so is
    the zero revision, which no provider has. *)
Definition well_named (p : planning) : Prop :=
  match p with
  | PlanCopy request => int_Name (fr_Intent request) ≠ "/" ∧
      ref_CapabilityRevision (int_Source (fr_Intent request)) ≠ Revision_zero
  | PlanSyncBack request => path_Base (loc_Path (Edit.sb_Target (sfr_SyncBack request))) ≠ "/"
  | PlanDelete request => path_Base (loc_Path (ref_Location (del_Target (dfr_Intent request)))) ≠
      ".delete-intent-" +:+ id_JobID (dfr_Identity request)
  end.
Definition clean_absolute (directory : Location) : Prop :=
  clean (chars (loc_Path directory)) = chars (loc_Path directory) ∧
  rooted (chars (loc_Path directory)) = true.

(** What is written of a plan. *)
Record written_down (plan : Plan) (now : Time) (create : CreateRequest JSON) : Prop := {
  wd_written : written plan = true;
  wd_source : create_SourceJSON create = JSONFileRef (strings escape (Source plan));
  wd_payload : create_DestinationJSON create = Some (JSONPlan (strings escape plan));
  wd_columns : create_PlanID create = PlanID plan ∧ create_Kind create = plan_Kind plan ∧
    create_Route create = Route plan ∧ create_Verification create = Verification plan ∧
    create_ConflictPolicy create = ConflictPolicy plan;
  wd_now : create_Now create = now;
  wd_job : create_JobID create = plan_JobID plan;
}.
Lemma createRequest_written plan identity state create :
  createRequest plan identity state = Ok create → written_down plan (id_Now identity) create.
Proof.
  unfold createRequest, Marshal. cbv zeta. intros (s & Hs%map_err_ok & E)%bind_ok.
  apply bind_ok in E as (p & Hp%map_err_ok & [= <-]). destruct (written plan) eqn:Hw; [|done].
  injection Hp as <-. destruct (written (Source plan)); [|done]. injection Hs as <-. by split.
Qed.
Lemma createDeleteRequest_written plan identity create :
  createDeleteRequest plan identity = Ok create → written_down plan (id_Now identity) create.
Proof.
  unfold createDeleteRequest, Marshal. cbv zeta. intros (s & Hs & E)%bind_ok.
  apply bind_ok in E as (p & Hp & [= <-]). destruct (written plan) eqn:Hw; [|done].
  injection Hp as <-. destruct (written (Source plan)); [|done]. injection Hs as <-. by split.
Qed.

(** What every frozen plan is. *)
Record settled (p : planning) (plan : Plan) (create : CreateRequest JSON) : Prop := {
  st_job : plan_JobID plan = id_JobID (identity_of p) ∧ PlanID plan = id_PlanID (identity_of p) ∧
    FrozenAt plan = truncate_second (id_Now (identity_of p));
  st_create : written_down plan (id_Now (identity_of p)) create;
}.

Lemma obeys_each (P : event → Prop) h t : obeys (λ _, P) h t → Forall P t.
Proof. revert h. induction t as [|e t IH]; intros h; cbn; [constructor|]. intros [? ?]. constructor; eauto. Qed.

(** ** The row *)
Lemma time_kept now :
  time_written (truncate_second now) = true →
  time_Unix (Time_Unix now) = truncate_second now.
Proof.
  unfold time_written, truncate_second, time_Unix, Time_Unix, Day, Hour, Minute. intros H.
  pose proof (Z.div_mod now Second ltac:(done)) as Hd. unfold Second in *.
  replace (now / 1000000000 - unixToInternal + unixToInternal) with (now / 1000000000) by lia.
  rewrite i64_small by lia. lia.
Qed.
Lemma DecodePlan_row plan now create job :
  written_down plan now create → FrozenAt plan = truncate_second now →
  DecodePlan (plan_row create) job =
    let back := strings unescape (strings escape plan) in
    _ ← map_err (EWrap "decode transfer plan") (validateExecution back);
    source ← map_err (EWrap "decode transfer plan source") (Marshal JSONFileRef (Source back));
    if negb (String.eqb (plan_JobID back) job) || negb (String.eqb (PlanID back) (PlanID plan)) ||
       negb (same_source source (JSONFileRef (strings escape (Source plan)))) ||
       negb (String.eqb (plan_Kind back) (plan_Kind plan)) ||
       negb (String.eqb (Route back) (Route plan)) ||
       negb (String.eqb (Verification back) (Verification plan)) ||
       negb (String.eqb (ConflictPolicy back) (ConflictPolicy plan)) ||
       negb (FrozenAt back =? FrozenAt plan)
    then Err (EText "decode transfer plan: indexed columns disagree with frozen payload") else Ok back.
Proof.
  intros [Hw Hs Hp (H1 & H2 & H3 & H4 & H5) Hn _] Ht. unfold DecodePlan, plan_row.
  cbn [record_DestinationJSON record_PlanID record_SourceJSON record_Kind record_Route
    record_Verification record_ConflictPolicy record_FrozenAt].
  rewrite Hp, Hs, H1, H2, H3, H4, H5, Hn, time_kept, <-Ht; [done|]. rewrite <-Ht.
  cbn [written json_Plan] in Hw. by apply andb_true_iff in Hw as [_ Hw].
Qed.

Section Theorems.
Context {W : Type} (planner : Planner W).

Lemma freeze_settled p w plan create t w' :
  freeze planner p w = (Returned (plan, create), t, w') →
  settled p plan create ∧
  (production planner → well_named p → validateExecution plan = Ok ()).
Proof.
  destruct p as [request|request|request]; cbn [freeze well_named]; intros E.
  - apply looks_FreezeCopy in E as [_ [_ (sb & db & Ha) _ _ (taken & _ & Hc) _ Hv]].
    destruct Ha as [Hj _ _ _ _ _ _ _ _ _ Hid Ht]. split.
    + split; [done|]. by eapply createRequest_written.
    + intros Hp [Hn Hr]. by apply Hv.
  - apply looks_FreezeSyncBack in E as [_ [_ _ _ _ _ _ (c & Hc & Hcreate) Hj _ Hv]]. cbn [fst snd] in *.
    split; [|done]. split; [done|]. rewrite Hcreate. apply createRequest_written in Hc as [? ? ? ? ? ?].
    by split.
  - apply looks_FreezeDelete in E as [_ [_ (Ht & _) _ _ Hc Hj Hv]]. cbn [fst snd] in *.
    rewrite Ht in Hv. split; [|done]. split; [done|]. by apply createDeleteRequest_written in Hc.
Qed.

Lemma freeze_placed p w plan create t w' :
  freeze planner p w = (Returned (plan, create), t, w') →
  well_named p → clean_absolute (DestinationDirectory plan) → plan_Kind plan ≠ OperationDelete →
  placed plan.
Proof.
  intros E Hn [Hc Hr] Hk. destruct p as [request|request|request]; cbn [freeze well_named] in *.
  - destruct Hn as [Hn _]. apply looks_FreezeCopy in E as [_ [Hreq (sb & db & Ha) _ _ (taken & Hch & _) _ _]].
    destruct (component_name _ (acc_name _ Hreq) Hn) as [Hnn Hs].
    destruct (chosen_name _ _ _ _ Hch Hs Hnn) as (name & Hfin & Hnormal & Hslash). cbn [fst snd] in *.
    rewrite <-(for_directory _ _ _ _ _ _ Ha) in Hfin. split; try done.
    + by rewrite Hfin.
    + rewrite Hfin. unfold childLocation, path_Dir, path_Join. cbn [loc_Path]. rewrite chars_str.
      by rewrite dir_join2, str_chars.
    + by rewrite (for_name _ _ _ _ _ _ Ha).
  - apply looks_FreezeSyncBack in E as [_ [Hacc _ _ (Hf & Hd & Hname & _) _ _ _ _ _ _]].
    cbn [fst snd] in *.
    destruct (component_name _ (sa_name _ Hacc) Hn) as [_ Hs]. split; try done; try by rewrite Hd.
    by rewrite Hname, Hf.
  - by apply looks_FreezeDelete in E as [_ [_ (_ & _ & _ & Hkind) _ _ _ _ _]].
Qed.

(** C9: What is planned can be done, of a planner as the program makes it (the
    default stream policy, no direct route, providers that answer under the name
    they were resolved by) and with names that are not among three degenerate ones.
    Such a copy, move, sync-back or deletion that the planner has frozen passes the
    validation that every run starts with; and if the destination directory of a
    copy, move or sync-back is an absolute, clean path, the final location is where
    the theorems about runs ask it to be, a child of that directory.  The names left
    out ([well_named]) are the destination name slash, which the planner accepts as
    one component and which stands for the directory itself, not for a child of it;
    the zero revision of a source, which no provider has; and the deletion of an
    entry that is named like the job's own marker. *)
Theorem frozen_plan_executes p w plan create t w' :
  freeze planner p w = (Returned (plan, create), t, w') →
  production planner → well_named p →
  validateExecution plan = Ok () ∧
  (clean_absolute (DestinationDirectory plan) → plan_Kind plan ≠ OperationDelete → placed plan).
Proof.
  intros E Hp Hn. destruct (freeze_settled _ _ _ _ _ _ E) as [_ Hv]. split; [by apply Hv|].
  intros Hc Hk. by eapply freeze_placed.
Qed.

(** The row that is created for a frozen plan is decoded to the very plan, if its
    text is UTF-8. *)
Lemma frozen_row_restored p w plan create t w' :
  freeze planner p w = (Returned (plan, create), t, w') →
  production planner → well_named p → utf8_only plan →
  DecodePlan (plan_row create) (id_JobID (identity_of p)) = Ok plan.
Proof.
  intros E Hp Hn Hu. destruct (freeze_settled _ _ _ _ _ _ E) as [[(Hj & _ & Ht) Hc] Hv].
  rewrite (DecodePlan_row _ _ _ _ Hc Ht). cbv zeta. destruct (written_back _ Hu) as [He Hd].
  pose proof (wd_written _ _ _ Hc) as Hw. cbn [written json_Plan] in Hw. rewrite !andb_true_iff in Hw.
  destruct Hw as [[[_ Hw] _] _]. cbn [written json_FileRef] in Hw.
  assert (strings escape (Source plan) = Source plan) as Hs by exact (f_equal Source He).
  rewrite He, Hd, (Hv Hp Hn). unfold Marshal. cbn [written json_FileRef map_err mbind result_bind].
  rewrite Hw, Hj, Hs. cbn. by rewrite (bool_decide_eq_true_2 _ eq_refl), !String.eqb_refl, Z.eqb_refl.
Qed.

(** A plan whose source or destination is not UTF-8 does not survive the store:
    whatever is decoded from its row, it is not the plan, and with such a source
    nothing is. *)
Lemma frozen_plan_not_utf8 p w plan create t w' job plan' :
  freeze planner p w = (Returned (plan, create), t, w') →
  DecodePlan (plan_row create) job = Ok plan' →
  valid (loc_Path (ref_Location (Source plan))) = true ∧
  (valid (loc_Path (Final plan)) = false → loc_Path (Final plan') ≠ loc_Path (Final plan)).
Proof.
  intros E. destruct (freeze_settled _ _ _ _ _ _ E) as [[(_ & _ & Ht) Hc] _].
  rewrite (DecodePlan_row _ _ _ _ Hc Ht). cbv zeta.
  set (back := strings unescape (strings escape plan)). intros ([] & _ & H)%bind_ok.
  apply bind_ok in H as (source & Hs%map_err_ok & H). unfold Marshal in Hs.
  destruct (written (Source back)); [|done]. injection Hs as <-.
  destruct (_ || _) eqn:Hcond in H; [done|]. injection H as <-. split.
  - rewrite !orb_false_iff, !negb_false_iff in Hcond. destruct Hcond as [[[[[[_ Hs] _] _] _] _] _].
    cbn [same_source] in Hs. apply bool_decide_eq_true in Hs.
    apply (f_equal (loc_Path ∘ ref_Location)) in Hs. destruct (valid _) eqn:Hval; [done|].
    by destruct (escape_lossy _ Hval) as [_ []].
  - intros Hval. by apply escape_lossy.
Qed.

(** C8: A copy or move is what was seen: planning only looks; the source it froze
    is the one that was captured, still unchanged, the destination is a directory,
    nothing is at the part, and it is queued without asking only when nothing was
    at the wanted name, or the policy skips, renames to a name where nothing was,
    or overwrites with the confirmation given. *)
Theorem frozen_copy_seen request w o t w' :
  FreezeCopy planner request w = (o, t, w') →
  Forall reading t ∧
  ∀ plan create, o = Returned (plan, create) →
    let intent := fr_Intent request in
    (∃ snapshot, unchanged t snapshot (Source plan)) ∧ Source plan = int_Source intent ∧
    (∃ entry, seen t (DestinationDirectory plan) entry ∧ entry_Kind entry = EntryDirectory) ∧
    missing t (Part plan) ∧
    (create_InitialState create = StateAwaitingConfirmation ∨
     create_InitialState create = StateQueued ∧
       (Final plan = wanted intent ∧ missing t (Final plan) ∨ ConflictPolicy plan = ConflictSkip ∨
        ConflictPolicy plan = ConflictAutoRename ∧ missing t (Final plan) ∨
        ConflictPolicy plan = ConflictOverwrite ∧ ConflictConfirmed intent = true)).
Proof.
  intros E. apply looks_FreezeCopy in E as [Ho HQ]. split; [by eapply obeys_each|].
  intros plan create ->. cbv zeta. destruct HQ as [Hreq (sb & db & Ha) Hsrc Hdir (taken & Hch & Hc) [_ Hpart] _].
  cbn [fst snd app] in *. rewrite (for_source _ _ _ _ _ _ Ha), (for_directory _ _ _ _ _ _ Ha).
  split_and!; [done..|]. rewrite (for_policy _ _ _ _ _ _ Ha).
  assert (create_InitialState create = initial_state taken (fr_Intent request)) as ->.
  { unfold createRequest in Hc. cbv zeta in Hc. apply bind_ok in Hc as (? & _ & Hc).
    by apply bind_ok in Hc as (? & _ & [= <-]). }
  unfold initial_state. destruct (taken && _) eqn:Hask; [by left|right]. split; [done|].
  destruct Hch as [Htaken Hfinal _]. unfold renames_taken in Hfinal. destruct taken; cbn [andb] in *.
  - apply orb_false_iff in Hask as [Hask Hover]. apply String.eqb_neq in Hask.
    destruct (String.eqb_spec (int_ConflictPolicy (fr_Intent request)) ConflictAutoRename) as [Er|Er].
    { right; right; left. done. }
    pose proof (acc_policy _ Hreq) as Hpol. rewrite !elem_of_cons, elem_of_nil in Hpol.
    destruct Hpol as [?|[Ho'|[?|[?|[]]]]]; [done| |by right; left|done].
    right; right; right. split; [done|]. rewrite Ho' in Hover. by apply negb_false_iff.
  - left. rewrite Hfinal. by split.
Qed.
End Theorems.

(** * The planner and the store *)
Section JobPlans.
Context {W : Type} (planner : Planner W) `{Texts JSON}.
Implicit Types (db : DB JSON).

(** C10: A frozen plan survives the store if its text is UTF-8, and otherwise it does
    not.  Once the job that was frozen is in the store, whatever was reported of it
    and whatever other operations follow, until the job is forgotten, there is a
    record of its plan to read.  For a planner as the program makes it and names
    that are not the degenerate ones ([well_named]), the record is decoded to the
    very plan if all its strings are UTF-8.  And of any frozen plan: if its source's
    path is not UTF-8 the record is never decoded, and if its final path is not, what
    is decoded has another one. *)
Theorem frozen_plan_survives p w plan create t w' f db db2 :
  freeze planner p w = (Returned (plan, create), t, w') →
  let job := id_JobID (identity_of p) in
  (Create f create db).1 ≠ db → unforgotten job (Create f create db).1 db2 →
  ∃ record, GetPlan job db2 = Ok record ∧
    (production planner → well_named p → utf8_only plan → DecodePlan record job = Ok plan) ∧
    (∀ name decoded, DecodePlan record name = Ok decoded →
       valid (loc_Path (ref_Location (Source plan))) = true ∧
       (valid (loc_Path (Final plan)) = false → loc_Path (Final decoded) ≠ loc_Path (Final plan))).
Proof.
  intros E job Heff Hrun. exists (plan_row create). split_and!.
  - destruct (freeze_settled _ _ _ _ _ _ _ E) as [[(Hj & _) Hc] _].
    assert (create_JobID create = job) as Hjob by (rewrite (wd_job _ _ _ Hc); exact Hj).
    rewrite <-Hjob. by eapply created_plan_read; [|rewrite Hjob].
  - intros Hp Hn Hu. by eapply frozen_row_restored.
  - intros name decoded Hd. by eapply frozen_plan_not_utf8.
Qed.
End JobPlans.
