(* ===== verification/TuiModel.v ===== *)
(** The state of the terminal interface (src/internal/tui/model.go, picker.go and
    sanitize.go): text as Go handles it, fuzzy matching and stable sorting; the
    panes, with the rows that are visible and what is selected; previews, searches,
    drawers, dialogs, the clipboard and the model that holds them; the intents the
    interface answers with; keys and actions.

    A Go value that a method changes through a pointer to a local copy is a value
    here; the slice of visible rows is rebuilt in the storage of the model before,
    which nothing reads any more.  [unicode_ToLower] is the lower case of a rune
    above ASCII, from the tables of package unicode.  The constants of a mode, a
    key, an intent's kind and the like are constructors; [ModeUnset] is the zero
    value of a mode.  A pane's number is a uint8: 0 and 1 are the panes, and an
    index outside them panics; handlers check the number of an action, and the
    active pane is one of the two ([panes_hold] in TuiTheorems.v). *)
From stdpp Require Import pretty.
From S2P Require Import Prelude Domain Utf8 Preview GoPath Plan JobTables JobStore.
From S2P Require CacheRecords Edit Planner.

(** * Text *)
Class Unicode := unicode_ToLower : Z → Z.

(** [utf8.AppendRune]. *)
Definition AppendRune (r : Z) : list byte :=
  let byte1 z := byte_of_Z z in
  let cont n := byte_of_Z (Z.lor 128 (Z.land (Z.shiftr r n) 63)) in
  let three r := [byte_of_Z (Z.lor 224 (Z.shiftr r 12));
                  byte_of_Z (Z.lor 128 (Z.land (Z.shiftr r 6) 63));
                  byte_of_Z (Z.lor 128 (Z.land r 63))] in
  if (r <? 0) || (r >? 1114111) then three RuneError else
  if r <? 128 then [byte1 r] else
  if r <? 2048 then [byte1 (Z.lor 192 (Z.shiftr r 6)); cont 0] else
  if (55296 <=? r) && (r <=? 57343) then three RuneError else
  if r <? 65536 then three r else
  [byte1 (Z.lor 240 (Z.shiftr r 18)); cont 12; cont 6; cont 0].

(** [utf8.RuneLen]. *)
Definition RuneLen (r : Z) : Z :=
  if r <? 0 then -1 else if r <? 128 then 1 else if r <? 2048 then 2 else
  if (55296 <=? r) && (r <=? 57343) then -1 else if r <? 65536 then 3 else
  if r <=? 1114111 then 4 else -1.

(** [[]rune(s)] and [string(rs)]. *)
Definition to_runes (s : string) : list Z := runes (String.list_byte_of_string s).
Definition of_runes (rs : list Z) : string := String.string_of_list_byte (rs ≫= AppendRune).

(** [strings.ToLower]: bytes that encode no rune become U+FFFD. *)
Definition lower_rune `{Unicode} (r : Z) : Z :=
  if r <? 128 then (if (65 <=? r) && (r <=? 90) then r + 32 else r) else unicode_ToLower r.
Definition ToLower `{Unicode} (s : string) : string := of_runes (lower_rune <$> to_runes s).

(** [strings.Compare] of two strings, byte by byte. *)
Definition Compare (a b : string) : Z :=
  match String.compare a b with Lt => -1 | Eq => 0 | Gt => 1 end.
(** [strings.Index], on bytes. *)
Fixpoint Index (fuel : nat) (s sub : list ascii) : option Z :=
  if HasPrefix s sub then Some 0 else
  match fuel, s with
  | S fuel, _ :: s => Z.succ <$> Index fuel s sub
  | _, _ => None
  end.
Definition ContainsAny (s : string) (any : list ascii) : bool :=
  existsb (λ c, bool_decide (c ∈ any)) (chars s).
Definition NUL : ascii := "000".
Definition LF : ascii := "010".
Definition CR : ascii := "013".
(** [strings.ContainsAny(s, "\x00\r\n")]. *)
Definition breaks (s : string) : bool := ContainsAny s [NUL; CR; LF].

(** [unicode.IsControl]: the class holds nothing above Latin-1. *)
Definition IsControl (r : Z) : bool :=
  (0 <=? r) && (r <? 32) || (127 <=? r) && (r <? 160).
Definition SanitizeTerminalText (input : string) : string :=
  of_runes ((λ r, if IsControl r then RuneError else r) <$> to_runes input).

(** [sort.SliceStable] for an order that is a strict weak order (see
    [entryLess_strict]): what is not less than an element stays behind it. *)
Fixpoint insert_stable {A} (less : A → A → bool) (x : A) (l : list A) : list A :=
  match l with
  | [] => [x]
  | y :: l' => if less y x then y :: insert_stable less x l' else x :: l
  end.
Definition SliceStable {A} (less : A → A → bool) : list A → list A := foldr (insert_stable less) [].

(** * Fuzzy matching (picker.go) *)

(** The scan of the value's runes, from position [index] on: how many query runes
    have matched, the first and the last place of a match. *)
Fixpoint fuzzy_scan (index : Z) (value query : list Z) (first last : Z) : list Z * Z * Z :=
  match value, query with
  | candidate :: value, q :: query' =>
    if candidate =? q
    then fuzzy_scan (index + 1) value query' (if first <? 0 then index else first) index
    else fuzzy_scan (index + 1) value query first last
  | _, _ => (query, first, last)
  end.

Definition fuzzyScore `{Unicode} (value query : string) : option Z :=
  let value := ToLower value in
  let query := ToLower query in
  if String.eqb query "" then Some 0 else
  if String.eqb value query then Some 0 else
  if HasPrefix (chars value) (chars query) then Some (10 + len value - len query) else
  match Index (String.length value) (chars value) (chars query) with
  | Some index => Some (100 + index + len value - len query)
  | None =>
    let queryRunes := to_runes query in
    let '(rest, first, last) := fuzzy_scan 0 (to_runes value) queryRunes (-1) (-1) in
    match rest with
    | [] => Some (1000 + first + (last - first + 1 - Z.of_nat (length queryRunes)))
    | _ :: _ => None
    end
  end.

(** * The picker (picker.go) *)
Definition PickerWorkspace := "workspace".
Definition PickerHost := "host".
Definition PickerManualHost := "manual_host".
Record PickerChoice := mkChoice {
  pc_Kind : string; pc_Name : string; pc_Recent : Time; pc_Problem : string;
}.
Record Picker := mkPicker {
  pk_choices : list PickerChoice; pk_visible : list PickerChoice; pk_query : string;
  pk_selected : Z; pk_allowManual : bool;
}.
#[export] Instance Picker_eta : Settable Picker :=
  λ p, mkPicker (pk_choices p) (pk_visible p) (pk_query p) (pk_selected p) (pk_allowManual p).

Definition string_lt (a b : string) : bool := match String.compare a b with Lt => true | _ => false end.
Definition choice_less (left right : PickerChoice) : bool :=
  if negb (String.eqb (pc_Kind left) (pc_Kind right)) then String.eqb (pc_Kind left) PickerWorkspace else
  if String.eqb (pc_Kind left) PickerWorkspace && negb (pc_Recent left =? pc_Recent right)
  then pc_Recent left >? pc_Recent right else
  string_lt (pc_Name left) (pc_Name right).

Section Picker.
Context `{Unicode}.

Definition rebuild (p : Picker) : Picker :=
  let visible :=
    if String.eqb (pk_query p) "" then SliceStable choice_less (pk_choices p) else
    let ranked := omap (λ choice, (λ score, (choice, score)) <$> fuzzyScore (pc_Name choice) (pk_query p))
                    (pk_choices p) in
    let ranked := SliceStable (λ left right,
      if negb (left.2 =? right.2) then left.2 <? right.2 else
      string_lt (pc_Name left.1) (pc_Name right.1)) ranked in
    (if pk_allowManual p then [mkChoice PickerManualHost (pk_query p) 0 ""] else []) ++ ranked.*1 in
  p <| pk_visible := visible |>
    <| pk_selected := if (length visible =? 0)%nat then 0
         else Z.min (Z.max (pk_selected p) 0) (Z.of_nat (length visible) - 1) |>.
Definition NewPicker (choices : list PickerChoice) : Picker := rebuild (mkPicker choices [] "" 0 true).
Definition newSelectionPicker (choices : list PickerChoice) : Picker :=
  rebuild (mkPicker choices [] "" 0 false).
Definition SetQuery (p : Picker) (query : string) : Picker :=
  rebuild (p <| pk_query := query |> <| pk_selected := 0 |>).
End Picker.

Definition Picker_Move (p : Picker) (delta : Z) : Picker :=
  if (length (pk_visible p) =? 0)%nat then p <| pk_selected := 0 |> else
  p <| pk_selected := Z.min (Z.max (pk_selected p + delta) 0) (Z.of_nat (length (pk_visible p)) - 1) |>.
Definition Selected (p : Picker) : option PickerChoice :=
  if (pk_selected p <? 0) || (Z.of_nat (length (pk_visible p)) <=? pk_selected p) then None
  else pk_visible p !! Z.to_nat (pk_selected p).

(** * Panes (model.go) *)
Inductive SortKey := SortName | SortSize | SortModified | SortKind.
Record SortState := mkSort { sort_Key : SortKey; sort_Descending : bool }.

Definition CapabilitySnapshot_zero : CapabilitySnapshot := mkCapSnapshot Revision_zero false [].
Record ListingState := mkListing {
  ls_Generation : Z; (* uint64 *) ls_Loading : bool; ls_Complete : bool; ls_Partial : bool;
  ls_Message : string;
  ls_pendingLocation : Location; ls_pendingEndpoint : Endpoint; ls_pendingConnection : string;
  ls_pendingCapabilityGeneration : Z; ls_pendingCapabilities : CapabilitySnapshot;
  ls_commitEndpoint : bool; ls_hasPage : bool; ls_cursorAnchor : Location; ls_hasCursorAnchor : bool;
}.
#[export] Instance ListingState_eta : Settable ListingState := λ l,
  mkListing (ls_Generation l) (ls_Loading l) (ls_Complete l) (ls_Partial l) (ls_Message l)
    (ls_pendingLocation l) (ls_pendingEndpoint l) (ls_pendingConnection l)
    (ls_pendingCapabilityGeneration l) (ls_pendingCapabilities l) (ls_commitEndpoint l)
    (ls_hasPage l) (ls_cursorAnchor l) (ls_hasCursorAnchor l).
Definition ListingState_zero : ListingState :=
  mkListing 0 false false false "" Location_zero Endpoint_zero "" 0 CapabilitySnapshot_zero false false
    Location_zero false.

Record PaneState := mkPane {
  pane_Endpoint : Endpoint; pane_Location : Location; pane_Entries : list Entry; pane_Cursor : Z;
  pane_Filter : string; pane_Sort : SortState; pane_ShowHidden : bool; pane_Listing : ListingState;
  pane_Connection : string; pane_CapabilityGeneration : Z; pane_Capabilities : CapabilitySnapshot;
  pane_visible : list nat; pane_marks : gset Location; pane_visualAnchor : Location;
  pane_visualAnchorView : Z; pane_hasVisualAnchor : bool;
}.
#[export] Instance PaneState_eta : Settable PaneState := λ p,
  mkPane (pane_Endpoint p) (pane_Location p) (pane_Entries p) (pane_Cursor p) (pane_Filter p)
    (pane_Sort p) (pane_ShowHidden p) (pane_Listing p) (pane_Connection p)
    (pane_CapabilityGeneration p) (pane_Capabilities p) (pane_visible p) (pane_marks p)
    (pane_visualAnchor p) (pane_visualAnchorView p) (pane_hasVisualAnchor p).

(** domain/endpoint.go *)
Definition StateReady := "ready".
Definition StateDegraded := "degraded".

Definition NewPaneState (endpoint : Endpoint) (location : Location) : PaneState :=
  mkPane endpoint location [] 0 "" (mkSort SortName false) false ListingState_zero StateReady 0
    CapabilitySnapshot_zero [] ∅ Location_zero 0 false.

Definition Metadata_zero : Metadata := mkMetadata None None None None None None None.
Definition Entry_zero : Entry := mkEntry Location_zero "" "" Metadata_zero Fingerprint_zero None.

Definition VisibleCount (p : PaneState) : Z := Z.of_nat (length (pane_visible p)).
(** An index outside the entries panics; [visible_entries] (TuiFacts.v) shows that
    there is none. *)
Definition visibleEntry (p : PaneState) (index : Z) : Entry :=
  if (index <? 0) || (VisibleCount p <=? index) then Entry_zero else
  default Entry_zero (i ← pane_visible p !! Z.to_nat index; pane_Entries p !! i).
Definition VisibleNames (p : PaneState) : list string :=
  (λ index, entry_Name (visibleEntry p (Z.of_nat index))) <$> seq 0 (length (pane_visible p)).

Definition currentLocation (p : PaneState) : option Location :=
  if (VisibleCount p =? 0) || (pane_Cursor p <? 0) || (VisibleCount p <=? pane_Cursor p) then None
  else Some (entry_Location (visibleEntry p (pane_Cursor p))).

Definition location_less (a b : Location) : bool :=
  if negb (String.eqb (loc_EndpointID a) (loc_EndpointID b))
  then string_lt (loc_EndpointID a) (loc_EndpointID b)
  else string_lt (loc_Path a) (loc_Path b).
(** The rows between the visual anchor and the cursor. *)
Definition visual_rows (p : PaneState) : list Z :=
  let start := Z.max 0 (Z.min (pane_visualAnchorView p) (pane_Cursor p)) in
  let stop := Z.min (Z.max (pane_visualAnchorView p) (pane_Cursor p)) (VisibleCount p - 1) in
  (λ k, start + Z.of_nat k) <$> seq 0 (Z.to_nat (stop - start + 1)).
Definition SelectedLocations (p : PaneState) : list Location :=
  let selected := pane_marks p ∪
    (if pane_hasVisualAnchor p && negb (VisibleCount p =? 0)
     then list_to_set ((λ index, entry_Location (visibleEntry p index)) <$> visual_rows p) else ∅) in
  SliceStable location_less (elements selected).
Definition selectedAt (p : PaneState) (index : Z) : bool :=
  if (index <? 0) || (VisibleCount p <=? index) then false else
  if bool_decide (entry_Location (visibleEntry p index) ∈ pane_marks p) then true else
  if negb (pane_hasVisualAnchor p) then false else
  let start := Z.min (pane_visualAnchorView p) (pane_Cursor p) in
  let stop := Z.max (pane_visualAnchorView p) (pane_Cursor p) in
  (start <=? index) && (index <=? stop).

Definition compareKnown (left right : bool) : Z :=
  if Bool.eqb left right then 0 else if left then -1 else 1.
(** The comparison, and whether it is about which of the two is missing. *)
Definition compareOptionalUint64 (left right : option Z) : Z * bool :=
  match left, right with
  | Some l, Some r => if l <? r then (-1, false) else if l >? r then (1, false) else (0, false)
  | None, None => (0, false)
  | _, _ => (compareKnown (bool_decide (is_Some left)) (bool_decide (is_Some right)), true)
  end.
Definition compareEntries `{Unicode} (left right : Entry) (key : SortKey) : Z * bool :=
  match key with
  | SortSize => compareOptionalUint64 (md_Size (entry_Metadata left)) (md_Size (entry_Metadata right))
  | SortModified =>
    match md_ModifiedAt (entry_Metadata left), md_ModifiedAt (entry_Metadata right) with
    | Some l, Some r => (if l <? r then -1 else if l >? r then 1 else 0, false)
    | None, None => (0, false)
    | l, r => (compareKnown (bool_decide (is_Some l)) (bool_decide (is_Some r)), true)
    end
  | SortKind => (Compare (entry_Kind left) (entry_Kind right), false)
  | SortName => (Compare (ToLower (entry_Name left)) (ToLower (entry_Name right)), false)
  end.
Definition entryLess `{Unicode} (s : SortState) (left right : Entry) : bool :=
  let ldir := String.eqb (entry_Kind left) EntryDirectory in
  let rdir := String.eqb (entry_Kind right) EntryDirectory in
  if negb (Bool.eqb ldir rdir) then ldir else
  let '(comparison, missingOrder) := compareEntries left right (sort_Key s) in
  if missingOrder then comparison <? 0 else
  let comparison :=
    if comparison =? 0 then Compare (ToLower (entry_Name left)) (ToLower (entry_Name right))
    else comparison in
  let comparison :=
    if comparison =? 0 then Compare (entry_Name left) (entry_Name right) else comparison in
  if sort_Descending s then comparison >? 0 else comparison <? 0.

Definition clampCursor (p : PaneState) : PaneState :=
  if VisibleCount p =? 0 then p <| pane_Cursor := 0 |>
  else p <| pane_Cursor := Z.min (Z.max (pane_Cursor p) 0) (VisibleCount p - 1) |>.
(** The first visible row with a location. *)
Definition find_row (p : PaneState) (location : Location) : option Z :=
  (Z.of_nat ∘ fst) <$> list_find (λ index, entry_Location (visibleEntry p (Z.of_nat index)) = location)
    (seq 0 (length (pane_visible p))).
Definition rebindVisualAnchor (p : PaneState) : PaneState :=
  if negb (pane_hasVisualAnchor p) then p else
  match find_row p (pane_visualAnchor p) with
  | Some index => p <| pane_visualAnchorView := index |>
  | None => p <| pane_hasVisualAnchor := false |>
  end.
Definition selectPaneLocation (p : PaneState) (location : Location) : PaneState :=
  match find_row p location with
  | Some index => p <| pane_Cursor := index |>
  | None => clampCursor p
  end.
Definition rebindCursorAnchor (p : PaneState) : PaneState :=
  if negb (ls_hasCursorAnchor (pane_Listing p)) then p
  else selectPaneLocation p (ls_cursorAnchor (pane_Listing p)).
Definition pruneMarks (p : PaneState) : PaneState :=
  p <| pane_marks := filter (λ l, l ∈ entry_Location <$> pane_Entries p) (pane_marks p) |>.

Section Panes.
Context `{Unicode}.

(** The score of a row that is shown: hidden files are left out, and with a query
    the entries that do not match it. *)
Definition row_score (p : PaneState) (e : Entry) : option Z :=
  if negb (pane_ShowHidden p) && HasPrefix (chars (entry_Name e)) [DOT] then None else
  if String.eqb (pane_Filter p) "" then Some 0 else fuzzyScore (entry_Name e) (pane_Filter p).
(** A row is the index of an entry; [scores] is filled in for the rows shown. *)
Definition rows (p : PaneState) : list (nat * (Z * Entry)) :=
  omap (λ row, (λ score, (row.1, (score, row.2))) <$> row_score p row.2)
    (imap pair (pane_Entries p)).
Definition row_less (p : PaneState) (left right : nat * (Z * Entry)) : bool :=
  if negb (String.eqb (pane_Filter p) "") && negb (left.2.1 =? right.2.1) then left.2.1 <? right.2.1
  else entryLess (pane_Sort p) left.2.2 right.2.2.
Definition rebuildVisible (p : PaneState) : PaneState :=
  let p := p <| pane_visible := (SliceStable (row_less p) (rows p)).*1 |> in
  rebindVisualAnchor (clampCursor p).
Definition appendEntries (p : PaneState) (entries : list Entry) : PaneState :=
  rebuildVisible (p <| pane_Entries := pane_Entries p ++ entries |>).
End Panes.

(** * The model *)
Abbreviation PaneID := Z (only parsing).
Definition Left : PaneID := 0.
Definition Right : PaneID := 1.
Definition validPane (pane : PaneID) : bool := (pane =? Left) || (pane =? Right).

Inductive Mode :=
| ModeUnset | ModeNormal | ModeFilter | ModeFilenameSearch | ModeContentSearch
| ModeContentSearchConfirm | ModeVisual | ModeVisualLine | ModeAuth | ModeWorkspace | ModePath
| ModeEndpoint | ModeRename | ModeMoveConfirm | ModeDeleteConfirm | ModeCommand | ModeCommandConfirm
| ModeEditDecision | ModeEditSaveAs | ModeEditLaunchConfirm | ModeEditRecovery | ModeCacheClearConfirm.
#[export] Instance Mode_eq_dec : EqDecision Mode.
Proof. solve_decision. Defined.

Definition authAnswerByteLimit : Z := 4096.
Definition PreviewByteLimit : Z := 64 * 1024.
Definition CommandByteLimit : Z := 32 * 1024.
Definition SearchResultLimit : Z := 10000.
Definition MaxRecoverableEditSessions : Z := 64.

(** * Previews *)
(** preview/render.go *)
Definition ViewAuto := "auto".
Definition ViewRawJSON := "raw_json".
Definition ViewMetadata := "metadata".
Definition ToggleView (current : string) (rawJSONAvailable : bool) : string :=
  if String.eqb current "" || String.eqb current ViewAuto
  then (if rawJSONAvailable then ViewRawJSON else ViewMetadata)
  else if String.eqb current ViewRawJSON then ViewMetadata else ViewAuto.

Record PreviewRequestIdentity := mkPreviewIdentity {
  pi_RequestID : string; pi_Pane : PaneID; pi_EndpointSession : string; pi_EndpointGeneration : Z;
  pi_Source : FrozenSource; pi_Mode : string; pi_Offset : Z; pi_RequestedLimit : Z; pi_UIGeneration : Z;
}.
#[export] Instance PreviewRequestIdentity_eq_dec : EqDecision PreviewRequestIdentity.
Proof. solve_decision. Defined.
Definition FrozenSource_zero : FrozenSource := mkFrozenSource Location_zero FrozenFingerprint_zero.
Definition PreviewRequestIdentity_zero : PreviewRequestIdentity :=
  mkPreviewIdentity "" 0 "" 0 FrozenSource_zero "" 0 0 0.

Record PreviewState := mkPreview {
  pv_Generation : Z; pv_Identity : PreviewRequestIdentity; pv_Location : Location;
  pv_Data : list byte; pv_BytesRead : Z; pv_Loading : bool; pv_Truncated : bool; pv_Binary : bool;
  pv_Kind : string; pv_Summary : string; pv_Message : string; pv_View : string; pv_LineOffset : Z;
}.
#[export] Instance PreviewState_eta : Settable PreviewState := λ p,
  mkPreview (pv_Generation p) (pv_Identity p) (pv_Location p) (pv_Data p) (pv_BytesRead p) (pv_Loading p)
    (pv_Truncated p) (pv_Binary p) (pv_Kind p) (pv_Summary p) (pv_Message p) (pv_View p) (pv_LineOffset p).
Definition PreviewState_zero : PreviewState :=
  mkPreview 0 PreviewRequestIdentity_zero Location_zero [] 0 false false false "" "" "" "" 0.

(** [strings.Split(s, "\n")]. *)
Fixpoint split_lines (s : list ascii) : list (list ascii) :=
  match s with
  | [] => [[]]
  | c :: s =>
    if bool_decide (c = LF) then [] :: split_lines s else
    match split_lines s with e :: es => (c :: e) :: es | [] => [[c]] end
  end.
Definition DisplayText (p : PreviewState) : string :=
  if pv_Binary p then "[binary preview omitted]" else
  if negb (String.eqb (pv_Message p) "") then SanitizeTerminalText (pv_Message p) else
  let lines := split_lines (chars (String.string_of_list_byte (pv_Data p))) in
  String.concat (String LF "") (imap (λ index line,
    let line := if (index <? length lines - 1)%nat then TrimSuffix line [CR] else line in
    SanitizeTerminalText (str line)) lines).

(** * Searches (internal/search) *)
Record Options := mkOptions {
  opt_Pattern : string; opt_Target : string; opt_CaseSensitive : bool; opt_IncludeHidden : bool;
  opt_Symlinks : string; opt_Ignore : string; opt_Types : string;
}.
Record Budget := mkSearchBudget {
  bud_PageItems : Z; bud_EventBuffer : Z; bud_ConcurrentLists : Z; bud_MaxDepth : Z; bud_MaxEntries : Z;
  bud_MaxResults : Z; bud_MaxOutputBytes : Z; bud_MaxDuration : Duration;
}.
Record Identity := mkIdentity {
  id_RequestID : string; id_EndpointID : string; id_SessionID : string; id_EndpointGeneration : Z;
  id_UIGeneration : Z; id_Scope : Location; id_Options : Options; id_Budget : Budget;
}.
Record ContentOptions := mkContentOptions {
  copt_Pattern : string; copt_PatternType : string; copt_CaseSensitive : bool;
  copt_IncludeHidden : bool; copt_Binary : string; copt_ContextLines : Z; copt_FileNameContains : string;
}.
Record ContentBudget := mkContentBudget {
  cbud_PageItems : Z; cbud_EventBuffer : Z; cbud_MaxDepth : Z; cbud_MaxEntries : Z; cbud_MaxFiles : Z;
  cbud_MaxResults : Z; cbud_MaxMatchesPerFile : Z; cbud_MaxFileBytes : Z; cbud_MaxReadBytes : Z;
  cbud_MaxSnippetBytes : Z; cbud_MaxOutputBytes : Z; cbud_MaxDuration : Duration;
}.
Record ContentIdentity := mkContentIdentity {
  cid_RequestID : string; cid_EndpointID : string; cid_SessionID : string; cid_EndpointGeneration : Z;
  cid_UIGeneration : Z; cid_Scope : Location; cid_Options : ContentOptions; cid_Budget : ContentBudget;
}.
#[export] Instance Options_eq_dec : EqDecision Options.
Proof. solve_decision. Defined.
#[export] Instance Budget_eq_dec : EqDecision Budget.
Proof. solve_decision. Defined.
#[export] Instance Identity_eq_dec : EqDecision Identity.
Proof. solve_decision. Defined.
#[export] Instance ContentOptions_eq_dec : EqDecision ContentOptions.
Proof. solve_decision. Defined.
#[export] Instance ContentBudget_eq_dec : EqDecision ContentBudget.
Proof. solve_decision. Defined.
#[export] Instance ContentIdentity_eq_dec : EqDecision ContentIdentity.
Proof. solve_decision. Defined.
Definition Identity_zero : Identity :=
  mkIdentity "" "" "" 0 0 Location_zero (mkOptions "" "" false false "" "" "") (mkSearchBudget 0 0 0 0 0 0 0 0).
Definition ContentIdentity_zero : ContentIdentity :=
  mkContentIdentity "" "" "" 0 0 Location_zero (mkContentOptions "" "" false false "" 0 "")
    (mkContentBudget 0 0 0 0 0 0 0 0 0 0 0 0).

Record SearchResult := mkSearchResult { sr_Location : Location; sr_RelativePath : string; sr_Entry : Entry }.
Record SearchProblem := mkProblem { sp_Location : Location; sp_Code : string }.
Record SearchTerminal := mkTerminal {
  st_Status : string; st_StopReason : string; st_Entries : Z; st_Results : Z; st_OutputBytes : Z;
  st_ListCalls : Z;
}.
(** An event carries the value its kind names; the other kinds are ignored. *)
Inductive SearchEventKind :=
| EventResult (result : SearchResult) | EventProblem (problem : SearchProblem)
| EventTerminal (terminal : SearchTerminal) | EventOther.
Record SearchEvent := mkSearchEvent { se_Identity : Identity; se_Kind : SearchEventKind }.
Definition EventCurrent (expected : Identity) (event : SearchEvent) : bool :=
  bool_decide (expected = se_Identity event).
Record ContentResult := mkContentResult {
  ctr_Location : Location; ctr_RelativePath : string; ctr_Line : Z; ctr_Offset : Z; ctr_Snippet : string;
}.
Record ContentProblem := mkContentProblem { ctp_Location : Location; ctp_Code : string; ctp_Reason : string }.
Record ContentTerminal := mkContentTerminal {
  ctt_Status : string; ctt_StopReason : string; ctt_Entries : Z; ctt_Files : Z; ctt_Results : Z;
  ctt_BytesRead : Z; ctt_OutputBytes : Z;
}.
Inductive ContentEventKind :=
| ContentEventResult (result : ContentResult) | ContentEventProblem (problem : ContentProblem)
| ContentEventTerminal (terminal : ContentTerminal) | ContentEventOther.
Record ContentEvent := mkContentEvent { ce_Identity : ContentIdentity; ce_Kind : ContentEventKind }.
Definition ContentEventCurrent (expected : ContentIdentity) (event : ContentEvent) : bool :=
  bool_decide (expected = ce_Identity event).

Record SearchState := mkSearch {
  sh_Identity : Identity; sh_Query : string; sh_Results : list SearchResult;
  sh_Problems : list SearchProblem; sh_Cursor : Z; sh_Loading : bool; sh_Terminal : SearchTerminal;
  sh_Message : string;
}.
#[export] Instance SearchState_eta : Settable SearchState := λ s,
  mkSearch (sh_Identity s) (sh_Query s) (sh_Results s) (sh_Problems s) (sh_Cursor s) (sh_Loading s)
    (sh_Terminal s) (sh_Message s).
Definition SearchState_zero : SearchState :=
  mkSearch Identity_zero "" [] [] 0 false (mkTerminal "" "" 0 0 0 0) "".
Record ContentSearchState := mkContentSearch {
  cs_Identity : ContentIdentity; cs_Query : string; cs_Results : list ContentResult;
  cs_Problems : list ContentProblem; cs_Cursor : Z; cs_Loading : bool; cs_Terminal : ContentTerminal;
  cs_Message : string;
}.
#[export] Instance ContentSearchState_eta : Settable ContentSearchState := λ s,
  mkContentSearch (cs_Identity s) (cs_Query s) (cs_Results s) (cs_Problems s) (cs_Cursor s) (cs_Loading s)
    (cs_Terminal s) (cs_Message s).
Definition ContentSearchState_zero : ContentSearchState :=
  mkContentSearch ContentIdentity_zero "" [] [] 0 false (mkContentTerminal "" "" 0 0 0 0 0) "".

(** * Drawers and dialogs *)
Inductive DrawerMode := DrawerClosed | DrawerPreview | DrawerSearch | DrawerContentSearch | DrawerJobs | DrawerLog.
Inductive FocusTarget := FocusPane | FocusDrawer.
#[export] Instance DrawerMode_eq_dec : EqDecision DrawerMode.
Proof. solve_decision. Defined.
#[export] Instance FocusTarget_eq_dec : EqDecision FocusTarget.
Proof. solve_decision. Defined.
Record DrawerState := mkDrawer { dr_Mode : DrawerMode; dr_Focus : FocusTarget; dr_Rows : Z }.
#[export] Instance DrawerState_eta : Settable DrawerState := λ d, mkDrawer (dr_Mode d) (dr_Focus d) (dr_Rows d).

Record AuthState := mkAuth {
  au_Active : bool; au_ChallengeID : string; au_Endpoint : string; au_Prompt : string; au_Kind : string;
  au_ReturnMode : Mode; au_answer : list Z;
}.
#[export] Instance AuthState_eta : Settable AuthState := λ a,
  mkAuth (au_Active a) (au_ChallengeID a) (au_Endpoint a) (au_Prompt a) (au_Kind a) (au_ReturnMode a)
    (au_answer a).
Definition AuthState_zero : AuthState := mkAuth false "" "" "" "" ModeUnset [].

(** edit/conflict_view.go *)
Record ConflictView := mkConflictView { cv_Text : string; cv_Summary : string; cv_Truncated : bool }.
Record EditDecisionState := mkEditDecision {
  ed_Active : bool; ed_SessionID : string; ed_Pane : PaneID; ed_Location : Location; ed_State : string;
  ed_Message : string; ed_Decision : string; ed_ConflictView : ConflictView;
}.
Definition EditDecisionState_zero : EditDecisionState :=
  mkEditDecision false "" 0 Location_zero "" "" "" (mkConflictView "" "" false).
Record EditLaunchState := mkEditLaunch {
  el_Active : bool; el_SessionID : string; el_Pane : PaneID; el_Location : Location; el_Command : string;
}.
Definition EditLaunchState_zero : EditLaunchState := mkEditLaunch false "" 0 Location_zero "".
Record EditRecoveryItem := mkRecoveryItem {
  ri_SessionID : string; ri_Purpose : string; ri_Location : Location; ri_State : string;
  ri_Lifecycle : string; ri_UpdatedAt : Time; ri_Decision : string; ri_Usable : bool; ri_Diagnostic : string;
}.
Record EditRecoveryState := mkRecovery { er_Items : list EditRecoveryItem; er_Cursor : Z }.
#[export] Instance EditRecoveryState_eta : Settable EditRecoveryState := λ r, mkRecovery (er_Items r) (er_Cursor r).
Inductive CacheClearScope := CacheClearNone | CacheClearWorkspace | CacheClearAll.
Record ClipboardState := mkClipboard {
  cb_Kind : string; cb_Reference : FileRef; cb_References : list FileRef; cb_Generation : Z;
  cb_Capturing : bool; cb_Ready : bool;
}.
#[export] Instance ClipboardState_eta : Settable ClipboardState := λ c,
  mkClipboard (cb_Kind c) (cb_Reference c) (cb_References c) (cb_Generation c) (cb_Capturing c) (cb_Ready c).
Record pendingPasteState := mkPendingPaste {
  pp_Generation : Z; pp_Pane : PaneID; pp_Location : Location; pp_Repetitions : Z; pp_Active : bool;
}.
Definition pendingPasteState_zero : pendingPasteState := mkPendingPaste 0 0 Location_zero 0 false.

(** * Jobs as the daemon shows them *)
(** transfer/performance.go *)
Record TransferPerformance := mkPerformance {
  pf_Chunks : Z; pf_ReadNanoseconds : Z; pf_WriteNanoseconds : Z; pf_SyncNanoseconds : Z;
  pf_StatNanoseconds : Z; pf_CheckpointNanoseconds : Z; pf_StreamingNanoseconds : Z;
  pf_VerifyNanoseconds : Z; pf_CommitNanoseconds : Z; pf_SchedulerNanoseconds : Z;
  pf_VerifiedBytes : Z; pf_ScheduledBytes : Z;
}.
(** transfer/manager.go *)
Record JobView := mkJobView {
  jv_Verification : string; jv_Durability : string; jv_AcknowledgedBytes : Z; jv_ContentVerified : bool;
  jv_Snapshot : Snapshot; jv_Kind : string; jv_Route : string; jv_PlannedRoute : string;
  jv_DowngradedFrom : string; jv_RouteReason : string; jv_RouteEvidence : option RouteEvidence;
  jv_Source : Location; jv_Final : Location; jv_Phase : string; jv_Bytes : Z; jv_DurableBytes : Z;
  jv_VerifiedBytes : Z; jv_BytesTotal : option Z; jv_Items : Z; jv_WaitingReason : string;
  jv_RecentError : string; jv_RecoveryResult : string; jv_Performance : option TransferPerformance;
}.
#[export] Instance JobView_eta : Settable JobView := λ v,
  mkJobView (jv_Verification v) (jv_Durability v) (jv_AcknowledgedBytes v) (jv_ContentVerified v)
    (jv_Snapshot v) (jv_Kind v) (jv_Route v) (jv_PlannedRoute v) (jv_DowngradedFrom v) (jv_RouteReason v)
    (jv_RouteEvidence v) (jv_Source v) (jv_Final v) (jv_Phase v) (jv_Bytes v) (jv_DurableBytes v)
    (jv_VerifiedBytes v) (jv_BytesTotal v) (jv_Items v) (jv_WaitingReason v) (jv_RecentError v)
    (jv_RecoveryResult v) (jv_Performance v).
#[export] Instance Snapshot_eta : Settable Snapshot := λ s,
  mkSnapshot (snap_JobID s) (snap_PlanID s) (snap_State s) (snap_StateVersion s) (snap_NextEventSequence s)
    (snap_PauseRequested s) (snap_CancelRequested s) (snap_RetryAt s) (snap_TerminalSummary s)
    (snap_CreatedAt s) (snap_UpdatedAt s).
Definition Snapshot_zero : Snapshot := mkSnapshot "" "" "" 0 0 false false None None 0 0.
Definition JobView_zero : JobView :=
  mkJobView "" "" 0 false Snapshot_zero "" "" "" "" "" None Location_zero Location_zero "" 0 0 0 None 0
    "" "" "" None.

Definition jobSpeedWindow : Duration := 4 * Second.
Definition maxJobSpeedSamples : nat := 16.
Record jobProgressPoint := mkProgressPoint { pt_bytes : Z; pt_observedAt : Time }.
(** The points in use; the array has room for [maxJobSpeedSamples]. *)
Record jobProgressSample := mkProgressSample {
  ps_bytes : Z; ps_observedAt : Time; ps_bytesPerSecond : Z; ps_rateKnown : bool;
  ps_points : list jobProgressPoint;
}.

(** diagnostic.Record *)
Record Diagnostic := mkDiagnostic {
  dg_Sequence : Z; dg_Time : Time; dg_Level : string; dg_Message : string; dg_Component : string;
  dg_Event : string; dg_EndpointID : string; dg_JobID : string; dg_RequestID : string; dg_ErrorCode : string;
}.

(** * Intents *)
Inductive IntentKind :=
| IntentList | IntentPreview | IntentPreviewCancel | IntentSearchFilename | IntentSearchCancel
| IntentSearchContent | IntentAuthResolve | IntentWorkspaceSave | IntentConnectEndpoint
| IntentReleaseEndpoint | IntentTransferCapture | IntentPrepareDelete | IntentPrepareRename
| IntentCreateCopyJob | IntentCreateDeleteJob | IntentJobList | IntentJobPause | IntentJobResume
| IntentJobCancel | IntentJobResolveConflict | IntentDiagnosticList | IntentEdit | IntentOpenExternal
| IntentEditDecision | IntentEditCheck | IntentEditLaunch | IntentEditRecoverable | IntentEditResume
| IntentCacheClear | IntentCachePolicy | IntentRunCommand | IntentCommandCancel | IntentShell.
#[export] Instance IntentKind_eq_dec : EqDecision IntentKind.
Proof. solve_decision. Defined.

Record Intent := mkIntent {
  i_Kind : IntentKind; i_Pane : PaneID; i_Location : Location; i_Locations : list Location; i_Limit : Z;
  i_AfterSequence : Z; i_ChallengeID : string; i_Answer : string; i_Cancel : bool; i_Name : string;
  i_Endpoint : Endpoint; i_EndpointID : string; i_EndpointSession : string; i_EndpointGeneration : Z;
  i_Connection : string; i_CapabilityGeneration : Z; i_Capabilities : CapabilitySnapshot;
  i_CommitEndpoint : bool; i_Clipboard : string; i_ClipboardGeneration : Z; i_Source : FileRef;
  i_Target : FileRef; i_Recursive : bool; i_Confirmed : bool; i_IrreversibleConfirmed : bool;
  i_JobID : string; i_Resolution : string; i_ApplyAll : bool; i_CommandText : string; i_ShellHome : bool;
  i_PreviewMode : string; i_PreviewOffset : Z; i_PreviewView : string; i_EditSessionID : string;
  i_EditDecision : string; i_SaveAsTarget : Location; i_RefreshAfterEdit : bool;
  i_CacheClearScope : CacheClearScope; i_CachePolicy : string; i_SearchPattern : string;
  i_SearchIdentity : Identity; i_ContentSearchIdentity : ContentIdentity;
}.
#[export] Instance Intent_eta : Settable Intent := λ i,
  mkIntent (i_Kind i) (i_Pane i) (i_Location i) (i_Locations i) (i_Limit i) (i_AfterSequence i)
    (i_ChallengeID i) (i_Answer i) (i_Cancel i) (i_Name i) (i_Endpoint i) (i_EndpointID i)
    (i_EndpointSession i) (i_EndpointGeneration i) (i_Connection i) (i_CapabilityGeneration i)
    (i_Capabilities i) (i_CommitEndpoint i) (i_Clipboard i) (i_ClipboardGeneration i) (i_Source i)
    (i_Target i) (i_Recursive i) (i_Confirmed i) (i_IrreversibleConfirmed i) (i_JobID i) (i_Resolution i)
    (i_ApplyAll i) (i_CommandText i) (i_ShellHome i) (i_PreviewMode i) (i_PreviewOffset i)
    (i_PreviewView i) (i_EditSessionID i) (i_EditDecision i) (i_SaveAsTarget i) (i_RefreshAfterEdit i)
    (i_CacheClearScope i) (i_CachePolicy i) (i_SearchPattern i) (i_SearchIdentity i)
    (i_ContentSearchIdentity i).
(** [Intent{Kind: kind}]. *)
Definition intent (kind : IntentKind) : Intent :=
  mkIntent kind 0 Location_zero [] 0 0 "" "" false "" Endpoint_zero "" "" 0 "" 0 CapabilitySnapshot_zero
    false "" 0 FileRef_zero FileRef_zero false false false "" "" false "" false "" 0 "" "" ""
    Location_zero false CacheClearNone "" "" Identity_zero ContentIdentity_zero.
(** [Intent{Kind: kind, Pane: pane, Location: location}]. *)
Definition intent_at (kind : IntentKind) (pane : PaneID) (location : Location) : Intent :=
  (intent kind) <| i_Pane := pane |> <| i_Location := location |>.

(** * The model *)
Record Model := mkModel {
  m_Panes : PaneState * PaneState; m_Active : PaneID; m_Mode : Mode; m_Count : Z;
  m_Preview : PreviewState; m_Search : SearchState; m_ContentSearch : ContentSearchState;
  m_Auth : AuthState; m_EditDecision : EditDecisionState; m_EditLaunch : EditLaunchState;
  m_EditRecovery : EditRecoveryState; m_Clipboard : ClipboardState; m_Jobs : list JobView;
  m_Diagnostics : list Diagnostic; m_Drawer : DrawerState; m_JobCursor : Z; m_Notice : string;
  m_DeleteConfirmation : Z; m_RecoverableEdits : Z; m_CacheClearScope : CacheClearScope;
  m_CachePolicy : string; m_CommandRunning : bool;
  m_workspaceName : list Z; m_pathInput : list Z; m_endpointPicker : Picker; m_renameInput : list Z;
  m_commandInput : list Z; m_editSaveAs : list Z; m_searchInput : list Z;
  m_jumpAnchor : Location; m_jumpFilter : string; m_hasJumpAnchor : bool;
  m_pendingRename : FileRef; m_pendingDelete : list FileRef; m_pendingMove : list Intent;
  m_pendingPaste : pendingPasteState; m_repeatDelete : list FileRef; m_repeatMove : list Intent;
  m_repeatIntents : list Intent; m_jobProgress : gmap string jobProgressSample;
  m_Width : Z; m_Height : Z;
}.
#[export] Instance Model_eta : Settable Model := λ m,
  mkModel (m_Panes m) (m_Active m) (m_Mode m) (m_Count m) (m_Preview m) (m_Search m) (m_ContentSearch m)
    (m_Auth m) (m_EditDecision m) (m_EditLaunch m) (m_EditRecovery m) (m_Clipboard m) (m_Jobs m)
    (m_Diagnostics m) (m_Drawer m) (m_JobCursor m) (m_Notice m) (m_DeleteConfirmation m)
    (m_RecoverableEdits m) (m_CacheClearScope m) (m_CachePolicy m) (m_CommandRunning m)
    (m_workspaceName m) (m_pathInput m) (m_endpointPicker m) (m_renameInput m) (m_commandInput m)
    (m_editSaveAs m) (m_searchInput m) (m_jumpAnchor m) (m_jumpFilter m) (m_hasJumpAnchor m)
    (m_pendingRename m) (m_pendingDelete m) (m_pendingMove m) (m_pendingPaste m) (m_repeatDelete m)
    (m_repeatMove m) (m_repeatIntents m) (m_jobProgress m) (m_Width m) (m_Height m).

(** [model.Panes[id]] and [model.Panes[id] = pane]. *)
Definition pane_at (m : Model) (id : PaneID) : PaneState :=
  if id =? Left then (m_Panes m).1 else (m_Panes m).2.
Definition set_pane (m : Model) (id : PaneID) (pane : PaneState) : Model :=
  m <| m_Panes := if id =? Left then (pane, (m_Panes m).2) else ((m_Panes m).1, pane) |>.
Definition active_pane (m : Model) : PaneState := pane_at m (m_Active m).

Definition NewModel `{Unicode} (left right : PaneState) : Model :=
  let fresh p := rebuildVisible (p <| pane_visible := [] |>) in
  mkModel (fresh left, fresh right) Left ModeNormal 0 PreviewState_zero SearchState_zero
    ContentSearchState_zero AuthState_zero EditDecisionState_zero EditLaunchState_zero (mkRecovery [] 0)
    (mkClipboard "" FileRef_zero [] 0 false false) [] [] (mkDrawer DrawerClosed FocusPane 6) 0 "" 0 0
    CacheClearNone CacheRecords.PolicyLRU false [] []
    (newSelectionPicker [mkChoice PickerHost "local" 0 ""]) [] [] [] [] Location_zero "" false FileRef_zero
    [] [] pendingPasteState_zero [] [] [] ∅ 0 0.
Definition SetEndpointChoices `{Unicode} (m : Model) (choices : list PickerChoice) : Model :=
  let choices := match choices with [] => [mkChoice PickerHost "local" 0 ""] | _ => choices end in
  m <| m_endpointPicker := newSelectionPicker choices |>.

(** * Keys and actions *)
Inductive Key :=
| KeyTab | KeyParent | KeyDown | KeyUp | KeyTop | KeyBottom | KeyOpen | KeyVisual | KeyVisualLine | KeyMark
| KeyFilter | KeyFilenameSearch | KeyBackspace | KeyEscape | KeySubmit | KeySave | KeySort
| KeyToggleHidden | KeyRefresh | KeyPath | KeyEndpoint | KeyCopy | KeyCut | KeyPaste | KeyDelete | KeyRename
| KeyRepeat | KeyEdit | KeyOpenExternal | KeyEditRecovery | KeyCommand | KeyPreviewDrawer | KeyJobs
| KeyLogDrawer | KeyJobPause | KeyJobResume | KeyJobCancel | KeyConflictOverwrite | KeyConflictSkip
| KeyConflictAutoRename | KeyConflictOverwriteAll | KeyConflictSkipAll | KeyConflictAutoRenameAll.
#[export] Instance Key_eq_dec : EqDecision Key.
Proof. solve_decision. Defined.

Inductive Action :=
| KeyPress (Key : Key)
| CountDigit (Digit : Z (* uint8 *))
| TextInput (Text : string)
| Resize (Width Height : Z)
| BeginListing (Pane : PaneID) (Generation : Z) (Location : Location) (Endpoint : Endpoint)
    (Connection : string) (CapabilityGeneration : Z) (Capabilities : CapabilitySnapshot)
    (CommitEndpoint : bool)
| ListingPage (Pane : PaneID) (Generation : Z) (Entries : list Entry) (Done Partial : bool)
| ListingFailed (Pane : PaneID) (Generation : Z) (Message Code Retry : string) (DaemonLost : bool)
    (Location : Location)
| SetFilter (Pane : PaneID) (Query : string)
| BeginPreview (Generation : Z) (Location : Location) (Identity : PreviewRequestIdentity) (View : string)
| PreviewChunk (Generation : Z) (Identity : PreviewRequestIdentity) (Data : list byte)
    (Done Truncated Rendered : bool) (Kind Summary Message : string)
| PreviewTerminalImage (Generation : Z) (Identity : PreviewRequestIdentity) (Protocol : string)
    (Data : list byte)
| BeginSearch (Identity : Identity)
| SearchEvents (Events : list SearchEvent)
| SearchFailed (Identity : Identity) (Message : string)
| BeginContentSearch (Identity : ContentIdentity)
| ContentSearchEvents (Events : list ContentEvent)
| ContentSearchFailed (Identity : ContentIdentity) (Message : string)
| AuthChallengeReceived (ChallengeID Endpoint Prompt Kind : string)
| PaneConnected (Pane : PaneID) (Endpoint : Endpoint) (Location : Location) (State : string)
    (CapabilityGeneration : Z) (Capabilities : CapabilitySnapshot) (PreserveCommitted : bool)
| PaneConnectionChanged (Pane : PaneID) (State Message : string)
| PaneCapabilitiesRefreshed (Pane : PaneID) (EndpointID : string) (Capabilities : CapabilitySnapshot)
| WorkspaceSaveResult (Name Message : string)
| ClipboardCaptured (Clipboard : string) (Reference : FileRef) (References : list FileRef)
    (Generation : Z) (Message : string)
| DeletePrepared (References : list FileRef) (Message : string)
| RenamePrepared (Reference : FileRef) (Message : string)
| JobCreated (JobID State Message : string)
| JobsLoaded (Jobs : list JobView) (ObservedAt : Time) (Message : string)
| JobUpdated (Snapshot : Snapshot) (Message : string)
| DiagnosticsLoaded (Records : list Diagnostic) (Message : string)
| CommandCompleted (Pane : PaneID) (Location : Location) (ExitCode : Z) (Stdout Stderr : list byte)
    (StdoutDiscarded StderrDiscarded : Z) (EffectUnknown : bool) (Message : string)
| EditSessionObserved (SessionID : string) (Pane : PaneID) (Location : Location)
    (State Message Decision : string) (ConflictView : ConflictView)
| EditLaunchReady (SessionID : string) (Pane : PaneID) (Location : Location) (Command Message : string)
| EditSessionFinished (Pane : PaneID) (Location : Location) (Message : string)
| EditSessionFailed (Pane : PaneID) (Location : Location) (Message : string)
| EditRecoveryLoaded (Count : Z) (Sessions : list EditRecoveryItem) (Message : string)
| CacheCleared (Deleted Protected RemainingBytes : Z) (Message : string).

Definition parentLocation (location : Location) : option Location :=
  let parent := path_Dir (loc_Path location) in
  if String.eqb parent "." || String.eqb parent (loc_Path location) then None
  else Some (mkLocation (loc_EndpointID location) parent).
