(* ===== verification/TuiReducer.v ===== *)
(** The reducer of the terminal interface (src/internal/tui/reducer.go): what text
    and what arrives from the daemon do to the model, and the intents they lead to.

    A handler is a function of the model, as in the source; the function that is
    one long switch there is cut at its modes.  A notice is the text shown. *)
From stdpp Require Import pretty.
From Stdlib Require Import SpecFloat.
From S2P Require Import Prelude Domain Preview GoPath Plan JobTables JobStore TuiModel.
From S2P Require CacheRecords Edit Job Planner.

Definition navigationCountLimit : Z := 1000000.
Definition maxBatchJobIntents : Z := 1024.

Definition mode_is (m : Model) (mode : Mode) : bool := bool_decide (m_Mode m = mode).
Definition notice (m : Model) (text : string) : Model := m <| m_Notice := text |>.
Definition mode (m : Model) (to : Mode) : Model := m <| m_Mode := to |>.

(** * Text *)

(** The bytes of a line typed so far, and what is refused at its end. *)
Definition typed (rs : list Z) : Z := len (of_runes rs).
Definition refuses (text : string) (already limit : Z) : bool :=
  String.eqb text "" || breaks text || (already + len text >? limit).
Definition drop_last (rs : list Z) : list Z := take (length rs - 1) rs.

Definition reduce_search_text (m : Model) (text : string) : Model :=
  if refuses text (typed (m_searchInput m)) 4096 then m
  else m <| m_searchInput := m_searchInput m ++ to_runes text |>.
Definition reduce_save_as_text (m : Model) (text : string) : Model :=
  if refuses text (typed (m_editSaveAs m)) 4096 then m else
  let suggested := loc_Path (ed_Location (m_EditDecision m)) +:+ ".copy" in
  let before := if HasPrefix (chars text) [SLASH] && String.eqb (of_runes (m_editSaveAs m)) suggested
                then [] else m_editSaveAs m in
  m <| m_editSaveAs := before ++ to_runes text |>.
Definition reduce_auth_text (m : Model) (text : string) : Model :=
  let answerBytes := foldl (λ n value, n + RuneLen value) 0 (au_answer (m_Auth m)) in
  if refuses text answerBytes authAnswerByteLimit then m
  else m <| m_Auth := (m_Auth m) <| au_answer := au_answer (m_Auth m) ++ to_runes text |> |>.
Definition reduce_workspace_text (m : Model) (text : string) : Model :=
  if refuses text (typed (m_workspaceName m)) 64 then m
  else m <| m_workspaceName := m_workspaceName m ++ to_runes text |>.
Definition reduce_endpoint_text `{Unicode} (m : Model) (text : string) : Model :=
  if refuses text (len (pk_query (m_endpointPicker m))) 255 then m
  else notice (m <| m_endpointPicker :=
                 SetQuery (m_endpointPicker m) (pk_query (m_endpointPicker m) +:+ text) |>) "".
Definition reduce_rename_text (m : Model) (text : string) : Model :=
  if String.eqb text "" || ContainsAny text [NUL; SLASH; CR; LF] || (typed (m_renameInput m) + len text >? 255)
  then m else m <| m_renameInput := m_renameInput m ++ to_runes text |>.
Definition reduce_command_text (m : Model) (text : string) : Model :=
  if refuses text (typed (m_commandInput m)) CommandByteLimit
  then notice m "command must be one UTF-8 line of at most 32768 bytes"
  else m <| m_commandInput := m_commandInput m ++ to_runes text |>.
Definition reduce_jump_text `{Unicode} (m : Model) (text : string) : Model :=
  if negb (mode_is m ModeFilter) || String.eqb text "" then m <| m_Count := 0 |> else
  let pane := active_pane m in
  if breaks text || (len (pane_Filter pane) + len text >? 255)
  then notice m "entry jump must be one line of at most 255 bytes" else
  let pane := rebuildVisible (pane <| pane_Filter := pane_Filter pane +:+ text |> <| pane_visible := [] |>) in
  set_pane m (m_Active m) (pane <| pane_Cursor := 0 |>).

(** * Previews and boundaries *)
Definition previewIntent (pane_id : PaneID) (pane : PaneState) (entry : Entry) : Intent :=
  (intent_at IntentPreview pane_id (entry_Location entry))
    <| i_Limit := PreviewByteLimit |>
    <| i_EndpointSession := SessionIDOf (Revision (pane_Capabilities pane)) |>
    <| i_EndpointGeneration := Generation (Revision (pane_Capabilities pane)) |>
    <| i_PreviewMode := ReadHead |> <| i_PreviewView := ViewAuto |>.
Definition cursor_entry (m : Model) : Entry := visibleEntry (active_pane m) (pane_Cursor (active_pane m)).
Definition previewable (e : Entry) : bool :=
  String.eqb (entry_Kind e) EntryFile && negb (String.eqb (loc_Path (entry_Location e)) "").
Definition previewOpenIntents (m : Model) (switching : bool) : list Intent :=
  if negb (previewable (cursor_entry m)) then [] else
  (if negb switching && negb (pv_Generation (m_Preview m) =? 0) then [intent IntentPreviewCancel] else []) ++
  [previewIntent (m_Active m) (active_pane m) (cursor_entry m)].
Definition previewRefreshIntents (m : Model) : list Intent :=
  intent IntentPreviewCancel ::
  if previewable (cursor_entry m) then [previewIntent (m_Active m) (active_pane m) (cursor_entry m)] else [].

Definition count_newlines (s : string) : Z := Z.of_nat (length (filter (λ c, c = LF) (chars s))).
Definition reducePreviewKey (m : Model) (key : Key) : Model * list Intent :=
  let pane := active_pane m in
  let entry := cursor_entry m in
  if negb (previewable entry) then (m, []) else
  let preview := m_Preview m in
  let start := (previewIntent (m_Active m) pane entry)
    <| i_PreviewMode := pi_Mode (pv_Identity preview) |>
    <| i_PreviewOffset := pi_Offset (pv_Identity preview) |> <| i_PreviewView := pv_View preview |> in
  let step := ReadChunkBytes in
  let ask (m : Model) (i : Intent) := (m, [intent IntentPreviewCancel; i]) in
  match key with
  | KeyParent | KeyTop => ask m (start <| i_PreviewMode := ReadHead |> <| i_PreviewOffset := 0 |>)
  | KeyOpen | KeyBottom => ask m (start <| i_PreviewMode := ReadTail |> <| i_PreviewOffset := 0 |>)
  | KeyDown =>
    let lineCount := count_newlines (DisplayText preview) + 1 in
    if pv_LineOffset preview <? lineCount - 1
    then (m <| m_Preview := preview <| pv_LineOffset := pv_LineOffset preview + 1 |> |>, []) else
    if negb (pv_Truncated preview) || String.eqb (pi_Mode (pv_Identity preview)) ReadTail then (m, []) else
    let i := start <| i_PreviewMode := ReadRange |> in
    ask m (if i_PreviewOffset i <=? MaxUint64 - step
           then i <| i_PreviewOffset := u64 (i_PreviewOffset i + step) |> else i)
  | KeyUp =>
    if 0 <? pv_LineOffset preview
    then (m <| m_Preview := preview <| pv_LineOffset := pv_LineOffset preview - 1 |> |>, []) else
    if negb (pv_Truncated preview) || String.eqb (pi_Mode (pv_Identity preview)) ReadHead then (m, []) else
    let i := start <| i_PreviewMode := ReadRange |> in
    ask m (i <| i_PreviewOffset := if i_PreviewOffset i >? step then u64 (i_PreviewOffset i - step) else 0 |>)
  | KeyRename =>
    let view := ToggleView (pv_View preview) true in
    ask (m <| m_Preview := preview <| pv_View := view |> |>) (start <| i_PreviewView := view |>)
  | _ => (m, [])
  end.

(** The preview follows the cursor when the drawer shows it. *)
Definition follow_preview (m : Model) (previous : option Location) : list Intent :=
  if bool_decide (dr_Mode (m_Drawer m) = DrawerPreview) &&
     negb (bool_decide (currentLocation (active_pane m) = previous))
  then previewRefreshIntents m else [].
Definition jumpToBoundary (m : Model) (key : Key) : Model * list Intent :=
  let m := (mode m ModeNormal) <| m_pathInput := [] |> in
  if bool_decide (dr_Focus (m_Drawer m) = FocusDrawer) && bool_decide (dr_Mode (m_Drawer m) = DrawerPreview)
  then reducePreviewKey m key else
  let pane := active_pane m in
  let go (cursor : Z) :=
    let m' := set_pane m (m_Active m) (pane <| pane_Cursor := cursor |>) in
    (m', follow_preview m' (currentLocation pane)) in
  match key with
  | KeyTop => go 0
  | KeyBottom => go (Z.max (VisibleCount pane - 1) 0)
  | _ => (m, [])
  end.

(** The path prompt's own shortcuts, before anything is typed. *)
Definition next_policy (policy : string) : string :=
  if String.eqb policy CacheRecords.PolicyLRU then CacheRecords.PolicyEphemeral else
  if String.eqb policy CacheRecords.PolicyEphemeral then CacheRecords.PolicyPinnedOffline
  else CacheRecords.PolicyLRU.
Definition reduce_path_text (m : Model) (text : string) : Model * list Intent :=
  let first := bool_decide (m_pathInput m = []) in
  if first && String.eqb text "g" then jumpToBoundary m KeyTop else
  if first && String.eqb text "/" then
    (notice ((mode m ModeContentSearch) <| m_searchInput := [] |>)
       "slow SFTP content search; bounded remote reads may be expensive", []) else
  if first && String.eqb text "p" then
    let policy := next_policy (m_CachePolicy m) in
    (notice ((mode m ModeNormal) <| m_CachePolicy := policy |>) ("workspace cache policy: " +:+ policy),
     [(intent IntentCachePolicy) <| i_CachePolicy := policy |>]) else
  if first && (String.eqb text "c" || String.eqb text "C") then
    (notice ((mode m ModeCacheClearConfirm)
       <| m_CacheClearScope := if String.eqb text "C" then CacheClearAll else CacheClearWorkspace |>)
       "cache clear only removes currently eligible managed content", []) else
  if first && (String.eqb text "s" || String.eqb text "S") then
    let pane := active_pane m in
    (mode m ModeNormal,
     [(intent_at IntentShell (m_Active m) (pane_Location pane))
        <| i_Endpoint := pane_Endpoint pane |> <| i_ShellHome := String.eqb text "S" |>]) else
  if refuses text (typed (m_pathInput m)) 4096 then (m, [])
  else (m <| m_pathInput := m_pathInput m ++ to_runes text |>, []).

Definition reduce_text `{Unicode} (m : Model) (text : string) : Model * list Intent :=
  if mode_is m ModeFilenameSearch || mode_is m ModeContentSearch then (reduce_search_text m text, []) else
  if mode_is m ModeEditSaveAs then (reduce_save_as_text m text, []) else
  if au_Active (m_Auth m) then (reduce_auth_text m text, []) else
  if mode_is m ModeWorkspace then (reduce_workspace_text m text, []) else
  if mode_is m ModePath then reduce_path_text m text else
  if mode_is m ModeEndpoint then (reduce_endpoint_text m text, []) else
  if mode_is m ModeRename then (reduce_rename_text m text, []) else
  if mode_is m ModeCommand then (reduce_command_text m text, []) else
  (reduce_jump_text m text, []).

Definition reduce_count (m : Model) (digit : Z) : Model :=
  if (digit >? 9) || negb (mode_is m ModeNormal) && negb (mode_is m ModeVisual) && negb (mode_is m ModeVisualLine)
  then m else
  if (m_Count m =? 0) && (digit =? 0) then m else
  if m_Count m >? Z.quot (navigationCountLimit - digit) 10 then m
  else m <| m_Count := m_Count m * 10 + digit |>.

(** * Listings and panes *)
Section Listings.
Context `{Unicode}.

Definition begin_listing (m : Model) (id : PaneID) (generation : Z) (location : Location)
    (endpoint : Endpoint) (connection : string) (capabilityGeneration : Z)
    (capabilities : CapabilitySnapshot) (commitEndpoint : bool) : Model :=
  if negb (validPane id) || (generation =? 0) then m else
  if commitEndpoint && (String.eqb (ep_ID endpoint) "" ||
       negb (String.eqb (loc_EndpointID location) (ep_ID endpoint))) then m else
  let pane := pane_at m id in
  if negb commitEndpoint && negb (String.eqb (loc_EndpointID location) (ep_ID (pane_Endpoint pane))) then m else
  let anchor := currentLocation pane in
  set_pane m id (pane <| pane_Listing :=
    mkListing generation true false false "" location endpoint connection capabilityGeneration
      capabilities commitEndpoint false (default Location_zero anchor) (bool_decide (is_Some anchor)) |>).

Definition clear_pending (l : ListingState) : ListingState :=
  l <| ls_pendingEndpoint := Endpoint_zero |> <| ls_pendingConnection := "" |>
    <| ls_pendingCapabilityGeneration := 0 |> <| ls_pendingCapabilities := CapabilitySnapshot_zero |>
    <| ls_commitEndpoint := false |>.

(** The first page of a listing takes its place in the pane. *)
Definition commit_listing (id : PaneID) (pane : PaneState) : PaneState * list Intent :=
  let l := pane_Listing pane in
  let target := ls_pendingLocation l in
  let '(pane, intents) :=
    if ls_commitEndpoint l then
      let oldEndpoint := pane_Endpoint pane in
      let pane := pane <| pane_Endpoint := ls_pendingEndpoint l |>
        <| pane_Connection := if String.eqb (ls_pendingConnection l) "" then StateReady
                              else ls_pendingConnection l |>
        <| pane_CapabilityGeneration := ls_pendingCapabilityGeneration l |>
        <| pane_Capabilities := ls_pendingCapabilities l |> in
      (pane,
       if String.eqb (ep_Kind oldEndpoint) EndpointSSH &&
          negb (String.eqb (ep_ID oldEndpoint) (ep_ID (pane_Endpoint pane)))
       then [(intent IntentReleaseEndpoint) <| i_Pane := id |> <| i_EndpointID := ep_ID oldEndpoint |>]
       else [])
    else (pane, []) in
  let pane :=
    if negb (bool_decide (target = pane_Location pane)) then
      pane <| pane_Filter := "" |> <| pane_marks := ∅ |> <| pane_hasVisualAnchor := false |>
           <| pane_Listing := (pane_Listing pane) <| ls_hasCursorAnchor := false |> |>
    else pane in
  (pane <| pane_Location := target |> <| pane_Entries := [] |> <| pane_visible := [] |> <| pane_Cursor := 0 |>
        <| pane_Listing := clear_pending ((pane_Listing pane) <| ls_hasPage := true |>) |>,
   intents).

Definition end_listing (pane : PaneState) : PaneState :=
  let complete := negb (ls_Partial (pane_Listing pane)) in
  let pane := pane <| pane_Connection := if complete then StateReady else pane_Connection pane |>
    <| pane_Listing := (pane_Listing pane) <| ls_Loading := false |> <| ls_Complete := complete |>
                       <| ls_pendingLocation := Location_zero |> |> in
  rebindCursorAnchor (rebindVisualAnchor (pruneMarks pane)).

Definition listing_page (m : Model) (id : PaneID) (generation : Z) (entries : list Entry)
    (done partial : bool) : Model * list Intent :=
  if negb (validPane id) || negb (ls_Generation (pane_Listing (pane_at m id)) =? generation) then (m, []) else
  let pane := pane_at m id in
  if negb (ls_hasPage (pane_Listing pane)) &&
     String.eqb (loc_EndpointID (ls_pendingLocation (pane_Listing pane))) "" then (m, []) else
  let '(pane, intents) :=
    if negb (ls_hasPage (pane_Listing pane)) then commit_listing id pane else (pane, []) in
  let pane := rebindCursorAnchor (appendEntries pane entries) in
  let pane := pane <| pane_Listing :=
    (pane_Listing pane) <| ls_Partial := ls_Partial (pane_Listing pane) || partial |> |> in
  let pane := if done then end_listing pane else pane in
  (set_pane m id pane, intents).

Definition listing_failed (m : Model) (id : PaneID) (generation : Z) (message : string) : Model :=
  if negb (validPane id) || negb (ls_Generation (pane_Listing (pane_at m id)) =? generation) then m else
  let pane := pane_at m id in
  let l := pane_Listing pane in
  let partial := ls_hasPage l && negb (bool_decide (pane_Entries pane = [])) in
  let l := clear_pending (l <| ls_Loading := false |> <| ls_Complete := false |> <| ls_Partial := partial |>
    <| ls_Message := message |> <| ls_pendingLocation := Location_zero |>) in
  set_pane m id (pane <| pane_Listing := l |>
    <| pane_Connection := if partial then StateDegraded else pane_Connection pane |>).

Definition set_filter (m : Model) (id : PaneID) (query : string) : Model :=
  if negb (validPane id) then m else
  let pane := pane_at m id in
  let current := currentLocation pane in
  let pane := rebuildVisible (pane <| pane_Filter := query |> <| pane_visible := [] |>) in
  let pane := match current with
              | Some current =>
                match find_row pane current with
                | Some index => pane <| pane_Cursor := index |>
                | None => pane
                end
              | None => pane
              end in
  set_pane m id pane.

Definition pane_connected (m : Model) (id : PaneID) (endpoint : Endpoint) (location : Location)
    (state : string) (capabilityGeneration : Z) (capabilities : CapabilitySnapshot)
    (preserveCommitted : bool) : Model * list Intent :=
  if negb (validPane id) || String.eqb (ep_ID endpoint) "" ||
     negb (String.eqb (loc_EndpointID location) (ep_ID endpoint)) then (m, []) else
  if preserveCommitted then
    let pane := pane_at m id in
    (set_pane m id (pane <| pane_Listing := (pane_Listing pane) <| ls_Message := "" |> |>),
     [(intent_at IntentList id location) <| i_Endpoint := endpoint |> <| i_Connection := state |>
        <| i_CapabilityGeneration := capabilityGeneration |> <| i_Capabilities := capabilities |>
        <| i_CommitEndpoint := true |>])
  else
    (set_pane m id ((NewPaneState endpoint location)
       <| pane_Connection := if String.eqb state "" then StateReady else state |>
       <| pane_CapabilityGeneration := capabilityGeneration |> <| pane_Capabilities := capabilities |>),
     [intent_at IntentList id location]).

Definition connection_changed (m : Model) (id : PaneID) (state message : string) : Model :=
  if negb (validPane id) || String.eqb state "" then m else
  let pane := pane_at m id in
  let l := (pane_Listing pane) <| ls_Message := message |> in
  set_pane m id (pane <| pane_Connection := state |>
    <| pane_Listing := if negb (String.eqb state StateReady) then l <| ls_Loading := false |> else l |>).

Definition capabilities_refreshed (m : Model) (id : PaneID) (endpointID : string)
    (capabilities : CapabilitySnapshot) : Model :=
  if negb (validPane id) || String.eqb endpointID "" then m else
  let pane := pane_at m id in
  if negb (String.eqb (ep_ID (pane_Endpoint pane)) endpointID) ||
     String.eqb (SessionIDOf (Revision (pane_Capabilities pane))) "" ||
     negb (bool_decide (Revision capabilities = Revision (pane_Capabilities pane))) then m else
  set_pane m id (pane <| pane_Capabilities := capabilities |>
    <| pane_CapabilityGeneration := Generation (Revision capabilities) |>).
End Listings.

(** * Previews and searches arriving *)
Definition begin_preview (m : Model) (generation : Z) (location : Location)
    (identity : PreviewRequestIdentity) (view : string) : Model :=
  if generation =? 0 then m else
  if negb (String.eqb (pi_RequestID identity) "") &&
     (negb (pi_UIGeneration identity =? generation) ||
      negb (bool_decide (src_Location (pi_Source identity) = location)) ||
      negb (validPane (pi_Pane identity))) then m else
  m <| m_Preview := PreviewState_zero <| pv_Generation := generation |> <| pv_Identity := identity |>
         <| pv_Location := location |> <| pv_Loading := true |> <| pv_View := view |> |>.

Definition previewIdentityMatches (expected actual : PreviewRequestIdentity) : bool :=
  if String.eqb (pi_RequestID expected) "" && String.eqb (pi_RequestID actual) "" then true
  else bool_decide (expected = actual).
Definition preview_chunk (m : Model) (generation : Z) (identity : PreviewRequestIdentity)
    (data : list byte) (done truncated rendered : bool) (kind summary message : string) : Model :=
  let preview := m_Preview m in
  if negb (pv_Generation preview =? generation) ||
     negb (previewIdentityMatches (pv_Identity preview) identity) then m else
  let remaining := PreviewByteLimit - blen (pv_Data preview) in
  let kept := pv_Data preview ++
    (if 0 <? remaining then take (Z.to_nat (Z.min remaining (blen data))) data else []) in
  let cut := pv_Truncated preview || truncated || (blen data >? remaining) in
  let preview := preview <| pv_Data := kept |> <| pv_BytesRead := blen kept |> <| pv_Truncated := cut |>
    <| pv_Binary := pv_Binary preview || negb rendered && bool_decide (x00 ∈ data) |>
    <| pv_Kind := if String.eqb kind "" then pv_Kind preview else kind |>
    <| pv_Summary := summary |> <| pv_Message := message |> in
  m <| m_Preview := if done || pv_Truncated preview || negb (String.eqb message "")
                    then preview <| pv_Loading := false |> else preview |>.

Definition begin_search (m : Model) (identity : Identity) : Model :=
  if String.eqb (id_RequestID identity) "" ||
     negb (String.eqb (loc_EndpointID (id_Scope identity)) (id_EndpointID identity)) then m else
  m <| m_Search := SearchState_zero <| sh_Identity := identity |>
         <| sh_Query := opt_Pattern (id_Options identity) |> <| sh_Loading := true |> |>
    <| m_Drawer := (m_Drawer m) <| dr_Mode := DrawerSearch |> <| dr_Focus := FocusDrawer |> |>.
Definition search_event (state : SearchState) (event : SearchEvent) : SearchState :=
  if negb (EventCurrent (sh_Identity state) event) then state else
  match se_Kind event with
  | EventResult r => if Z.of_nat (length (sh_Results state)) <? SearchResultLimit
                     then state <| sh_Results := sh_Results state ++ [r] |> else state
  | EventProblem p => if Z.of_nat (length (sh_Problems state)) <? 64
                      then state <| sh_Problems := sh_Problems state ++ [p] |> else state
  | EventTerminal t => state <| sh_Terminal := t |> <| sh_Loading := false |>
  | EventOther => state
  end.
Definition last_index {A} (l : list A) : Z := Z.max 0 (Z.of_nat (length l) - 1).
Definition search_events (m : Model) (events : list SearchEvent) : Model :=
  let state := foldl search_event (m_Search m) events in
  m <| m_Search := state <| sh_Cursor := Z.min (sh_Cursor state) (last_index (sh_Results state)) |> |>.
Definition search_failed (m : Model) (identity : Identity) (message : string) : Model :=
  if negb (bool_decide (identity = sh_Identity (m_Search m))) then m
  else m <| m_Search := (m_Search m) <| sh_Loading := false |> <| sh_Message := message |> |>.

Definition begin_content_search (m : Model) (identity : ContentIdentity) : Model :=
  if String.eqb (cid_RequestID identity) "" ||
     negb (String.eqb (loc_EndpointID (cid_Scope identity)) (cid_EndpointID identity)) then m else
  m <| m_ContentSearch := ContentSearchState_zero <| cs_Identity := identity |>
         <| cs_Query := copt_Pattern (cid_Options identity) |> <| cs_Loading := true |> |>
    <| m_Drawer := (m_Drawer m) <| dr_Mode := DrawerContentSearch |> <| dr_Focus := FocusDrawer |> |>.
Definition content_event (state : ContentSearchState) (event : ContentEvent) : ContentSearchState :=
  if negb (ContentEventCurrent (cs_Identity state) event) then state else
  match ce_Kind event with
  | ContentEventResult r => if Z.of_nat (length (cs_Results state)) <? SearchResultLimit
                            then state <| cs_Results := cs_Results state ++ [r] |> else state
  | ContentEventProblem p => if Z.of_nat (length (cs_Problems state)) <? 64
                             then state <| cs_Problems := cs_Problems state ++ [p] |> else state
  | ContentEventTerminal t => state <| cs_Terminal := t |> <| cs_Loading := false |>
  | ContentEventOther => state
  end.
Definition content_search_events (m : Model) (events : list ContentEvent) : Model :=
  let state := foldl content_event (m_ContentSearch m) events in
  m <| m_ContentSearch := state <| cs_Cursor := Z.min (cs_Cursor state) (last_index (cs_Results state)) |> |>.
Definition content_search_failed (m : Model) (identity : ContentIdentity) (message : string) : Model :=
  if negb (bool_decide (identity = cs_Identity (m_ContentSearch m))) then m
  else m <| m_ContentSearch := (m_ContentSearch m) <| cs_Loading := false |> <| cs_Message := message |> |>.

Definition auth_challenge (m : Model) (challengeID endpoint prompt kind : string) : Model :=
  if au_Active (m_Auth m) || String.eqb challengeID "" || String.eqb prompt "" then m else
  let returnMode := if mode_is m ModeAuth then ModeNormal else m_Mode m in
  (mode m ModeAuth) <| m_Auth := mkAuth true challengeID endpoint prompt kind returnMode [] |>.

(** * The clipboard *)
Definition selectedLocations (p : PaneState) (count : Z) : list Location :=
  let selected := SelectedLocations p in
  if negb (bool_decide (selected = [])) then selected else
  if (VisibleCount p =? 0) || (pane_Cursor p <? 0) || (VisibleCount p <=? pane_Cursor p) then [] else
  let length := if count >? 0 then count else 1 in
  let stop := Z.min (pane_Cursor p + length) (VisibleCount p) in
  omap (λ k, let e := visibleEntry p (pane_Cursor p + Z.of_nat k) in
             if String.eqb (loc_Path (entry_Location e)) "" then None else Some (entry_Location e))
    (seq 0 (Z.to_nat (stop - pane_Cursor p))).

(** The caller gives at least one location. *)
Definition beginClipboardCapture (m : Model) (pane : PaneID) (locations : list Location)
    (clipboard : string) : Model * list Intent :=
  let generation := u64 (cb_Generation (m_Clipboard m) + 1) in
  let generation := if generation =? 0 then 1 else generation in
  (notice (m <| m_Clipboard := mkClipboard clipboard FileRef_zero [] generation true false |>
             <| m_pendingPaste := pendingPasteState_zero |>)
     ("capturing " +:+ pretty (length locations) +:+ " " +:+ clipboard +:+ " source(s)"),
   [(intent_at IntentTransferCapture pane (default Location_zero (head locations)))
      <| i_Locations := locations |> <| i_Clipboard := clipboard |>
      <| i_ClipboardGeneration := generation |>]).

Definition copy_intent (clipboard : string) (pane : PaneID) (location : Location) (reference : FileRef) : Intent :=
  (intent_at IntentCreateCopyJob pane location) <| i_Clipboard := clipboard |>
    <| i_Source := reference |> <| i_Name := path_Base (loc_Path (ref_Location reference)) |>.
Definition pasteClipboard (m : Model) (pane : PaneID) (location : Location) (repetitions : Z) :
    Model * list Intent :=
  let c := m_Clipboard m in
  let references :=
    if bool_decide (cb_References c = []) && negb (String.eqb (loc_Path (ref_Location (cb_Reference c))) "")
    then [cb_Reference c] else cb_References c in
  let repetitions := if repetitions <=? 0 then 1 else repetitions in
  if bool_decide (references = []) ||
     (repetitions >? Z.quot maxBatchJobIntents (Z.of_nat (length references)))
  then (notice m "paste count exceeds the bounded Job batch", []) else
  let intents := mjoin (replicate (Z.to_nat repetitions) (copy_intent (cb_Kind c) pane location <$> references)) in
  if String.eqb (cb_Kind c) Planner.ClipboardCut
  then ((mode m ModeMoveConfirm) <| m_pendingMove := intents |>, [])
  else (m <| m_repeatIntents := intents |> <| m_repeatMove := [] |> <| m_repeatDelete := [] |>, intents).

Definition drop_capture (m : Model) (generation : Z) (text : string) : Model :=
  let m := m <| m_Clipboard := (m_Clipboard m) <| cb_Capturing := false |> <| cb_Ready := false |> |> in
  notice (if pp_Generation (m_pendingPaste m) =? generation
          then m <| m_pendingPaste := pendingPasteState_zero |> else m) text.
Definition clipboard_captured (m : Model) (clipboard : string) (reference : FileRef)
    (references : list FileRef) (given : Z) (message : string) : Model * list Intent :=
  let generation := if given =? 0 then cb_Generation (m_Clipboard m) else given in
  if negb (given =? 0) && negb (given =? cb_Generation (m_Clipboard m)) then (m, []) else
  if negb (String.eqb message "") then (drop_capture m generation message, []) else
  let references :=
    if bool_decide (references = []) && negb (String.eqb (loc_Path (ref_Location reference)) "")
    then [reference] else references in
  match references with
  | [] => (drop_capture m generation "capture returned no source", [])
  | first :: rest =>
    let m := notice (m <| m_Clipboard := mkClipboard clipboard first references generation false true |>)
      (match rest with
       | [] => clipboard +:+ " source captured: " +:+ loc_Path (ref_Location first)
       | _ => clipboard +:+ " sources captured: " +:+ pretty (length references)
       end) in
    let pending := m_pendingPaste m in
    if pp_Active pending && (pp_Generation pending =? generation)
    then pasteClipboard (m <| m_pendingPaste := pendingPasteState_zero |>) (pp_Pane pending)
           (pp_Location pending) (pp_Repetitions pending)
    else (m, [])
  end.

Definition delete_prepared (m : Model) (references : list FileRef) (message : string) : Model :=
  if negb (String.eqb message "") then notice m message else
  if bool_decide (references = []) then notice m "delete preparation returned no target" else
  (mode m ModeDeleteConfirm) <| m_pendingDelete := references |> <| m_DeleteConfirmation := 1 |>.
Definition rename_prepared (m : Model) (reference : FileRef) (message : string) : Model :=
  if negb (String.eqb message "") then notice m message else
  if String.eqb (loc_Path (ref_Location reference)) "" then notice m "rename preparation returned no source" else
  (mode m ModeRename) <| m_pendingRename := reference |> <| m_renameInput := [] |>.

(** * Jobs *)
Definition successfulJobState (state : string) : bool :=
  String.eqb state Job.StateCompleted || String.eqb state Job.StateCompletedWithSourceRetained.
Definition append_parent (locations : list Location) (location : Location) : list Location :=
  match parentLocation location with
  | Some parent => if bool_decide (parent ∈ locations) then locations else locations ++ [parent]
  | None => locations
  end.
Definition completedJobDirectories (view : JobView) : list Location :=
  if String.eqb (jv_Kind view) OperationCopy then append_parent [] (jv_Final view) else
  if String.eqb (jv_Kind view) OperationDelete then append_parent [] (jv_Source view) else
  if String.eqb (jv_Kind view) OperationMove then
    let locations := if String.eqb (snap_State (jv_Snapshot view)) Job.StateCompleted
                     then append_parent [] (jv_Source view) else [] in
    append_parent locations (jv_Final view)
  else [].

(** The panes that show a directory and have not been refreshed yet. *)
Definition refresh_location (m : Model) (acc : list PaneID * list Intent) (location : Location) :
    list PaneID * list Intent :=
  foldl (λ acc id,
    if negb (bool_decide (id ∈ acc.1)) && bool_decide (pane_Location (pane_at m id) = location)
    then (acc.1 ++ [id], acc.2 ++ [intent_at IntentList id location]) else acc) acc [Left; Right].
Definition completedJobRefreshIntents (m : Model) (previous current : list JobView) : list Intent :=
  let previousStates : gmap string string :=
    foldl (λ states view, <[snap_JobID (jv_Snapshot view) := snap_State (jv_Snapshot view)]> states) ∅ previous in
  (foldl (λ acc view,
    if negb (successfulJobState (snap_State (jv_Snapshot view))) ||
       successfulJobState (default "" (previousStates !! snap_JobID (jv_Snapshot view)))
    then acc else foldl (refresh_location m) acc (completedJobDirectories view)) ([], []) current).2.

(** [uint64(float64(bytes) / elapsed.Seconds())] in binary64.  A quotient above the
    uint64 range leaves the result to the implementation: amd64 gives 2^63. *)
Definition float64 (z : Z) : spec_float := binary_normalize 53 1024 z 0 false.
Definition Seconds (d : Duration) : spec_float :=
  SFadd 53 1024 (float64 (Z.quot d Second)) (SFdiv 53 1024 (float64 (Z.rem d Second)) (float64 Second)).
Definition uint64_of (x : spec_float) : Z :=
  match x with
  | S754_finite false p e =>
    let z := Z.shiftl (Zpos p) e in if z <=? MaxUint64 then z else 2 ^ 63
  | S754_zero _ => 0
  | _ => 2 ^ 63
  end.
Definition rate (bytes : Z) (elapsed : Duration) : Z :=
  uint64_of (SFdiv 53 1024 (float64 bytes) (Seconds elapsed)).

(** The window forgets points before its start while more than two are left. *)
Fixpoint drop_before (cutoff : Time) (points : list jobProgressPoint) : list jobProgressPoint :=
  match points with
  | p :: ((_ :: _ :: _) as rest) => if pt_observedAt p <? cutoff then drop_before cutoff rest else points
  | _ => points
  end.
Definition appendJobProgressPoint (prior : option jobProgressSample) (bytes : Z) (observedAt : Time) :
    jobProgressSample :=
  let point := mkProgressPoint bytes observedAt in
  let start := mkProgressSample bytes observedAt 0 false [point] in
  match prior with
  | None => start
  | Some prior =>
    if time_is_zero (ps_observedAt prior) || (bytes <? ps_bytes prior) then start else
    let points := match ps_points prior with
                  | [] => [mkProgressPoint (ps_bytes prior) (ps_observedAt prior)]
                  | points => points
                  end in
    let points := if (length points =? maxJobSpeedSamples)%nat then drop 1 points else points in
    let points := drop_before (observedAt - jobSpeedWindow) (points ++ [point]) in
    match points with
    | first :: _ =>
      let elapsed := time_sub observedAt (pt_observedAt first) in
      if (0 <? elapsed) && (pt_bytes first <=? bytes)
      then mkProgressSample bytes observedAt (rate (bytes - pt_bytes first) elapsed) true points
      else mkProgressSample bytes observedAt 0 false points
    | [] => mkProgressSample bytes observedAt 0 false points
    end
  end.
Definition sampleJobProgress (previous : gmap string jobProgressSample) (jobs : list JobView)
    (observedAt : Time) : gmap string jobProgressSample :=
  foldl (λ samples view,
    let jobID := snap_JobID (jv_Snapshot view) in
    if String.eqb jobID "" then samples else
    let prior := previous !! jobID in
    let keep := match prior with Some prior => <[jobID := prior]> samples | None => samples end in
    if time_is_zero observedAt then keep else
    if match prior with Some prior => observedAt <=? ps_observedAt prior | None => false end then keep else
    <[jobID := appendJobProgressPoint prior (jv_Bytes view) observedAt]> samples) ∅ jobs.

Definition with_state (v : JobView) (state : string) : JobView :=
  v <| jv_Snapshot := (jv_Snapshot v) <| snap_State := state |> |>.
(** The first job of the list with an id is changed. *)
Fixpoint update_job (jobs : list JobView) (jobID : string) (f : JobView → JobView) : option (list JobView) :=
  match jobs with
  | [] => None
  | v :: jobs =>
    if String.eqb (snap_JobID (jv_Snapshot v)) jobID then Some (f v :: jobs)
    else cons v <$> update_job jobs jobID f
  end.
Definition job_created (m : Model) (jobID state message : string) : Model * list Intent :=
  let m := notice m (if negb (String.eqb message "") then message
                     else "Job queued: " +:+ jobID +:+ " (" +:+ state +:+ ")") in
  if String.eqb jobID "" then (m, []) else
  let view := JobView_zero <| jv_Snapshot := Snapshot_zero <| snap_JobID := jobID |> <| snap_State := state |> |> in
  (m <| m_Jobs := default (m_Jobs m ++ [view]) (update_job (m_Jobs m) jobID (λ v, with_state v state)) |>,
   [intent IntentJobList]).
Definition jobs_loaded (m : Model) (jobs : list JobView) (observedAt : Time) (message : string) :
    Model * list Intent :=
  if negb (String.eqb message "") then (notice m message, []) else
  (m <| m_jobProgress := sampleJobProgress (m_jobProgress m) jobs observedAt |> <| m_Jobs := jobs |>
     <| m_JobCursor := Z.min (m_JobCursor m) (last_index jobs) |>,
   completedJobRefreshIntents m (m_Jobs m) jobs).
Definition job_updated (m : Model) (snapshot : Snapshot) (message : string) : Model * list Intent :=
  let jobs := default (m_Jobs m)
    (update_job (m_Jobs m) (snap_JobID snapshot) (λ v, v <| jv_Snapshot := snapshot |>)) in
  (notice (m <| m_Jobs := jobs |>) message, completedJobRefreshIntents m (m_Jobs m) jobs).

Definition reduceJobsKey (m : Model) (key : Key) : Model * list Intent :=
  let selected (f : Intent → Intent) (kind : IntentKind) :=
    if (m_JobCursor m <? 0) || (Z.of_nat (length (m_Jobs m)) <=? m_JobCursor m) then (m, []) else
    let jobID := snap_JobID (jv_Snapshot (default JobView_zero (m_Jobs m !! Z.to_nat (m_JobCursor m)))) in
    (m, [f ((intent kind) <| i_JobID := jobID |>)]) in
  let resolve policy all :=
    selected (λ i, i <| i_Resolution := policy |> <| i_ApplyAll := all |>) IntentJobResolveConflict in
  match key with
  | KeyDown => (m <| m_JobCursor := Z.min (m_JobCursor m + 1) (last_index (m_Jobs m)) |>, [])
  | KeyUp => (m <| m_JobCursor := Z.max (m_JobCursor m - 1) 0 |>, [])
  | KeyJobPause => selected (λ i, i) IntentJobPause
  | KeyJobResume => selected (λ i, i) IntentJobResume
  | KeyJobCancel => selected (λ i, i) IntentJobCancel
  | KeyConflictOverwrite => resolve ConflictOverwrite false
  | KeyConflictOverwriteAll => resolve ConflictOverwrite true
  | KeyConflictSkip => resolve ConflictSkip false
  | KeyConflictSkipAll => resolve ConflictSkip true
  | KeyConflictAutoRename => resolve ConflictAutoRename false
  | KeyConflictAutoRenameAll => resolve ConflictAutoRename true
  | _ => (m, [])
  end.

(** * Commands and edits arriving *)
Definition truncateCommandNotice (value : string) (limit : nat) : string :=
  let rs := to_runes value in
  if (length rs <=? limit)%nat then value else of_runes (take limit rs) +:+ "…".
(** [bytes.Cut(output, "\n")]: what comes before the line's end. *)
Definition first_line (output : list byte) : string :=
  str (default [] (head (split_lines (chars (String.string_of_list_byte output))))).
Definition command_completed (m : Model) (id : PaneID) (location : Location) (exitCode : Z)
    (stdout stderr : list byte) (stdoutDiscarded stderrDiscarded : Z) (effectUnknown : bool)
    (message : string) : Model * list Intent :=
  let m := m <| m_CommandRunning := false |> in
  if negb (validPane id) || String.eqb (loc_Path location) "" then (m, []) else
  let text :=
    if negb (String.eqb message "") then message else
    let output := if bool_decide (stdout = []) then stderr else stdout in
    "command exit " +:+ pretty exitCode +:+
    (if bool_decide (output = []) then "" else
     ": " +:+ truncateCommandNotice (SanitizeTerminalText (first_line output)) 160) in
  let text := if effectUnknown then text +:+ "; remote effect unknown" else text in
  let discarded := u64 (stdoutDiscarded + stderrDiscarded) in
  let text := if negb (discarded =? 0) then text +:+ "; " +:+ pretty discarded +:+ " bytes discarded" else text in
  (notice m text, [intent_at IntentList id location]).

Definition edit_observed (m : Model) (sessionID : string) (id : PaneID) (location : Location)
    (state message decision : string) (view : ConflictView) : Model * list Intent :=
  if String.eqb sessionID "" || negb (validPane id) then (m, []) else
  (notice ((mode m ModeEditDecision)
     <| m_EditDecision := mkEditDecision true sessionID id location state message decision view |>) message,
   [intent_at IntentList id location]).
Definition edit_launch_ready (m : Model) (sessionID : string) (id : PaneID) (location : Location)
    (command message : string) : Model :=
  if String.eqb sessionID "" || negb (validPane id) || String.eqb command "" then m else
  let text := "external command resolved; confirm direct execution" in
  notice ((mode m ModeEditLaunchConfirm)
     <| m_EditLaunch := mkEditLaunch true sessionID id location command |>)
    (if negb (String.eqb message "") then text +:+ "; " +:+ message else text).
Definition recovery_less (left right : EditRecoveryItem) : bool :=
  if negb (ri_UpdatedAt left =? ri_UpdatedAt right) then ri_UpdatedAt left >? ri_UpdatedAt right
  else string_lt (ri_SessionID left) (ri_SessionID right).
Definition edit_recovery_loaded (m : Model) (count : Z) (sessions : list EditRecoveryItem)
    (message : string) : Model :=
  if (count <? 0) || (Z.of_nat (length sessions) >? MaxRecoverableEditSessions) then m else
  let items := SliceStable recovery_less sessions in
  let m := m <| m_EditRecovery := mkRecovery items 0 |> <| m_RecoverableEdits := count |> in
  let m := if bool_decide (items = []) then m
           else (mode m ModeEditRecovery) <| m_RecoverableEdits := Z.of_nat (length items) |> in
  if negb (String.eqb message "") then notice m message else
  if 0 <? count then notice m (pretty count +:+ " recoverable edit session(s) retained") else m.
Definition cache_cleared (m : Model) (deleted protected remainingBytes : Z) (message : string) : Model :=
  notice m (if negb (String.eqb message "") then message else
    "cache cleared " +:+ pretty deleted +:+ " eligible item(s); " +:+ pretty protected +:+
    " protected; " +:+ pretty remainingBytes +:+ " bytes remain").
