(* ===== verification/TuiKeys.v ===== *)
(** Keys (src/internal/tui/reducer.go, keymap.go and the translation of tcell.go):
    what a key does in each dialog, drawer and pane, and [Reduce], the reducer. *)
From S2P Require Import Prelude Domain Utf8 Preview GoPath Plan JobTables JobStore TuiModel TuiReducer.
From S2P Require Edit Planner Keymap.

(** * Keys, one definition per dialog *)
Definition recoveryPane (m : Model) (location : Location) : PaneID :=
  if String.eqb (ep_ID (pane_Endpoint (pane_at m Left))) (loc_EndpointID location) then Left else
  if String.eqb (ep_ID (pane_Endpoint (pane_at m Right))) (loc_EndpointID location) then Right else m_Active m.

Definition key_content_confirm (m : Model) (key : Key) : Model * list Intent :=
  match key with
  | KeyEscape => (mode m ModeContentSearch, [])
  | KeySubmit =>
    let pattern := of_runes (m_searchInput m) in
    ((mode m ModeNormal) <| m_searchInput := [] |>
       <| m_Drawer := mkDrawer DrawerContentSearch FocusDrawer (dr_Rows (m_Drawer m)) |>
       <| m_ContentSearch := ContentSearchState_zero <| cs_Query := pattern |> <| cs_Loading := true |> |>,
     [(intent_at IntentSearchContent (m_Active m) (pane_Location (active_pane m)))
        <| i_SearchPattern := pattern |>])
  | _ => (m, [])
  end.
Definition key_search_prompt (m : Model) (key : Key) : Model * list Intent :=
  match key with
  | KeyBackspace => (m <| m_searchInput := drop_last (m_searchInput m) |>, [])
  | KeyEscape => ((mode m ModeNormal) <| m_searchInput := [] |>, [])
  | KeySubmit =>
    if bool_decide (m_searchInput m = []) then (notice m "filename search pattern is required", []) else
    let pattern := of_runes (m_searchInput m) in
    if mode_is m ModeContentSearch then
      (notice (mode m ModeContentSearchConfirm)
         "confirm slow scan: max 1000 files, 1 MiB/file, 32 MiB total, 2 minutes", [])
    else
      ((mode m ModeNormal) <| m_searchInput := [] |>
         <| m_Drawer := mkDrawer DrawerSearch FocusDrawer (dr_Rows (m_Drawer m)) |>
         <| m_Search := SearchState_zero <| sh_Query := pattern |> <| sh_Loading := true |> |>,
       [(intent_at IntentSearchFilename (m_Active m) (pane_Location (active_pane m)))
          <| i_SearchPattern := pattern |>])
  | _ => (m, [])
  end.
Definition key_cache_clear (m : Model) (key : Key) : Model * list Intent :=
  match key with
  | KeyEscape => (notice ((mode m ModeNormal) <| m_CacheClearScope := CacheClearNone |>) "cache clear canceled", [])
  | KeySubmit =>
    ((mode m ModeNormal) <| m_CacheClearScope := CacheClearNone |>,
     [(intent_at IntentCacheClear (m_Active m) (pane_Location (active_pane m)))
        <| i_CacheClearScope := m_CacheClearScope m |>])
  | _ => (m, [])
  end.
(** The cursor is on an item ([inv_recovery] in TuiFacts.v). *)
Definition recovery_item (m : Model) : option EditRecoveryItem :=
  er_Items (m_EditRecovery m) !! Z.to_nat (er_Cursor (m_EditRecovery m)).
Definition key_edit_recovery (m : Model) (key : Key) : Model * list Intent :=
  let r := m_EditRecovery m in
  let items := er_Items r in
  if bool_decide (items = []) then (mode m ModeNormal, []) else
  match key with
  | KeyEscape => (notice (mode m ModeNormal) "recoverable edits retained; press E to reopen recovery", [])
  | KeyDown =>
    (m <| m_EditRecovery := r <| er_Cursor := Z.min (er_Cursor r + 1) (Z.of_nat (length items) - 1) |> |>, [])
  | KeyUp => (m <| m_EditRecovery := r <| er_Cursor := Z.max (er_Cursor r - 1) 0 |> |>, [])
  | KeyPreviewDrawer =>
    match recovery_item m with
    | Some item =>
      let pane := recoveryPane m (ri_Location item) in
      let revision := Revision (pane_Capabilities (pane_at m pane)) in
      (m, [(intent_at IntentPreview pane (ri_Location item))
             <| i_EndpointSession := SessionIDOf revision |> <| i_EndpointGeneration := Generation revision |>])
    | None => (m, [])
    end
  | KeySubmit =>
    match recovery_item m with
    | Some item =>
      if negb (ri_Usable item) then (notice m ("recovery retained: " +:+ ri_Diagnostic item), []) else
      (mode m ModeNormal, [(intent_at IntentEditResume (recoveryPane m (ri_Location item)) (ri_Location item))
                             <| i_EditSessionID := ri_SessionID item |>])
    | None => (m, [])
    end
  | _ => (m, [])
  end.
Definition key_edit_launch (m : Model) (key : Key) : Model * list Intent :=
  match key with
  | KeyEscape =>
    (notice ((mode m ModeNormal) <| m_EditLaunch := EditLaunchState_zero |>)
       "external launch canceled; materialization retained for recovery", [])
  | KeySubmit =>
    let pending := m_EditLaunch m in
    ((mode m ModeNormal) <| m_EditLaunch := EditLaunchState_zero |>,
     [(intent_at IntentEditLaunch (el_Pane pending) (el_Location pending))
        <| i_EditSessionID := el_SessionID pending |>])
  | _ => (m, [])
  end.
Definition open_edit_recovery (m : Model) : Model :=
  let r := m_EditRecovery m in
  if bool_decide (er_Items r = []) then notice m "no recoverable edit sessions" else
  (mode m ModeEditRecovery)
    <| m_EditRecovery := r <| er_Cursor := Z.min (er_Cursor r) (Z.of_nat (length (er_Items r)) - 1) |> |>.

Definition finishEditDecision (m : Model) (decision : string) (saveAs : Location) (refresh : bool) :
    Model * list Intent :=
  let state := m_EditDecision m in
  ((mode m ModeNormal) <| m_EditDecision := EditDecisionState_zero |> <| m_editSaveAs := [] |>,
   [(intent_at IntentEditDecision (ed_Pane state) (ed_Location state))
      <| i_EditSessionID := ed_SessionID state |> <| i_EditDecision := decision |>
      <| i_SaveAsTarget := saveAs |> <| i_RefreshAfterEdit := refresh |>]).
Definition key_edit_save_as (m : Model) (key : Key) : Model * list Intent :=
  match key with
  | KeyBackspace => (m <| m_editSaveAs := drop_last (m_editSaveAs m) |>, [])
  | KeyEscape => ((mode m ModeEditDecision) <| m_editSaveAs := [] |>, [])
  | KeySubmit =>
    match NewLocation (loc_EndpointID (ed_Location (m_EditDecision m))) (of_runes (m_editSaveAs m)) with
    | Ok target =>
      if HasPrefix (chars (loc_Path target)) [SLASH]
      then finishEditDecision m Edit.DecisionSaveAs target false
      else (notice m "save-as requires an absolute canonical path", [])
    | Err _ => (notice m "save-as requires an absolute canonical path", [])
    end
  | _ => (m, [])
  end.
Definition show_conflict (m : Model) : Model :=
  let view := cv_Text (ed_ConflictView (m_EditDecision m)) in
  let data := String.list_byte_of_string view in
  let cut := blen data >? PreviewByteLimit in
  let data := if cut then take (Z.to_nat PreviewByteLimit) data else data in
  let generation := u64 (pv_Generation (m_Preview m) + 1) in
  m <| m_Preview := PreviewState_zero
         <| pv_Generation := if generation =? 0 then 1 else generation |>
         <| pv_Location := ed_Location (m_EditDecision m) |> <| pv_Data := data |>
         <| pv_BytesRead := blen data |>
         <| pv_Truncated := cut || cv_Truncated (ed_ConflictView (m_EditDecision m)) |>
         <| pv_Kind := "conflict-diff" |> <| pv_Summary := cv_Summary (ed_ConflictView (m_EditDecision m)) |> |>.
Definition key_edit_preview (m : Model) : Model * list Intent :=
  let m := m <| m_Drawer := (m_Drawer m) <| dr_Mode := DrawerPreview |> <| dr_Focus := FocusDrawer |> |> in
  let d := m_EditDecision m in
  if negb (String.eqb (cv_Text (ed_ConflictView d)) "") then (show_conflict m, []) else
  if String.eqb (ed_State d) Edit.StateConflict
  then (notice m "conflict diff is unavailable; retained edit was not changed", []) else
  let revision := Revision (pane_Capabilities (pane_at m (ed_Pane d))) in
  (m, [(intent_at IntentPreview (ed_Pane d) (ed_Location d))
         <| i_EndpointSession := SessionIDOf revision |> <| i_EndpointGeneration := Generation revision |>]).
Definition key_edit_decision (m : Model) (key : Key) : Model * list Intent :=
  let d := m_EditDecision m in
  let state := ed_State d in
  let finish decision refresh := finishEditDecision m decision Location_zero refresh in
  match key with
  | KeyEscape =>
    (notice ((mode m ModeNormal) <| m_EditDecision := EditDecisionState_zero |>)
       "edit retained for recovery; no upload was started", [])
  | KeyPreviewDrawer => key_edit_preview m
  | KeyConflictSkip => finish Edit.DecisionSkip false
  | KeyConflictAutoRename =>
    if negb (String.eqb state Edit.StateConflict) &&
       negb (String.eqb state Edit.StateAwaitingUploadConfirmation) then (m, []) else
    ((mode m ModeEditSaveAs) <| m_editSaveAs := to_runes (loc_Path (ed_Location d) +:+ ".copy") |>, [])
  | KeyConflictOverwrite =>
    if String.eqb state Edit.StateConflict then finish Edit.DecisionOverwrite false else (m, [])
  | KeySubmit =>
    if String.eqb state Edit.StateReady then
      ((mode m ModeNormal) <| m_EditDecision := EditDecisionState_zero |>,
       [(intent_at IntentEditCheck (ed_Pane d) (ed_Location d)) <| i_EditSessionID := ed_SessionID d |>])
    else if String.eqb state Edit.StateAwaitingUploadConfirmation then finish Edit.DecisionUpload false
    else if String.eqb state Edit.StateRemoteChanged then finish Edit.DecisionSkip true
    else if String.eqb state Edit.StateSyncBackFrozen && negb (String.eqb (ed_Decision d) "")
    then finish (ed_Decision d) false
    else (m, [])
  | _ => (m, [])
  end.

Definition key_command (m : Model) (key : Key) : Model * list Intent :=
  match key with
  | KeyBackspace => (m <| m_commandInput := drop_last (m_commandInput m) |>, [])
  | KeyEscape => ((mode m ModeNormal) <| m_commandInput := [] |>, [])
  | KeySubmit =>
    if bool_decide (m_commandInput m = []) then (notice m "command is required", [])
    else (mode m ModeCommandConfirm, [])
  | _ => (m, [])
  end.
Definition key_command_confirm (m : Model) (key : Key) : Model * list Intent :=
  match key with
  | KeyEscape => ((mode m ModeNormal) <| m_commandInput := [] |>, [])
  | KeySubmit =>
    let pane := active_pane m in
    (notice ((mode m ModeNormal) <| m_commandInput := [] |> <| m_CommandRunning := true |>)
       "one-time command running; Esc cancels",
     [(intent_at IntentRunCommand (m_Active m) (pane_Location pane)) <| i_Endpoint := pane_Endpoint pane |>
        <| i_CommandText := of_runes (m_commandInput m) |>])
  | _ => (m, [])
  end.
Definition key_auth (m : Model) (key : Key) : Model * list Intent :=
  let a := m_Auth m in
  let resolve (cancel : bool) :=
    let returnMode := if bool_decide (au_ReturnMode a = ModeUnset) || bool_decide (au_ReturnMode a = ModeAuth)
                      then ModeNormal else au_ReturnMode a in
    ((mode m returnMode) <| m_Auth := AuthState_zero |>,
     [(intent IntentAuthResolve) <| i_ChallengeID := au_ChallengeID a |> <| i_Cancel := cancel |>
        <| i_Answer := if cancel then "" else of_runes (au_answer a) |>]) in
  match key with
  | KeyBackspace => (m <| m_Auth := a <| au_answer := drop_last (au_answer a) |> |>, [])
  | KeySubmit => resolve false
  | KeyEscape => resolve true
  | _ => (m, [])
  end.

Definition delete_intent (reference : FileRef) : Intent :=
  (intent IntentCreateDeleteJob) <| i_Target := reference |>
    <| i_Recursive := String.eqb (ref_Kind reference) EntryDirectory |>
    <| i_Confirmed := true |> <| i_IrreversibleConfirmed := true |>.
Definition key_delete_confirm (m : Model) (key : Key) : Model * list Intent :=
  match key with
  | KeyEscape => ((mode m ModeNormal) <| m_pendingDelete := [] |> <| m_DeleteConfirmation := 0 |>, [])
  | KeySubmit =>
    if m_DeleteConfirmation m =? 1 then (m <| m_DeleteConfirmation := 2 |>, []) else
    ((mode m ModeNormal) <| m_repeatDelete := m_pendingDelete m |> <| m_repeatIntents := [] |>
       <| m_pendingDelete := [] |> <| m_DeleteConfirmation := 0 |>,
     delete_intent <$> m_pendingDelete m)
  | _ => (m, [])
  end.
Definition key_move_confirm (m : Model) (key : Key) : Model * list Intent :=
  match key with
  | KeyEscape => ((mode m ModeNormal) <| m_pendingMove := [] |>, [])
  | KeySubmit =>
    ((mode m ModeNormal) <| m_repeatMove := m_pendingMove m |> <| m_repeatDelete := [] |>
       <| m_repeatIntents := [] |> <| m_pendingMove := [] |>, m_pendingMove m)
  | _ => (m, [])
  end.
Definition key_rename (m : Model) (key : Key) : Model * list Intent :=
  match key with
  | KeyBackspace => (m <| m_renameInput := drop_last (m_renameInput m) |>, [])
  | KeyEscape => ((mode m ModeNormal) <| m_renameInput := [] |> <| m_pendingRename := FileRef_zero |>, [])
  | KeySubmit =>
    let name := of_runes (m_renameInput m) in
    let source := ref_Location (m_pendingRename m) in
    if String.eqb name "" || String.eqb name "." || String.eqb name ".." || negb (String.eqb (path_Base name) name)
    then (notice m "rename requires one plain entry name", []) else
    if String.eqb name (path_Base (loc_Path source)) then (notice m "rename requires a different name", []) else
    match parentLocation source with
    | None => (notice m "rename cannot target an endpoint root", [])
    | Some parent =>
      let i := (intent_at IntentCreateCopyJob (m_Active m) parent) <| i_Clipboard := Planner.ClipboardCut |>
                 <| i_Source := m_pendingRename m |> <| i_Name := name |> in
      ((mode m ModeNormal) <| m_repeatMove := [i] |> <| m_repeatIntents := [] |> <| m_repeatDelete := [] |>
         <| m_renameInput := [] |> <| m_pendingRename := FileRef_zero |>, [i])
    end
  | _ => (m, [])
  end.
Definition key_workspace (m : Model) (key : Key) : Model * list Intent :=
  match key with
  | KeyBackspace => (m <| m_workspaceName := drop_last (m_workspaceName m) |>, [])
  | KeyEscape => ((mode m ModeNormal) <| m_workspaceName := [] |>, [])
  | KeySubmit =>
    if bool_decide (m_workspaceName m = []) then (notice m "workspace name is required", []) else
    let name := of_runes (m_workspaceName m) in
    (notice ((mode m ModeNormal) <| m_workspaceName := [] |>) ("saving workspace: " +:+ name),
     [(intent IntentWorkspaceSave) <| i_Name := name |>])
  | _ => (m, [])
  end.
Definition key_path (m : Model) (key : Key) : Model * list Intent :=
  match key with
  | KeyBackspace => (m <| m_pathInput := drop_last (m_pathInput m) |>, [])
  | KeyEscape => ((mode m ModeNormal) <| m_pathInput := [] |>, [])
  | KeySubmit =>
    let value := of_runes (m_pathInput m) in
    if negb (path_IsAbs value) || negb (String.eqb (path_Clean value) value)
    then (notice m "path must be canonical and absolute", []) else
    ((mode m ModeNormal) <| m_pathInput := [] |>,
     [intent_at IntentList (m_Active m) (mkLocation (ep_ID (pane_Endpoint (active_pane m))) value)])
  | _ => (m, [])
  end.
Definition key_endpoint `{Unicode} (m : Model) (key : Key) : Model * list Intent :=
  let picker := m_endpointPicker m in
  match key with
  | KeyBackspace =>
    let query := to_runes (pk_query picker) in
    (notice (if bool_decide (query = []) then m
             else m <| m_endpointPicker := SetQuery picker (of_runes (drop_last query)) |>) "", [])
  | KeyEscape => (mode m ModeNormal, [])
  | KeyDown => (m <| m_endpointPicker := Picker_Move picker 1 |>, [])
  | KeyUp => (m <| m_endpointPicker := Picker_Move picker (-1) |>, [])
  | KeySubmit =>
    match Selected picker with
    | None => (notice m "no matching endpoint; choose a configured SSH host or local", [])
    | Some choice =>
      (mode m ModeNormal,
       [(intent IntentConnectEndpoint) <| i_Pane := m_Active m |> <| i_Name := pc_Name choice |>])
    end
  | _ => (m, [])
  end.

(** * Drawers *)
Definition drawerModeForKey (key : Key) : option DrawerMode :=
  match key with
  | KeyPreviewDrawer => Some DrawerPreview
  | KeyJobs => Some DrawerJobs
  | KeyLogDrawer => Some DrawerLog
  | _ => None
  end.
Definition drawerOpenIntents (m : Model) (to : DrawerMode) (switching : bool) : list Intent :=
  match to with
  | DrawerPreview => previewOpenIntents m switching
  | DrawerJobs => [intent IntentJobList]
  | DrawerLog => [(intent IntentDiagnosticList) <| i_Limit := 256 |>]
  | _ => []
  end.
Definition reduceDrawerToggle (m : Model) (to : DrawerMode) : Model * list Intent :=
  let m := m <| m_Count := 0 |> in
  let d := m_Drawer m in
  let wasPreview := bool_decide (dr_Mode d = DrawerPreview) in
  if bool_decide (dr_Mode d = to) then
    if bool_decide (dr_Focus d = FocusDrawer) then
      let m := m <| m_Drawer := d <| dr_Mode := DrawerClosed |> <| dr_Focus := FocusPane |> |> in
      if wasPreview then (m <| m_Preview := PreviewState_zero |>, [intent IntentPreviewCancel]) else (m, [])
    else
      let m := m <| m_Drawer := d <| dr_Focus := FocusDrawer |> |> in
      (m, drawerOpenIntents m to false)
  else
    let m := m <| m_Drawer := d <| dr_Mode := to |> <| dr_Focus := FocusDrawer |> |> in
    let '(m, intents) :=
      if wasPreview then (m <| m_Preview := PreviewState_zero |>, [intent IntentPreviewCancel]) else (m, []) in
    (m, intents ++ drawerOpenIntents m to true).

(** A result is previewed in the session and generation of its search. *)
Definition result_preview (pane : PaneID) (location : Location) (session : string) (generation : Z) : Intent :=
  (intent_at IntentPreview pane location) <| i_Limit := PreviewByteLimit |> <| i_EndpointSession := session |>
    <| i_EndpointGeneration := generation |> <| i_PreviewMode := ReadHead |> <| i_PreviewView := ViewAuto |>.
Definition at_cursor {A} (l : list A) (cursor : Z) : option A :=
  if (cursor <? 0) || (Z.of_nat (length l) <=? cursor) then None else l !! Z.to_nat cursor.
Definition show_preview (m : Model) : Model :=
  m <| m_Drawer := (m_Drawer m) <| dr_Mode := DrawerPreview |> <| dr_Focus := FocusDrawer |> |>.
Definition reduceSearchKey (m : Model) (key : Key) : Model * list Intent :=
  let s := m_Search m in
  let open :=
    match at_cursor (sh_Results s) (sh_Cursor s) with
    | None => (m, [])
    | Some result =>
      let pane := recoveryPane m (sr_Location result) in
      let m := m <| m_Active := pane |> <| m_Drawer := (m_Drawer m) <| dr_Focus := FocusPane |> |> in
      if String.eqb (entry_Kind (sr_Entry result)) EntryDirectory
      then (m, [intent_at IntentList pane (sr_Location result)]) else
      (show_preview m, [result_preview pane (sr_Location result) (id_SessionID (sh_Identity s))
                          (id_EndpointGeneration (sh_Identity s))])
    end in
  match key with
  | KeyDown => (m <| m_Search := s <| sh_Cursor := Z.min (sh_Cursor s + 1) (last_index (sh_Results s)) |> |>, [])
  | KeyUp => (m <| m_Search := s <| sh_Cursor := Z.max (sh_Cursor s - 1) 0 |> |>, [])
  | KeyFilenameSearch => ((mode m ModeFilenameSearch) <| m_searchInput := to_runes (sh_Query s) |>, [])
  | KeySubmit => open
  | KeyOpen => open
  | KeyCopy =>
    match at_cursor (sh_Results s) (sh_Cursor s) with
    | None => (m, [])
    | Some result =>
      beginClipboardCapture m (recoveryPane m (sr_Location result)) [sr_Location result] Planner.ClipboardCopy
    end
  | _ => (m, [])
  end.
Definition reduceContentSearchKey (m : Model) (key : Key) : Model * list Intent :=
  let s := m_ContentSearch m in
  let open :=
    match at_cursor (cs_Results s) (cs_Cursor s) with
    | None => (m, [])
    | Some result =>
      let pane := recoveryPane m (ctr_Location result) in
      (show_preview (m <| m_Active := pane |>),
       [result_preview pane (ctr_Location result) (cid_SessionID (cs_Identity s))
          (cid_EndpointGeneration (cs_Identity s))])
    end in
  match key with
  | KeyDown =>
    (m <| m_ContentSearch := s <| cs_Cursor := Z.min (cs_Cursor s + 1) (last_index (cs_Results s)) |> |>, [])
  | KeyUp => (m <| m_ContentSearch := s <| cs_Cursor := Z.max (cs_Cursor s - 1) 0 |> |>, [])
  | KeyFilenameSearch => ((mode m ModeContentSearch) <| m_searchInput := to_runes (cs_Query s) |>, [])
  | KeySubmit => open
  | KeyOpen => open
  | KeyCopy =>
    match at_cursor (cs_Results s) (cs_Cursor s) with
    | None => (m, [])
    | Some result =>
      beginClipboardCapture m (recoveryPane m (ctr_Location result)) [ctr_Location result] Planner.ClipboardCopy
    end
  | _ => (m, [])
  end.

(** Keys while a drawer has the focus. *)
Definition key_drawer (m : Model) (key : Key) : Model * list Intent :=
  let d := m_Drawer m in
  match key with
  | KeyEscape =>
    (m <| m_Drawer := d <| dr_Focus := FocusPane |> |>,
     if bool_decide (dr_Mode d = DrawerSearch) && sh_Loading (m_Search m) &&
        negb (String.eqb (id_RequestID (sh_Identity (m_Search m))) "")
     then [(intent IntentSearchCancel) <| i_SearchIdentity := sh_Identity (m_Search m) |>] else
     if bool_decide (dr_Mode d = DrawerContentSearch) && cs_Loading (m_ContentSearch m) &&
        negb (String.eqb (cid_RequestID (cs_Identity (m_ContentSearch m))) "")
     then [(intent IntentSearchCancel) <| i_ContentSearchIdentity := cs_Identity (m_ContentSearch m) |>]
     else [])
  | _ =>
    match dr_Mode d with
    | DrawerSearch => reduceSearchKey m key
    | DrawerContentSearch => reduceContentSearchKey m key
    | DrawerJobs => reduceJobsKey m key
    | DrawerPreview => reducePreviewKey m key
    | _ => (m, [])
    end
  end.

(** * Panes *)
Definition clearDirectoryJump (m : Model) : Model :=
  m <| m_jumpAnchor := Location_zero |> <| m_jumpFilter := "" |> <| m_hasJumpAnchor := false |>.

Section Browse.
Context `{Unicode}.

(** The filter before the jump comes back, with the row that was the cursor's. *)
Definition leave_jump (m : Model) (pane : PaneState) : PaneState :=
  let pane := rebuildVisible (pane <| pane_Filter := m_jumpFilter m |> <| pane_visible := [] |>) in
  if m_hasJumpAnchor m then selectPaneLocation pane (m_jumpAnchor m) else pane.
Definition key_tab (m : Model) : Model * list Intent :=
  let m := if mode_is m ModeFilter
           then clearDirectoryJump (set_pane m (m_Active m) (leave_jump m (active_pane m))) else m in
  let m := (mode m ModeNormal) <| m_Active := if m_Active m =? Left then Right else Left |> in
  (m, if bool_decide (dr_Mode (m_Drawer m) = DrawerPreview) then previewRefreshIntents m else []).

Definition refilter (pane : PaneState) (filter : string) : PaneState :=
  rebuildVisible (pane <| pane_Filter := filter |> <| pane_visible := [] |>).
(** [utf8.DecodeLastRuneInString]: the last rune goes, or a last byte that ends none. *)
Definition drop_last_rune (s : string) : string :=
  let bytes := String.list_byte_of_string s in
  let width (n : nat) := (* the last [n] bytes are one encoded rune *)
    (n <=? length bytes)%nat &&
    match utf8_decode (drop (length bytes - n) bytes) with Some [_] => true | _ => false end in
  let size := if width 1%nat then 1%nat else if width 2%nat then 2%nat else
              if width 3%nat then 3%nat else if width 4%nat then 4%nat else 1%nat in
  String.string_of_list_byte (take (length bytes - size) bytes).

Definition key_filter (m : Model) (key : Key) : Model * list Intent :=
  let pane := active_pane m in
  let keep (m : Model) (pane : PaneState) := (set_pane m (m_Active m) pane, []) in
  match key with
  | KeyEscape => keep (mode (clearDirectoryJump m) ModeNormal) (leave_jump m pane)
  | KeyBackspace =>
    if String.eqb (pane_Filter pane) "" then keep m pane
    else keep m ((refilter pane (drop_last_rune (pane_Filter pane))) <| pane_Cursor := 0 |>)
  | KeyDown =>
    if VisibleCount pane =? 0 then keep m pane
    else keep m (pane <| pane_Cursor := Z.min (pane_Cursor pane + 1) (VisibleCount pane - 1) |>)
  | KeyUp => keep m (pane <| pane_Cursor := Z.max (pane_Cursor pane - 1) 0 |>)
  | KeySubmit =>
    if VisibleCount pane =? 0 then keep (notice m "no matching entries") pane else
    let location := currentLocation pane in
    let pane := refilter pane "" in
    let pane := match location with Some l => selectPaneLocation pane l | None => pane end in
    keep (notice (mode (clearDirectoryJump m) ModeNormal) "entry selected; available actions are shown below") pane
  | _ => keep m pane
  end.

Definition key_copy (m : Model) (count : Z) (clipboard : string) : Model * list Intent :=
  match selectedLocations (active_pane m) count with
  | [] => (notice m "copy/cut requires at least one file or directory", [])
  | locations => beginClipboardCapture m (m_Active m) locations clipboard
  end.
Definition key_paste (m : Model) (count : Z) : Model * list Intent :=
  let repetitions := if count >? 0 then count else 1 in
  let location := pane_Location (active_pane m) in
  if cb_Capturing (m_Clipboard m) then
    if repetitions >? maxBatchJobIntents then (notice m "paste count exceeds the bounded Job batch", []) else
    (notice (m <| m_pendingPaste :=
       mkPendingPaste (cb_Generation (m_Clipboard m)) (m_Active m) location repetitions true |>)
       "copy/cut capture in progress; paste queued", [])
  else if negb (cb_Ready (m_Clipboard m)) then (notice m "copy/cut clipboard is empty", [])
  else pasteClipboard m (m_Active m) location repetitions.
Definition key_prepare (m : Model) (count : Z) (kind : IntentKind) (one : bool) (text : string) :
    Model * list Intent :=
  let locations := selectedLocations (active_pane m) count in
  if (if one then negb (length locations =? 1)%nat else (length locations =? 0)%nat) then (notice m text, []) else
  (m, [(intent_at kind (m_Active m) (default Location_zero (head locations))) <| i_Locations := locations |>]).
Definition key_open_file (m : Model) (kind : IntentKind) : Model * list Intent :=
  let entry := cursor_entry m in
  if String.eqb (loc_Path (entry_Location entry)) "" || negb (String.eqb (entry_Kind entry) EntryFile)
  then (notice m "edit/open requires a regular file", [])
  else (m, [intent_at kind (m_Active m) (entry_Location entry)]).
Definition key_repeat (m : Model) : Model * list Intent :=
  if negb (bool_decide (m_repeatDelete m = [])) then
    ((mode m ModeDeleteConfirm) <| m_pendingDelete := m_repeatDelete m |> <| m_DeleteConfirmation := 1 |>, [])
  else if negb (bool_decide (m_repeatMove m = [])) then
    ((mode m ModeMoveConfirm) <| m_pendingMove := m_repeatMove m |>, [])
  else if negb (bool_decide (m_repeatIntents m = [])) then (m, m_repeatIntents m)
  else (notice m "no repeatable frozen operation", []).
Definition next_sort (s : SortState) : SortState :=
  match sort_Key s with
  | SortName => mkSort SortSize (sort_Descending s)
  | SortSize => mkSort SortModified (sort_Descending s)
  | SortModified => mkSort SortKind (sort_Descending s)
  | SortKind => mkSort SortName (negb (sort_Descending s))
  end.
Definition toggle_mark (pane : PaneState) : PaneState :=
  match currentLocation pane with
  | Some l => pane <| pane_marks := if bool_decide (l ∈ pane_marks pane) then pane_marks pane ∖ {[l]}
                                    else {[l]} ∪ pane_marks pane |>
  | None => pane
  end.
Definition key_visual (m : Model) (to : Mode) : Model :=
  let pane := active_pane m in
  if VisibleCount pane =? 0 then m else
  set_pane (mode m to) (m_Active m)
    (pane <| pane_visualAnchor := entry_Location (visibleEntry pane (pane_Cursor pane)) |>
          <| pane_visualAnchorView := pane_Cursor pane |> <| pane_hasVisualAnchor := true |>).
Definition start_jump (m : Model) : Model :=
  let pane := active_pane m in
  let current := currentLocation pane in
  let m := m <| m_jumpAnchor := default Location_zero current |>
             <| m_hasJumpAnchor := bool_decide (is_Some current) |> <| m_jumpFilter := pane_Filter pane |> in
  let pane := refilter pane "" in
  let pane := if m_hasJumpAnchor m then selectPaneLocation pane (m_jumpAnchor m) else pane in
  set_pane (mode m ModeFilter) (m_Active m) pane.

(** The last switch of [reduceKey]: a key on the active pane. *)
Definition key_browse (m : Model) (key : Key) (count : Z) : Model * list Intent :=
  let steps := if count =? 0 then 1 else count in
  let id := m_Active m in
  let pane := active_pane m in
  let with_pane (pane : PaneState) := set_pane m id pane in
  let moved (cursor : Z) :=
    let m' := with_pane (pane <| pane_Cursor := cursor |>) in
    (m', follow_preview m' (currentLocation pane)) in
  match key with
  | KeyCopy => key_copy m count Planner.ClipboardCopy
  | KeyCut => key_copy m count Planner.ClipboardCut
  | KeyPaste => key_paste m count
  | KeyDelete => key_prepare m count IntentPrepareDelete false "delete requires at least one target"
  | KeyRename => key_prepare m count IntentPrepareRename true "rename requires exactly one item"
  | KeyEdit => key_open_file m IntentEdit
  | KeyOpenExternal => key_open_file m IntentOpenExternal
  | KeyCommand =>
    if m_CommandRunning m then (notice m "one-time command already running; Esc cancels", []) else
    (notice ((mode m ModeCommand) <| m_commandInput := [] |>) "one-time command: enter text, then confirm", [])
  | KeyRepeat => key_repeat m
  | KeySave => ((mode m ModeWorkspace) <| m_workspaceName := [] |>, [])
  | KeySort => (with_pane (rebuildVisible (pane <| pane_Sort := next_sort (pane_Sort pane) |>)), [])
  | KeyToggleHidden =>
    (with_pane (rebuildVisible (pane <| pane_ShowHidden := negb (pane_ShowHidden pane) |>)), [])
  | KeyRefresh => (m, [intent_at IntentList id (pane_Location pane)])
  | KeyPath => ((mode m ModePath) <| m_pathInput := [] |>, [])
  | KeyEndpoint =>
    (notice ((mode m ModeEndpoint) <| m_endpointPicker := SetQuery (m_endpointPicker m) "" |>) "", [])
  | KeyDown =>
    moved (if VisibleCount pane =? 0 then pane_Cursor pane
           else Z.min (pane_Cursor pane + steps) (VisibleCount pane - 1))
  | KeyUp => moved (Z.max (pane_Cursor pane - steps) 0)
  | KeyBottom => moved (Z.max (VisibleCount pane - 1) 0)
  | KeyParent =>
    match parentLocation (pane_Location pane) with
    | Some location => (m, [intent_at IntentList id location])
    | None => (m, [])
    end
  | KeyOpen =>
    let entry := cursor_entry m in
    if String.eqb (loc_Path (entry_Location entry)) "" then (m, []) else
    if String.eqb (entry_Kind entry) EntryDirectory
    then (m, [intent_at IntentList id (entry_Location entry)])
    else (show_preview m, [previewIntent id pane entry])
  | KeyVisual => (key_visual m ModeVisual, [])
  | KeyVisualLine => (key_visual m ModeVisualLine, [])
  | KeyMark => (with_pane (toggle_mark pane), [])
  | KeyFilter => (start_jump m, [])
  | KeyFilenameSearch => ((mode m ModeFilenameSearch) <| m_searchInput := [] |>, [])
  | KeyEscape => (mode (with_pane (pane <| pane_hasVisualAnchor := false |>)) ModeNormal, [])
  | _ => (m, [])
  end.

(** A count applies to some keys only. *)
Definition counted (key : Key) : bool :=
  match key with
  | KeyDown | KeyUp | KeyCopy | KeyCut | KeyPaste | KeyDelete | KeyRename => true
  | _ => false
  end.
(** Keys when no dialog is open and the focus is on the panes. *)
Definition key_panes (m : Model) (key : Key) : Model * list Intent :=
  let count := m_Count m in
  let m := m <| m_Count := 0 |> in
  if negb (count =? 0) && negb (counted key) then (m, []) else
  if bool_decide (key = KeyEscape) && negb (pv_Generation (m_Preview m) =? 0)
  then (m <| m_Preview := PreviewState_zero |>, [intent IntentPreviewCancel]) else
  if bool_decide (key = KeyTab) then key_tab m else
  if mode_is m ModeFilter then key_filter m key else
  key_browse m key count.

(** The dialogs, in the order in which they take a key. *)
Definition reduceKey (m : Model) (key : Key) : Model * list Intent :=
  if mode_is m ModeContentSearchConfirm then key_content_confirm m key else
  if mode_is m ModeFilenameSearch || mode_is m ModeContentSearch then key_search_prompt m key else
  if mode_is m ModeNormal && m_CommandRunning m && bool_decide (key = KeyEscape)
  then (notice m "canceling active one-time command", [intent IntentCommandCancel]) else
  if mode_is m ModeCacheClearConfirm then key_cache_clear m key else
  if mode_is m ModeEditRecovery then key_edit_recovery m key else
  if mode_is m ModeEditLaunchConfirm then key_edit_launch m key else
  if bool_decide (key = KeyEditRecovery) then (open_edit_recovery m, []) else
  if mode_is m ModeEditSaveAs then key_edit_save_as m key else
  if mode_is m ModeEditDecision then key_edit_decision m key else
  if mode_is m ModeCommand then key_command m key else
  if mode_is m ModeCommandConfirm then key_command_confirm m key else
  if au_Active (m_Auth m) then key_auth m key else
  if mode_is m ModeDeleteConfirm then key_delete_confirm m key else
  if mode_is m ModeMoveConfirm then key_move_confirm m key else
  if mode_is m ModeRename then key_rename m key else
  if mode_is m ModeWorkspace then key_workspace m key else
  if mode_is m ModePath then key_path m key else
  if mode_is m ModeEndpoint then key_endpoint m key else
  match drawerModeForKey key with
  | Some to => reduceDrawerToggle m to
  | None =>
    if bool_decide (dr_Focus (m_Drawer m) = FocusDrawer) then
      if bool_decide (dr_Mode (m_Drawer m) = DrawerPreview) && bool_decide (key = KeyPath)
      then ((mode m ModePath) <| m_pathInput := [] |>, [])
      else key_drawer m key
    else key_panes m key
  end.

Definition Reduce (m : Model) (action : Action) : Model * list Intent :=
  match action with
  | KeyPress key => reduceKey m key
  | CountDigit digit => (reduce_count m digit, [])
  | TextInput text => reduce_text m text
  | Resize width height => (m <| m_Width := width |> <| m_Height := height |>, [])
  | BeginListing id generation location endpoint connection capabilityGeneration capabilities commit =>
    (begin_listing m id generation location endpoint connection capabilityGeneration capabilities commit, [])
  | ListingPage id generation entries done partial => listing_page m id generation entries done partial
  | ListingFailed id generation message _ _ _ _ => (listing_failed m id generation message, [])
  | SetFilter id query => (set_filter m id query, [])
  | BeginPreview generation location identity view => (begin_preview m generation location identity view, [])
  | PreviewChunk generation identity data done truncated rendered kind summary message =>
    (preview_chunk m generation identity data done truncated rendered kind summary message, [])
  | PreviewTerminalImage _ _ _ _ => (m, [])
  | BeginSearch identity => (begin_search m identity, [])
  | SearchEvents events => (search_events m events, [])
  | SearchFailed identity message => (search_failed m identity message, [])
  | BeginContentSearch identity => (begin_content_search m identity, [])
  | ContentSearchEvents events => (content_search_events m events, [])
  | ContentSearchFailed identity message => (content_search_failed m identity message, [])
  | AuthChallengeReceived challengeID endpoint prompt kind => (auth_challenge m challengeID endpoint prompt kind, [])
  | PaneConnected id endpoint location state capabilityGeneration capabilities preserve =>
    pane_connected m id endpoint location state capabilityGeneration capabilities preserve
  | PaneConnectionChanged id state message => (connection_changed m id state message, [])
  | PaneCapabilitiesRefreshed id endpointID capabilities => (capabilities_refreshed m id endpointID capabilities, [])
  | WorkspaceSaveResult name message =>
    (notice m (if negb (String.eqb message "") then message else "workspace saved: " +:+ name), [])
  | ClipboardCaptured clipboard reference references generation message =>
    clipboard_captured m clipboard reference references generation message
  | DeletePrepared references message => (delete_prepared m references message, [])
  | RenamePrepared reference message => (rename_prepared m reference message, [])
  | JobCreated jobID state message => job_created m jobID state message
  | JobsLoaded jobs observedAt message => jobs_loaded m jobs observedAt message
  | JobUpdated snapshot message => job_updated m snapshot message
  | DiagnosticsLoaded records message => (notice (m <| m_Diagnostics := records |>) message, [])
  | CommandCompleted id location exitCode stdout stderr stdoutDiscarded stderrDiscarded unknown message =>
    command_completed m id location exitCode stdout stderr stdoutDiscarded stderrDiscarded unknown message
  | EditSessionObserved sessionID id location state message decision view =>
    edit_observed m sessionID id location state message decision view
  | EditLaunchReady sessionID id location command message =>
    (edit_launch_ready m sessionID id location command message, [])
  | EditSessionFinished id location message => (notice m message, [intent_at IntentList id location])
  | EditSessionFailed _ _ message => (notice m message, [])
  | EditRecoveryLoaded count sessions message => (edit_recovery_loaded m count sessions message, [])
  | CacheCleared deleted protected remainingBytes message =>
    (cache_cleared m deleted protected remainingBytes message, [])
  end.
End Browse.

(** * From the terminal to actions (keymap.go, tcell.go) *)
Definition key_actions : list (string * Key) :=
  [(Keymap.ActionParent, KeyParent); (Keymap.ActionDown, KeyDown); (Keymap.ActionUp, KeyUp);
   (Keymap.ActionBottom, KeyBottom); (Keymap.ActionOpen, KeyOpen); (Keymap.ActionVisual, KeyVisual);
   (Keymap.ActionVisualLine, KeyVisualLine); (Keymap.ActionMark, KeyMark); (Keymap.ActionFilter, KeyFilter);
   (Keymap.ActionFilenameSearch, KeyFilenameSearch); (Keymap.ActionSave, KeySave);
   (Keymap.ActionSort, KeySort); (Keymap.ActionToggleHidden, KeyToggleHidden);
   (Keymap.ActionRefresh, KeyRefresh); (Keymap.ActionPath, KeyPath); (Keymap.ActionEndpoint, KeyEndpoint);
   (Keymap.ActionCopy, KeyCopy); (Keymap.ActionCut, KeyCut); (Keymap.ActionPaste, KeyPaste);
   (Keymap.ActionDelete, KeyDelete); (Keymap.ActionRename, KeyRename); (Keymap.ActionRepeat, KeyRepeat);
   (Keymap.ActionEdit, KeyEdit); (Keymap.ActionOpenExternal, KeyOpenExternal);
   (Keymap.ActionEditRecovery, KeyEditRecovery); (Keymap.ActionCommand, KeyCommand);
   (Keymap.ActionPreviewDrawer, KeyPreviewDrawer); (Keymap.ActionJobs, KeyJobs);
   (Keymap.ActionLogDrawer, KeyLogDrawer); (Keymap.ActionJobPause, KeyJobPause);
   (Keymap.ActionJobResume, KeyJobResume); (Keymap.ActionJobCancel, KeyJobCancel);
   (Keymap.ActionConflictOverwrite, KeyConflictOverwrite); (Keymap.ActionConflictSkip, KeyConflictSkip);
   (Keymap.ActionConflictAutoRename, KeyConflictAutoRename);
   (Keymap.ActionConflictOverwriteAll, KeyConflictOverwriteAll);
   (Keymap.ActionConflictSkipAll, KeyConflictSkipAll);
   (Keymap.ActionConflictAutoRenameAll, KeyConflictAutoRenameAll)].
(** [Key(action)]: the key with the action's name. *)
Definition key_of_action (action : string) : option Key :=
  (λ p, p.2.2) <$> list_find (λ p, p.1 = action) key_actions.
Definition keymap_context (mode : Mode) : string :=
  match mode with
  | ModeVisual | ModeVisualLine => Keymap.ContextVisual
  | _ => Keymap.ContextNormal
  end.
Definition keymap_lookup (mapping : Keymap.Map) (mode : Mode) (input : string) : option Key :=
  action ← Keymap.Lookup mapping (keymap_context mode) input; key_of_action action.

(** The events of the terminal library that are translated. *)
Inductive TerminalKey :=
| TermEnter | TermTab | TermEscape | TermBackspace | TermDown | TermUp | TermLeft | TermRight | TermRune
| TermOther.
Inductive TerminalEvent :=
| EventResize (width height : Z) | EventKey (key : TerminalKey) (str : string) | EventOther.
Definition takes_submit (mode : Mode) : bool :=
  match mode with
  | ModeFilter | ModeAuth | ModeWorkspace | ModePath | ModeEndpoint | ModeRename | ModeMoveConfirm
  | ModeDeleteConfirm | ModeCommand | ModeCommandConfirm | ModeEditDecision | ModeEditSaveAs
  | ModeEditLaunchConfirm | ModeEditRecovery | ModeCacheClearConfirm | ModeFilenameSearch
  | ModeContentSearch | ModeContentSearchConfirm => true
  | _ => false
  end.
Definition takes_text (mode : Mode) : bool :=
  match mode with
  | ModeFilter | ModeAuth | ModeWorkspace | ModePath | ModeEndpoint | ModeRename | ModeCommand
  | ModeEditSaveAs | ModeFilenameSearch | ModeContentSearch => true
  | _ => false
  end.
Definition takes_rows (mode : Mode) : bool :=
  match mode with ModeNormal | ModeVisual | ModeFilter | ModeEndpoint => true | _ => false end.
Definition takes_columns (mode : Mode) : bool :=
  match mode with ModeNormal | ModeVisual => true | _ => false end.
Definition guarded (b : bool) (key : Key) : option Action := if b then Some (KeyPress key) else None.
Definition digit_of (value : string) : option Z :=
  match chars value with
  | [c] => let n := Z.of_N (N_of_ascii c) in if (48 <=? n) && (n <=? 57) then Some (n - 48) else None
  | _ => None
  end.
Definition TranslateTCellEvent (event : TerminalEvent) (mode : Mode) (keymap : Keymap.Map) : option Action :=
  match event with
  | EventResize width height => Some (Resize width height)
  | EventOther => None
  | EventKey key str =>
    match key with
    | TermEnter => guarded (takes_submit mode) KeySubmit
    | TermTab => Some (KeyPress KeyTab)
    | TermEscape => Some (KeyPress KeyEscape)
    | TermBackspace => Some (KeyPress KeyBackspace)
    | TermDown => guarded (takes_rows mode) KeyDown
    | TermUp => guarded (takes_rows mode) KeyUp
    | TermLeft => guarded (takes_columns mode) KeyParent
    | TermRight => guarded (takes_columns mode) KeyOpen
    | TermRune =>
      if bool_decide (mode = ModeEditRecovery) then
        if String.eqb str "j" then Some (KeyPress KeyDown) else
        if String.eqb str "k" then Some (KeyPress KeyUp) else
        if String.eqb str "K" then Some (KeyPress KeyPreviewDrawer) else None
      else if takes_text mode then Some (TextInput str) else
      match digit_of str with
      | Some digit => Some (CountDigit digit)
      | None =>
        match keymap_lookup keymap mode str with
        | Some key => Some (KeyPress key)
        | None => Some (TextInput str)
        end
      end
    | TermOther => None
    end
  end.

(** internal/app/stage1.go: the layout of a workspace that is opened again. *)
Definition applyWorkspaceLayout (m : Model) (activePane : Z) (drawer : DrawerState) : Model :=
  m <| m_Active := if activePane =? Right then Right else Left |> <| m_Drawer := drawer |>.
