(* ===== verification/TuiFacts.v ===== *)
(** The rows of a pane: sorting is by a total preorder, so what is shown is one
    order of the entries that pass; the cursor and the visual anchor stay on rows.
    Then what every action keeps of the interface's model, and which intents an
    action may lead to. *)
From S2P Require Import Prelude Domain Utf8 Preview GoPath Plan JobTables JobStore TuiModel TuiReducer TuiKeys.
From S2P Require CacheRecords Edit Planner.

(** * Panes *)
(** * Stable sorting *)
Create HintDb tui.

Section Sort.
Context {A} (less : A → A → bool).

Lemma insert_stable_perm x l : insert_stable less x l ≡ₚ x :: l.
Proof.
  induction l as [|y l IH]; cbn; [done|]. destruct (less y x); [|done].
  by rewrite IH, Permutation_swap.
Qed.
Lemma SliceStable_perm l : SliceStable less l ≡ₚ l.
Proof. induction l as [|x l IH]; cbn; [done|]. by rewrite insert_stable_perm, IH. Qed.

(** [x] may stand before [y]. *)
Definition in_order (x y : A) : Prop := less y x = false.
Hypothesis order_total : ∀ x y, less x y = true → less y x = false.
Hypothesis order_trans : ∀ x y z, in_order x y → in_order y z → in_order x z.

Lemma insert_stable_sorted x l :
  StronglySorted in_order l → StronglySorted in_order (insert_stable less x l).
Proof.
  induction 1 as [|y l Hl IH Hy]; cbn; [by repeat constructor|].
  destruct (less y x) eqn:E.
  - constructor; [done|]. rewrite insert_stable_perm. constructor; [|done].
    by apply order_total.
  - constructor; [by constructor|]. constructor; [done|].
    rewrite Forall_forall in *. intros z Hz. by eapply order_trans, Hy.
Qed.
Lemma SliceStable_sorted l : StronglySorted in_order (SliceStable less l).
Proof. induction l; [constructor|by apply insert_stable_sorted]. Qed.
End Sort.

(** * Three-way comparisons

    A comparison whose sign is antisymmetric and whose order is transitive. *)
Record three_way {A} (c : A → A → Z) : Prop := {
  tw_sym x y : c x y < 0 ↔ 0 < c y x;
  tw_trans x y z : c x y ≤ 0 → c y z ≤ 0 → c x z ≤ 0;
}.
Definition lex {A} (c d : A → A → Z) (x y : A) : Z := if c x y =? 0 then d x y else c x y.
Definition flip_if {A} (b : bool) (c : A → A → Z) (x y : A) : Z := if b then c y x else c x y.

Lemma lex_three_way {A} (c d : A → A → Z) : three_way c → three_way d → three_way (lex c d).
Proof.
  intros Hc Hd. split.
  - intros x y. pose proof (tw_sym _ Hc x y). pose proof (tw_sym _ Hc y x).
    pose proof (tw_sym _ Hd x y). unfold lex.
    destruct (Z.eqb_spec (c x y) 0), (Z.eqb_spec (c y x) 0); lia.
  - intros x y z. pose proof (tw_trans _ Hc x y z). pose proof (tw_trans _ Hc y z x).
    pose proof (tw_trans _ Hc z x y). pose proof (tw_trans _ Hd x y z).
    pose proof (tw_sym _ Hc x y). pose proof (tw_sym _ Hc y x). pose proof (tw_sym _ Hc y z).
    pose proof (tw_sym _ Hc z y). pose proof (tw_sym _ Hc x z). pose proof (tw_sym _ Hc z x).
    unfold lex. destruct (Z.eqb_spec (c x y) 0), (Z.eqb_spec (c y z) 0), (Z.eqb_spec (c x z) 0); lia.
Qed.
Lemma flip_three_way {A} b (c : A → A → Z) : three_way c → three_way (flip_if b c).
Proof.
  intros Hc. destruct b; [|done]. split; unfold flip_if.
  - intros x y. by rewrite (tw_sym _ Hc).
  - intros x y z Hx Hy. by apply (tw_trans _ Hc z y x).
Qed.
Lemma on_three_way {A B} (f : A → B) (c : B → B → Z) : three_way c → three_way (λ x y, c (f x) (f y)).
Proof. intros Hc. split; intros; [apply (tw_sym _ Hc)|by apply (tw_trans _ Hc _ (f y))]. Qed.
Lemma Z_three_way : three_way (λ x y, if x <? y then -1 else if x >? y then 1 else 0).
Proof. split; intros *; repeat case_match; lia. Qed.

Lemma string_compare_trans a b c :
  String.compare a b ≠ Gt → String.compare b c ≠ Gt → String.compare a c ≠ Gt.
Proof.
  revert b c. induction a as [|x a IH]; intros [|y b] [|z c]; cbn; try done.
  unfold Ascii.compare. intros Hab Hbc.
  destruct (N.compare_spec (N_of_ascii x) (N_of_ascii y)), (N.compare_spec (N_of_ascii y) (N_of_ascii z));
    try done; destruct (N.compare_spec (N_of_ascii x) (N_of_ascii z)); try done; try lia.
  by apply (IH b c).
Qed.
Lemma Compare_three_way : three_way Compare.
Proof.
  split; unfold Compare.
  - intros x y. rewrite (String.compare_antisym x y). destruct (String.compare y x); cbn; lia.
  - intros x y z Hx Hy. pose proof (string_compare_trans x y z) as H.
    destruct (String.compare x y), (String.compare y z), (String.compare x z); try lia; exfalso; by apply H.
Qed.
#[export] Hint Resolve lex_three_way flip_three_way on_three_way Z_three_way Compare_three_way : core.

(** What is less by such a comparison can be sorted. *)
Lemma three_way_order {A} (c : A → A → Z) (less : A → A → bool) :
  three_way c → (∀ x y, less x y = (c x y <? 0)) →
  (∀ x y, less x y = true → less y x = false) ∧
  (∀ x y z, in_order less x y → in_order less y z → in_order less x z).
Proof.
  intros Hc Hless. unfold in_order. setoid_rewrite Hless. split.
  - intros x y Hx%Z.ltb_lt. apply Z.ltb_ge. apply (tw_sym _ Hc) in Hx. lia.
  - intros x y z Hx%Z.ltb_ge Hy%Z.ltb_ge. apply Z.ltb_ge.
    assert (∀ a b, 0 ≤ c b a → c a b ≤ 0) as Hle.
    { intros a b Hab. destruct (Z.le_gt_cases (c a b) 0) as [|Hlt]; [done|].
      apply (tw_sym _ Hc b a) in Hlt. lia. }
    pose proof (tw_trans _ Hc x y z (Hle _ _ Hx) (Hle _ _ Hy)) as Hxz.
    destruct (Z.le_gt_cases 0 (c z x)) as [|Hlt]; [done|]. apply (tw_sym _ Hc) in Hlt. lia.
Qed.

(** * The order of rows *)
Definition known_cmp {A} (l r : option A) : Z :=
  compareKnown (bool_decide (is_Some l)) (bool_decide (is_Some r)).
Lemma known_three_way {A} : three_way (known_cmp (A := A)).
Proof. split; unfold known_cmp; intros [] []; try intros []; cbn; lia. Qed.
Definition value_cmp (l r : option Z) : Z :=
  match l, r with Some l, Some r => if l <? r then -1 else if l >? r then 1 else 0 | _, _ => 0 end.

Section Order.
Context `{Unicode}.

(** What is compared: directories first, then entries whose key is known, then the
    key, the name without case and the name, the last three downwards if asked. *)
Definition dir_key (e : Entry) : Z := if String.eqb (entry_Kind e) EntryDirectory then 0 else 1.
Definition missing_key (s : SortState) (e : Entry) : Z :=
  match sort_Key s with
  | SortSize => match md_Size (entry_Metadata e) with Some _ => 0 | None => 1 end
  | SortModified => match md_ModifiedAt (entry_Metadata e) with Some _ => 0 | None => 1 end
  | _ => 0
  end.
Definition main_cmp (s : SortState) (l r : Entry) : Z :=
  let z x y := if x <? y then -1 else if x >? y then 1 else 0 in
  match sort_Key s with
  | SortSize => z (default 0 (md_Size (entry_Metadata l))) (default 0 (md_Size (entry_Metadata r)))
  | SortModified => z (default 0 (md_ModifiedAt (entry_Metadata l))) (default 0 (md_ModifiedAt (entry_Metadata r)))
  | SortKind => Compare (entry_Kind l) (entry_Kind r)
  | SortName => Compare (ToLower (entry_Name l)) (ToLower (entry_Name r))
  end.
Definition z_cmp (x y : Z) : Z := if x <? y then -1 else if x >? y then 1 else 0.
Definition entry_cmp (s : SortState) : Entry → Entry → Z :=
  lex (λ l r, z_cmp (dir_key l) (dir_key r))
    (lex (λ l r, z_cmp (missing_key s l) (missing_key s r))
       (flip_if (sort_Descending s)
          (lex (main_cmp s) (lex (λ l r, Compare (ToLower (entry_Name l)) (ToLower (entry_Name r)))
                               (λ l r, Compare (entry_Name l) (entry_Name r)))))).

Lemma main_three_way s : three_way (main_cmp s).
Proof.
  unfold main_cmp. destruct (sort_Key s).
  - apply (on_three_way (λ e, ToLower (entry_Name e)) Compare), Compare_three_way.
  - apply (on_three_way (λ e, default 0 (md_Size (entry_Metadata e))) _ Z_three_way).
  - apply (on_three_way (λ e, default 0 (md_ModifiedAt (entry_Metadata e))) _ Z_three_way).
  - apply (on_three_way entry_Kind Compare), Compare_three_way.
Qed.
Lemma entry_three_way s : three_way (entry_cmp s).
Proof.
  unfold entry_cmp. apply lex_three_way; [apply (on_three_way dir_key z_cmp Z_three_way)|].
  apply lex_three_way; [apply (on_three_way (missing_key s) z_cmp Z_three_way)|].
  apply flip_three_way, lex_three_way; [apply main_three_way|].
  apply lex_three_way; [apply (on_three_way (λ e, ToLower (entry_Name e)) Compare), Compare_three_way|].
  apply (on_three_way entry_Name Compare), Compare_three_way.
Qed.

Lemma Compare_refl a : Compare a a = 0.
Proof.
  unfold Compare. pose proof (String.compare_antisym a a). by destruct (String.compare a a).
Qed.
Lemma Compare_opp a b : Compare b a = - Compare a b.
Proof. unfold Compare. rewrite (String.compare_antisym b a). by destruct (String.compare a b). Qed.

(** What [compareEntries] answers, in those terms. *)
Lemma compareEntries_cmp s l r :
  compareEntries l r (sort_Key s) =
  if z_cmp (missing_key s l) (missing_key s r) =? 0 then (main_cmp s l r, false)
  else (z_cmp (missing_key s l) (missing_key s r), true).
Proof.
  unfold compareEntries, compareOptionalUint64, missing_key, main_cmp. destruct (sort_Key s); [done| | |done].
  - destruct (md_Size _) as [x|], (md_Size _) as [y|]; cbn; try done.
    unfold z_cmp. cbn. by destruct (x <? y), (x >? y).
  - by destruct (md_ModifiedAt _) as [x|], (md_ModifiedAt _) as [y|].
Qed.
Lemma z_cmp_opp x y : z_cmp y x = - z_cmp x y.
Proof. unfold z_cmp. repeat case_match; lia. Qed.
Lemma main_cmp_opp s l r : main_cmp s r l = - main_cmp s l r.
Proof. unfold main_cmp. destruct (sort_Key s); apply z_cmp_opp || apply Compare_opp. Qed.

Lemma first_nonzero (a b c : Z) :
  (if (if a =? 0 then b else a) =? 0 then c else if a =? 0 then b else a) =
  (if a =? 0 then if b =? 0 then c else b else a).
Proof. destruct (Z.eqb_spec a 0); [done|]. by rewrite (proj2 (Z.eqb_neq a 0)). Qed.
Lemma first_nonzero_opp (a b c : Z) :
  (if - a =? 0 then if - b =? 0 then - c else - b else - a) =
  - (if a =? 0 then if b =? 0 then c else b else a).
Proof. destruct (Z.eqb_spec (- a) 0), (Z.eqb_spec a 0), (Z.eqb_spec (- b) 0), (Z.eqb_spec b 0); lia. Qed.

Lemma entryLess_cmp s l r : entryLess s l r = (entry_cmp s l r <? 0).
Proof.
  unfold entryLess, entry_cmp, lex at 1, dir_key. rewrite compareEntries_cmp.
  destruct (String.eqb (entry_Kind l) _), (String.eqb (entry_Kind r) _); try done; cbn [negb Bool.eqb].
  all: change (z_cmp 0 0) with 0; change (z_cmp 1 1) with 0; cbn [Z.eqb].
  all: unfold lex at 1; destruct (z_cmp _ _ =? 0); [|done].
  all: unfold flip_if, lex; rewrite first_nonzero; destruct (sort_Descending s); [|done].
  all: rewrite (main_cmp_opp s l r), (Compare_opp (ToLower (entry_Name l))), (Compare_opp (entry_Name l)).
  all: rewrite first_nonzero_opp, Z.gtb_ltb; generalize (if main_cmp s l r =? 0 then
    if Compare (ToLower (entry_Name l)) (ToLower (entry_Name r)) =? 0 then Compare (entry_Name l) (entry_Name r)
    else Compare (ToLower (entry_Name l)) (ToLower (entry_Name r)) else main_cmp s l r); intros z; lia.
Qed.

(** The order of rows: with a query the score comes before everything. *)
Definition row_cmp (p : PaneState) : nat * (Z * Entry) → nat * (Z * Entry) → Z :=
  let score (r : nat * (Z * Entry)) := if String.eqb (pane_Filter p) "" then 0 else r.2.1 in
  lex (λ l r, z_cmp (score l) (score r)) (λ l r, entry_cmp (pane_Sort p) l.2.2 r.2.2).
Lemma row_less_cmp p l r : row_less p l r = (row_cmp p l r <? 0).
Proof.
  unfold row_less, row_cmp, lex at 1. destruct (String.eqb (pane_Filter p) ""); cbn [negb andb].
  { apply entryLess_cmp. }
  unfold z_cmp. destruct (Z.eqb_spec l.2.1 r.2.1) as [->|Hne]; cbn.
  - rewrite Z.ltb_irrefl, Z.gtb_ltb, Z.ltb_irrefl. cbn. apply entryLess_cmp.
  - rewrite Z.gtb_ltb. destruct (Z.ltb_spec l.2.1 r.2.1); [done|].
    by rewrite (proj2 (Z.ltb_lt r.2.1 l.2.1)) by lia.
Qed.
Lemma row_three_way p : three_way (row_cmp p).
Proof.
  apply lex_three_way; [apply (on_three_way _ z_cmp Z_three_way)|].
  apply (on_three_way (λ r : nat * (Z * Entry), r.2.2) _ (entry_three_way (pane_Sort p))).
Qed.
End Order.

(** * Well-formed panes *)
Section Panes.
Context `{Unicode}.

(** The rows are the entries that pass, each once, in order. *)
Definition rows_shown (p : PaneState) : Prop :=
  ∃ shown, pane_visible p = shown.*1 ∧ shown ≡ₚ rows p ∧ StronglySorted (in_order (row_less p)) shown.
Definition cursor_on {A} (cursor : Z) (l : list A) : Prop :=
  0 ≤ cursor ∧ (cursor < Z.of_nat (length l) ∨ l = [] ∧ cursor = 0).
Definition anchored (p : PaneState) : Prop :=
  pane_hasVisualAnchor p = true →
  0 ≤ pane_visualAnchorView p < VisibleCount p ∧
  entry_Location (visibleEntry p (pane_visualAnchorView p)) = pane_visualAnchor p.
(** The pane shows a location of its endpoint, and a listing that is waiting for
    its first page is one of the endpoint it will have then. *)
Definition at_home (p : PaneState) : Prop :=
  loc_EndpointID (pane_Location p) = ep_ID (pane_Endpoint p) ∧
  let l := pane_Listing p in
  (ls_hasPage l = false → loc_EndpointID (ls_pendingLocation l) ≠ "" →
   loc_EndpointID (ls_pendingLocation l) =
     ep_ID (if ls_commitEndpoint l then ls_pendingEndpoint l else pane_Endpoint p)).
Record pane_ok (p : PaneState) : Prop := {
  ok_rows : rows_shown p;
  ok_cursor : cursor_on (pane_Cursor p) (pane_visible p);
  ok_anchor : anchored p;
  ok_home : at_home p;
}.

Lemma rows_shown_sorted p : rows_shown (p <| pane_visible := (SliceStable (row_less p) (rows p)).*1 |>).
Proof.
  exists (SliceStable (row_less p) (rows p)). split; [done|]. split; [apply SliceStable_perm|].
  destruct (three_way_order _ _ (row_three_way p) (row_less_cmp p)). by apply SliceStable_sorted.
Qed.

Lemma elem_of_rows p i score e :
  (i, (score, e)) ∈ rows p ↔ pane_Entries p !! i = Some e ∧ row_score p e = Some score.
Proof.
  unfold rows. rewrite list_elem_of_omap. split.
  - intros ([j e'] & Hj & Hs). apply fmap_Some in Hs as (sc & Hs & [= -> -> ->]). cbn in Hs.
    apply elem_of_lookup_imap in Hj as (k & x & [= -> ->] & Hk). done.
  - intros [Hi Hs]. exists (i, e). cbn. rewrite Hs. split; [|done].
    apply elem_of_lookup_imap. by exists i, e.
Qed.

(** Every visible row is an entry. *)
Lemma visible_entries p i : rows_shown p → i ∈ pane_visible p → is_Some (pane_Entries p !! i).
Proof.
  intros (shown & -> & Hperm & _) ([? [sc e]] & -> & Hin)%list_elem_of_fmap. cbn.
  rewrite Hperm in Hin. apply elem_of_rows in Hin as [-> _]. done.
Qed.

Lemma visibleEntry_lookup p index :
  rows_shown p → 0 ≤ index < VisibleCount p →
  ∃ i e, pane_visible p !! Z.to_nat index = Some i ∧ pane_Entries p !! i = Some e ∧ visibleEntry p index = e.
Proof.
  intros Hrows Hi. unfold VisibleCount in Hi.
  destruct (lookup_lt_is_Some_2 (pane_visible p) (Z.to_nat index)) as [i Ei]; [lia|].
  destruct (visible_entries p i Hrows) as [e Ee]; [by eapply list_elem_of_lookup_2|].
  exists i, e. split_and!; [done..|]. unfold visibleEntry, VisibleCount. rewrite Ei. cbn. rewrite Ee.
  destruct (_ || _) eqn:E; [|done]. breflect. lia.
Qed.

(** * What keeps a pane well formed *)
Lemma clamp_on p : cursor_on (pane_Cursor (clampCursor p)) (pane_visible (clampCursor p)).
Proof.
  unfold clampCursor, cursor_on, VisibleCount. destruct (Z.eqb_spec (Z.of_nat (length (pane_visible p))) 0) as [E|E].
  - destruct (pane_visible p) eqn:Ev; [|done]. cbn. rewrite Ev. split; [done|by right].
  - cbn. lia.
Qed.
Lemma find_row_spec p l i :
  find_row p l = Some i → 0 ≤ i < VisibleCount p ∧ entry_Location (visibleEntry p i) = l.
Proof.
  unfold find_row. intros ([j k] & Hj & ->)%fmap_Some. apply list_find_Some in Hj as (Hj & Hl & _).
  apply lookup_seq in Hj as [-> Hj]. unfold VisibleCount. cbn in *. split; [lia|done].
Qed.

Lemma rebuild_ok p : at_home p → pane_ok (rebuildVisible p).
Proof.
  intros Hhome. unfold rebuildVisible.
  set (q := p <| pane_visible := (SliceStable (row_less p) (rows p)).*1 |>).
  assert (rows_shown q) as Hq by apply rows_shown_sorted.
  assert (at_home q) as Hh by exact Hhome. clearbody q. clear p Hhome.
  assert (rows_shown (clampCursor q) ∧ at_home (clampCursor q)) as [Hc Hch]
    by (unfold clampCursor; destruct (_ =? 0); split; assumption).
  pose proof (clamp_on q) as Hon. revert Hc Hch Hon. generalize (clampCursor q). clear q Hq Hh. intros q Hq Hh Hon.
  unfold rebindVisualAnchor. destruct (pane_hasVisualAnchor q) eqn:Ea; cbn [negb].
  - destruct (find_row q _) as [i|] eqn:Ef; split; try assumption.
    + intros _. by apply find_row_spec in Ef.
    + by intros ?.
  - split; try assumption. intros E. by rewrite Ea in E.
Qed.

Lemma with_cursor_ok p c :
  pane_ok p → cursor_on c (pane_visible p) → pane_ok (p <| pane_Cursor := c |>).
Proof. by intros [] ?; split. Qed.
Lemma select_ok p l : pane_ok p → pane_ok (selectPaneLocation p l).
Proof.
  intros Hp. unfold selectPaneLocation. destruct (find_row p l) as [i|] eqn:E.
  - apply with_cursor_ok; [done|]. apply find_row_spec in E as [Hi _]. unfold VisibleCount in Hi. split; [lia|]. lia.
  - pose proof (clamp_on p) as Hon. unfold clampCursor in *. destruct (_ =? 0); by apply with_cursor_ok.
Qed.
Lemma rebindCursor_ok p : pane_ok p → pane_ok (rebindCursorAnchor p).
Proof. intros Hp. unfold rebindCursorAnchor. destruct (negb _); [done|by apply select_ok]. Qed.
Lemma rebindVisual_ok p : pane_ok p → pane_ok (rebindVisualAnchor p).
Proof.
  intros [Hr Hc Ha Hh]. unfold rebindVisualAnchor. destruct (negb _) eqn:En; [done|].
  destruct (find_row _ _) as [i|] eqn:E; split; try assumption; [by intros _; apply find_row_spec|by intros ?].
Qed.
Lemma refilter_ok p f : at_home p → pane_ok (rebuildVisible (p <| pane_Filter := f |> <| pane_visible := [] |>)).
Proof. intros Hp. by apply rebuild_ok. Qed.
Lemma first_row_ok p : pane_ok p → pane_ok (p <| pane_Cursor := 0 |>).
Proof.
  intros Hp. apply with_cursor_ok; [done|]. destruct (ok_cursor _ Hp) as [? Hc]. split; [done|].
  destruct (pane_visible p); [by right|]. left. cbn. lia.
Qed.
End Panes.

(** * The model *)
(** * The invariant *)

(** A paste, and a move. *)
Definition copies (i : Intent) : Prop :=
  i_Kind i = IntentCreateCopyJob ∧ i_Clipboard i ≠ Planner.ClipboardCut.
Definition moves (i : Intent) : Prop :=
  i_Kind i = IntentCreateCopyJob ∧ i_Clipboard i = Planner.ClipboardCut.
Definition batch (P : Intent → Prop) (l : list Intent) : Prop :=
  Forall P l ∧ Z.of_nat (length l) ≤ maxBatchJobIntents.
(** The dialog that asks for a deletion is open, or comes back after a login. *)
Definition asking (mode : Mode) (auth : AuthState) : Prop :=
  mode = ModeDeleteConfirm ∨ au_Active auth = true ∧ au_ReturnMode auth = ModeDeleteConfirm.

Section Inv.
Context `{Unicode}.

Record inv (m : Model) : Prop := {
  inv_left : pane_ok (m_Panes m).1;
  inv_right : pane_ok (m_Panes m).2;
  inv_active : validPane (m_Active m) = true;
  inv_edit : validPane (ed_Pane (m_EditDecision m)) = true;
  inv_jobs : cursor_on (m_JobCursor m) (m_Jobs m);
  inv_search : cursor_on (sh_Cursor (m_Search m)) (sh_Results (m_Search m)) ∧
    Z.of_nat (length (sh_Results (m_Search m))) ≤ SearchResultLimit;
  inv_content : cursor_on (cs_Cursor (m_ContentSearch m)) (cs_Results (m_ContentSearch m)) ∧
    Z.of_nat (length (cs_Results (m_ContentSearch m))) ≤ SearchResultLimit;
  inv_recovery : cursor_on (er_Cursor (m_EditRecovery m)) (er_Items (m_EditRecovery m));
  inv_count : 0 ≤ m_Count m ≤ navigationCountLimit;
  inv_preview : blen (pv_Data (m_Preview m)) ≤ PreviewByteLimit;
  inv_delete : asking (m_Mode m) (m_Auth m) →
    (m_DeleteConfirmation m = 1 ∨ m_DeleteConfirmation m = 2) ∧ m_pendingDelete m ≠ [];
  inv_move : batch moves (m_pendingMove m);
  inv_repeat_move : batch moves (m_repeatMove m);
  inv_repeat : batch copies (m_repeatIntents m);
}.

(** * What an intent with a lasting effect takes *)
Definition submits (m : Model) (a : Action) (mode : Mode) : Prop :=
  a = KeyPress KeySubmit ∧ m_Mode m = mode.
Definition names_plainly (name : string) (source : Location) : Prop :=
  name ≠ "" ∧ name ≠ "." ∧ name ≠ ".." ∧ path_Base name = name ∧ name ≠ path_Base (loc_Path source).

(** What the dialogs of a rename, of a command and of a decision on an edit send. *)
Definition rename_intent (m : Model) (parent : Location) : Intent :=
  (intent_at IntentCreateCopyJob (m_Active m) parent) <| i_Clipboard := Planner.ClipboardCut |>
    <| i_Source := m_pendingRename m |> <| i_Name := of_runes (m_renameInput m) |>.
Definition command_intent (m : Model) : Intent :=
  (intent_at IntentRunCommand (m_Active m) (pane_Location (active_pane m)))
    <| i_Endpoint := pane_Endpoint (active_pane m) |> <| i_CommandText := of_runes (m_commandInput m) |>.
Definition decision_intent (d : EditDecisionState) (decision : string) (saveAs : Location) (refresh : bool) :
    Intent :=
  (intent_at IntentEditDecision (ed_Pane d) (ed_Location d)) <| i_EditSessionID := ed_SessionID d |>
    <| i_EditDecision := decision |> <| i_SaveAsTarget := saveAs |> <| i_RefreshAfterEdit := refresh |>.

(** Deletions, moves, commands, content searches, the clearing of the cache and
    external programs are asked for by submitting their dialog, as it shows them;
    an edit is decided on in its dialog, and sent back over a conflict only by the
    key for that; a login is answered only to the challenge on display. *)
Definition asked (m : Model) (a : Action) (i : Intent) : Prop :=
  match i_Kind i with
  | IntentCreateDeleteJob =>
    submits m a ModeDeleteConfirm ∧ au_Active (m_Auth m) = false ∧ m_DeleteConfirmation m = 2 ∧
    ∃ r, r ∈ m_pendingDelete m ∧ i = delete_intent r
  | IntentCreateCopyJob =>
    i_Clipboard i = Planner.ClipboardCut → au_Active (m_Auth m) = false ∧
    (submits m a ModeMoveConfirm ∧ i ∈ m_pendingMove m ∨
     submits m a ModeRename ∧ names_plainly (i_Name i) (ref_Location (m_pendingRename m)) ∧
     ∃ parent, parentLocation (ref_Location (m_pendingRename m)) = Some parent ∧ i = rename_intent m parent)
  | IntentRunCommand =>
    submits m a ModeCommandConfirm ∧ i = command_intent m ∧ loc_EndpointID (i_Location i) = ep_ID (i_Endpoint i)
  | IntentSearchContent =>
    submits m a ModeContentSearchConfirm ∧
    i = (intent_at IntentSearchContent (m_Active m) (pane_Location (active_pane m)))
          <| i_SearchPattern := of_runes (m_searchInput m) |>
  | IntentCacheClear =>
    submits m a ModeCacheClearConfirm ∧
    i = (intent_at IntentCacheClear (m_Active m) (pane_Location (active_pane m)))
          <| i_CacheClearScope := m_CacheClearScope m |>
  | IntentEditLaunch =>
    submits m a ModeEditLaunchConfirm ∧
    i = (intent_at IntentEditLaunch (el_Pane (m_EditLaunch m)) (el_Location (m_EditLaunch m)))
          <| i_EditSessionID := el_SessionID (m_EditLaunch m) |>
  | IntentEditDecision =>
    let d := m_EditDecision m in
    m_Mode m = ModeEditDecision ∧
      (∃ decision refresh, i = decision_intent d decision Location_zero refresh ∧
         (decision = Edit.DecisionSkip ∨
          decision = Edit.DecisionUpload ∧ a = KeyPress KeySubmit ∧
            ed_State d = Edit.StateAwaitingUploadConfirmation ∨
          decision = Edit.DecisionOverwrite ∧ a = KeyPress KeyConflictOverwrite ∧
            ed_State d = Edit.StateConflict ∨
          decision = ed_Decision d ∧ a = KeyPress KeySubmit ∧ ed_State d = Edit.StateSyncBackFrozen)) ∨
    submits m a ModeEditSaveAs ∧
      (∃ target, i = decision_intent d Edit.DecisionSaveAs target false ∧
         NewLocation (loc_EndpointID (ed_Location d)) (of_runes (m_editSaveAs m)) = Ok target ∧
         HasPrefix (chars (loc_Path target)) [SLASH] = true)
  | IntentAuthResolve =>
    au_Active (m_Auth m) = true ∧ i_ChallengeID i = au_ChallengeID (m_Auth m) ∧
    (a = KeyPress KeySubmit ∧ i_Cancel i = false ∧ i_Answer i = of_runes (au_answer (m_Auth m)) ∨
     a = KeyPress KeyEscape ∧ i_Cancel i = true ∧ i_Answer i = "")
  | _ => True
  end.

Definition step_ok (m : Model) (a : Action) (r : Model * list Intent) : Prop :=
  inv r.1 ∧ Forall (asked m a) r.2 ∧
  (∀ i, i ∈ r.2 → i_Kind i = IntentCreateCopyJob → Z.of_nat (length r.2) ≤ maxBatchJobIntents).

(** Intents that only look are always in order. *)
Definition looks (i : Intent) : bool :=
  match i_Kind i with
  | IntentList | IntentPreview | IntentPreviewCancel | IntentJobList | IntentDiagnosticList
  | IntentReleaseEndpoint => true
  | _ => false
  end.
Lemma looks_ok m a m' l : inv m' → forallb looks l = true → step_ok m a (m', l).
Proof.
  intros Hm Hl. split; [done|]. rewrite forallb_forall in Hl. split.
  - apply Forall_forall. intros i Hi. specialize (Hl i ltac:(by apply list_elem_of_In)).
    unfold looks, asked in *. by destruct (i_Kind i).
  - intros i Hi E. specialize (Hl i ltac:(by apply list_elem_of_In)). unfold looks in Hl. by rewrite E in Hl.
Qed.

Definition looking (r : Model * list Intent) : Prop := inv r.1 ∧ forallb looks r.2 = true.
Lemma looking_ok m a r : looking r → step_ok m a r.
Proof. destruct r. intros []. by apply looks_ok. Qed.
Lemma looking_quiet m : inv m → looking (m, []).
Proof. by split. Qed.

Lemma quiet_ok m a m' : inv m' → step_ok m a (m', []).
Proof. intros Hm. by apply looks_ok. Qed.

Lemma last_index_on {A} (l : list A) c : 0 ≤ c → cursor_on (Z.min c (last_index l)) l.
Proof.
  intros Hc. unfold cursor_on, last_index. split; [lia|].
  destruct l; [right; split; [done|cbn; lia]|left; cbn; lia].
Qed.
Lemma cursor_nonneg {A} c (l : list A) : cursor_on c l → 0 ≤ c.
Proof. by intros []. Qed.
Lemma cursor_up {A} c (l : list A) : cursor_on c l → cursor_on (Z.max (c - 1) 0) l.
Proof. unfold cursor_on. intros [? [?|[-> ->]]]; [lia|]. split; [lia|]. by right. Qed.

End Inv.

(** What a handler does not touch is at hand. *)
Ltac settle :=
  match goal with
  | H : inv ?m |- inv _ =>
    let H' := fresh in pose proof H as H'; destruct H'; split; cbn; try assumption; try done
  end.
(** Leaving a dialog's mode, or entering one that does not ask for a deletion. *)
Ltac elsewhere :=
  match goal with
  | Hd : asking _ _ → _ |- asking _ _ → _ => intros [?|?]; [done|apply Hd; by right]
  end.

(** The conditions at the head of a handler. *)
Ltac branch :=
  repeat match goal with
  | |- inv (if ?b then _ else _) => destruct b eqn:?
  | |- inv (match ?x with _ => _ end) => destruct x eqn:?
  | |- looking (if ?b then _ else _) => destruct b eqn:?
  | |- looking (match ?x with _ => _ end) => destruct x eqn:?
  | |- step_ok _ _ (if ?b then _ else _) => destruct b eqn:?
  | |- step_ok _ _ (match ?x with _ => _ end) => destruct x eqn:?
  end.

Section Handlers.
Context `{Unicode}.

Lemma pane_at_ok m id : inv m → pane_ok (pane_at m id).
Proof. intros [Hl Hr]. unfold pane_at. by destruct (id =? Left). Qed.
Lemma active_ok m : inv m → pane_ok (active_pane m).
Proof. apply pane_at_ok. Qed.
Lemma set_pane_ok m id p : inv m → pane_ok p → inv (set_pane m id p).
Proof. intros Hm Hp. settle; by destruct (id =? Left). Qed.
Lemma notice_ok m t : inv m → inv (notice m t).
Proof. intros Hm. settle. Qed.
Lemma mode_ok m to : inv m → to ≠ ModeDeleteConfirm → inv (mode m to).
Proof. intros Hm Hto. settle. elsewhere. Qed.
Hint Resolve pane_at_ok active_ok set_pane_ok notice_ok mode_ok quiet_ok : tui.

(** A pane whose rows are the same. *)
Lemma same_rows_ok p q :
  pane_ok p → at_home q →
  pane_Entries q = pane_Entries p → pane_Cursor q = pane_Cursor p → pane_Filter q = pane_Filter p →
  pane_Sort q = pane_Sort p → pane_ShowHidden q = pane_ShowHidden p → pane_visible q = pane_visible p →
  pane_visualAnchor q = pane_visualAnchor p → pane_visualAnchorView q = pane_visualAnchorView p →
  pane_hasVisualAnchor q = pane_hasVisualAnchor p → pane_ok q.
Proof.
  intros [Hr Hc Ha _] Hh. destruct p, q. cbn. intros -> -> -> -> -> -> -> -> ->. by split.
Qed.

Lemma home m : inv m → at_home (active_pane m).
Proof. intros Hm. apply ok_home, active_ok, Hm. Qed.
Hint Resolve home rebuild_ok first_row_ok refilter_ok select_ok : tui.

(** * Text *)
Lemma preview_key_ok m key : inv m → looking (reducePreviewKey m key).
Proof.
  intros Hm. unfold reducePreviewKey. branch; split; try done; try (by settle).
  cbn. by case_match.
Qed.

Lemma follow_looks m prev : forallb looks (follow_preview m prev) = true.
Proof. unfold follow_preview, previewRefreshIntents. by repeat case_match. Qed.
Lemma bottom_on p : cursor_on (Z.max (VisibleCount p - 1) 0) (pane_visible p).
Proof.
  unfold cursor_on, VisibleCount. split; [lia|].
  destruct (pane_visible p); [right; split; [done|cbn; lia]|left; cbn; lia].
Qed.
Lemma top_on p : cursor_on 0 (pane_visible p).
Proof. split; [done|]. destruct (pane_visible p); [by right|]. left. cbn. lia. Qed.
Lemma moved_ok m c prev :
  inv m → cursor_on c (pane_visible (active_pane m)) →
  let m' := set_pane m (m_Active m) ((active_pane m) <| pane_Cursor := c |>) in
  looking (m', follow_preview m' prev).
Proof.
  intros Hm Hc. split; [|apply follow_looks]. apply set_pane_ok; [done|].
  apply with_cursor_ok; [by apply active_ok|done].
Qed.

Lemma boundary_ok m key : inv m → looking (jumpToBoundary m key).
Proof.
  intros Hm. unfold jumpToBoundary.
  assert (inv ((mode m ModeNormal) <| m_pathInput := [] |>)) as H1 by (settle; elsewhere).
  revert H1. generalize ((mode m ModeNormal) <| m_pathInput := [] |>). clear m Hm. intros m Hm.
  branch; try (by apply looking_quiet); [by apply preview_key_ok| |]; apply moved_ok;
    auto using top_on, bottom_on.
Qed.

Lemma text_ok m text :
  inv m →
  inv (reduce_search_text m text) ∧ inv (reduce_save_as_text m text) ∧ inv (reduce_auth_text m text) ∧
  inv (reduce_workspace_text m text) ∧ inv (reduce_endpoint_text m text) ∧ inv (reduce_rename_text m text) ∧
  inv (reduce_command_text m text).
Proof.
  intros Hm. unfold reduce_search_text, reduce_save_as_text, reduce_auth_text,
    reduce_workspace_text, reduce_endpoint_text, reduce_rename_text, reduce_command_text.
  split_and!; branch; try done; settle.
Qed.
Lemma jump_text_ok m text : inv m → inv (reduce_jump_text m text).
Proof.
  intros Hm. unfold reduce_jump_text. branch; [settle|settle|].
  apply set_pane_ok; auto with tui.
Qed.
Lemma count_ok m digit : inv m → 0 ≤ digit → inv (reduce_count m digit).
Proof.
  intros Hm Hd. unfold reduce_count. branch; try done. settle.
  unfold navigationCountLimit in *. breflect.
  pose proof (Z.mul_quot_le (1000000 - digit) 10 ltac:(lia) ltac:(lia)). lia.
Qed.

(** * Listings and panes *)
Lemma with_listing_ok p l : pane_ok p → at_home (p <| pane_Listing := l |>) → pane_ok (p <| pane_Listing := l |>).
Proof. intros Hp Hh. by apply (same_rows_ok p). Qed.

Lemma begin_listing_ok m id generation location endpoint connection cg capabilities commit :
  inv m → inv (begin_listing m id generation location endpoint connection cg capabilities commit).
Proof.
  intros Hm. unfold begin_listing. branch; try done. apply set_pane_ok; [done|].
  apply (with_listing_ok (pane_at m id)); [by apply pane_at_ok|]. split; [exact (proj1 (ok_home _ (pane_at_ok m id Hm)))|].
  cbn. intros _ _.
  destruct commit; cbn in *; breflect; by apply String.eqb_eq.
Qed.

Lemma commit_listing_home id p :
  at_home p → ls_hasPage (pane_Listing p) = false → loc_EndpointID (ls_pendingLocation (pane_Listing p)) ≠ "" →
  at_home (commit_listing id p).1 ∧ forallb looks (commit_listing id p).2 = true.
Proof.
  intros [_ Hp] Hpage Hne. specialize (Hp Hpage Hne). unfold commit_listing.
  destruct (ls_commitEndpoint (pane_Listing p)); destruct (negb (bool_decide _)); cbn;
    (split; [by split|]); by repeat case_match.
Qed.

Lemma end_listing_ok p : pane_ok p → pane_ok (end_listing p).
Proof.
  intros Hp. unfold end_listing. apply rebindCursor_ok, rebindVisual_ok.
  apply (same_rows_ok p); [done| |done..]. split; [exact (proj1 (ok_home _ Hp))|]. by cbn.
Qed.

Lemma listing_page_ok m id generation entries done partial :
  inv m → looking (listing_page m id generation entries done partial).
Proof.
  intros Hm. unfold listing_page. branch; try (by apply looking_quiet).
  pose proof (pane_at_ok m id Hm) as Hp.
  assert (at_home p ∧ forallb looks l = true) as [Hh Hl].
  { destruct (ls_hasPage (pane_Listing (pane_at m id))) eqn:Epage; cbn [negb andb] in *.
    - injection Heqp as <- <-. split; [apply ok_home, Hp|done].
    - pose proof (commit_listing_home id (pane_at m id) (ok_home _ Hp) Epage) as Hc.
      rewrite Heqp in Hc. apply Hc. by apply String.eqb_neq. }
  split; [|done]. cbn [fst].
  apply set_pane_ok; [done|].
  assert (pane_ok (rebindCursorAnchor (appendEntries p entries))) as Hq.
  { apply rebindCursor_ok, rebuild_ok. exact Hh. }
  revert Hq. generalize (rebindCursorAnchor (appendEntries p entries)). intros r Hr.
  assert (pane_ok (r <| pane_Listing :=
    (pane_Listing r) <| ls_Partial := ls_Partial (pane_Listing r) || partial |> |>)) as Hr'.
  { apply (with_listing_ok r); [done|]. destruct (ok_home _ Hr) as [? ?]. by split. }
  destruct done; [by apply end_listing_ok|done].
Qed.

Lemma listing_failed_ok m id generation message : inv m → inv (listing_failed m id generation message).
Proof.
  intros Hm. unfold listing_failed. branch; try done. pose proof (pane_at_ok m id Hm) as Hp.
  apply set_pane_ok; [done|]. apply (same_rows_ok (pane_at m id)); [done| |done..].
  split; [exact (proj1 (ok_home _ Hp))|]. by cbn.
Qed.

Lemma set_filter_ok m id query : inv m → inv (set_filter m id query).
Proof.
  intros Hm. unfold set_filter. branch; [done|]. pose proof (pane_at_ok m id Hm) as Hp.
  apply set_pane_ok; [done|].
  pose proof (refilter_ok (pane_at m id) query (ok_home _ Hp)) as Hq.
  destruct (currentLocation _) as [l|]; [|done]. destruct (find_row _ l) as [i|] eqn:E; [|done].
  apply with_cursor_ok; [done|]. apply find_row_spec in E as [Hi _]. unfold VisibleCount in Hi. split; lia.
Qed.

Lemma new_pane_ok endpoint location :
  loc_EndpointID location = ep_ID endpoint → pane_ok (NewPaneState endpoint location).
Proof.
  intros E. split; [| |done|by split].
  - exists []. split; [done|]. split; [done|constructor].
  - split; [done|by right].
Qed.

Lemma pane_connected_ok m id endpoint location state cg capabilities preserve :
  inv m → looking (pane_connected m id endpoint location state cg capabilities preserve).
Proof.
  intros Hm. unfold pane_connected. branch; [by apply looking_quiet|split; [|done]..]; apply set_pane_ok; try done.
  - pose proof (pane_at_ok m id Hm) as Hp. apply (with_listing_ok (pane_at m id)); [done|]. by destruct (ok_home _ Hp).
  - breflect. apply String.eqb_eq in H1. pose proof (new_pane_ok endpoint location H1) as Hp.
    by apply (same_rows_ok (NewPaneState endpoint location)).
Qed.

Lemma connection_changed_ok m id state message : inv m → inv (connection_changed m id state message).
Proof.
  intros Hm. unfold connection_changed. branch; [done|]. pose proof (pane_at_ok m id Hm) as Hp.
  apply set_pane_ok; [done|]. apply (same_rows_ok (pane_at m id)); [done| |done..].
  destruct (ok_home _ Hp) as [? ?]. destruct (String.eqb state StateReady); by split.
Qed.
Lemma capabilities_refreshed_ok m id endpointID capabilities :
  inv m → inv (capabilities_refreshed m id endpointID capabilities).
Proof.
  intros Hm. unfold capabilities_refreshed. branch; try done. pose proof (pane_at_ok m id Hm) as Hp.
  apply set_pane_ok; [done|]. apply (same_rows_ok (pane_at m id)); [done| |done..].
  exact (ok_home _ Hp).
Qed.

(** * Previews, searches, the clipboard *)
Lemma begin_preview_ok m generation location identity view :
  inv m → inv (begin_preview m generation location identity view).
Proof. intros Hm. unfold begin_preview. branch; try done; settle; by vm_compute. Qed.
Lemma preview_chunk_ok m generation identity data done truncated rendered kind summary message :
  inv m → inv (preview_chunk m generation identity data done truncated rendered kind summary message).
Proof.
  intros Hm. unfold preview_chunk. branch; [done|]. settle.
  set (kept := pv_Data (m_Preview m) ++ _).
  assert (blen kept ≤ PreviewByteLimit) as Hk.
  { unfold kept. case_match; [|by rewrite app_nil_r]. breflect. rewrite blen_app. unfold blen in *.
    rewrite length_take. lia. }
  by case_match.
Qed.

Lemma search_event_ok state event :
  0 ≤ sh_Cursor state ∧ Z.of_nat (length (sh_Results state)) ≤ SearchResultLimit →
  0 ≤ sh_Cursor (search_event state event) ∧
  Z.of_nat (length (sh_Results (search_event state event))) ≤ SearchResultLimit.
Proof.
  intros [Hc Hl]. unfold search_event. repeat case_match; try done. cbn. rewrite length_app. cbn.
  breflect. split; [done|lia].
Qed.
Lemma content_event_ok state event :
  0 ≤ cs_Cursor state ∧ Z.of_nat (length (cs_Results state)) ≤ SearchResultLimit →
  0 ≤ cs_Cursor (content_event state event) ∧
  Z.of_nat (length (cs_Results (content_event state event))) ≤ SearchResultLimit.
Proof.
  intros [Hc Hl]. unfold content_event. repeat case_match; try done. cbn. rewrite length_app. cbn.
  breflect. split; [done|lia].
Qed.
Lemma foldl_keeps {A B} (P : B → Prop) (f : B → A → B) l b :
  (∀ b a, P b → P (f b a)) → P b → P (foldl f b l).
Proof. intros Hf. revert b. induction l as [|a l IH]; cbn; auto. Qed.
Lemma search_events_ok m events : inv m → inv (search_events m events).
Proof.
  intros Hm. unfold search_events. settle. destruct inv_search0 as [Hc Hl].
  destruct (foldl_keeps _ search_event events (m_Search m) search_event_ok) as [Hc' Hl'];
    [by split; [eapply cursor_nonneg|]|].
  split; [by apply last_index_on|done].
Qed.
Lemma content_search_events_ok m events : inv m → inv (content_search_events m events).
Proof.
  intros Hm. unfold content_search_events. settle. destruct inv_content0 as [Hc Hl].
  destruct (foldl_keeps _ content_event events (m_ContentSearch m) content_event_ok) as [Hc' Hl'];
    [by split; [eapply cursor_nonneg|]|].
  split; [by apply last_index_on|done].
Qed.
Lemma empty_on {A} : cursor_on 0 (A := A) [].
Proof. split; [done|by right]. Qed.
Lemma searches_ok m :
  inv m →
  (∀ i, inv (begin_search m i)) ∧ (∀ i t, inv (search_failed m i t)) ∧
  (∀ i, inv (begin_content_search m i)) ∧ (∀ i t, inv (content_search_failed m i t)).
Proof.
  intros Hm. unfold begin_search, search_failed, begin_content_search, content_search_failed.
  split_and!; intros; branch; try done; settle; split; done || apply empty_on.
Qed.
Lemma auth_challenge_ok m c e p k : inv m → inv (auth_challenge m c e p k).
Proof.
  intros Hm. unfold auth_challenge. branch; [done|]. settle. intros [?|[_ Hr]]; [done|].
  apply inv_delete0. left. cbn in Hr. by destruct (mode_is _ _).
Qed.

Lemma capture_ok m a pane locations clipboard :
  inv m → step_ok m a (beginClipboardCapture m pane locations clipboard).
Proof.
  intros Hm. split; [by settle|]. split; [by repeat constructor|].
  by intros i ->%list_elem_of_singleton.
Qed.

Lemma copy_intents_batch (P : Intent → Prop) k pane location references n :
  (∀ r, P (copy_intent k pane location r)) → references ≠ [] →
  n ≤ Z.quot maxBatchJobIntents (Z.of_nat (length references)) →
  batch P (mjoin (replicate (Z.to_nat n) (copy_intent k pane location <$> references))).
Proof.
  intros HP Hne Hn. split.
  - apply Forall_forall. intros i (l & Hi & Hl)%list_elem_of_join.
    apply elem_of_replicate in Hl as [-> _]. by apply list_elem_of_fmap in Hi as (r & -> & _).
  - assert (∀ k' l, length (mjoin (replicate k' l) : list Intent) = (k' * length l)%nat) as Hlen.
    { intros k' l. induction k' as [|k' IH]; [done|]. cbn [replicate]. cbn. rewrite length_app. f_equal. apply IH. }
    rewrite Hlen, length_fmap. destruct (Z.le_gt_cases n 0) as [Hn0|Hn0].
    { replace (Z.to_nat n) with 0%nat by lia. done. }
    assert (0 < Z.of_nat (length references)) by (destruct references; [done|cbn; lia]).
    pose proof (Z.mul_quot_le maxBatchJobIntents (Z.of_nat (length references))
      ltac:(by unfold maxBatchJobIntents) ltac:(lia)). nia.
Qed.

Lemma paste_ok m a pane location n : inv m → step_ok m a (pasteClipboard m pane location n).
Proof.
  intros Hm. unfold pasteClipboard.
  set (references := if (_ : bool) then [cb_Reference _] else _). set (k := if n <=? 0 then 1 else n).
  destruct (bool_decide (references = []) || _) eqn:Eb; [by apply quiet_ok, notice_ok|]. breflect. rename H0 into Hne, H1 into Hk.
  destruct (String.eqb_spec (cb_Kind (m_Clipboard m)) Planner.ClipboardCut) as [Ec|Ec].
  - apply quiet_ok. settle; [elsewhere|]. by apply copy_intents_batch.
  - assert (batch copies (mjoin (replicate (Z.to_nat k)
      (copy_intent (cb_Kind (m_Clipboard m)) pane location <$> references)))) as Hb.
    { by apply copy_intents_batch. }
    split; [settle; by repeat constructor|]. destruct Hb as [Hb Hlen]. split; [|by intros]. cbn [snd].
    eapply Forall_impl; [exact Hb|]. intros i [Hkind Hclip]. unfold asked. rewrite Hkind. done.
Qed.

Lemma one_ok m a m' i : inv m' → asked m a i → step_ok m a (m', [i]).
Proof. intros Hm Hi. split; [done|]. split; [by constructor|]. intros j _ _. by vm_compute. Qed.
Lemma step_at m a n r :
  m_Mode n = m_Mode m → m_Auth n = m_Auth m → m_pendingDelete n = m_pendingDelete m →
  m_pendingMove n = m_pendingMove m → m_DeleteConfirmation n = m_DeleteConfirmation m →
  m_EditDecision n = m_EditDecision m → m_EditLaunch n = m_EditLaunch m →
  m_CacheClearScope n = m_CacheClearScope m → m_commandInput n = m_commandInput m →
  m_searchInput n = m_searchInput m → m_renameInput n = m_renameInput m →
  m_pendingRename n = m_pendingRename m → m_editSaveAs n = m_editSaveAs m →
  m_Panes n = m_Panes m → m_Active n = m_Active m →
  step_ok n a r → step_ok m a r.
Proof.
  destruct m, n. cbn. intros -> -> -> -> -> -> -> -> -> -> -> -> -> -> ->. intros (Hinv & Hasked & Hbatch).
  split; [done|]. split; [|done]. eapply Forall_impl; [exact Hasked|]. intros i Hi. exact Hi.
Qed.

Lemma drop_capture_ok m g t : inv m → inv (drop_capture m g t).
Proof. intros Hm. unfold drop_capture. apply notice_ok. branch; settle. Qed.
Lemma captured_ok m a clipboard reference references given message :
  inv m → step_ok m a (clipboard_captured m clipboard reference references given message).
Proof.
  intros Hm. unfold clipboard_captured.
  branch; try (by apply quiet_ok; auto using drop_capture_ok).
  - eapply step_at; [..|apply paste_ok]; try done. settle.
  - apply quiet_ok. settle.
Qed.

Lemma delete_prepared_ok m references message : inv m → inv (delete_prepared m references message).
Proof.
  intros Hm. unfold delete_prepared. branch; try (by apply notice_ok). settle. intros _.
  split; [by left|]. by apply bool_decide_eq_false in Heqb0.
Qed.
Lemma rename_prepared_ok m reference message : inv m → inv (rename_prepared m reference message).
Proof. intros Hm. unfold rename_prepared. branch; try (by apply notice_ok). settle. elsewhere. Qed.

(** * Jobs *)
Lemma update_job_length jobs jobID f jobs' : update_job jobs jobID f = Some jobs' → length jobs' = length jobs.
Proof.
  revert jobs'. induction jobs as [|v jobs IH]; cbn; [done|]. intros jobs'. case_match; [by intros [= <-]|].
  intros (l & Hl & ->)%fmap_Some. cbn. by rewrite (IH l).
Qed.
Lemma cursor_on_length {A B} c (l : list A) (k : list B) :
  length l = length k → cursor_on c l → cursor_on c k.
Proof.
  unfold cursor_on. intros Hl [? Hc]. split; [done|]. destruct Hc as [?|[-> ->]]; [left; lia|].
  right. split; [|done]. by destruct k.
Qed.
Lemma cursor_on_app {A} c (l k : list A) : cursor_on c l → cursor_on c (l ++ k).
Proof.
  unfold cursor_on. rewrite length_app. intros [? Hc]. split; [done|].
  destruct Hc as [?|[-> ->]]; [left; lia|]. destruct k; [by right|]. left. cbn. lia.
Qed.
Lemma refresh_looks m acc locations :
  forallb looks acc.2 = true → forallb looks (foldl (refresh_location m) acc locations).2 = true.
Proof.
  apply (foldl_keeps (λ acc : list PaneID * list Intent, forallb looks acc.2 = true)).
  intros b l Hb. unfold refresh_location.
  apply (foldl_keeps (λ acc : list PaneID * list Intent, forallb looks acc.2 = true)); [|done].
  intros c id Hc. case_match; [|done]. cbn. rewrite forallb_app, Hc. done.
Qed.
Lemma completed_looks m previous current : forallb looks (completedJobRefreshIntents m previous current) = true.
Proof.
  unfold completedJobRefreshIntents.
  apply (foldl_keeps (λ acc : list PaneID * list Intent, forallb looks acc.2 = true)); [|done].
  intros b v Hb. case_match; [done|]. by apply refresh_looks.
Qed.
Lemma update_cursor m jobID f :
  inv m → cursor_on (m_JobCursor m) (default (m_Jobs m) (update_job (m_Jobs m) jobID f)).
Proof.
  intros Hm. destruct (update_job _ _ _) as [jobs|] eqn:E; cbn; [|apply Hm].
  apply update_job_length in E. eapply cursor_on_length; [by symmetry|apply Hm].
Qed.
Lemma job_created_ok m jobID state message : inv m → looking (job_created m jobID state message).
Proof.
  intros Hm. unfold job_created. branch; [by apply looking_quiet, notice_ok|]. split; [|done]. settle.
  match goal with |- context [update_job ?l ?i ?f] => destruct (update_job l i f) as [jobs|] eqn:E end; cbn.
  - apply update_job_length in E. by eapply cursor_on_length.
  - by apply cursor_on_app.
Qed.
Lemma jobs_loaded_ok m jobs observedAt message : inv m → looking (jobs_loaded m jobs observedAt message).
Proof.
  intros Hm. unfold jobs_loaded. branch; [by apply looking_quiet, notice_ok|].
  split; [|apply completed_looks]. settle. by apply last_index_on, (cursor_nonneg _ (m_Jobs m)).
Qed.
Lemma job_updated_ok m snapshot message : inv m → looking (job_updated m snapshot message).
Proof. intros Hm. split; [|apply completed_looks]. apply notice_ok. settle. by apply update_cursor. Qed.

Lemma cursor_next {A} c (l : list A) : cursor_on c l → cursor_on (Z.min (c + 1) (last_index l)) l.
Proof. intros [Hc _]. apply last_index_on. lia. Qed.
Lemma jobs_key_ok m a key : inv m → step_ok m a (reduceJobsKey m key).
Proof.
  intros Hm. unfold reduceJobsKey.
  branch; try (by apply quiet_ok); try (by apply one_ok); apply quiet_ok; settle;
    auto using cursor_next, cursor_up.
Qed.

(** * Commands and edits arriving *)
Lemma command_completed_ok m id location exitCode stdout stderr d1 d2 unknown message :
  inv m → looking (command_completed m id location exitCode stdout stderr d1 d2 unknown message).
Proof.
  intros Hm. unfold command_completed. cbv zeta. destruct (negb (validPane id) || _).
  - apply looking_quiet. settle.
  - split; [|done]. apply notice_ok. settle.
Qed.
Lemma edit_observed_ok m s id location state message decision view :
  inv m → looking (edit_observed m s id location state message decision view).
Proof.
  intros Hm. unfold edit_observed. branch; [by apply looking_quiet|]. split; [|done]. apply notice_ok. breflect.
  settle. elsewhere.
Qed.
Lemma edit_launch_ready_ok m s id location command message :
  inv m → inv (edit_launch_ready m s id location command message).
Proof.
  intros Hm. unfold edit_launch_ready. cbv zeta. destruct (_ || _ || _)%bool; [done|]. apply notice_ok. settle. elsewhere.
Qed.
Lemma recovery_open_ok m k : inv m → inv ((mode m ModeEditRecovery) <| m_RecoverableEdits := k |>).
Proof. intros Hm. settle. elsewhere. Qed.
Lemma edit_recovery_loaded_ok m count sessions message :
  inv m → inv (edit_recovery_loaded m count sessions message).
Proof.
  intros Hm. unfold edit_recovery_loaded. cbv zeta.
  assert (inv (m <| m_EditRecovery := mkRecovery (SliceStable recovery_less sessions) 0 |>
    <| m_RecoverableEdits := count |>)) as H1.
  { settle. split; [done|]. destruct (SliceStable recovery_less sessions); [by right|]. left. cbn. lia. }
  destruct (_ || _)%bool; [done|]. clear Hm.
  repeat case_match; auto using notice_ok, recovery_open_ok.
Qed.
End Handlers.
