(* ===== verification/TuiTheorems.v ===== *)
(** What the keys of each dialog keep and ask for; what holds of every state the
    interface reaches, and what leads to a deletion; listings page by page. *)
From S2P Require Import Prelude Domain Preview GoPath Plan JobTables JobStore TuiModel TuiReducer TuiKeys TuiFacts.
From S2P Require CacheRecords Edit Planner.

(** * Keys and actions *)
Section Keys.
Context `{Unicode}.
Hint Resolve quiet_ok notice_ok mode_ok pane_at_ok active_ok set_pane_ok : tui.

Lemma mode_is_spec m x : mode_is m x = true ↔ m_Mode m = x.
Proof. apply bool_decide_eq_true. Qed.
Lemma recoveryPane_valid m l : inv m → validPane (recoveryPane m l) = true.
Proof. intros Hm. unfold recoveryPane. by repeat case_match; try apply inv_active. Qed.

Lemma batch_nil P : batch P [].
Proof. split; [constructor|by vm_compute]. Qed.
Lemma batch_one (P : Intent → Prop) i : P i → batch P [i].
Proof. intros Hi. split; [by constructor|by vm_compute]. Qed.

(** A dialog that closes with one intent. *)
Ltac closed := settle; try first [elsewhere|intros [?|[? _]]; congruence|apply batch_nil].
Ltac closes := apply one_ok; [closed|cbn; try done].
Ltac stays := apply quiet_ok; first [by apply notice_ok|by apply mode_ok|closed].

Lemma content_confirm_ok m key :
  inv m → m_Mode m = ModeContentSearchConfirm → step_ok m (KeyPress key) (key_content_confirm m key).
Proof.
  intros Hm Hmode. unfold key_content_confirm.
  destruct key; try stays. closes. split; [apply empty_on|by vm_compute].
Qed.
Lemma search_prompt_ok m key : inv m → step_ok m (KeyPress key) (key_search_prompt m key).
Proof.
  intros Hm. unfold key_search_prompt. destruct key; try stays. branch; try stays.
  closes. split; [apply empty_on|by vm_compute].
Qed.
Lemma cache_clear_ok m key :
  inv m → m_Mode m = ModeCacheClearConfirm → step_ok m (KeyPress key) (key_cache_clear m key).
Proof. intros Hm Hmode. unfold key_cache_clear. destruct key; try stays. closes. Qed.
Lemma edit_recovery_ok m key : inv m → step_ok m (KeyPress key) (key_edit_recovery m key).
Proof.
  intros Hm. unfold key_edit_recovery. destruct (bool_decide _) eqn:E; [stays|].
  apply bool_decide_eq_false in E.
  destruct key; branch; try stays; try closes; try by apply quiet_ok.
  - destruct inv_recovery as [? _], (er_Items _); [done|]. cbn. split; [lia|]. left. cbn. lia.
  - by apply cursor_up.
Qed.
Lemma edit_launch_ok m key :
  inv m → m_Mode m = ModeEditLaunchConfirm → step_ok m (KeyPress key) (key_edit_launch m key).
Proof. intros Hm Hmode. unfold key_edit_launch. destruct key; try stays. closes. Qed.
Lemma open_recovery_ok m : inv m → inv (open_edit_recovery m).
Proof.
  intros Hm. unfold open_edit_recovery. branch; [by apply notice_ok|]. apply bool_decide_eq_false in Heqb.
  settle; [|elsewhere]. destruct inv_recovery as [? _], (er_Items _); [done|]. cbn.
  split; [lia|]. left. cbn. lia.
Qed.

Lemma finish_edit_ok m a decision saveAs refresh :
  inv m → asked m a (decision_intent (m_EditDecision m) decision saveAs refresh) →
  step_ok m a (finishEditDecision m decision saveAs refresh).
Proof. intros Hm Hd. unfold finishEditDecision. apply one_ok; [closed|exact Hd]. Qed.
(** A decision on the edit that the dialog shows. *)
Lemma decides m a decision refresh :
  m_Mode m = ModeEditDecision →
  decision = Edit.DecisionSkip ∨
  decision = Edit.DecisionUpload ∧ a = KeyPress KeySubmit ∧
    ed_State (m_EditDecision m) = Edit.StateAwaitingUploadConfirmation ∨
  decision = Edit.DecisionOverwrite ∧ a = KeyPress KeyConflictOverwrite ∧
    ed_State (m_EditDecision m) = Edit.StateConflict ∨
  decision = ed_Decision (m_EditDecision m) ∧ a = KeyPress KeySubmit ∧
    ed_State (m_EditDecision m) = Edit.StateSyncBackFrozen →
  asked m a (decision_intent (m_EditDecision m) decision Location_zero refresh).
Proof. intros Hm Hd. unfold asked. cbn. left. split; [done|]. by exists decision, refresh. Qed.
Lemma edit_save_as_ok m key :
  inv m → m_Mode m = ModeEditSaveAs → step_ok m (KeyPress key) (key_edit_save_as m key).
Proof.
  intros Hm Hmode. unfold key_edit_save_as. destruct key; try stays. branch; try stays.
  apply finish_edit_ok; [done|]. unfold asked. cbn. right. split; [done|]. by eexists.
Qed.
Lemma show_conflict_ok m : inv m → inv (show_conflict m).
Proof.
  intros Hm. unfold show_conflict. settle.
  match goal with |- blen (if ?b then _ else _) ≤ _ => destruct b eqn:E end.
  - unfold blen. rewrite length_take. unfold PreviewByteLimit. lia.
  - breflect. lia.
Qed.
Lemma edit_decision_ok m key :
  inv m → m_Mode m = ModeEditDecision → step_ok m (KeyPress key) (key_edit_decision m key).
Proof.
  intros Hm Hmode. unfold key_edit_decision. destruct key; try stays.
  - branch; try stays; breflect; try (apply finish_edit_ok, decides; [done..|]).
    all: rewrite ?String.eqb_eq in *; try closes; auto 8.
  - unfold key_edit_preview. cbv zeta.
    assert (inv (m <| m_Drawer := (m_Drawer m) <| dr_Mode := DrawerPreview |> <| dr_Focus := FocusDrawer |> |>))
      as H1 by settle.
    branch; [by apply quiet_ok, show_conflict_ok|by apply quiet_ok, notice_ok|by apply one_ok].
  - branch; [|stays]. apply finish_edit_ok, decides; [done..|]. rewrite String.eqb_eq in Heqb. auto 8.
  - apply finish_edit_ok, decides; auto.
  - branch; stays.
Qed.

Lemma command_ok m key : inv m → step_ok m (KeyPress key) (key_command m key).
Proof. intros Hm. unfold key_command. destruct key; branch; stays. Qed.
Lemma command_confirm_ok m key :
  inv m → m_Mode m = ModeCommandConfirm → step_ok m (KeyPress key) (key_command_confirm m key).
Proof.
  intros Hm Hmode. unfold key_command_confirm. destruct key; try stays. closes.
  split_and!; [done..|]. apply (home m Hm).
Qed.
Lemma auth_ok m key :
  inv m → au_Active (m_Auth m) = true → step_ok m (KeyPress key) (key_auth m key).
Proof.
  intros Hm Ha. unfold key_auth.
  assert (∀ i, asked m (KeyPress key) i → step_ok m (KeyPress key)
    ((mode m (if bool_decide (au_ReturnMode (m_Auth m) = ModeUnset) || bool_decide (au_ReturnMode (m_Auth m) = ModeAuth)
              then ModeNormal else au_ReturnMode (m_Auth m))) <| m_Auth := AuthState_zero |>, [i])) as Hback.
  { intros i Hi. apply one_ok; [|done]. settle. intros [Hd|[Hd _]]; [|done]. apply inv_delete. right.
    split; [done|]. by repeat case_match. }
  destruct key; try stays; apply Hback; unfold asked; cbn; auto 8.
Qed.

Lemma delete_confirm_ok m key :
  inv m → m_Mode m = ModeDeleteConfirm → au_Active (m_Auth m) = false →
  step_ok m (KeyPress key) (key_delete_confirm m key).
Proof.
  intros Hm Hmode Ha. unfold key_delete_confirm.
  pose proof (inv_delete m Hm (or_introl Hmode)) as [Hc Hp].
  destruct key; try stays. destruct (Z.eqb_spec (m_DeleteConfirmation m) 1) as [E|E].
  { apply quiet_ok. settle. intros _. split; [by right|done]. }
  split_and!.
  - closed.
  - apply Forall_forall. intros i (r & -> & Hr)%list_elem_of_fmap. unfold asked. cbn.
    split_and!; [done..|by destruct Hc|]. by exists r.
  - intros i (r & -> & Hr)%list_elem_of_fmap. done.
Qed.
Lemma move_confirm_ok m key :
  inv m → m_Mode m = ModeMoveConfirm → au_Active (m_Auth m) = false →
  step_ok m (KeyPress key) (key_move_confirm m key).
Proof.
  intros Hm Hmode Ha. unfold key_move_confirm. destruct key; try stays.
  pose proof (inv_move m Hm) as [Hall Hlen]. rewrite Forall_forall in Hall. split_and!.
  - closed.
  - apply Forall_forall. intros i Hi. destruct (Hall i Hi) as [Hk _]. unfold asked. rewrite Hk. intros _. split; [done|]. by left.
  - done.
Qed.
Lemma renamed_ok m i :
  inv m → moves i → au_Active (m_Auth m) = false →
  inv ((mode m ModeNormal) <| m_repeatMove := [i] |> <| m_repeatIntents := [] |> <| m_repeatDelete := [] |>
         <| m_renameInput := [] |> <| m_pendingRename := FileRef_zero |>).
Proof. intros Hm Hi Ha. closed. by apply batch_one. Qed.
Lemma rename_asked m parent :
  let name := of_runes (m_renameInput m) in
  m_Mode m = ModeRename → au_Active (m_Auth m) = false → names_plainly name (ref_Location (m_pendingRename m)) →
  parentLocation (ref_Location (m_pendingRename m)) = Some parent →
  asked m (KeyPress KeySubmit) (rename_intent m parent).
Proof. intros. unfold asked. cbn. intros _. split; [done|]. right. split_and!; try done. by exists parent. Qed.
Lemma rename_ok m key :
  inv m → m_Mode m = ModeRename → au_Active (m_Auth m) = false → step_ok m (KeyPress key) (key_rename m key).
Proof.
  intros Hm Hmode Ha. unfold key_rename. destruct key; try stays.
  destruct (_ || _ || _ || _)%bool eqn:Eplain; [stays|]. destruct (String.eqb _ (path_Base _)) eqn:Esame; [stays|].
  destruct (parentLocation _) as [parent|] eqn:Eparent; [|stays]. breflect. rewrite ?String.eqb_neq, ?String.eqb_eq in *.
  apply one_ok; [by apply renamed_ok|]. by apply rename_asked.
Qed.
Lemma workspace_ok m key : inv m → step_ok m (KeyPress key) (key_workspace m key).
Proof. intros Hm. unfold key_workspace. destruct key; branch; try stays. closes. Qed.
Lemma path_ok m key : inv m → step_ok m (KeyPress key) (key_path m key).
Proof. intros Hm. unfold key_path. destruct key; branch; try stays. closes. Qed.
Lemma endpoint_ok m key : inv m → step_ok m (KeyPress key) (key_endpoint m key).
Proof.
  intros Hm. unfold key_endpoint.
  destruct key; try (by stays); [apply quiet_ok, notice_ok; branch; [done|settle]|branch; [closes|stays]].
Qed.

(** * Drawers *)
Lemma drawer_open_looks m to switching : forallb looks (drawerOpenIntents m to switching) = true.
Proof. unfold drawerOpenIntents, previewOpenIntents. by repeat case_match. Qed.
Lemma toggle_ok m to : inv m → looking (reduceDrawerToggle m to).
Proof.
  intros Hm. unfold reduceDrawerToggle. cbv zeta.
  assert (inv (m <| m_Count := 0 |>)) as H1 by (settle; by vm_compute).
  revert H1. generalize (m <| m_Count := 0 |>). clear m Hm. intros m Hm.
  repeat case_match; simplify_eq/=; (split; [settle; by vm_compute|cbn; try apply drawer_open_looks; done]).
Qed.
Lemma search_key_ok m a key : inv m → step_ok m a (reduceSearchKey m key).
Proof.
  intros Hm. unfold reduceSearchKey. cbv zeta.
  destruct key; branch; try (by apply quiet_ok); try (by eapply capture_ok);
    try (apply quiet_ok; settle); try (apply one_ok; [settle|done]);
    try (by apply recoveryPane_valid); try elsewhere;
    (split; [(apply cursor_next || apply cursor_up)|]; apply inv_search).
Qed.
Lemma content_search_key_ok m a key : inv m → step_ok m a (reduceContentSearchKey m key).
Proof.
  intros Hm. unfold reduceContentSearchKey. cbv zeta.
  destruct key; branch; try (by apply quiet_ok); try (by eapply capture_ok);
    try (apply quiet_ok; settle); try (apply one_ok; [settle|done]);
    try (by apply recoveryPane_valid); try elsewhere;
    (split; [(apply cursor_next || apply cursor_up)|]; apply inv_content).
Qed.
Lemma drawer_key_ok m a key : inv m → step_ok m a (key_drawer m key).
Proof.
  intros Hm. unfold key_drawer.
  assert (step_ok m a (match dr_Mode (m_Drawer m) with
    | DrawerSearch => reduceSearchKey m key
    | DrawerContentSearch => reduceContentSearchKey m key
    | DrawerJobs => reduceJobsKey m key
    | DrawerPreview => reducePreviewKey m key
    | _ => (m, [])
    end)) as H1.
  { branch; auto using quiet_ok, search_key_ok, content_search_key_ok, jobs_key_ok, looking_ok, preview_key_ok. }
  destruct key; try exact H1. repeat case_match; (apply one_ok; [settle|done]) || (apply quiet_ok; settle).
Qed.

(** * Panes *)
Lemma refilter_pane_ok p f : pane_ok p → pane_ok (refilter p f).
Proof. intros Hp. by apply refilter_ok, ok_home. Qed.
Lemma leave_jump_ok m p : pane_ok p → pane_ok (leave_jump m p).
Proof.
  intros Hp. unfold leave_jump. pose proof (refilter_pane_ok p (m_jumpFilter m) Hp).
  destruct (m_hasJumpAnchor m); [by apply select_ok|done].
Qed.
Lemma clear_jump_ok m : inv m → inv (clearDirectoryJump m).
Proof. intros Hm. settle. Qed.
Hint Resolve refilter_pane_ok leave_jump_ok clear_jump_ok select_ok : tui.
Lemma refresh_preview_looks m : forallb looks (previewRefreshIntents m) = true.
Proof. unfold previewRefreshIntents. cbn. by case_match. Qed.
Lemma key_tab_ok m : inv m → looking (key_tab m).
Proof.
  intros Hm. unfold key_tab. cbv zeta. split; [|cbn [snd]; destruct (bool_decide _); [apply refresh_preview_looks|done]].
  assert (∀ n, inv n → inv ((mode n ModeNormal) <| m_Active := if m_Active n =? Left then Right else Left |>)) as Hn.
  { intros n Hn. clear Hm. settle; [by case_match|elsewhere]. }
  apply Hn. destruct (mode_is m ModeFilter); auto with tui.
Qed.

Lemma count_on p : pane_ok p → (VisibleCount p =? 0) = false → 0 < VisibleCount p.
Proof. unfold VisibleCount. intros. lia. Qed.
Lemma down_ok p n :
  pane_ok p → 0 ≤ n → (VisibleCount p =? 0) = false →
  cursor_on (Z.min (pane_Cursor p + n) (VisibleCount p - 1)) (pane_visible p).
Proof. intros Hp Hn E. destruct (ok_cursor _ Hp) as [? _]. unfold VisibleCount in *. split; lia. Qed.
Lemma up_ok p n : pane_ok p → 0 ≤ n → cursor_on (Z.max (pane_Cursor p - n) 0) (pane_visible p).
Proof.
  intros Hp Hn. destruct (ok_cursor _ Hp) as [? [?|[E E']]]; (split; [lia|]); [left; lia|right].
  split; [done|lia].
Qed.
Lemma key_filter_ok m key : inv m → looking (key_filter m key).
Proof.
  intros Hm. unfold key_filter. cbv zeta. pose proof (active_ok m Hm) as Hp.
  assert (looking (set_pane m (m_Active m) (active_pane m), [])) as Hsame.
  { apply looking_quiet. auto with tui. }
  destruct key; try done; branch; try done; apply looking_quiet; apply set_pane_ok; auto with tui.
  all: try (apply with_cursor_ok; [done|by apply down_ok || by apply up_ok]).
  all: try (by apply first_row_ok, refilter_pane_ok).
  all: repeat (apply notice_ok || apply mode_ok || apply clear_jump_ok); try done.
  destruct (currentLocation _); auto with tui.
Qed.

Lemma key_copy_ok m a count clipboard : inv m → step_ok m a (key_copy m count clipboard).
Proof.
  intros Hm. unfold key_copy. destruct (selectedLocations _ _); [by apply quiet_ok, notice_ok|by apply capture_ok].
Qed.
Lemma key_paste_ok m a count : inv m → step_ok m a (key_paste m count).
Proof.
  intros Hm. unfold key_paste. cbv zeta. branch; try (by apply quiet_ok, notice_ok); [|by apply paste_ok].
  apply quiet_ok, notice_ok. settle.
Qed.
Lemma key_repeat_ok m a : inv m → step_ok m a (key_repeat m).
Proof.
  intros Hm. unfold key_repeat. branch.
  - apply quiet_ok. apply negb_true_iff, bool_decide_eq_false in Heqb. settle. intros _. split; [by left|done].
  - apply quiet_ok. settle. elsewhere.
  - destruct (inv_repeat m Hm) as [Hall Hlen]. split; [done|]. split; [|by intros].
    eapply Forall_impl; [exact Hall|]. intros i [Hk Hc]. unfold asked. by rewrite Hk.
  - by apply quiet_ok, notice_ok.
Qed.
Lemma key_visual_ok m to : inv m → to ≠ ModeDeleteConfirm → inv (key_visual m to).
Proof.
  intros Hm Hto. unfold key_visual. branch; [done|]. apply set_pane_ok; [by apply mode_ok|].
  destruct (active_ok m Hm) as [Hr Hc Ha Hh]. split; try assumption. intros _. cbn. unfold VisibleCount in *.
  destruct Hc as [? [?|[E _]]]; [split; [cbn; lia|done]|]. rewrite E in Heqb. done.
Qed.
Lemma start_jump_ok m : inv m → inv (start_jump m).
Proof.
  intros Hm. unfold start_jump. cbv zeta. apply set_pane_ok.
  - apply mode_ok; [settle|done].
  - pose proof (refilter_pane_ok _ "" (active_ok m Hm)). case_match; [by apply select_ok|done].
Qed.
Lemma toggle_mark_ok p : pane_ok p → pane_ok (toggle_mark p).
Proof.
  intros Hp. unfold toggle_mark. destruct (currentLocation p); [|done].
  apply (same_rows_ok p); [done| |done..]. exact (ok_home _ Hp).
Qed.

Lemma key_browse_ok m a key count : inv m → 0 ≤ count → step_ok m a (key_browse m key count).
Proof.
  intros Hm Hn. pose proof (active_ok m Hm) as Hp. unfold key_browse. cbv zeta.
  set (steps := if count =? 0 then 1 else count). assert (0 ≤ steps) as Hs by (subst steps; case_match; lia).
  clearbody steps.
  destruct key; try (by apply quiet_ok);
    try (by apply key_copy_ok || by apply key_paste_ok || by apply key_repeat_ok);
    try (by apply quiet_ok, key_visual_ok || by apply quiet_ok, start_jump_ok);
    try (apply looking_ok, moved_ok; [done|]); try (by apply up_ok); try (by apply bottom_on);
    try (apply quiet_ok, set_pane_ok; [done|]); auto using toggle_mark_ok;
    try (by apply quiet_ok; closed); try (by apply one_ok).
  - (* parent *) branch; [by apply one_ok|by apply quiet_ok].
  - destruct (VisibleCount _ =? 0) eqn:E; [by apply ok_cursor|by apply down_ok].
  - (* open *) branch; [by apply quiet_ok|by apply one_ok|]. apply one_ok; [settle|done].
  - (* escape *) apply quiet_ok, mode_ok; [|done]. apply set_pane_ok; [done|].
    destruct Hp. by split.
  - apply rebuild_ok. by destruct (ok_home _ Hp).
  - apply rebuild_ok. by destruct (ok_home _ Hp).
  - unfold key_prepare. branch; [by apply quiet_ok, notice_ok|by apply one_ok].
  - unfold key_prepare. branch; [by apply quiet_ok, notice_ok|by apply one_ok].
  - unfold key_open_file. branch; [by apply quiet_ok, notice_ok|by apply one_ok].
  - unfold key_open_file. branch; [by apply quiet_ok, notice_ok|by apply one_ok].
  - branch; apply quiet_ok, notice_ok; [done|closed].
Qed.

Lemma key_panes_ok m key : inv m → step_ok m (KeyPress key) (key_panes m key).
Proof.
  intros Hm. unfold key_panes. cbv zeta. pose proof (inv_count m Hm) as [Hcount _]. revert Hcount.
  generalize (m_Count m). intros count Hcount.
  assert (inv (m <| m_Count := 0 |>)) as Hn by (settle; by vm_compute).
  eapply (step_at _ _ (m <| m_Count := 0 |>)); try reflexivity.
  revert Hn. generalize (m <| m_Count := 0 |>). clear m Hm. intros m Hm.
  branch; [by apply quiet_ok| |by apply looking_ok, key_tab_ok|by apply looking_ok, key_filter_ok
    |by apply key_browse_ok].
  apply one_ok; [settle; by vm_compute|done].
Qed.

(** Every key, in every dialog. *)
Ltac dialog := match goal with |- step_ok _ _ (if ?b then _ else _) => destruct b eqn:?; rewrite ?mode_is_spec in * end.
Lemma reduceKey_ok m key : inv m → step_ok m (KeyPress key) (reduceKey m key).
Proof.
  intros Hm. unfold reduceKey.
  dialog; [by apply content_confirm_ok|]. dialog; [by apply search_prompt_ok|].
  dialog; [by apply one_ok; [apply notice_ok|]|]. dialog; [by apply cache_clear_ok|].
  dialog; [by apply edit_recovery_ok|]. dialog; [by apply edit_launch_ok|].
  dialog; [by apply quiet_ok, open_recovery_ok|]. dialog; [by apply edit_save_as_ok|].
  dialog; [by apply edit_decision_ok|]. dialog; [by apply command_ok|].
  dialog; [by apply command_confirm_ok|]. dialog; [by apply auth_ok|].
  dialog; [by apply delete_confirm_ok|]. dialog; [by apply move_confirm_ok|].
  dialog; [by apply rename_ok|]. dialog; [by apply workspace_ok|].
  dialog; [by apply path_ok|]. dialog; [by apply endpoint_ok|].
  destruct (drawerModeForKey key); [by apply looking_ok, toggle_ok|].
  dialog; [|by apply key_panes_ok]. dialog; [|by apply drawer_key_ok]. stays.
Qed.

(** A digit is a uint8. *)
Definition wf_action (a : Action) : Prop := match a with CountDigit digit => 0 ≤ digit | _ => True end.

Lemma boundary_step m a key : inv m → step_ok m a (jumpToBoundary m key).
Proof. intros Hm. by apply looking_ok, boundary_ok. Qed.
Lemma reduce_path_text_ok m a text : inv m → step_ok m a (reduce_path_text m text).
Proof.
  intros Hm. unfold reduce_path_text. cbv zeta. branch; try stays; try (by apply boundary_step); closes.
Qed.
Lemma reduce_text_ok m a text : inv m → step_ok m a (reduce_text m text).
Proof.
  intros Hm. destruct (text_ok m text Hm) as (?&?&?&?&?&?&?). unfold reduce_text.
  branch; auto using quiet_ok, reduce_path_text_ok, jump_text_ok.
Qed.

Lemma Reduce_ok m a : inv m → wf_action a → step_ok m a (Reduce m a).
Proof.
  intros Hm Hwf. destruct (searches_ok m Hm) as (?&?&?&?).
  destruct a; cbn [Reduce]; auto using reduceKey_ok, reduce_text_ok, quiet_ok, looking_ok, listing_page_ok,
    captured_ok, job_created_ok, jobs_loaded_ok, job_updated_ok, command_completed_ok, edit_observed_ok,
    pane_connected_ok, begin_listing_ok, listing_failed_ok, set_filter_ok, begin_preview_ok, preview_chunk_ok,
    auth_challenge_ok, connection_changed_ok, capabilities_refreshed_ok, delete_prepared_ok, rename_prepared_ok,
    edit_launch_ready_ok, edit_recovery_loaded_ok, search_events_ok, content_search_events_ok, count_ok, notice_ok.
  - apply quiet_ok. settle.
  - apply quiet_ok, notice_ok. settle.
  - by apply one_ok; [apply notice_ok|].
  - by apply quiet_ok, notice_ok.
Qed.
End Keys.

(** * Runs *)
(** * What an action does to the deletions that are asked for *)
Definition same (m m' : Model) : Prop :=
  m_pendingDelete m' = m_pendingDelete m ∧ m_DeleteConfirmation m' = m_DeleteConfirmation m ∧
  (m_repeatDelete m' = m_repeatDelete m ∨ m_repeatDelete m' = []).

Lemma same_trans m n k : same m n → same n k → same m k.
Proof. intros (E1 & E2 & H1) (E3 & E4 & H2). split; [congruence|]. split; [congruence|]. destruct H1, H2; intuition congruence. Qed.

Ltac kept :=
  cbv zeta;
  repeat match goal with
  | |- same _ (if ?b then _ else _) => destruct b
  | |- same _ (match ?x with _ => _ end) => destruct x
  | |- same _ (fst (_, _)) => cbn [fst]
  | |- same _ (fst (if ?b then _ else _)) => destruct b
  | |- same _ (fst (match ?x with _ => _ end)) => destruct x
  end;
  try (split; [reflexivity|split; [reflexivity|first [left; reflexivity|right; reflexivity]]]).

Section Same.
Context `{Unicode}.

Lemma boundary_same m key : same m (jumpToBoundary m key).1.
Proof.
  unfold jumpToBoundary, reducePreviewKey. kept.
Qed.
Lemma text_same m text : same m (reduce_text m text).1.
Proof.
  unfold reduce_text, reduce_search_text, reduce_save_as_text, reduce_auth_text, reduce_workspace_text,
    reduce_endpoint_text, reduce_rename_text, reduce_command_text, reduce_jump_text, reduce_path_text.
  kept; try apply boundary_same.
Qed.
Lemma preview_key_same m key : same m (reducePreviewKey m key).1.
Proof. unfold reducePreviewKey. kept. Qed.
Lemma capture_same m pane locations clipboard : same m (beginClipboardCapture m pane locations clipboard).1.
Proof. split_and!; auto. Qed.
Lemma paste_same m pane location n : same m (pasteClipboard m pane location n).1.
Proof. unfold pasteClipboard. kept. Qed.
Lemma drop_capture_same m g t : same m (drop_capture m g t).
Proof. unfold drop_capture. case_match; kept. Qed.
Lemma captured_same m clipboard reference references given message :
  same m (clipboard_captured m clipboard reference references given message).1.
Proof.
  unfold clipboard_captured. kept; try apply drop_capture_same.
  eapply same_trans; [|apply paste_same]. kept.
Qed.

Lemma arrivals_same m :
  (∀ id g l e c cg caps b, same m (begin_listing m id g l e c cg caps b)) ∧
  (∀ id g es d p, same m (listing_page m id g es d p).1) ∧
  (∀ id g t, same m (listing_failed m id g t)) ∧ (∀ id q, same m (set_filter m id q)) ∧
  (∀ id e l s cg caps b, same m (pane_connected m id e l s cg caps b).1) ∧
  (∀ id s t, same m (connection_changed m id s t)) ∧
  (∀ id e caps, same m (capabilities_refreshed m id e caps)) ∧
  (∀ g l i v, same m (begin_preview m g l i v)) ∧
  (∀ g i d dn t r k su me, same m (preview_chunk m g i d dn t r k su me)).
Proof.
  unfold begin_listing, listing_page, listing_failed, set_filter, pane_connected, connection_changed,
    capabilities_refreshed, begin_preview, preview_chunk. split_and!; intros; kept.
Qed.
Lemma job_arrivals_same m :
  (∀ i, same m (begin_search m i)) ∧ (∀ i t, same m (search_failed m i t)) ∧
  (∀ i, same m (begin_content_search m i)) ∧ (∀ i t, same m (content_search_failed m i t)) ∧
  (∀ c e p k, same m (auth_challenge m c e p k)) ∧ (∀ r t, same m (rename_prepared m r t)) ∧
  (∀ j s t, same m (job_created m j s t).1) ∧ (∀ l o t, same m (jobs_loaded m l o t).1) ∧
  (∀ s t, same m (job_updated m s t).1).
Proof.
  unfold begin_search, search_failed, begin_content_search, content_search_failed, auth_challenge,
    rename_prepared, job_created, jobs_loaded, job_updated. split_and!; intros; kept.
Qed.
Lemma edit_arrivals_same m :
  (∀ id l e so se d1 d2 u t, same m (command_completed m id l e so se d1 d2 u t).1) ∧
  (∀ s id l st t d v, same m (edit_observed m s id l st t d v).1) ∧
  (∀ s id l c t, same m (edit_launch_ready m s id l c t)) ∧
  (∀ c ss t, same m (edit_recovery_loaded m c ss t)) ∧ (∀ d, same m (reduce_count m d)).
Proof.
  unfold command_completed, edit_observed, edit_launch_ready, edit_recovery_loaded, reduce_count.
  split_and!; intros; kept; repeat case_match; kept.
Qed.

Lemma dialog_same m key :
  same m (key_content_confirm m key).1 ∧ same m (key_search_prompt m key).1 ∧ same m (key_cache_clear m key).1 ∧
  same m (key_edit_recovery m key).1 ∧ same m (key_edit_launch m key).1 ∧ same m (open_edit_recovery m) ∧
  same m (key_edit_save_as m key).1 ∧ same m (key_edit_decision m key).1 ∧ same m (key_command m key).1 ∧
  same m (key_command_confirm m key).1 ∧ same m (key_auth m key).1 ∧ same m (key_move_confirm m key).1 ∧
  same m (key_rename m key).1 ∧ same m (key_workspace m key).1 ∧ same m (key_path m key).1 ∧
  same m (key_endpoint m key).1.
Proof.
  unfold key_content_confirm, key_search_prompt, key_cache_clear, key_edit_recovery, key_edit_launch,
    open_edit_recovery, key_edit_save_as, key_edit_decision, finishEditDecision, key_edit_preview, key_command,
    key_command_confirm, key_auth, key_move_confirm, key_rename, key_workspace, key_path, key_endpoint.
  split_and!; destruct key; kept. case_match; kept.
Qed.
Lemma drawer_same m key to : same m (reduceDrawerToggle m to).1 ∧ same m (key_drawer m key).1.
Proof.
  unfold reduceDrawerToggle, key_drawer, reduceSearchKey, reduceContentSearchKey, reduceJobsKey.
  split; [cbv zeta; repeat case_match; simplify_eq/=; kept|]. destruct key; kept.
  all: first [apply capture_same|apply preview_key_same].
Qed.

(** What an action does to the deletion being asked for. *)
Definition deletion_step (m : Model) (a : Action) (m' : Model) : Prop :=
  (m_repeatDelete m' = m_repeatDelete m ∨ m_repeatDelete m' = [] ∨ m_repeatDelete m' = m_pendingDelete m) ∧
  (m_pendingDelete m' = m_pendingDelete m ∧ m_DeleteConfirmation m' = m_DeleteConfirmation m ∨
   m_pendingDelete m' = [] ∧ m_DeleteConfirmation m' = 0 ∨
   m_DeleteConfirmation m' = 1 ∧
     (m_pendingDelete m' = m_repeatDelete m ∨ ∃ references, a = DeletePrepared references "" ∧
                                                m_pendingDelete m' = references) ∨
   m_pendingDelete m' = m_pendingDelete m ∧ m_DeleteConfirmation m' = 2 ∧ m_DeleteConfirmation m = 1 ∧
     a = KeyPress KeySubmit ∧ m_Mode m = ModeDeleteConfirm).
Lemma same_step m a m' : same m m' → deletion_step m a m'.
Proof. intros (E1 & E2 & [E|E]); split; auto. Qed.

Lemma visual_same m to : same m (key_visual m to).
Proof. unfold key_visual. kept. Qed.
Lemma tab_filter_same m key : same m (key_tab m).1 ∧ same m (key_filter m key).1.
Proof.
  unfold key_tab, key_filter. split.
  - cbv zeta. cbn [fst]. destruct (mode_is m ModeFilter); split_and!; auto.
  - destruct key; kept; repeat case_match; kept.
Qed.
Lemma key_browse_step m a key count : deletion_step m a (key_browse m key count).1.
Proof.
  destruct (decide (key = KeyRepeat)) as [->|Hr].
  - cbn. unfold key_repeat. repeat case_match; try (by apply same_step; kept).
    split; [by left|]. right. right. left. cbn. auto.
  - apply same_step. unfold key_browse, key_copy, key_paste, key_prepare, key_open_file, start_jump.
    destruct key; try done; kept; try apply visual_same; try apply paste_same; try apply capture_same.
Qed.
Lemma key_panes_step m a key : deletion_step m a (key_panes m key).1.
Proof.
  unfold key_panes. cbv zeta.
  assert (∀ m', deletion_step (m <| m_Count := 0 |>) a m' → deletion_step m a m') as Hn by (by intros m').
  apply Hn. generalize (m <| m_Count := 0 |>), (m_Count m). clear m Hn. intros m count.
  destruct (tab_filter_same m key).
  repeat case_match; try (by apply same_step); apply key_browse_step || (apply same_step; kept).
Qed.
Lemma delete_confirm_step m key :
  m_Mode m = ModeDeleteConfirm → deletion_step m (KeyPress key) (key_delete_confirm m key).1.
Proof.
  intros Hmode. unfold key_delete_confirm. destruct key; try (by apply same_step; kept).
  - split; [by left|]. right. by left.
  - destruct (Z.eqb_spec (m_DeleteConfirmation m) 1) as [E|E].
    + split; [by left|]. right. right. right. done.
    + split; [right; by right|]. right. by left.
Qed.
Lemma key_step m key : deletion_step m (KeyPress key) (reduceKey m key).1.
Proof.
  unfold reduceKey. destruct (dialog_same m key) as (?&?&?&?&?&?&?&?&?&?&?&?&?&?&?&?).
  repeat match goal with
  | |- deletion_step _ _ (fst (if mode_is m ModeDeleteConfirm then _ else _)) =>
    destruct (mode_is m ModeDeleteConfirm) eqn:E; [apply delete_confirm_step; by apply mode_is_spec|]
  | |- deletion_step _ _ (fst (if ?b then _ else _)) =>
    destruct b; [by apply same_step; first [assumption|kept]|]
  end.
  destruct (drawerModeForKey key) as [to|]; [apply same_step, (drawer_same m key to)|].
  destruct (bool_decide _); [|apply key_panes_step].
  apply same_step. destruct (bool_decide _ && _); [kept|]. apply (drawer_same m key DrawerJobs).
Qed.

Lemma Reduce_step m a : deletion_step m a (Reduce m a).1.
Proof.
  destruct (arrivals_same m) as (?&?&?&?&?&?&?&?&?), (job_arrivals_same m) as (?&?&?&?&?&?&?&?&?),
    (edit_arrivals_same m) as (?&?&?&?&?).
  destruct a; cbn [Reduce fst]; try (by apply same_step; kept); try (by apply same_step).
  - apply key_step.
  - apply same_step, text_same.
  - apply same_step, captured_same.
  - unfold delete_prepared. destruct (String.eqb_spec Message "") as [->|E]; cbn [negb].
    + case_match; [by apply same_step; kept|]. split; [by left|]. right. right. left. split; [done|]. right.
      by exists References.
    + apply same_step. kept.
Qed.
End Same.

(** * A listing, page by page *)
Section Pages.
Context `{Unicode}.

(** What is arranged anew keeps what is listed. *)
Definition listed (p : PaneState) : Endpoint * Location * list Entry * ListingState :=
  (pane_Endpoint p, pane_Location p, pane_Entries p, pane_Listing p).
Lemma select_listed p l : listed (selectPaneLocation p l) = listed p.
Proof. unfold selectPaneLocation, clampCursor. by repeat case_match. Qed.
Lemma rebind_listed p : listed (rebindCursorAnchor p) = listed p ∧ listed (rebindVisualAnchor p) = listed p.
Proof.
  unfold rebindCursorAnchor, rebindVisualAnchor. split; repeat case_match; try done. apply select_listed.
Qed.
Lemma rebuild_listed p : listed (rebuildVisible p) = listed p.
Proof.
  unfold rebuildVisible. cbv zeta. rewrite (proj2 (rebind_listed _)). unfold clampCursor. by case_match.
Qed.
Lemma append_listed p es :
  listed (rebindCursorAnchor (appendEntries p es)) =
  (pane_Endpoint p, pane_Location p, pane_Entries p ++ es, pane_Listing p).
Proof. rewrite (proj1 (rebind_listed _)). unfold appendEntries. by rewrite rebuild_listed. Qed.
Lemma end_listed p :
  listed (end_listing p) =
  (pane_Endpoint p, pane_Location p, pane_Entries p,
   (pane_Listing p) <| ls_Loading := false |> <| ls_Complete := negb (ls_Partial (pane_Listing p)) |>
     <| ls_pendingLocation := Location_zero |>).
Proof. unfold end_listing. by rewrite (proj1 (rebind_listed _)), (proj2 (rebind_listed _)). Qed.

Lemma pane_at_set m id id' p :
  validPane id = true → validPane id' = true →
  pane_at (set_pane m id' p) id = if id =? id' then p else pane_at m id.
Proof.
  unfold validPane, pane_at, set_pane, Left, Right. intros [?|?]%orb_true_iff [?|?]%orb_true_iff; breflect; subst; done.
Qed.

(** The pages of one listing among those that arrive. *)
Definition arrived (id : PaneID) (generation : Z) (a : Action) : option (list Entry * bool) :=
  match a with
  | ListingPage pane g entries _ partial =>
    if (pane =? id) && (g =? generation) then Some (entries, partial) else None
  | _ => None
  end.
Definition more_pages (a : Action) : bool :=
  match a with ListingPage _ _ _ done _ => negb done | _ => false end.

Section One.
Variables (id : PaneID) (generation : Z) (location : Location) (before after_first : Endpoint).
Variables (endpoint : Endpoint) (commit : bool).
Hypothesis id_valid : validPane id = true.
Hypothesis location_known : loc_EndpointID location ≠ "".
Hypothesis endpoint_after : after_first = if commit then endpoint else before.

Definition receiving (p : PaneState) (got : list (list Entry * bool)) : Prop :=
  let l := pane_Listing p in
  ls_Generation l = generation ∧ ls_Partial l = existsb snd got ∧
  match got with
  | [] => ls_hasPage l = false ∧ ls_pendingLocation l = location ∧ ls_commitEndpoint l = commit ∧
          ls_pendingEndpoint l = endpoint ∧ pane_Endpoint p = before
  | _ => ls_hasPage l = true ∧ pane_Location p = location ∧ pane_Endpoint p = after_first ∧
         pane_Entries p = mjoin got.*1
  end.

Lemma commit_receiving p : receiving p [] →
  let q := (commit_listing id p).1 in
  pane_Endpoint q = after_first ∧ pane_Location q = location ∧ pane_Entries q = [] ∧
  ls_Generation (pane_Listing q) = generation ∧ ls_Partial (pane_Listing q) = false ∧
  ls_hasPage (pane_Listing q) = true.
Proof.
  intros (Eg & Ep & Eh & El & Ec & Ee & Eb). cbn in Ep. subst after_first. unfold commit_listing.
  rewrite El, Ec, Ee. by destruct commit, (negb (bool_decide _)).
Qed.

Lemma page_receiving m es done partial got :
  receiving (pane_at m id) got →
  ∃ q, receiving q (got ++ [(es, partial)]) ∧
    pane_at (listing_page m id generation es done partial).1 id = if done then end_listing q else q.
Proof.
  intros Hr. unfold listing_page.
  assert (ls_Generation (pane_Listing (pane_at m id)) = generation) as Eg by apply Hr.
  rewrite id_valid, Eg, Z.eqb_refl. cbn [negb orb].
  assert (ls_hasPage (pane_Listing (pane_at m id)) = negb (bool_decide (got = []))) as Eh
    by (destruct got; apply Hr).
  rewrite Eh, negb_involutive.
  assert (bool_decide (got = []) &&
    String.eqb (loc_EndpointID (ls_pendingLocation (pane_Listing (pane_at m id)))) "" = false) as ->.
  { destruct got; [|done]. destruct Hr as (_ & _ & _ & -> & _). cbn. by apply String.eqb_neq. }
  set (start := if bool_decide (got = []) then _ else _).
  assert (let q := start.1 in
    pane_Endpoint q = after_first ∧ pane_Location q = location ∧ pane_Entries q = mjoin got.*1 ∧
    ls_Generation (pane_Listing q) = generation ∧ ls_Partial (pane_Listing q) = existsb snd got ∧
    ls_hasPage (pane_Listing q) = true) as Hq.
  { subst start. destruct got as [|x got]; [by apply commit_receiving|].
    destruct Hr as (? & ? & ? & ? & ? & ?). by split_and!. }
  destruct start as [p intents]. cbn zeta in Hq. cbn [fst] in *. destruct Hq as (E1 & E2 & E3 & E4 & E5 & E6).
  eexists. split; [|rewrite pane_at_set, Z.eqb_refl by done; reflexivity].
  pose proof (append_listed p es) as Ha. revert Ha. generalize (rebindCursorAnchor (appendEntries p es)).
  intros q [= F1 F2 F3 F4]. unfold receiving. cbn. rewrite F1, F2, F3, F4, E1, E2, E3, E4, E5, E6.
  split; [done|]. split; [by rewrite existsb_app; cbn; rewrite orb_false_r|].
  rewrite fmap_app, list.join_app. cbn. rewrite app_nil_r. by destruct got.
Qed.

Lemma other_page_receiving m a got :
  more_pages a = true → arrived id generation a = None →
  ls_Generation (pane_Listing (pane_at m id)) = generation → receiving (pane_at m id) got →
  receiving (pane_at (Reduce m a).1 id) got.
Proof.
  destruct a; cbn; try done. intros _ Ha Hg Hr. unfold listing_page.
  destruct (validPane Pane) eqn:Ev; [|done]. cbn [negb orb].
  destruct (ls_Generation _ =? Generation) eqn:Eg; cbn [negb]; [|done].
  destruct (Pane =? id) eqn:Ei.
  { breflect. subst Pane. cbn in Ha. rewrite Hg in Eg. by rewrite (proj2 (Z.eqb_eq _ _) (eq_sym Eg)) in Ha. }
  assert ((id =? Pane) = false) as Ei' by (rewrite Z.eqb_sym; done).
  destruct (negb (ls_hasPage _) && _); [done|]. destruct (if negb _ then _ else _) as [p intents]. cbn [fst].
  by rewrite pane_at_set, Ei'.
Qed.

Lemma pages_receiving m pages :
  forallb more_pages pages = true → receiving (pane_at m id) [] →
  receiving (pane_at (foldl (λ m a, (Reduce m a).1) m pages) id) (omap (arrived id generation) pages).
Proof.
  induction pages as [|a pages IH] using rev_ind; [done|].
  rewrite forallb_app, foldl_app, omap_app. cbn [forallb foldl]. intros [Hp Ha]%andb_true_iff Hr.
  specialize (IH Hp Hr). rewrite andb_true_r in Ha.
  destruct (arrived id generation a) as [[es partial]|] eqn:E; cbn; rewrite E.
  - destruct a; try done. cbn in E, Ha. destruct (_ && _) eqn:E'; [|done]. injection E as -> ->. breflect. subst.
    destruct (page_receiving _ es false partial _ IH) as (q & Hq & E). cbn. by rewrite E.
  - rewrite app_nil_r. apply other_page_receiving; [done..| |done]. apply IH.
Qed.
End One.

(** A listing shows its directory: once the reducer has accepted that one begins, in a pane, and its
    pages have arrived, the last of them marked so, between pages of other listings and of the other
    pane, which it leaves aside, the pane is at the location asked for, on the endpoint it was asked
    for, and holds the entries of its pages and nothing else, in the order in which they came; it is
    complete exactly if no page was partial. *)
Theorem listing_shown (m : Model) (id : PaneID) (generation : Z) (location : Location) (endpoint : Endpoint)
    connection cg capabilities (commit : bool) pages entries partial :
  validPane id = true → generation ≠ 0 → loc_EndpointID location ≠ "" →
  let before := pane_Endpoint (pane_at m id) in
  let wanted := if commit then endpoint else before in
  loc_EndpointID location = ep_ID wanted → forallb more_pages pages = true →
  let begin := BeginListing id generation location endpoint connection cg capabilities commit in
  let got := omap (arrived id generation) pages ++ [(entries, partial)] in
  let p := pane_at (foldl (λ m a, (Reduce m a).1) m
    (begin :: pages ++ [ListingPage id generation entries true partial])) id in
  pane_Location p = location ∧ pane_Endpoint p = wanted ∧ pane_Entries p = mjoin got.*1 ∧
  ls_Loading (pane_Listing p) = false ∧ ls_Complete (pane_Listing p) = negb (existsb snd got).
Proof.
  intros Hid Hg Hl before wanted Hhome Hpages begin got p.
  assert (receiving generation location before wanted endpoint commit (pane_at (Reduce m begin).1 id) []) as Hr.
  { cbn. unfold begin_listing. rewrite Hid, (proj2 (Z.eqb_neq _ _) Hg). cbn.
    assert (ep_ID wanted ≠ "") as Hw by congruence.
    assert (commit && (String.eqb (ep_ID endpoint) "" ||
      negb (String.eqb (loc_EndpointID location) (ep_ID endpoint))) = false) as ->.
    { destruct commit; [|done]. subst wanted. cbn in *. rewrite Hhome. by rewrite (proj2 (String.eqb_neq _ _) Hw), String.eqb_refl. }
    assert (negb commit && negb (String.eqb (loc_EndpointID location) (ep_ID (pane_Endpoint (pane_at m id)))) = false) as ->.
    { destruct commit; [done|]. subst wanted before. cbn in *. rewrite Hhome. by rewrite String.eqb_refl. }
    rewrite pane_at_set, Z.eqb_refl by done. by split_and!. }
  subst p. cbn [foldl]. rewrite foldl_app. cbn [foldl].
  pose proof (pages_receiving id generation location before wanted endpoint commit Hid Hl eq_refl _ _ Hpages Hr) as Hall.
  destruct (page_receiving id generation location before wanted endpoint commit Hid Hl eq_refl
    _ entries true partial _ Hall) as (q & Hq & E).
  cbn [Reduce]. rewrite E. pose proof (end_listed q) as Hend. revert Hend. generalize (end_listing q).
  intros r [= -> -> -> ->]. fold got in Hq. destruct Hq as (_ & Ep & Hq).
  destruct got as [|x rest] eqn:Egot; [by destruct (omap _ _)|].
  destruct Hq as (_ & -> & -> & ->). cbn [ls_Loading ls_Complete]. by rewrite <-Ep.
Qed.
End Pages.

(** * Runs *)
Section Runs.
Context `{Unicode}.

(** The panes the interface opens with: at home, and nothing is expected. *)
Definition starts (p : PaneState) : Prop :=
  loc_EndpointID (pane_Location p) = ep_ID (pane_Endpoint p) ∧
  ls_pendingLocation (pane_Listing p) = Location_zero.
Inductive opened : Model → Prop :=
| opened_new left right choices :
    starts left → starts right → opened (SetEndpointChoices (NewModel left right) choices)
| opened_layout m activePane drawer : opened m → opened (applyWorkspaceLayout m activePane drawer)
| opened_policy m policy text : opened m → opened (m <| m_CachePolicy := policy |> <| m_Notice := text |>).
Definition after (m : Model) (actions : list Action) : Model := foldl (λ m a, (Reduce m a).1) m actions.

Lemma after_snoc m actions a : after m (actions ++ [a]) = (Reduce (after m actions) a).1.
Proof. unfold after. by rewrite foldl_app. Qed.

Lemma starts_ok p : starts p → pane_ok (rebuildVisible (p <| pane_visible := [] |>)).
Proof.
  intros [Hh Hp]. apply rebuild_ok. split; [done|]. cbn. rewrite Hp. done.
Qed.
Lemma opened_inv m : opened m → inv m.
Proof.
  induction 1 as [left right choices Hl Hr|m activePane drawer _ IH|m policy text _ IH].
  - split; cbn; try done; try (by apply starts_ok); try apply batch_nil; try apply empty_on;
      try (split; [apply empty_on|by vm_compute]).
    by intros [?|[? _]].
  - settle. by case_match.
  - settle.
Qed.
Lemma run_inv m actions : opened m → Forall wf_action actions → inv (after m actions).
Proof.
  intros Hm. induction actions as [|a actions IH] using rev_ind; [by intros; apply opened_inv|].
  intros [Ha [Hw _]%Forall_cons]%Forall_app. rewrite after_snoc. by apply Reduce_ok; [apply IH|].
Qed.

(** A list of references came from the daemon's preparation. *)
Definition prepared (actions : list Action) (frozen : list FileRef) : Prop :=
  frozen = [] ∨ DeletePrepared frozen "" ∈ actions.
Lemma prepared_snoc actions a frozen : prepared actions frozen → prepared (actions ++ [a]) frozen.
Proof. intros [|?]; [by left|right; set_solver]. Qed.
Lemma run_prepared m actions :
  opened m →
  prepared actions (m_pendingDelete (after m actions)) ∧ prepared actions (m_repeatDelete (after m actions)).
Proof.
  intros Hm. induction actions as [|a actions [IHp IHr]] using rev_ind.
  { cbn. induction Hm; [split; by left|done..]. }
  rewrite after_snoc. destruct (Reduce_step (after m actions) a) as [Hr Hp].
  split.
  - destruct Hp as [[-> _]|[[-> _]|[[_ [->|(refs & -> & ->)]]|[-> _]]]]; try (by apply prepared_snoc); [by left|].
    right. set_solver.
  - destruct Hr as [->|[->| ->]]; try (by apply prepared_snoc). by left.
Qed.

(** [Submit] was pressed once on a list, and the dialog has waited with it since. *)
Definition armed (start : Model) (actions : list Action) (frozen : list FileRef) : Prop :=
  ∃ before between, actions = before ++ KeyPress KeySubmit :: between ∧
    m_Mode (after start before) = ModeDeleteConfirm ∧ m_DeleteConfirmation (after start before) = 1 ∧
    m_pendingDelete (after start before) = frozen ∧
    ∀ earlier later, between = earlier ++ later →
      m_DeleteConfirmation (after start (before ++ KeyPress KeySubmit :: earlier)) = 2 ∧
      m_pendingDelete (after start (before ++ KeyPress KeySubmit :: earlier)) = frozen.
Lemma armed_snoc start actions a frozen :
  armed start actions frozen →
  m_DeleteConfirmation (after start (actions ++ [a])) = 2 →
  m_pendingDelete (after start (actions ++ [a])) = frozen → armed start (actions ++ [a]) frozen.
Proof.
  intros (before & between & -> & Hmode & Hc & Hp & Hall) Hc' Hp'.
  exists before, (between ++ [a]). rewrite <-app_assoc in *. split_and!; try done.
  intros earlier later E. destruct later as [|x later _] using rev_ind.
  - rewrite app_nil_r in E. by subst earlier.
  - rewrite app_assoc in E. apply app_inj_tail in E as [E _]. by apply (Hall earlier later).
Qed.
Lemma run_armed m actions :
  opened m → m_DeleteConfirmation (after m actions) = 2 → armed m actions (m_pendingDelete (after m actions)).
Proof.
  intros Hm. assert (m_DeleteConfirmation m ≠ 2) as H0 by (by induction Hm).
  induction actions as [|a actions IH] using rev_ind; intros Hc; [done|].
  pose proof Hc as Hc'. rewrite after_snoc in Hc. destruct (Reduce_step (after m actions) a) as [_ Hp].
  destruct Hp as [[Ep Ec]|[[_ Ec]|[[Ec _]|(Ep & _ & Ec & -> & Emode)]]]; try congruence.
  - apply armed_snoc; [|done|done]. rewrite after_snoc, Ep. apply IH. congruence.
  - exists actions, []. split_and!; try done.
    + by rewrite after_snoc, Ep.
    + intros [|] later E; [|done]. by rewrite Hc'.
Qed.

(** A deletion job is created only for a frozen reference that the daemon's preparation returned,
    and only when Submit was pressed twice in the deletion dialog on that same list of references: once
    when it first asked, and again while it still showed the list unchanged, whatever happened between
    the two. *)
Lemma delete_confirmed_twice start actions a i :
  opened start → Forall wf_action (actions ++ [a]) →
  i ∈ (Reduce (after start actions) a).2 → i_Kind i = IntentCreateDeleteJob →
  ∃ frozen before between r,
    actions = before ++ KeyPress KeySubmit :: between ∧ a = KeyPress KeySubmit ∧
    DeletePrepared frozen "" ∈ before ∧ r ∈ frozen ∧ i = delete_intent r ∧
    m_Mode (after start before) = ModeDeleteConfirm ∧ m_pendingDelete (after start before) = frozen ∧
    m_Mode (after start actions) = ModeDeleteConfirm ∧
    (∀ earlier later, between = earlier ++ later →
       m_pendingDelete (after start (before ++ KeyPress KeySubmit :: earlier)) = frozen).
Proof.
  intros Hs Hwf Hi Hk.
  pose proof Hwf as [Hall [Ha _]%Forall_cons]%Forall_app.
  destruct (Reduce_ok _ a (run_inv start actions Hs Hall) Ha) as (_ & Hasked & _).
  rewrite Forall_forall in Hasked. specialize (Hasked i Hi). unfold asked in Hasked. rewrite Hk in Hasked.
  destruct Hasked as ([-> Hmode] & _ & Hc & r & Hr & ->).
  destruct (run_armed start actions Hs Hc) as (before & between & -> & Hm0 & Hc0 & Hp0 & Hbetween).
  exists (m_pendingDelete (after start (before ++ KeyPress KeySubmit :: between))), before, between, r.
  split_and!; try done.
  - destruct (run_prepared start before Hs) as [[E|E] _]; [|by rewrite <-Hp0].
    exfalso. rewrite <-Hp0, E in Hr. set_solver.
  - intros earlier later E. by apply (Hbetween earlier later).
Qed.

(** C39: In every state the terminal interface can reach, an action asks for these effects only from the
    dialog that shows them: deletions, moves, one-time commands, content searches, clearing the cache and
    launching a program on a prepared file are asked for by Submit in their own dialog and carry exactly
    what it holds (a command, the active pane with its endpoint); a rename gives a plain new name in the
    same directory; a decision on an edit comes from its dialog, an upload or an overwrite by the key that
    the state of the session allows, a frozen decision again by Submit, a save-as with an absolute
    canonical path of the endpoint; a login answers the challenge on display; and one action never leads
    to more than 1024 intents when it copies or moves.  A deletion job is created only for a frozen
    reference that the daemon's preparation returned, and only when Submit was pressed twice in the
    deletion dialog on that same list of references: once when it first asked, and again while it still
    showed the list, which has not changed in between, whatever happened there. *)
Theorem effects_asked start actions a i :
  opened start → Forall wf_action (actions ++ [a]) → i ∈ (Reduce (after start actions) a).2 →
  asked (after start actions) a i ∧
  (i_Kind i = IntentCreateCopyJob →
     Z.of_nat (length (Reduce (after start actions) a).2) ≤ maxBatchJobIntents) ∧
  (i_Kind i = IntentCreateDeleteJob → ∃ frozen before between r,
     actions = before ++ KeyPress KeySubmit :: between ∧ a = KeyPress KeySubmit ∧
     DeletePrepared frozen "" ∈ before ∧ r ∈ frozen ∧ i = delete_intent r ∧
     m_Mode (after start before) = ModeDeleteConfirm ∧ m_pendingDelete (after start before) = frozen ∧
     m_Mode (after start actions) = ModeDeleteConfirm ∧
     (∀ earlier later, between = earlier ++ later →
        m_pendingDelete (after start (before ++ KeyPress KeySubmit :: earlier)) = frozen)).
Proof.
  intros Hs Hwf Hi. pose proof Hwf as [Hall [Ha _]%Forall_cons]%Forall_app.
  destruct (Reduce_ok _ a (run_inv start actions Hs Hall) Ha) as (_ & Hasked & Hbatch).
  rewrite Forall_forall in Hasked. split_and!; [by apply Hasked|by apply Hbatch|].
  by apply delete_confirmed_twice.
Qed.

(** C40: Whatever arrives and whatever is typed, both panes show exactly the entries that pass the filter
    and the hidden-file setting, each once and in the order of the sort, the cursor and the visual anchor
    are on a row that is there (so no index is out of range), a pane's location is one of its endpoint,
    the other cursors stay on their lists, and a preview keeps at most 64 KiB. *)
Theorem panes_hold start actions :
  opened start → Forall wf_action actions →
  let m := after start actions in
  pane_ok (m_Panes m).1 ∧ pane_ok (m_Panes m).2 ∧ validPane (m_Active m) = true ∧
  cursor_on (m_JobCursor m) (m_Jobs m) ∧
  cursor_on (sh_Cursor (m_Search m)) (sh_Results (m_Search m)) ∧
  cursor_on (cs_Cursor (m_ContentSearch m)) (cs_Results (m_ContentSearch m)) ∧
  cursor_on (er_Cursor (m_EditRecovery m)) (er_Items (m_EditRecovery m)) ∧
  blen (pv_Data (m_Preview m)) ≤ PreviewByteLimit.
Proof. intros Hs Hall m. destruct (run_inv start actions Hs Hall). by split_and!; try apply inv_search; try apply inv_content. Qed.
End Runs.

(** * A deletion *)
Module TuiDemo.
#[local] Instance plain : Unicode := λ r, r.
Definition local : Endpoint := mkEndpoint "local" EndpointLocal "" "".
Definition directory : Location := mkLocation "local" "/d".
Definition pane : PaneState := NewPaneState local directory.
Definition start : Model := SetEndpointChoices (NewModel pane pane) [].
Definition entry (name : string) : Entry :=
  mkEntry (childLocation directory name) name EntryFile Metadata_zero Fingerprint_zero None.
Definition file : FileRef := mkFileRef (childLocation directory "a") EntryFile Fingerprint_zero Revision_zero.
(** A listing, the preparation of a deletion, and Submit, pressed once; what is
    typed meanwhile goes nowhere, and what is late is left aside. *)
Definition actions : list Action :=
  [BeginListing Left 1 directory local "ready" 0 CapabilitySnapshot_zero false;
   ListingPage Left 1 [entry "b"] false false; ListingPage Left 2 [entry "c"] true false;
   ListingPage Left 1 [entry "a"; entry ".h"] true false;
   DeletePrepared [file] ""; TextInput "x"; KeyPress KeySubmit;
   ListingFailed Left 7 "late" "" "" false directory].
Lemma start_opened : opened start.
Proof. constructor; split; reflexivity. Qed.
Lemma actions_wf : Forall wf_action actions.
Proof. repeat constructor. Qed.
Example deletion_asked : (Reduce (after start actions) (KeyPress KeySubmit)).2 = [delete_intent file].
Proof. vm_compute. reflexivity. Qed.
Lemma effects_asked_witness :
  submits (after start actions) (KeyPress KeySubmit) ModeDeleteConfirm ∧
  ∃ frozen before between, actions = before ++ KeyPress KeySubmit :: between ∧
    DeletePrepared frozen "" ∈ before ∧ file ∈ frozen ∧ m_pendingDelete (after start before) = frozen.
Proof.
  destruct (effects_asked start actions (KeyPress KeySubmit) (delete_intent file) start_opened)
    as (Hasked & _ & Htwice).
  - repeat constructor.
  - rewrite deletion_asked. by left.
  - destruct Hasked as [Hsubmit _]. split; [exact Hsubmit|].
    destruct (Htwice eq_refl) as (frozen & before & between & r & Ea & _ & Hp & Hr & Ei & _ & Ef & _).
    exists frozen, before, between. split_and!; try done.
    apply (f_equal i_Target) in Ei. cbn in Ei. by rewrite Ei.
Defined.
Lemma panes_hold_witness :
  pane_visible (m_Panes (after start actions)).1 = [1%nat; 0%nat] ∧
  pane_ok (m_Panes (after start actions)).1 ∧ pane_ok (m_Panes (after start actions)).2.
Proof.
  split; [vm_compute; reflexivity|].
  destruct (panes_hold start actions start_opened actions_wf) as (Hl & Hr & _). exact (conj Hl Hr).
Defined.
End TuiDemo.
