(* ===== verification/TransferDemo.v ===== *)
(** A transfer on a store in memory, paused after its first bytes and resumed:
    the hypotheses of the theorems about histories hold of it. *)
From S2P Require Import Prelude Bandwidth Domain GoPath Provider DirectProtocol Plan Checkpoint Effects.
From S2P Require Import Logic Mutation Stream Worker Commit Execute StreamFacts StreamTotal Evidence TransferFacts.
From S2P Require Import WorkerFacts RecoveryFacts CommitFacts ExecuteFacts History.

Module CopyDemo.
(** A hash that keeps everything. *)
Definition hash : Type := list byte.
#[export] Instance hash_Hash : Hash hash := {|
  h_new := []; h_write := app; h_sum := String.string_of_list_byte; h_marshal := λ h, h; h_unmarshal := Some;
|}.
#[export] Instance hash_laws : HashLaws hash.
Proof. split; [intros; apply app_assoc|intros; apply app_nil_r|done]. Qed.

(** The store: the part and the final file, if they are there, the position of
    the reader, and the saved checkpoint. *)
Record disk := mkDisk {
  d_part : option (list byte); d_final : option (list byte); d_pos : nat; d_saved : option Checkpoint;
}.
Definition content : list byte := String.list_byte_of_string "hello".
Definition job : string := "job_aaaqeayeaudaocajbifqydp674".
Definition location (path : string) : Location := mkLocation "ep" path.
Definition source : Location := location "/s/f".
Definition final : Location := location "/d/f".
Definition part : Location := childLocation (location "/d") (part_name "/d/f" job).

Definition fp (bs : list byte) : Fingerprint :=
  mkFingerprint (Some (blen bs)) None None None None None None.
Definition entry (l : Location) (bs : list byte) : Entry :=
  mkEntry l (path_Base (loc_Path l)) EntryFile
    (mkMetadata (Some (blen bs)) None None None None None None) (fp bs) None.
Definition contents (l : Location) (w : disk) : option (list byte) :=
  if bool_decide (l = source) then Some content else
  if bool_decide (l = part) then d_part w else
  if bool_decide (l = final) then d_final w else None.

Definition not_found : error := EOp CodeNotFound "" "" "ep" None (mkRetry RetryNever 0) EffectNone None.
Definition stat_op (request : StatRequest) (w : disk) : result error Entry * disk :=
  (match contents (stat_Location request) w with
   | Some bs => Ok (entry (stat_Location request) bs) | None => Err not_found end, w).
Definition open_read (request : OpenReadRequest) (w : disk) : result error (ReadHandle disk) * disk :=
  let l := read_Location request in
  match contents l w with
  | None => (Err not_found, w)
  | Some bs =>
    (Ok (mkReadHandle (mkReadInfo (entry l bs) (fp bs))
           (λ size w,
              let chunk := take (Z.to_nat size) (drop (d_pos w) (default [] (contents l w))) in
              if bool_decide (chunk = []) then ((0, [], Some EOF), w)
              else ((blen chunk, chunk, None),
                    mkDisk (d_part w) (d_final w) (d_pos w + length chunk) (d_saved w)))
           (λ w, (None, w)) None None),
     mkDisk (d_part w) (d_final w) (Z.to_nat (read_Offset request)) (d_saved w))
  end.
Definition handle : WriteHandle disk :=
  mkWriteHandle
    (λ bs w, ((blen bs, None),
              mkDisk (Some (default [] (d_part w) ++ bs)) (d_final w) (d_pos w) (d_saved w)))
    (λ w, (None, w)) (λ w, (None, w)) None None None.
Definition open_write (request : OpenWriteRequest) (w : disk) : result error (WriteHandle disk) * disk :=
  (Ok handle, if bool_decide (d_part w = None)
              then mkDisk (Some []) (d_final w) (d_pos w) (d_saved w) else w).
Definition rename_op (request : RenameRequest) (w : disk) : result error RenameResult * disk :=
  (Ok (mkRenameResult true false), mkDisk None (d_part w) (d_pos w) (d_saved w)).

Definition binding : CapabilityBinding := mkBinding (mkRevision "s" 1) (mkCapability "copy" 1 []).
Definition snapshot : EndpointSnapshot :=
  mkEndpointSnapshot "ep" "s" "ready" (mkCapSnapshot (mkRevision "s" 1) true [bind_Capability binding]) 0.
Definition endpoint : Endpoint := mkEndpoint "ep" EndpointLocal "" "".
Definition provider : Provider disk :=
  mkProvider endpoint (λ w, (Ok snapshot, w)) (λ _ w, (Err not_found, w)) stat_op open_read
    (Some (mkMutable open_write rename_op (λ _ w, (Some not_found, w)) (λ _ w, (Err not_found, w)))) None None None.
Definition journal : Journal disk :=
  mkJournal (λ _ w, (Ok (d_saved w), w))
    (λ cp w, (None, mkDisk (d_part w) (d_final w) (d_pos w) (Some cp))) None.

(** The user pauses once something is copied, or does not. *)
Definition pausing : Control disk :=
  mkControl (λ cp w, (if 0 <? Offset cp then ControlPause else ControlContinue, w))
    (λ _ w, (ControlContinue, w)).
Definition worker (control : option (Control disk)) : Worker disk :=
  mkWorker (λ _, Ok provider) journal None control None (λ _, None) (λ w, (0, w)) 20.

Definition plan : Plan :=
  Plan_zero <| plan_Version := 1 |> <| plan_JobID := job |> <| plan_Kind := OperationCopy |>
    <| SourceEndpoint := endpoint |> <| DestinationEndpoint := endpoint |>
    <| Source := mkFileRef source EntryFile (fp content) (mkRevision "s" 1) |>
    <| DestinationDirectory := location "/d" |> <| RequestedName := "f" |>
    <| Final := final |> <| Part := part |> <| SourceCapability := binding |>
    <| DestinationCapability := binding |> <| Route := RouteLocal |>
    <| Verification := VerifySHA256 |> <| ConflictPolicy := ConflictAsk |> <| BufferBytes := 2 |>.

Definition w0 : disk := mkDisk None None 0 None.
Definition run1 := executeFile (H := hash) (worker (Some pausing)) plan w0.
Definition w1 : disk := run1.2.
Definition run2 := executeFile (H := hash) (worker None) plan w1.

Abbreviation all := (([] ++ run1.1.2) ++ run2.1.2).

Lemma plan_file : file_plan plan.
Proof. split; [by vm_compute|by exists 5|done]. Qed.
Lemma plan_placed : placed plan.
Proof. split; try by vm_compute. cbn. rewrite elem_of_cons. by intros [?|?%elem_of_nil]. Qed.
Lemma worker_surroundings control : surroundings (worker control).
Proof.
  split; [by intros ?|]. intros id p m request w h w' [= <-] [= <-] [= <- _]. by split.
Qed.

(** Each load gives what has been saved. *)
Fixpoint journalled_after (saved : list Checkpoint) (t : list event) : bool :=
  match t with
  | [] => true
  | EvSave cp _ :: t => journalled_after (cp :: saved) t
  | EvLoad _ (Ok (Some cp)) :: t => bool_decide (cp ∈ saved) && journalled_after saved t
  | _ :: t => journalled_after saved t
  end.
Lemma journalled_after_ok saved h t :
  (∀ cp, cp ∈ saved → ∃ err, EvSave cp err ∈ h) → journalled_after saved t = true →
  ∀ h1 job cp h2, t = h1 ++ EvLoad job (Ok (Some cp)) :: h2 → ∃ err, EvSave cp err ∈ h ++ h1.
Proof.
  revert saved h. induction t as [|e t IH]; intros saved h Hs Ht h1 job cp h2 E.
  { by destruct h1. }
  destruct h1 as [|e1 h1]; cbn in E; injection E as -> E.
  - cbn in Ht. apply andb_true_iff in Ht as [Hc%bool_decide_eq_true _].
    rewrite app_nil_r. by apply Hs.
  - assert (∃ saved', journalled_after saved' t = true ∧
      ∀ cp, cp ∈ saved' → ∃ err, EvSave cp err ∈ h ++ [e1]) as (saved' & Ht' & Hs').
    { assert (∀ cp, cp ∈ saved → ∃ err, EvSave cp err ∈ h ++ [e1]) as Hold.
      { intros c Hc. destruct (Hs c Hc) as [err Hin]. exists err. apply elem_of_app. by left. }
      destruct e1 as [| | | | | | | | | | | | | | | | | | |job' [[c|]|]|c err| | |];
        try by exists saved.
      - exists saved. split; [|done]. by apply andb_true_iff in Ht as [_ ?].
      - exists (c :: saved). split; [done|]. intros c' [->|Hc]%elem_of_cons; [|by apply Hold].
        exists err. apply elem_of_app. right. by left. }
    replace (h ++ e1 :: h1) with ((h ++ [e1]) ++ h1) by by rewrite <-app_assoc.
    by apply (IH saved' (h ++ [e1]) Hs' Ht' h1 job cp h2).
Qed.
Lemma all_journalled : journalled all.
Proof.
  intros h1 job cp h2 E. apply (journalled_after_ok [] [] all) with (3 := E); [|by vm_compute].
  by intros ? ?%elem_of_nil.
Qed.

Lemma triple {A B C} (x : A * B * C) : x = (x.1.1, x.1.2, x.2).
Proof. by destruct x as [[? ?] ?]. Qed.
Lemma run_extends h control w (run : outcome (Result * option error) * list event * disk) :
  history disk hash plan h → executeFile (worker control) plan w = run →
  history disk hash plan (h ++ run.1.2).
Proof.
  intros Hh E. eapply history_run; [exact Hh|apply (worker_surroundings control)| |reflexivity].
  rewrite E. apply triple.
Qed.
Lemma run1_is : executeFile (H := hash) (worker (Some pausing)) plan w0 = run1.
Proof. unfold run1. reflexivity. Qed.
Lemma run2_is : executeFile (H := hash) (worker None) plan w1 = run2.
Proof. unfold run2. reflexivity. Qed.
Lemma run1_history : history disk hash plan ([] ++ run1.1.2).
Proof. exact (run_extends [] (Some pausing) w0 run1 (history_nil plan) run1_is). Qed.
Lemma all_history : history disk hash plan all.
Proof. exact (run_extends ([] ++ run1.1.2) None w1 run2 run1_history run2_is). Qed.
Lemma split_history k e :
  all !! k = Some e → history disk hash plan (take k all ++ e :: drop (S k) all) ∧
  journalled (take k all ++ e :: drop (S k) all).
Proof. intros E. rewrite (take_drop_middle all k e E). split; [exact all_history|exact all_journalled]. Qed.

(** The rename, and the record of its intent. *)
Definition renaming : RenameRequest := mkRenameRequest part final false (Some (fp content)) None.
Definition rename_event : event := EvRename renaming (Ok (mkRenameResult true false)).
Lemma rename_at : all !! 54%nat = Some rename_event.
Proof. vm_compute. reflexivity. Qed.
Definition intent : Checkpoint := new_checkpoint plan.
Definition intent_event : event := EvSave intent None.
Lemma intent_at : all !! 3%nat = Some intent_event.
Proof. vm_compute. reflexivity. Qed.
Definition resumption : OpenWriteRequest :=
  mkOpenWriteRequest part 2 WriteResumeExisting (Some (fp (take 2 content))).
Definition resume_event : event := EvOpenWrite resumption None.
Lemma resume_at : all !! 26%nat = Some resume_event.
Proof. vm_compute. reflexivity. Qed.

Lemma saved_checkpoint_accepted_witness :
  cp_JobID intent = plan_JobID plan ∧ checkpointMatchesPlan intent plan = true ∧
  durableBytes intent ≤ Offset intent.
Proof.
  destruct (split_history 3 intent_event intent_at) as [Hh Hj].
  refine (saved_checkpoint_accepted plan plan_file (take 3 all) intent None (drop 4 all)
            plan_placed _ _ Hh Hj); [reflexivity|discriminate].
Defined.

Lemma transfer_confined_witness :
  rename_Source renaming = Part plan ∧ final_name plan (rename_Destination renaming) ∧
  (rename_Replace renaming = true →
     ConflictPolicy plan = ConflictOverwrite ∧ is_Some (rename_ExpectedDestination renaming)).
Proof.
  exact (transfer_confined plan plan_file all rename_event all_history all_journalled
           (list_elem_of_lookup_2 _ _ _ rename_at)).
Defined.

Lemma part_written_from_record_witness :
  ∃ cp, recorded (take 26 all) cp ∧
    (write_Disposition resumption = WriteCreateNew ∧ write_Offset resumption = 0 ∧
     cp_Phase cp = PhasePrepared ∨
     write_Disposition resumption = WriteResumeExisting ∧
     is_Some (write_ExpectedFingerprint resumption) ∧ cp_Phase cp = PhaseStreaming ∧
     ∃ bytes, sourced plan (take 26 all) bytes ∧ write_Offset resumption = blen bytes ∧
       ChecksumState cp = h_marshal (h_write (h_new (H := hash)) bytes)).
Proof.
  destruct (split_history 26 resume_event resume_at) as [Hh Hj].
  exact (part_written_from_record plan plan_file (take 26 all) resume_event (drop 27 all) Hh Hj).
Defined.

Lemma published_only_verified_witness :
  ∃ pre cp, take 54 all = pre ++ [EvSave cp None] ∧ cp_Phase cp = PhaseCommitting ∧
    rename_Destination renaming = cp_Final cp ∧
    rename_ExpectedSource renaming = Some (PartFingerprint cp) ∧
    (Verification plan = VerifySHA256 →
       has_readback hash (Part plan) (PartFingerprint cp) (ChecksumHex cp) pre) ∧
    (local_or_relay (Route plan) = true →
       ∃ bytes, sourced plan pre bytes ∧ Offset cp = blen bytes ∧
         ChecksumHex cp = digest hash bytes).
Proof.
  destruct (split_history 54 rename_event rename_at) as [Hh Hj].
  exact (published_only_verified plan plan_file (take 54 all) renaming
           (Ok (mkRenameResult true false)) (drop 55 all) Hh Hj).
Defined.

(** The reader of the source. *)
Definition reading : ReadHandle disk :=
  match (open_read (mkOpenReadRequest source 0 None None) w0).1 with
  | Ok h => h | Err _ => mkReadHandle (mkReadInfo (entry source []) (fp [])) (λ _ w, ((0, [], Some EOF), w))
                          (λ w, (None, w)) None None end.
Lemma copyStream_terminates_witness :
  (copyStream (H := hash) (worker None) plan reading handle provider intent [] w0).1.1 ≠ Running.
Proof.
  refine (copyStream_terminates (worker None) plan reading handle provider intent [] 5
            _ _ _ _ _ _ _ _ w0); [reflexivity|vm_compute; split; reflexivity|..].
  all: vm_compute; first [reflexivity|intuition discriminate].
Defined.

(** The run that resumes and completes. *)
Definition result : Result :=
  Result_zero <| Outcome := OutcomeCompleted |> <| result_Final := final |> <| Bytes := 5 |>
    <| result_SHA256 := "hello" |>.
Lemma ends_with {A B C} (y x : A * B * C) a : y = x → x.1.1 = a → y = (a, x.1.2, x.2).
Proof. intros -> <-. apply triple. Qed.
Lemma run2_result : run2.1.1 = Returned (result, None).
Proof. vm_compute. reflexivity. Qed.
Lemma run2_returns :
  executeFile (H := hash) (worker None) plan w1 = (Returned (result, None), run2.1.2, run2.2).
Proof. exact (ends_with _ run2 _ run2_is run2_result). Qed.
Lemma completed_copy_is_source_witness :
  ∃ sum,
    (local_or_relay (Route plan) = true ∧
       (∃ bytes, sourced plan all bytes ∧ Bytes result = blen bytes ∧ sum = digest hash bytes) ∨
     local_or_relay (Route plan) = false ∧
       ((∃ bytes, sourced plan all bytes ∧ Bytes result = blen bytes ∧ sum = digest hash bytes) ∨
        Route plan = RouteSFTPServerCopy ∧
          has_readback hash (ref_Location (Source plan)) (ref_Fingerprint (Source plan)) sum all ∨
        Route plan = RouteHelperSameHost ∧
          ∃ binding, SameHostCopy plan = Some binding ∧ sum = sh_SourceSHA256 binding)) ∧
    (Verification plan = VerifySHA256 →
       result_SHA256 result = sum ∧ has_readback hash (result_Final result) Fingerprint_zero sum all) ∧
    (Verification plan = VerifyProtocol →
       has_readback hash (result_Final result) Fingerprint_zero sum all ∨
       ∃ request answer, EvRename request (Ok answer) ∈ all ∧
         rename_Source request = Part plan ∧ rename_Destination request = result_Final result).
Proof.
  exact (completed_copy_is_source plan plan_file ([] ++ run1.1.2) (worker None) w1 result run2.1.2
           run2.2 run1_history (worker_surroundings None) run2_returns all_journalled eq_refl).
Defined.
End CopyDemo.

(** * A sync-back on a store in memory *)
Module SyncBackDemo.
Import CopyDemo (hash, hash_Hash, hash_laws, location, job, not_found, binding, endpoint, snapshot).
#[local] Existing Instances hash_Hash hash_laws.
(** The store: the part, the final file, the backup, the position of the reader
    and the saved checkpoint. *)
Record disk := mkDisk {
  d_part : option (list byte); d_final : option (list byte); d_backup : option (list byte);
  d_pos : nat; d_saved : option Checkpoint;
}.
(** The contents are their own digests. *)
Definition edited : string := String.concat "" (replicate 64 "a").
Definition original : string := String.concat "" (replicate 64 "b").
Definition source : Location := location "/m/f".
Definition final : Location := location "/d/f".
Definition part : Location := childLocation (location "/d") (part_name "/d/f" job).
Definition backup : Location := childLocation (location "/d") (original_name "/d/f" job).

Definition fp (bs : list byte) : Fingerprint :=
  mkFingerprint (Some (blen bs)) None None None None (Some "sha256")
    (Some (String.string_of_list_byte bs)).
Definition entry (l : Location) (bs : list byte) : Entry :=
  mkEntry l (path_Base (loc_Path l)) EntryFile
    (mkMetadata (Some (blen bs)) None None None None None None) (fp bs) None.
Definition contents (l : Location) (w : disk) : option (list byte) :=
  if bool_decide (l = source) then Some (String.list_byte_of_string edited) else
  if bool_decide (l = part) then d_part w else
  if bool_decide (l = final) then d_final w else
  if bool_decide (l = backup) then d_backup w else None.

Definition stat_op (request : StatRequest) (w : disk) : result error Entry * disk :=
  (match contents (stat_Location request) w with
   | Some bs => Ok (entry (stat_Location request) bs) | None => Err not_found end, w).
Definition open_read (request : OpenReadRequest) (w : disk) : result error (ReadHandle disk) * disk :=
  let l := read_Location request in
  match contents l w with
  | None => (Err not_found, w)
  | Some bs =>
    (Ok (mkReadHandle (mkReadInfo (entry l bs) (fp bs))
           (λ size w,
              let chunk := take (Z.to_nat size) (drop (d_pos w) (default [] (contents l w))) in
              if bool_decide (chunk = []) then ((0, [], Some EOF), w)
              else ((blen chunk, chunk, None), mkDisk (d_part w) (d_final w) (d_backup w)
                                                 (d_pos w + length chunk) (d_saved w)))
           (λ w, (None, w)) None None),
     mkDisk (d_part w) (d_final w) (d_backup w) (Z.to_nat (read_Offset request)) (d_saved w))
  end.
Definition handle : WriteHandle disk :=
  mkWriteHandle
    (λ bs w, ((blen bs, None), mkDisk (Some (default [] (d_part w) ++ bs)) (d_final w) (d_backup w)
                                 (d_pos w) (d_saved w)))
    (λ w, (None, w)) (λ w, (None, w)) None None None.
Definition open_write (request : OpenWriteRequest) (w : disk) : result error (WriteHandle disk) * disk :=
  (Ok handle, mkDisk (Some (default [] (d_part w))) (d_final w) (d_backup w) (d_pos w) (d_saved w)).
Definition rename_op (request : RenameRequest) (w : disk) : result error RenameResult * disk :=
  (Ok (mkRenameResult true false), mkDisk None (d_part w) (d_backup w) (d_pos w) (d_saved w)).
(** The original is moved to the backup. *)
Definition preserve (request : PreserveDestinationRequest) (options : ReadStreamOptions)
    (resume : option (option error)) (w : disk) : preserve_action * disk :=
  (PreserveDone (mkPreserveResult true false false) None,
   mkDisk (d_part w) None (d_final w) (d_pos w) (d_saved w)).

Definition provider : Provider disk :=
  mkProvider endpoint (λ w, (Ok snapshot, w)) (λ _ w, (Err not_found, w)) stat_op open_read
    (Some (mkMutable open_write rename_op (λ _ w, (Some not_found, w)) (λ _ w, (Err not_found, w)))) None (Some preserve) None.
Definition journal : Journal disk :=
  mkJournal (λ _ w, (Ok (d_saved w), w))
    (λ cp w, (None, mkDisk (d_part w) (d_final w) (d_backup w) (d_pos w) (Some cp))) None.
Definition worker : Worker disk :=
  mkWorker (λ _, Ok provider) journal None None None (λ _, None) (λ w, (0, w)) 20.

Definition expected : DestinationPrecondition :=
  mkPrecondition DestinationPresent EntryFile (fp (String.list_byte_of_string original)) original.
Definition plan : Plan :=
  Plan_zero <| plan_Version := 2 |> <| Origin := OriginSyncBack |>
    <| EditSessionID := String.concat "" (replicate 32 "0") |>
    <| ExpectedDestination := Some expected |> <| OriginalDestinationPrecondition := Some expected |>
    <| ExpectedSourceSHA256 := edited |> <| PreservedDestination := backup |>
    <| plan_JobID := job |> <| plan_Kind := OperationCopy |>
    <| SourceEndpoint := endpoint |> <| DestinationEndpoint := endpoint |>
    <| Source := mkFileRef source EntryFile (fp (String.list_byte_of_string edited))
                   (mkRevision "s" 1) |>
    <| DestinationDirectory := location "/d" |> <| RequestedName := "f" |>
    <| Final := final |> <| Part := part |> <| SourceCapability := binding |>
    <| DestinationCapability := binding |> <| Route := RouteLocal |>
    <| Verification := VerifySHA256 |> <| ConflictPolicy := ConflictOverwrite |>
    <| BufferBytes := 64 |>.

Definition w0 : disk := mkDisk None (Some (String.list_byte_of_string original)) None 0 None.
Definition run := executeFile (H := hash) worker plan w0.
Abbreviation all := ([] ++ run.1.2).

Lemma edit_plan_file : file_plan plan.
Proof. split; [by vm_compute|by exists 64|done]. Qed.
Lemma edit_worker_surroundings : surroundings worker.
Proof.
  split; [by intros ?|]. intros id p m request w h w' [= <-] [= <-] [= <- _]. by split.
Qed.
Lemma run_is : executeFile (H := hash) worker plan w0 = run.
Proof. unfold run. reflexivity. Qed.
Lemma edit_all_history : history disk hash plan all.
Proof.
  eapply history_run; [exact (history_nil plan)|exact edit_worker_surroundings| |reflexivity].
  rewrite run_is. apply CopyDemo.triple.
Qed.
(** The only load finds nothing. *)
Definition no_checkpoint (e : event) : bool :=
  match e with EvLoad _ (Ok (Some _)) => false | _ => true end.
Lemma edit_all_journalled : journalled all.
Proof.
  assert (forallb no_checkpoint all = true) as Hall by (vm_compute; reflexivity).
  intros h1 j cp h2 E. rewrite E, forallb_app in Hall. apply andb_true_iff in Hall as [_ Hall]. discriminate Hall.
Qed.

(** The original is renamed over only after its backup. *)
Definition renaming : RenameRequest :=
  mkRenameRequest part final false (Some (fp (String.list_byte_of_string edited))) None.
Definition rename_event : event := EvRename renaming (Ok (mkRenameResult true false)).
Lemma edit_rename_at : all !! 36%nat = Some rename_event.
Proof. vm_compute. reflexivity. Qed.
Lemma rename_history :
  history disk hash plan (take 36 all ++ rename_event :: drop 37 all) ∧
  journalled (take 36 all ++ rename_event :: drop 37 all).
Proof.
  rewrite (take_drop_middle all 36 rename_event edit_rename_at).
  split; [exact edit_all_history|exact edit_all_journalled].
Qed.

Lemma sync_back_preserves_original_witness :
  ∃ size kept, fp_Size (pre_Fingerprint expected) = Some size ∧ BackupPresent kept = true ∧
    EvPreserve (mkPreserveRequest (Final plan) (PreservedDestination plan)
      (pre_Fingerprint expected) (pre_ContentSHA256 expected) (i64 size) (2 * 1024 * 1024 * 1024))
      kept None ∈ take 36 all.
Proof.
  destruct rename_history as [Hh Hj].
  exact (sync_back_preserves_original plan edit_plan_file (take 36 all) renaming
           (Ok (mkRenameResult true false)) (drop 37 all) expected Hh Hj eq_refl eq_refl eq_refl).
Defined.
End SyncBackDemo.
