(* ===== verification/MoveDemo.v ===== *)
(** Directories on a small tree in memory: one that was copied and is then moved,
    its source deleted file by file; and one whose copy was interrupted and is
    taken up again. *)
From S2P Require Import Prelude TokenBucket Bandwidth Domain GoPath Provider DirectProtocol Plan Admission.
From S2P Require Import Checkpoint Effects Logic Mutation MutationFacts Stream Worker Move Execute.
From S2P Require Import DirectoryCopy DirectoryStreams StreamFacts MoveFacts DirectoryFacts DirectoryRuns.
From S2P Require Import DirectoryTheorems TransferDemo.

Module MoveDemo.
#[local] Existing Instance CopyDemo.hash_Hash.
#[local] Existing Instance CopyDemo.hash_laws.
(** Paths with their contents, none for a directory; and the reader's position. *)
Record disk := mkDisk { d_tree : list (string * option (list byte)); d_pos : nat }.
Definition bytes (s : string) : list byte := String.list_byte_of_string s.
Definition location (path : string) : Location := mkLocation "ep" path.
Definition fp (content : option (list byte)) : Fingerprint :=
  mkFingerprint (blen <$> content) None None None None None None.
Definition entry (l : Location) (content : option (list byte)) : Entry :=
  mkEntry l (path_Base (loc_Path l)) (match content with Some _ => EntryFile | None => EntryDirectory end)
    (mkMetadata (blen <$> content) None None None None None None) (fp content) None.
Fixpoint find_path (path : string) (t : list (string * option (list byte))) : option (option (list byte)) :=
  match t with
  | [] => None
  | (p, c) :: t => if String.eqb p path then Some c else find_path path t
  end.
Definition stat_op (request : StatRequest) (w : disk) : result error Entry * disk :=
  (match find_path (loc_Path (stat_Location request)) (d_tree w) with
   | Some c => Ok (entry (stat_Location request) c) | None => Err CopyDemo.not_found end, w).
Definition child_of (directory path : string) : bool :=
  String.eqb (path_Join directory (path_Base path)) path.
Definition list_op (request : ListRequest) (w : disk) : result error ListPage * disk :=
  (Ok (mkListPage
         (omap (λ pc, if child_of (loc_Path (list_Location request)) pc.1
                      then Some (entry (location pc.1) pc.2) else None) (d_tree w)) "" true false "" (fp None)), w).
Definition open_read (request : OpenReadRequest) (w : disk) : result error (ReadHandle disk) * disk :=
  let l := read_Location request in
  match find_path (loc_Path l) (d_tree w) with
  | Some (Some bs) =>
    (Ok (mkReadHandle (mkReadInfo (entry l (Some bs)) (fp (Some bs)))
           (λ size w,
              let chunk := take (Z.to_nat size) (drop (d_pos w) bs) in
              if bool_decide (chunk = []) then ((0, [], Some EOF), w)
              else ((blen chunk, chunk, None), mkDisk (d_tree w) (d_pos w + length chunk)))
           (λ w, (None, w)) None None), mkDisk (d_tree w) 0)
  | _ => (Err CopyDemo.not_found, w)
  end.
Definition remove_op (request : RemoveRequest) (w : disk) : option error * disk :=
  (None, mkDisk (filter (λ pc, pc.1 ≠ loc_Path (remove_Location request)) (d_tree w)) (d_pos w)).
Definition provider : Provider disk :=
  mkProvider CopyDemo.endpoint (λ w, (Ok CopyDemo.snapshot, w)) list_op stat_op open_read
    (Some (mkMutable (λ _ w, (Err CopyDemo.not_found, w)) (λ _ w, (Err CopyDemo.not_found, w)) remove_op
             (λ _ w, (Err CopyDemo.not_found, w))))
    None None None.
Definition Resolve (_ : string) : result error (Provider disk) := Ok provider.
Lemma moving_honest : honest Resolve.
Proof.
  intros ep p [= <-] request w e w'. cbn. unfold stat_op. destruct (find_path _ _); [|done].
  by intros [= <- _].
Qed.

Definition plan : Plan :=
  Plan_zero <| plan_Version := 1 |> <| plan_JobID := CopyDemo.job |> <| plan_Kind := OperationMove |>
    <| SourceEndpoint := CopyDemo.endpoint |> <| DestinationEndpoint := CopyDemo.endpoint |>
    <| Source := mkFileRef (location "/s") EntryDirectory (fp None) (mkRevision "s" 1) |>
    <| DestinationDirectory := location "/d" |> <| RequestedName := "s" |> <| Final := location "/d/s" |>
    <| SourceDeleteCapability := Some CopyDemo.binding |>
    <| Discovery := Some (mkBudget 4 4 4) |> <| BufferBytes := 2 |>.
Definition moved : Result :=
  Result_zero <| Outcome := OutcomeCompleted |> <| result_Final := location "/d/s" |>.
Definition w0 : disk :=
  mkDisk [("/s", None); ("/s/f", Some (bytes "hello")); ("/s/t", None);
          ("/s/t/g", Some (bytes "you")); ("/d", None); ("/d/s", None);
          ("/d/s/f", Some (bytes "hello")); ("/d/s/t", None); ("/d/s/t/g", Some (bytes "you"))] 0.
Definition journal : Journal disk := mkJournal (λ _ w, (Ok None, w)) (λ _ w, (None, w)) None.
Definition run := finishMove (H := CopyDemo.hash) Resolve None None (λ _, None) 40 journal
  (λ _, None) (λ _, true) plan moved w0.
Definition removed (path : string) (content : option (list byte)) : event :=
  EvRemove (mkRemoveRequest (location path) (Some (fp content))) None.
Lemma removed_at : run.1.2 !! 66%nat = Some (removed "/s/t/g" (Some (bytes "you"))).
Proof. vm_compute. reflexivity. Qed.
Lemma run_answer : run.1.1 = Returned (true, "source directory deletion proved").
Proof. vm_compute. reflexivity. Qed.

(** The nested file is removed with its copy read back; the tree is gone. *)
Lemma finishMove_safe_witness :
  move_rule (H := CopyDemo.hash) plan (location "/d/s") (take 66 run.1.2)
    (removed "/s/t/g" (Some (bytes "you"))) ∧
  gone run.1.2 (location "/s").
Proof.
  destruct (finishMove_safe (H := CopyDemo.hash) Resolve None None (λ _, None) 40 journal
    (λ _, None) (λ _, true) plan moved w0 run.1.1 run.1.2 run.2 moving_honest
    (CopyDemo.triple run)) as [Hrule Hgone].
  split.
  - apply (Hrule _ _ (drop 67 run.1.2)). symmetry. apply take_drop_middle, removed_at.
  - exact (Hgone _ run_answer).
Defined.
End MoveDemo.

Module DirectoryDemo.
Import MoveDemo.
#[local] Existing Instance CopyDemo.hash_Hash.
#[local] Existing Instance CopyDemo.hash_laws.
Definition disk0 : disk :=
  mkDisk [("/s", None); ("/s/f", Some (bytes "hello")); ("/s/t", None);
          ("/d", None); ("/d/s", None); ("/d/s/f", Some (bytes "hello")); ("/d/s/t", None)] 0.
Definition worker : Worker disk :=
  mkWorker MoveDemo.Resolve MoveDemo.journal None None None (λ _, None) (λ w, (0, w)) 40.
Definition budget : DiscoveryBudget := mkBudget 4 4 4.
Definition mutable : MutableProvider disk :=
  mkMutable (λ _ w, (Err CopyDemo.not_found, w)) (λ _ w, (Err CopyDemo.not_found, w)) remove_op
    (λ _ w, (Err CopyDemo.not_found, w)).
Definition start : DirCheckpoint :=
  (first_root MoveDemo.plan) <| DirectoryRootOwned := true |>
    <| dir_Checkpoint := (dir_Checkpoint (first_root MoveDemo.plan)) <| cp_Phase := PhaseStreaming |> |>.
Definition any_worker : Worker disk → Prop := λ _, True.
Abbreviation step := (sstep (H := CopyDemo.hash) worker MoveDemo.plan budget true MoveDemo.provider
  MoveDemo.provider mutable any_worker).
Abbreviation run := (streams_run (H := CopyDemo.hash) worker MoveDemo.plan budget true MoveDemo.provider
  MoveDemo.provider mutable any_worker start).

Lemma does_run {A} (m : M disk A) w o t w' : m w = (o, t, w') → does m t o.
Proof. intros E. by exists w, w'. Qed.
Lemma step_run h l t l' : run h l → step l t l' → run (h ++ t) l'.
Proof. apply streams_step. Qed.
Ltac at_disk := eapply (does_run _ disk0); vm_compute; reflexivity.
(** A step of the run, and the loop's variables as they are then. *)
Lemma run_at h l l' : run h l → l = l' → run h l'.
Proof. by intros Hr <-. Qed.
Ltac tidy R :=
  match type of R with streams_run _ _ _ _ _ _ _ _ _ _ ?l =>
    let l' := eval vm_compute in l in apply (run_at _ _ l') in R; [|vm_compute; reflexivity]
  end.
Ltac next R c := eapply step_run in R; [|c; try done; try (vm_compute; reflexivity); try at_disk]; tidy R.
Ltac next_walk R := next R ltac:(eapply step_walk).
Lemma resumed : ∃ h l r, run h l ∧ lp_place l = AtEnd (r, None) ∧ Outcome r = OutcomeCompleted.
Proof.
  assert (∃ s, start_streams MoveDemo.plan start = Ok s) as [s Hs] by (eexists; vm_compute; reflexivity).
  pose proof (streams_start worker MoveDemo.plan budget true MoveDemo.provider MoveDemo.provider mutable any_worker
    start s Hs) as R. injection Hs as <-.
  next R ltac:(eapply step_saved_all). next R ltac:(eapply step_discover).
  do 9 next_walk R.
  next R ltac:(eapply step_item). next R ltac:(eapply step_slot). next R ltac:(eapply (step_valid) with (saved := None);
    [vm_compute; reflexivity|vm_compute; reflexivity|at_disk|reflexivity]).
  next R ltac:(eapply step_item). next R ltac:(eapply step_slot). next R ltac:(eapply step_others).
  next R ltac:(eapply (step_valid) with (saved := None);
    [vm_compute; reflexivity|vm_compute; reflexivity|at_disk|reflexivity]).
  next R ltac:(eapply step_closed). next R ltac:(eapply step_drained). next R ltac:(eapply step_failures).
  next R ltac:(eapply step_save with (saved := None)).
  eexists _, _, _. split; [exact R|]. split; [cbn; reflexivity|vm_compute; reflexivity].
Qed.

(** The whole of it: the run ends, and the directory is finished. *)
Lemma directory_copied_witness : ∃ h l r, run h l ∧ lp_place l = AtEnd (r, None) ∧
  ∃ h1 saved h2, h = h1 ++ SSave saved None :: h2 ∧
    finished (H := CopyDemo.hash) MoveDemo.plan budget start h1.
Proof.
  destruct resumed as (h & l & r & Hr & Hl & Ho).
  destruct (directory_copied (H := CopyDemo.hash) worker MoveDemo.plan budget true MoveDemo.provider MoveDemo.provider
    mutable any_worker start h l eq_refl Hr) as (_ & Hend & _).
  exists h, l, r. split; [exact Hr|split; [exact Hl|]].
  destruct (Hend r Hl Ho) as (h1 & saved & h2 & Hh & _ & Hf). by exists h1, saved, h2.
Defined.
(** What the run saves goes forward from the first root. *)
Lemma directory_progress_witness : ∃ h l r, run h l ∧ lp_place l = AtEnd (r, None) ∧
  obeys (progress_rule MoveDemo.plan start) [] h.
Proof.
  destruct resumed as (h & l & r & Hr & Hl & _). exists h, l, r. split; [exact Hr|split; [exact Hl|]].
  exact (directory_progress (H := CopyDemo.hash) worker MoveDemo.plan budget true MoveDemo.provider
    MoveDemo.provider mutable any_worker start h l Hr).
Defined.
End DirectoryDemo.
