(* ===== verification/PlannerDemo.v ===== *)
(** A copy planned on two directories in memory, and stored: the hypotheses of the
    theorems about planning, and about the planner and the store, hold of it. *)
From S2P Require Import Prelude Job ResourceLedger Bandwidth Domain GoPath Provider DirectProtocol Plan.
From S2P Require Import Admission PlanRecord JobTables JobStore JobRetention JobStoreFacts JobRuns.
From S2P Require Import JobRequests Checkpoint Effects Logic Mutation NameFacts Planner Execute History PlanReady.
From S2P Require Import PlannerFacts PlannerTheorems.

Module PlannerDemo.
Definition location (path : string) : Location := mkLocation "ep" path.
Definition revision : CapabilityRevision := mkRevision "s" 1.
Definition snapshot : EndpointSnapshot :=
  mkEndpointSnapshot "ep" "s" "ready"
    (mkCapSnapshot revision true [mkCapability "read" 1 []; mkCapability "write" 1 []]) 0.
Definition fingerprint : Fingerprint := mkFingerprint (Some 5) None None None None None None.
Definition entry (l : Location) (kind : string) : Entry :=
  mkEntry l (path_Base (loc_Path l)) kind (mkMetadata None None None None None None None) fingerprint None.
Definition absent : error := EOp CodeNotFound "" "" "ep" None (mkRetry RetryNever 0) EffectNone None.
Definition unused : error := EText "not used".
Definition stat_op (request : StatRequest) (w : ()) : result error Entry * () :=
  (let l := stat_Location request in
   if bool_decide (l = location "/d") then Ok (entry l EntryDirectory) else
   if bool_decide (l = location "/s/f") then Ok (entry l EntryFile) else Err absent, w).
Definition provider : Provider () :=
  mkProvider (mkEndpoint "ep" EndpointLocal "" "") (λ w, (Ok snapshot, w)) (λ _ w, (Err unused, w))
    stat_op (λ _ w, (Err unused, w))
    (Some (mkMutable (λ _ w, (Err unused, w)) (λ _ w, (Err unused, w)) (λ _ w, (Some unused, w))
             (λ _ w, (Err unused, w))))
    None None None.
Definition planner : Planner () :=
  NewPlannerWithSameHost
    (λ id, if String.eqb id "ep" then Ok provider else Err (EText "unknown endpoint")) None
    (λ w, (None, w)).

Definition identity : RequestIdentity :=
  mkIdentity "req_aaaqeayeaudaocajbifqydp674" "plan_aaaqeayeaudaocajbifqydp674"
    "job_aaaqeayeaudaocajbifqydp674" "evt_aaaqeayeaudaocajbifqydp674"
    ((1700000000 + unixToInternal) * Second + 7).
Definition copy : FreezeRequest :=
  mkFreezeRequest
    (mkIntent "" "" ClipboardCopy (mkFileRef (location "/s/f") EntryFile fingerprint revision)
       (location "/d") "f" ConflictAsk false (mkDirectPolicy false false false "") (mkBandwidth false 0))
    identity.
Definition run := Eval vm_compute in FreezeCopy planner copy tt.
Definition plan : Plan :=
  Eval vm_compute in match run.1.1 with Returned (plan, _) => plan | _ => Plan_zero end.
Lemma run_returns : ∃ create, FreezeCopy planner copy tt = (Returned (plan, create), run.1.2, tt).
Proof. eexists. vm_compute. reflexivity. Qed.
Lemma planner_production : production planner.
Proof.
  split; [done|done|]. intros id p (Resolve & [= <-] & H). 
  destruct (String.eqb_spec id "ep") as [->|]; [|done]. by injection H as <-.
Qed.
Lemma copy_named : well_named (PlanCopy copy).
Proof. by split. Qed.
Lemma plan_text : utf8_only plan.
Proof.
  intros f Hf. unfold plan. cbn [strings json_Plan json_string json_option json_list json_Location
    json_Endpoint json_Fingerprint json_CapabilityRevision json_CapabilityConstraint json_Capability
    json_CapabilityBinding json_FileRef json_DirectPolicy json_RouteEvidence json_RouteDecision]. cbn.
  rewrite !Hf by (vm_compute; reflexivity). reflexivity.
Qed.

Lemma frozen_plan_executes_witness :
  validateExecution plan = Ok () ∧
  (clean_absolute (DestinationDirectory plan) → plan_Kind plan ≠ OperationDelete → placed plan).
Proof.
  destruct run_returns as [create E].
  exact (frozen_plan_executes planner (PlanCopy copy) tt plan create _ tt E planner_production copy_named).
Defined.
Lemma frozen_copy_seen_witness : ∃ create, FreezeCopy planner copy tt = (Returned (plan, create), run.1.2, tt) ∧
  Forall reading run.1.2 ∧ missing run.1.2 (Part plan).
Proof.
  destruct run_returns as [create E]. exists create. split; [exact E|].
  destruct (frozen_copy_seen planner copy tt _ _ tt E) as [Hr H].
  split; [exact Hr|]. destruct (H plan create eq_refl) as (_ & _ & _ & Hm & _). exact Hm.
Defined.

(** The frozen plan, at the widest windows: both endpoints reached over SSH. *)
Definition remote : Plan :=
  plan <| SourceEndpoint := mkEndpoint "ep" EndpointSSH "" "host" |>
       <| DestinationEndpoint := mkEndpoint "ep" EndpointSSH "" "host" |>.
Lemma execution_admitted_witness :
  Connections (executionResourceUsage remote) = 1 ∧
  ∃ ledger ledger', NewResourceLedger ResourceLimits_zero = Ok ledger ∧
    TryAcquire ledger (executionResourceRequest plan) =
      Ok (ledger', mkResourceLease (executionResourceRequest plan) false).
Proof.
  split; [vm_compute; reflexivity|].
  refine (proj2 (proj2 (execution_admitted plan _ _ _))); [vm_compute; reflexivity|vm_compute; discriminate|].
  intros n [= <-]. lia.
Defined.

(** The root's name passes for one path component, and names the directory. *)
Example slash_accepted :
  not_one_component "/" = false ∧ childLocation (location "/d") "/" = location "/d".
Proof. split; vm_compute; reflexivity. Qed.

(** The same, to the name of the one byte 0xff: what is decoded is another file. *)
Definition odd : FreezeRequest :=
  mkFreezeRequest
    (mkIntent "" "" ClipboardCopy (mkFileRef (location "/s/f") EntryFile fingerprint revision)
       (location "/d") (String (ascii_of_nat 255) "") ConflictAsk false
       (mkDirectPolicy false false false "") (mkBandwidth false 0))
    identity.
Definition odd_run := Eval vm_compute in FreezeCopy planner odd tt.
Definition odd_plan : Plan :=
  Eval vm_compute in match odd_run.1.1 with Returned (plan, _) => plan | _ => Plan_zero end.
Definition odd_create : option (CreateRequest JSON) :=
  Eval vm_compute in match odd_run.1.1 with Returned (_, create) => Some create | _ => None end.
(** What is decoded of it has another final path. *)
Lemma odd_plan_lost :
  ∃ create decoded, DecodePlan (plan_row create) "job_aaaqeayeaudaocajbifqydp674" = Ok decoded ∧
    loc_Path (Final decoded) ≠ loc_Path (Final odd_plan).
Proof.
  destruct odd_create as [create|] eqn:Ec; [|discriminate]. exists create.
  assert (FreezeCopy planner odd tt = (Returned (odd_plan, create), odd_run.1.2, tt)) as E.
  { injection Ec as <-. vm_compute. reflexivity. }
  destruct (DecodePlan (plan_row create) "job_aaaqeayeaudaocajbifqydp674") as [decoded|err] eqn:Ed.
  - exists decoded. split; [reflexivity|].
    destruct (frozen_plan_not_utf8 planner (PlanCopy odd) tt odd_plan create _ tt _ decoded E Ed) as [_ H].
    apply H. vm_compute. reflexivity.
  - injection Ec as <-. vm_compute in Ed. discriminate Ed.
Defined.
End PlannerDemo.

Module JobPlansDemo.
#[export] Instance Endpoint_eq_dec : EqDecision Endpoint. Proof. solve_decision. Defined.
#[export] Instance Binding_eq_dec : EqDecision CapabilityBinding. Proof. solve_decision. Defined.
#[export] Instance Precondition_eq_dec : EqDecision DestinationPrecondition. Proof. solve_decision. Defined.
#[export] Instance DirectPolicy_eq_dec : EqDecision DirectPolicy. Proof. solve_decision. Defined.
#[export] Instance ServerCopy_eq_dec : EqDecision ServerCopyBinding. Proof. solve_decision. Defined.
#[export] Instance Artifact_eq_dec : EqDecision HelperArtifactID. Proof. solve_decision. Defined.
#[export] Instance SourceIdentity_eq_dec : EqDecision SameHostSourceIdentity. Proof. solve_decision. Defined.
#[export] Instance SameHost_eq_dec : EqDecision SameHostCopyBinding. Proof. solve_decision. Defined.
#[export] Instance Request_eq_dec : EqDecision dp_Request. Proof. solve_decision. Defined.
#[export] Instance Result_eq_dec : EqDecision dp_Result. Proof. solve_decision. Defined.
#[export] Instance Level2_eq_dec : EqDecision Level2PreflightBinding. Proof. solve_decision. Defined.
#[export] Instance Bandwidth_eq_dec : EqDecision BandwidthPolicy. Proof. solve_decision. Defined.
#[export] Instance Budget_eq_dec : EqDecision DiscoveryBudget. Proof. solve_decision. Defined.
#[export] Instance Plan_eq_dec : EqDecision Plan. Proof. solve_decision. Defined.
#[export] Instance JSON_eq_dec : EqDecision JSON. Proof. solve_decision. Defined.

(** The texts that the store writes itself are shown as routes here. *)
#[export] Instance json_texts : Texts JSON := {|
  text_len _ := 500;
  text_valid _ := true;
  text_object := JSONRoute "" "" "" "" "" "";
  text_daemon_restart := JSONRoute "reason" "daemon_restart" "" "" "" "";
  text_conflict _ class := JSONRoute "conflict_index" class "" "" "" "";
  text_resolution _ resolution scope := JSONRoute "conflict_index" "" resolution scope "" "";
  text_response job := JSONRoute "job_id" job "" "" "" "";
  read_response t := match t with JSONRoute "job_id" job _ _ _ _ => Some job | _ => None end;
  read_metadata t :=
    match t with JSONPlan p => Some (plan_Version p, Origin p, EditSessionID p) | _ => None end;
|}.

Definition job := "job_aaaqeayeaudaocajbifqydp674".
Definition request : option (CreateRequest JSON) :=
  Eval vm_compute in match PlannerDemo.run.1.1 with Returned (_, create) => Some create | _ => None end.
Definition empty : DB JSON := mkDB ∅ ∅ ∅ ∅ ∅ ∅ ∅ None ∅ ∅ ∅ ∅ ∅ ∅ ∅.
Definition start : TransitionRequest JSON :=
  mkTransition job 1 StateRunning "evt_aaaqeayeaudaocajbifqydp675" "job_state" text_object None None
    ((1700000001 + unixToInternal) * Second).
Lemma frozen_plan_survives_witness :
  match request with
  | Some create => let db := (Create Committed create empty).1 in
      ∃ record, GetPlan job (Transition db Committed start db).1 = Ok record ∧
        DecodePlan record job = Ok PlannerDemo.plan
  | None => False
  end.
Proof.
  destruct PlannerDemo.run_returns as [create E]. cbn [request]. cbv zeta.
  assert (request = Some create) as Hr.
  { assert (request = match (FreezeCopy PlannerDemo.planner PlannerDemo.copy tt).1.1 with
        | Returned (_, create) => Some create | _ => None end) as -> by (vm_compute; reflexivity).
    by rewrite E. }
  unfold request in Hr. injection Hr as Hr. rewrite Hr.
  destruct (frozen_plan_survives PlannerDemo.planner (PlanCopy PlannerDemo.copy) tt PlannerDemo.plan create _ tt
    Committed empty (Transition (Create Committed create empty).1 Committed start (Create Committed create empty).1).1
    E) as (record & Hget & Hkept & _).
  - rewrite <-Hr. intros Hdb. apply (f_equal (λ db, job_State <$> (jobs db !! job))) in Hdb.
    vm_compute in Hdb. discriminate Hdb.
  - apply rtc_once. split; [exact (step_Transition _ _ Committed start)|].
    assert (job_history_retention (Create Committed create empty).1 = None) as Hn
      by (rewrite <-Hr; vm_compute; reflexivity).
    intros (c & Hc & _). rewrite Hn in Hc. discriminate Hc.
  - exists record. split; [exact Hget|].
    exact (Hkept PlannerDemo.planner_production PlannerDemo.copy_named PlannerDemo.plan_text).
Defined.
End JobPlansDemo.
