(* ===== verification/ManagerDemo.v ===== *)
(** Runs of the store of jobs and of the manager: the hypotheses of the theorems
    about them hold of them.

    First the store alone; then a job from its plan to its end: the plan that
    [PlannerDemo] froze, read back from its record, is executed by the manager on
    the disk of [TransferDemo]. *)
From S2P Require Import Prelude Job Bandwidth Domain Utf8 GoPath Provider DirectProtocol Plan Admission PlanRecord.
From S2P Require Import JobTables JobStore JobRetention JobStoreFacts JobRuns JobStoreTheorems JobRequests.
From S2P Require Import Checkpoint Effects Logic Mutation MutationFacts Planner Stream Worker Move Execute.
From S2P Require Import DirectoryCopy Manager ManagerRequests StreamFacts MoveFacts ManagerFacts Evidence.
From S2P Require Import JobJournal TransferDemo PlannerDemo.

Module JobStoreDemo.
(** * Texts *)
Inductive text :=
| TText (s : string)
| TConflict (index : Z) (class : string)
| TResolution (index : Z) (resolution scope : string)
| TResponse (job : string)
| TMetadata (version : Z) (origin session : string)
| TFingerprint (f : Fingerprint)
| TLocation (l : checkpointLocationPayload).
#[export] Instance payload_eq_dec : EqDecision checkpointLocationPayload.
Proof. solve_decision. Defined.
#[export] Instance text_eq_dec : EqDecision text.
Proof. solve_decision. Defined.
#[export] Instance demo_texts : Texts text := {|
  text_len t := match t with TText s => len s | _ => 100 end;
  text_valid _ := true;
  text_object := TText "{}";
  text_daemon_restart := TText "daemon_restart";
  text_conflict := TConflict; text_resolution := TResolution; text_response := TResponse;
  read_response t := match t with TResponse job => Some job | _ => None end;
  read_metadata t := match t with TMetadata v o s => Some (v, o, s) | _ => None end;
|}.
#[export] Instance demo_texts_laws : TextsLaws text.
Proof. by split. Qed.
#[export] Instance demo_checkpoints : CheckpointTexts text := {|
  text_fingerprint := TFingerprint; text_location := TLocation;
  read_fingerprint t := match t with TFingerprint f => Some f | _ => None end;
  read_location t := match t with TLocation l => Some l | _ => None end;
|}.
#[export] Instance demo_checkpoints_laws : CheckpointTextsLaws text.
Proof. by split. Qed.

(** * A job: created, started, a checkpoint, completed *)
Definition at_ (n : Z) : Time := (1700000000 + n + unixToInternal) * Second.
Definition job := "job_aaaqeayeaudaocajbifqydp674".
Definition other := "job_aaaqeayeaudaocajbifqydp675".
Definition step (kind : string) : Step text := mkStep kind None None.
Definition creation (binding : option EditSessionBinding) (event : string) : CreateRequest text :=
  mkCreateRequest "plan_aaaqeayeaudaocajbifqydp674" "req_aaaqeayeaudaocajbifqydp674" job "copy"
    (TText "source") (Some (TMetadata 2 "sync_back" "0123456789abcdef0123456789abcdef"))
    "sftp_relay" "sha256" "ask" "filesystem_write" StateQueued event None (at_ 0)
    [step "transfer"; step "verify"; step "commit"] None binding.
Definition create := creation None "evt_aaaqeayeaudaocajbifqydp674".
Definition transition (version : Z) (to : State) (event : string) (summary : option string) :
    TransitionRequest text :=
  mkTransition job version to event "job_state" (TText "payload") None summary (at_ version).
Definition start := transition 1 StateRunning "evt_aaaqeayeaudaocajbifqydp675" None.
Definition verify := transition 2 StateVerifying "evt_aaaqeayeaudaocajbifqydp676" None.
Definition complete := transition 3 StateCompleted "evt_aaaqeayeaudaocajbifqydp677" (Some "done").
Definition checkpoint (offset n : Z) : CheckpointRequest text :=
  mkCheckpointRequest job 0 "streaming" offset (Some (TText "fp")) None [x01] (at_ n).

Definition db1 := (Create Committed create blank).1.
Definition db2 := (Transition db1 Committed start db1).1.
Definition db3 := (SaveCheckpoint Committed (checkpoint 10 2) db2).1.
Definition db4 := (SaveCheckpoint Committed (checkpoint 20 3) db3).1.
Lemma reach1 : reachable db1.
Proof. exact (rtc_once _ _ (step_Create blank Committed create)). Qed.
Lemma reach2 : reachable db2.
Proof. exact (rtc_r _ _ _ reach1 (step_Transition db1 db1 Committed start)). Qed.
Definition row2 : JobRow := Eval vm_compute in default (new_job create) (jobs db2 !! job).
Lemma job2 : jobs db2 !! job = Some row2.
Proof. vm_compute. reflexivity. Qed.
Lemma unclaimed (db : DB text) : job_history_retention db = None → ¬ is_claimed db job.
Proof. intros E (c & Hc & _). by rewrite E in Hc. Qed.
Lemma unclaimed2 : ¬ is_claimed db2 job.
Proof. apply unclaimed. vm_compute. reflexivity. Qed.

Lemma job_log_gapless_witness :
  (∀ n, is_Some (job_events db2 !! (job, n)) ↔ 1 ≤ n ≤ 2) ∧ job_NextEventSequence row2 = 3.
Proof. destruct (job_log_gapless db2 job row2 reach2 job2 unclaimed2) as (H & Hs & _). exact (conj H Hs). Defined.
Definition ck3 : CheckpointRow text := mkCheckpointRow "streaming" 10 (Some (TText "fp")) None (Some [x01]) 1700000002.
Lemma store_step_legal_witness :
  (jobs db2 !! job = Some row2 ∧
   ∀ n e, job_events db2 !! (job, n) = Some e →
     job_events (Transition db2 Committed verify db2).1 !! (job, n) = Some e ∨
     is_claimed db2 job ∧ State_Terminal (job_State row2) = true) ∧
  ((∃ c', job_checkpoints db4 !! (job, 0) = Some c' ∧ ck_VerifiedOffset ck3 ≤ ck_VerifiedOffset c' ∧
      ck_UpdatedAt ck3 ≤ ck_UpdatedAt c' ∧ ck_SourceFingerprint c' = ck_SourceFingerprint ck3) ∨
   job_checkpoints db4 !! (job, 0) = None ∧ is_claimed db3 job).
Proof.
  split.
  - split; [exact job2|].
    destruct (store_step_legal db2 (Transition db2 Committed verify db2).1 (step_Transition _ _ _ _)) as [H _].
    exact (proj2 (H job row2 reach2 job2)).
  - destruct (store_step_legal db3 db4 (step_SaveCheckpoint db3 Committed (checkpoint 20 3))) as [_ H].
    apply (H (job, 0) ck3). vm_compute. reflexivity.
Defined.

(** The creation is not answered, and made again after the job has started. *)
Definition lost1 := (Create CommittedUnseen create blank).1.
Definition lost2 := (Transition lost1 Committed start lost1).1.
Lemma lost_run : unforgotten job lost1 lost2.
Proof.
  apply rtc_once. split; [exact (step_Transition lost1 lost1 Committed start)|].
  apply unclaimed. vm_compute. reflexivity.
Qed.
Lemma create_exactly_once_witness :
  (∀ f', (Create f' create lost2).1 = lost2) ∧
  ∃ r, jobs lost2 !! job = Some r ∧ (Create Committed create lost2).2 = Ok (snapshot_of job r, true).
Proof.
  apply (create_exactly_once CommittedUnseen create blank lost2 create).
  - apply rtc_refl.
  - intros E. apply (f_equal (λ db, jobs db !! job)) in E. vm_compute in E. discriminate E.
  - exact lost_run.
  - reflexivity.
  - vm_compute. reflexivity.
Defined.
Definition unseen2 := (Transition db1 CommittedUnseen start db1).1.
Definition unseen3 := (Transition unseen2 Committed verify unseen2).1.
Lemma unseen_run : unforgotten job unseen2 unseen3.
Proof.
  apply rtc_once. split; [exact (step_Transition unseen2 unseen2 Committed verify)|].
  apply unclaimed. vm_compute. reflexivity.
Qed.
Lemma transition_exactly_once_witness :
  (∀ earlier' f', (Transition earlier' f' start unseen3).1 = unseen3) ∧
  ∃ r, jobs unseen3 !! job = Some r ∧
    ∀ earlier', (Transition earlier' Committed start unseen3).2 = Ok (snapshot_of job r, true).
Proof.
  apply (transition_exactly_once db1 CommittedUnseen start db1 unseen3).
  - exact reach1.
  - intros E. apply (f_equal (λ db, job_State <$> (jobs db !! job))) in E. vm_compute in E. discriminate E.
  - exact unseen_run.
Defined.

(** * A sync-back *)
Definition session := "0123456789abcdef0123456789abcdef".
Definition edited : DB text :=
  blank <| edit_sessions := {[ session := mkSessionRow "m" "dirty" "unchanged" "awaiting_decision" 3 1 1 ]} |>
        <| edit_session_details := {[ session := mkDetailRow "editor" "ref" "lease" ]} |>
        <| cache_materializations := {[ "m" := mkMaterializationRow "dirty" 1 1 1 ]} |>
        <| cache_leases := {[ "lease" := mkLeaseRow (Some "m") "edit" session 1 1 1 "active" ]} |>
        <| cache_references := {[ "ref" := mkReferenceRow (Some "m") "edit" session ]} |>.
Definition sync_back := creation (Some (mkEditSessionBinding session 3 "edit-event" "sync_back_started"))
  "evt_aaaqeayeaudaocajbifqydp674".
Definition back1 := (Create Committed sync_back edited).1.
Definition back2 := (Transition back1 Committed start back1).1.
Definition back3 := (Transition back2 Committed verify back2).1.
Example back_completes : match (Transition back3 Committed complete back3).2 with
  | Ok (s, false) => snap_State s = StateCompleted | _ => False end.
Proof. vm_compute. reflexivity. Qed.
Lemma sync_back_completes_together_witness :
  completed_together job back3 (Transition back3 Committed complete back3).1.
Proof.
  destruct (sync_back_completes_together back3 Committed complete back3) as [E|E].
  - reflexivity.
  - vm_compute. reflexivity.
  - apply (f_equal (λ db, job_State <$> (jobs db !! job))) in E. vm_compute in E. discriminate E.
  - exact E.
Defined.

(** * The journal, in a world that is the database *)
Definition point : Checkpoint := (initial_checkpoint job) <| Checkpoint.cp_Phase := PhaseStreaming |>
  <| Offset := 10 |> <| ChecksumState := [x01] |>.
Definition journal : Journal (DB text) :=
  JobJournal id (λ db _, db) (λ _, Committed) 0 (λ db, (at_ 5, db)) None.
Lemma point_utf8 : utf8_checkpoint point.
Proof.
  split; intros f Hf; cbn; rewrite ?Hf by (vm_compute; reflexivity); reflexivity.
Qed.
Lemma apart_demo : apart id (λ (db _ : DB text), db) (λ db, (at_ 5, db)) None.
Proof. by split. Qed.
Definition saved_world : DB text := (Save journal point db2).2.
Definition history_from (w : DB text) : list event :=
  [EvSave point (Save journal point w).1] ++ [EvLoad job (Load journal job (Save journal point w).2).1].
Definition journal_history : list event := history_from db2.
Lemma journal_from w :
  (∀ j, job_checkpoints w !! (j, 0) = None) →
  journal_run id (λ db _, db) (λ _, Committed) (λ db, (at_ 5, db)) None 0 (history_from w)
    (Save journal point w).2.
Proof.
  intros Hw. unfold history_from. generalize (run_save id (λ (db _ : DB text), db) (λ _, Committed)
    (λ db, (at_ 5, db)) None 0 [] w point (run_start _ _ _ _ _ _ w Hw)). cbn [app].
  unfold journal. generalize (Save (JobJournal id (λ (db _ : DB text), db) (λ _, Committed) 0
    (λ db, (at_ 5, db)) None) point w).
  intros [err w'] Hrun. cbn [fst snd] in *. exact (run_load _ _ _ _ _ _ _ _ job Hrun).
Qed.
Lemma journal_demo :
  journal_run id (λ db _, db) (λ _, Committed) (λ db, (at_ 5, db)) None 0 journal_history saved_world.
Proof. apply journal_from. intros j. vm_compute. reflexivity. Qed.
Lemma journal_loads_saved_witness :
  (Load journal job saved_world).1 = Ok (Some point) ∧ journalled journal_history.
Proof.
  split; [vm_compute; reflexivity|]. eapply (journal_loads_saved id); [exact apart_demo|exact journal_demo|].
  apply Forall_app_2; (apply Forall_cons; split; [|apply Forall_nil_2]); intros c err E.
  - pose proof (f_equal (λ e, match e with EvSave c _ => c | _ => c end) E) as Ec. cbn beta match in Ec.
    rewrite <-Ec. exact point_utf8.
  - discriminate E.
Defined.
Lemma journal_roundtrip_witness : Load journal job saved_world = (Ok (Some point), saved_world).
Proof.
  apply (journal_roundtrip id (λ db _, db) (λ _, Committed) (λ db, (at_ 5, db)) None 0 point db2).
  - exact apart_demo.
  - exact point_utf8.
  - reflexivity.
  - vm_compute. reflexivity.
Defined.
End JobStoreDemo.

(** * The manager *)
Module ManagerDemo.
#[local] Existing Instance CopyDemo.hash_Hash.
#[local] Existing Instance CopyDemo.hash_laws.
Abbreviation job := CopyDemo.job.
Record world := mkWorld { w_disk : CopyDemo.disk; w_row : JobStore.Snapshot; w_memory : Memory (); w_lent : Z }.
#[export] Instance world_eta : Settable world := λ w, mkWorld (w_disk w) (w_row w) (w_memory w) (w_lent w).

(** The disk, as a part of this world. *)
Definition on {A} (f : CopyDemo.disk → A * CopyDemo.disk) (w : world) : A * world :=
  let '(a, d) := f (w_disk w) in (a, w <| w_disk := d |>).
Definition on_read (h : ReadHandle CopyDemo.disk) : ReadHandle world :=
  mkReadHandle (Info h) (λ size, on (Read h size)) (on (Read_Close h)) None None.
Definition on_write (h : WriteHandle CopyDemo.disk) : WriteHandle world :=
  mkWriteHandle (λ bs, on (Write h bs)) (on (Sync h)) (on (Write_Close h)) None None None.
Definition on_handle {A B} (g : A → B) (f : CopyDemo.disk → result error A * CopyDemo.disk) (w : world) :
    result error B * world :=
  let '(r, w) := on f w in (match r with Ok a => Ok (g a) | Err e => Err e end, w).
Definition provider : Provider world :=
  mkProvider CopyDemo.endpoint (λ w, (Ok PlannerDemo.snapshot, w)) (λ _ w, (Err CopyDemo.not_found, w))
    (λ r, on (CopyDemo.stat_op r)) (λ r, on_handle on_read (CopyDemo.open_read r))
    (Some (mkMutable (λ r, on_handle on_write (CopyDemo.open_write r)) (λ r, on (CopyDemo.rename_op r))
             (λ _ w, (Some CopyDemo.not_found, w)) (λ _ w, (Err CopyDemo.not_found, w)))) None None None.
Definition Resolve (_ : string) : result error (Provider world) := Ok provider.
Lemma resolve_honest : honest Resolve.
Proof.
  intros ep p [= <-] request w e w'. cbn. unfold on, CopyDemo.stat_op.
  destruct (CopyDemo.contents _ _); [|done]. by intros [= <- _].
Qed.

(** The store keeps one job; its plan's record is the one that the planner made. *)
Definition record : PlanRecord JSON :=
  Eval vm_compute in match PlannerDemo.run.1.1 with
  | Returned (_, create) => plan_row create | _ => mkPlanRecord "" "" "" (JSONPlan Plan_zero) None "" "" "" "" 0 end.
Definition refused : error := EText "refused".
Definition transition_op (request : TransitionRequest Payload) (w : world) :
    result error (JobStore.Snapshot * bool) * world :=
  let row := w_row w in
  if bool_decide (tr_JobID request = snap_JobID row) && (tr_ExpectedVersion request =? snap_StateVersion row) &&
     CanTransition (snap_State row) (tr_To request)
  then let row := mkSnapshot (snap_JobID row) (snap_PlanID row) (tr_To request) (snap_StateVersion row + 1)
         (snap_NextEventSequence row + 1) (snap_PauseRequested row) (snap_CancelRequested row)
         (tr_RetryAt request) (tr_TerminalSummary request) (snap_CreatedAt row) (tr_Now request) in
       (Ok (row, false), w <| w_row := row |>)
  else (Err refused, w).
Definition control_op (request : ControlRequest Payload) (w : world) :
    result error (JobStore.Snapshot * bool) * world :=
  let row := w_row w in
  if bool_decide (co_JobID request = snap_JobID row) && (co_ExpectedVersion request =? snap_StateVersion row)
  then let row := mkSnapshot (snap_JobID row) (snap_PlanID row) (snap_State row) (snap_StateVersion row + 1)
         (snap_NextEventSequence row + 1) (default (snap_PauseRequested row) (co_PauseRequested request))
         (default (snap_CancelRequested row) (co_CancelRequested request))
         (snap_RetryAt row) (snap_TerminalSummary row) (snap_CreatedAt row) (co_Now request) in
       (Ok (row, false), w <| w_row := row |>)
  else (Err refused, w).
Definition store : ManagerStore world :=
  mkManagerStore
    (λ id w, (if String.eqb id (snap_JobID (w_row w)) then Ok (w_row w) else Err refused, w))
    (λ _ w, (Ok record, w)) (λ _ w, (Ok [w_row w], w)) (λ _ w, (Ok [], w)) (λ _ w, (Err refused, w))
    transition_op control_op (λ _ w, (Some refused, w)) (λ _ w, (Err refused, w))
    (λ _ w, (None, w)) (λ w, (None, w)) (λ w, w).
#[export] Instance store_law : StoreLaw store.
Proof.
  split.
  - intros id w s w'. cbn. destruct (String.eqb_spec id (snap_JobID (w_row w))) as [->|]; [|done].
    by intros [= <- _].
  - intros request w s b w'. cbn. unfold transition_op. destruct (bool_decide_reflect (tr_JobID request = snap_JobID (w_row w))) as [->|]; [|done].
    destruct (_ && _ && _); [|done]. by intros [= <- _ _].
  - intros request w s b w'. cbn. unfold control_op. destruct (bool_decide_reflect (co_JobID request = snap_JobID (w_row w))) as [->|]; [|done].
    destruct (_ && _); [|done]. by intros [= <- _ _].
Qed.
Definition lend (w : world) : result error () * world := (Ok (), w <| w_lent := w_lent w + 1 |>).
Definition admission : Admission world () :=
  mkAdmission (λ _, lend) (λ _, lend) (λ _ w, w) None (λ _ w, w <| w_lent := w_lent w - 1 |>).
(** What is saved is reported. *)
Definition save (observe : option (string → Z → Z → world → option error * world)) (cp : Checkpoint) (w : world) :
    option error * world :=
  let '(failure, w) := on (Save CopyDemo.journal cp) w in
  match failure, observe with
  | None, Some f => f (cp_Phase cp) (Offset cp) (Offset cp) w
  | _, _ => (failure, w)
  end.
Definition manager : Manager world () :=
  mkManager store admission Resolve
    (NewPlannerWithSameHost Resolve None (λ w, (None, w))) None None
    (λ w, (RandomGenerator_New (Some (replicate 16 Byte.x00)), w)) (λ w, (1700000000, w)) 1000 4
    (λ _ w, (true, w)) (λ _, false) (λ _, None)
    (λ observe, mkJournal (λ id, on (Load CopyDemo.journal id)) (save observe) observe)
    w_memory (λ m w, w <| w_memory := m |>) (λ _, None) (λ _, true) (λ _ w, (None, w))
    (λ _, mkDirJournal (λ _ w, (Ok None, w)) (λ _ w, (None, w)) None) (λ _ _ _ _ _ _ _, throw refused) 20.

Definition queued : JobStore.Snapshot :=
  mkSnapshot job (record_PlanID record) StateQueued 2 2 false false None None 1 1.
Definition w0 : world :=
  mkWorld CopyDemo.w0 queued (mkMemory true false 0 ∅ 0 {[job := ()]} ∅ ∅ ∅) 1.
Definition run := execute (H := CopyDemo.hash) manager job w0.
Definition last_request : TransitionRequest Payload :=
  Eval vm_compute in match run.1.2 !! 33%nat with
  | Some (EvJob (TransitionCall request _)) => request
  | _ => mkTransition "" 0 "" "" "" PEmpty None None 0 end.
Definition ended : JobStore.Snapshot := w_row run.2.
Lemma ended_at : run.1.2 !! 33%nat = Some (EvJob (TransitionCall last_request (Ok ended))).
Proof. vm_compute. reflexivity. Qed.
Example run_ends :
  run.1.1 = Returned () ∧ snap_State ended = StateCompleted ∧ w_lent run.2 = 0 ∧
  CopyDemo.d_final (w_disk run.2) = Some CopyDemo.content.
Proof. vm_compute. split_and!; reflexivity. Qed.

(** While the plan runs, the checkpoint of the transferred content is reported. *)
Definition at_work : world :=
  w0 <| w_row := mkSnapshot job (record_PlanID record) StateRunning 3 3 false false None None 1 1 |>.
Definition report (w : world) : option error * world :=
  observer manager job PlannerDemo.plan PhaseTransferred 5 5 w.
Example report_verifies : (report at_work).1 = None ∧ snap_State (w_row (report at_work).2) = StateVerifying.
Proof. vm_compute. split; reflexivity. Qed.

(** The completion was asked for with the copy made; the observer asked for its own
    job only. *)
Lemma execute_follows_record_witness :
  tr_To last_request = StateCompleted ∧ done_with job (take 33 run.1.2) ∧
  ∃ calls, calls ≠ [] ∧ ∀ pre ev post, calls = pre ++ ev :: post → observer_rule job pre ev.
Proof.
  split; [vm_compute; reflexivity|].
  destruct (execute_follows_record (H := CopyDemo.hash) manager job w0 run.1.1 run.1.2 run.2
    resolve_honest (CopyDemo.triple run)) as [Hrun Hobserver]. split.
  - destruct (Hrun (take 33 run.1.2) (EvJob (TransitionCall last_request (Ok ended))) (drop 34 run.1.2))
      as (_ & _ & Hd).
    + symmetry. apply take_drop_middle, ended_at.
    + apply Hd. vm_compute. reflexivity.
  - destruct (Hobserver PlannerDemo.plan PhaseTransferred 5 5 at_work (report at_work).1 (report at_work).2
      (surjective_pairing _)) as (o & calls & E & Hrule & _).
    exists calls. split; [|exact Hrule]. intros ->.
    apply (f_equal (λ x, length x.1.2)) in E. vm_compute in E. discriminate E.
Defined.

(** A job that waits to be tried again, of which a pause is asked: it is resumed in
    two calls. *)
Definition paused_row : JobStore.Snapshot :=
  mkSnapshot job (record_PlanID record) StateRetryWait 5 5 true false (Some 1) None 1 1.
Definition w_paused : world :=
  mkWorld CopyDemo.w0 paused_row (mkMemory true false 0 ∅ 0 ∅ ∅ ∅ ∅) 0.
Definition resumption := Resume manager job w_paused.
Definition withdrawal : mevent :=
  Eval vm_compute in default (EvJob (ConflictsCall "" None)) (resumption.1.2 !! 1%nat).
Definition requeued : mevent :=
  Eval vm_compute in default (EvJob (ConflictsCall "" None)) (resumption.1.2 !! 2%nat).
Lemma resumption_events : resumption.1.2 = [EvJob (GetCall job (Ok paused_row)); withdrawal; requeued].
Proof. vm_compute. reflexivity. Qed.
Lemma user_requests_legal_witness :
  legal UserResume job paused_row [] withdrawal ∧ legal UserResume job paused_row [withdrawal] requeued.
Proof.
  destruct (user_requests_legal manager UserResume job w_paused) as (r & t & o & w' & E & Hr).
  apply (f_equal (λ x, x.1.2)) in E. cbn [fst snd] in E.
  assert (r = Ok paused_row ∧ t = [withdrawal; requeued]) as [-> ->].
  { change (resumption.1.2 = EvJob (GetCall job r) :: t) in E. rewrite resumption_events in E.
    by injection E as <- <-. }
  split; [exact (Hr [] withdrawal [requeued] eq_refl)|exact (Hr [withdrawal] requeued [] eq_refl)].
Defined.

(** The destination changed while its original was kept aside. *)
Definition waiting : Result :=
  Result_zero <| Outcome := OutcomeWaitingConflict |> <| result_Final := CopyDemo.final |>
    <| result_PreservedDestination := CopyDemo.location "/d/f.orig" |>.
Definition running : JobStore.Snapshot :=
  mkSnapshot job (record_PlanID record) StateRunning 3 3 false false None None 1 1.
Definition w_running : world := w0 <| w_row := running |>.
Lemma preserved_conflict_lost_witness :
  ∃ err w', settle (H := CopyDemo.hash) manager job PlannerDemo.plan running waiting None w_running =
    (Returned (), [EvJob (OpenCall job 3 (preserved_class waiting) (Some err))], w').
Proof.
  refine (proj1 (preserved_conflict_lost (H := CopyDemo.hash) manager job PlannerDemo.plan running waiting _ _ _ _ _)
            w_running).
  - reflexivity.
  - vm_compute. discriminate.
  - intros request w _. by eexists.
  - vm_compute. reflexivity.
  - intros w. vm_compute. reflexivity.
Defined.
End ManagerDemo.
